(* ===== verification/_CoqProject ===== *)
-Q . S2P
Prelude.v
Float64.v
TokenBucket.v
Concurrent.v
Ring.v
SlidingWindow.v
RollingWindow.v
BudgetTracker.v
Limiter.v
Enforcement.v
LimitStorage.v
LimitsManager.v
GoValue.v
Ast.v
PolicyContext.v
PolicyFields.v
PolicyMatcher.v
PolicyConfig.v
PolicyExecutor.v
PolicyPriority.v
PolicyEngine.v
StickyCache.v
RoutingTypes.v
RoundRobin.v
RoutingStrategies.v
Router.v
Evidence.v
Retention.v
EvidenceSqlite.v
ProviderTypes.v
ProxyTypes.v
ProxyHandlers.v
ProcTokens.v
ProcContent.v
Processing.v
Recorder.v
Paths.v
PolicyRegistry.v
PolicyLoader.v
PolicyResolver.v
GitSource.v
PolicyManager.v
ConfigTypes.v
ConfigDefaults.v
ConfigValidate.v
ConfigLoad.v
LimitsMiddleware.v
MplErrors.v
MplBuilder.v
MplDataModel.v
MplValidator.v
MplValid.v
MplSound.v
ProviderHttp.v
ProviderStream.v
ProviderOpenAI.v
ProviderAnthropic.v
ProviderFactory.v
LimitSqlite.v
Secrets.v
Security.v
Server.v
EvidenceExport.v
PolicyWatch.v
EngineWatch.v
GitClone.v
TelemetryLog.v
TelemetryHealth.v
TelemetryTrace.v
TelemetryMetrics.v
CliEvidence.v
CliLint.v
CliTest.v
CliGit.v
CliCerts.v
CliBench.v
CliRun.v
MplWalk.v
