(* ===== verification/Prelude.v ===== *)
(** * Mercator Jupiter: a verification development

    Jupiter is a proxy in front of LLM providers.  This library models its
    components as the Go code under [src/pkg] and [src/cmd/mercator] has them:

    - the _proxy_ ([src/pkg/proxy]): parse and validate a chat request, choose
      a provider, answer or stream, map errors to responses;
    - _processing_ ([src/pkg/processing]): estimate tokens and cost, analyse the
      content and the conversation, score risk and complexity;
    - _limits_ ([src/pkg/limits]): may this API key spend more requests,
      tokens, concurrency or money?
    - _policy_ ([src/pkg/policy/engine] over the trees of [src/pkg/mpl/ast]):
      do the loaded rules allow, block or change the request?
    - _routing_ ([src/pkg/routing]): which provider gets it?  Its request
      carries the policy decision, whose routing target comes first.
    - _policy management_ ([src/pkg/policy/manager], [src/pkg/policy/git]): load
      policy files with their includes, from a directory or a git repository,
      and replace the active set as a whole;
    - _evidence_ ([src/pkg/evidence]): build a record of every request and its
      answer, write it asynchronously, query it, prune it, export it;
    - _the policy language_ ([src/pkg/mpl]): parse, compose and validate the
      policies the engine runs;
    - _providers_ ([src/pkg/providers], [providerfactory]): send a request to
      OpenAI, Anthropic or a compatible service, with retries and health checks;
    - _configuration_, _security_ and _the server_ ([src/pkg/config],
      [security], [server], [proxy/middleware]): settings, secrets, keys,
      certificates, and the chain of handlers that a request passes through;
    - _telemetry_ ([src/pkg/telemetry]): logs without secrets, health, traces,
      metrics;
    - _commands_ ([src/cmd/mercator]): start the gateway, check and test
      policies, query evidence, manage certificates and keys.

    ** Files

    Shared: [Prelude] (machine integers, time, map iteration, loops, sums) and
    [Float64] (binary64 arithmetic as Go's [float64], on the specification
    floats of the Standard Library).

    Limits, bottom up:
    - [TokenBucket] models [ratelimit/token_bucket.go], [Concurrent] models
      [ratelimit/concurrent.go];
    - [Ring] holds the circular bucket store that [SlidingWindow]
      ([ratelimit/sliding_window.go]) and [RollingWindow] ([budget/window.go])
      share; [BudgetTracker] ([budget/tracker.go]) keeps three of the latter;
    - [Limiter] ([ratelimit/limiter.go]) composes buckets, windows and the
      concurrency limiter; [Enforcement] ([enforcement/enforcer.go]) turns a
      violation into an action; [LimitStorage] ([storage/types.go],
      [storage/memory.go]) is the persistence interface, a class, and its
      in-memory instance, [LimitSqlite] ([storage/sqlite.go]) the durable one over
      a database driver;
    - [LimitsManager] ([manager.go]) has one limiter and one tracker per
      identifier and any [Backend]; [LimitsMiddleware]
      ([proxy/middleware/limits.go]) puts it in front of the handlers.

    Policy:
    - [GoValue] (the dynamic values that reflection and [interface{}] carry),
      [Ast] ([mpl/ast]), [PolicyContext] ([engine/types.go] and the processing
      types it refers to);
    - [PolicyFields] ([engine/field.go], [operators.go]), [PolicyMatcher]
      ([matcher.go], [time.go]), [PolicyExecutor] ([executor.go], [redact.go]),
      [PolicyPriority] ([priority.go]), [PolicyConfig] (the setters of
      [config.go] and the time windows of [time.go]);
    - [PolicyEngine] ([engine.go], [config.go]): evaluation of a request or a
      response, fail-safe modes, loading and reloading; [EngineWatch] is its
      watching goroutine beside other reloads and [Close].

    Routing:
    - [StickyCache] ([cache.go]); [RoutingTypes] ([types.go], [errors.go] and
      the strategy interface with its laws, the class [StrategyLaws]);
    - [RoundRobin], [RoutingStrategies] ([strategies/]): one instance of the
      interface per strategy, the wrapping ones over any instance;
    - [Router] ([selector.go], [stats.go], [router_impl.go]): proved against
      the interface, for every lawful strategy.

    Evidence:
    - [Evidence] ([types.go], [errors.go], [query/validator.go],
      [storage/memory.go]): records, queries, the storage interface as the class
      [Storage] with its contract [StorageContract], an abstract store, and the
      in-memory instance that refines it;
    - [Retention] ([retention/pruner.go]): pruning and archiving over any
      storage that meets the contract;
    - [EvidenceSqlite] ([storage/sqlite.go], [sqlite_schema.go]): statements,
      arguments and rows over a database as a class;
    - [Recorder] ([recorder/]): the contents of records and the recorder with
      its channel and worker as a transition system;
    - [EvidenceExport] ([export/], [retention/scheduler.go]).

    Proxy and processing:
    - [ProviderTypes] ([providers/types.go], [errors.go]), [ProxyTypes]
      ([proxy/types/], [metadata.go]), [ProxyHandlers] ([proxy/request.go],
      [response.go], [errors.go], [handlers/chat.go]);
    - [ProcTokens] ([processing/tokens], [costs], [conversation]),
      [ProcContent] ([content]), [Processing] ([processor.go]), which ends in the
      context that [PolicyContext] describes.

    The policy language:
    - [MplErrors] ([mpl/errors]), [MplBuilder] ([mpl/parser]), [MplDataModel] and
      [MplValidator] ([mpl/validator]); [MplValid] proves what the validator
      decides and [MplSound] composes parser, validator and engine; [MplWalk]
      ([ast/visitor.go], [location.go], [errors/context.go], [mpl.go]).

    Providers:
    - [ProviderHttp] ([http_provider.go], [health.go]), [ProviderStream] (lines
      and the goroutine of a stream), [ProviderOpenAI] (with the generic client),
      [ProviderAnthropic], [ProviderFactory] ([providerfactory]).

    Configuration, security and the server:
    - [ConfigTypes], [ConfigDefaults], [ConfigValidate], [ConfigLoad]
      ([pkg/config]); [Secrets] ([security/secrets]), [Security]
      ([security/auth], [security/tls]), [Server] ([server.go], the other
      middleware, health and WebSocket handlers).

    Policy management:
    - [Paths] (the lexical part of [path/filepath]); [PolicyRegistry]
      ([registry.go], [errors.go]), [PolicyLoader] ([loader.go]),
      [PolicyResolver] ([resolver.go]);
    - [GitSource] ([git/repository.go], [git/watcher.go]) and [PolicyManager]
      ([manager.go]) over all of them; [GitClone] ([git/auth.go], cloning and
      history) and [PolicyWatch] ([watcher.go], [Watch], [engine/source]).

    Telemetry: [TelemetryLog], [TelemetryHealth], [TelemetryTrace],
    [TelemetryMetrics] (with [limits/metrics.go]).

    Commands: [CliEvidence] ([evidence.go], [validate.go], [keys.go]), [CliLint],
    [CliTest], [CliGit] ([policy.go]), [CliCerts], [CliBench] (with
    [cli/progress.go]), [CliRun] ([run.go]), each over the components it calls.

    ** How code is modelled

    A struct is a record, a method a function from the old value to results
    and the new value, a [nil] pointer [None], an error a value, a panic
    [None].  An [int] or [int64] is a [Z] whose wrap-around is written out
    ([add64], [wrap64]); a [float64] is a [spec_float]; [time.Time] is a [Z] of
    nanoseconds.  A mutex makes a method, or each of its critical sections,
    one atomic step; where goroutines can interleave between atomic steps
    ([Concurrent], [RoundRobin], [StickyCache], [Recorder], [Secrets],
    [PolicyWatch], [EngineWatch], the slots of [LimitsManager] and
    [LimitsMiddleware]) the steps form a transition system and the theorems
    hold in every reachable state.

    What the code reads from outside is a parameter: the clock ([Clock]), the
    iteration order of a map ([MapRange], any permutation of the entries), the
    health of a provider and the state of a context (oracles of [Env]), regular
    expressions, formatting and time zones of the policy engine ([GoStd],
    [TimeZones]), the sorting algorithm ([SortSlice], any that meets the contract of [sort.Slice]).
    So are JSON encoding and decoding, SHA-256, the regular expressions of content
    analysis, the database ([SqlDB]), the file system and the policy parser
    ([Disk]), the git library ([GoGit]), the policy validator, and the events of
    an HTTP connection ([Conn]), [url.Parse], number formats and YAML decoding,
    the network of the clients ([Net]) and the JSON of each provider's interface
    ([OpenAICodec], [AnthropicCodec]), the driver of the limits database
    ([SqlDriver], whose laws say what the fixed statements mean), environment and
    files of the secrets ([World]), parsing and verification of certificates,
    file notifications ([FsNotify]), the machine that clones ([GitHost]).  The
    tracing and metrics libraries are the list of calls made on them.  Every
    theorem with such a parameter has an instance with a concrete one.  Log
    statements are left out except where the logger is the component.

    Loops run over slices, maps or histories and are structural; evaluation
    recurses on the condition tree.  The recursions with fuel, each proved to have
    enough for every input: the includes ([PolicyResolver], the maximum depth plus
    two) and the depth-first search (the number of files plus one), the chains of
    model downgrades ([ConfigValidate], one step per model), nested conditions of
    a document ([MplBuilder], its depth plus one), the paths of the data model
    ([MplDataModel], its height), variables that refer to variables
    ([MplValidator], their number plus one), the lines of a stream
    ([ProviderStream], [ProviderAnthropic], their number plus one), the references
    in a text ([Secrets], its length).  The retry loop of [ProviderHttp] is
    structural in the number of attempts.  One theorem has a bound: the
    percentiles of [CliBench] are computed with floating-point indexes, which are
    evaluated for all numbers of latencies up to 3000.

    ** What the theorems show

    - Limits: a token bucket never hands out more than its capacity plus what
      it refilled; at most [limit] goroutines hold a slot; the window sums are
      exact on the live buckets and bounded by the true usage around the
      window edge; budget checks report exactly the first violated or alerting
      window; the memory backend is bounded and never stale; checks touch only
      their own identifier and decide as the enforcement action says.
    - Policy: conditions are evaluated as boolean formulas; rules run in the
      order of priorities and stop at a terminal action; a deny that ran is
      final; every evaluation ends in a decision, the one of the fail-safe mode
      after an error; a failed reload changes nothing.
    - Routing: a request only goes to a configured, capable and healthy
      provider, by the documented precedence; statistics are conserved; round
      robin is exactly fair on a fixed list and safe under interleaving; sticky
      routing keeps its assignments until they expire, in a bounded LRU cache.
    - Evidence: the memory store refines an abstract store on every history; a
      record survives the database; the WHERE clause means what the in-memory
      filter computes and no query value reaches its text; pruning enforces the
      retention settings on every lawful storage; an accepted record is written
      exactly once and in order under every interleaving.
    - Proxy and processing: every request gets exactly one well-formed answer, a
      completion only for a valid request from a healthy provider; every error
      maps to a known status without leaking unclassified text; enrichment is
      total with a default price and bounded; what the policy function on
      personal data answers is what the client wrote; each request through the
      middleware chain is answered, within its limit of concurrent requests.
    - The policy language: conditions survive printing and parsing; the validator
      finds exactly the circular variables; a policy it accepts evaluates in the
      engine to truth values or to one of a few named errors, and never panics.
    - Providers: a request is sent again exactly for transient errors and at most
      as often as configured; health follows the circuit breaker's rule and
      recovers; streams end; the manager never loses a client it has opened.
    - Configuration and security: validation accepts exactly the
      configurations of a declarative specification; secrets are confined to their directory and current after a
      refresh; the served certificate is always one that passed its checks.
    - Storage of limits: the SQLite backend is the abstract map on every history.
    - Hot reload: in every interleaving the active policies are those of the files
      once nothing is pending, which is reached in a bounded number of steps; an
      engine follows its source likewise, and closing it always ends and is final.
    - Telemetry: values under sensitive keys have no influence on what is logged
      beyond their first characters; trace headers are parsed exactly; the number
      of series is bounded.
    - Commands: the verdicts of lint, test and certificate validation, the sums of
      audit reports, the checkout and the policies after each policy command.
    - Policy management: the registry is well-formed after any history; include
      resolution ends, stays inside its base directory and orders included files
      first, and the sort succeeds exactly on acyclic graphs; loading is all or
      nothing; a forced sync and a watcher reload keep the checkout and the
      active policies together.
    - Where the code does something else than it means to or than its
      documentation says, a theorem states what it does: an hourly alert masks
      exhausted longer budgets, small hourly limits reject everything, checks
      ignore concurrency, snake-case nested fields never resolve, a fail-open
      engine blocks on missing fields, overnight time windows never hold, map
      order defeats round robin, the default provider is never used, count
      pruning drops ties and is not enforced on SQLite, archives lose records,
      evidence accepted after shutdown is lost, multi-part content is not
      analysed, prices depend on map order, a failed diff loses a policy update,
      a panic in a handler ends the process, a long outage of a provider panics,
      the validation of evidence looks at no record, JSON lint never fails, a
      provider under another name gets no client, a stale reload may win.

    ** What is not modelled

    Argument parsing by cobra with the root, version and completion commands, the
    output formatters of [pkg/cli] that no command uses, signal handling, the
    simulated requests of the benchmark (random sleeps), the HTTP handler of the
    metrics library, test doubles and example programs.  The texts of the errors
    of [engine/errors.go] that no decision depends on, the setters of loggers and
    the connection pool are left out.  The rounding error of the token bucket's
    refill rate is modelled, but no bound on it is proved.

    This file: machine integers, time, results, map iteration, and lemmas on
    lists, counts and sums that the components share. *)

From Stdlib Require Import ZArith Lia Sorting.Permutation.
From stdpp Require Import base option list strings gmap.

(** ** Machine integers

    Go's [int] and [int64] are both 64-bit two's complement on the supported
    platforms.  A value is a [Z] in [int64_range]; arithmetic that may leave
    the range goes through [wrap64]. *)

Declare Scope go_scope.
Delimit Scope go_scope with go.
Open Scope Z_scope.

Definition max_int64 : Z := 2 ^ 63 - 1.
Definition min_int64 : Z := - 2 ^ 63.

Definition wrap64 (z : Z) : Z := (z + 2 ^ 63) mod 2 ^ 64 - 2 ^ 63.

Definition int64_range (z : Z) : Prop := min_int64 <= z <= max_int64.

Definition add64 (a b : Z) : Z := wrap64 (a + b).
Definition sub64 (a b : Z) : Z := wrap64 (a - b).
Definition mul64 (a b : Z) : Z := wrap64 (a * b).

Notation "a +64 b" := (add64 a b) (at level 50, left associativity) : go_scope.
Notation "a -64 b" := (sub64 a b) (at level 50, left associativity) : go_scope.
Notation "a *64 b" := (mul64 a b) (at level 40, left associativity) : go_scope.

Lemma wrap64_range z : int64_range (wrap64 z).
Proof.
  unfold int64_range, wrap64, min_int64, max_int64.
  pose proof (Z.mod_pos_bound (z + 2 ^ 63) (2 ^ 64) ltac:(lia)). lia.
Qed.

Lemma wrap64_id z : int64_range z -> wrap64 z = z.
Proof.
  unfold int64_range, wrap64, min_int64, max_int64. intros H.
  rewrite Z.mod_small; lia.
Qed.

Lemma wrap64_add_l a b : wrap64 (wrap64 a + b) = wrap64 (a + b).
Proof.
  unfold wrap64.
  replace ((a + 2 ^ 63) mod 2 ^ 64 - 2 ^ 63 + b + 2 ^ 63)
    with ((a + 2 ^ 63) mod 2 ^ 64 + b) by lia.
  rewrite Zplus_mod_idemp_l. do 2 f_equal. lia.
Qed.

Lemma wrap64_add_r a b : wrap64 (a + wrap64 b) = wrap64 (a + b).
Proof. rewrite Z.add_comm, wrap64_add_l. f_equal. lia. Qed.

(** [unfold64] brings a goal about wrapped arithmetic down to [Z] when the
    side conditions are linear. *)
Ltac unfold64 :=
  unfold add64, sub64, mul64, int64_range, min_int64, max_int64 in *.

Ltac lia64 := unfold64; lia.

(** ** Time

    [time.Time] is a [Z]: nanoseconds since Go's zero time, so that [IsZero]
    is the test against [0].  The wall and the monotonic clock are one
    reading.  [time.Duration] is an [int64] number of nanoseconds. *)

Definition Time := Z.
Definition Duration := Z.

Definition Nanosecond : Duration := 1.
Definition Millisecond : Duration := 1000000.
Definition Second : Duration := 1000000000.
Definition Minute : Duration := 60 * Second.
Definition Hour : Duration := 60 * Minute.

Definition zero_time : Time := 0.
Definition IsZero (t : Time) : bool := t =? 0.
Definition Before (t u : Time) : bool := t <? u.
Definition After (t u : Time) : bool := u <? t.
Definition TimeEqual (t u : Time) : bool := t =? u.
Definition AddD (t : Time) (d : Duration) : Time := t + d.

(** [Time.Sub] saturates at the extreme durations. *)
Definition SubT (t u : Time) : Duration := Z.max min_int64 (Z.min max_int64 (t - u)).

(** [Time.Unix] and [time.Unix(sec, 0)]: whole seconds since 1970, which is
    62135596800 seconds after the zero time. *)
Definition unix_epoch : Z := 62135596800.
Definition Unix (t : Time) : Z := t / Second - unix_epoch.
Definition FromUnix (sec : Z) : Time := (sec + unix_epoch) * Second.

(** [Time.Truncate]: down to a multiple of [d] since the zero time. *)
Definition Truncate (t : Time) (d : Duration) : Time :=
  if d <=? 0 then t else t - t mod d.

Lemma Truncate_mult t d : 0 < d -> Truncate t d = d * (t / d).
Proof.
  intros Hd. unfold Truncate. destruct (Z.leb_spec d 0); [lia|].
  pose proof (Z.div_mod t d). lia.
Qed.

Lemma Truncate_le t d : 0 < d -> Truncate t d <= t.
Proof.
  intros Hd. rewrite Truncate_mult by done.
  pose proof (Z.mul_div_le t d Hd). lia.
Qed.

Lemma Truncate_gt t d : 0 < d -> t < Truncate t d + d.
Proof.
  intros Hd. rewrite Truncate_mult by done.
  pose proof (Z.mul_succ_div_gt t d Hd). lia.
Qed.

Lemma Truncate_divide t d : 0 < d -> (d | Truncate t d).
Proof. intros Hd. rewrite Truncate_mult by done. apply Z.divide_factor_l. Qed.

Lemma Truncate_mono t u d : 0 < d -> t <= u -> Truncate t d <= Truncate u d.
Proof.
  intros Hd Htu. rewrite !Truncate_mult by done.
  pose proof (Z.div_le_mono t u d Hd Htu). nia.
Qed.

(** Through Unix seconds a time loses its fraction of a second. *)
Lemma FromUnix_Unix t : FromUnix (Unix t) = Truncate t Second.
Proof. rewrite Truncate_mult by done. unfold FromUnix, Unix. lia. Qed.

Lemma Unix_FromUnix z : Unix (FromUnix z) = z.
Proof. unfold Unix, FromUnix. rewrite Z.div_mul by done. lia. Qed.

(** ** Reading the clock

    Code that calls [time.Now] several times runs in [Timed]: the [i]-th call
    returns the [i]-th reading of an arbitrary clock.  A leaf operation that
    reads the clock once takes that reading as its [now] argument. *)

Definition Clock := nat -> Time.
Definition Timed (A : Type) : Type := Clock -> nat -> A * nat.

Definition now : Timed Time := fun ck i => (ck i, S i).
Definition tret {A} (a : A) : Timed A := fun _ i => (a, i).
Definition tbind {A B} (m : Timed A) (f : A -> Timed B) : Timed B :=
  fun ck i => let '(a, j) := m ck i in f a ck j.

Notation "'let!' x ':=' m 'in' k" := (tbind m (fun x => k))
  (at level 10, x pattern, m at level 100, k at level 200) : go_scope.

(** Code that reads the clock and may panic ([None]). *)
Definition tobind {A B} (m : Timed (option A)) (f : A -> Timed (option B)) : Timed (option B) :=
  tbind m (fun o => match o with Some a => f a | None => tret None end).

Notation "'let?' x ':=' m 'in' k" := (tobind m (fun x => k))
  (at level 10, x pattern, m at level 100, k at level 200) : go_scope.

Definition monotone_clock (ck : Clock) : Prop := forall i j, (i <= j)%nat -> ck i <= ck j.

(** ** Results of fallible code *)

Inductive result (E A : Type) : Type :=
| Ok (a : A)
| Err (e : E).
Arguments Ok {E A} a.
Arguments Err {E A} e.

Definition is_ok {E A} (r : result E A) : bool :=
  match r with Ok _ => true | Err _ => false end.

(** ** Strings and maps *)

Lemma string_app_cons a (s t : string) : String a s +:+ t = String a (s +:+ t).
Proof. reflexivity. Qed.

Lemma string_app_nil_l (s : string) : EmptyString +:+ s = s.
Proof. reflexivity. Qed.

Lemma string_length_app (a b : string) : String.length (a +:+ b) = (String.length a + String.length b)%nat.
Proof. induction a as [|c a IH]; [done|]. rewrite string_app_cons. cbn. by rewrite IH. Qed.

Lemma string_app_nil_r (s : string) : s +:+ EmptyString = s.
Proof. induction s as [|a s IH]; [done|]. by rewrite string_app_cons, IH. Qed.

(** [for k, v := range m] visits every entry of a map once, in an order the
    language leaves open: an iteration is some permutation of the entries. *)
Class MapRange : Type := {
  range {V : Type} : gmap string V -> list (string * V);
  range_perm {V : Type} (m : gmap string V) : range m ≡ₚ map_to_list m;
}.

(** One admissible order, for evaluation. *)
Definition some_range : MapRange := {|
  range V m := map_to_list m;
  range_perm V m := reflexivity (map_to_list m);
|}.

Lemma elem_of_range `{MapRange} {V} (m : gmap string V) k v :
  (k, v) ∈ range m <-> m !! k = Some v.
Proof. rewrite (range_perm m). apply elem_of_map_to_list. Qed.

(** [for k, v := range m { acc[k] = f(v) }] *)
Lemma foldl_insert_lookup {V W} (f : V -> W) (l : list (string * V)) (acc : gmap string W) k :
  NoDup l.*1 ->
  foldl (fun acc '(k, v) => <[k := f v]> acc) acc l !! k =
  match (list_to_map l : gmap string V) !! k with Some v => Some (f v) | None => acc !! k end.
Proof.
  revert acc. induction l as [|[n v] l IH]; intros acc Hl; simpl; [by rewrite lookup_empty|].
  apply NoDup_cons in Hl as [Hn Hl]. rewrite IH by done.
  destruct (decide (k = n)) as [->|Hne].
  - rewrite (not_elem_of_list_to_map_1 _ _ Hn), !lookup_insert_eq. done.
  - by rewrite !lookup_insert_ne by congruence.
Qed.

Lemma range_insert_lookup `{MapRange} {V W} (f : V -> W) (m : gmap string V) (acc : gmap string W) k :
  foldl (fun acc '(k, v) => <[k := f v]> acc) acc (range m) !! k =
  match m !! k with Some v => Some (f v) | None => acc !! k end.
Proof.
  assert (Hl : NoDup (range m).*1) by (rewrite (range_perm m); apply NoDup_fst_map_to_list).
  rewrite foldl_insert_lookup by done.
  by rewrite (list_to_map_proper (M := gmap string) _ _ Hl (range_perm m)), list_to_map_to_list.
Qed.

(** The loop over a map that keeps the key with the smallest time: every entry
    whose time is before the smallest one so far replaces it. *)
Section earliest.
Context {V : Type} (time : V -> Time).

Definition earliest_step (acc : option (string * Time)) (e : string * V) : option (string * Time) :=
  match acc with
  | None => Some (fst e, time (snd e))
  | Some (_, t) => if Before (time (snd e)) t then Some (fst e, time (snd e)) else acc
  end.

Lemma earliest_some l k0 t0 :
  exists k t, foldl earliest_step (Some (k0, t0)) l = Some (k, t) /\ t <= t0 /\
    (forall k' v', (k', v') ∈ l -> t <= time v') /\
    ((k, t) = (k0, t0) \/ exists v, (k, v) ∈ l /\ time v = t).
Proof.
  revert k0 t0. induction l as [|[k1 s1] l IH]; intros k0 t0; cbn [foldl].
  { exists k0, t0. split; [done|]. split; [lia|]. split; [|by left].
    intros k' s' H. by apply elem_of_nil in H. }
  unfold earliest_step at 2. cbn [fst snd]. unfold Before.
  destruct (Z.ltb_spec (time s1) t0) as [Hlt|Hge].
  - destruct (IH k1 (time s1)) as (k & t & -> & Hle & Hall & Hor).
    exists k, t. split; [done|]. split; [lia|]. split.
    + intros k' s' [[= -> ->]|Hin]%elem_of_cons; [done|eauto].
    + right. destruct Hor as [[= -> ->]|(st & Hin & Heq)].
      * exists s1. split; [left|done].
      * exists st. split; [by right|done].
  - destruct (IH k0 t0) as (k & t & -> & Hle & Hall & Hor).
    exists k, t. split; [done|]. split; [lia|]. split.
    + intros k' s' [[= -> ->]|Hin]%elem_of_cons; [lia|eauto].
    + destruct Hor as [->|(st & Hin & Heq)]; [by left|].
      right. exists st. split; [by right|done].
Qed.

(** It finds an entry with minimal time, in every order of iteration. *)
Lemma earliest_of `{MapRange} (m : gmap string V) :
  (m = ∅ /\ foldl earliest_step None (range m) = None) \/
  exists k v, m !! k = Some v /\ (forall k' v', m !! k' = Some v' -> time v <= time v') /\
    foldl earliest_step None (range m) = Some (k, time v).
Proof.
  destruct (range m) as [|[k0 s0] l] eqn:E; cbn [foldl].
  - left. split; [|done]. apply map_to_list_empty_iff, Permutation_nil_r. by rewrite <- (range_perm m), E.
  - right. cbn [earliest_step fst snd]. destruct (earliest_some l k0 (time s0)) as (k & t & -> & Hle & Hall & Hor).
    assert (Hr : forall k s, (k, s) ∈ (k0, s0) :: l <-> m !! k = Some s).
    { intros k' s'. rewrite <- E. apply elem_of_range. }
    assert (Hst : exists st, (k, st) ∈ (k0, s0) :: l /\ time st = t).
    { destruct Hor as [[= -> ->]|(st & Hin & Heq)]; [exists s0|exists st]; (split; [|done]); [left|by right]. }
    destruct Hst as (st & Hin & <-). exists k, st. split; [by apply Hr|]. split; [|done].
    intros k' s' Hs'. apply Hr, elem_of_cons in Hs' as [[= -> ->]|Hs']; [lia|]. by apply Hall in Hs'.
Qed.
End earliest.

(** ** Loops over slices

    [find_idx p l] is the loop [for i := 0; i < len(l); i++ { if p(l[i]) {
    ... break } }] that stops at the first index whose element satisfies [p]. *)

Fixpoint find_idx {A} (p : A -> bool) (l : list A) : option nat :=
  match l with
  | [] => None
  | x :: l => if p x then Some 0%nat else S <$> find_idx p l
  end.

Lemma find_idx_Some {A} (p : A -> bool) l i :
  find_idx p l = Some i ->
  exists x, l !! i = Some x /\ p x = true /\
    (forall j y, (j < i)%nat -> l !! j = Some y -> p y = false).
Proof.
  revert i. induction l as [|x l IH]; intros i Hi; simpl in Hi; [done|].
  destruct (p x) eqn:Hp; simplify_eq.
  - exists x. repeat split; [done..|]. intros j y Hj. lia.
  - destruct (find_idx p l) as [k|] eqn:Hk; simpl in Hi; simplify_eq.
    destruct (IH k eq_refl) as (y & Hy & Hpy & Hmin).
    exists y. repeat split; [done..|].
    intros [|j] z Hj Hz; simpl in *; simplify_eq; [done|].
    apply (Hmin j z); [lia|done].
Qed.

Lemma find_idx_None {A} (p : A -> bool) l :
  find_idx p l = None <-> forall i x, l !! i = Some x -> p x = false.
Proof.
  split.
  - induction l as [|x l IH]; simpl; [done|].
    destruct (p x) eqn:Hp; [done|].
    destruct (find_idx p l) eqn:Hk; [done|].
    intros _ [|i] y Hy; simpl in Hy; simplify_eq; [done|]. by apply (IH eq_refl i).
  - induction l as [|x l IH]; simpl; [done|]. intros H.
    rewrite (H 0%nat x eq_refl).
    rewrite IH; [done|]. intros i y Hy. exact (H (S i) y Hy).
Qed.

Lemma find_idx_unique {A} (p : A -> bool) l i x :
  l !! i = Some x -> p x = true ->
  (forall j y, l !! j = Some y -> p y = true -> j = i) ->
  find_idx p l = Some i.
Proof.
  intros Hi Hp Hu. destruct (find_idx p l) as [k|] eqn:Hk.
  - apply find_idx_Some in Hk as (y & Hy & Hpy & _).
    f_equal. by apply (Hu k y).
  - apply find_idx_None with (i := i) (x := x) in Hk; [congruence|done].
Qed.

(** [countb p l] counts the elements of [l] that satisfy [p]. *)
Fixpoint countb {A} (p : A -> bool) (l : list A) : Z :=
  match l with
  | [] => 0
  | x :: l => Z.b2z (p x) + countb p l
  end.

Lemma countb_nonneg {A} (p : A -> bool) l : 0 <= countb p l.
Proof. induction l as [|x l IH]; simpl; [lia|]. destruct (p x); simpl; lia. Qed.

Lemma countb_le_length {A} (p : A -> bool) l : countb p l <= Z.of_nat (length l).
Proof. induction l as [|x l IH]; simpl length; simpl; [lia|]. destruct (p x); simpl; lia. Qed.

Lemma countb_insert {A} (p : A -> bool) l i x y :
  l !! i = Some x -> countb p (<[i := y]> l) = countb p l - Z.b2z (p x) + Z.b2z (p y).
Proof.
  revert i. induction l as [|z l IH]; intros [|i] H; simpl in *; simplify_eq; [lia|].
  rewrite (IH i H). lia.
Qed.

Lemma countb_mono {A} (p q : A -> bool) l :
  (forall x, p x = true -> q x = true) -> countb p l <= countb q l.
Proof.
  intros H. induction l as [|x l IH]; simpl; [lia|].
  specialize (H x). destruct (p x), (q x); simpl in *; try lia; by discriminate H.
Qed.

Lemma countb_zero {A} (p : A -> bool) l :
  (forall i x, l !! i = Some x -> p x = false) -> countb p l = 0.
Proof.
  induction l as [|x l IH]; intros H; simpl; [done|].
  rewrite (H 0%nat x eq_refl), IH; [done|]. intros i. exact (H (S i)).
Qed.

Lemma countb_pos {A} (p : A -> bool) l i x : l !! i = Some x -> p x = true -> 1 <= countb p l.
Proof.
  revert i. induction l as [|y l IH]; intros [|i] Hi Hp; simpl in *; simplify_eq.
  - rewrite Hp. pose proof (countb_nonneg p l). simpl. lia.
  - specialize (IH i Hi Hp). destruct (p y); simpl; lia.
Qed.

Lemma countb_unique {A} (p : A -> bool) l :
  (forall i j x y, l !! i = Some x -> l !! j = Some y -> p x = true -> p y = true -> i = j) ->
  countb p l <= 1.
Proof.
  induction l as [|x l IH]; intros H; simpl; [lia|].
  destruct (p x) eqn:Hx; simpl.
  - rewrite countb_zero; [lia|]. intros i y Hy. destruct (p y) eqn:Hpy; [|done].
    by pose proof (H 0%nat (S i) x y eq_refl Hy Hx Hpy).
  - apply IH. intros i j y z Hi Hj Hy Hz. by pose proof (H (S i) (S j) y z Hi Hj Hy Hz) as [= ->].
Qed.

(** [Zsum f l] is the sum of [f] over [l]. *)
Fixpoint Zsum {A} (f : A -> Z) (l : list A) : Z :=
  match l with
  | [] => 0
  | x :: l => f x + Zsum f l
  end.

Lemma Zsum_app {A} (f : A -> Z) l k : Zsum f (l ++ k) = Zsum f l + Zsum f k.
Proof. induction l as [|x l IH]; simpl; lia. Qed.

Lemma Zsum_le {A} (f g : A -> Z) l : (forall x, x ∈ l -> f x <= g x) -> Zsum f l <= Zsum g l.
Proof.
  induction l as [|x l IH]; intros H; simpl; [lia|].
  pose proof (H x ltac:(left)). specialize (IH ltac:(intros y Hy; apply H; by right)). lia.
Qed.

Lemma Zsum_ext {A} (f g : A -> Z) l : (forall x, x ∈ l -> f x = g x) -> Zsum f l = Zsum g l.
Proof.
  intros H. apply Z.le_antisymm; apply Zsum_le; intros x Hx; rewrite (H x Hx); lia.
Qed.

Lemma Zsum_nonneg {A} (f : A -> Z) l : (forall x, x ∈ l -> 0 <= f x) -> 0 <= Zsum f l.
Proof.
  intros H. transitivity (Zsum (fun _ : A => 0) l); [|by apply Zsum_le].
  clear H. induction l as [|x l IH]; simpl; [lia|done].
Qed.

Lemma Zsum_perm {A} (f : A -> Z) l k : l ≡ₚ k -> Zsum f l = Zsum f k.
Proof. induction 1; simpl; lia. Qed.

(** The sum of the values of a map. *)
Definition map_sum (m : gmap string Z) : Z := Zsum snd (map_to_list m).

Lemma map_sum_insert k v m : map_sum (<[k := v]> m) = map_sum m - default 0 (m !! k) + v.
Proof.
  assert (Hd : map_sum m = default 0 (m !! k) + map_sum (delete k m)).
  { destruct (m !! k) as [w|] eqn:E; simpl; [|by rewrite delete_id].
    unfold map_sum. by rewrite <- (Zsum_perm _ _ _ (map_to_list_delete m k w E)). }
  rewrite <- insert_delete_eq. unfold map_sum in *.
  rewrite (Zsum_perm _ _ _ (map_to_list_insert (delete k m) k v (lookup_delete_eq m k))). simpl. lia.
Qed.

Lemma map_sum_lookup k v m : map_Forall (fun _ x => 0 <= x) m -> m !! k = Some v -> v <= map_sum m.
Proof.
  intros Hm Hk. unfold map_sum. rewrite <- (Zsum_perm _ _ _ (map_to_list_delete m k v Hk)). simpl.
  enough (0 <= Zsum snd (map_to_list (delete k m))) by lia.
  apply Zsum_nonneg. intros [k' v'] Hin. apply elem_of_map_to_list, lookup_delete_Some in Hin as [_ Hin].
  exact (Hm k' v' Hin).
Qed.

Create HintDb jupiter.
#[export] Hint Resolve wrap64_range Truncate_le Truncate_gt Truncate_divide : jupiter.
