(* ===== verification/Float64.v ===== *)
(** * Go's [float64]

    IEEE 754 binary64 through the executable specification of the Standard
    Library ([SpecFloat], precision 53, maximal exponent 1024), with the
    conversions the source performs between [int]/[int64]/[time.Duration] and
    [float64].  The lemmas are the facts about signs and comparisons that the
    budget and rate-limit components use. *)

From Stdlib Require Import ZArith Lia.
From Stdlib Require Import Floats.SpecFloat.
From stdpp Require Import base option list.
From S2P Require Import Prelude.

Definition float64 := spec_float.

Definition prec64 : Z := 53.
Definition emax64 : Z := 1024.

Definition fadd (a b : float64) : float64 := SFadd prec64 emax64 a b.
Definition fsub (a b : float64) : float64 := SFsub prec64 emax64 a b.
Definition fmul (a b : float64) : float64 := SFmul prec64 emax64 a b.
Definition fdiv (a b : float64) : float64 := SFdiv prec64 emax64 a b.

Definition flt (a b : float64) : bool := SFltb a b.
Definition fle (a b : float64) : bool := SFleb a b.
Definition feq (a b : float64) : bool := SFeqb a b.

Definition fzero : float64 := S754_zero false.

(** [float64(n)]: the nearest binary64 number, ties to even. *)
Definition of_int (n : Z) : float64 := binary_normalize prec64 emax64 n 0 false.

(** The literal [n/d] of the source, for [n] and [d] exact in binary64. *)
Definition flit (n d : Z) : float64 := fdiv (of_int n) (of_int d).

(** [int64(f)]: truncation toward zero.  A NaN or a value out of range gives
    the integer indefinite value of the amd64 conversion instruction. *)
Definition trunc_finite (s : bool) (m : positive) (e : Z) : Z :=
  let a := if 0 <=? e then Z.pos m * 2 ^ e else Z.pos m / 2 ^ (- e) in
  if s then - a else a.

Definition to_int64 (f : float64) : Z :=
  match f with
  | S754_zero _ => 0
  | S754_finite s m e =>
      let v := trunc_finite s m e in
      if (min_int64 <=? v) && (v <=? max_int64) then v else min_int64
  | _ => min_int64
  end.

(** [Duration.Seconds]: whole seconds plus the fraction, each converted. *)
Definition Seconds (d : Duration) : float64 :=
  fadd (of_int (Z.quot d Second)) (fdiv (of_int (Z.rem d Second)) (of_int 1000000000)).

Notation "a +f b" := (fadd a b) (at level 50, left associativity) : go_scope.
Notation "a -f b" := (fsub a b) (at level 50, left associativity) : go_scope.
Notation "a *f b" := (fmul a b) (at level 40, left associativity) : go_scope.
Notation "a /f b" := (fdiv a b) (at level 40, left associativity) : go_scope.
Notation "a <f b" := (flt a b) (at level 70) : go_scope.
Notation "a <=f b" := (fle a b) (at level 70) : go_scope.

Definition is_nan (f : float64) : bool :=
  match f with S754_nan => true | _ => false end.

(** ** Comparisons *)

Lemma SFcompare_nan a b : SFcompare a b = None <-> is_nan a = true \/ is_nan b = true.
Proof. destruct a, b; simpl; intuition congruence. Qed.

Lemma SFcompare_antisym a b :
  SFcompare b a = CompOpp <$> SFcompare a b.
Proof.
  destruct a as [[]|[]| |[] m1 e1], b as [[]|[]| |[] m2 e2]; simpl; try done.
  all: rewrite (Z.compare_antisym e1 e2); destruct (e1 ?= e2); simpl; try done.
  all: change (Pos.compare_cont Eq m2 m1) with (Pos.compare m2 m1);
    change (Pos.compare_cont Eq m1 m2) with (Pos.compare m1 m2);
    rewrite (Pos.compare_antisym m1 m2); by destruct (Pos.compare m1 m2).
Qed.

Lemma flt_not_fle a b :
  is_nan a = false -> is_nan b = false -> flt a b = negb (fle b a).
Proof.
  intros Ha Hb. unfold flt, fle, SFltb, SFleb. rewrite (SFcompare_antisym a b).
  destruct (SFcompare a b) as [[]|] eqn:E; simpl; try done.
  apply SFcompare_nan in E as [?|?]; congruence.
Qed.

Lemma flt_nan_r a b : flt a b = true -> is_nan b = false.
Proof. by destruct b; [..|destruct a|]. Qed.

Lemma fle_flt a b : flt a b = true -> fle b a = false.
Proof.
  unfold flt, fle, SFltb, SFleb. rewrite (SFcompare_antisym a b).
  by destruct (SFcompare a b) as [[]|].
Qed.

(** ** Signs

    [0 <= f] in Go excludes NaN and the negative numbers. *)

Abbreviation nonneg f := (fle fzero f = true).

Lemma nonneg_spec f :
  nonneg f <->
  match f with
  | S754_nan => False
  | S754_zero _ => True
  | S754_infinity s | S754_finite s _ _ => s = false
  end.
Proof. destruct f as [[]|[]| |[] ? ?]; vm_compute; intuition congruence. Qed.

Lemma nonneg_not_nan f : nonneg f -> is_nan f = false.
Proof. by destruct f. Qed.

(** Rounding a non-negative mantissa never produces a NaN or a sign flip. *)

Lemma shr_1_nonneg r : 0 <= shr_m r -> 0 <= shr_m (shr_1 r).
Proof. destruct r as [[|[p|p|]|p] ? ?]; simpl; lia. Qed.

Lemma iter_pos_nonneg p r : 0 <= shr_m r -> 0 <= shr_m (SpecFloat.iter_pos shr_1 p r).
Proof. revert r. induction p; simpl; auto using shr_1_nonneg. Qed.

Lemma shr_fexp_nonneg m e l :
  0 <= m -> 0 <= shr_m (fst (shr_fexp prec64 emax64 m e l)).
Proof.
  intros Hm. unfold shr_fexp, shr.
  destruct (fexp prec64 emax64 (Zdigits2 m + e) - e); simpl;
    try apply iter_pos_nonneg; destruct l as [|[]]; simpl; lia.
Qed.

Lemma round_nearest_even_nonneg m l : 0 <= m -> 0 <= round_nearest_even m l.
Proof. destruct l as [|[]]; simpl; try destruct (Z.even m); lia. Qed.

Lemma binary_round_aux_sign s m e l :
  0 <= m ->
  match binary_round_aux prec64 emax64 s m e l with
  | S754_nan => False
  | S754_zero s' | S754_infinity s' | S754_finite s' _ _ => s' = s
  end.
Proof.
  intros Hm. unfold binary_round_aux.
  pose proof (shr_fexp_nonneg m e l Hm) as H1.
  destruct (shr_fexp prec64 emax64 m e l) as [r1 e1]; simpl in H1.
  pose proof (shr_fexp_nonneg _ e1 loc_Exact
    (round_nearest_even_nonneg _ (loc_of_shr_record r1) H1)) as H2.
  destruct (shr_fexp prec64 emax64 _ e1 loc_Exact) as [r2 e2]; simpl in H2.
  destruct (shr_m r2); simpl in *; [done| |lia].
  by destruct (e2 <=? emax64 - prec64).
Qed.

Lemma binary_round_aux_nonneg m e l :
  0 <= m -> nonneg (binary_round_aux prec64 emax64 false m e l).
Proof.
  intros Hm. apply nonneg_spec.
  pose proof (binary_round_aux_sign false m e l Hm) as H.
  by destruct (binary_round_aux prec64 emax64 false m e l).
Qed.

Lemma binary_normalize_nonneg m e : 0 <= m -> nonneg (binary_normalize prec64 emax64 m e false).
Proof.
  intros Hm. destruct m as [|m|m]; simpl; [done| |lia].
  unfold binary_round. destruct (shl_align m e _) as [mz ez].
  apply binary_round_aux_nonneg. lia.
Qed.

Lemma of_int_nonneg n : 0 <= n -> nonneg (of_int n).
Proof. apply binary_normalize_nonneg. Qed.

Lemma fadd_nonneg a b : nonneg a -> nonneg b -> nonneg (fadd a b).
Proof.
  rewrite !(nonneg_spec a), !(nonneg_spec b).
  destruct a as [[]|sa| |sa ma ea], b as [[]|sb| |sb mb eb];
    simpl; intros Ha Hb; try done; subst; try done.
  apply binary_normalize_nonneg. simpl. lia.
Qed.

Lemma fmul_nonneg a b :
  nonneg a -> nonneg b -> is_nan (fmul a b) = false -> nonneg (fmul a b).
Proof.
  rewrite !(nonneg_spec a), !(nonneg_spec b).
  destruct a as [?|sa| |sa ma ea], b as [?|sb| |sb mb eb];
    simpl; intros Ha Hb; try done; subst; try done.
  intros _. apply binary_round_aux_nonneg. lia.
Qed.

Lemma fdiv_nonneg a b :
  nonneg a -> flt fzero b = true -> is_nan (fdiv a b) = false -> nonneg (fdiv a b).
Proof.
  rewrite (nonneg_spec a). intros Ha Hb.
  destruct a as [[]|sa| |sa ma ea], b as [?|[]| |[] mb eb];
    try done; simpl; try done; subst; try done; intros _.
  destruct (SFdiv_core_binary prec64 emax64 (Z.pos ma) ea (Z.pos mb) eb)
    as [[q e'] l] eqn:E.
  apply binary_round_aux_nonneg.
  unfold SFdiv_core_binary in E.
  match type of E with context [Z.div_eucl ?m ?d] =>
      assert (0 <= m) by (match goal with |- context [match ?s with _ => _ end] =>
        destruct s end; [lia|apply Z.shiftl_nonneg; lia|lia]);
      pose proof (Z_div_mod m d ltac:(lia)) as D;
      destruct (Z.div_eucl m d) as [q' r']
    end.
  simplify_eq. nia.
Qed.

#[export] Hint Resolve fadd_nonneg of_int_nonneg nonneg_not_nan : jupiter.

Lemma fold_fadd_nonneg l a :
  nonneg a -> Forall (fun x => nonneg x) l -> nonneg (foldl fadd a l).
Proof.
  intros Ha Hl. revert a Ha.
  induction Hl as [|x l Hx Hl IH]; intros a Ha; simpl; auto with jupiter.
Qed.

(** The conversion always yields an [int64]. *)
Lemma to_int64_range f : int64_range (to_int64 f).
Proof.
  destruct f as [?|?| |? m e]; cbn [to_int64]; [lia64..|].
  generalize (trunc_finite s m e). intros v. cbv zeta.
  destruct ((min_int64 <=? v) && (v <=? max_int64)) eqn:E; [|lia64].
  unfold int64_range. lia.
Qed.

(** ** Sanity checks of the conversions *)

Example seconds_1500ms : Seconds (1500 * Millisecond) = flit 3 2.
Proof. vm_compute. reflexivity. Qed.

Example to_int64_floor : to_int64 (flit (-7) 2) = -3.
Proof. vm_compute. reflexivity. Qed.
