(* ===== verification/TokenBucket.v ===== *)
(** * Token bucket ([pkg/limits/ratelimit/token_bucket.go])

    The bucket's state and its operations, one definition per method; every
    method that reads the clock takes that reading as [now].  The mutex makes
    each method one atomic step, so a history of a bucket is a sequence of
    method calls ([exec]). *)

From Stdlib Require Import ZArith Lia.
From stdpp Require Import base option list.
From S2P Require Import Prelude Float64.
Local Open Scope go_scope.

Record TokenBucket := mkTokenBucket {
  capacity : Z;
  tokens : Z;
  refillRate : float64;
  lastRefill : Time;
}.

Definition set_tokens (tb : TokenBucket) (n : Z) : TokenBucket :=
  mkTokenBucket (capacity tb) n (refillRate tb) (lastRefill tb).

Definition NewTokenBucket (now : Time) (capacity : Z) (refillRate : float64) : TokenBucket :=
  mkTokenBucket capacity capacity refillRate now.

(** [int64(elapsed.Seconds() * tb.refillRate)] *)
Definition tokensToAdd (tb : TokenBucket) (now : Time) : Z :=
  let elapsed := SubT now (lastRefill tb) in
  to_int64 (Seconds elapsed *f refillRate tb).

Definition refillLocked (now : Time) (tb : TokenBucket) : TokenBucket :=
  let add := tokensToAdd tb now in
  if 0 <? add then
    let t := tokens tb +64 add in
    let t := if capacity tb <? t then capacity tb else t in
    mkTokenBucket (capacity tb) t (refillRate tb) now
  else tb.

Definition Take (now : Time) (n : Z) (tb : TokenBucket) : bool * TokenBucket :=
  let tb := refillLocked now tb in
  if n <=? tokens tb then (true, set_tokens tb (tokens tb -64 n)) else (false, tb).

Definition Remaining (now : Time) (tb : TokenBucket) : Z * TokenBucket :=
  let tb := refillLocked now tb in (tokens tb, tb).

Definition Capacity (tb : TokenBucket) : Z := capacity tb.

Definition Reset (now : Time) (tb : TokenBucket) : TokenBucket :=
  mkTokenBucket (capacity tb) (capacity tb) (refillRate tb) now.

Definition TimeUntilAvailable (now : Time) (n : Z) (tb : TokenBucket) : Duration * TokenBucket :=
  let tb := refillLocked now tb in
  if n <=? tokens tb then (0, tb)
  else
    let tokensNeeded := n -64 tokens tb in
    let secondsNeeded := of_int tokensNeeded /f refillRate tb in
    (to_int64 (secondsNeeded *f of_int Second), tb).

(** ** The invariant of a bucket *)

Definition wf (tb : TokenBucket) : Prop := 0 <= tokens tb <= capacity tb /\ capacity tb <= max_int64.

(** The refill computed at [now] does not push the counter past [int64]. *)
Definition fits (tb : TokenBucket) (now : Time) : Prop :=
  tokensToAdd tb now <= max_int64 - capacity tb.

(** Tokens a refill really adds. *)
Definition refilled (now : Time) (tb : TokenBucket) : Z := tokens (refillLocked now tb) - tokens tb.

Lemma refill_capacity now tb : capacity (refillLocked now tb) = capacity tb.
Proof. unfold refillLocked. by destruct (0 <? _). Qed.

Lemma refill_wf now tb : wf tb -> fits tb now -> wf (refillLocked now tb) /\ 0 <= refilled now tb.
Proof.
  unfold wf, fits, refilled, refillLocked. intros [Ht Hc] Hf.
  destruct (Z.ltb_spec 0 (tokensToAdd tb now)) as [Hp|Hp]; simpl; [|lia].
  unfold add64. rewrite wrap64_id by lia64.
  destruct (Z.ltb_spec (capacity tb) (tokens tb + tokensToAdd tb now)); simpl; lia.
Qed.

Lemma refilled_le now tb : wf tb -> fits tb now -> refilled now tb <= Z.max 0 (tokensToAdd tb now).
Proof.
  unfold wf, fits, refilled, refillLocked. intros [Ht Hc] Hf.
  destruct (Z.ltb_spec 0 (tokensToAdd tb now)) as [Hp|Hp]; simpl; [|lia].
  unfold add64. rewrite wrap64_id by lia64.
  destruct (Z.ltb_spec (capacity tb) (tokens tb + tokensToAdd tb now)); simpl; lia.
Qed.

Lemma new_wf now c r : 0 <= c <= max_int64 -> wf (NewTokenBucket now c r).
Proof. unfold wf; simpl; lia. Qed.

Lemma take_spec now n tb :
  0 <= n -> wf tb -> fits tb now ->
  Take now n tb =
    if n <=? tokens tb + refilled now tb
    then (true, set_tokens (refillLocked now tb) (tokens tb + refilled now tb - n))
    else (false, refillLocked now tb).
Proof.
  intros Hn Hwf Hf. destruct (refill_wf now tb Hwf Hf) as [[Hr Hrc] Hpos].
  unfold Take. unfold refilled in *.
  replace (tokens tb + (tokens (refillLocked now tb) - tokens tb))
    with (tokens (refillLocked now tb)) by lia.
  destruct (Z.leb_spec n (tokens (refillLocked now tb))); [|done].
  unfold sub64. by rewrite wrap64_id by lia64.
Qed.

(** ** Histories

    A history is a list of method calls with their clock readings.  [exec]
    relates the state before and after, the tokens granted to callers and the
    tokens that entered the bucket (by refill or by [Reset]). *)

Inductive call :=
| CTake (n : Z)
| CRemaining
| CTimeUntil (n : Z)
| CReset.

Definition apply_call (now : Time) (c : call) (tb : TokenBucket) : TokenBucket :=
  match c with
  | CTake n => snd (Take now n tb)
  | CRemaining => snd (Remaining now tb)
  | CTimeUntil n => snd (TimeUntilAvailable now n tb)
  | CReset => Reset now tb
  end.

Definition granted (now : Time) (c : call) (tb : TokenBucket) : Z :=
  match c with
  | CTake n => if fst (Take now n tb) then n else 0
  | _ => 0
  end.

Definition entered (now : Time) (c : call) (tb : TokenBucket) : Z :=
  match c with
  | CReset => capacity tb - tokens tb
  | _ => refilled now tb
  end.

Definition call_ok (c : call) : Prop :=
  match c with CTake n => 0 <= n | _ => True end.

Inductive exec : TokenBucket -> list (Time * call) -> TokenBucket -> Z -> Z -> Prop :=
| exec_nil tb : exec tb [] tb 0 0
| exec_cons tb now c h tb' g e :
    call_ok c -> fits tb now ->
    exec (apply_call now c tb) h tb' g e ->
    exec tb ((now, c) :: h) tb' (granted now c tb + g) (entered now c tb + e).

Lemma timeuntil_state now n tb : snd (TimeUntilAvailable now n tb) = refillLocked now tb.
Proof. unfold TimeUntilAvailable. by destruct (n <=? _). Qed.

Lemma call_wf now c tb :
  call_ok c -> fits tb now -> wf tb ->
  wf (apply_call now c tb) /\ capacity (apply_call now c tb) = capacity tb.
Proof.
  intros Hok Hf Hwf. pose proof (refill_wf now tb Hwf Hf) as [[Hr ?] Hp].
  pose proof (refill_capacity now tb) as Hc. destruct c as [n| |n|]; cbn [apply_call].
  - rewrite take_spec by done. unfold refilled in *.
    destruct (Z.leb_spec n (tokens tb + (tokens (refillLocked now tb) - tokens tb)));
      unfold wf; simpl; simpl in Hok; lia.
  - unfold wf; simpl; lia.
  - rewrite timeuntil_state. unfold wf; lia.
  - unfold wf in *; simpl; lia.
Qed.

Lemma call_balance now c tb :
  call_ok c -> fits tb now -> wf tb ->
  tokens (apply_call now c tb) + granted now c tb = tokens tb + entered now c tb.
Proof.
  intros Hok Hf Hwf. destruct c as [n| |n|]; cbn [apply_call granted entered].
  - rewrite take_spec by done. destruct (n <=? _); simpl; unfold refilled; lia.
  - simpl. unfold refilled; lia.
  - rewrite timeuntil_state. unfold refilled; lia.
  - simpl; lia.
Qed.

(** What the refill formula alone would admit over a history: the tokens it
    computes at each call, and a full bucket at each [Reset]. *)
Fixpoint refill_budget (tb : TokenBucket) (h : list (Time * call)) : Z :=
  match h with
  | [] => 0
  | (now, c) :: h =>
      match c with CReset => capacity tb | _ => Z.max 0 (tokensToAdd tb now) end
      + refill_budget (apply_call now c tb) h
  end.

Lemma exec_wf tb h tb' g e :
  exec tb h tb' g e -> wf tb -> wf tb' /\ capacity tb' = capacity tb.
Proof.
  induction 1 as [|tb now c h tb' g e Hok Hf _ IH]; intros Hwf; [done|].
  destruct (call_wf now c tb Hok Hf Hwf) as [Hwf' Hcap].
  destruct (IH Hwf') as [? Hcap']. split; [done|congruence].
Qed.

(** C5: over any history of a bucket that starts full (or partly filled), the
    balance is exact: tokens held plus tokens granted equal the tokens held
    initially plus the tokens that entered, and the bucket ends within
    [0 <= tokens <= capacity] (hence after every prefix).  What enters is at
    most what the refill formula computes from the elapsed time and the rate,
    so the tokens granted never exceed the burst capacity plus that.  The history's side
    conditions are that no [Take] asks for a negative amount and that no refill
    exceeds what an [int64] counter can hold. *)
Theorem token_conservation tb h tb' g e :
  wf tb -> exec tb h tb' g e ->
  wf tb' /\ tokens tb' + g = tokens tb + e /\
  e <= refill_budget tb h /\ g <= capacity tb + refill_budget tb h.
Proof.
  intros Hwf He. revert Hwf.
  induction He as [tb|tb now c h tb' g e Hok Hf He IH]; intros Hwf.
  - unfold wf in *. simpl. lia.
  - destruct (call_wf now c tb Hok Hf Hwf) as [Hwf' Hcap].
    destruct (IH Hwf') as (Hwf'' & Hbal & Hen & _).
    pose proof (call_balance now c tb Hok Hf Hwf) as Hstep.
    pose proof (refilled_le now tb Hwf Hf).
    assert (entered now c tb + e <= refill_budget tb ((now, c) :: h)).
    { cbn [refill_budget]. destruct c; cbn [entered] in *; unfold wf in *; lia. }
    unfold wf in *. lia.
Qed.

Lemma token_conservation_witness :
  exists tb' g e,
    exec (NewTokenBucket Hour 2 (of_int 1)) [(Hour, CTake 2); (Hour + 5 * Second, CTake 1)] tb' g e /\
    g = 3 /\ wf tb' /\ g <= 2 + 5.
Proof.
  set (tb := NewTokenBucket Hour 2 (of_int 1)).
  assert (X : exec tb [(Hour, CTake 2); (Hour + 5 * Second, CTake 1)]
    (mkTokenBucket 2 1 (of_int 1) (Hour + 5 * Second)) (2 + (1 + 0)) (0 + (2 + 0))).
  { refine (exec_cons tb Hour (CTake 2) _ _ (1 + 0) (2 + 0) _ _ _);
      [simpl; lia|vm_compute; discriminate|].
    set (tb1 := apply_call Hour _ _). vm_compute in tb1.
    refine (exec_cons tb1 (Hour + 5 * Second) (CTake 1) _ _ 0 0 _ _ _);
      [simpl; lia|vm_compute; discriminate|].
    set (tb2 := apply_call (Hour + 5 * Second) _ _). vm_compute in tb2. subst tb2. apply exec_nil. }
  do 3 eexists. split; [exact X|]. split; [reflexivity|].
  assert (W0 : wf tb) by (apply new_wf; lia64).
  destruct (token_conservation tb _ _ _ _ W0 X) as (W & _ & _ & G).
  split; [exact W|]. refine (Z.le_trans _ _ _ G _). vm_compute. discriminate.
Defined.
