(* ===== verification/Concurrent.v ===== *)
(** * Concurrency limiter ([pkg/limits/ratelimit/concurrent.go])

    The counting semaphore and its methods, first run alone and then as the
    atomic memory operations that concurrent goroutines interleave. *)

From Stdlib Require Import ZArith Lia.
From stdpp Require Import base option list.
From S2P Require Import Prelude.
Local Open Scope go_scope.

Record ConcurrentLimiter := mkConcurrentLimiter {
  limit : Z;
  current : Z;
}.

Definition NewConcurrentLimiter (limit : Z) : ConcurrentLimiter :=
  mkConcurrentLimiter limit 0.

(** [atomic.AddInt64(&cl.current, d)]: the new value and the new state. *)
Definition AddCurrent (d : Z) (cl : ConcurrentLimiter) : Z * ConcurrentLimiter :=
  let c := current cl +64 d in (c, mkConcurrentLimiter (limit cl) c).

Definition Acquire (cl : ConcurrentLimiter) : bool * ConcurrentLimiter :=
  let '(c, cl) := AddCurrent 1 cl in
  if limit cl <? c then (false, snd (AddCurrent (-1) cl)) else (true, cl).

Definition Release (cl : ConcurrentLimiter) : ConcurrentLimiter := snd (AddCurrent (-1) cl).

Definition Current (cl : ConcurrentLimiter) : Z := current cl.
Definition Limit (cl : ConcurrentLimiter) : Z := limit cl.

Definition Remaining (cl : ConcurrentLimiter) : Z :=
  let remaining := limit cl -64 current cl in
  if remaining <? 0 then 0 else remaining.

Definition Reset (cl : ConcurrentLimiter) : ConcurrentLimiter := mkConcurrentLimiter (limit cl) 0.

(** ** One goroutine alone *)

Lemma acquire_alone cl :
  min_int64 <= current cl < max_int64 ->
  Acquire cl = if limit cl <=? current cl then (false, cl)
               else (true, mkConcurrentLimiter (limit cl) (current cl + 1)).
Proof.
  intros Hc. unfold Acquire, AddCurrent, add64; simpl.
  rewrite (wrap64_id (current cl + 1)) by lia64.
  destruct (Z.ltb_spec (limit cl) (current cl + 1)), (Z.leb_spec (limit cl) (current cl)); try lia.
  - rewrite wrap64_id by lia64. f_equal. destruct cl; simpl. f_equal. lia.
  - done.
Qed.

Lemma acquire_release cl :
  min_int64 <= current cl < max_int64 -> current cl < limit cl ->
  Release (snd (Acquire cl)) = cl.
Proof.
  intros Hc Hl. rewrite acquire_alone by done.
  destruct (Z.leb_spec (limit cl) (current cl)); [lia|]; simpl.
  unfold Release, AddCurrent, add64; simpl. rewrite wrap64_id by lia64.
  destruct cl; simpl. f_equal. lia.
Qed.

(** ** Interleavings

    A goroutine between its atomic operations: [Idle] before [Acquire] or
    after [Release]; [Checked c] after the increment that returned [c];
    [Holding] after [Acquire] returned true. *)

Inductive pc := Idle | Checked (c : Z) | Holding.

Record sys := mkSys { lim : ConcurrentLimiter; threads : list pc }.

Inductive step : sys -> sys -> Prop :=
| step_increment cl ts i :
    ts !! i = Some Idle ->
    step (mkSys cl ts)
         (mkSys (snd (AddCurrent 1 cl)) (<[i := Checked (fst (AddCurrent 1 cl))]> ts))
| step_reject cl ts i c :
    ts !! i = Some (Checked c) -> limit cl < c ->
    step (mkSys cl ts) (mkSys (snd (AddCurrent (-1) cl)) (<[i := Idle]> ts))
| step_admit cl ts i c :
    ts !! i = Some (Checked c) -> c <= limit cl ->
    step (mkSys cl ts) (mkSys cl (<[i := Holding]> ts))
| step_release cl ts i :
    ts !! i = Some Holding ->
    step (mkSys cl ts) (mkSys (Release cl) (<[i := Idle]> ts)).

Definition init (n : nat) (limit : Z) : sys :=
  mkSys (NewConcurrentLimiter limit) (replicate n Idle).

Inductive reachable (n : nat) (l : Z) : sys -> Prop :=
| reach_init : reachable n l (init n l)
| reach_step s s' : reachable n l s -> step s s' -> reachable n l s'.

Definition in_flight (p : pc) : bool := match p with Idle => false | _ => true end.
Definition is_holding (p : pc) : bool := match p with Holding => true | _ => false end.

(** A goroutine that holds a slot or has already passed the test. *)
Definition admitted (l : Z) (p : pc) : bool :=
  match p with Idle => false | Checked c => c <=? l | Holding => true end.

Definition holders (s : sys) : Z := countb is_holding (threads s).

Record inv (n : nat) (l : Z) (s : sys) : Prop := {
  inv_len : length (threads s) = n;
  inv_limit : limit (lim s) = l;
  inv_current : current (lim s) = countb in_flight (threads s);
  inv_admitted : countb (admitted l) (threads s) <= Z.max 0 l;
}.

Lemma admitted_in_flight l ts : countb (admitted l) ts <= countb in_flight ts.
Proof. apply countb_mono. by intros []. Qed.

Lemma countb_replicate {A} (p : A -> bool) n x : p x = false -> countb p (replicate n x) = 0.
Proof. intros H. induction n as [|n IH]; simpl; [done|]. rewrite H, IH. done. Qed.

Lemma inv_init n l : inv n l (init n l).
Proof.
  split; simpl; rewrite ?length_replicate, ?countb_replicate by done; lia.
Qed.

Section Preservation.
Context (n : nat) (l : Z) (Hn : Z.of_nat n < max_int64).

Lemma in_flight_bound s : inv n l s -> 0 <= countb in_flight (threads s) < max_int64.
Proof.
  intros [Hlen _ _ _]. pose proof (countb_nonneg in_flight (threads s)).
  pose proof (countb_le_length in_flight (threads s)). lia.
Qed.

Lemma step_inv s s' : inv n l s -> step s s' -> inv n l s'.
Proof.
  intros Hinv Hs. pose proof (in_flight_bound s Hinv) as Hb.
  pose proof (admitted_in_flight l (threads s)) as Haf.
  destruct Hinv as [Hlen Hlim Hcur Hadm]. unfold max_int64 in Hb.
  destruct Hs as [cl ts i Hi|cl ts i c Hi Hc|cl ts i c Hi Hc|cl ts i Hi];
    split; simpl in *; rewrite ?length_insert; try done;
    rewrite ?(countb_insert _ _ _ _ _ Hi); simpl; unfold add64; rewrite ?Hcur;
    rewrite ?wrap64_id by lia64; try lia.
  all: subst l; match goal with |- context [?a <=? ?b] => destruct (Z.leb_spec a b); simpl; lia end.
Qed.

Lemma reachable_inv s : reachable n l s -> inv n l s.
Proof. induction 1; eauto using inv_init, step_inv. Qed.
End Preservation.

(** [Acquire] run without interruption is one of the interleavings. *)
Lemma acquire_steps cl ts i :
  ts !! i = Some Idle ->
  exists s1, step (mkSys cl ts) s1 /\
    step s1 (mkSys (snd (Acquire cl)) (<[i := if fst (Acquire cl) then Holding else Idle]> ts)).
Proof.
  intros Hi. eexists. split; [by apply (step_increment cl ts i)|].
  assert (Hi' : <[i := Checked (fst (AddCurrent 1 cl))]> ts !! i = Some (Checked (fst (AddCurrent 1 cl)))).
  { apply list_lookup_insert_eq. by apply lookup_lt_Some in Hi. }
  unfold Acquire. destruct (AddCurrent 1 cl) as [c cl1] eqn:E. cbn [fst snd] in *.
  destruct (Z.ltb_spec (limit cl1) c) as [Hc|Hc]; cbn [fst snd].
  - pose proof (step_reject cl1 _ i c Hi' Hc) as Hs. by rewrite list_insert_insert_eq in Hs.
  - pose proof (step_admit cl1 _ i c Hi' Hc) as Hs. by rewrite list_insert_insert_eq in Hs.
Qed.

(** C12: under every interleaving of the atomic operations of any number of
    goroutines (fewer than 2^63-1), the number of goroutines that hold a slot
    at the same time never exceeds the configured limit, and the shared counter
    equals the number of goroutines between their increment and their
    decrement; and the steps are those of the code, in that an uninterrupted
    [Acquire] by an idle goroutine is two of them. *)
Theorem concurrency_limit_respected n l s :
  Z.of_nat n < max_int64 -> reachable n l s ->
  holders s <= Z.max 0 l /\ current (lim s) = countb in_flight (threads s) /\
  forall i, threads s !! i = Some Idle ->
    reachable n l (mkSys (snd (Acquire (lim s)))
      (<[i := if fst (Acquire (lim s)) then Holding else Idle]> (threads s))).
Proof.
  intros Hn Hr. destruct (reachable_inv n l Hn s Hr) as [_ _ Hcur Hadm].
  split; [|split; [done|]].
  2: { intros i Hi. destruct s as [cl ts]. destruct (acquire_steps cl ts i Hi) as (s1 & H1 & H2).
       by eapply reach_step, H2; eapply reach_step, H1. }
  enough (holders s <= countb (admitted l) (threads s)) by lia.
  apply countb_mono. by intros [].
Qed.

Lemma concurrency_limit_respected_witness :
  exists s, reachable 2 1 s /\ holders s <= Z.max 0 1 /\ current (lim s) = 2.
Proof.
  set (s1 := mkSys (mkConcurrentLimiter 1 1) [Checked 1; Idle]).
  set (s2 := mkSys (mkConcurrentLimiter 1 1) [Holding; Idle]).
  set (s3 := mkSys (mkConcurrentLimiter 1 2) [Holding; Checked 2]).
  assert (R : reachable 2 1 s3).
  { apply reach_step with s2; [apply reach_step with s1; [apply reach_step with (init 2 1)|]|].
    - apply reach_init.
    - exact (step_increment (NewConcurrentLimiter 1) [Idle; Idle] 0 eq_refl).
    - refine (step_admit (mkConcurrentLimiter 1 1) [Checked 1; Idle] 0 1 eq_refl _). simpl; lia.
    - exact (step_increment (mkConcurrentLimiter 1 1) [Holding; Idle] 1 eq_refl). }
  exists s3. split; [exact R|].
  destruct (concurrency_limit_respected 2 1 s3 ltac:(vm_compute; reflexivity) R) as (Hh & Hc & _).
  split; [exact Hh|exact Hc].
Defined.
