(* ===== verification/Ring.v ===== *)
(** * Time-stamped bucket rings

    [pkg/limits/ratelimit/sliding_window.go] and [pkg/limits/budget/window.go]
    keep the same structure, a fixed array of buckets stamped with the start of
    their interval, and differ in the type of the counter ([int64] tokens,
    [float64] dollars) and in a head shortcut.  This file holds what they have
    in common, over an arbitrary counter type, and the invariant that relates
    the array to the history of additions. *)

From Stdlib Require Import ZArith Lia.
From stdpp Require Import base option list sets.
From S2P Require Import Prelude.

Record bucket (V : Type) := mkBucket { timestamp : Time; value : V }.
Arguments mkBucket {V} timestamp value.
Arguments timestamp {V} b.
Arguments value {V} b.

Section Ring.
Context {V : Type} (vzero : V) (vadd : V -> V -> V).

Definition empty_bucket : bucket V := mkBucket zero_time vzero.

Definition used (b : bucket V) : bool := negb (IsZero (timestamp b)).

(** [pruneLocked]: clear every bucket older than the window. *)
Definition prune (window : Duration) (now : Time) (bs : list (bucket V)) : list (bucket V) :=
  let cutoff := AddD now (- window) in
  (fun b => if used b && Before (timestamp b) cutoff then empty_bucket else b) <$> bs.

(** The loop that looks for the oldest bucket, from index [i] on. *)
Fixpoint oldest_from (i oldestIdx : nat) (oldestTime : Time) (bs : list (bucket V)) : nat :=
  match bs with
  | [] => oldestIdx
  | b :: bs =>
      if Before (timestamp b) oldestTime
      then oldest_from (S i) i (timestamp b) bs
      else oldest_from (S i) oldestIdx oldestTime bs
  end.

Definition oldest_idx (bs : list (bucket V)) : nat :=
  match bs with
  | [] => 0
  | b :: bs => oldest_from 1 0 (timestamp b) bs
  end.

(** The slot a new bucket is created in: an empty one, else the oldest. *)
Definition target_idx (bs : list (bucket V)) : nat :=
  match find_idx (fun b => IsZero (timestamp b)) bs with
  | Some i => i
  | None => oldest_idx bs
  end.

(** Search for the bucket of [bucketTime], or create it: its index and the
    array. *)
Definition find_or_create (bucketTime : Time) (bs : list (bucket V)) : nat * list (bucket V) :=
  match find_idx (fun b => TimeEqual (timestamp b) bucketTime) bs with
  | Some i => (i, bs)
  | None => let i := target_idx bs in (i, <[i := mkBucket bucketTime vzero]> bs)
  end.

(** [currentBucket.value += v] *)
Definition add_at (i : nat) (v : V) (bs : list (bucket V)) : list (bucket V) :=
  alter (fun b => mkBucket (timestamp b) (vadd (value b) v)) i bs.

Definition ring_add (window bucketSize : Duration) (now : Time) (v : V) (bs : list (bucket V))
  : list (bucket V) :=
  let '(i, bs) := find_or_create (Truncate now bucketSize) (prune window now bs) in
  add_at i v bs.

(** ** Facts about the slot search *)

Lemma oldest_from_spec bs : forall i idx t,
  (exists k b, oldest_from i idx t bs = (i + k)%nat /\ bs !! k = Some b /\
     timestamp b <= t /\ forall j c, bs !! j = Some c -> timestamp b <= timestamp c) \/
  (oldest_from i idx t bs = idx /\ forall j c, bs !! j = Some c -> t <= timestamp c).
Proof.
  induction bs as [|b bs IH]; intros i idx t; simpl.
  - right. split; [done|]. intros j c Hj. by rewrite lookup_nil in Hj.
  - unfold Before. destruct (Z.ltb_spec (timestamp b) t) as [Hlt|Hge].
    + destruct (IH (S i) i (timestamp b)) as [(k & c & Hk & Hc & Hle & Hmin)|[Hk Hmin]].
      * left. exists (S k), c. repeat split; [lia|done|lia|].
        intros [|j] d Hj; simpl in Hj; simplify_eq; [lia|by eapply Hmin].
      * left. exists 0%nat, b. repeat split; [lia|lia|].
        intros [|j] d Hj; simpl in Hj; simplify_eq; [lia|by eapply Hmin].
    + destruct (IH (S i) idx t) as [(k & c & Hk & Hc & Hle & Hmin)|[Hk Hmin]].
      * left. exists (S k), c. repeat split; [lia|done|lia|].
        intros [|j] d Hj; simpl in Hj; simplify_eq; [lia|by eapply Hmin].
      * right. split; [done|].
        intros [|j] d Hj; simpl in Hj; simplify_eq; [lia|by eapply Hmin].
Qed.

Lemma oldest_idx_spec bs :
  bs <> [] ->
  exists b, bs !! oldest_idx bs = Some b /\
    forall j c, bs !! j = Some c -> timestamp b <= timestamp c.
Proof.
  destruct bs as [|b bs]; [done|]. intros _. simpl.
  destruct (oldest_from_spec bs 1 0 (timestamp b)) as [(k & c & -> & Hc & Hle & Hmin)|[-> Hmin]].
  - exists c. split; [done|]. intros [|j] d Hj; simpl in Hj; simplify_eq; [lia|by eapply Hmin].
  - exists b. split; [done|]. intros [|j] d Hj; simpl in Hj; simplify_eq; [lia|by eapply Hmin].
Qed.

Lemma target_idx_spec bs :
  bs <> [] ->
  exists b, bs !! target_idx bs = Some b /\
    (timestamp b = 0 \/
     (forall j c, bs !! j = Some c -> timestamp c <> 0 /\ timestamp b <= timestamp c)).
Proof.
  intros Hne. unfold target_idx.
  destruct (find_idx _ bs) as [i|] eqn:Hf.
  - apply find_idx_Some in Hf as (b & Hb & Hz & _). exists b. split; [done|].
    left. unfold IsZero in Hz. lia.
  - destruct (oldest_idx_spec bs Hne) as (b & Hb & Hmin). exists b. split; [done|].
    right. intros j c Hj. split; [|by eapply Hmin].
    pose proof (proj1 (find_idx_None _ bs) Hf j c Hj) as Hz. unfold IsZero in Hz. lia.
Qed.

Lemma length_prune w now bs : length (prune w now bs) = length bs.
Proof. apply length_fmap. Qed.

Lemma prune_lookup w now bs i b :
  prune w now bs !! i = Some b -> timestamp b <> 0 ->
  bs !! i = Some b /\ now - w <= timestamp b.
Proof.
  unfold prune. rewrite list_lookup_fmap.
  destruct (bs !! i) as [c|]; simpl; [|done]. unfold used, IsZero, Before, AddD.
  intros [= Hb] Hnz. revert Hb Hnz.
  destruct (Z.eqb_spec (timestamp c) 0), (Z.ltb_spec (timestamp c) (now + - w));
    simpl; intros <-; simpl; intros ?; split; try done; lia.
Qed.

Lemma prune_keeps w now bs i b :
  bs !! i = Some b -> now - w <= timestamp b -> prune w now bs !! i = Some b.
Proof.
  intros Hb Hle. unfold prune. rewrite list_lookup_fmap, Hb; simpl.
  unfold Before, AddD. destruct (Z.ltb_spec (timestamp b) (now + - w)); [lia|].
  by rewrite andb_false_r.
Qed.

(** ** The array against the history

    [h] is the list of additions so far, oldest first.  [total h t] is what
    the bucket of interval [t] accumulates when the additions of that
    interval are applied in order. *)

Context (window bucketSize : Duration) (N : nat).
Context (Hs : 0 < bucketSize) (HN : (0 < N)%nat) (Hw : window = Z.of_nat N * bucketSize).
#[local] Set Default Proof Using "Hs HN Hw".

Definition slot (t : Time) : Time := Truncate t bucketSize.

Definition total (h : list (Time * V)) (t : Time) : V :=
  foldl (fun a e => if slot (fst e) =? t then vadd a (snd e) else a) vzero h.

Record ring_inv (last : Time) (h : list (Time * V)) (bs : list (bucket V)) : Prop := {
  ri_len : length bs = N;
  ri_stamp : forall i b, bs !! i = Some b -> timestamp b <> 0 ->
    (bucketSize | timestamp b) /\ 0 < timestamp b <= last;
  ri_distinct : forall i j b c, bs !! i = Some b -> bs !! j = Some c ->
    timestamp b <> 0 -> timestamp b = timestamp c -> i = j;
  ri_value : forall i b, bs !! i = Some b -> timestamp b <> 0 -> value b = total h (timestamp b);
  ri_cover : forall t v, (t, v) ∈ h -> last - window < slot t ->
    exists i b, bs !! i = Some b /\ timestamp b = slot t;
  ri_past : forall t v, (t, v) ∈ h -> bucketSize <= t <= last;
}.

Lemma slot_pos t : bucketSize <= t -> bucketSize <= slot t.
Proof.
  intros Ht. unfold slot. rewrite Truncate_mult by done.
  pose proof (Z.div_le_mono bucketSize t bucketSize Hs Ht) as H.
  rewrite Z.div_same in H by lia. nia.
Qed.

Lemma slot_window t : t - window < slot t.
Proof. pose proof (Truncate_gt t bucketSize Hs). unfold slot. nia. Qed.

Lemma ring_inv_init t : ring_inv t [] (replicate N empty_bucket).
Proof.
  split; [by rewrite length_replicate| | | |set_solver|set_solver].
  all: intros i; intros; repeat match goal with
    H : replicate _ _ !! _ = Some _ |- _ => apply lookup_replicate in H as [-> _] end; done.
Qed.

(** Pruning at a later time keeps the invariant. *)
Lemma ring_inv_prune last now h bs :
  last <= now -> ring_inv last h bs -> ring_inv now h (prune window now bs).
Proof.
  intros Hle [Hlen Hst Hd Hv Hc Hp]. split.
  - by rewrite length_prune.
  - intros i b Hb Hnz. apply prune_lookup in Hb as [Hb _]; [|done].
    destruct (Hst i b Hb Hnz). split; [done|lia].
  - intros i j b c Hb Hc' Hnz Heq. apply prune_lookup in Hb as [Hb _]; [|done].
    apply prune_lookup in Hc' as [Hc' _]; [|congruence]. by eapply Hd.
  - intros i b Hb Hnz. apply prune_lookup in Hb as [Hb _]; [|done]. by eapply Hv.
  - intros t v Hin Hlt. destruct (Hc t v Hin ltac:(lia)) as (i & b & Hb & Heq).
    exists i, b. split; [|done]. apply prune_keeps; [done|lia].
  - intros t v Hin. specialize (Hp t v Hin). lia.
Qed.

Lemma ring_inv_later last now h bs :
  last <= now -> ring_inv last h bs -> ring_inv now h bs.
Proof.
  intros Hle [Hlen Hst Hd Hv Hc Hp]. split; [done| |done|done| |].
  - intros i b Hb Hnz. destruct (Hst i b Hb Hnz). split; [done|lia].
  - intros t v Hin Hlt. apply (Hc t v Hin). lia.
  - intros t v Hin. specialize (Hp t v Hin). lia.
Qed.

(** When every slot is taken and none is the current interval's, the oldest
    stamp is at the far edge of the window or beyond it. *)
Lemma oldest_outside now h bs b :
  ring_inv now h bs -> bs !! target_idx bs = Some b ->
  (forall j c, bs !! j = Some c -> timestamp c <> 0 /\ timestamp b <= timestamp c) ->
  (forall j c, bs !! j = Some c -> timestamp c <> slot now) ->
  timestamp b <= now - window.
Proof.
  intros [Hlen Hst Hd _ _ _] Hb Hmin Hne.
  destruct (Z.le_gt_cases (timestamp b) (now - window)) as [|Hgt]; [done|exfalso].
  set (k := fun c : bucket V => Z.to_nat ((slot now - timestamp c) / bucketSize)).
  assert (Hrange : forall j c, bs !! j = Some c ->
    exists q, timestamp c = slot now - bucketSize * q /\ 1 <= q < Z.of_nat N).
  { intros j c Hj. destruct (Hmin j c Hj) as [Hnz Hle].
    destruct (Hst j c Hj Hnz) as [[a Ha] Hpos].
    destruct (Truncate_divide now bucketSize Hs) as [m Hm]. fold (slot now) in Hm.
    exists (m - a). pose proof (Truncate_gt now bucketSize Hs) as Hg. fold (slot now) in Hg.
    pose proof (Hne j c Hj). split; [nia|]. split.
    - assert (a <> m) by (intros ->; congruence).
      assert (a * bucketSize < (m + 1) * bucketSize) by lia. nia.
    - assert ((m - a) * bucketSize < Z.of_nat N * bucketSize); [|nia].
      pose proof (Truncate_le now bucketSize Hs) as Hl. fold (slot now) in Hl. lia. }
  assert (Hk : forall j c q, bs !! j = Some c -> timestamp c = slot now - bucketSize * q ->
    0 <= q -> k c = Z.to_nat q).
  { intros j c q _ Hq _. unfold k. f_equal. rewrite Hq.
    replace (slot now - (slot now - bucketSize * q)) with (q * bucketSize) by lia.
    apply Z.div_mul. lia. }
  assert (Hnd : NoDup (k <$> bs)).
  { apply NoDup_alt. intros i j x Hi Hj. rewrite list_lookup_fmap in Hi, Hj.
    destruct (bs !! i) as [c|] eqn:Ec; [|done]. destruct (bs !! j) as [d|] eqn:Ed; [|done].
    assert (E : k c = k d) by (simpl in Hi, Hj; congruence).
    destruct (Hrange i c Ec) as (q & Hq & ?). destruct (Hrange j d Ed) as (r & Hr & ?).
    rewrite (Hk i c q), (Hk j d r) in E by (done || lia).
    assert (q = r) as <- by lia. destruct (Hmin i c Ec). eapply Hd; [done..|lia]. }
  assert (Hsub : k <$> bs ⊆ seq 1 (N - 1)).
  { intros x Hx. apply list_elem_of_fmap in Hx as (c & -> & Hin).
    apply list_elem_of_lookup in Hin as [j Hj]. destruct (Hrange j c Hj) as (q & Hq & ?).
    rewrite (Hk j c q) by (done || lia). apply elem_of_seq. lia. }
  pose proof (NoDup_submseteq _ _ Hnd Hsub) as Hle. apply submseteq_length in Hle.
  rewrite length_fmap, length_seq in Hle. lia.
Qed.

Lemma total_fresh h t :
  (forall u v, (u, v) ∈ h -> slot u <> t) -> total h t = vzero.
Proof.
  unfold total. generalize vzero. induction h as [|[u v] h IH]; intros a Hf; simpl; [done|].
  destruct (Z.eqb_spec (slot u) t) as [E|]; [exfalso; eapply Hf; [by left|done]|].
  apply IH. intros. eapply Hf. by right.
Qed.

Lemma total_snoc h u v t :
  total (h ++ [(u, v)]) t = if slot u =? t then vadd (total h t) v else total h t.
Proof. unfold total. by rewrite foldl_app. Qed.

(** The bucket of the current interval, found or created, extended with [v]:
    the array then matches the history extended with this addition. *)
Lemma ring_inv_existing now h bs i b v :
  bucketSize <= now -> ring_inv now h bs ->
  bs !! i = Some b -> timestamp b = slot now ->
  ring_inv now (h ++ [(now, v)]) (add_at i v bs).
Proof.
  intros Hnow [Hlen Hst Hd Hv Hc Hp] Hi Hb.
  assert (Hlk : forall j c, add_at i v bs !! j = Some c ->
    exists c0, bs !! j = Some c0 /\ timestamp c = timestamp c0 /\
      value c = if bool_decide (i = j) then vadd (value c0) v else value c0).
  { intros j c. unfold add_at. rewrite list_lookup_alter. case_decide as E.
    - subst j. rewrite Hi. simpl. intros [= <-]. exists b. by rewrite bool_decide_true.
    - intros Hj. exists c. by rewrite bool_decide_false. }
  split.
  - unfold add_at. by rewrite length_alter.
  - intros j c (c0 & Hj & -> & _)%Hlk. by apply (Hst j).
  - intros j k c d (c0 & Hj & -> & _)%Hlk (d0 & Hk & -> & _)%Hlk. by apply (Hd j k).
  - intros j c (c0 & Hj & Ht & ->)%Hlk Hnz. rewrite Ht in *. rewrite total_snoc.
    case_bool_decide as E.
    + subst j. assert (c0 = b) as -> by congruence. rewrite Hb, Z.eqb_refl.
      f_equal. rewrite <- Hb. apply (Hv i); [done|congruence].
    + destruct (Z.eqb_spec (slot now) (timestamp c0)) as [E'|_]; [|by eapply Hv].
      exfalso. apply E. apply (Hd i j b c0); [done|done| |]; congruence.
  - intros t w Hin Hlt. apply elem_of_app in Hin as [Hin|Hin].
    + destruct (Hc t w Hin Hlt) as (j & c & Hj & Hjt). exists j.
      unfold add_at. rewrite list_lookup_alter. case_decide; [subst j|].
      * rewrite Hi. eexists. split; [done|]. simpl. congruence.
      * by exists c.
    + apply list_elem_of_singleton in Hin. simplify_eq. exists i.
      unfold add_at. rewrite list_lookup_alter, decide_True, Hi by done. by eexists.
  - intros t w Hin. apply elem_of_app in Hin as [Hin|Hin]; [by eapply Hp|].
    apply list_elem_of_singleton in Hin. simplify_eq. lia.
Qed.

Lemma ring_inv_create now h bs :
  bucketSize <= now -> ring_inv now h bs ->
  (forall j c, bs !! j = Some c -> timestamp c <> slot now) ->
  ring_inv now h (<[target_idx bs := mkBucket (slot now) vzero]> bs).
Proof.
  intros Hnow Hinv Hne. pose proof Hinv as [Hlen Hst Hd Hv Hc Hp].
  destruct (target_idx_spec bs) as (b & Hb & Hold); [intros ->; simpl in Hlen; lia|].
  assert (Hout : timestamp b <> 0 -> timestamp b <= now - window).
  { intros Hnz. destruct Hold as [|Hmin]; [done|]. by eapply oldest_outside. }
  set (i := target_idx bs) in *. pose proof (lookup_lt_Some _ _ _ Hb) as Hlt.
  assert (Hlk : forall j c, <[i := mkBucket (slot now) vzero]> bs !! j = Some c ->
    (j = i /\ c = mkBucket (slot now) vzero) \/ (j <> i /\ bs !! j = Some c)).
  { intros j c. rewrite list_lookup_insert. case_decide as E; intros Hj; simplify_eq.
    - left. destruct E. done.
    - right. split; [|done]. intros ->. by apply E. }
  pose proof (slot_pos now Hnow) as Hsp.
  assert (Hfresh : total h (slot now) = vzero).
  { apply total_fresh. intros u w Hin E.
    destruct (Hc u w Hin) as (j & c & Hj & Hjt); [rewrite E; apply slot_window|].
    apply (Hne j c Hj). congruence. }
  split.
  - by rewrite length_insert.
  - intros j c [[-> ->]|[_ Hj]]%Hlk Hnz; [|by eapply Hst]. simpl.
    split; [by apply Truncate_divide|]. pose proof (Truncate_le now bucketSize Hs).
    unfold slot in *. lia.
  - intros j k c d [[-> ->]|[? Hj]]%Hlk [[-> ->]|[? Hk]]%Hlk; simpl; try done.
    + intros _ E. exfalso. by eapply Hne.
    + intros _ E. exfalso. by eapply Hne.
    + by apply (Hd j k).
  - intros j c [[-> ->]|[? Hj]]%Hlk Hnz; simpl; [done|by eapply Hv].
  - intros t w Hin Hlt'. destruct (Hc t w Hin Hlt') as (j & c & Hj & Hjt).
    assert (j <> i).
    { intros ->. assert (c = b) as -> by congruence. specialize (Hp t w Hin).
      pose proof (slot_pos t ltac:(lia)). lia. }
    exists j, c. by rewrite list_lookup_insert_ne.
  - done.
Qed.

Lemma ring_add_inv last now h bs v :
  bucketSize <= now -> last <= now -> ring_inv last h bs ->
  ring_inv now (h ++ [(now, v)]) (ring_add window bucketSize now v bs).
Proof.
  intros Hnow Hle Hinv. unfold ring_add.
  apply (ring_inv_prune _ now) in Hinv; [|done].
  set (bs' := prune window now bs) in *. unfold find_or_create. fold (slot now).
  destruct (find_idx _ bs') as [i|] eqn:Hf.
  - apply find_idx_Some in Hf as (b & Hb & Ht & _).
    apply ring_inv_existing with b; [done..|]. unfold TimeEqual in Ht. lia.
  - assert (Hne : forall j c, bs' !! j = Some c -> timestamp c <> slot now).
    { intros j c Hj E. pose proof (proj1 (find_idx_None _ _) Hf j c Hj) as Hn.
      unfold TimeEqual in Hn. simpl in Hn. lia. }
    destruct (target_idx_spec bs') as (b & Hb & _);
      [intros E; pose proof (ri_len _ _ _ Hinv) as Hlen; rewrite E in Hlen; simpl in Hlen; lia|].
    apply ring_inv_existing with (mkBucket (slot now) vzero); [done| |
      by apply list_lookup_insert_eq, lookup_lt_Some with b|done].
    by apply ring_inv_create.
Qed.

(** ** Which intervals a pruned array holds *)

Definition live_at (now : Time) (bs : list (bucket V)) : Prop :=
  forall i b, bs !! i = Some b -> timestamp b <> 0 -> now - window <= timestamp b.

Definition buckets_of (t : Time) (bs : list (bucket V)) : Z :=
  countb (fun b => used b && (timestamp b =? t)) bs.

Lemma prune_live now bs : live_at now (prune window now bs).
Proof. intros i b Hb Hnz. by apply prune_lookup in Hb as [_ ?]. Qed.

(** In a pruned array the interval of an addition has exactly one live bucket
    when its start is strictly inside the window, none when it is before it. *)
Lemma live_exact now h bs t v :
  ring_inv now h bs -> live_at now bs -> (t, v) ∈ h ->
  (now - window < slot t -> buckets_of (slot t) bs = 1) /\
  (slot t < now - window -> buckets_of (slot t) bs = 0) /\
  0 <= buckets_of (slot t) bs <= 1.
Proof.
  intros [Hlen Hst Hd Hv Hc Hp] Hlive Hin. unfold buckets_of.
  assert (Hle : countb (fun b => used b && (timestamp b =? slot t)) bs <= 1).
  { apply countb_unique. intros i j b c Hi Hj Hb Hc'. unfold used, IsZero in *.
    apply (Hd i j b c); [done|done|lia|lia]. }
  pose proof (countb_nonneg (fun b => used b && (timestamp b =? slot t)) bs) as H0.
  pose proof (slot_pos t ltac:(by destruct (Hp t v Hin))) as Hpos.
  split; [|split; [|done]].
  - intros Hlt. destruct (Hc t v Hin Hlt) as (i & b & Hi & Hb).
    enough (1 <= countb (fun b => used b && (timestamp b =? slot t)) bs) by lia.
    apply (countb_pos _ _ i b Hi). unfold used, IsZero. lia.
  - intros Hlt. apply countb_zero. intros i b Hi. unfold used, IsZero.
    destruct (Z.eqb_spec (timestamp b) 0), (Z.eqb_spec (timestamp b) (slot t)); try done.
    specialize (Hlive i b Hi ltac:(done)). lia.
Qed.
End Ring.

(** Intervals beyond the far edge of the window contribute nothing and those
    strictly inside contribute in full: the sum over the live buckets of a
    numeric ring is the sum over the additions, each weighted by the number of
    live buckets of its interval. *)
Lemma Zsum_by_slot (bucketSize : Duration) (h : list (Time * Z)) (bs : list (bucket Z)) :
  Zsum (fun b => if used b
    then Zsum (fun e => if slot bucketSize (fst e) =? timestamp b then snd e else 0) h else 0) bs
  = Zsum (fun e => snd e * buckets_of (slot bucketSize (fst e)) bs) h.
Proof.
  unfold buckets_of. induction bs as [|b bs IH]; simpl.
  - induction h as [|e h IHh]; simpl; lia.
  - rewrite IH. clear IH. destruct (used b); simpl.
    + induction h as [|e h IHh]; simpl; [lia|]. rewrite (Z.eqb_sym (timestamp b)).
      destruct (slot bucketSize (fst e) =? timestamp b); simpl; lia.
    + apply Zsum_ext. intros e _. lia.
Qed.
