(* ===== verification/SlidingWindow.v ===== *)
(** * Sliding window counter ([pkg/limits/ratelimit/sliding_window.go])

    The token counter over a rolling period.  [None] is an index or division
    panic.  The main theorem relates [Sum] to the history of additions. *)

From Stdlib Require Import ZArith Lia.
From stdpp Require Import base option list sets.
From S2P Require Import Prelude Ring.
Local Open Scope go_scope.

Record SlidingWindow := mkSlidingWindow {
  window : Duration;
  bucketSize : Duration;
  buckets : list (bucket Z);
  head : nat;
}.

Definition NewSlidingWindow (window bucketSize : Duration) : option SlidingWindow :=
  if bucketSize =? 0 then None else
  let numBuckets := Z.quot window bucketSize in
  let numBuckets := if numBuckets =? 0 then 1 else numBuckets in
  if numBuckets <? 0 then None else
  Some (mkSlidingWindow window bucketSize
          (replicate (Z.to_nat numBuckets) (empty_bucket 0)) 0).

Definition pruneLocked (now : Time) (sw : SlidingWindow) : SlidingWindow :=
  mkSlidingWindow (window sw) (bucketSize sw) (prune 0 (window sw) now (buckets sw)) (head sw).

(** The index of the current bucket, with the window in which it exists. *)
Definition findOrCreateBucketLocked (now : Time) (sw : SlidingWindow)
  : option (nat * SlidingWindow) :=
  let bucketTime := Truncate now (bucketSize sw) in
  match buckets sw !! head sw with
  | None => None
  | Some hb =>
      if TimeEqual (timestamp hb) bucketTime then Some (head sw, sw) else
      match find_idx (fun b => TimeEqual (timestamp b) bucketTime) (buckets sw) with
      | Some i => Some (i, sw)
      | None =>
          let targetIdx := target_idx (buckets sw) in
          Some (targetIdx, mkSlidingWindow (window sw) (bucketSize sw)
                  (<[targetIdx := mkBucket bucketTime 0]> (buckets sw)) targetIdx)
      end
  end.

Definition Add (now : Time) (v : Z) (sw : SlidingWindow) : option SlidingWindow :=
  match findOrCreateBucketLocked now (pruneLocked now sw) with
  | None => None
  | Some (i, sw) =>
      Some (mkSlidingWindow (window sw) (bucketSize sw) (add_at add64 i v (buckets sw)) (head sw))
  end.

Definition Sum (now : Time) (sw : SlidingWindow) : Z * SlidingWindow :=
  let sw := pruneLocked now sw in
  (foldl (fun sum b => if used b then sum +64 value b else sum) 0 (buckets sw), sw).

Definition Reset (sw : SlidingWindow) : SlidingWindow :=
  mkSlidingWindow (window sw) (bucketSize sw)
    ((fun _ => empty_bucket 0) <$> buckets sw) 0.

(** ** Wrapped sums *)

Lemma foldl_add64 {A} (p : A -> bool) (f : A -> Z) l a :
  foldl (fun s x => if p x then s +64 f x else s) (wrap64 a) l
  = wrap64 (a + Zsum (fun x => if p x then f x else 0) l).
Proof.
  revert a. induction l as [|x l IH]; intros a; simpl; [by rewrite Z.add_0_r|].
  destruct (p x); [|by rewrite IH, Z.add_0_l].
  unfold add64. rewrite wrap64_add_l, IH. f_equal. lia.
Qed.

Lemma wrap64_Zsum {A} (f : A -> Z) l :
  wrap64 (Zsum (fun x => wrap64 (f x)) l) = wrap64 (Zsum f l).
Proof.
  induction l as [|x l IH]; simpl; [done|].
  rewrite wrap64_add_l, <- wrap64_add_r, IH, wrap64_add_r. done.
Qed.

Definition slot_sum (s : Duration) (h : list (Time * Z)) (t : Time) : Z :=
  Zsum (fun e => if slot s (fst e) =? t then snd e else 0) h.

Lemma total_add64 s h t : total 0 add64 s h t = wrap64 (slot_sum s h t).
Proof.
  unfold total, slot_sum. change 0 with (wrap64 0) at 1.
  by rewrite (foldl_add64 (fun e => slot s (fst e) =? t) snd).
Qed.

(** ** The histories of a window

    [reach w s N sw h last]: [sw] is a window of [N] buckets of [s] after the
    additions [h] (since the last [Reset]), the clock having reached [last]. *)

Section Histories.
Context (w s : Duration) (N : nat).
Context (Hs : 0 < s) (HN : (0 < N)%nat) (Hw : w = Z.of_nat N * s).
#[local] Set Default Proof Using "Hs HN Hw".

Inductive reach : SlidingWindow -> list (Time * Z) -> Time -> Prop :=
| reach_new sw t : NewSlidingWindow w s = Some sw -> reach sw [] t
| reach_add sw h last now v sw' :
    reach sw h last -> last <= now -> s <= now ->
    Add now v sw = Some sw' -> reach sw' (h ++ [(now, v)]) now
| reach_sum sw h last now :
    reach sw h last -> last <= now -> reach (snd (Sum now sw)) h now
| reach_reset sw h last : reach sw h last -> reach (Reset sw) [] last.

Record sw_inv (sw : SlidingWindow) (h : list (Time * Z)) (last : Time) : Prop := {
  swi_window : window sw = w;
  swi_size : bucketSize sw = s;
  swi_head : (head sw < N)%nat;
  swi_ring : ring_inv 0 add64 w s N last h (buckets sw);
}.

Lemma sliding_new_buckets sw :
  NewSlidingWindow w s = Some sw -> sw = mkSlidingWindow w s (replicate N (empty_bucket 0)) 0.
Proof.
  unfold NewSlidingWindow. destruct (Z.eqb_spec s 0); [lia|].
  rewrite Hw, Z.quot_mul by lia.
  destruct (Z.eqb_spec (Z.of_nat N) 0); [lia|].
  destruct (Z.ltb_spec (Z.of_nat N) 0); [lia|]. intros [= <-]. by rewrite Nat2Z.id.
Qed.

Lemma sliding_prune_inv sw h last now :
  last <= now -> sw_inv sw h last -> sw_inv (pruneLocked now sw) h now.
Proof.
  intros Hle [H1 H2 H3 H4]. split; simpl; [done..|]. rewrite H1.
  by apply ring_inv_prune with last.
Qed.

(** The head shortcut finds the bucket the plain search would find. *)
Lemma findOrCreate_ring sw h now :
  s <= now -> sw_inv sw h now ->
  exists i hd, findOrCreateBucketLocked now sw =
    Some (i, mkSlidingWindow w s (snd (find_or_create 0 (slot s now) (buckets sw))) hd) /\
    i = fst (find_or_create 0 (slot s now) (buckets sw)) /\ (hd < N)%nat.
Proof.
  intros Hnow [H1 H2 H3 [Hlen Hst Hd Hv Hc Hp]].
  unfold findOrCreateBucketLocked, find_or_create. rewrite H2. fold (slot s now).
  destruct (lookup_lt_is_Some_2 (buckets sw) (head sw)) as [hb Hhb]; [lia|]. rewrite Hhb.
  pose proof (slot_pos w s N Hs HN Hw now Hnow) as Hpos. unfold TimeEqual in *.
  destruct sw as [w' s' bs hd]; simpl in *; subst w' s'.
  destruct (Z.eqb_spec (timestamp hb) (slot s now)) as [E|E].
  - rewrite (find_idx_unique _ _ hd hb); [by exists hd, hd|done|lia|].
    intros j y Hj Ht. symmetry. apply (Hd hd j hb y); [done|done|lia|lia].
  - destruct (find_idx _ bs) as [i|] eqn:Hf; [by exists i, hd|].
    exists (target_idx bs), (target_idx bs). split; [done|]. split; [done|].
    destruct (target_idx_spec bs) as (b & Hb & _); [by intros ->|].
    apply lookup_lt_Some in Hb. lia.
Qed.

Lemma sliding_add_inv sw h last now v :
  sw_inv sw h last -> last <= now -> s <= now ->
  exists sw', Add now v sw = Some sw' /\ sw_inv sw' (h ++ [(now, v)]) now.
Proof.
  intros Hinv Hle Hnow. pose proof (sliding_prune_inv sw h last now Hle Hinv) as Hpr.
  destruct (findOrCreate_ring _ _ _ Hnow Hpr) as (i & hd & Hf & Hi & Hhd).
  unfold Add. rewrite Hf. eexists. split; [done|]. split; simpl; [done..|].
  pose proof (ring_add_inv 0 add64 w s N Hs HN Hw last now h (buckets sw) v
    Hnow Hle (swi_ring _ _ _ Hinv)) as Hr.
  unfold ring_add in Hr. simpl in Hi |- *. rewrite (swi_window _ _ _ Hinv) in Hi |- *.
  fold (slot s now) in Hr. clear Hf. subst i.
  by destruct (find_or_create 0 (slot s now) (prune 0 w now (buckets sw))).
Qed.

Lemma sliding_reach_inv sw h last : reach sw h last -> sw_inv sw h last.
Proof.
  induction 1 as [sw t Hn|sw h last now v sw' _ IH Hle Hnow Ha|sw h last now _ IH Hle|sw h last _ IH].
  - apply sliding_new_buckets in Hn as ->. split; simpl; [done|done|lia|]. by apply ring_inv_init.
  - destruct (sliding_add_inv sw h last now v IH Hle Hnow) as (sw'' & Ha' & Hi).
    rewrite Ha in Ha'. by injection Ha' as ->.
  - by apply sliding_prune_inv with last.
  - destruct IH as [H1 H2 H3 [Hlen _ _ _ _ _]]. split; simpl; [done|done|lia|].
    assert ((fun _ => empty_bucket 0) <$> buckets sw = replicate N (empty_bucket 0)) as ->.
    { rewrite <- Hlen. clear. induction (buckets sw); simpl; by f_equal. }
    by apply ring_inv_init.
Qed.

Lemma sum_weighted sw h last now :
  sw_inv sw h last -> last <= now ->
  fst (Sum now sw) =
    wrap64 (Zsum (fun e => snd e * buckets_of (slot s (fst e)) (prune 0 w now (buckets sw))) h).
Proof.
  intros Hinv Hle. pose proof (sliding_prune_inv sw h last now Hle Hinv) as [_ _ _ Hr].
  simpl in Hr |- *. rewrite (swi_window _ _ _ Hinv) in *. rewrite <- Zsum_by_slot.
  change 0 with (wrap64 0) at 1. rewrite foldl_add64. simpl.
  rewrite <- wrap64_Zsum. f_equal. apply Zsum_ext. intros b Hb.
  apply list_elem_of_lookup in Hb as [i Hi].
  destruct (used b) eqn:Hu; [|done]. unfold used, IsZero in Hu.
  rewrite (ri_value _ _ _ _ _ _ _ _ Hr i b Hi) by lia.
  rewrite total_add64. unfold slot_sum. done.
Qed.
End Histories.

(** [Sum] against the history: additions strictly inside the window are all
    counted, additions whose interval starts before it never. *)
Lemma sum_bounds w s N sw h last now :
  0 < s -> (0 < N)%nat -> w = Z.of_nat N * s ->
  reach w s sw h last -> last <= now ->
  (forall t v, (t, v) ∈ h -> 0 <= v) -> Zsum snd h <= max_int64 ->
  Zsum (fun e => if now - w <? slot s (fst e) then snd e else 0) h <= fst (Sum now sw)
    <= Zsum (fun e => if now - w <=? slot s (fst e) then snd e else 0) h.
Proof.
  intros Hs HN Hw Hr Hle Hpos Hmax.
  pose proof (sliding_reach_inv w s N Hs HN Hw sw h last Hr) as Hinv.
  pose proof (sliding_prune_inv w s N Hs HN Hw sw h last now Hle Hinv) as [_ _ _ Hp]. simpl in Hp.
  rewrite (swi_window _ _ _ _ _ _ Hinv) in Hp.
  rewrite (sum_weighted w s N Hs HN Hw sw h last now Hinv Hle).
  set (g := fun e : Time * Z => snd e * buckets_of (slot s (fst e)) (prune 0 w now (buckets sw))).
  assert (Hg : forall e, e ∈ h ->
    (if now - w <? slot s (fst e) then snd e else 0) <= g e
      <= (if now - w <=? slot s (fst e) then snd e else 0) /\ 0 <= g e <= snd e).
  { intros [t v] Hin. unfold g; simpl. specialize (Hpos t v Hin).
    destruct (live_exact 0 add64 w s N Hs HN Hw now h _ t v Hp (prune_live 0 w s N Hs HN Hw now _) Hin)
      as (H1 & H0 & Hb).
    destruct (Z.ltb_spec (now - w) (slot s t)), (Z.leb_spec (now - w) (slot s t)); nia. }
  rewrite wrap64_id; [split; apply Zsum_le; intros e He; by apply Hg|].
  pose proof (Zsum_nonneg g h ltac:(intros e He; apply Hg; done)).
  pose proof (Zsum_le g snd h ltac:(intros e He; apply Hg; done)). lia64.
Qed.

(** For every history of additions (non-negative, with a total that fits
    an [int64]) and every later reading of the clock, [Sum] never misses an
    addition whose interval starts strictly inside the window and never counts
    one whose interval starts before it: the count lies between the additions
    newer than [now - window] and those not older than it.  The window is a
    whole number of buckets, as in every call of [NewSlidingWindow]. *)
Theorem sliding_window_sum_bounds w s N sw h last now :
  0 < s -> (0 < N)%nat -> w = Z.of_nat N * s ->
  reach w s sw h last -> last <= now ->
  (forall t v, (t, v) ∈ h -> 0 <= v) -> Zsum snd h <= max_int64 ->
  Zsum (fun e => if now - w <? slot s (fst e) then snd e else 0) h <= fst (Sum now sw)
    <= Zsum (fun e => if now - w <=? slot s (fst e) then snd e else 0) h.
Proof. apply sum_bounds. Qed.

Lemma sliding_window_sum_bounds_witness :
  exists sw, reach 3 1 sw [(5, 10); (6, 20)] 6 /\
    20 <= fst (Sum 8 sw) <= 30.
Proof.
  set (sw0 := mkSlidingWindow 3 1 (replicate 3 (empty_bucket 0)) 0).
  set (sw1 := mkSlidingWindow 3 1 [mkBucket 5 10; mkBucket 0 0; mkBucket 0 0] 0).
  set (sw2 := mkSlidingWindow 3 1 [mkBucket 5 10; mkBucket 6 20; mkBucket 0 0] 1).
  assert (R : reach 3 1 sw2 [(5, 10); (6, 20)] 6).
  { apply (reach_add 3 1 sw1 [(5, 10)] 5 6 20); [|lia|lia|vm_compute; reflexivity].
    apply (reach_add 3 1 sw0 [] 0 5 10); [|lia|lia|vm_compute; reflexivity].
    apply reach_new. vm_compute. reflexivity. }
  exists sw2. split; [exact R|].
  pose proof (sliding_window_sum_bounds 3 1 3 sw2 [(5, 10); (6, 20)] 6 8
    ltac:(lia) ltac:(lia) ltac:(lia) R ltac:(lia)) as B.
  assert (Hv : forall t v, (t, v) ∈ [(5, 10); (6, 20)] -> 0 <= v).
  { intros t v Hin. apply list_elem_of_In in Hin as [[= <- <-]|[[= <- <-]|[]]]; lia. }
  exact (B Hv ltac:(vm_compute; discriminate)).
Defined.
