(* ===== verification/RollingWindow.v ===== *)
(** * Rolling spending window ([pkg/limits/budget/window.go])

    Dollars spent over a rolling period, in [float64].  [None] is an index or
    division panic. *)

From Stdlib Require Import ZArith Lia.
From stdpp Require Import base option list sets.
From S2P Require Import Prelude Float64 Ring.
Local Open Scope go_scope.

Record RollingWindow := mkRollingWindow {
  window : Duration;
  bucketSize : Duration;
  buckets : list (bucket float64);
}.

Definition NewRollingWindow (window bucketSize : Duration) : option RollingWindow :=
  if bucketSize =? 0 then None else
  let numBuckets := Z.quot window bucketSize in
  let numBuckets := if numBuckets =? 0 then 1 else numBuckets in
  if numBuckets <? 0 then None else
  Some (mkRollingWindow window bucketSize
          (replicate (Z.to_nat numBuckets) (empty_bucket fzero))).

Definition pruneLocked (now : Time) (rw : RollingWindow) : RollingWindow :=
  mkRollingWindow (window rw) (bucketSize rw) (prune fzero (window rw) now (buckets rw)).

Definition findOrCreateBucketLocked (now : Time) (rw : RollingWindow)
  : option (nat * RollingWindow) :=
  match buckets rw with
  | [] => None
  | _ =>
      let '(i, bs) := find_or_create fzero (Truncate now (bucketSize rw)) (buckets rw) in
      Some (i, mkRollingWindow (window rw) (bucketSize rw) bs)
  end.

Definition Add (now : Time) (amount : float64) (rw : RollingWindow) : option RollingWindow :=
  match findOrCreateBucketLocked now (pruneLocked now rw) with
  | None => None
  | Some (i, rw) =>
      Some (mkRollingWindow (window rw) (bucketSize rw) (add_at fadd i amount (buckets rw)))
  end.

Definition sum_buckets (bs : list (bucket float64)) : float64 :=
  foldl (fun sum b => if used b then sum +f value b else sum) fzero bs.

Definition Sum (now : Time) (rw : RollingWindow) : float64 * RollingWindow :=
  let rw := pruneLocked now rw in (sum_buckets (buckets rw), rw).

Definition Reset (rw : RollingWindow) : RollingWindow :=
  mkRollingWindow (window rw) (bucketSize rw) ((fun _ => empty_bucket fzero) <$> buckets rw).

Definition OldestTimestamp (rw : RollingWindow) : Time :=
  foldl (fun oldest b =>
    if used b then
      if IsZero oldest || Before (timestamp b) oldest then timestamp b else oldest
    else oldest) zero_time (buckets rw).

(** ** Histories *)

Section Histories.
Context (w s : Duration) (N : nat).
Context (Hs : 0 < s) (HN : (0 < N)%nat) (Hw : w = Z.of_nat N * s).
#[local] Set Default Proof Using "Hs HN Hw".

Inductive reach : RollingWindow -> list (Time * float64) -> Time -> Prop :=
| reach_new rw t : NewRollingWindow w s = Some rw -> reach rw [] t
| reach_add rw h last now a rw' :
    reach rw h last -> last <= now -> s <= now ->
    Add now a rw = Some rw' -> reach rw' (h ++ [(now, a)]) now
| reach_sum rw h last now :
    reach rw h last -> last <= now -> reach (snd (Sum now rw)) h now
| reach_reset rw h last : reach rw h last -> reach (Reset rw) [] last.

Record rw_inv (rw : RollingWindow) (h : list (Time * float64)) (last : Time) : Prop := {
  rwi_window : window rw = w;
  rwi_size : bucketSize rw = s;
  rwi_ring : ring_inv fzero fadd w s N last h (buckets rw);
}.

Lemma rolling_new_buckets rw :
  NewRollingWindow w s = Some rw -> rw = mkRollingWindow w s (replicate N (empty_bucket fzero)).
Proof.
  unfold NewRollingWindow. destruct (Z.eqb_spec s 0); [lia|].
  rewrite Hw, Z.quot_mul by lia.
  destruct (Z.eqb_spec (Z.of_nat N) 0); [lia|].
  destruct (Z.ltb_spec (Z.of_nat N) 0); [lia|]. intros [= <-]. by rewrite Nat2Z.id.
Qed.

Lemma rolling_prune_inv rw h last now :
  last <= now -> rw_inv rw h last -> rw_inv (pruneLocked now rw) h now.
Proof.
  intros Hle [H1 H2 H3]. split; simpl; [done..|]. rewrite H1.
  by apply ring_inv_prune with last.
Qed.

Lemma rolling_add_inv rw h last now a :
  rw_inv rw h last -> last <= now -> s <= now ->
  exists rw', Add now a rw = Some rw' /\ rw_inv rw' (h ++ [(now, a)]) now.
Proof.
  intros Hinv Hle Hnow. pose proof (rolling_prune_inv rw h last now Hle Hinv) as [_ _ Hpr].
  unfold Add, findOrCreateBucketLocked.
  destruct (buckets (pruneLocked now rw)) as [|b bs] eqn:E.
  { pose proof (ri_len _ _ _ _ _ _ _ _ Hpr) as Hl. simpl in Hl. lia. }
  rewrite <- E. simpl. destruct Hinv as [H1 H2 H3]. rewrite H1, H2.
  pose proof (ring_add_inv fzero fadd w s N Hs HN Hw last now h (buckets rw) a Hnow Hle H3) as Hr.
  unfold ring_add in Hr. destruct (find_or_create _ _ _) as [i bs'].
  eexists. split; [done|]. split; simpl; done.
Qed.

Lemma rolling_reach_inv rw h last : reach rw h last -> rw_inv rw h last.
Proof.
  induction 1 as [rw t Hn|rw h last now a rw' _ IH Hle Hnow Ha|rw h last now _ IH Hle|rw h last _ IH].
  - apply rolling_new_buckets in Hn as ->. split; simpl; [done|done|]. by apply ring_inv_init.
  - destruct (rolling_add_inv rw h last now a IH Hle Hnow) as (rw'' & Ha' & Hi).
    rewrite Ha in Ha'. by injection Ha' as ->.
  - by apply rolling_prune_inv with last.
  - destruct IH as [H1 H2 [Hlen _ _ _ _ _]]. split; simpl; [done|done|].
    assert ((fun _ => empty_bucket fzero) <$> buckets rw = replicate N (empty_bucket fzero)) as ->.
    { rewrite <- Hlen. clear. induction (buckets rw); simpl; by f_equal. }
    by apply ring_inv_init.
Qed.
End Histories.

(** The stamps of the live buckets, in array order. *)
Definition live_slots (bs : list (bucket float64)) : list Time :=
  timestamp <$> filter (fun b => used b = true) bs.

Lemma elem_of_live_slots bs t :
  t ∈ live_slots bs <-> exists i b, bs !! i = Some b /\ used b = true /\ timestamp b = t.
Proof.
  unfold live_slots. rewrite list_elem_of_fmap. setoid_rewrite list_elem_of_filter.
  setoid_rewrite list_elem_of_lookup. naive_solver.
Qed.

Lemma sum_buckets_live f bs a :
  (forall i b, bs !! i = Some b -> used b = true -> value b = f (timestamp b)) ->
  foldl (fun sum b => if used b then sum +f value b else sum) a bs
  = foldl fadd a (f <$> live_slots bs).
Proof.
  revert a. unfold live_slots. induction bs as [|b bs IH]; intros a Hv; simpl; [done|].
  rewrite filter_cons. destruct (used b) eqn:Hu.
  - rewrite decide_True by done. simpl. rewrite (Hv 0%nat b eq_refl Hu). apply IH.
    intros i. exact (Hv (S i)).
  - rewrite decide_False by done. apply IH. intros i. exact (Hv (S i)).
Qed.

Lemma live_slots_NoDup (bs : list (bucket float64)) :
  (forall i j b c, bs !! i = Some b -> bs !! j = Some c ->
     timestamp b <> 0 -> timestamp b = timestamp c -> i = j) ->
  NoDup (live_slots bs).
Proof.
  unfold live_slots. induction bs as [|b bs IH]; intros Hd; simpl; [apply NoDup_nil_2|].
  assert (Hd' : NoDup (timestamp <$> filter (fun b0 => used b0 = true) bs)).
  { apply IH. intros i j c d Hi Hj Hnz Heq. by pose proof (Hd (S i) (S j) c d Hi Hj Hnz Heq) as [= ->]. }
  rewrite filter_cons. case_decide as Hu; [|done]. simpl. apply NoDup_cons. split; [|done].
  intros Hin. apply elem_of_live_slots in Hin as (j & c & Hj & Hc & Heq).
  unfold used, IsZero in *. pose proof (Hd 0%nat (S j) b c eq_refl Hj) as E.
  by discriminate E; lia.
Qed.

(** For every history of additions, [Sum] at a later clock reading is the
    [float64] sum of interval totals over a duplicate-free list of intervals
    that contains every interval starting strictly inside the window and none
    starting before it; an interval's total adds its amounts in the order they
    were recorded. *)
Theorem rolling_window_sum_live w s N rw h last now :
  0 < s -> (0 < N)%nat -> w = Z.of_nat N * s ->
  reach w s rw h last -> last <= now ->
  exists live, NoDup live /\
    (forall t a, (t, a) ∈ h -> now - w < slot s t -> slot s t ∈ live) /\
    (forall t, t ∈ live -> now - w <= t <= now /\ (s | t)) /\
    fst (Sum now rw) = foldl fadd fzero (total fzero fadd s h <$> live).
Proof.
  intros Hs HN Hw Hr Hle. pose proof (rolling_reach_inv w s N Hs HN Hw rw h last Hr) as Hinv.
  pose proof (rolling_prune_inv w s N Hs HN Hw rw h last now Hle Hinv) as [_ _ Hp]. simpl in Hp.
  pose proof (prune_live fzero w s N Hs HN Hw now (buckets rw)) as Hlive.
  rewrite (rwi_window _ _ _ _ _ _ Hinv) in Hp. destruct Hp as [Hlen Hst Hd Hv Hc Hpast].
  exists (live_slots (prune fzero w now (buckets rw))). split; [by apply live_slots_NoDup|].
  split; [|split].
  - intros t a Hin Hlt. destruct (Hc t a Hin Hlt) as (i & b & Hi & Hb).
    apply elem_of_live_slots. exists i, b. split; [done|]. split; [|done].
    pose proof (slot_pos w s N Hs HN Hw t ltac:(by destruct (Hpast t a Hin))).
    unfold used, IsZero. lia.
  - intros t Hin. apply elem_of_live_slots in Hin as (i & b & Hi & Hu & <-).
    unfold used, IsZero in Hu. destruct (Hst i b Hi ltac:(lia)).
    specialize (Hlive i b Hi ltac:(lia)). split; [lia|done].
  - simpl. unfold sum_buckets. rewrite (rwi_window _ _ _ _ _ _ Hinv).
    apply sum_buckets_live. intros i b Hi Hu. apply (Hv i b Hi). unfold used, IsZero in Hu. lia.
Qed.

Lemma rolling_window_sum_live_witness :
  exists rw live, reach 3 1 rw [(5, of_int 2); (6, of_int 3)] 6 /\
    6 ∈ live /\ fst (Sum 8 rw) = foldl fadd fzero
      (total fzero fadd 1 [(5, of_int 2); (6, of_int 3)] <$> live).
Proof.
  set (h := [(5, of_int 2); (6, of_int 3)]).
  set (b0 := empty_bucket fzero).
  set (rw0 := mkRollingWindow 3 1 [b0; b0; b0]).
  set (rw1 := mkRollingWindow 3 1 [mkBucket 5 (of_int 2); b0; b0]).
  set (rw2 := mkRollingWindow 3 1 [mkBucket 5 (of_int 2); mkBucket 6 (of_int 3); b0]).
  assert (R : reach 3 1 rw2 h 6).
  { apply (reach_add 3 1 rw1 [(5, of_int 2)] 5 6 (of_int 3)); [|lia|lia|vm_compute; reflexivity].
    apply (reach_add 3 1 rw0 [] 0 5 (of_int 2)); [|lia|lia|vm_compute; reflexivity].
    apply reach_new. vm_compute. reflexivity. }
  destruct (rolling_window_sum_live 3 1 3 rw2 h 6 8 ltac:(lia) ltac:(lia) ltac:(lia) R ltac:(lia))
    as (live & _ & Hin & _ & Hsum).
  exists rw2, live. split; [exact R|]. split; [|exact Hsum].
  apply (Hin 6 (of_int 3)); [right; left|]. vm_compute. reflexivity.
Defined.
