(* ===== verification/BudgetTracker.v ===== *)
(** * Budget tracker ([pkg/limits/budget/tracker.go], [types.go])

    Hourly, daily and monthly spending limits over rolling windows.  A method
    that reads the clock runs in [Timed]; [option] marks a panic. *)

From Stdlib Require Import ZArith Lia.
From stdpp Require Import base option list strings.
From S2P Require Import Prelude Float64 Ring RollingWindow.
Local Open Scope string_scope.
Local Open Scope Z_scope.
Local Open Scope go_scope.

Record Config := mkConfig {
  Hourly : float64;
  Daily : float64;
  Monthly : float64;
  AlertThreshold : float64;
}.

Record Status := mkStatus {
  Allowed : bool;
  Reason : string;
  Limit : float64;
  Used : float64;
  Remaining : float64;
  Percentage : float64;
  ResetAt : Time;
  Window : Duration;
  AlertTriggered : bool;
}.

(** [&Status{Allowed: true}]: the other fields at their zero values. *)
Definition status_allowed : Status :=
  mkStatus true "" fzero fzero fzero fzero zero_time 0 false.

Record Tracker := mkTracker {
  config : Config;
  hourly : option RollingWindow;
  daily : option RollingWindow;
  monthly : option RollingWindow;
  totalSpent : float64;
}.

Definition day : Duration := 24 * Hour.
Definition month : Duration := 30 * 24 * Hour.

Definition NewTracker (config : Config) : Tracker :=
  mkTracker config
    (if fzero <f Hourly config then NewRollingWindow Hour Minute else None)
    (if fzero <f Daily config then NewRollingWindow day Hour else None)
    (if fzero <f Monthly config then NewRollingWindow month day else None)
    fzero.

(** [if w != nil { w.Add(amount) }] *)
Definition add_window (amount : float64) (w : option RollingWindow)
  : Timed (option (option RollingWindow)) :=
  match w with
  | None => tret (Some None)
  | Some rw => let! t := now in tret (Some <$> Add t amount rw)
  end.

Definition Add (amount : float64) (t : Tracker) : Timed (option Tracker) :=
  let? h := add_window amount (hourly t) in
  let? d := add_window amount (daily t) in
  let? m := add_window amount (monthly t) in
  tret (Some (mkTracker (config t) h d m (totalSpent t +f amount))).

(** [max] of the package. *)
Definition max (a b : float64) : float64 := if b <f a then a else b.

Definition calculateReset (rw : RollingWindow) : Timed Time :=
  let oldest := OldestTimestamp rw in
  if IsZero oldest then now else tret (AddD oldest (window rw)).

(** One of the three blocks of [Check]: the window as [Sum] leaves it, and the
    status to return when the block returns. *)
Definition check_window (threshold limit : float64) (reason : string) (dur : Duration)
    (w : option RollingWindow) : Timed (option Status * option RollingWindow) :=
  match w with
  | Some rw =>
      if fzero <f limit then
        let! t := now in
        let '(used, rw) := Sum t rw in
        let percentage := used /f limit in
        if limit <f used then
          let! r := calculateReset rw in
          tret (Some (mkStatus false reason limit used fzero percentage r dur false), Some rw)
        else if (fzero <f threshold) && (threshold <=f percentage) then
          let! r := calculateReset rw in
          tret (Some (mkStatus true "" limit used (limit -f used) percentage r dur true), Some rw)
        else tret (None, Some rw)
      else tret (None, w)
  | None => tret (None, None)
  end.

Definition Check (t : Tracker) : Timed (Status * Tracker) :=
  let c := config t in
  let! (st, h) := check_window (AlertThreshold c) (Hourly c)
    "hourly budget limit exceeded" Hour (hourly t) in
  let t := mkTracker c h (daily t) (monthly t) (totalSpent t) in
  match st with Some st => tret (st, t) | None =>
  let! (st, d) := check_window (AlertThreshold c) (Daily c)
    "daily budget limit exceeded" day (daily t) in
  let t := mkTracker c h d (monthly t) (totalSpent t) in
  match st with Some st => tret (st, t) | None =>
  let! (st, m) := check_window (AlertThreshold c) (Monthly c)
    "monthly budget limit exceeded" month (monthly t) in
  let t := mkTracker c h d m (totalSpent t) in
  match st with Some st => tret (st, t) | None =>
  tret (status_allowed, t)
  end end end.

(** The body shared by [GetHourlyStatus], [GetDailyStatus] and
    [GetMonthlyStatus]. *)
Definition window_status (threshold limit : float64) (dur : Duration) (w : option RollingWindow)
  : Timed (Status * option RollingWindow) :=
  match w with
  | Some rw =>
      if feq limit fzero then tret (status_allowed, w) else
      let! t := now in
      let '(used, rw) := Sum t rw in
      let percentage := used /f limit in
      let! r := calculateReset rw in
      tret (mkStatus (used <=f limit) "" limit used (max fzero (limit -f used)) percentage r dur
              ((fzero <f threshold) && (threshold <=f percentage)), Some rw)
  | None => tret (status_allowed, None)
  end.

Definition GetHourlyStatus (t : Tracker) : Timed (Status * Tracker) :=
  let! (st, h) := window_status (AlertThreshold (config t)) (Hourly (config t)) Hour (hourly t) in
  tret (st, mkTracker (config t) h (daily t) (monthly t) (totalSpent t)).

Definition GetDailyStatus (t : Tracker) : Timed (Status * Tracker) :=
  let! (st, d) := window_status (AlertThreshold (config t)) (Daily (config t)) day (daily t) in
  tret (st, mkTracker (config t) (hourly t) d (monthly t) (totalSpent t)).

Definition GetMonthlyStatus (t : Tracker) : Timed (Status * Tracker) :=
  let! (st, m) := window_status (AlertThreshold (config t)) (Monthly (config t)) month (monthly t) in
  tret (st, mkTracker (config t) (hourly t) (daily t) m (totalSpent t)).

Definition GetTotalSpent (t : Tracker) : float64 := totalSpent t.

Definition Reset (t : Tracker) : Tracker :=
  mkTracker (config t) (Reset <$> hourly t) (Reset <$> daily t) (Reset <$> monthly t) fzero.

(** ** One block of [Check] *)

Definition over (limit : float64) (rw : RollingWindow) (t : Time) : bool := limit <f fst (Sum t rw).

Definition alerting (threshold limit : float64) (rw : RollingWindow) (t : Time) : bool :=
  (fzero <f threshold) && (threshold <=f (fst (Sum t rw) /f limit)).

Lemma calculateReset_run rw ck i : exists r j, calculateReset rw ck i = (r, j) /\ (i <= j)%nat.
Proof.
  unfold calculateReset, now, tret. destruct (IsZero _); do 2 eexists; (split; [done|lia]).
Qed.

(** The outcome of a block whose limit and window are configured. *)
Lemma check_window_cases th limit reason dur rw ck i :
  (fzero <f limit) = true ->
  exists st j, check_window th limit reason dur (Some rw) ck i = ((st, Some (snd (Sum (ck i) rw))), j) /\
    match st with
    | Some st =>
        (Allowed st = false /\ over limit rw (ck i) = true /\ Reason st = reason) \/
        (Allowed st = true /\ over limit rw (ck i) = false /\ alerting th limit rw (ck i) = true
           /\ AlertTriggered st = true)
    | None => over limit rw (ck i) = false /\ alerting th limit rw (ck i) = false /\ j = S i
    end /\
    (forall s, st = Some s -> Limit s = limit /\ Used s = fst (Sum (ck i) rw) /\ Window s = dur) /\
    (i < j)%nat.
Proof.
  intros Hl. unfold check_window, over, alerting. rewrite Hl.
  destruct (Sum (ck i) rw) as [used rw'] eqn:HS. unfold tbind, now. rewrite HS. cbn [fst snd].
  destruct (limit <f used) eqn:Ho.
  - destruct (calculateReset_run rw' ck (S i)) as (r & j & -> & Hj).
    eexists _, j. split; [done|]. split; [by left|]. split; [by intros ? [= <-]|lia].
  - destruct ((fzero <f th) && (th <=f (used /f limit))) eqn:Ha.
    + destruct (calculateReset_run rw' ck (S i)) as (r & j & -> & Hj).
      eexists _, j. split; [done|]. split; [by right|]. split; [by intros ? [= <-]|lia].
    + exists None, (S i). split; [done|]. split; [done|]. split; [done|lia].
Qed.

Lemma check_window_off th limit reason dur w ck i :
  w = None \/ (fzero <f limit) = false ->
  check_window th limit reason dur w ck i = ((None, w), i).
Proof. unfold check_window. intros [->| ->]; [done|]. by destruct w. Qed.

(** A limit with its window, as the tracker pairs them. *)
Definition windows (t : Tracker) : list (float64 * option RollingWindow * string) :=
  [ (Hourly (config t), hourly t, "hourly budget limit exceeded");
    (Daily (config t), daily t, "daily budget limit exceeded");
    (Monthly (config t), monthly t, "monthly budget limit exceeded") ].

(** A block rejects only when its window is over its limit, returns early
    otherwise only to alert, and lets a window over its limit pass never. *)
Lemma check_window_spec th limit reason dur w ck i :
  exists st w' j, check_window th limit reason dur w ck i = ((st, w'), j) /\
    (forall s, st = Some s -> Allowed s = false ->
       exists rw, w = Some rw /\ (fzero <f limit) = true /\ over limit rw (ck i) = true /\
         Limit s = limit /\ Used s = fst (Sum (ck i) rw) /\ Reason s = reason) /\
    (forall s, st = Some s -> Allowed s = true -> (fzero <f th) = true) /\
    (st = None -> forall rw, w = Some rw -> (fzero <f limit) = true -> over limit rw (ck i) = false) /\
    (i <= j)%nat /\ (forall rw, w = Some rw -> (fzero <f limit) = true -> (i < j)%nat).
Proof.
  destruct w as [rw|].
  2: { exists None, None, i. split; [by apply check_window_off; left|]. naive_solver. }
  destruct (fzero <f limit) eqn:Hl.
  2: { exists None, (Some rw), i. split; [by apply check_window_off; right|]. naive_solver. }
  destruct (check_window_cases th limit reason dur rw ck i Hl) as (st & j & Hr & Hst & Hf & Hj).
  exists st, (Some (snd (Sum (ck i) rw))), j. split; [done|].
  rewrite !(and_assoc _ _ (_ /\ _)). split; [|split; [lia|done]].
  destruct st as [s|].
  - destruct (Hf s eq_refl) as (HL & HU & _).
    split; [split|done]; [|intros ? [= <-] Ha].
    + intros ? [= <-] Ha. destruct Hst as [(_ & Ho & Hr')|(Ha' & _)]; [|congruence].
      by exists rw.
    + destruct Hst as [(Ha' & _)|(_ & _ & Hal & _)]; [congruence|].
      unfold alerting in Hal. by apply andb_prop in Hal as [? _].
  - destruct Hst as (Ho & _). split; [done|]. by intros _ ? [= <-].
Qed.

(** A budget check rejects only when a configured window is over its
    limit, and reports that window's limit, spending and reason.  With alerts
    switched off it also rejects whenever some configured window is over its
    limit at every clock reading of the call.  The readings of the call are
    those numbered from [i] up to [j]. *)
Theorem budget_check_exact t ck i :
  let st := fst (fst (Check t ck i)) in
  let j := snd (Check t ck i) in
  (Allowed st = false ->
     exists limit rw reason k, (limit, Some rw, reason) ∈ windows t /\ (i <= k < j)%nat /\
       over limit rw (ck k) = true /\ Limit st = limit /\
       Used st = fst (Sum (ck k) rw) /\ Reason st = reason) /\
  ((fzero <f AlertThreshold (config t)) = false ->
   (exists limit rw reason, (limit, Some rw, reason) ∈ windows t /\
      (fzero <f limit) = true /\ forall k, (i <= k < j)%nat -> over limit rw (ck k) = true) ->
   Allowed st = false).
Proof.
  unfold Check, tbind, windows. cbv zeta.
  set (th := AlertThreshold (config t)).
  destruct (check_window_spec th (Hourly (config t)) "hourly budget limit exceeded" Hour (hourly t) ck i)
    as (s1 & w1 & j1 & -> & S1 & A1 & N1 & L1 & R1).
  destruct s1 as [s1|]; simpl.
  { split; [|intros Hth _; destruct (Allowed s1) eqn:E; [rewrite (A1 s1 eq_refl E) in Hth|]; done].
    intros Hf. destruct (S1 s1 eq_refl Hf) as (rw & Hw & Hl & ?). eexists _, rw, _, i.
    pose proof (R1 rw Hw Hl). rewrite <- Hw.
    split; [by left|]. split; [lia|done]. }
  destruct (check_window_spec th (Daily (config t)) "daily budget limit exceeded" day (daily t) ck j1)
    as (s2 & w2 & j2 & -> & S2 & A2 & N2 & L2 & R2).
  destruct s2 as [s2|]; simpl.
  { split; [|intros Hth _; destruct (Allowed s2) eqn:E; [rewrite (A2 s2 eq_refl E) in Hth|]; done].
    intros Hf. destruct (S2 s2 eq_refl Hf) as (rw & Hw & Hl & ?). eexists _, rw, _, j1.
    pose proof (R2 rw Hw Hl). rewrite <- Hw.
    split; [by right; left|]. split; [lia|done]. }
  destruct (check_window_spec th (Monthly (config t)) "monthly budget limit exceeded" month (monthly t) ck j2)
    as (s3 & w3 & j3 & -> & S3 & A3 & N3 & L3 & R3).
  destruct s3 as [s3|]; simpl.
  { split; [|intros Hth _; destruct (Allowed s3) eqn:E; [rewrite (A3 s3 eq_refl E) in Hth|]; done].
    intros Hf. destruct (S3 s3 eq_refl Hf) as (rw & Hw & Hl & ?). eexists _, rw, _, j2.
    pose proof (R3 rw Hw Hl). rewrite <- Hw.
    split; [by right; right; left|]. split; [lia|done]. }
  split; [done|]. intros _ (limit & rw & reason & Hin & Hl & Ho).
  apply list_elem_of_In in Hin as [[= <- H]|[[= <- H]|[[= <- H]|[]]]].
  - specialize (N1 eq_refl rw H Hl). specialize (R1 rw H Hl). by rewrite Ho in N1 by lia.
  - specialize (N2 eq_refl rw H Hl). specialize (R2 rw H Hl). by rewrite Ho in N2 by lia.
  - specialize (N3 eq_refl rw H Hl). specialize (R3 rw H Hl). by rewrite Ho in N3 by lia.
Qed.

(** An hourly window that is under its limit but at its alert threshold
    ends the check: the request is allowed whatever the daily and the monthly
    window hold, in particular when they are over their limits. *)
Theorem hourly_alert_masks_longer_windows t rw ck i :
  hourly t = Some rw -> (fzero <f Hourly (config t)) = true ->
  over (Hourly (config t)) rw (ck i) = false ->
  alerting (AlertThreshold (config t)) (Hourly (config t)) rw (ck i) = true ->
  Allowed (fst (fst (Check t ck i))) = true.
Proof.
  intros Hh Hl Ho Ha. unfold Check, tbind. cbv zeta. rewrite Hh.
  destruct (check_window_cases (AlertThreshold (config t)) (Hourly (config t))
    "hourly budget limit exceeded" Hour rw ck i Hl) as (st & j & -> & Hst & _).
  destruct st as [st|]; simpl.
  - destruct Hst as [(_ & Ho' & _)|(Ha' & _)]; [congruence|done].
  - destruct Hst as (_ & Ha' & _). congruence.
Qed.

(** Six dollars spent in one hour: the hourly limit of ten is at 60%, the daily
    limit of five is exceeded, and the request is allowed. *)
Definition masked_config : Config := mkConfig (of_int 10) (of_int 5) fzero (flit 1 2).

Definition masked_tracker : option Tracker :=
  fst (Add (of_int 6) (NewTracker masked_config) (fun _ => Hour * 24 * 700) 0%nat).

Lemma hourly_alert_masks_longer_windows_witness :
  exists t d, masked_tracker = Some t /\ daily t = Some d /\
    over (Daily (config t)) d (Hour * 24 * 700) = true /\
    Allowed (fst (fst (Check t (fun _ => Hour * 24 * 700) 0%nat))) = true.
Proof.
  destruct masked_tracker as [t|] eqn:E; [|vm_compute in E; discriminate E].
  destruct (hourly t) as [rw|] eqn:Eh; [|vm_compute in E; injection E as <-; discriminate Eh].
  destruct (daily t) as [d|] eqn:Ed; [|vm_compute in E; injection E as <-; discriminate Ed].
  exists t, d. split; [reflexivity|]. split; [exact Ed|].
  vm_compute in E. injection E as <-. injection Eh as <-. injection Ed as <-.
  split; [vm_compute; reflexivity|].
  eapply hourly_alert_masks_longer_windows; [reflexivity|vm_compute; reflexivity..].
Defined.

(** ** Histories of a tracker

    [reach cfg t amounts last]: [t] is a tracker for [cfg] after recording
    [amounts] since its creation or its last [Reset], with checks in between. *)

Inductive reach (cfg : Config) : Tracker -> list float64 -> Time -> Prop :=
| reach_new t0 : reach cfg (NewTracker cfg) [] t0
| reach_add t amounts last ck i a t' j :
    reach cfg t amounts last -> monotone_clock ck -> last <= ck i -> day <= ck i ->
    Add a t ck i = (Some t', j) -> reach cfg t' (amounts ++ [a]) (ck j)
| reach_check t amounts last ck i st t' j :
    reach cfg t amounts last -> monotone_clock ck -> last <= ck i ->
    Check t ck i = ((st, t'), j) -> reach cfg t' amounts (ck j)
| reach_reset t amounts last : reach cfg t amounts last -> reach cfg (Reset t) [] last.

(** A configured window is in a state its own history explains. *)
Definition window_ok (w s : Duration) (N : nat) (last : Time) (o : option RollingWindow) : Prop :=
  forall rw, o = Some rw -> exists h, rw_inv w s N rw h last.

Record tracker_inv (t : Tracker) (amounts : list float64) (last : Time) : Prop := {
  ti_hourly : window_ok Hour Minute 60 last (hourly t);
  ti_daily : window_ok day Hour 24 last (daily t);
  ti_monthly : window_ok month day 30 last (monthly t);
  ti_total : totalSpent t = foldl fadd fzero amounts;
}.

Section Window.
Context (w s : Duration) (N : nat).
Context (Hs : 0 < s) (HN : (0 < N)%nat) (Hw : w = Z.of_nat N * s).
#[local] Set Default Proof Using "Hs HN Hw".

Lemma window_ok_later last now o : last <= now -> window_ok w s N last o -> window_ok w s N now o.
Proof.
  intros Hle H rw ->. destruct (H rw eq_refl) as [h [H1 H2 H3]].
  exists h. split; [done..|]. by apply ring_inv_later with last.
Qed.

Lemma window_ok_new c last :
  window_ok w s N last (if fzero <f c then NewRollingWindow w s else None).
Proof.
  intros rw Hn. exists []. destruct (fzero <f c); [|done].
  eapply rolling_reach_inv; [done..|]. by apply RollingWindow.reach_new.
Qed.

Lemma window_ok_reset last o : window_ok w s N last o -> window_ok w s N last (RollingWindow.Reset <$> o).
Proof.
  intros H rw Hr. destruct o as [rw0|]; [|done]. injection Hr as <-.
  destruct (H rw0 eq_refl) as [h [H1 H2 [Hlen _ _ _ _ _]]]. exists [].
  split; simpl; [done|done|].
  assert ((fun _ => empty_bucket fzero) <$> buckets rw0 = replicate N (empty_bucket fzero)) as ->.
  { rewrite <- Hlen. clear. induction (buckets rw0); simpl; by f_equal. }
  by apply ring_inv_init.
Qed.

Lemma add_window_ok last o ck i a :
  window_ok w s N last o -> monotone_clock ck -> last <= ck i -> s <= ck i ->
  exists o' j, add_window a o ck i = (Some o', j) /\ (i <= j)%nat /\ window_ok w s N (ck j) o'.
Proof.
  intros H Hck Hle Hs'. destruct o as [rw|]; simpl.
  - destruct (H rw eq_refl) as [h Hi].
    destruct (rolling_add_inv w s N Hs HN Hw rw h last (ck i) a Hi Hle Hs') as (rw' & Ha & Hi').
    exists (Some rw'), (S i). unfold tbind, now, tret. rewrite Ha. split; [done|]. split; [lia|].
    apply window_ok_later with (ck i); [apply Hck; lia|].
    intros ? [= <-]. eauto.
  - exists None, i. split; [done|]. split; [lia|]. by intros ? [=].
Qed.

Lemma check_window_ok th limit reason dur last o ck i st o' j :
  window_ok w s N last o -> monotone_clock ck -> last <= ck i ->
  check_window th limit reason dur o ck i = ((st, o'), j) ->
  (i <= j)%nat /\ window_ok w s N (ck j) o'.
Proof.
  intros H Hck Hle. unfold check_window, tbind, now, tret.
  assert (Hoff : window_ok w s N (ck i) o) by (by apply window_ok_later with last).
  destruct o as [rw|]; [|by intros [= <- <- <-]].
  destruct (fzero <f limit); [|by intros [= <- <- <-]].
  assert (Hon : window_ok w s N (ck i) (Some (snd (Sum (ck i) rw)))).
  { destruct (H rw eq_refl) as [h Hi]. intros ? [= <-]. exists h.
    by apply rolling_prune_inv with last. }
  assert (Hreset : forall rw' k r k', calculateReset rw' ck k = (r, k') -> (k <= k')%nat).
  { intros rw' k r k'. unfold calculateReset, now, tret.
    destruct (IsZero _); intros [= _ <-]; lia. }
  destruct (Sum (ck i) rw) as [used rw']. simpl in Hon.
  destruct (limit <f used); [|destruct ((fzero <f th) && _)].
  1-2: destruct (calculateReset rw' ck (S i)) as [r k] eqn:E; apply Hreset in E;
    intros [= <- <- <-]; (split; [lia|]); apply window_ok_later with (ck i); [apply Hck; lia|done].
  intros [= <- <- <-]. split; [lia|]. apply window_ok_later with (ck i); [apply Hck; lia|done].
Qed.
End Window.

Ltac window_side := first [done | vm_compute; reflexivity | vm_compute; lia].

Lemma add_tracker_inv t amounts last ck i a :
  tracker_inv t amounts last -> monotone_clock ck -> last <= ck i -> day <= ck i ->
  exists t' j, Add a t ck i = (Some t', j) /\ tracker_inv t' (amounts ++ [a]) (ck j).
Proof.
  intros [H1 H2 H3 H4] Hck Hle Hday.
  assert (Hbig : forall k, (i <= k)%nat -> last <= ck k /\ Minute <= ck k /\ Hour <= ck k /\ day <= ck k).
  { intros k Hk. pose proof (Hck i k Hk). unfold day, Hour, Minute, Second in *. lia. }
  unfold Add, tobind, tbind. pose proof (Hbig i ltac:(lia)).
  destruct (add_window_ok Hour Minute 60 ltac:(window_side) ltac:(lia) ltac:(window_side)
    last (hourly t) ck i a H1 Hck ltac:(lia) ltac:(lia)) as (o1 & j1 & -> & Hj1 & W1).
  pose proof (Hbig j1 ltac:(lia)).
  destruct (add_window_ok day Hour 24 ltac:(window_side) ltac:(lia) ltac:(window_side)
    last (daily t) ck j1 a H2 Hck ltac:(lia) ltac:(lia)) as (o2 & j2 & -> & Hj2 & W2).
  pose proof (Hbig j2 ltac:(lia)).
  destruct (add_window_ok month day 30 ltac:(window_side) ltac:(lia) ltac:(window_side)
    last (monthly t) ck j2 a H3 Hck ltac:(lia) ltac:(lia)) as (o3 & j3 & -> & Hj3 & W3).
  eexists _, j3. split; [done|].
  split; simpl; [..|by rewrite H4, foldl_app].
  - eapply window_ok_later, W1; [window_side..|]. apply Hck. lia.
  - eapply window_ok_later, W2; [window_side..|]. apply Hck. lia.
  - done.
Qed.

Lemma check_tracker_inv t amounts last ck i st t' j :
  tracker_inv t amounts last -> monotone_clock ck -> last <= ck i ->
  Check t ck i = ((st, t'), j) -> tracker_inv t' amounts (ck j).
Proof.
  intros [H1 H2 H3 H4] Hck Hle. unfold Check, tbind, tret.
  assert (Hl : forall w s N o k k', 0 < s -> (0 < N)%nat -> w = Z.of_nat N * s ->
    (k <= k')%nat -> window_ok w s N (ck k) o -> window_ok w s N (ck k') o).
  { intros w s N o k k' ? ? ? Hk Hok. eapply window_ok_later, Hok; [done..|]. by apply Hck. }
  assert (Hl0 : forall w s N o k, 0 < s -> (0 < N)%nat -> w = Z.of_nat N * s ->
    (i <= k)%nat -> window_ok w s N last o -> window_ok w s N (ck k) o).
  { intros w s N o k ? ? ? Hk Hok. eapply window_ok_later, Hok; [done..|].
    transitivity (ck i); [done|by apply Hck]. }
  destruct (check_window _ _ _ Hour (hourly t) ck i) as [[s1 o1] j1] eqn:E1.
  apply (check_window_ok Hour Minute 60) with (last := last) in E1 as [Hj1 W1];
    [|window_side|lia|window_side|assumption..].
  destruct s1 as [s1|].
  { intros [= <- <- <-]. split; simpl; [done| | |done];
      (apply Hl0; [window_side|lia|window_side|lia|assumption]). }
  destruct (check_window _ _ _ day (daily _) ck j1) as [[s2 o2] j2] eqn:E2.
  apply (check_window_ok day Hour 24) with (last := ck j1) in E2 as [Hj2 W2];
    [|window_side|lia|window_side|apply Hl0; [window_side|lia|window_side|lia|assumption]|done..].
  destruct s2 as [s2|].
  { intros [= <- <- <-]. split; simpl; [|done| |done].
    - eapply Hl, W1; [window_side|lia|window_side|lia].
    - apply Hl0; [window_side|lia|window_side|lia|assumption]. }
  destruct (check_window _ _ _ month (monthly _) ck j2) as [[s3 o3] j3] eqn:E3.
  apply (check_window_ok month day 30) with (last := ck j2) in E3 as [Hj3 W3];
    [|window_side|lia|window_side|apply Hl0; [window_side|lia|window_side|lia|assumption]|done..].
  assert (tracker_inv (mkTracker (config t) o1 o2 o3 (totalSpent t)) amounts (ck j3)).
  { split; simpl; [| |done|done].
    - eapply Hl, W1; [window_side|lia|window_side|lia].
    - eapply Hl, W2; [window_side|lia|window_side|lia]. }
  destruct s3 as [s3|]; by intros [= <- <- <-].
Qed.

Lemma reach_tracker_inv cfg t amounts last : reach cfg t amounts last -> tracker_inv t amounts last.
Proof.
  induction 1 as [t0|t amounts last ck i a t' j _ IH Hck Hle Hday Ha
                 |t amounts last ck i st t' j _ IH Hck Hle Hc|t amounts last _ IH].
  - split; simpl; [apply window_ok_new; window_side..|done].
  - destruct (add_tracker_inv t amounts last ck i a IH Hck Hle Hday) as (t'' & j' & Ha' & Hi).
    rewrite Ha in Ha'. by injection Ha' as <- <-.
  - by eapply check_tracker_inv.
  - destruct IH as [H1 H2 H3 _]. split; simpl; [apply window_ok_reset; window_side..|done].
Qed.

(** Recording an amount never panics and adds to the all-time total
    exactly once, over every history of additions, checks and resets with a
    clock that does not run backwards; the total is the [float64] sum of the
    recorded amounts in order, and non-negative amounts give a non-negative
    total that is a number. *)
Theorem tracker_add_total cfg t amounts last ck i a :
  reach cfg t amounts last -> monotone_clock ck -> last <= ck i -> day <= ck i ->
  exists t' j, Add a t ck i = (Some t', j) /\
    GetTotalSpent t' = foldl fadd fzero (amounts ++ [a]) /\
    (Forall (fun x => nonneg x) (amounts ++ [a]) ->
     nonneg (GetTotalSpent t') /\ is_nan (GetTotalSpent t') = false).
Proof.
  intros Hr Hck Hle Hday.
  destruct (add_tracker_inv t amounts last ck i a (reach_tracker_inv _ _ _ _ Hr) Hck Hle Hday)
    as (t' & j & Ha & [_ _ _ Htot]).
  exists t', j. split; [done|]. unfold GetTotalSpent. split; [done|]. intros Hpos.
  rewrite Htot. assert (nonneg (foldl fadd fzero (amounts ++ [a]))) by (by apply fold_fadd_nonneg).
  auto with jupiter.
Qed.

Lemma tracker_add_total_witness :
  exists t' j, Add (of_int 6) (NewTracker masked_config) (fun _ => day) 0%nat = (Some t', j) /\
    GetTotalSpent t' = of_int 6.
Proof.
  destruct (tracker_add_total masked_config (NewTracker masked_config) [] 0 (fun _ => day) 0%nat (of_int 6)
    (reach_new _ _) ltac:(intros ? ? ?; apply Z.le_refl) ltac:(vm_compute; discriminate)
    ltac:(apply Z.le_refl))
    as (t' & j & Ha & Ht & _).
  exists t', j. split; [exact Ha|]. rewrite Ht. vm_compute. reflexivity.
Defined.
