(* ===== verification/Limiter.v ===== *)
(** * Rate limiter ([pkg/limits/ratelimit/limiter.go], [types.go])

    The limiter of one identifier: up to three token buckets, two sliding
    windows and a concurrency limiter.  [None] for a component is Go's nil
    pointer (no such limit configured). *)

From Stdlib Require Import ZArith Lia.
From stdpp Require Import base option list strings.
From S2P Require Import Prelude Float64 Ring TokenBucket SlidingWindow Concurrent.
Local Open Scope string_scope.
Local Open Scope Z_scope.
Local Open Scope go_scope.

Record Config := mkConfig {
  RequestsPerSecond : Z;
  RequestsPerMinute : Z;
  RequestsPerHour : Z;
  TokensPerMinute : Z;
  TokensPerHour : Z;
  MaxConcurrent : Z;
}.

Record CheckResult := mkCheckResult {
  Allowed : bool;
  Reason : string;
  Limit : Z;
  Remaining : Z;
  ResetAt : Time;
  RetryAfter : Duration;
}.

(** [&CheckResult{Allowed: true}] *)
Definition result_allowed : CheckResult := mkCheckResult true "" 0 0 zero_time 0.

Record Limiter := mkLimiter {
  reqPerSecond : option TokenBucket;
  reqPerMinute : option TokenBucket;
  reqPerHour : option TokenBucket;
  tokensPerMinute : option SlidingWindow;
  tokensPerHour : option SlidingWindow;
  concurrent : option ConcurrentLimiter;
  config : Config;
}.

(** [if enabled { bucket = NewTokenBucket(capacity, rate) }] *)
Definition new_bucket (enabled : bool) (capacity : Z) (rate : float64) : Timed (option TokenBucket) :=
  if enabled then let! t := now in tret (Some (NewTokenBucket t capacity rate)) else tret None.

Definition NewLimiter (c : Config) : Timed Limiter :=
  let! s := new_bucket (0 <? RequestsPerSecond c) (RequestsPerSecond c *64 2)
              (of_int (RequestsPerSecond c)) in
  let! m := new_bucket (0 <? RequestsPerMinute c) (RequestsPerMinute c)
              (of_int (RequestsPerMinute c) /f of_int 60) in
  let! h := new_bucket (0 <? RequestsPerHour c) (Z.quot (RequestsPerHour c) 12)
              (of_int (RequestsPerHour c) /f of_int 3600) in
  tret (mkLimiter s m h
    (if 0 <? TokensPerMinute c then NewSlidingWindow Minute Second else None)
    (if 0 <? TokensPerHour c then NewSlidingWindow Hour Minute else None)
    (if 0 <? MaxConcurrent c then Some (NewConcurrentLimiter (MaxConcurrent c)) else None)
    c).

(** One of the three blocks of [CheckRequest]: the rejection, if any, and the
    bucket afterwards. *)
Definition check_bucket (reason : string) (reset : Duration) (b : option TokenBucket)
  : Timed (option CheckResult * option TokenBucket) :=
  match b with
  | None => tret (None, None)
  | Some tb =>
      let! t := now in
      let '(ok, tb) := TokenBucket.Take t 1 tb in
      if ok then tret (None, Some tb) else
      let! t := now in
      let '(retryAfter, tb) := TokenBucket.TimeUntilAvailable t 1 tb in
      let limit := TokenBucket.Capacity tb in
      let! t := now in
      let '(remaining, tb) := TokenBucket.Remaining t tb in
      let! t := now in
      tret (Some (mkCheckResult false reason limit remaining (AddD t reset) retryAfter), Some tb)
  end.

Definition set_buckets (l : Limiter) (s m h : option TokenBucket) : Limiter :=
  mkLimiter s m h (tokensPerMinute l) (tokensPerHour l) (concurrent l) (config l).

Definition CheckRequest (l : Limiter) : Timed (CheckResult * Limiter) :=
  let! (r, s) := check_bucket "requests per second limit exceeded" Second (reqPerSecond l) in
  let l := set_buckets l s (reqPerMinute l) (reqPerHour l) in
  match r with Some r => tret (r, l) | None =>
  let! (r, m) := check_bucket "requests per minute limit exceeded" Minute (reqPerMinute l) in
  let l := set_buckets l s m (reqPerHour l) in
  match r with Some r => tret (r, l) | None =>
  let! (r, h) := check_bucket "requests per hour limit exceeded" Hour (reqPerHour l) in
  let l := set_buckets l s m h in
  match r with Some r => tret (r, l) | None =>
  tret (result_allowed, l)
  end end end.

(** One of the two blocks of [CheckTokens]. *)
Definition check_tokens (reason : string) (limit : Z) (dur : Duration) (estimatedTokens : Z)
    (w : option SlidingWindow) : Timed (option CheckResult * option SlidingWindow) :=
  match w with
  | None => tret (None, None)
  | Some sw =>
      let! t := now in
      let '(currentUsage, sw) := SlidingWindow.Sum t sw in
      if limit <? currentUsage +64 estimatedTokens then
        let! t := now in
        tret (Some (mkCheckResult false reason limit (limit -64 currentUsage) (AddD t dur) dur), Some sw)
      else tret (None, Some sw)
  end.

Definition set_windows (l : Limiter) (m h : option SlidingWindow) : Limiter :=
  mkLimiter (reqPerSecond l) (reqPerMinute l) (reqPerHour l) m h (concurrent l) (config l).

Definition CheckTokens (estimatedTokens : Z) (l : Limiter) : Timed (CheckResult * Limiter) :=
  let! (r, m) := check_tokens "tokens per minute limit exceeded" (TokensPerMinute (config l)) Minute
    estimatedTokens (tokensPerMinute l) in
  let l := set_windows l m (tokensPerHour l) in
  match r with Some r => tret (r, l) | None =>
  let! (r, h) := check_tokens "tokens per hour limit exceeded" (TokensPerHour (config l)) Hour
    estimatedTokens (tokensPerHour l) in
  let l := set_windows l m h in
  match r with Some r => tret (r, l) | None =>
  tret (result_allowed, l)
  end end.

(** [if w != nil { w.Add(tokens) }] *)
Definition record_window (actualTokens : Z) (w : option SlidingWindow)
  : Timed (option (option SlidingWindow)) :=
  match w with
  | None => tret (Some None)
  | Some sw => let! t := now in tret (Some <$> SlidingWindow.Add t actualTokens sw)
  end.

Definition RecordTokens (actualTokens : Z) (l : Limiter) : Timed (option Limiter) :=
  let? m := record_window actualTokens (tokensPerMinute l) in
  let? h := record_window actualTokens (tokensPerHour l) in
  tret (Some (set_windows l m h)).

Definition set_concurrent (l : Limiter) (c : option ConcurrentLimiter) : Limiter :=
  mkLimiter (reqPerSecond l) (reqPerMinute l) (reqPerHour l)
    (tokensPerMinute l) (tokensPerHour l) c (config l).

Definition AcquireConcurrent (l : Limiter) : bool * Limiter :=
  match concurrent l with
  | None => (true, l)
  | Some c => let '(ok, c) := Concurrent.Acquire c in (ok, set_concurrent l (Some c))
  end.

Definition ReleaseConcurrent (l : Limiter) : Limiter :=
  match concurrent l with
  | None => l
  | Some c => set_concurrent l (Some (Concurrent.Release c))
  end.

Definition GetConcurrentStatus (l : Limiter) : CheckResult :=
  match concurrent l with
  | None => result_allowed
  | Some c => mkCheckResult true "" (Concurrent.Limit c) (Concurrent.Remaining c) zero_time 0
  end.

(** [if b != nil { b.Reset() }] for a bucket. *)
Definition reset_bucket (b : option TokenBucket) : Timed (option TokenBucket) :=
  match b with
  | None => tret None
  | Some tb => let! t := now in tret (Some (TokenBucket.Reset t tb))
  end.

Definition Reset (l : Limiter) : Timed Limiter :=
  let! s := reset_bucket (reqPerSecond l) in
  let! m := reset_bucket (reqPerMinute l) in
  let! h := reset_bucket (reqPerHour l) in
  tret (mkLimiter s m h (SlidingWindow.Reset <$> tokensPerMinute l)
    (SlidingWindow.Reset <$> tokensPerHour l) (Concurrent.Reset <$> concurrent l) (config l)).

(** ** Request limits *)

(** Every method of the limiter, as one step of its history. *)
Inductive step : Limiter -> Limiter -> Prop :=
| step_request l ck i : step l (snd (fst (CheckRequest l ck i)))
| step_tokens n l ck i : step l (snd (fst (CheckTokens n l ck i)))
| step_record n l ck i l' : fst (RecordTokens n l ck i) = Some l' -> step l l'
| step_acquire l : step l (snd (AcquireConcurrent l))
| step_release l : step l (ReleaseConcurrent l)
| step_reset l ck i : step l (fst (Reset l ck i)).

Inductive reachable (c : Config) : Limiter -> Prop :=
| reach_new ck i : reachable c (fst (NewLimiter c ck i))
| reach_step l l' : reachable c l -> step l l' -> reachable c l'.

(** A bucket whose burst capacity is zero. *)
Definition dead (b : option TokenBucket) : Prop :=
  exists tb, b = Some tb /\ TokenBucket.capacity tb = 0 /\ TokenBucket.tokens tb = 0.

Lemma dead_refill t tb :
  TokenBucket.capacity tb = 0 -> TokenBucket.tokens tb = 0 ->
  TokenBucket.capacity (TokenBucket.refillLocked t tb) = 0 /\
  TokenBucket.tokens (TokenBucket.refillLocked t tb) = 0.
Proof.
  intros Hc Ht. unfold TokenBucket.refillLocked.
  destruct (Z.ltb_spec 0 (TokenBucket.tokensToAdd tb t)) as [Hp|]; simpl; [|done].
  rewrite Hc, Ht. unfold add64. rewrite Z.add_0_l, wrap64_id by apply to_int64_range.
  destruct (Z.ltb_spec 0 (TokenBucket.tokensToAdd tb t)); [done|lia].
Qed.

Lemma dead_take t tb :
  TokenBucket.capacity tb = 0 -> TokenBucket.tokens tb = 0 ->
  TokenBucket.Take t 1 tb = (false, TokenBucket.refillLocked t tb).
Proof.
  intros Hc Ht. unfold TokenBucket.Take. destruct (dead_refill t tb Hc Ht) as [_ ->]. done.
Qed.

Lemma dead_check reason reset b ck i :
  dead b ->
  exists r b' j, check_bucket reason reset b ck i = ((Some r, b'), j) /\
    Allowed r = false /\ Reason r = reason /\ dead b'.
Proof.
  intros (tb & -> & Hc & Ht). unfold check_bucket, tbind, now, tret.
  rewrite (dead_take (ck i) tb Hc Ht).
  pose proof (dead_refill (ck i) tb Hc Ht) as [Hc1 Ht1].
  set (tb1 := TokenBucket.refillLocked (ck i) tb) in *.
  pose proof (dead_refill (ck (S i)) tb1 Hc1 Ht1) as [Hc2 Ht2].
  pose proof (TokenBucket.timeuntil_state (ck (S i)) 1 tb1) as E.
  destruct (TokenBucket.TimeUntilAvailable (ck (S i)) 1 tb1) as [ra tb2]. simpl in E. subst tb2.
  unfold TokenBucket.Remaining. do 3 eexists. split; [done|]. split; [done|]. split; [done|].
  eexists. split; [done|]. by apply dead_refill.
Qed.

Lemma check_request_hour l ck i :
  dead (reqPerHour l) ->
  Allowed (fst (fst (CheckRequest l ck i))) = false /\
  dead (reqPerHour (snd (fst (CheckRequest l ck i)))).
Proof.
  intros Hd. unfold CheckRequest, tbind.
  assert (Hrej : forall reason reset b k r b' j,
    check_bucket reason reset b ck k = ((Some r, b'), j) -> Allowed r = false).
  { intros reason reset [tb|] k r b' j; unfold check_bucket, tbind, now, tret; [|done].
    destruct (TokenBucket.Take (ck k) 1 tb) as [[] tb1]; [done|].
    destruct (TokenBucket.TimeUntilAvailable (ck (S k)) 1 tb1) as [ra tb2].
    destruct (TokenBucket.Remaining (ck (S (S k))) tb2) as [rem tb3]. by intros [= <- _ _]. }
  destruct (check_bucket _ Second _ ck i) as [[r1 s] j1] eqn:E1.
  destruct r1 as [r1|]; [by apply Hrej in E1|].
  cbn [set_buckets reqPerMinute reqPerHour].
  destruct (check_bucket _ Minute _ ck j1) as [[r2 m] j2] eqn:E2.
  destruct r2 as [r2|]; [by apply Hrej in E2|].
  cbn [set_buckets reqPerMinute reqPerHour].
  by destruct (dead_check "requests per hour limit exceeded" Hour _ ck j2 Hd)
    as (r & b' & j & -> & Ha & _ & Hd').
Qed.

Lemma step_dead l l' : step l l' -> dead (reqPerHour l) -> dead (reqPerHour l').
Proof.
  intros Hs Hd. destruct Hs as [l ck i|n l ck i|n l ck i l' Hr|l|l|l ck i].
  - by apply check_request_hour.
  - unfold CheckTokens, tbind.
    destruct (check_tokens _ _ Minute _ _ ck i) as [[[r|] m] j]; simpl; [done|].
    by destruct (check_tokens _ _ Hour _ _ ck j) as [[[r|] h] k].
  - revert Hr. unfold RecordTokens, tobind, tbind.
    destruct (record_window n (tokensPerMinute l) ck i) as [[m|] j]; simpl; [|done].
    destruct (record_window n (tokensPerHour l) ck j) as [[h|] k]; simpl; [|done].
    by intros [= <-].
  - unfold AcquireConcurrent. destruct (concurrent l) as [c|]; [|done].
    by destruct (Concurrent.Acquire c).
  - unfold ReleaseConcurrent. by destruct (concurrent l).
  - unfold Reset, tbind. destruct (reset_bucket (reqPerSecond l) ck i) as [s j].
    destruct (reset_bucket (reqPerMinute l) ck j) as [m k].
    destruct Hd as (tb & -> & Hc & Ht). simpl. eexists. split; [done|]. by simpl.
Qed.

Lemma new_limiter_hour c ck i :
  0 < RequestsPerHour c ->
  exists t, reqPerHour (fst (NewLimiter c ck i)) =
    Some (NewTokenBucket t (Z.quot (RequestsPerHour c) 12) (of_int (RequestsPerHour c) /f of_int 3600)).
Proof.
  intros H. unfold NewLimiter, tbind.
  destruct (new_bucket (0 <? RequestsPerSecond c) _ _ ck i) as [s j].
  destruct (new_bucket (0 <? RequestsPerMinute c) _ _ ck j) as [m k].
  unfold new_bucket. destruct (Z.ltb_spec 0 (RequestsPerHour c)); [|lia]. simpl. by eexists.
Qed.

(** A positive hourly limit below twelve requests gives a bucket of
    capacity zero ([RequestsPerHour / 12]): in every state the limiter can
    reach, and for every clock, every request is rejected. *)
Theorem small_hourly_limit_rejects_everything c l ck i :
  0 < RequestsPerHour c < 12 -> reachable c l ->
  Allowed (fst (fst (CheckRequest l ck i))) = false.
Proof.
  intros Hc Hr. apply check_request_hour.
  induction Hr as [ck' i'|l l' _ IH Hs]; [|by eapply step_dead].
  destruct (new_limiter_hour c ck' i') as (t & ->); [lia|].
  eexists. split; [done|]. rewrite Z.quot_small by lia. done.
Qed.

Lemma small_hourly_limit_rejects_everything_witness :
  Allowed (fst (fst (CheckRequest
    (fst (NewLimiter (mkConfig 0 0 10 0 0 0) (fun _ => Hour) 0%nat)) (fun _ => 1000 * Hour) 0%nat))) = false.
Proof.
  apply (small_hourly_limit_rejects_everything (mkConfig 0 0 10 0 0 0)); [simpl; lia|].
  apply reach_new.
Defined.

(** ** Token limits *)

(** Tokens recorded in intervals that start after [now - w] ... *)
Definition recent (w s : Duration) (now : Time) (h : list (Time * Z)) : Z :=
  Zsum (fun e => if now - w <? slot s (fst e) then snd e else 0) h.

(** ... or not before it. *)
Definition recent_incl (w s : Duration) (now : Time) (h : list (Time * Z)) : Z :=
  Zsum (fun e => if now - w <=? slot s (fst e) then snd e else 0) h.

(** What is known of a configured window: the additions it saw, none of them
    negative, and a grand total that an [int64] holds with the estimate. *)
Record window_history (w s : Duration) (est : Z) (last : Time) (o : option SlidingWindow)
    (h : list (Time * Z)) : Prop := {
  wh_reach : forall sw, o = Some sw -> SlidingWindow.reach w s sw h last;
  wh_pos : forall t v, (t, v) ∈ h -> 0 <= v;
  wh_max : Zsum snd h + est <= max_int64;
}.

Section TokenBlock.
Context (w s : Duration) (N : nat).
Context (Hs : 0 < s) (HN : (0 < N)%nat) (Hw : w = Z.of_nat N * s).

(** A block rejects exactly when usage and estimate exceed the limit, where
    the usage is known up to the interval at the far edge of the window. *)
Lemma check_tokens_spec reason limit dur est o ck i last h :
  0 <= est -> last <= ck i -> window_history w s est last o h ->
  exists r o' j, check_tokens reason limit dur est o ck i = ((r, o'), j) /\ (i <= j)%nat /\
    (o = None \/ (i < j)%nat) /\
    match r with
    | None => forall sw, o = Some sw -> recent w s (ck i) h + est <= limit
    | Some r => Allowed r = false /\ exists sw, o = Some sw /\ limit < recent_incl w s (ck i) h + est
    end.
Proof using Hs HN Hw.
  intros He Hle [Hr Hp Hm]. unfold check_tokens, tbind, now, tret.
  destruct o as [sw|].
  2: { exists None, None, i. split; [done|]. split; [lia|]. split; [by left|]. by intros. }
  assert (0 <= Zsum snd h) by (apply Zsum_nonneg; intros [t v] Hin; by apply (Hp t v)).
  pose proof (SlidingWindow.sum_bounds w s N sw h last (ck i) Hs HN Hw (Hr sw eq_refl) Hle Hp
    ltac:(lia)) as Hb.
  fold (recent w s (ck i) h) in Hb. fold (recent_incl w s (ck i) h) in Hb.
  assert (0 <= recent w s (ck i) h).
  { apply Zsum_nonneg. intros [t v] Hin. specialize (Hp t v Hin). simpl. destruct (_ <? _); lia. }
  assert (recent_incl w s (ck i) h <= Zsum snd h).
  { apply Zsum_le. intros [t v] Hin. specialize (Hp t v Hin). simpl. destruct (_ <=? _); lia. }
  destruct (SlidingWindow.Sum (ck i) sw) as [u sw'] eqn:E. simpl in Hb.
  unfold add64. rewrite wrap64_id by lia64.
  destruct (Z.ltb_spec limit (u + est)); do 3 eexists; (split; [done|]);
    (split; [lia|]); (split; [right; lia|]).
  - split; [done|]. exists sw. split; [done|lia].
  - intros ? [= <-]. lia.
Qed.
End TokenBlock.

(** For any history of recorded usage of the two token windows, a request
    that passes the token check keeps usage plus estimate, at a clock reading
    taken during the call, within each configured limit, counting every interval that starts strictly inside the
    window; a request that is rejected would exceed some configured limit,
    counting also the interval at the window's far edge. *)
Theorem token_limits_enforced est l ck i last hm hh :
  0 <= est -> monotone_clock ck -> last <= ck i ->
  window_history Minute Second est last (tokensPerMinute l) hm ->
  window_history Hour Minute est last (tokensPerHour l) hh ->
  let r := fst (fst (CheckTokens est l ck i)) in
  let j := snd (CheckTokens est l ck i) in
  (Allowed r = true ->
     (forall sw, tokensPerMinute l = Some sw ->
        exists k, (i <= k < j)%nat /\ recent Minute Second (ck k) hm + est <= TokensPerMinute (config l)) /\
     (forall sw, tokensPerHour l = Some sw ->
        exists k, (i <= k < j)%nat /\ recent Hour Minute (ck k) hh + est <= TokensPerHour (config l))) /\
  (Allowed r = false ->
     exists k, (i <= k < j)%nat /\
       (TokensPerMinute (config l) < recent_incl Minute Second (ck k) hm + est \/
        TokensPerHour (config l) < recent_incl Hour Minute (ck k) hh + est)).
Proof.
  intros He Hck Hle Hm Hh. unfold CheckTokens, tbind. cbv zeta.
  destruct (check_tokens_spec Minute Second 60 ltac:(done) ltac:(lia) ltac:(done)
    "tokens per minute limit exceeded" (TokensPerMinute (config l)) Minute est _ ck i last hm He Hle Hm)
    as (r1 & m & j & -> & Hj & Hj' & H1).
  destruct r1 as [r1|]; simpl.
  { destruct H1 as (Ha & sw & Hsw & Hlt). split; [congruence|]. intros _. exists i.
    destruct Hj'; [congruence|]. split; [lia|]. by left. }
  pose proof (Hck i j Hj).
  destruct (check_tokens_spec Hour Minute 60 ltac:(done) ltac:(lia) ltac:(done)
    "tokens per hour limit exceeded" (TokensPerHour (config l)) Hour est _ ck j last hh He ltac:(lia) Hh)
    as (r2 & h & k & -> & Hk & Hk' & H2).
  destruct r2 as [r2|]; simpl.
  { destruct H2 as (Ha & sw & Hsw & Hlt). split; [congruence|]. intros _. exists j.
    destruct Hk'; [congruence|]. split; [lia|]. by right. }
  split; [|done]. intros _. split; intros sw Hsw.
  - exists i. destruct Hj'; [congruence|]. split; [lia|]. by eapply H1.
  - exists j. destruct Hk'; [congruence|]. split; [lia|]. by eapply H2.
Qed.

Lemma token_limits_enforced_witness :
  let l := fst (NewLimiter (mkConfig 0 0 0 100 0 0) (fun _ => Hour) 0%nat) in
  Allowed (fst (fst (CheckTokens 60 l (fun _ => Hour) 0%nat))) = true /\ 0 + 60 <= 100.
Proof.
  set (l := fst (NewLimiter (mkConfig 0 0 0 100 0 0) (fun _ => Hour) 0%nat)).
  assert (A : Allowed (fst (fst (CheckTokens 60 l (fun _ => Hour) 0%nat))) = true)
    by (vm_compute; reflexivity).
  split; [exact A|].
  destruct (token_limits_enforced 60 l (fun _ => Hour) 0%nat Hour [] []) as [T _].
  - lia.
  - intros ? ? ?; apply Z.le_refl.
  - apply Z.le_refl.
  - split; [|intros ? ? H; by apply elem_of_nil in H|vm_compute; discriminate].
    intros sw Hsw. apply SlidingWindow.reach_new. exact Hsw.
  - split; [|intros ? ? H; by apply elem_of_nil in H|vm_compute; discriminate].
    intros sw Hsw. discriminate Hsw.
  - destruct (T A) as [T1 _]. destruct (tokensPerMinute l) as [sw|] eqn:E; [|discriminate E].
    destruct (T1 sw eq_refl) as (k & _ & Hk). exact Hk.
Defined.
