(* ===== verification/Enforcement.v ===== *)
(** * Limit enforcement ([pkg/limits/enforcement])

    What happens to a request that exceeds a limit.  [Action] is a Go string
    type, so a configuration may hold a value that is none of the constants;
    a nil [ModelDowngrades] map reads like an empty one and is the empty map
    here. *)

From Stdlib Require Import ZArith Lia.
From stdpp Require Import base option list strings gmap.
From S2P Require Import Prelude.
Local Open Scope string_scope.
Local Open Scope Z_scope.

Definition Action := string.
Definition ActionAllow : Action := "allow".
Definition ActionBlock : Action := "block".
Definition ActionQueue : Action := "queue".
Definition ActionDowngrade : Action := "downgrade".
Definition ActionAlert : Action := "alert".

Record Config := mkConfig {
  DefaultAction : Action;
  QueueDepth : Z;
  QueueTimeout : Duration;
  ModelDowngrades : gmap string string;
}.

Record Result := mkResult {
  Allowed : bool;
  Act : Action;
  Reason : string;
  DowngradedModel : string;
  RetryAfter : Duration;
  AlertMessage : string;
}.

Record Enforcer := mkEnforcer { config : Config }.

Definition NewEnforcer (c : Config) : Enforcer :=
  mkEnforcer (mkConfig
    (if String.eqb (DefaultAction c) "" then ActionBlock else DefaultAction c)
    (if QueueDepth c =? 0 then 100 else QueueDepth c)
    (if QueueTimeout c =? 0 then 30 * Second else QueueTimeout c)
    (ModelDowngrades c)).

Definition enforceAllow : Result := mkResult true ActionAllow "" "" 0 "".

Definition enforceBlock (reason : string) (retryAfter : Duration) : Result :=
  mkResult false ActionBlock reason "" retryAfter "".

Definition enforceQueue (reason : string) (retryAfter : Duration) : Result :=
  mkResult false ActionQueue reason "" retryAfter "".

Definition enforceDowngrade (e : Enforcer) (model reason : string) : Result :=
  match ModelDowngrades (config e) !! model with
  | None =>
      mkResult false ActionBlock
        (reason +:+ " (no downgrade available for model " +:+ model +:+ ")") "" 0 ""
  | Some downgradedModel => mkResult true ActionDowngrade "" downgradedModel 0 ""
  end.

Definition enforceAlert (reason : string) : Result := mkResult true ActionAlert "" "" 0 reason.

(** [Enforce] never fails: its error result is always nil. *)
Definition Enforce (e : Enforcer) (action : Action) (reason model : string) (retryAfter : Duration)
  : Result :=
  let action := if String.eqb action "" then DefaultAction (config e) else action in
  if String.eqb action ActionAllow then enforceAllow
  else if String.eqb action ActionBlock then enforceBlock reason retryAfter
  else if String.eqb action ActionQueue then enforceQueue reason retryAfter
  else if String.eqb action ActionDowngrade then enforceDowngrade e model reason
  else if String.eqb action ActionAlert then enforceAlert reason
  else enforceBlock reason retryAfter.

Definition GetConfig (e : Enforcer) : Config := config e.

(** ** Which actions let a request through *)

(** The actions under which a violating request may proceed. *)
Definition permissive (c : Config) (model : string) (a : Action) : Prop :=
  a = ActionAllow \/ a = ActionAlert \/
  (a = ActionDowngrade /\ is_Some (ModelDowngrades c !! model)).

(** The action [Enforce] settles on for the action given and the one configured. *)
Definition effective (c : Config) (a : Action) : Action :=
  if String.eqb a "" then
    (if String.eqb (DefaultAction c) "" then ActionBlock else DefaultAction c)
  else a.

Ltac action_cases :=
  repeat match goal with
  | |- context [String.eqb ?x ?y] => destruct (String.eqb_spec x y)
  end; subst.

Lemma enforce_allowed c action reason model retryAfter :
  Allowed (Enforce (NewEnforcer c) action reason model retryAfter) = true <->
  permissive c model (effective c action).
Proof.
  unfold Enforce, permissive. change (if String.eqb action "" then _ else action) with (effective c action).
  generalize (effective c action). intros a. action_cases; simpl; try done.
  all: try (split; [by auto|done]).
  all: try (split; [done|]; intros [?|[?|[? _]]]; first [done | congruence]).
  unfold enforceDowngrade. simpl. destruct (ModelDowngrades c !! model) as [m|]; simpl.
  - split; [|done]. intros _. right; right. by split; [|exists m].
  - split; [done|]. intros [?|[?|[_ [m Hm]]]]; done.
Qed.

Lemma enforce_downgrade c action reason model retryAfter :
  let r := Enforce (NewEnforcer c) action reason model retryAfter in
  Act r = ActionDowngrade <->
  Allowed r = true /\ ModelDowngrades c !! model = Some (DowngradedModel r) /\
  effective c action = ActionDowngrade.
Proof.
  unfold Enforce. change (if String.eqb action "" then _ else action) with (effective c action).
  generalize (effective c action). intros a. cbv zeta. action_cases; simpl; try done.
  all: try (split; [done|]; intros (? & ? & ?); first [done | congruence]).
  unfold enforceDowngrade. simpl. destruct (ModelDowngrades c !! model) as [m|]; simpl; naive_solver.
Qed.

(** A rejection always carries the reason it was given. *)
Lemma enforce_reject_reason e action reason model retryAfter :
  Allowed (Enforce e action reason model retryAfter) = false ->
  exists suffix, Reason (Enforce e action reason model retryAfter) = reason +:+ suffix.
Proof.
  unfold Enforce. generalize (if String.eqb action "" then DefaultAction (config e) else action). intros a.
  action_cases; simpl; try done; try (intros _; exists ""; by rewrite string_app_nil_r).
  unfold enforceDowngrade. destruct (ModelDowngrades (config e) !! model); simpl; [done|].
  intros _. by eexists.
Qed.

(** A request over a limit proceeds exactly when the action in force (the
    one given, or the configured default, or "block" when neither is set) is
    allow, alert, or downgrade with a cheaper model configured for the
    requested one; it is redirected to another model exactly in the last case,
    and then to the configured one.  Every other action, unknown strings
    included, rejects, with a reason that starts with the limit's. *)
Theorem enforcement_decides c action reason model retryAfter :
  let r := Enforce (NewEnforcer c) action reason model retryAfter in
  (Allowed r = true <-> permissive c model (effective c action)) /\
  (Act r = ActionDowngrade <->
     Allowed r = true /\ ModelDowngrades c !! model = Some (DowngradedModel r) /\
     effective c action = ActionDowngrade) /\
  (Allowed r = false -> exists suffix, Reason r = reason +:+ suffix).
Proof.
  cbv zeta. split; [apply enforce_allowed|]. split; [apply enforce_downgrade|].
  apply enforce_reject_reason.
Qed.

Lemma enforcement_decides_witness :
  let c := mkConfig "" 0 0 ∅ in
  Allowed (Enforce (NewEnforcer c) "" "over budget" "gpt-4" 0) = false /\
  exists suffix, Reason (Enforce (NewEnforcer c) "" "over budget" "gpt-4" 0) = "over budget" +:+ suffix.
Proof.
  intros c. destruct (enforcement_decides c "" "over budget" "gpt-4" 0) as (_ & _ & R).
  split; [reflexivity|]. apply R. reflexivity.
Defined.
