(* ===== verification/LimitStorage.v ===== *)
(** * Limit state storage ([pkg/limits/storage/types.go], [memory.go])

    The persistence interface of the limits manager as a class of operations
    with laws ([Backend], [BackendLaws]) and the in-memory implementation.  The
    manager hands a fresh [*LimitState] to every [Save] and never writes to it
    afterwards, so stored states are values.  The read-write mutex makes each
    method one atomic step. *)

From Stdlib Require Import ZArith Lia Ascii.
From stdpp Require Import base option list strings gmap.
From S2P Require Import Prelude Float64.
Local Open Scope string_scope.
Local Open Scope Z_scope.
Local Open Scope go_scope.

Record TokenBucketState := mkTokenBucketState {
  tbs_Capacity : Z;
  tbs_Tokens : Z;
  tbs_RefillRate : Z;
  tbs_LastRefill : Time;
}.

Record WindowBucket := mkWindowBucket { wb_Timestamp : Time; wb_Value : Z }.

Record SlidingWindowState := mkSlidingWindowState {
  sws_Window : Duration;
  sws_Buckets : list WindowBucket;
  sws_BucketSize : Duration;
}.

Record RateLimitState := mkRateLimitState {
  rls_TokenBucket : option TokenBucketState;
  rls_SlidingWindow : option SlidingWindowState;
  rls_Concurrent : Z;
  rls_MaxConcurrent : Z;
}.

Record BudgetBucket := mkBudgetBucket { bb_Timestamp : Time; bb_Amount : float64 }.

Record BudgetState := mkBudgetState {
  HourlyBuckets : list BudgetBucket;
  DailyBuckets : list BudgetBucket;
  MonthlyBuckets : list BudgetBucket;
  bs_TotalSpent : float64;
}.

Record LimitState := mkLimitState {
  Identifier : string;
  Dimension : string;
  RateLimit : option RateLimitState;
  Budget : option BudgetState;
  LastUpdated : Time;
  CreatedAt : Time;
}.

(** The interface.  A [nil] state is [None]; an error is its message. *)
Class Backend (S : Type) : Type := {
  bk_Save : Time -> option LimitState -> S -> option string * S;
  bk_Load : string -> string -> S -> result string (option LimitState);
  bk_Delete : string -> string -> S -> option string * S;
  bk_List : string -> S -> result string (list LimitState);
  bk_Cleanup : Time -> S -> result string Z * S;
  bk_Close : S -> option S;
}.

(** ** The in-memory backend *)

Record MemoryBackend := mkMemoryBackend {
  states : gmap string LimitState;
  maxEntries : Z;
  cleanupInterval : Duration;
  done_closed : bool;
}.

Record MemoryBackendConfig := mkMemoryBackendConfig {
  MaxEntries : Z;
  CleanupInterval : Duration;
  RetentionPeriod : Duration;
}.

Definition set_states (m : MemoryBackend) (s : gmap string LimitState) : MemoryBackend :=
  mkMemoryBackend s (maxEntries m) (cleanupInterval m) (done_closed m).

(** The backend and the retention period its cleanup goroutine runs with. *)
Definition NewMemoryBackendWithConfig (cfg : MemoryBackendConfig) : MemoryBackend * Duration :=
  let maxE := if MaxEntries cfg =? 0 then 100000 else MaxEntries cfg in
  let ci := if CleanupInterval cfg =? 0 then Minute else CleanupInterval cfg in
  let rp := if RetentionPeriod cfg =? 0 then 24 * Hour else RetentionPeriod cfg in
  (mkMemoryBackend ∅ maxE ci false, rp).

Definition NewMemoryBackend : MemoryBackend * Duration :=
  NewMemoryBackendWithConfig (mkMemoryBackendConfig 100000 Minute (24 * Hour)).

Definition makeKey (identifier dimension : string) : string :=
  dimension +:+ ":" +:+ identifier.

(** One iteration of the search loop: the oldest key so far with its time. *)
Definition older (acc : option (string * Time)) (e : string * LimitState) : option (string * Time) :=
  match acc with
  | None => Some (fst e, LastUpdated (snd e))
  | Some (_, oldestTime) =>
      if Before (LastUpdated (snd e)) oldestTime then Some (fst e, LastUpdated (snd e)) else acc
  end.

Definition evictOldestLocked `{MapRange} (m : MemoryBackend) : MemoryBackend :=
  match foldl older None (range (states m)) with
  | Some (oldestKey, _) => set_states m (delete oldestKey (states m))
  | None => m
  end.

(** The timestamps [Save] fills in. *)
Definition stamp (now : Time) (st : LimitState) : LimitState :=
  mkLimitState (Identifier st) (Dimension st) (RateLimit st) (Budget st)
    (if IsZero (LastUpdated st) then now else LastUpdated st)
    (if IsZero (CreatedAt st) then now else CreatedAt st).

Definition Save `{MapRange} (now : Time) (state : option LimitState) (m : MemoryBackend)
  : option string * MemoryBackend :=
  match state with
  | None => (Some "state cannot be nil", m)
  | Some st =>
      if String.eqb (Identifier st) "" then (Some "identifier cannot be empty", m)
      else if String.eqb (Dimension st) "" then (Some "dimension cannot be empty", m)
      else
        let key := makeKey (Identifier st) (Dimension st) in
        let m := if maxEntries m <=? Z.of_nat (size (states m)) then evictOldestLocked m else m in
        (None, set_states m (<[key := stamp now st]> (states m)))
  end.

Definition Load (identifier dimension : string) (m : MemoryBackend)
  : result string (option LimitState) :=
  if String.eqb identifier "" then Err "identifier cannot be empty"
  else if String.eqb dimension "" then Err "dimension cannot be empty"
  else Ok (states m !! makeKey identifier dimension).

Definition Delete (identifier dimension : string) (m : MemoryBackend) : option string * MemoryBackend :=
  if String.eqb identifier "" then (Some "identifier cannot be empty", m)
  else if String.eqb dimension "" then (Some "dimension cannot be empty", m)
  else (None, set_states m (delete (makeKey identifier dimension) (states m))).

Definition List `{MapRange} (dimension : string) (m : MemoryBackend) : result string (list LimitState) :=
  if String.eqb dimension "" then Err "dimension cannot be empty"
  else Ok (filter (fun st => Dimension st = dimension) (snd <$> range (states m))).

(** One iteration of the cleanup loop: the map and the count. *)
Definition cleanup_step (olderThan : Time) (acc : gmap string LimitState * Z)
    (e : string * LimitState) : gmap string LimitState * Z :=
  if Before (LastUpdated (snd e)) olderThan then (delete (fst e) (fst acc), snd acc + 1) else acc.

Definition Cleanup `{MapRange} (olderThan : Time) (m : MemoryBackend) : result string Z * MemoryBackend :=
  let '(s, deleted) := foldl (cleanup_step olderThan) (states m, 0) (range (states m)) in
  (Ok deleted, set_states m s).

(** Closing a closed channel panics. *)
Definition Close (m : MemoryBackend) : option MemoryBackend :=
  if done_closed m then None
  else Some (mkMemoryBackend (states m) (maxEntries m) (cleanupInterval m) true).

Definition Size (m : MemoryBackend) : Z := Z.of_nat (size (states m)).

(** The cleanup goroutine on the sequence of events its [select] receives: a
    tick with the clock reading it is handled at, or the closed channel. *)
Fixpoint cleanupLoop `{MapRange} (retentionPeriod : Duration) (events : list (option Time))
    (m : MemoryBackend) : MemoryBackend :=
  match events with
  | [] => m
  | None :: _ => m
  | Some now :: events =>
      cleanupLoop retentionPeriod events (snd (Cleanup (AddD now (- retentionPeriod)) m))
  end.

#[export] Instance memory_backend `{MapRange} : Backend MemoryBackend := {
  bk_Save := Save;
  bk_Load := Load;
  bk_Delete := Delete;
  bk_List := List;
  bk_Cleanup := Cleanup;
  bk_Close := Close;
}.

(** ** The eviction and cleanup loops *)

(** [evictOldestLocked] removes one entry, whose [LastUpdated] is minimal. *)
Lemma evict_spec `{MapRange} m :
  (states m = ∅ /\ evictOldestLocked m = m) \/
  exists k st, states m !! k = Some st /\
    (forall k' s', states m !! k' = Some s' -> LastUpdated st <= LastUpdated s') /\
    evictOldestLocked m = set_states m (delete k (states m)).
Proof.
  unfold evictOldestLocked. change older with (earliest_step LastUpdated).
  destruct (earliest_of LastUpdated (states m)) as [[He ->]|(k & st & Hk & Hmin & ->)]; [by left|].
  right. exists k, st. done.
Qed.

Lemma cleanup_fold olderThan l s n :
  NoDup l.*1 -> (forall k v, (k, v) ∈ l -> s !! k = Some v) ->
  let r := foldl (cleanup_step olderThan) (s, n) l in
  snd r + Z.of_nat (size (fst r)) = n + Z.of_nat (size s) /\
  (forall k v, fst r !! k = Some v <->
     s !! k = Some v /\ ~ ((k, v) ∈ l /\ Before (LastUpdated v) olderThan = true)).
Proof.
  cbv zeta. revert s n. induction l as [|[k0 v0] l IH]; intros s n Hnd Hin; cbn [foldl].
  { split; [done|]. intros k v. split; [|by intros [? _]].
    intros Hk. split; [done|]. intros [He _]. by apply elem_of_nil in He. }
  rewrite fmap_cons in Hnd. apply NoDup_cons in Hnd as [Hk0 Hnd].
  pose proof (Hin k0 v0 ltac:(left)) as Hv0.
  assert (Es : cleanup_step olderThan (s, n) (k0, v0) =
    if Before (LastUpdated v0) olderThan then (delete k0 s, n + 1) else (s, n)) by done.
  rewrite !Es. clear Es.
  destruct (Before (LastUpdated v0) olderThan) eqn:Hb.
  - destruct (IH (delete k0 s) (n + 1) Hnd) as [Hsz Hl].
    { intros k v Hkv. rewrite lookup_delete_ne; [apply Hin; by right|].
      intros <-. apply Hk0. apply list_elem_of_fmap. by exists (k0, v). }
    split.
    + rewrite Hsz, map_size_delete_Some by eauto.
      assert (size s <> 0%nat) by (apply (map_size_ne_0_lookup_2 s k0); eauto). lia.
    + intros k v. rewrite Hl, lookup_delete_Some, elem_of_cons. split.
      * intros [[Hne Hk] Hn]. split; [done|]. intros [[[= -> ->]|Hkv] Hbv]; [done|by apply Hn].
      * intros [Hk Hn]. assert (k0 <> k).
        { intros <-. apply Hn. rewrite Hv0 in Hk. injection Hk as ->. by split; [left|]. }
        split; [done|]. intros [Hkv Hbv]. apply Hn. by split; [right|].
  - destruct (IH s n Hnd) as [Hsz Hl]; [intros k v Hkv; apply Hin; by right|].
    split; [done|]. intros k v. rewrite Hl, elem_of_cons. split.
    + intros [Hk Hn]. split; [done|]. intros [[[= -> ->]|Hkv] Hbv]; [congruence|by apply Hn].
    + intros [Hk Hn]. split; [done|]. intros [Hkv Hbv]. apply Hn. by split; [right|].
Qed.

(** [Cleanup] keeps exactly the entries not older than the cutoff, and its
    count is the number it removed. *)
Lemma cleanup_spec `{MapRange} olderThan m :
  exists n m', Cleanup olderThan m = (Ok n, m') /\
    n = Size m - Size m' /\
    maxEntries m' = maxEntries m /\
    (forall k v, states m' !! k = Some v <-> states m !! k = Some v /\ olderThan <= LastUpdated v).
Proof.
  unfold Cleanup.
  destruct (cleanup_fold olderThan (range (states m)) (states m) 0) as [Hsz Hl].
  - rewrite (range_perm (states m)). apply NoDup_fst_map_to_list.
  - intros k v. by rewrite elem_of_range.
  - destruct (foldl _ _ _) as [s n]. simpl in *. exists n, (set_states m s).
    split; [done|]. split; [unfold Size; simpl; lia|]. split; [done|].
    intros k v. simpl. rewrite Hl, elem_of_range. unfold Before.
    split.
    + intros [Hk Hn]. split; [done|]. destruct (Z.ltb_spec (LastUpdated v) olderThan); [|lia].
      exfalso. by apply Hn.
    + intros [Hk Hle]. split; [done|]. intros [_ ?]. lia.
Qed.

(** ** Keys *)

Fixpoint colon_free (s : string) : bool :=
  match s with
  | EmptyString => true
  | String a s => negb (Ascii.eqb a ":"%char) && colon_free s
  end.

Lemma makeKey_inj i d i' d' :
  colon_free d = true -> colon_free d' = true -> makeKey i d = makeKey i' d' -> i = i' /\ d = d'.
Proof.
  unfold makeKey. revert d'. induction d as [|a d IH]; intros [|a' d'] Hd Hd';
    rewrite ?string_app_cons, ?string_app_nil_l; cbn [colon_free] in *.
  - by intros [= ->].
  - intros [= <- _]. done.
  - intros [= -> _]. done.
  - apply andb_prop in Hd as [_ Hd], Hd' as [_ Hd']. intros [= -> He].
    destruct (IH d' Hd Hd' He) as [-> ->]. done.
Qed.

(** ** Saving *)

Definition valid_key (id dim : string) : bool := negb (String.eqb id "") && negb (String.eqb dim "").

Lemma valid_key_true id dim :
  valid_key id dim = true -> String.eqb id "" = false /\ String.eqb dim "" = false.
Proof. unfold valid_key. by destruct (String.eqb id ""), (String.eqb dim ""). Qed.

Lemma save_invalid `{MapRange} now st m :
  valid_key (Identifier st) (Dimension st) = false ->
  exists e, Save now (Some st) m = (Some e, m).
Proof.
  unfold valid_key, Save. destruct (String.eqb (Identifier st) ""); [eauto|].
  destruct (String.eqb (Dimension st) ""); [eauto|done].
Qed.

(** The full behaviour of a valid [Save]: the entry, the other entries, and
    the one that may have been evicted. *)
Lemma save_effect `{MapRange} now st m :
  valid_key (Identifier st) (Dimension st) = true ->
  exists m' gone, Save now (Some st) m = (None, m') /\ maxEntries m' = maxEntries m /\
    states m' = <[makeKey (Identifier st) (Dimension st) := stamp now st]> (
      match gone with Some k => delete k (states m) | None => states m end) /\
    match gone with
    | None => Size m < maxEntries m \/ states m = ∅
    | Some k => maxEntries m <= Size m /\ exists old, states m !! k = Some old /\
        forall k' s', states m !! k' = Some s' -> LastUpdated old <= LastUpdated s'
    end.
Proof.
  intros [Hi Hd]%valid_key_true. unfold Save. rewrite Hi, Hd. unfold Size.
  destruct (Z.leb_spec (maxEntries m) (Z.of_nat (size (states m)))) as [Hfull|Hroom].
  - destruct (evict_spec m) as [[He ->]|(k & old & Hk & Hmin & ->)].
    + eexists _, None. split; [done|]. split; [done|]. split; [done|]. by right.
    + eexists _, (Some k). split; [done|]. split; [done|]. split; [done|]. split; [done|]. eauto.
  - eexists _, None. split; [done|]. split; [done|]. split; [done|]. by left.
Qed.

(** A [Save] with non-empty identifier and dimension succeeds and stores
    the state, with the missing timestamps filled in; every other entry is
    kept, except that at most one is evicted, only when the store is at
    capacity, and then one that no entry is older than.  [Load] of the pair
    just saved returns the stored state. *)
Theorem memory_save_spec `{MapRange} now st m :
  valid_key (Identifier st) (Dimension st) = true ->
  let key := makeKey (Identifier st) (Dimension st) in
  let '(e, m') := Save now (Some st) m in
  e = None /\
  Load (Identifier st) (Dimension st) m' = Ok (Some (stamp now st)) /\
  exists gone,
    (forall k, k <> key -> states m' !! k = if decide (gone = Some k) then None else states m !! k) /\
    (forall k, gone = Some k -> maxEntries m <= Size m /\
       exists old, states m !! k = Some old /\
         forall k' s', states m !! k' = Some s' -> LastUpdated old <= LastUpdated s').
Proof.
  intros Hv. cbv zeta. destruct (save_effect now st m Hv) as (m' & gone & -> & _ & Hs & Hg).
  split; [done|]. split.
  { unfold Load. apply valid_key_true in Hv as [-> ->]. by rewrite Hs, lookup_insert_eq. }
  exists gone. split.
  - intros k Hk. rewrite Hs, lookup_insert_ne by done.
    destruct gone as [g|]; case_decide; simplify_eq; [by rewrite lookup_delete_eq| |done].
    by rewrite lookup_delete_ne by congruence.
  - intros k ->. exact Hg.
Qed.

Lemma memory_save_spec_witness :
  let r := some_range in
  let st := mkLimitState "k1" "api_key" None None 0 0 in
  let m := fst NewMemoryBackend in
  fst (Save 7 (Some st) m) = None /\
  Load "k1" "api_key" (snd (Save 7 (Some st) m)) = Ok (Some (stamp 7 st)).
Proof.
  intros r st m. pose proof (memory_save_spec (H := r) 7 st m eq_refl) as T.
  cbv zeta in T. destruct (Save 7 (Some st) m) as [e m'].
  destruct T as (He & Hl & _). split; [exact He|exact Hl].
Defined.

(** ** What a client may rely on

    The laws of the interface the manager uses: a state that was saved is read
    back, an invalid one is refused and changes nothing, and a save never
    changes (though it may drop) what another pair reads. *)
Class BackendLaws (S : Type) `{Backend S} : Prop := {
  bl_save_load now st s s' :
    bk_Save now (Some st) s = (None, s') ->
    bk_Load (Identifier st) (Dimension st) s' = Ok (Some (stamp now st));
  bl_save_refused now st s :
    valid_key (Identifier st) (Dimension st) = false ->
    exists e, bk_Save now (Some st) s = (Some e, s);
  bl_save_frame now st s id dim :
    colon_free (Dimension st) = true -> colon_free dim = true ->
    (id, dim) <> (Identifier st, Dimension st) ->
    bk_Load id dim (snd (bk_Save now (Some st) s)) = bk_Load id dim s \/
    bk_Load id dim (snd (bk_Save now (Some st) s)) = Ok None;
}.

#[export] Instance memory_backend_laws `{MapRange} : BackendLaws MemoryBackend.
Proof.
  split; cbn [bk_Save bk_Load memory_backend].
  - intros now st m m' Hs. destruct (valid_key (Identifier st) (Dimension st)) eqn:Hv.
    + destruct (save_effect now st m Hv) as (m'' & g & E & _ & Hst & _). rewrite E in Hs.
      injection Hs as <-. apply valid_key_true in Hv as [Hi Hd]. unfold Load.
      by rewrite Hi, Hd, Hst, lookup_insert_eq.
    + destruct (save_invalid now st m Hv) as [e E]. by rewrite E in Hs.
  - intros now st m. apply save_invalid.
  - intros now st m id dim Hc Hd Hne. unfold Load.
    destruct (String.eqb id ""); [by left|]. destruct (String.eqb dim ""); [by left|].
    destruct (valid_key (Identifier st) (Dimension st)) eqn:Hv.
    2: { destruct (save_invalid now st m Hv) as [e ->]. by left. }
    destruct (save_effect now st m Hv) as (m' & g & -> & _ & Hst & _). simpl. rewrite Hst.
    rewrite lookup_insert_ne by (intros E; apply makeKey_inj in E as [Ei Ed]; [apply Hne; congruence|done..]).
    destruct g as [g|]; [|by left]. destruct (decide (g = makeKey id dim)) as [->|].
    + right. by rewrite lookup_delete_eq.
    + left. by rewrite lookup_delete_ne.
Qed.

(** ** Histories *)

Inductive op :=
| OSave (now : Time) (st : option LimitState)
| ODelete (id dim : string)
| OCleanup (olderThan : Time)
| OClose.

Definition run_op `{MapRange} (o : op) (m : MemoryBackend) : option MemoryBackend :=
  match o with
  | OSave now st => Some (snd (Save now st m))
  | ODelete id dim => Some (snd (Delete id dim m))
  | OCleanup t => Some (snd (Cleanup t m))
  | OClose => Close m
  end.

(** [exec m0 h m]: the calls [h] lead from [m0] to [m]; every call may
    iterate over the map in an order of its own. *)
Inductive exec (m0 : MemoryBackend) : list op -> MemoryBackend -> Prop :=
| exec_nil : exec m0 [] m0
| exec_snoc h m (R : MapRange) o m' :
    exec m0 h m -> run_op o m = Some m' -> exec m0 (h ++ [o]) m'.

(** The size bound, and that every entry sits under its own key. *)
Record mb_inv (m : MemoryBackend) : Prop := {
  mbi_size : Size m <= Z.max 1 (maxEntries m);
  mbi_keys : forall k st, states m !! k = Some st ->
    k = makeKey (Identifier st) (Dimension st) /\
    valid_key (Identifier st) (Dimension st) = true;
}.

Lemma mb_inv_subset m m' :
  mb_inv m -> maxEntries m' = maxEntries m -> states m' ⊆ states m -> mb_inv m'.
Proof.
  intros [Hs Hk] Hm Hsub. split.
  - unfold Size in *. apply map_subseteq_size in Hsub. lia.
  - intros k st Hst. apply Hk. by eapply lookup_weaken.
Qed.

Lemma save_inv `{MapRange} now st m : mb_inv m -> mb_inv (snd (Save now st m)).
Proof.
  intros [Hs Hk]. destruct st as [st|]; [|by split].
  destruct (valid_key (Identifier st) (Dimension st)) eqn:Hv.
  2: { destruct (save_invalid now st m Hv) as [e ->]. by split. }
  destruct (save_effect now st m Hv) as (m' & gone & -> & Hmax & Hst & Hg). simpl. split.
  - unfold Size in *. rewrite Hst, Hmax, map_size_insert.
    destruct gone as [g|].
    + destruct Hg as (Hfull & old & Hold & _).
      rewrite (map_size_delete_Some g) by eauto.
      pose proof (map_size_ne_0_lookup_2 (states m) g ltac:(eauto)).
      destruct (delete g (states m) !! _); unfold id; lia.
    + unfold id. destruct (states m !! _) eqn:E; [destruct Hg as [Hlt|He]; [lia|]|destruct Hg as [Hlt|He]; [lia|]].
      * by rewrite He, lookup_empty in E.
      * rewrite He, map_size_empty. lia.
  - intros k s Hks. rewrite Hst in Hks. apply lookup_insert_Some in Hks as [[<- <-]|[_ Hks]]; [done|].
    apply Hk. destruct gone as [g|]; [by apply lookup_delete_Some in Hks as [_ ?]|done].
Qed.

Lemma run_op_inv `{MapRange} o m m' : mb_inv m -> run_op o m = Some m' -> mb_inv m'.
Proof.
  intros Hi. destruct o as [now st|id dim|t|]; simpl.
  - intros [= <-]. by apply save_inv.
  - intros [= <-]. unfold Delete. destruct (String.eqb id ""); [done|].
    destruct (String.eqb dim ""); [done|]. apply (mb_inv_subset m); [done..|]. apply delete_subseteq.
  - destruct (cleanup_spec t m) as (n & m'' & -> & _ & Hm & Hl). intros [= <-]. simpl.
    apply (mb_inv_subset m); [done..|]. apply map_subseteq_spec. intros k v Hk. by apply Hl.
  - unfold Close. destruct (done_closed m); [done|]. intros [= <-]. by destruct Hi.
Qed.

Lemma exec_inv m0 h m : mb_inv m0 -> exec m0 h m -> mb_inv m.
Proof. intros H0 He. induction He as [|h m R o m' _ IH Hr]; [done|]. by eapply run_op_inv. Qed.

(** The state most recently saved for an identifier and dimension, unless a
    [Delete] came later (calls with an empty identifier or dimension fail). *)
Definition last_saved_step (id dim : string) (acc : option LimitState) (o : op) : option LimitState :=
  match o with
  | OSave now (Some st) =>
      if decide (Identifier st = id /\ Dimension st = dim /\ valid_key id dim = true) then Some (stamp now st) else acc
  | ODelete id' dim' => if decide (id' = id /\ dim' = dim /\ valid_key id dim = true) then None else acc
  | _ => acc
  end.

Definition last_saved (id dim : string) (h : list op) : option LimitState :=
  foldl (last_saved_step id dim) None h.

Definition op_colon_free (o : op) : Prop :=
  match o with
  | OSave _ (Some st) => colon_free (Dimension st) = true
  | ODelete _ dim => colon_free dim = true
  | _ => True
  end.

Lemma run_op_latest `{MapRange} o m m' id dim st acc :
  op_colon_free o -> colon_free dim = true -> run_op o m = Some m' ->
  (states m !! makeKey id dim = Some st -> acc = Some st) ->
  states m' !! makeKey id dim = Some st -> last_saved_step id dim acc o = Some st.
Proof.
  intros Ho Hd Hr Hacc Hl. destruct o as [now [st0|]|id' dim'|t|]; cbn [run_op] in Hr; cbn [last_saved_step].
  - apply (inj Some) in Hr as <-. cbn [op_colon_free] in Ho.
    destruct (valid_key (Identifier st0) (Dimension st0)) eqn:Hv.
    + destruct (save_effect now st0 m Hv) as (m' & gone & E & _ & Hst & _).
      rewrite E in Hl. simpl in Hl. rewrite Hst in Hl.
      apply lookup_insert_Some in Hl as [[Hk <-]|[Hk Hl]].
      * apply makeKey_inj in Hk as [<- <-]; [|done..]. by rewrite decide_True.
      * rewrite decide_False by (intros (<- & <- & _); done). apply Hacc.
        destruct gone; [by apply lookup_delete_Some in Hl as [_ ?]|done].
    + destruct (save_invalid now st0 m Hv) as [e E]. rewrite E in Hl. simpl in Hl.
      rewrite decide_False by (intros (<- & <- & ?); congruence). by apply Hacc.
  - apply (inj Some) in Hr as <-. by apply Hacc.
  - apply (inj Some) in Hr as <-. unfold Delete in Hl. simpl in Ho.
    destruct (valid_key id' dim') eqn:Hv.
    + apply valid_key_true in Hv as Hv'. destruct Hv' as [Ei Ed]. rewrite Ei, Ed in Hl. simpl in Hl.
      apply lookup_delete_Some in Hl as [Hk Hl].
      rewrite decide_False by (intros (<- & <- & _); done). by apply Hacc.
    + rewrite decide_False by (intros (<- & <- & ?); congruence). apply Hacc.
      unfold valid_key in Hv. destruct (String.eqb id' ""); [done|]. by destruct (String.eqb dim' "").
  - apply (inj Some) in Hr as <-. destruct (cleanup_spec t m) as (n & m'' & E & _ & _ & Hc).
    rewrite E in Hl. by apply Hacc, Hc.
  - unfold Close in Hr. destruct (done_closed m); [done|]. apply (inj Some) in Hr as <-. by apply Hacc.
Qed.

(** After any sequence of calls on a fresh backend the number of entries
    is within the configured maximum, and [Load] is never stale: with
    dimensions that contain no colon (as all of the manager's), what it
    returns for a pair is the state most recently saved for that very pair,
    which no later [Delete] removed. *)
Theorem memory_backend_bounded_and_fresh cfg h m :
  exec (fst (NewMemoryBackendWithConfig cfg)) h m -> Forall op_colon_free h ->
  Size m <= Z.max 1 (if MaxEntries cfg =? 0 then 100000 else MaxEntries cfg) /\
  forall id dim st, colon_free dim = true ->
    Load id dim m = Ok (Some st) -> last_saved id dim h = Some st.
Proof.
  intros He Hh. split.
  - assert (Hi : mb_inv m).
    { eapply exec_inv, He. split; simpl; [|done]; unfold Size; cbn [states]; rewrite map_size_empty; lia. }
    assert (Hm : maxEntries m = maxEntries (fst (NewMemoryBackendWithConfig cfg))).
    { clear Hh Hi. induction He as [|h m R o m' _ IH Hr]; [done|]. rewrite <- IH. clear IH.
      destruct o as [now [st|]|id dim|t|]; cbn [run_op] in Hr; try (apply (inj Some) in Hr as <-).
      - destruct (valid_key (Identifier st) (Dimension st)) eqn:Hv.
        + by destruct (save_effect now st m Hv) as (m' & g & -> & Hm & _).
        + by destruct (save_invalid now st m Hv) as [e ->].
      - done.
      - unfold Delete. by destruct (String.eqb id ""), (String.eqb dim "").
      - by destruct (cleanup_spec t m) as (n & m' & -> & _ & Hm & _).
      - unfold Close in Hr. destruct (done_closed m); [done|]. by apply (inj Some) in Hr as <-. }
    destruct Hi as [Hs _]. rewrite Hm in Hs. exact Hs.
  - intros id dim st Hd. unfold Load.
    destruct (String.eqb id ""); [done|]. destruct (String.eqb dim ""); [done|]. intros [= Hl].
    induction He as [|h m R o m' _ IH Hr] in st, Hl, Hh |- *; [done|].
    apply Forall_app in Hh as [Hh Ho]. apply Forall_cons in Ho as [Ho _].
    unfold last_saved. rewrite foldl_app. simpl.
    apply (run_op_latest (H := R) o m m' id dim st _ Ho Hd Hr); [|done]. intros Hm. by apply IH.
Qed.

Lemma memory_backend_bounded_and_fresh_witness :
  exists m, exec (fst (NewMemoryBackendWithConfig (mkMemoryBackendConfig 1 0 0)))
    [OSave 5 (Some (mkLimitState "a" "user" None None 0 0));
     OSave 6 (Some (mkLimitState "b" "user" None None 0 0))] m /\ Size m <= 1.
Proof.
  set (m0 := fst (NewMemoryBackendWithConfig (mkMemoryBackendConfig 1 0 0))).
  set (o1 := OSave 5 (Some (mkLimitState "a" "user" None None 0 0))).
  set (o2 := OSave 6 (Some (mkLimitState "b" "user" None None 0 0))).
  set (m1 := snd (Save (H := some_range) 5 (Some (mkLimitState "a" "user" None None 0 0)) m0)).
  set (m2 := snd (Save (H := some_range) 6 (Some (mkLimitState "b" "user" None None 0 0)) m1)).
  assert (X : exec m0 ([o1] ++ [o2]) m2).
  { apply (exec_snoc m0 [o1] m1 some_range o2 m2); [|reflexivity].
    apply (exec_snoc m0 [] m0 some_range o1 m1); [apply exec_nil|reflexivity]. }
  exists m2. split; [exact X|].
  assert (F : Forall op_colon_free ([o1] ++ [o2])) by (repeat constructor).
  destruct (memory_backend_bounded_and_fresh (mkMemoryBackendConfig 1 0 0) _ m2 X F) as [S _]. exact S.
Defined.
