(* ===== verification/LimitsManager.v ===== *)
(** * Limits manager ([pkg/limits/manager.go], [types.go])

    The coordinator of rate limiters, budget trackers, enforcement and state
    storage.  The storage is any instance of [Backend]; limiters and trackers
    are reached through the manager's maps only, so updating one is writing it
    back under its identifier. *)

From Stdlib Require Import ZArith Lia.
From stdpp Require Import base option list strings gmap.
From S2P Require Import Prelude Float64 RollingWindow BudgetTracker Concurrent Limiter Enforcement LimitStorage.
Local Open Scope string_scope.
Local Open Scope Z_scope.
Local Open Scope go_scope.

Definition DimensionAPIKey : string := "api_key".
Definition DimensionUser : string := "user".
Definition DimensionTeam : string := "team".

Record RateLimitInfo := mkRateLimitInfo {
  rli_Dimension : string;
  rli_Identifier : string;
  rli_Limit : Z;
  rli_Remaining : Z;
  rli_Reset : Time;
  rli_Window : Duration;
}.

Record BudgetInfo := mkBudgetInfo {
  bi_Dimension : string;
  bi_Identifier : string;
  bi_Limit : float64;
  bi_Used : float64;
  bi_Remaining : float64;
  bi_Percentage : float64;
  bi_Reset : Time;
  bi_Window : Duration;
}.

Record LimitCheckResult := mkLimitCheckResult {
  Allowed : bool;
  Reason : string;
  RateLimit : option RateLimitInfo;
  Budget : option BudgetInfo;
  Act : Action;
  RetryAfter : Duration;
  DowngradeTo : string;
}.

(** [&LimitCheckResult{Allowed: true}] *)
Definition all_passed : LimitCheckResult := mkLimitCheckResult true "" None None "" 0 "".

Record UsageRecord := mkUsageRecord {
  Timestamp : Time;
  ur_Identifier : string;
  ur_Dimension : string;
  RequestTokens : Z;
  ResponseTokens : Z;
  TotalTokens : Z;
  Cost : float64;
  Provider : string;
  Model : string;
}.

Definition NewUsageRecord (dimension identifier : string) (requestTokens responseTokens : Z)
    (cost : float64) (provider model : string) : Timed UsageRecord :=
  let! t := now in
  tret (mkUsageRecord t identifier dimension requestTokens responseTokens
    (requestTokens +64 responseTokens) cost provider model).

Section Manager.
Context {S : Type} `{HB : Backend S}.

Record Manager := mkManager {
  rateLimiters : gmap string Limiter;
  budgets : gmap string Tracker;
  enforcer : Enforcer;
  storage : S;
  rateLimitConfigs : gmap string Limiter.Config;
  budgetConfigs : gmap string BudgetTracker.Config;
  enforcementConfig : Enforcement.Config;
}.

Record Config := mkConfig {
  RateLimits : gmap string Limiter.Config;
  Budgets : gmap string BudgetTracker.Config;
  EnforcementCfg : Enforcement.Config;
  Storage : option S;
}.

(** The loop over [config.RateLimits]. *)
Fixpoint init_limiters (cfgs : list (string * Limiter.Config)) (acc : gmap string Limiter)
  : Timed (gmap string Limiter) :=
  match cfgs with
  | [] => tret acc
  | (identifier, c) :: cfgs =>
      let! l := NewLimiter c in init_limiters cfgs (<[identifier := l]> acc)
  end.

(** The loop over [config.Budgets]. *)
Definition init_trackers (cfgs : list (string * BudgetTracker.Config)) : gmap string Tracker :=
  foldl (fun acc e => <[fst e := NewTracker (snd e)]> acc) ∅ cfgs.

(** [mem] is the backend [storage.NewMemoryBackend()] returns, used when the
    configuration has none. *)
Definition NewManager `{MapRange} (mem : S) (config : Config) : Timed Manager :=
  let! rls := init_limiters (range (RateLimits config)) ∅ in
  tret (mkManager rls (init_trackers (range (Budgets config)))
    (NewEnforcer (EnforcementCfg config)) (default mem (Storage config))
    (RateLimits config) (Budgets config) (EnforcementCfg config)).

Definition set_limiter (m : Manager) (id : string) (l : Limiter) : Manager :=
  mkManager (<[id := l]> (rateLimiters m)) (budgets m) (enforcer m) (storage m)
    (rateLimitConfigs m) (budgetConfigs m) (enforcementConfig m).

Definition set_tracker (m : Manager) (id : string) (t : Tracker) : Manager :=
  mkManager (rateLimiters m) (<[id := t]> (budgets m)) (enforcer m) (storage m)
    (rateLimitConfigs m) (budgetConfigs m) (enforcementConfig m).

Definition set_storage (m : Manager) (s : S) : Manager :=
  mkManager (rateLimiters m) (budgets m) (enforcer m) s
    (rateLimitConfigs m) (budgetConfigs m) (enforcementConfig m).

Definition getRateLimiter (identifier : string) (m : Manager) : Timed (option Limiter * Manager) :=
  match rateLimiters m !! identifier with
  | Some limiter => tret (Some limiter, m)
  | None =>
      match rateLimitConfigs m !! identifier with
      | None => tret (None, m)
      | Some config =>
          let! limiter := NewLimiter config in
          tret (Some limiter, set_limiter m identifier limiter)
      end
  end.

Definition getBudgetTracker (identifier : string) (m : Manager) : option Tracker * Manager :=
  match budgets m !! identifier with
  | Some tracker => (Some tracker, m)
  | None =>
      match budgetConfigs m !! identifier with
      | None => (None, m)
      | Some config =>
          let tracker := NewTracker config in (Some tracker, set_tracker m identifier tracker)
      end
  end.

(** The result built when a rate or token limit is exceeded. *)
Definition rate_violation (m : Manager) (identifier model : string) (r : CheckResult) : LimitCheckResult :=
  let e := Enforce (enforcer m) (DefaultAction (enforcementConfig m)) (Limiter.Reason r) model
             (Limiter.RetryAfter r) in
  mkLimitCheckResult (Enforcement.Allowed e) (Limiter.Reason r)
    (Some (mkRateLimitInfo DimensionAPIKey identifier (Limiter.Limit r) (Limiter.Remaining r)
      (Limiter.ResetAt r) 0))
    None (Enforcement.Act e) (Enforcement.RetryAfter e) (DowngradedModel e).

Definition budget_info (identifier : string) (st : Status) : BudgetInfo :=
  mkBudgetInfo DimensionAPIKey identifier (BudgetTracker.Limit st) (Used st)
    (BudgetTracker.Remaining st) (Percentage st) (BudgetTracker.ResetAt st) (Window st).

(** The result built when a budget is exceeded. *)
Definition budget_violation (m : Manager) (identifier model : string) (st : Status) : LimitCheckResult :=
  let e := Enforce (enforcer m) (DefaultAction (enforcementConfig m)) (BudgetTracker.Reason st) model 0 in
  mkLimitCheckResult (Enforcement.Allowed e) (BudgetTracker.Reason st) None
    (Some (budget_info identifier st)) (Enforcement.Act e) 0 (DowngradedModel e).

(** The block of [CheckLimits] on request and token limits: the result it
    returns early, if any. *)
Definition check_rates (identifier : string) (estimatedTokens : Z) (model : string)
    (rateLimiter : option Limiter) (m : Manager) : Timed (option LimitCheckResult * Manager) :=
  match rateLimiter with
  | None => tret (None, m)
  | Some l =>
      let! (rateLimitResult, l) := CheckRequest l in
      if Limiter.Allowed rateLimitResult then
        let! (tokenLimitResult, l) := CheckTokens estimatedTokens l in
        let m := set_limiter m identifier l in
        if Limiter.Allowed tokenLimitResult then tret (None, m)
        else tret (Some (rate_violation m identifier model tokenLimitResult), m)
      else
        let m := set_limiter m identifier l in
        tret (Some (rate_violation m identifier model rateLimitResult), m)
  end.

(** The block on budgets and the final result. *)
Definition check_budget (identifier model : string) (budgetTracker : option Tracker) (m : Manager)
  : Timed (LimitCheckResult * Manager) :=
  match budgetTracker with
  | None => tret (all_passed, m)
  | Some t =>
      let! (budgetStatus, t) := Check t in
      let m := set_tracker m identifier t in
      if BudgetTracker.Allowed budgetStatus then
        if AlertTriggered budgetStatus then
          tret (mkLimitCheckResult true "" None (Some (budget_info identifier budgetStatus))
                  ActionAlert 0 "", m)
        else tret (all_passed, m)
      else tret (budget_violation m identifier model budgetStatus, m)
  end.

(** [CheckLimits]; its error result is always nil because [Enforce]'s is. *)
Definition CheckLimits (identifier : string) (estimatedTokens : Z) (estimatedCost : float64)
    (model : string) (m : Manager) : Timed (LimitCheckResult * Manager) :=
  let! (rateLimiter, m) := getRateLimiter identifier m in
  let '(budgetTracker, m) := getBudgetTracker identifier m in
  let! (early, m) := check_rates identifier estimatedTokens model rateLimiter m in
  match early with
  | Some r => tret (r, m)
  | None => check_budget identifier model budgetTracker m
  end.

Definition record_tokens (identifier : string) (tokens : Z) (rateLimiter : option Limiter) (m : Manager)
  : Timed (option Manager) :=
  match rateLimiter with
  | None => tret (Some m)
  | Some l => let? l := RecordTokens tokens l in tret (Some (set_limiter m identifier l))
  end.

Definition record_cost (identifier : string) (cost : float64) (budgetTracker : option Tracker) (m : Manager)
  : Timed (option Manager) :=
  match budgetTracker with
  | None => tret (Some m)
  | Some t => let? t := BudgetTracker.Add cost t in tret (Some (set_tracker m identifier t))
  end.

(** [RecordUsage]; the goroutine it starts is [persistState], a later step. *)
Definition RecordUsage (record : UsageRecord) (m : Manager) : Timed (option Manager) :=
  let identifier := ur_Identifier record in
  let! (rateLimiter, m) := getRateLimiter identifier m in
  let? m := record_tokens identifier (TotalTokens record) rateLimiter m in
  let '(budgetTracker, m) := getBudgetTracker identifier m in
  record_cost identifier (Cost record) budgetTracker m.

Definition AcquireConcurrent (identifier : string) (m : Manager) : Timed (bool * Manager) :=
  let! (rateLimiter, m) := getRateLimiter identifier m in
  match rateLimiter with
  | None => tret (true, m)
  | Some l => let '(ok, l) := Limiter.AcquireConcurrent l in tret (ok, set_limiter m identifier l)
  end.

Definition ReleaseConcurrent (identifier : string) (m : Manager) : Timed Manager :=
  let! (rateLimiter, m) := getRateLimiter identifier m in
  match rateLimiter with
  | None => tret m
  | Some l => tret (set_limiter m identifier (Limiter.ReleaseConcurrent l))
  end.

Definition Close (m : Manager) : option Manager := set_storage m <$> bk_Close (storage m).

Definition persistState (identifier : string) (m : Manager) : Timed (option string * Manager) :=
  let! t := now in
  let state := mkLimitState identifier DimensionAPIKey None None zero_time zero_time in
  let '(e, s) := bk_Save t (Some state) (storage m) in
  tret (e, set_storage m s).
End Manager.
Arguments Manager : clear implicits.
Arguments Config : clear implicits.

(** ** The state a manager keeps

    [minv cfg m]: the maps hold exactly the configured identifiers, and the
    configuration is the one the manager was created with. *)

Section Invariant.
Context {S : Type} `{HB : Backend S}.
Context (cfg : Config S).

Record minv (m : Manager S) : Prop := {
  mi_enforcer : enforcer m = NewEnforcer (EnforcementCfg cfg);
  mi_enforcement : enforcementConfig m = EnforcementCfg cfg;
  mi_rates : rateLimitConfigs m = RateLimits cfg;
  mi_budgets : budgetConfigs m = Budgets cfg;
  mi_limiters : forall id, is_Some (rateLimiters m !! id) <-> is_Some (RateLimits cfg !! id);
  mi_trackers : forall id, is_Some (budgets m !! id) <-> is_Some (Budgets cfg !! id);
}.

Lemma init_limiters_spec (P : Limiter.Config -> Limiter -> Prop) cfgs acc ck i :
  (forall c ck i, P c (fst (NewLimiter c ck i))) ->
  NoDup cfgs.*1 ->
  forall id, match (list_to_map cfgs : gmap string Limiter.Config) !! id with
    | Some c => exists l, fst (init_limiters cfgs acc ck i) !! id = Some l /\ P c l
    | None => fst (init_limiters cfgs acc ck i) !! id = acc !! id
    end.
Proof using.
  intros HP. revert acc i. induction cfgs as [|[k c] cfgs IH]; intros acc i Hnd id.
  { by rewrite list_to_map_nil, lookup_empty. }
  rewrite fmap_cons in Hnd. apply NoDup_cons in Hnd as [Hk Hnd].
  cbn [init_limiters]. unfold tbind. pose proof (HP c ck i) as Hc.
  destruct (NewLimiter c ck i) as [l j]. simpl in Hc.
  specialize (IH (<[k := l]> acc) j Hnd id). rewrite list_to_map_cons.
  destruct (decide (k = id)) as [->|Hne].
  - rewrite lookup_insert_eq. exists l. split; [|done].
    apply not_elem_of_list_to_map_1 in Hk. simpl in Hk. rewrite Hk in IH.
    by rewrite lookup_insert_eq in IH.
  - rewrite lookup_insert_ne by done. destruct (_ !! id); [done|].
    by rewrite lookup_insert_ne in IH.
Qed.

Lemma range_list_to_map `{MapRange} {V} (m : gmap string V) : (list_to_map (range m) : gmap string V) = m.
Proof using.
  transitivity (list_to_map (map_to_list m) : gmap string V); [|apply list_to_map_to_list].
  apply list_to_map_proper; [|apply range_perm].
  rewrite (range_perm m). apply NoDup_fst_map_to_list.
Qed.

Lemma init_trackers_spec cfgs id :
  NoDup cfgs.*1 -> init_trackers cfgs !! id = NewTracker <$> (list_to_map cfgs : gmap string BudgetTracker.Config) !! id.
Proof using.
  unfold init_trackers. intros Hnd.
  assert (G : forall acc : gmap string Tracker,
    foldl (fun acc e => <[fst e := NewTracker (snd e)]> acc) acc cfgs !! id =
    match (list_to_map cfgs : gmap string BudgetTracker.Config) !! id with
    | Some c => Some (NewTracker c) | None => acc !! id end).
  { induction cfgs as [|[k c] cfgs IH]; intros acc; [done|].
    rewrite fmap_cons in Hnd. apply NoDup_cons in Hnd as [Hk Hnd].
    cbn [foldl]. rewrite (IH Hnd), list_to_map_cons. simpl.
    destruct (decide (k = id)) as [->|Hne].
    - apply not_elem_of_list_to_map_1 in Hk. simpl in Hk. by rewrite Hk, !lookup_insert_eq.
    - by rewrite !lookup_insert_ne by done. }
  rewrite G, lookup_empty. by destruct (_ !! id).
Qed.

Lemma range_keys_NoDup `{MapRange} {V} (m : gmap string V) : NoDup (range m).*1.
Proof using. rewrite (range_perm m). apply NoDup_fst_map_to_list. Qed.

(** The limiters a manager starts with. *)
Lemma new_manager_limiters `{MapRange} (P : Limiter.Config -> Limiter -> Prop) mem ck i id :
  (forall c ck i, P c (fst (NewLimiter c ck i))) ->
  match RateLimits cfg !! id with
  | Some c => exists l, rateLimiters (fst (NewManager mem cfg ck i)) !! id = Some l /\ P c l
  | None => rateLimiters (fst (NewManager mem cfg ck i)) !! id = None
  end.
Proof using.
  intros HP. unfold NewManager, tbind.
  pose proof (init_limiters_spec P (range (RateLimits cfg)) ∅ ck i HP (range_keys_NoDup _) id) as Hi.
  rewrite range_list_to_map in Hi.
  by destruct (init_limiters _ _ ck i) as [rls j].
Qed.

Lemma new_manager_inv `{MapRange} mem ck i : minv (fst (NewManager mem cfg ck i)).
Proof using.
  pose proof (fun id => new_manager_limiters (fun _ _ => True) mem ck i id (fun _ _ _ => I)) as Hl.
  unfold NewManager, tbind in *. destruct (init_limiters _ _ ck i) as [rls j]. simpl in *.
  split; simpl; [done..| |].
  - intros id. specialize (Hl id). destruct (RateLimits cfg !! id) as [c|].
    + destruct Hl as (l & -> & _). by split; eauto.
    + rewrite Hl. done.
  - intros id. rewrite init_trackers_spec by apply range_keys_NoDup.
    rewrite range_list_to_map. apply fmap_is_Some.
Qed.

(** Under the invariant the lazy creation paths are never taken. *)
Lemma get_limiter m id ck i :
  minv m -> getRateLimiter id m ck i = ((rateLimiters m !! id, m), i).
Proof using.
  intros Hm. unfold getRateLimiter. destruct (rateLimiters m !! id) as [l|] eqn:E; [done|].
  rewrite (mi_rates m Hm). destruct (RateLimits cfg !! id) as [c|] eqn:E'; [|done].
  assert (is_Some (rateLimiters m !! id)) as [l Hl] by (apply (mi_limiters m Hm); eauto).
  congruence.
Qed.

Lemma get_tracker m id : minv m -> getBudgetTracker id m = (budgets m !! id, m).
Proof using.
  intros Hm. unfold getBudgetTracker. destruct (budgets m !! id) as [t|] eqn:E; [done|].
  rewrite (mi_budgets m Hm). destruct (Budgets cfg !! id) as [c|] eqn:E'; [|done].
  assert (is_Some (budgets m !! id)) as [l Hl] by (apply (mi_trackers m Hm); eauto).
  congruence.
Qed.
End Invariant.

(** ** Operations and what they may change *)

Inductive mop :=
| OpCheck (id : string) (tokens : Z) (cost : float64) (model : string)
| OpRecord (r : UsageRecord)
| OpAcquire (id : string)
| OpRelease (id : string)
| OpPersist (id : string).

Definition mop_id (o : mop) : string :=
  match o with
  | OpCheck id _ _ _ | OpAcquire id | OpRelease id | OpPersist id => id
  | OpRecord r => ur_Identifier r
  end.

Section Operations.
Context {S : Type} `{HB : Backend S}.

(** The state after an operation; [None] is a panic. *)
Definition run (o : mop) (m : Manager S) : Timed (option (Manager S)) :=
  match o with
  | OpCheck id tokens cost model =>
      let! (_, m) := CheckLimits id tokens cost model m in tret (Some m)
  | OpRecord r => RecordUsage r m
  | OpAcquire id => let! (_, m) := AcquireConcurrent id m in tret (Some m)
  | OpRelease id => let! m := ReleaseConcurrent id m in tret (Some m)
  | OpPersist id => let! (_, m) := persistState id m in tret (Some m)
  end.

(** [m'] differs from [m] at most in the limiter and the tracker of [id]
    (which exist in both or in none) and in what the storage holds. *)
Record only_at (id : string) (m m' : Manager S) : Prop := {
  oa_limiters : forall k, k <> id -> rateLimiters m' !! k = rateLimiters m !! k;
  oa_trackers : forall k, k <> id -> budgets m' !! k = budgets m !! k;
  oa_limiter : is_Some (rateLimiters m' !! id) <-> is_Some (rateLimiters m !! id);
  oa_tracker : is_Some (budgets m' !! id) <-> is_Some (budgets m !! id);
  oa_enforcer : enforcer m' = enforcer m;
  oa_enforcement : enforcementConfig m' = enforcementConfig m;
  oa_rates : rateLimitConfigs m' = rateLimitConfigs m;
  oa_budgets : budgetConfigs m' = budgetConfigs m;
}.

Lemma only_at_refl id m : only_at id m m.
Proof. by split. Qed.

Lemma only_at_trans id m1 m2 m3 : only_at id m1 m2 -> only_at id m2 m3 -> only_at id m1 m3.
Proof.
  intros [A1 A2 A3 A4] [B1 B2 B3 B4]. split; try congruence; try (by etrans).
  - intros k Hk. by rewrite B1, A1.
  - intros k Hk. by rewrite B2, A2.
Qed.

Lemma only_at_set_limiter id m l :
  is_Some (rateLimiters m !! id) -> only_at id m (set_limiter m id l).
Proof.
  intros Hl. split; simpl; try done.
  - intros k Hk. by rewrite lookup_insert_ne.
  - rewrite lookup_insert_eq. split; [done|eauto].
Qed.

Lemma only_at_set_tracker id m t :
  is_Some (budgets m !! id) -> only_at id m (set_tracker m id t).
Proof.
  intros Hl. split; simpl; try done.
  - intros k Hk. by rewrite lookup_insert_ne.
  - rewrite lookup_insert_eq. split; [done|eauto].
Qed.

Lemma only_at_set_storage id m s : only_at id m (set_storage m s).
Proof. by split. Qed.

Lemma only_at_minv cfg id m m' : only_at id m m' -> minv cfg m -> minv cfg m'.
Proof.
  intros [Hl Ht Hl' Ht'] [H1 H2 H3 H4 H5 H6]. split; try congruence.
  - intros k. rewrite <- H5. destruct (decide (k = id)) as [->|Hk]; [done|]. by rewrite (Hl k Hk).
  - intros k. rewrite <- H6. destruct (decide (k = id)) as [->|Hk]; [done|]. by rewrite (Ht k Hk).
Qed.

Lemma check_rates_frame id est model o m ck i :
  rateLimiters m !! id = o ->
  let m' := snd (fst (check_rates id est model o m ck i)) in
  only_at id m m' /\ budgets m' = budgets m.
Proof.
  intros Ho. unfold check_rates, tbind. destruct o as [l|]; [|split; [apply only_at_refl|done]].
  destruct (CheckRequest l ck i) as [[r l1] j1]. destruct (Limiter.Allowed r).
  - destruct (CheckTokens est l1 ck j1) as [[r2 l2] j2].
    destruct (Limiter.Allowed r2); (split; [apply only_at_set_limiter; eauto|done]).
  - split; [apply only_at_set_limiter; eauto|done].
Qed.

Lemma check_budget_frame id model o m ck i :
  budgets m !! id = o -> only_at id m (snd (fst (check_budget id model o m ck i))).
Proof.
  intros Ho. unfold check_budget, tbind. destruct o as [t|]; [|apply only_at_refl].
  destruct (Check t ck i) as [[st t'] j].
  destruct (BudgetTracker.Allowed st); [destruct (AlertTriggered st)|];
    apply only_at_set_tracker; eauto.
Qed.

Lemma check_limits_frame cfg m id est cost model ck i :
  minv cfg m -> only_at id m (snd (fst (CheckLimits id est cost model m ck i))).
Proof.
  intros Hm. unfold CheckLimits, tbind.
  rewrite (get_limiter cfg m id ck i Hm), (get_tracker cfg m id Hm).
  destruct (check_rates_frame id est model _ m ck i eq_refl) as [Hf Hb].
  destruct (check_rates id est model _ m ck i) as [[[r|] m1] j]; [done|]. simpl in *.
  eapply only_at_trans; [done|]. apply check_budget_frame. by rewrite Hb.
Qed.

Lemma record_usage_frame cfg m r m' ck i :
  minv cfg m -> fst (RecordUsage r m ck i) = Some m' -> only_at (ur_Identifier r) m m'.
Proof.
  intros Hm. unfold RecordUsage, tobind, tbind. rewrite (get_limiter cfg m _ ck i Hm).
  assert (Hl : forall m1, fst (record_tokens (ur_Identifier r) (TotalTokens r)
    (rateLimiters m !! ur_Identifier r) m ck i) = Some m1 -> only_at (ur_Identifier r) m m1).
  { intros m1. unfold record_tokens, tobind, tbind.
    destruct (rateLimiters m !! ur_Identifier r) as [l|] eqn:El.
    - destruct (RecordTokens (TotalTokens r) l ck i) as [[l'|] j]; [|done].
      intros [= <-]. apply only_at_set_limiter; eauto.
    - intros [= <-]. apply only_at_refl. }
  destruct (record_tokens _ _ _ m ck i) as [[m1|] j]; [|done]. specialize (Hl m1 eq_refl).
  rewrite (get_tracker cfg m1 _ (only_at_minv cfg _ m m1 Hl Hm)).
  unfold record_cost, tobind, tbind. destruct (budgets m1 !! _) as [t|] eqn:Et; [|by intros [= <-]].
  destruct (BudgetTracker.Add (Cost r) t ck j) as [[t'|] k]; [|done].
  intros [= <-]. eapply only_at_trans; [done|]. apply only_at_set_tracker; eauto.
Qed.

Lemma run_frame cfg o m m' ck i :
  minv cfg m -> fst (run o m ck i) = Some m' -> only_at (mop_id o) m m'.
Proof.
  intros Hm. destruct o as [id tokens cost model|r|id|id|id]; cbn [run mop_id]; unfold tbind.
  - pose proof (check_limits_frame cfg m id tokens cost model ck i Hm) as H.
    destruct (CheckLimits id tokens cost model m ck i) as [[r m1] j]. by intros [= <-].
  - by apply (record_usage_frame cfg).
  - unfold AcquireConcurrent, tbind. rewrite (get_limiter cfg m id ck i Hm).
    destruct (rateLimiters m !! id) as [l|] eqn:El.
    + destruct (Limiter.AcquireConcurrent l) as [ok l']. intros [= <-].
      apply only_at_set_limiter; eauto.
    + intros [= <-]. apply only_at_refl.
  - unfold ReleaseConcurrent, tbind. rewrite (get_limiter cfg m id ck i Hm).
    destruct (rateLimiters m !! id) as [l|] eqn:El; intros [= <-].
    + apply only_at_set_limiter; eauto.
    + apply only_at_refl.
  - unfold persistState, tbind, now.
    destruct (bk_Save _ _ _) as [e s]. intros [= <-]. apply only_at_set_storage.
Qed.

Inductive reachable (cfg : Config S) : Manager S -> Prop :=
| reach_new (R : MapRange) mem ck i : reachable cfg (fst (NewManager mem cfg ck i))
| reach_run o m m' ck i : reachable cfg m -> fst (run o m ck i) = Some m' -> reachable cfg m'.

Lemma manager_reachable_inv cfg m : reachable cfg m -> minv cfg m.
Proof.
  induction 1 as [R mem ck i|o m m' ck i _ IH Hr]; [apply new_manager_inv|].
  eapply only_at_minv, IH. by eapply run_frame.
Qed.
End Operations.

(** In every state a manager can reach, an operation for one identifier
    leaves the limiter and the tracker of every other identifier as they
    were, the maps keep exactly the configured identifiers, and looking up a
    limiter or a tracker changes nothing: the lazy creation path, which writes
    the maps while only the read lock is held, is never taken. *)
Theorem manager_isolation {S} `{Backend S} (cfg : Config S) m o ck i m' :
  reachable cfg m -> fst (run o m ck i) = Some m' ->
  (forall id, id <> mop_id o ->
     rateLimiters m' !! id = rateLimiters m !! id /\ budgets m' !! id = budgets m !! id) /\
  dom (rateLimiters m') = dom (RateLimits cfg) /\ dom (budgets m') = dom (Budgets cfg) /\
  (forall id k, getRateLimiter id m ck k = ((rateLimiters m !! id, m), k) /\
     getBudgetTracker id m = (budgets m !! id, m)).
Proof.
  intros Hr Hm'. pose proof (manager_reachable_inv cfg m Hr) as Hm.
  pose proof (run_frame cfg o m m' ck i Hm Hm') as Hf.
  pose proof (only_at_minv cfg _ m m' Hf Hm) as Hi.
  split; [intros id Hid; split; by apply Hf|].
  split; [apply set_eq; intros id; rewrite !elem_of_dom; apply Hi|].
  split; [apply set_eq; intros id; rewrite !elem_of_dom; apply Hi|].
  intros id k. split; [by apply (get_limiter cfg)|by apply (get_tracker cfg)].
Qed.

(** ** The decision of [CheckLimits] *)

(** The reason of the first limit a request violates: the request limits,
    then the token limits, then the budgets. *)
Definition violated (est : Z) (l : option Limiter) (t : option Tracker) : Timed (option string) :=
  let! v :=
    match l with
    | None => tret None
    | Some l =>
        let! (r, l) := CheckRequest l in
        if negb (Limiter.Allowed r) then tret (Some (Limiter.Reason r)) else
        let! (r, _) := CheckTokens est l in
        tret (if negb (Limiter.Allowed r) then Some (Limiter.Reason r) else None)
    end in
  match v, t with
  | Some _, _ => tret v
  | None, None => tret None
  | None, Some t =>
      let! (st, _) := Check t in
      tret (if negb (BudgetTracker.Allowed st) then Some (BudgetTracker.Reason st) else None)
  end.

Section Decision.
Context {S : Type} `{HB : Backend S} (cfg : Config S).

(** Enforcement by a manager that has the invariant. *)
Lemma manager_enforces m reason model retry :
  minv cfg m ->
  Enforcement.Allowed (Enforce (enforcer m) (DefaultAction (enforcementConfig m)) reason model retry) = true
  <-> permissive (EnforcementCfg cfg) model
        (effective (EnforcementCfg cfg) (DefaultAction (EnforcementCfg cfg))).
Proof using.
  intros Hm. rewrite (mi_enforcer cfg m Hm), (mi_enforcement cfg m Hm). apply enforce_allowed.
Qed.

Definition decided (model : string) (v : option string) (r : LimitCheckResult) : Prop :=
  match v with
  | None => Allowed r = true /\ (Act r = "" \/ Act r = ActionAlert)
  | Some reason => Reason r = reason /\
      (Allowed r = true <-> permissive (EnforcementCfg cfg) model
        (effective (EnforcementCfg cfg) (DefaultAction (EnforcementCfg cfg))))
  end.

Lemma rate_violation_decided m id model r :
  minv cfg m -> decided model (Some (Limiter.Reason r)) (rate_violation m id model r).
Proof using. intros Hm. split; [done|]. by apply manager_enforces. Qed.

Lemma budget_violation_decided m id model st :
  minv cfg m -> decided model (Some (BudgetTracker.Reason st)) (budget_violation m id model st).
Proof using. intros Hm. split; [done|]. by apply manager_enforces. Qed.

Lemma check_budget_decided id model t m ck i :
  minv cfg m ->
  decided model (fst (violated 0 None t ck i)) (fst (fst (check_budget id model t m ck i))).
Proof using.
  intros Hm. unfold violated, check_budget, tbind. destruct t as [t|]; simpl; [|by auto].
  destruct (Check t ck i) as [[st t'] j]. destruct (BudgetTracker.Allowed st); simpl.
  - destruct (AlertTriggered st); simpl; by auto.
  - split; [done|]. rewrite <- (manager_enforces m (BudgetTracker.Reason st) model 0 Hm). done.
Qed.

Lemma check_limits_decided id est cost model m ck i :
  minv cfg m ->
  decided model (fst (violated est (rateLimiters m !! id) (budgets m !! id) ck i))
    (fst (fst (CheckLimits id est cost model m ck i))).
Proof using.
  intros Hm. unfold CheckLimits. unfold tbind at 1 2.
  rewrite (get_limiter cfg m id ck i Hm), (get_tracker cfg m id Hm).
  destruct (check_rates_frame id est model _ m ck i eq_refl) as [Hf Hb]. revert Hf Hb.
  unfold violated, check_rates. destruct (rateLimiters m !! id) as [l|] eqn:El; unfold tbind.
  2: { intros _ _. by apply check_budget_decided. }
  destruct (CheckRequest l ck i) as [[r l1] j1]. destruct (Limiter.Allowed r); simpl.
  - destruct (CheckTokens est l1 ck j1) as [[r2 l2] j2].
    destruct (Limiter.Allowed r2); simpl; intros Hf Hb.
    + apply (check_budget_decided id model (budgets m !! id) _ ck j2 (only_at_minv cfg _ _ _ Hf Hm)).
    + destruct (budgets m !! id); apply (rate_violation_decided (set_limiter m id l2) id model r2);
        by apply (only_at_minv cfg id m).
  - intros Hf Hb. destruct (budgets m !! id); apply (rate_violation_decided (set_limiter m id l1) id model r);
      by apply (only_at_minv cfg id m).
Qed.
End Decision.

(** The decision of [CheckLimits].  In every reachable state a request
    that violates none of its limits is allowed, with no action or an alert;
    a request that violates one reports the reason of the first it violates
    (requests, then tokens, then budgets) and is allowed exactly when the
    configured action is allow, alert, or a downgrade available for its
    model.  With the default configuration ("block") it is rejected. *)
Theorem check_limits_decision {S} `{Backend S} (cfg : Config S) m id est cost model ck i :
  reachable cfg m ->
  let r := fst (fst (CheckLimits id est cost model m ck i)) in
  match fst (violated est (rateLimiters m !! id) (budgets m !! id) ck i) with
  | None => Allowed r = true /\ (Act r = "" \/ Act r = ActionAlert)
  | Some reason => Reason r = reason /\
      (Allowed r = true <-> permissive (EnforcementCfg cfg) model
        (effective (EnforcementCfg cfg) (DefaultAction (EnforcementCfg cfg)))) /\
      (DefaultAction (EnforcementCfg cfg) = "" -> Allowed r = false)
  end.
Proof.
  intros Hr. pose proof (check_limits_decided cfg id est cost model m ck i (manager_reachable_inv cfg m Hr)) as D.
  unfold decided in D. cbv zeta.
  destruct (fst (violated est _ _ ck i)) as [reason|]; [|done].
  destruct D as [Hre Ha]. split; [done|]. split; [done|]. intros Hd.
  destruct (Allowed _); [|done]. destruct Ha as [Ha _]. specialize (Ha eq_refl).
  rewrite Hd in Ha. unfold effective in Ha. rewrite Hd in Ha. simpl in Ha.
  by destruct Ha as [?|[?|[? _]]].
Qed.

(** ** A small configuration *)

Definition demo_config : Config MemoryBackend :=
  mkConfig {[ "a" := Limiter.mkConfig 1 0 0 0 0 1; "b" := Limiter.mkConfig 5 0 0 0 0 0 ]} ∅
    (Enforcement.mkConfig "" 0 0 ∅) None.

Definition demo_clock : Clock := fun _ => Hour.

Definition demo_manager : Manager MemoryBackend :=
  fst (NewManager (H := some_range) (fst NewMemoryBackend) demo_config demo_clock 0%nat).

Lemma manager_isolation_witness :
  let b := @memory_backend some_range in
  exists m', fst (run (OpCheck "a" 0 fzero "gpt-4") demo_manager demo_clock 0%nat) = Some m' /\
    rateLimiters m' !! "b" = rateLimiters demo_manager !! "b".
Proof.
  intros b.
  assert (R : reachable (HB := b) demo_config demo_manager) by apply (reach_new demo_config some_range).
  destruct (fst (run (OpCheck "a" 0 fzero "gpt-4") demo_manager demo_clock 0%nat)) as [m'|] eqn:E;
    [|vm_compute in E; discriminate E].
  exists m'. split; [reflexivity|].
  destruct (manager_isolation demo_config demo_manager _ demo_clock 0%nat m' R E) as [F _].
  apply (F "b"). vm_compute. discriminate.
Defined.

(** Three requests at one instant: the third exceeds the burst of two. *)
Lemma check_limits_decision_witness :
  let b := @memory_backend some_range in
  exists m2, reachable demo_config m2 /\
    Allowed (fst (fst (CheckLimits "a" 0 fzero "gpt-4" m2 demo_clock 0%nat))) = false.
Proof.
  intros b. set (o := OpCheck "a" 0 fzero "gpt-4").
  set (m1 := snd (fst (CheckLimits "a" 0 fzero "gpt-4" demo_manager demo_clock 0%nat))).
  set (m2 := snd (fst (CheckLimits "a" 0 fzero "gpt-4" m1 demo_clock 0%nat))).
  assert (E1 : fst (run o demo_manager demo_clock 0%nat) = Some m1) by (vm_compute; reflexivity).
  assert (E2 : fst (run o m1 demo_clock 0%nat) = Some m2) by (vm_compute; reflexivity).
  assert (R : reachable (HB := b) demo_config m2).
  { apply (reach_run demo_config o m1 m2 demo_clock 0%nat); [|exact E2].
    apply (reach_run demo_config o demo_manager m1 demo_clock 0%nat); [|exact E1].
    apply (reach_new demo_config some_range). }
  exists m2. split; [exact R|].
  pose proof (check_limits_decision demo_config m2 "a" 0 fzero "gpt-4" demo_clock 0%nat R) as D.
  assert (V : fst (violated 0 (rateLimiters m2 !! "a") (budgets m2 !! "a") demo_clock 0%nat)
    = Some "requests per second limit exceeded") by (vm_compute; reflexivity).
  cbv zeta in D. rewrite V in D. destruct D as (_ & _ & D). apply D. reflexivity.
Defined.

(** ** Concurrent request slots *)

Lemma check_request_concurrent l ck i :
  concurrent (snd (fst (CheckRequest l ck i))) = concurrent l.
Proof.
  unfold CheckRequest, tbind.
  destruct (check_bucket _ _ _ ck i) as [[[r|] s] j]; [done|].
  destruct (check_bucket _ _ _ ck j) as [[[r|] m] k]; [done|].
  by destruct (check_bucket _ _ _ ck k) as [[[r|] h] n].
Qed.

Lemma check_tokens_concurrent est l ck i :
  concurrent (snd (fst (CheckTokens est l ck i))) = concurrent l.
Proof.
  unfold CheckTokens, tbind.
  destruct (check_tokens _ _ _ _ _ ck i) as [[[r|] s] j]; [done|].
  by destruct (check_tokens _ _ _ _ _ ck j) as [[[r|] m] k].
Qed.

Lemma record_tokens_concurrent n l ck i l' :
  fst (RecordTokens n l ck i) = Some l' -> concurrent l' = concurrent l.
Proof.
  unfold RecordTokens, tobind, tbind.
  destruct (record_window _ _ ck i) as [[m|] j]; [|done].
  destruct (record_window _ _ ck j) as [[h|] k]; [|done]. by intros [= <-].
Qed.

(** The slots that are held per identifier, along a history in which nobody
    releases a slot that is not held. *)
Definition upd (f : string -> Z) (id : string) (z : Z) : string -> Z :=
  fun k => if decide (k = id) then z else f k.

Section Slots.
Context {S : Type} `{HB : Backend S} (cfg : Config S).

Inductive exec : Manager S -> (string -> Z) -> Prop :=
| exec_new (R : MapRange) mem ck i : exec (fst (NewManager mem cfg ck i)) (fun _ => 0)
| exec_other m held o m' ck i :
    exec m held -> fst (run o m ck i) = Some m' ->
    (forall id, o <> OpAcquire id /\ o <> OpRelease id) -> exec m' held
| exec_acquire m held id ck i ok m' :
    exec m held -> fst (AcquireConcurrent id m ck i) = (ok, m') ->
    exec m' (if ok : bool then upd held id (held id + 1) else held)
| exec_release m held id ck i :
    exec m held -> 0 < held id ->
    exec (fst (ReleaseConcurrent id m ck i)) (upd held id (held id - 1)).

(** The semaphore of every identifier with a limit counts the slots held. *)
Definition slots_inv (m : Manager S) (held : string -> Z) : Prop :=
  forall id c l, RateLimits cfg !! id = Some c -> rateLimiters m !! id = Some l ->
    0 < MaxConcurrent c < max_int64 ->
    concurrent l = Some (mkConcurrentLimiter (MaxConcurrent c) (held id)) /\
    0 <= held id <= MaxConcurrent c.

Lemma slots_inv_same m m' held :
  slots_inv m held ->
  (forall id l', rateLimiters m' !! id = Some l' ->
     exists l, rateLimiters m !! id = Some l /\ concurrent l' = concurrent l) ->
  slots_inv m' held.
Proof using.
  intros Hi Hs id c l' Hc Hl' Hmax. destruct (Hs id l' Hl') as (l & Hl & ->). by apply (Hi id c l).
Qed.

(** Replacing the limiter of [id] by one with the same semaphore. *)
Lemma set_limiter_same (m : Manager S) id l l1 k l' :
  rateLimiters m !! id = Some l -> concurrent l1 = concurrent l ->
  rateLimiters (set_limiter m id l1) !! k = Some l' ->
  exists l0, rateLimiters m !! k = Some l0 /\ concurrent l' = concurrent l0.
Proof using.
  intros Hl Hc. simpl. rewrite lookup_insert_Some. intros [[<- <-]|[_ H]]; eauto.
Qed.

Lemma check_limits_slots m id est cost model ck i k l' :
  minv cfg m -> rateLimiters (snd (fst (CheckLimits id est cost model m ck i))) !! k = Some l' ->
  exists l, rateLimiters m !! k = Some l /\ concurrent l' = concurrent l.
Proof using.
  intros Hm. unfold CheckLimits, tbind. rewrite (get_limiter cfg m id ck i Hm), (get_tracker cfg m id Hm).
  assert (Hr : forall l', rateLimiters (snd (fst
      (check_rates id est model (rateLimiters m !! id) m ck i))) !! k = Some l' ->
    exists l, rateLimiters m !! k = Some l /\ concurrent l' = concurrent l).
  { clear l'. intros l'. unfold check_rates, tbind.
    destruct (rateLimiters m !! id) as [l|] eqn:El; [|simpl; eauto].
    pose proof (check_request_concurrent l ck i) as Hc1.
    destruct (CheckRequest l ck i) as [[r l1] j1]. simpl in Hc1.
    destruct (Limiter.Allowed r); [|by apply (set_limiter_same m id l)].
    pose proof (check_tokens_concurrent est l1 ck j1) as Hc2.
    destruct (CheckTokens est l1 ck j1) as [[r2 l2] j2]. simpl in Hc2.
    destruct (Limiter.Allowed r2); apply (set_limiter_same m id l); try done; congruence. }
  destruct (check_rates _ _ _ _ m ck i) as [[[r|] m1] j]; simpl in Hr; [apply Hr|].
  unfold check_budget, tbind. destruct (budgets m !! id) as [t|]; [|apply Hr].
  destruct (Check t ck j) as [[st t'] n].
  destruct (BudgetTracker.Allowed st); [destruct (AlertTriggered st)|]; apply Hr.
Qed.

Lemma record_usage_slots m r m' ck i k l' :
  minv cfg m -> fst (RecordUsage r m ck i) = Some m' -> rateLimiters m' !! k = Some l' ->
  exists l, rateLimiters m !! k = Some l /\ concurrent l' = concurrent l.
Proof using.
  intros Hm. unfold RecordUsage, tobind, tbind. rewrite (get_limiter cfg m _ ck i Hm).
  set (id := ur_Identifier r).
  assert (Hr : forall m1 l', fst (record_tokens id (TotalTokens r) (rateLimiters m !! id) m ck i) = Some m1 ->
    rateLimiters m1 !! k = Some l' ->
    exists l, rateLimiters m !! k = Some l /\ concurrent l' = concurrent l).
  { clear l'. intros m1 l'. unfold record_tokens, tobind, tbind.
    destruct (rateLimiters m !! id) as [l|] eqn:El; [|intros [= <-]; eauto].
    pose proof (record_tokens_concurrent (TotalTokens r) l ck i) as Hc.
    destruct (RecordTokens (TotalTokens r) l ck i) as [[l1|] j]; [|done].
    intros [= <-]. apply (set_limiter_same m id l); eauto. }
  destruct (record_tokens id _ _ m ck i) as [[m1|] j]; [|done]. specialize (Hr m1 l' eq_refl).
  unfold getBudgetTracker, record_cost, tobind, tbind.
  destruct (budgets m1 !! id) as [t|].
  { destruct (BudgetTracker.Add (Cost r) t ck j) as [[t'|] n]; [|done]. by intros [= <-]. }
  destruct (budgetConfigs m1 !! id) as [c|]; [|by intros [= <-]].
  destruct (BudgetTracker.Add (Cost r) (NewTracker c) ck j) as [[t'|] n]; [|done]. by intros [= <-].
Qed.

Lemma run_slots o m m' held ck i :
  minv cfg m -> slots_inv m held -> fst (run o m ck i) = Some m' ->
  (forall id, o <> OpAcquire id /\ o <> OpRelease id) -> slots_inv m' held.
Proof using.
  intros Hm Hi Hr Ho. eapply slots_inv_same; [done|]. intros k l' Hl'.
  destruct o as [id tokens cost model|r|id|id|id]; cbn [run] in Hr; unfold tbind in Hr.
  - pose proof (fun l' => check_limits_slots m id tokens cost model ck i k l' Hm) as H.
    destruct (CheckLimits id tokens cost model m ck i) as [[r m1] j]. injection Hr as <-. by apply H.
  - by apply (record_usage_slots m r m' ck i).
  - by destruct (Ho id).
  - by destruct (Ho id).
  - unfold persistState, tbind, now in Hr. destruct (bk_Save _ _ _) as [e s].
    injection Hr as <-. simpl in Hl'. eauto.
Qed.

Lemma acquire_slots m held id ck i ok m' :
  minv cfg m -> slots_inv m held -> fst (AcquireConcurrent id m ck i) = (ok, m') ->
  slots_inv m' (if ok : bool then upd held id (held id + 1) else held).
Proof using.
  intros Hm Hi. unfold AcquireConcurrent, tbind. rewrite (get_limiter cfg m id ck i Hm).
  destruct (rateLimiters m !! id) as [l|] eqn:El.
  2: { intros [= <- <-] k c l' Hc Hl' Hmax. unfold upd. case_decide as E; [congruence|]. by apply (Hi k c l'). }
  destruct (Limiter.AcquireConcurrent l) as [ok' l1] eqn:Ea. intros [= <- <-] k c l' Hc Hl' Hmax.
  simpl in Hl'. apply lookup_insert_Some in Hl' as [[<- <-]|[Hne Hl']].
  - destruct (Hi id c l Hc El Hmax) as [Hcl Hh]. revert Ea. unfold Limiter.AcquireConcurrent.
    rewrite Hcl, acquire_alone by (simpl; lia64). simpl.
    destruct (Z.leb_spec (MaxConcurrent c) (held id)); intros [= <- <-]; simpl; [done|].
    unfold upd. rewrite decide_True by done. split; [done|lia].
  - specialize (Hi k c l' Hc Hl' Hmax). destruct ok'; [|done].
    unfold upd. by rewrite decide_False by done.
Qed.

Lemma release_slots m held id ck i :
  minv cfg m -> slots_inv m held -> 0 < held id ->
  slots_inv (fst (ReleaseConcurrent id m ck i)) (upd held id (held id - 1)).
Proof using.
  intros Hm Hi Hpos. unfold ReleaseConcurrent, tbind. rewrite (get_limiter cfg m id ck i Hm).
  intros k c l' Hc Hl' Hmax. destruct (rateLimiters m !! id) as [l|] eqn:El; simpl in Hl'.
  2: { unfold upd. case_decide as E; [congruence|]. by apply (Hi k c l'). }
  apply lookup_insert_Some in Hl' as [[<- <-]|[Hne Hl']].
  - destruct (Hi id c l Hc El Hmax) as [Hcl Hh]. unfold Limiter.ReleaseConcurrent. rewrite Hcl. simpl.
    unfold Concurrent.Release, AddCurrent, add64. simpl. rewrite wrap64_id by lia64.
    unfold upd. rewrite decide_True by done. split; [done|lia].
  - unfold upd. rewrite decide_False by done. by apply (Hi k c l').
Qed.

Lemma exec_slots m held : exec m held -> minv cfg m /\ slots_inv m held.
Proof using.
  induction 1 as [R mem ck i|m held o m' ck i _ [Hm Hi] Hr Ho|m held id ck i ok m' _ [Hm Hi] Ha
    |m held id ck i _ [Hm Hi] Hpos].
  - split; [apply new_manager_inv|]. intros id c l Hc Hl Hmax.
    pose proof (new_manager_limiters cfg (fun c l => 0 < MaxConcurrent c ->
      concurrent l = Some (mkConcurrentLimiter (MaxConcurrent c) 0)) mem ck i id) as Hn.
    rewrite Hc in Hn. destruct Hn as (l0 & Hl0 & Hcl).
    { clear. intros c ck i Hp. unfold NewLimiter, tbind.
      destruct (new_bucket (0 <? RequestsPerSecond c) _ _ ck i) as [s j].
      destruct (new_bucket (0 <? RequestsPerMinute c) _ _ ck j) as [m k].
      destruct (new_bucket (0 <? RequestsPerHour c) _ _ ck k) as [h n]. simpl.
      by destruct (Z.ltb_spec 0 (MaxConcurrent c)); [|lia]. }
    rewrite Hl in Hl0. injection Hl0 as <-. split; [apply Hcl; lia|lia].
  - split; [eapply only_at_minv; [by eapply run_frame|done]|by eapply run_slots].
  - split; [|by eapply acquire_slots].
    eapply only_at_minv; [apply (run_frame cfg (OpAcquire id) m m' ck i Hm)|done].
    cbn [run]. unfold tbind. destruct (AcquireConcurrent id m ck i) as [[? ?] ?].
    simpl in Ha. by injection Ha as -> ->.
  - split; [|by apply release_slots].
    eapply only_at_minv; [apply (run_frame cfg (OpRelease id) m _ ck i Hm)|done].
    cbn [run]. unfold tbind. by destruct (ReleaseConcurrent id m ck i) as [m' j].
Qed.
End Slots.

Lemma exec_slots_bounded {S} `{Backend S} (cfg : Config S) m held id c ck i :
  exec cfg m held -> RateLimits cfg !! id = Some c -> 0 < MaxConcurrent c < max_int64 ->
  0 <= held id <= MaxConcurrent c /\
  fst (fst (AcquireConcurrent id m ck i)) = (held id <? MaxConcurrent c).
Proof.
  intros He Hc Hmax. destruct (exec_slots cfg m held He) as [Hm Hi].
  assert (is_Some (rateLimiters m !! id)) as [l Hl] by (apply (mi_limiters cfg m Hm); eauto).
  destruct (Hi id c l Hc Hl Hmax) as [Hcl Hh]. split; [done|].
  unfold AcquireConcurrent, tbind. rewrite (get_limiter cfg m id ck i Hm), Hl.
  unfold Limiter.AcquireConcurrent. rewrite Hcl, acquire_alone by (simpl; lia64). simpl.
  destruct (Z.leb_spec (MaxConcurrent c) (held id)), (Z.ltb_spec (held id) (MaxConcurrent c)); by try lia.
Qed.

(** Whatever the manager is asked to do, and for whichever identifiers,
    an identifier with a concurrency limit never holds more slots than that
    limit, and a slot that is free is granted. *)
Theorem concurrent_slots_bounded {S} `{Backend S} (cfg : Config S) m held id c ck i :
  exec cfg m held -> RateLimits cfg !! id = Some c -> 0 < MaxConcurrent c < max_int64 ->
  0 <= held id <= MaxConcurrent c /\
  fst (fst (AcquireConcurrent id m ck i)) = (held id <? MaxConcurrent c).
Proof. apply exec_slots_bounded. Qed.

Lemma concurrent_slots_bounded_witness :
  let b := @memory_backend some_range in
  exists m held, exec demo_config m held /\ held "a" = 1 /\
    fst (fst (AcquireConcurrent "a" m demo_clock 0%nat)) = false.
Proof.
  intros b. set (r := fst (AcquireConcurrent "a" demo_manager demo_clock 0%nat)).
  assert (X : exec (HB := b) demo_config (snd r) (upd (fun _ => 0) "a" (0 + 1))).
  { apply (exec_acquire demo_config demo_manager (fun _ => 0) "a" demo_clock 0%nat true (snd r));
      [apply (exec_new demo_config some_range)|vm_compute; reflexivity]. }
  eexists _, _. split; [exact X|]. split; [reflexivity|].
  exact (proj2 (concurrent_slots_bounded demo_config (snd r) _ "a" (Limiter.mkConfig 1 0 0 0 0 1)
    demo_clock 0%nat X eq_refl ltac:(simpl; lia64))).
Defined.

(** ** What [CheckLimits] does not look at *)

Lemma check_request_set_concurrent l c ck i :
  CheckRequest (set_concurrent l c) ck i =
  let '((r, l'), j) := CheckRequest l ck i in ((r, set_concurrent l' c), j).
Proof.
  unfold CheckRequest, tbind. simpl.
  destruct (check_bucket _ _ _ ck i) as [[[r|] s] j]; [done|]. simpl.
  destruct (check_bucket _ _ _ ck j) as [[[r|] m] k]; [done|]. simpl.
  by destruct (check_bucket _ _ _ ck k) as [[[r|] h] n].
Qed.

Lemma check_tokens_set_concurrent est l c ck i :
  CheckTokens est (set_concurrent l c) ck i =
  let '((r, l'), j) := CheckTokens est l ck i in ((r, set_concurrent l' c), j).
Proof.
  unfold CheckTokens, tbind. simpl.
  destruct (check_tokens _ _ _ _ _ ck i) as [[[r|] s] j]; [done|]. simpl.
  by destruct (check_tokens _ _ _ _ _ ck j) as [[[r|] m] k].
Qed.

(** The decision of [CheckLimits] depends neither on the concurrency
    slots in use nor on the estimated cost: with every slot taken, and for a
    request of any cost, it returns the same result. *)
Theorem check_limits_ignores_concurrency {S} `{Backend S} (cfg : Config S) m id l c est cost cost' model ck i :
  reachable cfg m -> rateLimiters m !! id = Some l ->
  fst (fst (CheckLimits id est cost model (set_limiter m id (set_concurrent l c)) ck i)) =
  fst (fst (CheckLimits id est cost' model m ck i)).
Proof.
  intros Hr Hl. pose proof (manager_reachable_inv cfg m Hr) as Hm.
  assert (Hm' : minv cfg (set_limiter m id (set_concurrent l c)))
    by (eapply only_at_minv; [by apply only_at_set_limiter; eauto|done]).
  unfold CheckLimits, tbind.
  rewrite (get_limiter cfg _ id ck i Hm'), (get_tracker cfg _ id Hm'), (get_limiter cfg m id ck i Hm),
    (get_tracker cfg m id Hm), Hl. simpl. rewrite lookup_insert_eq.
  unfold check_rates, tbind. rewrite check_request_set_concurrent.
  destruct (CheckRequest l ck i) as [[r l1] j1]. destruct (Limiter.Allowed r); [|done].
  rewrite check_tokens_set_concurrent.
  destruct (CheckTokens est l1 ck j1) as [[r2 l2] j2]. destruct (Limiter.Allowed r2); [|done].
  simpl. unfold check_budget, tbind. destruct (budgets m !! id) as [t|]; [|done].
  destruct (Check t ck j2) as [[st t'] k].
  by destruct (BudgetTracker.Allowed st); [destruct (AlertTriggered st)|].
Qed.

Lemma check_limits_ignores_concurrency_witness :
  let b := @memory_backend some_range in
  let full := Some (mkConcurrentLimiter 1 1) in
  exists l, rateLimiters demo_manager !! "a" = Some l /\
    fst (fst (CheckLimits "a" 0 (of_int 1000000) "gpt-4" (set_limiter demo_manager "a" (set_concurrent l full))
      demo_clock 0%nat)) = all_passed.
Proof.
  intros b full.
  assert (R : reachable (HB := b) demo_config demo_manager) by apply (reach_new demo_config some_range).
  destruct (rateLimiters demo_manager !! "a") as [l|] eqn:E; [|vm_compute in E; discriminate E].
  exists l. split; [reflexivity|].
  rewrite (check_limits_ignores_concurrency demo_config demo_manager "a" l full 0 _ fzero "gpt-4"
    demo_clock 0%nat R E).
  vm_compute. reflexivity.
Defined.
