(* ===== verification/GoValue.v ===== *)
(** * Dynamic Go values and strings

    What the policy code uses of [interface{}], [reflect] and [strings]: a
    universe of dynamic values with their run-time type, [reflect.DeepEqual],
    lookup of struct fields by name, and the string functions.  Slices of
    different element types have different type names, so a nil and an empty
    slice of one type need not be told apart here: no comparison in the
    program meets two slices of the same type. *)

From Stdlib Require Import ZArith Lia Ascii Bool.
From stdpp Require Import base option list strings.
From S2P Require Import Prelude Float64.
Local Open Scope string_scope.
Local Open Scope Z_scope.

(** The integer types a type switch distinguishes. *)
Inductive IntKind :=
| KInt | KInt8 | KInt16 | KInt32 | KInt64
| KUint | KUint8 | KUint16 | KUint32 | KUint64.

#[export] Instance IntKind_eq_dec : EqDecision IntKind.
Proof. solve_decision. Defined.

(** A [float32] is carried by its exact value. *)
Inductive GoValue :=
| VNil
| VBool (b : bool)
| VInt (k : IntKind) (z : Z)
| VFloat64 (f : float64)
| VFloat32 (f : float64)
| VString (s : string)
| VDuration (d : Duration)
| VSlice (ty : string) (l : list GoValue)
| VMap (ty : string) (m : list (string * GoValue))
| VPtr (ty : string) (o : option GoValue)
| VStruct (ty : string) (fields : list (string * GoValue)).

(** [reflect.Kind], as far as the code asks. *)
Inductive Kind := KInvalid | KScalar | KSlice | KMap | KPtr | KStruct.

Definition kind_of (v : GoValue) : Kind :=
  match v with
  | VNil => KInvalid
  | VSlice _ _ => KSlice
  | VMap _ _ => KMap
  | VPtr _ _ => KPtr
  | VStruct _ _ => KStruct
  | _ => KScalar
  end.

Fixpoint assoc {A} (k : string) (l : list (string * A)) : option A :=
  match l with
  | [] => None
  | (k', v) :: l => if String.eqb k k' then Some v else assoc k l
  end.

(** [reflect.DeepEqual] *)
Fixpoint DeepEqual (x y : GoValue) {struct x} : bool :=
  let fix all2 (l1 l2 : list GoValue) : bool :=
    match l1, l2 with
    | [], [] => true
    | a :: l1, b :: l2 => DeepEqual a b && all2 l1 l2
    | _, _ => false
    end in
  let fix fields2 (l1 l2 : list (string * GoValue)) : bool :=
    match l1, l2 with
    | [], [] => true
    | (_, a) :: l1, (_, b) :: l2 => DeepEqual a b && fields2 l1 l2
    | _, _ => false
    end in
  let fix entries2 (l1 m2 : list (string * GoValue)) : bool :=
    match l1 with
    | [] => true
    | (k, a) :: l1 =>
        match assoc k m2 with Some b => DeepEqual a b && entries2 l1 m2 | None => false end
    end in
  match x, y with
  | VNil, VNil => true
  | VBool a, VBool b => Bool.eqb a b
  | VInt k a, VInt k' b => bool_decide (k = k') && (a =? b)
  | VFloat64 a, VFloat64 b => feq a b
  | VFloat32 a, VFloat32 b => feq a b
  | VString a, VString b => String.eqb a b
  | VDuration a, VDuration b => a =? b
  | VSlice t a, VSlice t' b => String.eqb t t' && all2 a b
  | VMap t a, VMap t' b =>
      String.eqb t t' && (length a =? length b)%nat && entries2 a b
  | VPtr t None, VPtr t' None => String.eqb t t'
  | VPtr t (Some a), VPtr t' (Some b) => String.eqb t t' && DeepEqual a b
  | VStruct t a, VStruct t' b => String.eqb t t' && fields2 a b
  | _, _ => false
  end.

(** ** Strings *)

(** [strings.Split(s, ".")] *)
Fixpoint split_dot (s : string) : list string :=
  match s with
  | EmptyString => [EmptyString]
  | String c s =>
      if Ascii.eqb c "."%char then EmptyString :: split_dot s
      else match split_dot s with
           | [] => [String c EmptyString]
           | w :: ws => String c w :: ws
           end
  end.

(** [strings.HasPrefix(s, p)] *)
Fixpoint HasPrefix (s p : string) : bool :=
  match p, s with
  | EmptyString, _ => true
  | String a p, String b s => Ascii.eqb a b && HasPrefix s p
  | String _ _, EmptyString => false
  end.

(** [strings.Contains(s, p)] *)
Fixpoint Contains (s p : string) : bool :=
  HasPrefix s p || match s with EmptyString => false | String _ s => Contains s p end.

(** [strings.HasSuffix(s, p)] *)
Fixpoint HasSuffix (s p : string) : bool :=
  String.eqb s p || match s with EmptyString => false | String _ s => HasSuffix s p end.

Definition lower (c : ascii) : ascii :=
  let n := Z.of_nat (nat_of_ascii c) in
  if (65 <=? n) && (n <=? 90) then ascii_of_nat (Z.to_nat (n + 32)) else c.

(** Unicode simple folding of a UTF-8 string, as far as it meets ASCII: A-Z,
    the long s (U+017F) and the Kelvin sign (U+212A). *)
Fixpoint fold_case (s : string) : string :=
  match s with
  | EmptyString => EmptyString
  | String a ((String b ((String c s'') as s1)) as s0) =>
      if Ascii.eqb a "197" && Ascii.eqb b "191" then String "s" (fold_case s1)
      else if Ascii.eqb a "226" && Ascii.eqb b "132" && Ascii.eqb c "170"
      then String "k" (fold_case s'')
      else String (lower a) (fold_case s0)
  | String a ((String b s'') as s0) =>
      if Ascii.eqb a "197" && Ascii.eqb b "191" then String "s" (fold_case s'')
      else String (lower a) (fold_case s0)
  | String a s0 => String (lower a) (fold_case s0)
  end.

(** [strings.EqualFold(s, t)] for an ASCII [s], as Go field names are. *)
Definition EqualFold (s t : string) : bool := String.eqb (fold_case s) (fold_case t).

(** [v.FieldByNameFunc(match)] on the fields of a struct: the one field whose
    name matches; no field if none or several match. *)
Definition FieldByNameFunc (m : string -> bool) (fields : list (string * GoValue)) : option GoValue :=
  match filter (fun f => m (fst f) = true) fields with
  | [(_, v)] => Some v
  | _ => None
  end.

(** ** The parts of the standard library kept abstract

    Compiled regular expressions, and the formatting of values ([%v]) and of
    quoted strings ([%q]). *)
Class GoStd : Type := {
  Regexp : Type;
  regexp_Compile : string -> result string Regexp;
  MatchString : Regexp -> string -> bool;
  ReplaceAllString : Regexp -> string -> string -> string;
  FindAllCount : Regexp -> string -> Z;
  fmt_Sprint : GoValue -> string;
  strconv_Quote : string -> string;
}.

Lemma HasPrefix_app s p : HasPrefix s p = true <-> exists t, s = p +:+ t.
Proof.
  revert s. induction p as [|a p IH]; intros s; simpl.
  - split; [|by destruct s]. intros _. exists s. by rewrite string_app_nil_l.
  - destruct s as [|b s]; simpl.
    + split; [done|]. intros [t Ht]. by rewrite string_app_cons in Ht.
    + rewrite andb_true_iff, IH. destruct (Ascii.eqb_spec a b) as [->|Hne].
      * split.
        -- intros [_ [t ->]]. exists t. by rewrite string_app_cons.
        -- intros [t Ht]. rewrite string_app_cons in Ht. injection Ht as ->. eauto.
      * split; [by intros [? _]|]. intros [t Ht]. rewrite string_app_cons in Ht. congruence.
Qed.
