(* ===== verification/Ast.v ===== *)
(** * The policy syntax tree ([pkg/mpl/ast])

    Policies, rules, conditions, actions and values as the parser builds
    them.  Source locations and embedded test cases carry no behaviour and are
    left out.  Enumerations are Go string types: any string may occur. *)

From Stdlib Require Import ZArith Lia.
From stdpp Require Import base option list strings gmap.
From S2P Require Import Prelude Float64 GoValue.
Local Open Scope string_scope.
Local Open Scope Z_scope.

Definition ValueTypeString : string := "string".
Definition ValueTypeNumber : string := "number".
Definition ValueTypeBoolean : string := "boolean".
Definition ValueTypeArray : string := "array".
Definition ValueTypeObject : string := "object".
Definition ValueTypeVariable : string := "variable".
Definition ValueTypeNull : string := "null".

Record ValueNode := mkValueNode {
  vn_Type : string;
  vn_Value : GoValue;
  VariableName : string;
}.

Definition IsLiteral (v : ValueNode) : bool := negb (String.eqb (vn_Type v) ValueTypeVariable).
Definition IsVariable (v : ValueNode) : bool := String.eqb (vn_Type v) ValueTypeVariable.

Definition ConditionTypeSimple : string := "simple".
Definition ConditionTypeAll : string := "all".
Definition ConditionTypeAny : string := "any".
Definition ConditionTypeNot : string := "not".
Definition ConditionTypeFunction : string := "function".

Definition OperatorEqual : string := "==".
Definition OperatorNotEqual : string := "!=".
Definition OperatorLessThan : string := "<".
Definition OperatorGreaterThan : string := ">".
Definition OperatorLessEqual : string := "<=".
Definition OperatorGreaterEqual : string := ">=".
Definition OperatorContains : string := "contains".
Definition OperatorMatches : string := "matches".
Definition OperatorStartsWith : string := "starts_with".
Definition OperatorEndsWith : string := "ends_with".
Definition OperatorIn : string := "in".
Definition OperatorNotIn : string := "not_in".

(** A nil pointer is [None]: a missing value, or a nil child. *)
Inductive ConditionNode := mkConditionNode {
  cn_Type : string;
  Field : string;
  Operator : string;
  cn_Value : option ValueNode;
  Function : string;
  Args : list ValueNode;
  Children : list (option ConditionNode);
}.

Definition IsSimple (c : ConditionNode) : bool := String.eqb (cn_Type c) ConditionTypeSimple.
Definition IsLogical (c : ConditionNode) : bool :=
  String.eqb (cn_Type c) ConditionTypeAll || String.eqb (cn_Type c) ConditionTypeAny
  || String.eqb (cn_Type c) ConditionTypeNot.
Definition IsFunction (c : ConditionNode) : bool := String.eqb (cn_Type c) ConditionTypeFunction.

Definition ActionTypeAllow : string := "allow".
Definition ActionTypeDeny : string := "deny".
Definition ActionTypeLog : string := "log".
Definition ActionTypeRedact : string := "redact".
Definition ActionTypeModify : string := "modify".
Definition ActionTypeRoute : string := "route".
Definition ActionTypeAlert : string := "alert".
Definition ActionTypeTag : string := "tag".
Definition ActionTypeRateLimit : string := "rate_limit".
Definition ActionTypeBudget : string := "budget".

Record Action := mkAction {
  a_Type : string;
  Parameters : gmap string ValueNode;
}.

Definition GetParameter (a : Action) (key : string) : option ValueNode := Parameters a !! key.
Definition HasParameter (a : Action) (key : string) : bool := bool_decide (is_Some (Parameters a !! key)).

Definition GetStringParameter (a : Action) (key : string) : string :=
  match GetParameter a key with
  | Some v =>
      if String.eqb (vn_Type v) ValueTypeString then
        match vn_Value v with VString s => s | _ => "" end
      else ""
  | None => ""
  end.

Definition GetBoolParameter (a : Action) (key : string) : bool :=
  match GetParameter a key with
  | Some v =>
      if String.eqb (vn_Type v) ValueTypeBoolean then
        match vn_Value v with VBool b => b | _ => false end
      else false
  | None => false
  end.

Definition GetNumberParameter (a : Action) (key : string) : float64 :=
  match GetParameter a key with
  | Some v =>
      if String.eqb (vn_Type v) ValueTypeNumber then
        match vn_Value v with VFloat64 f => f | _ => fzero end
      else fzero
  | None => fzero
  end.

Record Rule := mkRule {
  r_Name : string;
  r_Description : string;
  Enabled : bool;
  Conditions : option ConditionNode;
  Actions : list Action;
  r_Priority : Z;
}.

Definition IsEnabled (r : Rule) : bool := Enabled r.
Definition HasConditions (r : Rule) : bool := bool_decide (is_Some (Conditions r)).
Definition HasActions (r : Rule) : bool := (0 <? length (Actions r))%nat.

Definition GetActionsByType (r : Rule) (actionType : string) : list Action :=
  filter (fun a => a_Type a = actionType) (Actions r).
Definition HasActionType (r : Rule) (actionType : string) : bool :=
  existsb (fun a => String.eqb (a_Type a) actionType) (Actions r).

Record VariableDef := mkVariableDef {
  v_Name : string;
  v_Value : option ValueNode;
  v_Type : string;
}.

Record Policy := mkPolicy {
  MPLVersion : string;
  p_Name : string;
  Version : string;
  p_Description : string;
  Author : string;
  Created : Time;
  Updated : Time;
  p_Tags : list string;
  Variables : gmap string VariableDef;
  Rules : list Rule;
  Includes : list string;
  SourceFile : string;
}.

Definition GetVariable (p : Policy) (name : string) : option VariableDef := Variables p !! name.
Definition HasVariable (p : Policy) (name : string) : bool := bool_decide (is_Some (Variables p !! name)).

Definition GetRule (p : Policy) (name : string) : option Rule :=
  head (filter (fun r => r_Name r = name) (Rules p)).
Definition HasRule (p : Policy) (name : string) : bool := bool_decide (is_Some (GetRule p name)).

Definition EnabledRules (p : Policy) : list Rule := filter (fun r => IsEnabled r = true) (Rules p).
Definition RuleCount (p : Policy) : Z := Z.of_nat (length (Rules p)).
Definition EnabledRuleCount (p : Policy) : Z := Z.of_nat (length (EnabledRules p)).

(** The policy with another list of rules. *)
Definition with_rules (p : Policy) (rules : list Rule) : Policy :=
  mkPolicy (MPLVersion p) (p_Name p) (Version p) (p_Description p) (Author p) (Created p) (Updated p)
    (p_Tags p) (Variables p) rules (Includes p) (SourceFile p).
