(* ===== verification/PolicyContext.v ===== *)
(** * Evaluation context ([pkg/policy/engine/types.go], [pkg/processing/types.go])

    The enriched request and response a policy is evaluated against, the
    context the evaluation accumulates into, and the decision it produces.
    Components of a request that only reflection can reach are dynamic
    values. *)

From Stdlib Require Import ZArith Lia.
From stdpp Require Import base option list strings gmap.
From S2P Require Import Prelude Float64 GoValue Ast.
Local Open Scope string_scope.
Local Open Scope Z_scope.

(** ** Requests and responses *)

Record ChatCompletionRequest := mkChatCompletionRequest {
  cr_Model : string;
  cr_Messages : GoValue;
  cr_Temperature : option float64;
  cr_MaxTokens : option Z;
  cr_TopP : option float64;
  cr_N : option Z;
  cr_Stream : bool;
  cr_Stop : list string;
  cr_PresencePenalty : option float64;
  cr_FrequencyPenalty : option float64;
  cr_User : string;
  cr_Tools : GoValue;
  cr_ToolChoice : GoValue;
  cr_ResponseFormat : GoValue;
  cr_Seed : option Z;
}.

Record TokenEstimate := mkTokenEstimate {
  te_PromptTokens : Z;
  te_EstimatedCompletionTokens : Z;
  te_TotalTokens : Z;
  te_SystemPromptTokens : Z;
  te_MessageTokens : Z;
  te_ToolTokens : Z;
  te_OverheadTokens : Z;
  te_Model : string;
  te_Confidence : float64;
}.

Record CostEstimate := mkCostEstimate {
  ce_PromptCost : float64;
  ce_CompletionCost : float64;
  ce_TotalCost : float64;
  ce_Model : string;
  ce_Provider : string;
  ce_PricingTier : string;
  ce_Currency : string;
}.

Record TokenUsage := mkTokenUsage {
  tu_PromptTokens : Z;
  tu_CompletionTokens : Z;
  tu_TotalTokens : Z;
  tu_CachedTokens : Z;
}.

Record PIIDetection := mkPIIDetection {
  HasPII : bool;
  PIITypes : list string;
  PIICount : Z;
  pii_Locations : GoValue;
}.

Record PromptInjection := mkPromptInjection {
  HasPromptInjection : bool;
  InjectionType : string;
  pi_Confidence : float64;
  MatchedPatterns : list string;
}.

Record ContentAnalysis := mkContentAnalysis {
  ca_PIIDetection : option PIIDetection;
  ca_SensitiveContent : GoValue;
  ca_PromptInjection : option PromptInjection;
  ca_Sentiment : GoValue;
  ca_Language : string;
  ca_WordCount : Z;
  ca_SentenceCount : Z;
  ca_AverageWordLength : float64;
}.

Record ConversationContext := mkConversationContext {
  TurnCount : Z;
  MessageCount : Z;
  SystemPrompts : list string;
  ContextWindowUsage : Z;
  ContextWindowPercent : float64;
  HasConversationHistory : bool;
  AverageMessageLength : Z;
}.

Record EnrichedRequest := mkEnrichedRequest {
  er_RequestID : string;
  OriginalRequest : option ChatCompletionRequest;
  er_TokenEstimate : option TokenEstimate;
  er_CostEstimate : option CostEstimate;
  er_ContentAnalysis : option ContentAnalysis;
  er_ConversationContext : option ConversationContext;
  ModelFamily : string;
  PricingTier : string;
  EstimatedLatency : Duration;
  ComplexityScore : Z;
  RiskScore : Z;
  er_ProcessingDuration : Duration;
}.

Record CompletionResponse := mkCompletionResponse {
  cp_ID : string;
  cp_Model : string;
  cp_Content : string;
  cp_FinishReason : string;
  cp_Usage : GoValue;
  cp_ToolCalls : GoValue;
  cp_Created : Z;
  cp_Metadata : GoValue;
}.

Record EnrichedResponse := mkEnrichedResponse {
  es_RequestID : string;
  OriginalResponse : option CompletionResponse;
  es_TokenUsage : option TokenUsage;
  es_CostEstimate : option CostEstimate;
  es_ContentAnalysis : option ContentAnalysis;
  FinishReasonAnalysis : GoValue;
  TokenEfficiency : float64;
  LatencyBreakdown : GoValue;
  QualityMetrics : GoValue;
  es_ProcessingDuration : Duration;
}.

(** ** Their reflection: struct values with the Go field names *)

Definition vint (z : Z) : GoValue := VInt KInt z.
Definition vstrings (l : list string) : GoValue := VSlice "[]string" (VString <$> l).
Definition vptr {A} (ty : string) (f : A -> GoValue) (o : option A) : GoValue := VPtr ty (f <$> o).

Definition reflect_ChatCompletionRequest (r : ChatCompletionRequest) : GoValue :=
  VStruct "types.ChatCompletionRequest" [
    ("Model", VString (cr_Model r)); ("Messages", cr_Messages r);
    ("Temperature", vptr "*float64" VFloat64 (cr_Temperature r));
    ("MaxTokens", vptr "*int" vint (cr_MaxTokens r));
    ("TopP", vptr "*float64" VFloat64 (cr_TopP r)); ("N", vptr "*int" vint (cr_N r));
    ("Stream", VBool (cr_Stream r)); ("Stop", vstrings (cr_Stop r));
    ("PresencePenalty", vptr "*float64" VFloat64 (cr_PresencePenalty r));
    ("FrequencyPenalty", vptr "*float64" VFloat64 (cr_FrequencyPenalty r));
    ("User", VString (cr_User r)); ("Tools", cr_Tools r); ("ToolChoice", cr_ToolChoice r);
    ("ResponseFormat", cr_ResponseFormat r); ("Seed", vptr "*int" vint (cr_Seed r)) ].

Definition reflect_TokenEstimate (t : TokenEstimate) : GoValue :=
  VStruct "processing.TokenEstimate" [
    ("PromptTokens", vint (te_PromptTokens t));
    ("EstimatedCompletionTokens", vint (te_EstimatedCompletionTokens t));
    ("TotalTokens", vint (te_TotalTokens t)); ("SystemPromptTokens", vint (te_SystemPromptTokens t));
    ("MessageTokens", vint (te_MessageTokens t)); ("ToolTokens", vint (te_ToolTokens t));
    ("OverheadTokens", vint (te_OverheadTokens t)); ("Model", VString (te_Model t));
    ("Confidence", VFloat64 (te_Confidence t)) ].

Definition reflect_CostEstimate (c : CostEstimate) : GoValue :=
  VStruct "costs.CostEstimate" [
    ("PromptCost", VFloat64 (ce_PromptCost c)); ("CompletionCost", VFloat64 (ce_CompletionCost c));
    ("TotalCost", VFloat64 (ce_TotalCost c)); ("Model", VString (ce_Model c));
    ("Provider", VString (ce_Provider c)); ("PricingTier", VString (ce_PricingTier c));
    ("Currency", VString (ce_Currency c)) ].

Definition reflect_TokenUsage (t : TokenUsage) : GoValue :=
  VStruct "costs.TokenUsage" [
    ("PromptTokens", vint (tu_PromptTokens t)); ("CompletionTokens", vint (tu_CompletionTokens t));
    ("TotalTokens", vint (tu_TotalTokens t)); ("CachedTokens", vint (tu_CachedTokens t)) ].

Definition reflect_PIIDetection (p : PIIDetection) : GoValue :=
  VStruct "content.PIIDetection" [
    ("HasPII", VBool (HasPII p)); ("PIITypes", vstrings (PIITypes p));
    ("PIICount", vint (PIICount p)); ("Locations", pii_Locations p) ].

Definition reflect_PromptInjection (p : PromptInjection) : GoValue :=
  VStruct "content.PromptInjection" [
    ("HasPromptInjection", VBool (HasPromptInjection p)); ("InjectionType", VString (InjectionType p));
    ("Confidence", VFloat64 (pi_Confidence p)); ("MatchedPatterns", vstrings (MatchedPatterns p)) ].

Definition reflect_ContentAnalysis (c : ContentAnalysis) : GoValue :=
  VStruct "content.ContentAnalysis" [
    ("PIIDetection", vptr "*content.PIIDetection" reflect_PIIDetection (ca_PIIDetection c));
    ("SensitiveContent", ca_SensitiveContent c);
    ("PromptInjection", vptr "*content.PromptInjection" reflect_PromptInjection (ca_PromptInjection c));
    ("Sentiment", ca_Sentiment c); ("Language", VString (ca_Language c));
    ("WordCount", vint (ca_WordCount c)); ("SentenceCount", vint (ca_SentenceCount c));
    ("AverageWordLength", VFloat64 (ca_AverageWordLength c)) ].

Definition reflect_ConversationContext (c : ConversationContext) : GoValue :=
  VStruct "conversation.ConversationContext" [
    ("TurnCount", vint (TurnCount c)); ("MessageCount", vint (MessageCount c));
    ("SystemPrompts", vstrings (SystemPrompts c)); ("ContextWindowUsage", vint (ContextWindowUsage c));
    ("ContextWindowPercent", VFloat64 (ContextWindowPercent c));
    ("HasConversationHistory", VBool (HasConversationHistory c));
    ("AverageMessageLength", vint (AverageMessageLength c)) ].

Definition reflect_EnrichedRequest (r : EnrichedRequest) : GoValue :=
  VStruct "processing.EnrichedRequest" [
    ("RequestID", VString (er_RequestID r));
    ("OriginalRequest", vptr "*types.ChatCompletionRequest" reflect_ChatCompletionRequest (OriginalRequest r));
    ("TokenEstimate", vptr "*processing.TokenEstimate" reflect_TokenEstimate (er_TokenEstimate r));
    ("CostEstimate", vptr "*costs.CostEstimate" reflect_CostEstimate (er_CostEstimate r));
    ("ContentAnalysis", vptr "*content.ContentAnalysis" reflect_ContentAnalysis (er_ContentAnalysis r));
    ("ConversationContext", vptr "*conversation.ConversationContext" reflect_ConversationContext
       (er_ConversationContext r));
    ("ModelFamily", VString (ModelFamily r)); ("PricingTier", VString (PricingTier r));
    ("EstimatedLatency", VDuration (EstimatedLatency r)); ("ComplexityScore", vint (ComplexityScore r));
    ("RiskScore", vint (RiskScore r)); ("ProcessingDuration", VDuration (er_ProcessingDuration r)) ].

Definition reflect_CompletionResponse (r : CompletionResponse) : GoValue :=
  VStruct "providers.CompletionResponse" [
    ("ID", VString (cp_ID r)); ("Model", VString (cp_Model r)); ("Content", VString (cp_Content r));
    ("FinishReason", VString (cp_FinishReason r)); ("Usage", cp_Usage r); ("ToolCalls", cp_ToolCalls r);
    ("Created", VInt KInt64 (cp_Created r)); ("Metadata", cp_Metadata r) ].

Definition reflect_EnrichedResponse (r : EnrichedResponse) : GoValue :=
  VStruct "processing.EnrichedResponse" [
    ("RequestID", VString (es_RequestID r));
    ("OriginalResponse", vptr "*providers.CompletionResponse" reflect_CompletionResponse (OriginalResponse r));
    ("TokenUsage", vptr "*costs.TokenUsage" reflect_TokenUsage (es_TokenUsage r));
    ("CostEstimate", vptr "*costs.CostEstimate" reflect_CostEstimate (es_CostEstimate r));
    ("ContentAnalysis", vptr "*content.ContentAnalysis" reflect_ContentAnalysis (es_ContentAnalysis r));
    ("FinishReasonAnalysis", FinishReasonAnalysis r); ("TokenEfficiency", VFloat64 (TokenEfficiency r));
    ("LatencyBreakdown", LatencyBreakdown r); ("QualityMetrics", QualityMetrics r);
    ("ProcessingDuration", VDuration (es_ProcessingDuration r)) ].

(** ** Errors *)

(** Failures of an operator, of a condition and of an action. *)
Inductive OpError :=
| ErrUnknownOperator (op : string)
| ErrActualNotNumber
| ErrExpectedNotNumber
| ErrPatternNotString
| ErrInvalidRegexp (msg : string)
| ErrNotSlice.

Inductive CondError :=
| ErrUnknownConditionType (ty : string)
| FieldNotFoundError (field : string)
| ErrOperator (op : string) (cause : OpError)
| ErrContext
| ErrNotArity (n : Z)
| ErrUnknownFunction (fn : string).

Inductive ActError :=
| ErrUnknownAction (ty : string)
| ErrRequired (parameter action : string).

Inductive EvalError :=
| TimeoutError (policy rule : string) (timeout : Duration)
| ConditionError (policy rule : string) (cause : CondError)
| ActionError (policy rule actionType : string) (cause : option ActError).

(** ** Results of the evaluation *)

Definition ActionAllow : string := "allow".
Definition ActionBlock : string := "block".
Definition ActionTransform : string := "transform".
Definition ActionRoute : string := "route".

Record ActionResult := mkActionResult {
  ar_ActionType : string;
  Success : bool;
  ar_Error : option ActError;
  Details : list (string * GoValue);
}.

Record MatchedRule := mkMatchedRule {
  PolicyID : string;
  PolicyName : string;
  RuleID : string;
  RuleName : string;
  ConditionResult : bool;
  ActionsExecuted : list ActionResult;
  mr_EvaluationTime : Duration;
  mr_Error : option CondError;
}.

Record Transformation := mkTransformation {
  tr_Field : string;
  tr_Value : GoValue;
  tr_Operation : string;
}.

Record Redaction := mkRedaction {
  rd_Field : string;
  Strategy : string;
  Pattern : string;
  Replacement : string;
  MatchCount : Z;
}.

Record RoutingTarget := mkRoutingTarget {
  rt_Provider : string;
  rt_Model : string;
  Fallback : list string;
}.

Record Notification := mkNotification {
  n_Type : string;
  Destination : string;
  Payload : list (string * GoValue);
  Async : bool;
}.

Record TraceStep := mkTraceStep {
  StepType : string;
  ts_PolicyID : string;
  ts_RuleID : string;
  ts_Details : string;
  ts_Timestamp : Time;
  ts_Duration : Duration;
}.

Record EvaluationTrace := mkEvaluationTrace {
  Steps : list TraceStep;
  TotalTime : Duration;
}.

Record EvaluationContext := mkEvaluationContext {
  RequestID : string;
  Request : option EnrichedRequest;
  Response : option EnrichedResponse;
  MatchedRules : list MatchedRule;
  Tags : gmap string string;
  Transformations : list Transformation;
  Redactions : list Redaction;
  Notifications : list Notification;
  Routing : option RoutingTarget;
  BlockReason : string;
  BlockStatusCode : Z;
  Trace : option EvaluationTrace;
  StartTime : Time;
  Stopped : bool;
}.

Record PolicyDecision := mkPolicyDecision {
  d_Action : string;
  d_MatchedRules : list MatchedRule;
  d_BlockReason : string;
  d_BlockStatusCode : Z;
  d_Transformations : list Transformation;
  d_Redactions : list Redaction;
  d_RoutingTarget : option RoutingTarget;
  d_Tags : gmap string string;
  d_Notifications : list Notification;
  d_EvaluationTime : Duration;
  d_Trace : option EvaluationTrace;
}.

(** ** Operations of the context *)

Definition AddTag (key value : string) (c : EvaluationContext) : EvaluationContext :=
  mkEvaluationContext (RequestID c) (Request c) (Response c) (MatchedRules c) (<[key := value]> (Tags c))
    (Transformations c) (Redactions c) (Notifications c) (Routing c) (BlockReason c) (BlockStatusCode c)
    (Trace c) (StartTime c) (Stopped c).

Definition AddTransformation (field operation : string) (value : GoValue) (c : EvaluationContext)
  : EvaluationContext :=
  mkEvaluationContext (RequestID c) (Request c) (Response c) (MatchedRules c) (Tags c)
    (Transformations c ++ [mkTransformation field value operation]) (Redactions c) (Notifications c)
    (Routing c) (BlockReason c) (BlockStatusCode c) (Trace c) (StartTime c) (Stopped c).

Definition AddRedaction (field strategy pattern replacement : string) (matchCount : Z)
    (c : EvaluationContext) : EvaluationContext :=
  mkEvaluationContext (RequestID c) (Request c) (Response c) (MatchedRules c) (Tags c)
    (Transformations c) (Redactions c ++ [mkRedaction field strategy pattern replacement matchCount])
    (Notifications c) (Routing c) (BlockReason c) (BlockStatusCode c) (Trace c) (StartTime c) (Stopped c).

Definition AddNotification (notifType destination : string) (payload : list (string * GoValue))
    (async : bool) (c : EvaluationContext) : EvaluationContext :=
  mkEvaluationContext (RequestID c) (Request c) (Response c) (MatchedRules c) (Tags c)
    (Transformations c) (Redactions c)
    (Notifications c ++ [mkNotification notifType destination payload async])
    (Routing c) (BlockReason c) (BlockStatusCode c) (Trace c) (StartTime c) (Stopped c).

Definition SetRouting (provider model : string) (fallback : list string) (c : EvaluationContext)
  : EvaluationContext :=
  mkEvaluationContext (RequestID c) (Request c) (Response c) (MatchedRules c) (Tags c)
    (Transformations c) (Redactions c) (Notifications c) (Some (mkRoutingTarget provider model fallback))
    (BlockReason c) (BlockStatusCode c) (Trace c) (StartTime c) (Stopped c).

Definition SetBlock (reason : string) (statusCode : Z) (c : EvaluationContext) : EvaluationContext :=
  mkEvaluationContext (RequestID c) (Request c) (Response c) (MatchedRules c) (Tags c)
    (Transformations c) (Redactions c) (Notifications c) (Routing c) reason statusCode
    (Trace c) (StartTime c) true.

Definition Stop (c : EvaluationContext) : EvaluationContext :=
  mkEvaluationContext (RequestID c) (Request c) (Response c) (MatchedRules c) (Tags c)
    (Transformations c) (Redactions c) (Notifications c) (Routing c) (BlockReason c) (BlockStatusCode c)
    (Trace c) (StartTime c) true.

(** [evalCtx.MatchedRules = append(evalCtx.MatchedRules, matched)] *)
Definition add_matched (m : MatchedRule) (c : EvaluationContext) : EvaluationContext :=
  mkEvaluationContext (RequestID c) (Request c) (Response c) (MatchedRules c ++ [m]) (Tags c)
    (Transformations c) (Redactions c) (Notifications c) (Routing c) (BlockReason c) (BlockStatusCode c)
    (Trace c) (StartTime c) (Stopped c).

Definition set_trace (t : option EvaluationTrace) (c : EvaluationContext) : EvaluationContext :=
  mkEvaluationContext (RequestID c) (Request c) (Response c) (MatchedRules c) (Tags c)
    (Transformations c) (Redactions c) (Notifications c) (Routing c) (BlockReason c) (BlockStatusCode c)
    t (StartTime c) (Stopped c).
