(* ===== verification/PolicyFields.v ===== *)
(** * Field extraction and operators ([pkg/policy/engine/field.go], [operators.go])

    How a simple condition reads its field and compares it.  The error of a
    failed extraction is only logged, so extraction returns an option. *)

From Stdlib Require Import ZArith Lia Ascii.
From stdpp Require Import base option list strings gmap.
From S2P Require Import Prelude Float64 GoValue Ast PolicyContext.
Local Open Scope string_scope.
Local Open Scope Z_scope.
Local Open Scope go_scope.

(** ** Fields *)

(** The loop that dereferences pointers. *)
Fixpoint deref (v : GoValue) : option GoValue :=
  match v with
  | VPtr _ (Some w) => deref w
  | VPtr _ None => None
  | _ => Some v
  end.

(** The loop over the remaining path: fields of pointer type are not
    dereferenced on the way. *)
Fixpoint traverse (v : GoValue) (fieldPath : list string) : option GoValue :=
  match fieldPath with
  | [] => Some v
  | fieldName :: rest =>
      match v with
      | VStruct _ fields =>
          match FieldByNameFunc (fun name => EqualFold name fieldName) fields with
          | Some f => traverse f rest
          | None => None
          end
      | _ => None
      end
  end.

Definition extractFieldReflection (obj : GoValue) (fieldPath : list string) : option GoValue :=
  match obj with
  | VNil => None
  | _ => match deref obj with Some v => traverse v fieldPath | None => None end
  end.

(** The five extractors of nested objects have one body: nil check, empty
    path check, reflection. *)
Definition extract_nested (fieldPath : list string) (obj : GoValue) : option GoValue :=
  match obj with
  | VNil => None
  | _ => match fieldPath with [] => None | _ => extractFieldReflection obj fieldPath end
  end.

Definition extractContentAnalysisField := extract_nested.
Definition extractConversationField := extract_nested.
Definition extractTokenEstimateField := extract_nested.
Definition extractCostEstimateField := extract_nested.
Definition extractTokenUsageField := extract_nested.

(** The outcome of a [switch]: handled, or fall through. *)
Definition switched (A : Type) := option A.

(** The switch on single-part request paths. *)
Definition request_scalar (name : string) (r : EnrichedRequest) : switched (option GoValue) :=
  if String.eqb name "request_id" then Some (Some (VString (er_RequestID r)))
  else if String.eqb name "model" then
    Some (match OriginalRequest r with Some o => Some (VString (cr_Model o)) | None => None end)
  else if String.eqb name "model_family" then Some (Some (VString (ModelFamily r)))
  else if String.eqb name "tokens" then
    Some (Some (match er_TokenEstimate r with Some t => vint (te_TotalTokens t) | None => vint 0 end))
  else if String.eqb name "prompt_tokens" then
    Some (Some (match er_TokenEstimate r with Some t => vint (te_PromptTokens t) | None => vint 0 end))
  else if String.eqb name "estimated_cost" then
    Some (Some (VFloat64 (match er_CostEstimate r with Some c => ce_TotalCost c | None => fzero end)))
  else if String.eqb name "risk_score" then Some (Some (vint (RiskScore r)))
  else if String.eqb name "complexity_score" then Some (Some (vint (ComplexityScore r)))
  else if String.eqb name "temperature" then
    Some (match OriginalRequest r with Some o => VFloat64 <$> cr_Temperature o | None => None end)
  else if String.eqb name "max_tokens" then
    Some (match OriginalRequest r with Some o => vint <$> cr_MaxTokens o | None => None end)
  else if String.eqb name "stream" then
    Some (Some (VBool (match OriginalRequest r with Some o => cr_Stream o | None => false end)))
  else None.

(** The switch on nested request paths. *)
Definition request_nested (name : string) (rest : list string) (r : EnrichedRequest)
  : switched (option GoValue) :=
  if String.eqb name "content_analysis" then
    Some (extractContentAnalysisField rest
      (vptr "*content.ContentAnalysis" reflect_ContentAnalysis (er_ContentAnalysis r)))
  else if String.eqb name "conversation_context" then
    Some (extractConversationField rest
      (vptr "*conversation.ConversationContext" reflect_ConversationContext (er_ConversationContext r)))
  else if String.eqb name "token_estimate" then
    Some (extractTokenEstimateField rest
      (vptr "*processing.TokenEstimate" reflect_TokenEstimate (er_TokenEstimate r)))
  else if String.eqb name "cost_estimate" then
    Some (extractCostEstimateField rest
      (vptr "*costs.CostEstimate" reflect_CostEstimate (er_CostEstimate r)))
  else None.

Definition extractRequestField (fieldPath : list string) (c : EvaluationContext) : option GoValue :=
  match Request c with
  | None => None
  | Some r =>
      let handled :=
        match fieldPath with
        | [name] => request_scalar name r
        | name :: rest => request_nested name rest r
        | [] => None
        end in
      match handled with
      | Some v => v
      | None =>
          extractFieldReflection (VPtr "*processing.EnrichedRequest" (Some (reflect_EnrichedRequest r))) fieldPath
      end
  end.

Definition response_scalar (name : string) (r : EnrichedResponse) : switched (option GoValue) :=
  if String.eqb name "request_id" then Some (Some (VString (es_RequestID r)))
  else if String.eqb name "tokens" then
    Some (Some (vint (match es_TokenUsage r with Some t => tu_TotalTokens t | None => 0 end)))
  else if String.eqb name "prompt_tokens" then
    Some (Some (vint (match es_TokenUsage r with Some t => tu_PromptTokens t | None => 0 end)))
  else if String.eqb name "completion_tokens" then
    Some (Some (vint (match es_TokenUsage r with Some t => tu_CompletionTokens t | None => 0 end)))
  else if String.eqb name "finish_reason" then
    Some (Some (VString (match OriginalResponse r with Some o => cp_FinishReason o | None => "" end)))
  else if String.eqb name "actual_cost" then
    Some (Some (VFloat64 (match es_CostEstimate r with Some c => ce_TotalCost c | None => fzero end)))
  else None.

Definition response_nested (name : string) (rest : list string) (r : EnrichedResponse)
  : switched (option GoValue) :=
  if String.eqb name "content_analysis" then
    Some (extractContentAnalysisField rest
      (vptr "*content.ContentAnalysis" reflect_ContentAnalysis (es_ContentAnalysis r)))
  else if String.eqb name "token_usage" then
    Some (extractTokenUsageField rest (vptr "*costs.TokenUsage" reflect_TokenUsage (es_TokenUsage r)))
  else if String.eqb name "cost_estimate" then
    Some (extractCostEstimateField rest
      (vptr "*costs.CostEstimate" reflect_CostEstimate (es_CostEstimate r)))
  else None.

Definition extractResponseField (fieldPath : list string) (c : EvaluationContext) : option GoValue :=
  match Response c with
  | None => None
  | Some r =>
      let handled :=
        match fieldPath with
        | [name] => response_scalar name r
        | name :: rest => response_nested name rest r
        | [] => None
        end in
      match handled with
      | Some v => v
      | None =>
          extractFieldReflection (VPtr "*processing.EnrichedResponse" (Some (reflect_EnrichedResponse r)))
            fieldPath
      end
  end.

Definition extractMetadataField (fieldPath : list string) (c : EvaluationContext) : option GoValue :=
  match fieldPath with
  | [] => None
  | name :: _ => if String.eqb name "request_id" then Some (VString (RequestID c)) else None
  end.

Definition extractField (fieldPath : string) (c : EvaluationContext) : option GoValue :=
  match split_dot fieldPath with
  | source :: ((_ :: _) as fieldName) =>
      if String.eqb source "request" then extractRequestField fieldName c
      else if String.eqb source "response" then extractResponseField fieldName c
      else if String.eqb source "metadata" then extractMetadataField fieldName c
      else None
  | _ => None
  end.

(** ** Operators *)

Definition convertToFloat64 (v : GoValue) : option float64 :=
  match v with
  | VFloat64 f => Some f
  | VFloat32 f => Some f
  | VInt _ z => Some (of_int z)
  | _ => None
  end.

Definition toNumeric (actual expected : GoValue) : result OpError (float64 * float64) :=
  match convertToFloat64 actual with
  | None => Err ErrActualNotNumber
  | Some a =>
      match convertToFloat64 expected with
      | None => Err ErrExpectedNotNumber
      | Some e => Ok (a, e)
      end
  end.

Definition evaluateEqual (actual expected : GoValue) : bool :=
  match actual, expected with
  | VNil, VNil => true
  | VNil, _ => false
  | _, VNil => false
  | _, _ =>
      match convertToFloat64 actual, convertToFloat64 expected with
      | Some a, Some e => feq a e
      | _, _ => DeepEqual actual expected
      end
  end.

(** The bodies of the four orderings. *)
Definition evaluate_numeric (cmp : float64 -> float64 -> bool) (actual expected : GoValue)
  : result OpError bool :=
  match toNumeric actual expected with
  | Ok (a, e) => Ok (cmp a e)
  | Err e => Err e
  end.

Definition evaluateLessThan := evaluate_numeric flt.
Definition evaluateGreaterThan := evaluate_numeric (fun a e => flt e a).
Definition evaluateLessEqual := evaluate_numeric fle.
Definition evaluateGreaterEqual := evaluate_numeric (fun a e => fle e a).

Section Operators.
Context `{GoStd}.

(** [toString] succeeds on every value: the fallback formats it. *)
Definition toString (v : GoValue) : string * bool :=
  match v with
  | VString s => (s, true)
  | _ => (fmt_Sprint v, true)
  end.

Definition containsElement (slice elem : GoValue) : result OpError bool :=
  match slice with
  | VSlice _ l => Ok (existsb (fun x => DeepEqual x elem) l)
  | _ => Err ErrNotSlice
  end.

Definition evaluateContains (actual expected : GoValue) : result OpError bool :=
  let '(actualStr, ok) := toString actual in
  if negb ok then containsElement actual expected
  else
    let '(expectedStr, ok) := toString expected in
    if negb ok then Err ErrPatternNotString else Ok (Contains actualStr expectedStr).

Definition evaluateMatches (actual expected : GoValue) : result OpError bool :=
  let '(actualStr, ok) := toString actual in
  if negb ok then Err ErrPatternNotString
  else match expected with
       | VString pattern =>
           match regexp_Compile pattern with
           | Ok re => Ok (MatchString re actualStr)
           | Err msg => Err (ErrInvalidRegexp msg)
           end
       | _ => Err ErrPatternNotString
       end.

Definition evaluateStartsWith (actual expected : GoValue) : result OpError bool :=
  let '(actualStr, ok) := toString actual in
  if negb ok then Err ErrPatternNotString
  else
    let '(expectedStr, ok) := toString expected in
    if negb ok then Err ErrPatternNotString else Ok (HasPrefix actualStr expectedStr).

Definition evaluateEndsWith (actual expected : GoValue) : result OpError bool :=
  let '(actualStr, ok) := toString actual in
  if negb ok then Err ErrPatternNotString
  else
    let '(expectedStr, ok) := toString expected in
    if negb ok then Err ErrPatternNotString else Ok (HasSuffix actualStr expectedStr).

Definition evaluateIn (actual expected : GoValue) : result OpError bool :=
  match expected with
  | VSlice _ l => Ok (existsb (fun elem => DeepEqual actual elem) l)
  | _ => Err ErrNotSlice
  end.

(** [!b, err]: negation of a result that may carry an error. *)
Definition negate (r : result OpError bool) : result OpError bool :=
  match r with Ok b => Ok (negb b) | Err e => Err e end.

Definition evaluateOperator (op : string) (actual expected : GoValue) : result OpError bool :=
  if String.eqb op OperatorEqual then Ok (evaluateEqual actual expected)
  else if String.eqb op OperatorNotEqual then negate (Ok (evaluateEqual actual expected))
  else if String.eqb op OperatorLessThan then evaluateLessThan actual expected
  else if String.eqb op OperatorGreaterThan then evaluateGreaterThan actual expected
  else if String.eqb op OperatorLessEqual then evaluateLessEqual actual expected
  else if String.eqb op OperatorGreaterEqual then evaluateGreaterEqual actual expected
  else if String.eqb op OperatorContains then evaluateContains actual expected
  else if String.eqb op OperatorMatches then evaluateMatches actual expected
  else if String.eqb op OperatorStartsWith then evaluateStartsWith actual expected
  else if String.eqb op OperatorEndsWith then evaluateEndsWith actual expected
  else if String.eqb op OperatorIn then evaluateIn actual expected
  else if String.eqb op OperatorNotIn then negate (evaluateIn actual expected)
  else Err (ErrUnknownOperator op).
End Operators.

(** ** Snake-case names and reflection *)

Fixpoint has_underscore (s : string) : bool :=
  match s with
  | EmptyString => false
  | String c s => Ascii.eqb c "_"%char || has_underscore s
  end.

Lemma lower_underscore c : Ascii.eqb (lower c) "_"%char = Ascii.eqb c "_"%char.
Proof. destruct c as [[] [] [] [] [] [] [] []]; vm_compute; reflexivity. Qed.

Lemma fold_case_underscore s : has_underscore (fold_case s) = has_underscore s.
Proof.
  assert (H : forall n s, (String.length s <= n)%nat -> has_underscore (fold_case s) = has_underscore s).
  { clear s. induction n as [|n IH]; intros [|a s] Hl; simpl in Hl; [done|lia|done|].
    assert (Hs : has_underscore (String (lower a) (fold_case s)) = has_underscore (String a s)).
    { cbn [has_underscore]. rewrite lower_underscore, IH by lia. done. }
    destruct s as [|b [|c s]]; [exact Hs| |].
    - cbn [fold_case]. destruct (Ascii.eqb_spec a "197"%char) as [->|]; [|exact Hs].
      destruct (Ascii.eqb_spec b "191"%char) as [->|]; [reflexivity|exact Hs].
    - cbn [fold_case]. destruct (Ascii.eqb_spec a "197"%char) as [->|]; cbn [andb].
      { destruct (Ascii.eqb_spec b "191"%char) as [->|]; cbn [andb].
        - change (has_underscore (String "s" (fold_case (String c s))) = has_underscore (String c s)).
          cbn [has_underscore]. rewrite IH by (simpl in *; lia). done.
        - exact Hs. }
      destruct (Ascii.eqb_spec a "226"%char) as [->|]; cbn [andb]; [|exact Hs].
      destruct (Ascii.eqb_spec b "132"%char) as [->|]; cbn [andb]; [|exact Hs].
      destruct (Ascii.eqb_spec c "170"%char) as [->|]; cbn [andb]; [|exact Hs].
      cbn [has_underscore]. rewrite IH by (simpl in *; lia). done. }
  by apply (H (String.length s)).
Qed.

Lemma equal_fold_underscore s t :
  EqualFold s t = true -> has_underscore s = has_underscore t.
Proof.
  unfold EqualFold. intros H%String.eqb_eq.
  rewrite <- (fold_case_underscore s), <- (fold_case_underscore t). by rewrite H.
Qed.

(** Go field names have no underscore, so a name with one matches none. *)
Lemma no_field_underscore name fields :
  has_underscore name = true -> Forall (fun f => has_underscore (fst f) = false) fields ->
  FieldByNameFunc (fun n => EqualFold n name) fields = None.
Proof.
  intros Hn Hf. unfold FieldByNameFunc.
  assert (E : filter (fun f : string * GoValue => EqualFold (fst f) name = true) fields = []).
  { induction Hf as [|f fields Hf _ IH]; [done|]. rewrite filter_cons, IH.
    case_decide as D; [|done]. apply equal_fold_underscore in D. congruence. }
  by rewrite E.
Qed.

Lemma traverse_underscore ty fields name rest :
  has_underscore name = true -> Forall (fun f => has_underscore (fst f) = false) fields ->
  traverse (VStruct ty fields) (name :: rest) = None.
Proof. intros Hn Hf. cbn [traverse]. by rewrite no_field_underscore. Qed.

(** An optional struct behind a pointer. *)
Lemma extract_nested_underscore {A} ty (reflect : A -> GoValue) (o : option A) name rest :
  has_underscore name = true ->
  (forall a, exists t fields, reflect a = VStruct t fields /\
     Forall (fun f => has_underscore (fst f) = false) fields) ->
  extract_nested (name :: rest) (vptr ty reflect o) = None.
Proof.
  intros Hn Hr. destruct o as [a|]; [|done]. destruct (Hr a) as (t & fields & E & Hf).
  unfold extract_nested, extractFieldReflection, vptr. cbn [fmap option_fmap option_map].
  rewrite E. cbn [deref]. by apply traverse_underscore.
Qed.

Ltac no_underscores := intros; do 2 eexists; split; [reflexivity|]; repeat constructor.

(** The nested fields of a request that reflection serves (content
    analysis, conversation context, token and cost estimate) cannot be read by
    a snake-case name: Go field names contain no underscore and are compared
    case-insensitively but otherwise exactly.  Paths such as
    [request.token_estimate.total_tokens] or the documented
    [request.content_analysis.has_pii] fail in every context. *)
Theorem snake_case_never_resolves obj name rest c :
  obj ∈ ["content_analysis"; "conversation_context"; "token_estimate"; "cost_estimate"] ->
  has_underscore name = true ->
  extractRequestField (obj :: name :: rest) c = None.
Proof.
  intros Ho Hn. unfold extractRequestField. destruct (Request c) as [r|]; [|done].
  rewrite list_elem_of_In in Ho. cbn [In] in Ho.
  destruct Ho as [<-|[<-|[<-|[<-|[]]]]]; cbn [request_nested String.eqb Ascii.eqb Bool.eqb];
    apply extract_nested_underscore; try done; no_underscores.
Qed.

(** A request in which an e-mail address was detected. *)
Definition pii_request : EnrichedRequest :=
  mkEnrichedRequest "r1" None None None
    (Some (mkContentAnalysis (Some (mkPIIDetection true ["email"] 1 VNil)) VNil None VNil "en" 1 1 fzero))
    None "" "" 0 0 0 0.

Definition request_context (r : EnrichedRequest) : EvaluationContext :=
  mkEvaluationContext (er_RequestID r) (Some r) None [] ∅ [] [] [] None "" 0 None 0 false.

Lemma snake_case_never_resolves_witness :
  extractField "request.content_analysis.has_pii" (request_context pii_request) = None.
Proof.
  change (extractRequestField ["content_analysis"; "has_pii"] (request_context pii_request) = None).
  apply snake_case_never_resolves; [|reflexivity].
  apply list_elem_of_In. left. reflexivity.
Defined.
