(* ===== verification/PolicyMatcher.v ===== *)
(** * Condition matching ([pkg/policy/engine/matcher.go], [time.go], [config.go])

    The evaluation of condition trees, with the engine's configuration and
    business hours.  Polling a context ([select { case <-ctx.Done(): ... }])
    and reading the clock consult an environment the theorems leave arbitrary. *)

From Stdlib Require Import ZArith Lia.
From stdpp Require Import base option list strings.
From S2P Require Import Prelude Float64 GoValue Ast PolicyContext PolicyFields.
Local Open Scope string_scope.
Local Open Scope Z_scope.
Local Open Scope go_scope.

(** ** The environment of an evaluation

    The [i]-th observation is a clock reading or the answer of a poll. *)

Record Env := mkEnv { clock : nat -> Time; done : nat -> bool }.

Definition Run (A : Type) : Type := Env -> nat -> A * nat.

Definition rret {A} (a : A) : Run A := fun _ i => (a, i).
Definition rbind {A B} (m : Run A) (f : A -> Run B) : Run B :=
  fun e i => let '(a, j) := m e i in f a e j.
Definition rnow : Run Time := fun e i => (clock e i, S i).
(** Whether the context polled is done. *)
Definition poll : Run bool := fun e i => (done e i, S i).

Notation "'let*' x ':=' m 'in' k" := (rbind m (fun x => k))
  (at level 10, x pattern, m at level 100, k at level 200) : go_scope.

(** ** Configuration *)

Definition FailOpen : string := "fail-open".
Definition FailClosed : string := "fail-closed".
Definition FailSafeDefault : string := "fail-safe-default".

Record BusinessHoursConfig := mkBusinessHoursConfig {
  Timezone : string;
  DaysOfWeek : list Z;
  StartHour : Z;
  EndHour : Z;
}.

Definition DefaultBusinessHoursConfig : BusinessHoursConfig :=
  mkBusinessHoursConfig "UTC" [1; 2; 3; 4; 5] 9 17.

Record EngineConfig := mkEngineConfig {
  FailSafeMode : string;
  DefaultAction : string;
  RuleTimeout : Duration;
  PolicyTimeout : Duration;
  EnableTrace : bool;
  MaxPolicies : Z;
  MaxRulesPerPolicy : Z;
  BusinessHours : option BusinessHoursConfig;
}.

Definition DefaultEngineConfig : EngineConfig :=
  mkEngineConfig FailClosed ActionBlock (50 * Millisecond) (100 * Millisecond) false 100 50
    (Some DefaultBusinessHoursConfig).

(** [Validate]: the error message of the first check that fails. *)
Definition Validate (c : EngineConfig) : option string :=
  if negb (String.eqb (FailSafeMode c) FailOpen || String.eqb (FailSafeMode c) FailClosed
           || String.eqb (FailSafeMode c) FailSafeDefault)
  then Some "invalid fail-safe mode"
  else if String.eqb (FailSafeMode c) FailSafeDefault
          && negb (String.eqb (DefaultAction c) ActionAllow || String.eqb (DefaultAction c) ActionBlock)
  then Some "invalid default action for fail-safe-default mode"
  else if RuleTimeout c <=? 0 then Some "rule timeout must be positive"
  else if PolicyTimeout c <=? 0 then Some "policy timeout must be positive"
  else if PolicyTimeout c <? RuleTimeout c then Some "rule timeout cannot exceed policy timeout"
  else if MaxPolicies c <=? 0 then Some "max policies must be positive"
  else if MaxRulesPerPolicy c <=? 0 then Some "max rules per policy must be positive"
  else None.

(** ** Business hours

    A location is the offset from UTC, in nanoseconds, in force at a time;
    [LoadLocation] reads the time zone database. *)

Definition Location := Time -> Z.
Definition UTC : Location := fun _ => 0.

Class TimeZones : Type := { LoadLocation : string -> option Location }.

(** Go's zero time is a Monday; Sunday is 0. *)
Definition Weekday (loc : Location) (t : Time) : Z := ((t + loc t) / (24 * Hour) + 1) mod 7.
Definition HourOf (loc : Location) (t : Time) : Z := ((t + loc t) mod (24 * Hour)) / Hour.

Definition IsBusinessHours `{TimeZones} (c : BusinessHoursConfig) (t : Time) : bool :=
  let loc := default UTC (LoadLocation (Timezone c)) in
  let hour := HourOf loc t in
  let inHours := (StartHour c <=? hour) && (hour <? EndHour c) in
  match DaysOfWeek c with
  | [] => inHours
  | days =>
      let d := Weekday loc t in
      let dayOfWeek := if d =? 0 then 7 else d in
      if existsb (Z.eqb dayOfWeek) days then inHours else false
  end.

(** ** The matcher *)

Record DefaultMatcher := mkDefaultMatcher {
  businessHours : option BusinessHoursConfig;
  failSafeMode : string;
}.

Definition NewDefaultMatcher (config : option EngineConfig) : DefaultMatcher :=
  let config := default DefaultEngineConfig config in
  mkDefaultMatcher (BusinessHours config) (FailSafeMode config).

(** The outcome of [Match]: a truth value, an error, or a panic (a simple
    condition without a value dereferences a nil pointer). *)
Inductive Matched :=
| MOk (b : bool)
| MErr (e : CondError)
| MPanic.

Section Matcher.
Context `{GoStd} `{TimeZones}.

Definition hasPII (c : EvaluationContext) : bool :=
  match Request c with
  | Some r =>
      match er_ContentAnalysis r with
      | Some a => match ca_PIIDetection a with Some p => HasPII p | None => false end
      | None => false
      end
  | None => false
  end.

Definition hasInjection (c : EvaluationContext) : bool :=
  match Request c with
  | Some r =>
      match er_ContentAnalysis r with
      | Some a => match ca_PromptInjection a with Some p => HasPromptInjection p | None => false end
      | None => false
      end
  | None => false
  end.

Definition inBusinessHours (m : DefaultMatcher) (c : EvaluationContext) : Run bool :=
  match businessHours m with
  | None => rret true
  | Some bh =>
      if IsZero (StartTime c) then let* t := rnow in rret (IsBusinessHours bh t)
      else rret (IsBusinessHours bh (StartTime c))
  end.

Definition matchFunction (m : DefaultMatcher) (fnName : string) (c : EvaluationContext) : Run Matched :=
  if String.eqb fnName "has_pii" then rret (MOk (hasPII c))
  else if String.eqb fnName "has_injection" then rret (MOk (hasInjection c))
  else if String.eqb fnName "in_business_hours" then
    let* b := inBusinessHours m c in rret (MOk b)
  else rret (MErr (ErrUnknownFunction fnName)).

Definition matchSimple (m : DefaultMatcher) (cond : ConditionNode) (c : EvaluationContext) : Matched :=
  match extractField (Field cond) c with
  | None =>
      if String.eqb (failSafeMode m) FailOpen then MOk true
      else if String.eqb (failSafeMode m) FailClosed then MErr (FieldNotFoundError (Field cond))
      else MOk false
  | Some fieldValue =>
      match cn_Value cond with
      | None => MPanic
      | Some v =>
          match evaluateOperator (Operator cond) fieldValue (vn_Value v) with
          | Ok b => MOk b
          | Err e => MErr (ErrOperator (Operator cond) e)
          end
      end
  end.

(** The loops of [matchAll] and [matchAny] over the children, polling the
    context before each; [f] is [Match]. *)
Fixpoint matchAll (f : option ConditionNode -> Run Matched) (children : list (option ConditionNode))
  : Run Matched :=
  match children with
  | [] => rret (MOk true)
  | child :: children =>
      let* cancelled := poll in
      if cancelled then rret (MErr ErrContext) else
      let* r := f child in
      match r with
      | MOk true => matchAll f children
      | r => rret r
      end
  end.

Fixpoint matchAny (f : option ConditionNode -> Run Matched) (children : list (option ConditionNode))
  : Run Matched :=
  match children with
  | [] => rret (MOk false)
  | child :: children =>
      let* cancelled := poll in
      if cancelled then rret (MErr ErrContext) else
      let* r := f child in
      match r with
      | MOk false => matchAny f children
      | r => rret r
      end
  end.

Definition matchNot (f : option ConditionNode -> Run Matched) (children : list (option ConditionNode))
  : Run Matched :=
  match children with
  | [child] =>
      let* r := f child in
      rret (match r with MOk b => MOk (negb b) | r => r end)
  | _ => rret (MErr (ErrNotArity (Z.of_nat (length children))))
  end.

Fixpoint match_node (m : DefaultMatcher) (c : EvaluationContext) (cond : ConditionNode) {struct cond}
  : Run Matched :=
  let f := fun o : option ConditionNode =>
    match o with None => rret (MOk true) | Some child => match_node m c child end in
  if String.eqb (cn_Type cond) ConditionTypeSimple then rret (matchSimple m cond c)
  else if String.eqb (cn_Type cond) ConditionTypeAll then matchAll f (Children cond)
  else if String.eqb (cn_Type cond) ConditionTypeAny then matchAny f (Children cond)
  else if String.eqb (cn_Type cond) ConditionTypeNot then matchNot f (Children cond)
  else if String.eqb (cn_Type cond) ConditionTypeFunction then matchFunction m (Function cond) c
  else rret (MErr (ErrUnknownConditionType (cn_Type cond))).

Definition Match (m : DefaultMatcher) (cond : option ConditionNode) (c : EvaluationContext) : Run Matched :=
  match cond with
  | None => rret (MOk true)
  | Some cond => match_node m c cond
  end.
End Matcher.

(** ** Induction on condition trees *)

Definition for_child (P : ConditionNode -> Prop) (o : option ConditionNode) : Prop :=
  match o with Some c => P c | None => True end.

Lemma condition_ind (P : ConditionNode -> Prop) :
  (forall cond, Forall (for_child P) (Children cond) -> P cond) -> forall cond, P cond.
Proof.
  intros Hstep. fix IH 1. intros [ty fld op v fn args children]. apply Hstep. cbn [Children].
  induction children as [|o children IHc]; constructor; [|exact IHc].
  destruct o as [child|]; [exact (IH child)|exact I].
Qed.

(** Every simple condition has a value to compare with. *)
Fixpoint has_values (cond : ConditionNode) : bool :=
  (negb (String.eqb (cn_Type cond) ConditionTypeSimple) || bool_decide (is_Some (cn_Value cond)))
  && forallb (fun o => match o with Some child => has_values child | None => true end) (Children cond).

Lemma has_values_unfold cond :
  has_values cond =
  (negb (String.eqb (cn_Type cond) ConditionTypeSimple) || bool_decide (is_Some (cn_Value cond)))
  && forallb (fun o => match o with Some child => has_values child | None => true end) (Children cond).
Proof. by destruct cond. Qed.

(** The boolean reading of a condition, without order or short-circuits. *)
Section Semantics.
Context `{GoStd} `{TimeZones} (m : DefaultMatcher) (c : EvaluationContext).

Definition leaf (r : Matched) : bool := match r with MOk b => b | _ => false end.

Definition function_value (fn : string) : Matched :=
  if String.eqb fn "has_pii" then MOk (hasPII c)
  else if String.eqb fn "has_injection" then MOk (hasInjection c)
  else if String.eqb fn "in_business_hours" then
    MOk (match businessHours m with None => true | Some bh => IsBusinessHours bh (StartTime c) end)
  else MErr (ErrUnknownFunction fn).

Fixpoint sem (cond : ConditionNode) : bool :=
  let sem_child := fun o : option ConditionNode => match o with Some child => sem child | None => true end in
  if String.eqb (cn_Type cond) ConditionTypeSimple then leaf (matchSimple m cond c)
  else if String.eqb (cn_Type cond) ConditionTypeAll then forallb sem_child (Children cond)
  else if String.eqb (cn_Type cond) ConditionTypeAny then existsb sem_child (Children cond)
  else if String.eqb (cn_Type cond) ConditionTypeNot then
    negb (forallb sem_child (Children cond))
  else leaf (function_value (Function cond)).

Definition is_value (r : Matched) : bool := match r with MOk _ => true | _ => false end.

(** No node of the tree can fail. *)
Fixpoint evaluable (cond : ConditionNode) : bool :=
  let rec := forallb (fun o : option ConditionNode =>
    match o with Some child => evaluable child | None => true end) (Children cond) in
  if String.eqb (cn_Type cond) ConditionTypeSimple then is_value (matchSimple m cond c)
  else if String.eqb (cn_Type cond) ConditionTypeAll then rec
  else if String.eqb (cn_Type cond) ConditionTypeAny then rec
  else if String.eqb (cn_Type cond) ConditionTypeNot then (length (Children cond) =? 1)%nat && rec
  else String.eqb (cn_Type cond) ConditionTypeFunction && is_value (function_value (Function cond)).

Definition sem_child (o : option ConditionNode) : bool :=
  match o with Some child => sem child | None => true end.

Definition run_child (o : option ConditionNode) : Run Matched :=
  match o with None => rret (MOk true) | Some child => match_node m c child end.

(** A child that evaluates to its boolean reading, whatever the environment. *)
Definition reads (env : Env) (o : option ConditionNode) : Prop :=
  forall i, fst (run_child o env i) = MOk (sem_child o).

Lemma matchAll_reads env children i :
  (forall k, done env k = false) -> Forall (reads env) children ->
  fst (matchAll run_child children env i) = MOk (forallb sem_child children).
Proof using.
  intros Hd Hc. revert i. induction Hc as [|o children Ho _ IH]; intros i; [done|].
  cbn [matchAll forallb]. unfold rbind at 1, poll. rewrite Hd. unfold rbind.
  specialize (Ho (S i)). destruct (run_child o env (S i)) as [r j]. simpl in Ho. subst r.
  destruct (sem_child o); [apply IH|done].
Qed.

Lemma matchAny_reads env children i :
  (forall k, done env k = false) -> Forall (reads env) children ->
  fst (matchAny run_child children env i) = MOk (existsb sem_child children).
Proof using.
  intros Hd Hc. revert i. induction Hc as [|o children Ho _ IH]; intros i; [done|].
  cbn [matchAny existsb]. unfold rbind at 1, poll. rewrite Hd. unfold rbind.
  specialize (Ho (S i)). destruct (run_child o env (S i)) as [r j]. simpl in Ho. subst r.
  destruct (sem_child o); [done|apply IH].
Qed.
End Semantics.

(** C39: short-circuit evaluation computes the boolean reading.  For a
    condition no part of which can fail, in an evaluation that is not
    cancelled and has a start time, [Match] returns the truth value of the
    tree with "all" as conjunction, "any" as disjunction and "not" as
    negation, independent of the order of the children. *)
Theorem match_is_boolean `{GoStd} `{TimeZones} m c cond env i :
  (forall k, done env k = false) -> StartTime c <> 0 -> evaluable m c cond = true ->
  fst (Match m (Some cond) c env i) = MOk (sem m c cond).
Proof.
  intros Hd Hst. cbn [Match]. revert i. induction cond as [cond IH] using condition_ind. intros i He.
  assert (Hch : forallb (fun o : option ConditionNode =>
      match o with Some child => evaluable m c child | None => true end) (Children cond) = true ->
    Forall (reads m c env) (Children cond)).
  { intros Hrec. apply Is_true_true, forallb_True in Hrec. clear -Hrec IH. revert Hrec. induction IH as [|o children Ho _ IHc];
      [constructor|]. intros [H1 H2]%Forall_cons. constructor; [|by apply IHc].
    intros i. destruct o as [child|]; [|done]. apply Ho. by apply Is_true_true. }
  destruct cond as [ty fld op v fn args children]. cbn [Children cn_Type Function] in *.
  cbn [match_node evaluable sem cn_Type Children Function] in *.
  fold (run_child m c). fold (sem_child m c).
  destruct (String.eqb_spec ty ConditionTypeSimple) as [_|_].
  { simpl. by destruct (matchSimple _ _ _). }
  destruct (String.eqb_spec ty ConditionTypeAll) as [_|_]; [by apply matchAll_reads; [|apply Hch]|].
  destruct (String.eqb_spec ty ConditionTypeAny) as [_|_]; [by apply matchAny_reads; [|apply Hch]|].
  destruct (String.eqb_spec ty ConditionTypeNot) as [_|_].
  { apply andb_prop in He as [Hl Hrec]. destruct children as [|o [|o' children]]; try done.
    pose proof (Hch Hrec) as Hr. apply Forall_cons in Hr as [Ho _].
    unfold matchNot, rbind, rret. specialize (Ho i). destruct (run_child m c o env i) as [r j].
    simpl in Ho |- *. subst r. by rewrite andb_true_r. }
  apply andb_prop in He as [-> Hv]. unfold matchFunction, function_value in *.
  destruct (String.eqb fn "has_pii"); [done|]. destruct (String.eqb fn "has_injection"); [done|].
  destruct (String.eqb fn "in_business_hours"); [|done].
  unfold inBusinessHours, rbind, rret. destruct (businessHours m); [|done].
  unfold IsZero. destruct (Z.eqb_spec (StartTime c) 0); done.
Qed.

(** A concrete library: patterns are literal substrings, every value prints as
    the empty string, and no time zone database is installed. *)
Definition plain_std : GoStd := {|
  Regexp := string;
  regexp_Compile p := Ok p;
  MatchString re s := Contains s re;
  ReplaceAllString re s r := if String.eqb s re then r else s;
  FindAllCount re s := if Contains s re then 1 else 0;
  fmt_Sprint _ := "";
  strconv_Quote s := s;
|}.

Definition no_zones : TimeZones := {| LoadLocation _ := None |}.

Definition simple (field op : string) (v : GoValue) : ConditionNode :=
  mkConditionNode ConditionTypeSimple field op (Some (mkValueNode ValueTypeString v "")) "" [] [].

Definition function_call (fn : string) : ConditionNode :=
  mkConditionNode ConditionTypeFunction "" "" None fn [] [].

Definition logical (ty : string) (children : list ConditionNode) : ConditionNode :=
  mkConditionNode ty "" "" None "" [] (Some <$> children).

Definition started (c : EvaluationContext) (t : Time) : EvaluationContext :=
  mkEvaluationContext (RequestID c) (Request c) (Response c) (MatchedRules c) (Tags c)
    (Transformations c) (Redactions c) (Notifications c) (Routing c) (BlockReason c) (BlockStatusCode c)
    (Trace c) t (Stopped c).

Lemma match_is_boolean_witness :
  let std := plain_std in let tz := no_zones in
  let m := NewDefaultMatcher None in
  let c := started (request_context pii_request) Hour in
  let cond := logical ConditionTypeAll [function_call "has_pii";
    logical ConditionTypeNot [simple "request.request_id" OperatorEqual (VString "r2")]] in
  fst (Match m (Some cond) c (mkEnv (fun _ => 0) (fun _ => false)) 0%nat) = MOk true.
Proof.
  intros std tz m c cond.
  exact (match_is_boolean (H := std) (H0 := tz) m c cond (mkEnv (fun _ => 0) (fun _ => false)) 0%nat
    (fun _ => eq_refl) ltac:(vm_compute; discriminate) eq_refl).
Defined.

(** ** A condition with values cannot panic *)

Section NoPanic.
Context `{GoStd} `{TimeZones} (m : DefaultMatcher) (c : EvaluationContext) (env : Env).

Definition calm (o : option ConditionNode) : Prop := forall i, fst (run_child m c o env i) <> MPanic.

Lemma matchAll_calm children i :
  Forall calm children -> fst (matchAll (run_child m c) children env i) <> MPanic.
Proof using.
  intros Hc. revert i. induction Hc as [|o children Ho _ IH]; intros i; [done|].
  cbn [matchAll]. unfold rbind, poll, rret. destruct (done env i); [done|].
  specialize (Ho (S i)). destruct (run_child m c o env (S i)) as [[[]|e|] j]; try done; apply IH.
Qed.

Lemma matchAny_calm children i :
  Forall calm children -> fst (matchAny (run_child m c) children env i) <> MPanic.
Proof using.
  intros Hc. revert i. induction Hc as [|o children Ho _ IH]; intros i; [done|].
  cbn [matchAny]. unfold rbind, poll, rret. destruct (done env i); [done|].
  specialize (Ho (S i)). destruct (run_child m c o env (S i)) as [[[]|e|] j]; try done; apply IH.
Qed.

Lemma match_node_calm cond i : has_values cond = true -> fst (match_node m c cond env i) <> MPanic.
Proof using.
  revert i. induction cond as [cond IH] using condition_ind. intros i Hv.
  rewrite has_values_unfold in Hv. apply andb_prop in Hv as [Hs Hrec].
  assert (Hch : Forall calm (Children cond)).
  { apply Is_true_true, forallb_True in Hrec. clear -Hrec IH. revert Hrec.
    induction IH as [|o children Ho _ IHc]; [constructor|]. intros [H1 H2]%Forall_cons.
    constructor; [|by apply IHc]. intros i. destruct o as [child|]; [|done].
    apply Ho. by apply Is_true_true. }
  destruct cond as [ty fld op v fn args children]. cbn [Children cn_Type Function cn_Value] in *.
  cbn [match_node cn_Type Children Function]. fold (run_child m c).
  destruct (String.eqb_spec ty ConditionTypeSimple) as [_|_].
  { simpl in Hs. unfold matchSimple. cbn. destruct (extractField fld c).
    - apply bool_decide_eq_true in Hs as [w ->].
      by destruct (evaluateOperator _ _ _).
    - destruct (String.eqb _ _); [done|]. by destruct (String.eqb _ _). }
  destruct (String.eqb ty ConditionTypeAll); [by apply matchAll_calm|].
  destruct (String.eqb ty ConditionTypeAny); [by apply matchAny_calm|].
  destruct (String.eqb ty ConditionTypeNot).
  { unfold matchNot. destruct children as [|o [|o' children]]; try done.
    apply Forall_cons in Hch as [Ho _]. unfold rbind, rret. specialize (Ho i).
    destruct (run_child m c o env i) as [[b|e|] j]; done. }
  destruct (String.eqb ty ConditionTypeFunction); [|done]. unfold matchFunction.
  destruct (String.eqb fn "has_pii"); [done|]. destruct (String.eqb fn "has_injection"); [done|].
  destruct (String.eqb fn "in_business_hours"); [|done].
  unfold inBusinessHours, rbind, rret. destruct (businessHours m); [|done]. by destruct (IsZero _).
Qed.
End NoPanic.
