(* ===== verification/PolicyConfig.v ===== *)
(** * Engine configuration and time windows ([pkg/policy/engine/config.go],
    [time.go])

    The setters of the engine configuration with what [Validate] accepts, and
    the recurring time windows. *)

From Stdlib Require Import ZArith Lia.
From stdpp Require Import base option list strings.
From S2P Require Import Prelude PolicyContext PolicyMatcher.
Local Open Scope string_scope.
Local Open Scope Z_scope.
Local Open Scope go_scope.

(** ** Setters *)

Definition WithFailSafeMode (mode : string) (c : EngineConfig) : EngineConfig :=
  mkEngineConfig mode (DefaultAction c) (RuleTimeout c) (PolicyTimeout c) (EnableTrace c) (MaxPolicies c)
    (MaxRulesPerPolicy c) (BusinessHours c).

Definition WithDefaultAction (action : string) (c : EngineConfig) : EngineConfig :=
  mkEngineConfig (FailSafeMode c) action (RuleTimeout c) (PolicyTimeout c) (EnableTrace c) (MaxPolicies c)
    (MaxRulesPerPolicy c) (BusinessHours c).

Definition WithRuleTimeout (timeout : Duration) (c : EngineConfig) : EngineConfig :=
  mkEngineConfig (FailSafeMode c) (DefaultAction c) timeout (PolicyTimeout c) (EnableTrace c) (MaxPolicies c)
    (MaxRulesPerPolicy c) (BusinessHours c).

Definition WithPolicyTimeout (timeout : Duration) (c : EngineConfig) : EngineConfig :=
  mkEngineConfig (FailSafeMode c) (DefaultAction c) (RuleTimeout c) timeout (EnableTrace c) (MaxPolicies c)
    (MaxRulesPerPolicy c) (BusinessHours c).

Definition WithTrace (enabled : bool) (c : EngineConfig) : EngineConfig :=
  mkEngineConfig (FailSafeMode c) (DefaultAction c) (RuleTimeout c) (PolicyTimeout c) enabled (MaxPolicies c)
    (MaxRulesPerPolicy c) (BusinessHours c).

Definition WithMaxPolicies (max : Z) (c : EngineConfig) : EngineConfig :=
  mkEngineConfig (FailSafeMode c) (DefaultAction c) (RuleTimeout c) (PolicyTimeout c) (EnableTrace c) max
    (MaxRulesPerPolicy c) (BusinessHours c).

Definition WithMaxRulesPerPolicy (max : Z) (c : EngineConfig) : EngineConfig :=
  mkEngineConfig (FailSafeMode c) (DefaultAction c) (RuleTimeout c) (PolicyTimeout c) (EnableTrace c)
    (MaxPolicies c) max (BusinessHours c).

(** ** Time windows

    A [time.Time] with the location its wall clock is read in. *)

Record LocalTime := mkLocalTime { instant : Time; location : Location }.

Definition Day_ : Duration := 24 * Hour.
Definition wall (t : LocalTime) : Time := instant t + location t (instant t).
Definition local_Weekday (t : LocalTime) : Z := Weekday (location t) (instant t).
Definition ClockHour (t : LocalTime) : Z := HourOf (location t) (instant t).
Definition ClockMinute (t : LocalTime) : Z := (wall t mod Hour) / Minute.

(** The day of the month in the proleptic Gregorian calendar, from the days
    since 1 January of year 1, by counting from 1 March of year 0. *)
Definition DayOfMonth (t : LocalTime) : Z :=
  let z := wall t / Day_ + 306 in
  let doe := z mod 146097 in
  let yoe := (doe - doe / 1460 + doe / 36524 - doe / 146096) / 365 in
  let doy := doe - (365 * yoe + yoe / 4 - yoe / 100) in
  let mp := (5 * doy + 2) / 153 in
  doy - (153 * mp + 2) / 5 + 1.

Record TimeWindowConfig := mkTimeWindow {
  Start : LocalTime;
  End_ : LocalTime;
  Recurring : bool;
  RecurrenceType : string;
}.

Definition isInDailyWindow (c : TimeWindowConfig) (t : LocalTime) : bool :=
  let startMinutes := ClockHour (Start c) * 60 + ClockMinute (Start c) in
  let endMinutes := ClockHour (End_ c) * 60 + ClockMinute (End_ c) in
  let tMinutes := ClockHour t * 60 + ClockMinute t in
  (startMinutes <=? tMinutes) && (tMinutes <? endMinutes).

Definition isInWeeklyWindow (c : TimeWindowConfig) (t : LocalTime) : bool :=
  if negb (local_Weekday t =? local_Weekday (Start c)) then false else isInDailyWindow c t.

Definition isInMonthlyWindow (c : TimeWindowConfig) (t : LocalTime) : bool :=
  if negb (DayOfMonth t =? DayOfMonth (Start c)) then false else isInDailyWindow c t.

Definition in_range (c : TimeWindowConfig) (t : LocalTime) : bool :=
  negb (Before (instant t) (instant (Start c))) && negb (After (instant t) (instant (End_ c))).

Definition IsInWindow (c : TimeWindowConfig) (t : LocalTime) : bool :=
  if negb (Recurring c) then in_range c t
  else if String.eqb (RecurrenceType c) "daily" then isInDailyWindow c t
  else if String.eqb (RecurrenceType c) "weekly" then isInWeeklyWindow c t
  else if String.eqb (RecurrenceType c) "monthly" then isInMonthlyWindow c t
  else in_range c t.

(** 29 February 2024, 31 December 2023 and 1 January 2000. *)
Lemma day_of_month_examples :
  DayOfMonth (mkLocalTime (738944 * Day_) UTC) = 29 /\
  DayOfMonth (mkLocalTime (738884 * Day_) UTC) = 31 /\
  DayOfMonth (mkLocalTime (730119 * Day_) UTC) = 1.
Proof. vm_compute. done. Qed.

(** The minute of the day. *)
Definition minute_of_day (t : LocalTime) : Z := (wall t mod Day_) / Minute.

Lemma clock_minutes t : ClockHour t * 60 + ClockMinute t = minute_of_day t.
Proof.
  unfold ClockHour, ClockMinute, minute_of_day, HourOf. fold (wall t).
  set (w := wall t). change (24 * Hour) with Day_.
  assert (E : w mod Hour = (w mod Day_) mod Hour).
  { change Day_ with (Hour * 24). rewrite Z.rem_mul_r by (unfold Hour, Minute, Second; lia).
    rewrite Z.mul_comm, Z.mod_add, Z.mod_mod; unfold Hour, Minute, Second; lia. }
  rewrite E. set (d := w mod Day_). unfold Hour.
  pose proof (Z.mod_pos_bound d (60 * Minute) ltac:(unfold Minute, Second; lia)).
  rewrite (Z.div_mod d (60 * Minute)) at 3 by (unfold Minute, Second; lia).
  replace (60 * Minute * (d / (60 * Minute)) + d mod (60 * Minute))
    with (d mod (60 * Minute) + (d / (60 * Minute) * 60) * Minute) by lia.
  rewrite Z.div_add by (unfold Minute, Second; lia). lia.
Qed.

Lemma minute_of_day_wall t :
  minute_of_day t = wall t / Minute - 1440 * (wall t / Day_) /\ 0 <= minute_of_day t < 1440.
Proof.
  unfold minute_of_day. set (w := wall t).
  assert (Hd : Day_ = Minute * 1440) by reflexivity.
  assert (Hm : 0 < Minute) by reflexivity. split.
  - rewrite Z.mod_eq by (rewrite Hd; lia). rewrite Hd at 1.
    replace (w - Minute * 1440 * (w / Day_)) with (w + (- (1440 * (w / Day_))) * Minute) by lia.
    rewrite Z.div_add by lia. lia.
  - pose proof (Z.mod_pos_bound w Day_ ltac:(rewrite Hd; lia)). split.
    + apply Z.div_pos; lia.
    + apply Z.div_lt_upper_bound; lia.
Qed.

Lemma daily_minutes c t :
  isInDailyWindow c t = true <->
  minute_of_day (Start c) <= minute_of_day t < minute_of_day (End_ c).
Proof.
  unfold isInDailyWindow. rewrite !clock_minutes, andb_true_iff, Z.leb_le, Z.ltb_lt. done.
Qed.

(** The minute a wall clock shows, moved by whole days. *)
Definition repeats_into (c : TimeWindowConfig) (t : LocalTime) : Prop :=
  exists k, Truncate (wall (Start c)) Minute <= Truncate (wall t) Minute + k * Day_ < Truncate (wall (End_ c)) Minute.

Lemma daily_repeats c t :
  wall (Start c) / Day_ = wall (End_ c) / Day_ -> isInDailyWindow c t = true <-> repeats_into c t.
Proof.
  intros Hday. rewrite daily_minutes. unfold repeats_into.
  destruct (minute_of_day_wall (Start c)) as [Es Bs], (minute_of_day_wall (End_ c)) as [Ee Be],
    (minute_of_day_wall t) as [Et Bt].
  assert (HM : 0 < Minute) by reflexivity. assert (Hd : Day_ = Minute * 1440) by reflexivity.
  rewrite !Truncate_mult by done. rewrite Hd in * |- *. split.
  - intros H. exists (wall (Start c) / (Minute * 1440) - wall t / (Minute * 1440)). nia.
  - intros [k H].
    assert (wall (Start c) / Minute <= wall t / Minute + 1440 * k < wall (End_ c) / Minute) by nia. lia.
Qed.

(** A recurring window that starts and ends on the same calendar day holds
    at a time exactly if the wall clock, to the minute and moved by some whole
    number of days, is between its start and its end; a weekly window holds
    only on the weekday of its start, a monthly one only on its day of the
    month. *)
Theorem recurring_window_spec c t :
  Recurring c = true -> wall (Start c) / Day_ = wall (End_ c) / Day_ ->
  (RecurrenceType c = "daily" -> IsInWindow c t = true <-> repeats_into c t) /\
  (RecurrenceType c = "weekly" ->
     IsInWindow c t = true <-> local_Weekday t = local_Weekday (Start c) /\ repeats_into c t) /\
  (RecurrenceType c = "monthly" ->
     IsInWindow c t = true <-> DayOfMonth t = DayOfMonth (Start c) /\ repeats_into c t).
Proof.
  intros Hr Hday. rewrite <- (daily_repeats c t Hday). unfold IsInWindow. rewrite Hr. cbn [negb].
  split; [|split]; intros ->; simpl; [done| |].
  - unfold isInWeeklyWindow. destruct (Z.eqb_spec (local_Weekday t) (local_Weekday (Start c))); simpl; naive_solver.
  - unfold isInMonthlyWindow. destruct (Z.eqb_spec (DayOfMonth t) (DayOfMonth (Start c))); simpl; naive_solver.
Qed.

Lemma recurring_window_spec_witness :
  let at_hour d h := mkLocalTime (d * Day_ + h * Hour) UTC in
  IsInWindow (mkTimeWindow (at_hour 738884 9) (at_hour 738884 17) true "daily") (at_hour 738944 12) = true.
Proof.
  intros at_hour.
  destruct (recurring_window_spec (mkTimeWindow (at_hour 738884 9) (at_hour 738884 17) true "daily")
    (at_hour 738944 12) eq_refl eq_refl) as [D _].
  apply (D eq_refl). exists (-60). vm_compute. split; [discriminate|reflexivity].
Defined.

(** A recurring window whose end is not later in the day than its start,
    such as one from 22:00 to 06:00, never holds. *)
Theorem overnight_window_never_holds c t :
  Recurring c = true -> RecurrenceType c ∈ ["daily"; "weekly"; "monthly"] ->
  minute_of_day (End_ c) <= minute_of_day (Start c) ->
  IsInWindow c t = false.
Proof.
  intros Hr Hin Hle. assert (Hd : isInDailyWindow c t = false).
  { destruct (isInDailyWindow c t) eqn:E; [|done]. apply daily_minutes in E. lia. }
  unfold IsInWindow, isInWeeklyWindow, isInMonthlyWindow. rewrite Hr, Hd. cbn [negb].
  apply list_elem_of_In in Hin. destruct Hin as [<-|[<-|[<-|[]]]]; simpl; [done|by destruct (negb _)..].
Qed.

Lemma overnight_window_never_holds_witness :
  let at_hour h := mkLocalTime (738884 * Day_ + h * Hour) UTC in
  IsInWindow (mkTimeWindow (at_hour 22) (at_hour 30) true "daily") (at_hour 23) = false.
Proof.
  intros at_hour.
  apply (overnight_window_never_holds (mkTimeWindow (at_hour 22) (at_hour 30) true "daily") (at_hour 23)).
  - reflexivity.
  - left.
  - vm_compute. discriminate.
Defined.

(** ** What a valid configuration is *)

(** [Validate] accepts exactly the configurations with a known fail-safe
    mode, a default action of allow or block where that mode uses it, positive
    limits, and a rule timeout that is positive and within the policy
    timeout; the default configuration is one of them. *)
Theorem validate_exact c :
  (Validate c = None <->
     FailSafeMode c ∈ [FailOpen; FailClosed; FailSafeDefault] /\
     (FailSafeMode c <> FailSafeDefault \/ DefaultAction c ∈ [ActionAllow; ActionBlock]) /\
     0 < RuleTimeout c <= PolicyTimeout c /\ 0 < MaxPolicies c /\ 0 < MaxRulesPerPolicy c) /\
  Validate DefaultEngineConfig = None.
Proof.
  split; [|reflexivity]. unfold Validate. rewrite !elem_of_cons, !elem_of_nil.
  destruct (String.eqb_spec (FailSafeMode c) FailOpen), (String.eqb_spec (FailSafeMode c) FailClosed),
    (String.eqb_spec (FailSafeMode c) FailSafeDefault); cbn [orb andb negb];
    try (split; [done|naive_solver]);
    destruct (String.eqb_spec (DefaultAction c) ActionAllow),
      (String.eqb_spec (DefaultAction c) ActionBlock); cbn [orb andb negb];
    try (split; [done|naive_solver]);
    destruct (Z.leb_spec (RuleTimeout c) 0), (Z.leb_spec (PolicyTimeout c) 0),
      (Z.ltb_spec (PolicyTimeout c) (RuleTimeout c)), (Z.leb_spec (MaxPolicies c) 0),
      (Z.leb_spec (MaxRulesPerPolicy c) 0);
    (split; [try done; intros _|try done; intros (_ & _ & ? & ? & ?); lia]); naive_solver lia.
Qed.
