(* ===== verification/PolicyExecutor.v ===== *)
(** * Action execution and redaction ([pkg/policy/engine/executor.go], [redact.go])

    Every action of a rule, as an update of the evaluation context together
    with its result.  Log output is not modelled. *)

From Stdlib Require Import ZArith Lia Ascii.
From stdpp Require Import base option list strings gmap.
From S2P Require Import Prelude Float64 GoValue Ast PolicyContext.
Local Open Scope string_scope.
Local Open Scope Z_scope.
Local Open Scope go_scope.

Definition ok_result (action : Action) (details : list (string * GoValue)) : ActionResult :=
  mkActionResult (a_Type action) true None details.

Definition failed_result (action : Action) (e : ActError) : ActionResult :=
  mkActionResult (a_Type action) false (Some e) [].

(** [if s == "" { s = d }] *)
Definition or_default (s d : string) : string := if String.eqb s "" then d else s.

(** ** Actions *)

Definition executeAllow (action : Action) (c : EvaluationContext) : ActionResult * EvaluationContext :=
  (ok_result action [("action", VString "allow")], Stop c).

Definition executeDeny (action : Action) (c : EvaluationContext) : ActionResult * EvaluationContext :=
  let message := or_default (GetStringParameter action "message") "Request denied by policy" in
  let statusCode := to_int64 (GetNumberParameter action "status_code") in
  let statusCode := if statusCode =? 0 then 403 else statusCode in
  (ok_result action [("message", VString message); ("status_code", vint statusCode)],
   SetBlock message statusCode c).

Definition executeLog (action : Action) (c : EvaluationContext) : ActionResult * EvaluationContext :=
  let message := GetStringParameter action "message" in
  let level := or_default (GetStringParameter action "level") "info" in
  (ok_result action [("message", VString message); ("level", VString level)], c).

Definition executeRedact (action : Action) (c : EvaluationContext) : ActionResult * EvaluationContext :=
  let strategy := or_default (GetStringParameter action "strategy") "mask" in
  let field := or_default (GetStringParameter action "field") "prompt" in
  let pattern := GetStringParameter action "pattern" in
  let replacement := or_default (GetStringParameter action "replacement") "***" in
  (ok_result action [("field", VString field); ("strategy", VString strategy);
     ("pattern", VString pattern); ("replacement", VString replacement)],
   AddRedaction field strategy pattern replacement 0 c).

Definition executeModify (action : Action) (c : EvaluationContext) : ActionResult * EvaluationContext :=
  let field := GetStringParameter action "field" in
  let operation := or_default (GetStringParameter action "operation") "set" in
  if String.eqb field "" then (failed_result action (ErrRequired "field" "modify"), c)
  else
    let transformValue :=
      match GetParameter action "value" with Some v => vn_Value v | None => VNil end in
    (ok_result action [("field", VString field); ("operation", VString operation); ("value", transformValue)],
     AddTransformation field operation transformValue c).

(** The strings of the fallback list, other elements skipped. *)
Definition fallback_of (action : Action) : list string :=
  match GetParameter action "fallback" with
  | Some v =>
      match vn_Value v with
      | VSlice "[]interface {}" l =>
          omap (fun x => match x with VString s => Some s | _ => None end) l
      | _ => []
      end
  | None => []
  end.

Definition executeRoute (action : Action) (c : EvaluationContext) : ActionResult * EvaluationContext :=
  let provider := GetStringParameter action "provider" in
  let model := GetStringParameter action "model" in
  if String.eqb provider "" then (failed_result action (ErrRequired "provider" "route"), c)
  else
    let fallback := fallback_of action in
    (ok_result action [("provider", VString provider); ("model", VString model); ("fallback", vstrings fallback)],
     SetRouting provider model fallback c).

(** The payload's timestamp is the start of the evaluation. *)
Definition executeAlert (action : Action) (c : EvaluationContext) : ActionResult * EvaluationContext :=
  let destination := GetStringParameter action "destination" in
  let message := GetStringParameter action "message" in
  if String.eqb destination "" then (failed_result action (ErrRequired "destination" "alert"), c)
  else
    let notifType := or_default (GetStringParameter action "type") "webhook" in
    let payload := [("request_id", VString (RequestID c)); ("message", VString message);
      ("timestamp", VStruct "time.Time" [("ns", VInt KInt64 (StartTime c))])] in
    (ok_result action [("type", VString notifType); ("destination", VString destination);
       ("message", VString message)],
     AddNotification notifType destination payload true c).

Definition executeRateLimit (action : Action) (c : EvaluationContext) : ActionResult * EvaluationContext :=
  let limit := to_int64 (GetNumberParameter action "limit") in
  let window := GetStringParameter action "window" in
  (ok_result action [("limit", vint limit); ("window", VString window)], c).

Definition executeBudget (action : Action) (c : EvaluationContext) : ActionResult * EvaluationContext :=
  (ok_result action [("limit", VFloat64 (GetNumberParameter action "limit"))], c).

Definition extractFieldValue (c : EvaluationContext) (fieldPath : string) : option GoValue :=
  match Request c with
  | None => None
  | Some r =>
      match OriginalRequest r with
      | None => None
      | Some o =>
          if String.eqb fieldPath "request.model" then Some (VString (cr_Model o))
          else if String.eqb fieldPath "request.user" then
            if String.eqb (cr_User o) "" then None else Some (VString (cr_User o))
          else if String.eqb fieldPath "request.model_family" then
            if String.eqb (ModelFamily r) "" then None else Some (VString (ModelFamily r))
          else if String.eqb fieldPath "request.pricing_tier" then
            if String.eqb (PricingTier r) "" then None else Some (VString (PricingTier r))
          else if String.eqb fieldPath "request.risk_score" then Some (vint (RiskScore r))
          else if String.eqb fieldPath "request.complexity_score" then Some (vint (ComplexityScore r))
          else None
      end
  end.

Section Executor.
Context `{GoStd}.

(** [fmt.Sprintf("%v", v)] *)
Definition sprintf_v (v : GoValue) : string :=
  match v with VString s => s | _ => fmt_Sprint v end.

Definition executeTag (action : Action) (c : EvaluationContext) : ActionResult * EvaluationContext :=
  let key := GetStringParameter action "key" in
  if String.eqb key "" then (failed_result action (ErrRequired "key" "tag"), c)
  else
    let value := GetStringParameter action "value" in
    let value :=
      if String.eqb value "" then
        let valueFrom := GetStringParameter action "value_from" in
        if String.eqb valueFrom "" then value
        else match extractFieldValue c valueFrom with
             | None => ""
             | Some v => sprintf_v v
             end
      else value in
    let value := or_default value "true" in
    (ok_result action [("key", VString key); ("value", VString value)], AddTag key value c).

(** [Execute] on a non-nil action; its error result is then always nil. *)
Definition Execute (action : Action) (c : EvaluationContext) : ActionResult * EvaluationContext :=
  let ty := a_Type action in
  if String.eqb ty ActionTypeAllow then executeAllow action c
  else if String.eqb ty ActionTypeDeny then executeDeny action c
  else if String.eqb ty ActionTypeLog then executeLog action c
  else if String.eqb ty ActionTypeRedact then executeRedact action c
  else if String.eqb ty ActionTypeModify then executeModify action c
  else if String.eqb ty ActionTypeRoute then executeRoute action c
  else if String.eqb ty ActionTypeAlert then executeAlert action c
  else if String.eqb ty ActionTypeTag then executeTag action c
  else if String.eqb ty ActionTypeRateLimit then executeRateLimit action c
  else if String.eqb ty ActionTypeBudget then executeBudget action c
  else (failed_result action (ErrUnknownAction ty), c).

(** ** Redaction of content *)

Inductive RedactError :=
| ErrUnknownStrategy (strategy : string)
| ErrRedactPattern (msg : string).

(** [regexp.Compile(pattern)] and [ReplaceAllString]. *)
Definition replace_matches (content pattern replacement : string) : result RedactError string :=
  match regexp_Compile pattern with
  | Ok re => Ok (ReplaceAllString re content replacement)
  | Err msg => Err (ErrRedactPattern msg)
  end.

(** [strings.Repeat("*", len(content))] *)
Fixpoint stars (content : string) : string :=
  match content with EmptyString => EmptyString | String _ s => String "*"%char (stars s) end.

Definition applyMaskRedaction (content : string) (r : Redaction) : result RedactError string :=
  if String.eqb (Pattern r) "" then Ok (stars content)
  else replace_matches content (Pattern r) (or_default (Replacement r) "***").

Definition applyRemoveRedaction (content : string) (r : Redaction) : result RedactError string :=
  if String.eqb (Pattern r) "" then Ok "" else replace_matches content (Pattern r) "".

Definition applyReplaceRedaction (content : string) (r : Redaction) : result RedactError string :=
  if String.eqb (Pattern r) "" then Ok (Replacement r)
  else replace_matches content (Pattern r) (or_default (Replacement r) "[REDACTED]").

Definition ApplyRedaction (content : string) (r : Redaction) : result RedactError string :=
  if String.eqb (Strategy r) "mask" then applyMaskRedaction content r
  else if String.eqb (Strategy r) "remove" then applyRemoveRedaction content r
  else if String.eqb (Strategy r) "replace" then applyReplaceRedaction content r
  else Err (ErrUnknownStrategy (Strategy r)).

(** The loop of [ApplyRedactions] from redaction [i] on; the error names the
    index of the redaction that failed. *)
Fixpoint apply_from (i : Z) (content : string) (rs : list Redaction)
  : result (Z * RedactError) string :=
  match rs with
  | [] => Ok content
  | r :: rs =>
      match ApplyRedaction content r with
      | Ok content => apply_from (i + 1) content rs
      | Err e => Err (i, e)
      end
  end.

(** The returned content with the error, if any: on an error the original
    content comes back. *)
Definition ApplyRedactions (content : string) (rs : list Redaction) : string * option (Z * RedactError) :=
  match apply_from 0 content rs with
  | Ok result => (result, None)
  | Err e => (content, Some e)
  end.

Definition CountMatches (content pattern : string) : result RedactError Z :=
  if String.eqb pattern "" then Ok 0
  else match regexp_Compile pattern with
       | Ok re => Ok (FindAllCount re content)
       | Err msg => Err (ErrRedactPattern msg)
       end.
End Executor.
