(* ===== verification/PolicyPriority.v ===== *)
(** * Policy ordering ([pkg/policy/engine/priority.go])

    Priorities of policies and rules and the order they are evaluated in.
    [sort.Slice] promises a sorted permutation of its input and nothing more
    (it is not stable), so it is an interface with those two laws. *)

From Stdlib Require Import ZArith Lia Sorting.Permutation Sorting.Sorted.
From stdpp Require Import base option list strings gmap sorting.
From S2P Require Import Prelude Float64 GoValue Ast.
Local Open Scope string_scope.
Local Open Scope Z_scope.

Definition PriorityHigh : Z := 100.
Definition PriorityMedium : Z := 50.
Definition PriorityLow : Z := 10.
Definition PriorityDefault : Z := PriorityMedium.

(** The switch on a tag: a priority, or try the next tag. *)
Definition tag_priority (tag : string) : option Z :=
  if bool_decide (tag ∈ ["security"; "compliance"; "blocking"]) then Some PriorityHigh
  else if bool_decide (tag ∈ ["routing"; "transformation"]) then Some PriorityMedium
  else if bool_decide (tag ∈ ["monitoring"; "tagging"; "analytics"]) then Some PriorityLow
  else None.

Definition is_blocking_type (ty : string) : bool :=
  String.eqb ty ActionTypeDeny || String.eqb ty ActionTypeRateLimit || String.eqb ty ActionTypeBudget.

(** The loop over the actions of a rule: has a blocking, has a routing action. *)
Definition action_flags (actions : list Action) : bool * bool :=
  (existsb (fun a => is_blocking_type (a_Type a)) actions,
   existsb (fun a => String.eqb (a_Type a) ActionTypeRoute) actions).

Definition flags_priority (flags : bool * bool) : Z :=
  if fst flags then PriorityHigh else if snd flags then PriorityMedium else PriorityLow.

Fixpoint first_tag (tags : list string) : option Z :=
  match tags with
  | [] => None
  | tag :: tags => match tag_priority tag with Some p => Some p | None => first_tag tags end
  end.

Definition GetPolicyPriority (p : Policy) : Z :=
  match first_tag (p_Tags p) with
  | Some prio => prio
  | None => flags_priority (action_flags (concat (Actions <$> filter (fun r => IsEnabled r = true) (Rules p))))
  end.

Definition GetRulePriority (r : Rule) : Z :=
  if negb (r_Priority r =? 0) then r_Priority r else flags_priority (action_flags (Actions r)).

(** Higher priority first, then by name. *)
Definition by_priority {A} (prio : A -> Z) (name : A -> string) (a b : A) : bool :=
  if negb (prio a =? prio b) then prio b <? prio a else String.ltb (name a) (name b).

(** A strict weak order, what [sort.Slice] asks of its comparison. *)
Record strict_weak {A} (less : A -> A -> bool) : Prop := {
  sw_irrefl a : less a a = false;
  sw_trans a b c : less a b = true -> less b c = true -> less a c = true;
  sw_incomp a b c : less a b = false -> less b c = false -> less a c = false;
}.

Class SortSlice : Type := {
  sort_slice {A : Type} : (A -> A -> bool) -> list A -> list A;
  sort_slice_perm {A} (less : A -> A -> bool) l : sort_slice less l ≡ₚ l;
  sort_slice_sorted {A} (less : A -> A -> bool) l :
    strict_weak less -> StronglySorted (fun a b => less b a = false) (sort_slice less l);
}.

Section Priority.
Context `{SortSlice}.

Definition SortPoliciesByPriority (policies : list Policy) : list Policy :=
  sort_slice (by_priority GetPolicyPriority p_Name) policies.

Definition SortRulesByPriority (rules : list Rule) : list Rule :=
  sort_slice (by_priority GetRulePriority r_Name) rules.

(** The loop sorts the rules of each policy in place. *)
Definition NormalizePolicyPriorities (policies : list Policy) : list Policy :=
  let policies :=
    (fun p => if (1 <? length (Rules p))%nat then with_rules p (SortRulesByPriority (Rules p)) else p)
      <$> policies in
  if (1 <? length policies)%nat then SortPoliciesByPriority policies else policies.
End Priority.

(** ** The comparison is a strict weak order *)

Lemma ltb_not_le s t : String.ltb s t = false <-> String.le t s.
Proof.
  unfold String.le, String.leb, String.ltb. rewrite (String.compare_antisym t s).
  destruct (String.compare s t); simpl; by split.
Qed.

(** What [less b a = false] says: [a] may stand before [b]. *)
Definition before {A} (prio : A -> Z) (name : A -> string) (a b : A) : Prop :=
  prio b < prio a \/ (prio a = prio b /\ String.le (name a) (name b)).

Section Order.
Context {A : Type} (prio : A -> Z) (name : A -> string).

Lemma by_priority_false a b : by_priority prio name b a = false <-> before prio name a b.
Proof using.
  unfold by_priority, before. destruct (Z.eqb_spec (prio b) (prio a)) as [E|E]; simpl.
  - rewrite ltb_not_le. split; [by right|]. intros [?|[_ ?]]; [lia|done].
  - rewrite Z.ltb_ge. split; [left; lia|]. intros [?|[? _]]; lia.
Qed.

Lemma before_total a b : before prio name a b \/ before prio name b a.
Proof using.
  unfold before. destruct (Z.lt_total (prio a) (prio b)) as [|[E|]]; [by right; left| |by left; left].
  destruct (total String.le (name a) (name b)); [left|right]; right; by rewrite E.
Qed.

Lemma before_trans a b c : before prio name a b -> before prio name b c -> before prio name a c.
Proof using.
  unfold before. intros [H1|[H1 L1]] [H2|[H2 L2]]; [left; lia..|].
  right. split; [lia|]. by etrans.
Qed.

Lemma before_antisym a b :
  before prio name a b -> before prio name b a -> prio a = prio b /\ name a = name b.
Proof using.
  unfold before. intros [H1|[H1 L1]] [H2|[H2 L2]]; [lia..|].
  split; [done|]. by apply (anti_symm String.le).
Qed.

Lemma by_priority_strict_weak : strict_weak (by_priority prio name).
Proof using.
  split.
  - intros a. apply by_priority_false. by destruct (before_total a a).
  - intros a b c Hab Hbc. destruct (by_priority prio name a c) eqn:E; [done|].
    apply by_priority_false in E.
    assert (before prio name b a).
    { destruct (before_total b c) as [Hb|Hb].
      - by eapply before_trans.
      - apply by_priority_false in Hb. congruence. }
    assert (by_priority prio name a b = false) by (by apply by_priority_false). congruence.
  - intros a b c H1 H2. apply by_priority_false in H1, H2. apply by_priority_false.
    by eapply before_trans.
Qed.

(** A sorted list without duplicate names is determined by its elements. *)
Lemma sorted_unique l1 l2 :
  StronglySorted (fun a b => by_priority prio name b a = false) l1 ->
  StronglySorted (fun a b => by_priority prio name b a = false) l2 ->
  l1 ≡ₚ l2 -> NoDup (name <$> l1) -> l1 = l2.
Proof using.
  intros S1 S2 P Hnd. apply (StronglySorted_unique_strong (fun a b => by_priority prio name b a = false) l1 l2); [|done..].
  intros x y Hx Hy Hxy Hyx. apply by_priority_false in Hxy, Hyx.
  destruct (before_antisym x y Hxy Hyx) as [_ Hn]. rewrite <- P in Hy.
  clear -Hnd Hx Hy Hn. induction l1 as [|z l IH]; [by apply elem_of_nil in Hx|].
  rewrite fmap_cons in Hnd. apply NoDup_cons in Hnd as [Hz Hnd].
  apply elem_of_cons in Hx as [->|Hx], Hy as [->|Hy]; [done| | |by apply IH].
  - destruct Hz. rewrite Hn. by apply list_elem_of_fmap_2.
  - destruct Hz. rewrite <- Hn. by apply list_elem_of_fmap_2.
Qed.
End Order.

(** ** Normalised policies *)

(** The first loop of [NormalizePolicyPriorities] on one policy. *)
Definition sort_rules `{SortSlice} (p : Policy) : Policy :=
  if (1 <? length (Rules p))%nat then with_rules p (SortRulesByPriority (Rules p)) else p.

Lemma short_sorted {A} (R : A -> A -> Prop) (l : list A) :
  (1 <? length l)%nat = false -> StronglySorted R l.
Proof. destruct l as [|x [|y l]]; [repeat constructor..|done]. Qed.

Lemma sort_rules_perm `{SortSlice} p : Rules (sort_rules p) ≡ₚ Rules p.
Proof. unfold sort_rules. destruct (1 <? _)%nat; [apply sort_slice_perm|done]. Qed.

Lemma sort_rules_sorted `{SortSlice} p :
  StronglySorted (fun a b => by_priority GetRulePriority r_Name b a = false) (Rules (sort_rules p)).
Proof.
  unfold sort_rules. destruct (1 <? _)%nat eqn:E; [|by apply short_sorted].
  apply sort_slice_sorted, by_priority_strict_weak.
Qed.

Lemma sort_rules_name `{SortSlice} p : p_Name (sort_rules p) = p_Name p.
Proof. unfold sort_rules. by destruct (1 <? _)%nat. Qed.

Lemma normalize_perm `{SortSlice} ps : NormalizePolicyPriorities ps ≡ₚ sort_rules <$> ps.
Proof.
  unfold NormalizePolicyPriorities. fold sort_rules.
  destruct (1 <? _)%nat; [apply sort_slice_perm|done].
Qed.

Lemma normalize_sorted `{SortSlice} ps :
  StronglySorted (fun a b => by_priority GetPolicyPriority p_Name b a = false) (NormalizePolicyPriorities ps).
Proof.
  unfold NormalizePolicyPriorities. destruct (1 <? _)%nat eqn:E; [|by apply short_sorted].
  apply sort_slice_sorted, by_priority_strict_weak.
Qed.

(** Two sorting implementations agree on a policy whose rule names differ. *)
Lemma sort_rules_deterministic (S1 S2 : SortSlice) p :
  NoDup (r_Name <$> Rules p) -> @sort_rules S1 p = @sort_rules S2 p.
Proof.
  intros Hnd. unfold sort_rules. destruct (1 <? _)%nat; [|done]. f_equal.
  apply (sorted_unique GetRulePriority r_Name).
  - apply (@sort_slice_sorted S1), by_priority_strict_weak.
  - apply (@sort_slice_sorted S2), by_priority_strict_weak.
  - unfold SortRulesByPriority. by rewrite (@sort_slice_perm S1), (@sort_slice_perm S2).
  - unfold SortRulesByPriority. by rewrite (@sort_slice_perm S1).
Qed.

(** The evaluation order.  Loading policies keeps exactly the loaded
    policies, each with exactly its rules; policies come highest priority
    first, rules within a policy likewise, and ties are broken by name.  The
    order depends neither on the order the source delivered the policies in
    nor on the sorting algorithm, provided names are distinct. *)
Theorem normalized_order (S1 S2 : SortSlice) ps ps' :
  ps ≡ₚ ps' -> NoDup (p_Name <$> ps) -> Forall (fun p => NoDup (r_Name <$> Rules p)) ps ->
  let out := @NormalizePolicyPriorities S1 ps in
  out ≡ₚ @sort_rules S1 <$> ps /\
  StronglySorted (before GetPolicyPriority p_Name) out /\
  Forall (fun p => StronglySorted (before GetRulePriority r_Name) (Rules p)) out /\
  out = @NormalizePolicyPriorities S2 ps'.
Proof.
  intros P Hnd Hr. cbv zeta.
  assert (Hsorted : forall {A} (prio : A -> Z) name l,
    StronglySorted (fun a b => by_priority prio name b a = false) l -> StronglySorted (before prio name) l).
  { intros A prio name l. induction 1 as [|a l _ IH Ha]; constructor; [done|].
    eapply Forall_impl; [exact Ha|]. intros b. apply by_priority_false. }
  pose proof (@normalize_perm S1 ps) as Hp.
  split; [done|]. split; [apply Hsorted, (@normalize_sorted S1)|]. split.
  - rewrite Hp. apply Forall_fmap, Forall_forall. intros p _. simpl.
    apply Hsorted, (@sort_rules_sorted S1).
  - assert (E : @sort_rules S1 <$> ps = @sort_rules S2 <$> ps).
    { apply Forall_fmap_ext_1. eapply Forall_impl; [exact Hr|]. intros p. apply sort_rules_deterministic. }
    apply (sorted_unique GetPolicyPriority p_Name);
      [apply (@normalize_sorted S1)|apply (@normalize_sorted S2)| |].
    + rewrite Hp, (@normalize_perm S2), E. by rewrite P.
    + rewrite Hp, <- list_fmap_compose.
      assert (Hn : (p_Name ∘ @sort_rules S1) <$> ps = p_Name <$> ps)
        by (apply list_fmap_ext; intros i p _; apply sort_rules_name).
      by rewrite Hn.
Qed.

(** ** An implementation of the interface *)

Section MergeSort.
Context {A : Type} (less : A -> A -> bool) (Hless : strict_weak less).

Definition may_precede (a b : A) : Prop := less b a = false.

#[local] Instance may_precede_dec a b : Decision (may_precede a b).
Proof. unfold may_precede. apply _. Defined.

Lemma may_precede_total : Total may_precede.
Proof using Hless.
  intros a b. unfold may_precede. destruct (less b a) eqn:E1; [|by left]. right.
  destruct (less a b) eqn:E2; [|done].
  by rewrite <- (sw_trans less Hless a b a E2 E1), (sw_irrefl less Hless a).
Qed.

Lemma may_precede_trans : Transitive may_precede.
Proof using Hless. intros a b c H1 H2. by apply (sw_incomp less Hless c b a). Qed.
End MergeSort.

#[export] Instance may_precede_decision {A} (less : A -> A -> bool) a b : Decision (may_precede less a b).
Proof. unfold may_precede. apply _. Defined.

Definition merge_sort_slice : SortSlice := {|
  sort_slice A less l := merge_sort (may_precede less) l;
  sort_slice_perm A less l := merge_sort_Permutation (may_precede less) l;
  sort_slice_sorted A less l Hless :=
    @StronglySorted_merge_sort A (may_precede less) _ (may_precede_trans less Hless)
      (may_precede_total less Hless) l;
|}.

Definition plain_policy (name : string) (tags : list string) (rules : list Rule) : Policy :=
  mkPolicy "1.0" name "1" "" "" 0 0 tags ∅ rules [] "".

Lemma normalized_order_witness :
  let a := plain_policy "a" [] [] in
  let b := plain_policy "b" ["security"] [] in
  @NormalizePolicyPriorities merge_sort_slice [a; b] = [b; a] /\
  @NormalizePolicyPriorities merge_sort_slice [a; b] = @NormalizePolicyPriorities merge_sort_slice [b; a].
Proof.
  intros a b. split; [vm_compute; reflexivity|].
  destruct (normalized_order merge_sort_slice merge_sort_slice [a; b] [b; a]) as (_ & _ & _ & E).
  - apply perm_swap.
  - apply (bool_decide_unpack _). vm_compute. exact I.
  - repeat constructor.
  - exact E.
Defined.
