(* ===== verification/PolicyEngine.v ===== *)
(** * The policy engine ([pkg/policy/engine/engine.go])

    Evaluation of the loaded policies against a request or a response, the
    fail-safe modes, and reloading.  The matcher and the executor are those of
    [PolicyMatcher] and [PolicyExecutor]; the policy source is whatever its
    [LoadPolicies] returns at each reload. *)

From Stdlib Require Import ZArith Lia Sorting.Sorted.
From stdpp Require Import base option list strings gmap.
From S2P Require Import Prelude Float64 GoValue Ast PolicyContext PolicyFields PolicyMatcher.
From S2P Require Import PolicyExecutor PolicyPriority.
Local Open Scope string_scope.
Local Open Scope Z_scope.
Local Open Scope go_scope.

Record InterpreterEngine := mkEngine {
  policies : list Policy;
  matcher : DefaultMatcher;
  config : EngineConfig;
  stopCh_closed : bool;
}.

Definition isBlockingAction (actionType : string) : bool :=
  String.eqb actionType ActionTypeDeny || String.eqb actionType ActionTypeRateLimit
  || String.eqb actionType ActionTypeBudget.

(** How the evaluation of a rule or of all policies ends. *)
Inductive Outcome :=
| ODone
| OErr (e : EvalError)
| OPanic.

(** [time.Since(t)] *)
Definition since (t : Time) : Run Duration := let* n := rnow in rret (SubT n t).

Definition AddTraceStep (stepType policyID ruleID details : string) (duration : Duration)
    (c : EvaluationContext) : Run EvaluationContext :=
  match Trace c with
  | None => rret c
  | Some t =>
      let* n := rnow in
      rret (set_trace (Some (mkEvaluationTrace
        (Steps t ++ [mkTraceStep stepType policyID ruleID details n duration]) (TotalTime t))) c)
  end.

Definition show_bool (b : bool) : string := if b then "true" else "false".

Section Engine.
Context `{GoStd} `{TimeZones}.

(** The loop over the actions of a rule: the results so far, and the error of
    the first blocking action that failed. *)
Fixpoint execute_actions (policy : Policy) (rule : Rule) (actions : list Action)
    (executed : list ActionResult) (c : EvaluationContext)
  : Run (option EvalError * list ActionResult * EvaluationContext) :=
  match actions with
  | [] => rret (None, executed, c)
  | action :: actions =>
      let* actionStart := rnow in
      let '(result, c) := Execute action c in
      let executed := (executed ++ [result])%list in
      let* d := since actionStart in
      let* c := AddTraceStep "action_exec" (p_Name policy) (r_Name rule)
        ("executed action " +:+ a_Type action +:+ ": success=" +:+ show_bool (Success result)) d c in
      if negb (Success result) && isBlockingAction (a_Type action) then
        rret (Some (ActionError (p_Name policy) (r_Name rule) (a_Type action) None), executed, c)
      else execute_actions policy rule actions executed c
  end.

(** The record appended to [MatchedRules]. *)
Definition matched_rule (policy : Policy) (rule : Rule) (cond : bool) (executed : list ActionResult)
    (time : Duration) (err : option CondError) : MatchedRule :=
  mkMatchedRule (p_Name policy) (p_Name policy) (r_Name rule) (r_Name rule) cond executed time err.

(** The part of [evaluateRule] after the conditions matched. *)
Definition run_actions (policy : Policy) (rule : Rule) (ruleStart : Time) (c : EvaluationContext)
  : Run (Outcome * EvaluationContext) :=
  let* (err, executed, c) := execute_actions policy rule (Actions rule) [] c in
  let* d := since ruleStart in
  let c := add_matched (matched_rule policy rule true executed d None) c in
  match err with
  | Some e => rret (OErr e, c)
  | None => rret (ODone, c)
  end.

Definition evaluateRule (e : InterpreterEngine) (policy : Policy) (rule : Rule) (c : EvaluationContext)
  : Run (Outcome * EvaluationContext) :=
  let* ruleStart := rnow in
  let* c := AddTraceStep "rule_start" (p_Name policy) (r_Name rule)
    ("evaluating rule " +:+ strconv_Quote (r_Name rule)) 0 c in
  if HasConditions rule then
    let* r := Match (matcher e) (Conditions rule) c in
    match r with
    | MPanic => rret (OPanic, c)
    | MErr err =>
        let* timedOut := poll in
        if timedOut then rret (OErr (TimeoutError (p_Name policy) (r_Name rule) (RuleTimeout (config e))), c)
        else rret (OErr (ConditionError (p_Name policy) (r_Name rule) err),
                   add_matched (matched_rule policy rule false [] 0 (Some err)) c)
    | MOk condMatched =>
        let* d := since ruleStart in
        let* c := AddTraceStep "condition_eval" (p_Name policy) (r_Name rule)
          ("condition matched: " +:+ show_bool condMatched) d c in
        if condMatched then run_actions policy rule ruleStart c
        else
          let* d := since ruleStart in
          rret (ODone, add_matched (matched_rule policy rule false [] d None) c)
    end
  else run_actions policy rule ruleStart c.

(** The loop over the enabled rules of a policy. *)
Fixpoint evaluate_rules (e : InterpreterEngine) (policy : Policy) (policyStart : Time) (rules : list Rule)
    (c : EvaluationContext) : Run (Outcome * EvaluationContext) :=
  match rules with
  | [] => rret (ODone, c)
  | rule :: rules =>
      let* (o, c) := evaluateRule e policy rule c in
      match o with
      | ODone =>
          if Stopped c then
            let* d := since policyStart in
            let* c := AddTraceStep "policy_stop" (p_Name policy) (r_Name rule) "evaluation short-circuited" d c in
            rret (ODone, c)
          else evaluate_rules e policy policyStart rules c
      | o => rret (o, c)
      end
  end.

(** The loop over the policies. *)
Fixpoint evaluate_policies (e : InterpreterEngine) (ps : list Policy) (c : EvaluationContext)
  : Run (Outcome * EvaluationContext) :=
  match ps with
  | [] => rret (ODone, c)
  | policy :: ps =>
      let* cancelled := poll in
      if cancelled then rret (OErr (TimeoutError (p_Name policy) "" (PolicyTimeout (config e))), c) else
      let* policyStart := rnow in
      let* c := AddTraceStep "policy_start" (p_Name policy) ""
        ("evaluating policy " +:+ strconv_Quote (p_Name policy)) 0 c in
      let* (o, c) := evaluate_rules e policy policyStart (EnabledRules policy) c in
      match o with
      | ODone =>
          let* d := since policyStart in
          let* c := AddTraceStep "policy_end" (p_Name policy) ""
            ("completed policy " +:+ strconv_Quote (p_Name policy)) d c in
          if Stopped c then rret (ODone, c) else evaluate_policies e ps c
      | o => rret (o, c)
      end
  end.

Definition buildDecision (c : EvaluationContext) : Run PolicyDecision :=
  let* evaluationTime := since (StartTime c) in
  let trace := (fun t => mkEvaluationTrace (Steps t) evaluationTime) <$> Trace c in
  let decide action reason code target :=
    mkPolicyDecision action (MatchedRules c) reason code (Transformations c) (Redactions c) target
      (Tags c) (Notifications c) evaluationTime trace in
  rret (
    if negb (String.eqb (BlockReason c) "") then
      decide ActionBlock (BlockReason c) (if BlockStatusCode c =? 0 then 403 else BlockStatusCode c) None
    else match Routing c with
    | Some t => decide ActionRoute "" 0 (Some t)
    | None =>
        if (0 <? length (Transformations c))%nat then decide ActionTransform "" 0 None
        else decide ActionAllow "" 0 None
    end).

(** The result of an evaluation: a decision, an error, or a panic. *)
Inductive EvalResult :=
| RDecision (d : PolicyDecision)
| RError (msg : string)
| RPanic.

(** A decision with another action, reason and status code. *)
Definition override (d : PolicyDecision) (action reason : string) (code : Z) : PolicyDecision :=
  mkPolicyDecision action (d_MatchedRules d) reason code (d_Transformations d) (d_Redactions d)
    (d_RoutingTarget d) (d_Tags d) (d_Notifications d) (d_EvaluationTime d) (d_Trace d).

Definition handleEvaluationError (e : InterpreterEngine) (c : EvaluationContext) : Run EvalResult :=
  let mode := FailSafeMode (config e) in
  if String.eqb mode FailOpen then
    let* d := buildDecision c in
    rret (RDecision (override d ActionAllow (d_BlockReason d) (d_BlockStatusCode d)))
  else if String.eqb mode FailClosed then
    let* d := buildDecision c in
    rret (RDecision (override d ActionBlock "Policy evaluation error" 500))
  else if String.eqb mode FailSafeDefault then
    let* d := buildDecision c in
    rret (RDecision (
      if String.eqb (DefaultAction (config e)) ActionBlock
      then override d ActionBlock "Policy evaluation error" 500
      else override d (DefaultAction (config e)) (d_BlockReason d) (d_BlockStatusCode d)))
  else rret (RError "unknown fail-safe mode").

Definition evaluatePolicies (e : InterpreterEngine) (c : EvaluationContext)
  : Run (Outcome * EvaluationContext) :=
  match policies e with
  | [] => rret (ODone, c)
  | ps => evaluate_policies e ps c
  end.

(** The part [EvaluateRequest] and [EvaluateResponse] share. *)
Definition evaluate (e : InterpreterEngine) (c : EvaluationContext) : Run EvalResult :=
  let* (o, c) := evaluatePolicies e c in
  match o with
  | ODone => let* d := buildDecision c in rret (RDecision d)
  | OErr _ => handleEvaluationError e c
  | OPanic => rret RPanic
  end.

Definition new_context (e : InterpreterEngine) (id : string) (req : option EnrichedRequest)
    (resp : option EnrichedResponse) (start : Time) : EvaluationContext :=
  mkEvaluationContext id req resp [] ∅ [] [] [] None "" 0
    (if EnableTrace (config e) then Some (mkEvaluationTrace [] 0) else None) start false.

Definition EvaluateRequest (e : InterpreterEngine) (enriched : option EnrichedRequest) : Run EvalResult :=
  match enriched with
  | None => rret (RError "enriched request cannot be nil")
  | Some r =>
      let* start := rnow in
      evaluate e (new_context e (er_RequestID r) (Some r) None start)
  end.

Definition EvaluateResponse (e : InterpreterEngine) (enriched : option EnrichedResponse) : Run EvalResult :=
  match enriched with
  | None => rret (RError "enriched response cannot be nil")
  | Some r =>
      let* start := rnow in
      evaluate e (new_context e (es_RequestID r) None (Some r) start)
  end.
End Engine.

(** ** Loading policies *)

Inductive LoadError :=
| ReloadError (cause : string)
| TooManyPolicies (n max : Z)
| TooManyRules (policy : string) (n max : Z).

(** The validation loop: the first policy with too many rules. *)
Fixpoint check_rules (max : Z) (ps : list Policy) : option LoadError :=
  match ps with
  | [] => None
  | p :: ps =>
      if max <? RuleCount p then Some (TooManyRules (p_Name p) (RuleCount p) max) else check_rules max ps
  end.

Definition set_policies (e : InterpreterEngine) (ps : list Policy) : InterpreterEngine :=
  mkEngine ps (matcher e) (config e) (stopCh_closed e).

(** [loaded] is what [source.LoadPolicies] returns. *)
Definition ReloadPolicies `{SortSlice} (loaded : result string (list Policy)) (e : InterpreterEngine)
  : option LoadError * InterpreterEngine :=
  match loaded with
  | Err cause => (Some (ReloadError cause), e)
  | Ok ps =>
      let n := Z.of_nat (length ps) in
      if MaxPolicies (config e) <? n then (Some (TooManyPolicies n (MaxPolicies (config e))), e)
      else match check_rules (MaxRulesPerPolicy (config e)) ps with
           | Some err => (Some err, e)
           | None => (None, set_policies e (NormalizePolicyPriorities ps))
           end
  end.

Definition GetPolicies (e : InterpreterEngine) : list Policy := policies e.

(** A file event reloads; a failure is only logged. *)
Definition handlePolicyEvent `{SortSlice} (loaded : result string (list Policy)) (e : InterpreterEngine)
  : InterpreterEngine := snd (ReloadPolicies loaded e).

(** Closing twice closes a closed channel. *)
Definition Close (e : InterpreterEngine) : option InterpreterEngine :=
  if stopCh_closed e then None else Some (mkEngine (policies e) (matcher e) (config e) true).

(** [source] is [None] for a nil source. *)
Definition NewInterpreterEngine `{SortSlice} (cfg : option EngineConfig)
    (source : option (result string (list Policy))) : result string InterpreterEngine :=
  let cfg := default DefaultEngineConfig cfg in
  match Validate cfg with
  | Some _ => Err "invalid config"
  | None =>
      match source with
      | None => Err "policy source cannot be nil"
      | Some loaded =>
          let e := mkEngine [] (NewDefaultMatcher (Some cfg)) cfg false in
          match ReloadPolicies loaded e with
          | (None, e) => Ok e
          | (Some _, _) => Err "failed to load initial policies"
          end
      end
  end.

(** ** What a step of the evaluation may change *)

(** [c'] is [c] up to its trace. *)
Definition traced (c c' : EvaluationContext) : Prop := c' = set_trace (Trace c') c.

#[export] Instance traced_refl : Reflexive traced.
Proof. intros []. reflexivity. Qed.

#[export] Instance traced_trans : Transitive traced.
Proof. intros c1 c2 c3 H1 H2. unfold traced in *. rewrite H2, H1. reflexivity. Qed.

Lemma traced_fields c c' :
  traced c c' ->
  MatchedRules c' = MatchedRules c /\ BlockReason c' = BlockReason c /\
  BlockStatusCode c' = BlockStatusCode c /\ Stopped c' = Stopped c /\
  Request c' = Request c /\ Response c' = Response c /\ RequestID c' = RequestID c.
Proof. intros ->. repeat split. Qed.

Lemma add_trace_traced ty p r d dur c e i : traced c (fst (AddTraceStep ty p r d dur c e i)).
Proof. unfold AddTraceStep. destruct (Trace c) eqn:E; [reflexivity|]. by destruct c. Qed.

(** A step of the evaluation monad, with its result named. *)
Ltac rstep :=
  match goal with
  | |- context [AddTraceStep ?ty ?p ?r ?d ?dur ?c ?e ?i] =>
      let c' := fresh "c" in let j := fresh "j" in let Ht := fresh "Ht" in
      pose proof (add_trace_traced ty p r d dur c e i) as Ht;
      destruct (AddTraceStep ty p r d dur c e i) as [c' j]; cbn [fst] in Ht
  end.

Definition is_deny (a : ActionResult) : bool := String.eqb (ar_ActionType a) ActionTypeDeny.
Definition is_allow (a : ActionResult) : bool := String.eqb (ar_ActionType a) ActionTypeAllow.

(** Some rule executed a deny action. *)
Definition denied (ms : list MatchedRule) : bool := existsb (fun m => existsb is_deny (ActionsExecuted m)) ms.

(** The rule executed an action that ends the evaluation. *)
Definition terminal (m : MatchedRule) : bool :=
  existsb (fun a => is_deny a || is_allow a) (ActionsExecuted m).

Lemma or_default_nonempty s d : d <> "" -> or_default s d <> "".
Proof. intros Hd. unfold or_default. destruct (String.eqb_spec s ""); done. Qed.

Lemma isBlocking_types ty :
  isBlockingAction ty = true -> ty = ActionTypeDeny \/ ty = ActionTypeRateLimit \/ ty = ActionTypeBudget.
Proof.
  unfold isBlockingAction. intros [[H|H]%orb_prop|H]%orb_prop; apply String.eqb_eq in H; auto.
Qed.

Section Steps.
Context `{GoStd} `{TimeZones}.

(** What executing one action does to the parts that decide the outcome. *)
Record executes (a : Action) (c : EvaluationContext) (r : ActionResult) (c' : EvaluationContext) : Prop := {
  ex_type : ar_ActionType r = a_Type a;
  ex_matched : MatchedRules c' = MatchedRules c;
  ex_success : isBlockingAction (a_Type a) = true -> Success r = true;
  ex_deny : is_deny r = true -> BlockReason c' <> "" /\ BlockStatusCode c' <> 0;
  ex_keep : is_deny r = false -> BlockReason c' = BlockReason c /\ BlockStatusCode c' = BlockStatusCode c;
  ex_stop : Stopped c' = Stopped c || (is_deny r || is_allow r);
}.

Ltac other_action :=
  match goal with
  | Hd : ?t <> ActionTypeDeny, Ha : ?t <> ActionTypeAllow |- _ =>
      apply String.eqb_neq in Hd, Ha
  end;
  split; cbn; unfold is_deny, is_allow; cbn; try done; try (by intros; congruence);
  try (match goal with Hd : (_ =? _)%string = false, Ha : (_ =? _)%string = false |- _ =>
         rewrite ?Hd, ?Ha, ?orb_false_r end; done).

Lemma execute_spec a c : executes a c (fst (Execute a c)) (snd (Execute a c)).
Proof using.
  unfold Execute.
  destruct (String.eqb_spec (a_Type a) ActionTypeAllow) as [Ea|Ea].
  { split; cbn; unfold is_deny, is_allow; cbn; rewrite ?Ea; try done. by destruct (Stopped c). }
  destruct (String.eqb_spec (a_Type a) ActionTypeDeny) as [Ed|Ed].
  { split; cbn; unfold is_deny, is_allow; cbn; rewrite ?Ed; try done.
    - intros _. split; [by apply or_default_nonempty|].
      destruct (Z.eqb_spec (to_int64 (GetNumberParameter a "status_code")) 0); done.
    - by destruct (Stopped c). }
  destruct (String.eqb_spec (a_Type a) ActionTypeLog) as [E|_]; [other_action|].
  destruct (String.eqb_spec (a_Type a) ActionTypeRedact) as [E|_]; [other_action|].
  destruct (String.eqb_spec (a_Type a) ActionTypeModify) as [E|_].
  { unfold executeModify. destruct (String.eqb _ ""); other_action.
    by rewrite E. }
  destruct (String.eqb_spec (a_Type a) ActionTypeRoute) as [E|_].
  { unfold executeRoute. destruct (String.eqb _ ""); other_action.
    by rewrite E. }
  destruct (String.eqb_spec (a_Type a) ActionTypeAlert) as [E|_].
  { unfold executeAlert. destruct (String.eqb _ ""); other_action.
    by rewrite E. }
  destruct (String.eqb_spec (a_Type a) ActionTypeTag) as [E|_].
  { unfold executeTag. destruct (String.eqb (GetStringParameter a "key") ""); other_action.
    by rewrite E. }
  destruct (String.eqb_spec (a_Type a) ActionTypeRateLimit) as [E|Er]; [other_action|].
  destruct (String.eqb_spec (a_Type a) ActionTypeBudget) as [E|Eb]; [other_action|].
  other_action. intros [B|[B|B]]%isBlocking_types; by rewrite B in *.
Qed.

Lemma execute_actions_spec policy rule actions executed c e i :
  exists rs c' j,
    execute_actions policy rule actions executed c e i = ((None, (executed ++ rs)%list, c'), j) /\
    ar_ActionType <$> rs = a_Type <$> actions /\
    MatchedRules c' = MatchedRules c /\
    Stopped c' = Stopped c || existsb (fun a => is_deny a || is_allow a) rs /\
    (existsb is_deny rs = true -> BlockReason c' <> "" /\ BlockStatusCode c' <> 0) /\
    (existsb is_deny rs = false -> BlockReason c' = BlockReason c /\ BlockStatusCode c' = BlockStatusCode c).
Proof using.
  revert executed c i. induction actions as [|a actions IH]; intros executed c i.
  { exists [], c, i. rewrite app_nil_r. simpl. by rewrite orb_false_r. }
  cbn [execute_actions]. unfold rbind, rnow, rret, since.
  pose proof (execute_spec a c) as [Hty Hm Hok Hd Hk Hs].
  destruct (Execute a c) as [r c1]. cbn [fst snd] in *. unfold rbind, rnow, rret.
  rstep. apply traced_fields in Ht as (Tm & Tb & Tc & Ts & _).
  destruct (negb (Success r) && isBlockingAction (a_Type a)) eqn:Ef.
  { apply andb_prop in Ef as [E1 E2]. rewrite (Hok E2) in E1. done. }
  destruct (IH (executed ++ [r])%list c0 j) as (rs & c2 & k & -> & Ty2 & Hm2 & Hs2 & Hd2 & Hk2).
  exists (r :: rs), c2, k. split; [by rewrite <- app_assoc|].
  split; [rewrite !fmap_cons; by f_equal|]. split; [congruence|].
  split; [cbn [existsb]; rewrite Hs2, Ts, Hs, !orb_assoc; done|].
  cbn [existsb]. destruct (existsb is_deny rs) eqn:Er.
  - rewrite orb_true_r. split; [by intros _; apply Hd2|done].
  - rewrite orb_false_r. destruct (Hk2 eq_refl) as [-> ->]. rewrite Tb, Tc. split; [apply Hd|apply Hk].
Qed.

(** What the evaluation of one rule leaves behind. *)
Inductive rule_result (policy : Policy) (rule : Rule) (c : EvaluationContext) : Outcome -> EvaluationContext -> Prop :=
| rr_done c' m :
    MatchedRules c' = (MatchedRules c ++ [m])%list ->
    PolicyID m = p_Name policy -> RuleID m = r_Name rule ->
    Stopped c' = Stopped c || terminal m ->
    (existsb is_deny (ActionsExecuted m) = true -> BlockReason c' <> "" /\ BlockStatusCode c' <> 0) ->
    (existsb is_deny (ActionsExecuted m) = false ->
       BlockReason c' = BlockReason c /\ BlockStatusCode c' = BlockStatusCode c) ->
    rule_result policy rule c ODone c'
| rr_stuck o c' ms :
    o <> ODone -> MatchedRules c' = (MatchedRules c ++ ms)%list ->
    ms = [] \/ (exists m, ms = [m] /\ PolicyID m = p_Name policy /\ RuleID m = r_Name rule /\
                 ActionsExecuted m = []) ->
    Stopped c' = Stopped c -> BlockReason c' = BlockReason c -> BlockStatusCode c' = BlockStatusCode c ->
    rule_result policy rule c o c'.

Lemma run_actions_result policy rule start c0 c e i :
  traced c0 c ->
  exists c' j, run_actions policy rule start c e i = ((ODone, c'), j) /\ rule_result policy rule c0 ODone c'.
Proof using.
  intros (Tm & Tb & Tc & Ts & _)%traced_fields. unfold run_actions, rbind, since, rnow, rret.
  destruct (execute_actions_spec policy rule (Actions rule) [] c e i)
    as (rs & c1 & j & -> & _ & Hm & Hs & Hd & Hk).
  do 2 eexists. split; [done|]. unfold rbind, rnow, rret. eapply rr_done; cbn.
  - by rewrite Hm, Tm.
  - done.
  - done.
  - by rewrite Hs, Ts.
  - apply Hd.
  - rewrite <- Tb, <- Tc. apply Hk.
Qed.

Lemma evaluateRule_result e policy rule c env i :
  exists o c' j, evaluateRule e policy rule c env i = ((o, c'), j) /\ rule_result policy rule c o c'.
Proof using.
  unfold evaluateRule, rbind, rnow. rstep.
  destruct (HasConditions rule).
  2: { destruct (run_actions_result policy rule (clock env i) c c0 env j Ht) as (c1 & k & -> & Hr). eauto. }
  destruct (Match (matcher e) (Conditions rule) c0 env j) as [[b|err|] k].
  - unfold since, rbind, rnow, rret. rstep.
    assert (Ht' : traced c c1) by (by etrans). destruct b.
    + destruct (run_actions_result policy rule (clock env i) c c1 env j0 Ht') as (c2 & n & -> & Hr). eauto.
    + do 3 eexists. split; [done|]. apply traced_fields in Ht' as (Tm & Tb & Tc & Ts & _).
      eapply rr_done; cbn; [by rewrite Tm|done|done|by rewrite Ts, orb_false_r|done|done].
  - unfold poll, rret. apply traced_fields in Ht as (Tm & Tb & Tc & Ts & _).
    destruct (done env k); do 3 eexists; (split; [done|]).
    + apply (rr_stuck policy rule c _ _ []); [done|by rewrite app_nil_r|by left|done..].
    + eapply rr_stuck; cbn; [done|by rewrite Tm| |done..]. right. by eexists.
  - unfold rret. apply traced_fields in Ht as (Tm & Tb & Tc & Ts & _).
    do 3 eexists. split; [done|].
    apply (rr_stuck policy rule c _ _ []); [done|by rewrite app_nil_r|by left|done..].
Qed.
End Steps.

(** ** Invariants of an evaluation *)

(** The context records exactly what was executed: a block reason if and only
    if some rule denied, and no rule after one that ended the evaluation. *)
Record good (c : EvaluationContext) : Prop := {
  g_block : denied (MatchedRules c) = negb (String.eqb (BlockReason c) "");
  g_code : BlockReason c <> "" -> BlockStatusCode c <> 0;
  g_terminal : if Stopped c
    then exists ms m, MatchedRules c = (ms ++ [m])%list /\ terminal m = true /\
           Forall (fun m => terminal m = false) ms
    else Forall (fun m => terminal m = false) (MatchedRules c);
}.

Lemma denied_app ms ms' : denied (ms ++ ms') = denied ms || denied ms'.
Proof. unfold denied. apply existsb_app. Qed.

Lemma terminal_deny m : terminal m = false -> existsb is_deny (ActionsExecuted m) = false.
Proof.
  unfold terminal. induction (ActionsExecuted m) as [|a l IH]; cbn; [done|].
  destruct (is_deny a); [done|]. cbn. destruct (is_allow a); [done|]. apply IH.
Qed.

Lemma not_terminal_not_denied ms : Forall (fun m => terminal m = false) ms -> denied ms = false.
Proof.
  induction 1 as [|m ms Hm _ IH]; [done|]. unfold denied in *. cbn. by rewrite (terminal_deny m Hm), IH.
Qed.

Lemma good_new e id req resp start : good (new_context e id req resp start).
Proof. split; cbn; [done|done|constructor]. Qed.

Lemma rule_result_good policy rule c o c' :
  rule_result policy rule c o c' -> good c -> Stopped c = false ->
  good c' /\ (o <> ODone -> Stopped c' = false).
Proof.
  intros Hr [Gb Gc Gt] Hs. rewrite Hs in Gt.
  assert (Hb0 : BlockReason c = "").
  { rewrite (not_terminal_not_denied _ Gt) in Gb. by destruct (String.eqb_spec (BlockReason c) ""). }
  destruct Hr as [c' m Hm _ _ Hst Hd Hk|o c' ms Ho Hm Hms Hst Hbr Hcode].
  - split; [|done]. rewrite Hs in Hst. simpl in Hst.
    assert (Hden : denied (MatchedRules c') = existsb is_deny (ActionsExecuted m)).
    { rewrite Hm, denied_app, (not_terminal_not_denied _ Gt). cbn. by rewrite orb_false_r. }
    destruct (existsb is_deny (ActionsExecuted m)) eqn:Ed.
    + destruct (Hd eq_refl) as [Hne Hcode]. split; [|done|].
      * rewrite Hden. by destruct (String.eqb_spec (BlockReason c') "").
      * rewrite Hst. destruct (terminal m) eqn:Et; [by exists (MatchedRules c), m|].
        apply terminal_deny in Et. congruence.
    + destruct (Hk eq_refl) as [Hbr Hcode]. split.
      * by rewrite Hden, Hbr, Hb0.
      * rewrite Hbr, Hb0. done.
      * rewrite Hst. destruct (terminal m) eqn:Et; [by exists (MatchedRules c), m|].
        rewrite Hm. apply Forall_app. by repeat constructor.
  - split; [|by intros _; rewrite Hst].
    assert (Hterm : Forall (fun m => terminal m = false) (MatchedRules c')).
    { rewrite Hm. apply Forall_app. split; [done|].
      destruct Hms as [->|(m & -> & _ & _ & Ha)]; repeat constructor. unfold terminal. by rewrite Ha. }
    split.
    + by rewrite (not_terminal_not_denied _ Hterm), Hbr, Hb0.
    + by rewrite Hbr, Hb0.
    + by rewrite Hst, Hs.
Qed.

(** The rules in the order they are evaluated, and those a context has seen. *)
Definition rule_ids (p : Policy) : list (string * string) :=
  (fun r => (p_Name p, r_Name r)) <$> EnabledRules p.

Definition schedule (ps : list Policy) : list (string * string) := concat (rule_ids <$> ps).

Definition visited (c : EvaluationContext) : list (string * string) :=
  (fun m => (PolicyID m, RuleID m)) <$> MatchedRules c.

(** [evolves todo c o c']: from [c] to [c'] the evaluation visited a prefix of
    [todo], all of it unless it stopped or failed. *)
Record evolves (todo : list (string * string)) (c : EvaluationContext) (o : Outcome) (c' : EvaluationContext)
  : Prop := {
  ev_good : good c';
  ev_stuck : o <> ODone -> Stopped c' = false;
  ev_visited : exists seen rest, visited c' = (visited c ++ seen)%list /\ todo = (seen ++ rest)%list /\
    (o = ODone -> Stopped c' = false -> rest = []);
}.

Lemma evolves_traced todo c o c' c'' : evolves todo c o c' -> traced c' c'' -> evolves todo c o c''.
Proof.
  intros [[Gb Gc Gt] Hst Hv] Ht. pose proof (traced_fields c' c'' Ht) as (Tm & Tb & Tc & Ts & _).
  split.
  - split; [by rewrite Tm, Tb|by rewrite Tb, Tc|by rewrite Ts, Tm].
  - by rewrite Ts.
  - unfold visited in *. by rewrite Tm, Ts.
Qed.

Lemma evolves_from_traced todo c0 c o c' : traced c0 c -> evolves todo c o c' -> evolves todo c0 o c'.
Proof.
  intros Ht [G S V]. split; [done|done|]. apply traced_fields in Ht as (Tm & _).
  unfold visited in *. by rewrite Tm in V.
Qed.

Lemma evolves_app todo1 todo2 c o c' o' c'' :
  evolves todo1 c o c' -> o = ODone -> Stopped c' = false -> evolves todo2 c' o' c'' ->
  evolves (todo1 ++ todo2) c o' c''.
Proof.
  intros [_ _ (s1 & r1 & V1 & E1 & D1)] Ho Hs [G2 S2 (s2 & r2 & V2 & E2 & D2)]. subst o.
  specialize (D1 eq_refl Hs). subst r1. split; [done|done|].
  exists (s1 ++ s2)%list, r2. split; [by rewrite V2, V1, app_assoc|].
  split; [by rewrite E1, E2, app_nil_r, app_assoc|done].
Qed.

Lemma evolves_stop todo more c o c' :
  evolves todo c o c' -> (o = ODone -> Stopped c' = true) -> evolves (todo ++ more) c o c'.
Proof.
  intros [G S (s & r & V & E & D)] Hs. split; [done|done|].
  exists s, (r ++ more)%list. split; [done|]. split; [by rewrite E, app_assoc|].
  intros Ho Hf. rewrite (Hs Ho) in Hf. done.
Qed.

Lemma evolves_refl c : good c -> evolves [] c ODone c.
Proof. intros G. split; [done|done|]. exists [], []. by rewrite app_nil_r. Qed.

Section Loops.
Context `{GoStd} `{TimeZones}.

Lemma rule_evolves policy rule c o c' :
  rule_result policy rule c o c' -> good c -> Stopped c = false ->
  evolves [(p_Name policy, r_Name rule)] c o c'.
Proof using.
  intros Hr G Hs. destruct (rule_result_good policy rule c o c' Hr G Hs) as [G' S'].
  split; [done|done|]. unfold visited. destruct Hr as [c' m Hm Hp Hn _ _ _|o c' ms Ho Hm Hms _ _ _].
  - exists [(p_Name policy, r_Name rule)], []. rewrite Hm, fmap_app. simpl. by rewrite Hp, Hn.
  - destruct Hms as [->|(m & -> & Hp & Hn & _)].
    + exists [], [(p_Name policy, r_Name rule)]. rewrite Hm, app_nil_r. split; [by rewrite app_nil_r|done].
    + exists [(p_Name policy, r_Name rule)], []. rewrite Hm, fmap_app. simpl. by rewrite Hp, Hn.
Qed.

Lemma evaluate_rules_evolves e policy start rules c env i :
  good c -> Stopped c = false ->
  exists o c' j, evaluate_rules e policy start rules c env i = ((o, c'), j) /\
    evolves ((fun r => (p_Name policy, r_Name r)) <$> rules) c o c'.
Proof using.
  revert c i. induction rules as [|rule rules IH]; intros c i G Hs.
  { exists ODone, c, i. split; [done|]. by apply evolves_refl. }
  cbn [evaluate_rules]. unfold rbind at 1.
  destruct (evaluateRule_result e policy rule c env i) as (o & c1 & j & -> & Hr).
  pose proof (rule_evolves policy rule c o c1 Hr G Hs) as Ev.
  rewrite fmap_cons. change (?x :: ?l) with ([x] ++ l)%list.
  destruct o as [|err|].
  - destruct (Stopped c1) eqn:Es.
    + unfold since, rbind, rnow, rret. rstep. do 3 eexists. split; [done|].
      apply (evolves_traced _ _ _ c1); [|done]. by apply evolves_stop.
    + destruct (IH c1 j (ev_good _ _ _ _ Ev) Es) as (o & c2 & k & -> & Ev2).
      do 3 eexists. split; [done|]. by eapply evolves_app.
  - do 3 eexists. split; [done|]. by apply evolves_stop.
  - do 3 eexists. split; [done|]. by apply evolves_stop.
Qed.

Lemma evaluate_policies_evolves e ps c env i :
  good c -> Stopped c = false ->
  exists o c' j, evaluate_policies e ps c env i = ((o, c'), j) /\ evolves (schedule ps) c o c'.
Proof using.
  revert c i. induction ps as [|p ps IH]; intros c i G Hs.
  { exists ODone, c, i. split; [done|]. by apply evolves_refl. }
  cbn [evaluate_policies]. unfold rbind at 1. unfold poll.
  destruct (done env i).
  { do 3 eexists. split; [done|]. split; [done|done|].
    exists [], (schedule (p :: ps)). by rewrite app_nil_r. }
  unfold rbind at 1 2. unfold rnow at 1. rstep. pose proof (traced_fields c c0 Ht) as (Tm & Tb & Tc & Ts & _).
  assert (G0 : good c0).
  { destruct G as [Gb Gc Gt]. split; [by rewrite Tm, Tb|by rewrite Tb, Tc|by rewrite Ts, Tm]. }
  unfold rbind at 1.
  destruct (evaluate_rules_evolves e p (clock env (S i)) (EnabledRules p) c0 env j G0 ltac:(congruence))
    as (o & c1 & k & -> & Ev).
  apply (evolves_from_traced _ c) in Ev; [|done].
  unfold schedule. rewrite fmap_cons. cbn [concat]. fold (rule_ids p) in Ev.
  destruct o as [|err|].
  - unfold since, rbind, rnow, rret. rstep.
    apply (evolves_traced _ _ _ c1 c2) in Ev; [|done].
    destruct (Stopped c2) eqn:Es.
    + do 3 eexists. split; [done|]. by apply evolves_stop.
    + destruct (IH c2 j0 (ev_good _ _ _ _ Ev) Es) as (o & c3 & n & -> & Ev2).
      do 3 eexists. split; [done|]. by eapply evolves_app.
  - do 3 eexists. split; [done|]. by apply evolves_stop.
  - do 3 eexists. split; [done|]. by apply evolves_stop.
Qed.

Lemma evaluatePolicies_evolves e c env i :
  good c -> Stopped c = false ->
  exists o c' j, evaluatePolicies e c env i = ((o, c'), j) /\ evolves (schedule (policies e)) c o c'.
Proof using.
  intros G Hs. unfold evaluatePolicies. destruct (policies e) as [|p ps] eqn:E.
  - exists ODone, c, i. split; [done|]. by apply evolves_refl.
  - rewrite <- E. by apply evaluate_policies_evolves.
Qed.
End Loops.

(** ** The decision *)

Section Decisions.
Context `{GoStd} `{TimeZones}.

Lemma build_decision c env i :
  good c ->
  exists d, buildDecision c env i = (d, S i) /\ d_MatchedRules d = MatchedRules c /\
    (denied (MatchedRules c) = true ->
       d_Action d = ActionBlock /\ d_BlockReason d <> "" /\ d_BlockStatusCode d <> 0) /\
    (denied (MatchedRules c) = false ->
       d_BlockReason d = "" /\ d_BlockStatusCode d = 0 /\ d_RoutingTarget d = Routing c /\
       d_Action d = match Routing c with
         | Some _ => ActionRoute
         | None => if (0 <? length (Transformations c))%nat then ActionTransform else ActionAllow
         end).
Proof using.
  intros [Gb Gc _]. unfold buildDecision, since, rbind, rnow, rret.
  eexists. split; [reflexivity|]. rewrite Gb.
  destruct (String.eqb_spec (BlockReason c) "") as [E|E]; simpl.
  - destruct (Routing c); [done|]. by destruct (0 <? _)%nat.
  - split; [done|]. split; [|done]. intros _. specialize (Gc E).
    split; [done|]. split; [done|]. by destruct (Z.eqb_spec (BlockStatusCode c) 0).
Qed.

(** A decision made after an error, by fail-safe mode. *)
Definition error_decision (cfg : EngineConfig) (d : PolicyDecision) : Prop :=
  let block := d_Action d = ActionBlock /\ d_BlockReason d = "Policy evaluation error" /\
    d_BlockStatusCode d = 500 in
  (FailSafeMode cfg = FailOpen /\ d_Action d = ActionAllow) \/
  (FailSafeMode cfg = FailClosed /\ block) \/
  (FailSafeMode cfg = FailSafeDefault /\ DefaultAction cfg = ActionAllow /\ d_Action d = ActionAllow) \/
  (FailSafeMode cfg = FailSafeDefault /\ DefaultAction cfg = ActionBlock /\ block).

Lemma validate_modes cfg :
  Validate cfg = None ->
  FailSafeMode cfg = FailOpen \/ FailSafeMode cfg = FailClosed \/
  (FailSafeMode cfg = FailSafeDefault /\ (DefaultAction cfg = ActionAllow \/ DefaultAction cfg = ActionBlock)).
Proof using.
  unfold Validate.
  destruct (String.eqb_spec (FailSafeMode cfg) FailOpen) as [|_]; [by left|].
  destruct (String.eqb_spec (FailSafeMode cfg) FailClosed) as [|_]; [by right; left|].
  destruct (String.eqb_spec (FailSafeMode cfg) FailSafeDefault) as [E|_]; [|done]. simpl.
  destruct (String.eqb_spec (DefaultAction cfg) ActionAllow) as [|_]; [auto|].
  destruct (String.eqb_spec (DefaultAction cfg) ActionBlock) as [|_]; [auto|done].
Qed.

Lemma handle_error e c env i :
  Validate (config e) = None -> good c -> Stopped c = false ->
  exists d j, handleEvaluationError e c env i = (RDecision d, j) /\
    d_MatchedRules d = MatchedRules c /\ denied (MatchedRules c) = false /\ error_decision (config e) d.
Proof using.
  intros Hv G Hs.
  assert (Hden : denied (MatchedRules c) = false).
  { destruct G as [_ _ Gt]. rewrite Hs in Gt. by apply not_terminal_not_denied. }
  unfold handleEvaluationError, rbind, rret, error_decision.
  destruct (build_decision c env i G) as (d & Hb & Hm & _ & _).
  destruct (validate_modes _ Hv) as [->|[->|[-> Ha]]]; [..|destruct Ha as [->| ->]];
    cbv [FailOpen FailClosed FailSafeDefault ActionAllow ActionBlock];
    cbn [String.eqb Ascii.eqb Bool.eqb]; rewrite Hb; do 2 eexists; (split; [done|]); (split; [done|]); (split; [done|]).
  - by left.
  - by right; left.
  - by right; right; left.
  - by right; right; right.
Qed.

(** The complete description of an evaluation. *)
Lemma evaluate_spec e c env i :
  Validate (config e) = None -> good c -> Stopped c = false -> MatchedRules c = [] ->
  exists o c' r j, evaluate e c env i = (r, j) /\ evolves (schedule (policies e)) c o c' /\
    match o with
    | OPanic => r = RPanic
    | ODone => exists d, r = RDecision d /\ d_MatchedRules d = MatchedRules c' /\
        (denied (MatchedRules c') = true ->
           d_Action d = ActionBlock /\ d_BlockReason d <> "" /\ d_BlockStatusCode d <> 0) /\
        (denied (MatchedRules c') = false -> d_Action d <> ActionBlock)
    | OErr _ => exists d, r = RDecision d /\ d_MatchedRules d = MatchedRules c' /\
        denied (MatchedRules c') = false /\ error_decision (config e) d
    end.
Proof using.
  intros Hv G Hs Hm. unfold evaluate, rbind, rret.
  destruct (evaluatePolicies_evolves e c env i G Hs) as (o & c' & j & -> & Ev).
  pose proof (ev_good _ _ _ _ Ev) as G'. destruct o as [|err|].
  - destruct (build_decision c' env j G') as (d & -> & Hd & H1 & H2).
    do 4 eexists. split; [done|]. split; [exact Ev|]. exists d.
    split; [done|]. split; [done|]. split; [done|]. intros Hden.
    destruct (H2 Hden) as (_ & _ & _ & ->). destruct (Routing c'); [done|].
    by destruct (0 <? _)%nat.
  - destruct (handle_error e c' env j Hv G' (ev_stuck _ _ _ _ Ev ltac:(done))) as (d & k & -> & Hd & Hden & He).
    do 4 eexists. split; [done|]. split; [exact Ev|]. by exists d.
  - do 4 eexists. split; [done|]. split; [exact Ev|]. done.
Qed.
End Decisions.

(** Evaluation of a request or of a response. *)
Inductive evaluates `{GoStd} `{TimeZones} (e : InterpreterEngine) (env : Env) (i : nat) : EvalResult -> Prop :=
| ev_request r : evaluates e env i (fst (EvaluateRequest e (Some r) env i))
| ev_response r : evaluates e env i (fst (EvaluateResponse e (Some r) env i)).

Lemma evaluates_spec `{GoStd} `{TimeZones} e env i r :
  Validate (config e) = None -> evaluates e env i r ->
  exists c o c' j k, good c /\ Stopped c = false /\ MatchedRules c = [] /\
    evaluate e c env j = (r, k) /\ evolves (schedule (policies e)) c o c' /\
    match o with
    | OPanic => r = RPanic
    | ODone => exists d, r = RDecision d /\ d_MatchedRules d = MatchedRules c' /\
        (denied (MatchedRules c') = true ->
           d_Action d = ActionBlock /\ d_BlockReason d <> "" /\ d_BlockStatusCode d <> 0) /\
        (denied (MatchedRules c') = false -> d_Action d <> ActionBlock)
    | OErr _ => exists d, r = RDecision d /\ d_MatchedRules d = MatchedRules c' /\
        denied (MatchedRules c') = false /\ error_decision (config e) d
    end.
Proof.
  intros Hv Hr. destruct Hr as [rq|rs].
  - set (c := new_context e (er_RequestID rq) (Some rq) None (clock env i)).
    destruct (evaluate_spec e c env (S i) Hv (good_new _ _ _ _ _) eq_refl eq_refl)
      as (o & c' & r & k & E & Ev & Hcase).
    exists c, o, c', (S i), k. split; [apply good_new|]. split; [done|]. split; [done|].
    unfold EvaluateRequest, rbind, rnow. fold c. rewrite E. done.
  - set (c := new_context e (es_RequestID rs) None (Some rs) (clock env i)).
    destruct (evaluate_spec e c env (S i) Hv (good_new _ _ _ _ _) eq_refl eq_refl)
      as (o & c' & r & k & E & Ev & Hcase).
    exists c, o, c', (S i), k. split; [apply good_new|]. split; [done|]. split; [done|].
    unfold EvaluateResponse, rbind, rnow. fold c. rewrite E. done.
Qed.



(** ** Every evaluation ends in a decision *)

(** The conditions of the enabled rules carry values to compare with. *)
Definition well_formed (p : Policy) : Prop :=
  Forall (fun r => forall cond, Conditions r = Some cond -> has_values cond = true) (EnabledRules p).

Section Total.
Context `{GoStd} `{TimeZones}.

Lemma run_actions_done policy rule start c env i : fst (fst (run_actions policy rule start c env i)) = ODone.
Proof using.
  destruct (run_actions_result policy rule start c c env i) as (c' & j & -> & _); [reflexivity|done].
Qed.

Lemma evaluateRule_calm e policy rule c env i :
  (forall cond, Conditions rule = Some cond -> has_values cond = true) ->
  fst (fst (evaluateRule e policy rule c env i)) <> OPanic.
Proof using.
  intros Hv. unfold evaluateRule, rbind, rnow. rstep.
  destruct (HasConditions rule); [|by rewrite run_actions_done].
  assert (Hc : fst (Match (matcher e) (Conditions rule) c0 env j) <> MPanic).
  { unfold Match. destruct (Conditions rule) as [cond|]; [|done]. apply match_node_calm. by apply Hv. }
  destruct (Match (matcher e) (Conditions rule) c0 env j) as [[b|err|] k]; [| |done].
  - unfold since, rbind, rnow, rret. rstep. destruct b; [by rewrite run_actions_done|done].
  - unfold poll, rret. by destruct (done env k).
Qed.

Lemma evaluate_rules_calm e policy start rules c env i :
  Forall (fun r => forall cond, Conditions r = Some cond -> has_values cond = true) rules ->
  fst (fst (evaluate_rules e policy start rules c env i)) <> OPanic.
Proof using.
  intros Hv. revert c i. induction Hv as [|rule rules Hr _ IH]; intros c i; [done|].
  cbn [evaluate_rules]. unfold rbind at 1.
  pose proof (evaluateRule_calm e policy rule c env i Hr) as Hp.
  destruct (evaluateRule e policy rule c env i) as [[o c1] j]. simpl in Hp.
  destruct o; [|done..]. destruct (Stopped c1); [|apply IH].
  unfold since, rbind, rnow, rret. by rstep.
Qed.

Lemma evaluate_policies_calm e ps c env i :
  Forall well_formed ps -> fst (fst (evaluate_policies e ps c env i)) <> OPanic.
Proof using.
  intros Hv. revert c i. induction Hv as [|p ps Hp _ IH]; intros c i; [done|].
  cbn [evaluate_policies]. unfold rbind at 1. unfold poll. destruct (done env i); [done|].
  unfold rbind at 1 2. unfold rnow at 1. rstep. unfold rbind at 1.
  pose proof (evaluate_rules_calm e p (clock env (S i)) (EnabledRules p) c0 env j Hp) as Hr.
  destruct (evaluate_rules e p _ _ c0 env j) as [[o c1] k]. simpl in Hr.
  destruct o; [|done..]. unfold since, rbind, rnow, rret. rstep.
  destruct (Stopped c2); [done|apply IH].
Qed.

Lemma evaluate_calm e c env i :
  Forall well_formed (policies e) -> fst (evaluate e c env i) <> RPanic.
Proof using.
  intros Hw. assert (Hc : fst (fst (evaluatePolicies e c env i)) <> OPanic).
  { unfold evaluatePolicies. destruct (policies e) as [|p ps]; [done|]. by apply evaluate_policies_calm. }
  unfold evaluate, rbind. destruct (evaluatePolicies e c env i) as [[o c'] j].
  destruct o; [by destruct (buildDecision c' env j)| |done].
  unfold handleEvaluationError, rbind, rret. repeat (destruct (String.eqb _ _); [by destruct (buildDecision c' env j)|]).
  done.
Qed.
End Total.

(** ** What an evaluation reports, and when it fails *)

(** The enabled rules in the order of the loaded policies. *)
Definition schedule_rules (ps : list Policy) : list (Policy * Rule) :=
  concat ((fun p => pair p <$> EnabledRules p) <$> ps).

Section Explained.
Context `{GoStd} `{TimeZones}.
Variable e : InterpreterEngine.
Variable env : Env.
Variable req : option EnrichedRequest.
Variable resp : option EnrichedResponse.

(** The matcher answers [r] for the conditions of the rule on this request or
    response. *)
Definition judged (rule : Rule) (r : Matched) : Prop :=
  exists c i, Request c = req /\ Response c = resp /\ fst (Match (matcher e) (Conditions rule) c env i) = r.

(** A rule that was evaluated without an error: its conditions had a truth value,
    and its actions ran exactly if that was true. *)
Definition settled (pr : Policy * Rule) (m : MatchedRule) : Prop :=
  PolicyID m = p_Name (fst pr) /\ RuleID m = r_Name (snd pr) /\ mr_Error m = None /\
  (if HasConditions (snd pr) then judged (snd pr) (MOk (ConditionResult m)) else ConditionResult m = true) /\
  ar_ActionType <$> ActionsExecuted m = (if ConditionResult m then a_Type <$> Actions (snd pr) else []).

(** An evaluation that failed: after rules that were settled the context was done,
    or the conditions of the next rule had an error, which is reported. *)
Definition failed (todo : list (Policy * Rule)) (ms : list MatchedRule) : Prop :=
  exists seen rest ms0, todo = (seen ++ rest)%list /\ Forall2 settled seen ms0 /\
    ((ms = ms0 /\ exists i, done env i = true) \/
     (exists pr rest' m err, rest = pr :: rest' /\ ms = (ms0 ++ [m])%list /\
        PolicyID m = p_Name (fst pr) /\ RuleID m = r_Name (snd pr) /\ mr_Error m = Some err /\ judged (snd pr) (MErr err))).

(** What the evaluation of [todo] from [c] leaves, by its outcome. *)
Definition explains (todo : list (Policy * Rule)) (c : EvaluationContext) (o : Outcome) (c' : EvaluationContext) : Prop :=
  Request c' = req /\ Response c' = resp /\
  exists ms, MatchedRules c' = (MatchedRules c ++ ms)%list /\
  match o with
  | ODone => exists seen rest, todo = (seen ++ rest)%list /\ Forall2 settled seen ms /\ (Stopped c' = false -> rest = [])
  | OErr _ => failed todo ms
  | OPanic => True
  end.

Lemma executes_same a c : Request (snd (Execute a c)) = Request c /\ Response (snd (Execute a c)) = Response c.
Proof using.
  unfold Execute, executeModify, executeRoute, executeAlert, executeTag.
  repeat (case_match; try done).
Qed.

Lemma execute_actions_same policy rule actions executed c i :
  Request (execute_actions policy rule actions executed c env i).1.2 = Request c /\
  Response (execute_actions policy rule actions executed c env i).1.2 = Response c.
Proof using.
  revert executed c i. induction actions as [|a actions IH]; intros executed c i; [done|].
  cbn [execute_actions]. unfold rbind, rnow, rret, since.
  pose proof (executes_same a c) as [Hq Hp]. destruct (Execute a c) as [r c1]. cbn [snd] in Hq, Hp.
  unfold rbind, rnow, rret. rstep. apply traced_fields in Ht as (_ & _ & _ & _ & Tq & Tp & _).
  destruct (negb _ && _); [by cbn; rewrite Tq, Tp, Hq, Hp|].
  destruct (IH (executed ++ [r])%list c0 j) as [-> ->]. by rewrite Tq, Tp, Hq, Hp.
Qed.

Lemma run_actions_settled policy rule start c i :
  Request c = req -> Response c = resp ->
  exists c' j m, run_actions policy rule start c env i = ((ODone, c'), j) /\
    Request c' = req /\ Response c' = resp /\ MatchedRules c' = (MatchedRules c ++ [m])%list /\
    PolicyID m = p_Name policy /\ RuleID m = r_Name rule /\ mr_Error m = None /\ ConditionResult m = true /\
    ar_ActionType <$> ActionsExecuted m = a_Type <$> Actions rule.
Proof using.
  intros Hq Hp. unfold run_actions, rbind, since, rnow, rret.
  pose proof (execute_actions_same policy rule (Actions rule) [] c i) as Hs.
  destruct (execute_actions_spec policy rule (Actions rule) [] c env i) as (rs & c1 & j & E & Hty & Hm & _).
  rewrite E in Hs |- *. cbn in Hs. destruct Hs as [Hq1 Hp1]. unfold rbind, rnow, rret.
  do 3 eexists. split; [done|]. cbn. split_and!; [congruence|congruence|by rewrite Hm|done..].
Qed.

Lemma rule_explains policy rule c i :
  Request c = req -> Response c = resp ->
  let '((o, c'), _) := evaluateRule e policy rule c env i in explains [(policy, rule)] c o c'.
Proof using.
  intros Hq Hp. unfold evaluateRule, rbind, rnow. rstep.
  apply traced_fields in Ht as (Tm & _ & _ & _ & Tq & Tp & _).
  destruct (HasConditions rule) eqn:Hcond.
  - pose proof (fun r => ex_intro (fun c => exists i, Request c = req /\ Response c = resp /\
      fst (Match (matcher e) (Conditions rule) c env i) = r) c0) as Hj.
    assert (Hj' : judged rule (fst (Match (matcher e) (Conditions rule) c0 env j)))
      by (apply Hj; exists j; split_and!; congruence).
    destruct (Match (matcher e) (Conditions rule) c0 env j) as [[b|err|] k]; cbn [fst] in Hj'.
    + unfold since, rbind, rnow, rret. rstep. apply traced_fields in Ht as (Tm' & _ & _ & _ & Tq' & Tp' & _).
      destruct b.
      * destruct (run_actions_settled policy rule (clock env i) c1 j0) as (c2 & n & m & -> & Hq2 & Hp2 & Hm2 & H1 & H2 & H3 & H4 & H5);
          [congruence..|].
        split_and!; [done..|]. exists [m]. split; [cbn; congruence|]. exists [(policy, rule)], []. split_and!; [done| |done].
        repeat constructor; cbn; try done; rewrite ?Hcond, ?H4; done.
      * split_and!; [cbn; congruence..|]. eexists [_]. split; [cbn; by rewrite Tm', Tm|].
        exists [(policy, rule)], []. split_and!; [done| |done]. repeat constructor; cbn; try done. by rewrite Hcond.
    + unfold poll, rret. destruct (done env k) eqn:Hd; (split_and!; [cbn; congruence..|]).
      * exists []. split; [cbn; by rewrite app_nil_r|]. exists [], [(policy, rule)], []. split_and!; [done|constructor|left; eauto].
      * eexists [_]. split; [cbn; by rewrite Tm|]. exists [], [(policy, rule)], []. split_and!; [done|constructor|].
        right. by eexists _, _, _, _.
    + split_and!; [cbn; congruence..|]. exists []. cbn. by rewrite app_nil_r, Tm.
  - destruct (run_actions_settled policy rule (clock env i) c0 j) as (c2 & n & m & -> & Hq2 & Hp2 & Hm2 & H1 & H2 & H3 & H4 & H5);
      [congruence..|].
    split_and!; [done..|]. exists [m]. split; [cbn; congruence|]. exists [(policy, rule)], []. split_and!; [done| |done].
    repeat constructor; cbn; try done; rewrite ?Hcond, ?H4; done.
Qed.

Lemma explains_traced todo c0 c o c' c'' :
  traced c0 c -> explains todo c o c' -> traced c' c'' -> explains todo c0 o c''.
Proof using.
  intros (Tm & _ & _ & _ & Tq & Tp & _)%traced_fields (Hq & Hp & ms & Hm & Ho) (Tm' & _ & _ & Ts' & Tq' & Tp' & _)%traced_fields.
  split_and!; [congruence..|]. exists ms. split; [congruence|]. by rewrite Ts'.
Qed.

Lemma explains_more todo more c o c' :
  explains todo c o c' -> (o = ODone -> Stopped c' = true) -> explains (todo ++ more) c o c'.
Proof using.
  intros (Hq & Hp & ms & Hm & Ho) Hs. split_and!; [done..|]. exists ms. split; [done|]. destruct o as [|err|]; [..|done].
  - destruct Ho as (seen & rest & -> & Hf & _). exists seen, (rest ++ more)%list. rewrite app_assoc. split_and!; [done..|].
    by rewrite Hs.
  - destruct Ho as (seen & rest & ms0 & -> & Hf & Hcase). exists seen, (rest ++ more)%list, ms0. rewrite app_assoc.
    split_and!; [done..|]. destruct Hcase as [?|(pr & rest' & m & er & -> & ?)]; [by left|]. right.
    by exists pr, (rest' ++ more)%list, m, er.
Qed.

Lemma explains_app todo1 todo2 c c' o' c'' :
  explains todo1 c ODone c' -> Stopped c' = false -> explains todo2 c' o' c'' -> explains (todo1 ++ todo2) c o' c''.
Proof using.
  intros (_ & _ & ms1 & Hm1 & seen1 & rest1 & -> & Hf1 & Hr1) Hs (Hq & Hp & ms2 & Hm2 & Ho).
  rewrite (Hr1 Hs), app_nil_r. split_and!; [done..|]. exists (ms1 ++ ms2)%list.
  split; [by rewrite Hm2, Hm1, app_assoc|]. destruct o' as [|err|]; [..|done].
  - destruct Ho as (seen & rest & -> & Hf & Hr). exists (seen1 ++ seen)%list, rest. rewrite app_assoc.
    split_and!; [done|by apply Forall2_app|done].
  - destruct Ho as (seen & rest & ms0 & -> & Hf & Hcase). exists (seen1 ++ seen)%list, rest, (ms1 ++ ms0)%list. rewrite app_assoc.
    split_and!; [done|by apply Forall2_app|].
    destruct Hcase as [[-> ?]|(pr & rest' & m & er & -> & -> & ?)]; [by left|]. right.
    exists pr, rest', m, er. by rewrite app_assoc.
Qed.

Lemma explains_refl c : Request c = req -> Response c = resp -> explains [] c ODone c.
Proof using.
  intros Hq Hp. split_and!; [done..|]. exists []. rewrite app_nil_r. split; [done|]. exists [], [].
  split_and!; [done|constructor|done].
Qed.

Lemma rules_explain policy start rules c i :
  Request c = req -> Response c = resp ->
  let '((o, c'), _) := evaluate_rules e policy start rules c env i in explains (pair policy <$> rules) c o c'.
Proof using.
  revert c i. induction rules as [|rule rules IH]; intros c i Hq Hp; [by apply explains_refl|].
  cbn [evaluate_rules]. unfold rbind at 1. pose proof (rule_explains policy rule c i Hq Hp) as Hr.
  destruct (evaluateRule e policy rule c env i) as [[o c1] j].
  rewrite fmap_cons. change (?x :: ?l) with ([x] ++ l)%list. destruct o as [|err|].
  - destruct (Stopped c1) eqn:Es.
    + unfold since, rbind, rnow, rret. rstep. apply (explains_traced _ c c _ c1); [reflexivity| |done].
      by apply explains_more.
    + pose proof (IH c1 j ltac:(apply Hr) ltac:(apply Hr)) as Hr2.
      destruct (evaluate_rules e policy start rules c1 env j) as [[o2 c2] k]. by eapply explains_app.
  - by apply explains_more.
  - by apply explains_more.
Qed.

Lemma policies_explain ps c i :
  Request c = req -> Response c = resp ->
  let '((o, c'), _) := evaluate_policies e ps c env i in explains (schedule_rules ps) c o c'.
Proof using.
  revert c i. induction ps as [|p ps IH]; intros c i Hq Hp; [by apply explains_refl|].
  cbn [evaluate_policies]. unfold rbind at 1. unfold poll. destruct (done env i) eqn:Hd.
  { split_and!; [done..|]. exists []. rewrite app_nil_r. split; [done|].
    exists [], (schedule_rules (p :: ps)), []. split_and!; [done|constructor|left; eauto]. }
  unfold rbind at 1 2. unfold rnow at 1. rstep. unfold rbind at 1.
  pose proof (traced_fields c c0 Ht) as (_ & _ & _ & _ & Tq & Tp & _).
  pose proof (rules_explain p (clock env (S i)) (EnabledRules p) c0 j ltac:(congruence) ltac:(congruence)) as Hr.
  destruct (evaluate_rules e p _ _ c0 env j) as [[o c1] k].
  unfold schedule_rules. rewrite fmap_cons. cbn [concat]. fold (schedule_rules ps). destruct o as [|err|].
  - unfold since, rbind, rnow, rret. rstep. apply (explains_traced _ c _ _ _ c2) in Hr; [|done..].
    destruct (Stopped c2) eqn:Es; [by apply explains_more|].
    pose proof (IH c2 j0 ltac:(apply Hr) ltac:(apply Hr)) as Hr2.
    destruct (evaluate_policies e ps c2 env j0) as [[o3 c3] n]. by eapply explains_app.
  - apply (explains_more _ _ c); [|done]. by eapply explains_traced.
  - apply (explains_more _ _ c); [|done]. by eapply explains_traced.
Qed.

Lemma evaluation_explained c i :
  Request c = req -> Response c = resp ->
  let '((o, c'), _) := evaluatePolicies e c env i in explains (schedule_rules (policies e)) c o c'.
Proof using.
  intros Hq Hp. unfold evaluatePolicies. destruct (policies e) as [|p ps] eqn:E; [by apply explains_refl|].
  by apply policies_explain.
Qed.

(** A context that is done from the start. *)
Lemma cancelled_fails c i :
  policies e <> [] -> (forall j, (i <= j)%nat -> done env j = true) ->
  exists err, (evaluatePolicies e c env i).1.1 = OErr err.
Proof using.
  intros Hne Hd. unfold evaluatePolicies. destruct (policies e) as [|p ps]; [done|]. cbn [evaluate_policies].
  unfold rbind at 1. unfold poll. rewrite Hd by lia. cbn. eauto.
Qed.
End Explained.

(** An evaluation with its subject. *)
Inductive evaluates_on `{GoStd} `{TimeZones} (e : InterpreterEngine) (env : Env) (i : nat) :
    option EnrichedRequest -> option EnrichedResponse -> EvalResult -> Prop :=
| eo_request r : evaluates_on e env i (Some r) None (fst (EvaluateRequest e (Some r) env i))
| eo_response r : evaluates_on e env i None (Some r) (fst (EvaluateResponse e (Some r) env i)).

Lemma evaluates_on_starts `{GoStd} `{TimeZones} e env i req resp r :
  evaluates_on e env i req resp r ->
  exists c, good c /\ Stopped c = false /\ MatchedRules c = [] /\ Request c = req /\ Response c = resp /\
    r = fst (evaluate e c env (S i)).
Proof.
  intros []; eexists; (split; [apply good_new|]); split_and!; try reflexivity;
    unfold EvaluateRequest, EvaluateResponse, rbind, rnow; reflexivity.
Qed.


(** ** Fields that cannot be read *)

Section Missing.
Context `{GoStd} `{TimeZones}.

Lemma deny_rule_denies policy rule start c c0 env i :
  traced c0 c -> existsb (fun a => String.eqb (a_Type a) ActionTypeDeny) (Actions rule) = true ->
  Stopped c0 = false ->
  exists c' j, run_actions policy rule start c env i = ((ODone, c'), j) /\
    Stopped c' = true /\ denied (MatchedRules c') = true.
Proof using.
  intros (Tm & _ & _ & Ts & _)%traced_fields Hden Hs. unfold run_actions, rbind, since, rnow, rret.
  destruct (execute_actions_spec policy rule (Actions rule) [] c env i)
    as (rs & c1 & j & -> & Hty & Hm & Hst & _ & _). unfold rbind, rnow, rret.
  assert (Hd : existsb is_deny rs = true).
  { revert Hden Hty. clear. generalize (Actions rule). intros l. revert rs.
    induction l as [|a l IH]; intros [|r rs]; try done. cbn. intros Hl [= E1 E2].
    unfold is_deny at 1. rewrite E1. destruct (String.eqb (a_Type a) ActionTypeDeny); [done|]. by apply IH. }
  do 2 eexists. split; [done|]. cbn. split.
  - rewrite Hst. assert (existsb (fun a => is_deny a || is_allow a) rs = true) as ->; [|by rewrite orb_true_r].
    clear -Hd. induction rs as [|r rs IH]; [done|]. cbn in *.
    destruct (is_deny r); [done|]. simpl in *. rewrite IH by done. by rewrite orb_true_r.
  - rewrite denied_app. cbn. rewrite Hd. by rewrite orb_true_r.
Qed.
End Missing.

(** A condition on a field that cannot be read counts as true in fail-open
    mode.  So when the first enabled rule of the first policy guards a deny
    with such a condition, every request is blocked, although the mode is
    meant to let requests proceed when something goes wrong. *)
Theorem fail_open_missing_field_blocks `{GoStd} `{TimeZones} e p ps rule rules cond rq env i :
  policies e = p :: ps -> EnabledRules p = rule :: rules ->
  failSafeMode (matcher e) = FailOpen ->
  Conditions rule = Some cond -> cn_Type cond = ConditionTypeSimple ->
  (forall c, Request c = Some rq -> extractField (Field cond) c = None) ->
  existsb (fun a => String.eqb (a_Type a) ActionTypeDeny) (Actions rule) = true ->
  done env (S i) = false ->
  exists d, fst (EvaluateRequest e (Some rq) env i) = RDecision d /\
    d_Action d = ActionBlock /\ denied (d_MatchedRules d) = true.
Proof.
  intros Hps Hrules Hmode Hcond Hsimple Hfield Hdeny Hpoll.
  unfold EvaluateRequest, rbind at 1. unfold rnow at 1.
  set (c := new_context e (er_RequestID rq) (Some rq) None (clock env i)).
  assert (Hdone : exists c' j, evaluatePolicies e c env (S i) = ((ODone, c'), j) /\
    denied (MatchedRules c') = true /\ good c').
  { destruct (evaluatePolicies_evolves e c env (S i) (good_new _ _ _ _ _) eq_refl)
      as (o & c' & j & E & Ev).
    pose proof (ev_good _ _ _ _ Ev) as G. clear Ev. exists c', j.
    assert (Hgoal : o = ODone /\ denied (MatchedRules c') = true);
      [|destruct Hgoal as [-> Hd]; by rewrite E]. clear G. revert E.
    unfold evaluatePolicies. rewrite Hps. cbn [evaluate_policies]. unfold rbind at 1. unfold poll.
    rewrite Hpoll. unfold rbind at 1 2. unfold rnow at 1. rstep. rename Ht into Ht0.
    rewrite Hrules. cbn [evaluate_rules]. unfold rbind at 1 2. unfold evaluateRule.
    unfold rbind at 1 2. unfold rnow at 1. rstep.
    assert (Tc1 : traced c c1) by (by etrans).
    unfold HasConditions. rewrite Hcond. rewrite bool_decide_eq_true_2 by eauto.
    assert (HM : Match (matcher e) (Some cond) c1 env j1 = (MOk true, j1)).
    { cbn [Match]. destruct cond as [ty fld op v fn args children]. cbn in Hsimple. subst ty.
      cbn [match_node cn_Type String.eqb]. unfold rret, matchSimple. cbn [Field].
      rewrite Hfield; [by rewrite Hmode|].
      apply traced_fields in Tc1 as (_ & _ & _ & _ & -> & _). done. }
    unfold since, rbind, rnow, rret. rewrite HM. rstep.
    assert (Tc2 : traced c c2) by (by etrans).
    destruct (deny_rule_denies p rule (clock env j0) c2 c env j2 Tc2 Hdeny eq_refl)
      as (c3 & k & -> & Hs3 & Hd3).
    rewrite Hs3. rstep.
    pose proof (traced_fields _ _ Ht2) as (Tm & _ & _ & Ts & _). rstep.
    pose proof (traced_fields _ _ Ht3) as (Tm' & _ & _ & Ts' & _).
    rewrite Ts', Ts, Hs3. intros [= <- <- <-]. split; [done|]. by rewrite Tm', Tm. }
  destruct Hdone as (c' & j & E & Hden & G). unfold evaluate, rbind. rewrite E.
  destruct (build_decision c' env j G) as (d & -> & Hm & Hb & _). exists d. split; [done|].
  rewrite Hm. split; [by apply Hb|done].
Qed.

(** ** Reloading *)

Inductive engine_reachable (cfg : option EngineConfig) : InterpreterEngine -> Prop :=
| er_new (S : SortSlice) source e :
    NewInterpreterEngine cfg source = Ok e -> engine_reachable cfg e
| er_event (S : SortSlice) loaded e :
    engine_reachable cfg e -> engine_reachable cfg (handlePolicyEvent loaded e).

(** Within the configured limits and in evaluation order. *)
Record loaded_ok (cfg : EngineConfig) (e : InterpreterEngine) : Prop := {
  lo_config : config e = cfg;
  lo_matcher : matcher e = NewDefaultMatcher (Some cfg);
  lo_count : Z.of_nat (length (policies e)) <= MaxPolicies cfg;
  lo_rules : Forall (fun p => RuleCount p <= MaxRulesPerPolicy cfg) (policies e);
  lo_sorted : StronglySorted (fun a b => by_priority GetPolicyPriority p_Name b a = false) (policies e);
}.

Lemma check_rules_ok max ps : check_rules max ps = None -> Forall (fun p => RuleCount p <= max) ps.
Proof.
  induction ps as [|p ps IH]; cbn; [constructor|].
  destruct (Z.ltb_spec max (RuleCount p)); [done|]. intros Hp. constructor; [lia|by apply IH].
Qed.

Lemma reload_cases `{SortSlice} loaded e :
  (exists err, ReloadPolicies loaded e = (Some err, e)) \/
  exists ps, loaded = Ok ps /\ ReloadPolicies loaded e = (None, set_policies e (NormalizePolicyPriorities ps)) /\
    Z.of_nat (length ps) <= MaxPolicies (config e) /\
    Forall (fun p => RuleCount p <= MaxRulesPerPolicy (config e)) ps.
Proof.
  unfold ReloadPolicies. destruct loaded as [ps|cause]; [|left; eauto].
  destruct (Z.ltb_spec (MaxPolicies (config e)) (Z.of_nat (length ps))); [left; eauto|].
  destruct (check_rules (MaxRulesPerPolicy (config e)) ps) as [err|] eqn:E; [left; eauto|].
  right. exists ps. split; [done|]. split; [done|]. split; [lia|]. by apply check_rules_ok.
Qed.

Lemma loaded_ok_reload `{SortSlice} cfg e ps :
  config e = cfg -> matcher e = NewDefaultMatcher (Some cfg) ->
  Z.of_nat (length ps) <= MaxPolicies cfg -> Forall (fun p => RuleCount p <= MaxRulesPerPolicy cfg) ps ->
  loaded_ok cfg (set_policies e (NormalizePolicyPriorities ps)).
Proof.
  intros Hc Hm Hn Hr. split; cbn; [done|done| | |apply normalize_sorted].
  - by rewrite (normalize_perm ps), length_fmap.
  - rewrite (normalize_perm ps). apply Forall_fmap. eapply Forall_impl; [exact Hr|].
    intros p Hp. unfold RuleCount in *. simpl. by rewrite (Permutation_length (sort_rules_perm p)).
Qed.

Lemma engine_reachable_ok cfg e :
  engine_reachable cfg e ->
  Validate (default DefaultEngineConfig cfg) = None /\ loaded_ok (default DefaultEngineConfig cfg) e.
Proof.
  induction 1 as [S source e Hn|S loaded e _ [Hv IH]].
  - unfold NewInterpreterEngine in Hn. destruct (Validate _) eqn:Hv; [done|]. split; [done|].
    destruct source as [loaded|]; [|done].
    set (e0 := mkEngine _ _ _ _) in Hn.
    destruct (reload_cases loaded e0) as [[err E]|(ps & _ & E & Hc & Hr)]; rewrite E in Hn; [done|].
    injection Hn as <-. by apply loaded_ok_reload.
  - split; [done|]. unfold handlePolicyEvent.
    destruct (reload_cases loaded e) as [[err ->]|(ps & _ & -> & Hc & Hr)]; [done|].
    destruct IH as [H1 H2 _ _ _]. rewrite H1 in Hc, Hr. by apply loaded_ok_reload.
Qed.

(** An engine always runs a complete, admissible set of policies.  From
    its creation and through any sequence of file events, its configuration is
    valid, the number of policies and of rules per policy is within the
    configured limits and the policies are in evaluation order.  A reload that
    fails leaves the engine exactly as it was; one that succeeds installs the
    policies delivered by the source, all of them. *)
Theorem reload_is_safe cfg e :
  engine_reachable cfg e ->
  let c := default DefaultEngineConfig cfg in
  Validate (config e) = None /\ config e = c /\
  Z.of_nat (length (policies e)) <= MaxPolicies c /\
  Forall (fun p => RuleCount p <= MaxRulesPerPolicy c) (policies e) /\
  StronglySorted (fun a b => by_priority GetPolicyPriority p_Name b a = false) (policies e) /\
  forall (S : SortSlice) loaded,
    match ReloadPolicies loaded e with
    | (Some _, e') => e' = e
    | (None, e') => exists ps, loaded = Ok ps /\ policies e' ≡ₚ sort_rules <$> ps
    end.
Proof.
  intros Hr. destruct (engine_reachable_ok cfg e Hr) as [Hv [H1 H2 H3 H4 H5]]. cbv zeta.
  rewrite H1. do 5 (split; [done|]). intros S loaded.
  destruct (reload_cases loaded e) as [[err ->]|(ps & -> & -> & _)]; [done|].
  exists ps. split; [done|]. apply normalize_perm.
Qed.

(** ** A small engine *)

Definition deny_action : Action := mkAction ActionTypeDeny ∅.

Definition demo_rule (cond : ConditionNode) : Rule := mkRule "block-pii" "" true (Some cond) [deny_action] 0.

Definition demo_engine (cfg : EngineConfig) (cond : ConditionNode) : InterpreterEngine :=
  mkEngine [plain_policy "pii" [] [demo_rule cond]] (NewDefaultMatcher (Some cfg)) cfg false.

Definition demo_env : Env := mkEnv (fun i => Hour + Z.of_nat i) (fun _ => false).

Definition open_config : EngineConfig :=
  mkEngineConfig FailOpen ActionBlock (50 * Millisecond) (100 * Millisecond) true 100 50 None.




Lemma fail_open_missing_field_blocks_witness :
  let std := plain_std in let tz := no_zones in
  let cond := simple "request.content_analysis.has_pii" OperatorEqual (VBool true) in
  exists d, fst (EvaluateRequest (demo_engine open_config cond) (Some pii_request) demo_env 0%nat) = RDecision d /\
    d_Action d = ActionBlock.
Proof.
  intros std tz cond.
  destruct (fail_open_missing_field_blocks (H := std) (H0 := tz) (demo_engine open_config cond)
    (plain_policy "pii" [] [demo_rule cond]) [] (demo_rule cond) [] cond pii_request demo_env 0%nat)
    as (d & E & A & _); try reflexivity.
  - intros c Hc. change (extractRequestField ["content_analysis"; "has_pii"] c = None).
    unfold extractRequestField. rewrite Hc. reflexivity.
  - exists d. split; [exact E|exact A].
Defined.

Lemma reload_is_safe_witness :
  exists e, NewInterpreterEngine (H := merge_sort_slice) None (Some (Ok [plain_policy "a" [] []])) = Ok e /\
    Validate (config e) = None /\ Z.of_nat (length (policies e)) <= 100.
Proof.
  destruct (NewInterpreterEngine (H := merge_sort_slice) None (Some (Ok [plain_policy "a" [] []])))
    as [e|msg] eqn:E; [|vm_compute in E; discriminate E].
  exists e. split; [reflexivity|].
  destruct (reload_is_safe None e (er_new None merge_sort_slice _ e E)) as (V & _ & N & _).
  split; [exact V|exact N].
Defined.
