(* ===== verification/StickyCache.v ===== *)
(** * Sticky routing cache ([pkg/routing/cache.go])

    The map from user, session or API key to provider name with its expiry
    and least-recently-used eviction.  Every method takes the lock, so the
    cache is the sequence of its critical sections; [Get] has two of them,
    [get_read] and [get_touch], and other goroutines may run in between. *)

From Stdlib Require Import ZArith Lia.
From stdpp Require Import base option list strings gmap.
From S2P Require Import Prelude.
Local Open Scope string_scope.
Local Open Scope Z_scope.
Local Open Scope go_scope.

Record StickyEntry := mkStickyEntry {
  ProviderName : string;
  ExpiresAt : Time;
  CreatedAt : Time;
  AccessCount : Z;
  LastAccessedAt : Time;
}.

Record StickyCache := mkStickyCache {
  entries : gmap string StickyEntry;
  ttl : Duration;
  maxEntries : Z;
  cleanupInterval : Duration;
  stopCh_closed : bool;
}.

Definition set_entries (c : StickyCache) (m : gmap string StickyEntry) : StickyCache :=
  mkStickyCache m (ttl c) (maxEntries c) (cleanupInterval c) (stopCh_closed c).

(** The constructor starts the cleanup goroutine when [ttl > 0]: its runs are
    the [OExpire] operations of [exec] below. *)
Definition NewStickyCache (ttl : Duration) (maxEntries : Z) : StickyCache :=
  let ci :=
    if 0 <? ttl then
      let half := Z.quot ttl 2 in
      if half <? 10 * Second then 10 * Second else half
    else Minute in
  mkStickyCache ∅ ttl maxEntries ci false.

(** The read-locked section of [Get]. *)
Definition get_read (key : string) (c : StickyCache) : Timed (option string) :=
  match entries c !! key with
  | None => tret None
  | Some entry =>
      if 0 <? ttl c then
        let! t := now in
        tret (if After t (ExpiresAt entry) then None else Some (ProviderName entry))
      else tret (Some (ProviderName entry))
  end.

Definition touch (t : Time) (e : StickyEntry) : StickyEntry :=
  mkStickyEntry (ProviderName e) (ExpiresAt e) (CreatedAt e) (AccessCount e +64 1) t.

(** The write-locked section of [Get]. *)
Definition get_touch (key : string) (c : StickyCache) : Timed StickyCache :=
  match entries c !! key with
  | Some entry => let! t := now in tret (set_entries c (<[key := touch t entry]> (entries c)))
  | None => tret c
  end.

Definition Get (key : string) (c : StickyCache) : Timed ((string * bool) * StickyCache) :=
  let! found := get_read key c in
  match found with
  | None => tret (("", false), c)
  | Some providerName => let! c := get_touch key c in tret ((providerName, true), c)
  end.

(** One iteration of the search: the oldest key so far, [""] for none. *)
Definition older (acc : string * Time) (e : string * StickyEntry) : string * Time :=
  if String.eqb (fst acc) "" || Before (LastAccessedAt (snd e)) (snd acc)
  then (fst e, LastAccessedAt (snd e)) else acc.

Definition evictLRU `{MapRange} (c : StickyCache) : StickyCache :=
  if Z.of_nat (size (entries c)) =? 0 then c
  else
    let '(oldestKey, _) := foldl older ("", zero_time) (range (entries c)) in
    if String.eqb oldestKey "" then c else set_entries c (delete oldestKey (entries c)).

Definition fresh_entry (now : Time) (ttl : Duration) (providerName : string) : StickyEntry :=
  mkStickyEntry providerName (if 0 <? ttl then AddD now ttl else zero_time) now 1 now.

Definition Set_ `{MapRange} (now : Time) (key providerName : string) (c : StickyCache) : StickyCache :=
  let full := (0 <? maxEntries c) && (maxEntries c <=? Z.of_nat (size (entries c))) in
  let exists_ := match entries c !! key with Some _ => true | None => false end in
  let c := if full && negb exists_ then evictLRU c else c in
  set_entries c (<[key := fresh_entry now (ttl c) providerName]> (entries c)).

Definition Delete (key : string) (c : StickyCache) : StickyCache :=
  set_entries c (delete key (entries c)).

Definition Size (c : StickyCache) : Z := Z.of_nat (size (entries c)).

Definition Clear (c : StickyCache) : StickyCache := set_entries c ∅.

(** Closing a closed channel panics. *)
Definition Close (c : StickyCache) : option StickyCache :=
  if stopCh_closed c then None
  else Some (mkStickyCache (entries c) (ttl c) (maxEntries c) (cleanupInterval c) true).

Definition expire_step (now : Time) (m : gmap string StickyEntry) (e : string * StickyEntry)
  : gmap string StickyEntry :=
  if After now (ExpiresAt (snd e)) then delete (fst e) m else m.

Definition removeExpired `{MapRange} (now : Time) (c : StickyCache) : StickyCache :=
  if ttl c =? 0 then c
  else set_entries c (foldl (expire_step now) (entries c) (range (entries c))).

(** The cleanup goroutine on the events its [select] receives: a tick with
    the clock reading it is handled at, or the closed channel. *)
Fixpoint cleanupExpired `{MapRange} (events : list (option Time)) (c : StickyCache) : StickyCache :=
  match events with
  | [] => c
  | None :: _ => c
  | Some now :: events => cleanupExpired events (removeExpired now c)
  end.

(** ** Eviction *)

Lemma older_fold l k0 t0 :
  k0 <> "" -> Forall (fun e => fst e <> "") l ->
  exists k t, foldl older (k0, t0) l = (k, t) /\ k <> "" /\ t <= t0 /\
    (forall k' e', (k', e') ∈ l -> t <= LastAccessedAt e') /\
    ((k, t) = (k0, t0) \/ exists e, (k, e) ∈ l /\ LastAccessedAt e = t).
Proof.
  revert k0 t0. induction l as [|[k1 e1] l IH]; intros k0 t0 Hk0 Hl; cbn [foldl].
  { exists k0, t0. split; [done|]. split; [done|]. split; [lia|]. split; [|by left].
    intros k' e' H. by apply elem_of_nil in H. }
  apply Forall_cons in Hl as [Hk1 Hl]. simpl in Hk1.
  unfold older at 2. cbn [fst snd]. apply String.eqb_neq in Hk0 as Ek0. rewrite Ek0. cbn [orb].
  unfold Before. destruct (Z.ltb_spec (LastAccessedAt e1) t0) as [Hlt|Hge].
  - destruct (IH k1 (LastAccessedAt e1) Hk1 Hl) as (k & t & -> & Hk & Hle & Hall & Hor).
    exists k, t. split; [done|]. split; [done|]. split; [lia|]. split.
    + intros k' e' [[= -> ->]|Hin]%elem_of_cons; [done|eauto].
    + right. destruct Hor as [[= -> ->]|(e & Hin & He)]; [exists e1; by split; [left|]|].
      exists e. by split; [right|].
  - destruct (IH k0 t0 Hk0 Hl) as (k & t & -> & Hk & Hle & Hall & Hor).
    exists k, t. split; [done|]. split; [done|]. split; [lia|]. split.
    + intros k' e' [[= -> ->]|Hin]%elem_of_cons; [lia|eauto].
    + destruct Hor as [->|(e & Hin & He)]; [by left|]. right. exists e. by split; [right|].
Qed.

(** With no empty key in a non-empty cache, [evictLRU] removes one entry, whose
    last access is the oldest. *)
Lemma evictLRU_spec `{MapRange} c :
  entries c <> ∅ -> entries c !! "" = None ->
  exists k e, entries c !! k = Some e /\
    (forall k' e', entries c !! k' = Some e' -> LastAccessedAt e <= LastAccessedAt e') /\
    evictLRU c = set_entries c (delete k (entries c)).
Proof.
  intros Hne Hempty. unfold evictLRU.
  destruct (Z.eqb_spec (Z.of_nat (size (entries c))) 0) as [Hz|_].
  { destruct Hne. apply map_size_empty_iff. lia. }
  assert (Hr : forall k e, (k, e) ∈ range (entries c) <-> entries c !! k = Some e)
    by (intros; apply elem_of_range).
  destruct (range (entries c)) as [|[k0 e0] l] eqn:E.
  { destruct Hne. apply map_eq. intros k. rewrite lookup_empty.
    destruct (entries c !! k) as [e|] eqn:Hk; [|done]. apply Hr in Hk. by apply elem_of_nil in Hk. }
  assert (Hnk : forall k e, (k, e) ∈ (k0, e0) :: l -> k <> "").
  { intros k e Hin ->. apply Hr in Hin. by rewrite Hempty in Hin. }
  cbn [foldl]. unfold older at 2. cbn [fst snd String.eqb orb].
  destruct (older_fold l k0 (LastAccessedAt e0)) as (k & t & -> & Hk & Hle & Hall & Hor).
  { apply (Hnk k0 e0). left. }
  { apply Forall_forall. intros [k e] Hin. apply (Hnk k e). by right. }
  apply String.eqb_neq in Hk as ->.
  assert (He : exists e, (k, e) ∈ (k0, e0) :: l /\ LastAccessedAt e = t).
  { destruct Hor as [[= -> ->]|(e & Hin & He)]; [exists e0; by split; [left|]|].
    exists e. by split; [right|]. }
  destruct He as (e & Hin & He). exists k, e. split; [by apply Hr|]. split; [|done].
  intros k' e' Hk'. apply Hr, elem_of_cons in Hk' as [[= -> ->]|Hk']; [lia|].
  rewrite He. by apply Hall in Hk'.
Qed.

Lemma expire_fold now l m :
  (forall k e, (k, e) ∈ l -> m !! k = Some e \/ m !! k = None) ->
  forall k e, foldl (expire_step now) m l !! k = Some e <->
    m !! k = Some e /\ ~ ((k, e) ∈ l /\ After now (ExpiresAt e) = true).
Proof.
  revert m. induction l as [|[k0 e0] l IH]; intros m Hin k e; cbn [foldl].
  { split; [|by intros [? _]]. intros Hk. split; [done|]. intros [He _]. by apply elem_of_nil in He. }
  assert (Es : expire_step now m (k0, e0) =
    if After now (ExpiresAt e0) then delete k0 m else m) by done.
  rewrite Es. clear Es. pose proof (Hin k0 e0 ltac:(left)) as Hk0.
  destruct (After now (ExpiresAt e0)) eqn:Ha.
  - rewrite IH.
    + rewrite lookup_delete_Some, elem_of_cons. split.
      * intros [[Hne Hk] Hn]. split; [done|]. intros [[[= -> ->]|Hkv] Hb]; [done|by apply Hn].
      * intros [Hk Hn]. assert (k0 <> k).
        { intros <-. destruct Hk0 as [Hk0|Hk0]; [|congruence].
          apply Hn. rewrite Hk0 in Hk. injection Hk as ->. by split; [left|]. }
        split; [done|]. intros [Hkv Hb]. apply Hn. by split; [right|].
    + intros k' e' Hin'. destruct (decide (k0 = k')) as [<-|Hne].
      * right. by rewrite lookup_delete_eq.
      * rewrite lookup_delete_ne by done. apply Hin. by right.
  - rewrite IH by (intros k' e' Hin'; apply Hin; by right).
    rewrite elem_of_cons. split.
    + intros [Hk Hn]. split; [done|]. intros [[[= -> ->]|Hkv] Hb]; [congruence|by apply Hn].
    + intros [Hk Hn]. split; [done|]. intros [Hkv Hb]. apply Hn. by split; [right|].
Qed.

(** [removeExpired] keeps exactly the entries that have not expired. *)
Lemma removeExpired_spec `{MapRange} now c k e :
  entries (removeExpired now c) !! k = Some e <->
  entries c !! k = Some e /\ (ttl c = 0 \/ now <= ExpiresAt e).
Proof.
  unfold removeExpired. destruct (Z.eqb_spec (ttl c) 0) as [Hz|Hz].
  { split; [intros Hk; split; [done|by left]|by intros [? _]]. }
  cbn [entries set_entries].
  rewrite expire_fold by (intros k' e' Hin; left; by apply elem_of_range).
  rewrite elem_of_range. unfold After. split.
  - intros [Hk Hn]. split; [done|]. right. destruct (Z.ltb_spec (ExpiresAt e) now); [|lia].
    exfalso. by apply Hn.
  - intros [Hk [?|Hle]]; [done|]. split; [done|]. intros [_ ?]. lia.
Qed.

(** ** Setting an entry *)

(** What [Set] does on every branch: the entry, and the one that makes room. *)
Lemma set_effect `{MapRange} now key p c :
  entries c !! "" = None ->
  exists gone,
    Set_ now key p c = set_entries c (<[key := fresh_entry now (ttl c) p]> (
      match gone with Some k => delete k (entries c) | None => entries c end)) /\
    match gone with
    | None => maxEntries c <= 0 \/ Size c < maxEntries c \/ is_Some (entries c !! key)
    | Some k => 0 < maxEntries c <= Size c /\ entries c !! key = None /\
        exists e, entries c !! k = Some e /\
          forall k' e', entries c !! k' = Some e' -> LastAccessedAt e <= LastAccessedAt e'
    end.
Proof.
  intros Hempty. unfold Set_, Size.
  destruct (Z.ltb_spec 0 (maxEntries c)) as [Hm|Hm]; [|exists None; split; [done|by left]].
  destruct (Z.leb_spec (maxEntries c) (Z.of_nat (size (entries c)))) as [Hf|Hf];
    [|exists None; split; [done|by right; left]].
  cbn [andb]. destruct (entries c !! key) as [e0|] eqn:Hk; cbn [negb].
  { exists None. split; [done|]. right. right. by exists e0. }
  destruct (evictLRU_spec c) as (k & e & Hke & Hmin & ->); [|done|].
  { intros He. rewrite He, map_size_empty in Hf. lia. }
  exists (Some k). cbn [entries set_entries ttl maxEntries cleanupInterval stopCh_closed].
  split; [done|]. split; [lia|]. split; [done|]. eauto.
Qed.

(** [Set] under a non-empty key keeps the empty key out and the size within
    the maximum. *)
Lemma set_bounded `{MapRange} now key p c :
  key <> "" -> entries c !! "" = None -> (0 < maxEntries c -> Size c <= maxEntries c) ->
  let c' := Set_ now key p c in
  entries c' !! "" = None /\ (0 < maxEntries c' -> Size c' <= maxEntries c').
Proof.
  intros Hkey He Hs. destruct (set_effect now key p c He) as (gone & -> & Hg).
  cbn [entries set_entries maxEntries]. split.
  - rewrite lookup_insert_ne by done. destruct gone; [rewrite lookup_delete_None; by right|done].
  - intros H0. specialize (Hs H0). unfold Size in *. cbn [entries set_entries].
    rewrite map_size_insert. unfold id. destruct gone as [g|].
    + destruct Hg as (Hmm & Hn & e & Hge & _). rewrite map_size_delete_Some by eauto.
      pose proof (map_size_ne_0_lookup_2 (entries c) g ltac:(eauto)).
      destruct (delete g (entries c) !! key); lia.
    + destruct (entries c !! key) eqn:E; [lia|].
      destruct Hg as [?|[?|[? ?]]]; [lia|lia|done].
Qed.

(** [Set] stores the assignment with a new expiry and leaves the other
    keys alone, except that a new key in a full cache makes room by evicting
    one entry: one that was accessed longest ago.  Re-assigning a known key
    never evicts. *)
Theorem sticky_set_evicts_lru `{MapRange} now key p c :
  entries c !! "" = None ->
  let c' := Set_ now key p c in
  entries c' !! key = Some (fresh_entry now (ttl c) p) /\
  (forall k, k <> key -> entries c' !! k = entries c !! k \/
     entries c' !! k = None /\ entries c !! key = None /\ 0 < maxEntries c <= Size c /\
     exists e, entries c !! k = Some e /\
       forall k' e', entries c !! k' = Some e' -> LastAccessedAt e <= LastAccessedAt e') /\
  Size c' = (if decide (is_Some (entries c !! key) \/ 0 < maxEntries c <= Size c)
             then Size c else Size c + 1).
Proof.
  intros Hempty c'. destruct (set_effect now key p c Hempty) as (gone & Hc' & Hg).
  subst c'. rewrite Hc'. cbn [entries set_entries]. split; [by rewrite lookup_insert_eq|].
  unfold Size in *. cbn [entries set_entries]. rewrite map_size_insert. split.
  - intros k Hk. rewrite lookup_insert_ne by done. destruct gone as [g|]; [|by left].
    destruct (decide (g = k)) as [<-|Hne]; [|left; by rewrite lookup_delete_ne].
    right. rewrite lookup_delete_eq. destruct Hg as (Hm & Hkey & He). done.
  - unfold id. destruct gone as [g|].
    + destruct Hg as (Hm & Hkey & e & Hge & _). rewrite decide_True by (by right).
      assert (Hne : g <> key) by (intros ->; congruence).
      rewrite lookup_delete_ne, Hkey by done. rewrite map_size_delete_Some by eauto.
      pose proof (map_size_ne_0_lookup_2 (entries c) g ltac:(eauto)). lia.
    + destruct (entries c !! key) as [e|] eqn:Hk.
      * by rewrite decide_True by (left; eauto).
      * rewrite decide_False; [lia|].
        intros [[? ?]|?]; [done|]. destruct Hg as [?|[?|[? ?]]]; [lia|lia|done].
Qed.

(** ** Histories

    The critical sections that change the cache, in the order the lock grants
    them, each with its own clock reading and its own map iteration order. *)

Inductive op :=
| OTouch (now : Time) (key : string)
| OSet (now : Time) (key providerName : string)
| ODelete (key : string)
| OClear
| OExpire (now : Time).

Definition run_op `{MapRange} (o : op) (c : StickyCache) : StickyCache :=
  match o with
  | OTouch t key => fst (get_touch key c (fun _ => t) 0%nat)
  | OSet t key p => Set_ t key p c
  | ODelete key => Delete key c
  | OClear => Clear c
  | OExpire t => removeExpired t c
  end.

Inductive exec (c0 : StickyCache) : list op -> StickyCache -> Prop :=
| exec_nil : exec c0 [] c0
| exec_snoc h c (R : MapRange) o :
    exec c0 h c -> exec c0 (h ++ [o])%list (run_op o c).

(** The assignment last made to a key, with its time, unless the key was
    deleted or the cache cleared since. *)
Definition last_set_step (key : string) (acc : option (string * Time)) (o : op) : option (string * Time) :=
  match o with
  | OSet t k p => if String.eqb k key then Some (p, t) else acc
  | ODelete k => if String.eqb k key then None else acc
  | OClear => None
  | _ => acc
  end.

Definition last_set (key : string) (h : list op) : option (string * Time) :=
  foldl (last_set_step key) None h.

(** No assignment under the empty key, which eviction cannot remove. *)
Definition sets_keyed (o : op) : Prop :=
  match o with OSet _ key _ => key <> "" | _ => True end.

(** The cache against the history that produced it. *)
Record cache_inv (ttl0 : Duration) (max0 : Z) (h : list op) (c : StickyCache) : Prop := {
  ci_ttl : ttl c = ttl0;
  ci_max : maxEntries c = max0;
  ci_keys : Forall sets_keyed h -> entries c !! "" = None;
  ci_size : Forall sets_keyed h -> 0 < max0 -> Size c <= max0;
  ci_entry : forall k e, entries c !! k = Some e ->
    exists t, last_set k h = Some (ProviderName e, t) /\ (0 < ttl0 -> ExpiresAt e = t + ttl0);
}.

Lemma last_set_snoc key h o : last_set key (h ++ [o])%list = last_set_step key (last_set key h) o.
Proof. unfold last_set. by rewrite foldl_app. Qed.

Lemma size_set_subset c m :
  m ⊆ entries c -> Size (set_entries c m) <= Size c.
Proof. intros Hm. unfold Size. cbn [entries set_entries]. apply map_subseteq_size in Hm. lia. Qed.

(** An operation that only drops entries, and keeps those whose last
    assignment it forgets out, preserves the invariant. *)
Lemma cache_inv_subset ttl0 max0 h c o m :
  cache_inv ttl0 max0 h c -> m ⊆ entries c ->
  (forall k e, m !! k = Some e -> last_set_step k (last_set k h) o = last_set k h) ->
  cache_inv ttl0 max0 (h ++ [o])%list (set_entries c m).
Proof.
  intros [Ht Hm Hk Hs He] Hsub Hstep. split; [done|done| | |].
  - intros [Hh _]%Forall_app. apply (lookup_weaken_None m (entries c)); auto.
  - intros [Hh _]%Forall_app H0. pose proof (size_set_subset c m Hsub). specialize (Hs Hh H0). lia.
  - cbn [entries set_entries]. intros k e Hke. rewrite last_set_snoc, (Hstep k e Hke).
    apply He. by apply (lookup_weaken m).
Qed.

(** [evictLRU] only drops an entry, whatever the keys are. *)
Lemma evictLRU_subseteq `{MapRange} c : exists m, evictLRU c = set_entries c m /\ m ⊆ entries c.
Proof.
  unfold evictLRU. assert (E : c = set_entries c (entries c)) by by destruct c.
  destruct (_ =? 0); [by exists (entries c)|]. destruct (foldl _ _ _) as [k t].
  destruct (String.eqb k ""); [by exists (entries c)|].
  eexists. split; [done|apply delete_subseteq].
Qed.

Lemma set_subseteq `{MapRange} now key p c :
  exists m, Set_ now key p c = set_entries c (<[key := fresh_entry now (ttl c) p]> m) /\ m ⊆ entries c.
Proof.
  unfold Set_. destruct (_ && negb _); [|by exists (entries c)].
  destruct (evictLRU_subseteq c) as (m & -> & Hm). by exists m.
Qed.

Lemma set_inv `{MapRange} ttl0 max0 h c t key p :
  cache_inv ttl0 max0 h c -> cache_inv ttl0 max0 (h ++ [OSet t key p])%list (Set_ t key p c).
Proof.
  intros [Ht Hm Hk Hs He]. subst max0.
  assert (Hb : Forall sets_keyed (h ++ [OSet t key p])%list ->
    entries (Set_ t key p c) !! "" = None /\ (0 < maxEntries (Set_ t key p c) -> Size (Set_ t key p c) <= maxEntries (Set_ t key p c))).
  { intros [Hh [Hkey _]%Forall_cons]%Forall_app. apply set_bounded; auto. }
  destruct (set_subseteq t key p c) as (m & E & Hsub). rewrite E in *.
  split; cbn [ttl maxEntries entries set_entries] in *; [done|done|by apply Hb|by apply Hb|].
  intros k e Hke. rewrite last_set_snoc. cbn [last_set_step].
  apply lookup_insert_Some in Hke as [[<- <-]|[Hne Hke]].
  - rewrite String.eqb_refl. exists t. split; [done|]. intros H0. unfold fresh_entry, AddD. simpl.
    rewrite Ht. by destruct (Z.ltb_spec 0 ttl0); [|lia].
  - apply String.eqb_neq in Hne as ->. apply He. by apply (lookup_weaken m).
Qed.

Lemma touch_inv ttl0 max0 h c t key :
  cache_inv ttl0 max0 h c ->
  cache_inv ttl0 max0 (h ++ [OTouch t key])%list (fst (get_touch key c (fun _ => t) 0%nat)).
Proof.
  intros Hc. unfold get_touch. destruct (entries c !! key) as [e|] eqn:Hke; simpl.
  2: { destruct Hc as [Ht Hm Hk Hs He]. split; [done|done| | |].
       - intros [Hh _]%Forall_app. auto.
       - intros [Hh _]%Forall_app. auto.
       - intros k e. rewrite last_set_snoc. apply He. }
  destruct Hc as [Ht Hm Hk Hs He]. split; cbn [ttl maxEntries entries set_entries]; [done|done| | |].
  - intros [Hh _]%Forall_app. specialize (Hk Hh). rewrite lookup_insert_ne; [done|]. congruence.
  - intros [Hh _]%Forall_app H0. specialize (Hs Hh H0). unfold Size in *. cbn [entries set_entries].
    rewrite map_size_insert_Some by eauto. lia.
  - intros k e' Hk'. rewrite last_set_snoc. cbn [last_set_step].
    apply lookup_insert_Some in Hk' as [[<- <-]|[_ Hk']]; [|by apply He]. by apply (He key e).
Qed.

Lemma run_op_cache_inv `{MapRange} ttl0 max0 h c o :
  cache_inv ttl0 max0 h c -> cache_inv ttl0 max0 (h ++ [o])%list (run_op o c).
Proof.
  intros Hc. destruct o as [t key|t key p|key| |t]; cbn [run_op].
  - by apply touch_inv.
  - by apply set_inv.
  - apply cache_inv_subset; [done|apply delete_subseteq|].
    intros k e [Hne _]%lookup_delete_Some. cbn [last_set_step]. by apply String.eqb_neq in Hne as ->.
  - apply cache_inv_subset; [done|apply map_empty_subseteq|]. intros k e. by rewrite lookup_empty.
  - assert (E : removeExpired t c = set_entries c (entries (removeExpired t c))).
    { unfold removeExpired. destruct (ttl c =? 0); by destruct c. }
    rewrite E. apply cache_inv_subset; [done| |done].
    apply map_subseteq_spec. intros k e Hk. by apply removeExpired_spec in Hk as [? _].
Qed.

Lemma exec_cache_inv ttl0 max0 h c :
  exec (NewStickyCache ttl0 max0) h c -> cache_inv ttl0 max0 h c.
Proof.
  induction 1 as [|h c R o _ IH]; [|by apply run_op_cache_inv].
  split; [done|done|done| |done]. intros _ ?. unfold Size. cbn [entries NewStickyCache].
  rewrite map_size_empty. lia.
Qed.

(** C35: after any interleaving of the critical sections of any number of
    goroutines, the cleanup included, a hit of [Get] is never stale: the provider
    it returns is the one last assigned to that key, the key was not deleted nor
    the cache cleared since, and with a time-to-live the assignment is not older
    than it.  As long as nothing was assigned under the empty key (which the
    sticky strategy, its only user, never does) a cache with a maximum never
    holds more entries than that. *)
Theorem sticky_cache_bounded_and_fresh ttl0 max0 h c :
  exec (NewStickyCache ttl0 max0) h c ->
  (Forall sets_keyed h -> 0 < max0 -> Size c <= max0) /\
  forall key p ck i j, get_read key c ck i = (Some p, j) ->
    exists t, last_set key h = Some (p, t) /\ (0 < ttl0 -> ck i <= t + ttl0).
Proof.
  intros He. destruct (exec_cache_inv ttl0 max0 h c He) as [Ht _ _ Hs Hen].
  split; [done|]. intros key p ck i j. unfold get_read. rewrite Ht.
  destruct (entries c !! key) as [e|] eqn:Hk; [|done].
  destruct (Hen key e Hk) as (t & Hl & Hx). unfold tbind, tret, now.
  destruct (Z.ltb_spec 0 ttl0) as [H0|H0].
  - rewrite (Hx H0). unfold After. destruct (Z.ltb_spec (t + ttl0) (ck i)); [done|].
    intros [= <- _]. exists t. by split; [|lia].
  - intros [= <- _]. exists t. by split; [|lia].
Qed.

Lemma sticky_set_evicts_lru_witness :
  let c0 := Set_ (H := some_range) 1 "alice" "openai" (NewStickyCache Hour 1) in
  entries (Set_ (H := some_range) 2 "bob" "anthropic" c0) !! "bob" =
    Some (fresh_entry 2 Hour "anthropic").
Proof.
  intros c0.
  exact (proj1 (sticky_set_evicts_lru (H := some_range) 2 "bob" "anthropic" c0 eq_refl)).
Defined.

Lemma sticky_cache_bounded_and_fresh_witness :
  exists c, exec (NewStickyCache Hour 1) [OSet 1 "alice" "openai"; OSet 2 "bob" "anthropic"] c /\
    Size c <= 1 /\
    exists t, last_set "bob" [OSet 1 "alice" "openai"; OSet 2 "bob" "anthropic"] = Some ("anthropic", t) /\
      (0 < Hour -> 7 <= t + Hour).
Proof.
  set (c0 := NewStickyCache Hour 1).
  set (c1 := run_op (H := some_range) (OSet 1 "alice" "openai") c0).
  set (c2 := run_op (H := some_range) (OSet 2 "bob" "anthropic") c1).
  assert (X : exec c0 [OSet 1 "alice" "openai"; OSet 2 "bob" "anthropic"] c2).
  { apply (exec_snoc c0 [OSet 1 "alice" "openai"] c1 some_range (OSet 2 "bob" "anthropic")).
    apply (exec_snoc c0 [] c0 some_range (OSet 1 "alice" "openai")). apply exec_nil. }
  assert (F : Forall sets_keyed [OSet 1 "alice" "openai"; OSet 2 "bob" "anthropic"])
    by (repeat constructor; done).
  destruct (sticky_cache_bounded_and_fresh Hour 1 _ c2 X) as [S G].
  exists c2. split; [exact X|]. split; [apply (S F); lia|].
  apply (G "bob" "anthropic" (fun _ => 7) 0%nat 1%nat). reflexivity.
Defined.

(** Once the empty key is assigned, eviction may pick it and then removes
    nothing: a cache for one entry holds two. *)
Example empty_key_never_evicted :
  let h := [OSet 1 "" "openai"; OSet 2 "bob" "anthropic"] in
  let c := foldl (fun c o => run_op (H := some_range) o c) (NewStickyCache Hour 1) h in
  exec (NewStickyCache Hour 1) h c /\ maxEntries c = 1 /\ Size c = 2.
Proof.
  split; [|by split; vm_compute].
  apply (exec_snoc _ [OSet 1 "" "openai"] _ some_range). apply (exec_snoc _ [] _ some_range). apply exec_nil.
Qed.
