(* ===== verification/RoutingTypes.v ===== *)
(** * Routing data and the strategy interface ([pkg/routing/types.go],
    [pkg/routing/strategies/strategy.go])

    Requests, results and errors of the router, the environment its code reads
    (the clock, the health of a provider, the iteration order of a map, the
    cancellation of a context) and the interface between the router and its
    strategies with the laws the router relies on. *)

From Stdlib Require Import ZArith Lia.
From stdpp Require Import base option list strings gmap.
From S2P Require Import Prelude PolicyContext.
Local Open Scope string_scope.
Local Open Scope Z_scope.
Local Open Scope go_scope.

(** A [providers.Provider] as routing sees it: its identity and the name its
    [GetName] returns.  [IsHealthy] reads a status that health checks change
    concurrently, so each call is a reading of the environment. *)
Record Provider := mkProvider { pv_id : Z; GetName : string }.

#[export] Instance Provider_eq_dec : EqDecision Provider.
Proof. solve_decision. Defined.

Record RoutingRequest := mkRoutingRequest {
  RequestID : string;
  req_Model : string;
  req_User : string;
  req_APIKey : string;
  SessionID : string;
  PreferredProvider : string;
  req_PolicyDecision : option PolicyDecision;
  req_Metadata : gmap string string;
}.

Record RoutingResult := mkRoutingResult {
  res_Provider : Provider;
  res_ProviderName : string;
  res_Strategy : string;
  res_Reason : string;
  res_IsHealthy : bool;
  IsFallback : bool;
  res_AttemptedProviders : list string;
  res_Metadata : gmap string string;
}.

(** The errors the strategies build. *)
Inductive StrategyError :=
| NoProvidersFor (strategy : string)
| NoHealthyAvailable (total : Z)
| RequestedNotFound (name : string).

(** The errors of [pkg/routing/errors.go] that [RouteRequest] returns. *)
Inductive RoutingError :=
| ContextError (e : string)
| ErrNoProvidersConfigured
| ModelNotSupportedError (model : string) (availableModels : list string)
| NoHealthyProvidersError (attempted : list string) (model : string)
| ProviderNotFoundError (providerName : string) (availableProviders : list string)
| AllProvidersFailedError (attempted : list string) (model : string)
| StrategyFailed (e : StrategyError).

(** ** The environment

    The [i]-th reading of the environment, whatever it reads, is taken at
    position [i] of its oracles.  A computation ends with a value or panics
    ([None]). *)

Record Env := mkEnv {
  env_clock : Clock;
  env_health : nat -> Provider -> bool;
  env_order : nat -> MapRange;
  env_ctx : nat -> option string;
}.

Definition Act (A : Type) : Type := Env -> nat -> option (A * nat).

Definition aret {A} (a : A) : Act A := fun _ i => Some (a, i).
Definition abind {A B} (m : Act A) (f : A -> Act B) : Act B :=
  fun ev i => match m ev i with Some (a, j) => f a ev j | None => None end.
Definition panic {A} : Act A := fun _ _ => None.

Notation "'do!' x ':=' m 'in' k" := (abind m (fun x => k))
  (at level 10, x pattern, m at level 100, k at level 200) : go_scope.

Definition IsHealthy (p : Provider) : Act bool := fun ev i => Some (env_health ev i p, S i).
Definition ctx_Err : Act (option string) := fun ev i => Some (env_ctx ev i, S i).
Definition order : Act MapRange := fun ev i => Some (env_order ev i, S i).
Definition timed {A} (m : Timed A) : Act A := fun ev i => Some (m (env_clock ev) i).

(** [for _, p := range list { if p.IsHealthy() { healthy = append(healthy, p) } }] *)
Fixpoint filterHealthy (providerList : list Provider) : Act (list Provider) :=
  match providerList with
  | [] => aret []
  | p :: ps =>
      do! h := IsHealthy p in
      do! healthy := filterHealthy ps in
      aret (if h then p :: healthy else healthy)
  end.

(** [for _, p := range available { if p.GetName() == name { return p } }] *)
Definition find_provider (name : string) (available : list Provider) : option Provider :=
  List.find (fun p => String.eqb (GetName p) name) available.

Definition getProviderNames (providerList : list Provider) : list string := GetName <$> providerList.

(** ** The strategy interface *)

Class RoutingStrategy (S : Type) : Type := {
  SelectProvider : RoutingRequest -> list Provider -> S -> Act (result StrategyError Provider * S);
  StrategyName : S -> string;
  ResetStrategy : S -> S;
}.

(** What a strategy promises its callers, on states that satisfy its
    invariant: a selection never panics, keeps the invariant, and selects only
    a provider of the list it was given. *)
Class StrategyLaws (S : Type) `{RoutingStrategy S} : Type := {
  strategy_ok : S -> Prop;
  select_safe req available s ev i :
    strategy_ok s ->
    exists r s' j, SelectProvider req available s ev i = Some ((r, s'), j) /\ (i <= j)%nat /\ strategy_ok s' /\
      forall p, r = Ok p -> p ∈ available;
  reset_safe s : strategy_ok s -> strategy_ok (ResetStrategy s);
  strategy_name_stable req available s ev i r s' j :
    SelectProvider req available s ev i = Some ((r, s'), j) -> StrategyName s' = StrategyName s;
}.

(** ** Lemmas on the loops *)

Lemma filterHealthy_run l ev i :
  exists r, filterHealthy l ev i = Some (r, (i + length l)%nat) /\
    forall p, p ∈ r <-> exists k, l !! k = Some p /\ env_health ev (i + k)%nat p = true.
Proof.
  revert i. induction l as [|q l IH]; intros i; cbn [filterHealthy].
  { exists []. rewrite Nat.add_0_r. split; [done|]. intros p.
    split; [by intros ?%elem_of_nil|]. by intros (k & ? & _). }
  unfold abind at 1, IsHealthy at 1. cbn beta iota zeta.
  destruct (IH (S i)) as (r & Hr & Hin). unfold abind. rewrite Hr. unfold aret.
  eexists. split; [simpl length; rewrite <- Nat.add_succ_comm; reflexivity|].
  intros p. transitivity ((q = p /\ env_health ev i q = true) \/ p ∈ r).
  - destruct (env_health ev i q); [rewrite elem_of_cons|]; naive_solver.
  - rewrite Hin. split.
    + intros [[-> Hh]|(k & Hk & Hh)].
      * exists 0%nat. by rewrite Nat.add_0_r.
      * exists (S k). by rewrite <- Nat.add_succ_comm.
    + intros ([|k] & Hk & Hh); simpl in Hk.
      * simplify_eq. rewrite Nat.add_0_r in Hh. by left.
      * right. exists k. by rewrite Nat.add_succ_comm.
Qed.

Lemma find_provider_Some name l p :
  find_provider name l = Some p -> p ∈ l /\ GetName p = name.
Proof.
  intros [Hin He]%find_some. split; [by apply list_elem_of_In|by apply String.eqb_eq].
Qed.

Lemma find_provider_None name l :
  find_provider name l = None <-> name ∉ getProviderNames l.
Proof.
  unfold find_provider, getProviderNames. rewrite list_elem_of_fmap. split.
  - intros Hn (p & -> & Hin). apply list_elem_of_In in Hin.
    pose proof (find_none _ _ Hn p Hin) as He. cbn beta in He. by rewrite String.eqb_refl in He.
  - intros Hn. destruct (List.find _ l) as [p|] eqn:E; [|done].
    apply find_provider_Some in E as [Hin He]. destruct Hn. by exists p.
Qed.

Lemma find_provider_is_Some name l :
  name ∈ getProviderNames l -> is_Some (find_provider name l).
Proof.
  intros Hin. destruct (find_provider name l) as [p|] eqn:E; [by exists p|].
  by apply find_provider_None in E.
Qed.
