(* ===== verification/RoundRobin.v ===== *)
(** * Weighted round robin ([pkg/routing/strategies/round_robin.go])

    The strategy, its fairness over a fixed list of providers, and the two
    atomic operations on its counter under interleaving. *)

From Stdlib Require Import ZArith Lia.
From stdpp Require Import base option list strings gmap.
From S2P Require Import Prelude RoutingTypes.
Local Open Scope string_scope.
Local Open Scope Z_scope.
Local Open Scope go_scope.

Record RoundRobinStrategy := mkRoundRobin {
  counter : Z;
  weights : gmap string Z;
}.

(** A [nil] map of weights is [None]. *)
Definition NewRoundRobinStrategy (weights : option (gmap string Z)) : RoundRobinStrategy :=
  mkRoundRobin 0 (default ∅ weights).

Definition getWeight (s : RoundRobinStrategy) (providerName : string) : Z :=
  match weights s !! providerName with Some w => w | None => 1 end.

Fixpoint weighted (s : RoundRobinStrategy) (providerList : list Provider) : list Provider :=
  match providerList with
  | [] => []
  | p :: ps =>
      let weight := getWeight s (GetName p) in
      if weight <=? 0 then weighted s ps
      else (replicate (Z.to_nat weight) p ++ weighted s ps)%list
  end.

Definition buildWeightedList (s : RoundRobinStrategy) (providerList : list Provider) : list Provider :=
  if Z.of_nat (size (weights s)) =? 0 then providerList else weighted s providerList.

Definition counter_reset_at : Z := 1000000000.

(** [count := s.counter.Add(1) - 1]: the count and the new counter. *)
Definition take_count (counter : Z) : Z * Z := ((counter +64 1) -64 1, counter +64 1).

(** [s.counter.CompareAndSwap(count+1, 0)]. *)
Definition swap_counter (count counter : Z) : Z :=
  if counter =? count +64 1 then 0 else counter.

(** [providers[count % len(providers)]]; a negative index panics. *)
Definition pick (count : Z) (l : list Provider) : option Provider :=
  let index := Z.rem count (Z.of_nat (length l)) in
  if index <? 0 then None else l !! Z.to_nat index.

Definition rr_SelectProvider (req : RoutingRequest) (available : list Provider) (s : RoundRobinStrategy)
  : Act (result StrategyError Provider * RoundRobinStrategy) :=
  match available with
  | [] => aret (Err (NoProvidersFor "round-robin"), s)
  | [p] => aret (Ok p, s)
  | _ =>
      let weightedProviders := buildWeightedList s available in
      let weightedProviders :=
        if Z.of_nat (length weightedProviders) =? 0 then available else weightedProviders in
      let '(count, c) := take_count (counter s) in
      let '(count, c) :=
        if counter_reset_at <=? count then (0, swap_counter count c) else (count, c) in
      match pick count weightedProviders with
      | Some p => aret (Ok p, mkRoundRobin c (weights s))
      | None => panic
      end
  end.

Definition rr_Reset (s : RoundRobinStrategy) : RoundRobinStrategy := mkRoundRobin 0 (weights s).

#[export] Instance round_robin : RoutingStrategy RoundRobinStrategy := {
  SelectProvider := rr_SelectProvider;
  StrategyName _ := "round-robin";
  ResetStrategy := rr_Reset;
}.

(** ** The selection *)

Definition rr_ok (s : RoundRobinStrategy) : Prop := 0 <= counter s <= counter_reset_at.

Definition pool (s : RoundRobinStrategy) (available : list Provider) : list Provider :=
  match buildWeightedList s available with [] => available | l => l end.

Lemma weighted_subset s l p : p ∈ weighted s l -> p ∈ l.
Proof.
  induction l as [|q l IH]; cbn [weighted]; [done|]. destruct (getWeight s (GetName q) <=? 0).
  - intros ?. right. auto.
  - intros [Hin|Hin]%elem_of_app; [|right; auto].
    apply elem_of_replicate in Hin as [-> _]. left.
Qed.

Lemma pool_subset s available p : p ∈ pool s available -> p ∈ available.
Proof.
  unfold pool. intros Hp. destruct (buildWeightedList s available) as [|q l] eqn:E; [done|].
  rewrite <- E in Hp. unfold buildWeightedList in Hp.
  destruct (_ =? 0); [done|]. by apply weighted_subset in Hp.
Qed.

Lemma pool_nonempty s available : available <> [] -> pool s available <> [].
Proof. unfold pool. intros H. by destruct (buildWeightedList s available). Qed.

Lemma pick_lookup count l :
  l <> [] -> 0 <= count ->
  exists p, pick count l = Some p /\ l !! Z.to_nat (count mod Z.of_nat (length l)) = Some p.
Proof.
  intros Hl Hc. unfold pick.
  assert (Hlen : 0 < Z.of_nat (length l)) by (destruct l; [done|simpl; lia]).
  rewrite Z.rem_mod_nonneg by lia.
  pose proof (Z.mod_pos_bound count (Z.of_nat (length l)) Hlen) as Hb.
  destruct (Z.ltb_spec (count mod Z.of_nat (length l)) 0); [lia|].
  destruct (lookup_lt_is_Some_2 l (Z.to_nat (count mod Z.of_nat (length l)))) as [p Hp]; [lia|].
  by exists p.
Qed.

(** One selection among at least two providers: the element of the weighted
    list at the counter, which then moves on (or starts over). *)
Lemma rr_select req available s ev i :
  (2 <= length available)%nat -> rr_ok s ->
  let count := if counter s =? counter_reset_at then 0 else counter s in
  exists p, pool s available !! Z.to_nat (count mod Z.of_nat (length (pool s available))) = Some p /\
    rr_SelectProvider req available s ev i =
      Some ((Ok p, mkRoundRobin (if counter s =? counter_reset_at then 0 else counter s + 1) (weights s)), i).
Proof.
  intros Hlen [Hc0 Hc1] count. destruct available as [|a [|b l]]; simpl in Hlen; [lia|lia|].
  unfold rr_SelectProvider. set (av := a :: b :: l) in *.
  assert (Ep : (if Z.of_nat (length (buildWeightedList s av)) =? 0 then av else buildWeightedList s av)
    = pool s av) by (unfold pool; by destruct (buildWeightedList s av)).
  rewrite Ep. clear Ep. unfold take_count, swap_counter, add64, sub64. unfold counter_reset_at in *.
  rewrite (wrap64_id (counter s + 1)) by lia64.
  replace (counter s + 1 - 1) with (counter s) by lia. rewrite (wrap64_id (counter s)) by lia64.
  rewrite (wrap64_id (counter s + 1)) by lia64. rewrite Z.eqb_refl.
  assert (Hcount : 0 <= count) by (subst count; destruct (_ =? _); lia).
  destruct (pick_lookup count (pool s av)) as (p & Hpick & Hlook); [by apply pool_nonempty|done|].
  exists p. split; [done|].
  assert (Eb : (1000000000 <=? counter s) = (counter s =? 1000000000)).
  { destruct (Z.leb_spec 1000000000 (counter s)), (Z.eqb_spec (counter s) 1000000000); lia. }
  rewrite Eb. subst count. destruct (Z.eqb_spec (counter s) 1000000000) as [E|E].
  - by rewrite Hpick.
  - by rewrite Hpick.
Qed.

#[export] Instance round_robin_laws : StrategyLaws RoundRobinStrategy.
Proof.
  refine {| strategy_ok := rr_ok |}.
  - intros req available s ev i Hok. destruct available as [|a [|b l]].
    + eexists _, s, i. split; [done|]. split; [done|]. split; done.
    + eexists _, s, i. split; [done|]. split; [done|]. split; [done|]. intros p [= <-]. left.
    + destruct (rr_select req (a :: b :: l) s ev i) as (p & Hp & He); [simpl; lia|done|].
      eexists _, _, _. split; [exact He|]. split; [done|]. split.
      * unfold rr_ok, counter_reset_at in *. cbn [counter].
        destruct (Z.eqb_spec (counter s) 1000000000); lia.
      * intros q [= <-]. apply pool_subset with s. by apply list_elem_of_lookup_2 in Hp.
  - intros s _. unfold rr_ok, counter_reset_at. simpl. lia.
  - done.
Defined.

(** ** Fairness *)

(** The providers of [n] selections in a row from the same list. *)
Fixpoint select_many (n : nat) (req : RoutingRequest) (available : list Provider) (s : RoundRobinStrategy)
  : Act (list (result StrategyError Provider) * RoundRobinStrategy) :=
  match n with
  | O => aret ([], s)
  | S n =>
      do! (r, s) := rr_SelectProvider req available s in
      do! (rs, s) := select_many n req available s in
      aret (r :: rs, s)
  end.

Definition named (name : string) (p : Provider) : bool := String.eqb (GetName p) name.
Definition selected (name : string) (r : result StrategyError Provider) : bool :=
  match r with Ok p => named name p | Err _ => false end.

(** How often [f] holds at the [n] positions from [c] on of [l] repeated. *)
Fixpoint cycle_count (f : Provider -> bool) (l : list Provider) (c n : nat) : Z :=
  match n with
  | O => 0
  | S n => from_option (fun p => Z.b2z (f p)) 0 (l !! (c mod length l)%nat) + cycle_count f l (S c) n
  end.

Section Cycle.
Context (f : Provider -> bool) (l : list Provider) (Hl : l <> []).

Lemma cycle_length : length l <> 0%nat.
Proof. by destruct l. Qed.

Lemma cycle_app c m n :
  cycle_count f l c (m + n) = cycle_count f l c m + cycle_count f l (c + m) n.
Proof.
  revert c. induction m as [|m IH]; intros c; simpl; [by rewrite Nat.add_0_r|].
  rewrite IH. replace (S c + m)%nat with (c + S m)%nat by lia. lia.
Qed.

Lemma cycle_first_round c n :
  (c + n <= length l)%nat -> cycle_count f l c n = countb f (take n (drop c l)).
Proof.
  revert c. induction n as [|n IH]; intros c Hc; [done|]. cbn [cycle_count].
  destruct (lookup_lt_is_Some_2 l c) as [p Hp]; [lia|].
  rewrite Nat.mod_small, Hp by lia. rewrite (drop_S l p c Hp). simpl.
  rewrite IH by lia. done.
Qed.

(** A full round from any position counts the whole list. *)
Lemma cycle_round c : cycle_count f l c (length l) = countb f l.
Proof.
  pose proof cycle_length as Hn. induction c as [|c IH].
  - rewrite cycle_first_round by lia. by rewrite drop_0, firstn_all.
  - pose proof (cycle_app c 1 (length l)) as H1. pose proof (cycle_app c (length l) 1) as H2.
    rewrite Nat.add_comm in H2. rewrite H1, IH in H2. cbn [cycle_count] in H2.
    replace (c + 1)%nat with (S c) in H2 by lia.
    replace ((c + length l) mod length l)%nat with (c mod length l)%nat in H2; [lia|].
    replace (c + length l)%nat with (c + 1 * length l)%nat by lia. by rewrite Nat.Div0.mod_add.
Qed.

Lemma cycle_rounds c k : cycle_count f l c (k * length l) = Z.of_nat k * countb f l.
Proof.
  revert c. induction k as [|k IH]; intros c; [simpl; lia|].
  cbn [Nat.mul]. rewrite cycle_app, cycle_round, IH. lia.
Qed.
End Cycle.

Lemma countb_app {A} (f : A -> bool) (l k : list A) : countb f (l ++ k)%list = countb f l + countb f k.
Proof. induction l as [|x l IH]; simpl; lia. Qed.

Lemma countb_all {A} (f : A -> bool) n x :
  countb f (replicate n x) = Z.of_nat n * Z.b2z (f x).
Proof. induction n as [|n IH]; [done|]. cbn [replicate countb]. rewrite IH. lia. Qed.

Lemma weighted_count s l name :
  countb (named name) (weighted s l) = Z.max 0 (getWeight s name) * countb (named name) l.
Proof.
  induction l as [|p l IH]; cbn [weighted countb]; [lia|].
  destruct (String.eqb_spec (GetName p) name) as [<-|Hne].
  - assert (En : named (GetName p) p = true) by apply String.eqb_refl.
    destruct (Z.leb_spec (getWeight s (GetName p)) 0); rewrite ?countb_app, ?countb_all, IH, En; simpl Z.b2z;
      [rewrite Z.max_l by lia; lia|]. rewrite Z.max_r by lia. rewrite Z2Nat.id by lia. lia.
  - assert (En : named name p = false) by by apply String.eqb_neq.
    destruct (Z.leb_spec (getWeight s (GetName p)) 0); rewrite ?countb_app, ?countb_all, IH, En; simpl Z.b2z; lia.
Qed.

Lemma weighted_length s l :
  Z.of_nat (length (weighted s l)) = Zsum (fun p => Z.max 0 (getWeight s (GetName p))) l.
Proof.
  induction l as [|p l IH]; cbn [weighted Zsum]; [done|].
  destruct (Z.leb_spec (getWeight s (GetName p)) 0).
  - rewrite Z.max_l by lia. lia.
  - rewrite length_app, length_replicate, Z.max_r by lia. lia.
Qed.

(** Without weights the list is the weighted list of unit weights. *)
Lemma pool_weighted s l : weighted s l <> [] -> pool s l = weighted s l.
Proof.
  intros Hw. unfold pool, buildWeightedList.
  destruct (Z.eqb_spec (Z.of_nat (size (weights s))) 0) as [Hz|Hz]; [|by destruct (weighted s l)].
  assert (Hempty : weights s = ∅) by (apply map_size_empty_iff; lia).
  assert (El : weighted s l = l).
  { clear Hw. induction l as [|p l IH]; cbn [weighted]; [done|].
    unfold getWeight. rewrite Hempty, lookup_empty. simpl. by rewrite IH. }
  by rewrite El; destruct l.
Qed.

(** The list depends on the weights only, not on the counter. *)
Lemma pool_weights s s' l : weights s = weights s' -> pool s l = pool s' l.
Proof.
  intros Hw. unfold pool, buildWeightedList. rewrite Hw.
  assert (E : weighted s l = weighted s' l); [|by rewrite E].
  induction l as [|p l IH]; cbn [weighted]; [done|]. unfold getWeight. by rewrite Hw, IH.
Qed.

Lemma select_many_run n req available s ev i :
  (2 <= length available)%nat -> 0 <= counter s -> counter s + Z.of_nat n <= counter_reset_at ->
  exists rs s', select_many n req available s ev i = Some ((rs, s'), i) /\
    counter s' = counter s + Z.of_nat n /\ weights s' = weights s /\ length rs = n /\
    forall name, countb (selected name) rs =
      cycle_count (named name) (pool s available) (Z.to_nat (counter s)) n.
Proof.
  intros Hl. revert s. induction n as [|n IH]; intros s Hc Hn.
  { exists [], s. split; [done|]. split; [lia|]. split; [done|]. split; [done|]. done. }
  destruct (rr_select req available s ev i Hl) as (p & Hp & He); [split; lia|].
  destruct (Z.eqb_spec (counter s) counter_reset_at) as [?|_]; [lia|].
  destruct (IH (mkRoundRobin (counter s + 1) (weights s))) as (rs & s' & Hrs & Hcs & Hw & Hlen & Hcnt);
    [cbn [counter]; lia..|].
  exists (Ok p :: rs), s'. cbn [select_many]. unfold abind, aret. rewrite He. cbn beta iota. rewrite Hrs.
  split; [done|]. cbn [counter weights] in *. split; [lia|]. split; [done|]. split; [simpl; lia|].
  intros name. cbn [countb cycle_count]. rewrite Hcnt.
  rewrite (pool_weights (mkRoundRobin (counter s + 1) (weights s)) s) by done.
  replace (Z.to_nat (counter s + 1)) with (S (Z.to_nat (counter s))) by lia.
  f_equal. pose proof (pool_nonempty s available ltac:(by destruct available)) as Hne.
  assert (Hm : Z.to_nat (counter s mod Z.of_nat (length (pool s available))) =
    (Z.to_nat (counter s) mod length (pool s available))%nat).
  { rewrite <- (Z2Nat.id (counter s)) at 1 by lia. rewrite <- Nat2Z.inj_mod. apply Nat2Z.id. }
  by rewrite <- Hm, Hp.
Qed.

(** Over a fixed list of at least two providers with distinct names, every
    [k] full rounds of selections give each provider exactly [k] times its
    weight (nothing when its weight is not positive), wherever the counter
    stands, as long as it does not reach its reset point in between. *)
Theorem round_robin_fair k req available s ev i :
  (2 <= length available)%nat -> NoDup (GetName <$> available) ->
  let round := Zsum (fun p => Z.max 0 (getWeight s (GetName p))) available in
  0 < round -> 0 <= counter s -> counter s + Z.of_nat k * round <= counter_reset_at ->
  exists rs s', select_many (k * Z.to_nat round) req available s ev i = Some ((rs, s'), i) /\
    forall p, p ∈ available ->
      countb (selected (GetName p)) rs = Z.of_nat k * Z.max 0 (getWeight s (GetName p)).
Proof.
  intros Hl Hnd round Hr Hc Hk.
  pose proof (weighted_length s available) as Hwl. fold round in Hwl.
  assert (Hne : weighted s available <> []) by (intros E; rewrite E in Hwl; simpl in Hwl; lia).
  destruct (select_many_run (k * Z.to_nat round) req available s ev i) as (rs & s' & Hrs & _ & _ & _ & Hcnt);
    [done|done|lia|].
  exists rs, s'. split; [done|]. intros p Hp. rewrite Hcnt, (pool_weighted s available Hne).
  replace (Z.to_nat round) with (length (weighted s available)) by lia.
  rewrite cycle_rounds, weighted_count by done.
  enough (countb (named (GetName p)) available = 1) as -> by lia.
  apply list_elem_of_lookup_1 in Hp as [j Hj]. apply Z.le_antisymm.
  - apply countb_unique. intros a b x y Ha Hb Hx Hy.
    apply String.eqb_eq in Hx, Hy.
    apply (NoDup_lookup (GetName <$> available) a b (GetName p) Hnd);
      rewrite list_lookup_fmap, ?Ha, ?Hb; simpl; congruence.
  - apply (countb_pos _ _ j p); [done|]. apply String.eqb_refl.
Qed.

Lemma round_robin_fair_witness :
  exists rs s', select_many 6 (mkRoutingRequest "r" "" "" "" "" "" None ∅)
      [mkProvider 0 "openai"; mkProvider 1 "anthropic"]
      (mkRoundRobin 4 {["openai" := 2]})
      (mkEnv (fun _ => 0) (fun _ _ => true) (fun _ => some_range) (fun _ => None)) 0%nat = Some ((rs, s'), 0%nat) /\
    countb (selected "openai") rs = 4 /\ countb (selected "anthropic") rs = 2.
Proof.
  destruct (round_robin_fair 2 (mkRoutingRequest "r" "" "" "" "" "" None ∅)
      [mkProvider 0 "openai"; mkProvider 1 "anthropic"] (mkRoundRobin 4 {["openai" := 2]})
      (mkEnv (fun _ => 0) (fun _ _ => true) (fun _ => some_range) (fun _ => None)) 0%nat)
    as (rs & s' & He & Hc).
  - simpl; lia.
  - apply (bool_decide_unpack (NoDup _)). vm_compute. exact I.
  - vm_compute. reflexivity.
  - vm_compute. discriminate.
  - vm_compute. discriminate.
  - exists rs, s'. split; [exact He|]. split.
    + apply (Hc (mkProvider 0 "openai")). left.
    + apply (Hc (mkProvider 1 "anthropic")). right. left.
Defined.

(** ** The counter under interleaving

    A goroutine inside [SelectProvider] is [Counted c] between its [Add],
    which gave it the count [c], and the end of the call.  [adds] counts the
    calls made so far. *)

Inductive pc := Idle | Counted (c : Z).

Record sys := mkSys { shared : Z; threads : list pc; adds : nat }.

(** The count a goroutine indexes the weighted list with. *)
Definition used_count (c : Z) : Z := if counter_reset_at <=? c then 0 else c.

Inductive step : sys -> sys -> Prop :=
| step_add k ts n i :
    ts !! i = Some Idle ->
    step (mkSys k ts n) (mkSys (snd (take_count k)) (<[i := Counted (fst (take_count k))]> ts) (S n))
| step_swap k ts n i c :
    ts !! i = Some (Counted c) -> counter_reset_at <= c ->
    step (mkSys k ts n) (mkSys (swap_counter c k) (<[i := Idle]> ts) n)
| step_select k ts n i c :
    ts !! i = Some (Counted c) -> c < counter_reset_at ->
    step (mkSys k ts n) (mkSys k (<[i := Idle]> ts) n)
| step_restart k ts n :
    step (mkSys k ts n) (mkSys 0 ts n).

Inductive reachable (n : nat) : sys -> Prop :=
| reach_init : reachable n (mkSys 0 (replicate n Idle) 0)
| reach_step s s' : reachable n s -> step s s' -> reachable n s'.

(** The counter is past its reset point only while the goroutine that moved it
    there last is still inside its call. *)
Record counter_inv (s : sys) : Prop := {
  ki_range : 0 <= shared s <= Z.of_nat (adds s);
  ki_counts : forall i c, threads s !! i = Some (Counted c) -> 0 <= c < Z.of_nat (adds s);
  ki_last : shared s <= counter_reset_at \/ exists i, threads s !! i = Some (Counted (shared s - 1));
}.

Lemma counter_step s s' :
  Z.of_nat (adds s') <= max_int64 -> counter_inv s -> step s s' -> counter_inv s'.
Proof.
  intros Hb [Hr Hc Hl] Hs.
  destruct Hs as [k ts n i Hi|k ts n i c Hi Hge|k ts n i c Hi Hlt|k ts n];
    cbn [shared threads adds] in *.
  - unfold take_count, add64, sub64 in *. cbn [fst snd].
    rewrite (wrap64_id (k + 1)) by lia64. replace (k + 1 - 1) with k by lia.
    rewrite wrap64_id by lia64. split; cbn [shared threads adds]; [lia| |].
    + intros j c [(<- & [= <-] & _)|[_ Hj]]%list_lookup_insert_Some; [lia|]. specialize (Hc j c Hj). lia.
    + right. exists i. replace (k + 1 - 1) with k by lia. apply list_lookup_insert_eq.
      by apply lookup_lt_Some in Hi.
  - pose proof (Hc i c Hi) as Hci. unfold swap_counter, add64. rewrite wrap64_id by lia64.
    split; cbn [shared threads adds].
    + destruct (k =? c + 1); lia.
    + intros j c' [(_ & ? & _)|[_ Hj]]%list_lookup_insert_Some; [done|by apply (Hc j)].
    + destruct (Z.eqb_spec k (c + 1)) as [->|Hne]; [left; unfold counter_reset_at; lia|].
      destruct Hl as [Hl|[j Hj]]; [by left|]. right. exists j.
      rewrite list_lookup_insert_ne; [done|]. intros <-. rewrite Hi in Hj. injection Hj as ->. lia.
  - split; cbn [shared threads adds]; [lia| |].
    + intros j c' [(_ & ? & _)|[_ Hj]]%list_lookup_insert_Some; [done|by apply (Hc j)].
    + destruct Hl as [Hl|[j Hj]]; [by left|]. destruct (Z.le_gt_cases k counter_reset_at); [by left|].
      right. exists j. rewrite list_lookup_insert_ne; [done|].
      intros <-. rewrite Hi in Hj. injection Hj as ->. lia.
  - split; cbn [shared threads adds]; [lia|done|left; unfold counter_reset_at; lia].
Qed.

Lemma counter_reachable n s :
  Z.of_nat (adds s) <= max_int64 -> reachable n s -> counter_inv s.
Proof.
  intros Hb Hr. induction Hr as [|s s' _ IH Hs].
  - split; cbn [shared threads adds]; [lia| |left; unfold counter_reset_at; lia].
    intros i c Hi. apply lookup_replicate in Hi as [? _]. done.
  - apply (counter_step s); [done| |done]. apply IH.
    assert ((adds s <= adds s')%nat) by (inversion Hs; simpl; lia). lia.
Qed.

(** Under every interleaving of the atomic operations of any number of
    goroutines and of [Reset], within the first 2^63-1 selections, every
    goroutine's index into a non-empty list is within it, so a selection never
    panics; and whenever no selection is in progress the counter is between
    zero and the reset point, although compare-and-swap operations may have
    failed before. *)
Theorem round_robin_counter_safe n s :
  reachable n s -> Z.of_nat (adds s) <= max_int64 ->
  (forall i c l, threads s !! i = Some (Counted c) -> l <> [] ->
     exists p, pick (used_count c) l = Some p /\ p ∈ l) /\
  (Forall (fun t => t = Idle) (threads s) -> 0 <= shared s <= counter_reset_at).
Proof.
  intros Hr Hb. destruct (counter_reachable n s Hb Hr) as [Hk Hc Hl]. split.
  - intros i c l Hi Hne. specialize (Hc i c Hi).
    destruct (pick_lookup (used_count c) l Hne) as (p & Hp & Hin).
    { unfold used_count. destruct (_ <=? _); lia. }
    exists p. split; [done|]. by apply list_elem_of_lookup_2 in Hin.
  - intros Hidle. destruct Hl as [Hl|[i Hi]]; [lia|].
    by apply (Forall_lookup_1 _ _ _ _ Hidle) in Hi.
Qed.

Lemma round_robin_counter_safe_witness :
  exists s, reachable 1 s /\ shared s = 1 /\
    exists p, pick (used_count 0) [mkProvider 0 "openai"; mkProvider 1 "anthropic"] = Some p /\
      p ∈ [mkProvider 0 "openai"; mkProvider 1 "anthropic"].
Proof.
  set (s1 := mkSys 1 [Counted 0] 1).
  assert (R : reachable 1 s1).
  { apply reach_step with (mkSys 0 [Idle] 0); [apply (reach_init 1)|].
    exact (step_add 0 [Idle] 0 0 eq_refl). }
  destruct (round_robin_counter_safe 1 s1 R ltac:(vm_compute; discriminate)) as [S _].
  exists s1. split; [exact R|]. split; [reflexivity|].
  apply (S 0%nat 0); [reflexivity|discriminate].
Defined.
