(* ===== verification/RoutingStrategies.v ===== *)
(** * The wrapping strategies ([pkg/routing/strategies/manual.go],
    [health_based.go], [sticky.go])

    Each wraps another strategy, so each is an instance of the interface over
    an arbitrary instance, and its laws follow from the laws of what it wraps.
    A wrapped strategy is owned by its wrapper. *)

From Stdlib Require Import ZArith Lia.
From stdpp Require Import base option list strings gmap.
From S2P Require Import Prelude StickyCache RoutingTypes RoundRobin.
Local Open Scope string_scope.
Local Open Scope Z_scope.
Local Open Scope go_scope.

(** A wrapped selection with the wrapper's state rebuilt around it. *)
Definition wrap_state {A St T} (f : St -> T) (m : Act (A * St)) : Act (A * T) :=
  do! (a, s) := m in aret (a, f s).

(** ** Manual selection *)

(** A [nil] fallback strategy is [None]. *)
Record ManualStrategy (St : Type) := mkManual {
  m_fallbackStrategy : option St;
  allowFallback : bool;
}.
Arguments mkManual {St}.
Arguments m_fallbackStrategy {St}.
Arguments allowFallback {St}.

Definition NewManualStrategy {St} (fallbackStrategy : option St) (allowFallback : bool) : ManualStrategy St :=
  mkManual fallbackStrategy allowFallback.

Definition manual_SelectProvider `{RoutingStrategy St} (req : RoutingRequest) (available : list Provider)
    (s : ManualStrategy St) : Act (result StrategyError Provider * ManualStrategy St) :=
  let rewrap f := mkManual (Some f) (allowFallback s) in
  match available with
  | [] => aret (Err (NoProvidersFor "manual"), s)
  | first :: _ =>
      if String.eqb (PreferredProvider req) "" then
        match m_fallbackStrategy s with
        | Some f => wrap_state rewrap (SelectProvider req available f)
        | None => aret (Ok first, s)
        end
      else
        match find_provider (PreferredProvider req) available with
        | Some p => aret (Ok p, s)
        | None =>
            match allowFallback s, m_fallbackStrategy s with
            | true, Some f => wrap_state rewrap (SelectProvider req available f)
            | _, _ => aret (Err (RequestedNotFound (PreferredProvider req)), s)
            end
        end
  end.

Definition manual_Reset `{RoutingStrategy St} (s : ManualStrategy St) : ManualStrategy St :=
  match m_fallbackStrategy s with
  | Some f => mkManual (Some (ResetStrategy f)) (allowFallback s)
  | None => s
  end.

#[export] Instance manual `{RoutingStrategy St} : RoutingStrategy (ManualStrategy St) := {
  SelectProvider := manual_SelectProvider;
  StrategyName _ := "manual";
  ResetStrategy := manual_Reset;
}.

(** ** Health filtering *)

Record HealthBasedStrategy (St : Type) := mkHealthBased {
  wrappedStrategy : St;
  requireHealthy : bool;
}.
Arguments mkHealthBased {St}.
Arguments wrappedStrategy {St}.
Arguments requireHealthy {St}.

Definition NewHealthBasedStrategy {St} (wrapped : St) (require : bool) : HealthBasedStrategy St :=
  mkHealthBased wrapped require.

Definition health_SelectProvider `{RoutingStrategy St} (req : RoutingRequest) (available : list Provider)
    (s : HealthBasedStrategy St) : Act (result StrategyError Provider * HealthBasedStrategy St) :=
  let rewrap w := mkHealthBased w (requireHealthy s) in
  match available with
  | [] => aret (Err (NoProvidersFor "health-based"), s)
  | _ =>
      do! healthy := filterHealthy available in
      if 0 <? Z.of_nat (length healthy) then
        wrap_state rewrap (SelectProvider req healthy (wrappedStrategy s))
      else if requireHealthy s then
        aret (Err (NoHealthyAvailable (Z.of_nat (length available))), s)
      else wrap_state rewrap (SelectProvider req available (wrappedStrategy s))
  end.

Definition health_Reset `{RoutingStrategy St} (s : HealthBasedStrategy St) : HealthBasedStrategy St :=
  mkHealthBased (ResetStrategy (wrappedStrategy s)) (requireHealthy s).

#[export] Instance health_based `{RoutingStrategy St} : RoutingStrategy (HealthBasedStrategy St) := {
  SelectProvider := health_SelectProvider;
  StrategyName _ := "health-based";
  ResetStrategy := health_Reset;
}.

(** ** Sticky routing *)

Record StickyStrategy (St : Type) := mkSticky {
  cache : StickyCache;
  s_fallbackStrategy : St;
  keyType : string;
}.
Arguments mkSticky {St}.
Arguments cache {St}.
Arguments s_fallbackStrategy {St}.
Arguments keyType {St}.

Definition NewStickyStrategy {St} (cache : StickyCache) (fallbackStrategy : St) (keyType : string)
  : StickyStrategy St :=
  mkSticky cache fallbackStrategy (if String.eqb keyType "" then "user" else keyType).

Definition buildCacheKey {St} (s : StickyStrategy St) (req : RoutingRequest) : string :=
  if String.eqb (keyType s) "user" then req_User req
  else if String.eqb (keyType s) "api_key" then req_APIKey req
  else if String.eqb (keyType s) "session" then SessionID req
  else if String.eqb (keyType s) "composite" then
    if negb (String.eqb (req_User req) "") then "user:" +:+ req_User req
    else if negb (String.eqb (req_APIKey req) "") then "apikey:" +:+ req_APIKey req
    else if negb (String.eqb (SessionID req) "") then "session:" +:+ SessionID req
    else ""
  else req_User req.

Definition sticky_SelectProvider `{RoutingStrategy St} (req : RoutingRequest) (available : list Provider)
    (s : StickyStrategy St) : Act (result StrategyError Provider * StickyStrategy St) :=
  match available with
  | [] => aret (Err (NoProvidersFor "sticky"), s)
  | _ =>
      let key := buildCacheKey s req in
      if String.eqb key "" then
        wrap_state (fun f => mkSticky (cache s) f (keyType s))
          (SelectProvider req available (s_fallbackStrategy s))
      else
        do! ((providerName, found), c) := timed (Get key (cache s)) in
        match (if found then find_provider providerName available else None) with
        | Some p => aret (Ok p, mkSticky c (s_fallbackStrategy s) (keyType s))
        | None =>
            do! (r, f) := SelectProvider req available (s_fallbackStrategy s) in
            match r with
            | Err e => aret (Err e, mkSticky c f (keyType s))
            | Ok provider =>
                do! R := order in
                do! t := timed now in
                aret (Ok provider, mkSticky (Set_ t key (GetName provider) c) f (keyType s))
            end
        end
  end.

Definition sticky_Reset `{RoutingStrategy St} (s : StickyStrategy St) : StickyStrategy St :=
  mkSticky (Clear (cache s)) (ResetStrategy (s_fallbackStrategy s)) (keyType s).

#[export] Instance sticky `{RoutingStrategy St} : RoutingStrategy (StickyStrategy St) := {
  SelectProvider := sticky_SelectProvider;
  StrategyName _ := "sticky";
  ResetStrategy := sticky_Reset;
}.

(** ** The laws of the wrappers *)

Section Laws.
Context `{HL : StrategyLaws St}.

Definition safe_outcome {T} (ok : T -> Prop) (available : list Provider) (i : nat)
    (o : option ((result StrategyError Provider * T) * nat)) : Prop :=
  exists r s' j, o = Some ((r, s'), j) /\ (i <= j)%nat /\ ok s' /\ forall p, r = Ok p -> p ∈ available.

Lemma wrapped_safe {T} (f : St -> T) (ok : T -> Prop) req available available' s ev i0 i :
  (i0 <= i)%nat -> (forall s', strategy_ok s' -> ok (f s')) -> (forall p, p ∈ available' -> p ∈ available) ->
  strategy_ok s ->
  safe_outcome ok available i0 (wrap_state f (SelectProvider req available' s) ev i).
Proof.
  intros Hi Hf Hsub Hok. destruct (select_safe req available' s ev i Hok) as (r & s' & j & He & Hj & Hs' & Hin).
  unfold wrap_state, abind. rewrite He. exists r, (f s'), j. split; [done|]. split; [lia|]. split; [auto|]. eauto.
Qed.

Lemma safe_ret {T} (ok : T -> Prop) available (r : result StrategyError Provider) s ev i0 i :
  (i0 <= i)%nat -> ok s -> (forall p, r = Ok p -> p ∈ available) -> safe_outcome ok available i0 (aret (r, s) ev i).
Proof. intros Hi Hs Hr. exists r, s, i. done. Qed.

Definition manual_ok (s : ManualStrategy St) : Prop :=
  match m_fallbackStrategy s with Some f => strategy_ok f | None => True end.

Lemma manual_safe req available s ev i :
  manual_ok s -> safe_outcome manual_ok available i (manual_SelectProvider req available s ev i).
Proof.
  intros Hok. unfold manual_SelectProvider. destruct available as [|q l]; [by apply safe_ret|].
  unfold manual_ok in Hok. destruct s as [[f|] a]; cbn [m_fallbackStrategy allowFallback] in *;
    (destruct (String.eqb (PreferredProvider req) "");
     [|destruct (find_provider _ _) as [p|] eqn:Ef; [apply find_provider_Some in Ef as [Hin _]|]]).
  - by apply wrapped_safe.
  - apply safe_ret; [done|done|]. by intros ? [= <-].
  - destruct a; [by apply wrapped_safe|by apply safe_ret].
  - apply safe_ret; [done|done|]. intros ? [= <-]. left.
  - apply safe_ret; [done|done|]. by intros ? [= <-].
  - destruct a; by apply safe_ret.
Qed.

#[export] Instance manual_laws : StrategyLaws (ManualStrategy St).
Proof.
  refine {| strategy_ok := manual_ok |}.
  - apply manual_safe.
  - intros [[f|] a]; [|done]. apply reset_safe.
  - done.
Defined.

Definition health_ok (s : HealthBasedStrategy St) : Prop := strategy_ok (wrappedStrategy s).

Lemma health_safe req available s ev i :
  health_ok s -> safe_outcome health_ok available i (health_SelectProvider req available s ev i).
Proof.
  intros Hok. unfold health_SelectProvider. destruct available as [|q l]; [by apply safe_ret|].
  destruct (filterHealthy_run (q :: l) ev i) as (r & Hr & Hin). unfold abind at 1. rewrite Hr.
  destruct (0 <? _).
  - apply wrapped_safe; [lia|done| |done]. intros p (k & Hk & _)%Hin. by apply list_elem_of_lookup_2 in Hk.
  - destruct (requireHealthy s); [|]; [apply safe_ret|apply wrapped_safe]; done || lia.
Qed.

#[export] Instance health_laws : StrategyLaws (HealthBasedStrategy St).
Proof.
  refine {| strategy_ok := health_ok |}.
  - apply health_safe.
  - intros [w b]. apply reset_safe.
  - done.
Defined.

(** What [Get] does to the cache, on every branch. *)
Lemma get_spec key c ck i :
  exists r c' j, Get key c ck i = ((r, c'), j) /\ (i <= j)%nat /\ ttl c' = ttl c /\ maxEntries c' = maxEntries c /\
    Size c' = Size c /\ (forall k, k <> key -> entries c' !! k = entries c !! k) /\
    match entries c !! key with
    | Some e =>
        if (0 <? ttl c) && After (ck i) (ExpiresAt e) then r = ("", false) /\ c' = c
        else r = (ProviderName e, true) /\ exists t, entries c' !! key = Some (touch t e)
    | None => r = ("", false) /\ c' = c
    end.
Proof.
  unfold Get, get_read, get_touch, tbind, tret, now.
  destruct (entries c !! key) as [e|] eqn:Hk; [|by eexists _, c, _].
  assert (Hhit : forall t (j : nat), (i <= j)%nat -> exists r c' j',
    (((ProviderName e, true), set_entries c (<[key := touch t e]> (entries c))), j) = ((r, c'), j') /\ (i <= j')%nat /\
    ttl c' = ttl c /\ maxEntries c' = maxEntries c /\ Size c' = Size c /\
    (forall k, k <> key -> entries c' !! k = entries c !! k) /\
    r = (ProviderName e, true) /\ exists t, entries c' !! key = Some (touch t e)).
  { intros t j Hj. eexists _, _, _. split; [done|]. split; [done|]. cbn [ttl maxEntries entries set_entries]. unfold Size.
    cbn [entries set_entries]. rewrite map_size_insert_Some by eauto.
    split; [done|]. split; [done|]. split; [done|]. split.
    - intros k Hne. by apply lookup_insert_ne.
    - split; [done|]. exists t. by rewrite lookup_insert_eq. }
  destruct (0 <? ttl c); cbn [andb]; [|apply Hhit; lia].
  destruct (After (ck i) (ExpiresAt e)); [|apply Hhit; lia].
  eexists _, c, _. split; [done|]. split; [lia|]. done.
Qed.

(** The cache of a sticky strategy never has an entry for the empty key, which
    its eviction could not remove, and respects its maximum. *)
Definition cache_ok (c : StickyCache) : Prop :=
  entries c !! "" = None /\ (0 < maxEntries c -> Size c <= maxEntries c).

Definition sticky_ok (s : StickyStrategy St) : Prop :=
  strategy_ok (s_fallbackStrategy s) /\ cache_ok (cache s).

Lemma set_cache_ok `{MapRange} t key p c : key <> "" -> cache_ok c -> cache_ok (Set_ t key p c).
Proof. intros Hkey [He Hs]. by apply set_bounded. Qed.

Lemma sticky_safe req available s ev i :
  sticky_ok s -> safe_outcome sticky_ok available i (sticky_SelectProvider req available s ev i).
Proof.
  intros [Hf Hc]. unfold sticky_SelectProvider. destruct available as [|q l]; [by apply safe_ret|].
  destruct (String.eqb_spec (buildCacheKey s req) "") as [_|Hkey]; [by apply wrapped_safe|].
  destruct (get_spec (buildCacheKey s req) (cache s) (env_clock ev) i)
    as ([name found] & c' & j & HG & Hj & _ & Hmax & Hsize & Hother & _).
  assert (Hc' : cache_ok c').
  { destruct Hc as [He Hs]. split; [by rewrite Hother|]. by rewrite Hmax, Hsize. }
  unfold abind at 1, timed at 1. rewrite HG. cbn beta iota.
  destruct (if found then _ else None) as [p|] eqn:Ep.
  - destruct found; [|done]. apply find_provider_Some in Ep as [Hin _].
    apply safe_ret; [done|done|]. by intros ? [= <-].
  - destruct (select_safe req (q :: l) (s_fallbackStrategy s) ev j Hf) as (r & f' & j' & He & Hj' & Hf' & Hin).
    unfold abind at 1. rewrite He. cbn beta iota. destruct r as [p|e]; [|apply safe_ret; by lia || done].
    unfold abind, order, timed, now. cbn beta iota. apply safe_ret; [lia| |by auto].
    split; [done|]. by apply set_cache_ok.
Qed.

Lemma clear_cache_ok c : cache_ok (Clear c).
Proof.
  split; [done|]. intros H0. unfold Size, Clear in *. cbn [entries set_entries] in *.
  rewrite map_size_empty. lia.
Qed.

#[export] Instance sticky_laws : StrategyLaws (StickyStrategy St).
Proof.
  refine {| strategy_ok := sticky_ok |}.
  - apply sticky_safe.
  - intros [c f k] [Hf _]. split; [by apply reset_safe|apply clear_cache_ok].
  - done.
Defined.
End Laws.

Lemma set_lookup `{MapRange} t key p c :
  entries (Set_ t key p c) !! key = Some (fresh_entry t (ttl c) p) /\ ttl (Set_ t key p c) = ttl c.
Proof.
  assert (Et : forall b : bool, ttl (if b then evictLRU c else c) = ttl c).
  { intros [|]; [|done]. unfold evictLRU. destruct (_ =? 0); [done|].
    destruct (foldl _ _ _) as [k ?]. by destruct (String.eqb k ""). }
  unfold Set_. cbn [entries set_entries ttl]. by rewrite lookup_insert_eq, Et.
Qed.

(** A selection with an unexpired entry whose provider is available is decided
    by the entry alone. *)
Lemma sticky_hit `{RoutingStrategy St} req available (s : StickyStrategy St) ev i e :
  buildCacheKey s req <> "" -> entries (cache s) !! buildCacheKey s req = Some e ->
  ProviderName e ∈ getProviderNames available ->
  (0 < ttl (cache s) -> env_clock ev i <= ExpiresAt e) ->
  exists q s' j, sticky_SelectProvider req available s ev i = Some ((Ok q, s'), j) /\
    q ∈ available /\ GetName q = ProviderName e /\ s_fallbackStrategy s' = s_fallbackStrategy s /\
    (exists t, entries (cache s') !! buildCacheKey s req = Some (touch t e)).
Proof.
  intros Hkey He Hin Hx. unfold sticky_SelectProvider. destruct available as [|a l]; [by apply elem_of_nil in Hin|].
  apply String.eqb_neq in Hkey as ->. unfold abind at 1, timed at 1.
  destruct (get_spec (buildCacheKey s req) (cache s) (env_clock ev) i) as (r & c' & j & -> & _ & _ & _ & _ & _ & Hc).
  rewrite He in Hc.
  assert (Hb : (0 <? ttl (cache s)) && After (env_clock ev i) (ExpiresAt e) = false).
  { destruct (Z.ltb_spec 0 (ttl (cache s))); [|done]. unfold After. simpl. apply Z.ltb_ge. auto. }
  rewrite Hb in Hc. destruct Hc as [-> Ht]. cbn beta iota.
  apply find_provider_is_Some in Hin as [q Hq]. rewrite Hq.
  apply find_provider_Some in Hq as [Hqin Hqn]. eexists q, _, j. split; [done|].
  split; [done|]. split; [done|]. split; [done|]. exact Ht.
Qed.

(** A successful sticky selection leaves the chosen provider assigned to
    the request's key, by an entry that was there before (whose expiry it does
    not extend) or by a new one that expires its time-to-live after a clock
    reading of this call.  Until then every selection under the same key whose
    list has a provider of that name chooses that name, and does not consult
    the fallback strategy. *)
Theorem sticky_affinity `{RoutingStrategy St} req available (s s' : StickyStrategy St) ev i p j :
  sticky_SelectProvider req available s ev i = Some ((Ok p, s'), j) ->
  buildCacheKey s req <> "" ->
  exists e, entries (cache s') !! buildCacheKey s req = Some e /\ ProviderName e = GetName p /\
    ((exists e0, entries (cache s) !! buildCacheKey s req = Some e0 /\
        ProviderName e0 = GetName p /\ ExpiresAt e = ExpiresAt e0) \/
     (exists k, (k < j)%nat /\ e = fresh_entry (env_clock ev k) (ttl (cache s)) (GetName p))) /\
    forall req2 available2 ev2 i2,
      buildCacheKey s' req2 = buildCacheKey s req -> GetName p ∈ getProviderNames available2 ->
      (0 < ttl (cache s') -> env_clock ev2 i2 <= ExpiresAt e) ->
      exists q s2 j2, sticky_SelectProvider req2 available2 s' ev2 i2 = Some ((Ok q, s2), j2) /\
        GetName q = GetName p /\ s_fallbackStrategy s2 = s_fallbackStrategy s'.
Proof.
  intros Hsel Hkey.
  enough (exists e, entries (cache s') !! buildCacheKey s req = Some e /\ ProviderName e = GetName p /\
    ((exists e0, entries (cache s) !! buildCacheKey s req = Some e0 /\
        ProviderName e0 = GetName p /\ ExpiresAt e = ExpiresAt e0) \/
     (exists k, (k < j)%nat /\ e = fresh_entry (env_clock ev k) (ttl (cache s)) (GetName p))))
    as (e & He & Hn & Hor).
  { exists e. split; [done|]. split; [done|]. split; [done|]. intros req2 av2 ev2 i2 Hk2 Hin2 Hx.
    rewrite <- Hk2 in He, Hkey. rewrite <- Hn in Hin2.
    destruct (sticky_hit req2 av2 s' ev2 i2 e Hkey He Hin2 Hx) as (q & s2 & j2 & Hs2 & _ & Hq & Hf & _).
    exists q, s2, j2. by rewrite Hq. }
  unfold sticky_SelectProvider in Hsel. destruct available as [|a l]; [done|].
  apply String.eqb_neq in Hkey as Ek. rewrite Ek in Hsel. unfold abind at 1, timed at 1 in Hsel.
  destruct (get_spec (buildCacheKey s req) (cache s) (env_clock ev) i)
    as ([name found] & c' & i1 & HG & _ & Httl & _ & _ & _ & Hc).
  rewrite HG in Hsel. cbn beta iota in Hsel.
  destruct (if found then find_provider name (a :: l) else None) as [q|] eqn:Eq.
  - unfold aret in Hsel. injection Hsel as <- <- <-. destruct found; [|done].
    apply find_provider_Some in Eq as [_ Hq]. cbn [cache].
    destruct (entries (cache s) !! buildCacheKey s req) as [e|]; [|by destruct Hc].
    destruct (_ && _); [by destruct Hc|]. destruct Hc as [[= ->] [t Ht]].
    exists (touch t e). split; [done|]. split; [done|]. left. by exists e.
  - unfold abind at 1 in Hsel. destruct (SelectProvider req (a :: l) _ ev i1) as [[[[r|er] f] i2]|]; [|done|done].
    unfold abind, order, timed, now, aret in Hsel. cbn beta iota in Hsel. injection Hsel as <- <- <-.
    cbn [cache]. destruct (set_lookup (H := env_order ev i2) (env_clock ev (S i2)) (buildCacheKey s req) (GetName r) c') as [Hl _].
    rewrite Httl in Hl. eexists. split; [exact Hl|]. split; [done|]. right. exists (S i2). split; [lia|done].
Qed.

Lemma sticky_affinity_witness :
  let req := mkRoutingRequest "r" "gpt-4" "alice" "" "" "" None ∅ in
  let ps := [mkProvider 0 "openai"; mkProvider 1 "anthropic"] in
  let ev := mkEnv (fun n => Z.of_nat n) (fun _ _ => true) (fun _ => some_range) (fun _ => None) in
  let s := NewStickyStrategy (NewStickyCache Hour 10) (NewRoundRobinStrategy None) "" in
  exists s' j, sticky_SelectProvider req ps s ev 0%nat = Some ((Ok (mkProvider 0 "openai"), s'), j) /\
  exists q s2 j2, sticky_SelectProvider req (rev ps) s' ev j = Some ((Ok q, s2), j2) /\
    GetName q = "openai" /\ s_fallbackStrategy s2 = s_fallbackStrategy s'.
Proof.
  intros req ps ev s.
  set (s' := match sticky_SelectProvider req ps s ev 0%nat with Some ((_, s'), _) => s' | None => s end).
  assert (X : sticky_SelectProvider req ps s ev 0%nat = Some ((Ok (mkProvider 0 "openai"), s'), 2%nat))
    by (vm_compute; reflexivity).
  exists s', 2%nat. split; [exact X|].
  destruct (sticky_affinity req ps s s' ev 0%nat _ 2%nat X) as (e & He & _ & _ & A); [vm_compute; discriminate|].
  apply (A req (rev ps) ev 2%nat).
  - vm_compute. reflexivity.
  - apply (bool_decide_unpack ("openai" ∈ getProviderNames (rev ps))). vm_compute. exact I.
  - intros _. assert (E : Some e = Some (fresh_entry 1 Hour "openai")) by (rewrite <- He; vm_compute; reflexivity).
    apply (inj Some) in E as ->. vm_compute. discriminate.
Defined.
