(* ===== verification/Router.v ===== *)
(** * The router ([pkg/routing/selector.go], [stats.go], [router_impl.go])

    The provider selector with its filters, the statistics, and
    [DefaultRouter.RouteRequest] over an arbitrary strategy that satisfies the
    laws of the interface.  Log statements are left out. *)

From Stdlib Require Import ZArith Lia.
From stdpp Require Import base option list strings gmap.
From S2P Require Import Prelude PolicyContext RoutingTypes RoundRobin.
Local Open Scope string_scope.
Local Open Scope Z_scope.
Local Open Scope go_scope.

(** ** The selector *)

Record ProviderSelector := mkSelector {
  providers : gmap string Provider;
  modelMapping : gmap string (list string);
}.

Definition NewProviderSelector (providerMap : option (gmap string Provider))
    (modelMapping : option (gmap string (list string))) : ProviderSelector :=
  mkSelector (default ∅ providerMap) (default ∅ modelMapping).

Definition FilterByHealth (providerList : list Provider) : Act (list Provider) :=
  match providerList with [] => aret [] | _ => filterHealthy providerList end.

Definition FilterByModel (s : ProviderSelector) (providerList : list Provider) (model : string)
  : list Provider :=
  match providerList with
  | [] => providerList
  | _ =>
      if String.eqb model "" then providerList
      else
        match modelMapping s !! model with
        | None => providerList
        | Some providerNames =>
            let providerSet : gset string := list_to_set providerNames in
            filter (fun p => GetName p ∈ providerSet) providerList
        end
  end.

Definition GetAvailableProviders (s : ProviderSelector) : Act (list Provider) :=
  if Z.of_nat (size (providers s)) =? 0 then aret []
  else do! R := order in aret (snd <$> range (providers s)).

Definition GetProvider (s : ProviderSelector) (name : string) : option Provider := providers s !! name.

Definition GetProviderNames (s : ProviderSelector) : Act (list string) :=
  do! R := order in aret (fst <$> range (providers s)).

Definition GetSupportedModels (s : ProviderSelector) : Act (list string) :=
  do! R := order in aret (fst <$> range (modelMapping s)).

Definition sel_UpdateProviders (providerMap : option (gmap string Provider)) (s : ProviderSelector)
  : ProviderSelector :=
  mkSelector (default ∅ providerMap) (modelMapping s).

Definition UpdateModelMapping (m : option (gmap string (list string))) (s : ProviderSelector)
  : ProviderSelector :=
  mkSelector (providers s) (default ∅ m).

(** ** The statistics

    Every counter is one atomic 64-bit integer; the two maps hold a counter
    per name. *)

Record AtomicRoutingStats := mkStats {
  totalRequests : Z;
  requestsPerProvider : gmap string Z;
  strategyUseCount : gmap string Z;
  healthFilteredCount : Z;
  manualOverrideCount : Z;
  policyOverrideCount : Z;
  errors : Z;
  lastResetTime : Time;
}.

Definition NewAtomicRoutingStats (now : Time) : AtomicRoutingStats := mkStats 0 ∅ ∅ 0 0 0 0 now.

Definition IncrementTotal (s : AtomicRoutingStats) : AtomicRoutingStats :=
  mkStats (totalRequests s +64 1) (requestsPerProvider s) (strategyUseCount s) (healthFilteredCount s)
    (manualOverrideCount s) (policyOverrideCount s) (errors s) (lastResetTime s).

(** [LoadOrStore] of a zero counter, then [Add(1)]. *)
Definition bump (name : string) (m : gmap string Z) : gmap string Z :=
  <[name := default 0 (m !! name) +64 1]> m.

Definition IncrementProvider (name : string) (s : AtomicRoutingStats) : AtomicRoutingStats :=
  mkStats (totalRequests s) (bump name (requestsPerProvider s)) (strategyUseCount s) (healthFilteredCount s)
    (manualOverrideCount s) (policyOverrideCount s) (errors s) (lastResetTime s).

Definition IncrementStrategy (name : string) (s : AtomicRoutingStats) : AtomicRoutingStats :=
  mkStats (totalRequests s) (requestsPerProvider s) (bump name (strategyUseCount s)) (healthFilteredCount s)
    (manualOverrideCount s) (policyOverrideCount s) (errors s) (lastResetTime s).

Definition IncrementHealthFiltered (s : AtomicRoutingStats) : AtomicRoutingStats :=
  mkStats (totalRequests s) (requestsPerProvider s) (strategyUseCount s) (healthFilteredCount s +64 1)
    (manualOverrideCount s) (policyOverrideCount s) (errors s) (lastResetTime s).

Definition IncrementManualOverride (s : AtomicRoutingStats) : AtomicRoutingStats :=
  mkStats (totalRequests s) (requestsPerProvider s) (strategyUseCount s) (healthFilteredCount s)
    (manualOverrideCount s +64 1) (policyOverrideCount s) (errors s) (lastResetTime s).

Definition IncrementPolicyOverride (s : AtomicRoutingStats) : AtomicRoutingStats :=
  mkStats (totalRequests s) (requestsPerProvider s) (strategyUseCount s) (healthFilteredCount s)
    (manualOverrideCount s) (policyOverrideCount s +64 1) (errors s) (lastResetTime s).

Definition IncrementErrors (s : AtomicRoutingStats) : AtomicRoutingStats :=
  mkStats (totalRequests s) (requestsPerProvider s) (strategyUseCount s) (healthFilteredCount s)
    (manualOverrideCount s) (policyOverrideCount s) (errors s +64 1) (lastResetTime s).

Definition stats_Reset (now : Time) (s : AtomicRoutingStats) : AtomicRoutingStats :=
  mkStats 0 ∅ ∅ 0 0 0 0 now.

Record RoutingStats := mkRoutingStats {
  TotalRequests : Z;
  RequestsPerProvider : gmap string Z;
  StrategyUseCount : gmap string Z;
  HealthFilteredCount : Z;
  ManualOverrideCount : Z;
  PolicyOverrideCount : Z;
  Errors : Z;
  LastResetTime : Time;
}.

(** The loops over the two maps copy every counter, so the copy is the map. *)
Definition Snapshot (s : AtomicRoutingStats) : RoutingStats :=
  mkRoutingStats (totalRequests s) (requestsPerProvider s) (strategyUseCount s) (healthFilteredCount s)
    (manualOverrideCount s) (policyOverrideCount s) (errors s) (lastResetTime s).

(** ** The router *)

Record StickyConfig := mkStickyConfig { sc_TTL : Duration; sc_MaxEntries : Z; sc_KeyType : string }.

Record FallbackConfig := mkFallbackConfig {
  fb_Enabled : bool;
  MaxAttempts : Z;
  DefaultProvider : string;
}.

Record HealthBasedConfig := mkHealthBasedConfig { RequireHealthy : bool; RetryAfter : Duration }.

Record RoutingConfig := mkRoutingConfig {
  cfg_Strategy : string;
  cfg_Sticky : StickyConfig;
  ModelMapping : option (gmap string (list string));
  ProviderWeights : option (gmap string Z);
  cfg_Fallback : FallbackConfig;
  cfg_HealthBased : HealthBasedConfig;
}.

Definition FallbackEnabled (cfg : RoutingConfig) : bool := fb_Enabled (cfg_Fallback cfg).

Record DefaultRouter (St : Type) := mkRouter {
  selector : ProviderSelector;
  strategy : St;
  stats : AtomicRoutingStats;
  config : RoutingConfig;
}.
Arguments mkRouter {St}.
Arguments selector {St}.
Arguments strategy {St}.
Arguments stats {St}.
Arguments config {St}.

(** A [nil] configuration or strategy is [None]. *)
Definition NewRouter {St} (now : Time) (cfg : option RoutingConfig)
    (providerMap : option (gmap string Provider)) (strategy : option St) : result string (DefaultRouter St) :=
  match cfg, strategy with
  | None, _ => Err "routing config cannot be nil"
  | _, None => Err "routing strategy cannot be nil"
  | Some cfg, Some strategy =>
      Ok (mkRouter (NewProviderSelector providerMap (ModelMapping cfg)) strategy (NewAtomicRoutingStats now) cfg)
  end.

Definition count {St} (f : AtomicRoutingStats -> AtomicRoutingStats) (r : DefaultRouter St) : DefaultRouter St :=
  mkRouter (selector r) (strategy r) (f (stats r)) (config r).

Definition set_strategy {St} (r : DefaultRouter St) (s : St) : DefaultRouter St :=
  mkRouter (selector r) s (stats r) (config r).

Section Router.
Context `{RoutingStrategy St}.

(** The outcome of a routing decision with the router it leaves. *)
Definition Routed : Type := (result RoutingError RoutingResult * DefaultRouter St)%type.

Definition fail (e : RoutingError) (r : DefaultRouter St) : Act Routed :=
  aret (Err e, count IncrementErrors r).

(** A provider has been found: the two counters and the result. *)
Definition routed_to (p : Provider) (name strategyName reason : string) (isFallback : bool)
    (attempted : list string) (r : DefaultRouter St) : Act Routed :=
  let r := count (IncrementStrategy strategyName) (count (IncrementProvider name) r) in
  do! h := IsHealthy p in
  aret (Ok (mkRoutingResult p name strategyName reason h isFallback attempted ∅), r).

Definition routeWithStrategy (req : RoutingRequest) (available : list Provider) (r : DefaultRouter St)
  : Act Routed :=
  do! (o, s) := SelectProvider req available (strategy r) in
  let r := set_strategy r s in
  match o with
  | Err e => fail (StrategyFailed e) r
  | Ok provider =>
      let name := StrategyName (strategy r) in
      routed_to provider (GetName provider) name ("selected by " +:+ name +:+ " strategy") false
        [GetName provider] r
  end.

(** The loop over the fallback names, with the names attempted before it. *)
Fixpoint try_fallbacks (req : RoutingRequest) (available : list Provider) (fallbackNames attempted : list string)
    (r : DefaultRouter St) : Act Routed :=
  match fallbackNames with
  | [] => fail (AllProvidersFailedError attempted (req_Model req)) r
  | fallbackName :: rest =>
      let attempted := (attempted ++ [fallbackName])%list in
      match find_provider fallbackName available with
      | Some p => routed_to p fallbackName "fallback" "fallback provider" true attempted r
      | None => try_fallbacks req available rest attempted r
      end
  end.

Definition tryFallbacks (req : RoutingRequest) (available : list Provider) (fallbackNames : list string)
    (r : DefaultRouter St) : Act Routed :=
  try_fallbacks req available fallbackNames [] r.

Definition routeWithPolicy (req : RoutingRequest) (target : RoutingTarget) (available : list Provider)
    (r : DefaultRouter St) : Act Routed :=
  let r := count IncrementPolicyOverride r in
  let providerName := rt_Provider target in
  match find_provider providerName available with
  | Some p => routed_to p providerName "policy" "policy route action" false [providerName] r
  | None =>
      if FallbackEnabled (config r) && (0 <? Z.of_nat (length (Fallback target))) then
        tryFallbacks req available (Fallback target) r
      else fail (ProviderNotFoundError providerName (getProviderNames available)) r
  end.

Definition routeManual (req : RoutingRequest) (available : list Provider) (r : DefaultRouter St) : Act Routed :=
  let r := count IncrementManualOverride r in
  let providerName := PreferredProvider req in
  match find_provider providerName available with
  | Some p => routed_to p providerName "manual" "explicit provider selection" false [providerName] r
  | None =>
      if FallbackEnabled (config r) then routeWithStrategy req available r
      else fail (ProviderNotFoundError providerName (getProviderNames available)) r
  end.

Definition routing_target (req : RoutingRequest) : option RoutingTarget :=
  match req_PolicyDecision req with Some d => d_RoutingTarget d | None => None end.

(** The precedence of the three ways to choose. *)
Definition route_available (req : RoutingRequest) (available : list Provider) (r : DefaultRouter St)
  : Act Routed :=
  match routing_target req with
  | Some target => routeWithPolicy req target available r
  | None =>
      if negb (String.eqb (PreferredProvider req) "") then routeManual req available r
      else routeWithStrategy req available r
  end.

(** A context's error does not change once it is set, so it is read once. *)
Definition RouteRequest (req : RoutingRequest) (r : DefaultRouter St) : Act Routed :=
  let r := count IncrementTotal r in
  do! err := ctx_Err in
  match err with
  | Some e => fail (ContextError e) r
  | None =>
      do! available := GetAvailableProviders (selector r) in
      match available with
      | [] => fail ErrNoProvidersConfigured r
      | _ =>
          let available := FilterByModel (selector r) available (req_Model req) in
          match available with
          | [] =>
              do! models := GetSupportedModels (selector r) in
              fail (ModelNotSupportedError (req_Model req) models) r
          | _ =>
              let healthyBefore := Z.of_nat (length available) in
              do! available := FilterByHealth available in
              let r := if Z.of_nat (length available) <? healthyBefore
                       then count IncrementHealthFiltered r else r in
              match available with
              | [] =>
                  do! names := GetProviderNames (selector r) in
                  fail (NoHealthyProvidersError names (req_Model req)) r
              | _ => route_available req available r
              end
          end
      end
  end.

Definition GetStrategy (r : DefaultRouter St) : string := StrategyName (strategy r).
Definition GetStats (r : DefaultRouter St) : RoutingStats := Snapshot (stats r).

Definition UpdateProviders (providerMap : option (gmap string Provider)) (r : DefaultRouter St)
  : DefaultRouter St :=
  mkRouter (sel_UpdateProviders providerMap (selector r)) (strategy r) (stats r) (config r).
End Router.

(** ** What the filters leave *)

Definition supports (s : ProviderSelector) (model : string) (p : Provider) : Prop :=
  model = "" \/ modelMapping s !! model = None \/
  exists names, modelMapping s !! model = Some names /\ GetName p ∈ names.

Definition configured (s : ProviderSelector) (p : Provider) : Prop :=
  exists key, providers s !! key = Some p.

Lemma filter_by_model s l model p :
  p ∈ FilterByModel s l model <-> p ∈ l /\ supports s model p.
Proof.
  unfold FilterByModel, supports. destruct l as [|q l]; [split; [by intros ?%elem_of_nil|by intros [? _]]|].
  destruct (String.eqb_spec model "") as [->|Hm].
  { split; [intros Hp; split; [done|by left]|by intros [? _]]. }
  destruct (modelMapping s !! model) as [names|].
  - rewrite list_elem_of_filter, elem_of_list_to_set. split.
    + intros [Hn Hp]. split; [done|]. right. right. by exists names.
    + intros [Hp [?|[?|(names' & [= ->] & Hn)]]]; done.
  - split; [intros Hp; split; [done|by right; left]|by intros [? _]].
Qed.

Lemma available_run s ev i :
  exists l j, GetAvailableProviders s ev i = Some (l, j) /\ (i <= j)%nat /\
    forall p, p ∈ l <-> configured s p.
Proof.
  unfold GetAvailableProviders, configured.
  destruct (Z.eqb_spec (Z.of_nat (size (providers s))) 0) as [Hz|Hz].
  - exists [], i. split; [done|]. split; [done|]. intros p. split; [by intros ?%elem_of_nil|].
    assert (providers s = ∅) as -> by (apply map_size_empty_iff; lia).
    intros (k & Hk). by rewrite lookup_empty in Hk.
  - unfold abind, order, aret. eexists _, _. split; [done|]. split; [lia|].
    intros p. rewrite list_elem_of_fmap. split.
    + intros ([k q] & -> & Hin). exists k. by apply elem_of_range in Hin.
    + intros (k & Hk). exists (k, p). split; [done|]. by apply elem_of_range.
Qed.

Lemma filter_by_health l ev i :
  exists r j, FilterByHealth l ev i = Some (r, j) /\ (i <= j)%nat /\
    (forall p, p ∈ r -> p ∈ l /\ exists t, (i <= t < j)%nat /\ env_health ev t p = true) /\
    (forall p, p ∈ l -> p ∈ r \/ exists t, (i <= t < j)%nat /\ env_health ev t p = false).
Proof.
  destruct l as [|q l].
  { exists [], i. split; [done|]. split; [done|]. split; by intros p ?%elem_of_nil. }
  destruct (filterHealthy_run (q :: l) ev i) as (r & Hr & Hin).
  exists r, (i + length (q :: l))%nat. split; [exact Hr|]. split; [lia|]. split.
  - intros p (k & Hk & Hh)%Hin. split; [by apply list_elem_of_lookup_2 in Hk|].
    exists (i + k)%nat. split; [|done]. apply lookup_lt_Some in Hk. lia.
  - intros p [k Hk]%list_elem_of_lookup_1. destruct (env_health ev (i + k)%nat p) eqn:Eh.
    + left. apply Hin. by exists k.
    + right. exists (i + k)%nat. split; [|done]. apply lookup_lt_Some in Hk. lia.
Qed.

(** A provider a request may be routed to: configured, capable of the model,
    and healthy when it was asked between two points of the call. *)
Definition eligible (s : ProviderSelector) (model : string) (ev : Env) (i j : nat) (p : Provider) : Prop :=
  configured s p /\ supports s model p /\ exists t, (i <= t < j)%nat /\ env_health ev t p = true.

(** ** Counting *)

(** The counters every request moves: total, per provider, per strategy, errors. *)
Definition core (s : AtomicRoutingStats) : Z * gmap string Z * gmap string Z * Z :=
  (totalRequests s, requestsPerProvider s, strategyUseCount s, errors s).

(** A request that ends moves one provider and one strategy counter, or the
    error counter. *)
Definition accounted (ok : bool) (s s' : AtomicRoutingStats) : Prop :=
  if ok then exists p n, core s' =
    (totalRequests s, bump p (requestsPerProvider s), bump n (strategyUseCount s), errors s)
  else core s' = (totalRequests s, requestsPerProvider s, strategyUseCount s, errors s +64 1).

Lemma accounted_core ok s1 s2 s' : core s1 = core s2 -> accounted ok s1 s' -> accounted ok s2 s'.
Proof.
  unfold accounted, core. intros [= E1 E2 E3 E4]. by rewrite E1, E2, E3, E4.
Qed.

Section Spec.
Context `{HL : StrategyLaws St}.
Implicit Types r : DefaultRouter St.

(** What a caller may rely on when a request was routed among [available]. *)
Definition chosen_by_strategy r res : Prop :=
  res_Strategy res = StrategyName (strategy r) /\ IsFallback res = false /\
  res_AttemptedProviders res = [res_ProviderName res].

Definition outcome_spec (req : RoutingRequest) (available : list Provider) r
    (out : result RoutingError RoutingResult) : Prop :=
  let names := getProviderNames available in
  match routing_target req, out with
  | Some t, Ok res =>
      (res_ProviderName res = rt_Provider t /\ res_Strategy res = "policy" /\ IsFallback res = false) \/
      (FallbackEnabled (config r) = true /\ rt_Provider t ∉ names /\
       res_Strategy res = "fallback" /\ IsFallback res = true /\
       exists pre post, Fallback t = (pre ++ res_ProviderName res :: post)%list /\
         Forall (fun n => n ∉ names) pre /\ res_AttemptedProviders res = (pre ++ [res_ProviderName res])%list)
  | Some t, Err e =>
      rt_Provider t ∉ names /\
      ((e = ProviderNotFoundError (rt_Provider t) names /\ (FallbackEnabled (config r) = false \/ Fallback t = [])) \/
       (e = AllProvidersFailedError (Fallback t) (req_Model req) /\ FallbackEnabled (config r) = true /\
        Forall (fun n => n ∉ names) (Fallback t)))
  | None, Ok res =>
      if String.eqb (PreferredProvider req) "" then chosen_by_strategy r res
      else (res_ProviderName res = PreferredProvider req /\ res_Strategy res = "manual") \/
           (FallbackEnabled (config r) = true /\ PreferredProvider req ∉ names /\ chosen_by_strategy r res)
  | None, Err e =>
      (exists se, e = StrategyFailed se) \/
      (e = ProviderNotFoundError (PreferredProvider req) names /\ PreferredProvider req <> "" /\
       PreferredProvider req ∉ names /\ FallbackEnabled (config r) = false)
  end.

(** The common part of every way a request ends after the filters. *)
Definition ends (available : list Provider) (i : nat) r (o : option (Routed * nat))
    (post : result RoutingError RoutingResult -> Prop) : Prop :=
  exists out r' j, o = Some ((out, r'), j) /\ (i <= j)%nat /\ strategy_ok (strategy r') /\
    selector r' = selector r /\ config r' = config r /\
    StrategyName (strategy r') = StrategyName (strategy r) /\
    accounted (is_ok out) (stats r) (stats r') /\
    (forall res, out = Ok res -> res_Provider res ∈ available /\ res_ProviderName res = GetName (res_Provider res)) /\
    post out.

Lemma ends_count available i r f o (post : result RoutingError RoutingResult -> Prop) :
  core (f (stats r)) = core (stats r) -> ends available i (count f r) o post -> ends available i r o post.
Proof.
  intros Hf (out & r' & j & Ho & Hj & Hok & Hs & Hc & Hn & Ha & Hres & Hp).
  exists out, r', j. split; [done|]. split; [done|]. split; [done|]. split; [done|]. split; [done|]. split; [done|].
  split; [by apply (accounted_core _ (f (stats r)))|]. done.
Qed.

Lemma ends_fail available r e ev i0 i (post : result RoutingError RoutingResult -> Prop) :
  (i0 <= i)%nat ->
  strategy_ok (strategy r) -> post (Err e) -> ends available i0 r (fail e r ev i) post.
Proof. intros Hi Hok Hp. eexists (Err e), _, i. split; [done|]. done. Qed.

Lemma ends_routed available r p name sn reason fb att ev i0 i (post : result RoutingError RoutingResult -> Prop) :
  (i0 <= i)%nat ->
  strategy_ok (strategy r) -> p ∈ available -> name = GetName p ->
  (forall h, post (Ok (mkRoutingResult p name sn reason h fb att ∅))) ->
  ends available i0 r (routed_to p name sn reason fb att r ev i) post.
Proof.
  intros Hi Hok Hin Hn Hp. unfold routed_to, abind, IsHealthy, aret.
  eexists (Ok _), _, _. split; [done|]. split; [lia|]. split; [done|]. do 3 (split; [done|]).
  split; [by exists name, sn|]. split; [|apply Hp]. intros res [= <-]. done.
Qed.

Lemma routeWithStrategy_ends req available r ev i (post : result RoutingError RoutingResult -> Prop) :
  strategy_ok (strategy r) ->
  (forall res, chosen_by_strategy r res -> post (Ok res)) -> (forall se, post (Err (StrategyFailed se))) ->
  ends available i r (routeWithStrategy req available r ev i) post.
Proof.
  intros Hok Hp He. destruct (select_safe req available (strategy r) ev i Hok) as (o & s & j & Hs & Hj & Hok' & Hin).
  pose proof (strategy_name_stable _ _ _ _ _ _ _ _ Hs) as Hname.
  unfold routeWithStrategy, abind. rewrite Hs.
  assert (Hends : forall x post', ends available i (set_strategy r s) x post' -> ends available i r x post').
  { intros x post' (out & r' & k & Hx & H0 & H1 & H2 & H3 & H4 & H5). exists out, r', k.
    split; [done|]. split; [done|]. split; [done|]. split; [done|]. split; [done|]. split; [|done].
    rewrite H4. exact Hname. }
  apply Hends. destruct o as [p|e].
  - apply ends_routed; [done|done|by apply Hin|done|]. intros h. apply Hp. split; [|done]. exact Hname.
  - by apply ends_fail.
Qed.

Lemma try_fallbacks_ends req available names attempted r ev i (post : result RoutingError RoutingResult -> Prop) :
  strategy_ok (strategy r) ->
  (forall pre name rest res, names = (pre ++ name :: rest)%list ->
     Forall (fun n => n ∉ getProviderNames available) pre ->
     res_ProviderName res = name -> res_Strategy res = "fallback" -> IsFallback res = true ->
     res_AttemptedProviders res = (attempted ++ pre ++ [name])%list -> post (Ok res)) ->
  (Forall (fun n => n ∉ getProviderNames available) names ->
   post (Err (AllProvidersFailedError (attempted ++ names)%list (req_Model req)))) ->
  ends available i r (try_fallbacks req available names attempted r ev i) post.
Proof.
  intros Hok. revert attempted. induction names as [|n names IH]; intros attempted Hp He; cbn [try_fallbacks].
  { apply ends_fail; [done|done|]. rewrite app_nil_r in He. by apply He. }
  destruct (find_provider n available) as [p|] eqn:Ef.
  - apply find_provider_Some in Ef as [Hin Hn]. apply ends_routed; [done|done|done|done|].
    intros h. by apply (Hp [] n names).
  - apply find_provider_None in Ef. apply IH.
    + intros pre m rest res -> Hpre Hr1 Hr2 Hr3 Hr4.
      apply (Hp (n :: pre) m rest); [done|by constructor|done|done|done|].
      by rewrite Hr4, <- app_assoc.
    + intros Hall. rewrite <- app_assoc. apply He. by constructor.
Qed.

Lemma route_available_ends req available r ev i :
  strategy_ok (strategy r) ->
  ends available i r (route_available req available r ev i) (outcome_spec req available r).
Proof.
  intros Hok. unfold route_available, outcome_spec. destruct (routing_target req) as [t|].
  - unfold routeWithPolicy. apply ends_count with IncrementPolicyOverride; [done|].
    destruct (find_provider (rt_Provider t) available) as [p|] eqn:Ef.
    + apply find_provider_Some in Ef as [Hin Hn]. apply ends_routed; [done..|]. intros h. by left.
    + apply find_provider_None in Ef. cbn [config count].
      destruct (FallbackEnabled (config r)) eqn:Eb; cbn [andb].
      * destruct (Z.ltb_spec 0 (Z.of_nat (length (Fallback t)))).
        -- apply try_fallbacks_ends; [done| |].
           ++ intros pre n rest res Hf Hpre <- Hs Hfb Hat. right. do 4 (split; [done|]).
              by exists pre, rest.
           ++ intros Hall. split; [done|]. by right.
        -- apply ends_fail; [done|done|]. split; [done|]. left. split; [done|]. right.
           destruct (Fallback t); [done|simpl in *; lia].
      * apply ends_fail; [done|done|]. split; [done|]. left. by split; [|left].
  - destruct (String.eqb_spec (PreferredProvider req) "") as [He|He]; cbn [negb].
    + apply routeWithStrategy_ends; [done|done|]. intros se. left. by exists se.
    + unfold routeManual. apply ends_count with IncrementManualOverride; [done|].
      destruct (find_provider (PreferredProvider req) available) as [p|] eqn:Ef.
      * apply find_provider_Some in Ef as [Hin Hn]. apply ends_routed; [done..|]. intros h. by left.
      * apply find_provider_None in Ef. cbn [config count].
        destruct (FallbackEnabled (config r)) eqn:Eb.
        -- apply routeWithStrategy_ends; [done| |]; [|intros se; left; by exists se].
           intros res Hc. right. split; [done|]. split; [done|]. exact Hc.
        -- apply ends_fail; [done|done|]. right. done.
Qed.

(** The errors of the steps before the choice, with what causes them. *)
Definition refused (req : RoutingRequest) (s : ProviderSelector) (ev : Env) (i j : nat) (e : RoutingError) : Prop :=
  (exists c, e = ContextError c /\ env_ctx ev i = Some c) \/
  (e = ErrNoProvidersConfigured /\ forall p, ~ configured s p) \/
  (exists ms, e = ModelNotSupportedError (req_Model req) ms /\
     forall p, configured s p -> ~ supports s (req_Model req) p) \/
  (exists ns, e = NoHealthyProvidersError ns (req_Model req) /\
     forall p, configured s p -> supports s (req_Model req) p ->
       exists t, (i <= t < j)%nat /\ env_health ev t p = false).

(** The filters leave exactly a list of eligible providers with every capable
    provider that did not read as unhealthy; what happens then is the business
    of [outcome_spec]. *)
Definition narrowed (req : RoutingRequest) (s : ProviderSelector) (ev : Env) (i j : nat)
    (available : list Provider) : Prop :=
  available <> [] /\ (forall p, p ∈ available -> eligible s (req_Model req) ev i j p) /\
  (forall p, configured s p -> supports s (req_Model req) p ->
     p ∈ available \/ exists t, (i <= t < j)%nat /\ env_health ev t p = false).

Lemma nonempty_match {A B} (l : list A) (x y : B) :
  l <> [] -> match l with [] => x | _ :: _ => y end = y.
Proof. by destruct l. Qed.

Lemma route_request_narrow req r ev i :
  let r0 := count IncrementTotal r in
  (exists e r1 k j, RouteRequest req r ev i = fail e r1 ev k /\ (i <= k)%nat /\ (j <= k)%nat /\
     strategy r1 = strategy r /\ selector r1 = selector r /\ config r1 = config r /\
     core (stats r1) = core (stats r0) /\ refused req (selector r) ev i j e) \/
  (exists available r1 k, RouteRequest req r ev i = route_available req available r1 ev k /\ (i <= k)%nat /\
     strategy r1 = strategy r /\ selector r1 = selector r /\ config r1 = config r /\
     core (stats r1) = core (stats r0) /\ narrowed req (selector r) ev i k available).
Proof.
  intros r0. remember (RouteRequest req r ev i) as o eqn:Ho.
  unfold RouteRequest in Ho. fold r0 in Ho. unfold abind at 1, ctx_Err at 1 in Ho.
  destruct (env_ctx ev i) as [c|] eqn:Ec.
  { left. exists (ContextError c), r0, (S i), i. do 6 (split; [done || lia|]). split; [done|]. left. by exists c. }
  change (selector r0) with (selector r) in Ho.
  destruct (available_run (selector r) ev (S i)) as (l & j & Hl & Hj & Hin). unfold abind at 1 in Ho. rewrite Hl in Ho.
  destruct (decide (l = [])) as [->|Hne].
  { left. exists ErrNoProvidersConfigured, r0, j, i. do 6 (split; [done || lia|]). split; [done|].
    right. left. split; [done|]. intros p Hp%Hin. by apply elem_of_nil in Hp. }
  rewrite (nonempty_match l) in Ho by done.
  pose proof (filter_by_model (selector r) l (req_Model req)) as Hf.
  destruct (decide (FilterByModel (selector r) l (req_Model req) = [])) as [Em|Em].
  { rewrite Em in *. left. eexists (ModelNotSupportedError _ _), r0, (S j), i. split; [exact Ho|]. do 5 (split; [done || lia|]). split; [done|].
    right. right. left. eexists. split; [done|]. intros p Hp%Hin Hs.
    assert (Hnil : p ∈ []) by (apply Hf; done). by apply elem_of_nil in Hnil. }
  rewrite nonempty_match in Ho by done. destruct (filter_by_health (FilterByModel (selector r) l (req_Model req)) ev j)
    as (h & k & Hh & Hk & Hsound & Hcompl).
  unfold abind at 1 in Ho. rewrite Hh in Ho.
  set (r1 := if Z.of_nat (length h) <? _ then count IncrementHealthFiltered r0 else r0) in Ho.
  assert (Hr1 : strategy r1 = strategy r /\ selector r1 = selector r /\ config r1 = config r /\
    core (stats r1) = core (stats r0)) by (unfold r1; by destruct (_ <? _)).
  destruct Hr1 as (H1 & H2 & H3 & H4).
  assert (Hall : forall p, configured (selector r) p -> supports (selector r) (req_Model req) p ->
    p ∈ h \/ exists t, (i <= t < k)%nat /\ env_health ev t p = false).
  { intros p Hp Hs. destruct (Hcompl p) as [?|(t & Ht & ?)]; [by apply Hf; rewrite Hin|by left|].
    right. exists t. by split; [lia|]. }
  destruct (decide (h = [])) as [->|Eh].
  - left. rewrite H2 in Ho. eexists (NoHealthyProvidersError _ _), r1, (S k), k. split; [exact Ho|].
    do 5 (split; [done || lia|]). split; [done|]. right. right. right. eexists. split; [done|].
    intros p Hp Hs. destruct (Hall p Hp Hs) as [Hnil|?]; [by apply elem_of_nil in Hnil|done].
  - right. exists h, r1, k. split; [by destruct h|]. do 5 (split; [done || lia|]).
    split; [done|]. split; [|done]. intros p Hp. destruct (Hsound p Hp) as [Hpm (t & Ht & Hht)].
    apply Hf in Hpm as [Hpl Hs]. split; [by apply Hin|]. split; [done|]. exists t. by split; [lia|].
Qed.

Lemma eligible_mono s model ev i j k p :
  (j <= k)%nat -> eligible s model ev i j p -> eligible s model ev i k p.
Proof. intros Hjk (Hc & Hs & t & Ht & Hh). split; [done|]. split; [done|]. exists t. by split; [lia|]. Qed.

Lemma narrowed_mono req s ev i j k available :
  (j <= k)%nat -> narrowed req s ev i j available -> narrowed req s ev i k available.
Proof.
  intros Hjk (Hne & Hel & Hall). split; [done|]. split; [eauto using eligible_mono|].
  intros p Hp Hs. destruct (Hall p Hp Hs) as [?|(t & Ht & Hh)]; [by left|]. right. exists t. by split; [lia|].
Qed.

Lemma refused_mono req s ev i j k e :
  (j <= k)%nat -> refused req s ev i j e -> refused req s ev i k e.
Proof.
  intros Hjk [?|[?|[?|(ns & -> & Hall)]]]; [by left|by right; left|by right; right; left|].
  do 3 right. exists ns. split; [done|]. intros p Hp Hs. destruct (Hall p Hp Hs) as (t & Ht & Hh).
  exists t. by split; [lia|].
Qed.

(** Everything a routing request does, in one statement. *)
Lemma route_request_spec req r ev i :
  strategy_ok (strategy r) ->
  exists out r' j, RouteRequest req r ev i = Some ((out, r'), j) /\ (i <= j)%nat /\
    strategy_ok (strategy r') /\ selector r' = selector r /\ config r' = config r /\
    accounted (is_ok out) (IncrementTotal (stats r)) (stats r') /\
    ((exists e, out = Err e /\ refused req (selector r) ev i j e) \/
     (exists available, narrowed req (selector r) ev i j available /\ outcome_spec req available r out /\
        forall res, out = Ok res ->
          res_Provider res ∈ available /\ res_ProviderName res = GetName (res_Provider res))).
Proof.
  intros Hok. destruct (route_request_narrow req r ev i)
    as [(e & r1 & k & j & He & Hik & Hjk & H1 & H2 & H3 & H4 & Hr)|
        (available & r1 & k & He & Hik & H1 & H2 & H3 & H4 & Hn)]; rewrite He.
  - eexists (Err e), _, k. split; [done|]. split; [done|]. cbn [strategy selector config count stats].
    rewrite H1. split; [done|]. split; [done|]. split; [done|].
    split; [apply (accounted_core false (stats r1)); [exact H4|done]|].
    left. exists e. split; [done|]. by apply refused_mono with j.
  - destruct (route_available_ends req available r1 ev k) as (out & r' & j & Ho & Hj & Hok' & Hs & Hc & _ & Ha & Hres & Hp);
      [by rewrite H1|].
    exists out, r', j. split; [done|]. split; [lia|]. split; [done|]. split; [congruence|]. split; [congruence|].
    split; [by apply (accounted_core _ (stats r1))|]. right. exists available.
    split; [by apply narrowed_mono with k|]. split; [|done].
    unfold outcome_spec, chosen_by_strategy in *. by rewrite <- H3, <- H1.
Qed.

(** C19: a routing request with any lawful strategy ends without a panic and
    either is refused for one of the four reasons the filters give (cancelled
    context, empty pool, no capable provider, no capable provider that read
    healthy), or is decided among a non-empty list of eligible providers by the
    documented precedence: a policy target first, then its fallbacks in order
    when fallback is enabled, then the preferred provider, then the strategy. *)
Theorem route_request_decides req r ev i :
  strategy_ok (strategy r) ->
  exists out r' j, RouteRequest req r ev i = Some ((out, r'), j) /\
    strategy_ok (strategy r') /\ selector r' = selector r /\ config r' = config r /\
    ((exists e, out = Err e /\ refused req (selector r) ev i j e) \/
     (exists available, narrowed req (selector r) ev i j available /\ outcome_spec req available r out)).
Proof.
  intros Hok. destruct (route_request_spec req r ev i Hok) as (out & r' & j & He & _ & H1 & H2 & H3 & _ & Hor).
  exists out, r', j. do 4 (split; [done|]). destruct Hor as [?|(available & Hn & Ho & _)]; [by left|].
  right. by exists available.
Qed.

(** C2: whatever the strategy and the configuration, a request is only ever
    routed to a provider of the pool that is mapped to the requested model (or
    the model is not mapped at all) and that was healthy when it was asked
    during the call, and the reported name is that provider's name. *)
Theorem routed_provider_eligible req r ev i res r' j :
  strategy_ok (strategy r) -> RouteRequest req r ev i = Some ((Ok res, r'), j) ->
  eligible (selector r) (req_Model req) ev i j (res_Provider res) /\
  res_ProviderName res = GetName (res_Provider res).
Proof.
  intros Hok Hr. destruct (route_request_spec req r ev i Hok) as (out & r2 & j2 & He & _ & _ & _ & _ & _ & Hor).
  rewrite He in Hr. injection Hr as -> -> ->.
  destruct Hor as [(e & ? & _)|(available & (_ & Hel & _) & _ & Hres)]; [done|].
  destruct (Hres res eq_refl) as [Hin Hn]. split; [by apply Hel|done].
Qed.

(** ** Statistics *)

(** Routers after [n] requests of which [k] failed, with updates of the
    provider pool in between. *)
Inductive serves (r0 : DefaultRouter St) : nat -> nat -> DefaultRouter St -> Prop :=
| serves_start : serves r0 0 0 r0
| serves_request n k r req ev i out r' j :
    serves r0 n k r -> RouteRequest req r ev i = Some ((out, r'), j) ->
    serves r0 (S n) (if is_ok out then k else S k) r'
| serves_update n k r m : serves r0 n k r -> serves r0 n k (UpdateProviders m r).

Record tallied (n k : nat) (s : AtomicRoutingStats) : Prop := {
  ta_total : totalRequests s = Z.of_nat n;
  ta_errors : errors s = Z.of_nat k;
  ta_le : (k <= n)%nat;
  ta_providers : map_sum (requestsPerProvider s) = Z.of_nat n - Z.of_nat k;
  ta_strategies : map_sum (strategyUseCount s) = Z.of_nat n - Z.of_nat k;
  ta_nonneg_p : map_Forall (fun _ x => 0 <= x) (requestsPerProvider s);
  ta_nonneg_s : map_Forall (fun _ x => 0 <= x) (strategyUseCount s);
}.

Lemma bump_sum name m :
  map_Forall (fun _ x => 0 <= x) m -> map_sum m < max_int64 ->
  map_sum (bump name m) = map_sum m + 1 /\ map_Forall (fun _ x => 0 <= x) (bump name m).
Proof.
  intros Hm Hb. unfold bump, add64.
  assert (Hd : 0 <= default 0 (m !! name) < max_int64).
  { destruct (m !! name) as [v|] eqn:E; simpl; [|unfold max_int64; lia].
    pose proof (map_sum_lookup name v m Hm E). specialize (Hm name v E). simpl in Hm. lia. }
  rewrite wrap64_id by lia64. split; [rewrite map_sum_insert; lia|].
  apply map_Forall_insert_2; [lia|done].
Qed.

Lemma accounted_tallied n k ok s s' :
  Z.of_nat (S n) <= max_int64 -> tallied n k s -> accounted ok (IncrementTotal s) s' ->
  tallied (S n) (if ok then k else S k) s'.
Proof.
  intros Hb [H1 H2 H3 H4 H5 H6 H7] Ha. unfold accounted, core in Ha. cbn [IncrementTotal totalRequests requestsPerProvider strategyUseCount errors] in Ha.
  unfold add64 in Ha. rewrite H1, (wrap64_id (Z.of_nat n + 1)) in Ha by lia64. destruct ok.
  - destruct Ha as (p & sn & [= E1 E2 E3 E4]).
    destruct (bump_sum p (requestsPerProvider s)) as [Hp Hp']; [done|lia|].
    destruct (bump_sum sn (strategyUseCount s)) as [Hs Hs']; [done|lia|].
    split; rewrite ?E1, ?E2, ?E3, ?E4; [lia|done|lia|lia|lia|done|done].
  - injection Ha as E1 E2 E3 E4. rewrite H2, wrap64_id in E4 by lia64.
    split; rewrite ?E1, ?E2, ?E3, ?E4; [lia|lia|lia|lia|lia|done|done].
Qed.

(** The statistics are conserved through any sequence of requests and
    provider updates on a new router (with fewer than 2^63 requests): every
    request is counted once in the total and then exactly once more, as an error
    or for the provider it went to; each provider count has its strategy count;
    and the error counter is the number of requests that failed. *)
Theorem routing_stats_conserved now cfg pm s r0 n k r :
  NewRouter now cfg pm (Some s) = Ok r0 -> strategy_ok s -> serves r0 n k r -> Z.of_nat n <= max_int64 ->
  TotalRequests (GetStats r) = Z.of_nat n /\ Errors (GetStats r) = Z.of_nat k /\
  TotalRequests (GetStats r) = map_sum (RequestsPerProvider (GetStats r)) + Errors (GetStats r) /\
  map_sum (RequestsPerProvider (GetStats r)) = map_sum (StrategyUseCount (GetStats r)).
Proof.
  intros Hnew Hok Hs Hn. unfold GetStats, Snapshot. cbn [TotalRequests RequestsPerProvider StrategyUseCount Errors].
  enough (strategy_ok (strategy r) /\ tallied n k (stats r)) as [_ [H1 H2 H3 H4 H5 _ _]] by (repeat split; lia).
  destruct cfg as [cfg|]; [|done]. injection Hnew as <-.
  induction Hs as [|n k r req ev i out r' j _ IH Hr|n k r m _ IH].
  - split; [done|]. split; try done.
  - destruct IH as [Hok' Ht]; [lia|].
    destruct (route_request_spec req r ev i Hok') as (out2 & r2 & j2 & He & _ & Hok2 & _ & _ & Ha & _).
    rewrite He in Hr. injection Hr as -> -> ->. split; [done|]. by apply accounted_tallied with (stats r).
  - exact (IH Hn).
Qed.
End Spec.

(** ** Round robin behind the router *)

Lemma rr_selects req available s ev i :
  available <> [] -> rr_ok s ->
  exists p s', SelectProvider req available s ev i = Some ((Ok p, s'), i).
Proof.
  intros Hne Hok. destruct available as [|a [|b l]]; [done|by eexists a, s|].
  destruct (rr_select req (a :: b :: l) s ev i) as (p & _ & He); [simpl; lia|done|]. eauto.
Qed.

Lemma routeWithStrategy_ok `{RoutingStrategy St} req available (r : DefaultRouter St) ev i p s j :
  SelectProvider req available (strategy r) ev i = Some ((Ok p, s), j) ->
  exists res r' j', routeWithStrategy req available r ev i = Some ((Ok res, r'), j') /\
    res_Provider res = p /\ strategy r' = s /\ selector r' = selector r /\ config r' = config r.
Proof.
  intros Hs. unfold routeWithStrategy, abind. rewrite Hs. by eexists _, _, _.
Qed.

(** As long as one capable provider of the pool stays healthy and the
    context is not cancelled, a request without a policy target or a preferred
    provider is routed by a round-robin router: it never fails because other
    providers are down. *)
Theorem healthy_provider_suffices req (r : DefaultRouter RoundRobinStrategy) ev i p :
  rr_ok (strategy r) -> configured (selector r) p -> supports (selector r) (req_Model req) p ->
  (forall t, env_health ev t p = true) -> env_ctx ev i = None ->
  routing_target req = None -> PreferredProvider req = "" ->
  exists res r' j, RouteRequest req r ev i = Some ((Ok res, r'), j).
Proof.
  intros Hok Hp Hs Hh Hc Ht Hpref.
  destruct (route_request_narrow req r ev i)
    as [(e & r1 & k & j & _ & _ & _ & _ & _ & _ & _ & Hr)|
        (available & r1 & k & He & _ & H1 & _ & _ & _ & Hne & _)].
  - exfalso. destruct Hr as [(c & _ & ?)|[(_ & Hn)|[(ms & _ & Hn)|(ns & _ & Hn)]]].
    + congruence.
    + by apply (Hn p).
    + by apply (Hn p).
    + destruct (Hn p Hp Hs) as (t & _ & Hf). by rewrite Hh in Hf.
  - rewrite He. unfold route_available. rewrite Ht, Hpref. simpl.
    destruct (rr_selects req available (strategy r1) ev k Hne) as (q & s' & Hq); [by rewrite H1|].
    destruct (routeWithStrategy_ok req available r1 ev k q s' k Hq) as (res & r' & j' & Hr & _).
    by exists res, r', j'.
Qed.

(** An iteration order that visits the keys of [ks] first. *)
Definition visits_first (ks : list string) {V} (m : gmap string V) : list (string * V) :=
  (omap (fun k => pair k <$> m !! k) ks ++ filter (fun e => fst e ∉ ks) (map_to_list m))%list.

Lemma visits_first_perm ks {V} (m : gmap string V) : NoDup ks -> visits_first ks m ≡ₚ map_to_list m.
Proof.
  intros Hks. unfold visits_first.
  assert (Hel : forall k v, (k, v) ∈ omap (fun k => pair k <$> m !! k) ks <-> k ∈ ks /\ m !! k = Some v).
  { intros k v. rewrite list_elem_of_omap. split.
    - intros (k' & Hin & Hk). destruct (m !! k') as [v'|] eqn:E; simpl in Hk; [|done].
      injection Hk as -> ->. done.
    - intros [Hin Hk]. exists k. by rewrite Hk. }
  apply NoDup_Permutation; [|apply NoDup_map_to_list|].
  - apply NoDup_app. split; [|split].
    + clear Hel. induction Hks as [|k ks Hk Hks IH]; simpl; [constructor|].
      destruct (m !! k) as [v|]; simpl; [|done]. constructor; [|done].
      rewrite list_elem_of_omap. intros (k' & Hin & Hk'). destruct (m !! k'); simpl in Hk'; [|done].
      injection Hk' as -> _. done.
    + intros [k v] [Hin _]%Hel. rewrite list_elem_of_filter. intros [Hn _]. done.
    + apply NoDup_filter, NoDup_map_to_list.
  - intros [k v]. rewrite elem_of_app, Hel, list_elem_of_filter, elem_of_map_to_list. simpl.
    destruct (decide (k ∈ ks)); naive_solver.
Qed.

Definition visiting (ks : list string) (Hks : NoDup ks) : MapRange := {|
  range V m := visits_first ks m;
  range_perm V m := visits_first_perm ks m Hks;
|}.

Lemma visits_defined {V} (m : gmap string V) (l : list string) :
  (forall k, k ∈ l -> is_Some (m !! k)) ->
  length (omap (fun k => pair k <$> m !! k) l) = length l /\
  forall i k, l !! i = Some k -> omap (fun k => pair k <$> m !! k) l !! i = pair k <$> m !! k.
Proof.
  induction l as [|k0 l IH]; intros Hd; [done|]. simpl.
  destruct (Hd k0) as [v0 Hv0]; [left|]. rewrite Hv0. simpl.
  destruct IH as [Hl Hi]; [intros k ?; apply Hd; by right|]. split; [f_equal; exact Hl|].
  intros [|i] k Hk; simpl in *; [by injection Hk as <-; rewrite Hv0|by apply Hi].
Qed.

(** Any provider can be put at any position of an iteration. *)
Lemma order_with (m : gmap string Provider) key p idx :
  m !! key = Some p -> (idx < size m)%nat ->
  exists R : MapRange, (snd <$> range m) !! idx = Some p.
Proof.
  intros Hk Hi.
  set (others := (map_to_list (delete key m)).*1).
  set (ks := (take idx others ++ key :: drop idx others)%list).
  assert (Hperm : ks ≡ₚ key :: others).
  { unfold ks. rewrite <- Permutation_middle, take_drop. done. }
  assert (Hks : NoDup ks).
  { rewrite Hperm. constructor; [|apply NoDup_fst_map_to_list].
    intros ([k v] & Hkk & Hin)%list_elem_of_fmap. simpl in Hkk. subst k.
    apply elem_of_map_to_list in Hin. by rewrite lookup_delete_eq in Hin. }
  assert (Hdom : forall k, k ∈ ks -> is_Some (m !! k)).
  { intros k. rewrite Hperm, elem_of_cons. intros [->|Hin]; [by exists p|].
    apply list_elem_of_fmap in Hin as ([k' v] & -> & Hin). apply elem_of_map_to_list in Hin.
    apply lookup_delete_Some in Hin as [_ ?]. by exists v. }
  assert (Hlen : (idx <= length others)%nat).
  { unfold others. rewrite length_fmap, length_map_to_list, map_size_delete_Some by eauto. lia. }
  destruct (visits_defined m ks Hdom) as [Hol Hom].
  exists (visiting ks Hks). cbn [range visiting]. unfold visits_first. rewrite fmap_app, lookup_app_l.
  - rewrite list_lookup_fmap, (Hom idx key); [by rewrite Hk|].
    unfold ks. rewrite lookup_app_r; rewrite length_take_le by done; [|lia]. by rewrite Nat.sub_diag.
  - rewrite length_fmap, Hol. unfold ks. rewrite length_app, length_take_le by done. simpl. lia.
Qed.

Definition all_healthy (R : MapRange) : Env :=
  mkEnv (fun _ => zero_time) (fun _ _ => true) (fun _ => R) (fun _ => None).

Lemma filter_all_healthy R l i :
  FilterByHealth l (all_healthy R) i = Some (l, (i + length l)%nat).
Proof.
  assert (H : forall i, filterHealthy l (all_healthy R) i = Some (l, (i + length l)%nat)).
  { clear i. induction l as [|p l IH]; intros i; cbn [filterHealthy]; [by rewrite Nat.add_0_r|].
    unfold abind, IsHealthy, aret in *. rewrite IH. simpl. do 2 f_equal. lia. }
  destruct l as [|p l]; [by rewrite Nat.add_0_r|apply H].
Qed.

Lemma route_all_healthy req (r : DefaultRouter RoundRobinStrategy) R i :
  providers (selector r) <> ∅ -> modelMapping (selector r) !! req_Model req = None ->
  routing_target req = None -> PreferredProvider req = "" ->
  exists k, RouteRequest req r (all_healthy R) i =
    routeWithStrategy req (snd <$> range (providers (selector r))) (count IncrementTotal r) (all_healthy R) k.
Proof.
  intros Hne Hm Ht Hp. unfold RouteRequest, GetAvailableProviders, abind, ctx_Err, order, aret.
  cbn [env_ctx env_order all_healthy selector count].
  destruct (Z.eqb_spec (Z.of_nat (size (providers (selector r)))) 0) as [Hz|_].
  { destruct Hne. apply map_size_empty_iff. lia. }
  set (l := snd <$> range (providers (selector r))).
  assert (Hl : l <> []).
  { intros E%fmap_nil_inv. destruct Hne. apply map_to_list_empty_iff.
    apply Permutation_nil_r. rewrite <- E. symmetry. apply range_perm. }
  rewrite (nonempty_match l) by done.
  assert (Hf : FilterByModel (selector r) l (req_Model req) = l).
  { unfold FilterByModel. rewrite Hm. by destruct l, (String.eqb (req_Model req) ""). }
  rewrite Hf, (nonempty_match l) by done. rewrite filter_all_healthy, Z.ltb_irrefl.
  eexists. rewrite (nonempty_match l) by done. unfold route_available. by rewrite Ht, Hp.
Qed.

(** The position of the list that an unweighted selection takes. *)
Definition next_index (s : RoundRobinStrategy) (len : nat) : nat :=
  Z.to_nat ((if counter s =? counter_reset_at then 0 else counter s) mod Z.of_nat len).

Lemma rr_takes_next req l (s : RoundRobinStrategy) p ev k :
  rr_ok s -> weights s = ∅ -> l !! next_index s (length l) = Some p ->
  exists s', SelectProvider req l s ev k = Some ((Ok p, s'), k) /\ rr_ok s' /\ weights s' = ∅.
Proof.
  intros Hok Hw Hl. destruct l as [|a [|b l2]] eqn:El; [done| |].
  - exists s. split; [|done]. unfold next_index in Hl. simpl length in Hl.
    change (Z.of_nat 1) with 1 in Hl. rewrite Z.mod_1_r in Hl. by injection Hl as ->.
  - rewrite <- El in *. destruct (rr_select req l s ev k) as (q & Hq & He); [rewrite El; simpl; lia|done|].
    assert (Hpool : pool s l = l) by (unfold pool, buildWeightedList; rewrite Hw, map_size_empty; by rewrite El).
    rewrite Hpool in Hq. fold (next_index s (length l)) in Hq. rewrite Hl in Hq. injection Hq as <-.
    eexists. split; [exact He|]. split; [|done]. unfold rr_ok, counter_reset_at in *. cbn [counter].
    destruct (Z.eqb_spec (counter s) 1000000000); lia.
Qed.

(** [n] requests in a row, each routed to [p] while every provider is healthy. *)
Inductive all_to (p : Provider) (req : RoutingRequest) : nat -> DefaultRouter RoundRobinStrategy -> Prop :=
| all_to_done r : all_to p req 0 r
| all_to_request n r R i res r' j :
    RouteRequest req r (all_healthy R) i = Some ((Ok res, r'), j) -> res_Provider res = p ->
    all_to p req n r' -> all_to p req (S n) r.

(** The selector lists the pool in the iteration order of a map, which is
    not fixed, and round robin indexes that list.  So the router gives no
    fairness: with equal weights and every provider healthy, any number of
    requests in a row may all be routed to the same provider, whichever it is. *)
Theorem map_order_defeats_round_robin n req (r : DefaultRouter RoundRobinStrategy) p :
  rr_ok (strategy r) -> weights (strategy r) = ∅ -> configured (selector r) p ->
  modelMapping (selector r) !! req_Model req = None ->
  routing_target req = None -> PreferredProvider req = "" ->
  all_to p req n r.
Proof.
  intros Hok Hw [key Hkey] Hm Ht Hp. revert r Hok Hw Hkey Hm.
  induction n as [|n IH]; intros r Hok Hw Hkey Hm; [constructor|].
  set (m := providers (selector r)) in *.
  assert (Hnm : m <> ∅) by (intros E; by rewrite E, lookup_empty in Hkey).
  assert (Hsize : size m <> 0%nat) by (by intros E%map_size_empty_inv).
  destruct (order_with m key p (next_index (strategy r) (size m)) Hkey) as [R HR].
  { unfold next_index. set (c := if _ =? _ then _ else _).
    pose proof (Z.mod_pos_bound c (Z.of_nat (size m))). lia. }
  destruct (route_all_healthy req r R 0%nat Hnm Hm Ht Hp) as [k Hk].
  assert (Hlen : length (snd <$> range m) = size m).
  { by rewrite length_fmap, (Permutation_length (range_perm m)), length_map_to_list. }
  rewrite <- Hlen in HR.
  pose proof (rr_takes_next req (snd <$> range m) (strategy r) p (all_healthy R) k Hok Hw HR) as Hsel.
  destruct Hsel as (s' & Hsel & Hok' & Hw').
  destruct (routeWithStrategy_ok req (snd <$> range m) (count IncrementTotal r) (all_healthy R) k p s' k Hsel)
    as (res & r' & j & Hr & Hres & Hs & Hselr & _).
  apply (all_to_request p req n r R 0%nat res r' j); [by rewrite Hk|done|].
  apply IH; rewrite ?Hs, ?Hselr; done.
Qed.

(** ** Settings that routing does not read *)

Definition with_config {St} (cfg : RoutingConfig) (r : DefaultRouter St) : DefaultRouter St :=
  mkRouter (selector r) (strategy r) (stats r) cfg.

Section Settings.
Context `{RoutingStrategy St} (cfg : RoutingConfig).
Implicit Types r : DefaultRouter St.

Definition reconfigured (o : option (Routed * nat)) : option (@Routed St * nat) :=
  match o with
  | Some ((out, r'), j) => Some ((out, with_config cfg r'), j)
  | None => None
  end.

Lemma routeWithStrategy_config req available r ev i :
  routeWithStrategy req available (with_config cfg r) ev i = reconfigured (routeWithStrategy req available r ev i).
Proof.
  unfold routeWithStrategy, abind. cbn [strategy with_config].
  by destruct (SelectProvider req available (strategy r) ev i) as [[[[p|e] s] j]|].
Qed.

Lemma try_fallbacks_config req available names attempted r ev i :
  try_fallbacks req available names attempted (with_config cfg r) ev i =
  reconfigured (try_fallbacks req available names attempted r ev i).
Proof.
  revert attempted. induction names as [|n names IH]; intros attempted; [done|]. cbn [try_fallbacks].
  by destruct (find_provider n available).
Qed.

Lemma route_available_config req available r ev i :
  FallbackEnabled cfg = FallbackEnabled (config r) ->
  route_available req available (with_config cfg r) ev i = reconfigured (route_available req available r ev i).
Proof.
  intros Hf. unfold route_available. destruct (routing_target req) as [t|].
  - unfold routeWithPolicy. destruct (find_provider _ _); [done|]. cbn [config count with_config]. rewrite Hf.
    destruct (_ && _); [|done]. apply (try_fallbacks_config _ _ _ _ (count IncrementPolicyOverride r)).
  - destruct (negb _); [|apply routeWithStrategy_config]. unfold routeManual.
    destruct (find_provider _ _); [done|]. cbn [config count with_config]. rewrite Hf.
    destruct (FallbackEnabled (config r)); [|done].
    apply (routeWithStrategy_config _ _ (count IncrementManualOverride r)).
Qed.

(** Of the fallback and health settings routing reads only whether
    fallback is enabled: the configured default provider, the maximum number
    of attempts and the requirement of healthy providers change no decision, no
    counter and no strategy state. *)
Theorem fallback_settings_ignored req r ev i :
  FallbackEnabled cfg = FallbackEnabled (config r) ->
  RouteRequest req (with_config cfg r) ev i = reconfigured (RouteRequest req r ev i).
Proof.
  intros Hf. unfold RouteRequest. cbn [selector count with_config].
  unfold abind, ctx_Err. destruct (env_ctx ev i); [done|].
  destruct (GetAvailableProviders (selector r) ev (S i)) as [[[|q l] j]|]; [done| |done].
  destruct (FilterByModel (selector r) (q :: l) (req_Model req)) as [|q1 l1]; [done|].
  destruct (FilterByHealth (q1 :: l1) ev j) as [[l2 k]|]; [|done].
  destruct l2 as [|q2 l2].
  - by destruct (_ <? _).
  - destruct (_ <? _).
    + by apply (route_available_config req (q2 :: l2) (count IncrementHealthFiltered (count IncrementTotal r))).
    + by apply (route_available_config req (q2 :: l2) (count IncrementTotal r)).
Qed.
End Settings.

(** ** Instances of the theorems *)

Definition example_pool : gmap string Provider :=
  {["openai" := mkProvider 0 "openai"; "anthropic" := mkProvider 1 "anthropic"]}.

Definition example_config (maxAttempts : Z) (defaultProvider : string) (require : bool) : RoutingConfig :=
  mkRoutingConfig "round-robin" (mkStickyConfig Hour 10000 "user") None None
    (mkFallbackConfig true maxAttempts defaultProvider) (mkHealthBasedConfig require (5 * Minute)).

Definition example_router : DefaultRouter RoundRobinStrategy :=
  mkRouter (NewProviderSelector (Some example_pool) None) (NewRoundRobinStrategy None)
    (NewAtomicRoutingStats 0) (example_config 2 "openai" false).

Definition example_request : RoutingRequest := mkRoutingRequest "r" "gpt-4" "" "" "" "" None ∅.

(** The environment in which only [anthropic] is healthy. *)
Definition example_env : Env :=
  mkEnv (fun _ => 0) (fun _ p => pv_id p =? 1) (fun _ => some_range) (fun _ => None).

Lemma example_ok : rr_ok (strategy example_router).
Proof. split; [reflexivity|discriminate]. Qed.

Lemma example_lawful : strategy_ok (strategy example_router).
Proof. exact example_ok. Qed.

Lemma route_request_decides_witness :
  exists out r' j, RouteRequest example_request example_router example_env 0%nat = Some ((out, r'), j) /\
    selector r' = selector example_router.
Proof.
  destruct (route_request_decides example_request example_router example_env 0%nat example_lawful)
    as (out & r' & j & He & _ & Hs & _). exists out, r', j. split; [exact He|exact Hs].
Defined.

Lemma routed_provider_eligible_witness :
  exists res r' j, RouteRequest example_request example_router example_env 0%nat = Some ((Ok res, r'), j) /\
    eligible (selector example_router) "gpt-4" example_env 0%nat j (res_Provider res) /\
    res_Provider res = mkProvider 1 "anthropic".
Proof.
  set (o := RouteRequest example_request example_router example_env 0%nat).
  destruct o as [[[[res|e] r'] j]|] eqn:E; [|vm_compute in E; discriminate..].
  exists res, r', j. split; [reflexivity|].
  destruct (routed_provider_eligible example_request example_router example_env 0%nat res r' j example_lawful E) as [Hel _].
  split; [exact Hel|]. vm_compute in E. injection E as <- _ _. reflexivity.
Defined.

Lemma routing_stats_conserved_witness :
  exists r, serves example_router 1%nat 0%nat r /\ TotalRequests (GetStats r) = 1 /\
    map_sum (RequestsPerProvider (GetStats r)) = map_sum (StrategyUseCount (GetStats r)).
Proof.
  set (o := RouteRequest example_request example_router example_env 0%nat).
  destruct o as [[[[res|e] r'] j]|] eqn:E; [|vm_compute in E; discriminate..].
  assert (Hs : serves example_router 1%nat 0%nat r').
  { refine (serves_request (H := round_robin) example_router 0%nat 0%nat example_router example_request example_env 0%nat (Ok res) r' j _ E).
    exact (serves_start (H := round_robin) example_router). }
  exists r'. split; [exact Hs|].
  destruct (routing_stats_conserved 0 (Some (example_config 2 "openai" false)) (Some example_pool)
    (NewRoundRobinStrategy None) example_router 1%nat 0%nat r' eq_refl example_lawful Hs ltac:(vm_compute; discriminate))
    as (Ht & _ & _ & Hm). split; [exact Ht|exact Hm].
Defined.

Lemma healthy_provider_suffices_witness :
  exists res r' j, RouteRequest example_request example_router example_env 0%nat = Some ((Ok res, r'), j).
Proof.
  apply (healthy_provider_suffices example_request example_router example_env 0%nat (mkProvider 1 "anthropic") example_ok).
  - exists "anthropic". reflexivity.
  - right. left. reflexivity.
  - intros t. reflexivity.
  - reflexivity.
  - reflexivity.
  - reflexivity.
Defined.

Lemma map_order_defeats_round_robin_witness :
  all_to (mkProvider 0 "openai") example_request 1000%nat example_router.
Proof.
  apply (map_order_defeats_round_robin 1000%nat example_request example_router (mkProvider 0 "openai") example_ok).
  - reflexivity.
  - exists "openai". reflexivity.
  - reflexivity.
  - reflexivity.
  - reflexivity.
Defined.

Lemma fallback_settings_ignored_witness :
  RouteRequest example_request (with_config (example_config 0 "" true) example_router) example_env 0%nat =
  reconfigured (example_config 0 "" true) (RouteRequest example_request example_router example_env 0%nat).
Proof.
  apply (fallback_settings_ignored (example_config 0 "" true) example_request example_router example_env 0%nat).
  reflexivity.
Defined.
