(* ===== verification/Evidence.v ===== *)
(** * Evidence records and their storage interface ([pkg/evidence/types.go],
    [errors.go], [query/validator.go], [storage/memory.go])

    The audit record, its queries, the validation and the defaults of a query,
    the storage interface as a class ([Storage]) with the contract its clients
    rely on ([StorageLaws]), and the in-memory implementation.

    [Store] and [Query] copy the struct, and no caller writes to the slices or
    maps inside a record that was stored, so records are values.  A context is
    left out except in [QueryStream], the only method that looks at it.  The
    read-write mutex makes each method one atomic step.  An index out of range
    is a panic, [None]. *)

From Stdlib Require Import ZArith Lia.
From stdpp Require Import base option list strings gmap pretty.
From S2P Require Import Prelude Float64.
Local Open Scope string_scope.
Local Open Scope Z_scope.
Local Open Scope go_scope.

(** ** Data *)

Record MatchedRuleRecord := mkMatchedRuleRecord {
  mrr_PolicyID : string;
  mrr_RuleID : string;
  mrr_Action : string;
  mrr_Reason : string;
  mrr_EvaluationTime : Duration;
}.

Record PolicyVersionInfo := mkPolicyVersionInfo {
  CommitSHA : string;
  CommitTime : Time;
  pvi_Branch : string;
  pvi_Repository : string;
  pvi_Author : string;
  pvi_Message : string;
}.

Record EvidenceRecord := mkEvidenceRecord {
  er_ID : string;
  er_RequestID : string;
  er_RequestTime : Time;
  er_PolicyEvalTime : Time;
  er_ProviderCallTime : Time;
  er_ResponseTime : Time;
  er_RecordedTime : Time;
  er_RequestHash : string;
  er_RequestMethod : string;
  er_RequestPath : string;
  er_RequestHeaders : gmap string string;
  er_Model : string;
  er_Provider : string;
  er_Messages : Z;
  er_SystemPrompt : string;
  er_UserPrompt : string;
  er_ToolsUsed : list string;
  er_EstimatedTokens : Z;
  er_EstimatedCost : float64;
  er_RiskScore : Z;
  er_ComplexityScore : Z;
  er_PIIDetected : bool;
  er_PIITypes : list string;
  er_PolicyDecision : string;
  er_MatchedRules : list MatchedRuleRecord;
  er_BlockReason : string;
  er_PolicyVersion : string;
  er_PolicyVersionInfo : option PolicyVersionInfo;
  er_ResponseHash : string;
  er_ResponseStatus : Z;
  er_ResponseContent : string;
  er_FinishReason : string;
  er_PromptTokens : Z;
  er_CompletionTokens : Z;
  er_TotalTokens : Z;
  er_ActualCost : float64;
  er_ProviderLatency : Duration;
  er_ProviderModel : string;
  er_UserID : string;
  er_APIKey : string;
  er_IPAddress : string;
  er_Error : string;
  er_ErrorType : string;
  er_TurnNumber : Z;
  er_ContextUsage : float64;
}.

(** The record of [EvidenceRecord{}]. *)
Definition zero_record : EvidenceRecord :=
  mkEvidenceRecord "" "" zero_time zero_time zero_time zero_time zero_time
    "" "" "" ∅ "" "" 0 "" "" [] 0 fzero 0 0 false [] "" [] "" "" None
    "" 0 "" "" 0 0 0 fzero 0 "" "" "" "" "" "" 0 fzero.

Record Query := mkQuery {
  q_StartTime : option Time;
  q_EndTime : option Time;
  q_UserID : string;
  q_APIKey : string;
  q_Provider : string;
  q_Model : string;
  q_PolicyID : string;
  q_RuleID : string;
  q_PolicyDecision : string;
  q_MinCost : option float64;
  q_MaxCost : option float64;
  q_MinTokens : option Z;
  q_MaxTokens : option Z;
  q_Status : string;
  q_Limit : Z;
  q_Offset : Z;
  q_SortBy : string;
  q_SortOrder : string;
}.

(** [Query{}]: no filter, no page. *)
Definition empty_query : Query :=
  mkQuery None None "" "" "" "" "" "" "" None None None None "" 0 0 "" "".

(** [Query{EndTime: &t}]. *)
Definition until_query (t : Time) : Query :=
  mkQuery None (Some t) "" "" "" "" "" "" "" None None None None "" 0 0 "" "".

(** ** Errors *)

Inductive EvidenceErr :=
| StorageError (backend operation : string) (cause : EvidenceErr)
| QueryError (query : Query) (cause : EvidenceErr)
| RecorderError (recordID : string) (cause : EvidenceErr)
| RetentionError (retentionDays : Z) (cause : EvidenceErr)
| ExportError (format : string) (recordCount : Z) (cause : EvidenceErr)
| EvidenceError (message : string) (cause : option EvidenceErr)
| PlainError (message : string).

(** The [Error] methods. *)
Fixpoint err_text (e : EvidenceErr) : string :=
  match e with
  | StorageError b o c =>
      "storage error [backend=" +:+ b +:+ ", operation=" +:+ o +:+ "]: " +:+ err_text c
  | QueryError _ c => "query error: " +:+ err_text c
  | RecorderError id c =>
      if String.eqb id "" then "recorder error: " +:+ err_text c
      else "recorder error [record_id=" +:+ id +:+ "]: " +:+ err_text c
  | RetentionError d c => "retention error [retention_days=" +:+ pretty d +:+ "]: " +:+ err_text c
  | ExportError f n c =>
      "export error [format=" +:+ f +:+ ", record_count=" +:+ pretty n +:+ "]: " +:+ err_text c
  | EvidenceError m (Some c) => m +:+ ": " +:+ err_text c
  | EvidenceError m None => m
  | PlainError m => m
  end.

(** The [Unwrap] methods: one level of cause. *)
Definition Unwrap (e : EvidenceErr) : option EvidenceErr :=
  match e with
  | StorageError _ _ c | QueryError _ c | RecorderError _ c | RetentionError _ c
  | ExportError _ _ c => Some c
  | EvidenceError _ c => c
  | PlainError _ => None
  end.

(** [fmt.Errorf("msg: %w", err)] prints as an [EvidenceError] with a cause. *)
Definition wrapf (msg : string) (e : EvidenceErr) : EvidenceErr := EvidenceError msg (Some e).

(** Panic, error or value. *)
Definition GoResult (A : Type) : Type := option (result EvidenceErr A).
Definition gok {A} (a : A) : GoResult A := Some (Ok a).
Definition gerr {A} (e : EvidenceErr) : GoResult A := Some (Err e).

(** ** Query validation *)

Definition DefaultLimit : Z := 100.
Definition MaxLimit : Z := 10000.

Definition ValidSortFields : list string :=
  ["request_time"; "recorded_time"; "response_time"; "actual_cost"; "total_tokens"; "provider_latency"].
Definition ValidSortOrders : list string := ["asc"; "desc"].
Definition validStatuses : list string := ["success"; "error"; "blocked"].

Definition in_set (l : list string) (s : string) : bool := bool_decide (s ∈ l).

Definition Validate (q : Query) : option EvidenceErr :=
  let bad m := Some (QueryError q (PlainError m)) in
  if q_Limit q <? 0 then bad ("limit must be >= 0, got " +:+ pretty (q_Limit q))
  else if MaxLimit <? q_Limit q then
    bad ("limit must be <= " +:+ pretty MaxLimit +:+ ", got " +:+ pretty (q_Limit q))
  else if q_Offset q <? 0 then bad ("offset must be >= 0, got " +:+ pretty (q_Offset q))
  else if negb (String.eqb (q_SortBy q) "") && negb (in_set ValidSortFields (q_SortBy q)) then
    bad ("invalid sort field: " +:+ q_SortBy q)
  else if negb (String.eqb (q_SortOrder q) "") && negb (in_set ValidSortOrders (q_SortOrder q)) then
    bad ("invalid sort order: " +:+ q_SortOrder q +:+ " (must be 'asc' or 'desc')")
  else if match q_StartTime q, q_EndTime q with Some s, Some e => After s e | _, _ => false end then
    bad "start_time must be before end_time"
  else if match q_MinCost q, q_MaxCost q with Some a, Some b => flt b a | _, _ => false end then
    bad "min_cost must be <= max_cost"
  else if match q_MinTokens q, q_MaxTokens q with Some a, Some b => b <? a | _, _ => false end then
    bad "min_tokens must be <= max_tokens"
  else if negb (String.eqb (q_Status q) "") && negb (in_set validStatuses (q_Status q)) then
    bad ("invalid status: " +:+ q_Status q +:+ " (must be 'success', 'error', or 'blocked')")
  else None.

Definition with_Limit (l : Z) (q : Query) : Query :=
  mkQuery (q_StartTime q) (q_EndTime q) (q_UserID q) (q_APIKey q) (q_Provider q) (q_Model q)
    (q_PolicyID q) (q_RuleID q) (q_PolicyDecision q) (q_MinCost q) (q_MaxCost q) (q_MinTokens q)
    (q_MaxTokens q) (q_Status q) l (q_Offset q) (q_SortBy q) (q_SortOrder q).

Definition with_Sort (by_ order : string) (q : Query) : Query :=
  mkQuery (q_StartTime q) (q_EndTime q) (q_UserID q) (q_APIKey q) (q_Provider q) (q_Model q)
    (q_PolicyID q) (q_RuleID q) (q_PolicyDecision q) (q_MinCost q) (q_MaxCost q) (q_MinTokens q)
    (q_MaxTokens q) (q_Status q) (q_Limit q) (q_Offset q) by_ order.

Definition ApplyDefaults (q : Query) : Query :=
  let q := if q_Limit q =? 0 then with_Limit DefaultLimit q else q in
  let q := if String.eqb (q_SortBy q) "" then with_Sort "request_time" (q_SortOrder q) q else q in
  if String.eqb (q_SortOrder q) "" then with_Sort (q_SortBy q) "desc" q else q.

(** ** The storage interface *)

(** What [QueryStream] delivers: the records sent on the first channel and the
    error sent on the second, if any. *)
Record Stream := mkStream { s_records : list EvidenceRecord; s_error : option EvidenceErr }.

(** The state of a context at the [i]-th time the code looks at it: cancelled
    with its error, or not. *)
Definition Ctx := nat -> option EvidenceErr.
Definition background : Ctx := fun _ => None.

Class Storage (S : Type) : Type := {
  st_Store : EvidenceRecord -> S -> option EvidenceErr * S;
  st_Query : Query -> S -> GoResult (list EvidenceRecord);
  st_QueryStream : Ctx -> Query -> S -> Stream;
  st_Count : Query -> S -> result EvidenceErr Z;
  st_Delete : Query -> S -> result EvidenceErr Z * S;
  st_Close : S -> option EvidenceErr * S;
}.

(** ** In-memory storage *)

Record MemoryStorage := mkMemoryStorage { ms_records : gmap string EvidenceRecord }.

Definition NewMemoryStorage : MemoryStorage := mkMemoryStorage ∅.

Definition Store (r : EvidenceRecord) (s : MemoryStorage) : option EvidenceErr * MemoryStorage :=
  (None, mkMemoryStorage (<[er_ID r := r]> (ms_records s))).

(** [set f v]: a string filter is set and the record's value differs. *)
Definition filtered_out (filter value : string) : bool :=
  negb (String.eqb filter "") && negb (String.eqb value filter).

Definition status_filtered_out (status : string) (r : EvidenceRecord) : bool :=
  if String.eqb status "success" then negb (String.eqb (er_Error r) "")
  else if String.eqb status "error" then String.eqb (er_Error r) ""
  else if String.eqb status "blocked" then negb (String.eqb (er_PolicyDecision r) "block")
  else false.

Definition matchesQuery (r : EvidenceRecord) (q : Query) : bool :=
  if match q_StartTime q with Some t => Before (er_RequestTime r) t | None => false end then false
  else if match q_EndTime q with Some t => After (er_RequestTime r) t | None => false end then false
  else if filtered_out (q_UserID q) (er_UserID r) then false
  else if filtered_out (q_APIKey q) (er_APIKey r) then false
  else if filtered_out (q_Provider q) (er_Provider r) then false
  else if filtered_out (q_Model q) (er_Model r) then false
  else if filtered_out (q_PolicyDecision q) (er_PolicyDecision r) then false
  else if match q_MinCost q with Some c => flt (er_ActualCost r) c | None => false end then false
  else if match q_MaxCost q with Some c => flt c (er_ActualCost r) | None => false end then false
  else if match q_MinTokens q with Some n => er_TotalTokens r <? n | None => false end then false
  else if match q_MaxTokens q with Some n => n <? er_TotalTokens r | None => false end then false
  else if negb (String.eqb (q_Status q) "") && status_filtered_out (q_Status q) r then false
  else true.

(** The slice expression [l[lo:hi]] on a slice whose capacity is not used. *)
Definition slice {A} (lo hi : Z) (l : list A) : option (list A) :=
  if (0 <=? lo) && (lo <=? hi) && (hi <=? Z.of_nat (length l))
  then Some (take (Z.to_nat (hi - lo)) (drop (Z.to_nat lo) l)) else None.

(** The end index of a page, with the addition of the code. *)
Definition page_end (q : Query) (n : Z) : Z :=
  let end_ := q_Offset q +64 q_Limit q in if n <? end_ then n else end_.

Section memory.
Context `{MapRange}.

Definition matching (q : Query) (s : MemoryStorage) : list EvidenceRecord :=
  List.filter (fun r => matchesQuery r q) (snd <$> range (ms_records s)).

Definition Query_ (q : Query) (s : MemoryStorage) : GoResult (list EvidenceRecord) :=
  let results := matching q s in
  let n := Z.of_nat (length results) in
  if n <? q_Offset q then gok []
  else if 0 <? q_Limit q then Ok <$> slice (q_Offset q) (page_end q n) results
  else gok results.

(** The loop of the streaming goroutine: [i] counts the looks at the context,
    two per record that is sent, one per record that is skipped. *)
Fixpoint streamLoop (ctx : Ctx) (q : Query) (l : list EvidenceRecord) (count : Z) (i : nat) : Stream :=
  match l with
  | [] => mkStream [] None
  | r :: l =>
      match ctx i with
      | Some e => mkStream [] (Some e)
      | None =>
          if negb (matchesQuery r q) then streamLoop ctx q l count (S i)
          else if count <? q_Offset q then streamLoop ctx q l (count + 1) (S i)
          else if (0 <? q_Limit q) && (q_Offset q +64 q_Limit q <=? count) then mkStream [] None
          else match ctx (S i) with
               | Some e => mkStream [] (Some e)
               | None =>
                   let s := streamLoop ctx q l (count + 1) (S (S i)) in
                   mkStream (r :: s_records s) (s_error s)
               end
      end
  end.

Definition QueryStream (ctx : Ctx) (q : Query) (s : MemoryStorage) : Stream :=
  streamLoop ctx q (snd <$> range (ms_records s)) 0 0.

Fixpoint countLoop (q : Query) (l : list EvidenceRecord) (count : Z) : Z :=
  match l with
  | [] => count
  | r :: l => countLoop q l (if matchesQuery r q then count +64 1 else count)
  end.

Definition Count (q : Query) (s : MemoryStorage) : result EvidenceErr Z :=
  Ok (countLoop q (snd <$> range (ms_records s)) 0).

Definition toDelete (q : Query) (s : MemoryStorage) : list string :=
  fst <$> List.filter (fun kr => matchesQuery (snd kr) q) (range (ms_records s)).

Definition deleteLoop (ids : list string) (m : gmap string EvidenceRecord) :
    gmap string EvidenceRecord * Z :=
  foldl (fun '(m, deleted) id => (delete id m, deleted +64 1)) (m, 0) ids.

Definition Delete (q : Query) (s : MemoryStorage) : result EvidenceErr Z * MemoryStorage :=
  let '(m, deleted) := deleteLoop (toDelete q s) (ms_records s) in
  (Ok deleted, mkMemoryStorage m).

Definition Close (s : MemoryStorage) : option EvidenceErr * MemoryStorage :=
  (None, mkMemoryStorage ∅).

Definition Clear (s : MemoryStorage) : MemoryStorage := mkMemoryStorage ∅.

Definition GetByID (id : string) (s : MemoryStorage) : option EvidenceRecord := ms_records s !! id.

Definition Size (s : MemoryStorage) : Z := Z.of_nat (size (ms_records s)).

#[export] Instance memory_storage : Storage MemoryStorage := {
  st_Store := Store;
  st_Query := Query_;
  st_QueryStream := QueryStream;
  st_Count := Count;
  st_Delete := Delete;
  st_Close := Close;
}.

End memory.

(** ** What a store promises

    An abstract store is a finite map from identifiers to records.  [spec_step]
    says what each operation answers when it succeeds and what it leaves.  A
    backend may also fail; it then changes nothing ([contract]).  The in-memory
    backend takes steps of [spec_step] only. *)

Definition select (q : Query) (m : gmap string EvidenceRecord) : list EvidenceRecord :=
  List.filter (fun r => matchesQuery r q) (snd <$> map_to_list m).

Definition remaining (q : Query) (m : gmap string EvidenceRecord) : gmap string EvidenceRecord :=
  filter (fun kr => matchesQuery (snd kr) q = false) m.

(** Skip [Offset] records, then at most [Limit] if there is a limit. *)
Definition page {A} (q : Query) (l : list A) : list A :=
  let rest := drop (Z.to_nat (q_Offset q)) l in
  if 0 <? q_Limit q then take (Z.to_nat (q_Limit q)) rest else rest.

Inductive StorageOp :=
| OpStore (r : EvidenceRecord)
| OpQuery (q : Query)
| OpStream (ctx : Ctx) (q : Query)
| OpCount (q : Query)
| OpDelete (q : Query)
| OpClose.

Inductive StorageOut :=
| OutDone
| OutRecords (l : list EvidenceRecord)
| OutStream (s : Stream)
| OutCount (n : Z)
| OutFailed (e : EvidenceErr).

Inductive spec_step (m : gmap string EvidenceRecord) :
    StorageOp -> StorageOut -> gmap string EvidenceRecord -> Prop :=
| spec_store r : spec_step m (OpStore r) OutDone (<[er_ID r := r]> m)
| spec_query q l :
    l ≡ₚ select q m -> spec_step m (OpQuery q) (OutRecords (page q l)) m
| spec_stream ctx q l recs err :
    l ≡ₚ select q m -> recs `prefix_of` page q l ->
    match err with None => recs = page q l | Some e => exists i, ctx i = Some e end ->
    spec_step m (OpStream ctx q) (OutStream (mkStream recs err)) m
| spec_count q : spec_step m (OpCount q) (OutCount (Z.of_nat (length (select q m)))) m
| spec_delete q :
    spec_step m (OpDelete q) (OutCount (Z.of_nat (length (select q m)))) (remaining q m)
| spec_close : spec_step m OpClose OutDone ∅.

Inductive spec_run : gmap string EvidenceRecord -> list StorageOp -> list StorageOut ->
    gmap string EvidenceRecord -> Prop :=
| spec_run_nil m : spec_run m [] [] m
| spec_run_cons m op out m' ops outs m'' :
    spec_step m op out m' -> spec_run m' ops outs m'' ->
    spec_run m (op :: ops) (out :: outs) m''.

(** One operation of a backend, as a step that the specification can judge. *)
Definition st_step `{Storage St} (op : StorageOp) (s : St) : option (StorageOut * St) :=
  match op with
  | OpStore r => let '(e, s') := st_Store r s in Some (from_option OutFailed OutDone e, s')
  | OpQuery q =>
      r ← st_Query q s;
      Some (match r with Ok l => OutRecords l | Err e => OutFailed e end, s)
  | OpStream ctx q => Some (OutStream (st_QueryStream ctx q s), s)
  | OpCount q => Some (match st_Count q s with Ok n => OutCount n | Err e => OutFailed e end, s)
  | OpDelete q =>
      let '(r, s') := st_Delete q s in
      Some (match r with Ok n => OutCount n | Err e => OutFailed e end, s')
  | OpClose => let '(e, s') := st_Close s in Some (from_option OutFailed OutDone e, s')
  end.

Fixpoint st_run `{Storage St} (ops : list StorageOp) (s : St) : option (list StorageOut * St) :=
  match ops with
  | [] => Some ([], s)
  | op :: ops =>
      '(out, s) ← st_step op s;
      '(outs, s) ← st_run ops s;
      Some (out :: outs, s)
  end.

(** Queries as the query validator lets them through; a page without a limit
    starts at the first record. *)
Definition query_ok (q : Query) : Prop :=
  0 <= q_Limit q <= MaxLimit /\ 0 <= q_Offset q /\ (q_Limit q = 0 -> q_Offset q = 0).

Definition op_ok (op : StorageOp) : Prop :=
  match op with
  | OpQuery q => query_ok q
  | OpStream _ q => query_ok q /\ q_Offset q + MaxLimit <= max_int64
  | _ => True
  end.

(** Room for the counters of a pass over the store. *)
Definition room (m : gmap string EvidenceRecord) : Prop :=
  Z.of_nat (size m) + MaxLimit <= max_int64.

(** The contract between a backend and its clients. *)
Class StorageContract (St : Type) `{Storage St} : Type := {
  view : St -> gmap string EvidenceRecord;
  contract op s out s' :
    room (view s) -> op_ok op -> st_step op s = Some (out, s') ->
    spec_step (view s) op out (view s') \/ (view s' = view s /\ exists e, out = OutFailed e);
}.

(** ** The in-memory store meets the contract *)

Lemma filter_length_le {A} (f : A -> bool) l : (length (List.filter f l) <= length l)%nat.
Proof. induction l as [|x l IH]; simpl; [lia|]. destruct (f x); simpl; lia. Qed.

Lemma filter_perm {A} (f : A -> bool) l k : l ≡ₚ k -> List.filter f l ≡ₚ List.filter f k.
Proof.
  induction 1; simpl; repeat case_match; eauto using perm_skip, perm_swap.
  by etrans.
Qed.

Lemma select_length_le q m : (length (select q m) <= size m)%nat.
Proof.
  unfold select. etrans; [apply filter_length_le|].
  by rewrite length_fmap, length_map_to_list.
Qed.

Lemma remaining_size q m : (size (remaining q m) <= size m)%nat.
Proof. apply map_subseteq_size, map_filter_subseteq. Qed.

Lemma room_remaining q m : room m -> room (remaining q m).
Proof. unfold room. pose proof (remaining_size q m). lia. Qed.

Lemma elem_of_select q m r :
  r ∈ select q m <-> exists k, m !! k = Some r /\ matchesQuery r q = true.
Proof.
  unfold select. rewrite list_elem_of_In, filter_In, <- list_elem_of_In, list_elem_of_fmap. split.
  - intros [([k r'] & -> & Hin) Hm]. exists k. by apply elem_of_map_to_list in Hin.
  - intros (k & Hk & Hm). split; [|done]. exists (k, r). split; [done|]. by apply elem_of_map_to_list.
Qed.

Tactic Notation "unfold_step" "in" hyp(H) :=
  cbn [st_step st_Store st_Query st_QueryStream st_Count st_Delete st_Close memory_storage] in H.

Section memory_contract.
Context `{MR : MapRange}.

Lemma matching_perm q s : matching q s ≡ₚ select q (ms_records s).
Proof. apply filter_perm. by rewrite (range_perm (ms_records s)). Qed.

Lemma countLoop_spec q l c :
  0 <= c -> c + Z.of_nat (length l) <= max_int64 ->
  countLoop q l c = c + Z.of_nat (length (List.filter (fun r => matchesQuery r q) l)).
Proof.
  revert c. induction l as [|r l IH]; intros c Hc Hb; simpl in *; [lia|].
  destruct (matchesQuery r q); simpl; rewrite IH; unfold add64; rewrite ?wrap64_id; lia64.
Qed.

Lemma Count_spec q s :
  room (ms_records s) -> Count q s = Ok (Z.of_nat (length (select q (ms_records s)))).
Proof.
  unfold room. intros Hr. unfold Count. do 2 f_equal.
  assert (Hl : length (snd <$> range (ms_records s)) = size (ms_records s)).
  { rewrite length_fmap, (range_perm (ms_records s)). apply length_map_to_list. }
  rewrite countLoop_spec; [|lia|rewrite Hl; revert Hr; unfold MaxLimit; lia].
  rewrite Z.add_0_l. f_equal. apply Permutation_length, (matching_perm q s).
Qed.

Lemma deleteLoop_spec (ids : list string) (m : gmap string EvidenceRecord) c :
  0 <= c -> c + Z.of_nat (length ids) <= max_int64 ->
  foldl (fun '(m, deleted) id => (delete id m, deleted +64 1)) (m, c) ids =
  (foldl (fun m id => delete id m) m ids, c + Z.of_nat (length ids)).
Proof.
  revert m c. induction ids as [|id ids IH]; intros m c Hc Hb; simpl in *.
  - f_equal. lia.
  - unfold add64. rewrite wrap64_id by lia64. rewrite IH by lia. f_equal. lia.
Qed.

Lemma lookup_delete_list (ids : list string) (m : gmap string EvidenceRecord) k :
  foldl (fun m id => delete id m) m ids !! k = if decide (k ∈ ids) then None else m !! k.
Proof.
  revert m. induction ids as [|id ids IH]; intros m; simpl; [done|].
  rewrite IH. destruct (decide (k = id)) as [->|Hne].
  - rewrite lookup_delete_eq, (decide_True (P := id ∈ id :: ids)) by left. by destruct (decide _).
  - rewrite lookup_delete_ne by done.
    destruct (decide (k ∈ ids)), (decide (k ∈ id :: ids)) as [Hin|Hin]; try done; set_solver.
Qed.

Lemma elem_of_toDelete q s k :
  k ∈ toDelete q s <-> exists r, ms_records s !! k = Some r /\ matchesQuery r q = true.
Proof.
  unfold toDelete. rewrite list_elem_of_fmap. split.
  - intros ([k' r] & -> & Hin). rewrite list_elem_of_In, filter_In, <- list_elem_of_In in Hin.
    destruct Hin as [Hin Hm]. apply elem_of_range in Hin. by exists r.
  - intros (r & Hk & Hm). exists (k, r). split; [done|].
    rewrite list_elem_of_In, filter_In, <- list_elem_of_In. split; [|done]. by apply elem_of_range.
Qed.

Lemma toDelete_length q s : length (toDelete q s) = length (select q (ms_records s)).
Proof.
  rewrite <- (Permutation_length (matching_perm q s)).
  unfold toDelete, matching. rewrite length_fmap.
  induction (range (ms_records s)) as [|[k r] l IH]; simpl; [done|].
  destruct (matchesQuery r q); simpl; by rewrite IH.
Qed.

Lemma Delete_spec q s :
  room (ms_records s) ->
  Delete q s = (Ok (Z.of_nat (length (select q (ms_records s)))), mkMemoryStorage (remaining q (ms_records s))).
Proof.
  unfold room. intros Hr. unfold Delete, deleteLoop.
  pose proof (select_length_le q (ms_records s)) as Hle.
  rewrite deleteLoop_spec by (rewrite ?toDelete_length; revert Hr; unfold MaxLimit; lia).
  rewrite toDelete_length. f_equal. f_equal. apply map_eq. intros k.
  rewrite lookup_delete_list. unfold remaining. destruct (ms_records s !! k) as [r|] eqn:Hk.
  - destruct (matchesQuery r q) eqn:Hm.
    + rewrite decide_True by (apply elem_of_toDelete; eauto). symmetry.
      apply map_lookup_filter_None. right. intros r' Hr'. simplify_eq. simpl. congruence.
    + rewrite decide_False; [|intros (r' & ? & ?)%elem_of_toDelete; congruence].
      symmetry. by apply map_lookup_filter_Some.
  - destruct (decide _); symmetry; apply map_lookup_filter_None; by left.
Qed.

Lemma Query_spec q s :
  room (ms_records s) -> query_ok q -> Query_ q s = Some (Ok (page q (matching q s))).
Proof.
  unfold room. intros Hr (Hl & Ho & Hz). unfold Query_, page.
  pose proof (select_length_le q (ms_records s)) as Hle.
  rewrite <- (Permutation_length (matching_perm q s)) in Hle.
  set (l := matching q s) in *.
  destruct (Z.ltb_spec (Z.of_nat (length l)) (q_Offset q)) as [Hbig|Hsmall].
  - rewrite drop_ge by lia. by destruct (0 <? q_Limit q); rewrite ?take_nil.
  - destruct (Z.ltb_spec 0 (q_Limit q)) as [Hpos|Hnpos].
    + unfold page_end, add64. rewrite wrap64_id by (revert Hr Hl; unfold MaxLimit; lia64).
      unfold slice. destruct (Z.ltb_spec (Z.of_nat (length l)) (q_Offset q + q_Limit q)).
      * rewrite !(proj2 (Z.leb_le _ _)) by lia. simpl.
        by rewrite !take_ge by (rewrite length_drop; lia).
      * rewrite !(proj2 (Z.leb_le _ _)) by lia. simpl. do 3 f_equal. lia.
    + rewrite Hz by lia. simpl. by rewrite drop_0.
Qed.

(** What is left of the page when [count] records were skipped or sent. *)
Definition window (q : Query) (count : Z) (l : list EvidenceRecord) : list EvidenceRecord :=
  let rest := drop (Z.to_nat (q_Offset q - count)) l in
  if 0 <? q_Limit q then take (Z.to_nat (q_Offset q + q_Limit q - Z.max count (q_Offset q))) rest
  else rest.

Lemma window_skip q count r l : count < q_Offset q -> window q count (r :: l) = window q (count + 1) l.
Proof.
  intros Hc. unfold window.
  replace (Z.to_nat (q_Offset q - count)) with (S (Z.to_nat (q_Offset q - (count + 1)))) by lia.
  simpl. by replace (Z.max (count + 1) (q_Offset q)) with (Z.max count (q_Offset q)) by lia.
Qed.

Lemma window_full q count l :
  0 < q_Limit q -> q_Offset q + q_Limit q <= count -> window q count l = [].
Proof.
  intros Hl Hc. unfold window. destruct (Z.ltb_spec 0 (q_Limit q)); [|lia].
  replace (Z.to_nat _) with 0%nat by lia. apply take_0.
Qed.

Lemma window_send q count r l :
  q_Offset q <= count -> (0 < q_Limit q -> count < q_Offset q + q_Limit q) ->
  window q count (r :: l) = r :: window q (count + 1) l.
Proof.
  intros Ho Hl. unfold window.
  replace (Z.to_nat (q_Offset q - count)) with 0%nat by lia.
  replace (Z.to_nat (q_Offset q - (count + 1))) with 0%nat by lia.
  destruct (Z.ltb_spec 0 (q_Limit q)); [|done]. specialize (Hl ltac:(lia)). rewrite !drop_0.
  replace (Z.to_nat (q_Offset q + q_Limit q - Z.max count (q_Offset q)))
    with (S (Z.to_nat (q_Offset q + q_Limit q - Z.max (count + 1) (q_Offset q)))) by lia.
  done.
Qed.

Definition stream_of (ctx : Ctx) (w : list EvidenceRecord) (s : Stream) : Prop :=
  s_records s `prefix_of` w /\
  match s_error s with None => s_records s = w | Some e => exists i, ctx i = Some e end.

Lemma stream_of_cancelled ctx w i e : ctx i = Some e -> stream_of ctx w (mkStream [] (Some e)).
Proof. intros He. split; [apply prefix_nil|]. simpl. eauto. Qed.

Lemma streamLoop_spec ctx q l count i :
  0 <= q_Limit q -> 0 <= q_Offset q -> q_Offset q + q_Limit q <= max_int64 ->
  stream_of ctx (window q count (List.filter (fun r => matchesQuery r q) l)) (streamLoop ctx q l count i).
Proof.
  intros Hl Ho Hb. revert count i. induction l as [|r l IH]; intros count i; simpl.
  - unfold window. rewrite drop_nil, take_nil. by destruct (0 <? q_Limit q).
  - destruct (ctx i) as [e|] eqn:He; [by eapply stream_of_cancelled|].
    destruct (matchesQuery r q); simpl; [|apply IH].
    destruct (Z.ltb_spec count (q_Offset q)) as [Hlt|Hge].
    { rewrite window_skip by done. apply IH. }
    unfold add64. rewrite wrap64_id by lia64.
    destruct (Z.ltb_spec 0 (q_Limit q)) as [Hp|Hn]; simpl.
    + destruct (Z.leb_spec (q_Offset q + q_Limit q) count).
      { by rewrite window_full by lia. }
      rewrite window_send by lia.
      destruct (ctx (S i)) as [e|] eqn:He'; [by eapply stream_of_cancelled|].
      destruct (IH (count + 1) (S (S i))) as [Hpre Hend]. split; simpl; [by apply prefix_cons|].
      case_match; [done|by f_equal].
    + rewrite window_send by lia.
      destruct (ctx (S i)) as [e|] eqn:He'; [by eapply stream_of_cancelled|].
      destruct (IH (count + 1) (S (S i))) as [Hpre Hend]. split; simpl; [by apply prefix_cons|].
      case_match; [done|by f_equal].
Qed.

Lemma window_page q l : 0 <= q_Offset q -> window q 0 l = page q l.
Proof.
  intros Ho. unfold window, page. rewrite Z.sub_0_r, Z.max_r by lia.
  by replace (q_Offset q + q_Limit q - q_Offset q) with (q_Limit q) by lia.
Qed.

Lemma QueryStream_spec ctx q s :
  0 <= q_Limit q -> 0 <= q_Offset q -> q_Offset q + q_Limit q <= max_int64 ->
  stream_of ctx (page q (matching q s)) (QueryStream ctx q s).
Proof.
  intros Hl Ho Hb. rewrite <- window_page by done. by apply streamLoop_spec.
Qed.

Lemma memory_step_spec op (s : MemoryStorage) out s' :
  room (ms_records s) -> op_ok op -> st_step op s = Some (out, s') ->
  spec_step (ms_records s) op out (ms_records s').
Proof.
  intros Hr Hok Hst.
  destruct op as [r|q|ctx q|q|q|]; unfold_step in Hst; simpl in Hok.
  - simpl in Hst. simplify_eq. constructor.
  - rewrite Query_spec in Hst by done. simplify_eq/=. constructor. apply matching_perm.
  - simplify_eq. destruct Hok as ((Hl & Ho & _) & Hb).
    destruct (QueryStream_spec ctx q s' ltac:(lia) Ho ltac:(revert Hb; unfold MaxLimit in *; lia)) as [Hpre Hend].
    destruct (QueryStream ctx q s') as [recs err].
    apply (spec_stream _ ctx q (matching q s')); [apply matching_perm|done..].
  - rewrite Count_spec in Hst by done. simplify_eq. constructor.
  - rewrite Delete_spec in Hst by done. simplify_eq. constructor.
  - simpl in Hst. simplify_eq. constructor.
Qed.

#[export] Instance memory_contract : StorageContract MemoryStorage.
Proof.
  refine {| view := ms_records |}. intros op s out s' Hr Hok Hst. left. by apply memory_step_spec.
Defined.

End memory_contract.

(** ** Theorems *)

Section memory_theorems.
Context `{MR : MapRange}.

Lemma memory_step_total op (s : MemoryStorage) :
  room (ms_records s) -> op_ok op ->
  exists out s', st_step op s = Some (out, s') /\ spec_step (ms_records s) op out (ms_records s') /\
    (size (ms_records s') <= S (size (ms_records s)))%nat.
Proof.
  intros Hr Hok.
  assert (Ht : exists out s', st_step op s = Some (out, s')).
  { destruct op as [r|q|ctx q|q|q|]; simpl; try (by eauto).
    - rewrite Query_spec by done. by eauto.
    - destruct (Delete q s) as [[n|e] s'']; eauto. }
  destruct Ht as (out & s' & Ht). exists out, s'.
  pose proof (memory_step_spec op s out s' Hr Hok Ht) as Hc.
  repeat split; [done..|]. inversion Hc; subst; try lia.
  - rewrite map_size_insert. case_match; simpl; lia.
  - pose proof (remaining_size q (ms_records s)). lia.
  - rewrite map_size_empty. lia.
Qed.


(** A page of a query and the stream of the same query agree.  For a query
    with a limit the streamed records of an uncancelled stream are exactly the
    slice that [Query] returns from the same iteration order. *)
Theorem stream_agrees_with_query q (s : MemoryStorage) :
  room (ms_records s) -> query_ok q -> q_Offset q + MaxLimit <= max_int64 ->
  Query_ q s = gok (s_records (QueryStream background q s)) /\
  s_error (QueryStream background q s) = None.
Proof.
  intros Hr Hok Hb. destruct Hok as (Hl & Ho & Hz).
  pose proof (QueryStream_spec background q s ltac:(lia) Ho ltac:(lia)) as [_ Hend].
  rewrite Query_spec by done. destruct (QueryStream background q s) as [recs [e|]]; simpl in *.
  - by destruct Hend as [i Hi].
  - by subst.
Qed.

End memory_theorems.

Lemma Validate_bounds q :
  Validate q = None ->
  0 <= q_Limit q <= MaxLimit /\ 0 <= q_Offset q /\
  (q_SortBy q = "" \/ q_SortBy q ∈ ValidSortFields) /\
  (q_SortOrder q = "" \/ q_SortOrder q ∈ ValidSortOrders).
Proof.
  unfold Validate. intros Hv.
  destruct (Z.ltb_spec (q_Limit q) 0); [done|].
  destruct (Z.ltb_spec MaxLimit (q_Limit q)); [done|].
  destruct (Z.ltb_spec (q_Offset q) 0); [done|].
  unfold in_set in Hv.
  destruct (String.eqb_spec (q_SortBy q) ""), (String.eqb_spec (q_SortOrder q) ""); simpl in Hv;
    repeat (case_bool_decide; simpl in Hv; [|done]); auto 8.
Qed.

Lemma ApplyDefaults_fields q :
  ApplyDefaults q =
  mkQuery (q_StartTime q) (q_EndTime q) (q_UserID q) (q_APIKey q) (q_Provider q) (q_Model q)
    (q_PolicyID q) (q_RuleID q) (q_PolicyDecision q) (q_MinCost q) (q_MaxCost q) (q_MinTokens q)
    (q_MaxTokens q) (q_Status q)
    (if q_Limit q =? 0 then DefaultLimit else q_Limit q) (q_Offset q)
    (if String.eqb (q_SortBy q) "" then "request_time" else q_SortBy q)
    (if String.eqb (q_SortOrder q) "" then "desc" else q_SortOrder q).
Proof.
  unfold ApplyDefaults. destruct q; simpl.
  repeat (case_match; simpl in *; try done).
Qed.

Lemma Validate_defaults q : Validate q = None -> Validate (ApplyDefaults q) = None.
Proof.
  intros Hv. pose proof (Validate_bounds q Hv) as (Hl & Ho & Hs & Hso).
  rewrite ApplyDefaults_fields. unfold Validate, in_set in *; simpl.
  repeat match type of Hv with (if ?b then _ else _) = None => destruct b eqn:?; [done|] end.
  rewrite !(proj2 (Z.ltb_ge _ _)) by (destruct (Z.eqb_spec (q_Limit q) 0); unfold DefaultLimit, MaxLimit in *; lia).
  rewrite (bool_decide_true (_ ∈ ValidSortFields))
    by (destruct (String.eqb_spec (q_SortBy q) ""); [by left|naive_solver]).
  rewrite (bool_decide_true (_ ∈ ValidSortOrders))
    by (destruct (String.eqb_spec (q_SortOrder q) ""); [by right; left|naive_solver]).
  rewrite !andb_false_r. by repeat case_match.
Qed.

Lemma matchesQuery_defaults r q : matchesQuery r (ApplyDefaults q) = matchesQuery r q.
Proof. by rewrite ApplyDefaults_fields. Qed.

(** Defaults complete a validated query.  They keep it valid, they are
    idempotent, they do not change which records match, and the completed query
    has a limit and a sort order from the fixed lists, so that it is one the
    storage contract covers. *)
Theorem defaults_complete_query q r :
  Validate q = None ->
  Validate (ApplyDefaults q) = None /\
  ApplyDefaults (ApplyDefaults q) = ApplyDefaults q /\
  matchesQuery r (ApplyDefaults q) = matchesQuery r q /\
  query_ok (ApplyDefaults q) /\ 0 < q_Limit (ApplyDefaults q) /\
  q_SortBy (ApplyDefaults q) ∈ ValidSortFields /\ q_SortOrder (ApplyDefaults q) ∈ ValidSortOrders.
Proof.
  intros Hv. pose proof (Validate_bounds q Hv) as (Hl & Ho & Hs & Hso).
  split; [by apply Validate_defaults|]. rewrite matchesQuery_defaults, !ApplyDefaults_fields.
  assert (Hl' : 0 < (if q_Limit q =? 0 then DefaultLimit else q_Limit q) <= MaxLimit).
  { destruct (Z.eqb_spec (q_Limit q) 0); unfold DefaultLimit, MaxLimit in *; lia. }
  unfold query_ok; simpl. repeat split; try lia.
  - f_equal; repeat case_match; simpl in *; congruence.
  - destruct (String.eqb_spec (q_SortBy q) ""); [by left|naive_solver].
  - destruct (String.eqb_spec (q_SortOrder q) ""); [by right; left|naive_solver].
Qed.

(** Without a limit the in-memory [Query] ignores the offset, which the
    stream of the same query honours: the page starts at the first record. *)
Theorem query_without_limit_ignores_offset `{MR : MapRange} q (s : MemoryStorage) :
  q_Limit q <= 0 -> q_Offset q <= Z.of_nat (length (matching q s)) ->
  Query_ q s = gok (matching q s).
Proof.
  intros Hl Ho. unfold Query_.
  by rewrite (proj2 (Z.ltb_ge _ _)), (proj2 (Z.ltb_ge _ _)) by lia.
Qed.

(** Records for the examples: two requests of one second. *)
Definition ex_record (id user : string) (t : Time) : EvidenceRecord :=
  mkEvidenceRecord id id t t t t t "" "POST" "/v1/chat/completions" ∅ "gpt-4" "openai" 1 "" "" []
    0 fzero 1 1 false [] "allow" [] "" "unknown" None "" 200 "" "stop" 1 1 2 fzero 0 "gpt-4"
    user "" "" "" "" 1 fzero.

Definition ex_store : MemoryStorage :=
  mkMemoryStorage {[ "a" := ex_record "a" "u" 10; "b" := ex_record "b" "u" 20; "c" := ex_record "c" "v" 30 ]}.

Definition ex_query : Query :=
  mkQuery None None "u" "" "" "" "" "" "" None None None None "" 1 1 "" "".


Lemma stream_agrees_with_query_witness :
  Query_ (H := some_range) ex_query ex_store =
    gok (s_records (QueryStream (H := some_range) background ex_query ex_store)) /\
  s_error (QueryStream (H := some_range) background ex_query ex_store) = None.
Proof.
  apply (stream_agrees_with_query (MR := some_range)).
  - vm_compute. congruence.
  - repeat constructor; cbv; congruence.
  - vm_compute. congruence.
Defined.

Lemma defaults_complete_query_witness :
  let q := mkQuery (Some 1) (Some 2) "u" "" "" "" "" "" "" None None (Some 3) None "error" 0 5 "" "asc" in
  Validate (ApplyDefaults q) = None /\ 0 < q_Limit (ApplyDefaults q).
Proof.
  pose proof (defaults_complete_query
    (mkQuery (Some 1) (Some 2) "u" "" "" "" "" "" "" None None (Some 3) None "error" 0 5 "" "asc")
    zero_record eq_refl) as (Hv & _ & _ & _ & Hl & _).
  exact (conj Hv Hl).
Defined.

Lemma query_without_limit_ignores_offset_witness :
  Query_ (H := some_range) (with_Limit 0 ex_query) ex_store =
    gok (matching (H := some_range) (with_Limit 0 ex_query) ex_store) /\
  length (matching (H := some_range) (with_Limit 0 ex_query) ex_store) = 2%nat /\
  length (s_records (QueryStream (H := some_range) background (with_Limit 0 ex_query) ex_store)) = 1%nat.
Proof.
  split; [|split; vm_compute; reflexivity].
  apply (query_without_limit_ignores_offset (MR := some_range)); vm_compute; congruence.
Defined.
