(* ===== verification/Retention.v ===== *)
(** * Evidence retention ([pkg/evidence/retention/pruner.go])

    The pruner deletes old evidence through the storage interface, after
    writing it to archive files when it is configured to.  It is proved against
    [StorageContract], so the theorems hold for every backend that meets the
    contract and are used at the in-memory one.

    The archive directory is a map from file names to the records exported
    there; [os.Create] truncates.  What the operating system answers
    ([ArchiveEnv]) and the calendar arithmetic and formatting of the local time
    zone ([Calendar]) are parameters.

    The recorder goes on writing while a pass runs.  A pass takes no lock between
    its calls of the storage, so what others do to the store before the k-th call
    is an argument [meanwhile k] of the pass: 0 is the query for the archive, 1 the
    deletion by age, 2 the count, 3 the query of all records, 4 the deletion by
    count.  [undisturbed] is a pass with the store to itself. *)

From Stdlib Require Import ZArith Lia Sorting.Sorted.
From stdpp Require Import base option list strings gmap.
From S2P Require Import Prelude Float64 Evidence.
Local Open Scope string_scope.
Local Open Scope Z_scope.
Local Open Scope go_scope.

Record RetentionConfig := mkRetentionConfig {
  RetentionDays : Z;
  PruneSchedule : string;
  ArchiveBeforeDelete : bool;
  ArchivePath : string;
  MaxRecords : Z;
}.

Definition DefaultRetentionConfig : RetentionConfig :=
  mkRetentionConfig 90 "0 3 * * *" false "data/archives/" 0.

(** Local time: [t.AddDate(0, 0, days)] and the two archive name formats
    ["2006-01-02"] and ["2006-01-02-150405"]. *)
Class Calendar : Type := {
  AddDate : Time -> Z -> Time;
  FormatDay : Time -> string;
  FormatSecond : Time -> string;
}.

(** The operating system: what [MkdirAll], [Create] and the export of records
    to the open file answer, and how [filepath.Join] combines names. *)
Class ArchiveEnv : Type := {
  MkdirAll : string -> option EvidenceErr;
  CreateFile : string -> option EvidenceErr;
  ExportTo : string -> list EvidenceRecord -> option EvidenceErr;
  Join : string -> string -> string;
}.

(** The archive files and what is in them. *)
Definition Archive := gmap string (list EvidenceRecord).

(** ** Sorting *)

(** [if records[i].RequestTime.After(records[j].RequestTime) { swap }]. *)
Definition cmp_swap (i : nat) (l : list EvidenceRecord) (j : nat) : list EvidenceRecord :=
  match l !! i, l !! j with
  | Some a, Some b =>
      if After (er_RequestTime a) (er_RequestTime b) then <[i := b]> (<[j := a]> l) else l
  | _, _ => l
  end.

Definition sortInner (n : nat) (l : list EvidenceRecord) (i : nat) : list EvidenceRecord :=
  foldl (cmp_swap i) l (seq (S i) (n - S i)).

Definition sortRecordsByTime (l : list EvidenceRecord) : list EvidenceRecord :=
  let n := length l in foldl (sortInner n) l (seq 0 (n - 1)).

(** ** Pruning *)

Definition undisturbed {St : Type} (k : nat) (s : St) : St := s.

Section pruner.
Context `{St_ops : Storage St} `{Calendar} `{ArchiveEnv}.
Variable config : RetentionConfig.
Variable meanwhile : nat -> St -> St.

(** The file part of [archive] and [archiveRecords]: directory, file, export. *)
Definition writeArchive (name : string) (records : list EvidenceRecord) (fs : Archive) :
    option EvidenceErr * Archive :=
  match MkdirAll (ArchivePath config) with
  | Some e => (Some (wrapf "failed to create archive directory" e), fs)
  | None =>
      let archiveFile := Join (ArchivePath config) name in
      match CreateFile archiveFile with
      | Some e => (Some (wrapf "failed to create archive file" e), fs)
      | None =>
          match ExportTo archiveFile records with
          | Some e => (Some (wrapf "failed to export records to archive" e), <[archiveFile := []]> fs)
          | None => (None, <[archiveFile := records]> fs)
          end
      end
  end.

Definition archiveRecords (records : list EvidenceRecord) (fs : Archive) :
    Timed (option EvidenceErr * Archive) :=
  match records with
  | [] => tret (None, fs)
  | _ =>
      let! t := now in
      tret (writeArchive ("evidence-count-" +:+ FormatSecond t +:+ ".json") records fs)
  end.

Definition archive (q : Query) (s : St) (fs : Archive) : Timed (option (option EvidenceErr * Archive)) :=
  match st_Query q s with
  | None => tret None
  | Some (Err e) => tret (Some (Some (wrapf "failed to query records for archiving" e), fs))
  | Some (Ok []) => tret (Some (None, fs))
  | Some (Ok records) =>
      let! t := now in
      tret (Some (writeArchive ("evidence-" +:+ FormatDay t +:+ ".json") records fs))
  end.

(** The store and the archive after a pruning step. *)
Definition PruneState : Type := St * Archive.

Definition deleteOld (q : Query) (s : St) (fs : Archive) (wrap : EvidenceErr -> EvidenceErr) :
    result EvidenceErr Z * PruneState :=
  match st_Delete q s with
  | (Ok deleted, s') => (Ok deleted, (s', fs))
  | (Err e, s') => (Err (wrap e), (s', fs))
  end.

Definition pruneByAge (st : PruneState) : Timed (option (result EvidenceErr Z * PruneState)) :=
  let! t := now in
  let cutoff := AddDate t (- RetentionDays config) in
  let q := until_query cutoff in
  let wrap e := RetentionError (RetentionDays config) e in
  if ArchiveBeforeDelete config then
    let s := meanwhile 0 (fst st) in
    let? r := archive q s (snd st) in
    match r with
    | (Some e, fs) => tret (Some (Err (wrap e), (s, fs)))
    | (None, fs) => tret (Some (deleteOld q (meanwhile 1 s) fs wrap))
    end
  else tret (Some (deleteOld q (meanwhile 1 (fst st)) (snd st) wrap)).

(** The records that [pruneByCount] picked and the time of the last of them. *)
Definition countVictims (allRecords : list EvidenceRecord) : option (option (list EvidenceRecord * Time)) :=
  let sorted := sortRecordsByTime allRecords in
  let n := Z.of_nat (length sorted) in
  let actualToDelete := n -64 MaxRecords config in
  if actualToDelete <=? 0 then Some None
  else
    let actualToDelete := if n <? actualToDelete then n else actualToDelete in
    r ← sorted !! Z.to_nat (actualToDelete - 1);
    Some (Some (take (Z.to_nat actualToDelete) sorted, er_RequestTime r)).

Definition pruneByCount (st : PruneState) : Timed (option (result EvidenceErr Z * PruneState)) :=
  let s := meanwhile 2 (fst st) in
  match st_Count empty_query s with
  | Err e => tret (Some (Err (wrapf "failed to count records" e), (s, snd st)))
  | Ok count =>
      if count <=? MaxRecords config then tret (Some (Ok 0, (s, snd st)))
      else
        let s := meanwhile 3 s in
        match st_Query empty_query s with
        | None => tret None
        | Some (Err e) => tret (Some (Err (wrapf "failed to query records" e), (s, snd st)))
        | Some (Ok []) => tret (Some (Ok 0, (s, snd st)))
        | Some (Ok allRecords) =>
            match countVictims allRecords with
            | None => tret None
            | Some None => tret (Some (Ok 0, (s, snd st)))
            | Some (Some (victims, cutoffTime)) =>
                let q := until_query cutoffTime in
                let! r := if ArchiveBeforeDelete config then archiveRecords victims (snd st)
                          else tret (None, snd st) in
                match r with
                | (Some e, fs) => tret (Some (Err (wrapf "archive failed" e), (s, fs)))
                | (None, fs) => tret (Some (deleteOld q (meanwhile 4 s) fs (wrapf "delete failed")))
                end
            end
        end
  end.

Definition phase (on : bool) (what : string)
    (run : PruneState -> Timed (option (result EvidenceErr Z * PruneState)))
    (total : Z) (st : PruneState) : Timed (option (Z * option EvidenceErr * PruneState)) :=
  if on then
    let? r := run st in
    match r with
    | (Ok deleted, st) => tret (Some (total +64 deleted, None, st))
    | (Err e, st) => tret (Some (total, Some (wrapf what e), st))
    end
  else tret (Some (total, None, st)).

(** [Prune]: the number of deleted records and the error, if any. *)
Definition Prune (st : PruneState) : Timed (option (Z * option EvidenceErr * PruneState)) :=
  let? r := phase (0 <? RetentionDays config) "prune by age failed" pruneByAge 0 st in
  match r with
  | (total, Some e, st) => tret (Some (total, Some e, st))
  | (total, None, st) => phase (0 <? MaxRecords config) "prune by count failed" pruneByCount total st
  end.

End pruner.

(** ** The sort is a sort *)

Local Open Scope list_scope.

Definition older (a b : EvidenceRecord) : Prop := er_RequestTime a <= er_RequestTime b.

(** One pass of the inner loop as a function: the oldest record comes out. *)
Fixpoint pass (x : EvidenceRecord) (l : list EvidenceRecord) : EvidenceRecord * list EvidenceRecord :=
  match l with
  | [] => (x, [])
  | y :: l =>
      if After (er_RequestTime x) (er_RequestTime y)
      then (fst (pass y l), x :: snd (pass y l)) else (fst (pass x l), y :: snd (pass x l))
  end.

Lemma cmp_swap_middle pre x dn y l :
  cmp_swap (length pre) (pre ++ x :: dn ++ y :: l) (S (length pre + length dn)) =
  if After (er_RequestTime x) (er_RequestTime y) then pre ++ y :: dn ++ x :: l
  else pre ++ x :: dn ++ y :: l.
Proof.
  unfold cmp_swap. rewrite list_lookup_middle by done.
  assert (Hj : (pre ++ x :: dn ++ y :: l) !! S (length pre + length dn) = Some y).
  { rewrite app_comm_cons, app_assoc. apply list_lookup_middle. rewrite length_app; simpl; lia. }
  rewrite Hj. destruct (After _ _); [|done].
  rewrite app_comm_cons, app_assoc.
  replace (S (length pre + length dn)) with (length (pre ++ x :: dn) + 0)%nat
    by (rewrite length_app; simpl; lia).
  rewrite insert_app_r, <- app_assoc. simpl.
  replace (length pre) with (length pre + 0)%nat by lia. by rewrite insert_app_r.
Qed.

Lemma sortInner_pass pre x dn l :
  foldl (cmp_swap (length pre)) (pre ++ x :: dn ++ l) (seq (S (length pre + length dn)) (length l)) =
  pre ++ fst (pass x l) :: dn ++ snd (pass x l).
Proof.
  revert x dn. induction l as [|y l IH]; intros x dn; [done|].
  cbn [length seq foldl pass]. rewrite cmp_swap_middle.
  replace (S (S (length pre + length dn))) with (S (length pre + length (dn ++ [x])))
    by (rewrite length_app; simpl; lia).
  destruct (After _ _); simpl.
  - rewrite (cons_middle x dn l), (app_assoc dn [x] l), IH, <- app_assoc. done.
  - replace (S (length pre + length (dn ++ [x]))) with (S (length pre + length (dn ++ [y])))
      by (rewrite !length_app; done).
    rewrite (cons_middle y dn l), (app_assoc dn [y] l), IH, <- app_assoc. done.
Qed.

Lemma pass_spec x l :
  fst (pass x l) :: snd (pass x l) ≡ₚ x :: l /\ Forall (older (fst (pass x l))) (x :: snd (pass x l)).
Proof.
  revert x. induction l as [|y l IH]; intros x; simpl.
  { split; [done|]. repeat constructor. unfold older. lia. }
  unfold After. destruct (Z.ltb_spec (er_RequestTime y) (er_RequestTime x)) as [Hlt|Hge]; simpl.
  - destruct (IH y) as [Hp Hf]. inversion Hf as [|? ? Hy Hf']; subst.
    split; [rewrite perm_swap; by rewrite Hp|].
    assert (older (fst (pass y l)) x) by (unfold older in *; lia). by repeat constructor.
  - destruct (IH x) as [Hp Hf]. inversion Hf as [|? ? Hx Hf']; subst.
    split; [rewrite perm_swap, Hp; apply perm_swap|].
    repeat constructor; [done| |done]. unfold older in *. lia.
Qed.

Lemma sortOuter_spec k pre suf :
  length suf = S k ->
  exists suf', foldl (sortInner (length pre + length suf)) (pre ++ suf) (seq (length pre) k) = pre ++ suf' /\
    suf' ≡ₚ suf /\ StronglySorted older suf'.
Proof.
  revert pre suf. induction k as [|k IH]; intros pre suf Hl.
  - destruct suf as [|x [|]]; simplify_eq/=. exists [x]. repeat constructor.
  - destruct suf as [|x suf]; simplify_eq/=.
    assert (Hin : sortInner (length pre + S (length suf)) (pre ++ x :: suf) (length pre) =
      (pre ++ [fst (pass x suf)]) ++ snd (pass x suf)).
    { unfold sortInner.
      replace (length pre + S (length suf) - S (length pre))%nat with (length suf) by lia.
      pose proof (sortInner_pass pre x [] suf) as Hs. simpl in Hs.
      rewrite Nat.add_0_r in Hs. by rewrite Hs, <- app_assoc. }
    rewrite Hin. destruct (pass_spec x suf) as [Hp Hf].
    pose proof (Permutation_length Hp) as Hlen. simpl in Hlen.
    destruct (IH (pre ++ [fst (pass x suf)]) (snd (pass x suf))) as (suf' & Heq & Hp' & Hs'); [lia|].
    exists (fst (pass x suf) :: suf').
    replace (length (pre ++ [fst (pass x suf)]) + length (snd (pass x suf)))%nat
      with (length pre + S (length suf))%nat in Heq by (rewrite length_app; simpl; lia).
    rewrite length_app, Nat.add_1_r in Heq. rewrite Heq, <- app_assoc. split_and!; [done|by rewrite Hp'|].
    constructor; [done|]. inversion Hf; subst. by rewrite Hp'.
Qed.

Lemma sortRecordsByTime_spec l :
  sortRecordsByTime l ≡ₚ l /\ StronglySorted older (sortRecordsByTime l).
Proof.
  unfold sortRecordsByTime. destruct l as [|x l]; [repeat constructor|].
  destruct (sortOuter_spec (length l) [] (x :: l) eq_refl) as (l' & Heq & Hp & Hs).
  simpl length in *. rewrite Nat.sub_1_r. simpl in *. rewrite Heq. done.
Qed.

(** ** What a pruning pass leaves *)

Lemma matches_until r t : matchesQuery r (until_query t) = (er_RequestTime r <=? t).
Proof.
  unfold matchesQuery, until_query, filtered_out; simpl. unfold After.
  destruct (Z.ltb_spec t (er_RequestTime r)), (Z.leb_spec (er_RequestTime r) t); lia || done.
Qed.

Lemma matches_empty r : matchesQuery r empty_query = true.
Proof. done. Qed.

Lemma select_remaining_size q m : (length (select q m) + size (remaining q m))%nat = size m.
Proof.
  unfold select, remaining. induction m as [|i r m Hi IH] using map_ind.
  { by rewrite map_to_list_empty, map_filter_empty, map_size_empty. }
  rewrite map_size_insert_None by done.
  rewrite (Permutation_length (filter_perm _ _ _ (fmap_Permutation snd _ _ (map_to_list_insert m i r Hi)))).
  simpl. destruct (matchesQuery r q) eqn:Hm; simpl.
  - rewrite map_filter_insert_False by (simpl; congruence). rewrite delete_id by done.
    by rewrite <- IH.
  - rewrite map_filter_insert_True by done.
    rewrite map_size_insert_None by (apply map_lookup_filter_None; by left).
    rewrite <- IH. apply Nat.add_succ_r.
Qed.

Lemma lookup_remaining_until t m k r :
  remaining (until_query t) m !! k = Some r <-> m !! k = Some r /\ t < er_RequestTime r.
Proof.
  unfold remaining. rewrite map_lookup_filter_Some. simpl. rewrite matches_until, Z.leb_gt. done.
Qed.

Lemma select_empty_query m : select empty_query m = snd <$> map_to_list m.
Proof. unfold select. induction (snd <$> map_to_list m) as [|r l IH]; [done|]. simpl. by rewrite IH. Qed.

Lemma filter_forall_length {A} (f : A -> bool) l k :
  (forall x, x ∈ take k l -> f x = true) -> (k <= length l)%nat -> (k <= length (List.filter f l))%nat.
Proof.
  revert k. induction l as [|x l IH]; intros [|k] Hf Hk; simpl in *; try lia.
  rewrite (Hf x) by (by left). simpl. apply le_n_S, IH; [|lia]. intros y Hy. apply Hf. by right.
Qed.

Lemma sorted_take_le l k r :
  StronglySorted older l -> l !! k = Some r -> forall x, x ∈ take (S k) l -> er_RequestTime x <= er_RequestTime r.
Proof.
  intros Hs. revert k. induction Hs as [|y l Hs IH Hf]; intros [|k] Hk x Hx; simpl in *; simplify_eq.
  - rewrite take_0 in Hx. apply list_elem_of_singleton in Hx as ->. lia.
  - apply elem_of_cons in Hx as [->|Hx]; [|by eapply IH].
    rewrite Forall_forall in Hf. apply (Hf r). by eapply list_elem_of_lookup_2.
Qed.

(** [victims] and [cutoff] as [pruneByCount] picks them from the records of
    the store: all victims are at or before the cutoff, which is the time of
    one of them, and there are enough of them. *)
Lemma countVictims_spec config l :
  0 < MaxRecords config -> MaxRecords config < Z.of_nat (length l) -> Z.of_nat (length l) <= max_int64 ->
  exists r, countVictims config l =
      Some (Some (take (Z.to_nat (Z.of_nat (length l) - MaxRecords config)) (sortRecordsByTime l), er_RequestTime r)) /\
    r ∈ l /\
    (forall x, x ∈ take (Z.to_nat (Z.of_nat (length l) - MaxRecords config)) (sortRecordsByTime l) ->
      er_RequestTime x <= er_RequestTime r).
Proof.
  intros Hm Hl Hb. unfold countVictims.
  destruct (sortRecordsByTime_spec l) as [Hp Hs]. rewrite (Permutation_length Hp).
  unfold sub64. rewrite wrap64_id by lia64.
  destruct (Z.leb_spec (Z.of_nat (length l) - MaxRecords config) 0); [lia|].
  rewrite (proj2 (Z.ltb_ge _ _)) by lia.
  set (k := Z.of_nat (length l) - MaxRecords config) in *.
  destruct (lookup_lt_is_Some_2 (sortRecordsByTime l) (Z.to_nat (k - 1))) as [r Hr].
  { rewrite (Permutation_length Hp). lia. }
  exists r. rewrite Hr. simpl. split; [done|]. split.
  - rewrite <- Hp. by eapply list_elem_of_lookup_2.
  - replace (Z.to_nat k) with (S (Z.to_nat (k - 1))) by lia. by apply sorted_take_le.
Qed.

Section prune_theorems.
Context `{SC : StorageContract St} `{Calendar} `{ArchiveEnv}.
Variable config : RetentionConfig.
Variable meanwhile : nat -> St -> St.

Implicit Types (s : St) (fs : Archive).

(** A call that did not fail took a step of the specification. *)
Lemma contract_ok op s out s' :
  room (view s) -> op_ok op -> st_step op s = Some (out, s') -> (forall e, out <> OutFailed e) ->
  spec_step (view s) op out (view s').
Proof. intros Hr Ho Hs Hn. destruct (contract op s out s' Hr Ho Hs) as [?|(_ & e & ->)]; [done|]. by destruct (Hn e). Qed.

(** A pass removed the records at or before [cutoff] and counted them. *)
Definition removed_until (cutoff : Time) (m m' : gmap string EvidenceRecord) (n : Z) : Prop :=
  m' = remaining (until_query cutoff) m /\ n = Z.of_nat (size m) - Z.of_nat (size m').

Lemma deleteOld_spec t s fs wrap n s' fs' :
  room (view s) -> deleteOld (until_query t) s fs wrap = (Ok n, (s', fs')) ->
  removed_until t (view s) (view s') n.
Proof.
  unfold deleteOld. intros Hr Hd. destruct (st_Delete (until_query t) s) as [[n'|e] s''] eqn:Hdel; simplify_eq.
  assert (Hst : st_step (OpDelete (until_query t)) s = Some (OutCount n, s')) by (simpl; by rewrite Hdel).
  apply contract_ok in Hst; [|done..]. inversion Hst; subst.
  split; [done|]. pose proof (select_remaining_size (until_query t) (view s)). lia.
Qed.

Lemma Query_empty_perm s l :
  room (view s) -> st_Query empty_query s = Some (Ok l) -> l ≡ₚ snd <$> map_to_list (view s).
Proof.
  intros Hr Hq.
  assert (Hst : st_step (OpQuery empty_query) s = Some (OutRecords l, s)) by (simpl; by rewrite Hq).
  apply contract_ok in Hst; [|done|by repeat constructor; cbv; congruence|done].
  inversion Hst; subst. unfold page. simpl. by rewrite <- select_empty_query.
Qed.

Lemma Count_empty s n :
  room (view s) -> st_Count empty_query s = Ok n -> n = Z.of_nat (size (view s)).
Proof.
  intros Hr Hq.
  assert (Hst : st_step (OpCount empty_query) s = Some (OutCount n, s)) by (simpl; by rewrite Hq).
  apply contract_ok in Hst; [|done..]. inversion Hst; subst.
  by rewrite select_empty_query, length_fmap, length_map_to_list.
Qed.

Lemma removed_until_enough t l m m' n k :
  l ≡ₚ snd <$> map_to_list m -> removed_until t m m' n -> 
  (k <= size m)%nat ->
  (forall x, x ∈ take k (sortRecordsByTime l) -> er_RequestTime x <= t) ->
  (size m' <= size m - k)%nat.
Proof.
  intros Hl [-> _] Hk Ht. pose proof (select_remaining_size (until_query t) m) as Hsz.
  enough (k <= length (select (until_query t) m))%nat by lia.
  destruct (sortRecordsByTime_spec l) as [Hp _].
  assert (Hlen : length l = size m) by (by rewrite Hl, length_fmap, length_map_to_list).
  unfold select. rewrite <- (Permutation_length (filter_perm _ _ _ Hl)).
  rewrite <- (Permutation_length (filter_perm _ _ _ Hp)). apply filter_forall_length.
  - intros x Hx. rewrite matches_until. apply Z.leb_le. auto.
  - by rewrite (Permutation_length Hp), Hlen.
Qed.

(** ** What the recorder stores meanwhile *)

Fixpoint store_all (rs : list EvidenceRecord) (m : gmap string EvidenceRecord) : gmap string EvidenceRecord :=
  match rs with [] => m | r :: rs => store_all rs (<[er_ID r := r]> m) end.

Definition ids (rs : list EvidenceRecord) : list string := er_ID <$> rs.

Lemma store_all_lookup rs m k r :
  store_all rs m !! k = Some r -> m !! k = Some r \/ (r ∈ rs /\ er_ID r = k).
Proof.
  revert m. induction rs as [|x rs IH]; intros m; cbn; [auto|]. intros [Hk|[Hin He]]%IH.
  - apply lookup_insert_Some in Hk as [[<- <-]|[_ Hk]]; [right; split; [by left|done]|by left].
  - right. split; [by right|done].
Qed.

Lemma store_all_other rs m k : k ∉ ids rs -> store_all rs m !! k = m !! k.
Proof.
  revert m. induction rs as [|x rs IH]; intros m; cbn; [done|]. intros [Hne Hn]%not_elem_of_cons.
  rewrite IH by done. by apply lookup_insert_ne.
Qed.

Lemma store_all_size rs m :
  (size m <= size (store_all rs m) <= size m + length rs)%nat.
Proof.
  revert m. induction rs as [|x rs IH]; intros m; cbn [store_all length]; [lia|].
  specialize (IH (<[er_ID x := x]> m)). rewrite map_size_insert in IH. case_match; simpl in IH; lia.
Qed.

Lemma remaining_store_all q rs m :
  (size (remaining q (store_all rs m)) <= size (remaining q m) + length rs)%nat.
Proof.
  revert m. induction rs as [|x rs IH]; intros m; cbn [store_all length]; [lia|].
  specialize (IH (<[er_ID x := x]> m)). 
  enough (size (remaining q (<[er_ID x := x]> m)) <= S (size (remaining q m)))%nat by lia.
  unfold remaining. rewrite map_filter_insert. case_decide.
  - rewrite map_size_insert. case_match; cbn; lia.
  - rewrite map_filter_delete, map_size_delete. case_match; cbn; lia.
Qed.

(** What one pass may do to the records while [new] is stored: keep a part of them
    that is newer than everything it removed, and count what it removed. *)
Definition pruned (new : list EvidenceRecord) (m m' : gmap string EvidenceRecord) (n : Z) : Prop :=
  (exists gained, (gained <= length new)%nat /\ n = Z.of_nat (size m) + Z.of_nat gained - Z.of_nat (size m')) /\ 0 <= n /\
  (forall k r, m' !! k = Some r -> m !! k = Some r \/ (r ∈ new /\ er_ID r = k)) /\
  (forall k r k' r', k ∉ ids new -> k' ∉ ids new -> m !! k = Some r -> m' !! k = None -> m' !! k' = Some r' ->
     er_RequestTime r < er_RequestTime r').

Lemma pruned_store rs m : pruned rs m (store_all rs m) 0.
Proof.
  pose proof (store_all_size rs m). split_and!; [exists (size (store_all rs m) - size m)%nat; lia|lia|apply store_all_lookup|].
  intros k r k' r' Hk _ Hm Hn _. rewrite store_all_other in Hn by done. congruence.
Qed.

Lemma removed_until_pruned t m m' n : removed_until t m m' n -> pruned [] m m' n.
Proof.
  intros [-> ->]. pose proof (select_remaining_size (until_query t) m). split_and!.
  - exists 0%nat. cbn. lia.
  - lia.
  - intros k r [Hk _]%lookup_remaining_until. by left.
  - intros k r k' r' _ _ Hk Hk' Hr'. apply lookup_remaining_until in Hr' as [_ Hr'].
    destruct (Z.ltb_spec t (er_RequestTime r)); [|lia].
    assert (remaining (until_query t) m !! k = Some r) by (by apply lookup_remaining_until). congruence.
Qed.

Lemma pruned_trans new1 new2 m1 m2 m3 n1 n2 :
  pruned new1 m1 m2 n1 -> pruned new2 m2 m3 n2 -> pruned (new1 ++ new2) m1 m3 (n1 + n2).
Proof.
  intros ((g1 & Hg1 & He1) & Hp1 & Hs1 & Hn1) ((g2 & Hg2 & He2) & Hp2 & Hs2 & Hn2). split_and!.
  - exists (g1 + g2)%nat. rewrite length_app. lia.
  - lia.
  - intros k r [[Hk|[Hin He]]%Hs1|[Hin He]]%Hs2; [by left|right; split; [apply elem_of_app; by left|done]|right; split; [apply elem_of_app; by right|done]].
  - intros k r k' r' Hk Hk' Hm1 Hm3 Hr'. unfold ids in Hk, Hk'. rewrite fmap_app, not_elem_of_app in Hk, Hk'.
    destruct Hk as [Hk1 Hk2], Hk' as [Hk1' Hk2'].
    destruct (Hs2 _ _ Hr') as [Hr2|[Hin <-]]; [|destruct Hk2'; by apply list_elem_of_fmap_2].
    destruct (m2 !! k) as [r2|] eqn:H2; [|by apply (Hn1 k r k' r')].
    destruct (Hs1 _ _ H2) as [Hm1'|[Hin <-]]; [|destruct Hk1; by apply list_elem_of_fmap_2].
    assert (r2 = r) as -> by congruence. by apply (Hn2 k r k' r').
Qed.

Lemma pruned_weaken new new' m m' n : new `sublist_of` new' -> pruned new m m' n -> pruned new' m m' n.
Proof.
  intros Hsub ((g & Hg & He) & Hp & Hs & Hn). split_and!; [|done|..].
  - exists g. apply sublist_length in Hsub. split; [lia|done].
  - intros k r [Hk|[Hin He']]%Hs; [by left|right; split; [|done]]. by eapply elem_of_sublist.
  - intros k r k' r' Hk Hk'. apply Hn; intros Hin; [destruct Hk|destruct Hk']; revert Hin; unfold ids;
      rewrite !list_elem_of_fmap; intros (x & -> & Hx); exists x; (split; [done|]); by eapply elem_of_sublist.
Qed.

Lemma pruned_room new m m' n rest :
  pruned new m m' n -> Z.of_nat (size m) + Z.of_nat (length new + rest) + MaxLimit <= max_int64 ->
  Z.of_nat (size m') + Z.of_nat rest + MaxLimit <= max_int64.
Proof. intros ((g & Hg & ->) & Hp & _) Hr. lia. Qed.

(** Others only store records meanwhile: [new k] before the k-th call. *)
Definition only_stores (new : nat -> list EvidenceRecord) : Prop :=
  forall k s, view (meanwhile k s) = store_all (new k) (view s).

Section amid_stores.
Variable new : nat -> list EvidenceRecord.
Hypothesis stores : only_stores new.

(** The room left for the counters while [l] is still to be stored. *)
Definition room_for (l : list EvidenceRecord) s : Prop :=
  Z.of_nat (size (view s)) + Z.of_nat (length l) + MaxLimit <= max_int64.

Lemma room_meanwhile k l s : room_for (new k ++ l) s -> room_for l (meanwhile k s).
Proof.
  unfold room_for. rewrite stores, length_app. pose proof (store_all_size (new k) (view s)). lia.
Qed.

Lemma room_for_room l s : room_for l s -> room (view s).
Proof. unfold room_for, room. lia. Qed.

Lemma deleted_amid k t s fs wrap n s' fs' rest :
  room_for (new k ++ rest) s ->
  deleteOld (until_query t) (meanwhile k s) fs wrap = (Ok n, (s', fs')) ->
  pruned (new k) (view s) (view s') n /\ removed_until t (store_all (new k) (view s)) (view s') n.
Proof.
  intros Hr Hd. apply room_meanwhile in Hr. apply deleteOld_spec in Hd; [|by eapply room_for_room].
  rewrite stores in Hd. split; [|done]. rewrite <- (app_nil_r (new k)), <- (Z.add_0_l n).
  eapply pruned_trans; [apply pruned_store|by eapply removed_until_pruned].
Qed.

Lemma pruneByAge_spec s fs ck i n s' fs' j rest :
  room_for (new 0 ++ new 1 ++ rest) s -> pruneByAge config meanwhile (s, fs) ck i = (Some (Ok n, (s', fs')), j) ->
  pruned (new 0 ++ new 1) (view s) (view s') n /\
  (forall k r, view s' !! k = Some r -> AddDate (ck i) (- RetentionDays config) < er_RequestTime r).
Proof.
  intros Hr. unfold pruneByAge, tbind, now, tobind, tret. cbn [fst snd]. destruct (ArchiveBeforeDelete config).
  - unfold tbind. destruct (archive config _ _ fs ck (S i)) as [[[[e|] fs1]|] i1]; intros Heq; simplify_eq.
    apply room_meanwhile in Hr.
    match goal with H : deleteOld _ _ _ _ = _ |- _ => rename H into Hd end.
    eapply deleted_amid in Hd as [Hp Hd]; [|exact Hr].
    split; [|intros k r Hk; destruct Hd as [Hv _]; rewrite Hv in Hk; by apply lookup_remaining_until in Hk as [_ Hk]].
    rewrite <- (Z.add_0_l n). eapply pruned_trans; [apply pruned_store|]. by rewrite <- stores.
  - intros Heq. injection Heq as Heq _.
    eapply deleted_amid in Heq as [Hp Hd];
      [|unfold room_for in *; rewrite !length_app in Hr; rewrite length_app; instantiate (1 := rest); lia].
    split; [|intros k r Hk; destruct Hd as [Hv _]; rewrite Hv in Hk; by apply lookup_remaining_until in Hk as [_ Hk]].
    eapply pruned_weaken; [|exact Hp]. by apply sublist_inserts_l.
Qed.

Lemma pruneByCount_spec s fs ck i n s' fs' j :
  0 < MaxRecords config -> room_for (new 2 ++ new 3 ++ new 4) s ->
  pruneByCount config meanwhile (s, fs) ck i = (Some (Ok n, (s', fs')), j) ->
  pruned (new 2 ++ new 3 ++ new 4) (view s) (view s') n /\
  Z.of_nat (size (view s')) <= MaxRecords config + Z.of_nat (length (new 4)).
Proof.
  intros Hm Hr. unfold pruneByCount. cbn [fst snd]. apply room_meanwhile in Hr.
  pose proof (pruned_store (new 2) (view s)) as P2. rewrite <- stores in P2.
  set (s2 := meanwhile 2 s) in *.
  destruct (st_Count empty_query s2) as [c|e] eqn:Hc; [|by intros ?; simplify_eq].
  apply Count_empty in Hc as ->; [|by eapply room_for_room].
  destruct (Z.leb_spec (Z.of_nat (size (view s2))) (MaxRecords config)).
  { intros Heq. injection Heq as <- <- <- <-. split; [|lia]. eapply pruned_weaken; [|exact P2]. by apply sublist_inserts_r. }
  assert (Hbig : (size (view s2) <= size (view (meanwhile 3 s2)))%nat)
    by (rewrite stores; pose proof (store_all_size (new 3) (view s2)); lia).
  apply room_meanwhile in Hr.
  pose proof (pruned_trans _ _ _ _ _ _ _ P2 (pruned_store (new 3) (view s2))) as P3. rewrite <- stores in P3.
  set (s3 := meanwhile 3 s2) in *.
  destruct (st_Query empty_query s3) as [[l|e]|] eqn:Hq; [|by intros ?; simplify_eq..].
  apply Query_empty_perm in Hq; [|by eapply room_for_room].
  assert (Hlen : length l = size (view s3)) by (by rewrite Hq, length_fmap, length_map_to_list).
  destruct l as [|r0 l0]; [simpl in Hlen; lia|]. set (l := r0 :: l0) in *.
  destruct (countVictims_spec config l) as (r & -> & Hin & Hv); [lia..|revert Hr; unfold room_for, MaxLimit; lia|].
  rewrite Hlen in *.
  assert (Hfin : forall fs1,
    deleteOld (until_query (er_RequestTime r)) (meanwhile 4 s3) fs1 (wrapf "delete failed") = (Ok n, (s', fs')) ->
    pruned (new 2 ++ new 3 ++ new 4) (view s) (view s') n /\
    Z.of_nat (size (view s')) <= MaxRecords config + Z.of_nat (length (new 4))).
  { intros fs1 Hd. eapply (deleted_amid 4 _ _ _ _ _ _ _ []) in Hd as [Hp Hd]; [|by rewrite app_nil_r].
    split; [rewrite app_assoc; by apply (pruned_trans _ _ _ _ _ 0 n P3 Hp)|]. destruct Hd as [-> _].
    pose proof (remaining_store_all (until_query (er_RequestTime r)) (new 4) (view s3)).
    pose proof (removed_until_enough (er_RequestTime r) l (view s3) _ _ (Z.to_nat (Z.of_nat (size (view s3)) - MaxRecords config))
      Hq (conj eq_refl eq_refl) ltac:(lia) Hv). lia. }
  unfold tbind. destruct (ArchiveBeforeDelete config).
  - destruct (archiveRecords config _ fs ck i) as [[[e|] fs1] i1]; intros Heq; simplify_eq.
    injection Heq as Heq _. by eapply Hfin.
  - unfold tret. intros Heq. injection Heq as Heq _. by eapply Hfin.
Qed.

Lemma phase_ok on what run total (st : PruneState (St := St)) ck i total' st' j :
  phase on what run total st ck i = (Some (total', None, st'), j) ->
  (on = false /\ total' = total /\ st' = st /\ j = i) \/
  (on = true /\ exists n, run st ck i = (Some (Ok n, st'), j) /\ total' = total +64 n).
Proof.
  unfold phase, tobind, tbind, tret. destruct on; [|intros ?; simplify_eq; auto].
  destruct (run st ck i) as [[[[n|e] st1]|] i1]; intros Heq; simplify_eq. right. eauto.
Qed.

Lemma pruned_refl l m : pruned l m m 0.
Proof. eapply pruned_weaken; [apply sublist_nil_l|]. apply (pruned_store []). Qed.

Lemma pruned_bounds l m m' n : pruned l m m' n -> 0 <= n <= Z.of_nat (size m) + Z.of_nat (length l) - Z.of_nat (size m').
Proof. intros ((g & Hg & ->) & Hp & _). lia. Qed.

Lemma agePhase_spec s fs ck i total s' fs' j rest :
  room_for (new 0 ++ new 1 ++ rest) s ->
  phase (0 <? RetentionDays config) "prune by age failed" (pruneByAge config meanwhile) 0 (s, fs) ck i =
    (Some (total, None, (s', fs')), j) ->
  pruned (new 0 ++ new 1) (view s) (view s') total /\
  (0 < RetentionDays config -> forall k r, view s' !! k = Some r ->
     AddDate (ck i) (- RetentionDays config) < er_RequestTime r).
Proof.
  intros Hr Hp. apply phase_ok in Hp as [(Hoff & -> & Hst & ->)|(Hon & n & Hp & ->)].
  - simplify_eq. apply Z.ltb_ge in Hoff. split; [apply pruned_refl|lia].
  - apply (pruneByAge_spec _ _ _ _ _ _ _ _ rest) in Hp as [Hpr Hold]; [|done].
    pose proof (pruned_bounds _ _ _ _ Hpr). unfold room_for in Hr. rewrite !length_app in Hr. rewrite length_app in *.
    unfold add64. rewrite Z.add_0_l, wrap64_id by (unfold MaxLimit in *; lia64). done.
Qed.

Lemma countPhase_spec total0 s fs ck i total s' fs' j :
  room_for (new 2 ++ new 3 ++ new 4) s -> 
  0 <= total0 <= max_int64 - MaxLimit - Z.of_nat (size (view s)) - Z.of_nat (length (new 2 ++ new 3 ++ new 4)) ->
  phase (0 <? MaxRecords config) "prune by count failed" (pruneByCount config meanwhile) total0 (s, fs) ck i =
    (Some (total, None, (s', fs')), j) ->
  exists n, total = total0 + n /\ pruned (new 2 ++ new 3 ++ new 4) (view s) (view s') n /\
  (0 < MaxRecords config -> Z.of_nat (size (view s')) <= MaxRecords config + Z.of_nat (length (new 4))).
Proof.
  intros Hr Ht Hp. apply phase_ok in Hp as [(Hoff & -> & Hst & ->)|(Hon & n & Hp & ->)].
  - simplify_eq. apply Z.ltb_ge in Hoff. exists 0. split_and!; [lia|apply pruned_refl|lia].
  - apply Z.ltb_lt in Hon. apply pruneByCount_spec in Hp as [Hpr Hle]; [|done..].
    exists n. split_and!; [|done|done]. pose proof (pruned_bounds _ _ _ _ Hpr).
    unfold add64. rewrite wrap64_id by (unfold MaxLimit in *; lia64). done.
Qed.

(** What is stored during a pass. *)
Definition arrived : list EvidenceRecord := (new 0 ++ new 1) ++ new 2 ++ new 3 ++ new 4.

(** C32: a successful pruning pass enforces the retention policy on every
    backend that meets the storage contract, whatever the recorder stores between
    its calls.  It reports exactly how many records it removed; nothing else
    disappears: what is left was there before or has arrived meanwhile, and every
    record from before that it keeps is newer than every one it removed (of records
    whose id has not arrived anew).  What it keeps from before is newer than the age
    cutoff, and it keeps at most [MaxRecords] records besides those that arrived
    after it had read the store.  When nothing arrives these are the limits
    themselves. *)
Theorem prune_enforces_retention s fs ck i total s' fs' j :
  room_for arrived s ->
  Prune config meanwhile (s, fs) ck i = (Some (total, None, (s', fs')), j) ->
  pruned arrived (view s) (view s') total /\
  (0 < RetentionDays config -> forall k r, view s' !! k = Some r ->
     AddDate (ck i) (- RetentionDays config) < er_RequestTime r \/ r ∈ arrived) /\
  (0 < MaxRecords config -> Z.of_nat (size (view s')) <= MaxRecords config + Z.of_nat (length (new 4))).
Proof.
  intros Hr. unfold Prune, tobind at 1, tbind.
  destruct (phase _ _ _ 0 _ ck i) as [[[[tot [e|]] [s1 fs1]]|] i1] eqn:Hage; intros Hp; simplify_eq.
  unfold room_for, arrived in *. rewrite length_app in Hr. set (late := new 2 ++ new 3 ++ new 4) in *.
  apply (agePhase_spec _ _ _ _ _ _ _ _ late) in Hage as [Hpr Hage];
    [|unfold room_for; rewrite app_assoc, length_app; lia].
  pose proof (pruned_bounds _ _ _ _ Hpr) as Hb.
  apply countPhase_spec in Hp as (n & -> & Hpr2 & Hmax); fold late; [|unfold room_for; fold late; lia|lia].
  split_and!; [by eapply pruned_trans| |done].
  intros Hd k r Hk. destruct Hpr2 as (_ & _ & Hs & _).
  destruct (Hs _ _ Hk) as [Hk1|[Hin _]]; [left; by apply (Hage Hd k)|right; apply elem_of_app; by right].
Qed.
End amid_stores.

(** With archiving on and the store to itself, age-based pruning loses nothing:
    every record it deletes is in that day's archive file when it reports success. *)
Theorem prune_by_age_archives s fs ck i n s' fs' j :
  room (view s) -> ArchiveBeforeDelete config = true ->
  pruneByAge config undisturbed (s, fs) ck i = (Some (Ok n, (s', fs')), j) ->
  forall k r, view s !! k = Some r -> view s' !! k = None ->
  exists l, fs' !! Join (ArchivePath config) ("evidence-" +:+ FormatDay (ck (S i)) +:+ ".json") = Some l /\ r ∈ l.
Proof.
  intros Hr Ha Hp k r Hk Hk'. set (t := AddDate (ck i) (- RetentionDays config)) in *.
  assert (Hv : view s' = remaining (until_query t) (view s)).
  { revert Hp. unfold pruneByAge, tbind, now, tobind, tret. cbn [fst snd]. rewrite Ha. unfold tbind.
    destruct (archive config _ _ fs ck (S i)) as [[[[e|] fs1]|] i1]; intros Heq; simplify_eq.
    match goal with H : deleteOld _ _ _ _ = _ |- _ => by eapply deleteOld_spec in H as [H _] end. }
  assert (Hin : r ∈ select (until_query t) (view s)).
  { apply elem_of_select. exists k. split; [done|]. rewrite matches_until, Z.leb_le.
    destruct (Z.ltb_spec t (er_RequestTime r)); [|done].
    assert (view s' !! k = Some r) by (rewrite Hv; by apply lookup_remaining_until). congruence. }
  revert Hp. unfold pruneByAge, tobind, tbind, now, tret. fold t. rewrite Ha. unfold undisturbed. simpl. unfold archive.
  destruct (st_Query (until_query t) s) as [[l|e]|] eqn:Hq; [|by intros ?; simplify_eq..].
  assert (Hl : l ≡ₚ select (until_query t) (view s)).
  { assert (Hst : st_step (OpQuery (until_query t)) s = Some (OutRecords l, s)) by (simpl; by rewrite Hq).
    apply contract_ok in Hst; [|done|by repeat constructor; cbv; congruence|done].
    inversion Hst; subst. by unfold page. }
  destruct l as [|r0 l0]; [rewrite <- Hl in Hin; by apply not_elem_of_nil in Hin|].
  unfold tbind, now, tret, writeArchive.
  destruct (MkdirAll _); [by intros ?; simplify_eq|].
  destruct (CreateFile _); [by intros ?; simplify_eq|].
  destruct (ExportTo _ _); [by intros ?; simplify_eq|].
  unfold deleteOld. destruct (st_Delete _ s) as [[d|e] s2]; intros Heq; simplify_eq.
  exists (r0 :: l0). split; [apply lookup_insert_eq|]. by rewrite Hl.
Qed.

End prune_theorems.

(** ** The in-memory store: success, ties and archive names *)

Section memory_prune.
Context `{MR : MapRange} `{Calendar} `{ArchiveEnv}.
Variable config : RetentionConfig.

(** Count-based pruning when there are too many records, without an archive:
    the records up to the time of one of them go. *)
Lemma memory_pruneByCount (s : MemoryStorage) fs ck i :
  0 < MaxRecords config < Z.of_nat (size (ms_records s)) -> room (ms_records s) ->
  ArchiveBeforeDelete config = false ->
  exists k r, ms_records s !! k = Some r /\
    let q := until_query (er_RequestTime r) in
    pruneByCount config undisturbed (s, fs) ck i =
      (Some (Ok (Z.of_nat (length (select q (ms_records s)))),
             (mkMemoryStorage (remaining q (ms_records s)), fs)), i).
Proof.
  intros Hm Hr Ha. unfold pruneByCount, undisturbed.
  cbn [fst snd st_Count st_Query memory_storage]. rewrite Count_spec by done.
  rewrite select_empty_query, length_fmap, length_map_to_list.
  rewrite (proj2 (Z.leb_gt _ _)) by lia.
  rewrite Query_spec by (done || by repeat constructor; cbv; congruence).
  assert (Hq : page empty_query (matching empty_query s) ≡ₚ snd <$> map_to_list (ms_records s)).
  { unfold page. simpl. rewrite drop_0, (matching_perm empty_query s). by rewrite select_empty_query. }
  assert (Hlen : length (page empty_query (matching empty_query s)) = size (ms_records s)).
  { by rewrite Hq, length_fmap, length_map_to_list. }
  destruct (page empty_query (matching empty_query s)) as [|r0 l0] eqn:Hp; [simpl in Hlen; lia|].
  rewrite <- Hp in *.
  destruct (countVictims_spec config (page empty_query (matching empty_query s))) as (r & -> & Hin & _);
    [lia|lia|revert Hr; unfold room, MaxLimit; lia|].
  rewrite Hq in Hin. apply list_elem_of_fmap in Hin as ([k r'] & -> & Hin).
  apply elem_of_map_to_list in Hin. exists k, r'. split; [done|]. rewrite Ha.
  unfold tbind, tret, deleteOld. cbn [fst snd st_Delete memory_storage]. by rewrite Delete_spec by done.
Qed.

(** Count-based pruning deletes by time, so records that share the cutoff
    time go together: when all records have one request time and there are too
    many of them, all are deleted, not just the surplus. *)
Theorem prune_by_count_drops_ties (s : MemoryStorage) fs ck i t :
  0 < MaxRecords config < Z.of_nat (size (ms_records s)) -> room (ms_records s) ->
  ArchiveBeforeDelete config = false ->
  (forall k r, ms_records s !! k = Some r -> er_RequestTime r = t) ->
  pruneByCount config undisturbed (s, fs) ck i =
    (Some (Ok (Z.of_nat (size (ms_records s))), (mkMemoryStorage ∅, fs)), i).
Proof.
  intros Hm Hr Ha Ht. destruct (memory_pruneByCount s fs ck i Hm Hr Ha) as (k & r & Hk & ->).
  rewrite (Ht k r Hk).
  assert (Hrem : remaining (until_query t) (ms_records s) = ∅).
  { apply map_empty. intros k'. destruct (remaining _ _ !! k') as [x|] eqn:Hx; [|done].
    apply lookup_remaining_until in Hx as [Hx Hlt]. rewrite (Ht _ _ Hx) in Hlt. lia. }
  pose proof (select_remaining_size (until_query t) (ms_records s)) as Hsz.
  rewrite Hrem, map_size_empty, Nat.add_0_r in Hsz. by rewrite Hrem, Hsz.
Qed.

Lemma memory_phases (s : MemoryStorage) fs ck i :
  room (ms_records s) -> ArchiveBeforeDelete config = false ->
  (exists n m j, pruneByAge config undisturbed (s, fs) ck i = (Some (Ok n, (mkMemoryStorage m, fs)), j) /\ room m) /\
  (0 < MaxRecords config ->
   exists n m j, pruneByCount config undisturbed (s, fs) ck i = (Some (Ok n, (mkMemoryStorage m, fs)), j)).
Proof.
  intros Hr Ha. split.
  - unfold pruneByAge, undisturbed, tbind, now, tret. rewrite Ha. unfold deleteOld.
    cbn [fst snd st_Delete memory_storage]. rewrite Delete_spec by done.
    do 3 eexists. split; [done|]. by apply room_remaining.
  - intros Hm. destruct (Z.leb_spec (Z.of_nat (size (ms_records s))) (MaxRecords config)).
    + exists 0, (ms_records s), i. unfold pruneByCount, undisturbed.
      cbn [fst snd st_Count memory_storage]. rewrite Count_spec by done.
      rewrite select_empty_query, length_fmap, length_map_to_list, (proj2 (Z.leb_le _ _)) by lia.
      by destruct s.
    + destruct (memory_pruneByCount s fs ck i ltac:(lia) Hr Ha) as (k & r & _ & ->). eauto.
Qed.

(** Without archiving, pruning the in-memory store always succeeds: it
    returns a count and no error, and never panics. *)
Theorem memory_prune_succeeds (s : MemoryStorage) fs ck i :
  room (ms_records s) -> ArchiveBeforeDelete config = false ->
  exists total s' j, Prune config undisturbed (s, fs) ck i = (Some (total, None, (s', fs)), j).
Proof.
  intros Hr Ha. unfold Prune, tobind, tbind.
  assert (Hage : exists tot m j,
      phase (0 <? RetentionDays config) "prune by age failed" (pruneByAge config undisturbed) 0 (s, fs) ck i =
      (Some (tot, None, (mkMemoryStorage m, fs)), j) /\ room m).
  { destruct (memory_phases s fs ck i Hr Ha) as [(n & m & j & Hp & Hm) _].
    unfold phase, tobind, tbind, tret. destruct (0 <? RetentionDays config); [rewrite Hp; eauto|].
    destruct s; eauto. }
  destruct Hage as (tot & m & j & -> & Hrm).
  destruct (memory_phases (mkMemoryStorage m) fs ck j Hrm Ha) as [_ Hc].
  unfold phase, tobind, tbind, tret. destruct (Z.ltb_spec 0 (MaxRecords config)) as [Hm|_]; [|eauto].
  destruct (Hc Hm) as (n & m' & j' & ->). eauto.
Qed.

End memory_prune.

(** A calendar in UTC, an operating system that never fails, and three
    records of the same second for the examples. *)
Definition utc_calendar : Calendar := {|
  AddDate t d := t + d * 24 * Hour;
  FormatDay t := pretty.pretty (t / (24 * Hour));
  FormatSecond t := pretty.pretty (t / Second);
|}.

Definition quiet_os : ArchiveEnv := {|
  MkdirAll _ := None; CreateFile _ := None; ExportTo _ _ := None;
  Join d f := d +:+ f;
|}.

Definition ex_config (days max : Z) (arch : bool) : RetentionConfig :=
  mkRetentionConfig days "0 3 * * *" arch "archives/" max.

Definition ex_ties : MemoryStorage :=
  mkMemoryStorage {[ "a" := ex_record "a" "u" 10; "b" := ex_record "b" "u" 10; "c" := ex_record "c" "v" 10 ]}.

(** What a successful pass and a successful age-based pass report. *)
Definition passed {S : Type} (p : option (Z * option EvidenceErr * S) * nat) : option Z :=
  match fst p with Some (n, None, _) => Some n | _ => None end.
Definition aged {S : Type} (p : option (result EvidenceErr Z * S) * nat) : option Z :=
  match fst p with Some (Ok n, _) => Some n | _ => None end.

(** A recorder that stores one record before the deletion by age and one before the
    deletion by count. *)
Definition ex_new (k : nat) : list EvidenceRecord :=
  match k with 1%nat => [ex_record "n" "u" 40] | 4%nat => [ex_record "m" "u" 45] | _ => [] end.

Definition ex_recorder (k : nat) (s : MemoryStorage) : MemoryStorage := mkMemoryStorage (store_all (ex_new k) (ms_records s)).

Lemma prune_enforces_retention_witness :
  exists s' fs' j,
    Prune (St_ops := memory_storage (H := some_range)) (H := utc_calendar) (H0 := quiet_os)
      (ex_config 1 1 true) ex_recorder (ex_store, ∅) (fun _ => 24 * Hour + 15) 0%nat = (Some (3, None, (s', fs')), j) /\
    pruned (arrived ex_new) (ms_records ex_store) (ms_records s') 3 /\
    Z.of_nat (size (ms_records s')) <= 2.
Proof.
  assert (Ht : passed (Prune (St_ops := memory_storage (H := some_range)) (H := utc_calendar) (H0 := quiet_os)
    (ex_config 1 1 true) ex_recorder (ex_store, ∅) (fun _ => 24 * Hour + 15) 0%nat) = Some 3) by (vm_compute; reflexivity).
  destruct (Prune (St_ops := memory_storage (H := some_range)) (H := utc_calendar) (H0 := quiet_os)
    (ex_config 1 1 true) ex_recorder (ex_store, ∅) (fun _ => 24 * Hour + 15) 0%nat)
    as [[[[tot [e|]] [s' fs']]|] j] eqn:Hp; cbv [passed fst] in Ht; [discriminate Ht| |discriminate Ht].
  injection Ht as ->. exists s', fs', j. split; [reflexivity|].
  destruct (prune_enforces_retention (SC := memory_contract (MR := some_range)) (H0 := utc_calendar) (H1 := quiet_os)
    (ex_config 1 1 true) ex_recorder ex_new (fun _ _ => eq_refl) ex_store ∅ (fun _ => 24 * Hour + 15) 0%nat 3 s' fs' j
    ltac:(vm_compute; congruence) Hp) as (Hpr & _ & Hmax).
  split; [exact Hpr|exact (Hmax eq_refl)].
Defined.

Lemma prune_by_age_archives_witness :
  exists fs' s' j,
    pruneByAge (St_ops := memory_storage (H := some_range)) (H := utc_calendar) (H0 := quiet_os)
      (ex_config 1 0 true) undisturbed (ex_store, ∅) (fun _ => 24 * Hour + 15) 0%nat = (Some (Ok 1, (s', fs')), j) /\
    exists l, fs' !! "archives/evidence-1.json" = Some l /\ ex_record "a" "u" 10 ∈ l.
Proof.
  assert (Ht : aged (pruneByAge (St_ops := memory_storage (H := some_range)) (H := utc_calendar) (H0 := quiet_os)
    (ex_config 1 0 true) undisturbed (ex_store, ∅) (fun _ => 24 * Hour + 15) 0%nat) = Some 1) by (vm_compute; reflexivity).
  assert (Hg : match fst (pruneByAge (St_ops := memory_storage (H := some_range)) (H := utc_calendar) (H0 := quiet_os)
    (ex_config 1 0 true) undisturbed (ex_store, ∅) (fun _ => 24 * Hour + 15) 0%nat) with
    Some (_, (s, _)) => ms_records s !! "a" | None => None end = None) by (vm_compute; reflexivity).
  assert (Hroom : room (ms_records ex_store)) by (vm_compute; congruence).
  assert (Ha : ms_records ex_store !! "a" = Some (ex_record "a" "u" 10)) by (vm_compute; reflexivity).
  destruct (pruneByAge (St_ops := memory_storage (H := some_range)) (H := utc_calendar) (H0 := quiet_os)
    (ex_config 1 0 true) undisturbed (ex_store, ∅) (fun _ => 24 * Hour + 15) 0%nat)
    as [[[[n|e] [s' fs']]|] j] eqn:Hp; cbv [aged fst] in Ht; [|discriminate Ht..].
  injection Ht as ->. cbv [fst] in Hg. exists fs', s', j. split; [reflexivity|].
  exact (prune_by_age_archives (SC := memory_contract (MR := some_range)) (H0 := utc_calendar)
    (H1 := quiet_os) (ex_config 1 0 true) ex_store ∅ (fun _ => 24 * Hour + 15) 0%nat 1 s' fs' j
    Hroom eq_refl Hp "a" (ex_record "a" "u" 10) Ha Hg).
Defined.

Lemma prune_by_count_drops_ties_witness :
  pruneByCount (St_ops := memory_storage (H := some_range)) (H := utc_calendar) (H0 := quiet_os)
    (ex_config 0 2 false) undisturbed (ex_ties, ∅) (fun _ => 0) 0%nat = (Some (Ok 3, (mkMemoryStorage ∅, ∅)), 0%nat).
Proof.
  apply (prune_by_count_drops_ties (MR := some_range) (H := utc_calendar) (H0 := quiet_os)
    (ex_config 0 2 false) ex_ties ∅ (fun _ => 0) 0%nat 10); [vm_compute; done|vm_compute; congruence|done|].
  intros k r Hk. unfold ex_ties, ms_records in Hk.
  repeat (apply lookup_insert_Some in Hk as [[<- <-]|[_ Hk]]; [done|]). by apply lookup_singleton_Some in Hk as [_ <-].
Defined.

Lemma memory_prune_succeeds_witness :
  exists total s' j,
    Prune (St_ops := memory_storage (H := some_range)) (H := utc_calendar) (H0 := quiet_os)
      (ex_config 1 1 false) undisturbed (ex_store, ∅) (fun _ => 24 * Hour + 15) 0%nat = (Some (total, None, (s', ∅)), j).
Proof.
  apply (memory_prune_succeeds (MR := some_range) (H := utc_calendar) (H0 := quiet_os));
    [vm_compute; congruence|done].
Defined.

(** Archiving by count covers only the surplus: of three records with one
    request time and a limit of two, all three are deleted and the archive
    holds one of them. *)
Example count_archive_misses_ties :
  let '(r, _) := pruneByCount (St_ops := memory_storage (H := some_range)) (H := utc_calendar) (H0 := quiet_os)
                   (ex_config 0 2 true) undisturbed (ex_ties, ∅) (fun _ => 0) 0%nat in
  match r with
  | Some (Ok n, (s', fs')) =>
      n = 3 /\ ms_records s' = ∅ /\ length <$> (fs' !! "archives/evidence-count-0.json") = Some 1%nat
  | _ => False
  end.
Proof. vm_compute. done. Qed.

(** The age archive of a day is one file that every pass creates anew: after
    a second pass on the same day the records archived and deleted by the first
    one are in no archive. *)
Example same_day_archive_overwritten :
  let run := pruneByAge (St_ops := memory_storage (H := some_range)) (H := utc_calendar) (H0 := quiet_os)
               (ex_config 1 0 true) undisturbed in
  match fst (run (ex_store, ∅) (fun _ => 24 * Hour + 15) 0%nat) with
  | Some (Ok n1, st1) =>
      match fst (run st1 (fun _ => 24 * Hour + 25) 0%nat) with
      | Some (Ok n2, (s2, fs2)) =>
          n1 = 1 /\ n2 = 1 /\ ms_records s2 !! "a" = None /\
          map_to_list fs2 = [("archives/evidence-1.json", [ex_record "b" "u" 20])]
      | _ => False
      end
  | _ => False
  end.
Proof. vm_compute. done. Qed.
