(* ===== verification/EvidenceSqlite.v ===== *)
(** * SQLite evidence storage ([pkg/evidence/storage/sqlite.go],
    [sqlite_schema.go])

    The statements the backend sends, the row it writes and the record it reads
    back.  The database engine is a parameter ([SqlDB]): it executes statement
    texts.  What is proved of the texts and rows needs no law about it: the
    WHERE clause is the text of a list of conditions whose meaning on the stored
    row is [matchesQuery], and a row read in schema order is the record that was
    stored.  JSON encoding of the four structured columns is a parameter
    ([Json]).  Prepared statements are never filled and are left out. *)

From Stdlib Require Import ZArith Lia Ascii.
From stdpp Require Import base option list strings gmap pretty countable.
From S2P Require Import Prelude Float64 Evidence Retention.
Local Open Scope string_scope.
Local Open Scope Z_scope.
Local Open Scope go_scope.

(** ** Values, JSON, database *)

Inductive SqlVal :=
| SText (s : string)
| SInt (z : Z)
| SReal (f : float64)
| STime (t : Time)
| SBool (b : bool)
| SNull.

Class Json : Type := {
  marshal_map : gmap string string -> string;
  marshal_strings : list string -> string;
  marshal_rules : list MatchedRuleRecord -> string;
  unmarshal_map : string -> option (gmap string string);
  unmarshal_strings : string -> option (list string);
  unmarshal_rules : string -> option (list MatchedRuleRecord);
}.

Record SQLiteConfig := mkSQLiteConfig {
  sq_Path : string;
  MaxOpenConns : Z;
  MaxIdleConns : Z;
  WALMode : bool;
  BusyTimeout : Duration;
}.

Definition DefaultSQLiteConfig : SQLiteConfig :=
  mkSQLiteConfig "data/evidence.db" 10 5 true (5 * Second).

(** [Duration.Milliseconds]. *)
Definition Milliseconds (d : Duration) : Z := Z.quot d 1000000.

(** ** The WHERE clause *)

Definition Conditions : Type := list string * list SqlVal.

Definition addCond (c : string) (args : list SqlVal) (st : Conditions) : Conditions :=
  ((fst st ++ [c])%list, (snd st ++ args)%list).

(** [if query.X != nil { ... }] and [if query.X != "" { ... }]. *)
Definition addOpt {A} (o : option A) (c : string) (val : A -> SqlVal) (st : Conditions) : Conditions :=
  match o with Some a => addCond c [val a] st | None => st end.

Definition addStr (s c : string) (val : string -> SqlVal) (st : Conditions) : Conditions :=
  if String.eqb s "" then st else addCond c [val s] st.

Definition addStatus (status : string) (st : Conditions) : Conditions :=
  if String.eqb status "success" then addCond "error IS NULL" [] st
  else if String.eqb status "error" then addCond "error IS NOT NULL" [] st
  else if String.eqb status "blocked" then addCond "policy_decision = ?" [SText "block"] st
  else st.

Definition queryConditions (q : Query) : Conditions :=
  let st := ([], []) in
  let st := addOpt (q_StartTime q) "request_time >= ?" STime st in
  let st := addOpt (q_EndTime q) "request_time <= ?" STime st in
  let st := addStr (q_UserID q) "user_id = ?" SText st in
  let st := addStr (q_APIKey q) "api_key = ?" SText st in
  let st := addStr (q_Provider q) "provider = ?" SText st in
  let st := addStr (q_Model q) "model = ?" SText st in
  let st := addStr (q_PolicyDecision q) "policy_decision = ?" SText st in
  let st := addStr (q_PolicyID q) "matched_rules LIKE ?" (fun s => SText ("%" +:+ s +:+ "%")) st in
  let st := addStr (q_RuleID q) "matched_rules LIKE ?" (fun s => SText ("%" +:+ s +:+ "%")) st in
  let st := addOpt (q_MinCost q) "actual_cost >= ?" SReal st in
  let st := addOpt (q_MaxCost q) "actual_cost <= ?" SReal st in
  let st := addOpt (q_MinTokens q) "total_tokens >= ?" SInt st in
  let st := addOpt (q_MaxTokens q) "total_tokens <= ?" SInt st in
  addStatus (q_Status q) st.

(** The loop that joins the conditions with AND. *)
Fixpoint joinLoop (i : nat) (whereClause : string) (conditions : list string) : string :=
  match conditions with
  | [] => whereClause
  | c :: cs =>
      let w := match i with O => whereClause | S _ => whereClause +:+ " AND " end in
      joinLoop (S i) (w +:+ c) cs
  end.

Definition buildWhereClause (q : Query) : string * list SqlVal :=
  let '(conditions, args) := queryConditions q in
  (joinLoop 0 "" conditions, args).

(** [stmt], [" WHERE "] and the clause, if there is one. *)
Definition withWhere (stmt : string) (q : Query) : string :=
  let w := fst (buildWhereClause q) in
  if String.eqb w "" then stmt else stmt +:+ " WHERE " +:+ w.

(** The SELECT statement of [Query] and [QueryStream]. *)
Definition selectStatement (q : Query) : string :=
  let sortBy := if String.eqb (q_SortBy q) "" then "request_time" else q_SortBy q in
  let sortOrder := if String.eqb (q_SortOrder q) "" then "DESC" else q_SortOrder q in
  let limit := if 0 <? q_Limit q then q_Limit q else 100 in
  withWhere "SELECT * FROM evidence" q +:+ " ORDER BY " +:+ sortBy +:+ " " +:+ sortOrder
    +:+ " LIMIT " +:+ pretty limit
    +:+ (if 0 <? q_Offset q then " OFFSET " +:+ pretty (q_Offset q) else "").

Definition countStatement (q : Query) : string := withWhere "SELECT COUNT(*) FROM evidence" q.
Definition deleteStatement (q : Query) : string := withWhere "DELETE FROM evidence" q.

(** ** Rows *)

Definition Schema : string := "
-- Evidence records table
CREATE TABLE IF NOT EXISTS evidence (
    id TEXT PRIMARY KEY,
    request_id TEXT NOT NULL,

    -- Timestamps
    request_time TIMESTAMP NOT NULL,
    policy_eval_time TIMESTAMP NOT NULL,
    provider_call_time TIMESTAMP,
    response_time TIMESTAMP,
    recorded_time TIMESTAMP NOT NULL,

    -- Request metadata
    request_hash TEXT NOT NULL,
    request_method TEXT NOT NULL,
    request_path TEXT NOT NULL,
    request_headers TEXT,

    -- Request content
    model TEXT NOT NULL,
    provider TEXT NOT NULL,
    messages INTEGER,
    system_prompt TEXT,
    user_prompt TEXT,
    tools_used TEXT,

    -- Request metadata (from processing)
    estimated_tokens INTEGER,
    estimated_cost REAL,
    risk_score INTEGER,
    complexity_score INTEGER,
    pii_detected BOOLEAN,
    pii_types TEXT,

    -- Policy decisions
    policy_decision TEXT NOT NULL,
    matched_rules TEXT,
    block_reason TEXT,
    policy_version TEXT,

    -- Response metadata
    response_hash TEXT,
    response_status INTEGER,

    -- Response content
    response_content TEXT,
    finish_reason TEXT,

    -- Actual usage
    prompt_tokens INTEGER,
    completion_tokens INTEGER,
    total_tokens INTEGER,
    actual_cost REAL,

    -- Provider info
    provider_latency INTEGER,
    provider_model TEXT,

    -- User/API key
    user_id TEXT,
    api_key TEXT,
    ip_address TEXT,

    -- Error info
    error TEXT,
    error_type TEXT,

    -- Conversation context
    turn_number INTEGER,
    context_usage REAL
);

-- Schema version table
CREATE TABLE IF NOT EXISTS schema_version (
    version INTEGER PRIMARY KEY,
    applied_at TIMESTAMP NOT NULL
);

-- Indexes for common queries
CREATE INDEX IF NOT EXISTS idx_evidence_request_time ON evidence(request_time);
CREATE INDEX IF NOT EXISTS idx_evidence_user_id ON evidence(user_id);
CREATE INDEX IF NOT EXISTS idx_evidence_provider ON evidence(provider);
CREATE INDEX IF NOT EXISTS idx_evidence_model ON evidence(model);
CREATE INDEX IF NOT EXISTS idx_evidence_policy_decision ON evidence(policy_decision);
CREATE INDEX IF NOT EXISTS idx_evidence_actual_cost ON evidence(actual_cost);
CREATE INDEX IF NOT EXISTS idx_evidence_total_tokens ON evidence(total_tokens);
CREATE INDEX IF NOT EXISTS idx_evidence_request_id ON evidence(request_id);
".

Definition InsertSchemaVersion : string := "
INSERT INTO schema_version (version, applied_at)
VALUES (?, datetime('now'))
ON CONFLICT(version) DO NOTHING;
".

Definition GetSchemaVersion : string := "
SELECT version FROM schema_version ORDER BY version DESC LIMIT 1;
".

(** The columns of the first table of the schema, in the order of its CREATE
    TABLE statement, which is the order of [SELECT *]: the first words of the
    indented lines up to the closing parenthesis. *)
Fixpoint lines (s cur : string) : list string :=
  match s with
  | EmptyString => [cur]
  | String "010"%char s => cur :: lines s ""
  | String c s => lines s (cur +:+ String c "")
  end.

Fixpoint first_word (s : string) : string :=
  match s with
  | EmptyString => ""
  | String " "%char _ => ""
  | String c s => String c (first_word s)
  end.

Fixpoint column_lines (l : list string) : list string :=
  match l with
  | [] => []
  | String " " (String " " (String " " (String " " rest))) :: l =>
      if String.prefix "--" rest then column_lines l else first_word rest :: column_lines l
  | String ")" _ :: _ => []
  | _ :: l => column_lines l
  end.

Definition schemaColumns : list string := column_lines (lines Schema "").

(** The columns of the INSERT statement. *)
Definition insertColumns : list string :=
  ["id"; "request_id";
   "request_time"; "policy_eval_time"; "provider_call_time"; "response_time"; "recorded_time";
   "request_hash"; "request_method"; "request_path"; "request_headers";
   "model"; "provider"; "messages"; "system_prompt"; "user_prompt"; "tools_used";
   "estimated_tokens"; "estimated_cost"; "risk_score"; "complexity_score"; "pii_detected"; "pii_types";
   "policy_decision"; "matched_rules"; "block_reason"; "policy_version";
   "response_hash"; "response_status";
   "response_content"; "finish_reason";
   "prompt_tokens"; "completion_tokens"; "total_tokens"; "actual_cost";
   "provider_latency"; "provider_model";
   "user_id"; "api_key"; "ip_address";
   "error"; "error_type";
   "turn_number"; "context_usage"].

(** Empty strings become NULL in the two error columns. *)
Definition null_if_empty (s : string) : SqlVal := if String.eqb s "" then SNull else SText s.

Section rows.
Context `{Json}.

(** The arguments of the INSERT statement. *)
Definition insertArgs (r : EvidenceRecord) : list SqlVal :=
  [SText (er_ID r); SText (er_RequestID r);
   STime (er_RequestTime r); STime (er_PolicyEvalTime r); STime (er_ProviderCallTime r);
   STime (er_ResponseTime r); STime (er_RecordedTime r);
   SText (er_RequestHash r); SText (er_RequestMethod r); SText (er_RequestPath r);
   SText (marshal_map (er_RequestHeaders r));
   SText (er_Model r); SText (er_Provider r); SInt (er_Messages r); SText (er_SystemPrompt r);
   SText (er_UserPrompt r); SText (marshal_strings (er_ToolsUsed r));
   SInt (er_EstimatedTokens r); SReal (er_EstimatedCost r); SInt (er_RiskScore r);
   SInt (er_ComplexityScore r); SBool (er_PIIDetected r); SText (marshal_strings (er_PIITypes r));
   SText (er_PolicyDecision r); SText (marshal_rules (er_MatchedRules r)); SText (er_BlockReason r);
   SText (er_PolicyVersion r);
   SText (er_ResponseHash r); SInt (er_ResponseStatus r);
   SText (er_ResponseContent r); SText (er_FinishReason r);
   SInt (er_PromptTokens r); SInt (er_CompletionTokens r); SInt (er_TotalTokens r); SReal (er_ActualCost r);
   SInt (Milliseconds (er_ProviderLatency r)); SText (er_ProviderModel r);
   SText (er_UserID r); SText (er_APIKey r); SText (er_IPAddress r);
   null_if_empty (er_Error r); null_if_empty (er_ErrorType r);
   SInt (er_TurnNumber r); SReal (er_ContextUsage r)].

(** What SQLite keeps of an argument: NaN is stored as NULL. *)
Definition bound (v : SqlVal) : SqlVal :=
  match v with SReal f => if is_nan f then SNull else v | _ => v end.

(** The row an INSERT leaves, by column name, and [SELECT *] of it. *)
Definition storedRow (r : EvidenceRecord) : list (string * SqlVal) := zip insertColumns (bound <$> insertArgs r).

Fixpoint column (row : list (string * SqlVal)) (c : string) : SqlVal :=
  match row with
  | [] => SNull
  | (k, v) :: row => if String.eqb k c then v else column row c
  end.

Definition selectStar (row : list (string * SqlVal)) : list SqlVal := column row <$> schemaColumns.

(** [sql.NullString]. *)
Definition nullString (v : SqlVal) : option string :=
  match v with SNull => Some "" | SText s => Some s | _ => None end.

(** [if s != "" { json.Unmarshal }]; a failure is logged and leaves the zero
    value. *)
Definition fromJSON {A} (zero : A) (dec : string -> option A) (s : string) : A :=
  if String.eqb s "" then zero else default zero (dec s).

Definition scanRow (row : list SqlVal) : option EvidenceRecord :=
  match row with
  | [SText id; SText request_id; STime t1; STime t2; STime t3; STime t4; STime t5;
     SText rhash; SText rmethod; SText rpath; SText requestHeaders;
     SText model; SText provider; SInt messages; SText system; SText user; SText toolsUsed;
     SInt etok; SReal ecost; SInt risk; SInt complexity; SBool pii; SText piiTypes;
     SText decision; SText matchedRules; SText reason; SText version;
     SText resphash; SInt status; SText content; SText finish;
     SInt ptok; SInt ctok; SInt ttok; SReal cost; SInt providerLatencyMs; SText pmodel;
     SText uid; SText key; SText ip; errorVal; errorTypeVal; SInt turn; SReal usage] =>
      error ← nullString errorVal;
      errorType ← nullString errorTypeVal;
      Some (mkEvidenceRecord id request_id t1 t2 t3 t4 t5 rhash rmethod rpath
        (fromJSON ∅ unmarshal_map requestHeaders) model provider messages system user
        (fromJSON [] unmarshal_strings toolsUsed) etok ecost risk complexity pii
        (fromJSON [] unmarshal_strings piiTypes) decision (fromJSON [] unmarshal_rules matchedRules)
        reason version None resphash status content finish ptok ctok ttok cost
        (providerLatencyMs *64 Millisecond) pmodel uid key ip error errorType turn usage)
  | _ => None
  end.

End rows.

(** ** The backend *)

(** The database: statements with their arguments.  A query returns its rows
    and the error that ended the iteration, if any; an execution the number of
    affected rows. *)
Class SqlDB (DB : Type) : Type := {
  db_query : string -> list SqlVal -> DB -> result EvidenceErr (list (list SqlVal) * option EvidenceErr);
  db_exec : string -> list SqlVal -> DB -> result EvidenceErr Z * DB;
  db_scalar : string -> list SqlVal -> DB -> result EvidenceErr Z;
  db_close : DB -> option EvidenceErr * DB;
}.

Definition insertStatement : string :=
  "INSERT INTO evidence (" +:+ String.concat ", " insertColumns +:+ ") VALUES (" +:+
  String.concat ", " (replicate 44 "?") +:+ ")".

Definition SchemaVersion : Z := 1.

Section sqlite.
Context `{Json} `{SqlDB DB}.

Definition sqliteErr (op : string) (e : EvidenceErr) : EvidenceErr := StorageError "sqlite" op e.

Definition sq_Store (r : EvidenceRecord) (db : DB) : option EvidenceErr * DB :=
  match db_exec insertStatement (insertArgs r) db with
  | (Ok _, db) => (None, db)
  | (Err e, db) => (Some (sqliteErr "store" e), db)
  end.

Definition scanError : EvidenceErr := PlainError "sql: Scan error".

Fixpoint scanRows (rows : list (list SqlVal)) : result EvidenceErr (list EvidenceRecord) :=
  match rows with
  | [] => Ok []
  | row :: rows =>
      match scanRow row with
      | None => Err (sqliteErr "scan" scanError)
      | Some r =>
          match scanRows rows with Ok rs => Ok (r :: rs) | Err e => Err e end
      end
  end.

Definition sq_Query (q : Query) (db : DB) : GoResult (list EvidenceRecord) :=
  match db_query (selectStatement q) (snd (buildWhereClause q)) db with
  | Err e => gerr (sqliteErr "query" e)
  | Ok (rows, rowsErr) =>
      match scanRows rows with
      | Err e => gerr e
      | Ok records =>
          match rowsErr with Some e => gerr (sqliteErr "query" e) | None => gok records end
      end
  end.

(** The streaming loop: the context is looked at before each row and before
    each send. *)
Fixpoint sq_streamLoop (ctx : Ctx) (rows : list (list SqlVal)) (rowsErr : option EvidenceErr) (i : nat) : Stream :=
  match rows with
  | [] => mkStream [] (sqliteErr "query_stream" <$> rowsErr)
  | row :: rows =>
      match ctx i with
      | Some e => mkStream [] (Some e)
      | None =>
          match scanRow row with
          | None => mkStream [] (Some (sqliteErr "scan" scanError))
          | Some r =>
              match ctx (S i) with
              | Some e => mkStream [] (Some e)
              | None =>
                  let s := sq_streamLoop ctx rows rowsErr (S (S i)) in
                  mkStream (r :: s_records s) (s_error s)
              end
          end
      end
  end.

Definition sq_QueryStream (ctx : Ctx) (q : Query) (db : DB) : Stream :=
  match db_query (selectStatement q) (snd (buildWhereClause q)) db with
  | Err e => mkStream [] (Some (sqliteErr "query_stream" e))
  | Ok (rows, rowsErr) => sq_streamLoop ctx rows rowsErr 0
  end.

Definition sq_Count (q : Query) (db : DB) : result EvidenceErr Z :=
  match db_scalar (countStatement q) (snd (buildWhereClause q)) db with
  | Ok n => Ok n
  | Err e => Err (sqliteErr "count" e)
  end.

Definition sq_Delete (q : Query) (db : DB) : result EvidenceErr Z * DB :=
  match db_exec (deleteStatement q) (snd (buildWhereClause q)) db with
  | (Ok n, db) => (Ok n, db)
  | (Err e, db) => (Err (sqliteErr "delete" e), db)
  end.

Definition sq_Close (db : DB) : option EvidenceErr * DB :=
  match db_close db with
  | (Some e, db) => (Some (sqliteErr "close" e), db)
  | (None, db) => (None, db)
  end.

Instance sqlite_storage : Storage DB := {
  st_Store := sq_Store;
  st_Query := sq_Query;
  st_QueryStream := sq_QueryStream;
  st_Count := sq_Count;
  st_Delete := sq_Delete;
  st_Close := sq_Close;
}.

(** [initialize]: the statements in order, each with the operation its failure
    is reported under; then the version check, where [sql.ErrNoRows] reads as
    version 0. *)
Fixpoint execAll (stmts : list (string * list SqlVal * string)) (db : DB) : option EvidenceErr * DB :=
  match stmts with
  | [] => (None, db)
  | (stmt, args, op) :: stmts =>
      match db_exec stmt args db with
      | (Err e, db) => (Some (sqliteErr op e), db)
      | (Ok _, db) => execAll stmts db
      end
  end.

Definition initStatements (config : SQLiteConfig) : list (string * list SqlVal * string) :=
  ((if WALMode config then [("PRAGMA journal_mode=WAL;", [], "enable_wal")] else []) ++
   [("PRAGMA busy_timeout=" +:+ pretty (Milliseconds (BusyTimeout config)) +:+ ";", [], "set_busy_timeout");
    (Schema, [], "create_schema");
    (InsertSchemaVersion, [SInt SchemaVersion], "insert_schema_version")])%list.

Definition initialize (config : SQLiteConfig) (db : DB) : option EvidenceErr * DB :=
  match execAll (initStatements config) db with
  | (Some e, db) => (Some e, db)
  | (None, db) =>
      match db_scalar GetSchemaVersion [] db with
      | Err e => (Some (sqliteErr "get_schema_version" e), db)
      | Ok version =>
          if version =? SchemaVersion then (None, db)
          else (Some (sqliteErr "schema_version_mismatch"
                 (PlainError ("expected schema version " +:+ pretty SchemaVersion +:+ ", got " +:+ pretty version))), db)
      end
  end.

(** [sql_open] is [sql.Open] of the driver.  A database whose initialization fails is
    closed again, whatever closing it answers. *)
Definition NewSQLiteStorage (sql_open : string -> result EvidenceErr DB) (config : option SQLiteConfig)
  : result (EvidenceErr * option DB) (SQLiteConfig * DB) :=
  let config := default DefaultSQLiteConfig config in
  match sql_open (sq_Path config) with
  | Err e => Err (sqliteErr "open" e, None)
  | Ok db =>
      match initialize config db with
      | (Some err, db) => Err (err, Some (snd (db_close db)))
      | (None, db) => Ok (config, db)
      end
  end.

(** A storage is handed out only with the schema version of the code. *)
Lemma opened_version sql_open config c db :
  NewSQLiteStorage sql_open config = Ok (c, db) ->
  c = default DefaultSQLiteConfig config /\ db_scalar GetSchemaVersion [] db = Ok SchemaVersion.
Proof.
  unfold NewSQLiteStorage, initialize. destruct (sql_open _) as [db0|]; [|done].
  destruct (execAll _ db0) as [[e|] db1]; [done|].
  destruct (db_scalar GetSchemaVersion [] db1) as [v|] eqn:Ev; [|done].
  destruct (Z.eqb_spec v SchemaVersion) as [->|]; [|done]. by intros [= <- <-].
Qed.
End sqlite.

(** ** Rows round trip *)

(** JSON text is valid UTF-8; other bytes are replaced on encoding. *)
Class JsonLaws `{Json} : Type := {
  utf8 : string -> bool;
  map_roundtrip m : map_Forall (fun k v => utf8 k && utf8 v = true) m -> unmarshal_map (marshal_map m) = Some m;
  strings_roundtrip l : forallb utf8 l = true -> unmarshal_strings (marshal_strings l) = Some l;
  rules_roundtrip l :
    forallb (fun r => utf8 (mrr_PolicyID r) && utf8 (mrr_RuleID r) && utf8 (mrr_Action r) && utf8 (mrr_Reason r)) l = true ->
    unmarshal_rules (marshal_rules l) = Some l;
  marshal_map_nonempty m : marshal_map m <> "";
  marshal_strings_nonempty l : marshal_strings l <> "";
  marshal_rules_nonempty l : marshal_rules l <> "";
}.

Definition texts_ok `{JsonLaws} (r : EvidenceRecord) : Prop :=
  map_Forall (fun k v => utf8 k && utf8 v = true) (er_RequestHeaders r) /\
  forallb utf8 (er_ToolsUsed r) = true /\ forallb utf8 (er_PIITypes r) = true /\
  forallb (fun m => utf8 (mrr_PolicyID m) && utf8 (mrr_RuleID m) && utf8 (mrr_Action m) && utf8 (mrr_Reason m))
    (er_MatchedRules r) = true.

(** The record as it comes back: the latency in whole milliseconds and no
    policy version details. *)
Definition as_stored (r : EvidenceRecord) : EvidenceRecord :=
  mkEvidenceRecord (er_ID r) (er_RequestID r) (er_RequestTime r) (er_PolicyEvalTime r)
    (er_ProviderCallTime r) (er_ResponseTime r) (er_RecordedTime r) (er_RequestHash r)
    (er_RequestMethod r) (er_RequestPath r) (er_RequestHeaders r) (er_Model r) (er_Provider r)
    (er_Messages r) (er_SystemPrompt r) (er_UserPrompt r) (er_ToolsUsed r) (er_EstimatedTokens r)
    (er_EstimatedCost r) (er_RiskScore r) (er_ComplexityScore r) (er_PIIDetected r) (er_PIITypes r)
    (er_PolicyDecision r) (er_MatchedRules r) (er_BlockReason r) (er_PolicyVersion r) None
    (er_ResponseHash r) (er_ResponseStatus r) (er_ResponseContent r) (er_FinishReason r)
    (er_PromptTokens r) (er_CompletionTokens r) (er_TotalTokens r) (er_ActualCost r)
    (Z.quot (er_ProviderLatency r) Millisecond * Millisecond) (er_ProviderModel r) (er_UserID r)
    (er_APIKey r) (er_IPAddress r) (er_Error r) (er_ErrorType r) (er_TurnNumber r) (er_ContextUsage r).

Lemma schemaColumns_eq : schemaColumns = insertColumns.
Proof. vm_compute. reflexivity. Qed.

Lemma selectStar_stored `{Json} r : selectStar (storedRow r) = bound <$> insertArgs r.
Proof. unfold selectStar. rewrite schemaColumns_eq. reflexivity. Qed.

(** The numbers of a record that come back from the database. *)
Definition reals_ok (r : EvidenceRecord) : bool :=
  negb (is_nan (er_EstimatedCost r)) && negb (is_nan (er_ActualCost r)) && negb (is_nan (er_ContextUsage r)).

Lemma bound_null_if_empty t : bound (null_if_empty t) = null_if_empty t.
Proof. unfold null_if_empty. by destruct (String.eqb t ""). Qed.

Lemma nullString_null_if_empty s : nullString (null_if_empty s) = Some s.
Proof. unfold null_if_empty. by destruct (String.eqb_spec s "") as [->|]. Qed.

Lemma fromJSON_roundtrip {A} (zero : A) (enc : A -> string) dec a :
  enc a <> "" -> dec (enc a) = Some a -> fromJSON zero dec (enc a) = a.
Proof. intros Hne Hrt. unfold fromJSON. rewrite Hrt. by destruct (String.eqb_spec (enc a) ""). Qed.

Lemma milliseconds_fit d : int64_range d -> Milliseconds d *64 Millisecond = Z.quot d Millisecond * Millisecond.
Proof.
  intros Hd. unfold mul64, Milliseconds, Millisecond. apply wrap64_id.
  pose proof (Z.quot_rem' d 1000000). pose proof (Z.rem_bound_abs d 1000000 ltac:(lia)).
  unfold64. destruct (Z.le_gt_cases 0 d).
  - pose proof (Z.rem_nonneg d 1000000 ltac:(lia) ltac:(lia)). pose proof (Z.quot_pos d 1000000 ltac:(lia) ltac:(lia)). lia.
  - pose proof (Z.rem_nonpos d 1000000 ltac:(lia) ltac:(lia)).
    pose proof (Z.quot_opp_l d 1000000 ltac:(lia)). pose proof (Z.quot_pos (- d) 1000000 ltac:(lia) ltac:(lia)). lia.
Qed.

(** C20: an evidence record survives the database.  Writing it with the INSERT
    statement and reading the row back in the order of the schema gives the
    same record in every column; only sub-millisecond latency and the details of
    the policy version, which have no column, are gone.  The texts that go through
    JSON (headers, tools, types of personal data, matched rules) must be valid
    UTF-8.  A record with a cost or a context usage that is not a number is stored
    with NULL there and cannot be read back at all. *)
Theorem sqlite_roundtrip `{JsonLaws} r :
  texts_ok r -> int64_range (er_ProviderLatency r) ->
  scanRow (selectStar (storedRow r)) = if reals_ok r then Some (as_stored r) else None.
Proof.
  intros (Hh & Ht & Hp & Hm) Hlat. rewrite selectStar_stored. unfold insertArgs, reals_ok.
  cbn [fmap list_fmap bound]. rewrite !bound_null_if_empty.
  destruct (is_nan (er_EstimatedCost r)), (is_nan (er_ActualCost r)), (is_nan (er_ContextUsage r)); try reflexivity.
  cbn [negb andb]. unfold scanRow. rewrite !nullString_null_if_empty. cbn [mbind option_bind].
  rewrite (fromJSON_roundtrip ∅ marshal_map) by eauto using marshal_map_nonempty, map_roundtrip.
  rewrite !(fromJSON_roundtrip [] marshal_strings) by eauto using marshal_strings_nonempty, strings_roundtrip.
  rewrite (fromJSON_roundtrip [] marshal_rules) by eauto using marshal_rules_nonempty, rules_roundtrip.
  by rewrite milliseconds_fit.
Qed.

(** ** What the WHERE clause means

    The conditions the clause is made of, as SQL reads them on a row: a
    comparison with NULL does not hold. *)

Inductive CmpOp := OpGe | OpLe | OpEq.

Inductive SqlCond :=
| CCmp (col : string) (op : CmpOp) (arg : SqlVal)
| CIsNull (col : string)
| CNotNull (col : string).

Definition op_text (op : CmpOp) : string :=
  match op with OpGe => " >= ?" | OpLe => " <= ?" | OpEq => " = ?" end.

Definition cond_text (c : SqlCond) : string :=
  match c with
  | CCmp col op _ => col +:+ op_text op
  | CIsNull col => col +:+ " IS NULL"
  | CNotNull col => col +:+ " IS NOT NULL"
  end.

Definition cond_args (c : SqlCond) : list SqlVal :=
  match c with CCmp _ _ a => [a] | _ => [] end.

Definition sql_le (a b : SqlVal) : bool :=
  match a, b with
  | SInt x, SInt y => x <=? y
  | SReal x, SReal y => fle x y
  | STime x, STime y => x <=? y
  | _, _ => false
  end.

Definition sql_eq (a b : SqlVal) : bool :=
  match a, b with SText x, SText y => String.eqb x y | _, _ => false end.

Definition cond_holds (row : list (string * SqlVal)) (c : SqlCond) : bool :=
  match c with
  | CCmp col OpGe a => sql_le a (column row col)
  | CCmp col OpLe a => sql_le (column row col) a
  | CCmp col OpEq a => sql_eq (column row col) a
  | CIsNull col => match column row col with SNull => true | _ => false end
  | CNotNull col => match column row col with SNull => false | _ => true end
  end.

Definition opt_cond {A} (o : option A) (col : string) (op : CmpOp) (val : A -> SqlVal) : list SqlCond :=
  match o with Some a => [CCmp col op (val a)] | None => [] end.

Definition str_cond (s col : string) : list SqlCond :=
  if String.eqb s "" then [] else [CCmp col OpEq (SText s)].

Definition status_cond (status : string) : list SqlCond :=
  if String.eqb status "success" then [CIsNull "error"]
  else if String.eqb status "error" then [CNotNull "error"]
  else if String.eqb status "blocked" then [CCmp "policy_decision" OpEq (SText "block")]
  else [].

(** The conditions of a query without policy or rule filter. *)
Definition query_conds (q : Query) : list SqlCond :=
  (opt_cond (q_StartTime q) "request_time" OpGe STime ++ opt_cond (q_EndTime q) "request_time" OpLe STime ++
   str_cond (q_UserID q) "user_id" ++ str_cond (q_APIKey q) "api_key" ++
   str_cond (q_Provider q) "provider" ++ str_cond (q_Model q) "model" ++
   str_cond (q_PolicyDecision q) "policy_decision" ++
   opt_cond (q_MinCost q) "actual_cost" OpGe SReal ++ opt_cond (q_MaxCost q) "actual_cost" OpLe SReal ++
   opt_cond (q_MinTokens q) "total_tokens" OpGe SInt ++ opt_cond (q_MaxTokens q) "total_tokens" OpLe SInt ++
   status_cond (q_Status q))%list.

Definition addConds (cs : list SqlCond) (st : Conditions) : Conditions :=
  ((fst st ++ (cond_text <$> cs))%list, (snd st ++ (cs ≫= cond_args))%list).

Lemma addConds_app cs ds st : addConds ds (addConds cs st) = addConds (cs ++ ds)%list st.
Proof. unfold addConds; simpl. by rewrite fmap_app, bind_app, <- !app_assoc. Qed.

Lemma addConds_nil st : addConds [] st = st.
Proof. unfold addConds. destruct st; simpl. by rewrite !app_nil_r. Qed.

Lemma addOpt_conds {A} (o : option A) col op val st :
  addOpt o (col +:+ op_text op) val st = addConds (opt_cond o col op val) st.
Proof. destruct o; [done|]. by rewrite addConds_nil. Qed.

Lemma addStr_conds s col st :
  addStr s (col +:+ " = ?") SText st = addConds (str_cond s col) st.
Proof. unfold addStr, str_cond. destruct (String.eqb s ""); [|done]. by rewrite addConds_nil. Qed.

Lemma addStatus_conds status st : addStatus status st = addConds (status_cond status) st.
Proof. unfold addStatus, status_cond. repeat case_match; try done. by rewrite addConds_nil. Qed.

Lemma queryConditions_conds q :
  q_PolicyID q = "" -> q_RuleID q = "" ->
  queryConditions q = addConds (query_conds q) ([], []).
Proof.
  intros Hp Hr. unfold queryConditions, query_conds. rewrite Hp, Hr.
  change (addStr "" ?c ?v ?st) with st.
  rewrite <- !addConds_app, <- addStatus_conds. f_equal.
  repeat (rewrite <- addOpt_conds || rewrite <- addStr_conds). reflexivity.
Qed.

(** The clause in terms of the conditions. *)
Fixpoint join_and (cs : list string) : string :=
  match cs with
  | [] => ""
  | [c] => c
  | c :: cs => c +:+ " AND " +:+ join_and cs
  end.

Lemma string_app_assoc (a b c : string) : (a +:+ b) +:+ c = a +:+ (b +:+ c).
Proof. induction a as [|x a IH]; [done|]. by rewrite !string_app_cons, IH. Qed.

Lemma joinLoop_S i w c cs : joinLoop (S i) w (c :: cs) = w +:+ " AND " +:+ join_and (c :: cs).
Proof.
  revert i w c. induction cs as [|d cs IH]; intros i w c.
  - simpl. by rewrite string_app_assoc.
  - change (joinLoop (S i) w (c :: d :: cs)) with (joinLoop (S (S i)) ((w +:+ " AND ") +:+ c) (d :: cs)).
    rewrite IH. change (join_and (c :: d :: cs)) with (c +:+ " AND " +:+ join_and (d :: cs)).
    by rewrite !string_app_assoc.
Qed.

Lemma joinLoop_spec cs : joinLoop 0 "" cs = join_and cs.
Proof.
  destruct cs as [|c [|d cs]]; [done|..].
  - simpl. by rewrite string_app_nil_l.
  - change (joinLoop 0 "" (c :: d :: cs)) with (joinLoop 1 ("" +:+ c) (d :: cs)).
    by rewrite string_app_nil_l, joinLoop_S.
Qed.

Lemma forallb_app_and {A} (f : A -> bool) l k : forallb f (l ++ k)%list = forallb f l && forallb f k.
Proof. apply forallb_app. Qed.

Lemma fle_not_flt a b : is_nan a = false -> is_nan b = false -> fle a b = negb (flt b a).
Proof. intros Ha Hb. rewrite (flt_not_fle b a); [by rewrite negb_involutive|done..]. Qed.

Definition not_nan_opt (o : option float64) : Prop :=
  match o with Some f => is_nan f = false | None => True end.

Section where_clause.
Context `{Json}.

Lemma str_cond_holds r s col v :
  column (storedRow r) col = SText v ->
  forallb (cond_holds (storedRow r)) (str_cond s col) = negb (filtered_out s v).
Proof.
  intros Hc. unfold str_cond, filtered_out. destruct (String.eqb s "") eqn:Hs; [done|].
  cbn [forallb cond_holds]. rewrite Hc. cbn [sql_eq].
  by destruct (String.eqb v s).
Qed.

Lemma status_cond_holds r status :
  forallb (cond_holds (storedRow r)) (status_cond status) =
  negb (negb (String.eqb status "") && status_filtered_out status r).
Proof.
  assert (He : column (storedRow r) "error" = null_if_empty (er_Error r)) by apply bound_null_if_empty.
  assert (Hd : column (storedRow r) "policy_decision" = SText (er_PolicyDecision r)) by reflexivity.
  unfold status_cond, status_filtered_out.
  destruct (String.eqb_spec status "success") as [->|]; [|destruct (String.eqb_spec status "error") as [->|];
    [|destruct (String.eqb_spec status "blocked") as [->|]]];
    cbn [forallb cond_holds]; rewrite ?He, ?Hd; unfold null_if_empty.
  - by destruct (String.eqb (er_Error r) "").
  - by destruct (String.eqb (er_Error r) "").
  - cbn [sql_eq]. by destruct (String.eqb (er_PolicyDecision r) "block").
  - by rewrite andb_false_r.
Qed.

Lemma query_conds_hold q r :
  is_nan (er_ActualCost r) = false -> not_nan_opt (q_MinCost q) -> not_nan_opt (q_MaxCost q) ->
  forallb (cond_holds (storedRow r)) (query_conds q) = matchesQuery r q.
Proof.
  intros Hc Hmin Hmax. unfold query_conds. rewrite !forallb_app_and, status_cond_holds.
  rewrite (str_cond_holds r (q_UserID q) _ (er_UserID r)), (str_cond_holds r (q_APIKey q) _ (er_APIKey r)),
    (str_cond_holds r (q_Provider q) _ (er_Provider r)), (str_cond_holds r (q_Model q) _ (er_Model r)),
    (str_cond_holds r (q_PolicyDecision q) _ (er_PolicyDecision r)) by reflexivity.
  assert (H1 : forallb (cond_holds (storedRow r)) (opt_cond (q_StartTime q) "request_time" OpGe STime) =
    negb match q_StartTime q with Some t => Before (er_RequestTime r) t | None => false end).
  { destruct (q_StartTime q) as [t|]; [|done]. simpl. rewrite andb_true_r. unfold Before. by rewrite Z.leb_antisym. }
  assert (H2 : forallb (cond_holds (storedRow r)) (opt_cond (q_EndTime q) "request_time" OpLe STime) =
    negb match q_EndTime q with Some t => After (er_RequestTime r) t | None => false end).
  { destruct (q_EndTime q) as [t|]; [|done]. simpl. rewrite andb_true_r. unfold After. by rewrite Z.leb_antisym. }
  assert (H3 : forallb (cond_holds (storedRow r)) (opt_cond (q_MinCost q) "actual_cost" OpGe SReal) =
    negb match q_MinCost q with Some c => flt (er_ActualCost r) c | None => false end).
  { destruct (q_MinCost q) as [c|]; [|done]. simpl. rewrite Hc. simpl. by rewrite andb_true_r, fle_not_flt. }
  assert (H4 : forallb (cond_holds (storedRow r)) (opt_cond (q_MaxCost q) "actual_cost" OpLe SReal) =
    negb match q_MaxCost q with Some c => flt c (er_ActualCost r) | None => false end).
  { destruct (q_MaxCost q) as [c|]; [|done]. simpl. rewrite Hc. simpl. by rewrite andb_true_r, fle_not_flt. }
  assert (H5 : forallb (cond_holds (storedRow r)) (opt_cond (q_MinTokens q) "total_tokens" OpGe SInt) =
    negb match q_MinTokens q with Some n => er_TotalTokens r <? n | None => false end).
  { destruct (q_MinTokens q) as [n|]; [|done]. simpl. by rewrite andb_true_r, Z.leb_antisym. }
  assert (H6 : forallb (cond_holds (storedRow r)) (opt_cond (q_MaxTokens q) "total_tokens" OpLe SInt) =
    negb match q_MaxTokens q with Some n => n <? er_TotalTokens r | None => false end).
  { destruct (q_MaxTokens q) as [n|]; [|done]. simpl. by rewrite andb_true_r, Z.leb_antisym. }
  rewrite H1, H2, H3, H4, H5, H6. unfold matchesQuery.
  repeat match goal with |- negb ?b && _ = _ => destruct b; [done|]; cbn [negb andb] end.
  by destruct (negb _ && _).
Qed.

(** The SQL backend filters exactly like the in-memory one.  For a query
    without policy and rule filter the WHERE clause is the conjunction, in text
    and arguments, of conditions that hold of the stored row exactly when
    [matchesQuery] holds of the record. *)
Theorem where_clause_is_matchesQuery q r :
  q_PolicyID q = "" -> q_RuleID q = "" ->
  is_nan (er_ActualCost r) = false -> not_nan_opt (q_MinCost q) -> not_nan_opt (q_MaxCost q) ->
  exists cs,
    buildWhereClause q = (join_and (cond_text <$> cs), cs ≫= cond_args) /\
    forallb (cond_holds (storedRow r)) cs = matchesQuery r q.
Proof.
  intros Hp Hr Hc Hmin Hmax. exists (query_conds q). split; [|by apply query_conds_hold].
  unfold buildWhereClause. rewrite queryConditions_conds by done.
  unfold addConds. cbn [fst snd app]. by rewrite joinLoop_spec.
Qed.

End where_clause.

(** ** What enters the statement text *)

Fixpoint placeholders (s : string) : nat :=
  match s with
  | EmptyString => 0
  | String c s => (if Ascii.eqb c "?" then 1 else 0) + placeholders s
  end.

Lemma placeholders_app s t : placeholders (s +:+ t) = (placeholders s + placeholders t)%nat.
Proof. induction s as [|c s IH]; [done|]. rewrite string_app_cons. simpl. rewrite IH. lia. Qed.

Lemma placeholders_join cs : placeholders (join_and cs) = sum_list (placeholders <$> cs).
Proof.
  induction cs as [|c [|d cs] IH]; [done|simpl; lia|].
  change (join_and (c :: d :: cs)) with (c +:+ " AND " +:+ join_and (d :: cs)).
  rewrite !placeholders_app, IH. reflexivity.
Qed.

Definition balanced (st : Conditions) : Prop := sum_list (placeholders <$> fst st) = length (snd st).

Lemma addCond_balanced c args st :
  placeholders c = length args -> balanced st -> balanced (addCond c args st).
Proof.
  unfold balanced, addCond. simpl. intros Hc Hb.
  rewrite fmap_app, (sum_list_with_app id), length_app, Hb, <- Hc. simpl. unfold id. lia.
Qed.

Lemma addOpt_balanced {A} (o : option A) c val st :
  placeholders c = 1%nat -> balanced st -> balanced (addOpt o c val st).
Proof. intros Hc Hb. destruct o; [|done]. by apply addCond_balanced. Qed.

Lemma addStr_balanced s c val st :
  placeholders c = 1%nat -> balanced st -> balanced (addStr s c val st).
Proof. intros Hc Hb. unfold addStr. case_match; [done|]. by apply addCond_balanced. Qed.

Lemma addStatus_balanced status st : balanced st -> balanced (addStatus status st).
Proof. intros Hb. unfold addStatus. repeat case_match; try done; by apply addCond_balanced. Qed.

Lemma queryConditions_balanced q : balanced (queryConditions q).
Proof.
  apply addStatus_balanced.
  repeat (apply addOpt_balanced; [reflexivity|] || (apply addStr_balanced; [reflexivity|])). reflexivity.
Qed.

(** Which filters a query sets: all that the text of its clause depends on. *)
Definition set_opt {A} (o : option A) : bool := match o with Some _ => true | None => false end.
Definition set_str (s : string) : bool := negb (String.eqb s "").

Definition filters_set (q : Query) : list bool * string :=
  ([set_opt (q_StartTime q); set_opt (q_EndTime q); set_str (q_UserID q); set_str (q_APIKey q);
    set_str (q_Provider q); set_str (q_Model q); set_str (q_PolicyDecision q); set_str (q_PolicyID q);
    set_str (q_RuleID q); set_opt (q_MinCost q); set_opt (q_MaxCost q); set_opt (q_MinTokens q);
    set_opt (q_MaxTokens q)], q_Status q).

Lemma addOpt_fst {A} (o o' : option A) c val st st' :
  set_opt o = set_opt o' -> fst st = fst st' -> fst (addOpt o c val st) = fst (addOpt o' c val st').
Proof. destruct o, o'; simpl; intros ? ->; done. Qed.

Lemma addStr_fst s s' c val st st' :
  set_str s = set_str s' -> fst st = fst st' -> fst (addStr s c val st) = fst (addStr s' c val st').
Proof. unfold addStr, set_str. destruct (String.eqb s ""), (String.eqb s' ""); simpl; intros ? ->; done. Qed.

Lemma addStatus_fst status st st' :
  fst st = fst st' -> fst (addStatus status st) = fst (addStatus status st').
Proof. unfold addStatus. intros Hst. repeat case_match; simpl; by rewrite ?Hst. Qed.

Lemma queryConditions_fst q q' :
  filters_set q = filters_set q' -> fst (queryConditions q) = fst (queryConditions q').
Proof.
  intros Hf. injection Hf as ? ? ? ? ? ? ? ? ? ? ? ? ? Hs. unfold queryConditions. rewrite Hs.
  apply addStatus_fst. repeat (apply addOpt_fst || apply addStr_fst); done.
Qed.

(** No value of a query reaches the statement text.  A validated query has a
    WHERE clause with one placeholder per argument whose text depends only on
    which filters are set, and its ORDER BY column and direction come from the
    fixed lists (or are empty and replaced by constants). *)
Theorem sql_text_is_fixed q :
  Validate q = None ->
  placeholders (fst (buildWhereClause q)) = length (snd (buildWhereClause q)) /\
  (forall q', filters_set q' = filters_set q -> fst (buildWhereClause q') = fst (buildWhereClause q)) /\
  (q_SortBy q = "" \/ q_SortBy q ∈ ValidSortFields) /\
  (q_SortOrder q = "" \/ q_SortOrder q ∈ ValidSortOrders).
Proof.
  intros Hv. pose proof (Validate_bounds q Hv) as (_ & _ & Hs & Ho).
  split_and!; [| |done|done]; unfold buildWhereClause.
  - pose proof (queryConditions_balanced q) as Hb. destruct (queryConditions q) as [cs args].
    cbn [fst snd] in *. by rewrite joinLoop_spec, placeholders_join.
  - intros q' Hf. pose proof (queryConditions_fst q' q Hf) as Hc.
    destruct (queryConditions q) as [cs args], (queryConditions q') as [cs' args'].
    cbn [fst snd] in *. by rewrite Hc.
Qed.

(** ** Retention on SQLite

    [Query] without a limit reads at most 100 rows, but the pruner asks for all
    records with such a query. *)

Section sqlite_retention.
Context `{Json} `{SqlDB DB} `{Calendar} `{ArchiveEnv}.
Variable config : RetentionConfig.

Lemma scanRows_length rows l : scanRows rows = Ok l -> length l = length rows.
Proof.
  revert l. induction rows as [|row rows IH]; intros l Hs; simplify_eq/=; [done|].
  destruct (scanRow row); [|done]. destruct (scanRows rows) as [rs|]; simplify_eq/=.
  by rewrite (IH rs eq_refl).
Qed.

Lemma sq_Query_length q db l rows_max :
  (forall rows e, db_query (selectStatement q) (snd (buildWhereClause q)) db = Ok (rows, e) ->
     (length rows <= rows_max)%nat) ->
  sq_Query q db = Some (Ok l) -> (length l <= rows_max)%nat.
Proof.
  intros Hlim. unfold sq_Query, gok, gerr.
  destruct (db_query _ _ _) as [[rows e]|] eqn:Hq; [|done].
  destruct (scanRows rows) as [rs|] eqn:Hs; [|done]. destruct e; intros Heq; simplify_eq.
  rewrite (scanRows_length _ _ Hs). by eapply Hlim.
Qed.

(** On SQLite a record limit of 100 or more is never enforced.  A database
    that honours LIMIT returns at most 100 records for the pruner's unlimited
    query, so count-based pruning ends without deleting anything, however many
    records there are. *)
Theorem sqlite_count_limit_not_enforced db fs ck i :
  (forall rows e, db_query "SELECT * FROM evidence ORDER BY request_time DESC LIMIT 100" [] db = Ok (rows, e) ->
     (length rows <= 100)%nat) ->
  100 <= MaxRecords config <= max_int64 ->
  exists r, pruneByCount (St_ops := sqlite_storage) config undisturbed (db, fs) ck i = (Some (r, (db, fs)), i) /\
    (r = Ok 0 \/ exists e, r = Err e).
Proof.
  intros Hlim Hmax. unfold pruneByCount, undisturbed. cbn [fst snd st_Count st_Query sqlite_storage].
  destruct (sq_Count empty_query db) as [n|e]; [|unfold tret; eauto].
  destruct (n <=? MaxRecords config); [unfold tret; eauto|].
  destruct (sq_Query empty_query db) as [[l|e]|] eqn:Hq.
  - apply (sq_Query_length _ _ _ 100) in Hq; [|exact Hlim].
    destruct l as [|r0 l0]; [unfold tret; eauto|]. set (l := r0 :: l0) in *.
    assert (Hv : countVictims config l = Some None).
    { unfold countVictims. rewrite (Permutation_length (proj1 (sortRecordsByTime_spec l))).
      unfold sub64. rewrite wrap64_id by lia64. by rewrite (proj2 (Z.leb_le _ _)) by lia. }
    rewrite Hv. unfold tret. eauto.
  - unfold tret. eauto.
  - exfalso. revert Hq. unfold sq_Query, gerr, gok. by repeat case_match.
Qed.

(** On SQLite an age-based pass with archiving on deletes everything up to
    the cutoff with one statement, but the archive file it writes holds at most
    100 records. *)
Theorem sqlite_age_archive_truncated db fs ck i n db' fs' j :
  let cutoff := AddDate (ck i) (- RetentionDays config) in
  let file := Join (ArchivePath config) ("evidence-" +:+ FormatDay (ck (S i)) +:+ ".json") in
  (forall rows e,
     db_query "SELECT * FROM evidence WHERE request_time <= ? ORDER BY request_time DESC LIMIT 100"
       [STime cutoff] db = Ok (rows, e) -> (length rows <= 100)%nat) ->
  ArchiveBeforeDelete config = true ->
  pruneByAge (St_ops := sqlite_storage) config undisturbed (db, fs) ck i = (Some (Ok n, (db', fs')), j) ->
  db_exec "DELETE FROM evidence WHERE request_time <= ?" [STime cutoff] db = (Ok n, db') /\
  (fs' = fs \/ exists l, fs' = <[file := l]> fs /\ (length l <= 100)%nat).
Proof.
  intros cutoff file Hlim Ha. unfold pruneByAge, undisturbed, tobind, tbind, now, tret. rewrite Ha.
  fold cutoff. unfold archive. cbn [fst snd st_Query st_Delete sqlite_storage].
  assert (Hd : forall fs1 w, deleteOld (St_ops := sqlite_storage) (until_query cutoff) db fs1 w = (Ok n, (db', fs')) ->
    fs1 = fs' /\ db_exec "DELETE FROM evidence WHERE request_time <= ?" [STime cutoff] db = (Ok n, db')).
  { intros fs1 w. unfold deleteOld. cbn [st_Delete sqlite_storage]. unfold sq_Delete.
    change (deleteStatement (until_query cutoff)) with "DELETE FROM evidence WHERE request_time <= ?".
    change (snd (buildWhereClause (until_query cutoff))) with [STime cutoff].
    destruct (db_exec _ _ _) as [[m|e] db1]; intros Heq; by simplify_eq. }
  destruct (sq_Query (until_query cutoff) db) as [[l|e]|] eqn:Hq; [|by intros ?; simplify_eq..].
  apply (sq_Query_length _ _ _ 100) in Hq; [|exact Hlim].
  destruct l as [|r0 l0].
  { intros Heq. injection Heq as Heq _. apply Hd in Heq as [-> Heq]. auto. }
  unfold tbind, now, tret, writeArchive. fold file.
  destruct (MkdirAll _); [by intros ?; simplify_eq|].
  destruct (CreateFile _); [by intros ?; simplify_eq|].
  destruct (ExportTo _ _); [by intros ?; simplify_eq|].
  intros Heq. injection Heq as Heq _. apply Hd in Heq as [<- Heq]. split; [done|]. right. eauto.
Qed.

End sqlite_retention.

(** ** Examples *)

#[export] Instance MatchedRuleRecord_eq_dec : EqDecision MatchedRuleRecord.
Proof. solve_decision. Defined.

#[export] Instance MatchedRuleRecord_countable : Countable MatchedRuleRecord :=
  inj_countable' (fun r => (mrr_PolicyID r, mrr_RuleID r, mrr_Action r, mrr_Reason r, mrr_EvaluationTime r))
    (fun '(p, u, a, s, t) => mkMatchedRuleRecord p u a s t) (fun r => match r with mkMatchedRuleRecord _ _ _ _ _ => eq_refl end).

(** A codec that loses nothing, in place of JSON. *)
Fixpoint bits_text (p : positive) : string :=
  match p with xH => "" | xO p => String "0" (bits_text p) | xI p => String "1" (bits_text p) end.

Fixpoint text_bits (s : string) : positive :=
  match s with
  | EmptyString => xH
  | String c s => if Ascii.eqb c "0" then xO (text_bits s) else xI (text_bits s)
  end.

Lemma text_bits_text p : text_bits (bits_text p) = p.
Proof. induction p as [p IH|p IH|]; simpl; by rewrite ?IH. Qed.

Definition enc {A} `{Countable A} (a : A) : string := String "#" (bits_text (encode a)).
Definition dec {A} `{Countable A} (s : string) : option A :=
  match s with EmptyString => None | String _ s => decode (text_bits s) end.

Lemma dec_enc {A} `{Countable A} (a : A) : dec (enc a) = Some a.
Proof. simpl. by rewrite text_bits_text, decode_encode. Qed.

Definition some_json : Json := {|
  marshal_map := enc; marshal_strings := enc; marshal_rules := enc;
  unmarshal_map := dec; unmarshal_strings := dec; unmarshal_rules := dec;
|}.

Definition some_json_laws : JsonLaws (H := some_json).
Proof.
  refine {| utf8 := fun _ => true |}; intros; first [apply dec_enc | discriminate].
Defined.

Definition ex_full_record : EvidenceRecord :=
  mkEvidenceRecord "a" "req" 1 2 3 4 5 "h" "POST" "/v1" {[ "user-agent" := "curl" ]} "gpt-4" "openai" 2
    "sys" "hi" ["tool"] 10 (of_int 1) 3 4 true ["email"] "block" [mkMatchedRuleRecord "p" "r" "deny" "why" 7]
    "blocked" "v1" (Some (mkPolicyVersionInfo "sha" 1 "main" "repo" "me" "msg")) "rh" 403 "text" "stop"
    1 2 3 (of_int 2) 1234567 "gpt-4" "u" "k" "ip" "" "" 1 fzero.

Lemma sqlite_roundtrip_witness :
  scanRow (H := some_json) (selectStar (storedRow (H := some_json) ex_full_record)) =
    Some (as_stored ex_full_record) /\ er_ProviderLatency (as_stored ex_full_record) = 1000000.
Proof.
  split; [|reflexivity]. apply (sqlite_roundtrip (H0 := some_json_laws) ex_full_record).
  - split_and!; try reflexivity. intros k v Hk. reflexivity.
  - vm_compute. split; congruence.
Defined.

Definition ex_sql_query : Query :=
  mkQuery (Some 1) None "u" "" "" "" "" "" "" (Some fzero) None None None "blocked" 10 0 "actual_cost" "asc".

Lemma where_clause_is_matchesQuery_witness :
  exists cs,
    buildWhereClause ex_sql_query = (join_and (cond_text <$> cs), cs ≫= cond_args) /\
    forallb (cond_holds (storedRow (H := some_json) ex_full_record)) cs = true.
Proof.
  apply (where_clause_is_matchesQuery (H := some_json) ex_sql_query ex_full_record); reflexivity.
Defined.

Lemma sql_text_is_fixed_witness :
  placeholders (fst (buildWhereClause ex_sql_query)) = length (snd (buildWhereClause ex_sql_query)) /\
  fst (buildWhereClause ex_sql_query) =
    "request_time >= ? AND user_id = ? AND actual_cost >= ? AND policy_decision = ?".
Proof.
  pose proof (sql_text_is_fixed ex_sql_query eq_refl) as (Hp & _). split; [exact Hp|reflexivity].
Defined.

(** A table that answers the pruner's statements. *)
Definition toy_db : SqlDB (list EvidenceRecord) := {|
  db_query stmt args db :=
    Ok (take 100 ((fun r => bound <$> insertArgs (H := some_json) r) <$> db), None);
  db_exec stmt args db := (Ok (Z.of_nat (length db)), []);
  db_scalar stmt args db := Ok (Z.of_nat (length db));
  db_close db := (None, db);
|}.

Lemma sqlite_count_limit_not_enforced_witness :
  exists r, pruneByCount (St_ops := sqlite_storage (H := some_json) (H0 := toy_db)) (H := utc_calendar) (H0 := quiet_os)
      (ex_config 0 100 false) undisturbed (replicate 150 (ex_record "a" "u" 10), ∅) (fun _ => 0) 0%nat =
    (Some (r, (replicate 150 (ex_record "a" "u" 10), ∅)), 0%nat) /\ (r = Ok 0 \/ exists e, r = Err e).
Proof.
  apply (sqlite_count_limit_not_enforced (H := some_json) (H0 := toy_db) (H1 := utc_calendar) (H2 := quiet_os)).
  - intros rows e Hq. injection Hq as <- <-. vm_compute. lia.
  - vm_compute. split; congruence.
Defined.

Lemma sqlite_age_archive_truncated_witness :
  exists db' fs' j,
    pruneByAge (St_ops := sqlite_storage (H := some_json) (H0 := toy_db)) (H := utc_calendar) (H0 := quiet_os)
      (ex_config 1 0 true) undisturbed (replicate 150 (ex_record "a" "u" 10), ∅) (fun _ => 24 * Hour + 15) 0%nat =
      (Some (Ok 150, (db', fs')), j) /\
    (fs' = ∅ \/ exists l, fs' = <["archives/evidence-1.json" := l]> ∅ /\ (length l <= 100)%nat).
Proof.
  assert (Ht : aged (pruneByAge (St_ops := sqlite_storage (H := some_json) (H0 := toy_db)) (H := utc_calendar)
      (H0 := quiet_os) (ex_config 1 0 true) undisturbed (replicate 150 (ex_record "a" "u" 10), ∅)
      (fun _ => 24 * Hour + 15) 0%nat) = Some 150) by (vm_compute; reflexivity).
  destruct (pruneByAge (St_ops := sqlite_storage (H := some_json) (H0 := toy_db)) (H := utc_calendar) (H0 := quiet_os)
      (ex_config 1 0 true) undisturbed (replicate 150 (ex_record "a" "u" 10), ∅) (fun _ => 24 * Hour + 15) 0%nat)
    as [[[[n|e] [db' fs']]|] j] eqn:Hp; cbv [aged fst] in Ht; [|discriminate Ht..].
  injection Ht as ->. exists db', fs', j. split; [reflexivity|].
  refine (proj2 (sqlite_age_archive_truncated (H := some_json) (H0 := toy_db) (H1 := utc_calendar) (H2 := quiet_os)
    (ex_config 1 0 true) (replicate 150 (ex_record "a" "u" 10)) ∅ (fun _ => 24 * Hour + 15) 0%nat 150 db' fs' j
    _ eq_refl Hp)).
  intros rows e Hq. injection Hq as <- <-. vm_compute. lia.
Defined.
