(* ===== verification/ProviderTypes.v ===== *)
(** * Provider requests, responses and errors ([pkg/providers/types.go],
    [errors.go])

    The neutral request and response that provider clients exchange with the
    proxy, and the error types of the whole request path as one inductive type,
    with the chain that [errors.As] walks.  Quoting ([%q]) and the text of a
    duration are parameters ([Fmt]). *)

From Stdlib Require Import ZArith Lia.
From stdpp Require Import base option list strings gmap pretty.
From S2P Require Import Prelude Float64 GoValue.
Local Open Scope string_scope.
Local Open Scope Z_scope.

(** ** Data *)

Record FunctionCall := mkFunctionCall { fc_Name : string; fc_Arguments : string }.

Record ToolCall := mkToolCall { tc_ID : string; tc_Type : string; tc_Function : FunctionCall }.

Record FunctionDefinition := mkFunctionDefinition {
  fd_Name : string;
  fd_Description : string;
  fd_Parameters : option (list (string * GoValue));
}.

Record Tool := mkTool { tool_Type : string; tool_Function : FunctionDefinition }.

(** [providers.Message]: the content is text. *)
Record PMessage := mkPMessage {
  pm_Role : string;
  pm_Content : string;
  pm_Name : string;
  pm_ToolCalls : list ToolCall;
  pm_ToolCallID : string;
}.

(** [providers.TokenUsage] *)
Record PUsage := mkPUsage { pu_PromptTokens : Z; pu_CompletionTokens : Z; pu_TotalTokens : Z }.

(** [providers.CompletionRequest] *)
Record PRequest := mkPRequest {
  pr_Model : string;
  pr_Messages : list PMessage;
  pr_Temperature : float64;
  pr_MaxTokens : Z;
  pr_TopP : float64;
  pr_Stream : bool;
  pr_Tools : list Tool;
  pr_ToolChoice : GoValue;
  pr_Stop : list string;
  pr_PresencePenalty : float64;
  pr_FrequencyPenalty : float64;
  pr_User : string;
}.

(** [providers.CompletionResponse] *)
Record PResponse := mkPResponse {
  ps_ID : string;
  ps_Model : string;
  ps_Content : string;
  ps_FinishReason : string;
  ps_Usage : PUsage;
  ps_ToolCalls : list ToolCall;
  ps_Created : Z;
  ps_Metadata : list (string * string);
}.

(** ** Errors *)

Inductive GoErr :=
| RequestError (message code param : string)
| ProviderError (provider : string) (status : Z) (message : string) (cause : option GoErr)
| AuthError (provider message : string)
| RateLimitError (provider : string) (retryAfter : Duration) (message : string)
| TimeoutErr (provider : string) (timeout : Duration)
| ParseError (provider rawResponse : string) (cause : option GoErr)
| ModelNotFoundError (provider model : string)
| PValidationError (field message : string)
| StreamError (provider message : string) (cause : option GoErr)
| ConfigError (provider field message : string)
| WrapError (message : string) (cause : GoErr)
| OtherError (message : string).

(** [providers.StreamChunk] *)
Record StreamChunk := mkStreamChunk {
  sc_ID : string;
  sc_Model : string;
  sc_Delta : string;
  sc_FinishReason : string;
  sc_ToolCalls : list ToolCall;
  sc_Usage : option PUsage;
  sc_Error : option GoErr;
  sc_Created : Z;
}.

Class Fmt : Type := {
  Quote : string -> string;
  DurationString : Duration -> string;
}.

(** The [Error] methods; [fmt.Errorf("m: %w", err)] is [WrapError]. *)
Fixpoint errorText `{Fmt} (e : GoErr) : string :=
  let opt c := match c with Some c => errorText c | None => "<nil>" end in
  match e with
  | RequestError m _ _ => m
  | ProviderError p s m _ =>
      if 0 <? s then "provider " +:+ Quote p +:+ " error (status " +:+ pretty s +:+ "): " +:+ m
      else "provider " +:+ Quote p +:+ " error: " +:+ m
  | AuthError p m => "provider " +:+ Quote p +:+ " authentication failed: " +:+ m
  | RateLimitError p r m =>
      if 0 <? r then "provider " +:+ Quote p +:+ " rate limit exceeded (retry after " +:+
                     DurationString r +:+ "): " +:+ m
      else "provider " +:+ Quote p +:+ " rate limit exceeded: " +:+ m
  | TimeoutErr p t => "provider " +:+ Quote p +:+ " request timeout after " +:+ DurationString t
  | ParseError p _ c => "provider " +:+ Quote p +:+ " response parse error: " +:+ opt c
  | ModelNotFoundError p m => "provider " +:+ Quote p +:+ " does not support model " +:+ Quote m
  | PValidationError f m => "validation error for field " +:+ Quote f +:+ ": " +:+ m
  | StreamError p m (Some c) =>
      "provider " +:+ Quote p +:+ " stream error: " +:+ m +:+ ": " +:+ errorText c
  | StreamError p m None => "provider " +:+ Quote p +:+ " stream error: " +:+ m
  | ConfigError p f m =>
      "provider " +:+ Quote p +:+ " configuration error for field " +:+ Quote f +:+ ": " +:+ m
  | WrapError m c => m +:+ ": " +:+ errorText c
  | OtherError m => m
  end.

(** [errors.As]: the first error of the [Unwrap] chain that the target type
    accepts. *)
Fixpoint errors_As {A} (target : GoErr -> option A) (e : GoErr) : option A :=
  match target e with
  | Some a => Some a
  | None =>
      match e with
      | ProviderError _ _ _ (Some c) | ParseError _ _ (Some c) | StreamError _ _ (Some c)
      | WrapError _ c => errors_As target c
      | _ => None
      end
  end.

(** The errors an error wraps, itself first. *)
Fixpoint chain (e : GoErr) : list GoErr :=
  e :: match e with
       | ProviderError _ _ _ (Some c) | ParseError _ _ (Some c) | StreamError _ _ (Some c)
       | WrapError _ c => chain c
       | _ => []
       end.

Lemma errors_As_chain {A} (target : GoErr -> option A) e :
  errors_As target e = head (omap target (chain e)).
Proof.
  revert e. fix IH 1. intros e.
  destruct e as [| ? ? ? [c|] | | | | ? ? [c|] | | | ? ? [c|] | | ? c |]; simpl;
    match goal with |- context [target ?x] => destruct (target x) end; simpl; done || apply IH.
Qed.

Lemma errors_As_None {A} (target : GoErr -> option A) e :
  errors_As target e = None <-> forall x, x ∈ chain e -> target x = None.
Proof.
  rewrite errors_As_chain. induction (chain e) as [|x l IH]; simpl.
  - split; [|done]. intros _ x Hx. by apply not_elem_of_nil in Hx.
  - destruct (target x) eqn:Hx; simpl.
    + split; [done|]. intros Hn. specialize (Hn x ltac:(left)). congruence.
    + rewrite IH. split.
      * intros Hn y [->|Hy]%elem_of_cons; auto.
      * intros Hn y Hy. apply Hn. by right.
Qed.
