(* ===== verification/ProxyTypes.v ===== *)
(** * Proxy request and response types ([pkg/proxy/types], [pkg/proxy/request.go],
    [metadata.go])

    The OpenAI-compatible request and response, their validation, the error
    responses with their status codes, and what the proxy reads off an HTTP
    request. *)

From Stdlib Require Import ZArith Lia Ascii.
From stdpp Require Import base option list strings gmap pretty.
From S2P Require Import Prelude Float64 GoValue PolicyContext ProviderTypes.
Local Open Scope string_scope.
Local Open Scope Z_scope.

(** ** Requests *)

(** [types.Message]: the content is a string, an array of parts, or nil. *)
Record Message := mkMessage {
  m_Role : string;
  m_Content : GoValue;
  m_Name : string;
  m_ToolCalls : list ToolCall;
  m_ToolCallID : string;
}.

(** [types.ChatCompletionRequest] with typed messages and tools. *)
Record ChatRequest := mkChatRequest {
  cq_Model : string;
  cq_Messages : list Message;
  cq_Temperature : option float64;
  cq_MaxTokens : option Z;
  cq_TopP : option float64;
  cq_N : option Z;
  cq_Stream : bool;
  cq_Stop : list string;
  cq_PresencePenalty : option float64;
  cq_FrequencyPenalty : option float64;
  cq_User : string;
  cq_Tools : list Tool;
  cq_ToolChoice : GoValue;
  cq_ResponseFormat : option string;
  cq_Seed : option Z;
}.

(** Its reflection, for the policy engine. *)
Definition reflect_ToolCall (t : ToolCall) : GoValue :=
  VStruct "types.ToolCall" [
    ("ID", VString (tc_ID t)); ("Type", VString (tc_Type t));
    ("Function", VStruct "types.FunctionCall" [
       ("Name", VString (fc_Name (tc_Function t))); ("Arguments", VString (fc_Arguments (tc_Function t)))]) ].

Definition reflect_Message (m : Message) : GoValue :=
  VStruct "types.Message" [
    ("Role", VString (m_Role m)); ("Content", m_Content m); ("Name", VString (m_Name m));
    ("ToolCalls", VSlice "[]types.ToolCall" (reflect_ToolCall <$> m_ToolCalls m));
    ("ToolCallID", VString (m_ToolCallID m)) ].

Definition reflect_Tool (t : Tool) : GoValue :=
  VStruct "types.Tool" [
    ("Type", VString (tool_Type t));
    ("Function", VStruct "types.FunctionDefinition" [
       ("Name", VString (fd_Name (tool_Function t)));
       ("Description", VString (fd_Description (tool_Function t)));
       ("Parameters", VMap "map[string]interface {}" (default [] (fd_Parameters (tool_Function t))))]) ].

Definition engine_request (r : ChatRequest) : ChatCompletionRequest :=
  mkChatCompletionRequest (cq_Model r) (VSlice "[]types.Message" (reflect_Message <$> cq_Messages r))
    (cq_Temperature r) (cq_MaxTokens r) (cq_TopP r) (cq_N r) (cq_Stream r) (cq_Stop r)
    (cq_PresencePenalty r) (cq_FrequencyPenalty r) (cq_User r)
    (VSlice "[]types.Tool" (reflect_Tool <$> cq_Tools r)) (cq_ToolChoice r)
    (VPtr "*types.ResponseFormat" ((fun t => VStruct "types.ResponseFormat" [("Type", VString t)]) <$> cq_ResponseFormat r))
    (cq_Seed r).

Record ValidationError := mkValidationError { ve_Field : string; ve_Message : string }.

(** [string(rune(i))]: the UTF-8 text of the code point [i]; what is not a code
    point becomes the replacement character. *)
Definition byte (z : Z) : string := String (ascii_of_nat (Z.to_nat z)) EmptyString.

Definition string_of_rune (i : Z) : string :=
  if (i <? 0) || (0x10FFFF <? i) || ((0xD800 <=? i) && (i <=? 0xDFFF)) then byte 0xEF +:+ byte 0xBF +:+ byte 0xBD
  else if i <? 0x80 then byte i
  else if i <? 0x800 then byte (0xC0 + i / 0x40) +:+ byte (0x80 + i mod 0x40)
  else if i <? 0x10000 then byte (0xE0 + i / 0x1000) +:+ byte (0x80 + (i / 0x40) mod 0x40) +:+ byte (0x80 + i mod 0x40)
  else byte (0xF0 + i / 0x40000) +:+ byte (0x80 + (i / 0x1000) mod 0x40) +:+ byte (0x80 + (i / 0x40) mod 0x40)
       +:+ byte (0x80 + i mod 0x40).

(** A pointer that is set to a value outside the bounds. *)
Definition out_of_range (o : option float64) (lo hi : float64) : bool :=
  match o with Some f => flt f lo || flt hi f | None => false end.

Definition below_one (o : option Z) : bool := match o with Some n => n <? 1 | None => false end.

Fixpoint validateMessages (i : Z) (l : list Message) : option ValidationError :=
  match l with
  | [] => None
  | m :: l =>
      if String.eqb (m_Role m) "" then
        Some (mkValidationError ("messages[" +:+ string_of_rune i +:+ "].role") "message role is required")
      else if match m_Content m with VNil => true | _ => false end && (length (m_ToolCalls m) =? 0)%nat then
        Some (mkValidationError ("messages[" +:+ string_of_rune i +:+ "].content")
                "message content is required when no tool_calls present")
      else validateMessages (i + 1) l
  end.

Definition Validate_request (r : ChatRequest) : option ValidationError :=
  if String.eqb (cq_Model r) "" then Some (mkValidationError "model" "model is required")
  else if (length (cq_Messages r) =? 0)%nat then
    Some (mkValidationError "messages" "messages must contain at least one message")
  else if out_of_range (cq_Temperature r) (of_int 0) (of_int 2) then
    Some (mkValidationError "temperature" "temperature must be between 0.0 and 2.0")
  else if out_of_range (cq_TopP r) (of_int 0) (of_int 1) then
    Some (mkValidationError "top_p" "top_p must be between 0.0 and 1.0")
  else if below_one (cq_MaxTokens r) then
    Some (mkValidationError "max_tokens" "max_tokens must be greater than 0")
  else if below_one (cq_N r) then Some (mkValidationError "n" "n must be greater than 0")
  else if (4 <? length (cq_Stop r))%nat then
    Some (mkValidationError "stop" "stop sequences must not exceed 4")
  else if out_of_range (cq_PresencePenalty r) (of_int (-2)) (of_int 2) then
    Some (mkValidationError "presence_penalty" "presence_penalty must be between -2.0 and 2.0")
  else if out_of_range (cq_FrequencyPenalty r) (of_int (-2)) (of_int 2) then
    Some (mkValidationError "frequency_penalty" "frequency_penalty must be between -2.0 and 2.0")
  else validateMessages 0 (cq_Messages r).

(** ** Responses *)

Record Usage := mkUsage { u_PromptTokens : Z; u_CompletionTokens : Z; u_TotalTokens : Z }.

Record Choice := mkChoice { ch_Index : Z; ch_Message : Message; ch_FinishReason : string }.

Record ChatCompletionResponse := mkChatCompletionResponse {
  resp_ID : string;
  resp_Object : string;
  resp_Created : Z;
  resp_Model : string;
  resp_Choices : list Choice;
  resp_Usage : Usage;
}.

Record Delta := mkDelta { d_Role : string; d_Content : string; d_ToolCalls : list ToolCall }.

Record StreamChoice := mkStreamChoice { sch_Index : Z; sch_Delta : Delta; sch_FinishReason : option string }.

Record ChatCompletionStreamChunk := mkChatCompletionStreamChunk {
  chunk_ID : string;
  chunk_Object : string;
  chunk_Created : Z;
  chunk_Model : string;
  chunk_Choices : list StreamChoice;
}.

(** ** Error responses *)

Record ErrorDetail := mkErrorDetail {
  ed_Message : string;
  ed_Type : string;
  ed_Param : string;
  ed_Code : string;
}.

Definition ErrorTypeInvalidRequest : string := "invalid_request_error".
Definition ErrorTypeAuthentication : string := "authentication_error".
Definition ErrorTypePermissionDenied : string := "permission_denied".
Definition ErrorTypeNotFound : string := "not_found".
Definition ErrorTypeRateLimitExceeded : string := "rate_limit_exceeded".
Definition ErrorTypeServerError : string := "server_error".
Definition ErrorTypeBadGateway : string := "bad_gateway".
Definition ErrorTypeServiceUnavailable : string := "service_unavailable".
Definition ErrorTypeGatewayTimeout : string := "gateway_timeout".

Definition CodeInvalidValue : string := "invalid_value".
Definition CodeInvalidJSON : string := "invalid_json".
Definition CodeModelNotFound : string := "model_not_found".
Definition CodeProviderError : string := "provider_error".
Definition CodeProviderTimeout : string := "provider_timeout".
Definition CodeProviderUnavailable : string := "provider_unavailable".
Definition CodeRequestTooLarge : string := "request_too_large".
Definition CodeInternalError : string := "internal_error".

Definition NewErrorResponse (message errorType param code : string) : ErrorDetail :=
  mkErrorDetail message errorType param code.

Definition NewInvalidRequestError (message param code : string) : ErrorDetail :=
  NewErrorResponse message ErrorTypeInvalidRequest param code.

Definition NewServerError (message : string) : ErrorDetail :=
  NewErrorResponse message ErrorTypeServerError "" CodeInternalError.

Definition NewBadGatewayError (message : string) : ErrorDetail :=
  NewErrorResponse message ErrorTypeBadGateway "" CodeProviderError.

Definition NewServiceUnavailableError (message : string) : ErrorDetail :=
  NewErrorResponse message ErrorTypeServiceUnavailable "" CodeProviderUnavailable.

Definition NewGatewayTimeoutError (message : string) : ErrorDetail :=
  NewErrorResponse message ErrorTypeGatewayTimeout "" CodeProviderTimeout.

Definition HTTPStatusCode (e : ErrorDetail) : Z :=
  let t := ed_Type e in
  if String.eqb t ErrorTypeInvalidRequest then 400
  else if String.eqb t ErrorTypeAuthentication then 401
  else if String.eqb t ErrorTypePermissionDenied then 403
  else if String.eqb t ErrorTypeNotFound then 404
  else if String.eqb t ErrorTypeRateLimitExceeded then 429
  else if String.eqb t ErrorTypeServerError then 500
  else if String.eqb t ErrorTypeBadGateway then 502
  else if String.eqb t ErrorTypeServiceUnavailable then 503
  else if String.eqb t ErrorTypeGatewayTimeout then 504
  else 500.

(** ** HTTP requests

    The parts the proxy looks at.  [Header.Get] of the canonical name. *)
Record HttpRequest := mkHttpRequest {
  h_Method : string;
  h_Path : string;
  h_Header : string -> string;
  h_UserAgent : string;
  h_RemoteAddr : string;
  h_Body : result string string;
}.

Definition AuthorizationHeader : string := "Authorization".
Definition UserIDHeader : string := "X-User-ID".
Definition RequestIDHeader : string := "X-Request-ID".

(** [strings.SplitN(s, " ", 2)] when it has two parts. *)
Fixpoint split_space (s : string) : option (string * string) :=
  match s with
  | EmptyString => None
  | String c s =>
      if Ascii.eqb c " "%char then Some ("", s)
      else match split_space s with Some (a, b) => Some (String c a, b) | None => None end
  end.

Fixpoint ToLower (s : string) : string :=
  match s with EmptyString => "" | String c s => String (lower c) (ToLower s) end.

(** White space as [unicode.IsSpace] has it for ASCII: TAB, LF, VT, FF, CR and
    space. *)
Definition is_space (c : ascii) : bool :=
  let n := Z.of_nat (nat_of_ascii c) in ((9 <=? n) && (n <=? 13)) || (n =? 32).

Fixpoint TrimLeft (s : string) : string :=
  match s with
  | String c s' => if is_space c then TrimLeft s' else s
  | EmptyString => ""
  end.

Fixpoint string_rev (s acc : string) : string :=
  match s with EmptyString => acc | String c s => string_rev s (String c acc) end.

Definition TrimSpace (s : string) : string := string_rev (TrimLeft (string_rev (TrimLeft s) "")) "".

Definition ExtractAPIKey (r : HttpRequest) : string :=
  let authHeader := h_Header r AuthorizationHeader in
  if String.eqb authHeader "" then ""
  else match split_space authHeader with
       | Some (scheme, key) => if String.eqb (ToLower scheme) "bearer" then TrimSpace key else ""
       | None => ""
       end.

Definition ExtractUserID (r : HttpRequest) : string := h_Header r UserIDHeader.
Definition ExtractRequestID (r : HttpRequest) : string := h_Header r RequestIDHeader.

(** ** Metadata *)

Record RequestMetadata := mkRequestMetadata {
  rm_RequestID : string;
  rm_Model : string;
  rm_Messages : list Message;
  rm_Stream : bool;
  rm_MaxTokens : Z;
  rm_Temperature : float64;
  rm_UserID : string;
  rm_APIKey : string;
  rm_Method : string;
  rm_Path : string;
  rm_UserAgent : string;
  rm_RemoteAddr : string;
  rm_Timestamp : Time;
}.

Record ResponseMetadata := mkResponseMetadata {
  sm_RequestID : string;
  sm_StatusCode : Z;
  sm_Latency : Duration;
  sm_ProviderName : string;
  sm_ProviderLatency : Duration;
  sm_TokensPrompt : Z;
  sm_TokensCompletion : Z;
  sm_TokensTotal : Z;
  sm_FinishReason : string;
  sm_Error : option GoErr;
  sm_Timestamp : Time;
}.

(** [s[lo:hi]] on strings; out of range is a panic. *)
Definition substr (lo hi : Z) (s : string) : option string :=
  if (0 <=? lo) && (lo <=? hi) && (hi <=? Z.of_nat (String.length s))
  then Some (String.substring (Z.to_nat lo) (Z.to_nat (hi - lo)) s) else None.

Definition slen (s : string) : Z := Z.of_nat (String.length s).

(** [proxy.RedactAPIKey] *)
Definition RedactAPIKey (apiKey : string) : option string :=
  if String.eqb apiKey "" then Some ""
  else if slen apiKey <? 12 then Some "***"
  else
    a ← substr 0 7 apiKey;
    b ← substr (slen apiKey - 4) (slen apiKey) apiKey;
    Some (a +:+ "..." +:+ b).

Definition ExtractRequestMetadata (now : Time) (r : HttpRequest) (req : ChatRequest) : option RequestMetadata :=
  key ← RedactAPIKey (ExtractAPIKey r);
  Some (mkRequestMetadata (ExtractRequestID r) (cq_Model req) (cq_Messages req) (cq_Stream req)
    (default 0 (cq_MaxTokens req)) (default (of_int 1) (cq_Temperature req))
    (ExtractUserID r) key (h_Method r) (h_Path r) (h_UserAgent r) (h_RemoteAddr r) now).

Definition ExtractResponseMetadata (now : Time) (requestID : string) (resp : PResponse) (latency : Duration)
    (providerName : string) : ResponseMetadata :=
  mkResponseMetadata requestID 200 latency providerName 0
    (pu_PromptTokens (ps_Usage resp)) (pu_CompletionTokens (ps_Usage resp)) (pu_TotalTokens (ps_Usage resp))
    (ps_FinishReason resp) None now.

Definition ExtractErrorMetadata (now : Time) (requestID : string) (statusCode : Z) (err : GoErr)
    (latency : Duration) : ResponseMetadata :=
  mkResponseMetadata requestID statusCode latency "" 0 0 0 0 "" (Some err) now.

Definition EstimatedPromptTokens (m : RequestMetadata) : Z :=
  let add total msg :=
    match m_Content msg with VString s => add64 total (slen s) | _ => total end in
  Z.quot (foldl add 0 (rm_Messages m)) 4.

Definition TokenEfficiency_meta (m : ResponseMetadata) : float64 :=
  if sm_TokensTotal m =? 0 then fzero
  else fdiv (of_int (sm_TokensCompletion m)) (of_int (sm_TokensTotal m)).

Definition IsSuccess (m : ResponseMetadata) : bool := (200 <=? sm_StatusCode m) && (sm_StatusCode m <? 300).

Definition IsError (m : ResponseMetadata) : bool :=
  match sm_Error m with Some _ => true | None => 400 <=? sm_StatusCode m end.
