(* ===== verification/ProxyHandlers.v ===== *)
(** * The chat completion handler ([pkg/proxy/handlers/chat.go], [request.go],
    [response.go], [errors.go] of [pkg/proxy])

    From the HTTP request to the bytes of the answer: parsing and validation,
    the choice of a healthy provider, the conversion to the provider's format,
    and the plain or streamed reply.  What is written to the client is a list of
    events.  Providers, JSON decoding, the clock and the failures of the
    connection are parameters; log statements are left out. *)

From Stdlib Require Import ZArith Lia Ascii.
From stdpp Require Import base option list strings gmap pretty.
From S2P Require Import Prelude Float64 GoValue ProviderTypes ProxyTypes.
Local Open Scope string_scope.
Local Open Scope Z_scope.

(** ** Parsing *)

Definition MaxRequestBodySize : Z := 10 * 1024 * 1024.

(** [json.Unmarshal] into a request. *)
Class JsonRequest : Type := { unmarshal_request : string -> result string ChatRequest }.

(** [ReadAll] of a [LimitReader]: the first [n] bytes. *)
Definition limitRead (n : Z) (body : string) : string := String.substring 0 (Z.to_nat n) body.

Definition ParseChatCompletionRequest `{JsonRequest} (r : HttpRequest) : result GoErr ChatRequest :=
  match h_Body r with
  | Err m => Err (WrapError "failed to read request body" (OtherError m))
  | Ok whole =>
      let body := limitRead MaxRequestBodySize whole in
      if MaxRequestBodySize <=? slen body then
        Err (RequestError ("request body exceeds maximum size of " +:+ pretty MaxRequestBodySize +:+ " bytes")
               CodeRequestTooLarge "body")
      else match unmarshal_request body with
           | Err m => Err (RequestError ("invalid JSON: " +:+ m) CodeInvalidJSON "body")
           | Ok req =>
               match Validate_request req with
               | Some e => Err (RequestError (ve_Message e) CodeInvalidValue (ve_Field e))
               | None => Ok req
               end
           end
  end.

(** ** Errors *)

Section errors.
Context `{Fmt}.

Definition ToErrorResponse (message code param : string) : ErrorDetail :=
  NewInvalidRequestError message param code.

Definition handleProviderError (provider : string) (status : Z) (message : string) : ErrorDetail :=
  if 500 <=? status then NewBadGatewayError ("Provider error (" +:+ provider +:+ "): " +:+ message)
  else if status =? 429 then
    NewErrorResponse ("Provider rate limit exceeded (" +:+ provider +:+ ")") ErrorTypeRateLimitExceeded ""
      "rate_limit_exceeded"
  else if status =? 404 then
    NewInvalidRequestError ("Model not found (" +:+ provider +:+ ")") "model" CodeModelNotFound
  else if (status =? 401) || (status =? 403) then
    NewErrorResponse ("Provider authentication failed (" +:+ provider +:+ ")") ErrorTypeAuthentication ""
      "authentication_failed"
  else if 400 <=? status then
    NewInvalidRequestError ("Invalid request to provider (" +:+ provider +:+ "): " +:+ message) "" CodeInvalidValue
  else NewServerError ("Provider error (" +:+ provider +:+ "): " +:+ message).

(** The targets of [errors.As]. *)
Definition asRequestError (e : GoErr) : option ErrorDetail :=
  match e with RequestError m c p => Some (ToErrorResponse m c p) | _ => None end.
Definition asProviderError (e : GoErr) : option ErrorDetail :=
  match e with ProviderError p s m _ => Some (handleProviderError p s m) | _ => None end.
Definition asAuthError (e : GoErr) : option ErrorDetail :=
  match e with
  | AuthError _ _ => Some (NewErrorResponse (errorText e) ErrorTypeAuthentication "" "authentication_failed")
  | _ => None
  end.
Definition asRateLimitError (e : GoErr) : option ErrorDetail :=
  match e with
  | RateLimitError _ _ _ => Some (NewErrorResponse (errorText e) ErrorTypeRateLimitExceeded "" "rate_limit_exceeded")
  | _ => None
  end.
Definition asTimeoutError (e : GoErr) : option ErrorDetail :=
  match e with
  | TimeoutErr _ _ => Some (NewGatewayTimeoutError ("Provider request timed out: " +:+ errorText e))
  | _ => None
  end.
Definition asParseError (e : GoErr) : option ErrorDetail :=
  match e with
  | ParseError _ _ _ => Some (NewBadGatewayError ("Failed to parse provider response: " +:+ errorText e))
  | _ => None
  end.
Definition asModelNotFoundError (e : GoErr) : option ErrorDetail :=
  match e with
  | ModelNotFoundError _ _ => Some (NewInvalidRequestError (errorText e) "model" CodeModelNotFound)
  | _ => None
  end.

Definition internalError : ErrorDetail :=
  NewServerError "An internal error occurred. Please try again later.".

Fixpoint firstTarget (targets : list (GoErr -> option ErrorDetail)) (e : GoErr) : ErrorDetail :=
  match targets with
  | [] => internalError
  | t :: targets => match errors_As t e with Some d => d | None => firstTarget targets e end
  end.

Definition HandleError (e : GoErr) : ErrorDetail :=
  firstTarget [asRequestError; asProviderError; asAuthError; asRateLimitError; asTimeoutError;
               asParseError; asModelNotFoundError] e.

End errors.

(** ** Conversion to the provider's request *)

(** [fmt.Sprintf("%v", x)] *)
Class FmtValue : Type := { Sprint : GoValue -> string }.

Fixpoint join_space (i : nat) (result : string) (l : list string) : string :=
  match l with
  | [] => result
  | p :: l => join_space (S i) ((match i with O => result | S _ => result +:+ " " end) +:+ p) l
  end.

(** The text of one part: a map with type ["text"] and a string under ["text"]. *)
Definition textPart (part : GoValue) : option string :=
  match part with
  | VMap ty m =>
      if String.eqb ty "map[string]interface {}" then
        match assoc "type" m with
        | Some (VString t) =>
            if String.eqb t "text" then match assoc "text" m with Some (VString s) => Some s | _ => None end
            else None
        | _ => None
        end
      else None
  | _ => None
  end.

Definition convertMultimodalContent (parts : list GoValue) : string :=
  match omap textPart parts with
  | [] => ""
  | textParts => join_space 0 "" textParts
  end.

Section convert.
Context `{FmtValue}.

Definition convertMessageContent (content : GoValue) : string :=
  match content with
  | VNil => ""
  | VString s => s
  | VSlice "[]interface {}" parts => convertMultimodalContent parts
  | _ => Sprint content
  end.

(** [convertToolCalls] of [chat.go]: field by field. *)
Definition toProviderToolCalls (l : list ToolCall) : list ToolCall :=
  (fun tc => mkToolCall (tc_ID tc) (tc_Type tc)
     (mkFunctionCall (fc_Name (tc_Function tc)) (fc_Arguments (tc_Function tc)))) <$> l.

Definition convertTools (l : list Tool) : list Tool :=
  (fun t => mkTool (tool_Type t) (mkFunctionDefinition (fd_Name (tool_Function t))
     (fd_Description (tool_Function t)) (fd_Parameters (tool_Function t)))) <$> l.

Definition convertMessage (m : Message) : PMessage :=
  mkPMessage (m_Role m) (convertMessageContent (m_Content m)) (m_Name m)
    (toProviderToolCalls (m_ToolCalls m)) (m_ToolCallID m).

Definition convertToProviderRequest (req : ChatRequest) : PRequest :=
  mkPRequest (cq_Model req) (convertMessage <$> cq_Messages req)
    (default fzero (cq_Temperature req)) (default 0 (cq_MaxTokens req)) (default fzero (cq_TopP req))
    (cq_Stream req) (convertTools (cq_Tools req)) (cq_ToolChoice req) (cq_Stop req)
    (default fzero (cq_PresencePenalty req)) (default fzero (cq_FrequencyPenalty req)) (cq_User req).

End convert.

(** ** Choosing a provider *)

(** What a handler uses of a provider.  A stream delivers its chunks and is
    then closed. *)
Record ProviderImpl := mkProviderImpl {
  GetName : string;
  SendCompletion : PRequest -> result GoErr PResponse;
  StreamCompletion : PRequest -> result GoErr (list StreamChunk);
}.

Definition modelPrefixes : gmap string string :=
  list_to_map [("gpt-", "openai"); ("gpt4", "openai"); ("text-davinci", "openai");
    ("claude-", "anthropic"); ("anthropic.", "anthropic"); ("gemini-", "google");
    ("command", "cohere"); ("mistral-", "mistral"); ("llama-", "meta"); ("mixtral", "mistral")].

Section select.
Context `{MapRange}.

(** The loop over the prefix table, in the order of this iteration. *)
Fixpoint prefixLoop (healthy : gmap string ProviderImpl) (model : string) (l : list (string * string)) :
    option ProviderImpl :=
  match l with
  | [] => None
  | (prefix, name) :: l =>
      if HasPrefix model prefix then
        match healthy !! name with Some p => Some p | None => prefixLoop healthy model l end
      else prefixLoop healthy model l
  end.

Definition selectProviderByModel (healthy : gmap string ProviderImpl) (model : string) : option ProviderImpl :=
  prefixLoop healthy model (range modelPrefixes).

Definition selectProviderFromManager (healthy : gmap string ProviderImpl) (req : ChatRequest) :
    result GoErr ProviderImpl :=
  match range healthy with
  | [] => Err (ProviderError "none" 503 "No healthy providers available" None)
  | (_, first) :: _ =>
      match selectProviderByModel healthy (cq_Model req) with
      | Some p => Ok p
      | None => Ok first
      end
  end.

End select.

(** ** Replies *)

Definition convertToolCalls (l : list ToolCall) : list ToolCall :=
  (fun tc => mkToolCall (tc_ID tc) "function"
     (mkFunctionCall (fc_Name (tc_Function tc)) (fc_Arguments (tc_Function tc)))) <$> l.

Definition FormatChatCompletionResponse (unix : Z) (resp : PResponse) (requestedModel : string) :
    ChatCompletionResponse :=
  mkChatCompletionResponse ("chatcmpl-" +:+ ps_ID resp) "chat.completion" unix requestedModel
    [mkChoice 0 (mkMessage "assistant" (VString (ps_Content resp)) "" (convertToolCalls (ps_ToolCalls resp)) "")
       (ps_FinishReason resp)]
    (mkUsage (pu_PromptTokens (ps_Usage resp)) (pu_CompletionTokens (ps_Usage resp)) (pu_TotalTokens (ps_Usage resp))).

Definition FormatStreamChunk (unix : Z) (chunk : StreamChunk) (requestedModel responseID : string) :
    ChatCompletionStreamChunk :=
  let responseID := if String.eqb responseID "" then "chatcmpl-" +:+ sc_ID chunk else responseID in
  mkChatCompletionStreamChunk responseID "chat.completion.chunk" unix requestedModel
    [mkStreamChoice 0 (mkDelta "" (sc_Delta chunk) (convertToolCalls (sc_ToolCalls chunk)))
       (if String.eqb (sc_FinishReason chunk) "" then None else Some (sc_FinishReason chunk))].

(** What reaches the client. *)
Inductive Event :=
| EHeader (k v : string)
| EStatus (code : Z)
| EError (d : ErrorDetail)
| EReply (r : ChatCompletionResponse)
| EChunk (c : ChatCompletionStreamChunk)
| EChunkError (d : ErrorDetail)
| EDone
| EFlush.

Definition WriteErrorResponse (d : ErrorDetail) : list Event :=
  [EHeader "Content-Type" "application/json"; EStatus (HTTPStatusCode d); EError d].

Definition WriteReply (r : ChatCompletionResponse) : list Event :=
  [EHeader "Content-Type" "application/json"; EStatus 200; EReply r].

Definition SetSSEHeaders : list Event :=
  [EHeader "Content-Type" "text/event-stream"; EHeader "Cache-Control" "no-cache";
   EHeader "Connection" "keep-alive"; EHeader "Transfer-Encoding" "chunked"].

(** The connection of a streamed reply: whether the writer can flush, whether
    the write of the [n]-th chunk fails, and whether the client is gone after
    it; and the clock in Unix seconds at each reading. *)
Record Conn := mkConn {
  c_flusher : bool;
  c_write_fails : nat -> bool;
  c_client_gone : nat -> bool;
  c_unix : nat -> Z;
}.

Section handler.
Context `{JsonRequest} `{Fmt} `{FmtValue} `{MapRange}.
Variable conn : Conn.

Definition flush : list Event := if c_flusher conn then [EFlush] else [].

(** The loop over the chunks: events, and whether the end marker follows. *)
Fixpoint streamChunks (model responseID : string) (n : nat) (l : list StreamChunk) : list Event * bool :=
  match l with
  | [] => ([], true)
  | c :: l =>
      match sc_Error c with
      | Some e => (EChunkError (HandleError e) :: flush, true)
      | None =>
          if c_write_fails conn n then ([], true)
          else
            let out := EChunk (FormatStreamChunk (c_unix conn n) c model responseID) :: flush in
            if c_client_gone conn n then (out, false)
            else let '(es, done) := streamChunks model responseID (S n) l in (out ++ es, done)%list
      end
  end.

Definition handleStreamRequest (requestID : string) (healthy : gmap string ProviderImpl) (req : ChatRequest) :
    list Event :=
  match selectProviderFromManager healthy req with
  | Err e => WriteErrorResponse (HandleError e)
  | Ok p =>
      let head := (SetSSEHeaders ++ flush)%list in
      match StreamCompletion p (convertToProviderRequest req) with
      | Err e => (head ++ EChunkError (HandleError e) :: flush)%list
      | Ok chunks =>
          let '(es, done) := streamChunks (cq_Model req) ("chatcmpl-" +:+ requestID) 0 chunks in
          (head ++ es ++ (if done then EDone :: flush else []))%list
      end
  end.

Definition handleChatRequest (requestID : string) (healthy : gmap string ProviderImpl) (r : HttpRequest) :
    list Event :=
  if negb (String.eqb (h_Method r) "POST") then
    WriteErrorResponse (NewInvalidRequestError ("Method " +:+ h_Method r +:+ " not allowed. Use POST instead.")
      "method" "method_not_allowed")
  else
    match ParseChatCompletionRequest r with
    | Err e => WriteErrorResponse (HandleError e)
    | Ok req =>
        if cq_Stream req then handleStreamRequest requestID healthy req
        else
          match selectProviderFromManager healthy req with
          | Err e => WriteErrorResponse (HandleError e)
          | Ok p =>
              match SendCompletion p (convertToProviderRequest req) with
              | Err e => WriteErrorResponse (HandleError e)
              | Ok resp => WriteReply (FormatChatCompletionResponse (c_unix conn 0) resp (cq_Model req))
              end
          end
    end.

End handler.

(** ** Theorems *)

(** Errors that have a response of their own. *)
Definition classified (e : GoErr) : bool :=
  match e with
  | RequestError _ _ _ | ProviderError _ _ _ _ | AuthError _ _ | RateLimitError _ _ _ | TimeoutErr _ _
  | ParseError _ _ _ | ModelNotFoundError _ _ => true
  | _ => false
  end.

Definition known_statuses : list Z := [400; 401; 429; 500; 502; 504].

Definition targets `{Fmt} : list (GoErr -> option ErrorDetail) :=
  [asRequestError; asProviderError; asAuthError; asRateLimitError; asTimeoutError; asParseError; asModelNotFoundError].

Lemma firstTarget_cases `{Fmt} ts e :
  firstTarget ts e = internalError \/ exists t x d, t ∈ ts /\ x ∈ chain e /\ t x = Some d /\ firstTarget ts e = d.
Proof.
  induction ts as [|t ts IH]; simpl; [by left|].
  destruct (errors_As t e) as [d|] eqn:Ht.
  - right. rewrite errors_As_chain in Ht.
    assert (Hd : d ∈ omap t (chain e)) by (destruct (omap t (chain e)); simplify_eq/=; by left).
    apply list_elem_of_omap in Hd as (x & Hx & Htx). exists t, x, d. repeat split; [by left|done..].
  - destruct IH as [->|(t' & x & d & Ht' & Hx & Hd & ->)]; [by left|].
    right. exists t', x, d. repeat split; [by right|done..].
Qed.

Lemma target_status `{Fmt} t x d :
  t ∈ targets -> t x = Some d -> HTTPStatusCode d ∈ known_statuses /\ classified x = true.
Proof.
  intros Ht Hd. unfold targets in Ht.
  repeat (apply elem_of_cons in Ht as [->|Ht]); [..|by apply not_elem_of_nil in Ht];
    destruct x; simplify_eq/=; (split; [|done]);
    unfold handleProviderError; repeat case_match; apply (bool_decide_unpack _); vm_compute; exact I.
Qed.

(** The classes in the order in which they are looked for. *)
Definition class_rank (e : GoErr) : option nat :=
  match e with
  | RequestError _ _ _ => Some 0%nat
  | ProviderError _ _ _ _ => Some 1%nat
  | AuthError _ _ => Some 2%nat
  | RateLimitError _ _ _ => Some 3%nat
  | TimeoutErr _ _ => Some 4%nat
  | ParseError _ _ _ => Some 5%nat
  | ModelNotFoundError _ _ => Some 6%nat
  | _ => None
  end.

(** The status that belongs to a classified error. *)
Inductive answers_with : GoErr -> Z -> Prop :=
| aw_request m c p : answers_with (RequestError m c p) 400
| aw_provider_5xx p s m c : 500 <= s -> answers_with (ProviderError p s m c) 502
| aw_provider_429 p m c : answers_with (ProviderError p 429 m c) 429
| aw_provider_auth p s m c : s = 401 \/ s = 403 -> answers_with (ProviderError p s m c) 401
| aw_provider_4xx p s m c : 400 <= s < 500 -> s <> 401 -> s <> 403 -> s <> 429 -> answers_with (ProviderError p s m c) 400
| aw_provider_other p s m c : s < 400 -> answers_with (ProviderError p s m c) 500
| aw_auth p m : answers_with (AuthError p m) 401
| aw_rate p r m : answers_with (RateLimitError p r m) 429
| aw_timeout p t : answers_with (TimeoutErr p t) 504
| aw_parse p r c : answers_with (ParseError p r c) 502
| aw_model p m : answers_with (ModelNotFoundError p m) 400.

Lemma errors_As_first {A} (t : GoErr -> option A) e l1 x l2 d :
  chain e = (l1 ++ x :: l2)%list -> (forall y, y ∈ l1 -> t y = None) -> t x = Some d -> errors_As t e = Some d.
Proof.
  intros He Hn Hx. rewrite errors_As_chain, He. clear He.
  induction l1 as [|y l IH]; cbn; [by rewrite Hx|]. rewrite (Hn y) by left. apply IH. intros z Hz. apply Hn. by right.
Qed.

(** Target number [k] takes exactly the errors of class [k]. *)
Lemma target_rank `{Fmt} k t y : targets !! k = Some t -> class_rank y <> Some k -> t y = None.
Proof.
  intros Ht Hy. unfold targets in Ht. do 7 (destruct k as [|k]; cbn in Ht; [injection Ht as <-; by destruct y|]). done.
Qed.

Lemma provider_answers p status m c : answers_with (ProviderError p status m c) (HTTPStatusCode (handleProviderError p status m)).
Proof.
  unfold handleProviderError.
  destruct (Z.leb_spec 500 status); [by constructor|]. destruct (Z.eqb_spec status 429) as [->|]; [constructor|].
  destruct (Z.eqb_spec status 404) as [->|]; [constructor; lia|].
  destruct (Z.eqb_spec status 401) as [->|]; [constructor; lia|]. destruct (Z.eqb_spec status 403) as [->|]; [constructor; lia|].
  cbn [orb]. destruct (Z.leb_spec 400 status); constructor; lia.
Qed.

Lemma target_answers `{Fmt} k t x :
  targets !! k = Some t -> class_rank x = Some k -> exists d, t x = Some d /\ answers_with x (HTTPStatusCode d).
Proof.
  intros Ht Hx. unfold targets in Ht.
  do 7 (destruct k as [|k]; cbn in Ht;
    [injection Ht as <-; destruct x; try discriminate Hx; eexists; (split; [reflexivity|]);
     first [apply provider_answers|constructor]|]). done.
Qed.

Lemma firstTarget_skip ts ts' e :
  (forall t y, t ∈ ts -> y ∈ chain e -> t y = None) -> firstTarget (ts ++ ts')%list e = firstTarget ts' e.
Proof.
  induction ts as [|t ts IH]; intros Hn; [done|]. cbn. rewrite (proj2 (errors_As_None t e)) by (intros y; apply Hn; left).
  apply IH. intros t' y Ht. apply Hn. by right.
Qed.


(** ** Which provider answers *)

Lemma HasPrefix_comparable s p q :
  HasPrefix s p = true -> HasPrefix s q = true -> HasPrefix p q = true \/ HasPrefix q p = true.
Proof.
  revert s q. induction p as [|a p IH]; intros s q; [right; by destruct q|].
  destruct q as [|b q]; [by left|]. destruct s as [|c s]; simpl; [done|].
  rewrite !andb_true_iff. intros [Ha Hp] [Hb Hq].
  apply Ascii.eqb_eq in Ha as ->, Hb as ->. rewrite !Ascii.eqb_refl.
  destruct (IH s q Hp Hq); auto.
Qed.

(** No prefix of the table extends another one. *)
Lemma modelPrefixes_incomparable p q n n' :
  modelPrefixes !! p = Some n -> modelPrefixes !! q = Some n' -> HasPrefix p q = true -> p = q.
Proof.
  intros Hp Hq. apply elem_of_map_to_list in Hp, Hq. revert p q n n' Hp Hq.
  assert (Hall : forallb (fun e => forallb (fun f => implb (HasPrefix (fst e) (fst f)) (String.eqb (fst e) (fst f)))
    (map_to_list modelPrefixes)) (map_to_list modelPrefixes) = true) by (vm_compute; reflexivity).
  intros p q n n' Hp Hq Hpre. rewrite forallb_forall in Hall.
  specialize (Hall (p, n) (proj1 (list_elem_of_In _ _) Hp)). rewrite forallb_forall in Hall.
  specialize (Hall (q, n') (proj1 (list_elem_of_In _ _) Hq)). simpl in Hall. rewrite Hpre in Hall.
  by apply String.eqb_eq.
Qed.

Lemma prefixLoop_spec healthy model l p name :
  (forall q n, (q, n) ∈ l -> HasPrefix model q = true -> n = name) ->
  (p, name) ∈ l -> HasPrefix model p = true ->
  prefixLoop healthy model l = healthy !! name.
Proof.
  intros Hu Hin Hp. induction l as [|[q n] l IH]; [by apply not_elem_of_nil in Hin|]. simpl.
  destruct (HasPrefix model q) eqn:Hq.
  - rewrite (Hu q n ltac:(left) Hq). destruct (healthy !! name) eqn:Hn; [done|].
    clear IH Hin. induction l as [|[q' n'] l IH]; [done|]. simpl.
    destruct (HasPrefix model q') eqn:Hq'.
    + rewrite (Hu q' n' ltac:(by right; left) Hq'), Hn. apply IH.
      intros q2 n2 Hin. apply Hu. rewrite elem_of_cons in *. rewrite elem_of_cons. tauto.
    + apply IH. intros q2 n2 Hin. apply Hu. rewrite elem_of_cons in *. rewrite elem_of_cons. tauto.
  - apply elem_of_cons in Hin as [[= -> ->]|Hin]; [congruence|].
    apply IH; [|done]. intros q2 n2 Hin2. apply Hu. by right.
Qed.

Lemma prefixLoop_none healthy model l :
  (forall q n, (q, n) ∈ l -> HasPrefix model q = false) -> prefixLoop healthy model l = None.
Proof.
  induction l as [|[q n] l IH]; intros Hn; [done|]. simpl.
  rewrite (Hn q n ltac:(left)). apply IH. intros q' n' Hin. apply (Hn q' n'). by right.
Qed.

(** The provider a model name selects, without iteration. *)
Definition model_provider (model : string) : option string :=
  snd <$> find (fun e => HasPrefix model (fst e)) (map_to_list modelPrefixes).

Lemma selectProviderByModel_eq `{MapRange} healthy model :
  selectProviderByModel healthy model = name ← model_provider model; healthy !! name.
Proof.
  unfold selectProviderByModel, model_provider.
  destruct (find _ _) as [[p name]|] eqn:Hf; simpl.
  - apply find_some in Hf as [Hin Hp]. simpl in Hp.
    apply list_elem_of_In, elem_of_map_to_list in Hin.
    apply (prefixLoop_spec healthy model _ p); [|by apply elem_of_range|done].
    intros q n Hq Hqp. apply elem_of_range in Hq.
    assert (p = q) as <-.
    { destruct (HasPrefix_comparable model p q Hp Hqp) as [Hc|Hc].
      - by eapply modelPrefixes_incomparable.
      - symmetry. by eapply modelPrefixes_incomparable. }
    congruence.
  - apply prefixLoop_none. intros q n Hq. apply elem_of_range, elem_of_map_to_list, list_elem_of_In in Hq.
    exact (find_none _ _ Hf (q, n) Hq).
Qed.

(** Model routing does not depend on map order.  Whatever order the prefix
    table is visited in, a model whose prefix belongs to a healthy provider goes
    to that provider; any other model goes to some healthy provider; and only an
    empty set of healthy providers is an error. *)
Theorem model_routing_deterministic `{MapRange} healthy req :
  match model_provider (cq_Model req) ≫= fun name => healthy !! name with
  | Some p => selectProviderFromManager healthy req = Ok p
  | None =>
      if decide (healthy = ∅) then exists e, selectProviderFromManager healthy req = Err e
      else exists k p, healthy !! k = Some p /\ selectProviderFromManager healthy req = Ok p
  end.
Proof.
  unfold selectProviderFromManager. rewrite selectProviderByModel_eq.
  assert (Hempty : range healthy = [] <-> healthy = ∅).
  { rewrite <- map_to_list_empty_iff. split; intros Hl.
    - apply Permutation_nil. by rewrite <- (range_perm healthy), Hl.
    - apply Permutation_nil. by rewrite (range_perm healthy), Hl. }
  assert (Hnone : if decide (healthy = ∅) then exists e, selectProviderFromManager healthy req = Err e
    else exists k p, healthy !! k = Some p /\
      match range healthy with
      | [] => Err (ProviderError "none" 503 "No healthy providers available" None)
      | (_, first) :: _ => Ok first
      end = Ok p).
  { destruct (range healthy) as [|[k first] l] eqn:Hr; destruct (decide (healthy = ∅)) as [He|He].
    - unfold selectProviderFromManager. rewrite Hr. eauto.
    - exfalso. by apply He, Hempty.
    - exfalso. apply Hempty in He. congruence.
    - exists k, first. split; [|done]. apply elem_of_range. rewrite Hr. left. }
  unfold selectProviderFromManager in Hnone. rewrite selectProviderByModel_eq in Hnone.
  destruct (model_provider (cq_Model req)) as [name|]; simpl;
    [destruct (healthy !! name) as [p|] eqn:Hn|]; simpl.
  - destruct (range healthy) as [|[k first] l] eqn:Hr; [|done].
    assert (healthy = ∅) as -> by (by apply Hempty). by rewrite lookup_empty in Hn.
  - simpl in Hnone. rewrite Hn in Hnone. exact Hnone.
  - exact Hnone.
Qed.

(** ** What the client sees *)

Section replies.
Context `{JsonRequest} `{Fmt} `{FmtValue} `{MapRange}.
Variable conn : Conn.

(** A plain answer: one status, one body. *)
Inductive plain_reply : list Event -> Prop :=
| plain_error d : plain_reply [EHeader "Content-Type" "application/json"; EStatus (HTTPStatusCode d); EError d]
| plain_ok r : plain_reply [EHeader "Content-Type" "application/json"; EStatus 200; EReply r].

(** The frames of a streamed answer: chunks, then possibly one error. *)
Inductive frames : list Event -> Prop :=
| frames_nil : frames []
| frames_error d : frames (EChunkError d :: flush conn)
| frames_chunk c es : frames es -> frames (EChunk c :: flush conn ++ es).

(** A streamed answer ends with the end marker unless the client is gone or the
    provider refused the stream. *)
Inductive stream_reply : list Event -> Prop :=
| stream_done es : frames es -> stream_reply (SetSSEHeaders ++ flush conn ++ es ++ EDone :: flush conn)
| stream_cut es : frames es -> stream_reply (SetSSEHeaders ++ flush conn ++ es).

Lemma streamChunks_frames model id n l : frames (fst (streamChunks conn model id n l)).
Proof.
  revert n. induction l as [|c l IH]; intros n; simpl; [constructor|].
  destruct (sc_Error c); [constructor|]. destruct (c_write_fails conn n); [constructor|].
  destruct (c_client_gone conn n); simpl.
  - rewrite <- (app_nil_r (flush conn)). repeat constructor.
  - specialize (IH (S n)). destruct (streamChunks conn model id (S n) l) as [es d]. simpl in *. by constructor.
Qed.

Lemma handleStreamRequest_reply requestID healthy req :
  plain_reply (handleStreamRequest conn requestID healthy req) \/
  stream_reply (handleStreamRequest conn requestID healthy req).
Proof.
  unfold handleStreamRequest. destruct (selectProviderFromManager healthy req) as [p|e]; [|left; constructor].
  right. destruct (StreamCompletion p _) as [chunks|e].
  - pose proof (streamChunks_frames (cq_Model req) ("chatcmpl-" +:+ requestID) 0 chunks) as Hf.
    destruct (streamChunks _ _ _ _ _) as [es []]; simpl in Hf; rewrite <- app_assoc.
    + by constructor.
    + rewrite app_nil_r. by constructor.
  - rewrite <- app_assoc. constructor. constructor.
Qed.

(** Every request gets exactly one well-formed answer: a single status line
    with a single JSON body, or one event stream whose frames are chunks, at
    most one error as the last frame, and at most one end marker at the end. *)
Theorem every_request_answered requestID healthy r :
  plain_reply (handleChatRequest conn requestID healthy r) \/
  stream_reply (handleChatRequest conn requestID healthy r).
Proof.
  unfold handleChatRequest. destruct (negb _); [left; constructor|].
  destruct (ParseChatCompletionRequest r) as [req|e]; [|left; constructor].
  destruct (cq_Stream req); [apply handleStreamRequest_reply|]. left.
  destruct (selectProviderFromManager healthy req) as [p|e]; [|constructor].
  destruct (SendCompletion p _); constructor.
Qed.

Lemma ParseChatCompletionRequest_valid r req :
  ParseChatCompletionRequest r = Ok req -> Validate_request req = None.
Proof.
  unfold ParseChatCompletionRequest. destruct (h_Body r) as [whole|]; [|done].
  destruct (_ <=? _); [done|]. destruct (unmarshal_request _) as [q|]; [|done].
  destruct (Validate_request q) eqn:Hv; intros Heq; by simplify_eq.
Qed.

Lemma selectProviderFromManager_healthy healthy req p :
  selectProviderFromManager healthy req = Ok p -> exists k, healthy !! k = Some p.
Proof.
  unfold selectProviderFromManager. destruct (range healthy) as [|[k first] l] eqn:Hr; [done|].
  rewrite selectProviderByModel_eq.
  destruct (model_provider (cq_Model req)) as [name|]; simpl.
  - destruct (healthy !! name) eqn:Hn; intros Heq; simplify_eq; [by exists name|].
    exists k. apply elem_of_range. rewrite Hr. left.
  - intros Heq; simplify_eq. exists k. apply elem_of_range. rewrite Hr. left.
Qed.

Definition not_reply (e : Event) : Prop := match e with EReply _ => False | _ => True end.

Lemma flush_not_reply : Forall not_reply (flush conn).
Proof. unfold flush. destruct (c_flusher conn); repeat constructor. Qed.

Lemma frames_not_reply es : frames es -> Forall not_reply es.
Proof.
  induction 1; repeat constructor; rewrite ?Forall_app; auto using flush_not_reply.
Qed.

Lemma stream_not_reply requestID healthy req : Forall not_reply (handleStreamRequest conn requestID healthy req).
Proof.
  unfold handleStreamRequest. destruct (selectProviderFromManager healthy req) as [p|e]; [|repeat constructor].
  pose proof flush_not_reply.
  destruct (StreamCompletion p _) as [chunks|e].
  - pose proof (frames_not_reply _ (streamChunks_frames (cq_Model req) ("chatcmpl-" +:+ requestID) 0 chunks)).
    destruct (streamChunks _ _ _ _ _) as [es []]; rewrite !Forall_app; repeat constructor; auto.
  - rewrite !Forall_app. repeat constructor; auto.
Qed.

(** A completion is only ever the answer of a healthy provider to a valid
    request.  If a reply body is written, the request was a POST whose body
    parsed and passed validation, and the body is the formatted response of a
    healthy provider to exactly the converted request. *)
Theorem reply_from_valid_request requestID healthy r body :
  EReply body ∈ handleChatRequest conn requestID healthy r ->
  h_Method r = "POST" /\
  exists req k p resp,
    ParseChatCompletionRequest r = Ok req /\ Validate_request req = None /\ cq_Stream req = false /\
    healthy !! k = Some p /\ SendCompletion p (convertToProviderRequest req) = Ok resp /\
    body = FormatChatCompletionResponse (c_unix conn 0) resp (cq_Model req).
Proof.
  assert (Hnoerr : forall d, EReply body ∈ WriteErrorResponse d -> False).
  { intros d Hd. unfold WriteErrorResponse in Hd. set_solver. }
  unfold handleChatRequest. destruct (String.eqb_spec (h_Method r) "POST") as [Hm|]; cbn [negb];
    [|intros Hd; by apply Hnoerr in Hd].
  destruct (ParseChatCompletionRequest r) as [req|e] eqn:Hp; [|intros Hd; by apply Hnoerr in Hd].
  destruct (cq_Stream req) eqn:Hs.
  { intros Hin. pose proof (stream_not_reply requestID healthy req) as Hn. rewrite Forall_forall in Hn.
    by apply Hn in Hin. }
  destruct (selectProviderFromManager healthy req) as [p|e] eqn:Hsel; [|intros Hd; by apply Hnoerr in Hd].
  destruct (selectProviderFromManager_healthy healthy req p Hsel) as [k Hk].
  destruct (SendCompletion p (convertToProviderRequest req)) as [resp|e] eqn:Hsend;
    [|intros Hd; by apply Hnoerr in Hd].
  intros Hin. split; [done|]. exists req, k, p, resp.
  split_and!; [done|by eapply ParseChatCompletionRequest_valid|done..|].
  unfold WriteReply in Hin. set_solver.
Qed.

(** The deltas a client reads. *)
Definition delta_of (e : Event) : option string :=
  match e with EChunk c => d_Content ∘ sch_Delta <$> head (chunk_Choices c) | _ => None end.

Lemma omap_flush : omap delta_of (flush conn) = [].
Proof. unfold flush. by destruct (c_flusher conn). Qed.

(** A stream delivers the provider's text in order and without gaps: on a
    connection that stays up, the deltas written to the client are those of the
    chunks before the first error chunk, in order, and the stream ends with the
    end marker. *)
Theorem stream_delivers_in_order model id chunks ok rest :
  (forall n, c_write_fails conn n = false) -> (forall n, c_client_gone conn n = false) ->
  chunks = (ok ++ rest)%list -> Forall (fun c => sc_Error c = None) ok ->
  match rest with [] => True | c :: _ => sc_Error c <> None end ->
  omap delta_of (fst (streamChunks conn model id 0 chunks)) = sc_Delta <$> ok /\
  snd (streamChunks conn model id 0 chunks) = true.
Proof.
  intros Hw Hg -> Hok Hrest. generalize 0%nat as n.
  induction Hok as [|c ok Hc Hok IH]; intros n.
  - simpl. destruct rest as [|c rest]; [done|]. simpl.
    destruct (sc_Error c); [|done]. split; [exact omap_flush|done].
  - specialize (IH (S n)). simpl. rewrite Hc, Hw, Hg.
    destruct (streamChunks conn model id (S n) (ok ++ rest)%list) as [es d]. simpl in *.
    destruct IH as [IH ->]. split; [|done]. cbn [omap list_omap delta_of]. simpl. f_equal.
    change (omap delta_of (flush conn ++ es)%list = sc_Delta <$> ok). by rewrite omap_app, omap_flush, IH.
Qed.

End replies.

(** ** What the conversion forgets *)

(** The request with the fields that no provider request carries, and with a
    temperature, replaced. *)
Definition with_dropped (n : option Z) (fmt : option string) (seed : option Z) (temp : option float64)
    (r : ChatRequest) : ChatRequest :=
  mkChatRequest (cq_Model r) (cq_Messages r) temp (cq_MaxTokens r) (cq_TopP r) n (cq_Stream r)
    (cq_Stop r) (cq_PresencePenalty r) (cq_FrequencyPenalty r) (cq_User r) (cq_Tools r) (cq_ToolChoice r) fmt seed.

(** The provider never learns of [n], [response_format] and [seed], and it
    cannot tell a temperature of zero from an absent one: the conversion maps
    all of these requests to the same provider request. *)
Theorem conversion_forgets `{FmtValue} r n n' fmt fmt' seed seed' :
  convertToProviderRequest (with_dropped n fmt seed (Some fzero) r) =
  convertToProviderRequest (with_dropped n' fmt' seed' None r).
Proof. reflexivity. Qed.

(** A body of exactly the maximum size is rejected as too large. *)
Theorem exact_limit_rejected `{JsonRequest} r whole :
  h_Body r = Ok whole -> slen whole = MaxRequestBodySize ->
  exists m, ParseChatCompletionRequest r = Err (RequestError m CodeRequestTooLarge "body").
Proof.
  intros Hb Hl. unfold ParseChatCompletionRequest. rewrite Hb.
  assert (Hsub : forall s n, n = String.length s -> String.substring 0 n s = s).
  { intros s n ->. induction s as [|c s IH]; [done|]. simpl. by rewrite IH. }
  unfold limitRead. rewrite Hsub by (unfold slen in Hl; lia).
  rewrite (proj2 (Z.leb_le _ _)) by lia. eauto.
Qed.

(** ** Examples *)

Definition ex_fmt : Fmt := {| Quote s := s; DurationString d := pretty d |}.
Definition ex_sprint : FmtValue := {| Sprint _ := "%v" |}.

Definition ex_chat (stream : bool) : ChatRequest :=
  mkChatRequest "gpt-4" [mkMessage "user" (VString "hi") "" [] ""] None None None None stream [] None None "" [] VNil None None.

Definition ex_json_request : JsonRequest := {|
  unmarshal_request s := if String.eqb s "stream" then Ok (ex_chat true) else Ok (ex_chat false)
|}.

Definition ex_provider : ProviderImpl :=
  mkProviderImpl "openai" (fun q => Ok (mkPResponse "1" "gpt-4" "hello" "stop" (mkPUsage 1 1 2) [] 0 []))
    (fun q => Ok [mkStreamChunk "1" "gpt-4" "he" "" [] None None 0; mkStreamChunk "1" "gpt-4" "llo" "stop" [] None None 0]).

Definition ex_http (method body : string) : HttpRequest :=
  mkHttpRequest method "/v1/chat/completions" (fun _ => "") "" "" (Ok body).

Definition ex_conn : Conn := mkConn true (fun _ => false) (fun _ => false) (fun _ => 0).

(** A rate limit of the provider inside a timeout: the class that is looked for first decides. *)
Definition ex_chain : GoErr :=
  WrapError "select" (ProviderError "p" 429 "slow down" (Some (TimeoutErr "p" 1))).


Lemma reply_from_valid_request_witness :
  exists req k p resp,
    ParseChatCompletionRequest (H := ex_json_request) (ex_http "POST" "{}") = Ok req /\ Validate_request req = None /\
    cq_Stream req = false /\ ({[ "openai" := ex_provider ]} : gmap string ProviderImpl) !! k = Some p /\
    SendCompletion p (convertToProviderRequest (H := ex_sprint) req) = Ok resp /\
    FormatChatCompletionResponse 0 (mkPResponse "1" "gpt-4" "hello" "stop" (mkPUsage 1 1 2) [] 0 []) "gpt-4" =
      FormatChatCompletionResponse 0 resp (cq_Model req).
Proof.
  apply (reply_from_valid_request (H := ex_json_request) (H0 := ex_fmt) (H1 := ex_sprint) (H2 := some_range)
    ex_conn "id" {[ "openai" := ex_provider ]} (ex_http "POST" "{}")
    (FormatChatCompletionResponse 0 (mkPResponse "1" "gpt-4" "hello" "stop" (mkPUsage 1 1 2) [] 0 []) "gpt-4")).
  right; right; left.
Defined.

Lemma stream_delivers_in_order_witness :
  omap delta_of (fst (streamChunks (H0 := ex_fmt) ex_conn "gpt-4" "id" 0
    [mkStreamChunk "1" "m" "he" "" [] None None 0; mkStreamChunk "1" "m" "llo" "" [] None None 0;
     mkStreamChunk "1" "m" "" "" [] None (Some (OtherError "cut")) 0])) = ["he"; "llo"].
Proof.
  apply (stream_delivers_in_order (H0 := ex_fmt) ex_conn "gpt-4" "id" _
    [mkStreamChunk "1" "m" "he" "" [] None None 0; mkStreamChunk "1" "m" "llo" "" [] None None 0]
    [mkStreamChunk "1" "m" "" "" [] None (Some (OtherError "cut")) 0]); try reflexivity.
  - repeat constructor.
  - discriminate.
Defined.
