(* ===== verification/ProcTokens.v ===== *)
(** * Token estimates, costs and conversation analysis ([pkg/processing/tokens],
    [costs], [conversation])

    The estimators the processor runs on a request.  The lookups by model name
    range over configuration maps, so they take the iteration order as a
    parameter.  The estimator's error results are always nil and are left out,
    except for a missing request. *)

From Stdlib Require Import ZArith Lia Ascii.
From stdpp Require Import base option list strings gmap pretty.
From S2P Require Import Prelude Float64 GoValue PolicyContext ProviderTypes ProxyTypes ProxyHandlers.
Local Open Scope string_scope.
Local Open Scope Z_scope.
Local Open Scope go_scope.

(** ** Configuration *)

Record TokensConfig := mkTokensConfig {
  tk_Estimator : string;
  tk_CacheSize : Z;
  tk_ModelsField : option (gmap string float64);
}.

(** Reading a [nil] map finds no key and ranges over nothing. *)
Definition tk_Models (c : TokensConfig) : gmap string float64 := default ∅ (tk_ModelsField c).

Record ModelPricingConfig := mkModelPricingConfig {
  mp_Prompt : float64;
  mp_Completion : float64;
  mp_CachedPrompt : float64;
}.

Record CostsConfig := mkCostsConfig { PricingField : option (gmap string (gmap string ModelPricingConfig)) }.

Definition Pricing (c : CostsConfig) : gmap string (gmap string ModelPricingConfig) := default ∅ (PricingField c).

Record ConversationConfig := mkConversationConfig {
  MaxContextWindowField : option (gmap string Z);
  WarnThreshold : float64;
}.

Definition MaxContextWindow (c : ConversationConfig) : gmap string Z := default ∅ (MaxContextWindowField c).

(** [json.Marshal] of a parameter schema; an unsupported value fails. *)
Class JsonParams : Type := { marshal_params : list (string * GoValue) -> option string }.

(** [strings.Join(parts, " ")] *)
Definition join_parts (parts : list string) : string := String.concat " " parts.

(** [strings.Repeat("X", n)] *)
Definition repeatX (n : nat) : string := String.concat "" (replicate n "X").

(** The parts of a multimodal content: texts and the number of images. *)
Definition partType (part : GoValue) : option (string * list (string * GoValue)) :=
  match part with
  | VMap ty m =>
      if String.eqb ty "map[string]interface {}" then
        match assoc "type" m with Some (VString t) => Some (t, m) | _ => None end
      else None
  | _ => None
  end.

Definition isImage (part : GoValue) : bool :=
  match partType part with Some (t, _) => String.eqb t "image_url" | None => false end.

Section tokens.
Context `{MapRange} `{JsonParams} `{FmtValue}.
Variable config : TokensConfig.

(** The loop over the configured prefixes, in the order of this iteration. *)
Fixpoint prefixRatio (model : string) (l : list (string * float64)) : option float64 :=
  match l with
  | [] => None
  | (pattern, ratio) :: l => if HasPrefix model pattern then Some ratio else prefixRatio model l
  end.

Definition getCharsPerToken (model : string) : float64 :=
  match tk_Models config !! model with
  | Some ratio => ratio
  | None =>
      match prefixRatio model (range (tk_Models config)) with
      | Some ratio => ratio
      | None =>
          match tk_Models config !! "default" with
          | Some ratio => ratio
          | None => of_int 4
          end
      end
  end.

Definition EstimateText (text model : string) : Z :=
  if String.eqb text "" then 0
  else
    let charCount := slen text in
    let tokens := fdiv (of_int charCount) (getCharsPerToken model) in
    let tokens := if flt tokens (of_int 1) && (0 <? charCount) then of_int 1 else tokens in
    to_int64 (fadd tokens (flit 1 2)).

Definition extractContent (content : GoValue) : string :=
  match content with
  | VNil => ""
  | VString s => s
  | VSlice "[]interface {}" parts =>
      let result := join_parts (omap textPart parts) in
      let imageCount := length (List.filter isImage parts) in
      if (0 <? imageCount)%nat then result +:+ repeatX (imageCount * 4000) else result
  | _ => Sprint content
  end.

Definition estimateToolCalls (toolCalls : list ToolCall) (model : string) : Z :=
  foldl (fun total tc =>
    total +64 10 +64 EstimateText (fc_Name (tc_Function tc)) model
      +64 EstimateText (fc_Arguments (tc_Function tc)) model +64 5) 0 toolCalls.

Definition estimateMessage (model : string) (total : Z) (m : Message) : Z :=
  let total := total +64 1 in
  let total := total +64 EstimateText (extractContent (m_Content m)) model in
  let total := if String.eqb (m_Name m) "" then total else total +64 EstimateText (m_Name m) model in
  let total := if (0 <? length (m_ToolCalls m))%nat then total +64 estimateToolCalls (m_ToolCalls m) model else total in
  total +64 3.

Definition EstimateMessages (messages : list Message) (model : string) : Z :=
  match messages with
  | [] => 0
  | _ => foldl (estimateMessage model) 0 messages +64 3
  end.

Definition estimateTool (model : string) (total : Z) (t : Tool) : Z :=
  let f := tool_Function t in
  let total := total +64 EstimateText (fd_Name f) model in
  let total := if String.eqb (fd_Description f) "" then total else total +64 EstimateText (fd_Description f) model in
  let total :=
    match fd_Parameters f with
    | Some ps =>
        match marshal_params ps with
        | Some json => total +64 EstimateText json model
        | None => total
        end
    | None => total
    end in
  total +64 10.

Definition EstimateTools (tools : list Tool) (model : string) : Z := foldl (estimateTool model) 0 tools.

Definition isSystem (m : Message) : bool := String.eqb (m_Role m) "system".

(** The default completion estimate: a third of the prompt, within bounds. *)
Definition completionDefault (promptTokens : Z) : Z :=
  let c := Z.quot promptTokens 3 in
  let c := if c <? 100 then 100 else c in
  if 1000 <? c then 1000 else c.

Definition EstimateRequest (req : option ChatRequest) : result string TokenEstimate :=
  match req with
  | None => Err "request cannot be nil"
  | Some r =>
      let systemPrompts := List.filter isSystem (cq_Messages r) in
      let otherMessages := List.filter (fun m => negb (isSystem m)) (cq_Messages r) in
      let systemTokens := EstimateMessages systemPrompts (cq_Model r) in
      let messageTokens := EstimateMessages otherMessages (cq_Model r) in
      let toolTokens := EstimateTools (cq_Tools r) (cq_Model r) in
      let promptTokens := systemTokens +64 messageTokens +64 toolTokens +64 5 in
      let completion :=
        match cq_MaxTokens r with
        | Some n => if 0 <? n then n else completionDefault promptTokens
        | None => completionDefault promptTokens
        end in
      Ok (mkTokenEstimate promptTokens completion (promptTokens +64 completion) systemTokens messageTokens
            toolTokens 5 (cq_Model r) (flit 95 100))
  end.

End tokens.

(** ** Costs *)

Record ModelPricing := mkModelPricing {
  pricing_Model : string;
  pricing_Provider : string;
  PromptCostPer1KTokens : float64;
  CompletionCostPer1KTokens : float64;
  CachedPromptCostPer1KTokens : float64;
  MinimumCost : float64;
  pricing_Currency : string;
}.

Definition calculateTokenCost (tokens : Z) (costPer1K : float64) : float64 :=
  if tokens <=? 0 then fzero else fmul (fdiv (of_int tokens) (of_int 1000)) costPer1K.

(** [UpdatePricing] swaps the configuration under the write lock; later calls
    read the new one. *)
Definition UpdatePricing (newConfig config : CostsConfig) : CostsConfig := newConfig.

Section costs.
Context `{MapRange}.
Variable config : CostsConfig.

Fixpoint prefixPricing (model : string) (l : list (string * ModelPricingConfig)) : option ModelPricingConfig :=
  match l with
  | [] => None
  | (pattern, c) :: l => if HasPrefix model pattern then Some c else prefixPricing model l
  end.

Definition fullPricing (model provider : string) (c : ModelPricingConfig) : ModelPricing :=
  mkModelPricing model provider (mp_Prompt c) (mp_Completion c) (mp_CachedPrompt c) fzero "USD".

(** [nil] and an error when nothing is configured. *)
Definition GetModelPricing (model provider : string) : option ModelPricing :=
  let own :=
    providerPricing ← Pricing config !! provider;
    match providerPricing !! model with
    | Some c => Some (fullPricing model provider c)
    | None => fullPricing model provider <$> prefixPricing model (range providerPricing)
    end in
  match own with
  | Some p => Some p
  | None =>
      defaultProvider ← Pricing config !! "default";
      c ← defaultProvider !! "default";
      Some (mkModelPricing model provider (mp_Prompt c) (mp_Completion c) fzero fzero "USD")
  end.

(** The pricing used: that of the model, else the default one, else [nil]. *)
Definition pricingOrDefault (model provider : string) : option ModelPricing :=
  match GetModelPricing model provider with
  | Some p => Some p
  | None => GetModelPricing "default" "default"
  end.

(** A [nil] pricing is dereferenced: a panic. *)
Definition CalculateRequestCost (estimate : option TokenEstimate) (model provider : string) :
    option (result string CostEstimate) :=
  match estimate with
  | None => Some (Err "estimate cannot be nil")
  | Some est =>
      pricing ← pricingOrDefault model provider;
      let promptCost := calculateTokenCost (te_PromptTokens est) (PromptCostPer1KTokens pricing) in
      let completionCost := calculateTokenCost (te_EstimatedCompletionTokens est) (CompletionCostPer1KTokens pricing) in
      Some (Ok (mkCostEstimate promptCost completionCost (fadd promptCost completionCost) model provider
                  "standard" "USD"))
  end.

Definition CalculateResponseCost (usage : option TokenUsage) (model provider : string) :
    option (result string CostEstimate) :=
  match usage with
  | None => Some (Err "usage cannot be nil")
  | Some u =>
      pricing ← pricingOrDefault model provider;
      let promptTokens := tu_PromptTokens u in
      let promptCost :=
        if (0 <? tu_CachedTokens u) && flt fzero (CachedPromptCostPer1KTokens pricing) then
          let uncachedTokens := promptTokens -64 tu_CachedTokens u in
          let uncachedTokens := if uncachedTokens <? 0 then 0 else uncachedTokens in
          fadd (calculateTokenCost uncachedTokens (PromptCostPer1KTokens pricing))
               (calculateTokenCost (tu_CachedTokens u) (CachedPromptCostPer1KTokens pricing))
        else calculateTokenCost promptTokens (PromptCostPer1KTokens pricing) in
      let completionCost := calculateTokenCost (tu_CompletionTokens u) (CompletionCostPer1KTokens pricing) in
      Some (Ok (mkCostEstimate promptCost completionCost (fadd promptCost completionCost) model provider
                  "standard" "USD"))
  end.

Definition CalculateProviderResponseCost (resp : option PResponse) (provider : string) :
    option (result string CostEstimate) :=
  match resp with
  | None => Some (Err "response cannot be nil")
  | Some r =>
      CalculateResponseCost
        (Some (mkTokenUsage (pu_PromptTokens (ps_Usage r)) (pu_CompletionTokens (ps_Usage r))
                 (pu_TotalTokens (ps_Usage r)) 0)) (ps_Model r) provider
  end.

End costs.

(** ** Conversation *)

(** The texts of a message; other content has none here. *)
Definition extractMessageContent (content : GoValue) : string :=
  match content with
  | VNil => ""
  | VString s => s
  | VSlice "[]interface {}" parts => join_parts (omap textPart parts)
  | _ => ""
  end.

Section conversation.
Context `{MapRange}.
Variable config : ConversationConfig.

(** The longest configured prefix of the model and its limit. *)
Fixpoint longestPrefix (model : string) (l : list (string * Z)) (longestMatch : string) (matchedLimit : Z) : string * Z :=
  match l with
  | [] => (longestMatch, matchedLimit)
  | (pattern, limit) :: l =>
      if String.eqb pattern "default" then longestPrefix model l longestMatch matchedLimit
      else if HasPrefix model pattern && (slen longestMatch <? slen pattern) then longestPrefix model l pattern limit
      else longestPrefix model l longestMatch matchedLimit
  end.

Definition getContextWindowLimit (model : string) : Z :=
  match MaxContextWindow config !! model with
  | Some limit => limit
  | None =>
      let '(longestMatch, matchedLimit) := longestPrefix model (range (MaxContextWindow config)) "" 0 in
      if negb (String.eqb longestMatch "") then matchedLimit
      else match MaxContextWindow config !! "default" with
           | Some limit => limit
           | None => 4096
           end
  end.

Definition roleCount (role : string) (messages : list Message) : Z :=
  countb (fun m => String.eqb (m_Role m) role) messages.

Definition systemTexts (messages : list Message) : list string :=
  List.filter (fun s => negb (String.eqb s ""))
    (extractMessageContent ∘ m_Content <$> List.filter isSystem messages).

Definition AnalyzeConversation (messages : list Message) (model : string) (totalTokens : Z) : ConversationContext :=
  match messages with
  | [] => mkConversationContext 0 0 [] 0 fzero false 0
  | _ =>
      let messageCount := Z.of_nat (length messages) in
      let userMessages := roleCount "user" messages in
      let assistantMessages := roleCount "assistant" messages in
      let turnCount := if assistantMessages <? userMessages then userMessages else assistantMessages in
      let maxContextWindow := getContextWindowLimit model in
      mkConversationContext turnCount messageCount (systemTexts messages) totalTokens
        (if 0 <? maxContextWindow then fdiv (of_int totalTokens) (of_int maxContextWindow) else fzero)
        ((1 <? turnCount) || (0 <? assistantMessages))
        (if 0 <? messageCount then Z.quot totalTokens messageCount else 0)
  end.

End conversation.

(** ** The context window does not depend on map order *)

Lemma HasPrefix_same_length s p q :
  HasPrefix s p = true -> HasPrefix s q = true -> slen p = slen q -> p = q.
Proof.
  unfold slen. revert s q. induction p as [|a p IH]; intros s q Hp Hq Hl; destruct q as [|b q]; simplify_eq/=; try lia; [done|].
  destruct s as [|c s]; simplify_eq/=. apply andb_true_iff in Hp as [Ha Hp], Hq as [Hb Hq].
  apply Ascii.eqb_eq in Ha as ->, Hb as ->. f_equal. apply (IH s); [done..|lia].
Qed.

(** A pattern that counts for a model. *)
Definition window_match (model p : string) : Prop :=
  HasPrefix model p = true /\ p <> "default" /\ p <> "".

Lemma slen_pos p : p <> "" -> 0 < slen p.
Proof. unfold slen. destruct p; [done|]. simpl. lia. Qed.

Lemma longestPrefix_spec model l lm lim p v :
  longestPrefix model l lm lim = (p, v) ->
  ((p, v) = (lm, lim) \/ ((p, v) ∈ l /\ window_match model p /\ slen lm < slen p)) /\
  (forall q w, (q, w) ∈ l -> window_match model q -> slen q <= slen p).
Proof.
  revert lm lim. induction l as [|[pat limit] l IH]; intros lm lim; simpl.
  { intros [= <- <-]. split; [by left|]. intros q w Hin. by apply not_elem_of_nil in Hin. }
  destruct (String.eqb_spec pat "default") as [->|Hd].
  { intros Hl. apply IH in Hl as [H1 H2]. split.
    - destruct H1 as [?|(? & ? & ?)]; [by left|right]. split_and!; [by right|done..].
    - intros q w [[= -> ->]|Hin]%elem_of_cons (? & ? & ?); [done|]. by apply (H2 q w). }
  destruct (HasPrefix model pat) eqn:Hp; simpl.
  - destruct (Z.ltb_spec (slen lm) (slen pat)) as [Hlt|Hge]; intros Hl; apply IH in Hl as [H1 H2].
    + assert (Hne : pat <> "") by (intros ->; unfold slen in Hlt; simpl in Hlt; lia).
      assert (Hle : slen pat <= slen p) by (destruct H1 as [[= -> ->]|(_ & _ & ?)]; lia).
      split.
      * right. destruct H1 as [[= -> ->]|(? & ? & ?)]; [split_and!; [left|done|done]|].
        split_and!; [by right|done|lia].
      * intros q w [[= -> ->]|Hin]%elem_of_cons Hm; [done|]. by apply (H2 q w).
    + split.
      * destruct H1 as [?|(? & ? & ?)]; [by left|right]. split_and!; [by right|done..].
      * intros q w [[= -> ->]|Hin]%elem_of_cons Hm; [|by apply (H2 q w)].
        destruct H1 as [[= -> ->]|(_ & _ & ?)]; lia.
  - intros Hl. apply IH in Hl as [H1 H2]. split.
    + destruct H1 as [?|(? & ? & ?)]; [by left|right]. split_and!; [by right|done..].
    + intros q w [[= -> ->]|Hin]%elem_of_cons Hm; [|by apply (H2 q w)]. destruct Hm. congruence.
Qed.

Lemma longestPrefix_perm model (m : gmap string Z) l1 l2 :
  l1 ≡ₚ map_to_list m -> l2 ≡ₚ map_to_list m ->
  longestPrefix model l1 "" 0 = longestPrefix model l2 "" 0.
Proof.
  intros Hl1 Hl2.
  destruct (longestPrefix model l1 "" 0) as [p v] eqn:H1, (longestPrefix model l2 "" 0) as [q w] eqn:H2.
  apply longestPrefix_spec in H1 as [H1 M1], H2 as [H2 M2].
  assert (Hin1 : forall x y, (x, y) ∈ l1 <-> (x, y) ∈ l2) by (intros; by rewrite Hl1, Hl2).
  assert (H0 : slen "" = 0) by done.
  destruct H1 as [[= -> ->]|(I1 & W1 & L1)], H2 as [[= -> ->]|(I2 & W2 & L2)].
  - done.
  - apply Hin1 in I2. specialize (M1 q w I2 W2). lia.
  - apply Hin1 in I1. specialize (M2 p v I1 W1). lia.
  - pose proof (proj2 (Hin1 q w) I2) as I2'. pose proof (proj1 (Hin1 p v) I1) as I1'.
    assert (p = q) as <-.
    { apply (HasPrefix_same_length model); [apply W1|apply W2|].
      specialize (M1 q w I2' W2). specialize (M2 p v I1' W1). lia. }
    rewrite Hl1 in I1. rewrite Hl2 in I2. apply elem_of_map_to_list in I1, I2. congruence.
Qed.

(** The context window of a model does not depend on map order.  Two
    iterations over the same configuration find the same limit: an exact entry,
    else the entry of the longest prefix, else the default. *)
Theorem context_window_deterministic (R1 R2 : MapRange) config model :
  getContextWindowLimit (H := R1) config model = getContextWindowLimit (H := R2) config model.
Proof.
  unfold getContextWindowLimit. destruct (MaxContextWindow config !! model); [done|].
  by rewrite (longestPrefix_perm model (MaxContextWindow config)
    (range (MapRange := R1) (MaxContextWindow config)) (range (MapRange := R2) (MaxContextWindow config))) by apply range_perm.
Qed.

(** ** Prices do *)

(** Another admissible order of iteration. *)
Definition reverse_range : MapRange.
Proof.
  refine {| range V m := reverse (map_to_list m) |}. intros V m. apply reverse_Permutation.
Defined.

(** The default price list. *)
Definition default_pricing : CostsConfig :=
  mkCostsConfig (Some (list_to_map [
    ("openai", list_to_map [
       ("gpt-4", mkModelPricingConfig (flit 3 100) (flit 6 100) fzero);
       ("gpt-4-turbo", mkModelPricingConfig (flit 1 100) (flit 3 100) fzero);
       ("gpt-3.5-turbo", mkModelPricingConfig (flit 5 10000) (flit 15 10000) fzero)]);
    ("anthropic", list_to_map [
       ("claude-3-opus", mkModelPricingConfig (flit 15 1000) (flit 75 1000) fzero);
       ("claude-3-sonnet", mkModelPricingConfig (flit 3 1000) (flit 15 1000) fzero);
       ("claude-3-haiku", mkModelPricingConfig (flit 25 100000) (flit 125 100000) fzero)]);
    ("default", list_to_map [
       ("default", mkModelPricingConfig (flit 1 1000) (flit 2 1000) fzero)])])).

(** The price of a model that is not listed by its exact name depends on map
    order: with the default price list a dated GPT-4 Turbo model is charged as
    GPT-4 in one iteration order and as GPT-4 Turbo in another. *)
Example price_depends_on_map_order :
  let price R := PromptCostPer1KTokens <$> GetModelPricing (H := R) default_pricing "gpt-4-turbo-2024-04-09" "openai" in
  (price some_range = Some (flit 3 100) /\ price reverse_range = Some (flit 1 100)) \/
  (price some_range = Some (flit 1 100) /\ price reverse_range = Some (flit 3 100)).
Proof. vm_compute. first [left; split; reflexivity | right; split; reflexivity]. Qed.

Section cost_theorems.
Context `{MapRange}.
Variable config : CostsConfig.

Lemma pricing_with_default dp c model provider :
  Pricing config !! "default" = Some dp -> dp !! "default" = Some c ->
  exists p, GetModelPricing config model provider = Some p.
Proof.
  intros Hd Hc. unfold GetModelPricing. rewrite Hd. simpl. rewrite Hc. simpl.
  destruct (Pricing config !! provider ≫= _); eauto.
Qed.

(** With a default price every cost estimate succeeds, whatever the model
    and provider, and its total is the sum of its two parts; a price list that
    has neither the provider nor a default makes it panic. *)
Theorem request_cost_needs_default est model provider dp c :
  Pricing config !! "default" = Some dp -> dp !! "default" = Some c ->
  (exists ce, CalculateRequestCost config (Some est) model provider = Some (Ok ce) /\
     ce_TotalCost ce = fadd (ce_PromptCost ce) (ce_CompletionCost ce) /\
     ce_Model ce = model /\ ce_Provider ce = provider) /\
  CalculateRequestCost (mkCostsConfig (Some (delete "default" (delete provider (Pricing config))))) (Some est) model provider = None.
Proof.
  intros Hd Hc. split.
  - unfold CalculateRequestCost, pricingOrDefault.
    destruct (pricing_with_default dp c model provider Hd Hc) as [p ->]. simpl. eauto.
  - unfold CalculateRequestCost, pricingOrDefault, GetModelPricing.
    set (m := delete "default" _). change (Pricing (mkCostsConfig (Some m))) with m. subst m. simpl.
    assert (H1 : delete "default" (delete provider (Pricing config)) !! provider = None).
    { destruct (decide (provider = "default")) as [->|Hne]; [apply lookup_delete_eq|].
      by rewrite lookup_delete_ne, lookup_delete_eq. }
    rewrite H1, lookup_delete_eq. done.
Qed.

End cost_theorems.

Lemma request_cost_needs_default_witness :
  (exists ce, CalculateRequestCost (H := some_range) default_pricing
      (Some (mkTokenEstimate 1000 1000 2000 0 0 0 5 "m" fzero)) "llama-3" "default" = Some (Ok ce) /\
     ce_TotalCost ce = fadd (ce_PromptCost ce) (ce_CompletionCost ce) /\ ce_Model ce = "llama-3" /\
     ce_Provider ce = "default") /\
  CalculateRequestCost (H := some_range)
    (mkCostsConfig (Some (delete "default" (delete "default" (Pricing default_pricing)))))
    (Some (mkTokenEstimate 1000 1000 2000 0 0 0 5 "m" fzero)) "llama-3" "default" = None.
Proof.
  apply (request_cost_needs_default (H := some_range) default_pricing _ "llama-3" "default"
    (list_to_map [("default", mkModelPricingConfig (flit 1 1000) (flit 2 1000) fzero)])
    (mkModelPricingConfig (flit 1 1000) (flit 2 1000) fzero)); vm_compute; reflexivity.
Defined.
