(* ===== verification/ProcContent.v ===== *)
(** * Content analysis ([pkg/processing/content])

    Detection of personal data, sensitive words and prompt injection, and the
    sentiment and size measures of a text.  Regular expressions are a parameter
    ([TextRegexp]); the string functions are written out for UTF-8 text, as far
    as ASCII keywords and white space can tell. *)

From Stdlib Require Import ZArith Lia Ascii.
From stdpp Require Import base option list strings gmap pretty.
From S2P Require Import Prelude Float64 GoValue PolicyContext ProxyTypes.
Local Open Scope string_scope.
Local Open Scope Z_scope.
Local Open Scope go_scope.

(** ** Configuration *)

Record PIIConfig := mkPIIConfig { pii_Enabled : bool; pii_Types : list string; RedactInLogs : bool }.

Record SensitiveConfig := mkSensitiveConfig {
  sens_Enabled : bool;
  SeverityThreshold : string;
  sens_Categories : list string;
}.

Record InjectionConfig := mkInjectionConfig {
  inj_Enabled : bool;
  ConfidenceThreshold : float64;
  inj_Patterns : list string;
}.

Record ContentConfig := mkContentConfig {
  PII : PIIConfig;
  Sensitive : SensitiveConfig;
  Injection : InjectionConfig;
}.

(** ** Strings *)

(** [FindAllStringIndex] of a compiled pattern, and the case-insensitive match
    of a quoted literal. *)
Class TextRegexp : Type := {
  FindAllStringIndex : string -> string -> list (Z * Z);
  MatchLiteral : string -> string -> bool;
}.

(** [strings.ToLower] as far as ASCII keywords can tell: A-Z, and the two other
    runes whose lower case is ASCII, U+212A (k) and U+0130 (i). *)
Fixpoint lowerText (s : string) : string :=
  match s with
  | EmptyString => ""
  | String "226" (String "132" (String "170" s)) => String "k" (lowerText s)
  | String "196" (String "176" s) => String "i" (lowerText s)
  | String c s => String (lower c) (lowerText s)
  end.

(** [strings.Count(s, w)] for a non-empty [w]: occurrences that do not overlap. *)
Fixpoint countFrom (w : string) (skip : nat) (s : string) : Z :=
  match s with
  | EmptyString => 0
  | String _ s' =>
      match skip with
      | S skip => countFrom w skip s'
      | O => if HasPrefix s w then 1 + countFrom w (String.length w - 1) s' else countFrom w 0 s'
      end
  end.

Definition Count_text (s w : string) : Z := countFrom w 0 s.

(** The length in bytes of the white space rune at the head of a text, 0 if
    there is none ([unicode.IsSpace]). *)
Definition spaceLen (s : string) : nat :=
  match s with
  | String c rest =>
      if is_space c then 1
      else match c, rest with
           | "194"%char, String "133" _ | "194"%char, String "160" _ => 2
           | "225"%char, String "154" (String "128" _) => 3
           | "226"%char, String "128" (String d _) =>
               let n := nat_of_ascii d in
               if ((128 <=? n) && (n <=? 138) || (n =? 168) || (n =? 169) || (n =? 175))%nat then 3 else 0
           | "226"%char, String "129" (String "159" _) => 3
           | "227"%char, String "128" (String "128" _) => 3
           | _, _ => 0
           end
  | EmptyString => 0
  end.

(** [len(strings.Fields(text))]: maximal runs without white space. *)
Fixpoint fieldsFrom (inWord : bool) (skip : nat) (s : string) : Z :=
  match s with
  | EmptyString => 0
  | String _ s' =>
      match skip with
      | S skip => fieldsFrom inWord skip s'
      | O =>
          match spaceLen s with
          | S n => fieldsFrom false n s'
          | O => (if inWord then 0 else 1) + fieldsFrom true 0 s'
          end
      end
  end.

Definition countWords (text : string) : Z :=
  if String.eqb text "" then 0 else fieldsFrom false 0 text.

Fixpoint countMarks (s : string) : Z :=
  match s with
  | EmptyString => 0
  | String c s => Z.b2z (Ascii.eqb c "." || Ascii.eqb c "!" || Ascii.eqb c "?") + countMarks s
  end.

Definition countSentences (text : string) : Z :=
  if String.eqb text "" then 0
  else let count := countMarks text in
       if (count =? 0) && (0 <? slen text) then 1 else count.

Definition detectLanguage (text : string) : string := "en".

Definition containsAny (haystack needles : list string) : bool :=
  existsb (fun h => existsb (fun n => Contains (lowerText h) (lowerText n)) needles) haystack.

(** ** Results the policy engine sees only through reflection *)

Record PIILocation := mkPIILocation {
  loc_Type : string;
  loc_Start : Z;
  loc_End : Z;
  loc_Confidence : float64;
}.

Record SensitiveContent := mkSensitiveContent {
  HasSensitiveContent : bool;
  sc_Categories : list string;
  sc_Severity : string;
  sc_MatchCount : Z;
}.

Record Sentiment := mkSentiment { sent_Score : float64; sent_Label : string; sent_Confidence : float64 }.

Definition reflect_PIILocation (l : PIILocation) : GoValue :=
  VStruct "content.PIILocation" [("Type", VString (loc_Type l)); ("Start", vint (loc_Start l));
    ("End", vint (loc_End l)); ("Confidence", VFloat64 (loc_Confidence l))].

Definition reflect_SensitiveContent (s : SensitiveContent) : GoValue :=
  VStruct "content.SensitiveContent" [("HasSensitiveContent", VBool (HasSensitiveContent s));
    ("Categories", vstrings (sc_Categories s)); ("Severity", VString (sc_Severity s));
    ("MatchCount", vint (sc_MatchCount s))].

Definition reflect_Sentiment (s : Sentiment) : GoValue :=
  VStruct "content.Sentiment" [("Score", VFloat64 (sent_Score s)); ("Label", VString (sent_Label s));
    ("Confidence", VFloat64 (sent_Confidence s))].

(** [content.ContentAnalysis] with its typed parts. *)
Record Analysis := mkAnalysis {
  an_PIIDetection : option PIIDetection;
  an_SensitiveContent : option SensitiveContent;
  an_PromptInjection : option PromptInjection;
  an_Sentiment : option Sentiment;
  an_Language : string;
  an_WordCount : Z;
  an_SentenceCount : Z;
  an_AverageWordLength : float64;
}.

Definition engine_analysis (a : Analysis) : ContentAnalysis :=
  mkContentAnalysis (an_PIIDetection a)
    (vptr "*content.SensitiveContent" reflect_SensitiveContent (an_SensitiveContent a))
    (an_PromptInjection a) (vptr "*content.Sentiment" reflect_Sentiment (an_Sentiment a))
    (an_Language a) (an_WordCount a) (an_SentenceCount a) (an_AverageWordLength a).

Definition empty_analysis : Analysis := mkAnalysis None None None None "" 0 0 fzero.

(** ** The analyzer *)

(** [compilePIIPatterns] *)
Definition piiPatterns : list (string * string) :=
  [("email", "\b[A-Za-z0-9._%+-]+@[A-Za-z0-9.-]+\.[A-Z|a-z]{2,}\b");
   ("phone", "\b(\+?1?[-.\s]?)?\(?\d{3}\)?[-.\s]?\d{3}[-.\s]?\d{4}\b");
   ("ssn", "\b\d{3}-\d{2}-\d{4}\b");
   ("credit_card", "\b\d{4}[\s-]?\d{4}[\s-]?\d{4}[\s-]?\d{4}\b");
   ("ip_address", "\b(?:\d{1,3}\.){3}\d{1,3}\b")].

Definition categoryKeywords : list (string * list string) :=
  [("profanity", ["fuck"; "shit"; "damn"; "ass"; "bitch"]);
   ("violence", ["kill"; "murder"; "attack"; "weapon"; "blood"; "death"]);
   ("hate_speech", ["hate"; "racist"; "discrimination"]);
   ("adult_content", ["sex"; "porn"; "nude"; "explicit"])].

Definition positiveWords : list string :=
  ["good"; "great"; "excellent"; "amazing"; "wonderful"; "happy"; "love"; "best"; "thank"; "perfect"].

Definition negativeWords : list string :=
  ["bad"; "terrible"; "awful"; "horrible"; "worst"; "hate"; "angry"; "sad"; "wrong"; "fail"].

Section analyzer.
Context `{TextRegexp}.
Variable config : ContentConfig.

(** One configured type of personal data. *)
Definition piiStep (text : string) (st : PIIDetection * list PIILocation) (piiType : string) :
    PIIDetection * list PIILocation :=
  match assoc piiType piiPatterns with
  | None => st
  | Some pattern =>
      match FindAllStringIndex pattern text with
      | [] => st
      | matches =>
          let '(d, locs) := st in
          (mkPIIDetection true (PIITypes d ++ [piiType])%list (PIICount d +64 Z.of_nat (length matches)) VNil,
           (locs ++ ((fun '(a, b) => mkPIILocation piiType a b (of_int 1)) <$> matches))%list)
      end
  end.

Definition detectPII (text : string) : PIIDetection :=
  let '(d, locs) := foldl (piiStep text) (mkPIIDetection false [] 0 VNil, []) (pii_Types (PII config)) in
  mkPIIDetection (HasPII d) (PIITypes d) (PIICount d)
    (VSlice "[]content.PIILocation" (reflect_PIILocation <$> locs)).

Definition sensitiveStep (textLower : string) (st : list string * Z) (category : string) : list string * Z :=
  match assoc category categoryKeywords with
  | None => st
  | Some keywords =>
      let categoryMatches := countb (Contains textLower) keywords in
      if 0 <? categoryMatches then ((fst st ++ [category])%list, snd st +64 categoryMatches) else st
  end.

Definition severity (totalMatches : Z) : string :=
  if 5 <=? totalMatches then "critical"
  else if 3 <=? totalMatches then "high"
  else if 1 <=? totalMatches then "medium"
  else "low".

Definition detectSensitiveContent (text : string) : SensitiveContent :=
  let '(cats, total) := foldl (sensitiveStep (lowerText text)) ([], 0) (sens_Categories (Sensitive config)) in
  mkSensitiveContent (negb (length cats =? 0)%nat) cats (severity total) total.

Definition detectPromptInjection (text : string) : PromptInjection :=
  let matched := List.filter (fun p => MatchLiteral p text) (inj_Patterns (Injection config)) in
  match matched with
  | [] => mkPromptInjection false "" fzero []
  | _ =>
      mkPromptInjection true
        (if containsAny matched ["ignore"; "disregard"; "forget"] then "direct"
         else if containsAny matched ["you are now"] then "jailbreak" else "indirect")
        (if (3 <=? length matched)%nat then flit 95 100
         else if (2 <=? length matched)%nat then flit 85 100 else flit 75 100)
        matched
  end.

Definition analyzeSentiment (text : string) : Sentiment :=
  let textLower := lowerText text in
  let positiveCount := foldl (fun n w => n +64 Count_text textLower w) 0 positiveWords in
  let negativeCount := foldl (fun n w => n +64 Count_text textLower w) 0 negativeWords in
  let total := positiveCount +64 negativeCount in
  let score := if 0 <? total then fdiv (of_int (positiveCount -64 negativeCount)) (of_int total) else fzero in
  mkSentiment score
    (if flt (flit 2 10) score then "positive" else if flt score (flit (-2) 10) then "negative" else "neutral")
    (flit 7 10).

Definition AnalyzeText (text : string) : Analysis :=
  if String.eqb text "" then empty_analysis
  else
    let words := countWords text in
    mkAnalysis
      (if pii_Enabled (PII config) then Some (detectPII text) else None)
      (if sens_Enabled (Sensitive config) then Some (detectSensitiveContent text) else None)
      (if inj_Enabled (Injection config) then Some (detectPromptInjection text) else None)
      (Some (analyzeSentiment text)) (detectLanguage text) words (countSentences text)
      (if 0 <? words then fdiv (of_int (slen text)) (of_int words) else fzero).

End analyzer.

(** ** Detection is exact *)

Section detection.
Context `{TextRegexp}.
Variable config : ContentConfig.

(** The matches of one type of personal data. *)
Definition pii_matches (text piiType : string) : list (Z * Z) :=
  match assoc piiType piiPatterns with
  | Some pattern => FindAllStringIndex pattern text
  | None => []
  end.

Definition has_matches (text piiType : string) : bool := negb (length (pii_matches text piiType) =? 0)%nat.

Lemma piiStep_spec text d locs t :
  piiStep text (d, locs) t =
  if has_matches text t then
    (mkPIIDetection true (PIITypes d ++ [t])%list (PIICount d +64 Z.of_nat (length (pii_matches text t))) VNil,
     (locs ++ ((fun '(a, b) => mkPIILocation t a b (of_int 1)) <$> pii_matches text t))%list)
  else (d, locs).
Proof.
  unfold piiStep, has_matches, pii_matches. destruct (assoc t piiPatterns); [|done].
  by destruct (FindAllStringIndex _ text).
Qed.

Definition match_total (text : string) (types : list string) : Z :=
  Zsum (fun t => Z.of_nat (length (pii_matches text t))) types.

Lemma piiFold_spec text types d locs :
  0 <= PIICount d -> PIICount d + match_total text types <= max_int64 ->
  let r := fst (foldl (piiStep text) (d, locs) types) in
  HasPII r = HasPII d || existsb (has_matches text) types /\
  PIITypes r = (PIITypes d ++ List.filter (has_matches text) types)%list /\
  PIICount r = PIICount d + match_total text types.
Proof.
  revert d locs. induction types as [|t types IH]; intros d locs Hd Hb.
  { simpl. by rewrite orb_false_r, app_nil_r, Z.add_0_r. }
  assert (Ht : match_total text (t :: types) = Z.of_nat (length (pii_matches text t)) + match_total text types) by done.
  assert (Hn : 0 <= match_total text types) by (apply Zsum_nonneg; intros; lia).
  rewrite Ht in *. cbn [foldl existsb List.filter]. rewrite piiStep_spec.
  destruct (has_matches text t) eqn:Hm.
  - match goal with |- context [foldl (piiStep text) (?d', ?l') types] => destruct (IH d' l') as (-> & -> & ->) end;
      cbn [HasPII PIITypes PIICount]; [unfold add64; rewrite wrap64_id; lia64..|].
    rewrite <- app_assoc, orb_true_r. split_and!; [done..|]. unfold add64. rewrite wrap64_id; lia64.
  - destruct (IH d locs) as (-> & -> & ->); [lia..|]. split_and!; [done..|].
    unfold has_matches in Hm. apply negb_false_iff, Nat.eqb_eq in Hm. rewrite Hm. lia.
Qed.

Lemma pii_detection_spec text :
  match_total text (pii_Types (PII config)) <= max_int64 ->
  let d := detectPII config text in
  (HasPII d = true <-> exists t, t ∈ pii_Types (PII config) /\ pii_matches text t <> []) /\
  PIITypes d = List.filter (has_matches text) (pii_Types (PII config)) /\
  PIICount d = match_total text (pii_Types (PII config)).
Proof.
  intros Hb. unfold detectPII.
  pose proof (piiFold_spec text (pii_Types (PII config)) (mkPIIDetection false [] 0 VNil) [] ltac:(simpl; lia) Hb) as Hs.
  destruct (foldl _ _ _) as [d locs]. cbn [fst HasPII PIITypes PIICount orb app] in *.
  destruct Hs as (H1 & H2 & H3). split_and!; [|done|lia].
  rewrite H1, existsb_exists. split.
  - intros (t & Hin & Ht). exists t. split; [by apply list_elem_of_In|].
    intros Hn. unfold has_matches in Ht. by rewrite Hn in Ht.
  - intros (t & Hin & Ht). exists t. split; [by apply list_elem_of_In|].
    unfold has_matches. by destruct (pii_matches text t).
Qed.

(** Personal data is reported exactly.  A text is flagged if and only if the
    pattern of some configured type matches it; the reported types are the
    configured ones that match, in configuration order, and the count is the
    number of all their matches. *)
Theorem pii_detection_exact text :
  match_total text (pii_Types (PII config)) <= max_int64 ->
  let d := detectPII config text in
  (HasPII d = true <-> exists t, t ∈ pii_Types (PII config) /\ pii_matches text t <> []) /\
  PIITypes d = List.filter (has_matches text) (pii_Types (PII config)) /\
  PIICount d = match_total text (pii_Types (PII config)).
Proof. apply pii_detection_spec. Qed.

End detection.

(** A matcher for the examples: a text holds an e-mail address if it has an
    at sign, and literals match as they are. *)
Definition ex_regexp : TextRegexp := {|
  FindAllStringIndex p s :=
    if String.eqb p "\b[A-Za-z0-9._%+-]+@[A-Za-z0-9.-]+\.[A-Z|a-z]{2,}\b" && Contains s "@" then [(0, slen s)] else [];
  MatchLiteral p s := Contains (lowerText s) (lowerText p);
|}.

Definition ex_content_config : ContentConfig :=
  mkContentConfig (mkPIIConfig true ["email"; "ssn"] true) (mkSensitiveConfig true "medium" ["violence"])
    (mkInjectionConfig true (flit 7 10) ["ignore previous instructions"]).

Lemma pii_detection_exact_witness :
  HasPII (detectPII (H := ex_regexp) ex_content_config "mail me@example.com") = true.
Proof.
  apply (pii_detection_exact (H := ex_regexp) ex_content_config "mail me@example.com").
  - vm_compute. congruence.
  - exists "email". split; [left|]. vm_compute. congruence.
Defined.
