(* ===== verification/Processing.v ===== *)
(** * The request processor ([pkg/processing/processor.go], [types.go])

    Enriches a request or a response with token and cost estimates, content and
    conversation analysis and scores, for the policy engine and the evidence
    recorder.  [engine_request_of] is the value the policy engine evaluates. *)

From Stdlib Require Import ZArith Lia Ascii.
From stdpp Require Import base option list strings gmap pretty.
From S2P Require Import Prelude Float64 GoValue PolicyContext ProviderTypes ProxyTypes ProxyHandlers ProcTokens ProcContent PolicyMatcher.
Local Open Scope string_scope.
Local Open Scope Z_scope.
Local Open Scope go_scope.

Record ProcessingConfig := mkProcessingConfig {
  Tokens : TokensConfig;
  Costs : CostsConfig;
  Content : ContentConfig;
  Conversation : ConversationConfig;
}.

(** [processing.EnrichedRequest] with its typed parts. *)
Record EnrichedReq := mkEnrichedReq {
  x_RequestID : string;
  x_OriginalRequest : ChatRequest;
  x_TokenEstimate : option TokenEstimate;
  x_CostEstimate : option CostEstimate;
  x_ContentAnalysis : option Analysis;
  x_ConversationContext : option ConversationContext;
  x_ModelFamily : string;
  x_PricingTier : string;
  x_EstimatedLatency : Duration;
  x_ComplexityScore : Z;
  x_RiskScore : Z;
  x_ProcessingDuration : Duration;
}.

Definition engine_request_of (x : EnrichedReq) : EnrichedRequest :=
  mkEnrichedRequest (x_RequestID x) (Some (engine_request (x_OriginalRequest x))) (x_TokenEstimate x)
    (x_CostEstimate x) (engine_analysis <$> x_ContentAnalysis x) (x_ConversationContext x) (x_ModelFamily x)
    (x_PricingTier x) (x_EstimatedLatency x) (x_ComplexityScore x) (x_RiskScore x) (x_ProcessingDuration x).

Record FinishReasonInfo := mkFinishReasonInfo {
  fr_FinishReason : string;
  fr_IsExpected : bool;
  fr_RequiresAction : bool;
  fr_Description : string;
  fr_Severity : string;
}.

Record LatencyInfo := mkLatencyInfo {
  NetworkLatency : Duration;
  ProviderProcessing : Duration;
  StreamingOverhead : Duration;
  TotalLatency : Duration;
}.

Record QualityInfo := mkQualityInfo {
  Coherence : float64;
  Relevance : float64;
  Safety : float64;
  OverallScore : float64;
}.

(** [processing.EnrichedResponse] with its typed parts. *)
Record EnrichedResp := mkEnrichedResp {
  y_RequestID : string;
  y_OriginalResponse : option PResponse;
  y_TokenUsage : option TokenUsage;
  y_CostEstimate : option CostEstimate;
  y_ContentAnalysis : option Analysis;
  y_FinishReason : FinishReasonInfo;
  y_TokenEfficiency : float64;
  y_Latency : LatencyInfo;
  y_Quality : QualityInfo;
  y_ProcessingDuration : Duration;
}.

(** ** Inference from the model name *)

Definition inferProvider (model : string) : string :=
  let m := lowerText model in
  if Contains m "gpt" || Contains m "openai" then "openai"
  else if Contains m "claude" || Contains m "anthropic" then "anthropic"
  else if Contains m "gemini" || Contains m "palm" then "google"
  else "default".

Definition inferModelFamily (model : string) : string :=
  let m := lowerText model in
  if Contains m "gpt-4" then "GPT-4"
  else if Contains m "gpt-3.5" then "GPT-3.5"
  else if Contains m "claude-3-opus" then "Claude 3 Opus"
  else if Contains m "claude-3-sonnet" then "Claude 3 Sonnet"
  else if Contains m "claude-3-haiku" then "Claude 3 Haiku"
  else if Contains m "claude" then "Claude"
  else "Unknown".

Definition combineMessageContent (messages : list Message) : string :=
  join_parts (omap (fun m => match m_Content m with
                             | VString s => if String.eqb s "" then None else Some s
                             | _ => None
                             end) messages).

Definition estimateLatency (tokens : Z) (model : string) : Duration :=
  let perTokenLatency := if Contains (lowerText model) "turbo" then 3 * Millisecond else 5 * Millisecond in
  500 * Millisecond +64 tokens *64 perTokenLatency.

Definition in_list (l : list string) (s : string) : bool := existsb (String.eqb s) l.

(** ** Scores *)

Definition calculateComplexityScore (req : ChatRequest) (est : TokenEstimate) : Z :=
  let t := te_TotalTokens est in
  let m := Z.of_nat (length (cq_Messages req)) in
  let n := Z.of_nat (length (cq_Tools req)) in
  let score := 1 in
  let score := score + (if 10000 <? t then 3 else if 5000 <? t then 2 else if 1000 <? t then 1 else 0) in
  let score := score + (if 20 <? m then 3 else if 10 <? m then 2 else if 5 <? m then 1 else 0) in
  let score := score + (if 5 <? n then 3 else if 0 <? n then 1 else 0) in
  if 10 <? score then 10 else score.

Definition piiRisk (d : option PIIDetection) : Z :=
  match d with
  | Some d => if HasPII d then 2 + (if 5 <? PIICount d then 2 else 0) else 0
  | None => 0
  end.

Definition sensitiveRisk (s : option SensitiveContent) : Z :=
  match s with
  | Some s =>
      if HasSensitiveContent s then
        if String.eqb (sc_Severity s) "critical" then 5
        else if String.eqb (sc_Severity s) "high" then 3
        else if String.eqb (sc_Severity s) "medium" then 2
        else if String.eqb (sc_Severity s) "low" then 1 else 0
      else 0
  | None => 0
  end.

Definition injectionRisk (i : option PromptInjection) : Z :=
  match i with
  | Some i => if HasPromptInjection i then 3 + (if flt (flit 9 10) (pi_Confidence i) then 2 else 0) else 0
  | None => 0
  end.

Definition calculateRiskScore (analysis : option Analysis) : Z :=
  match analysis with
  | None => 1
  | Some a =>
      let score := 1 + piiRisk (an_PIIDetection a) + sensitiveRisk (an_SensitiveContent a)
                     + injectionRisk (an_PromptInjection a) in
      if 10 <? score then 10 else score
  end.

Definition analyzeFinishReason (reason : string) : FinishReasonInfo :=
  if in_list ["stop"; "end_turn"] reason then
    mkFinishReasonInfo reason true false "Completion finished naturally" "info"
  else if in_list ["length"; "max_tokens"] reason then
    mkFinishReasonInfo reason false true
      "Completion truncated due to length limit. Consider increasing max_tokens." "warning"
  else if in_list ["content_filter"] reason then
    mkFinishReasonInfo reason false true "Content was filtered due to safety policies. Review request content." "error"
  else if in_list ["tool_calls"; "function_call"] reason then
    mkFinishReasonInfo reason true false "Model requested tool/function call" "info"
  else mkFinishReasonInfo reason false false ("Unknown finish reason: " +:+ reason) "warning".

Definition calculateQualityMetrics (analysis : option Analysis) : QualityInfo :=
  let safety :=
    match analysis with
    | Some a =>
        match an_SensitiveContent a with
        | Some s =>
            if HasSensitiveContent s then
              if String.eqb (sc_Severity s) "critical" then flit 2 10
              else if String.eqb (sc_Severity s) "high" then flit 5 10
              else if String.eqb (sc_Severity s) "medium" then flit 7 10 else of_int 1
            else of_int 1
        | None => of_int 1
        end
    | None => of_int 1
    end in
  let coherence :=
    match analysis with
    | Some a =>
        match an_Sentiment a with
        | Some s => fadd (flit 7 10) (fmul (sent_Confidence s) (flit 3 10))
        | None => flit 8 10
        end
    | None => flit 8 10
    end in
  let relevance := flit 8 10 in
  mkQualityInfo coherence relevance safety
    (fadd (fadd (fmul coherence (flit 3 10)) (fmul relevance (flit 3 10))) (fmul safety (flit 4 10))).

(** ** Processing *)

Section processor.
Context `{MapRange} `{JsonParams} `{FmtValue} `{TextRegexp}.
Variable config : ProcessingConfig.

(** [time.Since(startTime)]; the processor reads the clock at the start and at
    the end.  [None] is a panic. *)
Definition ProcessRequest (requestID : string) (req : ChatRequest) (started ended : Time) :
    option (result string EnrichedReq) :=
  match EstimateRequest (Tokens config) (Some req) with
  | Err e => Some (Err ("failed to estimate tokens: " +:+ e))
  | Ok tokenEst =>
      cost ← CalculateRequestCost (Costs config) (Some tokenEst) (cq_Model req) (inferProvider (cq_Model req));
      let costEst := match cost with Ok c => Some c | Err _ => None end in
      let contentText := combineMessageContent (cq_Messages req) in
      let analysis :=
        if String.eqb contentText "" then None else Some (AnalyzeText (Content config) contentText) in
      let conversation :=
        AnalyzeConversation (Conversation config) (cq_Messages req) (cq_Model req) (te_PromptTokens tokenEst) in
      Some (Ok (mkEnrichedReq requestID req (Some tokenEst) costEst analysis (Some conversation)
        (inferModelFamily (cq_Model req)) "standard" (estimateLatency (te_TotalTokens tokenEst) (cq_Model req))
        (calculateComplexityScore req tokenEst) (calculateRiskScore analysis) (SubT ended started)))
  end.

Definition ProcessResponse (requestID : string) (meta : ResponseMetadata) (resp : PResponse) (started ended : Time) :
    option (result string EnrichedResp) :=
  let usage := mkTokenUsage (pu_PromptTokens (ps_Usage resp)) (pu_CompletionTokens (ps_Usage resp))
                 (pu_TotalTokens (ps_Usage resp)) 0 in
  cost ← CalculateResponseCost (Costs config) (Some usage) (ps_Model resp) (inferProvider (ps_Model resp));
  let costEst := match cost with Ok c => Some c | Err _ => None end in
  let analysis :=
    if String.eqb (ps_Content resp) "" then None else Some (AnalyzeText (Content config) (ps_Content resp)) in
  Some (Ok (mkEnrichedResp requestID (Some resp) (Some usage) costEst analysis
    (analyzeFinishReason (ps_FinishReason resp))
    (if 0 <? tu_TotalTokens usage then fdiv (of_int (tu_CompletionTokens usage)) (of_int (tu_TotalTokens usage)) else fzero)
    (mkLatencyInfo (sm_Latency meta -64 sm_ProviderLatency meta) (sm_ProviderLatency meta) 0 (sm_Latency meta))
    (calculateQualityMetrics analysis) (SubT ended started))).

End processor.

(** ** Bounds *)

Lemma risk_bounds analysis : 1 <= calculateRiskScore analysis <= 10.
Proof.
  unfold calculateRiskScore. destruct analysis as [a|]; [|lia].
  assert (0 <= piiRisk (an_PIIDetection a)) by (unfold piiRisk; repeat case_match; lia).
  assert (0 <= sensitiveRisk (an_SensitiveContent a)) by (unfold sensitiveRisk; repeat case_match; lia).
  assert (0 <= injectionRisk (an_PromptInjection a)) by (unfold injectionRisk; repeat case_match; lia).
  destruct (Z.ltb_spec 10 (1 + piiRisk (an_PIIDetection a) + sensitiveRisk (an_SensitiveContent a)
    + injectionRisk (an_PromptInjection a))); lia.
Qed.

Lemma complexity_bounds req est : 1 <= calculateComplexityScore req est <= 10.
Proof. unfold calculateComplexityScore. repeat case_match; lia. Qed.

Lemma completionDefault_bounds n : 100 <= completionDefault n <= 1000.
Proof. unfold completionDefault. repeat case_match; lia. Qed.

Section processing_theorems.
Context `{MapRange} `{JsonParams} `{FmtValue} `{TextRegexp}.
Variable config : ProcessingConfig.

(** A request is enriched whenever a default price is configured: the
    processor does not panic and does not fail; the token total is the prompt
    plus the completion estimate, the completion estimate is the requested
    maximum or lies between 100 and 1000, and both scores lie between 1 and 10. *)
Theorem process_request_total requestID req started ended dp c :
  Pricing (Costs config) !! "default" = Some dp -> dp !! "default" = Some c ->
  exists x est, ProcessRequest config requestID req started ended = Some (Ok x) /\
    x_TokenEstimate x = Some est /\ x_RequestID x = requestID /\ x_OriginalRequest x = req /\
    te_TotalTokens est = te_PromptTokens est +64 te_EstimatedCompletionTokens est /\
    match cq_MaxTokens req with
    | Some n => if 0 <? n then te_EstimatedCompletionTokens est = n
                else 100 <= te_EstimatedCompletionTokens est <= 1000
    | None => 100 <= te_EstimatedCompletionTokens est <= 1000
    end /\
    1 <= x_RiskScore x <= 10 /\ 1 <= x_ComplexityScore x <= 10.
Proof.
  intros Hd Hc. unfold ProcessRequest, EstimateRequest. cbv zeta.
  unfold CalculateRequestCost, pricingOrDefault.
  destruct (pricing_with_default (Costs config) dp c (cq_Model req) (inferProvider (cq_Model req)) Hd Hc) as [p ->].
  simpl. do 2 eexists. split; [done|]. simpl.
  split_and!; try done; try apply risk_bounds; try apply complexity_bounds.
  destruct (cq_MaxTokens req) as [n|]; [|apply completionDefault_bounds].
  destruct (0 <? n); [done|apply completionDefault_bounds].
Qed.


Lemma process_request_analysis requestID req started ended x :
  ProcessRequest config requestID req started ended = Some (Ok x) ->
  x_ContentAnalysis x =
    (if String.eqb (combineMessageContent (cq_Messages req)) "" then None
     else Some (AnalyzeText (Content config) (combineMessageContent (cq_Messages req)))) /\
  x_RiskScore x = calculateRiskScore (x_ContentAnalysis x).
Proof.
  unfold ProcessRequest, EstimateRequest. cbv zeta.
  destruct (CalculateRequestCost _ _ _ _) as [cost|]; simpl; [|done]. intros [= <-]. done.
Qed.

(** The policy function [has_pii] answers for what the client wrote.  On the
    context of a processed request it holds exactly when detection is enabled
    and the pattern of a configured type matches the joined plain-text contents
    of the messages. *)
Theorem has_pii_end_to_end requestID req started ended x c :
  let text := combineMessageContent (cq_Messages req) in
  match_total text (pii_Types (PII (Content config))) <= max_int64 ->
  ProcessRequest config requestID req started ended = Some (Ok x) ->
  Request c = Some (engine_request_of x) ->
  hasPII c = true <->
  pii_Enabled (PII (Content config)) = true /\ text <> "" /\
  exists t, t ∈ pii_Types (PII (Content config)) /\ pii_matches text t <> [].
Proof.
  intros text Hb Hp Hc. apply process_request_analysis in Hp as [Ha _]. fold text in Ha.
  unfold hasPII. rewrite Hc. simpl. rewrite Ha.
  destruct (String.eqb_spec text "") as [Ht|Ht]; simpl.
  { split; [done|]. by intros (_ & ? & _). }
  unfold AnalyzeText. rewrite (proj2 (String.eqb_neq _ _) Ht). simpl.
  destruct (pii_Enabled (PII (Content config))); simpl; [|split; [done|by intros (? & _)]].
  pose proof (pii_detection_spec (Content config) text Hb) as (Hd & _). rewrite Hd. split; [|by intros (_ & _ & ?)].
  auto.
Qed.

(** Content given as an array of parts is not analysed at all.  When no
    message has plain text, whatever the parts contain and the provider is sent,
    there is no content analysis, the risk score is 1, and the policy functions
    [has_pii] and [has_injection] answer no. *)
Theorem multimodal_content_not_analyzed requestID req started ended x c :
  Forall (fun m => match m_Content m with VString _ => False | _ => True end) (cq_Messages req) ->
  ProcessRequest config requestID req started ended = Some (Ok x) ->
  Request c = Some (engine_request_of x) ->
  x_ContentAnalysis x = None /\ x_RiskScore x = 1 /\ hasPII c = false /\ hasInjection c = false.
Proof.
  intros Hm Hp Hc. apply process_request_analysis in Hp as [Ha Hr].
  assert (Ht : combineMessageContent (cq_Messages req) = "").
  { clear - Hm. unfold combineMessageContent. induction Hm as [|m l Hm _ IH]; [done|]. simpl.
    destruct (m_Content m); done || exact IH. }
  rewrite Ht in Ha. simpl in Ha. rewrite Ha in Hr.
  unfold hasPII, hasInjection. rewrite Hc. simpl. rewrite Ha. done.
Qed.

End processing_theorems.

(** ** Examples *)

Definition ex_json_params : JsonParams := {| marshal_params _ := Some "{}" |}.

Definition ex_processing : ProcessingConfig :=
  mkProcessingConfig (mkTokensConfig "simple" 1000 (Some {[ "default" := of_int 4 ]})) default_pricing ex_content_config
    (mkConversationConfig (Some {[ "gpt-4" := 8192 ]}) (flit 8 10)).

Definition ex_pii_chat (content : GoValue) : ChatRequest :=
  mkChatRequest "gpt-4" [mkMessage "user" content "" [] ""] None None None None false [] None None "" [] VNil None None.

Definition ex_parts : GoValue :=
  VSlice "[]interface {}" [VMap "map[string]interface {}" [("type", VString "text"); ("text", VString "mail me@example.com")]].

Definition ex_processed (content : GoValue) : option (result string EnrichedReq) :=
  ProcessRequest (H := some_range) (H0 := ex_json_params) (H1 := ex_sprint) (H2 := ex_regexp) ex_processing "id"
    (ex_pii_chat content) 0 0.

Lemma process_request_total_witness :
  exists x est, ex_processed (VString "hi") = Some (Ok x) /\ x_TokenEstimate x = Some est /\
    100 <= te_EstimatedCompletionTokens est <= 1000.
Proof.
  destruct (process_request_total (H := some_range) (H0 := ex_json_params) (H1 := ex_sprint) (H2 := ex_regexp)
    ex_processing "id" (ex_pii_chat (VString "hi")) 0 0
    (list_to_map [("default", mkModelPricingConfig (flit 1 1000) (flit 2 1000) fzero)])
    (mkModelPricingConfig (flit 1 1000) (flit 2 1000) fzero)) as (x & est & Hx & He & _ & _ & _ & Hc & _);
    [vm_compute; reflexivity..|].
  exists x, est. exact (conj Hx (conj He Hc)).
Defined.

(** The context of a processed request. *)
Definition ex_context (x : EnrichedReq) : EvaluationContext :=
  mkEvaluationContext "id" (Some (engine_request_of x)) None [] ∅ [] [] [] None "" 0 None 0 false.

Lemma has_pii_end_to_end_witness :
  exists x, ex_processed (VString "mail me@example.com") = Some (Ok x) /\ hasPII (ex_context x) = true.
Proof.
  remember (ex_processed (VString "mail me@example.com")) as p eqn:Hp.
  destruct p as [[x|]|]; [|exfalso; vm_compute in Hp; congruence..].
  exists x. split; [done|].
  apply (has_pii_end_to_end (H := some_range) (H0 := ex_json_params) (H1 := ex_sprint) (H2 := ex_regexp)
    ex_processing "id" (ex_pii_chat (VString "mail me@example.com")) 0 0 x (ex_context x));
    [vm_compute; congruence|by symmetry|reflexivity|].
  split; [reflexivity|]. split; [vm_compute; congruence|].
  exists "email". split; [left|]. vm_compute. congruence.
Defined.

Lemma multimodal_content_not_analyzed_witness :
  exists x, ex_processed ex_parts = Some (Ok x) /\ hasPII (ex_context x) = false /\
    convertMessageContent (H := ex_sprint) ex_parts = "mail me@example.com".
Proof.
  remember (ex_processed ex_parts) as p eqn:Hp.
  destruct p as [[x|]|]; [|exfalso; vm_compute in Hp; congruence..].
  exists x. split; [done|]. split; [|vm_compute; reflexivity].
  apply (multimodal_content_not_analyzed (H := some_range) (H0 := ex_json_params) (H1 := ex_sprint) (H2 := ex_regexp)
    ex_processing "id" (ex_pii_chat ex_parts) 0 0 x (ex_context x)); [by repeat constructor|by symmetry|reflexivity].
Defined.
