(* ===== verification/Recorder.v ===== *)
(** * The evidence recorder ([pkg/evidence/recorder])

    Builds an evidence record from an enriched request and its policy decision,
    keeps it until the response arrives, completes it and hands it to a
    background worker over a bounded channel.  The record builders are
    functions; the recorder itself, its channel and its worker are a step
    relation over all interleavings.  SHA-256 and JSON encoding are parameters. *)

From Stdlib Require Import ZArith Lia Ascii.
From stdpp Require Import base option list strings gmap.
From S2P Require Import Prelude Float64 GoValue PolicyContext ProviderTypes ProxyTypes ProcTokens ProcContent Processing Evidence.
Local Open Scope string_scope.
Local Open Scope Z_scope.

Record RecorderConfig := mkRecorderConfig {
  rec_Enabled : bool;
  AsyncBuffer : Z;
  WriteTimeout : Duration;
  HashRequest : bool;
  HashResponse : bool;
  RedactAPIKeys : bool;
  MaxFieldLength : Z;
}.

Definition DefaultRecorderConfig : RecorderConfig :=
  mkRecorderConfig true 1000 (5 * Second) true true true 500.

(** [hex.EncodeToString(sha256.Sum256(b))] and [json.Marshal] of the bodies. *)
Class Digest : Type := {
  sha256hex : string -> string;
  request_json : ChatRequest -> string;
  response_json : PResponse -> string;
}.

Definition MaxHashSize : Z := 1024 * 1024.

(** ** Text fields *)

Definition TruncateString (s : string) (maxLen : Z) : option string :=
  if slen s <=? maxLen then Some s
  else if maxLen <=? 3 then substr 0 maxLen s
  else p ← substr 0 (maxLen - 3) s; Some (p +:+ "...").

Section builder.
Context `{Digest} `{Fmt}.
Variable config : RecorderConfig.

Definition HashContent (content : string) : string :=
  if String.eqb content "" then ""
  else sha256hex (if MaxHashSize <? slen content then String.substring 0 (Z.to_nat MaxHashSize) content else content).

Definition HashString (content : string) : string := HashContent content.

(** [recorder.RedactAPIKey] *)
Definition HashAPIKey (apiKey : string) : string :=
  if String.eqb apiKey "" then "" else "sha256:" +:+ sha256hex apiKey.

Definition RedactAPIKeyTruncated (apiKey : string) : option string :=
  if String.eqb apiKey "" then Some ""
  else if slen apiKey <? 12 then Some "****"
  else a ← substr 0 4 apiKey; b ← substr (slen apiKey - 4) (slen apiKey) apiKey; Some (a +:+ "***" +:+ b).

Definition extractHeaders (meta : RequestMetadata) : gmap string string :=
  if String.eqb (rm_UserAgent meta) "" then ∅ else {[ "user-agent" := rm_UserAgent meta ]}.

(** The first system and the first user message with text; panics propagate. *)
Fixpoint extractPrompts (system user : string) (messages : list Message) : option (string * string) :=
  match messages with
  | [] => Some (system, user)
  | m :: messages =>
      let content := match m_Content m with VString s => s | _ => "" end in
      system ← (if String.eqb (m_Role m) "system" && String.eqb system ""
                then TruncateString content (MaxFieldLength config) else Some system);
      user ← (if String.eqb (m_Role m) "user" && String.eqb user ""
              then TruncateString content (MaxFieldLength config) else Some user);
      extractPrompts system user messages
  end.

Definition extractTools (req : ChatRequest) : list string :=
  List.filter (fun n => negb (String.eqb n "")) (fd_Name ∘ tool_Function <$> cq_Tools req).

Definition extractRuleAction (rule : MatchedRule) : string :=
  match ActionsExecuted rule with a :: _ => ar_ActionType a | [] => "unknown" end.

Definition ruleRecord (rule : MatchedRule) : MatchedRuleRecord :=
  mkMatchedRuleRecord (PolicyID rule) (RuleID rule) (extractRuleAction rule) (RuleName rule) (mr_EvaluationTime rule).

(** Decision, block reason, matched rules and policy version. *)
Definition extractPolicyDecision (d : option PolicyDecision) : string * string * list MatchedRuleRecord * string :=
  match d with
  | None => (ActionAllow, "", [], "")
  | Some d => (d_Action d, d_BlockReason d, ruleRecord <$> d_MatchedRules d, "unknown")
  end.

Definition createEvidenceRecord (uuid : string) (now : Time) (meta : RequestMetadata) (x : EnrichedReq)
    (decision : option PolicyDecision) : option EvidenceRecord :=
  let req := x_OriginalRequest x in
  '(system, user) ← extractPrompts "" "" (cq_Messages req);
  let '(action, reason, rules, version) := extractPolicyDecision decision in
  let pii := x_ContentAnalysis x ≫= an_PIIDetection in
  Some (mkEvidenceRecord uuid (x_RequestID x) (rm_Timestamp meta) now zero_time zero_time now
    (if HashRequest config then HashContent (request_json req) else "")
    (rm_Method meta) (rm_Path meta) (extractHeaders meta)
    (cq_Model req) "" (Z.of_nat (length (cq_Messages req))) system user (extractTools req)
    (match x_TokenEstimate x with Some t => te_TotalTokens t | None => 0 end)
    (match x_CostEstimate x with Some c => ce_TotalCost c | None => fzero end)
    (x_RiskScore x) (x_ComplexityScore x)
    (match pii with Some p => HasPII p | None => false end)
    (match pii with Some p => PIITypes p | None => [] end)
    action rules reason version None "" 0 "" "" 0 0 0 fzero 0 ""
    (rm_UserID meta) (if RedactAPIKeys config then HashAPIKey (rm_APIKey meta) else rm_APIKey meta)
    (rm_RemoteAddr meta) "" "" 0 fzero).

Definition classifyError (e : GoErr) : string := "error".

(** The response must be present: its model is read before the check for
    [nil]. *)
Definition updateEvidenceWithResponse (now : Time) (r : EvidenceRecord) (meta : ResponseMetadata) (y : EnrichedResp) :
    option EvidenceRecord :=
  resp ← y_OriginalResponse y;
  content ← TruncateString (ps_Content resp) (MaxFieldLength config);
  Some (mkEvidenceRecord (er_ID r) (er_RequestID r) (er_RequestTime r) (er_PolicyEvalTime r) (er_ProviderCallTime r)
    (sm_Timestamp meta) now (er_RequestHash r) (er_RequestMethod r) (er_RequestPath r) (er_RequestHeaders r)
    (er_Model r) (sm_ProviderName meta) (er_Messages r) (er_SystemPrompt r) (er_UserPrompt r) (er_ToolsUsed r)
    (er_EstimatedTokens r) (er_EstimatedCost r) (er_RiskScore r) (er_ComplexityScore r) (er_PIIDetected r)
    (er_PIITypes r) (er_PolicyDecision r) (er_MatchedRules r) (er_BlockReason r) (er_PolicyVersion r)
    (er_PolicyVersionInfo r)
    (if HashResponse config then HashContent (response_json resp) else er_ResponseHash r)
    (sm_StatusCode meta) content (ps_FinishReason resp)
    (match y_TokenUsage y with Some u => tu_PromptTokens u | None => er_PromptTokens r end)
    (match y_TokenUsage y with Some u => tu_CompletionTokens u | None => er_CompletionTokens r end)
    (match y_TokenUsage y with Some u => tu_TotalTokens u | None => er_TotalTokens r end)
    (match y_CostEstimate y with Some c => ce_TotalCost c | None => er_ActualCost r end)
    (sm_ProviderLatency meta) (ps_Model resp) (er_UserID r) (er_APIKey r) (er_IPAddress r)
    (match sm_Error meta with Some e => errorText e | None => er_Error r end)
    (match sm_Error meta with Some e => classifyError e | None => er_ErrorType r end)
    1 fzero).

End builder.

(** ** The recorder as a transition system *)

Inductive Worker := Running | Draining | Exited.

(** [rs_waiting] holds the records of [RecordResponse] calls that are in their
    select.  The last three fields only record history: what was sent on the
    channel, what the worker passed to storage, what was given up with an
    error. *)
Record RecState (St : Type) := mkRecState {
  rs_pending : gmap string EvidenceRecord;
  rs_waiting : list EvidenceRecord;
  rs_chan : list EvidenceRecord;
  rs_done : bool;
  rs_worker : Worker;
  rs_storage : St;
  rs_accepted : list EvidenceRecord;
  rs_written : list EvidenceRecord;
  rs_dropped : list (EvidenceRecord * EvidenceErr);
}.
Arguments mkRecState {St}.
Arguments rs_pending {St}.
Arguments rs_waiting {St}.
Arguments rs_chan {St}.
Arguments rs_done {St}.
Arguments rs_worker {St}.
Arguments rs_storage {St}.
Arguments rs_accepted {St}.
Arguments rs_written {St}.
Arguments rs_dropped {St}.

Section machine.
Context `{Digest} `{Fmt} `{Storage St}.
Variable config : RecorderConfig.

Definition NewRecorder (storage : St) : RecState St :=
  mkRecState ∅ [] [] false Running storage [] [] [].

(** [writeRecord]: the store may fail, which is logged. *)
Definition writeRecord (r : EvidenceRecord) (s : St) : St := snd (st_Store r s).

(** A send succeeds when the buffer has room; without a buffer it is handed to
    the worker ([step_handoff]). *)
Definition has_room (chan : list EvidenceRecord) : Prop := Z.of_nat (length chan) < AsyncBuffer config.

Inductive step : RecState St -> RecState St -> Prop :=
| step_request s uuid now meta x d r :
    rec_Enabled config = true -> createEvidenceRecord config uuid now meta x d = Some r ->
    step s (mkRecState (<[x_RequestID x := r]> (rs_pending s)) (rs_waiting s) (rs_chan s) (rs_done s) (rs_worker s)
              (rs_storage s) (rs_accepted s) (rs_written s) (rs_dropped s))
| step_response s now meta y r r' :
    rec_Enabled config = true -> rs_pending s !! y_RequestID y = Some r ->
    updateEvidenceWithResponse config now r meta y = Some r' ->
    step s (mkRecState (delete (y_RequestID y) (rs_pending s)) (r' :: rs_waiting s) (rs_chan s) (rs_done s)
              (rs_worker s) (rs_storage s) (rs_accepted s) (rs_written s) (rs_dropped s))
| step_enqueue s w1 r w2 :
    rs_waiting s = (w1 ++ r :: w2)%list -> has_room (rs_chan s) ->
    step s (mkRecState (rs_pending s) (w1 ++ w2)%list (rs_chan s ++ [r])%list (rs_done s) (rs_worker s)
              (rs_storage s) (rs_accepted s ++ [r])%list (rs_written s) (rs_dropped s))
| step_handoff s w1 r w2 :
    rs_waiting s = (w1 ++ r :: w2)%list -> AsyncBuffer config = 0 -> rs_worker s <> Exited ->
    step s (mkRecState (rs_pending s) (w1 ++ w2)%list (rs_chan s) (rs_done s) (rs_worker s)
              (writeRecord r (rs_storage s)) (rs_accepted s ++ [r])%list (rs_written s ++ [r])%list (rs_dropped s))
| step_timeout s w1 r w2 :
    rs_waiting s = (w1 ++ r :: w2)%list ->
    step s (mkRecState (rs_pending s) (w1 ++ w2)%list (rs_chan s) (rs_done s) (rs_worker s) (rs_storage s)
              (rs_accepted s) (rs_written s)
              ((r, RecorderError (er_ID r) (PlainError "context deadline exceeded")) :: rs_dropped s))
| step_shutdown s w1 r w2 :
    rs_waiting s = (w1 ++ r :: w2)%list -> rs_done s = true ->
    step s (mkRecState (rs_pending s) (w1 ++ w2)%list (rs_chan s) (rs_done s) (rs_worker s) (rs_storage s)
              (rs_accepted s) (rs_written s)
              ((r, RecorderError (er_ID r) (PlainError "context canceled")) :: rs_dropped s))
| step_close s :
    rs_done s = false ->
    step s (mkRecState (rs_pending s) (rs_waiting s) (rs_chan s) true (rs_worker s) (rs_storage s)
              (rs_accepted s) (rs_written s) (rs_dropped s))
| step_receive s r c :
    rs_worker s <> Exited -> rs_chan s = r :: c ->
    step s (mkRecState (rs_pending s) (rs_waiting s) c (rs_done s) (rs_worker s) (writeRecord r (rs_storage s))
              (rs_accepted s) (rs_written s ++ [r])%list (rs_dropped s))
| step_drain s :
    rs_worker s = Running -> rs_done s = true ->
    step s (mkRecState (rs_pending s) (rs_waiting s) (rs_chan s) (rs_done s) Draining (rs_storage s)
              (rs_accepted s) (rs_written s) (rs_dropped s))
| step_exit s :
    rs_worker s = Draining -> rs_chan s = [] ->
    step s (mkRecState (rs_pending s) (rs_waiting s) [] (rs_done s) Exited (rs_storage s)
              (rs_accepted s) (rs_written s) (rs_dropped s)).

Inductive reachable (storage : St) : RecState St -> Prop :=
| reach_init : reachable storage (NewRecorder storage)
| reach_step s s' : reachable storage s -> step s s' -> reachable storage s'.

Inductive steps : RecState St -> RecState St -> Prop :=
| steps_refl s : steps s s
| steps_cons s s' s'' : step s s' -> steps s' s'' -> steps s s''.

End machine.

(** ** Theorems *)

Section recorder_theorems.
Context `{Digest} `{Fmt} `{Storage St}.
Variable config : RecorderConfig.

Definition recorder_inv (storage : St) (s : RecState St) : Prop :=
  rs_accepted s = (rs_written s ++ rs_chan s)%list /\
  rs_storage s = foldl (fun st r => writeRecord r st) storage (rs_written s) /\
  Z.of_nat (length (rs_chan s)) <= Z.max 0 (AsyncBuffer config) /\
  (rs_worker s <> Running -> rs_done s = true).

Lemma recorder_inv_step storage s s' : recorder_inv storage s -> step config s s' -> recorder_inv storage s'.
Proof.
  intros (Ha & Hs & Hl & Hd) Hst. unfold recorder_inv.
  destruct Hst as [| |s w1 r w2 Hw Hr|s w1 r w2 Hw Hb Hk| | | |s r c Hk Hc| |s Hk Hc]; cbn; try (split_and!; by auto).
  - split_and!; try done; [by rewrite Ha, app_assoc|]. unfold has_room in Hr. rewrite length_app. simpl. lia.
  - assert (Hc : rs_chan s = []) by (apply length_zero_iff_nil; lia).
    rewrite Hc in *. rewrite app_nil_r in *. split_and!; [by rewrite Ha| |done|done].
    rewrite foldl_app, <- Hs. done.
  - rewrite Hc in *. split_and!; [|by rewrite foldl_app, <- Hs| |done].
    + rewrite Ha, <- app_assoc. done.
    + simpl in Hl. lia.
  - rewrite Hc in *. split_and!; try done. intros _. apply Hd. congruence.
Qed.

Lemma recorder_reachable_inv storage s : reachable config storage s -> recorder_inv storage s.
Proof.
  induction 1 as [|s s' _ IH Hst]; [|by eapply recorder_inv_step].
  unfold recorder_inv. simpl. split_and!; try done. lia.
Qed.

(** C10: accepted evidence is written exactly once and in order.  In every
    reachable state, under every interleaving of requests, responses, timeouts,
    shutdown and the worker, the records accepted by the channel are those
    passed to storage followed by those still queued; the storage is the result
    of storing exactly those, in that order; and the queue never exceeds its
    configured size. *)
Theorem recorder_exactly_once storage s :
  reachable config storage s ->
  rs_accepted s = (rs_written s ++ rs_chan s)%list /\
  rs_storage s = foldl (fun st r => writeRecord r st) storage (rs_written s) /\
  Z.of_nat (length (rs_chan s)) <= Z.max 0 (AsyncBuffer config).
Proof. intros Hr. apply recorder_reachable_inv in Hr as (? & ? & ? & _). done. Qed.

Lemma exited_step s s' :
  rs_worker s = Exited -> step config s s' ->
  rs_worker s' = Exited /\ rs_written s' = rs_written s /\ rs_storage s' = rs_storage s.
Proof. intros Hw Hst. destruct Hst; cbn; try done; congruence. Qed.

Lemma exited_steps s s' :
  rs_worker s = Exited -> steps config s s' ->
  rs_written s' = rs_written s /\ rs_storage s' = rs_storage s.
Proof.
  intros Hw Hst. induction Hst as [|s s1 s2 Hs1 _ IH]; [done|].
  destruct (exited_step s s1 Hw Hs1) as (Hw1 & E1 & E2), (IH Hw1) as [F1 F2]. by rewrite F1, F2.
Qed.

(** A waiting response may still be accepted after the worker is gone. *)
Lemma enqueue_after_exit storage s w1 r w2 :
  reachable config storage s -> rs_worker s = Exited -> rs_waiting s = (w1 ++ r :: w2)%list ->
  has_room config (rs_chan s) ->
  exists s', step config s s' /\ rs_accepted s' = (rs_accepted s ++ [r])%list /\
    forall s'', steps config s' s'' -> rs_written s'' = rs_written s /\ rs_storage s'' = rs_storage s.
Proof.
  intros Hr Hw Hwait Hroom. eexists. split; [by eapply step_enqueue|]. cbn. split; [done|].
  intros s'' Hst. by apply exited_steps in Hst.
Qed.

(** Evidence can be lost after shutdown.  A response that is waiting when
    the worker has already exited can still be accepted by the channel, which
    reports success; nothing that happens afterwards writes it. *)
Theorem accepted_after_exit_is_lost storage s w1 r w2 :
  reachable config storage s -> rs_worker s = Exited -> rs_waiting s = (w1 ++ r :: w2)%list ->
  has_room config (rs_chan s) ->
  exists s', reachable config storage s' /\ rs_accepted s' = (rs_accepted s ++ [r])%list /\
    forall s'', steps config s' s'' -> rs_written s'' = rs_written s /\ rs_storage s'' = rs_storage s.
Proof.
  intros Hr Hw Hwait Hroom.
  destruct (enqueue_after_exit storage s w1 r w2 Hr Hw Hwait Hroom) as (s' & Hst & Ha & Hl).
  exists s'. split; [by eapply reach_step|done].
Qed.

End recorder_theorems.

(** ** What a record contains *)

Lemma substring_length k s : (k <= String.length s)%nat -> String.length (String.substring 0 k s) = k.
Proof.
  revert k. induction s as [|c s IH]; intros [|k] Hk; simpl in *; try lia. rewrite IH; lia.
Qed.

Lemma slen_app s t : slen (s +:+ t) = slen s + slen t.
Proof.
  unfold slen. induction s as [|c s IH]; [done|]. rewrite string_app_cons. simpl. lia.
Qed.

Lemma substr_prefix n s :
  0 <= n <= slen s -> exists t, substr 0 n s = Some t /\ slen t = n.
Proof.
  intros Hn. unfold substr. rewrite !(proj2 (Z.leb_le _ _)) by (unfold slen in *; lia). simpl.
  eexists. split; [done|]. unfold slen in *. rewrite substring_length; lia.
Qed.

Lemma TruncateString_spec s n :
  0 <= n -> exists t, TruncateString s n = Some t /\ slen t <= n.
Proof.
  intros Hn. unfold TruncateString. destruct (Z.leb_spec (slen s) n); [eauto|].
  destruct (Z.leb_spec n 3).
  - destruct (substr_prefix n s) as (t & -> & Ht); [lia|]. exists t. split; [done|lia].
  - destruct (substr_prefix (n - 3) s) as (t & -> & Ht); [lia|]. simpl. eexists. split; [done|].
    rewrite slen_app, Ht. change (slen "...") with 3. lia.
Qed.

Section record_theorems.
Context `{Digest} `{Fmt}.
Variable config : RecorderConfig.

Lemma extractPrompts_spec system user l :
  0 <= MaxFieldLength config -> slen system <= MaxFieldLength config -> slen user <= MaxFieldLength config ->
  exists system' user', extractPrompts config system user l = Some (system', user') /\
    slen system' <= MaxFieldLength config /\ slen user' <= MaxFieldLength config.
Proof.
  intros Hm. revert system user. induction l as [|m l IH]; intros system user Hs Hu; simpl; [eauto|].
  set (content := match m_Content m with VString s => s | _ => "" end).
  destruct (TruncateString_spec content (MaxFieldLength config) Hm) as (t & Ht & Hlt).
  assert (Hpick : forall b cur, slen cur <= MaxFieldLength config ->
    exists out, (if b : bool then TruncateString content (MaxFieldLength config) else Some cur) = Some out /\
      slen out <= MaxFieldLength config) by (intros [] cur Hcur; rewrite ?Ht; eauto).
  destruct (Hpick (String.eqb (m_Role m) "system" && String.eqb system "") system Hs) as (s' & -> & Hs').
  destruct (Hpick (String.eqb (m_Role m) "user" && String.eqb user "") user Hu) as (u' & -> & Hu').
  simpl. by apply IH.
Qed.

(** An evidence record keeps the decision and protects the client.  With a
    sensible field length a record is always built; it carries the decision and
    the rules of the policy engine, its prompts are within the configured
    length, and with redaction on its key field is the hash of the key, never
    the key. *)
Theorem evidence_record_faithful uuid now meta x d :
  0 <= MaxFieldLength config -> RedactAPIKeys config = true ->
  exists r, createEvidenceRecord config uuid now meta x (Some d) = Some r /\
    er_ID r = uuid /\ er_RequestID r = x_RequestID x /\
    er_PolicyDecision r = d_Action d /\ er_BlockReason r = d_BlockReason d /\
    (mrr_RuleID <$> er_MatchedRules r) = (RuleID <$> d_MatchedRules d) /\
    slen (er_SystemPrompt r) <= MaxFieldLength config /\ slen (er_UserPrompt r) <= MaxFieldLength config /\
    er_APIKey r = HashAPIKey (rm_APIKey meta).
Proof.
  intros Hm Hred. unfold createEvidenceRecord.
  destruct (extractPrompts_spec "" "" (cq_Messages (x_OriginalRequest x)) Hm) as (s & u & -> & Hs & Hu);
    [exact Hm..|]. simpl. eexists. split; [done|]. simpl. rewrite Hred. split_and!; try done.
  rewrite <- list_fmap_compose. done.
Qed.

(** A response without a body is not recorded: completing its record panics,
    because the model is read before the response is checked for [nil]. *)
Theorem missing_response_panics now r meta y :
  y_OriginalResponse y = None -> updateEvidenceWithResponse config now r meta y = None.
Proof. intros Hy. unfold updateEvidenceWithResponse. by rewrite Hy. Qed.

(** Evidence does not identify the key.  The recorder hashes the key after
    the proxy has shortened it to its first seven and last four characters, so
    keys that agree there have the same key field in every record, whatever the
    hash function. *)
Theorem evidence_key_collides uuid now now' now'' x d r1 r2 req req' m1 m2 :
  RedactAPIKey (ExtractAPIKey r1) = RedactAPIKey (ExtractAPIKey r2) ->
  ExtractRequestMetadata now r1 req = Some m1 -> ExtractRequestMetadata now' r2 req' = Some m2 ->
  er_APIKey <$> createEvidenceRecord config uuid now'' m1 x d =
  er_APIKey <$> createEvidenceRecord config uuid now'' m2 x d.
Proof.
  unfold ExtractRequestMetadata. intros Hk H1 H2. rewrite <- Hk in H2.
  destruct (RedactAPIKey (ExtractAPIKey r1)) as [k|]; simplify_eq/=.
  unfold createEvidenceRecord. destruct (extractPrompts _ _ _ _) as [[s u]|]; [|done]. simpl.
  by destruct (extractPolicyDecision d) as [[[? ?] ?] ?].
Qed.

End record_theorems.

(** ** Examples *)

Definition ex_digest : Digest := {|
  sha256hex s := "h(" +:+ s +:+ ")"; request_json _ := "{}"; response_json _ := "{}";
|}.

Definition ex_fmt' : Fmt := {| Quote s := s; DurationString _ := "" |}.

Definition ex_meta (key : string) : RequestMetadata :=
  mkRequestMetadata "id" "gpt-4" [] false 0 (of_int 1) "u" key "POST" "/" "" "" 7.

Definition ex_enriched : EnrichedReq :=
  mkEnrichedReq "id" (ex_pii_chat (VString "hello world")) None None None None "GPT-4" "standard" 0 1 1 0.

Definition ex_decision : PolicyDecision :=
  mkPolicyDecision "block" [mkMatchedRule "p" "P" "r1" "no" true [] 0 None] "because" 403 [] [] None ∅ [] 0 None.

Definition ex_rec_config : RecorderConfig := mkRecorderConfig true 1 Second true true true 5.

Lemma evidence_record_faithful_witness :
  exists r, createEvidenceRecord (H := ex_digest) ex_rec_config "uuid" 9 (ex_meta "key") ex_enriched (Some ex_decision) = Some r /\
    er_PolicyDecision r = "block" /\ er_APIKey r = "sha256:h(key)".
Proof.
  destruct (evidence_record_faithful (H := ex_digest) ex_rec_config "uuid" 9 (ex_meta "key") ex_enriched ex_decision)
    as (r & Hr & _ & _ & Hd & _ & _ & _ & _ & Hk); [vm_compute; congruence|reflexivity|].
  exists r. exact (conj Hr (conj Hd Hk)).
Defined.

Definition ex_no_response : EnrichedResp :=
  mkEnrichedResp "id" None None None None (analyzeFinishReason "") fzero (mkLatencyInfo 0 0 0 0)
    (mkQualityInfo fzero fzero fzero fzero) 0.

Definition ex_resp_meta : ResponseMetadata :=
  mkResponseMetadata "id" 502 0 "openai" 0 0 0 0 "" (Some (OtherError "down")) 8.

Lemma missing_response_panics_witness :
  updateEvidenceWithResponse (H := ex_digest) (H0 := ex_fmt') ex_rec_config 9 zero_record ex_resp_meta ex_no_response = None.
Proof. apply (missing_response_panics (H := ex_digest) (H0 := ex_fmt')). reflexivity. Defined.

Definition ex_auth (header : string) : HttpRequest :=
  mkHttpRequest "POST" "/" (fun h => if String.eqb h "Authorization" then header else "") "" "" (Ok "").

Lemma evidence_key_collides_witness :
  exists m1 m2,
    ExtractRequestMetadata 0 (ex_auth "Bearer sk-1234AAAAcdef") (ex_pii_chat VNil) = Some m1 /\
    ExtractRequestMetadata 0 (ex_auth "Bearer sk-1234BBBBcdef") (ex_pii_chat VNil) = Some m2 /\
    er_APIKey <$> createEvidenceRecord (H := ex_digest) ex_rec_config "uuid" 9 m1 ex_enriched None =
    er_APIKey <$> createEvidenceRecord (H := ex_digest) ex_rec_config "uuid" 9 m2 ex_enriched None.
Proof.
  remember (ExtractRequestMetadata 0 (ex_auth "Bearer sk-1234AAAAcdef") (ex_pii_chat VNil)) as o1 eqn:H1.
  remember (ExtractRequestMetadata 0 (ex_auth "Bearer sk-1234BBBBcdef") (ex_pii_chat VNil)) as o2 eqn:H2.
  destruct o1 as [m1|]; [|vm_compute in H1; congruence]. destruct o2 as [m2|]; [|vm_compute in H2; congruence].
  exists m1, m2. split; [done|]. split; [done|].
  apply (evidence_key_collides (H := ex_digest) ex_rec_config "uuid" 0 0 9 ex_enriched None
    (ex_auth "Bearer sk-1234AAAAcdef") (ex_auth "Bearer sk-1234BBBBcdef") (ex_pii_chat VNil) (ex_pii_chat VNil));
    [vm_compute; reflexivity|by symmetry..].
Defined.

(** Two runs: a request is recorded and its response arrives; then either the
    worker writes it, or the recorder shuts down while the response waits. *)
Definition ex_request_record : EvidenceRecord :=
  default zero_record (createEvidenceRecord (H := ex_digest) ex_rec_config "uuid" 9 (ex_meta "key") ex_enriched None).

Definition ex_response : EnrichedResp :=
  mkEnrichedResp "id" (Some (mkPResponse "1" "gpt-4" "hi" "stop" (mkPUsage 1 1 2) [] 0 [])) None None None
    (analyzeFinishReason "stop") fzero (mkLatencyInfo 0 0 0 0) (mkQualityInfo fzero fzero fzero fzero) 0.

Definition ex_full : EvidenceRecord :=
  default zero_record (updateEvidenceWithResponse (H := ex_digest) (H0 := ex_fmt') ex_rec_config 10
    ex_request_record ex_resp_meta ex_response).

Abbreviation ex_reachable s :=
  (reachable (H := ex_digest) (H0 := ex_fmt') (H1 := memory_storage (H := some_range)) ex_rec_config NewMemoryStorage s).

Definition ex_waiting (p : gmap string EvidenceRecord) (done : bool) (w : Worker) : RecState MemoryStorage :=
  mkRecState p [ex_full] [] done w NewMemoryStorage [] [] [].

Lemma ex_waiting_reachable : exists p, ex_reachable (ex_waiting p false Running).
Proof.
  pose proof (reach_step (H := ex_digest) (H0 := ex_fmt') (H1 := memory_storage (H := some_range)) ex_rec_config NewMemoryStorage _ _ (reach_init _ _)
    (step_request (H := ex_digest) (H0 := ex_fmt') (H1 := memory_storage (H := some_range)) ex_rec_config _ "uuid" 9 (ex_meta "key") ex_enriched None ex_request_record eq_refl eq_refl)) as R1.
  match type of R1 with reachable _ _ ?s => set (s1 := s) in * end.
  pose proof (reach_step (H := ex_digest) (H0 := ex_fmt') (H1 := memory_storage (H := some_range)) ex_rec_config NewMemoryStorage _ _ R1
    (step_response (H := ex_digest) (H0 := ex_fmt') (H1 := memory_storage (H := some_range)) ex_rec_config s1 10 ex_resp_meta ex_response ex_request_record ex_full eq_refl
       ltac:(vm_compute; reflexivity) ltac:(vm_compute; reflexivity))) as R2.
  eexists. exact R2.
Qed.

Lemma recorder_exactly_once_witness :
  exists s, rs_accepted s = [ex_full] /\
    rs_accepted s = (rs_written s ++ rs_chan s)%list /\
    rs_storage s = snd (Store ex_full NewMemoryStorage).
Proof.
  destruct ex_waiting_reachable as [p Hp].
  assert (Hroom : has_room ex_rec_config (rs_chan (ex_waiting p false Running))) by (vm_compute; reflexivity).
  pose proof (reach_step (H := ex_digest) (H0 := ex_fmt') (H1 := memory_storage (H := some_range)) ex_rec_config NewMemoryStorage _ _ Hp
    (step_enqueue (H := ex_digest) (H0 := ex_fmt') (H1 := memory_storage (H := some_range)) ex_rec_config (ex_waiting p false Running) [] ex_full [] eq_refl Hroom)) as R1.
  match type of R1 with reachable _ _ ?s => set (s1 := s) in * end.
  pose proof (reach_step (H := ex_digest) (H0 := ex_fmt') (H1 := memory_storage (H := some_range)) ex_rec_config NewMemoryStorage _ _ R1
    (step_receive (H := ex_digest) (H0 := ex_fmt') (H1 := memory_storage (H := some_range)) ex_rec_config s1 ex_full [] ltac:(discriminate) eq_refl)) as R2.
  pose proof (recorder_exactly_once (H := ex_digest) (H0 := ex_fmt') (H1 := memory_storage (H := some_range))
    ex_rec_config NewMemoryStorage _ R2) as (Ha & _ & _).
  eexists. split; [|split; [exact Ha|]]; reflexivity.
Defined.

Lemma accepted_after_exit_is_lost_witness :
  exists s', ex_reachable s' /\ rs_accepted s' = [ex_full] /\
    forall s'', steps (H := ex_digest) (H0 := ex_fmt') (H1 := memory_storage (H := some_range)) ex_rec_config s' s'' ->
      rs_written s'' = [] /\ rs_storage s'' = NewMemoryStorage.
Proof.
  destruct ex_waiting_reachable as [p Hp].
  assert (Hr : ex_reachable (ex_waiting p true Exited)).
  { pose proof (reach_step (H := ex_digest) (H0 := ex_fmt') (H1 := memory_storage (H := some_range)) ex_rec_config NewMemoryStorage _ _ Hp
      (step_close (H := ex_digest) (H0 := ex_fmt') (H1 := memory_storage (H := some_range)) ex_rec_config (ex_waiting p false Running) eq_refl)) as R1.
    pose proof (reach_step (H := ex_digest) (H0 := ex_fmt') (H1 := memory_storage (H := some_range)) ex_rec_config NewMemoryStorage _ _ R1
      (step_drain (H := ex_digest) (H0 := ex_fmt') (H1 := memory_storage (H := some_range)) ex_rec_config (ex_waiting p true Running) eq_refl eq_refl)) as R2.
    exact (reach_step (H := ex_digest) (H0 := ex_fmt') (H1 := memory_storage (H := some_range)) ex_rec_config NewMemoryStorage _ _ R2
      (step_exit (H := ex_digest) (H0 := ex_fmt') (H1 := memory_storage (H := some_range)) ex_rec_config (ex_waiting p true Draining) eq_refl eq_refl)). }
  apply (accepted_after_exit_is_lost (H := ex_digest) (H0 := ex_fmt') (H1 := memory_storage (H := some_range))
    ex_rec_config NewMemoryStorage (ex_waiting p true Exited) [] ex_full [] Hr eq_refl eq_refl).
  unfold has_room. vm_compute. reflexivity.
Defined.
