(* ===== verification/Paths.v ===== *)
(** * Lexical file paths ([path/filepath] on Unix)

    The functions of [path/filepath] that the policy manager uses on path
    strings: [Clean], [Join], [Dir], [IsAbs], [Abs], [Rel] and [Ext].  A path is
    split at its slashes and its elements are processed on a stack, as the
    documentation of [Clean] prescribes; everything else is built on it.  The
    lemmas characterise a cleaned absolute path by its list of elements. *)

From Stdlib Require Import ZArith Lia Ascii.
From stdpp Require Import base option list strings.
From S2P Require Import Prelude GoValue.
Local Open Scope string_scope.
Local Open Scope list_scope.

Definition slash : ascii := "/".

(** [strings.Split(s, "/")] *)
Fixpoint splitSlash (s : string) : list string :=
  match s with
  | EmptyString => [EmptyString]
  | String c s =>
      if Ascii.eqb c slash then EmptyString :: splitSlash s
      else match splitSlash s with
           | [] => [String c EmptyString]
           | w :: ws => String c w :: ws
           end
  end.

(** [strings.Join(l, "/")] *)
Fixpoint joinSlash (l : list string) : string :=
  match l with
  | [] => EmptyString
  | [w] => w
  | w :: l => w +:+ "/" +:+ joinSlash l
  end.

Definition IsAbs (p : string) : bool := match p with String c _ => Ascii.eqb c slash | _ => false end.

(** One element of the path against the stack of elements kept so far. *)
Definition cleanStep (rooted : bool) (stack : list string) (w : string) : list string :=
  if String.eqb w "" || String.eqb w "." then stack
  else if String.eqb w ".." then
    match stack with
    | top :: rest => if String.eqb top ".." then w :: stack else rest
    | [] => if rooted then [] else [w]
    end
  else w :: stack.

(** The elements of the cleaned path. *)
Definition elements (p : string) : list string :=
  rev (foldl (cleanStep (IsAbs p)) [] (splitSlash p)).

Definition Clean (p : string) : string :=
  if String.eqb p "" then "."
  else if IsAbs p then "/" +:+ joinSlash (elements p)
  else match elements p with [] => "." | l => joinSlash l end.

Fixpoint JoinPath (elems : list string) : string :=
  match elems with
  | [] => ""
  | e :: rest => if String.eqb e "" then JoinPath rest else Clean (joinSlash (e :: rest))
  end.

(** Everything up to the last slash, cleaned. *)
Definition Dir (p : string) : string :=
  match removelast (splitSlash p) with [] => "." | l => Clean (joinSlash l +:+ "/") end.

(** The suffix from the last dot of the last element. *)
Fixpoint lastDot (s : string) : option string :=
  match s with
  | EmptyString => None
  | String c r =>
      match lastDot r with
      | Some e => Some e
      | None => if Ascii.eqb c "." then Some s else None
      end
  end.

Definition Ext (p : string) : string := default "" (lastDot (List.last (splitSlash p) "")).

(** [Abs] of a path, with the working directory or the error of [os.Getwd]. *)
Definition Abs (getwd : result string string) (p : string) : result string string :=
  if IsAbs p then Ok (Clean p)
  else match getwd with Ok wd => Ok (JoinPath [wd; p]) | Err e => Err e end.

Fixpoint stripCommon (b t : list string) : list string * list string :=
  match b, t with
  | x :: b', y :: t' => if String.eqb x y then stripCommon b' t' else (b, t)
  | _, _ => (b, t)
  end.

Definition Rel (basepath targpath : string) : result string string :=
  let base := Clean basepath in
  let targ := Clean targpath in
  if String.eqb base targ then Ok "."
  else
    let base := if String.eqb base "." then "" else base in
    if negb (Bool.eqb (IsAbs base) (IsAbs targ)) then Err "Rel: can't make relative"
    else
      let '(b, t) := stripCommon (elements base) (elements targ) in
      match b, t with
      | [], _ => Ok (joinSlash t)
      | x :: _, _ :: _ =>
          if String.eqb x ".." then Err "Rel: can't make relative"
          else Ok (joinSlash ((fun _ => "..") <$> b) +:+ "/" +:+ joinSlash t)
      | _, [] => Ok (joinSlash ((fun _ => "..") <$> b))
      end.

(** ** Elements *)

Definition no_slash (w : string) : Prop := forall c, In c (String.list_ascii_of_string w) -> c <> slash.

(** An element that survives cleaning of an absolute path. *)
Definition proper (w : string) : Prop := no_slash w /\ w <> "" /\ w <> "." /\ w <> "..".

Lemma no_slash_cons c w : no_slash (String c w) <-> c <> slash /\ no_slash w.
Proof.
  unfold no_slash. cbn. split.
  - intros H. split; [apply H; by left|]. intros d Hd. apply H. by right.
  - intros [H1 H2] d [<-|Hd]; [done|]. by apply H2.
Qed.

Lemma splitSlash_no_slash p : Forall no_slash (splitSlash p).
Proof.
  assert (H0 : no_slash "") by (intros c []).
  induction p as [|c p IH]; cbn; [by constructor|].
  destruct (Ascii.eqb c slash) eqn:E; [by constructor|].
  apply Ascii.eqb_neq in E. destruct (splitSlash p) as [|w ws].
  - repeat constructor. by apply no_slash_cons.
  - inversion IH; subst. constructor; [by apply no_slash_cons|done].
Qed.

Lemma splitSlash_word w : no_slash w -> splitSlash w = [w].
Proof.
  induction w as [|c w IH]; [done|]. intros [Hc Hw]%no_slash_cons. cbn.
  destruct (Ascii.eqb_spec c slash); [done|]. by rewrite (IH Hw).
Qed.

Lemma splitSlash_app w p : no_slash w -> splitSlash (w +:+ "/" +:+ p) = w :: splitSlash p.
Proof.
  induction w as [|c w IH]; [done|]. intros [Hc Hw]%no_slash_cons.
  change (String c w +:+ "/" +:+ p) with (String c (w +:+ "/" +:+ p)). cbn [splitSlash].
  destruct (Ascii.eqb_spec c slash); [done|]. by rewrite (IH Hw).
Qed.

Lemma splitSlash_join l : l <> [] -> Forall no_slash l -> splitSlash (joinSlash l) = l.
Proof.
  induction l as [|w l IH]; [done|]. intros _ Hl. inversion Hl as [|? ? Hw Hl' Heq]; subst.
  destruct l as [|x l]; [by apply splitSlash_word|].
  change (joinSlash (w :: x :: l)) with (w +:+ "/" +:+ joinSlash (x :: l)).
  rewrite (splitSlash_app _ _ Hw), IH; done.
Qed.

Lemma cleanStep_proper stack w :
  no_slash w -> Forall proper stack -> Forall proper (cleanStep true stack w).
Proof.
  intros Hw Hs. unfold cleanStep.
  destruct (String.eqb_spec w ""), (String.eqb_spec w "."); cbn [orb]; [done..|].
  destruct (String.eqb_spec w ".."); [|by repeat constructor].
  destruct stack as [|top rest]; [done|]. inversion Hs as [|? ? (_ & _ & _ & Htop) Hrest]; subst.
  by destruct (String.eqb_spec top "..").
Qed.

Lemma foldl_cleanStep_proper l : forall stack,
  Forall no_slash l -> Forall proper stack -> Forall proper (foldl (cleanStep true) stack l).
Proof.
  induction l as [|w l IH]; intros stack Hl Hs; [done|]. inversion Hl; subst. cbn. apply IH; [done|].
  by apply cleanStep_proper.
Qed.

Lemma elements_proper p : IsAbs p = true -> Forall proper (elements p).
Proof.
  intros Habs. unfold elements. rewrite Habs. apply Forall_rev, foldl_cleanStep_proper; [|done].
  apply splitSlash_no_slash.
Qed.

Lemma foldl_cleanStep_id l : forall stack, Forall proper l -> foldl (cleanStep true) stack l = rev l ++ stack.
Proof.
  induction l as [|w l IH]; intros stack Hl; [done|]. inversion Hl as [|? ? (_ & Hn & Hd & Hdd) Hl']; subst. cbn.
  rewrite IH by done. unfold cleanStep.
  apply String.eqb_neq in Hn, Hd, Hdd. rewrite Hn, Hd, Hdd. cbn. by rewrite <- app_assoc.
Qed.

(** An absolute path made of proper elements has exactly these elements. *)
Lemma elements_join l : Forall proper l -> elements ("" +:+ "/" +:+ joinSlash l) = l.
Proof.
  intros Hl. unfold elements.
  assert (Hs : splitSlash ("" +:+ "/" +:+ joinSlash l) = "" :: match l with [] => [""] | _ => l end).
  { rewrite (splitSlash_app "") by (intros c []). f_equal. destruct l as [|w l]; [done|].
    apply splitSlash_join; [done|]. eapply Forall_impl; [exact Hl|]. by intros x [? _]. }
  change (IsAbs ("" +:+ "/" +:+ joinSlash l)) with true. rewrite Hs.
  destruct l as [|w l]; [done|].
  change (foldl (cleanStep true) [] ("" :: w :: l)) with (foldl (cleanStep true) [] (w :: l)).
  rewrite foldl_cleanStep_id by done. rewrite app_nil_r. apply rev_involutive.
Qed.

Lemma IsAbs_Clean p : IsAbs p = true -> IsAbs (Clean p) = true.
Proof. intros H. unfold Clean. destruct p; [done|]. cbn [String.eqb]. rewrite H. done. Qed.

Lemma elements_Clean p : IsAbs p = true -> elements (Clean p) = elements p.
Proof.
  intros H. pose proof (elements_proper p H) as HP. unfold Clean. destruct p as [|c p]; [done|].
  cbn [String.eqb]. rewrite H. by apply elements_join.
Qed.

Lemma Clean_idemp p : IsAbs p = true -> Clean (Clean p) = Clean p.
Proof.
  intros H. assert (HC : Clean p = "/" +:+ joinSlash (elements p)).
  { unfold Clean. destruct p; [done|]. cbn [String.eqb]. by rewrite H. }
  assert (HCC : Clean (Clean p) = "/" +:+ joinSlash (elements (Clean p))).
  { pose proof (IsAbs_Clean p H) as H'. unfold Clean at 1. destruct (Clean p); [done|].
    cbn [String.eqb]. by rewrite H'. }
  by rewrite HCC, elements_Clean, HC.
Qed.

Lemma Clean_elements p q : IsAbs p = true -> IsAbs q = true -> elements p = elements q -> Clean p = Clean q.
Proof.
  intros Hp Hq He. unfold Clean. destruct p; [done|]. destruct q; [done|]. cbn [String.eqb].
  by rewrite Hp, Hq, He.
Qed.

Lemma stripCommon_spec b t : forall b' t', stripCommon b t = (b', t') ->
  exists pre, b = pre ++ b' /\ t = pre ++ t' /\
    match b', t' with x :: _, y :: _ => x <> y | _, _ => True end.
Proof.
  revert t. induction b as [|x b IH]; intros t b' t' H.
  - cbn in H. inversion H; subst. exists []. done.
  - destruct t as [|y t]; cbn in H.
    + inversion H; subst. exists []. done.
    + destruct (String.eqb x y) eqn:E.
      * apply String.eqb_eq in E as ->. apply IH in H as (pre & -> & -> & Hh). exists (y :: pre). done.
      * inversion H; subst. exists []. apply String.eqb_neq in E. done.
Qed.

(** ** Containment *)

Definition dotdot (w : string) : bool := HasPrefix w "..".

(** [t] lies below [b] along elements of which the first does not start with
    two dots. *)
Definition below (b t : list string) : Prop :=
  exists rest, t = b ++ rest /\ match rest with [] => True | w :: _ => dotdot w = false end.

Lemma dotdot_join w l : w <> "" -> w <> "." -> no_slash w -> dotdot (joinSlash (w :: l)) = dotdot w.
Proof.
  intros H0 H1 Hs. destruct l as [|x l]; [done|].
  change (joinSlash (w :: x :: l)) with (w +:+ "/" +:+ joinSlash (x :: l)).
  destruct w as [|c1 [|c2 w]]; [done| |]; unfold dotdot; rewrite !string_app_cons; cbn [HasPrefix].
  - by destruct (Ascii.eqb "." c1).
  - assert (Hnil : forall s, HasPrefix s "" = true) by (by intros []). by rewrite !Hnil.
Qed.

(** The test of the policy manager, [Rel] gives a path that does not start with
    two dots, decides containment. *)
Lemma Rel_below b t :
  IsAbs b = true -> IsAbs t = true ->
  match Rel b t with Ok r => dotdot r = false | Err _ => False end <-> below (elements b) (elements t).
Proof.
  intros Hb Ht. unfold Rel.
  assert (Hnd : String.eqb (Clean b) "." = false).
  { pose proof (IsAbs_Clean b Hb) as HC. apply String.eqb_neq. intros E. by rewrite E in HC. }
  destruct (String.eqb (Clean b) (Clean t)) eqn:E.
  - apply String.eqb_eq in E. split; [|done]. intros _. exists [].
    rewrite app_nil_r. split; [|done]. rewrite <- (elements_Clean b Hb), E. by rewrite elements_Clean.
  - rewrite Hnd, !IsAbs_Clean, !elements_Clean by done. cbn [Bool.eqb negb].
    destruct (stripCommon (elements b) (elements t)) as [b' t'] eqn:Est.
    apply stripCommon_spec in Est as (pre & Hpb & Hpt & Hne).
    pose proof (elements_proper b Hb) as HPb. pose proof (elements_proper t Ht) as HPt.
    rewrite Hpb in HPb. rewrite Hpt in HPt. apply Forall_app in HPb as [_ HPb], HPt as [_ HPt].
    rewrite Hpb, Hpt. destruct b' as [|x b'].
    + rewrite app_nil_r. destruct t' as [|y t'].
      * exfalso. apply String.eqb_neq in E. apply E, Clean_elements; [done..|]. by rewrite Hpb, Hpt.
      * inversion HPt as [|? ? (Hs & Hn & Hd & _) _]; subst. rewrite dotdot_join by done.
        split; [intros H; by exists (y :: t')|]. intros (rest & Hr & Hh).
        apply app_inv_head in Hr. by subst rest.
    + inversion HPb as [|? ? (Hs & Hn & Hd & Hdd) _]; subst. split.
      * intros H. exfalso. destruct t' as [|y t'].
        -- by destruct b'.
        -- apply String.eqb_neq in Hdd. rewrite Hdd in H. by destruct b'.
      * intros (rest & Hr & _). exfalso. rewrite <- app_assoc in Hr. apply app_inv_head in Hr.
        destruct t' as [|y t']; [done|]. inversion Hr. by subst.
Qed.

Lemma Abs_rooted getwd p q :
  match getwd with Ok wd => IsAbs wd = true | _ => True end -> Abs getwd p = Ok q -> IsAbs q = true.
Proof.
  intros Hwd. unfold Abs. destruct (IsAbs p) eqn:E.
  - intros [= <-]. by apply IsAbs_Clean.
  - destruct getwd as [wd|]; [|done]. intros [= <-]. cbn [JoinPath]. destruct wd as [|c wd]; [done|].
    cbn [String.eqb]. by apply IsAbs_Clean.
Qed.
