(* ===== verification/PolicyRegistry.v ===== *)
(** * Policy registry ([pkg/policy/manager/registry.go], [errors.go], [types.go])

    The errors of the policy manager as one type with their texts, and the
    registry: a map from policy names to policies with a version digest.  Every
    method holds the lock for its whole body, so each is one atomic step.  The
    digest function is a parameter; map iteration and sorting are the interfaces
    of the other components. *)

From Stdlib Require Import ZArith Lia Ascii Sorting.Permutation Sorting.Sorted.
From stdpp Require Import base option list strings gmap sorting pretty.
From S2P Require Import Prelude Float64 GoValue Ast PolicyPriority ProviderTypes.
Local Open Scope string_scope.
Local Open Scope Z_scope.
Local Open Scope go_scope.

(** ** Errors *)

Inductive PmErr :=
| LoadError (filePath message : string) (cause : option PmErr)
| PmParseError (filePath : string) (line column : Z) (message : string) (cause : option PmErr)
| PmValidationError (policyID ruleID fieldPath message : string) (cause : option PmErr)
| IncludeError (filePath includePath : string) (cycle : list string) (message : string) (cause : option PmErr)
| RegistryError (policyID operation message : string) (cause : option PmErr)
| ErrorList (errors : list PmErr)
| Wrapped (message : string) (cause : PmErr)
| Plain (message : string).

Fixpoint join_with (sep : string) (l : list string) : string :=
  match l with [] => "" | [w] => w | w :: l => w +:+ sep +:+ join_with sep l end.

Definition newline : string := String (Ascii.ascii_of_nat 10) EmptyString.

Fixpoint pm_text `{Fmt} (e : PmErr) : string :=
  match e with
  | LoadError f m (Some c) => "failed to load policy file " +:+ Quote f +:+ ": " +:+ m +:+ ": " +:+ pm_text c
  | LoadError f m None => "failed to load policy file " +:+ Quote f +:+ ": " +:+ m
  | PmParseError f l c m _ =>
      if (0 <? l) && (0 <? c) then
        "parse error in " +:+ Quote f +:+ " at line " +:+ pretty l +:+ ", column " +:+ pretty c +:+ ": " +:+ m
      else if 0 <? l then "parse error in " +:+ Quote f +:+ " at line " +:+ pretty l +:+ ": " +:+ m
      else "parse error in " +:+ Quote f +:+ ": " +:+ m
  | PmValidationError p r f m _ =>
      join_with " "
        (["validation error"] ++ (if String.eqb p "" then [] else ["in policy " +:+ Quote p]) ++
         (if String.eqb r "" then [] else ["in rule " +:+ Quote r]) ++
         (if String.eqb f "" then [] else ["at " +:+ f]) ++ [m])%list
  | IncludeError f i cy m _ =>
      match cy with
      | _ :: _ => "circular include detected in " +:+ Quote f +:+ ": " +:+ join_with " -> " cy
      | [] =>
          if String.eqb i "" then "include error in " +:+ Quote f +:+ ": " +:+ m
          else "include error in " +:+ Quote f +:+ ": failed to include " +:+ Quote i +:+ ": " +:+ m
      end
  | RegistryError p o m _ =>
      if String.eqb p "" then "registry error during " +:+ o +:+ ": " +:+ m
      else "registry error for policy " +:+ Quote p +:+ " during " +:+ o +:+ ": " +:+ m
  | ErrorList [] => "no errors"
  | ErrorList [e] => pm_text e
  | ErrorList l =>
      pretty (Z.of_nat (length l)) +:+ " errors occurred:" +:+ newline +:+
      (fix go (i : Z) (l : list PmErr) : string :=
         match l with
         | [] => ""
         | e :: l => "  " +:+ pretty i +:+ ". " +:+ pm_text e +:+ newline +:+ go (i + 1) l
         end) 1 l
  | Wrapped m c => m +:+ ": " +:+ pm_text c
  | Plain m => m
  end.

Definition pm_Unwrap (e : PmErr) : option PmErr :=
  match e with
  | LoadError _ _ c | PmParseError _ _ _ _ c | PmValidationError _ _ _ _ c | IncludeError _ _ _ _ c
  | RegistryError _ _ _ c => c
  | Wrapped _ c => Some c
  | ErrorList _ | Plain _ => None
  end.

(** [ErrorList.ToError]: nothing, the single error, or the list. *)
Definition ToError (errors : list PmErr) : option PmErr :=
  match errors with [] => None | [e] => Some e | l => Some (ErrorList l) end.

(** ** The registry *)

Record PolicyRegistry := mkPolicyRegistry {
  reg_policies : gmap string Policy;
  reg_version : string;
  reg_loadTime : Time;
}.

Record PolicyMetadata := mkPolicyMetadata {
  pm_ID : string;
  pm_Name : string;
  pm_Version : string;
  pm_Author : string;
  pm_Description : string;
  pm_CreatedAt : Time;
  pm_ModifiedAt : Time;
  pm_FilePath : string;
  pm_Includes : list string;
  pm_RuleCount : Z;
  pm_EnabledRuleCount : Z;
}.

Record RegistryStats := mkRegistryStats {
  rg_PolicyCount : Z;
  rg_TotalRules : Z;
  rg_EnabledRules : Z;
  rg_LoadTime : Time;
  rg_Version : string;
}.

(** The hexadecimal SHA-256 digest of the bytes written to the hash. *)
Class PolicyHash : Type := {
  sha256hex : string -> string;
  sha256hex_length s : String.length (sha256hex s) = 64%nat;
}.

(** [sort.Strings] *)
Definition sortStrings `{SortSlice} (l : list string) : list string :=
  sort_slice (fun a b => String.ltb a b) l.

Definition concat_strings (l : list string) : string := foldr String.append "" l.

Section registry.
Context `{MapRange} `{SortSlice} `{PolicyHash}.

Definition NewPolicyRegistry (now : Time) : PolicyRegistry := mkPolicyRegistry ∅ "" now.

Definition GetPolicyNames (r : PolicyRegistry) : list string := sortStrings (fst <$> range (reg_policies r)).

(** What [updateVersion] writes to the hash for the policies of a map. *)
Definition hashed (names : list string) (m : gmap string Policy) : string :=
  concat_strings ((fun p => p_Name p +:+ Version p +:+ SourceFile p) <$> omap (fun n => m !! n) names).

Definition updateVersion (r : PolicyRegistry) : PolicyRegistry :=
  let names := sortStrings (fst <$> range (reg_policies r)) in
  mkPolicyRegistry (reg_policies r) (String.substring 0 16 (sha256hex (hashed names (reg_policies r)))) (reg_loadTime r).

Definition with_policies (m : gmap string Policy) (r : PolicyRegistry) : PolicyRegistry :=
  mkPolicyRegistry m (reg_version r) (reg_loadTime r).

(** The check on one policy pointer. *)
Definition invalid (operation : string) (policy : option Policy) : option PmErr :=
  match policy with
  | None => Some (RegistryError "" operation "policy cannot be nil" None)
  | Some p =>
      if String.eqb (p_Name p) "" then Some (RegistryError "" operation "policy name cannot be empty" None)
      else None
  end.

Fixpoint validateAll (operation : string) (policies : list (option Policy)) : option PmErr :=
  match policies with
  | [] => None
  | p :: policies => match invalid operation p with Some e => Some e | None => validateAll operation policies end
  end.

(** The loop [m[policy.Name] = policy]. *)
Definition insertAll (policies : list (option Policy)) (m : gmap string Policy) : gmap string Policy :=
  foldl (fun m p => match p with Some p => <[p_Name p := p]> m | None => m end) m policies.

Definition Register (policy : option Policy) (r : PolicyRegistry) : option PmErr * PolicyRegistry :=
  match invalid "register" policy with
  | Some e => (Some e, r)
  | None => (None, updateVersion (with_policies (insertAll [policy] (reg_policies r)) r))
  end.

Definition RegisterMultiple (policies : list (option Policy)) (r : PolicyRegistry) :
    option PmErr * PolicyRegistry :=
  match policies with
  | [] => (None, r)
  | _ =>
      match validateAll "register_multiple" policies with
      | Some e => (Some e, r)
      | None => (None, updateVersion (with_policies (insertAll policies (reg_policies r)) r))
      end
  end.

Definition Unregister (name : string) (r : PolicyRegistry) : option PmErr * PolicyRegistry :=
  match reg_policies r !! name with
  | None => (Some (RegistryError name "unregister" "policy not found" None), r)
  | Some _ => (None, updateVersion (with_policies (delete name (reg_policies r)) r))
  end.

Definition Get (name : string) (r : PolicyRegistry) : option Policy := reg_policies r !! name.
Definition HasPolicy (name : string) (r : PolicyRegistry) : bool := bool_decide (is_Some (reg_policies r !! name)).
Definition GetAll (r : PolicyRegistry) : list Policy := snd <$> range (reg_policies r).
Definition GetAllSorted (r : PolicyRegistry) : list Policy :=
  omap (fun n => reg_policies r !! n) (sortStrings (fst <$> range (reg_policies r))).
Definition Count (r : PolicyRegistry) : Z := Z.of_nat (size (reg_policies r)).
Definition Clear (r : PolicyRegistry) : PolicyRegistry := updateVersion (with_policies ∅ r).

Definition Clone (r : PolicyRegistry) : PolicyRegistry :=
  mkPolicyRegistry (foldl (fun m kp => <[kp.1 := kp.2]> m) ∅ (range (reg_policies r)))
    (reg_version r) (reg_loadTime r).

(** [policies] is the slice, [None] the nil slice. *)
Definition Replace (now : Time) (policies : option (list (option Policy))) (r : PolicyRegistry) :
    option PmErr * PolicyRegistry :=
  match policies with
  | None => (Some (RegistryError "" "replace" "policies cannot be nil" None), r)
  | Some policies =>
      match validateAll "replace" policies with
      | Some e => (Some e, r)
      | None => (None, updateVersion (mkPolicyRegistry (insertAll policies ∅) (reg_version r) now))
      end
  end.

Definition GetVersion (r : PolicyRegistry) : string := reg_version r.
Definition GetLoadTime (r : PolicyRegistry) : Time := reg_loadTime r.

Definition policyMetadata (p : Policy) : PolicyMetadata :=
  mkPolicyMetadata (p_Name p) (p_Name p) (Version p) (Author p) (p_Description p) (Created p) (Updated p)
    (SourceFile p) [] (Z.of_nat (length (Rules p))) (Z.of_nat (length (EnabledRules p))).

Definition GetMetadata (r : PolicyRegistry) : list PolicyMetadata :=
  (fun kp => policyMetadata kp.2) <$> range (reg_policies r).

Definition GetStats (r : PolicyRegistry) : RegistryStats :=
  foldl (fun st kp =>
    mkRegistryStats (rg_PolicyCount st) (rg_TotalRules st +64 Z.of_nat (length (Rules kp.2)))
      (rg_EnabledRules st +64 Z.of_nat (length (EnabledRules kp.2))) (rg_LoadTime st) (rg_Version st))
    (mkRegistryStats (Z.of_nat (size (reg_policies r))) 0 0 (reg_loadTime r) (reg_version r))
    (range (reg_policies r)).

(** ** Histories *)

Inductive RegOp :=
| OpRegister (p : option Policy)
| OpRegisterMultiple (ps : list (option Policy))
| OpUnregister (name : string)
| OpClear
| OpReplace (now : Time) (ps : option (list (option Policy))).

Definition reg_step (op : RegOp) (r : PolicyRegistry) : option PmErr * PolicyRegistry :=
  match op with
  | OpRegister p => Register p r
  | OpRegisterMultiple ps => RegisterMultiple ps r
  | OpUnregister n => Unregister n r
  | OpClear => (None, Clear r)
  | OpReplace t ps => Replace t ps r
  end.

Definition reg_run (ops : list RegOp) (r : PolicyRegistry) : PolicyRegistry :=
  foldl (fun r op => snd (reg_step op r)) r ops.

(** The contents an operation asks for, written without the checks: the last
    policy of a name wins. *)
Definition last_named (k : string) (ps : list (option Policy)) : option Policy :=
  last (List.filter (fun p => String.eqb (p_Name p) k) (omap id ps)).

Definition requested (op : RegOp) (m : gmap string Policy) (k : string) : option Policy :=
  match op with
  | OpRegister p => match last_named k [p] with Some p => Some p | None => m !! k end
  | OpRegisterMultiple ps => match last_named k ps with Some p => Some p | None => m !! k end
  | OpUnregister n => if String.eqb n k then None else m !! k
  | OpClear => None
  | OpReplace _ ps => last_named k (default [] ps)
  end.

(** Every policy is filed under its own, non-empty name, and the version is the
    digest of the current contents unless the registry was never changed. *)
Definition registry_ok (r : PolicyRegistry) : Prop :=
  (forall k p, reg_policies r !! k = Some p -> p_Name p = k /\ k <> "") /\
  (reg_version r = reg_version (updateVersion r) \/ reg_policies r = ∅ /\ reg_version r = "").

End registry.

(** ** Sorted names *)

Lemma sortStrings_unique (S1 S2 : SortSlice) l1 l2 :
  l1 ≡ₚ l2 -> NoDup l1 -> sortStrings (H := S1) l1 = sortStrings (H := S2) l2.
Proof.
  intros HP Hnd. apply (sorted_unique (fun _ => 0) (fun s => s)).
  - apply (@sort_slice_sorted S1), (by_priority_strict_weak (fun _ => 0) (fun s => s)).
  - apply (@sort_slice_sorted S2), (by_priority_strict_weak (fun _ => 0) (fun s => s)).
  - unfold sortStrings. by rewrite (@sort_slice_perm S1), (@sort_slice_perm S2).
  - rewrite list_fmap_id. unfold sortStrings. by rewrite (@sort_slice_perm S1).
Qed.

Lemma sortStrings_sorted `{SortSlice} l : StronglySorted String.le (sortStrings l).
Proof.
  pose proof (sort_slice_sorted (fun a b => String.ltb a b) l
    (by_priority_strict_weak (fun _ => 0) (fun s => s))) as HS.
  unfold sortStrings. induction HS as [|a l' HS IH Ha]; constructor; [done|].
  eapply Forall_impl; [exact Ha|]. intros b. apply ltb_not_le.
Qed.

Lemma range_keys_perm (R : MapRange) {V} (m : gmap string V) : (range m).*1 ≡ₚ (map_to_list m).*1.
Proof. by rewrite (range_perm m). Qed.

Lemma listing_keys_NoDup (R : MapRange) {V} (m : gmap string V) : NoDup (range m).*1.
Proof. rewrite (range_keys_perm R m). apply NoDup_fst_map_to_list. Qed.

Lemma elem_of_range_keys (R : MapRange) {V} (m : gmap string V) k : k ∈ (range m).*1 <-> is_Some (m !! k).
Proof.
  rewrite list_elem_of_fmap. split.
  - intros ([k' v] & -> & Hkv). apply elem_of_range in Hkv. by exists v.
  - intros [v Hv]. exists (k, v). split; [done|]. by apply elem_of_range.
Qed.

(** The sorted names of two maps with the same keys coincide, whatever the
    iteration order and the sorting algorithm. *)
Lemma sorted_names_unique (R1 R2 : MapRange) (S1 S2 : SortSlice) {V W} (m1 : gmap string V) (m2 : gmap string W) :
  (forall k, is_Some (m1 !! k) <-> is_Some (m2 !! k)) ->
  sortStrings (H := S1) (range (MapRange := R1) m1).*1 = sortStrings (H := S2) (range (MapRange := R2) m2).*1.
Proof.
  intros Hk. apply sortStrings_unique; [|apply listing_keys_NoDup].
  apply NoDup_Permutation; [apply listing_keys_NoDup..|]. intros k. by rewrite !elem_of_range_keys.
Qed.

(** ** Histories *)

Lemma last_named_cons k p ps :
  last_named k (p :: ps) =
  match last_named k ps with
  | Some q => Some q
  | None => match p with Some p => if String.eqb (p_Name p) k then Some p else None | None => None end
  end.
Proof.
  unfold last_named. destruct p as [p|]; cbn; [|by destruct (last _)].
  destruct (String.eqb (p_Name p) k); [|by destruct (last _)]. rewrite last_cons. by destruct (last _).
Qed.

Lemma insertAll_lookup ps : forall m k,
  insertAll ps m !! k = match last_named k ps with Some p => Some p | None => m !! k end.
Proof.
  unfold insertAll. induction ps as [|p ps IH]; intros m k; [done|]. cbn [foldl].
  rewrite IH, last_named_cons. destruct (last_named k ps); [done|]. destruct p as [p|]; [|done].
  destruct (String.eqb_spec (p_Name p) k) as [->|Hne]; [apply lookup_insert_eq|by apply lookup_insert_ne].
Qed.

Lemma last_named_Some k ps p : last_named k ps = Some p -> Some p ∈ ps /\ p_Name p = k.
Proof.
  unfold last_named. intros Hl. apply last_Some_elem_of, list_elem_of_In, filter_In in Hl as [Hin Hn].
  apply String.eqb_eq in Hn. apply list_elem_of_In, list_elem_of_omap in Hin as (o & Ho & Hid).
  cbn in Hid. by rewrite <- Hid.
Qed.

Lemma validateAll_None op ps : validateAll op ps = None -> forall p, Some p ∈ ps -> p_Name p <> "".
Proof.
  induction ps as [|o ps IH]; [intros _ p Hp; by apply not_elem_of_nil in Hp|]. cbn. intros Hv p Hp.
  destruct (invalid op o) eqn:Hi; [done|]. apply elem_of_cons in Hp as [<-|Hp]; [|by apply IH].
  cbn in Hi. by destruct (String.eqb_spec (p_Name p) "").
Qed.

Section histories.
Context `{MapRange} `{SortSlice} `{PolicyHash}.

Lemma registry_ok_update m :
  (forall k p, m !! k = Some p -> p_Name p = k /\ k <> "") ->
  forall v t, registry_ok (updateVersion (mkPolicyRegistry m v t)).
Proof. intros Hm v t. split; [exact Hm|]. by left. Qed.

Lemma insertAll_ok op ps m :
  validateAll op ps = None -> (forall k p, m !! k = Some p -> p_Name p = k /\ k <> "") ->
  forall k p, insertAll ps m !! k = Some p -> p_Name p = k /\ k <> "".
Proof.
  intros Hv Hm k p. rewrite insertAll_lookup. destruct (last_named k ps) as [q|] eqn:Hl; [|apply Hm].
  intros [= ->]. apply last_named_Some in Hl as [Hin <-]. split; [done|]. by apply (validateAll_None op ps).
Qed.

Lemma invalid_validateAll op p : validateAll op [p] = invalid op p.
Proof. cbn. by destruct (invalid op p). Qed.

Lemma reg_step_ok op r : registry_ok r -> registry_ok (snd (reg_step op r)).
Proof.
  intros Hr. pose proof (proj1 Hr) as Hm. destruct op as [p|ps|n| |t ps]; cbn [reg_step].
  - unfold Register. rewrite <- invalid_validateAll. destruct (validateAll _ _) eqn:Hv; [done|].
    apply registry_ok_update. by eapply insertAll_ok.
  - unfold RegisterMultiple. destruct ps as [|p ps]; [done|]. destruct (validateAll _ _) eqn:Hv; [done|].
    apply registry_ok_update. by eapply insertAll_ok.
  - unfold Unregister. destruct (reg_policies r !! n) as [q|]; [|done].
    apply registry_ok_update. intros k p [_ Hk]%lookup_delete_Some. by apply Hm.
  - by apply registry_ok_update.
  - unfold Replace. destruct ps as [ps|]; [|done]. destruct (validateAll _ _) eqn:Hv; [done|].
    apply registry_ok_update. eapply insertAll_ok; [done|]. by intros k p.
Qed.

Lemma reg_run_ok ops : forall r, registry_ok r -> registry_ok (reg_run ops r).
Proof. induction ops as [|op ops IH]; intros r Hr; [done|]. cbn. by apply IH, reg_step_ok. Qed.

Lemma new_registry_ok now : registry_ok (NewPolicyRegistry now).
Proof. split; [by intros k p|]. by right. Qed.

(** One step: an error changes nothing, a success gives the requested contents. *)
Lemma reg_step_effect op r :
  match reg_step op r with
  | (Some _, r') => r' = r
  | (None, r') => forall k, reg_policies r' !! k = requested op (reg_policies r) k
  end.
Proof.
  destruct op as [p|ps|n| |t ps]; cbn [reg_step requested].
  - unfold Register. destruct (invalid _ p); [done|]. intros k. cbn [updateVersion with_policies reg_policies].
    by rewrite insertAll_lookup.
  - unfold RegisterMultiple. destruct ps as [|p ps]; [done|]. destruct (validateAll _ _); [done|].
    intros k. cbn [updateVersion with_policies reg_policies]. by rewrite insertAll_lookup.
  - unfold Unregister. destruct (reg_policies r !! n) as [q|]; [|done]. intros k.
    cbn [updateVersion with_policies reg_policies].
    destruct (String.eqb_spec n k) as [->|Hne]; [apply lookup_delete_eq|by apply lookup_delete_ne].
  - intros k. apply lookup_empty.
  - unfold Replace. destruct ps as [ps|]; [|done]. destruct (validateAll _ _); [done|].
    intros k. cbn [updateVersion reg_policies default]. rewrite insertAll_lookup, lookup_empty. unfold default, id.
    by destruct (last_named k ps).
Qed.

(** The registry is well-formed after any history.  Every policy is filed
    under its own non-empty name and the version is the digest of the contents;
    an operation that reports an error changes nothing, and one that succeeds
    leaves exactly the requested policies, the last one of a name winning. *)
Theorem registry_well_formed ops op now :
  let r := reg_run ops (NewPolicyRegistry now) in
  registry_ok r /\
  match reg_step op r with
  | (Some _, r') => r' = r
  | (None, r') => forall k, reg_policies r' !! k = requested op (reg_policies r) k
  end.
Proof. split; [apply reg_run_ok, new_registry_ok|apply reg_step_effect]. Qed.

(** The names under which policies are filed, in map order. *)
Lemma getall_sorted_names r : registry_ok r -> p_Name <$> GetAllSorted r = GetPolicyNames r.
Proof.
  intros [Hm _]. unfold GetAllSorted, GetPolicyNames.
  assert (Hin : forall n, n ∈ sortStrings (range (reg_policies r)).*1 -> is_Some (reg_policies r !! n)).
  { intros n Hn. apply (elem_of_range_keys _ (reg_policies r)). unfold sortStrings in Hn.
    by rewrite sort_slice_perm in Hn. }
  induction (sortStrings _) as [|n l IH]; [done|].
  destruct (Hin n ltac:(by left)) as [p Hp]. cbn. rewrite Hp. cbn.
  destruct (Hm _ _ Hp) as [-> _]. f_equal. apply IH. intros k Hk. apply Hin. by right.
Qed.

Lemma getall_sorted_perm r : GetAllSorted r ≡ₚ GetAll r.
Proof.
  unfold GetAllSorted, GetAll, sortStrings. rewrite sort_slice_perm.
  assert (Hin : forall kp, kp ∈ range (reg_policies r) -> reg_policies r !! kp.1 = Some kp.2).
  { intros [k p] Hkp. by apply elem_of_range. }
  induction (range _) as [|[k p] l IH]; [done|]. pose proof (Hin (k, p) ltac:(by left)) as Hk.
  cbn in Hk |- *. rewrite Hk. cbn. constructor. apply IH. intros kp Hkp. apply Hin. by right.
Qed.

End histories.

(** The sorted listing is canonical.  It does not depend on map iteration
    order or on the sorting algorithm, it lists every policy once, and the names
    ascend. *)
Theorem registry_listing_canonical (R1 R2 : MapRange) (S1 S2 : SortSlice) `{PolicyHash} r :
  registry_ok (H := R1) (H0 := S1) r ->
  GetAllSorted (H := R1) (H0 := S1) r = GetAllSorted (H := R2) (H0 := S2) r /\
  GetAllSorted (H := R1) (H0 := S1) r ≡ₚ GetAll (H := R1) r /\
  StronglySorted String.le (p_Name <$> GetAllSorted (H := R1) (H0 := S1) r) /\
  NoDup (p_Name <$> GetAllSorted (H := R1) (H0 := S1) r).
Proof.
  intros Hr. split_and!.
  - unfold GetAllSorted. by rewrite (sorted_names_unique R1 R2 S1 S2 (reg_policies r) (reg_policies r)).
  - apply getall_sorted_perm.
  - rewrite getall_sorted_names by done. apply sortStrings_sorted.
  - rewrite getall_sorted_names by done. unfold GetPolicyNames, sortStrings. rewrite sort_slice_perm.
    apply listing_keys_NoDup.
Qed.

(** The version does not see the rules.  Replacing a registered policy by
    one with other rules, but the same name, version and file, leaves the
    version of the registry unchanged. *)
Theorem registry_version_blind `{MapRange} `{SortSlice} `{PolicyHash} r k p rules :
  reg_policies r !! k = Some p ->
  reg_version (updateVersion (with_policies (<[k := with_rules p rules]> (reg_policies r)) r)) =
  reg_version (updateVersion r).
Proof.
  intros Hp. cbn [updateVersion with_policies reg_policies reg_version].
  rewrite (sorted_names_unique _ _ _ _ (<[k := with_rules p rules]> (reg_policies r)) (reg_policies r)).
  - do 2 f_equal. unfold hashed. f_equal. induction (sortStrings _) as [|n l IH]; [done|]. cbn.
    destruct (decide (n = k)) as [->|Hne].
    + rewrite lookup_insert_eq, Hp. cbn. by rewrite IH.
    + rewrite lookup_insert_ne by done. destruct (reg_policies r !! n); cbn; by rewrite IH.
  - intros n. destruct (decide (n = k)) as [->|Hne].
    + rewrite lookup_insert_eq, Hp. by split.
    + by rewrite lookup_insert_ne.
Qed.

(** ** Examples *)

(** The first letter of the text 64 times: a digest for evaluation. *)
Definition letter (s : string) : Ascii.ascii := match s with String c _ => c | EmptyString => "0"%char end.
Definition ex_hash : PolicyHash := {|
  sha256hex s := String.string_of_list_ascii (replicate 64 (letter s));
  sha256hex_length s := eq_refl;
|}.

Definition ex_policy (name version file : string) : Policy :=
  mkPolicy "1.0" name version "" "" 0 0 [] ∅ [] [] file.

Definition ex_registry : PolicyRegistry :=
  reg_run (H := some_range) (H0 := merge_sort_slice) (H1 := ex_hash)
    [OpRegisterMultiple [Some (ex_policy "b" "2" "b.yaml"); Some (ex_policy "a" "1" "a.yaml")];
     OpRegister None; OpUnregister "zz"] (NewPolicyRegistry 0).

Lemma registry_listing_canonical_witness :
  GetAllSorted (H := some_range) (H0 := merge_sort_slice) ex_registry =
    [ex_policy "a" "1" "a.yaml"; ex_policy "b" "2" "b.yaml"] /\
  NoDup (p_Name <$> GetAllSorted (H := some_range) (H0 := merge_sort_slice) ex_registry).
Proof.
  split; [vm_compute; reflexivity|].
  apply (registry_listing_canonical some_range some_range merge_sort_slice merge_sort_slice (H := ex_hash)).
  apply reg_run_ok, new_registry_ok.
Defined.

Lemma registry_version_blind_witness :
  reg_version (updateVersion (H := some_range) (H0 := merge_sort_slice) (H1 := ex_hash)
    (with_policies (<["a" := with_rules (ex_policy "a" "1" "a.yaml") []]> (reg_policies ex_registry)) ex_registry)) =
  reg_version (updateVersion (H := some_range) (H0 := merge_sort_slice) (H1 := ex_hash) ex_registry).
Proof. apply registry_version_blind. vm_compute. reflexivity. Defined.
