(* ===== verification/PolicyLoader.v ===== *)
(** * Policy loader ([pkg/policy/manager/loader.go], [types.go])

    Loading of policy files and directories.  The file system and the parser of
    policy files are arguments, collected in one record [Disk]: what [os.Stat],
    [os.ReadFile], [filepath.EvalSymlinks], [os.Getwd] and the directory tree
    that [filepath.WalkDir] visits answer at one moment, and what parsing a file
    gives.  A loader call sees one such moment. *)

From Stdlib Require Import ZArith Lia Ascii.
From stdpp Require Import base option list strings gmap pretty.
From S2P Require Import Prelude GoValue Ast ProxyTypes Paths PolicyRegistry.
Local Open Scope string_scope.
Local Open Scope Z_scope.

(** ** The file system *)

Inductive StatErr := NotExist (text : string) | Permission (text : string) | OtherStat (text : string).

Definition stat_cause (e : StatErr) : option PmErr :=
  Some (Plain (match e with NotExist t | Permission t | OtherStat t => t end)).

Record FileInfo := mkFileInfo { fi_regular : bool; fi_isDir : bool; fi_size : Z }.

(** A directory entry with what reading it as a directory gives. *)
Inductive WalkEntry := WEntry (name : string) (isDir isLink : bool) (readErr : option string) (children : list WalkEntry).

Definition entry_name (e : WalkEntry) : string := match e with WEntry n _ _ _ _ => n end.

Record Disk := mkDisk {
  d_stat : string -> result StatErr FileInfo;
  d_read : string -> result string string;
  d_walk : string -> result string WalkEntry;
  d_eval : string -> result StatErr string;
  d_getwd : result string string;
  d_parse : string -> result string Policy;
}.

Record PolicyLoaderConfig := mkPolicyLoaderConfig {
  MaxFileSize : Z;
  MaxIncludeDepth : Z;
  AllowedExtensions : list string;
  FollowSymlinks : bool;
  SkipHidden : bool;
}.

Definition DefaultLoaderConfig : PolicyLoaderConfig :=
  mkPolicyLoaderConfig (10 * 1024 * 1024) 10 [".yaml"; ".yml"] true true.

(** ** [utf8.Valid] *)

Definition in_byte (lo hi : Z) (c : ascii) : bool :=
  (lo <=? Z.of_N (N_of_ascii c)) && (Z.of_N (N_of_ascii c) <=? hi).

(** The length of a sequence and the range of its second byte, by first byte. *)
Definition utf8_first (c : ascii) : option (nat * (Z * Z)) :=
  if in_byte 0 127 c then Some (0%nat, (0, 0))
  else if in_byte 194 223 c then Some (1%nat, (128, 191))
  else if in_byte 224 224 c then Some (2%nat, (160, 191))
  else if in_byte 237 237 c then Some (2%nat, (128, 159))
  else if in_byte 225 239 c then Some (2%nat, (128, 191))
  else if in_byte 240 240 c then Some (3%nat, (144, 191))
  else if in_byte 241 243 c then Some (3%nat, (128, 191))
  else if in_byte 244 244 c then Some (3%nat, (128, 143))
  else None.

(** [n] continuation bytes are due, the next one in the given range. *)
Fixpoint utf8_from (n : nat) (lo hi : Z) (s : string) : bool :=
  match s with
  | EmptyString => Nat.eqb n 0
  | String c s =>
      match n with
      | S n => in_byte lo hi c && utf8_from n 128 191 s
      | O => match utf8_first c with Some (n, (lo, hi)) => utf8_from n lo hi s | None => false end
      end
  end.

Definition utf8_Valid (s : string) : bool := utf8_from 0 0 0 s.

(** ** The loader *)

Section loader.
Variable config : PolicyLoaderConfig.
Variable disk : Disk.

Definition sizeError (path : string) (info : FileInfo) : PmErr :=
  LoadError path ("file size " +:+ pretty (fi_size info) +:+ " bytes exceeds maximum " +:+
    pretty (MaxFileSize config) +:+ " bytes") None.

Definition LoadFromFile (path : string) : result PmErr Policy :=
  match d_stat disk path with
  | Err (NotExist _ as e) => Err (LoadError path "file not found" (stat_cause e))
  | Err (Permission _ as e) => Err (LoadError path "permission denied" (stat_cause e))
  | Err e => Err (LoadError path "failed to access file" (stat_cause e))
  | Ok info =>
      if negb (fi_regular info) then Err (LoadError path "not a regular file" None)
      else if MaxFileSize config <? fi_size info then Err (sizeError path info)
      else
        match d_read disk path with
        | Err e => Err (LoadError path "failed to read file" (Some (Plain e)))
        | Ok data =>
            if negb (utf8_Valid data) then Err (LoadError path "file contains invalid UTF-8 encoding" None)
            else
              match d_parse disk path with
              | Err e => Err (PmParseError path 0 0 "YAML parsing failed" (Some (Plain e)))
              | Ok policy => Ok policy
              end
        end
  end.

Definition hasValidExtension (path : string) : bool :=
  existsb (fun validExt => String.eqb (ToLower (Ext path)) (ToLower validExt)) (AllowedExtensions config).

(** The files collected so far and the link targets seen. *)
Definition WalkState : Type := list string * gmap string bool.

Inductive WalkResult := WCont (st : WalkState) | WSkipDir | WFail (e : PmErr).

(** The callback of [collectPolicyFiles] on an entry that could be read. *)
Definition walkFn (dir path name : string) (isDir isLink : bool) (st : WalkState) : WalkResult :=
  if SkipHidden config && HasPrefix name "." && negb (String.eqb path dir) then
    (if isDir then WSkipDir else WCont st)
  else if isDir then WCont st
  else if isLink then
    if negb (FollowSymlinks config) then WCont st
    else
      match d_eval disk path with
      | Err e => WFail (LoadError path "failed to resolve symlink" (stat_cause e))
      | Ok realPath =>
          if default false (snd st !! realPath) then WFail (LoadError path "symlink loop detected" None)
          else
            let visited := <[realPath := true]> (snd st) in
            if negb (hasValidExtension realPath) then WCont (fst st, visited)
            else WCont (fst st ++ [path], visited)%list
      end
  else if negb (hasValidExtension path) then WCont st
  else WCont (fst st ++ [path], snd st)%list.

(** [filepath.WalkDir] with this callback. *)
Fixpoint walkDir (dir path : string) (e : WalkEntry) (st : WalkState) : result PmErr WalkState :=
  match e with
  | WEntry name isDir isLink readErr children =>
      match walkFn dir path name isDir isLink st with
      | WFail er => Err er
      | WSkipDir => Ok st
      | WCont st =>
          if negb isDir then Ok st
          else
            match readErr with
            | Some m => Err (Plain m)
            | None =>
                (fix walkChildren (l : list WalkEntry) (st : WalkState) : result PmErr WalkState :=
                   match l with
                   | [] => Ok st
                   | c :: l =>
                       match walkDir dir (JoinPath [path; entry_name c]) c st with
                       | Ok st => walkChildren l st
                       | Err er => Err er
                       end
                   end) children st
            end
      end
  end.

Definition collectPolicyFiles (dir : string) : result PmErr (list string) :=
  let walked :=
    match d_walk disk dir with
    | Ok e => walkDir dir dir e ([], ∅)
    | Err m => Err (Plain m)
    end in
  match walked with
  | Err e => Err (LoadError dir "failed to walk directory" (Some e))
  | Ok st => Ok (fst st)
  end.

(** The loop over the collected files: the policies and the errors. *)
Fixpoint loadFiles (files : list string) : list Policy * list PmErr :=
  match files with
  | [] => ([], [])
  | f :: files =>
      let '(policies, errors) := loadFiles files in
      match LoadFromFile f with
      | Ok p => (p :: policies, errors)
      | Err e => (policies, e :: errors)
      end
  end.

(** Policies together with an error report a partial success. *)
Definition LoadFromDirectory (dir : string) : list Policy * option PmErr :=
  match d_stat disk dir with
  | Err (NotExist _ as e) => ([], Some (LoadError dir "directory not found" (stat_cause e)))
  | Err e => ([], Some (LoadError dir "failed to access directory" (stat_cause e)))
  | Ok info =>
      if negb (fi_isDir info) then ([], Some (LoadError dir "not a directory" None))
      else
        match collectPolicyFiles dir with
        | Err e => ([], Some e)
        | Ok [] => ([], Some (LoadError dir "no policy files found in directory" None))
        | Ok files =>
            let '(policies, errors) := loadFiles files in
            match errors with
            | [] => (policies, None)
            | _ => (policies, Some (ErrorList errors))
            end
        end
  end.

Definition ValidateFileSize (path : string) : option PmErr :=
  match d_stat disk path with
  | Err e => Some (LoadError path "failed to access file" (stat_cause e))
  | Ok info => if MaxFileSize config <? fi_size info then Some (sizeError path info) else None
  end.

Definition ValidateUTF8 (path : string) : option PmErr :=
  match d_read disk path with
  | Err e => Some (LoadError path "failed to read file" (Some (Plain e)))
  | Ok data => if utf8_Valid data then None else Some (LoadError path "file contains invalid UTF-8 encoding" None)
  end.

Definition IsDirectory (path : string) : result PmErr bool :=
  match d_stat disk path with
  | Err (NotExist _ as e) => Err (LoadError path "path does not exist" (stat_cause e))
  | Err e => Err (LoadError path "failed to access path" (stat_cause e))
  | Ok info => Ok (fi_isDir info)
  end.

(** ** What is collected *)

(** The non-directory entries below [path] in walk order, with whether they are
    links, hidden entries and everything below hidden directories left out. *)
Fixpoint visible (dir path : string) (e : WalkEntry) : list (string * bool) :=
  match e with
  | WEntry name isDir isLink _ children =>
      if SkipHidden config && HasPrefix name "." && negb (String.eqb path dir) then []
      else if isDir then
        (fix go (l : list WalkEntry) : list (string * bool) :=
           match l with [] => [] | c :: l => visible dir (JoinPath [path; entry_name c]) c ++ go l end)%list children
      else [(path, isLink)]
  end.

Definition wanted (f : string * bool) : bool :=
  if snd f then FollowSymlinks config && match d_eval disk (fst f) with Ok real => hasValidExtension real | Err _ => false end
  else hasValidExtension (fst f).

Lemma WalkEntry_nested_ind (P : WalkEntry -> Prop) :
  (forall name isDir isLink readErr children, Forall P children -> P (WEntry name isDir isLink readErr children)) ->
  forall e, P e.
Proof.
  intros Hstep. fix IH 1. intros [name isDir isLink readErr children]. apply Hstep.
  induction children as [|c l IHl]; constructor; [apply IH|exact IHl].
Qed.

Lemma walkFn_file dir path name isLink st st' :
  SkipHidden config && HasPrefix name "." && negb (String.eqb path dir) = false ->
  walkFn dir path name false isLink st = WCont st' ->
  fst st' = (fst st ++ (List.filter wanted [(path, isLink)]).*1)%list.
Proof.
  intros Hh. unfold walkFn. rewrite Hh. cbn [List.filter]. unfold wanted. cbn [fst snd]. destruct isLink.
  - destruct (FollowSymlinks config); cbn; [|intros [= <-]; by rewrite app_nil_r].
    destruct (d_eval disk path) as [real|]; [|done]. destruct (default false _); [done|].
    destruct (hasValidExtension real); cbn; intros [= <-]; [done|by rewrite app_nil_r].
  - destruct (hasValidExtension path); cbn; intros [= <-]; [done|by rewrite app_nil_r].
Qed.

Lemma walkDir_collects dir e : forall path st st',
  walkDir dir path e st = Ok st' -> fst st' = (fst st ++ (List.filter wanted (visible dir path e)).*1)%list.
Proof.
  induction e as [name isDir isLink readErr children IH] using WalkEntry_nested_ind. intros path st st'.
  cbn [walkDir visible]. destruct (SkipHidden config && HasPrefix name "." && negb (String.eqb path dir)) eqn:Hh.
  - unfold walkFn. rewrite Hh. destruct isDir; cbn; intros [= <-]; by rewrite app_nil_r.
  - destruct isDir; cbn [negb].
    + unfold walkFn. rewrite Hh. destruct readErr; [done|]. clear Hh.
      revert st. induction IH as [|c l Hc _ IHl]; intros st.
      * intros [= <-]. by rewrite app_nil_r.
      * destruct (walkDir dir (JoinPath [path; entry_name c]) c st) as [st1|] eqn:Hw; [|done].
        intros Hl. apply Hc in Hw. apply IHl in Hl. rewrite Hl, Hw, <- app_assoc. f_equal.
        by rewrite List.filter_app, fmap_app.
    + destruct (walkFn dir path name false isLink st) as [st1| |] eqn:Hw; [|by unfold walkFn in Hw; rewrite Hh in Hw; repeat case_match|done].
      intros [= <-]. by eapply walkFn_file.
Qed.

(** A directory walk collects exactly the policy files: when it succeeds,
    the result is the list of the visible files with an allowed extension (of
    the target, for a link that is followed), in the order of the walk; hidden
    files and everything below hidden directories are left out. *)
Theorem collected_files_exact dir e files :
  d_walk disk dir = Ok e -> collectPolicyFiles dir = Ok files ->
  files = (List.filter wanted (visible dir dir e)).*1.
Proof.
  intros He. unfold collectPolicyFiles. rewrite He.
  destruct (walkDir dir dir e ([], ∅)) as [st|] eqn:Hw; [|done]. intros [= <-].
  by rewrite (walkDir_collects _ _ _ _ _ Hw).
Qed.

(** A policy file is loaded exactly when it is a regular file within the
    size limit whose contents can be read, are valid UTF-8 and parse; the policy
    is then what the parser returned. *)
Theorem load_from_file_exact path p :
  LoadFromFile path = Ok p <->
  exists info data,
    d_stat disk path = Ok info /\ fi_regular info = true /\ fi_size info <= MaxFileSize config /\
    d_read disk path = Ok data /\ utf8_Valid data = true /\ d_parse disk path = Ok p.
Proof.
  unfold LoadFromFile. split.
  - destruct (d_stat disk path) as [info|[?|?|?]]; [|done..].
    destruct (fi_regular info) eqn:Hr; [|done]. cbn [negb].
    destruct (Z.ltb_spec (MaxFileSize config) (fi_size info)); [done|].
    destruct (d_read disk path) as [data|]; [|done].
    destruct (utf8_Valid data) eqn:Hu; [|done]. cbn [negb].
    destruct (d_parse disk path); [|done]. intros [= ->]. by exists info, data.
  - intros (info & data & -> & -> & Hs & -> & -> & ->). cbn [negb].
    by destruct (Z.ltb_spec (MaxFileSize config) (fi_size info)); [lia|].
Qed.

End loader.

(** ** Examples *)

(** A disk with one directory [/p], the given policy files, links and tree. *)
Definition ex_disk (files : gmap string Policy) (links : gmap string string) (tree : WalkEntry) : Disk :=
  let find p := match links !! p with Some q => files !! q | None => files !! p end in
  {|
    d_stat p := if String.eqb p "/p" then Ok (mkFileInfo false true 0)
                else match find p with Some _ => Ok (mkFileInfo true false 10) | None => Err (NotExist p) end;
    d_read p := match find p with Some _ => Ok "name: x" | None => Err p end;
    d_walk p := if String.eqb p "/p" then Ok tree else Err p;
    d_eval p := match links !! p with Some q => Ok q
                | None => match files !! p with Some _ => Ok p | None => Err (NotExist p) end end;
    d_getwd := Ok "/";
    d_parse p := match find p with Some pol => Ok pol | None => Err p end;
  |}.

Definition leaf (name : string) : WalkEntry := WEntry name false false None [].
Definition link (name : string) : WalkEntry := WEntry name false true None [].
Definition folder (name : string) (l : list WalkEntry) : WalkEntry := WEntry name true false None l.

Definition ex_files : gmap string Policy :=
  {[ "/p/a.yaml" := ex_policy "a" "1" "/p/a.yaml"; "/p/sub/b.yml" := ex_policy "b" "1" "/p/sub/b.yml" ]}.

Definition ex_tree : WalkEntry :=
  folder "p" [folder ".git" [leaf "x.yaml"]; leaf "a.yaml"; leaf "notes.txt"; folder "sub" [leaf "b.yml"]].

Lemma collected_files_exact_witness :
  collectPolicyFiles DefaultLoaderConfig (ex_disk ex_files ∅ ex_tree) "/p" = Ok ["/p/a.yaml"; "/p/sub/b.yml"] /\
  ["/p/a.yaml"; "/p/sub/b.yml"] =
    (List.filter (wanted DefaultLoaderConfig (ex_disk ex_files ∅ ex_tree)) (visible DefaultLoaderConfig "/p" "/p" ex_tree)).*1.
Proof.
  assert (He : collectPolicyFiles DefaultLoaderConfig (ex_disk ex_files ∅ ex_tree) "/p" =
    Ok ["/p/a.yaml"; "/p/sub/b.yml"]) by (vm_compute; reflexivity).
  split; [exact He|].
  apply (collected_files_exact DefaultLoaderConfig (ex_disk ex_files ∅ ex_tree) "/p" ex_tree); [reflexivity|exact He].
Defined.

(** Two links to one file are taken for a loop: the whole directory fails to
    load, although nothing is circular. *)
Example two_links_are_no_loop :
  LoadFromDirectory DefaultLoaderConfig
    (ex_disk {[ "/shared/a.yaml" := ex_policy "a" "1" "" ]}
       {[ "/p/one.yaml" := "/shared/a.yaml"; "/p/two.yaml" := "/shared/a.yaml" ]}
       (folder "p" [link "one.yaml"; link "two.yaml"])) "/p" =
  ([], Some (LoadError "/p" "failed to walk directory" (Some (LoadError "/p/two.yaml" "symlink loop detected" None)))).
Proof. vm_compute. reflexivity. Qed.
