(* ===== verification/PolicyResolver.v ===== *)
(** * Include resolution ([pkg/policy/manager/resolver.go])

    The resolver loads a policy file and the files it includes, depth first, and
    then orders the files so that included ones come first.  Its maps are the
    state that the recursive functions thread.  The recursions are not
    structural: [resolveFile] has fuel for the maximum include depth and the
    depth-first searches for the number of files, and theorems below show that
    the fuel never runs out ([None]). *)

From Stdlib Require Import ZArith Lia.
From stdpp Require Import base option list strings gmap relations pretty.
From S2P Require Import Prelude GoValue Ast Paths PolicyPriority PolicyRegistry PolicyLoader.
Local Open Scope string_scope.
Local Open Scope Z_scope.

Record PolicyNode := mkPolicyNode {
  pn_Policy : Policy;
  pn_FilePath : string;
  pn_Includes : list string;
  pn_IncludedBy : list string;
  pn_Depth : Z;
}.

Record IncludeResolver := mkIncludeResolver {
  ir_Nodes : gmap string PolicyNode;
  ir_Edges : gmap string (list string);
  ir_visited : gmap string bool;
  ir_visiting : gmap string bool;
  ir_sortedPaths : list string;
}.

Definition fresh_resolver : IncludeResolver := mkIncludeResolver ∅ ∅ ∅ ∅ [].

(** A lookup in a [map[string]bool]. *)
Definition flag (m : gmap string bool) (k : string) : bool := default false (m !! k).

Definition with_visiting (k : string) (r : IncludeResolver) : IncludeResolver :=
  mkIncludeResolver (ir_Nodes r) (ir_Edges r) (ir_visited r) (<[k := true]> (ir_visiting r)) (ir_sortedPaths r).

Definition addIncludedBy (by_ : string) (n : PolicyNode) : PolicyNode :=
  mkPolicyNode (pn_Policy n) (pn_FilePath n) (pn_Includes n) (pn_IncludedBy n ++ [by_]) (pn_Depth n).

Definition includedBy (target by_ : string) (r : IncludeResolver) : IncludeResolver :=
  mkIncludeResolver (alter (addIncludedBy by_) target (ir_Nodes r)) (ir_Edges r) (ir_visited r)
    (ir_visiting r) (ir_sortedPaths r).

(** The end of [resolveFile]: the node enters the graph and is visited. *)
Definition addNode (k : string) (n : PolicyNode) (r : IncludeResolver) : IncludeResolver :=
  mkIncludeResolver (<[k := n]> (ir_Nodes r)) (<[k := pn_Includes n]> (ir_Edges r)) (<[k := true]> (ir_visited r))
    (<[k := false]> (ir_visiting r)) (ir_sortedPaths r).

Definition with_sorted (l : list string) (r : IncludeResolver) : IncludeResolver :=
  mkIncludeResolver (ir_Nodes r) (ir_Edges r) (ir_visited r) (ir_visiting r) l.

(** ** Depth-first search over the graph *)

(** The local variables of [topologicalSort] and the paths appended so far. *)
Record TopoState := mkTopoState {
  t_visited : gmap string bool;
  t_visiting : gmap string bool;
  t_sorted : list string;
}.

(** A loop over calls that stops at the first error; [None] is out of fuel. *)
Fixpoint visitAll {St : Type} (f : string -> St -> option (option PmErr * St)) (l : list string) (st : St) :
    option (option PmErr * St) :=
  match l with
  | [] => Some (None, st)
  | x :: l =>
      match f x st with
      | Some (None, st) => visitAll f l st
      | other => other
      end
  end.

Section search.
Variable edges : gmap string (list string).

Definition deps (path : string) : list string := default [] (edges !! path).

Fixpoint visit (fuel : nat) (path : string) (st : TopoState) : option (option PmErr * TopoState) :=
  match fuel with
  | O => None
  | S fuel =>
      if flag (t_visited st) path then Some (None, st)
      else if flag (t_visiting st) path then
        Some (Some (IncludeError path "" [] "circular dependency detected during topological sort" None), st)
      else
        match visitAll (visit fuel) (deps path)
                (mkTopoState (t_visited st) (<[path := true]> (t_visiting st)) (t_sorted st)) with
        | Some (None, st) =>
            Some (None, mkTopoState (<[path := true]> (t_visited st)) (<[path := false]> (t_visiting st))
                          (t_sorted st ++ [path]))
        | other => other
        end
  end.

(** [DetectCycles] is the same search with the stack of paths for the report. *)
Fixpoint visitCycle (fuel : nat) (stack : list string) (path : string) (st : gmap string bool * gmap string bool) :
    option (option PmErr * (gmap string bool * gmap string bool)) :=
  match fuel with
  | O => None
  | S fuel =>
      if flag (fst st) path then Some (None, st)
      else if flag (snd st) path then
        Some (Some (IncludeError path "" (stack ++ [path]) "circular dependency detected" None), st)
      else
        match visitAll (visitCycle fuel (stack ++ [path])) (deps path) (fst st, <[path := true]> (snd st)) with
        | Some (None, st) => Some (None, (<[path := true]> (fst st), <[path := false]> (snd st)))
        | other => other
        end
  end.

Definition searchFuel : nat := S (size edges).
End search.

Definition topologicalSort `{MapRange} (r : IncludeResolver) : option (option PmErr * IncludeResolver) :=
  match visitAll (visit (ir_Edges r) (searchFuel (ir_Edges r))) (fst <$> range (ir_Nodes r)) (mkTopoState ∅ ∅ []) with
  | Some (e, st) => Some (e, with_sorted (t_sorted st) r)
  | None => None
  end.

Definition DetectCycles `{MapRange} (r : IncludeResolver) : option (option PmErr) :=
  fst <$> visitAll (visitCycle (ir_Edges r) (searchFuel (ir_Edges r)) []) (fst <$> range (ir_Nodes r)) (∅, ∅).

(** ** Resolution *)

Section resolver.
Context `{MapRange}.
Variable config : PolicyLoaderConfig.
Variable disk : Disk.
Variable basePath : string.

Definition normalizePath (path : string) : result PmErr string :=
  match Abs (d_getwd disk) path with
  | Err e => Err (Plain e)
  | Ok absPath =>
      match d_eval disk absPath with
      | Ok realPath => Ok realPath
      | Err (NotExist _) => Ok absPath
      | Err (Permission t) | Err (OtherStat t) => Err (Plain t)
      end
  end.

Definition resolveIncludePath (currentPath includePath : string) : result PmErr string :=
  if IsAbs includePath then Ok (Clean includePath)
  else Ok (Clean (JoinPath [Dir currentPath; includePath])).

Definition validateIncludePath (includePath : string) : option PmErr :=
  match Abs (d_getwd disk) basePath with
  | Err e => Some (IncludeError includePath includePath [] "failed to resolve base path" (Some (Plain e)))
  | Ok absBasePath =>
      match Abs (d_getwd disk) includePath with
      | Err e => Some (IncludeError includePath includePath [] "failed to resolve include path" (Some (Plain e)))
      | Ok absIncludePath =>
          let outside := IncludeError includePath includePath []
            "include path outside of policy directory (directory traversal prevented)" None in
          match Rel absBasePath absIncludePath with
          | Err _ => Some outside
          | Ok relPath => if HasPrefix relPath ".." then Some outside else None
          end
      end
  end.

Definition buildCycle (startPath : string) (r : IncludeResolver) : list string :=
  ([startPath] ++
   (fst <$> List.filter (fun kv : string * bool => negb (String.eqb kv.1 startPath) && kv.2) (range (ir_visiting r))) ++
   [startPath])%list.

(** The loop over the includes of [current]; [acc] is [node.Includes]. *)
Fixpoint resolveIncludes_ (rec : string -> IncludeResolver -> option (option PmErr * IncludeResolver))
    (current : string) (includes acc : list string) (r : IncludeResolver) :
    option (result PmErr (list string) * IncludeResolver) :=
  match includes with
  | [] => Some (Ok acc, r)
  | includePath :: includes =>
      match resolveIncludePath current includePath with
      | Err e => Some (Err (IncludeError current includePath [] "failed to resolve include path" (Some e)), r)
      | Ok resolvedPath =>
          match validateIncludePath resolvedPath with
          | Some e => Some (Err e, r)
          | None =>
              match rec resolvedPath r with
              | None => None
              | Some (Some e, r) => Some (Err e, r)
              | Some (None, r) =>
                  resolveIncludes_ rec current includes (acc ++ [resolvedPath])%list
                    (includedBy resolvedPath current r)
              end
          end
      end
  end.

Fixpoint resolveFile (fuel : nat) (depth : Z) (path : string) (r : IncludeResolver) :
    option (option PmErr * IncludeResolver) :=
  match fuel with
  | O => None
  | S fuel =>
      match normalizePath path with
      | Err e => Some (Some (IncludeError path "" [] "failed to normalize path" (Some e)), r)
      | Ok normalizedPath =>
          if flag (ir_visited r) normalizedPath then Some (None, r)
          else if flag (ir_visiting r) normalizedPath then
            Some (Some (IncludeError normalizedPath "" (buildCycle normalizedPath r) "circular include detected" None), r)
          else if MaxIncludeDepth config <? depth then
            Some (Some (IncludeError normalizedPath "" []
              ("include depth " +:+ pretty depth +:+ " exceeds maximum " +:+ pretty (MaxIncludeDepth config)) None), r)
          else
            let r := with_visiting normalizedPath r in
            match LoadFromFile config disk normalizedPath with
            | Err e => Some (Some e, r)
            | Ok policy =>
                match resolveIncludes_ (resolveFile fuel (depth + 1)) normalizedPath (Includes policy) [] r with
                | None => None
                | Some (Err e, r) => Some (Some e, r)
                | Some (Ok includes, r) =>
                    Some (None, addNode normalizedPath (mkPolicyNode policy normalizedPath includes [] depth) r)
                end
            end
      end
  end.

Definition resolveFuel : nat := S (S (Z.to_nat (MaxIncludeDepth config))).

(** The resolver after the call and the error, if any. *)
Definition ResolveMultiple (paths : list string) : option (option PmErr * IncludeResolver) :=
  match visitAll (resolveFile resolveFuel 0) paths fresh_resolver with
  | Some (None, r) => topologicalSort r
  | other => other
  end.

Definition ResolveIncludes (rootPath : string) : option (option PmErr * IncludeResolver) :=
  match resolveFile resolveFuel 0 rootPath fresh_resolver with
  | Some (None, r) => topologicalSort r
  | other => other
  end.

Definition GetSortedPaths (r : IncludeResolver) : list string := ir_sortedPaths r.

End resolver.

(** [NewIncludeResolver]: the base path with its symbolic links resolved, when
    that succeeds. *)
Definition normalizedBasePath (disk : Disk) (basePath : string) : string :=
  match Abs (d_getwd disk) basePath with
  | Ok absPath => match d_eval disk absPath with Ok realPath => realPath | Err _ => basePath end
  | Err _ => basePath
  end.

(** ** Loops *)

(** A loop whose calls keep an invariant, move the state along a preorder and
    establish [D] for their argument, or report a [Bad] situation. *)
Lemma visitAll_post {St} (f : string -> St -> option (option PmErr * St)) (I : St -> Prop) (R : relation St)
    `{!PreOrder R} (D : string -> St -> Prop) (Bad : Prop) l :
  (forall x st st', R st st' -> D x st -> D x st') ->
  (forall x st e st', x ∈ l -> I st -> f x st = Some (e, st') ->
     match e with None => I st' /\ R st st' /\ D x st' | Some _ => Bad end) ->
  forall st e st', I st -> visitAll f l st = Some (e, st') ->
  match e with None => I st' /\ R st st' /\ (forall x, x ∈ l -> D x st') | Some _ => Bad end.
Proof.
  intros HD. induction l as [|x l IH]; intros Hf st e st' HI Hv; cbn in Hv.
  - injection Hv as <- <-. split_and!; [done..|]. by intros x Hx%not_elem_of_nil.
  - destruct (f x st) as [[[er|] st1]|] eqn:Hx; [| |done].
    + injection Hv as <- <-. apply (Hf x st (Some er) st1); [by left|done..].
    + destruct (Hf x st None st1 ltac:(by left) HI Hx) as (HI1 & HR1 & HD1).
      specialize (IH ltac:(intros y s er s' Hy; apply Hf; by right) st1 e st' HI1 Hv).
      destruct e as [er|]; [done|]. destruct IH as (HI' & HR' & HD'). split_and!; [done|by etrans|].
      intros y [->|Hy]%elem_of_cons; [by eapply HD|by apply HD'].
Qed.

(** A loop that has enough fuel at every step. *)
Lemma visitAll_total {St} (f : string -> St -> option (option PmErr * St)) (I : St -> Prop) l :
  (forall x st, x ∈ l -> I st -> exists e st', f x st = Some (e, st') /\ (e = None -> I st')) ->
  forall st, I st -> exists e st', visitAll f l st = Some (e, st') /\ (e = None -> I st').
Proof.
  induction l as [|x l IH]; intros Hf st HI; cbn; [by exists None, st|].
  destruct (Hf x st ltac:(by left) HI) as (e & st1 & -> & HI1). destruct e as [er|]; [by exists (Some er), st1|].
  apply IH; [|by apply HI1]. intros y s Hy. apply Hf. by right.
Qed.

Lemma flag_true m k : flag m k = true <-> m !! k = Some true.
Proof. unfold flag. destruct (m !! k) as [[]|]; cbn; naive_solver. Qed.

Lemma flag_insert m k b j : flag (<[k := b]> m) j = if String.eqb k j then b else flag m j.
Proof.
  unfold flag. destruct (String.eqb_spec k j) as [->|Hne]; [by rewrite lookup_insert_eq|by rewrite lookup_insert_ne].
Qed.

(** ** Topological order *)

Section topo.
Variable edges : gmap string (list string).

Definition edge (a b : string) : Prop := b ∈ deps edges a.

(** Every dependency of a listed path is listed before it. *)
Definition ordered (l : list string) : Prop :=
  forall l1 k l2, l = (l1 ++ k :: l2)%list -> forall d, edge k d -> d ∈ l1.

Definition topo_inv (st : TopoState) : Prop :=
  (forall k, flag (t_visited st) k = true <-> k ∈ t_sorted st) /\ NoDup (t_sorted st) /\ ordered (t_sorted st) /\
  (forall k, flag (t_visiting st) k = true -> flag (t_visited st) k = false).

(** Calls extend the list and leave the marks of unfinished paths alone. *)
Definition topo_ext (st st' : TopoState) : Prop :=
  t_sorted st `prefix_of` t_sorted st' /\ forall k, flag (t_visiting st') k = flag (t_visiting st) k.

#[global] Instance topo_ext_preorder : PreOrder topo_ext.
Proof.
  split; [by intros st|]. intros s1 s2 s3 [P1 V1] [P2 V2]. split; [by etrans|]. intros k. by rewrite V2, V1.
Qed.

Definition cyclic : Prop := exists k, tc edge k k.

Lemma ordered_snoc l k : ordered l -> (forall d, edge k d -> d ∈ l) -> ordered (l ++ [k])%list.
Proof.
  intros Hl Hk l1 x l2 Heq d Hd. destruct (decide (l2 = [])) as [->|Hne].
  - apply app_inj_tail in Heq as [-> ->]. by apply Hk.
  - destruct (exists_last Hne) as (l3 & y & ->). rewrite app_comm_cons, app_assoc in Heq.
    apply app_inj_tail in Heq as [Heq ->]. by eapply Hl.
Qed.

(** A finished path joins the list. *)
Lemma topo_finish path st st2 :
  topo_inv st -> flag (t_visited st) path = false -> flag (t_visiting st) path = false -> topo_inv st2 ->
  topo_ext (mkTopoState (t_visited st) (<[path := true]> (t_visiting st)) (t_sorted st)) st2 ->
  (forall d, d ∈ deps edges path -> d ∈ t_sorted st2) ->
  let st' := mkTopoState (<[path := true]> (t_visited st2)) (<[path := false]> (t_visiting st2)) (t_sorted st2 ++ [path]) in
  topo_inv st' /\ topo_ext st st' /\ path ∈ t_sorted st'.
Proof.
  intros HI Hv Hg (HV2 & HN2 & HO2 & HG2) [HP HG] HD st'. cbn in HP, HG.
  assert (Hnew : path ∉ t_sorted st2).
  { intros Hin. apply HV2 in Hin. rewrite (HG2 path) in Hin; [done|]. by rewrite HG, flag_insert, String.eqb_refl. }
  split_and!; [split_and!| |].
  - intros k. cbn. rewrite flag_insert, elem_of_app, list_elem_of_singleton, <- HV2.
    destruct (String.eqb_spec path k) as [->|Hne]; naive_solver.
  - cbn. apply NoDup_app. split_and!; [done| |apply NoDup_singleton].
    intros x Hx ->%list_elem_of_singleton. done.
  - cbn. by apply ordered_snoc.
  - intros k. cbn. rewrite !flag_insert. destruct (String.eqb path k); [done|]. apply HG2.
  - split; cbn; [etrans; [exact HP|by apply prefix_app_r]|]. intros k. rewrite flag_insert.
    destruct (String.eqb_spec path k) as [<-|Hne]; [by rewrite Hg|]. rewrite HG, flag_insert.
    by apply String.eqb_neq in Hne as ->.
  - cbn. apply elem_of_app. right. by left.
Qed.

Lemma prefix_elem d st st' : topo_ext st st' -> d ∈ t_sorted st -> d ∈ t_sorted st'.
Proof. intros [[l ->] _] Hd. apply elem_of_app. by left. Qed.

Lemma visit_spec fuel : forall path st e st',
  topo_inv st -> (forall k, flag (t_visiting st) k = true -> tc edge k path) ->
  visit edges fuel path st = Some (e, st') ->
  match e with None => topo_inv st' /\ topo_ext st st' /\ path ∈ t_sorted st' | Some _ => cyclic end.
Proof.
  induction fuel as [|fuel IH]; intros path st e st' HI Hstack Hv; [done|]. cbn in Hv.
  destruct (flag (t_visited st) path) eqn:Hvis.
  { injection Hv as <- <-. split_and!; [done..|]. by apply HI. }
  destruct (flag (t_visiting st) path) eqn:Hg.
  { injection Hv as <- <-. exists path. by apply Hstack. }
  set (st1 := mkTopoState (t_visited st) (<[path := true]> (t_visiting st)) (t_sorted st)) in Hv.
  assert (HI1 : topo_inv st1).
  { destruct HI as (HV & HN & HO & HG). split_and!; [done..|]. intros k. cbn. rewrite flag_insert.
    destruct (String.eqb_spec path k) as [<-|_]; [done|]. apply HG. }
  destruct (visitAll (visit edges fuel) (deps edges path) st1) as [[e2 st2]|] eqn:Hall; [|done].
  assert (Hstep : match e2 with
    None => (topo_inv st2 /\ topo_ext st1 st2) /\ topo_ext st1 st2 /\ (forall x, x ∈ deps edges path -> x ∈ t_sorted st2)
    | Some _ => cyclic end).
  { apply (visitAll_post (visit edges fuel) (fun s => topo_inv s /\ topo_ext st1 s) topo_ext
      (fun d s => d ∈ t_sorted s) cyclic (deps edges path) prefix_elem) with (st := st1); [|by split|done].
    intros x s er s' Hx [HIs Hs] Hxs.
    assert (Hst : forall k, flag (t_visiting s) k = true -> tc edge k x).
    { intros k Hk. rewrite (proj2 Hs k) in Hk. cbn in Hk. rewrite flag_insert in Hk.
      destruct (String.eqb_spec path k) as [Hpk|Hpk]; [subst k; by apply tc_once|]. eapply tc_r; [by apply Hstack|done]. }
    specialize (IH x s er s' HIs Hst Hxs). destruct er as [er|]; [done|].
    destruct IH as (HI' & Hext & Hin). split_and!; [done|by etrans|done..]. }
  destruct e2 as [er|]; injection Hv as <- <-; [done|].
  destruct Hstep as ([HI2 _] & Hext & HD). by eapply topo_finish.
Qed.

(** The files of the graph that the search has not reached yet. *)
Definition untouched (st : TopoState) : gset string :=
  filter (fun k => flag (t_visited st) k || flag (t_visiting st) k = false) (dom edges).

Lemma visit_total fuel : forall path st, (size (untouched st) < fuel)%nat ->
  exists e st', visit edges fuel path st = Some (e, st') /\ (e = None -> untouched st' ⊆ untouched st).
Proof.
  induction fuel as [|fuel IH]; intros path st Hf; [lia|]. cbn.
  destruct (flag (t_visited st) path) eqn:Hvis; [by exists None, st|].
  destruct (flag (t_visiting st) path) eqn:Hg; [by eexists _, st|].
  set (st1 := mkTopoState (t_visited st) (<[path := true]> (t_visiting st)) (t_sorted st)).
  assert (Hsub : untouched st1 ⊆ untouched st).
  { intros k. unfold untouched. rewrite !elem_of_filter. cbn. rewrite flag_insert.
    destruct (String.eqb path k); [|done]. rewrite orb_true_r. by intros [? _]. }
  assert (Hall : exists e st', visitAll (visit edges fuel) (deps edges path) st1 = Some (e, st') /\
    (e = None -> untouched st' ⊆ untouched st1)).
  { apply (visitAll_total _ (fun s => untouched s ⊆ untouched st1)); [|done].
    intros x s Hx Hs. destruct (IH x s) as (e & s' & Hv & He).
    - apply (Nat.le_lt_trans _ (size (untouched st1))); [by apply subseteq_size|].
      enough (size (untouched st1) < size (untouched st))%nat by lia. apply subset_size. split; [done|].
      intros Hback. specialize (Hback path). unfold untouched in Hback. rewrite !elem_of_filter in Hback. cbn in Hback.
      rewrite flag_insert, String.eqb_refl, orb_true_r, Hvis, Hg in Hback. destruct Hback as [? _]; [|done].
      split; [done|]. apply elem_of_dom. unfold deps in Hx. destruct (edges !! path); [done|].
      by apply not_elem_of_nil in Hx.
    - exists e, s'. split; [done|]. intros H. etrans; [by apply He|done]. }
  destruct Hall as ([er|] & st2 & -> & H2); [by exists (Some er), st2|].
  eexists None, _. split; [done|]. intros _. etrans; [|etrans; [by apply H2|exact Hsub]].
  intros k. unfold untouched. rewrite !elem_of_filter. cbn. rewrite !flag_insert.
  destruct (String.eqb path k); [by intros [? _]|done].
Qed.

(** A topological order excludes cycles among its paths. *)
Lemma ordered_acyclic l : ordered l -> NoDup l -> forall a b, tc edge a b -> a ∈ l -> a <> b /\ b ∈ l.
Proof.
  intros Ho Hnd.
  assert (Hpos : forall a b, tc edge a b -> forall l1 l2, l = (l1 ++ a :: l2)%list -> b ∈ l1).
  { intros a b Hab. induction Hab as [a b Hab|a c b Hac _ IH]; intros l1 l2 Hl; [by eapply Ho|].
    pose proof (Ho _ _ _ Hl c Hac) as Hc. apply list_elem_of_split in Hc as (k1 & k2 & ->).
    rewrite <- app_assoc in Hl. apply elem_of_app. left. by eapply (IH k1). }
  intros a b Hab Ha. apply list_elem_of_split in Ha as (l1 & l2 & Hl).
  pose proof (Hpos a b Hab l1 l2 Hl) as Hb. split.
  - intros <-. rewrite Hl in Hnd. apply NoDup_app in Hnd as (_ & Hd & _). apply (Hd a Hb). by left.
  - rewrite Hl. apply elem_of_app. by left.
Qed.
End topo.

(** The two searches run in step. *)
Definition in_step (o : option (option PmErr * TopoState)) (o' : option (option PmErr * (gmap string bool * gmap string bool))) :
    Prop :=
  match o, o' with
  | None, None => True
  | Some (Some _, _), Some (Some _, _) => True
  | Some (None, st), Some (None, st') => st' = (t_visited st, t_visiting st)
  | _, _ => False
  end.

Lemma visitAll_in_step f f' l :
  (forall x st, in_step (f x st) (f' x (t_visited st, t_visiting st))) ->
  forall st, in_step (visitAll f l st) (visitAll f' l (t_visited st, t_visiting st)).
Proof.
  intros Hf. induction l as [|x l IH]; intros st; [done|]. cbn. specialize (Hf x st).
  destruct (f x st) as [[[e|] st1]|], (f' x _) as [[[e'|] st1']|]; try done. cbn in Hf. subst st1'. apply IH.
Qed.

Lemma visitCycle_in_step edges fuel : forall stack path st,
  in_step (visit edges fuel path st) (visitCycle edges fuel stack path (t_visited st, t_visiting st)).
Proof.
  induction fuel as [|fuel IH]; intros stack path st; [done|]. cbn.
  destruct (flag (t_visited st) path); [done|]. destruct (flag (t_visiting st) path); [done|].
  pose proof (visitAll_in_step _ _ (deps edges path) (IH (stack ++ [path])%list)
    (mkTopoState (t_visited st) (<[path := true]> (t_visiting st)) (t_sorted st))) as Hall. cbn in Hall.
  destruct (visitAll (visit _ _) _ _) as [[[e|] st1]|], (visitAll (visitCycle _ _ _) _ _) as [[[e'|] st1']|]; try done.
  cbn in Hall. by subst st1'.
Qed.

Lemma topo_init edges : topo_inv edges (mkTopoState ∅ ∅ []).
Proof.
  split_and!; [|apply NoDup_nil_2| |done].
  - intros k. split; [done|]. by intros Hk%not_elem_of_nil.
  - intros l1 k l2 Heq. by destruct l1.
Qed.

Lemma searched `{MapRange} (r : IncludeResolver) :
  exists e st, visitAll (visit (ir_Edges r) (searchFuel (ir_Edges r))) (fst <$> range (ir_Nodes r)) (mkTopoState ∅ ∅ []) =
    Some (e, st) /\
  match e with
  | None => topo_inv (ir_Edges r) st /\ forall k, is_Some (ir_Nodes r !! k) -> k ∈ t_sorted st
  | Some _ => cyclic (ir_Edges r)
  end.
Proof.
  set (edges := ir_Edges r).
  destruct (visitAll_total (visit edges (searchFuel edges)) (fun st => untouched edges st ⊆ dom edges)
    (fst <$> range (ir_Nodes r))) with (st := mkTopoState ∅ ∅ []) as (e & st & Hv & _).
  - intros x st _ Hst. destruct (visit_total edges (searchFuel edges) x st) as (e & st' & Hv & He).
    { unfold searchFuel. rewrite <- size_dom. apply Nat.lt_succ_r, subseteq_size, Hst. }
    exists e, st'. split; [done|]. intros HN. etrans; [by apply He|done].
  - intros k. unfold untouched. rewrite elem_of_filter. by intros [_ ?].
  - exists e, st. split; [done|].
    pose proof (visitAll_post (visit edges (searchFuel edges))
      (fun s => topo_inv edges s /\ forall k, flag (t_visiting s) k = false) (topo_ext)
      (fun d s => d ∈ t_sorted s) (cyclic edges) (fst <$> range (ir_Nodes r)) prefix_elem) as Hpost.
    specialize (Hpost ltac:(intros x s er s' _ [HI Hg] Hx;
      pose proof (visit_spec edges _ x s er s' HI ltac:(intros k Hk; by rewrite Hg in Hk) Hx) as Hs;
      destruct er; [done|]; destruct Hs as (HI' & Hext & Hin); split_and!; [done| |done..];
      intros k; by rewrite (proj2 Hext k), Hg) (mkTopoState ∅ ∅ []) e st
      (conj (topo_init edges) (fun k => eq_refl)) Hv).
    destruct e as [er|]; [done|]. destruct Hpost as ([HI _] & _ & HD). split; [done|].
    intros k Hk. by apply HD, elem_of_range_keys.
Qed.

Lemma cyclic_key edges a b : tc (edge edges) a b -> is_Some (edges !! a).
Proof.
  assert (forall a b, edge edges a b -> is_Some (edges !! a)) as He.
  { intros x y Hxy. unfold edge, deps in Hxy. destruct (edges !! x); [done|]. by apply not_elem_of_nil in Hxy. }
  intros Hk. destruct Hk; by eapply He.
Qed.

Lemma topologicalSort_spec `{MapRange} (r : IncludeResolver) :
  dom (ir_Edges r) ⊆ dom (ir_Nodes r) ->
  exists e r', topologicalSort r = Some (e, r') /\ ir_Nodes r' = ir_Nodes r /\ ir_Edges r' = ir_Edges r /\
  match e with
  | None =>
      ~ cyclic (ir_Edges r) /\ NoDup (ir_sortedPaths r') /\ ordered (ir_Edges r) (ir_sortedPaths r') /\
      (forall k, is_Some (ir_Nodes r !! k) -> k ∈ ir_sortedPaths r')
  | Some _ => cyclic (ir_Edges r)
  end.
Proof.
  intros Hdom. unfold topologicalSort. destruct (searched r) as (e & st & -> & Hs).
  exists e, (with_sorted (t_sorted st) r). split_and!; [done..|]. destruct e as [er|]; [done|].
  destruct Hs as ((_ & Hnd & Ho & _) & Hall). split_and!; [|done..].
  intros [k Hk]. destruct (ordered_acyclic _ _ Ho Hnd k k Hk) as [Hne _]; [|done].
  apply Hall. apply cyclic_key, elem_of_dom, Hdom in Hk. by apply elem_of_dom.
Qed.

(** Ordering the graph succeeds exactly when it has no cycle.  The search
    always ends; without a cycle it lists every file once and every file after
    the files it includes; with a cycle it reports an error; and [DetectCycles]
    gives the same verdict. *)
Theorem topological_sort_correct `{MapRange} (r : IncludeResolver) :
  dom (ir_Edges r) ⊆ dom (ir_Nodes r) ->
  exists e r', topologicalSort r = Some (e, r') /\ (e = None <-> ~ cyclic (ir_Edges r)) /\
  (e = None -> NoDup (ir_sortedPaths r') /\ ordered (ir_Edges r) (ir_sortedPaths r') /\
     forall k, is_Some (ir_Nodes r !! k) -> k ∈ ir_sortedPaths r') /\
  exists e', DetectCycles r = Some e' /\ (e' = None <-> e = None).
Proof.
  intros Hdom. destruct (topologicalSort_spec r Hdom) as (e & r' & Ht & _ & _ & Hs). exists e, r'.
  split_and!; [done|by destruct e; naive_solver|by intros ->; apply Hs|].
  pose proof (visitAll_in_step _ _ (fst <$> range (ir_Nodes r))
    (visitCycle_in_step (ir_Edges r) (searchFuel (ir_Edges r)) []) (mkTopoState ∅ ∅ [])) as Hstep.
  cbn [t_visited t_visiting] in Hstep. unfold topologicalSort in Ht. unfold DetectCycles.
  destruct (visitAll (visit _ _) _ _) as [[er st]|]; [|done]. injection Ht as -> _.
  destruct (visitAll (visitCycle _ _ _) _ _) as [[er' st']|]; [|by destruct e; cbn in Hstep].
  exists er'. split; [done|]. by destruct e, er'; cbn in Hstep.
Qed.

(** ** Resolution *)

Section resolution.
Context `{MapRange}.
Variable config : PolicyLoaderConfig.
Variable disk : Disk.
Variable basePath : string.

Lemma resolveIncludes_total rec current l : (forall x r, exists e r', rec x r = Some (e, r')) ->
  forall acc r, exists e r', resolveIncludes_ disk basePath rec current l acc r = Some (e, r').
Proof.
  intros Hrec. induction l as [|x l IH]; intros acc r; cbn; [by eexists _, _|].
  destruct (resolveIncludePath current x) as [y|]; [|by eexists _, _].
  destruct (validateIncludePath disk basePath y); [by eexists _, _|].
  destruct (Hrec y r) as ([e|] & r' & ->); [by eexists _, _|apply IH].
Qed.

Lemma resolveFile_total fuel : forall depth path r, (Z.to_nat (MaxIncludeDepth config - depth + 1) < fuel)%nat ->
  exists e r', resolveFile config disk basePath fuel depth path r = Some (e, r').
Proof.
  induction fuel as [|fuel IH]; intros depth path r Hf; [lia|]. cbn.
  destruct (normalizePath disk path) as [q|]; [|by eexists _, _].
  destruct (flag (ir_visited r) q); [by eexists _, _|]. destruct (flag (ir_visiting r) q); [by eexists _, _|].
  destruct (Z.ltb_spec (MaxIncludeDepth config) depth) as [Hd|Hd]; [by eexists _, _|].
  destruct (LoadFromFile config disk q) as [p|]; [|by eexists _, _].
  destruct (resolveIncludes_total (resolveFile config disk basePath fuel (depth + 1)) q (Includes p)) with
    (acc := @nil string) (r := with_visiting q r) as ([l|e] & r' & ->); [|by eexists _, _..].
  intros x s. apply IH. lia.
Qed.

(** Include resolution always ends, whatever the files include: the depth
    limit bounds the recursion and the number of files bounds the sort, so every
    call returns a graph or an error. *)
Theorem resolver_terminates paths :
  exists e r', ResolveMultiple config disk basePath paths = Some (e, r').
Proof.
  unfold ResolveMultiple.
  destruct (visitAll_total (resolveFile config disk basePath (resolveFuel config) 0) (fun _ => True) paths) with
    (st := fresh_resolver) as ([e|] & r & -> & _); [| |by eexists _, _|].
  - intros x r _ _. destruct (resolveFile_total (resolveFuel config) 0 x r) as (e & r' & ->);
      [unfold resolveFuel; lia|]. by exists e, r'.
  - done.
  - unfold topologicalSort. destruct (searched r) as (e & st & -> & _). by eexists _, _.
Qed.

Definition visited (r : IncludeResolver) (k : string) : Prop := flag (ir_visited r) k = true.

(** The file behind a path is in the graph. *)
Definition loaded (r : IncludeResolver) (path : string) : Prop :=
  exists q, normalizePath disk path = Ok q /\ visited r q.

Definition node_ok (r : IncludeResolver) (k : string) (n : PolicyNode) : Prop :=
  LoadFromFile config disk k = Ok (pn_Policy n) /\ pn_FilePath n = k /\ pn_Depth n <= MaxIncludeDepth config /\
  ir_Edges r !! k = Some (pn_Includes n) /\
  (Ok <$> pn_Includes n) = (resolveIncludePath k <$> Includes (pn_Policy n)) /\
  forall d, d ∈ pn_Includes n -> validateIncludePath disk basePath d = None /\ loaded r d.

Definition resolver_inv (r : IncludeResolver) : Prop :=
  (forall k, visited r k <-> is_Some (ir_Nodes r !! k)) /\
  (forall k, is_Some (ir_Edges r !! k) -> is_Some (ir_Nodes r !! k)) /\
  (forall k n, ir_Nodes r !! k = Some n -> node_ok r k n /\ normalizePath disk k = Ok k) /\
  (forall k, flag (ir_visiting r) k = true -> ~ visited r k) /\
  ~ cyclic (ir_Edges r).

Definition resolver_ext (r r' : IncludeResolver) : Prop :=
  (forall k, visited r k -> visited r' k) /\ (forall k, flag (ir_visiting r') k = flag (ir_visiting r) k).

#[global] Instance resolver_ext_preorder : PreOrder resolver_ext.
Proof.
  split; [by intros r|]. intros r1 r2 r3 [V1 G1] [V2 G2]. split; [naive_solver|]. intros k. by rewrite G2, G1.
Qed.

Lemma loaded_ext r r' path : resolver_ext r r' -> loaded r path -> loaded r' path.
Proof. intros [HV _] (q & Hq & Hv). exists q. split; [done|]. by apply HV. Qed.

Lemma includedBy_inv target by_ r : resolver_inv r -> resolver_inv (includedBy target by_ r).
Proof.
  intros (HV & HE & HN & HG & HA). split_and!; [..|done|done].
  - intros k. change (visited r k <-> is_Some (alter (addIncludedBy by_) target (ir_Nodes r) !! k)). rewrite HV.
    destruct (decide (target = k)) as [->|Hne].
    + by rewrite lookup_alter_eq, fmap_is_Some.
    + by rewrite lookup_alter_ne.
  - intros k Hk. cbn. apply HE in Hk. destruct (decide (target = k)) as [->|Hne].
    + by rewrite lookup_alter_eq, fmap_is_Some.
    + by rewrite lookup_alter_ne.
  - intros k n Hk. cbn in Hk. destruct (decide (target = k)) as [->|Hne].
    + rewrite lookup_alter_eq in Hk. apply fmap_Some in Hk as (n0 & Hn0 & ->). apply HN in Hn0. exact Hn0.
    + rewrite lookup_alter_ne in Hk by done. apply HN in Hk. exact Hk.
Qed.

Lemma with_visiting_inv k r : ~ visited r k -> resolver_inv r -> resolver_inv (with_visiting k r).
Proof.
  intros Hk (HV & HE & HN & HG & HA). split_and!; [done..| |done]. intros j. cbn. rewrite flag_insert.
  destruct (String.eqb_spec k j) as [<-|Hne]; [done|]. apply HG.
Qed.

(** A new node has no incoming edges, so the graph stays acyclic. *)
Lemma acyclic_insert edges k l :
  ~ cyclic edges -> (forall a, ~ edge edges a k) -> k ∉ l -> ~ cyclic (<[k := l]> edges).
Proof.
  intros HA Hin Hk.
  assert (Hedge : forall a b, edge (<[k := l]> edges) a b -> b <> k /\ (a <> k -> edge edges a b)).
  { intros a b. unfold edge, deps. destruct (decide (k = a)) as [->|Hne].
    - rewrite lookup_insert_eq. cbn. intros Hb. split; [by intros ->|done].
    - rewrite lookup_insert_ne by done. intros Hb. split; [|done]. intros ->. by apply (Hin a). }
  assert (Htc : forall a b, tc (edge (<[k := l]> edges)) a b -> b <> k /\ (a <> k -> tc (edge edges) a b)).
  { intros a b Hab. induction Hab as [a b Hab|a c b Hac _ [IH1 IH2]].
    - apply Hedge in Hab as [? ?]. split; [done|]. intros Ha. apply tc_once. auto.
    - apply Hedge in Hac as [Hc Hac]. split; [done|]. intros Ha. eapply tc_l; auto. }
  intros [x Hx]. apply Htc in Hx as [Hne Hx]. apply HA. exists x. auto.
Qed.

Lemma addNode_inv k n r :
  resolver_inv r -> flag (ir_visiting r) k = true -> normalizePath disk k = Ok k ->
  LoadFromFile config disk k = Ok (pn_Policy n) -> pn_FilePath n = k -> pn_Depth n <= MaxIncludeDepth config ->
  (Ok <$> pn_Includes n) = (resolveIncludePath k <$> Includes (pn_Policy n)) ->
  (forall d, d ∈ pn_Includes n -> validateIncludePath disk basePath d = None /\ loaded r d) ->
  resolver_inv (addNode k n r).
Proof.
  intros (HV & HE & HN & HG & HA) Hvis Hnorm Hload Hfile Hdepth Hinc Hd.
  assert (Hk : ~ visited r k) by by apply HG.
  assert (HE' : forall x, loaded r x -> loaded (addNode k n r) x).
  { intros x (q & Hq & Hv). exists q. split; [done|]. unfold visited. cbn. rewrite flag_insert.
    by destruct (String.eqb k q). }
  assert (Hnk : forall x, loaded r x -> x <> k).
  { intros x (q & Hq & Hv) ->. rewrite Hnorm in Hq. by injection Hq as <-. }
  assert (Hin : forall a d, edge (ir_Edges r) a d -> loaded r d).
  { intros a d Had. unfold edge, deps in Had. destruct (ir_Edges r !! a) as [l|] eqn:Ha;
      [|by apply not_elem_of_nil in Had]. destruct (HE a) as [m Hm]; [by rewrite Ha|].
    destruct (HN a m Hm) as [(_ & _ & _ & Hl & _ & Hok) _]. rewrite Ha in Hl. injection Hl as ->. by apply Hok. }
  split_and!.
  - intros j. unfold visited. cbn. rewrite flag_insert. destruct (String.eqb_spec k j) as [->|Hne].
    + by rewrite lookup_insert_eq.
    + rewrite lookup_insert_ne by done. apply HV.
  - intros j. cbn. destruct (decide (k = j)) as [->|Hne]; [by rewrite !lookup_insert_eq|].
    rewrite !lookup_insert_ne by done. apply HE.
  - intros j m. cbn. destruct (decide (k = j)) as [<-|Hne].
    + rewrite lookup_insert_eq. intros [= <-]. split; [|done]. split_and!; [done..| |done|].
      * cbn. by rewrite lookup_insert_eq.
      * intros d Hdn. destruct (Hd d Hdn). auto.
    + rewrite lookup_insert_ne by done. intros Hj. destruct (HN j m Hj) as [(H1 & H2 & H3 & H4 & H5 & H6) H7].
      split; [|done]. split_and!; [done..| |done|].
      * cbn. by rewrite lookup_insert_ne.
      * intros d Hdm. destruct (H6 d Hdm). auto.
  - intros j. unfold visited. cbn. rewrite !flag_insert. destruct (String.eqb k j); [done|]. apply HG.
  - cbn. apply acyclic_insert; [done| |].
    + intros a Ha. by apply (Hnk k); [eapply Hin|].
    + intros Hkn. by apply (Hnk k); [apply Hd|].
Qed.

(** Resolving a path twice changes nothing: what the operating system promises
    of absolute and resolved paths. *)
Definition disk_paths_ok : Prop :=
  (forall wd, d_getwd disk = Ok wd -> IsAbs wd = true) /\
  (forall p q, IsAbs p = true -> d_eval disk p = Ok q -> IsAbs q = true /\ Clean q = q /\ d_eval disk q = Ok q).

Hypothesis Hdisk : disk_paths_ok.

Lemma Abs_ok p q : Abs (d_getwd disk) p = Ok q -> IsAbs q = true /\ Clean q = q.
Proof using Hdisk.
  intros Hq. split.
  - apply (Abs_rooted (d_getwd disk) p); [|done]. destruct (d_getwd disk) eqn:E; [|done]. by apply Hdisk.
  - unfold Abs in Hq. destruct (IsAbs p) eqn:Hp; [injection Hq as <-; by apply Clean_idemp|].
    destruct (d_getwd disk) as [wd|] eqn:E; [|done]. injection Hq as <-.
    assert (Hwd : IsAbs wd = true) by by apply Hdisk. destruct wd as [|c wd]; [done|].
    cbn [JoinPath String.eqb]. by apply Clean_idemp.
Qed.

Lemma normalizePath_idemp p q : normalizePath disk p = Ok q -> normalizePath disk q = Ok q.
Proof using Hdisk.
  unfold normalizePath. destruct (Abs (d_getwd disk) p) as [a|] eqn:Ha; [|done].
  apply Abs_ok in Ha as [Habs Hclean].
  destruct (d_eval disk a) as [real|[t|t|t]] eqn:He; try done; intros [= <-].
  - destruct (proj2 Hdisk a real Habs He) as (Hr & Hc & Hrr). unfold Abs. by rewrite Hr, Hc, Hrr.
  - unfold Abs. by rewrite Habs, Hclean, He.
Qed.

(** What a successful call establishes. *)
Definition resolved (path : string) (r r' : IncludeResolver) : Prop :=
  resolver_inv r' /\ resolver_ext r r' /\ loaded r' path.

Lemma resolveIncludes_spec rec current incs :
  (forall x r r', resolver_inv r -> rec x r = Some (None, r') -> resolved x r r') ->
  forall acc r l r', resolver_inv r ->
  resolveIncludes_ disk basePath rec current incs acc r = Some (Ok l, r') ->
  exists l', l = (acc ++ l')%list /\ (Ok <$> l') = (resolveIncludePath current <$> incs) /\
    resolver_inv r' /\ resolver_ext r r' /\
    forall d, d ∈ l' -> validateIncludePath disk basePath d = None /\ loaded r' d.
Proof using.
  intros Hrec. induction incs as [|x incs IH]; intros acc r l r' HI Hr; cbn in Hr.
  - injection Hr as <- <-. exists []. rewrite app_nil_r. split_and!; [done..|]. by intros d Hd%not_elem_of_nil.
  - destruct (resolveIncludePath current x) as [y|] eqn:Hy; [|done].
    destruct (validateIncludePath disk basePath y) eqn:Hval; [done|].
    destruct (rec y r) as [[[e|] r1]|] eqn:Hy1; [done| |done].
    destruct (Hrec y r r1 HI Hy1) as (HI1 & HE1 & HL1).
    destruct (IH _ _ _ _ (includedBy_inv y current r1 HI1) Hr) as (l' & -> & Hmap & HI' & HE' & Hl').
    assert (Hext : resolver_ext r1 r') by exact HE'.
    exists (y :: l'). rewrite <- app_assoc. split_and!; [done| |done|by etrans|].
    + rewrite !fmap_cons, Hy. by f_equal.
    + intros d [->|Hd]%elem_of_cons; [|by apply Hl']. split; [done|]. by eapply loaded_ext.
Qed.

Lemma resolveFile_spec fuel : forall depth path r r',
  resolver_inv r -> resolveFile config disk basePath fuel depth path r = Some (None, r') -> resolved path r r'.
Proof using Hdisk.
  induction fuel as [|fuel IH]; intros depth path r r' HI Hr; [done|]. cbn in Hr.
  destruct (normalizePath disk path) as [q|] eqn:Hq; [|done].
  destruct (flag (ir_visited r) q) eqn:Hvis.
  { injection Hr as <-. split_and!; [done..|]. by exists q. }
  destruct (flag (ir_visiting r) q) eqn:Hg; [done|].
  destruct (Z.ltb_spec (MaxIncludeDepth config) depth) as [|Hdepth]; [done|].
  destruct (LoadFromFile config disk q) as [p|] eqn:Hload; [|done].
  destruct (resolveIncludes_ _ _ _ _ _ _ _) as [[[l|] r2]|] eqn:Hinc; [|done..]. injection Hr as <-.
  assert (HI1 : resolver_inv (with_visiting q r)).
  { apply with_visiting_inv; [|done]. unfold visited. by rewrite Hvis. }
  destruct (resolveIncludes_spec _ _ _ (fun x s s' => IH (depth + 1) x s s') _ _ _ _ HI1 Hinc)
    as (l' & Hl & Hmap & HI2 & [HV2 HG2] & Hd). cbn in Hl. subst l'.
  assert (Hq2 : flag (ir_visiting r2) q = true) by (rewrite HG2; cbn; by rewrite flag_insert, String.eqb_refl).
  split_and!.
  - apply addNode_inv; try done. by eapply normalizePath_idemp.
  - split.
    + intros k Hk. unfold visited. cbn. rewrite flag_insert. destruct (String.eqb q k); [done|]. by apply HV2.
    + intros k. cbn. rewrite flag_insert. destruct (String.eqb_spec q k) as [<-|Hne]; [by rewrite Hg|].
      rewrite HG2. cbn. rewrite flag_insert. by apply String.eqb_neq in Hne as ->.
  - exists q. split; [done|]. unfold visited. cbn. by rewrite flag_insert, String.eqb_refl.
Qed.

Lemma fresh_inv : resolver_inv fresh_resolver.
Proof using.
  split_and!; [by intros k; split; [|intros [? ?]]|by intros k [? ?]|done|by intros k|].
  intros [k Hk]. apply cyclic_key in Hk as [? ?]. done.
Qed.

Lemma roots_resolved paths r :
  visitAll (resolveFile config disk basePath (resolveFuel config) 0) paths fresh_resolver = Some (None, r) ->
  resolver_inv r /\ forall p, p ∈ paths -> loaded r p.
Proof using Hdisk.
  intros Hv.
  pose proof (visitAll_post (resolveFile config disk basePath (resolveFuel config) 0) resolver_inv resolver_ext
    (fun p s => loaded s p) True paths (fun x s s' => loaded_ext s s' x)) as Hpost.
  specialize (Hpost ltac:(intros x s [er|] s' _ HI Hx; [done|]; by apply (resolveFile_spec _ _ _ _ _ HI Hx))
    fresh_resolver None r fresh_inv Hv).
  destruct Hpost as (HI & _ & HL). done.
Qed.

(** C14: resolved includes come in loading order.  If every file can be read and
    resolved, the sort cannot fail; the graph then holds every requested file and
    everything it includes, at most the maximum depth away; and the order lists
    each of them once, with every included path before the file that includes it. *)
Theorem includes_resolved_in_order paths r :
  visitAll (resolveFile config disk basePath (resolveFuel config) 0) paths fresh_resolver = Some (None, r) ->
  exists r', ResolveMultiple config disk basePath paths = Some (None, r') /\
    (forall p, p ∈ paths -> exists q, normalizePath disk p = Ok q /\ is_Some (ir_Nodes r' !! q)) /\
    (forall k n, ir_Nodes r' !! k = Some n ->
       LoadFromFile config disk k = Ok (pn_Policy n) /\ pn_Depth n <= MaxIncludeDepth config /\
       (forall i, i ∈ Includes (pn_Policy n) -> exists d q, resolveIncludePath k i = Ok d /\ d ∈ pn_Includes n /\
          normalizePath disk d = Ok q /\ is_Some (ir_Nodes r' !! q)) /\
       exists l1 l2, GetSortedPaths r' = (l1 ++ k :: l2)%list /\ forall d, d ∈ pn_Includes n -> d ∈ l1) /\
    NoDup (GetSortedPaths r').
Proof using Hdisk.
  intros Hv. destruct (roots_resolved paths r Hv) as [(HV & HE & HN & HG & HA) HL].
  destruct (topologicalSort_spec r) as (e & r' & Hsort & HNodes & HEdges & Hspec).
  { intros k Hk. apply elem_of_dom. by apply HE, elem_of_dom. }
  unfold ResolveMultiple. rewrite Hv, Hsort. destruct e as [er|]; [done|].
  destruct Hspec as (_ & Hnd & Ho & Hall). exists r'. rewrite HNodes. split_and!; [done| |  |done].
  - intros p Hp. destruct (HL p Hp) as (q & Hq & Hvq). exists q. split; [done|]. by apply HV.
  - intros k n Hk. destruct (HN k n Hk) as [(Hload & _ & Hdep & Hedge & Hinc & Hd) _]. split_and!; [done..| |].
    + intros i Hi. assert (Hin : resolveIncludePath k i ∈ (Ok <$> pn_Includes n : list (result PmErr string))).
      { rewrite Hinc. by apply list_elem_of_fmap_2. }
      apply list_elem_of_fmap in Hin as (d & Hd1 & Hd2). destruct (Hd d Hd2) as (_ & q & Hq & Hvq).
      exists d, q. split_and!; [done..|]. by apply HV.
    + destruct (list_elem_of_split _ k (Hall k ltac:(by exists n))) as (l1 & l2 & Hl).
      exists l1, l2. split; [exact Hl|]. intros d Hdn. apply (Ho l1 k l2 Hl). unfold edge, deps. by rewrite Hedge.
Qed.

(** No include leaves the policy directory.  Every include recorded in a
    resolved graph is, after cleaning, a path at or below the base directory. *)
Theorem includes_confined paths r k n d :
  ResolveMultiple config disk basePath paths = Some (None, r) ->
  ir_Nodes r !! k = Some n -> d ∈ pn_Includes n ->
  exists base path, Abs (d_getwd disk) basePath = Ok base /\ Abs (d_getwd disk) d = Ok path /\
    below (elements base) (elements path).
Proof using Hdisk.
  intros Hres Hk Hd. unfold ResolveMultiple in Hres.
  destruct (visitAll _ paths fresh_resolver) as [[[e|] r0]|] eqn:Hv; [done| |done].
  destruct (roots_resolved paths r0 Hv) as [(_ & HE & HN & _) _].
  destruct (topologicalSort_spec r0) as (e & r' & Hsort & HNodes & _).
  { intros j Hj. apply elem_of_dom. by apply HE, elem_of_dom. }
  rewrite Hsort in Hres. injection Hres as -> ->. rewrite HNodes in Hk.
  destruct (HN k n Hk) as [(_ & _ & _ & _ & _ & Hok) _]. destruct (Hok d Hd) as [Hval _].
  unfold validateIncludePath in Hval.
  destruct (Abs (d_getwd disk) basePath) as [base|] eqn:Hb; [|done].
  destruct (Abs (d_getwd disk) d) as [path|] eqn:Hp; [|done]. exists base, path. split_and!; [done..|].
  apply Abs_ok in Hb as [Hb _]. apply Abs_ok in Hp as [Hp _]. apply (Rel_below base path Hb Hp).
  destruct (Rel base path) as [rel|]; [|done]. unfold dotdot. by destruct (HasPrefix rel "..").
Qed.

End resolution.

(** ** Examples *)

Definition including (name file : string) (includes : list string) : Policy :=
  mkPolicy "1.0" name "1" "" "" 0 0 [] ∅ [] includes file.

Lemma ex_disk_paths_ok files (links : gmap string string) tree :
  bool_decide (map_Forall (fun k (_ : Policy) => IsAbs k = true /\ Clean k = k /\ links !! k = None) files) = true ->
  bool_decide (map_Forall (fun _ q => is_Some (files !! q)) links) = true ->
  disk_paths_ok (ex_disk files links tree).
Proof.
  intros Hf%bool_decide_eq_true Hl%bool_decide_eq_true. split; [by intros wd [= <-]|].
  assert (Hin : forall q, is_Some (files !! q) -> IsAbs q = true /\ Clean q = q /\
    d_eval (ex_disk files links tree) q = Ok q).
  { intros q [p Hp]. destruct (Hf q p Hp) as (H1 & H2 & H3). split_and!; [done..|]. cbn. by rewrite H3, Hp. }
  intros p q _. cbn. destruct (links !! p) as [t|] eqn:Ht.
  - intros [= <-]. apply Hin. by apply (Hl p).
  - destruct (files !! p) eqn:Hp; [|done]. intros [= <-]. apply Hin. by rewrite Hp.
Qed.

Definition chain_files : gmap string Policy :=
  {[ "/p/main.yaml" := including "main" "/p/main.yaml" ["sub/b.yml"];
     "/p/sub/b.yml" := including "b" "/p/sub/b.yml" ["../c.yaml"];
     "/p/c.yaml" := including "c" "/p/c.yaml" [] ]}.
Definition chain_disk : Disk := ex_disk chain_files ∅ (folder "p" []).

Definition no_error {S : Type} (o : option (option PmErr * S)) : bool :=
  match o with Some (None, _) => true | _ => false end.

Lemma topological_sort_correct_witness :
  let r := mkIncludeResolver ∅ {[ "a" := ["b"]; "b" := ["a"] ]} ∅ ∅ [] in
  let n := mkPolicyNode (including "a" "a" []) "a" [] [] 0 in
  let r := mkIncludeResolver {[ "a" := n; "b" := n ]} (ir_Edges r) ∅ ∅ [] in
  exists e r', topologicalSort (H := some_range) r = Some (Some e, r') /\
  exists e', DetectCycles (H := some_range) r = Some (Some e').
Proof.
  intros r0 n r.
  destruct (topological_sort_correct (H := some_range) r) as (e & r' & Ht & _ & _ & e' & Hd & He).
  { apply (bool_decide_unpack _). vm_compute. exact I. }
  assert (Hne : no_error (topologicalSort (H := some_range) r) = false) by (vm_compute; reflexivity).
  rewrite Ht in Hne. destruct e as [e|]; [|discriminate Hne].
  destruct e' as [e'|]; [|discriminate (proj1 He eq_refl)]. exists e, r'. split; [exact Ht|]. exists e'. exact Hd.
Defined.

Lemma includes_resolved_in_order_witness :
  exists r, ResolveMultiple (H := some_range) DefaultLoaderConfig chain_disk "/p" ["/p/main.yaml"] = Some (None, r) /\
    GetSortedPaths r = ["/p/c.yaml"; "/p/sub/b.yml"; "/p/main.yaml"] /\ NoDup (GetSortedPaths r).
Proof.
  assert (Hok : disk_paths_ok chain_disk) by (apply ex_disk_paths_ok; vm_compute; reflexivity).
  assert (Hn : no_error (visitAll (resolveFile (H := some_range) DefaultLoaderConfig chain_disk "/p"
    (resolveFuel DefaultLoaderConfig) 0) ["/p/main.yaml"] fresh_resolver) = true) by (vm_compute; reflexivity).
  assert (Hs : (fun o => GetSortedPaths <$> (snd <$> o)) (ResolveMultiple (H := some_range) DefaultLoaderConfig chain_disk
    "/p" ["/p/main.yaml"]) = Some ["/p/c.yaml"; "/p/sub/b.yml"; "/p/main.yaml"]) by (vm_compute; reflexivity).
  destruct (visitAll (resolveFile (H := some_range) DefaultLoaderConfig chain_disk "/p"
    (resolveFuel DefaultLoaderConfig) 0) ["/p/main.yaml"] fresh_resolver) as [[[e|] r]|] eqn:Hv;
    [discriminate Hn| |discriminate Hn].
  destruct (includes_resolved_in_order (H := some_range) DefaultLoaderConfig chain_disk "/p" Hok ["/p/main.yaml"] r Hv)
    as (r' & Hr & _ & _ & Hnd).
  exists r'. split; [exact Hr|]. rewrite Hr in Hs. injection Hs as Hs. split; [exact Hs|exact Hnd].
Defined.

Lemma includes_confined_witness :
  exists base path, Abs (d_getwd chain_disk) "/p" = Ok base /\ Abs (d_getwd chain_disk) "/p/sub/b.yml" = Ok path /\
    below (elements base) (elements path).
Proof.
  assert (Hok : disk_paths_ok chain_disk) by (apply ex_disk_paths_ok; vm_compute; reflexivity).
  destruct (ResolveMultiple (H := some_range) DefaultLoaderConfig chain_disk "/p" ["/p/main.yaml"]) as [[e r]|] eqn:Hr.
  2: { exfalso. vm_compute in Hr. discriminate Hr. }
  assert (Hn : (fun o => match o with Some (None, r) => pn_Includes <$> ir_Nodes r !! "/p/main.yaml" | _ => None end)
    (ResolveMultiple (H := some_range) DefaultLoaderConfig chain_disk "/p" ["/p/main.yaml"]) = Some ["/p/sub/b.yml"])
    by (vm_compute; reflexivity).
  rewrite Hr in Hn. destruct e as [e|]; [discriminate Hn|].
  destruct (ir_Nodes r !! "/p/main.yaml") as [n|] eqn:Hm; [|discriminate Hn]. injection Hn as Hn.
  apply (includes_confined (H := some_range) DefaultLoaderConfig chain_disk "/p" Hok ["/p/main.yaml"] r "/p/main.yaml" n
    "/p/sub/b.yml" Hr Hm). rewrite Hn. by left.
Defined.

(** The depth limit depends on where resolution starts: a chain of twelve files
    is too deep from its head, but not when its tail was resolved before. *)
Definition deep_files : gmap string Policy :=
  list_to_map ((fun i : nat => ("/p/" +:+ pretty i, including (pretty i) "" (if (i <? 12)%nat then [pretty (S i)] else [])))
    <$> seq 0 13).
Definition deep_disk : Disk := ex_disk deep_files ∅ (folder "p" []).

Example depth_limit_depends_on_order :
  no_error (ResolveMultiple (H := some_range) DefaultLoaderConfig deep_disk "/p" ["/p/0"]) = false /\
  no_error (ResolveMultiple (H := some_range) DefaultLoaderConfig deep_disk "/p" ["/p/6"; "/p/0"]) = true.
Proof. vm_compute. split; reflexivity. Qed.

(** An include through a symbolic link is ordered by the name of the link: the
    file that includes it can be listed before the file it includes. *)
Definition linked_disk : Disk :=
  ex_disk {[ "/p/a.yaml" := including "a" "" ["link.yaml"]; "/p/z.yaml" := including "z" "" [] ]}
    {[ "/p/link.yaml" := "/p/z.yaml" ]} (folder "p" []).

Example linked_include_out_of_order :
  (fun o => GetSortedPaths <$> (snd <$> o))
    (ResolveMultiple (H := some_range) DefaultLoaderConfig linked_disk "/p" ["/p/a.yaml"]) =
  Some ["/p/link.yaml"; "/p/a.yaml"; "/p/z.yaml"].
Proof. vm_compute. reflexivity. Qed.
