(* ===== verification/GitSource.v ===== *)
(** * Git policy source ([pkg/policy/git/repository.go], [watcher.go], [types.go])

    The repository manager and the change watcher.  The git library is a class:
    what its repository object answers and how it changes.  The watcher is a
    state machine over it whose reload callback is an argument; a poll, a timer
    that fires, a start and a stop are its steps, in any order.  Commit hashes
    have forty digits, so the abbreviations in log lines are left out, as are
    the durations of the metrics. *)

From Stdlib Require Import ZArith Lia.
From stdpp Require Import base option list strings gmap.
From S2P Require Import Prelude GoValue Ast Paths PolicyRegistry PolicyLoader.
Local Open Scope string_scope.
Local Open Scope Z_scope.
Local Open Scope go_scope.

(** ** The git library *)

Inductive PullOutcome := Pulled | AlreadyUpToDate | PullFailed (e : string).

Class GoGit (G : Type) : Type := {
  gg_Head : G -> result string string;
  gg_Worktree : G -> option string;
  gg_Pull : G -> PullOutcome * G;
  gg_CommitObject : string -> G -> option string;
  gg_Tree : string -> G -> option string;
  gg_Diff : string -> string -> G -> result string (list (string * string));
  gg_Checkout : string -> G -> option string * G;
  gg_disk : G -> Disk;
}.

(** The files of the work tree are those of the commit that is checked out. *)
Definition clean_tree `{GoGit G} (commit_disk : string -> Disk) (g : G) : Prop :=
  forall h, gg_Head g = Ok h -> gg_disk g = commit_disk h.

(** A pull that succeeds and a checkout leave a clean work tree clean, and a checkout
    moves to the commit it is given.  A repository that is opened may have any work
    tree: that it is clean is a hypothesis of the theorems that need it. *)
Class GoGitLaws (G : Type) `{GoGit G} : Type := {
  commit_disk : string -> Disk;
  pull_clean g o g' : gg_Pull g = (o, g') -> (forall e, o <> PullFailed e) -> clean_tree commit_disk g -> clean_tree commit_disk g';
  checkout_clean g sha g' : gg_Checkout sha g = (None, g') -> clean_tree commit_disk g -> clean_tree commit_disk g';
  checkout_head g sha g' : gg_Checkout sha g = (None, g') -> gg_Head g' = Ok sha;
}.

(** ** The repository *)

Record PullResult := mkPullResult {
  pr_FromSHA : string;
  pr_ToSHA : string;
  pr_ChangedFiles : list string;
  pr_HadChanges : bool;
}.

Record Repository (G : Type) := mkRepository {
  rp_repo : option G;
  rp_localPath : string;
  rp_Path : string;
  rp_LastCommitSHA : string;
  rp_FailedPulls : Z;
  rp_SuccessfulPulls : Z;
}.
Arguments mkRepository {G}.
Arguments rp_repo {G}.
Arguments rp_localPath {G}.
Arguments rp_Path {G}.
Arguments rp_LastCommitSHA {G}.
Arguments rp_FailedPulls {G}.
Arguments rp_SuccessfulPulls {G}.

Section repository.
Context `{GoGit G}.
(** The error of the configured authentication method, if it has one. *)
Variable getAuth : option string.

Definition wrapped (msg : string) (e : string) : PmErr := Wrapped msg (Plain e).

Definition with_git (g : G) (r : Repository G) : Repository G :=
  mkRepository (Some g) (rp_localPath r) (rp_Path r) (rp_LastCommitSHA r) (rp_FailedPulls r) (rp_SuccessfulPulls r).
Definition failedPull (r : Repository G) : Repository G :=
  mkRepository (rp_repo r) (rp_localPath r) (rp_Path r) (rp_LastCommitSHA r) (rp_FailedPulls r +64 1) (rp_SuccessfulPulls r).
Definition successfulPull (r : Repository G) : Repository G :=
  mkRepository (rp_repo r) (rp_localPath r) (rp_Path r) (rp_LastCommitSHA r) (rp_FailedPulls r) (rp_SuccessfulPulls r +64 1).
Definition with_LastCommitSHA (sha : string) (r : Repository G) : Repository G :=
  mkRepository (rp_repo r) (rp_localPath r) (rp_Path r) sha (rp_FailedPulls r) (rp_SuccessfulPulls r).

(** The path of a change: the new name, or the old one of a deleted file. *)
Definition changedPath (change : string * string) : option string :=
  let '(from, to) := change in
  if negb (String.eqb to "") then Some to else if negb (String.eqb from "") then Some from else None.

Definition getChangedFilesInternal (fromSHA toSHA : string) (r : Repository G) : result PmErr (list string) :=
  match rp_repo r with
  | None => Err (Plain "repository not initialized")
  | Some g =>
      match gg_CommitObject fromSHA g with
      | Some e => Err (wrapped "failed to get from commit" e)
      | None =>
          match gg_CommitObject toSHA g with
          | Some e => Err (wrapped "failed to get to commit" e)
          | None =>
              match gg_Tree fromSHA g with
              | Some e => Err (wrapped "failed to get from tree" e)
              | None =>
                  match gg_Tree toSHA g with
                  | Some e => Err (wrapped "failed to get to tree" e)
                  | None =>
                      match gg_Diff fromSHA toSHA g with
                      | Err e => Err (wrapped "failed to diff trees" e)
                      | Ok changes => Ok (omap changedPath changes)
                      end
                  end
              end
          end
      end
  end.

(** The part of [Pull] after the library call. *)
Definition afterPull (fromSHA : string) (r : Repository G) : result PmErr PullResult * Repository G :=
  let r := successfulPull r in
  match rp_repo r with
  | None => (Err (Plain "repository not initialized"), r)
  | Some g =>
      match gg_Head g with
      | Err e => (Err (wrapped "failed to get new HEAD" e), r)
      | Ok toSHA =>
          if String.eqb fromSHA toSHA then (Ok (mkPullResult fromSHA toSHA [] false), r)
          else
            match getChangedFilesInternal fromSHA toSHA r with
            | Err e => (Err (Wrapped "failed to get changed files" e), r)
            | Ok changedFiles => (Ok (mkPullResult fromSHA toSHA changedFiles true), with_LastCommitSHA toSHA r)
            end
      end
  end.

Definition Pull (r : Repository G) : result PmErr PullResult * Repository G :=
  match rp_repo r with
  | None => (Err (Plain "repository not initialized, call Clone() first"), r)
  | Some g =>
      match gg_Head g with
      | Err e => (Err (wrapped "failed to get HEAD" e), r)
      | Ok fromSHA =>
          match gg_Worktree g with
          | Some e => (Err (wrapped "failed to get worktree" e), r)
          | None =>
              match getAuth with
              | Some e => (Err (wrapped "failed to get auth" e), r)
              | None =>
                  match gg_Pull g with
                  | (PullFailed e, g) => (Err (wrapped "failed to pull" e), failedPull (with_git g r))
                  | (_, g) => afterPull fromSHA (with_git g r)
                  end
              end
          end
      end
  end.

Definition Rollback (targetSHA : string) (r : Repository G) : option PmErr * Repository G :=
  match rp_repo r with
  | None => (Some (Plain "repository not initialized"), r)
  | Some g =>
      match gg_CommitObject targetSHA g with
      | Some e => (Some (wrapped "target commit not found" e), r)
      | None =>
          match gg_Worktree g with
          | Some e => (Some (wrapped "failed to get worktree" e), r)
          | None =>
              match gg_Checkout targetSHA g with
              | (Some e, g) => (Some (wrapped ("failed to checkout commit " +:+ targetSHA) e), with_git g r)
              | (None, g) => (None, with_git g r)
              end
          end
      end
  end.

Definition GetPolicyPath (r : Repository G) : string := JoinPath [rp_localPath r; rp_Path r].

(** The hash part of [GetCurrentCommit]. *)
Definition currentSHA (r : Repository G) : result PmErr string :=
  match rp_repo r with
  | None => Err (Plain "repository not initialized, call Clone() first")
  | Some g =>
      match gg_Head g with
      | Err e => Err (wrapped "failed to get HEAD" e)
      | Ok h => match gg_CommitObject h g with Some e => Err (wrapped "failed to get commit" e) | None => Ok h end
      end
  end.

(** ** The watcher *)

Record Watcher := mkWatcher {
  w_lastCommitSHA : string;
  w_running : bool;
  w_stopClosed : bool;
  w_timer : option string;
  w_PollCount : Z;
  w_SuccessfulReloads : Z;
  w_FailedReloads : Z;
  w_SkippedPolls : Z;
}.

Definition NewWatcher : Watcher := mkWatcher "" false false None 0 0 0 0.

Definition hasPolicyFileChanges (files : list string) : bool :=
  existsb (fun file => let ext := Ext file in
    String.eqb ext ".mpl" || String.eqb ext ".yaml" || String.eqb ext ".yml") files.

(** The loop ends at once when the stop channel is already closed; the state of
    the loop is [w_running && negb w_stopClosed]. *)
Definition Start (r : Repository G) (w : Watcher) : option PmErr * Watcher :=
  if w_running w then (Some (Plain "watcher already running"), w)
  else
    match currentSHA r with
    | Err e => (Some (Wrapped "failed to get initial commit" e), w)
    | Ok sha =>
        (None, mkWatcher sha true (w_stopClosed w) (w_timer w) (w_PollCount w) (w_SuccessfulReloads w)
                 (w_FailedReloads w) (w_SkippedPolls w))
    end.

(** [None] is the panic of closing a closed channel. *)
Definition Stop (w : Watcher) : option (option PmErr * Watcher) :=
  if negb (w_running w) then Some (Some (Plain "watcher not running"), w)
  else if w_stopClosed w then None
  else
    Some (None, mkWatcher (w_lastCommitSHA w) false true None (w_PollCount w) (w_SuccessfulReloads w)
                  (w_FailedReloads w) (w_SkippedPolls w)).

Definition debounceReload (newSHA : string) (w : Watcher) : Watcher :=
  mkWatcher (w_lastCommitSHA w) (w_running w) (w_stopClosed w) (Some newSHA) (w_PollCount w)
    (w_SuccessfulReloads w) (w_FailedReloads w) (w_SkippedPolls w).

Definition polled (w : Watcher) : Watcher :=
  mkWatcher (w_lastCommitSHA w) (w_running w) (w_stopClosed w) (w_timer w) (w_PollCount w +64 1)
    (w_SuccessfulReloads w) (w_FailedReloads w) (w_SkippedPolls w).

Definition skipped (sha : string) (w : Watcher) : Watcher :=
  mkWatcher sha (w_running w) (w_stopClosed w) (w_timer w) (w_PollCount w)
    (w_SuccessfulReloads w) (w_FailedReloads w) (w_SkippedPolls w +64 1).

Definition checkForChanges (r : Repository G) (w : Watcher) : option PmErr * (Repository G * Watcher) :=
  let w := polled w in
  match Pull r with
  | (Err e, r) => (Some (Wrapped "failed to pull" e), (r, w))
  | (Ok result, r) =>
      if negb (pr_HadChanges result) then (None, (r, w))
      else if negb (hasPolicyFileChanges (pr_ChangedFiles result)) then (None, (r, skipped (pr_ToSHA result) w))
      else (None, (r, debounceReload (pr_ToSHA result) w))
  end.

Definition ForceCheck (r : Repository G) (w : Watcher) : option PmErr * (Repository G * Watcher) :=
  if negb (w_running w) then (Some (Plain "watcher not running"), (r, w)) else checkForChanges r w.

(** The reload callback works on the state [S] of its owner. *)
Section reload.
Context {S : Type}.
Variable reloadFn : Repository G -> S -> option PmErr * S.

Definition rollbackToPrevious (sha : string) (r : Repository G) (s : S) : option PmErr * (Repository G * S) :=
  match Rollback sha r with
  | (Some e, r) => (Some (Wrapped "failed to rollback repository" e), (r, s))
  | (None, r) =>
      match reloadFn r s with
      | (Some e, s) => (Some (Wrapped "failed to reload policies after rollback" e), (r, s))
      | (None, s) => (None, (r, s))
      end
  end.

Definition failedReload (w : Watcher) : Watcher :=
  mkWatcher (w_lastCommitSHA w) (w_running w) (w_stopClosed w) (w_timer w) (w_PollCount w)
    (w_SuccessfulReloads w) (w_FailedReloads w +64 1) (w_SkippedPolls w).

Definition reloaded (sha : string) (w : Watcher) : Watcher :=
  mkWatcher sha (w_running w) (w_stopClosed w) (w_timer w) (w_PollCount w)
    (w_SuccessfulReloads w +64 1) (w_FailedReloads w) (w_SkippedPolls w).

(** The report of a failed rollback keeps the reload error as its cause; the
    text of the rollback error that follows it is left out. *)
Definition performReload (newSHA : string) (r : Repository G) (w : Watcher) (s : S) :
    option PmErr * (Repository G * Watcher * S) :=
  match reloadFn r s with
  | (Some e, s) =>
      let w := failedReload w in
      match rollbackToPrevious (w_lastCommitSHA w) r s with
      | (Some _, (r, s)) => (Some (Wrapped "validation failed and rollback failed" e), (r, w, s))
      | (None, (r, s)) => (Some (Wrapped "policy validation failed" e), (r, w, s))
      end
  | (None, s) => (None, (r, reloaded newSHA w, s))
  end.

(** The debounce timer fires: the error of the reload is only logged. *)
Definition fireTimer (r : Repository G) (w : Watcher) (s : S) : Repository G * Watcher * S :=
  match w_timer w with
  | None => (r, w, s)
  | Some newSHA =>
      let w := mkWatcher (w_lastCommitSHA w) (w_running w) (w_stopClosed w) None (w_PollCount w)
                 (w_SuccessfulReloads w) (w_FailedReloads w) (w_SkippedPolls w) in
      snd (performReload newSHA r w s)
  end.

End reload.
End repository.

(** ** Theorems *)

(** A watcher that was stopped cannot be used again: a second start
    reports success, but its loop ends at once because the stop channel is still
    closed, and the next stop panics. *)
Theorem restarted_watcher_panics `{GoGit G} r w w1 w2 :
  Stop w = Some (None, w1) -> Start r w1 = (None, w2) -> w_running w2 = true /\ w_stopClosed w2 = true /\ Stop w2 = None.
Proof.
  unfold Stop, Start. destruct (w_running w); [|done]. destruct (w_stopClosed w); [done|]. intros [= <-]. cbn.
  destruct (currentSHA r); [|done]. by intros [= <-].
Qed.

Lemma Rollback_head `{GoGitLaws G} sha r r' :
  Rollback sha r = (None, r') -> exists g, rp_repo r' = Some g /\ gg_Head g = Ok sha.
Proof.
  unfold Rollback. destruct (rp_repo r) as [g|]; [|done]. destruct (gg_CommitObject sha g); [done|].
  destruct (gg_Worktree g); [done|]. destruct (gg_Checkout sha g) as [[e|] g'] eqn:Hc; [done|]. intros [= <-].
  exists g'. split; [done|]. by eapply checkout_head.
Qed.

(** The clone of a repository has a clean work tree. *)
Definition clean `{GoGitLaws G} (r : Repository G) : Prop := forall g, rp_repo r = Some g -> clean_tree commit_disk g.

Lemma Rollback_clean `{GoGitLaws G} sha r r' : Rollback sha r = (None, r') -> clean r -> clean r'.
Proof.
  unfold Rollback, clean. destruct (rp_repo r) as [g|]; [|done]. destruct (gg_CommitObject sha g); [done|].
  destruct (gg_Worktree g); [done|]. destruct (gg_Checkout sha g) as [[e|] g'] eqn:Hc; [done|]. intros [= <-] Hg g2 [= <-].
  eapply checkout_clean; [exact Hc|by apply Hg].
Qed.

Lemma Pull_clean `{GoGitLaws G} auth r res r' : Pull auth r = (Ok res, r') -> clean r -> clean r'.
Proof.
  unfold Pull, clean. destruct (rp_repo r) as [g|]; [|done]. destruct (gg_Head g) as [from|]; [|done].
  destruct (gg_Worktree g); [done|]. destruct auth; [done|].
  assert (Hafter : forall g' r0, afterPull from (with_git g' r) = (Ok res, r0) -> rp_repo r0 = Some g').
  { intros g' r0. unfold afterPull. change (rp_repo (successfulPull (with_git g' r))) with (Some g').
    cbv beta iota zeta. destruct (gg_Head g') as [to|]; [|done]. destruct (String.eqb from to); [by intros [= _ <-]|].
    destruct (getChangedFilesInternal _ _ _); [by intros [= _ <-]|done]. }
  destruct (gg_Pull g) as [o g'] eqn:Hp. intros Ha Hg g2 Hg2.
  assert (Ho : (forall e, o <> PullFailed e) /\ rp_repo r' = Some g').
  { destruct o; [split; [done|by apply Hafter]..|done]. }
  destruct Ho as [Ho Hr]. rewrite Hr in Hg2. injection Hg2 as <-. eapply pull_clean; [exact Hp|done|by apply Hg].
Qed.

(** A pull reports the commit before and after; without changes nothing moved. *)
Lemma Pull_ok `{GoGit G} auth r res r' :
  Pull auth r = (Ok res, r') ->
  exists g g', rp_repo r = Some g /\ rp_repo r' = Some g' /\ gg_Head g = Ok (pr_FromSHA res) /\
    gg_Head g' = Ok (pr_ToSHA res) /\ (pr_HadChanges res = false <-> pr_FromSHA res = pr_ToSHA res).
Proof.
  unfold Pull. destruct (rp_repo r) as [g|] eqn:Hg; [|done]. destruct (gg_Head g) as [from|] eqn:Hh; [|done].
  destruct (gg_Worktree g); [done|]. destruct auth; [done|].
  assert (Hafter : forall g', afterPull from (with_git g' r) = (Ok res, r') ->
    rp_repo r' = Some g' /\ from = pr_FromSHA res /\ gg_Head g' = Ok (pr_ToSHA res) /\
    (pr_HadChanges res = false <-> pr_FromSHA res = pr_ToSHA res)).
  { intros g'. unfold afterPull. change (rp_repo (successfulPull (with_git g' r))) with (Some g').
    cbv beta iota zeta. destruct (gg_Head g') as [to|]; [|done].
    destruct (String.eqb_spec from to) as [->|Hne]; [intros [= <- <-]; done|].
    destruct (getChangedFilesInternal from to (successfulPull (with_git g' r))); [|done]. by intros [= <- <-]. }
  destruct (gg_Pull g) as [[| |e] g'] eqn:Hp; [| |done]; intros Ha;
    destruct (Hafter g' Ha) as (Hr' & -> & Hto & Hch); by exists g, g'.
Qed.
