(* ===== verification/PolicyManager.v ===== *)
(** * Policy manager ([pkg/policy/manager/manager.go])

    Loading, validation and atomic replacement of the active policies, from
    files or from a git repository, over the loader, the resolver, the registry
    and the git source.  The policy validator is an argument.  Log lines are
    left out, also the warnings about duplicate names; the duplicate rule names
    are computed as the code does. *)

From Stdlib Require Import ZArith Lia.
From stdpp Require Import base option list strings gmap.
From S2P Require Import Prelude GoValue Ast PolicyPriority PolicyRegistry ProviderTypes Paths PolicyLoader PolicyResolver GitSource.
Local Open Scope string_scope.
Local Open Scope Z_scope.

(** The fields of [config.PolicyConfig] that the manager reads. *)
Record PolicyCfg := mkPolicyCfg {
  pc_Mode : string;
  pc_FilePath : string;
  pc_ValidationEnabled : bool;
  pc_ValidationStrict : bool;
}.

Record DefaultPolicyManager := mkManager {
  mg_registry : PolicyRegistry;
  mg_lastLoadTime : Time;
  mg_lastLoadError : option PmErr;
  mg_lastGoodPolicies : list Policy;
}.

Definition NewManagerState (now : Time) : DefaultPolicyManager := mkManager (NewPolicyRegistry now) 0 None [].

(** The readings of the clock in one load: by the registry, at the end, and by
    the registry when the last good policies are restored. *)
Record LoadTimes := mkLoadTimes { lt_replace : Time; lt_done : Time; lt_restore : Time }.

Section manager.
Context `{MapRange} `{SortSlice} `{PolicyHash} `{Fmt}.
Variable config : PolicyCfg.
Variable loaderConfig : PolicyLoaderConfig.
(** [validator.Validate] *)
Variable validatePolicy : Policy -> option PmErr.

(** The base path of the resolver, fixed when the manager is created. *)
Definition resolverBase (disk : Disk) : string :=
  normalizedBasePath disk (Dir (if String.eqb (pc_FilePath config) "" then "." else pc_FilePath config)).

(** The policies of the nodes in sorted order. *)
Definition sortedPolicies (r : IncludeResolver) : list Policy :=
  omap (fun path => pn_Policy <$> ir_Nodes r !! path) (GetSortedPaths r).

Definition hasIncludes (policies : list Policy) : bool :=
  existsb (fun p => match Includes p with [] => false | _ => true end) policies.

Definition sourceFiles (policies : list Policy) : list string :=
  List.filter (fun f => negb (String.eqb f "")) (SourceFile <$> policies).

(** The second half of [loadPoliciesFromSource]. *)
Definition withIncludes (base : string) (disk : Disk) (policies : list Policy) : option (result PmErr (list Policy)) :=
  if negb (hasIncludes policies) then Some (Ok policies)
  else
    match ResolveMultiple loaderConfig disk base (sourceFiles policies) with
    | None => None
    | Some (Some e, _) => Some (Err (Wrapped "failed to resolve includes" e))
    | Some (None, r) => Some (Ok (sortedPolicies r))
    end.

(** [gitPath] is the policy path of the repository, when there is one. *)
Definition loadPoliciesFromSource (base : string) (gitPath : option string) (disk : Disk) :
    option (result PmErr (list Policy)) :=
  let policyPath :=
    match gitPath with
    | Some p => if String.eqb (pc_Mode config) "git" then p else pc_FilePath config
    | None => pc_FilePath config
    end in
  match IsDirectory disk policyPath with
  | Err e => Some (Err (Wrapped "failed to access policy path" e))
  | Ok true =>
      match LoadFromDirectory loaderConfig disk policyPath with
      | (_, Some e) => Some (Err (Wrapped "failed to load policies from directory" e))
      | (policies, None) => withIncludes base disk policies
      end
  | Ok false =>
      match LoadFromFile loaderConfig disk policyPath with
      | Err e => Some (Err (Wrapped "failed to load policy file" e))
      | Ok policy => withIncludes base disk [policy]
      end
  end.

(** The loop over the policies: the errors so far, and whether strict mode
    returned early. *)
Fixpoint validateLoop (policies : list Policy) (errors : list PmErr) : list PmErr :=
  match policies with
  | [] => errors
  | p :: policies =>
      match validatePolicy p with
      | None => validateLoop policies errors
      | Some e =>
          let errors := (errors ++ [PmValidationError (p_Name p) "" "" (pm_text e) (Some e)])%list in
          if pc_ValidationStrict config then errors else validateLoop policies errors
      end
  end.

Definition validatePolicies (policies : list Policy) : option PmErr :=
  if negb (pc_ValidationEnabled config) then None else ToError (validateLoop policies []).

(** The rule names that [checkDuplicateRuleIDs] warns about, with the policies
    that define them. *)
Definition ruleLocations (policies : list Policy) : gmap string (list string) :=
  foldl (fun m pr => <[fst pr := (default [] (m !! fst pr) ++ [snd pr])%list]> m) ∅
    (policies ≫= fun p => List.filter (fun pr => negb (String.eqb (fst pr) "")) ((fun r => (r_Name r, p_Name p)) <$> Rules p)).

Definition duplicateRuleIDs (policies : list Policy) : list (string * list string) :=
  List.filter (fun kv => (1 <? length (snd kv))%nat) (range (ruleLocations policies)).

Definition with_error (e : PmErr) (m : DefaultPolicyManager) : DefaultPolicyManager :=
  mkManager (mg_registry m) (mg_lastLoadTime m) (Some e) (mg_lastGoodPolicies m).

Definition replaced (t : Time) (policies : list Policy) (reg : PolicyRegistry) : PolicyRegistry :=
  snd (Replace t (Some (Some <$> policies)) reg).

(** The common course of [LoadPolicies] and [ReloadPolicies]; [restore] is what
    is done with the registry after a failed replacement. *)
Definition applyPolicies (restore : PolicyRegistry -> PolicyRegistry) (t : LoadTimes)
    (loaded : option (result PmErr (list Policy))) (m : DefaultPolicyManager) :
    option (option PmErr * DefaultPolicyManager) :=
  match loaded with
  | None => None
  | Some (Err e) => Some (Some e, with_error e m)
  | Some (Ok policies) =>
      match validatePolicies policies with
      | Some e => Some (Some e, with_error e m)
      | None =>
          match Replace (lt_replace t) (Some (Some <$> policies)) (mg_registry m) with
          | (Some e, reg) =>
              Some (Some e, with_error e (mkManager (restore reg) (mg_lastLoadTime m) (mg_lastLoadError m)
                                            (mg_lastGoodPolicies m)))
          | (None, reg) => Some (None, mkManager reg (lt_done t) None policies)
          end
      end
  end.

Definition LoadPolicies (base : string) (gitPath : option string) (disk : Disk) (t : LoadTimes) (m : DefaultPolicyManager) :
    option (option PmErr * DefaultPolicyManager) :=
  applyPolicies (fun reg => reg) t (loadPoliciesFromSource base gitPath disk) m.

Definition ReloadPolicies (base : string) (gitPath : option string) (disk : Disk) (t : LoadTimes) (m : DefaultPolicyManager) :
    option (option PmErr * DefaultPolicyManager) :=
  applyPolicies
    (fun reg => match mg_lastGoodPolicies m with
                | [] => reg
                | good => replaced (lt_restore t) good reg
                end)
    t (loadPoliciesFromSource base gitPath disk) m.

Definition ValidatePoliciesDryRun (base : string) (gitPath : option string) (disk : Disk) : option (option PmErr) :=
  match loadPoliciesFromSource base gitPath disk with
  | None => None
  | Some (Err e) => Some (Some (Wrapped "failed to load policies" e))
  | Some (Ok policies) =>
      match validatePolicies policies with
      | Some e => Some (Some (Wrapped "policy validation failed" e))
      | None => Some None
      end
  end.

Definition GetPolicy (id : string) (m : DefaultPolicyManager) : result string Policy :=
  match reg_policies (mg_registry m) !! id with
  | Some p => Ok p
  | None => Err ("policy " +:+ Quote id +:+ " not found")
  end.

Definition GetAllPolicies (m : DefaultPolicyManager) : list Policy := GetAll (mg_registry m).
Definition GetPolicyVersion (m : DefaultPolicyManager) : string := reg_version (mg_registry m).

Definition LoadPoliciesForEngine (base : string) (gitPath : option string) (disk : Disk) (t : LoadTimes)
    (m : DefaultPolicyManager) : option (result PmErr (list Policy) * DefaultPolicyManager) :=
  if PolicyRegistry.Count (mg_registry m) =? 0 then
    match LoadPolicies base gitPath disk t m with
    | None => None
    | Some (Some e, m) => Some (Err e, m)
    | Some (None, m) => Some (Ok (GetAllPolicies m), m)
    end
  else Some (Ok (GetAllPolicies m), m).

(** ** Git mode *)

Section git_mode.
Context `{GoGit G}.
Variable base : string.
Variable getAuth : option string.

(** A reload reads the work tree of the repository; [disk] is the rest of the
    file system, for a repository that was never cloned. *)
Definition repoDisk (disk : Disk) (r : Repository G) : Disk :=
  match rp_repo r with Some g => gg_disk g | None => disk end.

Definition reloadFromGit (disk : Disk) (t : LoadTimes) (r : Repository G) (m : DefaultPolicyManager) :
    option (option PmErr * DefaultPolicyManager) :=
  ReloadPolicies base (Some (GetPolicyPath r)) (repoDisk disk r) t m.

Definition notGit (repo : option (Repository G)) : bool :=
  negb (String.eqb (pc_Mode config) "git") || match repo with None => true | Some _ => false end.

Definition GitState : Type := option (Repository G) * DefaultPolicyManager.

Definition RollbackToCommit (disk : Disk) (t : LoadTimes) (commitSHA : string) (st : GitState) :
    option (option PmErr * GitState) :=
  let '(repo, m) := st in
  match repo with
  | Some r =>
      if notGit repo then Some (Some (Plain "not in git mode"), st)
      else
        match Rollback commitSHA r with
        | (Some e, r) => Some (Some (Wrapped "failed to rollback git repository" e), (Some r, m))
        | (None, r) =>
            match reloadFromGit disk t r m with
            | None => None
            | Some (Some e, m) => Some (Some (Wrapped "failed to load policies after rollback" e), (Some r, m))
            | Some (None, m) => Some (None, (Some r, m))
            end
        end
  | None => Some (Some (Plain "not in git mode"), st)
  end.

(** When the rollback fails as well the error names both; only the reload error
    is kept as its cause. *)
Definition ForceSync (disk : Disk) (t : LoadTimes) (st : GitState) : option (option PmErr * GitState) :=
  let '(repo, m) := st in
  match repo with
  | Some r =>
      if notGit repo then Some (Some (Plain "not in git mode"), st)
      else
        match Pull getAuth r with
        | (Err e, r) => Some (Some (Wrapped "failed to pull changes" e), (Some r, m))
        | (Ok result, r) =>
            if negb (pr_HadChanges result) then Some (None, (Some r, m))
            else
              match reloadFromGit disk t r m with
              | None => None
              | Some (None, m) => Some (None, (Some r, m))
              | Some (Some e, m) =>
                  match Rollback (pr_FromSHA result) r with
                  | (Some _, r) => Some (Some (Wrapped "failed to reload policies (rollback also failed)" e), (Some r, m))
                  | (None, r) => Some (Some (Wrapped "failed to reload policies" e), (Some r, m))
                  end
              end
        end
  | None => Some (Some (Plain "not in git mode"), st)
  end.

End git_mode.
End manager.

(** ** Loading *)

Section loading.
Context `{MapRange} `{SortSlice} `{PolicyHash} `{Fmt}.
Variable config : PolicyCfg.
Variable loaderConfig : PolicyLoaderConfig.
Variable validatePolicy : Policy -> option PmErr.

Let validate := validatePolicies config validatePolicy.
Let load := loadPoliciesFromSource config loaderConfig.

Lemma withIncludes_total base disk ps : exists res, withIncludes loaderConfig base disk ps = Some res.
Proof.
  unfold withIncludes. destruct (negb (hasIncludes ps)); [by eexists|].
  unfold ResolveMultiple.
  destruct (visitAll_total (resolveFile loaderConfig disk base (resolveFuel loaderConfig) 0) (fun _ => True)
    (sourceFiles ps)) with (st := fresh_resolver) as ([e|] & r & -> & _); [| |by eexists|].
  - intros x r _ _. destruct (resolveFile_total loaderConfig disk base (resolveFuel loaderConfig) 0 x r) as (e & r' & ->);
      [unfold resolveFuel; lia|]. by exists e, r'.
  - done.
  - unfold topologicalSort. destruct (searched r) as ([e|] & st & -> & _); by eexists.
Qed.

Lemma load_total base gitPath disk : exists res, load base gitPath disk = Some res.
Proof.
  unfold load, loadPoliciesFromSource. cbv zeta.
  destruct (IsDirectory _ _) as [[|]|]; [| |by eexists].
  - destruct (LoadFromDirectory _ _ _) as [ps [e|]]; [by eexists|apply withIncludes_total].
  - destruct (LoadFromFile _ _ _); [apply withIncludes_total|by eexists].
Qed.

(** The policies a source provides that pass validation and can be registered. *)
Definition accepted (base : string) (gitPath : option string) (disk : Disk) : option (list Policy) :=
  match load base gitPath disk with
  | Some (Ok ps) =>
      match validate ps, validateAll "replace" (Some <$> ps) with None, None => Some ps | _, _ => None end
  | _ => None
  end.

(** The policy map a list of policies gives. *)
Definition policy_map (ps : list Policy) : gmap string Policy := insertAll (Some <$> ps) ∅.

(** The registry holds exactly the last good policies. *)
Definition manager_ok (m : DefaultPolicyManager) : Prop :=
  reg_policies (mg_registry m) = policy_map (mg_lastGoodPolicies m).

Lemma replaced_map t ps reg :
  reg_policies reg = policy_map ps -> reg_policies (replaced t ps reg) = policy_map ps.
Proof.
  intros Hr. unfold replaced, Replace. by destruct (validateAll "replace" (Some <$> ps)).
Qed.

(** One load: it succeeds exactly on an accepted source. *)
Lemma applyPolicies_spec restore t base gitPath disk m :
  (reg_policies (restore (mg_registry m)) = reg_policies (mg_registry m)) ->
  exists e m', applyPolicies config validatePolicy restore t (load base gitPath disk) m = Some (e, m') /\
  match accepted base gitPath disk with
  | Some ps => e = None /\ reg_policies (mg_registry m') = policy_map ps /\ mg_lastGoodPolicies m' = ps /\
      mg_lastLoadError m' = None /\ mg_lastLoadTime m' = lt_done t
  | None => exists er, e = Some er /\ reg_policies (mg_registry m') = reg_policies (mg_registry m) /\
      mg_lastGoodPolicies m' = mg_lastGoodPolicies m /\ mg_lastLoadError m' = Some er /\
      mg_lastLoadTime m' = mg_lastLoadTime m
  end.
Proof.
  intros Hrestore. unfold accepted. destruct (load_total base gitPath disk) as [res Hres]. rewrite Hres.
  destruct res as [ps|er]; cbn [applyPolicies]; [|by eexists (Some er), _; split; [|eexists]].
  unfold validate. destruct (validatePolicies config validatePolicy ps) as [er|];
    [by eexists (Some er), _; split; [|eexists]|].
  unfold Replace. destruct (validateAll "replace" (Some <$> ps)) as [er|];
    [|by eexists None, _; split].
  eexists (Some er), _. split; [done|]. exists er. by split_and!.
Qed.

Lemma restore_ok t m :
  manager_ok m ->
  reg_policies (match mg_lastGoodPolicies m with [] => mg_registry m | good => replaced (lt_restore t) good (mg_registry m) end) =
  reg_policies (mg_registry m).
Proof.
  unfold manager_ok. intros Hm. destruct (mg_lastGoodPolicies m) as [|p l] eqn:E; [done|].
  rewrite Hm. by apply replaced_map.
Qed.

(** A history of loads and reloads from changing sources. *)
Inductive LoadOp := OpLoad (base : string) (gitPath : option string) (disk : Disk) (t : LoadTimes)
                  | OpReload (base : string) (gitPath : option string) (disk : Disk) (t : LoadTimes).

Definition load_step (m : DefaultPolicyManager) (op : LoadOp) : option (option PmErr * DefaultPolicyManager) :=
  match op with
  | OpLoad b g d t => LoadPolicies config loaderConfig validatePolicy b g d t m
  | OpReload b g d t => ReloadPolicies config loaderConfig validatePolicy b g d t m
  end.

Definition op_accepted (op : LoadOp) : option (list Policy) :=
  match op with OpLoad b g d _ | OpReload b g d _ => accepted b g d end.

Fixpoint load_run (ops : list LoadOp) (m : DefaultPolicyManager) : option DefaultPolicyManager :=
  match ops with
  | [] => Some m
  | op :: ops => match load_step m op with Some (_, m) => load_run ops m | None => None end
  end.

Lemma load_step_spec op m :
  manager_ok m ->
  exists e m', load_step m op = Some (e, m') /\
  match op_accepted op with
  | Some ps => e = None /\ reg_policies (mg_registry m') = policy_map ps /\ mg_lastGoodPolicies m' = ps /\
      mg_lastLoadError m' = None
  | None => is_Some e /\ reg_policies (mg_registry m') = reg_policies (mg_registry m) /\
      mg_lastGoodPolicies m' = mg_lastGoodPolicies m /\ mg_lastLoadError m' = e
  end.
Proof.
  intros Hm.
  assert (Hgen : forall restore t b g d, reg_policies (restore (mg_registry m)) = reg_policies (mg_registry m) ->
    exists e m', applyPolicies config validatePolicy restore t (load b g d) m = Some (e, m') /\
    match accepted b g d with
    | Some ps => e = None /\ reg_policies (mg_registry m') = policy_map ps /\ mg_lastGoodPolicies m' = ps /\
        mg_lastLoadError m' = None
    | None => is_Some e /\ reg_policies (mg_registry m') = reg_policies (mg_registry m) /\
        mg_lastGoodPolicies m' = mg_lastGoodPolicies m /\ mg_lastLoadError m' = e
    end).
  { intros restore t b g d Hr. destruct (applyPolicies_spec restore t b g d m Hr) as (e & m' & Ha & Hs).
    exists e, m'. split; [done|]. destruct (accepted b g d); [naive_solver|]. destruct Hs as (er & -> & ? & ? & ? & _).
    by split_and!. }
  destruct op as [b g d t|b g d t]; cbn [load_step op_accepted].
  - by apply (Hgen (fun reg => reg)).
  - unfold ReloadPolicies.
    apply (Hgen (fun reg => match mg_lastGoodPolicies m with [] => reg | good => replaced (lt_restore t) good reg end)).
    by apply restore_ok.
Qed.

Lemma load_step_ok op m e m' : manager_ok m -> load_step m op = Some (e, m') -> manager_ok m'.
Proof.
  intros Hm Hs. destruct (load_step_spec op m Hm) as (e2 & m2 & Hs2 & Hspec). rewrite Hs in Hs2. injection Hs2 as <- <-.
  unfold manager_ok. destruct (op_accepted op) as [ps|].
  - by destruct Hspec as (_ & -> & -> & _).
  - by destruct Hspec as (_ & -> & -> & _).
Qed.

(** C11: loading is all or nothing.  After any history of loads and reloads from
    changing sources the registry holds exactly the policies of the last source
    that was accepted as a whole (readable, resolved, validated, named); a load
    of any other source reports its error and leaves the policies as they were;
    and no load ever hangs. *)
Theorem loading_all_or_nothing ops op now :
  exists m, load_run ops (NewManagerState now) = Some m /\
  reg_policies (mg_registry m) = policy_map (default [] (last (omap op_accepted ops))) /\
  exists e m', load_step m op = Some (e, m') /\
  match op_accepted op with
  | Some ps => e = None /\ reg_policies (mg_registry m') = policy_map ps
  | None => is_Some e /\ reg_policies (mg_registry m') = reg_policies (mg_registry m) /\ mg_lastLoadError m' = e
  end.
Proof.
  assert (Hrun : forall m, manager_ok m -> exists m', load_run ops m = Some m' /\ manager_ok m' /\
    mg_lastGoodPolicies m' = default (mg_lastGoodPolicies m) (last (omap op_accepted ops))).
  { induction ops as [|o ops IH]; intros m Hm; [by exists m|]. cbn [load_run].
    destruct (load_step_spec o m Hm) as (e & m1 & Hs & Hspec). rewrite Hs.
    pose proof (load_step_ok o m e m1 Hm Hs) as Hm1. destruct (IH m1 Hm1) as (m' & Hr & Hm' & Hl).
    exists m'. split_and!; [done..|]. rewrite Hl. cbn. destruct (op_accepted o) as [ps|].
    - destruct Hspec as (_ & _ & Hgood & _). rewrite last_cons, Hgood. by destruct (last _).
    - by destruct Hspec as (_ & _ & -> & _). }
  destruct (Hrun (NewManagerState now)) as (m & Hr & Hm & Hl); [done|]. exists m. split; [done|].
  split; [by rewrite Hm, Hl|]. destruct (load_step_spec op m Hm) as (e & m' & Hs & Hspec). exists e, m'. split; [done|].
  destruct (op_accepted op); naive_solver.
Qed.

End loading.

(** Strict validation accepts the same policies as lenient validation; it
    only stops at the first error instead of reporting all of them. *)
Theorem strict_mode_same_verdict `{Fmt} validatePolicy path enabled mode ps :
  validatePolicies (mkPolicyCfg mode path enabled true) validatePolicy ps = None <->
  validatePolicies (mkPolicyCfg mode path enabled false) validatePolicy ps = None.
Proof.
  assert (Hgrow : forall strict ps errs, errs <> [] ->
    validateLoop (mkPolicyCfg mode path enabled strict) validatePolicy ps errs <> []).
  { intros strict ps'. induction ps' as [|p ps' IH]; intros errs Hne; [done|]. cbn. destruct (validatePolicy p); [|by apply IH].
    destruct strict; [by destruct errs|apply IH; by destruct errs]. }
  assert (Hempty : forall strict, ToError (validateLoop (mkPolicyCfg mode path enabled strict) validatePolicy ps []) = None <->
    Forall (fun p => validatePolicy p = None) ps).
  { intros strict. assert (Hnil : forall l, ToError l = None <-> l = []) by (by intros [|? [|]]).
    rewrite Hnil. induction ps as [|p ps' IH]; [by split|]. cbn. rewrite Forall_cons. destruct (validatePolicy p) as [e|] eqn:Hp.
    - split; [|by intros [? _]]. destruct strict; [done|]. intros Hl. by apply Hgrow in Hl.
    - rewrite IH. naive_solver. }
  unfold validatePolicies. cbn. destruct enabled; cbn; [|done]. by rewrite !Hempty.
Qed.

(** ** Git mode *)

Section git_theorems.
Context `{MapRange} `{SortSlice} `{PolicyHash} `{Fmt} `{GoGitLaws G}.
Variable config : PolicyCfg.
Variable loaderConfig : PolicyLoaderConfig.
Variable validatePolicy : Policy -> option PmErr.
Variable base : string.
Variable getAuth : option string.

(** The policies that the commit [h] offers through the repository [r]. *)
Definition offered (r : Repository G) (h : string) : option (list Policy) :=
  accepted config loaderConfig validatePolicy base (Some (GetPolicyPath r)) (commit_disk h).

Definition head_is (r : Repository G) (h : string) : Prop :=
  exists g, rp_repo r = Some g /\ gg_Head g = Ok h.

(** The active policies are those of the commit that is checked out. *)
Definition in_sync (r : Repository G) (m : DefaultPolicyManager) : Prop :=
  exists h ps, head_is r h /\ offered r h = Some ps /\ reg_policies (mg_registry m) = policy_map ps.

Lemma reloadFromGit_spec disk t r m h :
  manager_ok m -> clean r -> head_is r h ->
  exists e m', reloadFromGit config loaderConfig validatePolicy base disk t r m = Some (e, m') /\ manager_ok m' /\
  match offered r h with
  | Some ps => e = None /\ reg_policies (mg_registry m') = policy_map ps
  | None => is_Some e /\ reg_policies (mg_registry m') = reg_policies (mg_registry m)
  end.
Proof.
  intros Hm Hcl (g & Hg & Hh). unfold reloadFromGit, repoDisk. rewrite Hg, (Hcl g Hg h Hh).
  destruct (load_step_spec config loaderConfig validatePolicy
    (OpReload base (Some (GetPolicyPath r)) (commit_disk h) t) m Hm) as (e & m' & Hs & Hspec).
  exists e, m'. pose proof (load_step_ok _ _ _ _ _ _ _ Hm Hs) as Hm'. cbn [load_step] in Hs. split_and!; [done..|].
  unfold offered. cbn [op_accepted] in Hspec. destruct (accepted _ _ _ _ _ _); naive_solver.
Qed.

Lemma Rollback_paths sha r r' e : Rollback sha r = (e, r') -> GetPolicyPath r' = GetPolicyPath r.
Proof.
  unfold Rollback. destruct (rp_repo r); [|by intros [= _ <-]]. destruct (gg_CommitObject sha g); [by intros [= _ <-]|].
  destruct (gg_Worktree g); [by intros [= _ <-]|]. destruct (gg_Checkout sha g) as [[?|] ?]; by intros [= _ <-].
Qed.

Lemma Pull_paths r res r' : Pull getAuth r = (res, r') -> GetPolicyPath r' = GetPolicyPath r.
Proof.
  assert (Hafter : forall from r0 res r', afterPull from r0 = (res, r') -> GetPolicyPath r' = GetPolicyPath r0).
  { intros from r0 res0 r0'. unfold afterPull. cbv zeta. change (rp_repo (successfulPull r0)) with (rp_repo r0).
    destruct (rp_repo r0) as [g|]; [|by intros [= _ <-]]. destruct (gg_Head g) as [to|]; [|by intros [= _ <-]].
    destruct (String.eqb from to); [by intros [= _ <-]|]. destruct (getChangedFilesInternal _ _ _); by intros [= _ <-]. }
  unfold Pull. destruct (rp_repo r) as [g|]; [|by intros [= _ <-]].
  destruct (gg_Head g); [|by intros [= _ <-]]. destruct (gg_Worktree g); [by intros [= _ <-]|].
  destruct getAuth; [by intros [= _ <-]|].
  destruct (gg_Pull g) as [[| |?] g']; [| |by intros [= _ <-]]; intros Ha; by apply Hafter in Ha.
Qed.

Lemma head_unique r h h' : head_is r h -> head_is r h' -> h = h'.
Proof. intros (g & Hg & Hh) (g' & Hg' & Hh'). congruence. Qed.

Lemma ForceSync_spec disk t r m :
  pc_Mode config = "git" -> manager_ok m -> clean r -> in_sync r m ->
  exists e r' m', ForceSync config loaderConfig validatePolicy base getAuth disk t (Some r, m) = Some (e, (Some r', m')) /\
    (e = None -> in_sync r' m' /\ clean r') /\
    (forall er, e = Some (Wrapped "failed to reload policies" er) ->
       in_sync r' m' /\ clean r' /\ forall h, head_is r h -> head_is r' h) /\
    (is_Some e -> reg_policies (mg_registry m') = reg_policies (mg_registry m)).
Proof.
  intros Hmode Hm Hcl (h & ps & Hh & Hoff & Hreg). unfold ForceSync, notGit. rewrite Hmode. cbn [negb orb].
  destruct (Pull getAuth r) as [[res|er] r1] eqn:Hp; cbn [negb orb String.eqb Ascii.eqb];
    [|by eexists _, _, _; split_and!; [reflexivity|..]; naive_solver].
  pose proof (Pull_paths r (Ok res) r1 Hp) as Hpath. pose proof (Pull_clean getAuth r res r1 Hp Hcl) as Hcl1.
  destruct (Pull_ok getAuth r res r1 Hp) as (g & g1 & Hg & Hg1 & Hfrom & Hto & Hch).
  assert (Hhf : h = pr_FromSHA res) by (eapply head_unique; [exact Hh|by exists g]).
  destruct (pr_HadChanges res) eqn:Hhad; cbn [negb].
  - destruct (reloadFromGit_spec disk t r1 m (pr_ToSHA res) Hm Hcl1) as (e & m1 & Hrl & _ & Hspec); [by exists g1|].
    change (String.eqb "git" "git") with true. cbn [negb orb]. rewrite Hrl.
    destruct e as [er|].
    + destruct (offered r1 (pr_ToSHA res)); [by destruct Hspec as [? _]|]. destruct Hspec as [_ Hsame].
      destruct (Rollback (pr_FromSHA res) r1) as [[er2|] r2] eqn:Hrb.
      * eexists _, _, _. split_and!; [reflexivity|done|done|by intros _].
      * eexists _, _, _. split_and!; [reflexivity|done| |by intros _]. intros _ _.
        destruct (Rollback_head _ _ _ Hrb) as (g2 & Hg2 & Hh2). rewrite <- Hhf in Hh2. split; [|split; [by eapply Rollback_clean|]].
        -- exists h, ps. split_and!; [by exists g2| |congruence].
           unfold offered in Hoff |- *. by rewrite (Rollback_paths _ _ _ _ Hrb), Hpath.
        -- intros h' Hh'. rewrite <- (head_unique _ _ _ Hh Hh'). by exists g2.
    + eexists _, _, _. split; [reflexivity|]. split; [|split; [done|by intros [? ?]]]. intros _. split; [|done].
      destruct (offered r1 (pr_ToSHA res)) as [ps1|] eqn:Hoff1; [|by destruct Hspec as [[? ?] _]].
      exists (pr_ToSHA res), ps1. destruct Hspec as [_ Hreg1]. split_and!; [by exists g1|done|done].
  - change (String.eqb "git" "git") with true. cbn [negb orb].
    eexists _, _, _. split; [reflexivity|]. split; [|split; [done|by intros [? ?]]]. intros _. split; [|done].
    exists h, ps. split_and!; [|by unfold offered in Hoff |- *; rewrite Hpath|done].
    exists g1. split; [done|]. rewrite Hto, Hhf. by rewrite (proj1 Hch eq_refl).
Qed.

(** A forced sync keeps the policies and the checkout together.  Starting
    from a clean checkout whose policies are active, it ends, and: if it reports
    success the active policies are those of the new checkout; if it reports a
    failed reload the repository is back at the old commit and its policies are
    still active; whatever error it reports, the active policies are unchanged. *)
Theorem force_sync_keeps_in_sync disk t r m :
  pc_Mode config = "git" -> manager_ok m -> clean r -> in_sync r m ->
  exists e r' m', ForceSync config loaderConfig validatePolicy base getAuth disk t (Some r, m) = Some (e, (Some r', m')) /\
    (e = None -> in_sync r' m' /\ clean r') /\
    (forall er, e = Some (Wrapped "failed to reload policies" er) ->
       in_sync r' m' /\ clean r' /\ forall h, head_is r h -> head_is r' h) /\
    (is_Some e -> reg_policies (mg_registry m') = reg_policies (mg_registry m)).
Proof.
  intros Hmode Hm Hcl Hs. destruct (ForceSync_spec disk t r m Hmode Hm Hcl Hs) as (e & r' & m' & Hf & Hok & Hback & Hkeep).
  exists e, r', m'. by split_and!.
Qed.

(** Rolling back to a commit whose policies are rejected reports an error
    and keeps the active policies, but the repository stays at that commit: the
    checkout and the active policies no longer agree. *)
Theorem rollback_to_rejected_commit disk t sha r r1 m :
  pc_Mode config = "git" -> manager_ok m -> clean r -> Rollback sha r = (None, r1) -> offered r1 sha = None ->
  exists e m', RollbackToCommit config loaderConfig validatePolicy base disk t sha (Some r, m) =
      Some (Some e, (Some r1, m')) /\
    head_is r1 sha /\ reg_policies (mg_registry m') = reg_policies (mg_registry m) /\ ~ in_sync r1 m'.
Proof.
  intros Hmode Hm Hcl Hrb Hoff. unfold RollbackToCommit, notGit. rewrite Hmode.
  change (String.eqb "git" "git") with true. cbn [negb orb]. rewrite Hrb.
  pose proof (Rollback_head _ _ _ Hrb) as Hhead.
  destruct (reloadFromGit_spec disk t r1 m sha Hm (Rollback_clean _ _ _ Hrb Hcl) Hhead) as (e & m' & Hrl & _ & Hspec). rewrite Hrl, Hoff in *.
  destruct Hspec as [[er ->] Hsame]. eexists _, m'. split_and!; [reflexivity|done..|].
  intros (h & ps & Hh & Ho & _). rewrite (head_unique _ _ _ Hh Hhead) in Ho. congruence.
Qed.

(** An update can be lost for good.  If a pull moves the repository but the
    list of changed files cannot be computed, the sync reports an error; the
    next sync finds nothing new and reports success, while the active policies
    are still those of the old commit. *)
Theorem failed_diff_loses_update disk t r m g g1 h0 h1 e :
  pc_Mode config = "git" -> getAuth = None ->
  rp_repo r = Some g -> gg_Head g = Ok h0 -> gg_Worktree g = None -> gg_Pull g = (Pulled, g1) ->
  gg_Head g1 = Ok h1 -> h0 <> h1 ->
  getChangedFilesInternal h0 h1 (with_git g1 r) = Err e ->
  gg_Worktree g1 = None -> gg_Pull g1 = (AlreadyUpToDate, g1) ->
  let sync := ForceSync config loaderConfig validatePolicy base getAuth disk t in
  exists er r1 r2, sync (Some r, m) = Some (Some er, (Some r1, m)) /\
    sync (Some r1, m) = Some (None, (Some r2, m)) /\ head_is r2 h1.
Proof.
  intros Hmode Hauth Hg Hh Hw Hp Hh1 Hne Hdiff Hw1 Hp1 sync. unfold sync, ForceSync, notGit. rewrite Hmode, Hauth.
  change (String.eqb "git" "git") with true. cbn [negb orb].
  unfold Pull at 1. rewrite Hg, Hh, Hw, Hp. unfold afterPull. cbv zeta.
  change (rp_repo (successfulPull (with_git g1 r))) with (Some g1). cbv beta iota. rewrite Hh1.
  apply String.eqb_neq in Hne. rewrite Hne.
  change (getChangedFilesInternal h0 h1 (successfulPull (with_git g1 r))) with (getChangedFilesInternal h0 h1 (with_git g1 r)).
  rewrite Hdiff. eexists _, _, _. split; [reflexivity|].
  unfold Pull. change (rp_repo (successfulPull (with_git g1 r))) with (Some g1). cbv beta iota. rewrite Hh1, Hw1, Hp1.
  unfold afterPull. cbv zeta. cbn [rp_repo successfulPull with_git]. rewrite Hh1, String.eqb_refl. cbn [negb pr_HadChanges].
  split; [reflexivity|]. by exists g1.
Qed.

(** The reload callback of the watcher. *)
Definition reloadCallback (disk : Disk) (t : LoadTimes) (r : Repository G) (m : DefaultPolicyManager) :
    option PmErr * DefaultPolicyManager :=
  default (None, m) (reloadFromGit config loaderConfig validatePolicy base disk t r m).

(** The watcher rolls back to what was active.  When the policies of a new
    commit are rejected and the rollback succeeds, the repository is at the last
    active commit again and its policies are active; when they are accepted,
    they are active and the commit is recorded. *)
Theorem watcher_reload_outcome disk t r w m h newSHA e r' w' m' :
  manager_ok m -> clean r -> head_is r h ->
  performReload (reloadCallback disk t) newSHA r w m = (e, (r', w', m')) ->
  match offered r h with
  | Some ps => e = None /\ r' = r /\ w_lastCommitSHA w' = newSHA /\ reg_policies (mg_registry m') = policy_map ps
  | None =>
      w_lastCommitSHA w' = w_lastCommitSHA w /\
      ((exists er, e = Some (Wrapped "policy validation failed" er)) ->
       exists ps, head_is r' (w_lastCommitSHA w) /\ offered r' (w_lastCommitSHA w) = Some ps /\
         reg_policies (mg_registry m') = policy_map ps)
  end.
Proof.
  intros Hm Hcl Hh. unfold performReload, reloadCallback at 1.
  destruct (reloadFromGit_spec disk t r m h Hm Hcl Hh) as (e1 & m1 & Hrl & Hm1 & Hspec). rewrite Hrl. cbn [default].
  destruct (offered r h) as [ps|].
  - destruct Hspec as [-> Hreg]. cbn. intros [= <- <- <- <-]. done.
  - destruct Hspec as [[er ->] Hsame]. cbn [default id from_option]. unfold rollbackToPrevious.
    change (w_lastCommitSHA (failedReload w)) with (w_lastCommitSHA w).
    destruct (Rollback (w_lastCommitSHA w) r) as [[er2|] r1] eqn:Hrb.
    { intros [= <- <- <- <-]. split; [done|]. by intros [? [=]]. }
    pose proof (Rollback_head _ _ _ Hrb) as Hhead. unfold reloadCallback.
    destruct (reloadFromGit_spec disk t r1 m1 _ Hm1 (Rollback_clean _ _ _ Hrb Hcl) Hhead) as (e2 & m2 & Hrl2 & _ & Hspec2). rewrite Hrl2. cbn [default].
    destruct e2 as [er2|].
    { intros [= <- <- <- <-]. split; [done|]. by intros [? [=]]. }
    intros [= <- <- <- <-]. split; [done|]. intros _.
    destruct (offered r1 (w_lastCommitSHA w)) as [ps|] eqn:Ho; [|by destruct Hspec2 as [[? ?] _]].
    exists ps. destruct Hspec2. done.
Qed.

End git_theorems.

(** ** Examples *)

(** A git repository that holds one policy file per commit; the commit [bad]
    has none. *)
Record ToyGit := mkToyGit { tg_head : string; tg_remote : string; tg_diff : bool }.

Definition toy_commit (sha : string) : Disk :=
  ex_disk (if String.eqb sha "bad" then ∅ else {[ "/r/policy.yaml" := ex_policy sha "1" "/r/policy.yaml" ]}) ∅ (leaf "r").

#[export] Instance toy_git : GoGit ToyGit := {|
  gg_Head g := Ok (tg_head g);
  gg_Worktree _ := None;
  gg_Pull g := if String.eqb (tg_head g) (tg_remote g) then (AlreadyUpToDate, g)
               else (Pulled, mkToyGit (tg_remote g) (tg_remote g) (tg_diff g));
  gg_CommitObject _ _ := None;
  gg_Tree _ _ := None;
  gg_Diff _ _ g := if tg_diff g then Ok [("", "policy.yaml")] else Err "object not found";
  gg_Checkout sha g := (None, mkToyGit sha (tg_remote g) (tg_diff g));
  gg_disk g := toy_commit (tg_head g);
|}.

#[export] Instance toy_git_laws : GoGitLaws ToyGit.
Proof.
  refine {| commit_disk := toy_commit |}.
  - intros g o g' _ _ _ h Hh. injection Hh as <-. reflexivity.
  - intros g sha g' _ _ h Hh. injection Hh as <-. reflexivity.
  - intros g sha g' Hc. injection Hc as <-. reflexivity.
Defined.

Definition toy_fmt : Fmt := {| Quote s := s; DurationString _ := "" |}.
Definition git_cfg : PolicyCfg := mkPolicyCfg "git" "" true false.
Definition toy_repo (head remote : string) (diff : bool) : Repository ToyGit :=
  mkRepository (Some (mkToyGit head remote diff)) "/r" "policy.yaml" "" 0 0.
Definition toy_times : LoadTimes := mkLoadTimes 1 2 3.
Definition all_valid (p : Policy) : option PmErr := None.

Definition toy_sync := ForceSync (H := some_range) (H0 := merge_sort_slice) (H1 := ex_hash) (H2 := toy_fmt)
  git_cfg DefaultLoaderConfig all_valid "/r" None (toy_commit "bad") toy_times.

(** The manager after loading the commit [a]. *)
Definition toy_manager : DefaultPolicyManager :=
  mkManager (mkPolicyRegistry {[ "a" := ex_policy "a" "1" "/r/policy.yaml" ]} "" 0) 0 None [ex_policy "a" "1" "/r/policy.yaml"].

Lemma toy_clean head remote diff : clean (toy_repo head remote diff).
Proof. intros g [= <-] h [= <-]. reflexivity. Qed.

Lemma toy_in_sync diff remote :
  in_sync (H := some_range) (H2 := toy_fmt) git_cfg DefaultLoaderConfig all_valid "/r" (toy_repo "a" remote diff) toy_manager.
Proof.
  exists "a", [ex_policy "a" "1" "/r/policy.yaml"]. split_and!; [by eexists|vm_compute; reflexivity..].
Qed.

Lemma force_sync_keeps_in_sync_witness :
  exists er r' m', toy_sync (Some (toy_repo "a" "bad" true), toy_manager) =
      Some (Some (Wrapped "failed to reload policies" er), (Some r', m')) /\
    in_sync (H := some_range) (H2 := toy_fmt) git_cfg DefaultLoaderConfig all_valid "/r" r' m'.
Proof.
  destruct (force_sync_keeps_in_sync (H := some_range) (H0 := merge_sort_slice) (H1 := ex_hash) (H2 := toy_fmt)
    git_cfg DefaultLoaderConfig all_valid "/r" None (toy_commit "bad") toy_times (toy_repo "a" "bad" true) toy_manager
    eq_refl ltac:(vm_compute; reflexivity) (toy_clean _ _ _) (toy_in_sync _ _)) as (e & r' & m' & Hs & _ & Hr & _).
  assert (He : (fun o => match o with Some (Some (Wrapped m _), _) => m | _ => "" end)
    (toy_sync (Some (toy_repo "a" "bad" true), toy_manager)) = "failed to reload policies") by (vm_compute; reflexivity).
  change (toy_sync (Some (toy_repo "a" "bad" true), toy_manager) = Some (e, (Some r', m'))) in Hs.
  rewrite Hs in He. destruct e as [[ | | | | | |msg er| ]|]; try discriminate He. cbv beta iota in He. subst msg.
  exists er, r', m'. split; [exact Hs|]. exact (proj1 (Hr er eq_refl)).
Defined.

Lemma rollback_to_rejected_commit_witness :
  exists e m', RollbackToCommit (H := some_range) (H0 := merge_sort_slice) (H1 := ex_hash) (H2 := toy_fmt)
      git_cfg DefaultLoaderConfig all_valid "/r" (toy_commit "bad") toy_times "bad" (Some (toy_repo "a" "a" true), toy_manager) =
      Some (Some e, (Some (toy_repo "bad" "a" true), m')) /\
    ~ in_sync (H := some_range) (H2 := toy_fmt) git_cfg DefaultLoaderConfig all_valid "/r" (toy_repo "bad" "a" true) m'.
Proof.
  destruct (rollback_to_rejected_commit (H := some_range) (H0 := merge_sort_slice) (H1 := ex_hash) (H2 := toy_fmt)
    git_cfg DefaultLoaderConfig all_valid "/r" (toy_commit "bad") toy_times "bad" (toy_repo "a" "a" true)
    (toy_repo "bad" "a" true) toy_manager eq_refl ltac:(vm_compute; reflexivity) (toy_clean _ _ _) eq_refl ltac:(vm_compute; reflexivity))
    as (e & m' & Hr & _ & _ & Hn).
  exists e, m'. split; [exact Hr|exact Hn].
Defined.

Lemma failed_diff_loses_update_witness :
  exists er r1 r2, toy_sync (Some (toy_repo "a" "b" false), toy_manager) = Some (Some er, (Some r1, toy_manager)) /\
    toy_sync (Some r1, toy_manager) = Some (None, (Some r2, toy_manager)) /\ head_is r2 "b".
Proof.
  apply (failed_diff_loses_update (H := some_range) (H0 := merge_sort_slice) (H1 := ex_hash) (H2 := toy_fmt)
    git_cfg DefaultLoaderConfig all_valid "/r" None (toy_commit "bad") toy_times (toy_repo "a" "b" false) toy_manager
    (mkToyGit "a" "b" false) (mkToyGit "b" "b" false) "a" "b"
    (Wrapped "failed to diff trees" (Plain "object not found"))); try reflexivity. congruence.
Defined.

Lemma watcher_reload_outcome_witness :
  let w := mkWatcher "a" true false None 0 0 0 0 in
  let reload := reloadCallback (H := some_range) (H0 := merge_sort_slice) (H1 := ex_hash) (H2 := toy_fmt)
    git_cfg DefaultLoaderConfig all_valid "/r" (toy_commit "bad") toy_times in
  exists e r' w' m', performReload reload "bad" (toy_repo "bad" "bad" true) w toy_manager = (Some e, (r', w', m')) /\
    head_is r' "a" /\ w_lastCommitSHA w' = "a".
Proof.
  intros w reload.
  assert (He : (fun o => match o with (Some (Wrapped m _), _) => m | _ => "" end)
    (performReload reload "bad" (toy_repo "bad" "bad" true) w toy_manager) = "policy validation failed") by (vm_compute; reflexivity).
  assert (Hoff : offered (H := some_range) (H2 := toy_fmt) git_cfg DefaultLoaderConfig all_valid "/r"
    (toy_repo "bad" "bad" true) "bad" = None) by (vm_compute; reflexivity).
  destruct (performReload reload "bad" (toy_repo "bad" "bad" true) w toy_manager) as [e [[r' w'] m']] eqn:Hp.
  pose proof (watcher_reload_outcome (H := some_range) (H0 := merge_sort_slice) (H1 := ex_hash) (H2 := toy_fmt)
    git_cfg DefaultLoaderConfig all_valid "/r" (toy_commit "bad") toy_times (toy_repo "bad" "bad" true) w toy_manager
    "bad" "bad" e r' w' m' ltac:(vm_compute; reflexivity) (toy_clean _ _ _) ltac:(by eexists) Hp) as Hout.
  rewrite Hoff in Hout. destruct Hout as [Hw Hr].
  destruct e as [[ | | | | | |msg er| ]|]; try discriminate He. cbv beta iota in He. subst msg.
  destruct (Hr ltac:(by exists er)) as (ps & Hh & _). eexists _, r', w', m'. split; [reflexivity|]. split; [exact Hh|exact Hw].
Defined.

(** With a directory as source the base of the resolver is the parent of that
    directory: an include of a sibling directory is accepted. *)
Example directory_base_is_parent :
  let disk := ex_disk {[ "/p/a.yaml" := including "a" "/p/a.yaml" ["../other/x.yaml"]; "/other/x.yaml" := including "x" "" [] ]}
                ∅ (folder "p" [leaf "a.yaml"]) in
  let cfg := mkPolicyCfg "file" "/p" true false in
  (fun o => match o with Some (Ok ps) => p_Name <$> ps | _ => [] end)
    (loadPoliciesFromSource (H := some_range) cfg DefaultLoaderConfig (resolverBase cfg disk) None disk) = ["x"; "a"].
Proof. vm_compute. reflexivity. Qed.

(** In git mode the base is still taken from the file path setting, so an
    include inside the repository counts as outside. *)
Example git_includes_rejected :
  let disk := ex_disk {[ "/r/a.yaml" := including "a" "/r/a.yaml" ["x.yaml"]; "/r/x.yaml" := including "x" "" [] ]}
                ∅ (leaf "r") in
  let cfg := mkPolicyCfg "git" "/etc/policies.yaml" true false in
  (fun o => match o with Some (Err (Wrapped _ (IncludeError _ _ _ m _))) => m | _ => "" end)
    (loadPoliciesFromSource (H := some_range) cfg DefaultLoaderConfig (resolverBase cfg disk) (Some "/r/a.yaml") disk) =
  "include path outside of policy directory (directory traversal prevented)".
Proof. vm_compute. reflexivity. Qed.
