(* ===== verification/ConfigTypes.v ===== *)
(** * The gateway's configuration

    The structs of [pkg/config/config.go], with the names and the order of their
    fields; the routing section is the record of [Router] and the processing
    section the one of [Processing], which read them.  A map that is only read
    with [range], [len] or an index is a [gmap] ([nil] and empty behave alike);
    the maps that [ApplyDefaults] compares with [nil] are [option]s. *)

From Stdlib Require Import ZArith.
From stdpp Require Import base option list strings gmap.
From S2P Require Import Prelude Float64 Router ProcTokens ProcContent Processing.

(** ** Proxy and providers *)

Record CORSConfig := mkCORSConfig {
  cors_Enabled : bool;
  cors_AllowedOrigins : list string;
  cors_AllowedMethods : list string;
  cors_AllowedHeaders : list string;
  cors_ExposedHeaders : list string;
  cors_MaxAge : Z;
  cors_AllowCredentials : bool;
}.

Record ProxyConfig := mkProxyConfig {
  px_ListenAddress : string;
  px_ReadTimeout : Duration;
  px_WriteTimeout : Duration;
  px_IdleTimeout : Duration;
  px_ShutdownTimeout : Duration;
  px_MaxHeaderBytes : Z;
  px_CORS : CORSConfig;
}.

Record ProviderConfig := mkProviderConfig {
  pr_BaseURL : string;
  pr_APIKey : string;
  pr_Timeout : Duration;
  pr_MaxRetries : Z;
}.

(** ** Policy *)

Record GitAuthConfig := mkGitAuthConfig {
  ga_Type : string;
  ga_Token : string;
  ga_SSHKeyPath : string;
  ga_SSHKeyPassphrase : string;
}.

Record GitPollConfig := mkGitPollConfig {
  gp_Enabled : bool;
  gp_Interval : Duration;
  gp_Timeout : Duration;
}.

Record GitCloneConfig := mkGitCloneConfig {
  gc_Depth : Z;
  gc_LocalPath : string;
  gc_CleanOnStart : bool;
}.

Record GitPolicyConfig := mkGitPolicyConfig {
  gt_Enabled : bool;
  gt_Repository : string;
  gt_Branch : string;
  gt_Path : string;
  gt_Auth : GitAuthConfig;
  gt_Poll : GitPollConfig;
  gt_Clone : GitCloneConfig;
}.

Record PolicyValidationConfig := mkPolicyValidationConfig { pv_Enabled : bool; pv_Strict : bool }.

Record PolicyConfig := mkPolicyConfig {
  po_Mode : string;
  po_FilePath : string;
  po_GitRepo : string;
  po_GitBranch : string;
  po_GitPath : string;
  po_Git : GitPolicyConfig;
  po_Watch : bool;
  po_Validation : PolicyValidationConfig;
}.

(** ** Evidence *)

Record SQLiteConfig := mkSQLiteConfig {
  sq_Path : string;
  sq_MaxOpenConns : Z;
  sq_MaxIdleConns : Z;
  sq_WALMode : bool;
  sq_BusyTimeout : Duration;
}.

Record RecorderConfig := mkRecorderConfig {
  re_AsyncBuffer : Z;
  re_WriteTimeout : Duration;
  re_HashRequest : bool;
  re_HashResponse : bool;
  re_RedactAPIKeys : bool;
  re_MaxFieldLength : Z;
}.

Record RetentionConfig := mkRetentionConfig {
  rt_Days : Z;
  rt_PruneSchedule : string;
  rt_ArchiveBeforeDelete : bool;
  rt_ArchivePath : string;
  rt_MaxRecords : Z;
}.

Record QueryConfig := mkQueryConfig {
  qu_DefaultLimit : Z;
  qu_MaxLimit : Z;
  qu_Timeout : Duration;
}.

Record ExportConfig := mkExportConfig {
  ex_JSONPretty : bool;
  ex_CSVIncludeHeader : bool;
  ex_MaxExportSize : Z;
}.

Record PostgresConfig := mkPostgresConfig {
  pg_Host : string;
  pg_Port : Z;
  pg_Database : string;
  pg_User : string;
  pg_Password : string;
  pg_SSLMode : string;
}.

Record S3Config := mkS3Config {
  s3_Bucket : string;
  s3_Region : string;
  s3_Prefix : string;
  s3_Endpoint : string;
}.

Record EvidenceConfig := mkEvidenceConfig {
  ev_Enabled : bool;
  ev_Backend : string;
  ev_SQLite : SQLiteConfig;
  ev_Postgres : PostgresConfig;
  ev_S3 : S3Config;
  ev_Recorder : RecorderConfig;
  ev_Retention : RetentionConfig;
  ev_Query : QueryConfig;
  ev_Export : ExportConfig;
  ev_SigningKeyPath : string;
}.

(** ** Telemetry *)

Record RedactPattern := mkRedactPattern { rp_Name : string; rp_Pattern : string; rp_Replacement : string }.

Record LoggingConfig := mkLoggingConfig {
  lg_Level : string;
  lg_Format : string;
  lg_AddSource : bool;
  lg_RedactPII : bool;
  lg_BufferSize : Z;
  lg_RedactPatterns : list RedactPattern;
}.

Record MetricsConfig := mkMetricsConfig {
  mt_Enabled : bool;
  mt_Path : string;
  mt_Port : Z;
  mt_Namespace : string;
  mt_Subsystem : string;
  mt_RequestDurationBuckets : list float64;
  mt_TokenCountBuckets : list float64;
}.

Record OTLPConfig := mkOTLPConfig { ot_Insecure : bool; ot_Timeout : Duration }.

Record JaegerConfig := mkJaegerConfig { ja_AgentHost : string; ja_AgentPort : Z }.

Record TracingConfig := mkTracingConfig {
  tr_Enabled : bool;
  tr_Sampler : string;
  tr_SampleRatio : float64;
  tr_Exporter : string;
  tr_Endpoint : string;
  tr_ServiceName : string;
  tr_OTLP : OTLPConfig;
  tr_Jaeger : JaegerConfig;
}.

Record HealthConfig := mkHealthConfig {
  hc_Enabled : bool;
  hc_LivenessPath : string;
  hc_ReadinessPath : string;
  hc_VersionPath : string;
  hc_CheckTimeout : Duration;
  hc_MinHealthyProviders : Z;
}.

Record TelemetryConfig := mkTelemetryConfig {
  te_Logging : LoggingConfig;
  te_Metrics : MetricsConfig;
  te_Tracing : TracingConfig;
  te_Health : HealthConfig;
}.

(** ** Security *)

Record MTLSConfig := mkMTLSConfig {
  mtls_Enabled : bool;
  mtls_ClientCAFile : string;
  mtls_ClientAuthType : string;
  mtls_VerifyClientCert : bool;
  mtls_IdentitySource : string;
}.

Record TLSConfig := mkTLSConfig {
  tls_Enabled : bool;
  tls_CertFile : string;
  tls_KeyFile : string;
  tls_MinVersion : string;
  tls_CipherSuites : list string;
  tls_ReloadInterval : string;
  tls_MTLS : MTLSConfig;
}.

Record SecretProviderConfig := mkSecretProviderConfig {
  sp_Type : string;
  sp_Enabled : bool;
  sp_Prefix : string;
  sp_Path : string;
  sp_Watch : bool;
  sp_Region : string;
  sp_KeyID : string;
  sp_Project : string;
  sp_Location : string;
  sp_KeyRing : string;
  sp_Key : string;
  sp_Address : string;
  sp_Token : string;
  sp_VaultPath : string;
}.

Record SecretsCacheConfig := mkSecretsCacheConfig { sca_Enabled : bool; sca_TTL : string; sca_MaxSize : Z }.

Record SecretsConfig := mkSecretsConfig {
  se_Providers : list SecretProviderConfig;
  se_Cache : SecretsCacheConfig;
}.

Record APIKeySource := mkAPIKeySource { ks_Type : string; ks_Name : string; ks_Scheme : string }.

Record APIKeyConfig := mkAPIKeyConfig {
  ak_Key : string;
  ak_UserID : string;
  ak_TeamID : string;
  ak_Enabled : bool;
  ak_RateLimit : string;
}.

Record AuthenticationConfig := mkAuthenticationConfig {
  au_Enabled : bool;
  au_Sources : list APIKeySource;
  au_Keys : list APIKeyConfig;
}.

Record SecurityConfig := mkSecurityConfig {
  sy_TLS : TLSConfig;
  sy_Secrets : SecretsConfig;
  sy_Authentication : AuthenticationConfig;
}.

(** ** Limits *)

Record BudgetLimits := mkBudgetLimits { bl_Hourly : float64; bl_Daily : float64; bl_Monthly : float64 }.

Record BudgetsConfig := mkBudgetsConfig {
  bu_Enabled : bool;
  bu_AlertThreshold : float64;
  bu_ByAPIKey : gmap string BudgetLimits;
  bu_ByUser : gmap string BudgetLimits;
  bu_ByTeam : gmap string BudgetLimits;
}.

Record RateLimits := mkRateLimits {
  rl_RequestsPerSecond : Z;
  rl_RequestsPerMinute : Z;
  rl_RequestsPerHour : Z;
  rl_TokensPerMinute : Z;
  rl_TokensPerHour : Z;
  rl_MaxConcurrent : Z;
}.

Record RateLimitsConfig := mkRateLimitsConfig {
  ra_Enabled : bool;
  ra_ByAPIKey : gmap string RateLimits;
  ra_ByUser : gmap string RateLimits;
  ra_ByTeam : gmap string RateLimits;
}.

Record EnforcementConfig := mkEnforcementConfig {
  en_Action : string;
  en_QueueDepth : Z;
  en_QueueTimeout : Duration;
  en_ModelDowngrades : gmap string string;
}.

Record LimitsSQLiteConfig := mkLimitsSQLiteConfig { ls_Path : string; ls_SnapshotInterval : Duration }.

Record LimitsMemoryConfig := mkLimitsMemoryConfig { lm_MaxEntries : Z; lm_CleanupInterval : Duration }.

Record LimitsStorageConfig := mkLimitsStorageConfig {
  st_Backend : string;
  st_SQLite : LimitsSQLiteConfig;
  st_Memory : LimitsMemoryConfig;
}.

Record LimitsConfig := mkLimitsConfig {
  li_Budgets : BudgetsConfig;
  li_RateLimits : RateLimitsConfig;
  li_Enforcement : EnforcementConfig;
  li_Storage : LimitsStorageConfig;
}.

(** ** The whole configuration *)

Record Config := mkConfig {
  c_Proxy : ProxyConfig;
  c_Providers : gmap string ProviderConfig;
  c_Policy : PolicyConfig;
  c_Evidence : EvidenceConfig;
  c_Processing : ProcessingConfig;
  c_Routing : RoutingConfig;
  c_Limits : LimitsConfig;
  c_Telemetry : TelemetryConfig;
  c_Security : SecurityConfig;
}.

(** ** Zero values

    [var cfg Config]: what a YAML document that sets nothing leaves. *)

Definition zero_provider : ProviderConfig := mkProviderConfig "" "" 0 0.

Definition zero_proxy : ProxyConfig := mkProxyConfig "" 0 0 0 0 0 (mkCORSConfig false [] [] [] [] 0 false).

Definition zero_policy : PolicyConfig :=
  mkPolicyConfig "" "" "" "" ""
    (mkGitPolicyConfig false "" "" "" (mkGitAuthConfig "" "" "" "") (mkGitPollConfig false 0 0)
       (mkGitCloneConfig 0 "" false))
    false (mkPolicyValidationConfig false false).

Definition zero_evidence : EvidenceConfig :=
  mkEvidenceConfig false "" (mkSQLiteConfig "" 0 0 false 0) (mkPostgresConfig "" 0 "" "" "" "")
    (mkS3Config "" "" "" "") (mkRecorderConfig 0 0 false false false 0) (mkRetentionConfig 0 "" false "" 0)
    (mkQueryConfig 0 0 0) (mkExportConfig false false 0) "".

Definition zero_processing : ProcessingConfig :=
  mkProcessingConfig (mkTokensConfig "" 0 None) (mkCostsConfig None)
    (mkContentConfig (mkPIIConfig false [] false) (mkSensitiveConfig false "" []) (mkInjectionConfig false fzero []))
    (mkConversationConfig None fzero).

Definition zero_routing : RoutingConfig :=
  mkRoutingConfig "" (mkStickyConfig 0 0 "") None None (mkFallbackConfig false 0 "") (mkHealthBasedConfig false 0).

Definition zero_limits : LimitsConfig :=
  mkLimitsConfig (mkBudgetsConfig false fzero ∅ ∅ ∅) (mkRateLimitsConfig false ∅ ∅ ∅)
    (mkEnforcementConfig "" 0 0 ∅) (mkLimitsStorageConfig "" (mkLimitsSQLiteConfig "" 0) (mkLimitsMemoryConfig 0 0)).

Definition zero_telemetry : TelemetryConfig :=
  mkTelemetryConfig (mkLoggingConfig "" "" false false 0 []) (mkMetricsConfig false "" 0 "" "" [] [])
    (mkTracingConfig false "" fzero "" "" "" (mkOTLPConfig false 0) (mkJaegerConfig "" 0))
    (mkHealthConfig false "" "" "" 0 0).

Definition zero_security : SecurityConfig :=
  mkSecurityConfig (mkTLSConfig false "" "" "" [] "" (mkMTLSConfig false "" "" false ""))
    (mkSecretsConfig [] (mkSecretsCacheConfig false "" 0)) (mkAuthenticationConfig false [] []).

Definition zero_config : Config :=
  mkConfig zero_proxy ∅ zero_policy zero_evidence zero_processing zero_routing zero_limits zero_telemetry zero_security.
