(* ===== verification/ConfigDefaults.v ===== *)
(** * Default values

    [ApplyDefaults] of [pkg/config/defaults.go], one definition per section of
    the function.  Every assignment of the source has the shape [if field is its
    zero value { field = default }]; [or_str], [or_int], [or_float], [or_bool],
    [or_list] and [or_nil] are that shape for each kind of field. *)

From Stdlib Require Import ZArith Lia.
From stdpp Require Import base option list strings gmap.
From S2P Require Import Prelude Float64 Router ProcTokens ProcContent Processing ConfigTypes.

(** ** The shape of a default *)

Definition or_str (v d : string) : string := if String.eqb v "" then d else v.
Definition or_int (v d : Z) : Z := if v =? 0 then d else v.
Definition or_float (v d : float64) : float64 := if feq v fzero then d else v.
Definition or_bool (v d : bool) : bool := if negb v then d else v.
Definition or_list (v d : list string) : list string := match v with [] => d | _ => v end.
Definition or_nil {A} (v : option A) (d : A) : option A := match v with None => Some d | Some _ => v end.

(** ** Sections of [ApplyDefaults] *)

Definition applyCORSDefaults (c : CORSConfig) : CORSConfig :=
  let hasAnyConfig :=
    (0 <? Z.of_nat (length (cors_AllowedOrigins c))) || (0 <? Z.of_nat (length (cors_AllowedMethods c))) ||
    (0 <? Z.of_nat (length (cors_AllowedHeaders c))) || (0 <? Z.of_nat (length (cors_ExposedHeaders c))) ||
    (0 <? cors_MaxAge c) in
  let enabled :=
    if negb (cors_Enabled c) then if negb hasAnyConfig then true else cors_Enabled c else cors_Enabled c in
  mkCORSConfig enabled
    (or_list (cors_AllowedOrigins c) ["*"])
    (or_list (cors_AllowedMethods c) ["GET"; "POST"; "PUT"; "DELETE"; "OPTIONS"])
    (or_list (cors_AllowedHeaders c) ["Authorization"; "Content-Type"; "X-Request-ID"; "X-User-ID"])
    (or_list (cors_ExposedHeaders c) ["X-Request-ID"])
    (or_int (cors_MaxAge c) 3600)
    (cors_AllowCredentials c).

Definition applyProxyDefaults (c : ProxyConfig) : ProxyConfig :=
  mkProxyConfig (or_str (px_ListenAddress c) "127.0.0.1:8080")
    (or_int (px_ReadTimeout c) (30 * Second))
    (or_int (px_WriteTimeout c) (30 * Second))
    (or_int (px_IdleTimeout c) (120 * Second))
    (or_int (px_ShutdownTimeout c) (30 * Second))
    (or_int (px_MaxHeaderBytes c) 1048576)
    (applyCORSDefaults (px_CORS c)).

Definition applyProviderDefaults (p : ProviderConfig) : ProviderConfig :=
  mkProviderConfig (pr_BaseURL p) (pr_APIKey p) (or_int (pr_Timeout p) (60 * Second)) (or_int (pr_MaxRetries p) 3).

(** [for name, provider := range cfg.Providers { ...; cfg.Providers[name] = provider }] *)
Definition applyProvidersDefaults `{MapRange} (m : gmap string ProviderConfig) : gmap string ProviderConfig :=
  foldl (fun acc '(name, provider) => <[name := applyProviderDefaults provider]> acc) m (range m).

Definition applyPolicyDefaults (c : PolicyConfig) : PolicyConfig :=
  mkPolicyConfig (or_str (po_Mode c) "file") (or_str (po_FilePath c) "./policies.yaml") (po_GitRepo c)
    (or_str (po_GitBranch c) "main") (or_str (po_GitPath c) "policies.yaml") (po_Git c)
    (or_bool (po_Watch c) false) (po_Validation c).

Definition applySQLiteDefaults (c : SQLiteConfig) : SQLiteConfig :=
  mkSQLiteConfig (or_str (sq_Path c) "data/evidence.db") (or_int (sq_MaxOpenConns c) 10)
    (or_int (sq_MaxIdleConns c) 5) (or_bool (sq_WALMode c) true) (or_int (sq_BusyTimeout c) (5 * Second)).

Definition applyRecorderDefaults (c : RecorderConfig) : RecorderConfig :=
  mkRecorderConfig (or_int (re_AsyncBuffer c) 1000) (or_int (re_WriteTimeout c) (5 * Second))
    (or_bool (re_HashRequest c) true) (or_bool (re_HashResponse c) true) (or_bool (re_RedactAPIKeys c) true)
    (or_int (re_MaxFieldLength c) 500).

Definition applyRetentionDefaults (c : RetentionConfig) : RetentionConfig :=
  mkRetentionConfig (or_int (rt_Days c) 90) (or_str (rt_PruneSchedule c) "0 3 * * *")
    (or_bool (rt_ArchiveBeforeDelete c) false) (or_str (rt_ArchivePath c) "data/archives/")
    (or_int (rt_MaxRecords c) 0).

Definition applyQueryDefaults (c : QueryConfig) : QueryConfig :=
  mkQueryConfig (or_int (qu_DefaultLimit c) 100) (or_int (qu_MaxLimit c) 10000) (or_int (qu_Timeout c) (30 * Second)).

Definition applyExportDefaults (c : ExportConfig) : ExportConfig :=
  mkExportConfig (or_bool (ex_JSONPretty c) true) (or_bool (ex_CSVIncludeHeader c) true)
    (or_int (ex_MaxExportSize c) 1000000).

Definition applyPostgresDefaults (c : PostgresConfig) : PostgresConfig :=
  mkPostgresConfig (pg_Host c) (or_int (pg_Port c) 5432) (pg_Database c) (pg_User c) (pg_Password c)
    (or_str (pg_SSLMode c) "require").

Definition applyEvidenceDefaults (c : EvidenceConfig) : EvidenceConfig :=
  mkEvidenceConfig (ev_Enabled c) (or_str (ev_Backend c) "sqlite") (applySQLiteDefaults (ev_SQLite c))
    (applyPostgresDefaults (ev_Postgres c)) (ev_S3 c) (applyRecorderDefaults (ev_Recorder c))
    (applyRetentionDefaults (ev_Retention c)) (applyQueryDefaults (ev_Query c)) (applyExportDefaults (ev_Export c))
    (ev_SigningKeyPath c).

Definition applyTelemetryDefaults (c : TelemetryConfig) : TelemetryConfig :=
  let l := te_Logging c in
  let m := te_Metrics c in
  let t := te_Tracing c in
  mkTelemetryConfig
    (mkLoggingConfig (or_str (lg_Level l) "info") (or_str (lg_Format l) "json") (lg_AddSource l) (lg_RedactPII l)
       (lg_BufferSize l) (lg_RedactPatterns l))
    (mkMetricsConfig (mt_Enabled m) (or_str (mt_Path m) "/metrics") (mt_Port m) (mt_Namespace m) (mt_Subsystem m)
       (mt_RequestDurationBuckets m) (mt_TokenCountBuckets m))
    (mkTracingConfig (tr_Enabled t) (tr_Sampler t) (or_float (tr_SampleRatio t) (of_int 1)) (tr_Exporter t)
       (tr_Endpoint t) (tr_ServiceName t) (tr_OTLP t) (tr_Jaeger t))
    (te_Health c).

(** ** [applyProcessingDefaults], which also fills the limits section *)

Definition default_token_models : gmap string float64 := list_to_map [
  ("gpt-4", of_int 4); ("gpt-3.5-turbo", of_int 4); ("claude-3-opus", flit 35 10);
  ("claude-3-sonnet", flit 35 10); ("claude-3-haiku", flit 35 10); ("default", of_int 4)].

Definition default_context_windows : gmap string Z := list_to_map [
  ("gpt-4", 8192); ("gpt-4-turbo", 128000); ("gpt-3.5-turbo", 4096); ("claude-3-opus", 200000);
  ("claude-3-sonnet", 200000); ("claude-3-haiku", 200000); ("default", 4096)].

Definition applyTokensDefaults (c : TokensConfig) : TokensConfig :=
  mkTokensConfig (or_str (tk_Estimator c) "simple") (or_int (tk_CacheSize c) 100)
    (or_nil (tk_ModelsField c) default_token_models).

Definition applyCostsDefaults (c : CostsConfig) : CostsConfig :=
  mkCostsConfig (or_nil (PricingField c) (Pricing default_pricing)).

Definition applyContentDefaults (c : ContentConfig) : ContentConfig :=
  let p := PII c in
  let s := Sensitive c in
  let i := Injection c in
  mkContentConfig
    (mkPIIConfig (pii_Enabled p) (or_list (pii_Types p) ["email"; "phone"; "ssn"; "credit_card"; "ip_address"])
       (RedactInLogs p))
    (mkSensitiveConfig (sens_Enabled s) (or_str (SeverityThreshold s) "medium")
       (or_list (sens_Categories s) ["profanity"; "violence"; "hate_speech"; "adult_content"]))
    (mkInjectionConfig (inj_Enabled i) (or_float (ConfidenceThreshold i) (flit 7 10))
       (or_list (inj_Patterns i) ["ignore previous instructions"; "disregard system prompt"; "you are now";
          "new instructions"; "forget everything"])).

Definition applyConversationDefaults (c : ConversationConfig) : ConversationConfig :=
  mkConversationConfig (or_nil (MaxContextWindowField c) default_context_windows)
    (or_float (WarnThreshold c) (flit 8 10)).

Definition applyProcessingDefaults (c : ProcessingConfig) : ProcessingConfig :=
  mkProcessingConfig (applyTokensDefaults (Tokens c)) (applyCostsDefaults (Costs c))
    (applyContentDefaults (Content c)) (applyConversationDefaults (Conversation c)).

Definition applyLimitsDefaults (c : LimitsConfig) : LimitsConfig :=
  let b := li_Budgets c in
  let e := li_Enforcement c in
  let s := li_Storage c in
  mkLimitsConfig
    (mkBudgetsConfig (bu_Enabled b) (or_float (bu_AlertThreshold b) (flit 8 10)) (bu_ByAPIKey b) (bu_ByUser b)
       (bu_ByTeam b))
    (li_RateLimits c)
    (mkEnforcementConfig (or_str (en_Action e) "block") (or_int (en_QueueDepth e) 100)
       (or_int (en_QueueTimeout e) (30 * Second)) (en_ModelDowngrades e))
    (mkLimitsStorageConfig (or_str (st_Backend s) "memory")
       (mkLimitsSQLiteConfig (or_str (ls_Path (st_SQLite s)) "/var/lib/mercator/limits.db")
          (or_int (ls_SnapshotInterval (st_SQLite s)) (5 * Minute)))
       (mkLimitsMemoryConfig (or_int (lm_MaxEntries (st_Memory s)) 100000)
          (or_int (lm_CleanupInterval (st_Memory s)) Minute))).

Definition ApplyDefaults `{MapRange} (c : Config) : Config :=
  mkConfig (applyProxyDefaults (c_Proxy c)) (applyProvidersDefaults (c_Providers c)) (applyPolicyDefaults (c_Policy c))
    (applyEvidenceDefaults (c_Evidence c)) (applyProcessingDefaults (c_Processing c)) (c_Routing c)
    (applyLimitsDefaults (c_Limits c)) (applyTelemetryDefaults (c_Telemetry c)) (c_Security c).

(** ** Setting a default twice *)

Lemma or_str_idem v d : or_str (or_str v d) d = or_str v d.
Proof. unfold or_str. destruct (String.eqb v "") eqn:E; [by destruct (String.eqb d "")|by rewrite E]. Qed.

Lemma or_int_idem v d : or_int (or_int v d) d = or_int v d.
Proof. unfold or_int. destruct (v =? 0) eqn:E; [by destruct (d =? 0)|by rewrite E]. Qed.

Lemma or_float_idem v d : or_float (or_float v d) d = or_float v d.
Proof. unfold or_float. destruct (feq v fzero) eqn:E; [by destruct (feq d fzero)|by rewrite E]. Qed.

Lemma or_bool_idem v d : or_bool (or_bool v d) d = or_bool v d.
Proof. by destruct v, d. Qed.

Lemma or_bool_true v : or_bool v true = true.
Proof. by destruct v. Qed.

Lemma or_list_idem v d : or_list (or_list v d) d = or_list v d.
Proof. by destruct v; [destruct d|]. Qed.

Lemma or_nil_idem {A} (v : option A) d : or_nil (or_nil v d) d = or_nil v d.
Proof. by destruct v. Qed.

#[export] Hint Rewrite or_str_idem or_int_idem or_float_idem or_bool_idem or_list_idem @or_nil_idem : defaults.

Lemma applyCORSDefaults_idem c : applyCORSDefaults (applyCORSDefaults c) = applyCORSDefaults c.
Proof.
  unfold applyCORSDefaults at 1.
  assert (Hset : (0 <? Z.of_nat (length (cors_AllowedOrigins (applyCORSDefaults c)))) = true).
  { simpl. by destruct (cors_AllowedOrigins c). }
  rewrite Hset. cbn [orb negb].
  replace (if negb (cors_Enabled (applyCORSDefaults c)) then _ else _) with (cors_Enabled (applyCORSDefaults c))
    by (by destruct (cors_Enabled (applyCORSDefaults c))).
  unfold applyCORSDefaults. simpl. by autorewrite with defaults.
Qed.

Lemma applyProxyDefaults_idem c : applyProxyDefaults (applyProxyDefaults c) = applyProxyDefaults c.
Proof. unfold applyProxyDefaults. simpl. rewrite applyCORSDefaults_idem. by autorewrite with defaults. Qed.

(** ** The loop over the providers *)

(** Writing back into the map that is iterated gives every provider its
    defaults, in any order. *)
Lemma applyProvidersDefaults_fmap `{MapRange} m : applyProvidersDefaults m = applyProviderDefaults <$> m.
Proof.
  apply map_eq. intros name. unfold applyProvidersDefaults. rewrite range_insert_lookup, lookup_fmap.
  by destruct (m !! name).
Qed.

Lemma applyProvidersDefaults_idem `{R1 : MapRange} `{R2 : MapRange} m :
  applyProvidersDefaults (H := R1) (applyProvidersDefaults (H := R2) m) = applyProvidersDefaults (H := R2) m.
Proof.
  rewrite !applyProvidersDefaults_fmap, <- map_fmap_compose. apply map_fmap_ext. intros n p _.
  unfold compose, applyProviderDefaults. simpl. by autorewrite with defaults.
Qed.

Lemma applyEvidenceDefaults_idem c : applyEvidenceDefaults (applyEvidenceDefaults c) = applyEvidenceDefaults c.
Proof.
  unfold applyEvidenceDefaults, applySQLiteDefaults, applyPostgresDefaults, applyRecorderDefaults,
    applyRetentionDefaults, applyQueryDefaults, applyExportDefaults. simpl. by autorewrite with defaults.
Qed.

Lemma applyProcessingDefaults_idem c :
  applyProcessingDefaults (applyProcessingDefaults c) = applyProcessingDefaults c.
Proof.
  unfold applyProcessingDefaults, applyTokensDefaults, applyCostsDefaults, applyContentDefaults,
    applyConversationDefaults. cbn [Tokens Costs Content Conversation tk_Estimator tk_CacheSize tk_ModelsField
    PricingField PII Sensitive Injection pii_Enabled pii_Types RedactInLogs sens_Enabled SeverityThreshold
    sens_Categories inj_Enabled ConfidenceThreshold inj_Patterns MaxContextWindowField WarnThreshold].
  by autorewrite with defaults.
Qed.

(** Applying the defaults to a configuration that has them changes nothing, in
    whatever order the two calls iterate over the providers. *)
Theorem ApplyDefaults_idempotent (R1 R2 : MapRange) c :
  ApplyDefaults (H := R1) (ApplyDefaults (H := R2) c) = ApplyDefaults (H := R2) c.
Proof.
  unfold ApplyDefaults. simpl.
  rewrite applyProxyDefaults_idem, applyProvidersDefaults_idem, applyEvidenceDefaults_idem,
    applyProcessingDefaults_idem.
  f_equal.
  - unfold applyPolicyDefaults. simpl. by autorewrite with defaults.
  - unfold applyLimitsDefaults. simpl. by autorewrite with defaults.
  - unfold applyTelemetryDefaults. simpl. by autorewrite with defaults.
Qed.

(** ** What the defaults decide *)

(** A document that writes [false] for one of these switches, or [0] for the
    retries of a provider, cannot be told from one that leaves them out: they
    are on, and three retries are made, in every configuration that is loaded. *)
Theorem defaults_force_switches `{MapRange} c :
  let d := ApplyDefaults c in
  sq_WALMode (ev_SQLite (c_Evidence d)) = true /\
  re_HashRequest (ev_Recorder (c_Evidence d)) = true /\
  re_HashResponse (ev_Recorder (c_Evidence d)) = true /\
  re_RedactAPIKeys (ev_Recorder (c_Evidence d)) = true /\
  ex_JSONPretty (ev_Export (c_Evidence d)) = true /\
  ex_CSVIncludeHeader (ev_Export (c_Evidence d)) = true /\
  (forall name p, c_Providers d !! name = Some p -> pr_MaxRetries p <> 0 /\ pr_Timeout p <> 0).
Proof.
  simpl. rewrite applyProvidersDefaults_fmap.
  repeat match goal with |- _ /\ _ => split end; try apply or_bool_true.
  intros name p Hp. rewrite lookup_fmap in Hp.
  destruct (c_Providers c !! name) as [q|]; simpl in Hp; [|done]. injection Hp as <-. simpl. unfold or_int.
  destruct (Z.eqb_spec (pr_MaxRetries q) 0), (Z.eqb_spec (pr_Timeout q) 0); done.
Qed.

(** Evidence recording is off unless the document turns it on, and CORS is on
    exactly when the document turns it on or configures none of its lists and no
    positive age: a document that lists origins without [enabled: true] runs
    without CORS. *)
Theorem defaults_evidence_and_cors `{MapRange} c :
  let cors := px_CORS (c_Proxy c) in
  ev_Enabled (c_Evidence (ApplyDefaults c)) = ev_Enabled (c_Evidence c) /\
  (cors_Enabled (px_CORS (c_Proxy (ApplyDefaults c))) = true <->
     cors_Enabled cors = true \/
     (cors_AllowedOrigins cors = [] /\ cors_AllowedMethods cors = [] /\ cors_AllowedHeaders cors = [] /\
      cors_ExposedHeaders cors = [] /\ cors_MaxAge cors <= 0)).
Proof.
  intros cors. split; [done|]. unfold ApplyDefaults, applyProxyDefaults, applyCORSDefaults. fold cors. simpl.
  destruct cors as [e o m h x a k]. simpl.
  destruct e; simpl; [by split; [left|]|].
  destruct o, m, h, x; simpl; try (split; [done|intros [?|(?&?&?&?&?)]; done]).
  destruct (Z.ltb_spec 0 a); simpl; split; intros; try done.
  - destruct H1 as [?|(_&_&_&_&?)]; [done|lia].
  - right. repeat split; lia.
Qed.

(** With the default price list a request is always enriched: the processor
    neither fails nor panics for any model and provider. *)
Theorem defaults_price_every_model `{MapRange} c model provider :
  PricingField (Costs (c_Processing c)) = None ->
  exists p, GetModelPricing (Costs (c_Processing (ApplyDefaults c))) model provider = Some p.
Proof.
  intros Hn.
  apply (pricing_with_default _ (list_to_map [("default", mkModelPricingConfig (flit 1 1000) (flit 2 1000) fzero)])
    (mkModelPricingConfig (flit 1 1000) (flit 2 1000) fzero)); [|reflexivity].
  unfold ApplyDefaults, applyProcessingDefaults, applyCostsDefaults. simpl c_Processing.
  cbn [Costs PricingField]. rewrite Hn. vm_compute. reflexivity.
Qed.

Lemma defaults_price_every_model_witness :
  exists p, GetModelPricing (H := some_range)
    (Costs (c_Processing (ApplyDefaults (H := some_range) zero_config))) "mistral-large" "mistral" = Some p.
Proof. apply (defaults_price_every_model (H := some_range)). reflexivity. Defined.
