(* ===== verification/ConfigValidate.v ===== *)
(** * Validation of the configuration

    [pkg/config/validate.go]: the validators append a [FieldError] per violated
    rule and [Validate] returns them all.  [errs_if] is [if cond { errs =
    append(errs, FieldError{...}) }].  A downgrade chain is followed with a
    [visited] map that is shared by the calls and restored on success;
    [downgrade_fuel] bounds the depth of its recursion by the number of
    configured downgrades; [checkDowngrades_total] shows that this is enough, and
    [validateDowngrades] is built on that proof, so no verdict stands for a
    search that ran out of fuel. *)

From Stdlib Require Import ZArith Lia Ascii.
From stdpp Require Import base option list strings gmap fin_map_dom pretty relations.
From S2P Require Import Prelude Float64 ProviderTypes PolicyRegistry ConfigTypes.

Record FieldError := mkFieldError { fe_Field : string; fe_Message : string }.

Definition FieldError_Error (e : FieldError) : string := fe_Field e +:+ ": " +:+ fe_Message e.

Record ValidationError := mkValidationError { ve_Errors : list FieldError }.

Definition ValidationError_Error (e : ValidationError) : string :=
  match ve_Errors e with
  | [] => "configuration validation failed"
  | [x] => "configuration validation failed: " +:+ FieldError_Error x
  | l =>
      "configuration validation failed with " +:+ pretty (length l) +:+ " errors:" +:+ newline +:+
      String.concat "" (map (fun x => "  - " +:+ FieldError_Error x +:+ newline) l)
  end.

Definition errs_if (cond : bool) (field msg : string) : list FieldError :=
  if cond then [mkFieldError field msg] else [].

Definition is_empty (s : string) : bool := String.eqb s "".

(** [map[string]bool{...}[s]] *)
Definition one_of (l : list string) (s : string) : bool := existsb (String.eqb s) l.

(** [s != "" && s[0] != '/'] *)
Definition no_slash (s : string) : bool :=
  match s with String c _ => negb (Ascii.eqb c "/") | EmptyString => false end.

(** [url.Parse]: the text of its error, if it fails. *)
Class UrlParser : Type := { url_Parse_error : string -> option string }.

Section validate.
Context `{MapRange} `{Fmt} `{UrlParser}.

Definition validateProxy (c : ProxyConfig) : list FieldError :=
  errs_if (is_empty (px_ListenAddress c)) "proxy.listen_address" "listen address is required" ++
  errs_if (px_ReadTimeout c <? 0) "proxy.read_timeout" "read timeout must be positive" ++
  errs_if (px_WriteTimeout c <? 0) "proxy.write_timeout" "write timeout must be positive" ++
  errs_if (px_IdleTimeout c <? 0) "proxy.idle_timeout" "idle timeout must be positive" ++
  errs_if (px_MaxHeaderBytes c <? 0) "proxy.max_header_bytes" "max header bytes must be non-negative" ++
  errs_if (10 * 1024 * 1024 <? px_MaxHeaderBytes c) "proxy.max_header_bytes"
    "max header bytes exceeds reasonable limit (10MB)".

Definition validateProvider (name : string) (p : ProviderConfig) : list FieldError :=
  let prefix := "providers." +:+ name in
  (if is_empty (pr_BaseURL p) then [mkFieldError (prefix +:+ ".base_url") "base URL is required"]
   else match url_Parse_error (pr_BaseURL p) with
        | Some err => [mkFieldError (prefix +:+ ".base_url") ("invalid URL format: " +:+ err)]
        | None => []
        end) ++
  errs_if (pr_Timeout p <? 0) (prefix +:+ ".timeout") "timeout must be positive" ++
  errs_if (pr_MaxRetries p <? 0) (prefix +:+ ".max_retries") "max retries must be non-negative" ++
  errs_if (10 <? pr_MaxRetries p) (prefix +:+ ".max_retries") "max retries exceeds reasonable limit (10)".

Definition validateProviders (providers : gmap string ProviderConfig) : list FieldError :=
  if Z.of_nat (size providers) =? 0 then [mkFieldError "providers" "at least one provider must be configured"]
  else concat (map (fun '(name, p) => validateProvider name p) (range providers)).

Definition validatePolicy (c : PolicyConfig) : list FieldError :=
  (if is_empty (po_Mode c) then [mkFieldError "policy.mode" "mode is required"]
   else errs_if (negb (one_of ["file"; "git"] (po_Mode c))) "policy.mode"
          ("invalid mode " +:+ Quote (po_Mode c) +:+ ": must be 'file' or 'git'")) ++
  errs_if (String.eqb (po_Mode c) "file" && is_empty (po_FilePath c)) "policy.file_path"
    "file path is required when mode is 'file'" ++
  if String.eqb (po_Mode c) "git" then
    errs_if (is_empty (po_GitRepo c)) "policy.git_repo" "git repository is required when mode is 'git'" ++
    errs_if (is_empty (po_GitBranch c)) "policy.git_branch" "git branch is required when mode is 'git'" ++
    errs_if (is_empty (po_GitPath c)) "policy.git_path" "git path is required when mode is 'git'"
  else [].

Definition validatePostgres (c : PostgresConfig) : list FieldError :=
  errs_if (is_empty (pg_Host c)) "evidence.postgres.host" "PostgreSQL host is required when backend is 'postgres'" ++
  errs_if ((pg_Port c <? 1) || (65535 <? pg_Port c)) "evidence.postgres.port"
    "PostgreSQL port must be between 1 and 65535" ++
  errs_if (is_empty (pg_Database c)) "evidence.postgres.database"
    "PostgreSQL database is required when backend is 'postgres'" ++
  errs_if (is_empty (pg_User c)) "evidence.postgres.user" "PostgreSQL user is required when backend is 'postgres'" ++
  errs_if (negb (one_of ["disable"; "require"; "verify-ca"; "verify-full"] (pg_SSLMode c))) "evidence.postgres.ssl_mode"
    ("invalid SSL mode " +:+ Quote (pg_SSLMode c) +:+ ": must be 'disable', 'require', 'verify-ca', or 'verify-full'").

Definition validateEvidence (c : EvidenceConfig) : list FieldError :=
  if negb (ev_Enabled c) then [] else
  (if is_empty (ev_Backend c) then [mkFieldError "evidence.backend" "backend is required when evidence is enabled"]
   else errs_if (negb (one_of ["sqlite"; "postgres"; "s3"] (ev_Backend c))) "evidence.backend"
          ("invalid backend " +:+ Quote (ev_Backend c) +:+ ": must be 'sqlite', 'postgres', or 's3'")) ++
  (if String.eqb (ev_Backend c) "sqlite" then
     errs_if (is_empty (sq_Path (ev_SQLite c))) "evidence.sqlite.path" "SQLite path is required when backend is 'sqlite'"
   else if String.eqb (ev_Backend c) "postgres" then validatePostgres (ev_Postgres c)
   else if String.eqb (ev_Backend c) "s3" then
     errs_if (is_empty (s3_Bucket (ev_S3 c))) "evidence.s3.bucket" "S3 bucket is required when backend is 's3'" ++
     errs_if (is_empty (s3_Region (ev_S3 c))) "evidence.s3.region" "S3 region is required when backend is 's3'"
   else []) ++
  errs_if (rt_Days (ev_Retention c) <? 0) "evidence.retention.days" "retention days must be non-negative" ++
  errs_if (3650 <? rt_Days (ev_Retention c)) "evidence.retention.days"
    "retention days exceeds reasonable limit (3650 days / 10 years)".

Definition validateHealth (c : HealthConfig) : list FieldError :=
  if negb (hc_Enabled c) then [] else
  errs_if (is_empty (hc_LivenessPath c)) "telemetry.health.liveness_path"
    "liveness path is required when health checks are enabled" ++
  errs_if (is_empty (hc_ReadinessPath c)) "telemetry.health.readiness_path"
    "readiness path is required when health checks are enabled" ++
  errs_if (is_empty (hc_VersionPath c)) "telemetry.health.version_path"
    "version path is required when health checks are enabled" ++
  errs_if (no_slash (hc_LivenessPath c)) "telemetry.health.liveness_path" "liveness path must start with /" ++
  errs_if (no_slash (hc_ReadinessPath c)) "telemetry.health.readiness_path" "readiness path must start with /" ++
  errs_if (no_slash (hc_VersionPath c)) "telemetry.health.version_path" "version path must start with /" ++
  errs_if (hc_CheckTimeout c <? 0) "telemetry.health.check_timeout" "check timeout must be positive" ++
  errs_if (60 * Second <? hc_CheckTimeout c) "telemetry.health.check_timeout"
    "check timeout exceeds reasonable limit (60s)" ++
  errs_if (hc_MinHealthyProviders c <? 0) "telemetry.health.min_healthy_providers"
    "min healthy providers must be non-negative".

Definition validateTelemetry (c : TelemetryConfig) : list FieldError :=
  let l := te_Logging c in
  let m := te_Metrics c in
  let t := te_Tracing c in
  (if is_empty (lg_Level l) then [mkFieldError "telemetry.logging.level" "logging level is required"]
   else errs_if (negb (one_of ["debug"; "info"; "warn"; "error"] (lg_Level l))) "telemetry.logging.level"
          ("invalid logging level " +:+ Quote (lg_Level l) +:+ ": must be 'debug', 'info', 'warn', or 'error'")) ++
  (if is_empty (lg_Format l) then [mkFieldError "telemetry.logging.format" "logging format is required"]
   else errs_if (negb (one_of ["json"; "text"] (lg_Format l))) "telemetry.logging.format"
          ("invalid logging format " +:+ Quote (lg_Format l) +:+ ": must be 'json' or 'text'")) ++
  errs_if (mt_Enabled m && is_empty (mt_Path m)) "telemetry.metrics.path"
    "metrics path is required when metrics are enabled" ++
  errs_if (tr_Enabled t && is_empty (tr_Endpoint t)) "telemetry.tracing.endpoint"
    "tracing endpoint is required when tracing is enabled" ++
  errs_if (flt (tr_SampleRatio t) fzero || flt (of_int 1) (tr_SampleRatio t)) "telemetry.tracing.sample_ratio"
    "sample ratio must be between 0.0 and 1.0" ++
  validateHealth (te_Health c).

Definition validateBudgetLimits (prefix : string) (l : BudgetLimits) : list FieldError :=
  errs_if (flt (bl_Hourly l) fzero) (prefix +:+ ".hourly") "hourly budget must be non-negative" ++
  errs_if (flt (bl_Daily l) fzero) (prefix +:+ ".daily") "daily budget must be non-negative" ++
  errs_if (flt (bl_Monthly l) fzero) (prefix +:+ ".monthly") "monthly budget must be non-negative" ++
  errs_if (flt fzero (bl_Hourly l) && flt fzero (bl_Daily l) && flt (bl_Daily l) (bl_Hourly l)) (prefix +:+ ".hourly")
    "hourly budget cannot exceed daily budget" ++
  errs_if (flt fzero (bl_Daily l) && flt fzero (bl_Monthly l) && flt (bl_Monthly l) (bl_Daily l)) (prefix +:+ ".daily")
    "daily budget cannot exceed monthly budget".

Definition validateRateLimits (prefix : string) (l : RateLimits) : list FieldError :=
  errs_if (rl_RequestsPerSecond l <? 0) (prefix +:+ ".requests_per_second")
    "requests per second must be non-negative" ++
  errs_if (rl_RequestsPerMinute l <? 0) (prefix +:+ ".requests_per_minute")
    "requests per minute must be non-negative" ++
  errs_if (rl_RequestsPerHour l <? 0) (prefix +:+ ".requests_per_hour") "requests per hour must be non-negative" ++
  errs_if (rl_TokensPerMinute l <? 0) (prefix +:+ ".tokens_per_minute") "tokens per minute must be non-negative" ++
  errs_if (rl_TokensPerHour l <? 0) (prefix +:+ ".tokens_per_hour") "tokens per hour must be non-negative" ++
  errs_if (rl_MaxConcurrent l <? 0) (prefix +:+ ".max_concurrent") "max concurrent must be non-negative" ++
  errs_if (100000 <? rl_RequestsPerSecond l) (prefix +:+ ".requests_per_second")
    "requests per second exceeds reasonable limit (100,000)" ++
  errs_if (10000000 <? rl_TokensPerMinute l) (prefix +:+ ".tokens_per_minute")
    "tokens per minute exceeds reasonable limit (10,000,000)" ++
  errs_if (10000 <? rl_MaxConcurrent l) (prefix +:+ ".max_concurrent")
    "max concurrent exceeds reasonable limit (10,000)".

(** [None] is a recursion deeper than [fuel]; the set is the keys of [visited]. *)
Fixpoint checkCircularDowngrade (fuel : nat) (model : string) (downgrades : gmap string string)
    (visited : gset string) : option (option string * gset string) :=
  match fuel with
  | O => None
  | S fuel =>
      if decide (model ∈ visited) then Some (Some ("circular downgrade detected for model " +:+ Quote model), visited)
      else
        let visited := {[model]} ∪ visited in
        match downgrades !! model with
        | Some next =>
            match checkCircularDowngrade fuel next downgrades visited with
            | None => None
            | Some (Some err, visited) => Some (Some err, visited)
            | Some (None, visited) => Some (None, visited ∖ {[model]})
            end
        | None => Some (None, visited ∖ {[model]})
        end
  end.

Definition downgrade_fuel (downgrades : gmap string string) : nat := S (size downgrades).

(** The loop over the models, stopping at the first error. *)
Fixpoint checkDowngrades (models : list string) (downgrades : gmap string string) (visited : gset string)
    : option (option string) :=
  match models with
  | [] => Some None
  | model :: models =>
      match checkCircularDowngrade (downgrade_fuel downgrades) model downgrades visited with
      | None => None
      | Some (Some err, _) => Some (Some err)
      | Some (None, visited) => checkDowngrades models downgrades visited
      end
  end.

Lemma checkCircularDowngrade_total fuel model downgrades visited :
  (size (dom downgrades ∖ visited) < fuel)%nat -> is_Some (checkCircularDowngrade fuel model downgrades visited).
Proof using.
  revert model visited. induction fuel as [|fuel IH]; intros model visited Hf; [lia|]. simpl.
  case_decide as Hv; [done|]. destruct (downgrades !! model) as [next|] eqn:Hm; [|done].
  destruct (IH next ({[model]} ∪ visited)) as [[[] ] ->]; [|done..].
  enough (size (dom downgrades ∖ ({[model]} ∪ visited)) < size (dom downgrades ∖ visited))%nat by lia.
  apply subset_size. apply elem_of_dom_2 in Hm. set_solver.
Qed.

Lemma checkDowngrades_total models downgrades visited : is_Some (checkDowngrades models downgrades visited).
Proof using.
  revert visited. induction models as [|model models IH]; intros visited; cbn [checkDowngrades]; [done|].
  destruct (checkCircularDowngrade_total (downgrade_fuel downgrades) model downgrades visited) as [[[err|] v] ->];
    [|done|apply IH].
  assert (size (dom downgrades ∖ visited) <= size (dom downgrades))%nat as Hs by (apply subseteq_size; set_solver).
  unfold downgrade_fuel. rewrite size_dom in Hs. lia.
Qed.

(** What the loop returned: by [checkDowngrades_total] it is never out of fuel. *)
Definition validateDowngrades (downgrades : gmap string string) : list FieldError :=
  if 0 <? Z.of_nat (size downgrades) then
    match is_Some_proj (checkDowngrades_total (range downgrades).*1 downgrades ∅) with
    | Some err => [mkFieldError "limits.enforcement.model_downgrades" err]
    | None => []
    end
  else [].

Definition validateEnforcement (c : EnforcementConfig) : list FieldError :=
  errs_if (negb (is_empty (en_Action c)) && negb (one_of ["block"; "queue"; "downgrade"; "alert"] (en_Action c)))
    "limits.enforcement.action"
    ("invalid action " +:+ Quote (en_Action c) +:+ ": must be 'block', 'queue', 'downgrade', or 'alert'") ++
  errs_if (en_QueueDepth c <? 0) "limits.enforcement.queue_depth" "queue depth must be non-negative" ++
  errs_if (100000 <? en_QueueDepth c) "limits.enforcement.queue_depth"
    "queue depth exceeds reasonable limit (100,000)" ++
  errs_if (en_QueueTimeout c <? 0) "limits.enforcement.queue_timeout" "queue timeout must be positive" ++
  validateDowngrades (en_ModelDowngrades c).

Definition validateLimitsStorage (c : LimitsStorageConfig) : list FieldError :=
  (if is_empty (st_Backend c) then [mkFieldError "limits.storage.backend" "backend is required"]
   else errs_if (negb (one_of ["memory"; "sqlite"] (st_Backend c))) "limits.storage.backend"
          ("invalid backend " +:+ Quote (st_Backend c) +:+ ": must be 'memory' or 'sqlite'")) ++
  if String.eqb (st_Backend c) "sqlite" then
    errs_if (is_empty (ls_Path (st_SQLite c))) "limits.storage.sqlite.path"
      "SQLite path is required when backend is 'sqlite'" ++
    errs_if (ls_SnapshotInterval (st_SQLite c) <? 0) "limits.storage.sqlite.snapshot_interval"
      "snapshot interval must be positive"
  else if String.eqb (st_Backend c) "memory" then
    errs_if (lm_MaxEntries (st_Memory c) <? 0) "limits.storage.memory.max_entries"
      "max entries must be non-negative" ++
    errs_if (lm_CleanupInterval (st_Memory c) <? 0) "limits.storage.memory.cleanup_interval"
      "cleanup interval must be positive"
  else [].

(** [for key, limits := range m { errs = append(errs, validate(prefix + key, &limits)...) }] *)
Definition validateEntries {V} (validate : string -> V -> list FieldError) (prefix : string) (m : gmap string V)
    : list FieldError :=
  concat (map (fun '(k, v) => validate (prefix +:+ k) v) (range m)).

Definition validateLimits (c : LimitsConfig) : list FieldError :=
  let b := li_Budgets c in
  let r := li_RateLimits c in
  (if bu_Enabled b then
     errs_if (flt (bu_AlertThreshold b) fzero || flt (of_int 1) (bu_AlertThreshold b)) "limits.budgets.alert_threshold"
       "alert threshold must be between 0.0 and 1.0" ++
     validateEntries validateBudgetLimits "limits.budgets.by_api_key." (bu_ByAPIKey b) ++
     validateEntries validateBudgetLimits "limits.budgets.by_user." (bu_ByUser b) ++
     validateEntries validateBudgetLimits "limits.budgets.by_team." (bu_ByTeam b)
   else []) ++
  (if ra_Enabled r then
     validateEntries validateRateLimits "limits.rate_limits.by_api_key." (ra_ByAPIKey r) ++
     validateEntries validateRateLimits "limits.rate_limits.by_user." (ra_ByUser r) ++
     validateEntries validateRateLimits "limits.rate_limits.by_team." (ra_ByTeam r)
   else []) ++
  validateEnforcement (li_Enforcement c) ++
  validateLimitsStorage (li_Storage c).

Definition validateSecurity (c : SecurityConfig) : list FieldError :=
  let t := sy_TLS c in
  (if tls_Enabled t then
     errs_if (is_empty (tls_CertFile t)) "security.tls.cert_file" "TLS certificate file is required when TLS is enabled" ++
     errs_if (is_empty (tls_KeyFile t)) "security.tls.key_file" "TLS key file is required when TLS is enabled"
   else []) ++
  if mtls_Enabled (tls_MTLS t) then
    errs_if (is_empty (mtls_ClientCAFile (tls_MTLS t))) "security.tls.mtls.client_ca_file"
      "mTLS client CA file is required when mTLS is enabled" ++
    errs_if (negb (tls_Enabled t)) "security.tls.mtls.enabled"
      "mTLS requires TLS to be enabled (security.tls.enabled must be true)"
  else [].

Definition allErrors (c : Config) : list FieldError :=
  validateProxy (c_Proxy c) ++ validateProviders (c_Providers c) ++ validatePolicy (c_Policy c) ++
  validateEvidence (c_Evidence c) ++ validateLimits (c_Limits c) ++ validateTelemetry (c_Telemetry c) ++
  validateSecurity (c_Security c).

(** The error, or [nil] when no rule is violated. *)
Definition Validate (c : Config) : option ValidationError :=
  let errs := allErrors c in
  if 0 <? Z.of_nat (length errs) then Some (mkValidationError errs) else None.

End validate.

(** ** What is accepted *)

Definition within (lo hi x : Z) : Prop := lo <= x <= hi.

(** [0 <= x <= 1] as the code tests it: a NaN is neither below nor above. *)
Definition unit_interval (x : float64) : Prop := flt x fzero = false /\ flt (of_int 1) x = false.

Definition path_ok (s : string) : Prop := exists t, s = String "/" t.

(** [a] downgrades to [b]. *)
Definition downgrades_to (m : gmap string string) (a b : string) : Prop := m !! a = Some b.

Definition circular (m : gmap string string) : Prop := exists a, tc (downgrades_to m) a a.

Record proxy_valid (c : ProxyConfig) : Prop := {
  pvd_address : px_ListenAddress c <> "";
  pvd_timeouts : 0 <= px_ReadTimeout c /\ 0 <= px_WriteTimeout c /\ 0 <= px_IdleTimeout c;
  pvd_header : within 0 10485760 (px_MaxHeaderBytes c);
}.

Definition provider_valid `{UrlParser} (p : ProviderConfig) : Prop :=
  pr_BaseURL p <> "" /\ url_Parse_error (pr_BaseURL p) = None /\ 0 <= pr_Timeout p /\ within 0 10 (pr_MaxRetries p).

Definition policy_valid (c : PolicyConfig) : Prop :=
  (po_Mode c = "file" /\ po_FilePath c <> "") \/
  (po_Mode c = "git" /\ po_GitRepo c <> "" /\ po_GitBranch c <> "" /\ po_GitPath c <> "").

Definition postgres_valid (c : PostgresConfig) : Prop :=
  pg_Host c <> "" /\ within 1 65535 (pg_Port c) /\ pg_Database c <> "" /\ pg_User c <> "" /\
  pg_SSLMode c ∈ ["disable"; "require"; "verify-ca"; "verify-full"].

Definition evidence_valid (c : EvidenceConfig) : Prop :=
  ev_Enabled c = true ->
  ((ev_Backend c = "sqlite" /\ sq_Path (ev_SQLite c) <> "") \/
   (ev_Backend c = "postgres" /\ postgres_valid (ev_Postgres c)) \/
   (ev_Backend c = "s3" /\ s3_Bucket (ev_S3 c) <> "" /\ s3_Region (ev_S3 c) <> "")) /\
  within 0 3650 (rt_Days (ev_Retention c)).

Definition health_valid (c : HealthConfig) : Prop :=
  hc_Enabled c = true ->
  path_ok (hc_LivenessPath c) /\ path_ok (hc_ReadinessPath c) /\ path_ok (hc_VersionPath c) /\
  within 0 (60 * Second) (hc_CheckTimeout c) /\ 0 <= hc_MinHealthyProviders c.

Record telemetry_valid (c : TelemetryConfig) : Prop := {
  tvd_level : lg_Level (te_Logging c) ∈ ["debug"; "info"; "warn"; "error"];
  tvd_format : lg_Format (te_Logging c) ∈ ["json"; "text"];
  tvd_metrics : mt_Enabled (te_Metrics c) = true -> mt_Path (te_Metrics c) <> "";
  tvd_tracing : tr_Enabled (te_Tracing c) = true -> tr_Endpoint (te_Tracing c) <> "";
  tvd_ratio : unit_interval (tr_SampleRatio (te_Tracing c));
  tvd_health : health_valid (te_Health c);
}.

(** Each set window is at most the next larger one. *)
Definition budget_valid (l : BudgetLimits) : Prop :=
  flt (bl_Hourly l) fzero = false /\ flt (bl_Daily l) fzero = false /\ flt (bl_Monthly l) fzero = false /\
  (flt fzero (bl_Hourly l) = true -> flt fzero (bl_Daily l) = true -> flt (bl_Daily l) (bl_Hourly l) = false) /\
  (flt fzero (bl_Daily l) = true -> flt fzero (bl_Monthly l) = true -> flt (bl_Monthly l) (bl_Daily l) = false).

Definition rates_valid (l : RateLimits) : Prop :=
  within 0 100000 (rl_RequestsPerSecond l) /\ 0 <= rl_RequestsPerMinute l /\ 0 <= rl_RequestsPerHour l /\
  within 0 10000000 (rl_TokensPerMinute l) /\ 0 <= rl_TokensPerHour l /\ within 0 10000 (rl_MaxConcurrent l).

Definition storage_valid (c : LimitsStorageConfig) : Prop :=
  (st_Backend c = "memory" /\ 0 <= lm_MaxEntries (st_Memory c) /\ 0 <= lm_CleanupInterval (st_Memory c)) \/
  (st_Backend c = "sqlite" /\ ls_Path (st_SQLite c) <> "" /\ 0 <= ls_SnapshotInterval (st_SQLite c)).

Definition enforcement_valid (c : EnforcementConfig) : Prop :=
  en_Action c ∈ [""; "block"; "queue"; "downgrade"; "alert"] /\ within 0 100000 (en_QueueDepth c) /\
  0 <= en_QueueTimeout c /\ ~ circular (en_ModelDowngrades c).

Definition entries {V} (P : V -> Prop) (m : gmap string V) : Prop := map_Forall (fun _ => P) m.

Record limits_valid (c : LimitsConfig) : Prop := {
  lvd_budgets : bu_Enabled (li_Budgets c) = true ->
    unit_interval (bu_AlertThreshold (li_Budgets c)) /\ entries budget_valid (bu_ByAPIKey (li_Budgets c)) /\
    entries budget_valid (bu_ByUser (li_Budgets c)) /\ entries budget_valid (bu_ByTeam (li_Budgets c));
  lvd_rates : ra_Enabled (li_RateLimits c) = true ->
    entries rates_valid (ra_ByAPIKey (li_RateLimits c)) /\ entries rates_valid (ra_ByUser (li_RateLimits c)) /\
    entries rates_valid (ra_ByTeam (li_RateLimits c));
  lvd_enforcement : enforcement_valid (li_Enforcement c);
  lvd_storage : storage_valid (li_Storage c);
}.

Definition security_valid (c : SecurityConfig) : Prop :=
  let t := sy_TLS c in
  (tls_Enabled t = true -> tls_CertFile t <> "" /\ tls_KeyFile t <> "") /\
  (mtls_Enabled (tls_MTLS t) = true -> tls_Enabled t = true /\ mtls_ClientCAFile (tls_MTLS t) <> "").

Record config_valid `{UrlParser} (c : Config) : Prop := {
  cvd_proxy : proxy_valid (c_Proxy c);
  cvd_providers : c_Providers c <> ∅ /\ entries provider_valid (c_Providers c);
  cvd_policy : policy_valid (c_Policy c);
  cvd_evidence : evidence_valid (c_Evidence c);
  cvd_limits : limits_valid (c_Limits c);
  cvd_telemetry : telemetry_valid (c_Telemetry c);
  cvd_security : security_valid (c_Security c);
}.

(** ** Lists of errors *)

Lemma errs_if_nil cond f m : errs_if cond f m = [] <-> cond = false.
Proof. by destruct cond. Qed.

Lemma guarded_iff {A} (b : bool) (l : list A) : (if b then l else []) = [] <-> (b = true -> l = []).
Proof. destruct b; naive_solver. Qed.

Lemma app_nil_iff {A} (l k : list A) : l ++ k = [] <-> l = [] /\ k = [].
Proof. destruct l; naive_solver. Qed.

Lemma is_empty_spec s : is_empty s = false <-> s <> "".
Proof. apply String.eqb_neq. Qed.

Lemma one_of_spec l s : one_of l s = true <-> s ∈ l.
Proof.
  unfold one_of. rewrite existsb_exists, list_elem_of_In. split.
  - intros (x & Hx & <-%String.eqb_eq). done.
  - intros. exists s. by rewrite String.eqb_refl.
Qed.

Lemma no_slash_spec s : is_empty s = false /\ no_slash s = false <-> path_ok s.
Proof.
  unfold path_ok. destruct s as [|a s]; simpl.
  - split; [by intros []|by intros []].
  - rewrite negb_false_iff, Ascii.eqb_eq. split; [intros [_ ->]; eauto|by intros [? [= -> ->]]].
Qed.

Lemma concat_map_nil {A B} (f : A -> list B) l : concat (map f l) = [] <-> Forall (fun x => f x = []) l.
Proof. induction l; simpl; [done|]. rewrite app_nil_iff, Forall_cons. tauto. Qed.

Lemma range_Forall `{MapRange} {V} (P : string -> V -> Prop) m :
  Forall (fun kv => P kv.1 kv.2) (range m) <-> map_Forall P m.
Proof. rewrite range_perm, map_Forall_to_list. apply Forall_iff. by intros []. Qed.

(** Turns the emptiness of a list of errors into the failure of every
    condition. *)
Ltac no_errors :=
  rewrite ?app_nil_iff, ?errs_if_nil, ?orb_false_iff, ?is_empty_spec, ?Z.ltb_ge, ?negb_false_iff, ?one_of_spec.

(** Membership in a literal list, by cases. *)
Ltac choices := rewrite ?elem_of_cons, ?elem_of_nil in *; intuition congruence.

(** ** Downgrade chains *)

Section downgrades.
Context `{Fmt} (m : gmap string string).

Lemma tc_first {A} (R : relation A) a c : tc R a c -> exists b, R a b /\ rtc R b c.
Proof. destruct 1 as [a c Hr|a b c Hr Ht]; [|apply tc_rtc in Ht]; eauto using rtc_refl. Qed.

Lemma checkCircularDowngrade_ok fuel model visited v :
  checkCircularDowngrade fuel model m visited = Some (None, v) ->
  v = visited /\ forall b, rtc (downgrades_to m) model b -> b ∉ visited /\ ~ tc (downgrades_to m) b b.
Proof.
  revert model visited v. induction fuel as [|fuel IH]; intros model visited v; simpl; [done|].
  case_decide as Hv; [done|]. destruct (m !! model) as [next|] eqn:Hm.
  - destruct (checkCircularDowngrade fuel next m _) as [[[] w]|] eqn:Hc; intros [= <-].
    destruct (IH _ _ _ Hc) as [-> Hr]. split; [set_solver|].
    assert (Hback : ~ rtc (downgrades_to m) next model) by (intros Hb; destruct (Hr _ Hb); set_solver).
    intros b [<-|(x & Hx & Hb)]%rtc_inv; unfold downgrades_to in *.
    + split; [done|]. intros (x & Hx & Hb)%tc_first. by simplify_eq.
    + simplify_eq. destruct (Hr _ Hb). set_solver.
  - intros [= <-]. split; [set_solver|]. unfold downgrades_to.
    intros b [<-|(x & Hx & _)]%rtc_inv; [|congruence].
    split; [done|]. intros (x & Hx & _)%tc_first. congruence.
Qed.

Lemma checkCircularDowngrade_err fuel model visited err v :
  checkCircularDowngrade fuel model m visited = Some (Some err, v) ->
  exists b, rtc (downgrades_to m) model b /\ (b ∈ visited \/ tc (downgrades_to m) b b).
Proof.
  revert model visited v. induction fuel as [|fuel IH]; intros model visited v; simpl; [done|].
  case_decide as Hv; [intros _; exists model; eauto using rtc_refl|].
  destruct (m !! model) as [next|] eqn:Hm; [|done].
  destruct (checkCircularDowngrade fuel next m _) as [[[err'|] w]|] eqn:Hc; intros [= -> <-].
  destruct (IH _ _ _ Hc) as (b & Hb & Hor). destruct (decide (b = model)) as [->|Hne].
  - exists model. split; [apply rtc_refl|]. right. eapply tc_rtc_r; [by apply tc_once|done].
  - exists b. split; [by eapply rtc_l|]. set_solver.
Qed.

Lemma checkDowngrades_spec models :
  exists r, checkDowngrades models m ∅ = Some r /\
    match r with
    | Some _ => circular m
    | None => forall a, a ∈ models -> ~ tc (downgrades_to m) a a
    end.
Proof.
  induction models as [|model models (r & IH & Hr)]; cbn [checkDowngrades].
  - exists None. split; [done|]. intros a Ha. by apply not_elem_of_nil in Ha.
  - destruct (checkCircularDowngrade_total (downgrade_fuel m) model m ∅) as [[[err|] v] Hc].
    { unfold downgrade_fuel. rewrite difference_empty_L, size_dom. lia. }
    + rewrite Hc. exists (Some err). split; [done|].
      destruct (checkCircularDowngrade_err _ _ _ _ _ Hc) as (b & _ & [Hb|Hb]); [set_solver|by exists b].
    + rewrite Hc. destruct (checkCircularDowngrade_ok _ _ _ _ Hc) as [-> Hok].
      exists r. split; [done|]. destruct r; [done|]. intros a [->|Ha]%elem_of_cons; [|auto].
      apply Hok, rtc_refl.
Qed.

Lemma is_Some_proj_eq {A} (mx : option A) (Hx : is_Some mx) x : mx = Some x -> is_Some_proj Hx = x.
Proof. intros ->. done. Qed.

(** The check rejects a downgrade table exactly when a model downgrades, in one
    or more steps, to itself; it always returns. *)
Lemma validateDowngrades_iff `{MapRange} : validateDowngrades m = [] <-> ~ circular m.
Proof.
  unfold validateDowngrades. destruct (Z.ltb_spec 0 (Z.of_nat (size m))) as [Hs|Hs].
  - destruct (checkDowngrades_spec (range m).*1) as (r & Hc & Hr). rewrite (is_Some_proj_eq _ _ _ Hc). destruct r as [err|].
    + split; [done|]. by intros [].
    + split; [|done]. intros _ [a Ha]. apply (Hr a); [|done].
      destruct (tc_first _ _ _ Ha) as (b & Hb & _). apply list_elem_of_fmap. exists (a, b).
      split; [done|]. by apply elem_of_range.
  - split; [|done]. intros _ [a (b & Hb & _)%tc_first]. unfold downgrades_to in Hb.
    assert (size m = 0%nat) as He%map_size_empty_inv by lia. subst m. by rewrite lookup_empty in Hb.
Qed.

End downgrades.

(** ** Each validator accepts what its rules say *)

Section accepts.
Context `{MapRange} `{Fmt} `{UrlParser}.

Lemma validateProxy_iff c : validateProxy c = [] <-> proxy_valid c.
Proof.
  unfold validateProxy. no_errors. unfold within. split.
  - intros. constructor; unfold within; intuition lia.
  - intros [? ? []]. intuition lia.
Qed.

Lemma validateProvider_iff name p : validateProvider name p = [] <-> provider_valid p.
Proof.
  unfold validateProvider, provider_valid, within. no_errors.
  destruct (is_empty (pr_BaseURL p)) eqn:He.
  - apply String.eqb_eq in He. split; [by intros []|by intros []].
  - apply is_empty_spec in He. destruct (url_Parse_error _); split; [by intros []|by intros (_&?&_)|intuition lia..].
Qed.

Lemma entries_iff {V} (f : string -> V -> list FieldError) (P : V -> Prop) m :
  (forall k v, f k v = [] <-> P v) ->
  concat (map (fun '(k, v) => f k v) (range m)) = [] <-> entries P m.
Proof.
  intros Hf. rewrite concat_map_nil. unfold entries. rewrite <- range_Forall.
  apply Forall_iff. intros [k v]. apply Hf.
Qed.

Lemma validateEntries_iff {V} (f : string -> V -> list FieldError) (P : V -> Prop) prefix m :
  (forall k v, f k v = [] <-> P v) -> validateEntries f prefix m = [] <-> entries P m.
Proof. intros Hf. unfold validateEntries. apply (entries_iff (fun k => f (prefix +:+ k))). auto. Qed.

Lemma validateProviders_iff m : validateProviders m = [] <-> m <> ∅ /\ entries provider_valid m.
Proof.
  unfold validateProviders. destruct (Z.eqb_spec (Z.of_nat (size m)) 0) as [Hs|Hs].
  - assert (size m = 0%nat) as ->%map_size_empty_inv by lia. split; [done|]. by intros [].
  - rewrite (entries_iff _ provider_valid) by apply validateProvider_iff.
    split; [|by intros []]. split; [|done]. intros ->. by rewrite map_size_empty in Hs.
Qed.

(** A field that must be one of a list: the empty string has an error of its
    own. *)
Lemma choice_iff l s f1 m1 f2 m2 :
  (if is_empty s then [mkFieldError f1 m1] else errs_if (negb (one_of l s)) f2 m2) = [] <-> s <> "" /\ s ∈ l.
Proof.
  destruct (is_empty s) eqn:E.
  - apply String.eqb_eq in E. split; [done|by intros []].
  - rewrite errs_if_nil, negb_false_iff, one_of_spec. apply is_empty_spec in E. tauto.
Qed.

Lemma validatePolicy_iff c : validatePolicy c = [] <-> policy_valid c.
Proof.
  unfold validatePolicy, policy_valid. rewrite !app_nil_iff, choice_iff, errs_if_nil.
  destruct (String.eqb_spec (po_Mode c) "file") as [Hf|Hf], (String.eqb_spec (po_Mode c) "git") as [Hg|Hg];
    cbn [andb]; no_errors; try (rewrite Hf in *; done); rewrite ?Hf, ?Hg in *.
  - split; [intros (_&?&_); auto|intros [[]|[]]; done || set_solver].
  - split; [intros (_&_&?); auto|intros [[]|[]]; done || set_solver].
  - split; [set_solver|naive_solver].
Qed.

Lemma validatePostgres_iff c : validatePostgres c = [] <-> postgres_valid c.
Proof. unfold validatePostgres, postgres_valid, within. no_errors. tauto. Qed.

Lemma validateEvidence_iff c : validateEvidence c = [] <-> evidence_valid c.
Proof.
  unfold validateEvidence, evidence_valid. destruct (ev_Enabled c); [change (negb true) with false; cbn iota|naive_solver].
  rewrite !app_nil_iff, choice_iff, !errs_if_nil, !Z.ltb_ge. unfold within.
  destruct (String.eqb_spec (ev_Backend c) "sqlite") as [->|Hs]; [no_errors; choices|].
  destruct (String.eqb_spec (ev_Backend c) "postgres") as [->|Hp]; [rewrite validatePostgres_iff; choices|].
  destruct (String.eqb_spec (ev_Backend c) "s3") as [->|H3]; [no_errors; choices|]. choices.
Qed.

Lemma validateHealth_iff c : validateHealth c = [] <-> health_valid c.
Proof.
  unfold validateHealth, health_valid. destruct (hc_Enabled c); [change (negb true) with false; cbn iota|naive_solver].
  rewrite <- !no_slash_spec. unfold within. rewrite !app_nil_iff, !errs_if_nil, !Z.ltb_ge. tauto.
Qed.

Lemma validateTelemetry_iff c : validateTelemetry c = [] <-> telemetry_valid c.
Proof.
  unfold validateTelemetry. rewrite !app_nil_iff, !choice_iff, !errs_if_nil, validateHealth_iff, !andb_false_iff,
    orb_false_iff, !is_empty_spec.
  split.
  - intros ((_&?)&(_&?)&?&?&?&?). constructor; try done; intuition congruence.
  - intros [Hl Hf Hm Ht Hr Hh]. unfold unit_interval in Hr.
    assert (lg_Level (te_Logging c) <> "") by choices.
    assert (lg_Format (te_Logging c) <> "") by choices.
    destruct (mt_Enabled _), (tr_Enabled _); intuition.
Qed.

Lemma validateBudgetLimits_iff prefix l : validateBudgetLimits prefix l = [] <-> budget_valid l.
Proof.
  unfold validateBudgetLimits, budget_valid. rewrite !app_nil_iff, !errs_if_nil, !andb_false_iff.
  destruct (flt fzero (bl_Hourly l)), (flt fzero (bl_Daily l)), (flt fzero (bl_Monthly l)); intuition congruence.
Qed.

Lemma validateRateLimits_iff prefix l : validateRateLimits prefix l = [] <-> rates_valid l.
Proof. unfold validateRateLimits, rates_valid, within. no_errors. tauto. Qed.

Lemma validateLimitsStorage_iff c : validateLimitsStorage c = [] <-> storage_valid c.
Proof.
  unfold validateLimitsStorage, storage_valid. rewrite app_nil_iff, choice_iff.
  destruct (String.eqb_spec (st_Backend c) "sqlite") as [->|Hs]; [no_errors; choices|].
  destruct (String.eqb_spec (st_Backend c) "memory") as [->|Hm]; [no_errors; choices|]. choices.
Qed.

Lemma validateEnforcement_iff c : validateEnforcement c = [] <-> enforcement_valid c.
Proof.
  unfold validateEnforcement, enforcement_valid, within.
  rewrite !app_nil_iff, !errs_if_nil, !Z.ltb_ge, validateDowngrades_iff, andb_false_iff, !negb_false_iff, one_of_spec.
  assert (is_empty (en_Action c) = true <-> en_Action c = "") by apply String.eqb_eq.
  choices.
Qed.

Lemma validateLimits_iff c : validateLimits c = [] <-> limits_valid c.
Proof.
  pose proof (fun p m => validateEntries_iff validateBudgetLimits budget_valid p m validateBudgetLimits_iff) as Hb.
  pose proof (fun p m => validateEntries_iff validateRateLimits rates_valid p m validateRateLimits_iff) as Hr.
  unfold validateLimits. rewrite !app_nil_iff, !guarded_iff, validateEnforcement_iff, validateLimitsStorage_iff,
    !app_nil_iff, errs_if_nil, orb_false_iff, !Hb, !Hr.
  split; [intros (?&?&?&?); by constructor|by intros []].
Qed.

Lemma validateSecurity_iff c : validateSecurity c = [] <-> security_valid c.
Proof.
  unfold validateSecurity, security_valid. rewrite app_nil_iff.
  destruct (tls_Enabled _), (mtls_Enabled _); no_errors; naive_solver.
Qed.

Lemma Validate_spec c : Validate c = None <-> config_valid c.
Proof.
  unfold Validate.
  transitivity (allErrors c = []).
  { destruct (allErrors c); simpl; [done|]. by destruct (Z.ltb_spec 0 (Z.of_nat (S (length l)))); [|lia]. }
  unfold allErrors. rewrite !app_nil_iff, validateProxy_iff, validateProviders_iff, validatePolicy_iff,
    validateEvidence_iff, validateLimits_iff, validateTelemetry_iff, validateSecurity_iff.
  split; [intros (?&?&?&?&?&?&?); by constructor|by intros []].
Qed.

Definition with_unvalidated p r (c : Config) : Config :=
  mkConfig (c_Proxy c) (c_Providers c) (c_Policy c) (c_Evidence c) p r (c_Limits c) (c_Telemetry c) (c_Security c).


End accepts.

(** ** Documented settings that are refused

    The reference documents git mode with [git.repository], and the deprecated
    [git_repo] is not mentioned there: such a document is refused, whatever its
    [git] section says.  A negative timeout is documented as none, and the log
    format "console", which the logger knows, as an option. *)
Lemma git_repository_refused `{MapRange} `{Fmt} `{UrlParser} c :
  po_Mode (c_Policy c) = "git" -> po_GitRepo (c_Policy c) = "" -> Validate c <> None.
Proof.
  intros Hm Hr [_ _ Hp _ _ _ _]%Validate_spec. destruct Hp as [[Hf _]|(_ & Hg & _)]; congruence.
Qed.

Lemma negative_timeout_refused `{MapRange} `{Fmt} `{UrlParser} c :
  px_ReadTimeout (c_Proxy c) < 0 -> Validate c <> None.
Proof. intros Hn [[_ [Hr _] _] _ _ _ _ _ _]%Validate_spec. lia. Qed.

Lemma console_format_refused `{MapRange} `{Fmt} `{UrlParser} c :
  lg_Format (te_Logging (c_Telemetry c)) = "console" -> Validate c <> None.
Proof. intros Hf [_ _ _ _ _ [_ Ht _ _ _ _] _]%Validate_spec. rewrite Hf in Ht. choices. Qed.
