(* ===== verification/ConfigLoad.v ===== *)
(** * Loading the configuration

    [pkg/config/load.go] and [singleton.go].  A [World] is what a load observes:
    the file system, the YAML decoder, the environment and the two conversions of
    the standard library whose grammar is not spelled out here; it is an argument
    of every operation, because files and variables change between calls.  An
    override is [if val := os.Getenv(name); val != "" { field = val }], with a
    conversion for the fields that are not strings: a value that does not convert
    leaves the field alone. *)

From Stdlib Require Import ZArith Lia Ascii.
From stdpp Require Import base option list strings gmap.
From S2P Require Import Prelude Float64 ProviderTypes ProxyTypes Router ProcTokens ConfigTypes ConfigDefaults ConfigValidate.

Record World := mkWorld {
  ReadFile : string -> result string string;
  Unmarshal : string -> result string Config;
  Getenv : string -> string;
  ParseDuration : string -> option Duration;
  ParseFloat : string -> option float64;
}.

(** ** Conversions *)

Definition digit (c : ascii) : option Z :=
  let n := Z.of_N (N_of_ascii c) in
  if (48 <=? n) && (n <=? 57) then Some (n - 48) else None.

Fixpoint digits (s : string) (acc : Z) : option Z :=
  match s with
  | EmptyString => Some acc
  | String c s => d ← digit c; digits s (10 * acc + d)
  end.

(** [strconv.Atoi]: an optional sign, at least one digit, a 64-bit result. *)
Definition Atoi (s : string) : option Z :=
  let '(neg, body) :=
    match s with
    | String "-" s => (true, s)
    | String "+" s => (false, s)
    | _ => (false, s)
    end in
  if is_empty body then None else
  n ← digits body 0;
  let v := if neg then - n else n in
  if (min_int64 <=? v) && (v <=? max_int64) then Some v else None.

(** [strconv.ParseBool] *)
Definition ParseBool (s : string) : option bool :=
  if one_of ["1"; "t"; "T"; "TRUE"; "true"; "True"] s then Some true
  else if one_of ["0"; "f"; "F"; "FALSE"; "false"; "False"] s then Some false
  else None.

(** [strings.ToUpper] of an ASCII name. *)
Fixpoint ToUpper (s : string) : string :=
  match s with
  | EmptyString => ""
  | String c s =>
      let n := N_of_ascii c in
      String (if (97 <=? n)%N && (n <=? 122)%N then ascii_of_N (n - 32) else c) (ToUpper s)
  end.

(** ** Environment overrides *)

Section overrides.
Variable w : World.

Definition env_conv {A} (parse : string -> option A) (name : string) (v : A) : A :=
  let val := Getenv w name in
  if is_empty val then v else default v (parse val).

Definition env_str : string -> string -> string := env_conv Some.
Definition env_int : string -> Z -> Z := env_conv Atoi.
Definition env_bool : string -> bool -> bool := env_conv ParseBool.
Definition env_dur : string -> Duration -> Duration := env_conv (ParseDuration w).
Definition env_float : string -> float64 -> float64 := env_conv (ParseFloat w).

(** Whether the override of [name] was applied. *)
Definition env_set {A} (parse : string -> option A) (name : string) : bool :=
  let val := Getenv w name in
  negb (is_empty val) && match parse val with Some _ => true | None => false end.

Definition overrideProxy (c : ProxyConfig) : ProxyConfig :=
  mkProxyConfig (env_str "MERCATOR_PROXY_LISTEN_ADDRESS" (px_ListenAddress c))
    (env_dur "MERCATOR_PROXY_READ_TIMEOUT" (px_ReadTimeout c))
    (env_dur "MERCATOR_PROXY_WRITE_TIMEOUT" (px_WriteTimeout c))
    (env_dur "MERCATOR_PROXY_IDLE_TIMEOUT" (px_IdleTimeout c))
    (px_ShutdownTimeout c)
    (env_int "MERCATOR_PROXY_MAX_HEADER_BYTES" (px_MaxHeaderBytes c))
    (px_CORS c).

Definition applyProviderEnvOverrides (providerName : string) (providers : gmap string ProviderConfig)
    : gmap string ProviderConfig :=
  let exists_ := match providers !! providerName with Some _ => true | None => false end in
  let provider := default zero_provider (providers !! providerName) in
  let prefix := "MERCATOR_PROVIDERS_" +:+ ToUpper providerName +:+ "_" in
  let modified :=
    env_set Some (prefix +:+ "BASE_URL") || env_set Some (prefix +:+ "API_KEY") ||
    env_set (ParseDuration w) (prefix +:+ "TIMEOUT") || env_set Atoi (prefix +:+ "MAX_RETRIES") in
  let provider :=
    mkProviderConfig (env_str (prefix +:+ "BASE_URL") (pr_BaseURL provider))
      (env_str (prefix +:+ "API_KEY") (pr_APIKey provider))
      (env_dur (prefix +:+ "TIMEOUT") (pr_Timeout provider))
      (env_int (prefix +:+ "MAX_RETRIES") (pr_MaxRetries provider)) in
  if modified || exists_ then <[providerName := provider]> providers else providers.

Definition overridePolicy (c : PolicyConfig) : PolicyConfig :=
  mkPolicyConfig (env_str "MERCATOR_POLICY_MODE" (po_Mode c))
    (env_str "MERCATOR_POLICY_FILE_PATH" (po_FilePath c))
    (env_str "MERCATOR_POLICY_GIT_REPO" (po_GitRepo c))
    (env_str "MERCATOR_POLICY_GIT_BRANCH" (po_GitBranch c))
    (env_str "MERCATOR_POLICY_GIT_PATH" (po_GitPath c))
    (po_Git c)
    (env_bool "MERCATOR_POLICY_WATCH" (po_Watch c))
    (mkPolicyValidationConfig (env_bool "MERCATOR_POLICY_VALIDATION_ENABLED" (pv_Enabled (po_Validation c)))
       (env_bool "MERCATOR_POLICY_VALIDATION_STRICT" (pv_Strict (po_Validation c)))).

Definition overrideEvidence (c : EvidenceConfig) : EvidenceConfig :=
  let s := ev_SQLite c in
  let p := ev_Postgres c in
  let b := ev_S3 c in
  let r := ev_Retention c in
  mkEvidenceConfig (env_bool "MERCATOR_EVIDENCE_ENABLED" (ev_Enabled c))
    (env_str "MERCATOR_EVIDENCE_BACKEND" (ev_Backend c))
    (mkSQLiteConfig (env_str "MERCATOR_EVIDENCE_SQLITE_PATH" (sq_Path s)) (sq_MaxOpenConns s) (sq_MaxIdleConns s)
       (sq_WALMode s) (sq_BusyTimeout s))
    (mkPostgresConfig (env_str "MERCATOR_EVIDENCE_POSTGRES_HOST" (pg_Host p))
       (env_int "MERCATOR_EVIDENCE_POSTGRES_PORT" (pg_Port p))
       (env_str "MERCATOR_EVIDENCE_POSTGRES_DATABASE" (pg_Database p))
       (env_str "MERCATOR_EVIDENCE_POSTGRES_USER" (pg_User p))
       (env_str "MERCATOR_EVIDENCE_POSTGRES_PASSWORD" (pg_Password p))
       (env_str "MERCATOR_EVIDENCE_POSTGRES_SSL_MODE" (pg_SSLMode p)))
    (mkS3Config (env_str "MERCATOR_EVIDENCE_S3_BUCKET" (s3_Bucket b)) (env_str "MERCATOR_EVIDENCE_S3_REGION" (s3_Region b))
       (env_str "MERCATOR_EVIDENCE_S3_PREFIX" (s3_Prefix b)) (env_str "MERCATOR_EVIDENCE_S3_ENDPOINT" (s3_Endpoint b)))
    (ev_Recorder c)
    (mkRetentionConfig (env_int "MERCATOR_EVIDENCE_RETENTION_DAYS" (rt_Days r)) (rt_PruneSchedule r)
       (rt_ArchiveBeforeDelete r) (rt_ArchivePath r) (rt_MaxRecords r))
    (ev_Query c) (ev_Export c)
    (env_str "MERCATOR_EVIDENCE_SIGNING_KEY_PATH" (ev_SigningKeyPath c)).

Definition overrideTelemetry (c : TelemetryConfig) : TelemetryConfig :=
  let l := te_Logging c in
  let m := te_Metrics c in
  let t := te_Tracing c in
  mkTelemetryConfig
    (mkLoggingConfig (env_str "MERCATOR_TELEMETRY_LOGGING_LEVEL" (lg_Level l))
       (env_str "MERCATOR_TELEMETRY_LOGGING_FORMAT" (lg_Format l)) (lg_AddSource l) (lg_RedactPII l)
       (lg_BufferSize l) (lg_RedactPatterns l))
    (mkMetricsConfig (env_bool "MERCATOR_TELEMETRY_METRICS_ENABLED" (mt_Enabled m))
       (env_str "MERCATOR_TELEMETRY_METRICS_PATH" (mt_Path m)) (mt_Port m) (mt_Namespace m) (mt_Subsystem m)
       (mt_RequestDurationBuckets m) (mt_TokenCountBuckets m))
    (mkTracingConfig (env_bool "MERCATOR_TELEMETRY_TRACING_ENABLED" (tr_Enabled t)) (tr_Sampler t)
       (env_float "MERCATOR_TELEMETRY_TRACING_SAMPLE_RATIO" (tr_SampleRatio t)) (tr_Exporter t)
       (env_str "MERCATOR_TELEMETRY_TRACING_ENDPOINT" (tr_Endpoint t)) (tr_ServiceName t) (tr_OTLP t) (tr_Jaeger t))
    (te_Health c).

Definition overrideSecurity (c : SecurityConfig) : SecurityConfig :=
  let t := sy_TLS c in
  let m := tls_MTLS t in
  mkSecurityConfig
    (mkTLSConfig (env_bool "MERCATOR_SECURITY_TLS_ENABLED" (tls_Enabled t))
       (env_str "MERCATOR_SECURITY_TLS_CERT_FILE" (tls_CertFile t))
       (env_str "MERCATOR_SECURITY_TLS_KEY_FILE" (tls_KeyFile t)) (tls_MinVersion t) (tls_CipherSuites t)
       (tls_ReloadInterval t)
       (mkMTLSConfig (env_bool "MERCATOR_SECURITY_MTLS_ENABLED" (mtls_Enabled m))
          (env_str "MERCATOR_SECURITY_MTLS_CA_FILE" (mtls_ClientCAFile m)) (mtls_ClientAuthType m)
          (mtls_VerifyClientCert m) (mtls_IdentitySource m)))
    (sy_Secrets c) (sy_Authentication c).

Definition applyEnvOverrides (c : Config) : Config :=
  mkConfig (overrideProxy (c_Proxy c))
    (applyProviderEnvOverrides "anthropic" (applyProviderEnvOverrides "openai" (c_Providers c)))
    (overridePolicy (c_Policy c)) (overrideEvidence (c_Evidence c)) (c_Processing c) (c_Routing c) (c_Limits c)
    (overrideTelemetry (c_Telemetry c)) (overrideSecurity (c_Security c)).

End overrides.

(** ** Loading *)

Inductive ConfigErr : Type :=
| ReadErr (path cause : string)
| ParseErr (path cause : string)
| InvalidErr (e : ValidationError)
| InvalidAfterEnvErr (e : ValidationError)
| ReloadErr (e : ConfigErr).

Fixpoint config_err_text `{Fmt} (e : ConfigErr) : string :=
  match e with
  | ReadErr path cause => "failed to read configuration file " +:+ Quote path +:+ ": " +:+ cause
  | ParseErr path cause => "failed to parse configuration file " +:+ Quote path +:+ ": " +:+ cause
  | InvalidErr e => "configuration validation failed: " +:+ ValidationError_Error e
  | InvalidAfterEnvErr e =>
      "configuration validation failed after environment overrides: " +:+ ValidationError_Error e
  | ReloadErr e => "failed to reload configuration: " +:+ config_err_text e
  end.

Section load.
Context `{MapRange} `{Fmt} `{UrlParser}.

Definition LoadConfig (w : World) (path : string) : result ConfigErr Config :=
  match ReadFile w path with
  | Err err => Err (ReadErr path err)
  | Ok data =>
      match Unmarshal w data with
      | Err err => Err (ParseErr path err)
      | Ok cfg =>
          let cfg := ApplyDefaults cfg in
          match Validate cfg with
          | Some err => Err (InvalidErr err)
          | None => Ok cfg
          end
      end
  end.

Definition LoadConfigWithEnvOverrides (w : World) (path : string) : result ConfigErr Config :=
  match LoadConfig w path with
  | Err err => Err err
  | Ok cfg =>
      let cfg := applyEnvOverrides w cfg in
      match Validate cfg with
      | Some err => Err (InvalidAfterEnvErr err)
      | None => Ok cfg
      end
  end.

(** ** The global configuration *)

Record Singleton := mkSingleton { globalConfig : option Config; initOnce : bool }.

Definition initial_singleton : Singleton := mkSingleton None false.

Definition Initialize (w : World) (path : string) (s : Singleton) : option ConfigErr * Singleton :=
  if initOnce s then (None, s) else
  match LoadConfigWithEnvOverrides w path with
  | Err err => (Some err, mkSingleton (globalConfig s) true)
  | Ok cfg => (None, mkSingleton (Some cfg) true)
  end.

Definition GetConfig (s : Singleton) : option Config := globalConfig s.

Definition SetConfig (cfg : option Config) (s : Singleton) : Singleton := mkSingleton cfg (initOnce s).

Definition ReloadConfig (w : World) (path : string) (s : Singleton) : option ConfigErr * Singleton :=
  match LoadConfigWithEnvOverrides w path with
  | Err err => (Some (ReloadErr err), s)
  | Ok cfg => (None, mkSingleton (Some cfg) (initOnce s))
  end.

(** [None] is the panic. *)
Definition MustGetConfig (s : Singleton) : option Config := GetConfig s.

(** What the program does with the global configuration: [SetConfig] is for
    tests. *)
Inductive singleton_step : Singleton -> Singleton -> Prop :=
| step_initialize w path s : singleton_step s (Initialize w path s).2
| step_reload w path s : singleton_step s (ReloadConfig w path s).2.

(** ** Theorems *)

Lemma load_valid w path c : LoadConfigWithEnvOverrides w path = Ok c -> config_valid c.
Proof.
  unfold LoadConfigWithEnvOverrides. destruct (LoadConfig w path); [|done].
  destruct (Validate _) eqn:Hv; [done|]. intros [= <-]. by apply Validate_spec.
Qed.

Definition global_ok (s : Singleton) : Prop := match GetConfig s with Some c => config_valid c | None => True end.

Lemma singleton_step_ok s s' : singleton_step s s' -> global_ok s -> global_ok s'.
Proof.
  intros [w path t|w path t] Ht; [unfold Initialize|unfold ReloadConfig].
  - destruct (initOnce t); [done|]. destruct (LoadConfigWithEnvOverrides w path) eqn:Hl; [|done].
    by eapply load_valid.
  - destruct (LoadConfigWithEnvOverrides w path) eqn:Hl; [|done]. by eapply load_valid.
Qed.

(** Whatever sequence of initialisations and reloads has run, over changing
    files and environments, the global configuration is absent or satisfies every
    validation rule; once it is present it stays present, and a failed reload
    leaves it as it was. *)
Theorem global_config_always_valid s :
  rtc singleton_step initial_singleton s ->
  global_ok s /\
  forall w path, (is_Some (GetConfig s) -> is_Some (GetConfig (ReloadConfig w path s).2) /\
                                           is_Some (GetConfig (Initialize w path s).2)) /\
    ((ReloadConfig w path s).1 <> None -> (ReloadConfig w path s).2 = s).
Proof.
  intros Hr. split.
  - assert (Hi : global_ok initial_singleton) by done. revert Hi.
    induction Hr as [|a b c Hs Hr IH]; [done|]. intros Ha. by apply IH, (singleton_step_ok a b).
  - intros w path. unfold ReloadConfig, Initialize, GetConfig.
    destruct (LoadConfigWithEnvOverrides w path); simpl; split; try done.
    all: intros; split; destruct (initOnce s); simpl; eauto.
Qed.

(** [Initialize] runs once: after a call that failed, the next call reports
    success without reading anything, and there is still no configuration, so
    that [MustGetConfig] panics. *)
Theorem initialize_forgets_failure w1 w2 path1 path2 err s :
  Initialize w1 path1 initial_singleton = (Some err, s) ->
  Initialize w2 path2 s = (None, s) /\ MustGetConfig s = None.
Proof.
  unfold Initialize at 1. simpl. destruct (LoadConfigWithEnvOverrides w1 path1); [done|]. intros [= _ <-]. done.
Qed.

(** The file alone has to pass validation: when it does not, no environment
    makes the load succeed. *)
Theorem env_cannot_repair w path env e :
  LoadConfig w path = Err e ->
  LoadConfigWithEnvOverrides (mkWorld (ReadFile w) (Unmarshal w) env (ParseDuration w) (ParseFloat w)) path = Err e.
Proof. intros Hl. unfold LoadConfigWithEnvOverrides. by replace (LoadConfig _ path) with (@Err _ Config e). Qed.

(** A document that only names its providers is enough: the defaults pass every
    rule. *)
Theorem minimal_config_loads w path data providers :
  ReadFile w path = Ok data ->
  Unmarshal w data = Ok (mkConfig zero_proxy providers zero_policy zero_evidence zero_processing zero_routing
                           zero_limits zero_telemetry zero_security) ->
  providers <> ∅ -> entries provider_valid providers ->
  exists c, LoadConfig w path = Ok c /\ dom (c_Providers c) = dom providers /\ config_valid c.
Proof.
  intros Hr Hu Hne Hp. unfold LoadConfig. rewrite Hr, Hu. set (cfg := ApplyDefaults _).
  assert (Hprov : c_Providers cfg = applyProviderDefaults <$> providers) by apply applyProvidersDefaults_fmap.
  assert (Hv : config_valid cfg).
  { constructor.
    - by constructor.
    - rewrite Hprov. split; [by rewrite fmap_empty_iff|].
      intros k p Hk. apply lookup_fmap_Some in Hk as (q & <- & Hq).
      destruct (Hp k q Hq) as (? & ? & ? & ?). unfold provider_valid, within, applyProviderDefaults, or_int, Second in *.
      simpl. repeat case_match; lia || done.
    - left. done.
    - done.
    - constructor; try done.
      + split; [by apply list_elem_of_In; simpl; auto|]. split; [done|]. split; [done|].
        intros [a (b & Hb & _)%tc_first].
        change ((∅ : gmap string string) !! a = Some b) in Hb. by rewrite lookup_empty in Hb.
      + left. done.
    - constructor; try done; by apply list_elem_of_In; simpl; auto.
    - done. }
  exists cfg. rewrite (proj2 (Validate_spec cfg) Hv), Hprov, dom_fmap_L. done.
Qed.

End load.

(** ** Concrete loads *)

Definition bare_fmt : Fmt := {| Quote s := s; DurationString _ := "" |}.
Definition any_url : UrlParser := {| url_Parse_error _ := None |}.

(** A world with one document. *)
Definition world_of (cfg : Config) (env : string -> string) : World :=
  mkWorld (fun path => if String.eqb path "config.yaml" then Ok "doc" else Err "no such file") (fun _ => Ok cfg) env
    (fun _ => None) (fun _ => None).

Definition with_providers (m : gmap string ProviderConfig) : Config :=
  mkConfig zero_proxy m zero_policy zero_evidence zero_processing zero_routing zero_limits zero_telemetry zero_security.

Definition openai_only : gmap string ProviderConfig :=
  {[ "openai" := mkProviderConfig "https://api.openai.com/v1" "sk" 0 0 ]}.

Definition no_env : string -> string := fun _ => "".

Definition openai_env : string -> string := fun name =>
  if String.eqb name "MERCATOR_PROVIDERS_OPENAI_BASE_URL" then "https://api.openai.com/v1" else "".

Definition anthropic_env : string -> string := fun name =>
  if String.eqb name "MERCATOR_PROVIDERS_ANTHROPIC_BASE_URL" then "https://api.anthropic.com" else "".

Lemma minimal_config_loads_witness :
  exists c, LoadConfig (H := some_range) (H0 := bare_fmt) (H1 := any_url)
      (world_of (with_providers openai_only) no_env) "config.yaml" = Ok c /\
    dom (c_Providers c) = dom openai_only /\ config_valid (H := any_url) c.
Proof.
  apply (minimal_config_loads (H := some_range) (H0 := bare_fmt) (H1 := any_url) _ _ "doc" openai_only).
  - reflexivity.
  - reflexivity.
  - apply map_non_empty_singleton.
  - intros k p Hp. unfold openai_only in Hp. apply lookup_singleton_Some in Hp as [_ <-].
    unfold provider_valid, within. simpl. repeat split; try lia. discriminate.
Defined.

Lemma initialize_forgets_failure_witness :
  exists err s, Initialize (H := some_range) (H0 := bare_fmt) (H1 := any_url)
      (world_of zero_config no_env) "missing.yaml" initial_singleton = (Some err, s) /\
    Initialize (H := some_range) (H0 := bare_fmt) (H1 := any_url)
      (world_of (with_providers openai_only) no_env) "config.yaml" s = (None, s) /\
    MustGetConfig s = None.
Proof.
  eexists _, _. split; [reflexivity|].
  eapply (initialize_forgets_failure (H := some_range) (H0 := bare_fmt) (H1 := any_url)
    (world_of zero_config no_env) _ "missing.yaml"). reflexivity.
Defined.

Lemma global_config_always_valid_witness :
  let s := (Initialize (H := some_range) (H0 := bare_fmt) (H1 := any_url)
    (world_of (with_providers openai_only) no_env) "config.yaml" initial_singleton).2 in
  is_Some (GetConfig s) /\ global_ok (H1 := any_url) s.
Proof.
  simpl. split; [vm_compute; eauto|].
  apply (global_config_always_valid (H := some_range) (H0 := bare_fmt) (H1 := any_url)).
  apply rtc_once. apply (step_initialize (H := some_range) (H0 := bare_fmt) (H1 := any_url)).
Defined.

Lemma env_cannot_repair_witness :
  exists e, LoadConfigWithEnvOverrides (H := some_range) (H0 := bare_fmt) (H1 := any_url)
    (world_of zero_config openai_env) "config.yaml" = Err e.
Proof.
  eexists. apply (env_cannot_repair (H := some_range) (H0 := bare_fmt) (H1 := any_url)
    (world_of zero_config no_env) "config.yaml" openai_env). reflexivity.
Defined.

(** The documented order (defaults, overrides, then validation) would accept a
    document without providers whose provider comes from the environment; the
    load refuses it, because the file is validated before the overrides. *)
Example documented_order_would_accept :
  Validate (H := some_range) (H0 := bare_fmt) (H1 := any_url)
    (applyEnvOverrides (world_of zero_config openai_env) (ApplyDefaults (H := some_range) zero_config)) = None /\
  is_ok (LoadConfigWithEnvOverrides (H := some_range) (H0 := bare_fmt) (H1 := any_url)
    (world_of zero_config openai_env) "config.yaml") = false.
Proof. split; vm_compute; reflexivity. Qed.

(** A provider that only the environment defines gets no defaults: it is loaded
    with no timeout and no retries. *)
Example env_provider_has_no_defaults :
  exists c, LoadConfigWithEnvOverrides (H := some_range) (H0 := bare_fmt) (H1 := any_url)
      (world_of (with_providers openai_only) anthropic_env) "config.yaml" = Ok c /\
    c_Providers c !! "anthropic" = Some (mkProviderConfig "https://api.anthropic.com" "" 0 0) /\
    c_Providers c !! "openai" = Some (mkProviderConfig "https://api.openai.com/v1" "sk" (60 * Second) 3).
Proof. eexists. split; [vm_compute; reflexivity|]. split; vm_compute; reflexivity. Qed.

(** A NaN budget passes validation: no comparison with a NaN holds. *)
Example nan_budget_accepted prefix :
  validateBudgetLimits prefix (mkBudgetLimits SpecFloat.S754_nan SpecFloat.S754_nan SpecFloat.S754_nan) = [] /\
  unit_interval SpecFloat.S754_nan.
Proof. split; [reflexivity|split; reflexivity]. Qed.

(** Conversions of the overrides. *)
Example conversions :
  Atoi "-42" = Some (-42) /\ Atoi "+7" = Some 7 /\ Atoi "" = None /\ Atoi "-" = None /\ Atoi "1_0" = None /\
  Atoi "9223372036854775808" = None /\ Atoi "-9223372036854775808" = Some min_int64 /\
  ParseBool "T" = Some true /\ ParseBool "yes" = None /\ ToUpper "openai" = "OPENAI".
Proof. repeat split. Qed.
