(* ===== verification/LimitsMiddleware.v ===== *)
(** * Limits in front of the handlers

    [pkg/proxy/middleware/limits.go]: the manager built from the limits section
    of the configuration, and the middleware that asks it before a request is
    forwarded.  [enter] is the way in of a request that nothing interrupts.
    Requests run concurrently and share the manager under its read lock, which
    excludes none of them, so [turn] is one operation of one request on the
    shared limiters (a bucket, a window, a tracker, an atomic counter), [mw]
    interleaves the turns of any number of requests, and [turns_enter] shows
    that the turns of a request that is not interrupted are [enter].  The
    handler behind the middleware runs while its request is [Serving]. *)

From Stdlib Require Import ZArith Lia.
From stdpp Require Import base option list strings gmap pretty.
From S2P Require Import Prelude Float64 ProxyTypes ConfigTypes ConfigValidate.
From S2P Require Import RollingWindow BudgetTracker Concurrent Limiter Enforcement LimitStorage LimitsManager.
Local Open Scope Z_scope.
Local Open Scope go_scope.

(** [fmt.Sprintf] with the verb [%.2f]. *)
Class FixedFmt : Type := { fixed2 : float64 -> string }.

Record enrichedRequestContext := mkEnrichedRequestContext {
  estimatedTokens : Z;
  estimatedCost : float64;
  er_model : string;
}.

Definition default_enriched : enrichedRequestContext := mkEnrichedRequestContext 1000 (flit 1 100) "gpt-4".

(** ** Construction *)

Definition rate_config (l : ConfigTypes.RateLimits) : Limiter.Config :=
  Limiter.mkConfig (rl_RequestsPerSecond l) (rl_RequestsPerMinute l) (rl_RequestsPerHour l) (rl_TokensPerMinute l)
    (rl_TokensPerHour l) (rl_MaxConcurrent l).

Definition budget_config (threshold : float64) (l : BudgetLimits) : BudgetTracker.Config :=
  BudgetTracker.mkConfig (bl_Hourly l) (bl_Daily l) (bl_Monthly l) threshold.

(** [for identifier, limits := range from { to[identifier] = convert(limits) }] *)
Definition convert_map `{MapRange} {A B} (convert : A -> B) (m : gmap string A) : gmap string B :=
  foldl (fun acc '(identifier, v) => <[identifier := convert v]> acc) ∅ (range m).

(** The constructors of the storage backends. *)
Record Backends (S : Type) := mkBackends {
  NewSQLiteBackend : string -> result string S;
  NewMemoryWithConfig : Z -> Duration -> S;
  NewMemory : S;
}.
Arguments NewSQLiteBackend {S} b.
Arguments NewMemoryWithConfig {S} b.
Arguments NewMemory {S} b.

Definition storage_backend {S} (bk : Backends S) (c : LimitsStorageConfig) : result string S :=
  if String.eqb (st_Backend c) "sqlite" then
    match NewSQLiteBackend bk (ls_Path (st_SQLite c)) with
    | Ok s => Ok s
    | Err e => Err ("failed to create SQLite backend: " +:+ e)
    end
  else if String.eqb (st_Backend c) "memory" then
    Ok (NewMemoryWithConfig bk (lm_MaxEntries (st_Memory c)) (lm_CleanupInterval (st_Memory c)))
  else Ok (NewMemory bk).

Definition manager_config `{MapRange} {S} (cfg : LimitsConfig) (s : S) : LimitsManager.Config S :=
  LimitsManager.mkConfig (convert_map rate_config (ra_ByAPIKey (li_RateLimits cfg)))
    (convert_map (budget_config (bu_AlertThreshold (li_Budgets cfg))) (bu_ByAPIKey (li_Budgets cfg)))
    (Enforcement.mkConfig (en_Action (li_Enforcement cfg)) (en_QueueDepth (li_Enforcement cfg))
       (en_QueueTimeout (li_Enforcement cfg)) (en_ModelDowngrades (li_Enforcement cfg)))
    (Some s).

Definition NewLimitsManagerFromConfig `{MapRange} {S} (bk : Backends S) (cfg : LimitsConfig)
    : Timed (result string (Manager S)) :=
  match storage_backend bk (li_Storage cfg) with
  | Err e => tret (Err e)
  | Ok s => let! m := NewManager (NewMemory bk) (manager_config cfg s) in tret (Ok m)
  end.

(** ** The middleware *)

Definition extractIdentifier (r : HttpRequest) : string :=
  let apiKey := ExtractAPIKey r in
  if negb (String.eqb apiKey "") then apiKey else
  let userID := ExtractUserID r in
  if negb (String.eqb userID "") then userID else "".

(** [w.Header().Set(key, value)] *)
Definition set_header (k v : string) (h : list (string * string)) : list (string * string) :=
  filter (fun kv => kv.1 <> k) h ++ [(k, v)].

Definition setLimitHeaders `{FixedFmt} (result : LimitCheckResult) (h : list (string * string))
    : list (string * string) :=
  let h :=
    match RateLimit result with
    | Some i =>
        set_header "X-RateLimit-Reset" (pretty (Unix (rli_Reset i)))
          (set_header "X-RateLimit-Remaining" (pretty (rli_Remaining i))
             (set_header "X-RateLimit-Limit" (pretty (rli_Limit i)) h))
    | None => h
    end in
  let h :=
    match Budget result with
    | Some i =>
        set_header "X-Budget-Reset" (pretty (Unix (bi_Reset i)))
          (set_header "X-Budget-Remaining" (fixed2 (bi_Remaining i))
             (set_header "X-Budget-Used" (fixed2 (bi_Used i))
                (set_header "X-Budget-Limit" (fixed2 (bi_Limit i)) h)))
    | None => h
    end in
  if 0 <? LimitsManager.RetryAfter result then
    set_header "Retry-After" (pretty (to_int64 (Seconds (LimitsManager.RetryAfter result)))) h
  else h.

(** The quote character of the JSON text. *)
Definition dq : string := String (Ascii.ascii_of_nat 34) EmptyString.

Definition violation_body (reason : string) : string :=
  "{" +:+ dq +:+ "error" +:+ dq +:+ ": {" +:+ dq +:+ "message" +:+ dq +:+ ": " +:+ dq +:+ reason +:+ dq +:+ ", " +:+
  dq +:+ "type" +:+ dq +:+ ": " +:+ dq +:+ "rate_limit_exceeded" +:+ dq +:+ "}}".

(** What happens to a request on its way in: it is passed on without limits, it
    is passed on holding a slot (with the model to use instead, if any), or it is
    answered with status 429. *)
Inductive Outcome :=
| PassUnlimited
| Pass (identifier : string) (headers : list (string * string)) (downgrade : option string)
| Reject (status : Z) (headers : list (string * string)) (body : string).

Definition downgrade_of (result : LimitCheckResult) : option string :=
  if String.eqb (LimitsManager.Act result) ActionDowngrade && negb (String.eqb (DowngradeTo result) "")
  then Some (DowngradeTo result) else None.

Section middleware.
Context {S : Type} `{Backend S} `{FixedFmt}.

Definition enter (r : HttpRequest) (enriched : option enrichedRequestContext) (m : Manager S)
    : Timed (Outcome * Manager S) :=
  let identifier := extractIdentifier r in
  if String.eqb identifier "" then tret (PassUnlimited, m) else
  let e := default default_enriched enriched in
  let! (result, m) := CheckLimits identifier (estimatedTokens e) (estimatedCost e) (er_model e) m in
  let headers := setLimitHeaders result [] in
  if negb (LimitsManager.Allowed result) then
    tret (Reject 429 headers (violation_body (LimitsManager.Reason result)), m)
  else
    let! (ok, m) := AcquireConcurrent identifier m in
    if ok : bool then tret (Pass identifier headers (downgrade_of result), m)
    else tret (Reject 429 (set_header "X-RateLimit-Limit" "concurrent" headers) "Too many concurrent requests", m).

(** [defer manager.ReleaseConcurrent(identifier)] *)
Definition leave (identifier : string) (m : Manager S) : Timed (Manager S) := ReleaseConcurrent identifier m.

(** ** The middleware, one shared operation at a time *)

(** Where a request is: before the [n]-th check of [CheckLimits] (three buckets,
    two windows, the budgets), allowed by [CheckLimits] and about to increment
    the counter of its key, past the increment that returned [c], in the handler,
    or done. *)
Inductive Phase :=
| Checking (id : string) (e : enrichedRequestContext) (n : nat)
| Admit (id : string) (result : LimitCheckResult)
| Counted (id : string) (result : LimitCheckResult) (c : Z)
| Serving (id : string) (result : LimitCheckResult)
| Unlimited
| Answered (status : Z) (headers : list (string * string)) (body : string)
| Finished.

Definition arrive (r : HttpRequest) (enriched : option enrichedRequestContext) : Phase :=
  let identifier := extractIdentifier r in
  if String.eqb identifier "" then Unlimited else Checking identifier (default default_enriched enriched) 0.

(** The checks of [CheckRequest] and [CheckTokens], each on a bucket or a window
    with a mutex of its own. *)
Definition rate_check (n : nat) (est : Z) (l : Limiter) : Timed (option CheckResult * Limiter) :=
  match n with
  | 0%nat =>
      let! (r, s) := check_bucket "requests per second limit exceeded" Second (reqPerSecond l) in
      tret (r, set_buckets l s (reqPerMinute l) (reqPerHour l))
  | 1%nat =>
      let! (r, b) := check_bucket "requests per minute limit exceeded" Minute (reqPerMinute l) in
      tret (r, set_buckets l (reqPerSecond l) b (reqPerHour l))
  | 2%nat =>
      let! (r, h) := check_bucket "requests per hour limit exceeded" Hour (reqPerHour l) in
      tret (r, set_buckets l (reqPerSecond l) (reqPerMinute l) h)
  | 3%nat =>
      let! (r, w) := check_tokens "tokens per minute limit exceeded" (TokensPerMinute (Limiter.config l)) Minute est
        (tokensPerMinute l) in
      tret (r, set_windows l w (tokensPerHour l))
  | _ =>
      let! (r, w) := check_tokens "tokens per hour limit exceeded" (TokensPerHour (Limiter.config l)) Hour est
        (tokensPerHour l) in
      tret (r, set_windows l (tokensPerMinute l) w)
  end.

(** What the middleware does with the result of [CheckLimits]. *)
Definition decided (id : string) (result : LimitCheckResult) : Phase :=
  if negb (LimitsManager.Allowed result) then
    Answered 429 (setLimitHeaders result []) (violation_body (LimitsManager.Reason result))
  else Admit id result.

(** The next operation of a request on the shared state; a request that is
    [Serving] leaves its handler with it. *)
Definition turn (p : Phase) (m : Manager S) : Timed (Phase * Manager S) :=
  match p with
  | Checking id e n =>
      if (n <? 5)%nat then
        let! (limiter, m) := getRateLimiter id m in
        match limiter with
        | None => tret (Checking id e 5, m)
        | Some l =>
            let! (violation, l) := rate_check n (estimatedTokens e) l in
            let m := set_limiter m id l in
            match violation with
            | None => tret (Checking id e (n + 1), m)
            | Some v => tret (decided id (rate_violation m id (er_model e) v), m)
            end
        end
      else
        let '(tracker, m) := getBudgetTracker id m in
        let! (result, m) := check_budget id (er_model e) tracker m in
        tret (decided id result, m)
  | Admit id result =>
      let! (limiter, m) := getRateLimiter id m in
      match limiter with
      | None => tret (Serving id result, m)
      | Some l =>
          match concurrent l with
          | None => tret (Serving id result, m)
          | Some cl =>
              let '(c, cl) := AddCurrent 1 cl in
              tret (Counted id result c, set_limiter m id (set_concurrent l (Some cl)))
          end
      end
  | Counted id result c =>
      let! (limiter, m) := getRateLimiter id m in
      match limiter with
      | Some l =>
          match concurrent l with
          | Some cl =>
              if Concurrent.limit cl <? c then
                tret (Answered 429 (set_header "X-RateLimit-Limit" "concurrent" (setLimitHeaders result []))
                  "Too many concurrent requests",
                  set_limiter m id (set_concurrent l (Some (snd (AddCurrent (-1) cl)))))
              else tret (Serving id result, m)
          | None => tret (p, m)
          end
      | None => tret (p, m)
      end
  | Serving id _ => let! m := leave id m in tret (Finished, m)
  | Unlimited | Answered _ _ _ | Finished => tret (p, m)
  end.

(** The requests in front of and behind the middleware. *)
Definition active (p : Phase) : bool := match p with Unlimited | Answered _ _ _ | Finished => false | _ => true end.

(** Requests arrive and take their turns in any order; there are never [2^63 - 1]
    of them at once. *)
Inductive mw (cfg : LimitsManager.Config S) : Manager S -> list Phase -> Prop :=
| mw_new (R : MapRange) mem ck k : mw cfg (fst (NewManager mem cfg ck k)) []
| mw_arrive m ps r e : mw cfg m ps -> countb active ps + 1 < max_int64 -> mw cfg m (ps ++ [arrive r e])
| mw_turn m ps i p ck k p' m' :
    mw cfg m ps -> ps !! i = Some p -> fst (turn p m ck k) = (p', m') -> mw cfg m' (<[i := p']> ps).

(** [n] turns of a request that nothing interrupts, and what came of it. *)
Fixpoint turns (n : nat) (p : Phase) (m : Manager S) : Timed (Phase * Manager S) :=
  match n with
  | 0%nat => tret (p, m)
  | Datatypes.S n => let! (p, m) := turn p m in turns n p m
  end.

Definition outcome (p : Phase) : option Outcome :=
  match p with
  | Serving id result => Some (Pass id (setLimitHeaders result []) (downgrade_of result))
  | Unlimited => Some PassUnlimited
  | Answered status headers body => Some (Reject status headers body)
  | _ => None
  end.
End middleware.

(** ** The limits that are set up *)

Lemma convert_map_fmap `{MapRange} {A B} (f : A -> B) (m : gmap string A) : convert_map f m = f <$> m.
Proof.
  apply map_eq. intros k. unfold convert_map. rewrite range_insert_lookup, lookup_fmap, lookup_empty.
  by destruct (m !! k).
Qed.

Lemma storage_backend_valid {S} (bk : Backends S) c :
  storage_valid c -> (forall p, exists s, NewSQLiteBackend bk p = Ok s) -> exists s, storage_backend bk c = Ok s.
Proof.
  intros [(Hb & _)|(Hb & _)] Hs; unfold storage_backend; rewrite Hb; simpl; [eauto|].
  destruct (Hs (ls_Path (st_SQLite c))) as [s ->]. eauto.
Qed.

(** ** Requests in flight *)

Definition phase_id (p : Phase) : string :=
  match p with Checking id _ _ | Admit id _ | Counted id _ _ | Serving id _ => id | _ => "" end.

(** The request is being served under the key. *)
Definition serving (id : string) (p : Phase) : bool :=
  match p with Serving id' _ => String.eqb id' id | _ => false end.

(** It has incremented the counter of the key and not decremented it. *)
Definition taking (id : string) (p : Phase) : bool :=
  match p with Counted id' _ _ | Serving id' _ => String.eqb id' id | _ => false end.

(** It is being served or is past an increment that will let it in. *)
Definition admitted (id : string) (max : Z) (p : Phase) : bool :=
  match p with
  | Counted id' _ c => String.eqb id' id && (c <=? max)
  | Serving id' _ => String.eqb id' id
  | _ => false
  end.

(** What [CheckLimits] returned to it allowed it. *)
Definition allowed (p : Phase) : Prop :=
  match p with
  | Admit _ r | Counted _ r _ | Serving _ r => LimitsManager.Allowed r = true
  | _ => True
  end.

Lemma serving_admitted id max ps : countb (serving id) ps <= countb (admitted id max) ps.
Proof. apply countb_mono. by intros []. Qed.

Lemma admitted_taking id max ps : countb (admitted id max) ps <= countb (taking id) ps.
Proof. apply countb_mono. intros []; simpl; try done. by intros [? _]%andb_true_iff. Qed.

Lemma taking_active id ps : countb (taking id) ps <= countb active ps.
Proof. apply countb_mono. by intros []. Qed.

Lemma countb_snoc {A} (f : A -> bool) l x : countb f (l ++ [x]) = countb f l + Z.b2z (f x).
Proof. induction l as [|y l IH]; simpl; [by destruct (f x)|]. rewrite IH. destruct (f y), (f x); simpl; lia. Qed.


Section flight.
Context {S : Type} `{Backend S} `{FixedFmt} (cfg : LimitsManager.Config S).

Lemma rate_check_keeps n est l ck k :
  concurrent (snd (fst (rate_check n est l ck k))) = concurrent l.
Proof using.
  do 4 (destruct n as [|n];
    [unfold rate_check, tbind; match goal with |- context [?f ck k] => by destruct (f ck k) as [[? ?] ?] end|]).
  unfold rate_check, tbind. match goal with |- context [?f ck k] => by destruct (f ck k) as [[? ?] ?] end.
Qed.

(** A request that has not reached the counter of its key yet. *)
Definition fresh (p : Phase) : Prop :=
  (forall id, taking id p = false) /\ (forall id max, admitted id max p = false) /\ allowed p.

Lemma arrive_fresh r e : fresh (arrive r e).
Proof using. unfold arrive. by destruct (String.eqb _ _). Qed.

Lemma decided_fresh id r : fresh (decided id r).
Proof using. unfold decided, fresh. by destruct (LimitsManager.Allowed r) eqn:E. Qed.

Lemma check_budget_limiters id model t (m : Manager S) ck k :
  rateLimiters (snd (fst (check_budget id model t m ck k))) = rateLimiters m.
Proof using.
  unfold check_budget, tbind. destruct t as [t|]; [|done]. destruct (Check t ck k) as [[st t'] j].
  destruct (BudgetTracker.Allowed st); [destruct (AlertTriggered st)|]; done.
Qed.

(** The turns of a request that [CheckLimits] has not answered yet. *)
Lemma checking_turn id e n m ck k p' m' :
  minv cfg m -> fst (turn (Checking id e n) m ck k) = (p', m') ->
  only_at id m m' /\ fresh p' /\
  forall l', rateLimiters m' !! id = Some l' -> exists l, rateLimiters m !! id = Some l /\ concurrent l' = concurrent l.
Proof using.
  intros Hm. cbn [turn]. unfold tbind. destruct (n <? 5)%nat.
  - rewrite (get_limiter cfg m id ck k Hm). destruct (rateLimiters m !! id) as [l|] eqn:El.
    2: { intros [= <- <-]. split; [apply only_at_refl|]. split; [done|]. intros l'. by rewrite El. }
    pose proof (rate_check_keeps n (estimatedTokens e) l ck k) as Hk.
    destruct (rate_check n _ l ck k) as [[v l1] j]. simpl in Hk.
    assert (G : forall l', rateLimiters (set_limiter m id l1) !! id = Some l' ->
      exists l0, Some l = Some l0 /\ concurrent l' = concurrent l0).
    { intros l'. simpl. rewrite lookup_insert_eq. intros [= <-]. eauto. }
    destruct v; intros [= <- <-];
      (split; [apply only_at_set_limiter; eauto|split; [first [apply decided_fresh|done]|exact G]]).
  - rewrite (get_tracker cfg m id Hm).
    pose proof (check_budget_frame id (er_model e) (budgets m !! id) m ck k eq_refl) as Hf.
    pose proof (check_budget_limiters id (er_model e) (budgets m !! id) m ck k) as Hl.
    destruct (check_budget id _ _ m ck k) as [[r m1] j]. simpl in Hf, Hl. intros [= <- <-].
    split; [done|]. split; [apply decided_fresh|]. rewrite Hl. eauto.
Qed.

Lemma turn_frame p m ck k p' m' :
  minv cfg m -> fst (turn p m ck k) = (p', m') -> only_at (phase_id p) m m'.
Proof using.
  intros Hm. destruct p as [id e n|id r|id r c|id r| | |]; cbn [turn phase_id]; unfold leave, ReleaseConcurrent, tbind;
    rewrite ?(get_limiter cfg m _ ck k Hm); try by (intros [= <- <-]; apply only_at_refl).
  - intros Ht. by apply (checking_turn id e n m ck k p' m' Hm).
  - destruct (rateLimiters m !! id) as [l|] eqn:El; [|intros [= <- <-]; apply only_at_refl].
    destruct (concurrent l); intros [= <- <-]; [apply only_at_set_limiter; eauto|apply only_at_refl].
  - destruct (rateLimiters m !! id) as [l|] eqn:El; [|intros [= <- <-]; apply only_at_refl].
    destruct (concurrent l); [|intros [= <- <-]; apply only_at_refl].
    destruct (_ <? c); intros [= <- <-]; [apply only_at_set_limiter; eauto|apply only_at_refl].
  - destruct (rateLimiters m !! id) as [l|] eqn:El; intros [= <- <-];
      [apply only_at_set_limiter; eauto|apply only_at_refl].
Qed.

(** A turn stays with its key and asks for no new one. *)
Lemma turn_elsewhere p m ck k p' m' id max :
  minv cfg m -> phase_id p <> id -> fst (turn p m ck k) = (p', m') ->
  taking id p' = taking id p /\ admitted id max p' = admitted id max p.
Proof using.
  intros Hm Hid Ht. pose proof (proj2 (String.eqb_neq (phase_id p) id) Hid) as Hne.
  destruct p as [k0 e n|k0 r|k0 r c|k0 r| | |]; simpl in Hne, Hid;
    try (by (injection Ht as <- <-)).
  - destruct (checking_turn k0 e n m ck k p' m' Hm Ht) as (_ & (H1 & H2 & _) & _). by rewrite H1, H2.
  - revert Ht. cbn [turn]. unfold tbind. rewrite (get_limiter cfg m _ ck k Hm).
    destruct (rateLimiters m !! k0) as [l|]; [destruct (concurrent l)|];
      intros [= <- <-]; simpl; by rewrite Hne.
  - revert Ht. cbn [turn]. unfold tbind. rewrite (get_limiter cfg m _ ck k Hm).
    destruct (rateLimiters m !! k0) as [l|]; [destruct (concurrent l); [destruct (_ <? c)|]|];
      intros [= <- <-]; simpl; by rewrite Hne.
  - revert Ht. cbn [turn]. unfold leave, ReleaseConcurrent, tbind. rewrite (get_limiter cfg m _ ck k Hm).
    destruct (rateLimiters m !! k0) as [l|]; intros [= <- <-]; simpl; by rewrite Hne.
Qed.

Lemma turn_allowed p m ck k p' m' :
  minv cfg m -> allowed p -> fst (turn p m ck k) = (p', m') -> allowed p'.
Proof using.
  intros Hm Hal Ht. destruct p as [id e n|id r|id r c|id r| | |]; try (by injection Ht as <- <-).
  - by apply (checking_turn id e n m ck k p' m' Hm Ht).
  - revert Ht. cbn [turn]. unfold tbind. rewrite (get_limiter cfg m _ ck k Hm).
    destruct (rateLimiters m !! id) as [l|]; [destruct (concurrent l)|]; by intros [= <- <-].
  - revert Ht. cbn [turn]. unfold tbind. rewrite (get_limiter cfg m _ ck k Hm).
    destruct (rateLimiters m !! id) as [l|]; [destruct (concurrent l); [destruct (_ <? c)|]|]; by intros [= <- <-].
  - revert Ht. cbn [turn]. unfold leave, ReleaseConcurrent, tbind. rewrite (get_limiter cfg m _ ck k Hm).
    by destruct (rateLimiters m !! id) as [l|]; intros [= <- <-].
Qed.

(** The counter of a key and the phase of a request through one of its turns. *)
Lemma turn_counter p m ck k p' m' l max n :
  minv cfg m -> rateLimiters m !! phase_id p = Some l ->
  concurrent l = Some (mkConcurrentLimiter max n) -> 0 <= n < max_int64 ->
  (taking (phase_id p) p = true -> 0 < n) ->
  fst (turn p m ck k) = (p', m') ->
  let id := phase_id p in
  (exists l', rateLimiters m' !! id = Some l' /\
     concurrent l' = Some (mkConcurrentLimiter max (n - Z.b2z (taking id p) + Z.b2z (taking id p')))) /\
  (admitted id max p' = true -> admitted id max p = true \/ n < max).
Proof using.
  intros Hm Hl Hc Hn Htk Ht.
  assert (Hsame : p' = p -> m' = m -> (exists l', rateLimiters m' !! phase_id p = Some l' /\
     concurrent l' = Some (mkConcurrentLimiter max (n - Z.b2z (taking (phase_id p) p) + Z.b2z (taking (phase_id p) p')))) /\
     (admitted (phase_id p) max p' = true -> admitted (phase_id p) max p = true \/ n < max)).
  { intros -> ->. split; [exists l; split; [done|]; rewrite Hc; f_equal; f_equal; lia|]. by left. }
  revert Ht. destruct p as [id e j|id r|id r c|id r| | |]; cbn [phase_id] in *; cbv zeta;
    try (by intros [= <- <-]; apply Hsame).
  - intros Ht. destruct (checking_turn id e j m ck k p' m' Hm Ht) as (_ & (H1 & H2 & _) & H4).
    rewrite H1, H2. simpl. split; [|done].
    destruct (proj2 (mi_limiters cfg m' (only_at_minv cfg _ m m' (turn_frame _ m ck k p' m' Hm Ht) Hm) id)) as [l' Hl'].
    { apply (mi_limiters cfg m Hm). eauto. }
    exists l'. split; [done|]. destruct (H4 l' Hl') as (l0 & Hl0 & ->). rewrite Hl in Hl0. injection Hl0 as <-.
    rewrite Hc. f_equal. f_equal. lia.
  - cbn [turn]. unfold tbind. rewrite (get_limiter cfg m id ck k Hm), Hl, Hc. cbn. intros [= <- <-].
    cbn. rewrite String.eqb_refl. unfold add64. rewrite wrap64_id by lia64. split.
    + eexists. rewrite lookup_insert_eq. split; [done|]. cbn. f_equal. f_equal. lia.
    + intros Hle%Z.leb_le. right. lia.
  - cbn [turn]. unfold tbind. rewrite (get_limiter cfg m id ck k Hm), Hl, Hc. cbn [Concurrent.limit].
    cbn in Htk. rewrite String.eqb_refl in Htk. specialize (Htk eq_refl).
    destruct (Z.ltb_spec max c); intros [= <- <-]; cbn; rewrite String.eqb_refl.
    + unfold add64. rewrite wrap64_id by lia64. split; [|done].
      eexists. rewrite lookup_insert_eq. split; [done|]. cbn. f_equal. f_equal. lia.
    + split; [|intros _; left; simpl; by apply Z.leb_le].
      exists l. split; [done|]. rewrite Hc. f_equal. f_equal. simpl. lia.
  - cbn [turn]. unfold leave, ReleaseConcurrent, tbind. rewrite (get_limiter cfg m id ck k Hm), Hl. simpl.
    intros [= <- <-]. cbn in Htk. rewrite String.eqb_refl in *. specialize (Htk eq_refl).
    unfold Limiter.ReleaseConcurrent. rewrite Hc. cbn. unfold Release, AddCurrent, add64. cbn.
    rewrite wrap64_id by lia64. split; [|done].
    eexists. rewrite lookup_insert_eq. split; [done|]. cbn. f_equal. f_equal. lia.
Qed.
End flight.

(** In every interleaving the counter of a key with a limit is the number of
    requests between their increment and their decrement. *)
Record flight_inv {S} `{Backend S} (cfg : LimitsManager.Config S) (m : Manager S) (ps : list Phase) : Prop := {
  fi_minv : minv cfg m;
  fi_active : countb active ps < max_int64;
  fi_allowed : Forall allowed ps;
  fi_slots : forall id c l, RateLimits cfg !! id = Some c -> rateLimiters m !! id = Some l ->
    0 < MaxConcurrent c < max_int64 ->
    concurrent l = Some (mkConcurrentLimiter (MaxConcurrent c) (countb (taking id) ps)) /\
    countb (admitted id (MaxConcurrent c)) ps <= MaxConcurrent c;
}.

Section flights.
Context {S : Type} `{Backend S} `{FixedFmt} (cfg : LimitsManager.Config S).

Lemma turn_active p (m : Manager S) ck k p' m' : fst (turn p m ck k) = (p', m') -> active p = false -> active p' = false.
Proof using. intros Ht Ha. destruct p; try done; by injection Ht as <- <-. Qed.

Lemma flight_turn m ps i p ck k p' m' :
  flight_inv cfg m ps -> ps !! i = Some p -> fst (turn p m ck k) = (p', m') -> flight_inv cfg m' (<[i := p']> ps).
Proof using.
  intros [Hm Ha Hal Hs] Hp Ht. pose proof (turn_frame cfg p m ck k p' m' Hm Ht) as Hf.
  pose proof (proj1 (Forall_lookup _ _) Hal i p Hp) as Hpal.
  assert (Htk : forall id, 0 <= countb (taking id) ps < max_int64).
  { intros id. pose proof (countb_nonneg (taking id) ps). pose proof (taking_active id ps). lia. }
  assert (Hpos : taking (phase_id p) p = true -> 0 < countb (taking (phase_id p)) ps).
  { intros Hx. pose proof (countb_pos (taking (phase_id p)) ps i p Hp Hx). lia. }
  constructor.
  - by eapply only_at_minv.
  - rewrite (countb_insert active ps i p p' Hp). pose proof (turn_active p m ck k p' m' Ht) as Hx.
    destruct (active p), (active p'); simpl in *; lia || by specialize (Hx eq_refl).
  - apply Forall_insert; [done|]. by apply (turn_allowed cfg p m ck k p' m' Hm Hpal).
  - intros id c l' Hc Hl' Hmax. rewrite !(countb_insert _ ps i p p' Hp).
    destruct (decide (phase_id p = id)) as [<-|Hne].
    + destruct (proj2 (mi_limiters cfg m Hm (phase_id p))) as [l Hl]; [eauto|].
      destruct (Hs _ c l Hc Hl Hmax) as [Hcl Hadm].
      destruct (turn_counter cfg p m ck k p' m' l (MaxConcurrent c) _ Hm Hl Hcl (Htk _) Hpos Ht)
        as ((l1 & Hl1 & Hcc) & Hadm').
      rewrite Hl' in Hl1. injection Hl1 as <-. split; [done|].
      pose proof (admitted_taking (phase_id p) (MaxConcurrent c) ps).
      destruct (admitted _ _ p'); [|destruct (admitted _ _ p); simpl; lia].
      destruct (Hadm' eq_refl) as [->|Hlt]; simpl; [lia|]. destruct (admitted _ _ p); simpl; lia.
    + rewrite (oa_limiters _ _ _ Hf id (not_eq_sym Hne)) in Hl'.
      destruct (turn_elsewhere cfg p m ck k p' m' id (MaxConcurrent c) Hm Hne Ht) as [-> ->].
      destruct (Hs id c l' Hc Hl' Hmax) as [-> Hadm]. split; [do 2 f_equal; lia|lia].
Qed.

Lemma mw_flight m ps : mw cfg m ps -> flight_inv cfg m ps.
Proof using.
  induction 1 as [R mem ck k|m ps r e _ [Hm Ha Hal Hs] Hbound|m ps i p ck k p' m' _ IH Hp Ht].
  - constructor; [apply new_manager_inv|simpl; lia64|done|].
    intros id c l Hc Hl Hmax. simpl. split; [|lia].
    pose proof (exec_slots cfg _ _ (exec_new cfg R mem ck k)) as [_ Hi].
    destruct (Hi id c l Hc Hl Hmax) as [-> _]. done.
  - destruct (arrive_fresh r e) as (H1 & H2 & H3). constructor; [done|..].
    + rewrite countb_snoc. destruct (active _); simpl; lia.
    + apply Forall_app. split; [done|]. by constructor.
    + intros id c l Hc Hl Hmax. rewrite !countb_snoc, H1, H2. simpl. rewrite !Z.add_0_r. by apply Hs.
  - by eapply flight_turn.
Qed.

(** ** A request that nothing interrupts *)

Lemma turns_more n1 n2 p (m : Manager S) ck k p1 m1 j :
  turns n1 p m ck k = ((p1, m1), j) -> turns (n1 + n2) p m ck k = turns n2 p1 m1 ck j.
Proof using.
  revert p m k. induction n1 as [|n1 IH]; intros p m k; [by intros [= -> -> ->]|]. cbn [turns Nat.add]. unfold tbind.
  destruct (turn p m ck k) as [[p2 m2] i]. apply IH.
Qed.

Lemma turns_one p (m : Manager S) ck k : turns 1 p m ck k = turn p m ck k.
Proof using. cbn [turns]. unfold tbind, tret. by destruct (turn p m ck k) as [[p1 m1] j]. Qed.

Lemma turns_step n p (m : Manager S) ck k p1 m1 j x :
  turns n p m ck k = ((p1, m1), j) -> turn p1 m1 ck j = x -> turns (n + 1) p m ck k = x.
Proof using. intros Hn <-. by rewrite (turns_more n 1 p m ck k p1 m1 j Hn), turns_one. Qed.

Lemma set_limiter_twice (m : Manager S) id l l' : set_limiter (set_limiter m id l) id l' = set_limiter m id l'.
Proof using. unfold set_limiter. simpl. by rewrite insert_insert_eq. Qed.

Lemma turn_check id e n (m : Manager S) l ck k :
  (n < 5)%nat -> rateLimiters m !! id = Some l ->
  turn (Checking id e n) m ck k =
  let '((v, l'), j) := rate_check n (estimatedTokens e) l ck k in
  ((match v with
    | None => Checking id e (n + 1)
    | Some v => decided id (rate_violation m id (er_model e) v)
    end, set_limiter m id l'), j).
Proof using.
  intros Hn Hl. cbn [turn]. rewrite (proj2 (Nat.ltb_lt n 5) Hn). unfold tbind, getRateLimiter. rewrite Hl. unfold tret.
  by destruct (rate_check n _ l ck k) as [[[v|] l'] j].
Qed.


Lemma check_bucket_refuses reason reset b ck k v b' j :
  check_bucket reason reset b ck k = ((Some v, b'), j) -> Limiter.Allowed v = false.
Proof using.
  unfold check_bucket, tbind, now, tret. destruct b as [tb|]; [|done].
  destruct (TokenBucket.Take _ _ _) as [[] ?]; [done|].
  destruct (TokenBucket.TimeUntilAvailable _ _ _). destruct (TokenBucket.Remaining _ _). by intros [= <- _ _].
Qed.

Lemma check_tokens_refuses reason limit dur est w ck k v w' j :
  check_tokens reason limit dur est w ck k = ((Some v, w'), j) -> Limiter.Allowed v = false.
Proof using.
  unfold check_tokens, tbind, now, tret. destruct w as [sw|]; [|done].
  destruct (SlidingWindow.Sum _ _). destruct (_ <? _); [|done]. by intros [= <- _ _].
Qed.

#[local] Arguments turns : simpl never.

(** [T] says what the turns so far came to; one more check of the limiter. *)
Ltac next_check T Hlook n :=
  let H := fresh in
  pose proof (turns_step _ _ _ _ _ _ _ _ _ T eq_refl) as H; clear T; rename H into T;
  rewrite (turn_check _ _ n _ _ _ _ ltac:(lia) (Hlook _)) in T;
  unfold rate_check, tbind, tret in T; revert T; simpl;
  match goal with
  | |- context [check_bucket ?a ?b ?c ?ck ?j] =>
      let E := fresh in
      destruct (check_bucket a b c ck j) as [[[v|] ?] ?] eqn:E; intros T;
      [rewrite (check_bucket_refuses _ _ _ _ _ _ _ _ E)|]
  | |- context [check_tokens ?a ?b ?c ?d ?e ?ck ?j] =>
      let E := fresh in
      destruct (check_tokens a b c d e ck j) as [[[v|] ?] ?] eqn:E; intros T;
      [rewrite (check_tokens_refuses _ _ _ _ _ _ _ _ _ _ E)|]
  end;
  rewrite ?set_limiter_twice in T; [by eexists|].

(** The buckets and windows of a limiter, in the turns and in [CheckRequest] and
    [CheckTokens]. *)
Lemma rates_turns id e (m : Manager S) l ck k :
  rateLimiters m !! id = Some l ->
  exists n, turns n (Checking id e 0) m ck k =
    let '((early, m'), j) := check_rates id (estimatedTokens e) (er_model e) (Some l) m ck k in
    ((match early with Some r => decided id r | None => Checking id e 5 end, m'), j).
Proof using.
  intros Hl.
  assert (Hlook : forall l', rateLimiters (set_limiter m id l') !! id = Some l') by (intros; apply lookup_insert_eq).
  unfold check_rates, CheckRequest, CheckTokens, tbind, tret.
  pose proof (turns_step 0 (Checking id e 0) m ck k _ _ _ _ eq_refl (turn_check id e 0 m l ck k ltac:(lia) Hl)) as T.
  unfold rate_check, tbind, tret in T. revert T.
  destruct (check_bucket _ _ (reqPerSecond l) ck k) as [[[v|] s] j0] eqn:E0; intros T.
  { rewrite (check_bucket_refuses _ _ _ _ _ _ _ _ E0). by eexists. }
  next_check T Hlook 1%nat. next_check T Hlook 2%nat. next_check T Hlook 3%nat. next_check T Hlook 4%nat.
  by eexists.
Qed.

Lemma budget_turn id e (m : Manager S) ck k :
  minv cfg m ->
  turn (Checking id e 5) m ck k =
    let '((r, m'), j) := check_budget id (er_model e) (budgets m !! id) m ck k in ((decided id r, m'), j).
Proof using.
  intros Hm. cbn [turn]. rewrite Nat.ltb_irrefl. rewrite (get_tracker cfg m id Hm). unfold tbind, tret.
  by destruct (check_budget id _ _ m ck k) as [[r m'] j].
Qed.

Lemma check_limits_turns id e (m : Manager S) cost ck k :
  minv cfg m ->
  exists n, turns n (Checking id e 0) m ck k =
    let '((r, m'), j) := CheckLimits id (estimatedTokens e) cost (er_model e) m ck k in ((decided id r, m'), j).
Proof using.
  intros Hm. unfold CheckLimits, tbind. rewrite (get_limiter cfg m id ck k Hm), (get_tracker cfg m id Hm).
  destruct (rateLimiters m !! id) as [l|] eqn:El.
  - destruct (rates_turns id e m l ck k El) as [n Hn].
    destruct (check_rates_frame id (estimatedTokens e) (er_model e) (Some l) m ck k El) as [Hf Hb].
    destruct (check_rates id _ _ (Some l) m ck k) as [[[r|] m1] j]; [by exists n|]. simpl in Hf, Hb.
    exists (n + 1)%nat. rewrite <- Hb.
    apply (turns_step n _ m ck k _ _ _ _ Hn). apply budget_turn. by eapply only_at_minv.
  - exists 2%nat. refine (turns_step 1 _ m ck k (Checking id e 5) m k _ _ (budget_turn id e m ck k Hm)).
    rewrite turns_one. cbn [turn]. change (0 <? 5)%nat with true. unfold tbind. by rewrite (get_limiter cfg m id ck k Hm), El.
Qed.

Lemma acquire_turns id r (m : Manager S) ck k :
  minv cfg m ->
  let a := AcquireConcurrent id m ck k in
  exists n p, turns n (Admit id r) m ck k = ((p, snd (fst a)), snd a) /\
    p = if fst (fst a) : bool then Serving id r
        else Answered 429 (set_header "X-RateLimit-Limit" "concurrent" (setLimitHeaders r []))
               "Too many concurrent requests".
Proof using.
  intros Hm. unfold AcquireConcurrent, tbind. rewrite (get_limiter cfg m id ck k Hm).
  destruct (rateLimiters m !! id) as [l|] eqn:El.
  2: { exists 1%nat. eexists. split; [|done]. rewrite turns_one. cbn [turn]. unfold tbind.
       by rewrite (get_limiter cfg m id ck k Hm), El. }
  assert (T : turns 0 (Admit id r) m ck k = ((Admit id r, m), k)) by done.
  assert (T1 : turns 1 (Admit id r) m ck k = turn (Admit id r) m ck k) by apply turns_one.
  revert T1. cbn [turn]. unfold tbind at 1. rewrite (get_limiter cfg m id ck k Hm), El.
  unfold Limiter.AcquireConcurrent, Concurrent.Acquire. destruct (concurrent l) as [cl|] eqn:Ec; intros T1.
  2: { exists 1%nat. eexists. split; [|done]. rewrite T1. unfold tret, set_limiter. simpl. rewrite insert_id by done.
       by destruct m. }
  unfold AddCurrent in T1 |- *. set (c := current cl +64 1) in *. simpl. simpl in T1.
  pose proof (turns_step 1 _ m ck k _ _ _ _ T1 eq_refl) as T2.
  revert T2. cbn [turn]. unfold tbind at 1, getRateLimiter at 1. simpl (rateLimiters (set_limiter _ _ _)).
  rewrite lookup_insert_eq. cbn. intros T2. exists 2%nat.
  destruct (Concurrent.limit cl <? c); eexists; (split; [|done]); rewrite T2; [|done].
  by rewrite set_limiter_twice.
Qed.

(** The turns of a request that nothing interrupts are its way in. *)
Lemma turns_enter r e (m : Manager S) ck k :
  minv cfg m ->
  exists n p, turns n (arrive r e) m ck k = ((p, snd (fst (enter r e m ck k))), snd (enter r e m ck k)) /\
    outcome p = Some (fst (fst (enter r e m ck k))).
Proof using.
  intros Hm. unfold enter, arrive. set (id := extractIdentifier r). set (e' := default default_enriched e).
  destruct (String.eqb id ""); [by exists 0%nat, Unlimited|]. unfold tbind at 1 3 5.
  destruct (check_limits_turns id e' m (estimatedCost e') ck k Hm) as [n1 T].
  pose proof (check_limits_frame cfg m id (estimatedTokens e') (estimatedCost e') (er_model e') ck k Hm) as Hf.
  destruct (CheckLimits id _ _ _ m ck k) as [[res m1] j]. simpl in Hf. unfold decided in T.
  destruct (negb (LimitsManager.Allowed res)); [by eexists n1, _|]. unfold tbind.
  destruct (acquire_turns id res m1 ck j (only_at_minv cfg id m m1 Hf Hm)) as (n2 & p & T2 & Hp).
  exists (n1 + n2)%nat, p. rewrite (turns_more n1 n2 _ m ck k _ _ _ T), T2.
  destruct (AcquireConcurrent id m1 ck j) as [[[] m2] i]; simpl in *; by subst p.
Qed.
End flights.

(** C33: with a validated configuration whose rate limits are enabled, an API key
    with a limit on concurrent requests never has more requests being served than
    that limit, in any interleaving of the operations of arriving, running and
    finishing requests on the shared limiters (fewer than [2^63 - 1] at once).
    Only requests that [CheckLimits] allowed get that far (which includes, under
    the actions allow, alert and downgrade, requests that violate a rate).  Such a
    request is served when at its increment fewer requests of its key than the
    limit were between their increment and their decrement, and is answered with
    429 otherwise; so it is answered with 429 whenever the limit is being served.
    A request that nothing interrupts is treated as by [CheckLimits] followed by
    [AcquireConcurrent]. *)
Theorem served_within_limit {S} `{Backend S} `{FixedFmt} (R : MapRange) (c : LimitsConfig) (s : S) m ps id rl :
  limits_valid c -> ra_Enabled (li_RateLimits c) = true ->
  ra_ByAPIKey (li_RateLimits c) !! id = Some rl -> 0 < rl_MaxConcurrent rl ->
  mw (manager_config c s) m ps ->
  countb (serving id) ps <= rl_MaxConcurrent rl /\
  countb (serving id) ps <= countb (taking id) ps /\
  (forall i p, ps !! i = Some p -> allowed p) /\
  (forall i r ck k, ps !! i = Some (Admit id r) ->
     fst (fst (turn (Admit id r) m ck k)) = Counted id r (countb (taking id) ps + 1)) /\
  (forall i r n ck k, ps !! i = Some (Counted id r (n + 1)) ->
     fst (fst (turn (Counted id r (n + 1)) m ck k)) =
     if n <? rl_MaxConcurrent rl then Serving id r
     else Answered 429 (set_header "X-RateLimit-Limit" "concurrent" (setLimitHeaders r []))
            "Too many concurrent requests") /\
  (forall r e ck k, exists n p,
     turns n (arrive r e) m ck k = ((p, snd (fst (enter r e m ck k))), snd (enter r e m ck k)) /\
     outcome p = Some (fst (fst (enter r e m ck k)))).
Proof.
  intros Hv Hen Hrl Hpos Hmw. set (cfg := manager_config c s) in *.
  destruct (mw_flight cfg m ps Hmw) as [Hm Hact Hall Hs].
  assert (Hc : LimitsManager.RateLimits cfg !! id = Some (rate_config rl)).
  { simpl. by rewrite convert_map_fmap, lookup_fmap, Hrl. }
  assert (Hmax : 0 < MaxConcurrent (rate_config rl) < max_int64).
  { destruct (lvd_rates c Hv Hen) as [Hr _]. destruct (Hr id rl Hrl) as (_&_&_&_&_&Hb).
    unfold within in Hb. simpl. lia64. }
  destruct (proj2 (mi_limiters cfg m Hm id)) as [l Hl]; [eauto|].
  destruct (Hs id _ l Hc Hl Hmax) as [Hcl Hadm]. simpl (MaxConcurrent _) in *.
  pose proof (serving_admitted id (rl_MaxConcurrent rl) ps). pose proof (admitted_taking id (rl_MaxConcurrent rl) ps).
  pose proof (taking_active id ps). pose proof (countb_nonneg (taking id) ps).
  split; [lia|]. split; [lia|]. split; [by apply Forall_lookup|]. split; [|split].
  - intros i r ck k _. cbn [turn]. unfold tbind. rewrite (get_limiter cfg m id ck k Hm), Hl, Hcl. cbn.
    unfold add64. by rewrite wrap64_id by lia64.
  - intros i r n ck k _. cbn [turn]. unfold tbind. rewrite (get_limiter cfg m id ck k Hm), Hl, Hcl. cbn [Concurrent.limit].
    destruct (Z.ltb_spec (rl_MaxConcurrent rl) (n + 1)), (Z.ltb_spec n (rl_MaxConcurrent rl)); done || lia.
  - intros r e ck k. by apply (turns_enter cfg).
Qed.

(** The manager built from a validated configuration is where [mw] starts. *)
Lemma from_config_starts {S} `{Backend S} `{FixedFmt} `{R : MapRange} (bk : Backends S) c ck i :
  storage_valid (li_Storage c) -> (forall p, exists s, NewSQLiteBackend bk p = Ok s) ->
  exists s m, fst (NewLimitsManagerFromConfig bk c ck i) = Ok m /\ mw (manager_config c s) m [].
Proof.
  intros Hv Hs. destruct (storage_backend_valid bk (li_Storage c) Hv Hs) as [s Hst]. exists s.
  unfold NewLimitsManagerFromConfig, tbind. rewrite Hst.
  pose proof (mw_new (manager_config c s) R (NewMemory bk) ck i) as Hn.
  destruct (NewManager _ _ ck i) as [m j]. exists m. by split.
Qed.

(** ** Budgets *)

Lemma sum_unused (n : nat) : sum_buckets (replicate n (Ring.empty_bucket fzero)) = fzero.
Proof. unfold sum_buckets. induction n; simpl; done. Qed.

Lemma prune_unused w t (n : nat) :
  Ring.prune fzero w t (replicate n (Ring.empty_bucket fzero)) = replicate n (Ring.empty_bucket fzero).
Proof. unfold Ring.prune. induction n; simpl; [done|]. by f_equal. Qed.

Lemma new_window_sum w s rw t : NewRollingWindow w s = Some rw -> Sum t rw = (fzero, rw).
Proof.
  unfold NewRollingWindow. destruct (s =? 0); [done|]. destruct (_ <? 0); [done|]. intros [= <-].
  unfold Sum, pruneLocked. simpl. by rewrite prune_unused, sum_unused.
Qed.

(** Zero over a positive limit is below every positive threshold and limit. *)
Lemma zero_spent th limit :
  flt fzero limit = true ->
  flt limit fzero = false /\ flt fzero th && fle th (fdiv fzero limit) = false.
Proof. destruct limit as [[]|[]| |[] ? ?]; try done; intros _; (split; [done|]); by destruct th as [[]|[]| |[] ? ?]. Qed.

Lemma check_new_window th limit reason dur w s (b : bool) ck i :
  exists j, check_window th limit reason dur (if b then NewRollingWindow w s else None) ck i =
    ((None, if b then NewRollingWindow w s else None), j).
Proof.
  unfold check_window, tbind, now, tret. destruct b; [|eauto].
  destruct (NewRollingWindow w s) as [rw|] eqn:Hw; [|eauto].
  destruct (flt fzero limit) eqn:Hl; [|eauto].
  rewrite (new_window_sum w s rw _ Hw). destruct (zero_spent th limit Hl) as [-> ->]. eauto.
Qed.

(** A tracker that nothing was added to always passes, and stays as it is. *)
Lemma check_new_tracker c ck i : exists j, Check (NewTracker c) ck i = ((status_allowed, NewTracker c), j).
Proof.
  unfold Check, tbind. simpl.
  destruct (check_new_window (AlertThreshold c) (Hourly c) "hourly budget limit exceeded" Hour Hour Minute
    (flt fzero (Hourly c)) ck i) as [j ->].
  destruct (check_new_window (AlertThreshold c) (Daily c) "daily budget limit exceeded" day day Hour
    (flt fzero (Daily c)) ck j) as [k ->].
  destruct (check_new_window (AlertThreshold c) (Monthly c) "monthly budget limit exceeded" month month day
    (flt fzero (Monthly c)) ck k) as [n ->].
  eauto.
Qed.

Section budgets.
Context {S : Type} `{Backend S} `{FixedFmt} (cfg : LimitsManager.Config S).

Definition untouched (m : Manager S) : Prop :=
  minv cfg m /\ forall id, budgets m !! id = NewTracker <$> (LimitsManager.Budgets cfg !! id).

Lemma untouched_frame id m m' : untouched m -> only_at id m m' -> budgets m' !! id = budgets m !! id -> untouched m'.
Proof.
  intros [Hm Hb] Hf Hid. split; [by eapply only_at_minv|]. intros k.
  destruct (decide (k = id)) as [->|Hne]; [by rewrite Hid|]. by rewrite (oa_trackers _ _ _ Hf k Hne).
Qed.

Lemma turn_untouched p m ck k p' m' : untouched m -> fst (turn p m ck k) = (p', m') -> untouched m'.
Proof.
  intros Hu Ht. apply (untouched_frame (phase_id p) m m' Hu (turn_frame cfg p m ck k p' m' (proj1 Hu) Ht)).
  revert Ht. destruct Hu as [Hm Hb]. destruct p as [id e n|id r|id r c|id r| | |]; cbn [turn phase_id];
    unfold leave, ReleaseConcurrent, tbind; rewrite ?(get_limiter cfg m _ ck k Hm); try (intros Hr; by injection Hr as _ <-).
  - destruct (n <? 5)%nat.
    + rewrite (get_limiter cfg m _ ck k Hm). destruct (rateLimiters m !! id) as [l|]; [|by intros [= _ <-]].
      destruct (rate_check n _ l ck k) as [[[v|] l1] j]; by intros [= _ <-].
    + rewrite (get_tracker cfg m id Hm). unfold check_budget, tbind. rewrite Hb.
      destruct (LimitsManager.Budgets cfg !! id) as [c|] eqn:Ec; simpl.
      * destruct (check_new_tracker c ck k) as [j ->]. intros [= _ <-]. simpl. by rewrite lookup_insert_eq.
      * intros [= _ <-]. by rewrite Hb, Ec.
  - destruct (rateLimiters m !! id) as [l|]; [destruct (concurrent l)|]; by intros [= _ <-].
  - destruct (rateLimiters m !! id) as [l|]; [destruct (concurrent l); [destruct (_ <? c)|]|]; by intros [= _ <-].
  - destruct (rateLimiters m !! id) as [l|]; by intros [= _ <-].
Qed.

Lemma mw_untouched m ps : mw cfg m ps -> untouched m.
Proof.
  induction 1 as [R mem ck k|m ps r e _ Hu _|m ps i p ck k p' m' _ Hu _ Ht]; [|done|by eapply turn_untouched].
  split; [apply new_manager_inv|]. intros id. unfold NewManager, tbind.
  destruct (init_limiters _ _ ck k) as [rls j]. simpl.
  by rewrite init_trackers_spec, range_list_to_map by apply range_keys_NoDup.
Qed.
End budgets.

(** The middleware never records what a request used: behind it no request is
    ever rejected because of a budget, and no budget alert is raised, however
    much has been spent.  The decision is that of a manager without budgets. *)
Theorem budgets_never_enforced {S} `{Backend S} `{FixedFmt} (cfg : LimitsManager.Config S) m ps id est ck i :
  mw cfg m ps ->
  (forall t, budgets m !! id = Some t -> fst (fst (Check t ck i)) = status_allowed) /\
  fst (violated est (rateLimiters m !! id) (budgets m !! id) ck i) =
  fst (violated est (rateLimiters m !! id) None ck i).
Proof.
  intros Hm. destruct (mw_untouched cfg m ps Hm) as [_ Hb].
  assert (Ht : forall t k, budgets m !! id = Some t -> fst (fst (Check t ck k)) = status_allowed).
  { intros t k. rewrite Hb. destruct (LimitsManager.Budgets cfg !! id) as [c|]; [|done]. intros [= <-].
    by destruct (check_new_tracker c ck k) as [? ->]. }
  split; [eauto|]. unfold violated, tbind.
  destruct (budgets m !! id) as [t|]; [|done].
  assert (Hend : forall k, fst (Check t ck k).1 = status_allowed) by (intros k; by apply Ht).
  destruct (rateLimiters m !! id) as [l|].
  2: { simpl. specialize (Hend i). destruct (Check t ck i) as [[st t'] n]. simpl in *. by rewrite Hend. }
  destruct (CheckRequest l ck i) as [[r1 l1] j1]. destruct (negb (Limiter.Allowed r1)); [done|].
  destruct (CheckTokens est l1 ck j1) as [[r2 l2] j2]. simpl. destruct (negb (Limiter.Allowed r2)); [done|].
  specialize (Hend j2). destruct (Check t ck j2) as [[st t'] n]. simpl in *. by rewrite Hend.
Qed.

(** ** A key with one slot *)

Definition one_slot : LimitsConfig :=
  mkLimitsConfig (mkBudgetsConfig true (flit 8 10) {[ "k" := mkBudgetLimits (of_int 1) fzero fzero ]} ∅ ∅)
    (mkRateLimitsConfig true {[ "k" := mkRateLimits 0 0 0 0 0 1 ]} ∅ ∅) (mkEnforcementConfig "block" 0 0 ∅)
    (mkLimitsStorageConfig "memory" (mkLimitsSQLiteConfig "" 0) (mkLimitsMemoryConfig 10 0)).

Definition k_request : HttpRequest :=
  mkHttpRequest "POST" "/" (fun h => if String.eqb h "Authorization" then "Bearer k" else "") "" "" (Ok "").

Definition no_fixed : FixedFmt := {| fixed2 _ := "" |}.

Definition one_slot_config : LimitsManager.Config MemoryBackend :=
  manager_config (H := some_range) one_slot (fst NewMemoryBackend).

Definition one_slot_start : Manager MemoryBackend :=
  fst (NewManager (H := some_range) (fst NewMemoryBackend) one_slot_config demo_clock 0%nat).

Definition k_phase : Phase := arrive k_request None.

(** The first request of the key is being served; the second is past its
    increment.  [run_turn i] is a turn of the [i]-th request. *)
Definition run_turn (i : nat) (st : Manager MemoryBackend * list Phase) : Manager MemoryBackend * list Phase :=
  let '(m, ps) := st in
  match ps !! i with
  | Some p =>
      let '(p', m') := fst (turn (H0 := no_fixed) p m demo_clock 0%nat) in
      (m', <[i := p']> ps)
  | None => st
  end.

Definition one_slot_run : Manager MemoryBackend * list Phase :=
  foldr run_turn (one_slot_start, [k_phase; k_phase]) (replicate 7 1%nat ++ replicate 8 0%nat).

Example one_slot_phases :
  (fun p => match p with Serving id _ => Some (id, 0) | Counted id _ c => Some (id, c) | _ => None end)
    <$> snd one_slot_run = [Some ("k", 0); Some ("k", 2)].
Proof. vm_compute. reflexivity. Qed.

Lemma one_slot_valid : limits_valid one_slot.
Proof.
  constructor.
  - intros _. split; [split; reflexivity|]. split; [|split; apply map_Forall_empty].
    intros k v Hk. simpl in Hk. apply lookup_singleton_Some in Hk as [_ <-]. repeat split; vm_compute; congruence.
  - intros _. split; [|split; apply map_Forall_empty].
    intros k v Hk. simpl in Hk. apply lookup_singleton_Some in Hk as [_ <-].
    unfold rates_valid, within. simpl. lia.
  - split; [apply list_elem_of_In; simpl; auto|]. split; [done|]. split; [done|].
    intros [a (b & Hb & _)%tc_first]. change ((∅ : gmap string string) !! a = Some b) in Hb.
    by rewrite lookup_empty in Hb.
  - left. done.
Qed.

Lemma run_turn_mw i st :
  let b := @memory_backend some_range in
  mw (H0 := no_fixed) one_slot_config (fst st) (snd st) ->
  mw (H0 := no_fixed) one_slot_config (fst (run_turn i st)) (snd (run_turn i st)).
Proof.
  intros b. destruct st as [m ps]. simpl. intros Hmw. destruct (ps !! i) as [p|] eqn:Hp; [|done].
  destruct (fst (turn (H0 := no_fixed) p m demo_clock 0%nat)) as [p' m'] eqn:Ht. by eapply mw_turn.
Qed.

Lemma one_slot_mw :
  let b := @memory_backend some_range in
  mw (H0 := no_fixed) one_slot_config (fst one_slot_run) (snd one_slot_run).
Proof.
  intros b. unfold one_slot_run. induction (replicate 7 1%nat ++ replicate 8 0%nat) as [|i l IH].
  - apply (mw_arrive (H0 := no_fixed) one_slot_config one_slot_start [k_phase] k_request None); [|vm_compute; reflexivity].
    apply (mw_arrive (H0 := no_fixed) one_slot_config one_slot_start [] k_request None); [|vm_compute; reflexivity].
    apply (mw_new one_slot_config some_range).
  - cbn [foldr]. by apply run_turn_mw.
Qed.

Lemma served_within_limit_witness :
  let b := @memory_backend some_range in
  let ps := snd one_slot_run in
  countb (serving "k") ps = 1 /\
  exists r body, ps !! 1%nat = Some (Counted "k" r 2) /\
    exists h, fst (fst (turn (H0 := no_fixed) (Counted "k" r 2) (fst one_slot_run) demo_clock 0%nat)) = Answered 429 h body.
Proof.
  intros b ps.
  destruct (served_within_limit (H0 := no_fixed) some_range one_slot (fst NewMemoryBackend) (fst one_slot_run) ps "k"
    (mkRateLimits 0 0 0 0 0 1) one_slot_valid eq_refl eq_refl eq_refl one_slot_mw) as (_ & _ & _ & _ & W & _).
  split; [vm_compute; reflexivity|]. do 2 eexists. split; [vm_compute; reflexivity|].
  eexists. refine (W 1%nat _ 1 demo_clock 0%nat _). vm_compute. reflexivity.
Defined.

Lemma budgets_never_enforced_witness :
  let b := @memory_backend some_range in
  is_Some (budgets (fst one_slot_run) !! "k") /\
  forall t, budgets (fst one_slot_run) !! "k" = Some t ->
    fst (fst (Check t demo_clock 0%nat)) = status_allowed.
Proof.
  intros b. split; [vm_compute; eauto|].
  apply (budgets_never_enforced (H0 := no_fixed) one_slot_config _ (snd one_slot_run) "k" 0 demo_clock 0%nat one_slot_mw).
Defined.
