(* ===== verification/MplErrors.v ===== *)
(** * Errors of the policy language ([pkg/mpl/errors])

    Errors of the parser and the validator, lists of them, and the suggestions
    attached to them.  The closest name is found with the Levenshtein distance,
    computed in a matrix as the source does ([None] is an index out of range),
    and proved to be the least number of insertions, deletions and
    substitutions.  Source locations and the quoted source lines of an error are
    left out, as in [Ast]; nothing computes with them. *)

From Stdlib Require Import ZArith Lia Ascii.
From stdpp Require Import base option list strings gmap pretty.
From S2P Require Import Prelude GoValue.
Local Open Scope Z_scope.

Definition ErrorTypeSyntax : string := "syntax".
Definition ErrorTypeStructural : string := "structural".
Definition ErrorTypeSemantic : string := "semantic".
Definition ErrorTypeValidation : string := "validation".
Definition ErrorTypeIO : string := "io".

Record MplError := mkMplError {
  me_Type : string;
  me_Message : string;
  me_Suggestion : string;
}.

(** [*ErrorList]; [AddError] and [AddErrorWithSuggestion] append. *)
Definition ErrorList := list MplError.

Definition AddErrorWithSuggestion (errType message suggestion : string) (el : ErrorList) : ErrorList :=
  el ++ [mkMplError errType message suggestion].

Definition AddError (errType message : string) (el : ErrorList) : ErrorList :=
  AddErrorWithSuggestion errType message "" el.

Definition HasErrors (el : ErrorList) : bool := 0 <? Z.of_nat (length el).

Definition el_Count (el : ErrorList) : Z := Z.of_nat (length el).

(** [None] is a nil error. *)
Definition el_ToError (el : ErrorList) : option ErrorList := if negb (HasErrors el) then None else Some el.

Definition ByType (errType : string) (el : ErrorList) : ErrorList := filter (fun e => me_Type e = errType) el.

Fixpoint HasErrorType (errType : string) (el : ErrorList) : bool :=
  match el with
  | [] => false
  | e :: el => if String.eqb (me_Type e) errType then true else HasErrorType errType el
  end.

(** ** The distance of two names *)

(** [min] of the package *)
Definition min3 (a b c : Z) : Z :=
  if a <? b then if a <? c then a else c else if b <? c then b else c.

Abbreviation Matrix := (list (list Z)).

Definition mget (m : Matrix) (i j : nat) : option Z := row ← m !! i; row !! j.

Definition mset (m : Matrix) (i j : nat) (v : Z) : option Matrix :=
  row ← m !! i;
  if (j <? length row)%nat then Some (<[i := <[j := v]> row]> m) else None.

(** The two loops that fill the first column and the first row. *)
Fixpoint first_column (n : nat) (m : Matrix) : option Matrix :=
  match n with
  | O => mset m 0 0 0
  | S n' => m ← first_column n' m; mset m n 0 (Z.of_nat n)
  end.

Fixpoint first_row (n : nat) (m : Matrix) : option Matrix :=
  match n with
  | O => mset m 0 0 0
  | S n' => m ← first_row n' m; mset m 0 n (Z.of_nat n)
  end.

(** The body of the two nested loops, at [i] and [j]. *)
Definition compute_cell (s1 s2 : string) (i j : nat) (m : Matrix) : option Matrix :=
  c1 ← String.get (i - 1) s1;
  c2 ← String.get (j - 1) s2;
  let cost := if Ascii.eqb c1 c2 then 0 else 1 in
  a ← mget m (i - 1) j;
  b ← mget m i (j - 1);
  c ← mget m (i - 1) (j - 1);
  mset m i j (min3 (a + 1) (b + 1) (c + cost)).

(** [for j := 1; j <= n; j++] *)
Fixpoint compute_row (s1 s2 : string) (i n : nat) (m : Matrix) : option Matrix :=
  match n with
  | O => Some m
  | S n' => m ← compute_row s1 s2 i n' m; compute_cell s1 s2 i n m
  end.

(** [for i := 1; i <= n; i++] *)
Fixpoint compute_rows (s1 s2 : string) (n : nat) (m : Matrix) : option Matrix :=
  match n with
  | O => Some m
  | S n' => m ← compute_rows s1 s2 n' m; compute_row s1 s2 n (String.length s2) m
  end.

Definition levenshteinDistance (s1 s2 : string) : option Z :=
  if String.eqb s1 s2 then Some 0 else
  let len1 := String.length s1 in
  let len2 := String.length s2 in
  let matrix := replicate (len1 + 1) (replicate (len2 + 1) 0) in
  matrix ← first_column len1 matrix;
  matrix ← first_row len2 matrix;
  matrix ← compute_rows s1 s2 len1 matrix;
  mget matrix len1 len2.

(** ** Suggestions *)

(** The loop that keeps the closest name so far. *)
Fixpoint closest (unknown : string) (names : list string) (minDistance : Z) (bestMatch : string)
    : option (Z * string) :=
  match names with
  | [] => Some (minDistance, bestMatch)
  | name :: names =>
      dist ← levenshteinDistance unknown name;
      if dist <? minDistance then closest unknown names dist name else closest unknown names minDistance bestMatch
  end.

Definition did_you_mean (name : string) : string := "Did you mean '" +:+ name +:+ "'?".

Definition SuggestFieldName (unknown : string) (validFields : list string) : option string :=
  match validFields with
  | [] => Some ""
  | _ =>
      '(minDistance, bestMatch) ← closest unknown validFields 1000 "";
      Some (if minDistance <? 5 then did_you_mean bestMatch
            else if 5 <? Z.of_nat (length validFields) then
              "Valid fields include: " +:+ String.concat ", " (take 5 validFields) +:+ ", ..."
            else "Valid fields: " +:+ String.concat ", " validFields)
  end.

Definition SuggestOperator (fieldType : string) : string :=
  if String.eqb fieldType "string" then
    "Valid operators: ==, !=, contains, matches, starts_with, ends_with, in, not_in"
  else if String.eqb fieldType "number" then "Valid operators: ==, !=, <, >, <=, >=, in, not_in"
  else if String.eqb fieldType "boolean" then "Valid operators: ==, !="
  else if String.eqb fieldType "array" then "Valid operators: contains, in, not_in"
  else "Valid operators: ==, !=, <, >, <=, >=, contains, matches, starts_with, ends_with, in, not_in".

Definition SuggestActionType (unknown : string) (validActions : list string) : option string :=
  match validActions with
  | [] => Some ""
  | _ =>
      '(minDistance, bestMatch) ← closest unknown validActions 1000 "";
      Some (if minDistance <? 5 then did_you_mean bestMatch
            else "Valid action types: " +:+ String.concat ", " validActions)
  end.

Definition SuggestMissingField (fieldName exampleValue : string) : string :=
  if negb (String.eqb exampleValue "") then "Add '" +:+ fieldName +:+ ": " +:+ exampleValue +:+ "' to the policy"
  else "Add '" +:+ fieldName +:+ "' field to the policy".

(** ** The reference distance *)

(** [edits n s t]: [t] is [s] after [n] single-character insertions, deletions
    and substitutions. *)
Inductive edits : Z -> list ascii -> list ascii -> Prop :=
| ed_nil : edits 0 [] []
| ed_keep n a s t : edits n s t -> edits n (a :: s) (a :: t)
| ed_insert n b s t : edits n s t -> edits (n + 1) s (b :: t)
| ed_delete n a s t : edits n s t -> edits (n + 1) (a :: s) t
| ed_replace n a b s t : edits n s t -> edits (n + 1) (a :: s) (b :: t).

#[local] Hint Constructors edits : core.

(** The recurrence, on the first characters. *)
Definition cost_of (a b : ascii) : Z := if Ascii.eqb a b then 0 else 1.

Fixpoint dist (s : list ascii) : list ascii -> Z :=
  fix inner (t : list ascii) : Z :=
    match s, t with
    | [], _ => Z.of_nat (length t)
    | _ :: _, [] => Z.of_nat (length s)
    | a :: s', b :: t' => Z.min (Z.min (dist s' t + 1) (inner t' + 1)) (dist s' t' + cost_of a b)
    end.

Lemma dist_nil_l t : dist [] t = Z.of_nat (length t).
Proof. by destruct t. Qed.

Lemma dist_nil_r s : dist s [] = Z.of_nat (length s).
Proof. by destruct s. Qed.

Lemma dist_cons a s b t :
  dist (a :: s) (b :: t) = Z.min (Z.min (dist s (b :: t) + 1) (dist (a :: s) t + 1)) (dist s t + cost_of a b).
Proof. done. Qed.

Lemma edits_nil_l t : edits (Z.of_nat (length t)) [] t.
Proof. induction t; [done|]. replace (Z.of_nat (length (a :: t))) with (Z.of_nat (length t) + 1) by (simpl; lia). auto. Qed.

Lemma edits_nil_r s : edits (Z.of_nat (length s)) s [].
Proof. induction s; [done|]. replace (Z.of_nat (length (a :: s))) with (Z.of_nat (length s) + 1) by (simpl; lia). auto. Qed.

(** The recurrence is reached by some sequence of edits. *)
Lemma dist_edits s t : edits (dist s t) s t.
Proof.
  revert t. induction s as [|a s IH]; intros t; [rewrite dist_nil_l; apply edits_nil_l|].
  induction t as [|b t IHt]; [apply edits_nil_r|]. rewrite dist_cons.
  destruct (Z.min_spec (Z.min (dist s (b :: t) + 1) (dist (a :: s) t + 1)) (dist s t + cost_of a b)) as [[_ ->]|[_ ->]].
  - destruct (Z.min_spec (dist s (b :: t) + 1) (dist (a :: s) t + 1)) as [[_ ->]|[_ ->]]; auto.
  - unfold cost_of. destruct (Ascii.eqb_spec a b) as [->|]; [rewrite Z.add_0_r|]; auto.
Qed.

(** One more character on one side costs at most one edit. *)
Lemma dist_cons_l a s t : dist (a :: s) t <= dist s t + 1.
Proof. destruct t as [|b t]; [rewrite !dist_nil_r; simpl; lia|]. rewrite dist_cons. lia. Qed.

Lemma dist_cons_r s b t : dist s (b :: t) <= dist s t + 1.
Proof. destruct s as [|a s]; [rewrite !dist_nil_l; simpl; lia|]. rewrite dist_cons. lia. Qed.

Lemma edits_dist n s t : edits n s t -> dist s t <= n.
Proof.
  induction 1 as [|n a s t _ IH|n b s t _ IH|n a s t _ IH|n a b s t _ IH]; [done|..].
  - rewrite dist_cons. unfold cost_of. rewrite Ascii.eqb_refl. lia.
  - pose proof (dist_cons_r s b t). lia.
  - pose proof (dist_cons_l a s t). lia.
  - rewrite dist_cons. unfold cost_of. destruct (Ascii.eqb a b); lia.
Qed.

(** Edits can be made from the other end. *)
Lemma edits_snoc n s t a b :
  edits n s t -> edits n (s ++ [a]) (t ++ [a]) /\ edits (n + 1) s (t ++ [b]) /\ edits (n + 1) (s ++ [a]) t /\
  edits (n + 1) (s ++ [a]) (t ++ [b]).
Proof.
  induction 1 as [|n c s t _ (?&?&?&?)|n c s t _ (?&?&?&?)|n c s t _ (?&?&?&?)|n c d s t _ (?&?&?&?)]; simpl.
  - change 1 with (0 + 1). auto 10.
  - auto 10.
  - auto 10.
  - auto 10.
  - auto 10.
Qed.

Lemma edits_rev n s t : edits n s t -> edits n (rev s) (rev t).
Proof.
  induction 1 as [|n a s t _ IH|n b s t _ IH|n a s t _ IH|n a b s t _ IH]; simpl; [done|..].
  - apply (edits_snoc n _ _ a a IH).
  - apply (edits_snoc n _ _ b b IH).
  - apply (edits_snoc n _ _ a a IH).
  - apply (edits_snoc n _ _ a b IH).
Qed.

Lemma dist_rev s t : dist (rev s) (rev t) = dist s t.
Proof.
  pose proof (edits_dist _ _ _ (edits_rev _ _ _ (dist_edits s t))).
  pose proof (edits_dist _ _ _ (edits_rev _ _ _ (dist_edits (rev s) (rev t)))) as H1.
  rewrite !rev_involutive in H1. lia.
Qed.

(** ** The matrix *)

(** The reference for a cell: the distance of two prefixes, read backwards. *)
Definition cell (s1 s2 : list ascii) (i j : nat) : Z := dist (rev (take i s1)) (rev (take j s2)).

(** A matrix of the given shape, whose cells up to row [i] and, in row [i], up to
    column [j] have their final value. *)
Definition shaped (r c : nat) (m : Matrix) : Prop := length m = r /\ Forall (fun row => length row = c) m.

Lemma mget_mset m r c i j v :
  shaped r c m -> (i < r)%nat -> (j < c)%nat ->
  exists m', mset m i j v = Some m' /\ shaped r c m' /\
    forall i' j', mget m' i' j' = if decide (i' = i /\ j' = j) then Some v else mget m i' j'.
Proof.
  intros [Hr Hc] Hi Hj. unfold mset, mget.
  destruct (lookup_lt_is_Some_2 m i) as [row Hrow]; [lia|]. rewrite Hrow. simpl.
  assert (Hl : length row = c) by by eapply (Forall_lookup_1 _ m i) in Hc.
  destruct (Nat.ltb_spec j (length row)) as [_|]; [|lia].
  eexists. split; [done|]. split.
  { split; [by rewrite length_insert|]. apply Forall_insert; [done|]. by rewrite length_insert. }
  intros i' j'. destruct (decide (i' = i)) as [->|Hne].
  - rewrite list_lookup_insert_eq by lia. simpl. rewrite Hrow. simpl. destruct (decide (j' = j)) as [->|Hj'].
    + rewrite list_lookup_insert_eq by lia. by rewrite decide_True.
    + rewrite list_lookup_insert_ne by done. rewrite decide_False by naive_solver. done.
  - rewrite list_lookup_insert_ne by done. by rewrite decide_False by naive_solver.
Qed.

Lemma get_lookup s n : String.get n s = String.list_ascii_of_string s !! n.
Proof. revert n. induction s as [|a s IH]; intros [|n]; simpl; auto. Qed.

Lemma length_list_ascii s : length (String.list_ascii_of_string s) = String.length s.
Proof. induction s; simpl; auto. Qed.

Lemma min3_min a b c : min3 a b c = Z.min (Z.min a b) c.
Proof. unfold min3. repeat case_match; lia. Qed.

Lemma cell_step s1 s2 i j a b :
  s1 !! i = Some a -> s2 !! j = Some b ->
  cell s1 s2 (S i) (S j) =
  min3 (cell s1 s2 i (S j) + 1) (cell s1 s2 (S i) j + 1) (cell s1 s2 i j + (if Ascii.eqb a b then 0 else 1)).
Proof.
  intros Ha Hb. unfold cell. rewrite min3_min.
  rewrite !(take_S_r s1 i a Ha), !(take_S_r s2 j b Hb), !rev_app_distr. apply dist_cons.
Qed.

Lemma cell_column s1 s2 i : (i <= length s1)%nat -> cell s1 s2 i 0 = Z.of_nat i.
Proof. intros. unfold cell. rewrite take_0. simpl. rewrite dist_nil_r, length_rev, length_take. lia. Qed.

Lemma cell_row s1 s2 j : (j <= length s2)%nat -> cell s1 s2 0 j = Z.of_nat j.
Proof. intros. unfold cell. rewrite take_0. simpl. rewrite dist_nil_l, length_rev, length_take. lia. Qed.

Section matrix.
Variables s1 s2 : string.
Let l1 := String.list_ascii_of_string s1.
Let l2 := String.list_ascii_of_string s2.

(** The cells in the set [P] have their final value. *)
Definition filled (P : nat -> nat -> Prop) (m : Matrix) : Prop :=
  shaped (length l1 + 1) (length l2 + 1) m /\
  forall i j, (i <= length l1)%nat -> (j <= length l2)%nat -> P i j -> mget m i j = Some (cell l1 l2 i j).

Lemma filled_weaken (P Q : nat -> nat -> Prop) m : (forall i j, Q i j -> P i j) -> filled P m -> filled Q m.
Proof. intros HPQ [Hs Hf]. split; auto. Qed.

(** Writing the final value of one more cell. *)
Lemma mset_filled P m i j :
  (i <= length l1)%nat -> (j <= length l2)%nat -> filled P m ->
  exists m', mset m i j (cell l1 l2 i j) = Some m' /\ filled (fun i' j' => P i' j' \/ (i' = i /\ j' = j)) m'.
Proof.
  intros Hi Hj [Hs Hf]. destruct (mget_mset m _ _ i j (cell l1 l2 i j) Hs) as (m' & -> & Hs' & Hg); [lia..|].
  exists m'. split; [done|]. split; [done|]. intros i' j' Hi' Hj' HP. rewrite Hg.
  case_decide as Hd; [by destruct Hd as [-> ->]|]. destruct HP; [auto|done].
Qed.

Lemma first_column_filled n m P :
  (n <= length l1)%nat -> filled P m ->
  exists m', first_column n m = Some m' /\ filled (fun i j => P i j \/ ((i <= n)%nat /\ j = 0%nat)) m'.
Proof.
  induction n as [|n IH]; intros Hn Hf; simpl.
  - destruct (mset_filled P m 0 0) as (m' & Hm & Hf'); [lia..|done|].
    rewrite cell_column in Hm by lia. exists m'. split; [done|]. revert Hf'. apply filled_weaken. intros. lia || naive_solver lia.
  - destruct IH as (m1 & -> & Hf1); [lia|done|]. simpl.
    destruct (mset_filled _ m1 (S n) 0 ltac:(lia) ltac:(lia) Hf1) as (m' & Hm & Hf').
    rewrite cell_column in Hm by lia. exists m'. split; [done|]. revert Hf'. apply filled_weaken. naive_solver lia.
Qed.

Lemma first_row_filled n m P :
  (n <= length l2)%nat -> filled P m ->
  exists m', first_row n m = Some m' /\ filled (fun i j => P i j \/ (i = 0%nat /\ (j <= n)%nat)) m'.
Proof.
  induction n as [|n IH]; intros Hn Hf; simpl.
  - destruct (mset_filled P m 0 0) as (m' & Hm & Hf'); [lia..|done|].
    rewrite cell_row in Hm by lia. exists m'. split; [done|]. revert Hf'. apply filled_weaken. naive_solver lia.
  - destruct IH as (m1 & -> & Hf1); [lia|done|]. simpl.
    destruct (mset_filled _ m1 0 (S n) ltac:(lia) ltac:(lia) Hf1) as (m' & Hm & Hf').
    rewrite cell_row in Hm by lia. exists m'. split; [done|]. revert Hf'. apply filled_weaken. naive_solver lia.
Qed.

(** The first column and the rows before [i] are final, row [i] up to [j]. *)
Definition upto (i j : nat) (i' j' : nat) : Prop := (i' < i)%nat \/ j' = 0%nat \/ (i' = i /\ (j' <= j)%nat).

Lemma compute_cell_filled i j m :
  (i < length l1)%nat -> (j < length l2)%nat -> filled (upto (S i) j) m ->
  exists m', compute_cell s1 s2 (S i) (S j) m = Some m' /\ filled (upto (S i) (S j)) m'.
Proof.
  intros Hi Hj Hf. unfold compute_cell. rewrite !get_lookup. simpl. rewrite !Nat.sub_0_r. fold l1 l2.
  destruct (lookup_lt_is_Some_2 l1 i Hi) as [a Ha], (lookup_lt_is_Some_2 l2 j Hj) as [b Hb].
  rewrite Ha, Hb. simpl. destruct Hf as [Hs Hg] eqn:E. clear E.
  rewrite (Hg i (S j)), (Hg (S i) j), (Hg i j) by (unfold upto; lia). simpl.
  rewrite <- (cell_step l1 l2 i j a b Ha Hb).
  destruct (mset_filled (upto (S i) j) m (S i) (S j)) as (m' & -> & Hf'); [lia..|done|].
  exists m'. split; [done|]. revert Hf'. apply filled_weaken. unfold upto. naive_solver lia.
Qed.

Lemma compute_row_filled i n m :
  (i < length l1)%nat -> (n <= length l2)%nat -> filled (upto (S i) 0) m ->
  exists m', compute_row s1 s2 (S i) n m = Some m' /\ filled (upto (S i) n) m'.
Proof.
  intros Hi Hn Hf. induction n as [|n IH]; [by exists m|].
  destruct IH as (m1 & Hm1 & Hf1); [lia|]. cbn [compute_row]. rewrite Hm1. simpl.
  apply compute_cell_filled; [done|lia|done].
Qed.

Lemma compute_rows_filled n m :
  (n <= length l1)%nat -> filled (upto 0 (length l2)) m ->
  exists m', compute_rows s1 s2 n m = Some m' /\ filled (upto n (length l2)) m'.
Proof.
  intros Hn Hf. induction n as [|n IH]; [by exists m|].
  destruct IH as (m1 & Hm1 & Hf1); [lia|]. cbn [compute_rows]. rewrite Hm1. simpl.
  rewrite <- length_list_ascii. apply compute_row_filled; [lia|done|].
  revert Hf1. intros [Hs Hg]. split; [done|]. intros i j Hi Hj Hu. apply Hg; [done..|]. unfold upto in *. lia.
Qed.
End matrix.

Lemma dist_refl s : dist s s = 0.
Proof.
  assert (edits 0 s s) as H%edits_dist by (induction s; auto).
  enough (forall n a b, edits n a b -> 0 <= n) as Hp by (pose proof (Hp _ _ _ (dist_edits s s)); lia).
  clear. induction 1; lia.
Qed.

Lemma levenshteinDistance_dist s1 s2 :
  levenshteinDistance s1 s2 = Some (dist (String.list_ascii_of_string s1) (String.list_ascii_of_string s2)).
Proof.
  unfold levenshteinDistance. destruct (String.eqb_spec s1 s2) as [->|_]; [by rewrite dist_refl|].
  rewrite <- !length_list_ascii.
  set (l1 := String.list_ascii_of_string s1). set (l2 := String.list_ascii_of_string s2).
  assert (H0 : filled s1 s2 (fun _ _ => False) (replicate (length l1 + 1) (replicate (length l2 + 1) 0))).
  { split; [|done]. split; [apply length_replicate|]. apply Forall_replicate. apply length_replicate. }
  destruct (first_column_filled s1 s2 (length l1) _ _ ltac:(done) H0) as (m1 & -> & H1). simpl.
  destruct (first_row_filled s1 s2 (length l2) _ _ ltac:(done) H1) as (m2 & -> & H2). simpl.
  destruct (compute_rows_filled s1 s2 (length l1) m2 ltac:(done)) as (m3 & -> & H3).
  { destruct H2 as [Hs Hg]. split; [done|]. intros i j Hi Hj Hu. apply Hg; [done..|]. unfold upto in Hu. cbv beta. fold l1 l2 in Hi, Hj. lia. }
  simpl. destruct H3 as [_ Hg]. rewrite Hg by (unfold upto; fold l1 l2; lia). unfold cell. fold l1 l2.
  rewrite !firstn_all. by rewrite dist_rev.
Qed.

(** The distance computed in the matrix always exists and is the least number of
    single-character insertions, deletions and substitutions that turn one name
    into the other. *)
Theorem levenshtein_minimal s1 s2 :
  let l1 := String.list_ascii_of_string s1 in
  let l2 := String.list_ascii_of_string s2 in
  exists d, levenshteinDistance s1 s2 = Some d /\ edits d l1 l2 /\ forall n, edits n l1 l2 -> d <= n.
Proof.
  intros l1 l2. eexists. split; [apply levenshteinDistance_dist|].
  split; [apply dist_edits|intros n; apply edits_dist].
Qed.
