(* ===== verification/MplBuilder.v ===== *)
(** * Policy parser ([pkg/mpl/parser])

    From the decoded YAML document to the syntax tree: [builder.go], with the
    parser ([parser.go]) and the composition of several files
    ([composition.go]) on top.  YAML decoding is done by a library: a document is
    a [yamlPolicy] whose untyped parts are dynamic values.  Conditions nest, so
    [buildConditions] recurses through [buildConditionMap],
    [buildLogicalCondition] and [buildConditionArray]; these take the recursive
    call as an argument, and the recursion has fuel, for which the depth of the
    value is enough ([buildConditions_total]). *)

From Stdlib Require Import ZArith Lia Ascii.
From stdpp Require Import base option list strings gmap pretty.
From S2P Require Import Prelude Float64 GoValue Ast ProviderTypes Paths MplErrors.
Local Open Scope Z_scope.

(** ** The decoded document ([yaml.go]) *)

Record yamlRule := mkYamlRule {
  yr_Name : string;
  yr_Description : string;
  yr_Enabled : option bool;
  yr_Conditions : GoValue;
  yr_Actions : list (gmap string GoValue);
  yr_Priority : Z;
}.

Record yamlTestExpectation := mkYamlTestExpectation {
  ye_Action : string;
  ye_RuleMatches : list string;
  ye_Transforms : option (gmap string GoValue);
  ye_Error : bool;
  ye_ErrorMsg : string;
}.

Record yamlTest := mkYamlTest {
  yt_Name : string;
  yt_Description : string;
  yt_Request : option (gmap string GoValue);
  yt_Expected : yamlTestExpectation;
}.

Record yamlPolicy := mkYamlPolicy {
  yp_MPLVersion : string;
  yp_Name : string;
  yp_Version : string;
  yp_Description : string;
  yp_Author : string;
  yp_Created : string;
  yp_Updated : string;
  yp_Tags : list string;
  yp_Variables : gmap string GoValue;
  yp_Rules : list yamlRule;
  yp_Includes : list string;
  yp_Tests : list yamlTest;
}.

(** [ast.PolicyTest] *)
Record PolicyTest := mkPolicyTest {
  pt_Name : string;
  pt_Description : string;
  pt_Request : option (gmap string GoValue);
  pt_Expected : yamlTestExpectation;
}.

Definition any_slice : string := "[]interface {}".
Definition any_map : string := "map[string]interface {}".

(** ** Values *)

(** [%T] *)
Definition type_name (v : GoValue) : string :=
  match v with
  | VNil => "<nil>"
  | VBool _ => "bool"
  | VInt k _ =>
      match k with
      | KInt => "int" | KInt8 => "int8" | KInt16 => "int16" | KInt32 => "int32" | KInt64 => "int64"
      | KUint => "uint" | KUint8 => "uint8" | KUint16 => "uint16" | KUint32 => "uint32" | KUint64 => "uint64"
      end
  | VFloat64 _ => "float64"
  | VFloat32 _ => "float32"
  | VString _ => "string"
  | VDuration _ => "time.Duration"
  | VSlice ty _ | VMap ty _ | VPtr ty _ | VStruct ty _ => ty
  end.

Fixpoint drop_spaces (l : list ascii) : list ascii :=
  match l with
  | " "%char :: l => drop_spaces l
  | _ => l
  end.

(** The two loops over [start] and [end]. *)
Definition trimSpaces (s : string) : string :=
  String.string_of_list_ascii (rev (drop_spaces (rev (drop_spaces (String.list_ascii_of_string s))))).

Definition isVariableReference (s : string) : bool :=
  (4 <? String.length s)%nat && String.eqb (String.substring 0 2 s) "{{" &&
  String.eqb (String.substring (String.length s - 2) 2 s) "}}".

Definition extractVariableName (s : string) : string :=
  let s := String.substring 2 (String.length s - 4) s in
  let s := trimSpaces s in
  if (10 <? String.length s)%nat && String.eqb (String.substring 0 10 s) "variables."
  then String.substring 10 (String.length s - 10) s else s.

Definition buildValue (value : GoValue) : result string ValueNode :=
  match value with
  | VNil => Ok (mkValueNode ValueTypeNull VNil "")
  | VString v =>
      if isVariableReference v then Ok (mkValueNode ValueTypeVariable (VString v) (extractVariableName v))
      else Ok (mkValueNode ValueTypeString (VString v) "")
  | VInt KInt n | VInt KInt64 n => Ok (mkValueNode ValueTypeNumber (VFloat64 (of_int n)) "")
  | VFloat64 n => Ok (mkValueNode ValueTypeNumber (VFloat64 n) "")
  | VBool v => Ok (mkValueNode ValueTypeBoolean (VBool v) "")
  | VSlice ty l =>
      if String.eqb ty any_slice then Ok (mkValueNode ValueTypeArray value "")
      else Err ("unsupported value type: " +:+ type_name value)
  | VMap ty m =>
      if String.eqb ty any_map then Ok (mkValueNode ValueTypeObject value "")
      else Err ("unsupported value type: " +:+ type_name value)
  | _ => Err ("unsupported value type: " +:+ type_name value)
  end.

(** ** Conditions

    [None] is a recursion deeper than the fuel. *)

Definition Built (A : Type) : Type := option (result string A).

Definition bret {A} (a : A) : Built A := Some (Ok a).
Definition bfail {A} (e : string) : Built A := Some (Err e).

(** [x, err := m; if err != nil { return nil, fmt.Errorf(prefix + "%w", err) }] *)
Definition bbind {A B} (prefix : string) (m : Built A) (f : A -> Built B) : Built B :=
  match m with
  | None => None
  | Some (Err e) => bfail (prefix +:+ e)
  | Some (Ok a) => f a
  end.

Arguments bbind : simpl never.

(** [m[key].(string)] *)
Definition str_key (key : string) (m : list (string * GoValue)) : option string :=
  match assoc key m with Some (VString s) => Some s | _ => None end.

Definition node (ty : string) : ConditionNode := mkConditionNode ty "" "" None "" [] [].

Definition buildSimpleCondition (m : list (string * GoValue)) : Built ConditionNode :=
  match str_key "field" m with
  | None => bfail "missing or invalid 'field'"
  | Some field =>
      match str_key "operator" m with
      | None => bfail "missing or invalid 'operator'"
      | Some operatorStr =>
          bbind "invalid value: " (Some (buildValue (default VNil (assoc "value" m)))) (fun valueNode =>
          bret (mkConditionNode ConditionTypeSimple field operatorStr (Some valueNode) "" [] []))
      end
  end.

Fixpoint buildArgs (i : Z) (l : list GoValue) : Built (list ValueNode) :=
  match l with
  | [] => bret []
  | arg :: l =>
      bbind ("invalid argument at index " +:+ pretty i +:+ ": ") (Some (buildValue arg)) (fun argNode =>
      bbind "" (buildArgs (i + 1) l) (fun args => bret (argNode :: args)))
  end.

Definition buildFunctionCondition (fn : GoValue) (m : list (string * GoValue)) : Built ConditionNode :=
  match fn with
  | VString fnName =>
      bbind ""
        (match assoc "args" m with
         | None => bret []
         | Some (VSlice ty argsArray) =>
             if String.eqb ty any_slice then buildArgs 0 argsArray else bfail "function args must be an array"
         | Some _ => bfail "function args must be an array"
         end)
        (fun args => bret (mkConditionNode ConditionTypeFunction "" "" None fnName args []))
  | _ => bfail "function name must be a string"
  end.

Section conditions.
Variable build : GoValue -> Built ConditionNode.

(** The loops over children, with the text that precedes the index. *)
Fixpoint buildChildren (what : string) (i : Z) (l : list GoValue) : Built (list (option ConditionNode)) :=
  match l with
  | [] => bret []
  | child :: l =>
      bbind (what +:+ pretty i +:+ ": ") (build child) (fun childNode =>
      bbind "" (buildChildren what (i + 1) l) (fun nodes => bret (Some childNode :: nodes)))
  end.

Definition buildLogicalCondition (condType : string) (children : GoValue) : Built ConditionNode :=
  match children with
  | VSlice ty childArray =>
      if String.eqb ty any_slice then
        bbind "" (buildChildren "invalid child condition at index " 0 childArray) (fun childNodes =>
        bret (mkConditionNode condType "" "" None "" [] childNodes))
      else bfail "logical operator must have array of children"
  | _ => bfail "logical operator must have array of children"
  end.

Definition buildConditionMap (m : list (string * GoValue)) : Built ConditionNode :=
  match assoc "all" m with
  | Some children => buildLogicalCondition ConditionTypeAll children
  | None =>
  match assoc "any" m with
  | Some children => buildLogicalCondition ConditionTypeAny children
  | None =>
  match assoc "not" m with
  | Some children => buildLogicalCondition ConditionTypeNot children
  | None =>
  match assoc "function" m with
  | Some fn => buildFunctionCondition fn m
  | None => buildSimpleCondition m
  end end end end.

Definition buildConditionArray (arr : list GoValue) : Built ConditionNode :=
  match arr with
  | [] => bfail "empty condition array"
  | [cond] => build cond
  | _ =>
      bbind "" (buildChildren "invalid condition at index " 0 arr) (fun children =>
      bret (mkConditionNode ConditionTypeAll "" "" None "" [] children))
  end.
End conditions.

Fixpoint buildConditions (fuel : nat) (cond : GoValue) : Built ConditionNode :=
  match fuel with
  | O => None
  | S fuel =>
      match cond with
      | VMap ty m =>
          if String.eqb ty any_map then buildConditionMap (buildConditions fuel) m
          else bfail ("invalid condition type: " +:+ type_name cond)
      | VSlice ty arr =>
          if String.eqb ty any_slice then buildConditionArray (buildConditions fuel) arr
          else bfail ("invalid condition type: " +:+ type_name cond)
      | _ => bfail ("invalid condition type: " +:+ type_name cond)
      end
  end.

(** The nesting of a value. *)
Fixpoint depth (v : GoValue) : nat :=
  match v with
  | VSlice _ l => S (foldr (fun x n => Nat.max (depth x) n) 0%nat l)
  | VMap _ m => S (foldr (fun x n => Nat.max (depth x.2) n) 0%nat m)
  | _ => 0%nat
  end.

(** The condition of a rule, with enough fuel. *)
Definition buildCondition (cond : GoValue) : Built ConditionNode := buildConditions (S (depth cond)) cond.

(** ** Actions, rules, tests *)

(** The parameters, in the order of the map iteration. *)
Fixpoint buildParameters `{Fmt} (l : list (string * GoValue)) (acc : gmap string ValueNode)
    : Built (gmap string ValueNode) :=
  match l with
  | [] => bret acc
  | (key, value) :: l =>
      if String.eqb key "type" then buildParameters l acc
      else
        bbind ("invalid parameter " +:+ Quote key +:+ ": ") (Some (buildValue value)) (fun valueNode =>
        buildParameters l (<[key := valueNode]> acc))
  end.

Section builder.
Context `{MapRange} `{Fmt}.

Definition buildAction (m : gmap string GoValue) : Built Action :=
  match m !! "type" with
  | Some (VString actionTypeStr) =>
      bbind "" (buildParameters (range m) ∅) (fun params => bret (mkAction actionTypeStr params))
  | _ => bfail "missing or invalid action 'type'"
  end.

Fixpoint buildActions (i : Z) (l : list (gmap string GoValue)) : Built (list Action) :=
  match l with
  | [] => bret []
  | ya :: l =>
      bbind ("invalid action at index " +:+ pretty i +:+ ": ") (buildAction ya) (fun action =>
      bbind "" (buildActions (i + 1) l) (fun actions => bret (action :: actions)))
  end.

Definition buildRule (yr : yamlRule) : Built Rule :=
  bbind ""
    (match yr_Conditions yr with
     | VNil => bret None
     | conditions => bbind "invalid conditions: " (buildCondition conditions) (fun cond => bret (Some cond))
     end) (fun conditions =>
  bbind "" (buildActions 0 (yr_Actions yr)) (fun actions =>
  bret (mkRule (yr_Name yr) (yr_Description yr) (default true (yr_Enabled yr)) conditions actions (yr_Priority yr)))).

Definition buildVariable (name : string) (value : GoValue) : Built VariableDef :=
  bbind "" (Some (buildValue value)) (fun valueNode => bret (mkVariableDef name (Some valueNode) (vn_Type valueNode))).

Definition buildTest (yt : yamlTest) : Built PolicyTest :=
  if String.eqb (yt_Name yt) "" then bfail "test name is required"
  else match yt_Request yt with
       | None => bfail "test request is required"
       | Some _ =>
           if String.eqb (ye_Action (yt_Expected yt)) "" then bfail "test expected action is required"
           else bret (mkPolicyTest (yt_Name yt) (yt_Description yt) (yt_Request yt) (yt_Expected yt))
       end.

(** A loop that adds an error and goes on: the results, the errors, and whether
    every step returned. *)
Fixpoint collect {A B} (label : Z -> A -> string) (f : A -> Built B) (i : Z) (l : list A) : option (list B * ErrorList) :=
  match l with
  | [] => Some ([], [])
  | a :: l =>
      r ← f a;
      '(bs, errs) ← collect label f (i + 1) l;
      Some (match r with
            | Ok b => (b :: bs, errs)
            | Err e => (bs, mkMplError ErrorTypeStructural (label i a +:+ e) "" :: errs)
            end)
  end.

(** [time.Parse(time.RFC3339, s)] *)
Context (parseTime : string -> option Time).

Definition timestamp (s : string) : Time :=
  if negb (String.eqb s "") then default zero_time (parseTime s) else zero_time.

Definition buildPolicy (sourcePath : string) (yp : yamlPolicy) : option (result ErrorList (Policy * list PolicyTest)) :=
  '(variables, errs1) ←
    collect (fun _ nv => "Invalid variable " +:+ Quote nv.1 +:+ ": ")
      (fun nv => bbind "" (buildVariable nv.1 nv.2) (fun v => bret (nv.1, v))) 0 (range (yp_Variables yp));
  '(rules, errs2) ←
    collect (fun i _ => "Invalid rule at index " +:+ pretty i +:+ ": ") buildRule 0 (yp_Rules yp);
  '(tests, errs3) ←
    collect (fun i _ => "Invalid test at index " +:+ pretty i +:+ ": ") buildTest 0 (yp_Tests yp);
  let errs := (errs1 ++ errs2 ++ errs3)%list in
  Some (if HasErrors errs then Err errs
        else Ok (mkPolicy (yp_MPLVersion yp) (yp_Name yp) (yp_Version yp) (yp_Description yp) (yp_Author yp)
                   (timestamp (yp_Created yp)) (timestamp (yp_Updated yp)) (yp_Tags yp) (list_to_map variables) rules
                   (yp_Includes yp) sourcePath, tests)).

End builder.

(** ** The parser *)

Record Parser := mkParser {
  maxFileSize : Z;
  maxDepth : Z;
  strictMode : bool;
}.

Definition NewParser : Parser := mkParser (10 * 1024 * 1024) 10 false.
Definition WithMaxFileSize (size : Z) (p : Parser) : Parser := mkParser size (maxDepth p) (strictMode p).
Definition WithMaxDepth (depth : Z) (p : Parser) : Parser := mkParser (maxFileSize p) depth (strictMode p).
Definition WithStrictMode (strict : bool) (p : Parser) : Parser := mkParser (maxFileSize p) (maxDepth p) strict.

(** What the parser reads: the size and contents of files, the YAML decoder, the
    working directory and [filepath.Glob]. *)
Record Files := mkFiles {
  file_size : string -> result string Z;
  file_data : string -> result string string;
  yaml_decode : string -> result string yamlPolicy;
  getwd : result string string;
  glob : string -> result string (list string);
}.

Inductive ParseErr :=
| PErr (e : MplError)
| PList (el : ErrorList)
| PWrap (prefix : string) (e : ParseErr)
| POther (text : string).

(** [None] is fuel that ran out. *)
Definition Parsed : Type := option (result ParseErr Policy).

Section parser.
Context `{MapRange} `{Fmt}.
Context (parseTime : string -> option Time) (files : Files).

Definition io_error (message : string) : Parsed := Some (Err (PErr (mkMplError ErrorTypeIO message ""))).

Definition parseYAMLFile (path : string) : result string yamlPolicy :=
  match file_data files path with
  | Err err => Err err
  | Ok data => yaml_decode files data
  end.

Definition build_document (sourcePath : string) (doc : result string yamlPolicy) : Parsed :=
  match doc with
  | Err err =>
      Some (Err (PErr (mkMplError ErrorTypeSyntax ("YAML parsing failed: " +:+ err)
        "Check YAML syntax (indentation, colons, quotes)")))
  | Ok yp =>
      r ← buildPolicy parseTime sourcePath yp;
      Some (match r with Ok (policy, _) => Ok policy | Err errs => Err (PList errs) end)
  end.

Definition Parse (p : Parser) (path : string) : Parsed :=
  match file_size files path with
  | Err err => io_error ("Failed to access file: " +:+ err)
  | Ok size =>
      if maxFileSize p <? size then
        io_error ("File size " +:+ pretty size +:+ " exceeds maximum " +:+ pretty (maxFileSize p) +:+ " bytes")
      else build_document path (parseYAMLFile path)
  end.

Definition ParseBytes (p : Parser) (data sourcePath : string) : Parsed :=
  if maxFileSize p <? Z.of_nat (String.length data) then
    io_error ("Data size " +:+ pretty (Z.of_nat (String.length data)) +:+ " exceeds maximum " +:+
              pretty (maxFileSize p) +:+ " bytes")
  else build_document sourcePath (yaml_decode files data).

(** [for name, variable := range from { to[name] = variable }] *)
Definition merge_variables (from to : gmap string VariableDef) : gmap string VariableDef :=
  foldl (fun acc '(name, variable) => <[name := variable]> acc) to (range from).

(** Variables of the second policy override, its rules are appended. *)
Definition merge (main included : Policy) : Policy :=
  mkPolicy (MPLVersion main) (p_Name main) (Version main) (p_Description main) (Author main) (Created main)
    (Updated main) (p_Tags main) (merge_variables (Variables included) (Variables main))
    (Rules main ++ Rules included)%list (Includes main) (SourceFile main).

Fixpoint parse_rest (p : Parser) (label : string -> string) (paths : list string) (policy : Policy) : Parsed :=
  match paths with
  | [] => Some (Ok policy)
  | path :: paths =>
      r ← Parse p path;
      match r with
      | Err e => Some (Err (PWrap (label path) e))
      | Ok additional => parse_rest p label paths (merge policy additional)
      end
  end.

Definition ParseMulti (p : Parser) (paths : list string) : Parsed :=
  match paths with
  | [] => io_error "No policy files provided"
  | path :: paths =>
      r ← Parse p path;
      match r with
      | Err e => Some (Err e)
      | Ok policy => parse_rest p (fun path => "failed to parse " +:+ path +:+ ": ") paths policy
      end
  end.

(** ** Composition *)

Record Composer := mkComposer { cp_visited : gset string; cp_stack : list string }.

Definition NewComposer : Composer := mkComposer ∅ [].

Definition isInStack (path : string) (c : Composer) : bool := existsb (String.eqb path) (cp_stack c).

(** The policy is [None] (nil) when the file was loaded before; the composer is
    left as it is when the parser fails. *)
Definition loadPolicyWithTracking (p : Parser) (path : string) (c : Composer)
    : option (result ParseErr (option Policy) * Composer) :=
  match Abs (getwd files) path with
  | Err err => Some (Err (POther err), c)
  | Ok absPath =>
      if isInStack absPath c then
        Some (Err (PErr (mkMplError ErrorTypeSemantic
                ("Circular import detected: [" +:+ String.concat " " (cp_stack c ++ [absPath])%list +:+ "]")
                "Remove the circular import dependency")), c)
      else if decide (absPath ∈ cp_visited c) then Some (Ok None, c)
      else
        let c := mkComposer ({[absPath]} ∪ cp_visited c) (cp_stack c ++ [absPath])%list in
        r ← Parse p absPath;
        Some (match r with
              | Err e => (Err e, c)
              | Ok policy => (Ok (Some policy), mkComposer (cp_visited c) (removelast (cp_stack c)))
              end)
  end.

Definition mergePolicy (main : Policy) (included : option Policy) : Policy :=
  match included with None => main | Some included => merge main included end.

Fixpoint compose_includes (p : Parser) (mainPath : string) (includes : list string) (policy : Policy) (c : Composer)
    : option (result ParseErr Policy * Composer) :=
  match includes with
  | [] => Some (Ok policy, c)
  | includePath :: includes =>
      let absPath := if negb (IsAbs includePath) then JoinPath [Dir mainPath; includePath] else includePath in
      '(r, c) ← loadPolicyWithTracking p absPath c;
      match r with
      | Err e => Some (Err (PWrap ("failed to load include " +:+ Quote includePath +:+ ": ") e), c)
      | Ok included => compose_includes p mainPath includes (mergePolicy policy included) c
      end
  end.

(** The first load starts from the reset state, so its policy is never nil. *)
Definition ComposeFromIncludes (p : Parser) (mainPath : string) (includes : list string)
    : option (result ParseErr Policy * Composer) :=
  let c := NewComposer in
  '(r, c) ← loadPolicyWithTracking p mainPath c;
  match r with
  | Err e => Some (Err e, c)
  | Ok None => None
  | Ok (Some policy) => compose_includes p mainPath includes policy c
  end.

Definition ComposeFromDirectory (p : Parser) (pattern : string) : Parsed :=
  match glob files pattern with
  | Err err => Some (Err (POther err))
  | Ok [] => io_error ("No policy files found matching pattern " +:+ Quote pattern)
  | Ok (path :: paths) =>
      r ← Parse p path;
      match r with
      | Err e => Some (Err e)
      | Ok policy => parse_rest p (fun path => "failed to parse " +:+ Quote path +:+ ": ") paths policy
      end
  end.

End parser.

(** ** The recursion ends *)

Lemma depth_elem (l : list GoValue) x : x ∈ l -> (depth x <= foldr (fun x n => Nat.max (depth x) n) 0 l)%nat.
Proof. induction 1; simpl; lia. Qed.

Lemma depth_assoc k (m : list (string * GoValue)) x :
  assoc k m = Some x -> (depth x <= foldr (fun x n => Nat.max (depth x.2) n) 0 m)%nat.
Proof.
  induction m as [|[k' y] m IH]; simpl; [done|]. destruct (String.eqb k k'); [intros [= ->]; lia|].
  intros Hx. specialize (IH Hx). lia.
Qed.

Lemma bbind_total {A B} prefix (m : Built A) (f : A -> Built B) :
  is_Some m -> (forall a, m = bret a -> is_Some (f a)) -> is_Some (bbind prefix m f).
Proof. intros [[a|e] ->] Hf; unfold bbind; [by apply Hf|by eexists]. Qed.

Lemma bret_total {A} (a : A) : is_Some (bret a).
Proof. by eexists. Qed.

Lemma bfail_total {A} e : is_Some (@bfail A e).
Proof. by eexists. Qed.

Create HintDb built.
#[export] Hint Resolve bret_total bfail_total : built.

Lemma buildChildren_total build what i l :
  Forall (fun x => is_Some (build x)) l -> is_Some (buildChildren build what i l).
Proof.
  intros Hl. revert i. induction Hl as [|x l Hx _ IH]; intros i; simpl; [auto with built|].
  apply bbind_total; [done|]. intros a _. apply bbind_total; auto with built.
Qed.

Lemma buildArgs_total i l : is_Some (buildArgs i l).
Proof.
  revert i. induction l as [|x l IH]; intros i; simpl; [auto with built|].
  apply bbind_total; [eauto|]. intros a _. apply bbind_total; auto with built.
Qed.

Lemma buildLogicalCondition_total build ty v :
  (forall x l ty, v = VSlice ty l -> x ∈ l -> is_Some (build x)) -> is_Some (buildLogicalCondition build ty v).
Proof.
  intros Hb. destruct v; simpl; auto with built. destruct (String.eqb _ _); [|auto with built].
  apply bbind_total; [|auto with built]. apply buildChildren_total, Forall_forall. eauto.
Qed.

Lemma buildFunctionCondition_total fn m : is_Some (buildFunctionCondition fn m).
Proof.
  destruct fn; simpl; auto with built. apply bbind_total; [|auto with built].
  destruct (assoc "args" m) as [[]|]; auto with built. destruct (String.eqb _ _); [apply buildArgs_total|auto with built].
Qed.

Lemma buildSimpleCondition_total m : is_Some (buildSimpleCondition m).
Proof.
  unfold buildSimpleCondition. destruct (str_key "field" m); [|auto with built].
  destruct (str_key "operator" m); [|auto with built]. apply bbind_total; eauto with built.
Qed.

Lemma buildConditions_total fuel v : (depth v < fuel)%nat -> is_Some (buildConditions fuel v).
Proof.
  revert v. induction fuel as [|fuel IH]; intros v Hd; [lia|].
  destruct v; cbn [buildConditions]; auto with built.
  - destruct (String.eqb _ _); [|auto with built]. simpl in Hd.
    assert (Hl : Forall (fun x => is_Some (buildConditions fuel x)) l).
    { apply Forall_forall. intros x Hx. apply IH. apply depth_elem in Hx. lia. }
    unfold buildConditionArray. destruct l as [|x [|y l]]; [auto with built|by inversion Hl|].
    apply bbind_total; [by apply buildChildren_total|auto with built].
  - destruct (String.eqb _ _); [|auto with built]. simpl in Hd.
    assert (Hk : forall k ty x, assoc k m = Some x -> is_Some (buildLogicalCondition (buildConditions fuel) ty x)).
    { intros k t x Hx. apply buildLogicalCondition_total. intros y l t' -> Hy. apply IH.
      apply depth_assoc in Hx. simpl in Hx. apply depth_elem in Hy. lia. }
    unfold buildConditionMap.
    destruct (assoc "all" m) eqn:E1; [eauto|]. destruct (assoc "any" m) eqn:E2; [eauto|].
    destruct (assoc "not" m) eqn:E3; [eauto|]. destruct (assoc "function" m) eqn:E4.
    + apply buildFunctionCondition_total.
    + apply buildSimpleCondition_total.
Qed.

Lemma collect_total {A B} label (f : A -> Built B) i l : (forall a, is_Some (f a)) -> is_Some (collect label f i l).
Proof.
  intros Hf. revert i. induction l as [|a l IH]; intros i; simpl; [eauto|].
  destruct (Hf a) as [r ->], (IH (i + 1)) as [[bs errs] ->]. simpl. eauto.
Qed.

Section totality.
Context `{MapRange} `{Fmt}.

Lemma buildParameters_total l acc : is_Some (buildParameters l acc).
Proof.
  revert acc. induction l as [|[k v] l IH]; intros acc; simpl; [auto with built|].
  destruct (String.eqb k "type"); [done|]. apply bbind_total; eauto.
Qed.

Lemma buildAction_total m : is_Some (buildAction m).
Proof.
  unfold buildAction. destruct (m !! "type") as [[]|]; auto with built.
  apply bbind_total; [apply buildParameters_total|auto with built].
Qed.

Lemma buildActions_total i l : is_Some (buildActions i l).
Proof.
  revert i. induction l as [|m l IH]; intros i; simpl; [auto with built|].
  apply bbind_total; [apply buildAction_total|]. intros a _. apply bbind_total; auto with built.
Qed.

Lemma buildRule_total yr : is_Some (buildRule yr).
Proof.
  apply bbind_total.
  - assert (Hc : is_Some (bbind "invalid conditions: " (buildCondition (yr_Conditions yr)) (fun c => bret (Some c)))).
    { apply bbind_total; [apply buildConditions_total; lia|auto with built]. }
    by destruct (yr_Conditions yr); [auto with built|..].
  - intros conds _. apply bbind_total; [apply buildActions_total|auto with built].
Qed.

Lemma buildPolicy_total parseTime path yp : is_Some (buildPolicy parseTime path yp).
Proof.
  unfold buildPolicy.
  destruct (collect_total (fun _ (nv : string * GoValue) => "Invalid variable " +:+ Quote nv.1 +:+ ": ")
    (fun nv => bbind "" (buildVariable nv.1 nv.2) (fun v => bret (nv.1, v))) 0 (range (yp_Variables yp)))
    as [[vs e1] ->].
  { intros [n v]. apply bbind_total; [|auto with built]. apply bbind_total; eauto with built. }
  simpl. destruct (collect_total (fun i (_ : yamlRule) => "Invalid rule at index " +:+ pretty i +:+ ": ")
    buildRule 0 (yp_Rules yp) buildRule_total) as [[rs e2] ->]. simpl.
  destruct (collect_total (fun i (_ : yamlTest) => "Invalid test at index " +:+ pretty i +:+ ": ")
    buildTest 0 (yp_Tests yp)) as [[ts e3] ->]; [|eauto].
  intros yt. unfold buildTest. destruct (String.eqb _ _); [auto with built|].
  destruct (yt_Request yt); [|auto with built]. destruct (String.eqb _ _); auto with built.
Qed.

Lemma Parse_total parseTime files p path : is_Some (Parse parseTime files p path).
Proof.
  unfold Parse, build_document. destruct (file_size files path); [|by eexists].
  destruct (_ <? _); [by eexists|]. destruct (parseYAMLFile files path); [|by eexists].
  destruct (buildPolicy_total parseTime path a0) as [[[]|] ->]; by eexists.
Qed.
End totality.

(** ** What the builder produces *)

(** A value node of which the stored value is the document form. *)
Definition value_built (v : ValueNode) : Prop := buildValue (vn_Value v) = Ok v.

Inductive canonical : ConditionNode -> Prop :=
| can_simple field op v :
    value_built v -> canonical (mkConditionNode ConditionTypeSimple field op (Some v) "" [] [])
| can_function fn args :
    Forall value_built args -> canonical (mkConditionNode ConditionTypeFunction "" "" None fn args [])
| can_logical ty children :
    ty ∈ [ConditionTypeAll; ConditionTypeAny; ConditionTypeNot] ->
    Forall canonical children -> canonical (mkConditionNode ty "" "" None "" [] (Some <$> children)).

(** Induction with the hypothesis for the children. *)
Lemma canonical_nested_ind (P : ConditionNode -> Prop) :
  (forall field op v, value_built v -> P (mkConditionNode ConditionTypeSimple field op (Some v) "" [] [])) ->
  (forall fn args, Forall value_built args -> P (mkConditionNode ConditionTypeFunction "" "" None fn args [])) ->
  (forall ty children, ty ∈ [ConditionTypeAll; ConditionTypeAny; ConditionTypeNot] ->
     Forall canonical children -> Forall P children -> P (mkConditionNode ty "" "" None "" [] (Some <$> children))) ->
  forall c, canonical c -> P c.
Proof.
  intros Hs Hf Hl. fix IH 2. intros c [field op v Hv|fn args Ha|ty children Ht Hc]; [by apply Hs|by apply Hf|].
  apply Hl; [done|done|]. induction Hc as [|x l Hx Hc' IHc]; constructor; [by apply IH|done].
Qed.

(** The document that a condition is read from. *)
Fixpoint print (c : ConditionNode) : GoValue :=
  if String.eqb (cn_Type c) ConditionTypeSimple then
    VMap any_map [("field", VString (Field c)); ("operator", VString (Operator c));
                  ("value", match cn_Value c with Some v => vn_Value v | None => VNil end)]
  else if String.eqb (cn_Type c) ConditionTypeFunction then
    VMap any_map [("function", VString (Function c)); ("args", VSlice any_slice (vn_Value <$> Args c))]
  else
    VMap any_map [(cn_Type c, VSlice any_slice (map (fun o => match o with Some x => print x | None => VNil end) (Children c)))].

Lemma bbind_Ok {A B} prefix (m : Built A) (f : A -> Built B) b :
  bbind prefix m f = bret b -> exists a, m = bret a /\ f a = bret b.
Proof. unfold bbind. destruct m as [[a|e]|]; try done. eauto. Qed.

Lemma buildValue_built v n : buildValue v = Ok n -> value_built n.
Proof.
  unfold value_built. destruct v; simpl; try done; intros Hv.
  - by simplify_eq.
  - by simplify_eq.
  - by destruct k; simplify_eq.
  - by simplify_eq.
  - destruct (isVariableReference s) eqn:E; injection Hv as <-; simpl; by rewrite E.
  - destruct (String.eqb ty any_slice) eqn:E; injection Hv as <- || done. simpl. by rewrite E.
  - destruct (String.eqb ty any_map) eqn:E; injection Hv as <- || done. simpl. by rewrite E.
Qed.

Lemma buildArgs_built i l args : buildArgs i l = bret args -> Forall value_built args.
Proof.
  revert i args. induction l as [|v l IH]; intros i args; simpl; [by intros [= <-]|].
  intros (n & Hn & (rest & Hr & [= <-])%bbind_Ok)%bbind_Ok. injection Hn as Hn.
  constructor; [by eapply buildValue_built|by eapply IH].
Qed.

Lemma buildChildren_canonical build what i l nodes :
  (forall v c, build v = bret c -> canonical c) ->
  buildChildren build what i l = bret nodes -> exists cs, nodes = Some <$> cs /\ Forall canonical cs.
Proof.
  intros Hb. revert i nodes. induction l as [|v l IH]; intros i nodes; simpl; [intros [= <-]; by exists []|].
  intros (n & Hn & (rest & Hr & [= <-])%bbind_Ok)%bbind_Ok.
  destruct (IH _ _ Hr) as (cs & -> & Hcs). exists (n :: cs). split; [done|]. constructor; [by eapply Hb|done].
Qed.

Lemma buildLogicalCondition_canonical build ty v c :
  (forall v c, build v = bret c -> canonical c) -> ty ∈ [ConditionTypeAll; ConditionTypeAny; ConditionTypeNot] ->
  buildLogicalCondition build ty v = bret c -> canonical c.
Proof.
  intros Hb Ht. destruct v; simpl; try done. destruct (String.eqb _ _); [|done].
  intros (nodes & Hn & [= <-])%bbind_Ok. apply buildChildren_canonical in Hn as (cs & -> & Hcs); [|done].
  by constructor.
Qed.

Lemma buildFunctionCondition_canonical fn m c : buildFunctionCondition fn m = bret c -> canonical c.
Proof.
  destruct fn; simpl; try done. intros (args & Ha & [= <-])%bbind_Ok. constructor.
  destruct (assoc "args" m) as [[]|]; try done; [|by injection Ha as <-].
  destruct (String.eqb _ _); [|done]. by eapply buildArgs_built.
Qed.

Lemma buildSimpleCondition_canonical m c : buildSimpleCondition m = bret c -> canonical c.
Proof.
  unfold buildSimpleCondition. destruct (str_key "field" m); [|done]. destruct (str_key "operator" m); [|done].
  intros (n & Hn & [= <-])%bbind_Ok. constructor. injection Hn as Hn. by eapply buildValue_built.
Qed.

Lemma buildConditions_canonical fuel v c : buildConditions fuel v = bret c -> canonical c.
Proof.
  revert v c. induction fuel as [|fuel IH]; intros v c; [done|]. destruct v; simpl; try done.
  - destruct (String.eqb _ _); [|done]. unfold buildConditionArray. destruct l as [|x [|y l]]; [done|by apply IH|].
    intros (nodes & Hn & [= <-])%bbind_Ok. apply buildChildren_canonical in Hn as (cs & -> & Hcs); [|done].
    constructor; [by left|done].
  - destruct (String.eqb _ _); [|done]. unfold buildConditionMap.
    destruct (assoc "all" m); [apply buildLogicalCondition_canonical; [done|set_solver]|].
    destruct (assoc "any" m); [apply buildLogicalCondition_canonical; [done|set_solver]|].
    destruct (assoc "not" m); [apply buildLogicalCondition_canonical; [done|set_solver]|].
    destruct (assoc "function" m); [apply buildFunctionCondition_canonical|apply buildSimpleCondition_canonical].
Qed.

Lemma buildArgs_print i args : Forall value_built args -> buildArgs i (vn_Value <$> args) = bret args.
Proof.
  intros Ha. revert i. induction Ha as [|v args Hv _ IH]; intros i; [done|]. simpl. rewrite Hv, IH. done.
Qed.

Lemma buildChildren_print build what i cs :
  Forall (fun c => build (print c) = bret c) cs ->
  buildChildren build what i (map (fun o => match o with Some x => print x | None => VNil end) (Some <$> cs)) =
  bret (Some <$> cs).
Proof.
  intros Hc. revert i. induction Hc as [|c cs Hx _ IH]; intros i; [done|]. simpl. rewrite Hx, IH. done.
Qed.

Lemma buildConditions_print c :
  canonical c -> forall fuel, (depth (print c) < fuel)%nat -> buildConditions fuel (print c) = bret c.
Proof.
  revert c. apply (canonical_nested_ind (fun c =>
    forall fuel, (depth (print c) < fuel)%nat -> buildConditions fuel (print c) = bret c)).
  - intros field op v Hv [|fuel] Hf; [lia|]. simpl. unfold buildConditionMap, buildSimpleCondition. simpl.
    by rewrite Hv.
  - intros fn args Ha [|fuel] Hf; [lia|]. simpl. unfold buildConditionMap. simpl. by rewrite buildArgs_print.
  - intros ty cs Ht _ Hcs [|fuel] Hf; [lia|].
    assert (Hb : Forall (fun c => buildConditions fuel (print c) = bret c) cs).
    { rewrite Forall_forall in Hcs |- *. intros c Hc. apply (Hcs c Hc).
      assert (Hin : print c ∈ map (fun o => match o with Some x => print x | None => VNil end) (Some <$> cs)).
      { apply list_elem_of_In, in_map_iff. exists (Some c). split; [done|]. apply list_elem_of_In, list_elem_of_fmap. eauto. }
      apply depth_elem in Hin. revert Hf. cbn [print cn_Type Children].
      repeat case_match; simpl; try lia; exfalso; set_solver. }
    rewrite !elem_of_cons, elem_of_nil in Ht. cbn [print cn_Type Children].
    destruct Ht as [->|[->|[->|[]]]]; simpl; unfold buildConditionMap; simpl; by rewrite buildChildren_print.
Qed.

(** ** What the builder reads

    The documents of values and conditions, and the trees that they stand for. *)

Notation chars := String.list_ascii_of_string.

Definition spaces (n : nat) : list ascii := replicate n " "%char.

(** The text without the spaces around it. *)
Definition trimmed (l x : list ascii) : Prop :=
  exists a b, l = (spaces a ++ x ++ spaces b)%list /\ head x <> Some " "%char /\ last x <> Some " "%char.

(** [{{ variables.name }}], with or without the prefix and the spaces. *)
Definition names_variable (s name : string) : Prop :=
  exists inner x, chars s = (["{"; "{"] ++ inner ++ ["}"; "}"])%char%list /\ inner <> [] /\ trimmed inner (chars x) /\
    ((x = "variables." +:+ name /\ name <> "") \/ (name = x /\ forall y, y <> "" -> x <> "variables." +:+ y)).

Inductive reads_value : GoValue -> ValueNode -> Prop :=
| rv_null : reads_value VNil (mkValueNode ValueTypeNull VNil "")
| rv_variable s name : names_variable s name -> reads_value (VString s) (mkValueNode ValueTypeVariable (VString s) name)
| rv_string s : (forall name, ~ names_variable s name) -> reads_value (VString s) (mkValueNode ValueTypeString (VString s) "")
| rv_int k n : k ∈ [KInt; KInt64] -> reads_value (VInt k n) (mkValueNode ValueTypeNumber (VFloat64 (of_int n)) "")
| rv_float n : reads_value (VFloat64 n) (mkValueNode ValueTypeNumber (VFloat64 n) "")
| rv_bool b : reads_value (VBool b) (mkValueNode ValueTypeBoolean (VBool b) "")
| rv_array l : reads_value (VSlice any_slice l) (mkValueNode ValueTypeArray (VSlice any_slice l) "")
| rv_object m : reads_value (VMap any_map m) (mkValueNode ValueTypeObject (VMap any_map m) "").

Definition leaf (field op : string) (v : ValueNode) : ConditionNode :=
  mkConditionNode ConditionTypeSimple field op (Some v) "" [] [].
Definition call (fn : string) (args : list ValueNode) : ConditionNode :=
  mkConditionNode ConditionTypeFunction "" "" None fn args [].
Definition logical (ty : string) (cs : list ConditionNode) : ConditionNode :=
  mkConditionNode ty "" "" None "" [] (Some <$> cs).

(** Of the keys [all], [any], [not] and [function] the first one that is there
    decides; without them it is a comparison. *)
Inductive reads : GoValue -> ConditionNode -> Prop :=
| rd_all m l cs : assoc "all" m = Some (VSlice any_slice l) -> Forall2 reads l cs -> reads (VMap any_map m) (logical "all" cs)
| rd_any m l cs : assoc "all" m = None -> assoc "any" m = Some (VSlice any_slice l) -> Forall2 reads l cs ->
    reads (VMap any_map m) (logical "any" cs)
| rd_not m l cs : assoc "all" m = None -> assoc "any" m = None -> assoc "not" m = Some (VSlice any_slice l) ->
    Forall2 reads l cs -> reads (VMap any_map m) (logical "not" cs)
| rd_function m fn l args : assoc "all" m = None -> assoc "any" m = None -> assoc "not" m = None ->
    assoc "function" m = Some (VString fn) ->
    (assoc "args" m = Some (VSlice any_slice l) \/ (assoc "args" m = None /\ l = [])) -> Forall2 reads_value l args ->
    reads (VMap any_map m) (call fn args)
| rd_simple m field op w v : assoc "all" m = None -> assoc "any" m = None -> assoc "not" m = None -> assoc "function" m = None ->
    assoc "field" m = Some (VString field) -> assoc "operator" m = Some (VString op) ->
    (assoc "value" m = Some w \/ (assoc "value" m = None /\ w = VNil)) -> reads_value w v ->
    reads (VMap any_map m) (leaf field op v)
| rd_one v c : reads v c -> reads (VSlice any_slice [v]) c
| rd_several l cs : (2 <= length l)%nat -> Forall2 reads l cs -> reads (VSlice any_slice l) (logical "all" cs).

(** The trees: comparisons and calls with nodes of values, and their combinations. *)
Inductive tree : ConditionNode -> Prop :=
| tr_leaf field op w v : reads_value w v -> tree (leaf field op v)
| tr_call fn ws args : Forall2 reads_value ws args -> tree (call fn args)
| tr_logical ty cs : ty ∈ ["all"; "any"; "not"] -> Forall tree cs -> tree (logical ty cs).

(** *** Variable references *)

Lemma chars_app a b : chars (a +:+ b) = (chars a ++ chars b)%list.
Proof. induction a as [|c a IH]; [done|]. rewrite string_app_cons. cbn. by rewrite IH. Qed.

Lemma chars_length s : length (chars s) = String.length s.
Proof. induction s as [|c s IH]; [done|]. cbn. by rewrite IH. Qed.

Lemma chars_inj s t : chars s = chars t -> s = t.
Proof.
  intros He. rewrite <- (String.string_of_list_ascii_of_string s), <- (String.string_of_list_ascii_of_string t). by rewrite He.
Qed.

Lemma chars_substring n m s : chars (String.substring n m s) = take m (drop n (chars s)).
Proof.
  revert n m. induction s as [|c s IH]; intros [|n] [|m]; cbn; try done; by rewrite IH, ?drop_0.
Qed.

Lemma drop_spaces_app n l : head l <> Some " "%char -> drop_spaces (spaces n ++ l) = l.
Proof.
  intros Hl. induction n as [|n IH]; [|exact IH]. cbn. destruct l as [|c l]; [done|].
  destruct c as [[] [] [] [] [] [] [] []]; done.
Qed.

Lemma drop_spaces_spec l : exists n, l = (spaces n ++ drop_spaces l)%list /\ head (drop_spaces l) <> Some " "%char.
Proof.
  induction l as [|c l IH]; [by exists 0%nat|]. destruct (decide (c = " "%char)) as [->|Hc].
  - destruct IH as (n & Hn & Hh). exists (S n). split; [|exact Hh]. cbn. f_equal. exact Hn.
  - exists 0%nat. destruct c as [[] [] [] [] [] [] [] []]; cbn; split; congruence.
Qed.

Lemma rev_spaces n : rev (spaces n) = spaces n.
Proof. unfold spaces. induction n as [|n IH]; [done|]. cbn. rewrite IH. symmetry. apply replicate_cons_app. Qed.

Lemma head_rev (l : list ascii) : head (rev l) = last l.
Proof. destruct l as [|c l _] using rev_ind; [done|]. by rewrite List.rev_app_distr, last_snoc. Qed.

Lemma trimSpaces_spec s x : trimmed (chars s) (chars x) <-> trimSpaces s = x.
Proof.
  unfold trimSpaces. split.
  - intros (a & b & Hs & Hh & Hl). rewrite Hs.
    assert (Ht : rev (drop_spaces (rev (drop_spaces (spaces a ++ chars x ++ spaces b)))) = chars x).
    { destruct (chars x) as [|c l] eqn:E.
      - replace (spaces a ++ [] ++ spaces b)%list with (spaces (a + b) ++ [])%list
          by (unfold spaces; by rewrite app_nil_r, replicate_add).
        by rewrite drop_spaces_app.
      - rewrite drop_spaces_app by done. rewrite List.rev_app_distr, rev_spaces, drop_spaces_app by (by rewrite head_rev).
        apply List.rev_involutive. }
    rewrite Ht. apply String.string_of_list_ascii_of_string.
  - intros <-. rewrite String.list_ascii_of_string_of_list_ascii.
    destruct (drop_spaces_spec (chars s)) as (a & Ha & Hh). set (y := drop_spaces (chars s)) in *.
    destruct (drop_spaces_spec (rev y)) as (b & Hb & Hl). set (z := drop_spaces (rev y)) in *.
    assert (Hy : y = (rev z ++ spaces b)%list) by (by rewrite <- (List.rev_involutive y), Hb, List.rev_app_distr, rev_spaces).
    exists a, b. split; [by rewrite <- Hy|]. split.
    + intros Hz. apply Hh. rewrite Hy. by destruct (rev z).
    + by rewrite <- head_rev, List.rev_involutive.
Qed.

Lemma reference_iff s :
  isVariableReference s = true <-> exists inner, chars s = (["{"; "{"] ++ inner ++ ["}"; "}"])%char%list /\ inner <> [].
Proof.
  unfold isVariableReference. rewrite !andb_true_iff, Nat.ltb_lt, !String.eqb_eq. split.
  - intros [[Hlen H1] H2]. apply (f_equal chars) in H1, H2. rewrite chars_substring in H1, H2. rewrite drop_0 in H1.
    rewrite (take_ge (drop _ _)) in H2 by (rewrite length_drop, chars_length; lia).
    set (n := String.length s) in *. exists (take (n - 4) (drop 2 (chars s))). split.
    + rewrite <- (take_drop 2 (chars s)) at 1. rewrite H1. f_equal.
      rewrite <- (take_drop (n - 4) (drop 2 (chars s))) at 1. f_equal. rewrite drop_drop. replace (2 + (n - 4))%nat with (n - 2)%nat by lia.
      exact H2.
    + intros Hnil%(f_equal length). rewrite length_take, length_drop, chars_length in Hnil. cbn in Hnil. unfold n in *. lia.
  - intros (inner & Hs & Hne). assert (Hlen : String.length s = (length inner + 4)%nat).
    { rewrite <- chars_length, Hs, !length_app. cbn. lia. }
    assert (0 < length inner)%nat by (destruct inner; cbn; [done|lia]). split; [split; [lia|]|]; apply chars_inj; rewrite chars_substring, Hs.
    + done.
    + rewrite Hlen, app_assoc, drop_app_length' by (rewrite length_app; cbn; lia). done.
Qed.

Lemma inner_chars s inner :
  chars s = (["{"; "{"] ++ inner ++ ["}"; "}"])%char%list -> chars (String.substring 2 (String.length s - 4) s) = inner.
Proof.
  intros Hs. rewrite chars_substring, Hs. rewrite <- chars_length, Hs, !length_app. cbn [length].
  change (drop 2 _) with (inner ++ ["}"; "}"]%char)%list. apply take_app_length'. lia.
Qed.

Lemma prefix_iff x y : String.substring 0 10 x = "variables." /\ y = String.substring 10 (String.length x - 10) x <->
  x = "variables." +:+ y.
Proof.
  split.
  - intros [Hp ->]. apply chars_inj. rewrite chars_app, <- Hp, !chars_substring, drop_0.
    rewrite (take_ge (drop 10 _)) by (rewrite length_drop, chars_length; lia). by rewrite take_drop.
  - intros ->. split; [by destruct y|]. apply chars_inj. rewrite chars_substring, chars_app, <- chars_length, chars_app, length_app.
    rewrite take_ge; [done|]. rewrite length_drop, length_app. cbn. lia.
Qed.

Lemma names_variable_iff s name : names_variable s name <-> isVariableReference s = true /\ extractVariableName s = name.
Proof.
  unfold names_variable, extractVariableName. split.
  - intros (inner & x & Hs & Hne & Ht & Hn). split; [apply reference_iff; eauto|].
    rewrite <- (inner_chars s inner Hs) in Ht. apply trimSpaces_spec in Ht. rewrite Ht.
    destruct Hn as [[-> Hn]|[-> Hn]].
    + destruct (proj2 (prefix_iff _ name) eq_refl) as [H1 H2]. rewrite H1, <- H2.
      destruct (Nat.ltb_spec 10 (String.length ("variables." +:+ name))) as [|Hl]; [done|]. exfalso. apply Hn.
      rewrite string_length_app in Hl. destruct name; [done|]. cbn in Hl. lia.
    + destruct (Nat.ltb_spec 10 (String.length x)) as [Hl|]; [|done]. cbn [andb].
      destruct (String.eqb_spec (String.substring 0 10 x) "variables.") as [Hp|]; [|done]. exfalso.
      pose proof (proj1 (prefix_iff x _) (conj Hp eq_refl)) as Hx. apply Hn in Hx; [done|].
      intros Hy. rewrite Hy in Hx. rewrite Hx, string_length_app in Hl. cbn in Hl. lia.
  - intros [(inner & Hs & Hne)%reference_iff He]. set (x := trimSpaces _) in He. exists inner, x.
    split; [done|]. split; [done|]. split; [rewrite <- (inner_chars s inner Hs); by apply trimSpaces_spec|].
    destruct (Nat.ltb_spec 10 (String.length x)) as [Hl|Hl]; cbn [andb] in He.
    + destruct (String.eqb_spec (String.substring 0 10 x) "variables.") as [Hp|Hp].
      * left. pose proof (proj1 (prefix_iff x name) (conj Hp (eq_sym He))) as Hx. split; [done|].
        intros ->. rewrite Hx, string_length_app in Hl. cbn in Hl. lia.
      * right. split; [done|]. intros y _ Hx. by apply prefix_iff in Hx as [? _].
    + right. split; [done|]. intros y Hy Hx. rewrite Hx, string_length_app in Hl. destruct y; [done|]. cbn in Hl. lia.
Qed.

Lemma reads_value_iff v n : buildValue v = Ok n <-> reads_value v n.
Proof.
  split.
  - destruct v; cbn; try done; intros Hv; try (injection Hv as <-; by constructor).
    + destruct k; try done; injection Hv as <-; constructor; set_solver.
    + destruct (isVariableReference s) eqn:E; injection Hv as <-; constructor; [by apply names_variable_iff|].
      intros name [Hr _]%names_variable_iff. congruence.
    + destruct (String.eqb_spec ty any_slice) as [->|]; [|done]. injection Hv as <-. constructor.
    + destruct (String.eqb_spec ty any_map) as [->|]; [|done]. injection Hv as <-. constructor.
  - intros [|s name [Hr Hn]%names_variable_iff|s Hs|k i Hk| | | |]; cbn; try done.
    + by rewrite Hr, Hn.
    + destruct (isVariableReference s) eqn:E; [|done]. exfalso. eapply Hs. by apply names_variable_iff.
    + rewrite !elem_of_cons, elem_of_nil in Hk. by destruct Hk as [->|[->|[]]].
Qed.

(** *** Conditions *)

Lemma bbind_iff {A B} prefix (m : Built A) (f : A -> Built B) b :
  bbind prefix m f = bret b <-> exists a, m = bret a /\ f a = bret b.
Proof. split; [apply bbind_Ok|]. intros (a & -> & Hf). exact Hf. Qed.

Lemma bret_inj {A} (a b : A) : bret a = bret b <-> a = b.
Proof. unfold bret. split; congruence. Qed.

Lemma related_nil {A B} (R : A -> B -> Prop) k : Forall2 R [] k <-> k = [].
Proof. split; [apply Forall2_nil_inv_l|]. by intros ->. Qed.

Lemma related_cons {A B} (R : A -> B -> Prop) x l k :
  Forall2 R (x :: l) k <-> exists y k', R x y /\ Forall2 R l k' /\ k = y :: k'.
Proof. split; [apply Forall2_cons_inv_l|]. intros (y & k' & Hx & Hl & ->). by constructor. Qed.

Lemma value_bret v n : Some (buildValue v) = bret n <-> reads_value v n.
Proof. rewrite <- reads_value_iff. unfold bret. split; congruence. Qed.

Lemma buildArgs_iff i l args : buildArgs i l = bret args <-> Forall2 reads_value l args.
Proof.
  revert i args. induction l as [|v l IH]; intros i args; cbn [buildArgs].
  { rewrite bret_inj, related_nil. split; congruence. }
  rewrite bbind_iff, related_cons. setoid_rewrite bbind_iff. setoid_rewrite value_bret. setoid_rewrite IH. setoid_rewrite bret_inj.
  naive_solver.
Qed.

Section reading.
Variable build : GoValue -> Built ConditionNode.

Lemma buildChildren_iff what i l nodes :
  (forall v c, v ∈ l -> build v = bret c <-> reads v c) ->
  buildChildren build what i l = bret nodes <-> exists cs, nodes = Some <$> cs /\ Forall2 reads l cs.
Proof using.
  revert i nodes. induction l as [|v l IH]; intros i nodes Hb; cbn [buildChildren].
  { rewrite bret_inj. setoid_rewrite related_nil. split; [intros <-; by exists []|by intros (? & -> & ->)]. }
  rewrite bbind_iff. setoid_rewrite bbind_iff. setoid_rewrite bret_inj. setoid_rewrite related_cons.
  setoid_rewrite IH; [|intros x c Hx; apply Hb; by right]. specialize (Hb v).
  split.
  - intros (c & Hc & nodes' & (cs & -> & Hcs) & <-). exists (c :: cs). split; [done|]. exists c, cs.
    split; [apply Hb; [left|done]|done].
  - intros (? & -> & c & cs & Hc & Hcs & ->). exists c. split; [apply Hb; [left|done]|]. exists (Some <$> cs). eauto.
Qed.

Lemma buildLogical_iff ty v c :
  (forall t l x c, v = VSlice t l -> x ∈ l -> build x = bret c <-> reads x c) ->
  buildLogicalCondition build ty v = bret c <->
  exists l cs, v = VSlice any_slice l /\ Forall2 reads l cs /\ c = logical ty cs.
Proof using.
  intros Hb. unfold buildLogicalCondition. destruct v; try (split; [done|naive_solver]).
  destruct (String.eqb_spec ty0 any_slice) as [->|Hne]; [|split; [done|naive_solver]].
  rewrite bbind_iff. setoid_rewrite buildChildren_iff; [|by intros x c'; apply (Hb any_slice l)]. setoid_rewrite bret_inj.
  unfold logical. naive_solver.
Qed.
End reading.

Lemma buildFunction_iff fn m c :
  buildFunctionCondition fn m = bret c <->
  exists name l args, fn = VString name /\
    (assoc "args" m = Some (VSlice any_slice l) \/ (assoc "args" m = None /\ l = [])) /\ Forall2 reads_value l args /\ c = call name args.
Proof.
  unfold buildFunctionCondition. destruct fn; try (split; [done|naive_solver]). rewrite bbind_iff. setoid_rewrite bret_inj.
  unfold call. destruct (assoc "args" m) as [v|].
  - destruct v; try (split; [naive_solver|]; intros (? & ? & ? & _ & [[=]|[[=] _]] & _)).
    destruct (String.eqb_spec ty any_slice) as [->|Hne]; [setoid_rewrite buildArgs_iff; naive_solver|]. naive_solver.
  - setoid_rewrite bret_inj. split.
    + intros (args & <- & <-). exists s, [], []. split; [done|]. split; [by right|]. by split.
    + intros (name & l & args & [= <-] & [[=]|[_ ->]] & Ha%Forall2_nil_inv_l & ->). exists args. by subst args.
Qed.

Lemma buildSimple_iff m c :
  buildSimpleCondition m = bret c <->
  exists field op w v, assoc "field" m = Some (VString field) /\ assoc "operator" m = Some (VString op) /\
    (assoc "value" m = Some w \/ (assoc "value" m = None /\ w = VNil)) /\ reads_value w v /\ c = leaf field op v.
Proof.
  unfold buildSimpleCondition, str_key.
  destruct (assoc "field" m) as [[]|]; try (split; [done|]; by intros (? & ? & ? & ? & [=] & _)).
  destruct (assoc "operator" m) as [[]|]; try (split; [done|]; by intros (? & ? & ? & ? & _ & [=] & _)).
  rewrite bbind_iff. setoid_rewrite value_bret. setoid_rewrite bret_inj. unfold leaf.
  destruct (assoc "value" m) as [w|]; cbn [default]; naive_solver.
Qed.

(** The builder reads exactly what is specified. *)
Lemma buildConditions_iff fuel v c : (depth v < fuel)%nat -> buildConditions fuel v = bret c <-> reads v c.
Proof.
  revert v c. induction fuel as [|fuel IH]; intros v c Hd; [lia|].
  assert (Hl : forall ty l, v = VSlice ty l -> forall x c, x ∈ l -> buildConditions fuel x = bret c <-> reads x c).
  { intros ty l -> x c' Hx%depth_elem. apply IH. cbn in Hd. lia. }
  assert (Hm : forall ty m k w, v = VMap ty m -> assoc k m = Some w ->
    forall t l x c, w = VSlice t l -> x ∈ l -> buildConditions fuel x = bret c <-> reads x c).
  { intros ty m k w -> Hw%depth_assoc t l x c' -> Hx%depth_elem. apply IH. cbn in Hd, Hw. lia. }
  destruct v; cbn [buildConditions]; try (split; [done|by inversion 1]).
  - destruct (String.eqb_spec ty any_slice) as [->|Hne]; [|split; [done|by inversion 1]].
    specialize (Hl any_slice l eq_refl). unfold buildConditionArray.
    destruct l as [|x [|y l]]; [split; [done|inversion 1; cbn in *; lia]|..].
    + rewrite (Hl x c) by left. split; [by constructor|]. inversion 1; [done|cbn in *; lia].
    + rewrite bbind_iff. setoid_rewrite buildChildren_iff; [|exact Hl]. setoid_rewrite bret_inj. split.
      * intros (nodes & (cs & -> & Hcs) & <-). apply rd_several; [cbn; lia|done].
      * inversion 1; subst. eauto.
  - destruct (String.eqb_spec ty any_map) as [->|Hne]; [|split; [done|by inversion 1]].
    specialize (fun k w => Hm any_map m k w eq_refl). unfold buildConditionMap.
    destruct (assoc "all" m) as [w|] eqn:E1; [rewrite buildLogical_iff by exact (Hm _ _ E1);
      split; [intros (l & cs & -> & Hcs & ->); by eapply rd_all|inversion 1; simplify_eq; eauto]|].
    destruct (assoc "any" m) as [w|] eqn:E2; [rewrite buildLogical_iff by exact (Hm _ _ E2);
      split; [intros (l & cs & -> & Hcs & ->); by eapply rd_any|inversion 1; simplify_eq; eauto]|].
    destruct (assoc "not" m) as [w|] eqn:E3; [rewrite buildLogical_iff by exact (Hm _ _ E3);
      split; [intros (l & cs & -> & Hcs & ->); by eapply rd_not|inversion 1; simplify_eq; eauto]|].
    destruct (assoc "function" m) as [fn|] eqn:E4.
    + rewrite buildFunction_iff. split; [intros (name & l & args & -> & Ha & Hv & ->); by eapply rd_function|].
      inversion 1; simplify_eq; eauto 8.
    + rewrite buildSimple_iff. split; [intros (f & op & w & n & Hf & Ho & Hw & Hn & ->); by eapply rd_simple|].
      inversion 1; simplify_eq; eauto 10.
Qed.

Lemma reads_tree fuel v c : (depth v < fuel)%nat -> reads v c -> tree c.
Proof.
  revert v c. induction fuel as [|fuel IH]; intros v c Hd Hr; [lia|].
  assert (Hcs : forall l cs, (forall x, x ∈ l -> (depth x < fuel)%nat) -> Forall2 reads l cs -> Forall tree cs).
  { intros l cs Hl Hf. induction Hf as [|x y l cs Hx _ IHf]; constructor; [eapply IH; [|exact Hx]; apply Hl; left|].
    apply IHf. intros z Hz. apply Hl. by right. }
  destruct Hr as [m l cs H1 Hc|m l cs _ H1 Hc|m l cs _ _ H1 Hc|m fn l args _ _ _ _ _ Ha|m f op w n _ _ _ _ _ _ _ Hn|v c Hc|l cs _ Hc].
  1-3: apply tr_logical; [set_solver|]; eapply Hcs; [|exact Hc]; intros x Hx%depth_elem; apply depth_assoc in H1; cbn in Hd, H1; lia.
  - by eapply tr_call.
  - by eapply tr_leaf.
  - eapply IH; [|exact Hc]. cbn in Hd. lia.
  - apply tr_logical; [set_solver|]. eapply Hcs; [|exact Hc]. intros x Hx%depth_elem. cbn in Hd. lia.
Qed.

(** *** Printing *)

Lemma value_printed w v : reads_value w v -> reads_value (vn_Value v) v.
Proof. intros Hr. apply reads_value_iff. eapply buildValue_built. by apply reads_value_iff. Qed.

Lemma tree_nested_ind (P : ConditionNode -> Prop) :
  (forall field op w v, reads_value w v -> P (leaf field op v)) ->
  (forall fn ws args, Forall2 reads_value ws args -> P (call fn args)) ->
  (forall ty cs, ty ∈ ["all"; "any"; "not"] -> Forall P cs -> P (logical ty cs)) ->
  forall c, tree c -> P c.
Proof.
  intros Hs Hf Hl. fix IH 2. intros c [field op w v Hv|fn ws args Ha|ty cs Ht Hc]; [by eapply Hs|by eapply Hf|].
  apply Hl; [done|]. induction Hc as [|x l Hx Hc' IHc]; constructor; [by apply IH|done].
Qed.

Lemma print_logical ty cs :
  ty ∈ ["all"; "any"; "not"] -> print (logical ty cs) = VMap any_map [(ty, VSlice any_slice (print <$> cs))].
Proof.
  intros Ht. cbn [print logical cn_Type Children].
  assert (Hp : map (fun o => match o with Some x => print x | None => VNil end) (Some <$> cs) = (print <$> cs)).
  { rewrite map_map. done. }
  rewrite Hp. rewrite !elem_of_cons, elem_of_nil in Ht. by destruct Ht as [->|[->|[->|[]]]].
Qed.

Lemma print_reads c : tree c -> reads (print c) c.
Proof.
  revert c. apply tree_nested_ind.
  - intros field op w v Hv%value_printed. by apply (rd_simple _ field op (vn_Value v) v); try done; left.
  - intros fn ws args Ha. apply (rd_function _ fn (vn_Value <$> args)); try done; [by left|].
    induction Ha as [|w v ws args Hv _ IH]; constructor; [by eapply value_printed|done].
  - intros ty cs Ht Hcs. rewrite print_logical by done.
    assert (Hf : Forall2 reads (print <$> cs) cs) by (induction Hcs; by constructor).
    rewrite !elem_of_cons, elem_of_nil in Ht. destruct Ht as [->|[->|[->|[]]]].
    + by eapply rd_all.
    + by eapply rd_any.
    + by eapply rd_not.
Qed.


Definition ex_document : GoValue :=
  VMap any_map [("any", VSlice any_slice [
    VMap any_map [("field", VString "request.model"); ("operator", VString "=="); ("value", VString "{{ variables.model }}")];
    VSlice any_slice [VMap any_map [("function", VString "has_pii"); ("args", VSlice any_slice [VInt KInt 3])]]])].

Definition ex_tree : ConditionNode :=
  logical "any" [leaf "request.model" "==" (mkValueNode ValueTypeVariable (VString "{{ variables.model }}") "model");
                 call "has_pii" [mkValueNode ValueTypeNumber (VFloat64 (of_int 3)) ""]].


(** ** Built policies *)

Definition action_built (a : Action) : Prop :=
  Parameters a !! "type" = None /\ map_Forall (fun _ => value_built) (Parameters a).

Record rule_built (r : Rule) : Prop := {
  rb_conditions : match Conditions r with Some c => canonical c | None => True end;
  rb_actions : Forall action_built (Actions r);
}.

Definition variable_built (name : string) (v : VariableDef) : Prop :=
  v_Name v = name /\ exists n, v_Value v = Some n /\ value_built n /\ v_Type v = vn_Type n.

Record policy_built (p : Policy) : Prop := {
  pb_rules : Forall rule_built (Rules p);
  pb_variables : map_Forall variable_built (Variables p);
}.

Lemma collect_Ok {A B} label (f : A -> Built B) (P : B -> Prop) i l bs errs :
  (forall a b, f a = bret b -> P b) -> collect label f i l = Some (bs, errs) -> Forall P bs.
Proof.
  intros Hf. revert i bs errs. induction l as [|a l IH]; intros i bs errs; simpl; [by intros [= <- _]|].
  destruct (f a) as [r|] eqn:Ha; [|done]. simpl.
  destruct (collect label f (i + 1) l) as [[bs' errs']|] eqn:Hl; [|done]. simpl. specialize (IH _ _ _ Hl).
  destruct r as [b|e]; intros [= <- _]; [|done]. constructor; [by eapply Hf|done].
Qed.

Section built.
Context `{MapRange} `{Fmt}.

Lemma buildParameters_built l acc ps :
  acc !! "type" = None -> map_Forall (fun _ => value_built) acc -> buildParameters l acc = bret ps ->
  ps !! "type" = None /\ map_Forall (fun _ => value_built) ps.
Proof.
  revert acc. induction l as [|[k v] l IH]; intros acc Ht Ha; simpl; [by intros [= <-]|].
  destruct (String.eqb_spec k "type") as [->|Hk]; [by apply IH|].
  intros (n & [= Hn] & Hp)%bbind_Ok. apply IH in Hp; [done| |].
  - by rewrite lookup_insert_ne.
  - apply map_Forall_insert_2; [by eapply buildValue_built|done].
Qed.

Lemma buildAction_built m a : buildAction m = bret a -> action_built a.
Proof.
  unfold buildAction. destruct (m !! "type") as [[]|]; try done.
  intros (ps & Hp & [= <-])%bbind_Ok. apply buildParameters_built in Hp; [done|done|apply map_Forall_empty].
Qed.

Lemma buildActions_built i l acts : buildActions i l = bret acts -> Forall action_built acts.
Proof.
  revert i acts. induction l as [|m l IH]; intros i acts; simpl; [by intros [= <-]|].
  intros (a & Ha & (rest & Hr & [= <-])%bbind_Ok)%bbind_Ok. constructor; [by eapply buildAction_built|by eapply IH].
Qed.

Lemma buildRule_built yr r : buildRule yr = bret r -> rule_built r.
Proof.
  intros (conds & Hc & (acts & Ha & [= <-])%bbind_Ok)%bbind_Ok. split; [|by eapply buildActions_built]. simpl.
  destruct conds as [c|]; [|done].
  assert (Hb : bbind "invalid conditions: " (buildCondition (yr_Conditions yr)) (fun c => bret (Some c)) = bret (Some c)).
  { by destruct (yr_Conditions yr). }
  apply bbind_Ok in Hb as (c' & Hc' & [= ->]). by eapply buildConditions_canonical.
Qed.

Lemma buildPolicy_built parseTime path yp p ts : buildPolicy parseTime path yp = Some (Ok (p, ts)) -> policy_built p.
Proof.
  unfold buildPolicy. destruct (collect _ _ 0 (range _)) as [[vs e1]|] eqn:E1; [|done].
  destruct (collect _ _ 0 (yp_Rules yp)) as [[rs e2]|] eqn:E2; [|done].
  destruct (collect _ _ 0 (yp_Tests yp)) as [[tl e3]|]; [|done].
  simpl. destruct (HasErrors _); [done|]. intros [= <- <-]. split; simpl.
  - eapply collect_Ok, E2. apply buildRule_built.
  - eapply (collect_Ok _ _ (fun nv => variable_built nv.1 nv.2)) in E1.
    + intros n v Hv. apply elem_of_list_to_map_2 in Hv. rewrite Forall_forall in E1. by apply (E1 (n, v)).
    + intros [n v] b (d & Hd & [= <-])%bbind_Ok. unfold buildVariable in Hd.
      apply bbind_Ok in Hd as (x & [= Hx] & [= <-]). simpl. split; [done|].
      exists x. split; [done|]. split; [by eapply buildValue_built|done].
Qed.

Lemma merge_variables_union from to : merge_variables from to = from ∪ to.
Proof.
  apply map_eq. intros k. unfold merge_variables. rewrite (range_insert_lookup (fun v => v)).
  destruct (from !! k) eqn:E; [by rewrite (lookup_union_Some_l _ _ _ _ E)|by rewrite lookup_union_r].
Qed.

Lemma merge_built p q : policy_built p -> policy_built q -> policy_built (merge p q).
Proof.
  intros [] []. split; simpl; [by apply Forall_app|]. rewrite merge_variables_union.
  by apply map_Forall_union_2.
Qed.

Lemma Parse_built parseTime files p path pol : Parse parseTime files p path = Some (Ok pol) -> policy_built pol.
Proof.
  unfold Parse, build_document. destruct (file_size files path); [|done]. destruct (_ <? _); [done|].
  destruct (parseYAMLFile files path); [|done].
  destruct (buildPolicy _ _ _) as [[[q ts]|]|] eqn:E; simpl; try done. intros [= <-]. by eapply buildPolicy_built.
Qed.

(** ** Composition *)

Lemma parse_rest_spec parseTime files p label paths base :
  policy_built base ->
  exists r, parse_rest parseTime files p label paths base = Some r /\
    match r with
    | Err _ => exists path e, path ∈ paths /\ Parse parseTime files p path = Some (Err e)
    | Ok pol => policy_built pol /\ exists pols,
        Forall2 (fun path q => Parse parseTime files p path = Some (Ok q)) paths pols /\ pol = foldl merge base pols
    end.
Proof.
  revert base. induction paths as [|path paths IH]; intros base Hb; simpl.
  { eexists. split; [done|]. split; [done|]. exists []. by split. }
  destruct (Parse_total parseTime files p path) as [[q|e] Hq]; rewrite Hq; simpl.
  - destruct (IH (merge base q)) as (r & -> & Hr); [apply merge_built; [done|by eapply Parse_built]|].
    exists r. split; [done|]. destruct r as [pol|e].
    + destruct Hr as (Hpb & pols & Hf & ->). split; [done|]. exists (q :: pols). split; [by constructor|done].
    + destruct Hr as (x & e' & Hx & He). exists x, e'. split; [by right|done].
  - eexists. split; [done|]. exists path, e. split; [by left|done].
Qed.

(** The composer of one call: nothing is on the stack between two loads. *)
Lemma load_tracking parseTime files p path c :
  cp_stack c = [] ->
  exists r c', loadPolicyWithTracking parseTime files p path c = Some (r, c') /\
    match r with
    | Ok o => cp_stack c' = [] /\ (o = None -> c' = c) /\
        forall q, o = Some q -> exists absPath, Abs (getwd files) path = Ok absPath /\ absPath ∉ cp_visited c /\
          Parse parseTime files p absPath = Some (Ok q) /\ cp_visited c' = {[absPath]} ∪ cp_visited c
    | Err e => (exists text, Abs (getwd files) path = Err text /\ e = POther text) \/
        exists absPath, Abs (getwd files) path = Ok absPath /\ Parse parseTime files p absPath = Some (Err e)
    end.
Proof.
  intros Hs. unfold loadPolicyWithTracking. destruct (Abs (getwd files) path) as [absPath|text].
  2: { eexists _, _. split; [done|]. left. eauto. }
  unfold isInStack. rewrite Hs. simpl. case_decide.
  { eexists _, _. split; [done|]. simpl. split; [done|]. split; [done|]. intros q [=]. }
  destruct (Parse_total parseTime files p absPath) as [[q|e] Hq]; rewrite Hq; simpl.
  - eexists _, _. split; [done|]. simpl. split; [done|]. split; [done|]. intros q' [= <-].
    exists absPath. done.
  - eexists _, _. split; [done|]. right. exists absPath. done.
Qed.

(** No file is ever reported as a circular import: the includes of an included
    file are not followed, so no load starts while another one is on the stack. *)
Inductive semantic : ParseErr -> Prop :=
| sem_here e : me_Type e = ErrorTypeSemantic -> semantic (PErr e)
| sem_wrap s e : semantic e -> semantic (PWrap s e).

Lemma Parse_not_semantic parseTime files p path e : Parse parseTime files p path = Some (Err e) -> ~ semantic e.
Proof.
  unfold Parse, build_document, io_error. intros Hp Hs.
  destruct (file_size files path); [|injection Hp as <-; by inversion Hs].
  destruct (_ <? _); [injection Hp as <-; by inversion Hs|].
  destruct (parseYAMLFile files path); [|injection Hp as <-; by inversion Hs].
  destruct (buildPolicy _ _ _) as [[[]|]|]; simpl in Hp; try done. injection Hp as <-. by inversion Hs.
Qed.

Lemma load_not_semantic parseTime files p path c e c' :
  cp_stack c = [] -> loadPolicyWithTracking parseTime files p path c = Some (Err e, c') -> ~ semantic e.
Proof.
  intros Hs Hl. destruct (load_tracking parseTime files p path c Hs) as (r & c'' & Hl' & Hr).
  rewrite Hl in Hl'. injection Hl' as <- <-. destruct Hr as [(text & _ & ->)|(a & _ & Ha)]; [by inversion 1|].
  by eapply Parse_not_semantic.
Qed.

Lemma compose_includes_spec parseTime files p mainPath includes policy c :
  cp_stack c = [] ->
  exists r c', compose_includes parseTime files p mainPath includes policy c = Some (r, c') /\
    match r with
    | Err e => ~ semantic e
    | Ok pol => exists pols, pol = foldl merge policy pols /\ (length pols <= length includes)%nat /\
        forall q, q ∈ pols -> exists path, Parse parseTime files p path = Some (Ok q)
    end.
Proof.
  revert policy c. induction includes as [|inc includes IH]; intros policy c Hs; simpl.
  { eexists _, _. split; [done|]. exists []. split; [done|]. split; [done|]. intros q Hq. by apply not_elem_of_nil in Hq. }
  set (path := if negb (IsAbs inc) then _ else _).
  destruct (load_tracking parseTime files p path c Hs) as (r & c' & Hl & Hr). rewrite Hl. simpl.
  destruct r as [o|e].
  - destruct Hr as (Hs' & _ & Hq). destruct (IH (mergePolicy policy o) c' Hs') as (r & c'' & -> & Hr).
    exists r, c''. split; [done|]. destruct r as [pol|e]; [|done]. destruct Hr as (pols & -> & Hle & Hall).
    destruct o as [q|]; simpl.
    + exists (q :: pols). split; [done|]. split; [simpl; lia|]. intros q' [->|Hin]%elem_of_cons; [|by apply Hall].
      destruct (Hq q eq_refl) as (a & _ & _ & Hp & _). eauto.
    + exists pols. split; [done|]. split; [lia|done].
  - eexists _, _. split; [done|]. pose proof (load_not_semantic parseTime files p path c e c' Hs Hl) as Hn.
    intros Hsem. inversion Hsem; subst. by apply Hn.
Qed.

End built.

(** Composition always returns, never reports a circular import, and merges at
    most the main file and the listed includes: a file that an include itself
    includes contributes nothing. *)
Theorem composition_is_flat `{MapRange} `{Fmt} parseTime files p mainPath includes :
  exists r c, ComposeFromIncludes parseTime files p mainPath includes = Some (r, c) /\
    match r with
    | Err e => ~ semantic e
    | Ok pol => exists main pols, (length pols <= length includes)%nat /\ pol = foldl merge main pols /\
        (exists path, Parse parseTime files p path = Some (Ok main)) /\
        forall q, q ∈ pols -> exists path, Parse parseTime files p path = Some (Ok q)
    end.
Proof.
  unfold ComposeFromIncludes.
  destruct (load_tracking parseTime files p mainPath NewComposer eq_refl) as (r & c & Hl & Hr). rewrite Hl. simpl.
  destruct r as [[main|]|e].
  - destruct Hr as (Hs & _ & Hq). destruct (Hq main eq_refl) as (a & _ & _ & Hp & _).
    destruct (compose_includes_spec parseTime files p mainPath includes main c Hs) as (r & c' & -> & Hr).
    eexists _, _. split; [done|]. destruct r as [pol|e]; [|done]. destruct Hr as (pols & -> & Hle & Hall).
    exists main, pols. eauto.
  - exfalso. unfold loadPolicyWithTracking in Hl. destruct (Abs _ mainPath) as [a|]; [|done]. simpl in Hl.
    case_decide as Hd; [set_solver|]. destruct (Parse _ _ _ a) as [[]|]; done.
  - eexists _, _. split; [done|]. exact (load_not_semantic parseTime files p mainPath NewComposer e c eq_refl Hl).
Qed.
