(* ===== verification/MplDataModel.v ===== *)
(** * The data model of conditions ([pkg/mpl/validator/datamodel.go])

    The fields a condition may name, as a tree.  [LookupField] walks the tree,
    [GetAllFieldPaths] lists it in the order of the map iterations, for
    suggestions. *)

From Stdlib Require Import ZArith Lia.
From stdpp Require Import base option list strings gmap.
From S2P Require Import Prelude GoValue Ast.

(** A leaf has no children ([nil]). *)
Inductive FieldInfo := mkFieldInfo {
  fi_Name : string;
  fi_Type : string;
  fi_Description : string;
  fi_Children : list (string * FieldInfo);
}.

Definition requestFields : FieldInfo :=
  mkFieldInfo "request" ValueTypeObject "LLM request fields" [
    ("model", mkFieldInfo "request.model" ValueTypeString "Model name (e.g., 'gpt-4', 'claude-3-sonnet')" []);
    ("temperature", mkFieldInfo "request.temperature" ValueTypeNumber "Sampling temperature (0.0-2.0)" []);
    ("max_tokens", mkFieldInfo "request.max_tokens" ValueTypeNumber "Maximum tokens to generate" []);
    ("stream", mkFieldInfo "request.stream" ValueTypeBoolean "Whether streaming is enabled" []);
    ("user", mkFieldInfo "request.user" ValueTypeString "User identifier" []);
    ("messages", mkFieldInfo "request.messages" ValueTypeArray "Array of message objects" []);
    ("tools", mkFieldInfo "request.tools" ValueTypeArray "Array of tool definitions" []);
    ("top_p", mkFieldInfo "request.top_p" ValueTypeNumber "Nucleus sampling parameter" []);
    ("n", mkFieldInfo "request.n" ValueTypeNumber "Number of completions to generate" [])].

Definition responseFields : FieldInfo :=
  mkFieldInfo "response" ValueTypeObject "LLM response fields" [
    ("content", mkFieldInfo "response.content" ValueTypeString "Generated response content" []);
    ("finish_reason", mkFieldInfo "response.finish_reason" ValueTypeString "Reason for completion (stop, length, tool_calls)" []);
    ("usage", mkFieldInfo "response.usage" ValueTypeObject "Token usage information" [
      ("prompt_tokens", mkFieldInfo "response.usage.prompt_tokens" ValueTypeNumber "Tokens in prompt" []);
      ("completion_tokens", mkFieldInfo "response.usage.completion_tokens" ValueTypeNumber "Tokens in completion" []);
      ("total_tokens", mkFieldInfo "response.usage.total_tokens" ValueTypeNumber "Total tokens used" [])])].

Definition processingFields : FieldInfo :=
  mkFieldInfo "processing" ValueTypeObject "Processing metadata and analysis" [
    ("risk_score", mkFieldInfo "processing.risk_score" ValueTypeNumber "Overall risk score (0-10)" []);
    ("complexity_score", mkFieldInfo "processing.complexity_score" ValueTypeNumber "Request complexity score (0-10)" []);
    ("token_estimate", mkFieldInfo "processing.token_estimate" ValueTypeObject "Estimated token usage" [
      ("prompt_tokens", mkFieldInfo "processing.token_estimate.prompt_tokens" ValueTypeNumber "Estimated prompt tokens" []);
      ("completion_tokens", mkFieldInfo "processing.token_estimate.completion_tokens" ValueTypeNumber "Estimated completion tokens" []);
      ("total_tokens", mkFieldInfo "processing.token_estimate.total_tokens" ValueTypeNumber "Estimated total tokens" [])]);
    ("cost_estimate", mkFieldInfo "processing.cost_estimate" ValueTypeObject "Estimated cost" [
      ("prompt_cost", mkFieldInfo "processing.cost_estimate.prompt_cost" ValueTypeNumber "Estimated prompt cost (USD)" []);
      ("completion_cost", mkFieldInfo "processing.cost_estimate.completion_cost" ValueTypeNumber "Estimated completion cost (USD)" []);
      ("total_cost", mkFieldInfo "processing.cost_estimate.total_cost" ValueTypeNumber "Estimated total cost (USD)" [])]);
    ("content_analysis", mkFieldInfo "processing.content_analysis" ValueTypeObject "Content analysis results" [
      ("pii_detection", mkFieldInfo "processing.content_analysis.pii_detection" ValueTypeObject "PII detection results" [
        ("detected", mkFieldInfo "processing.content_analysis.pii_detection.detected" ValueTypeBoolean "Whether PII was detected" []);
        ("types", mkFieldInfo "processing.content_analysis.pii_detection.types" ValueTypeArray "Types of PII detected" [])]);
      ("sentiment", mkFieldInfo "processing.content_analysis.sentiment" ValueTypeObject "Sentiment analysis" [
        ("score", mkFieldInfo "processing.content_analysis.sentiment.score" ValueTypeNumber "Sentiment score (-1 to 1)" []);
        ("label", mkFieldInfo "processing.content_analysis.sentiment.label" ValueTypeString "Sentiment label (positive, negative, neutral)" [])]);
      ("sensitive_content", mkFieldInfo "processing.content_analysis.sensitive_content" ValueTypeObject "Sensitive content detection" [
        ("detected", mkFieldInfo "processing.content_analysis.sensitive_content.detected" ValueTypeBoolean "Whether sensitive content was detected" []);
        ("severity", mkFieldInfo "processing.content_analysis.sensitive_content.severity" ValueTypeString "Severity level (low, medium, high, critical)" []);
        ("categories", mkFieldInfo "processing.content_analysis.sensitive_content.categories" ValueTypeArray "Categories of sensitive content detected" [])]);
      ("prompt_injection", mkFieldInfo "processing.content_analysis.prompt_injection" ValueTypeObject "Prompt injection detection" [
        ("detected", mkFieldInfo "processing.content_analysis.prompt_injection.detected" ValueTypeBoolean "Whether prompt injection was detected" []);
        ("confidence", mkFieldInfo "processing.content_analysis.prompt_injection.confidence" ValueTypeNumber "Confidence score (0.0-1.0)" []);
        ("patterns", mkFieldInfo "processing.content_analysis.prompt_injection.patterns" ValueTypeArray "Injection patterns detected" [])])]);
    ("conversation_context", mkFieldInfo "processing.conversation_context" ValueTypeObject "Conversation context" [
      ("turn_count", mkFieldInfo "processing.conversation_context.turn_count" ValueTypeNumber "Number of conversation turns" []);
      ("total_tokens", mkFieldInfo "processing.conversation_context.total_tokens" ValueTypeNumber "Total tokens in conversation" []);
      ("context_window_percent", mkFieldInfo "processing.conversation_context.context_window_percent" ValueTypeNumber "Percentage of context window used (0-100)" [])])].

Definition contextFields : FieldInfo :=
  mkFieldInfo "context" ValueTypeObject "Request context and environment" [
    ("environment", mkFieldInfo "context.environment" ValueTypeString "Environment name (dev, staging, prod)" []);
    ("time", mkFieldInfo "context.time" ValueTypeObject "Request timestamp information" [
      ("hour", mkFieldInfo "context.time.hour" ValueTypeNumber "Hour of day (0-23)" []);
      ("day_of_week", mkFieldInfo "context.time.day_of_week" ValueTypeNumber "Day of week (0-6, Sunday=0)" []);
      ("timestamp", mkFieldInfo "context.time.timestamp" ValueTypeNumber "Unix timestamp" [])]);
    ("user_attributes", mkFieldInfo "context.user_attributes" ValueTypeObject "User attributes" [
      ("tier", mkFieldInfo "context.user_attributes.tier" ValueTypeString "User tier (free, premium, enterprise)" []);
      ("department", mkFieldInfo "context.user_attributes.department" ValueTypeString "User department" []);
      ("region", mkFieldInfo "context.user_attributes.region" ValueTypeString "User region (e.g., 'us', 'eu', 'asia')" []);
      ("requests_this_hour", mkFieldInfo "context.user_attributes.requests_this_hour" ValueTypeNumber "Requests made this hour" []);
      ("daily_cost", mkFieldInfo "context.user_attributes.daily_cost" ValueTypeNumber "Cost incurred today (USD)" []);
      ("monthly_cost", mkFieldInfo "context.user_attributes.monthly_cost" ValueTypeNumber "Cost incurred this month (USD)" []);
      ("daily_token_usage", mkFieldInfo "context.user_attributes.daily_token_usage" ValueTypeNumber "Tokens used today" [])])].

Definition DataModel : FieldInfo :=
  mkFieldInfo "root" ValueTypeObject "" [
    ("request", requestFields); ("response", responseFields); ("processing", processingFields);
    ("context", contextFields)].

Fixpoint lookup_parts (parts : list string) (current : FieldInfo) : option FieldInfo :=
  match parts with
  | [] => Some current
  | part :: parts =>
      match assoc part (fi_Children current) with
      | Some next => lookup_parts parts next
      | None => None
      end
  end.

Definition LookupField (path : string) : option FieldInfo := lookup_parts (split_dot path) DataModel.

(** The recursion over the children, of a tree of height below [fuel]. *)
Fixpoint collectPaths `{MapRange} (fuel : nat) (field : FieldInfo) : list string :=
  match fuel with
  | O => []
  | S fuel =>
      (if negb (String.eqb (fi_Name field) "root") && negb (String.eqb (fi_Name field) "") then [fi_Name field] else []) ++
      concat (map (fun c => collectPaths fuel c.2) (range (list_to_map (fi_Children field) : gmap string FieldInfo)))
  end.

Fixpoint height (field : FieldInfo) : nat :=
  S (foldr (fun c n => Nat.max (height c.2) n) 0%nat (fi_Children field)).

Definition GetAllFieldPaths `{MapRange} : list string := collectPaths (height DataModel) DataModel.

(** ** What the model contains *)

Lemma assoc_list_to_map {A} k (l : list (string * A)) : (list_to_map l : gmap string A) !! k = assoc k l.
Proof.
  induction l as [|[k' v] l IH]; simpl; [apply lookup_empty|].
  destruct (String.eqb_spec k k') as [->|Hne]; [apply lookup_insert_eq|by rewrite lookup_insert_ne].
Qed.

Lemma height_child k c field : assoc k (fi_Children field) = Some c -> (height c < height field)%nat.
Proof.
  destruct field as [n t d l]. simpl. induction l as [|[k' x] l IH]; simpl; [done|].
  destruct (String.eqb k k'); [intros [= ->]; lia|]. intros Hc. specialize (IH Hc). lia.
Qed.

Lemma collectPaths_child `{MapRange} k c field fuel x :
  assoc k (fi_Children field) = Some c -> x ∈ collectPaths fuel c -> x ∈ collectPaths (S fuel) field.
Proof.
  intros Hc Hx. cbn [collectPaths]. apply elem_of_app. right.
  apply list_elem_of_In, in_concat. exists (collectPaths fuel c). split; [|by apply list_elem_of_In].
  apply in_map_iff. exists (k, c). split; [done|]. apply list_elem_of_In, elem_of_range.
  by rewrite assoc_list_to_map.
Qed.

Lemma collectPaths_lookup `{MapRange} parts field f fuel :
  lookup_parts parts field = Some f -> (height field <= fuel)%nat ->
  fi_Name f <> "" -> fi_Name f <> "root" -> fi_Name f ∈ collectPaths fuel field.
Proof.
  revert field fuel. induction parts as [|p parts IH]; intros field fuel; cbn [lookup_parts].
  - intros [= ->] Hh Hn Hr. destruct fuel as [|fuel]; [destruct f; simpl in Hh; lia|]. cbn [collectPaths].
    rewrite (proj2 (String.eqb_neq _ _) Hn), (proj2 (String.eqb_neq _ _) Hr). by left.
  - destruct (assoc p (fi_Children field)) as [c|] eqn:Hc; [|done]. intros Hl Hh Hn Hr.
    pose proof (height_child p c field Hc). destruct fuel as [|fuel]; [lia|].
    eapply collectPaths_child; [done|]. apply IH; [done|lia|done|done].
Qed.

(** The paths of the model: the keys from the root to every node. *)
Fixpoint tree_paths (field : FieldInfo) : list (list string * FieldInfo) :=
  ([], field) :: concat (map (fun c => map (fun pf => (c.1 :: pf.1, pf.2)) (tree_paths c.2)) (fi_Children field)).

Lemma lookup_tree_paths parts field f : lookup_parts parts field = Some f -> (parts, f) ∈ tree_paths field.
Proof.
  revert field. induction parts as [|p parts IH]; intros [n t d l]; cbn [lookup_parts fi_Children].
  - intros [= <-]. by left.
  - destruct (assoc p l) as [c|] eqn:Hc; [|done]. intros Hl. right. simpl.
    apply list_elem_of_In, in_concat. exists (map (fun pf => (p :: pf.1, pf.2)) (tree_paths c)). split.
    + apply in_map_iff. exists (p, c). split; [done|]. clear -Hc. revert Hc.
      induction l as [|[k x] l IHl]; simpl; [done|]. destruct (String.eqb_spec p k) as [->|]; [intros [= ->]; by left|].
      intros. right. auto.
    + apply in_map_iff. exists (parts, f). split; [done|]. apply list_elem_of_In. auto.
Qed.

(** The name of a field is its path. *)
Definition joined (parts : list string) : string := String.concat "." parts.

Lemma model_names :
  forallb (fun pf => match pf.1 with [] => true | _ => String.eqb (fi_Name pf.2) (joined pf.1) end) (tree_paths DataModel) = true.
Proof. vm_compute. reflexivity. Qed.

(** Every field that a condition may name is among the suggestions, whatever the
    order of the map iterations. *)
Theorem suggestions_complete `{MapRange} path f :
  LookupField path = Some f -> fi_Name f ∈ GetAllFieldPaths /\ fi_Name f = joined (split_dot path).
Proof.
  unfold LookupField, GetAllFieldPaths. intros Hl.
  assert (Hn : fi_Name f = joined (split_dot path) /\ fi_Name f <> "" /\ fi_Name f <> "root").
  { apply lookup_tree_paths in Hl. pose proof model_names as Hm. rewrite forallb_forall in Hm.
    specialize (Hm _ (proj1 (list_elem_of_In _ _) Hl)). simpl in Hm.
    assert (Hne : split_dot path <> []). { clear. destruct path as [|a s]; simpl; [done|]. by repeat case_match. }
    destruct (split_dot path) as [|p ps] eqn:E; [done|]. apply String.eqb_eq in Hm. split; [done|].
    rewrite E in Hl || idtac. clear -Hl.
    assert (Hall : forallb (fun pf => match pf.1 with [] => true | _ =>
      negb (String.eqb (fi_Name pf.2) "") && negb (String.eqb (fi_Name pf.2) "root") end) (tree_paths DataModel) = true)
      by (vm_compute; reflexivity).
    rewrite forallb_forall in Hall. specialize (Hall _ (proj1 (list_elem_of_In _ _) Hl)). simpl in Hall.
    apply andb_true_iff in Hall as [H1%negb_true_iff%String.eqb_neq H2%negb_true_iff%String.eqb_neq]. done. }
  destruct Hn as (Hn & Hne & Hr). split; [|done]. by eapply collectPaths_lookup.
Qed.

Lemma suggestions_complete_witness :
  exists f, LookupField "request.max_tokens" = Some f /\ fi_Name f ∈ GetAllFieldPaths (H := some_range).
Proof.
  eexists. split; [reflexivity|].
  apply (suggestions_complete (H := some_range) "request.max_tokens"). reflexivity.
Defined.
