(* ===== verification/MplValidator.v ===== *)
(** * Policy validator ([pkg/mpl/validator])

    The three passes over a policy: [structural.go], [semantic.go] and
    [actions.go], and [validator.go] that runs them.  A pass appends errors to a
    list; [Errs] is the list of one part of a pass, [None] a panic (a nil pointer
    or a failed type assertion in a hand-made tree; [validate_never_panics] shows
    that parsed policies cause none).  The search for circular variables keeps
    two maps and has fuel for the number of variables. *)

From Stdlib Require Import ZArith Lia Ascii.
From stdpp Require Import base option list strings gmap pretty fin_map_dom.
From S2P Require Import Prelude Float64 GoValue Ast ProviderTypes MplErrors MplBuilder MplDataModel.
Local Open Scope Z_scope.

(** ** Errors of a pass *)

Definition Errs : Type := option ErrorList.

Definition no_errs : Errs := Some [].

Definition eapp (a b : Errs) : Errs := x ← a; y ← b; Some (x ++ y)%list.
Notation "a +e b" := (eapp a b) (at level 60, right associativity) : go_scope.
Local Open Scope go_scope.

Definition err_sug (ty : string) (cond : bool) (message suggestion : string) : Errs :=
  Some (if cond then [mkMplError ty message suggestion] else []).
Definition err (ty : string) (cond : bool) (message : string) : Errs := err_sug ty cond message "".

Definition esum {A} (f : A -> Errs) (l : list A) : Errs := foldr (fun a acc => f a +e acc) no_errs l.

(** Text in double quotes. *)
Definition dq : string := String (ascii_of_nat 34) EmptyString.
Definition dquoted (s : string) : string := dq +:+ s +:+ dq.

(** ** The two fixed patterns *)

Definition in_class (lo hi : ascii) (c : ascii) : bool :=
  (N_of_ascii lo <=? N_of_ascii c)%N && (N_of_ascii c <=? N_of_ascii hi)%N.
Definition is_lower : ascii -> bool := in_class "a" "z".
Definition is_upper : ascii -> bool := in_class "A" "Z".
Definition is_digit : ascii -> bool := in_class "0" "9".
Definition is_suffix_char (c : ascii) : bool :=
  is_lower c || is_upper c || is_digit c || Ascii.eqb c "." || Ascii.eqb c "-".

(** [^[a-z][a-z0-9-]*$] *)
Definition kebabCase (s : string) : bool :=
  match String.list_ascii_of_string s with
  | c :: l => is_lower c && forallb (fun c => is_lower c || is_digit c || Ascii.eqb c "-") l
  | [] => false
  end.

Fixpoint span (p : ascii -> bool) (l : list ascii) : list ascii * list ascii :=
  match l with
  | c :: l' => if p c then let '(a, b) := span p l' in (c :: a, b) else ([], l)
  | [] => ([], [])
  end.

(** The rest after a number followed by a dot. *)
Definition number_dot (l : list ascii) : option (list ascii) :=
  match span is_digit l with
  | (_ :: _, "."%char :: rest) => Some rest
  | _ => None
  end.

(** An optional part that starts with [c]: the rest after it. *)
Definition optional_part (c : ascii) (l : list ascii) : option (list ascii) :=
  match l with
  | d :: l' =>
      if Ascii.eqb c d then
        match span is_suffix_char l' with
        | (_ :: _, rest) => Some rest
        | _ => None
        end
      else Some l
  | [] => Some []
  end.

(** [^[0-9]+\.[0-9]+\.[0-9]+(-[a-zA-Z0-9.-]+)?(\+[a-zA-Z0-9.-]+)?$] *)
Definition semver (s : string) : bool :=
  match (l ← number_dot (String.list_ascii_of_string s);
         l ← number_dot l;
         match span is_digit l with
         | (_ :: _, l) => l ← optional_part "-" l; optional_part "+" l
         | _ => None
         end) with
  | Some [] => true
  | _ => false
  end.

Definition isValidIdentifier (s : string) : bool :=
  match String.list_ascii_of_string s with
  | [] => false
  | c :: l =>
      (is_lower c || is_upper c || Ascii.eqb c "_") &&
      forallb (fun c => is_lower c || is_upper c || is_digit c || Ascii.eqb c "_") l
  end.

Section validator.
Context `{MapRange} `{Fmt}.

(** ** Structural validation *)

Definition st_err := err ErrorTypeStructural.
Definition st_sug := err_sug ErrorTypeStructural.

Definition validateMetadata (policy : Policy) : Errs :=
  (if String.eqb (MPLVersion policy) "" then
     st_sug true "Missing required field 'mpl_version'" (SuggestMissingField "mpl_version" (dquoted "1.0"))
   else st_sug (negb (String.eqb (MPLVersion policy) "1.0"))
     ("Unsupported MPL version " +:+ Quote (MPLVersion policy)) "Supported versions: 1.0") +e
  (if String.eqb (p_Name policy) "" then
     st_sug true "Missing required field 'name'" (SuggestMissingField "name" (dquoted "my-policy"))
   else st_sug (negb (kebabCase (p_Name policy)))
     ("Policy name " +:+ Quote (p_Name policy) +:+ " must be kebab-case (lowercase with hyphens)")
     "Example: 'my-policy-name'") +e
  (if String.eqb (Version policy) "" then
     st_sug true "Missing required field 'version'" (SuggestMissingField "version" (dquoted "1.0.0"))
   else st_sug (negb (semver (Version policy)))
     ("Policy version " +:+ Quote (Version policy) +:+ " must follow semantic versioning")
     "Example: '1.0.0' or '2.1.3-beta.1'") +e
  st_sug (Z.of_nat (length (Rules policy)) =? 0) "Policy must have at least one rule"
    "Add a 'rules' section with at least one rule".

Definition validateVariable (name : string) (variable : VariableDef) : Errs :=
  match v_Value variable with
  | None => None
  | Some v =>
      st_err (negb (isValidIdentifier name))
        ("Invalid variable name " +:+ Quote name +:+ " (must be alphanumeric with underscores)") +e
      st_err (String.eqb (vn_Type v) ValueTypeNull) ("Variable " +:+ Quote name +:+ " cannot have null value")
  end.

Definition validateVariables (policy : Policy) : Errs :=
  esum (fun nv => validateVariable nv.1 nv.2) (range (Variables policy)).

Definition max_nesting : Z := 10.

Fixpoint validateConditionStructure (ruleName : string) (depth : Z) (cond : ConditionNode) {struct cond} : Errs :=
  let rule := "Rule " +:+ Quote ruleName in
  let children := foldr (fun (o : option ConditionNode) acc =>
    match o with
    | None => None
    | Some child => validateConditionStructure ruleName (depth + 1) child +e acc
    end) no_errs (Children cond) in
  if max_nesting <? depth then
    st_err true (rule +:+ " exceeds maximum condition nesting depth of " +:+ pretty max_nesting)
  else if String.eqb (cn_Type cond) ConditionTypeSimple then
    st_err (String.eqb (Field cond) "") (rule +:+ " has condition with missing 'field'") +e
    st_err (String.eqb (Operator cond) "") (rule +:+ " has condition with missing 'operator'") +e
    st_err (match cn_Value cond with None => true | Some _ => false end) (rule +:+ " has condition with missing 'value'")
  else if String.eqb (cn_Type cond) ConditionTypeAll || String.eqb (cn_Type cond) ConditionTypeAny then
    st_err (Z.of_nat (length (Children cond)) =? 0)
      (rule +:+ " has " +:+ Quote (cn_Type cond) +:+ " condition with no children") +e
    children
  else if String.eqb (cn_Type cond) ConditionTypeNot then
    st_err (negb (Z.of_nat (length (Children cond)) =? 1))
      (rule +:+ " has 'not' condition with " +:+ pretty (Z.of_nat (length (Children cond))) +:+
       " children (must be exactly 1)") +e
    children
  else if String.eqb (cn_Type cond) ConditionTypeFunction then
    st_err (String.eqb (Function cond) "") (rule +:+ " has function condition with missing 'function'")
  else no_errs.

Definition validActionTypes : list string :=
  [ActionTypeAllow; ActionTypeDeny; ActionTypeLog; ActionTypeRedact; ActionTypeModify; ActionTypeRoute;
   ActionTypeAlert; ActionTypeRateLimit; ActionTypeBudget].

(** [map[string]bool{...}[s]] *)
Definition among (l : list string) (s : string) : bool := existsb (String.eqb s) l.

Definition validateActionStructure (action : Action) (ruleName : string) (index : Z) : Errs :=
  let rule := "Rule " +:+ Quote ruleName in
  st_err (String.eqb (a_Type action) "") (rule +:+ " action at index " +:+ pretty index +:+ " missing 'type'") +e
  if negb (among validActionTypes (a_Type action)) then
    match SuggestActionType (a_Type action) validActionTypes with
    | None => None
    | Some suggestion => st_sug true (rule +:+ " has unknown action type " +:+ Quote (a_Type action)) suggestion
    end
  else no_errs.

Fixpoint validateActionStructures (actions : list Action) (ruleName : string) (index : Z) : Errs :=
  match actions with
  | [] => no_errs
  | action :: actions =>
      validateActionStructure action ruleName index +e validateActionStructures actions ruleName (index + 1)
  end.

Definition validateRule (rule : Rule) (duplicate : bool) : Errs :=
  let label := "Rule " +:+ Quote (r_Name rule) in
  st_err duplicate ("Duplicate rule name " +:+ Quote (r_Name rule)) +e
  st_err (match Conditions rule with None => true | Some _ => false end) (label +:+ " has no conditions") +e
  st_sug (Z.of_nat (length (Actions rule)) =? 0) (label +:+ " has no actions")
    "Add at least one action (allow, deny, log, etc.)" +e
  (match Conditions rule with
   | Some cond => validateConditionStructure (r_Name rule) 0 cond
   | None => no_errs
   end) +e
  validateActionStructures (Actions rule) (r_Name rule) 0.

(** The loop over the rules; [seen] is the map [ruleNames]. *)
Fixpoint validateRules (rules : list Rule) (i : Z) (seen : gset string) : Errs :=
  match rules with
  | [] => no_errs
  | rule :: rules =>
      if String.eqb (r_Name rule) "" then
        st_sug true ("Rule at index " +:+ pretty i +:+ " missing required field 'name'")
          "Add a unique name for this rule" +e
        validateRules rules (i + 1) seen
      else
        validateRule rule (bool_decide (r_Name rule ∈ seen)) +e
        validateRules rules (i + 1) ({[r_Name rule]} ∪ seen)
  end.

Definition structural_Validate (policy : Policy) : Errs :=
  validateMetadata policy +e validateVariables policy +e validateRules (Rules policy) 0 ∅.

(** ** Semantic validation *)

Definition se_err := err ErrorTypeSemantic.
Definition se_sug := err_sug ErrorTypeSemantic.

Definition extractVariableReferences (value : option ValueNode) : list string :=
  match value with
  | None => []
  | Some v => if String.eqb (vn_Type v) ValueTypeVariable then [VariableName v] else []
  end.

(** The maps [visited] and [inProgress] (their true keys) and the errors. *)
Record CycleState := mkCycleState { cs_visited : gset string; cs_inProgress : gset string; cs_errors : ErrorList }.

Definition circular_error (path : list string) : MplError :=
  mkMplError ErrorTypeSemantic ("Circular variable reference: [" +:+ String.concat " " path +:+ "]")
    "Remove the circular dependency between variables".

(** The loop over the references of one variable; [check] is the recursive call. *)
Fixpoint checkReferences (check : string -> CycleState -> option CycleState) (path refs : list string) (s : CycleState)
    : option CycleState :=
  match refs with
  | [] => Some s
  | ref :: refs =>
      if decide (ref ∈ cs_inProgress s) then
        checkReferences check path refs
          (mkCycleState (cs_visited s) (cs_inProgress s) (cs_errors s ++ [circular_error (path ++ [ref])]))
      else if decide (ref ∈ cs_visited s) then checkReferences check path refs s
      else s ← check ref s; checkReferences check path refs s
  end.

(** [None] is a recursion deeper than [fuel]. *)
Fixpoint checkVariableCycle (fuel : nat) (variables : gmap string VariableDef) (path : list string) (varName : string)
    (s : CycleState) : option CycleState :=
  match fuel with
  | O => None
  | S fuel =>
      let s := mkCycleState ({[varName]} ∪ cs_visited s) ({[varName]} ∪ cs_inProgress s) (cs_errors s) in
      let path := (path ++ [varName])%list in
      match variables !! varName with
      | None => Some s
      | Some variable =>
          s ← checkReferences (checkVariableCycle fuel variables path) path (extractVariableReferences (v_Value variable)) s;
          Some (mkCycleState (cs_visited s) (cs_inProgress s ∖ {[varName]}) (cs_errors s))
      end
  end.

Fixpoint checkAllVariables (variables : gmap string VariableDef) (names : list string) (s : CycleState)
    : option CycleState :=
  match names with
  | [] => Some s
  | name :: names =>
      if decide (name ∈ cs_visited s) then checkAllVariables variables names s
      else s ← checkVariableCycle (S (size variables)) variables [] name s; checkAllVariables variables names s
  end.

Definition validateVariableReferences (policy : Policy) : Errs :=
  cs_errors <$> checkAllVariables (Variables policy) (range (Variables policy)).*1 (mkCycleState ∅ ∅ []).

Definition isValidOperatorForType (op fieldType : string) : bool :=
  if String.eqb fieldType ValueTypeString then
    among [OperatorEqual; OperatorNotEqual; OperatorContains; OperatorMatches; OperatorStartsWith; OperatorEndsWith;
           OperatorIn; OperatorNotIn] op
  else if String.eqb fieldType ValueTypeNumber then
    among [OperatorEqual; OperatorNotEqual; OperatorLessThan; OperatorGreaterThan; OperatorLessEqual;
           OperatorGreaterEqual; OperatorIn; OperatorNotIn] op
  else if String.eqb fieldType ValueTypeBoolean then among [OperatorEqual; OperatorNotEqual] op
  else if String.eqb fieldType ValueTypeArray then among [OperatorContains; OperatorIn; OperatorNotIn] op
  else if String.eqb fieldType ValueTypeObject then among [OperatorEqual; OperatorNotEqual] op
  else true.

Definition isCompatibleType (valueType fieldType op : string) : bool :=
  if String.eqb op OperatorIn || String.eqb op OperatorNotIn then String.eqb valueType ValueTypeArray
  else if String.eqb op OperatorContains && String.eqb fieldType ValueTypeArray then true
  else String.eqb valueType fieldType.

Definition validateSimpleCondition (policy : Policy) (cond : ConditionNode) (ruleName : string) : Errs :=
  let rule := "Rule " +:+ Quote ruleName in
  match LookupField (Field cond) with
  | None =>
      match SuggestFieldName (Field cond) GetAllFieldPaths with
      | None => None
      | Some suggestion => se_sug true (rule +:+ " references undefined field " +:+ Quote (Field cond)) suggestion
      end
  | Some fieldInfo =>
      se_sug (negb (isValidOperatorForType (Operator cond) (fi_Type fieldInfo)))
        (rule +:+ " uses invalid operator " +:+ Quote (Operator cond) +:+ " for field type " +:+ Quote (fi_Type fieldInfo))
        (SuggestOperator (fi_Type fieldInfo)) +e
      match cn_Value cond with
      | None => no_errs
      | Some v =>
          if String.eqb (vn_Type v) ValueTypeVariable then
            se_sug (negb (HasVariable policy (VariableName v)))
              (rule +:+ " references undefined variable " +:+ Quote (VariableName v))
              ("Define '" +:+ VariableName v +:+ "' in the variables section")
          else
            se_err (negb (isCompatibleType (vn_Type v) (fi_Type fieldInfo) (Operator cond)))
              (rule +:+ " compares field " +:+ Quote (Field cond) +:+ " (type " +:+ Quote (fi_Type fieldInfo) +:+
               ") with incompatible value type " +:+ Quote (vn_Type v))
      end
  end.

(** Name, least and greatest number of arguments. *)
Record FunctionSignature := mkFunctionSignature { fs_MinArgs : Z; fs_MaxArgs : Z }.

Definition supportedFunctions : gmap string FunctionSignature := list_to_map [
  ("has_pii", mkFunctionSignature 0 1); ("has_injection", mkFunctionSignature 0 1);
  ("has_sensitive", mkFunctionSignature 0 2); ("len", mkFunctionSignature 1 1); ("lower", mkFunctionSignature 1 1);
  ("upper", mkFunctionSignature 1 1); ("contains", mkFunctionSignature 2 2)].

Definition validateFunctionCondition (policy : Policy) (cond : ConditionNode) (ruleName : string) : Errs :=
  let rule := "Rule " +:+ Quote ruleName in
  match supportedFunctions !! Function cond with
  | None =>
      match SuggestFieldName (Function cond) (range supportedFunctions).*1 with
      | None => None
      | Some suggestion => se_sug true (rule +:+ " uses unknown function " +:+ Quote (Function cond)) suggestion
      end
  | Some sig =>
      let argCount := Z.of_nat (length (Args cond)) in
      se_err ((argCount <? fs_MinArgs sig) || (fs_MaxArgs sig <? argCount))
        (rule +:+ " calls function " +:+ Quote (Function cond) +:+ " with " +:+ pretty argCount +:+
         " arguments (expected " +:+ pretty (fs_MinArgs sig) +:+ "-" +:+ pretty (fs_MaxArgs sig) +:+ ")") +e
      esum (fun arg =>
        se_sug (String.eqb (vn_Type arg) ValueTypeVariable && negb (HasVariable policy (VariableName arg)))
          (rule +:+ " uses undefined variable " +:+ Quote (VariableName arg) +:+ " in function argument")
          ("Define '" +:+ VariableName arg +:+ "' in the variables section")) (Args cond)
  end.

Fixpoint validateCondition (policy : Policy) (ruleName : string) (cond : ConditionNode) {struct cond} : Errs :=
  if String.eqb (cn_Type cond) ConditionTypeSimple then validateSimpleCondition policy cond ruleName
  else if String.eqb (cn_Type cond) ConditionTypeAll || String.eqb (cn_Type cond) ConditionTypeAny ||
          String.eqb (cn_Type cond) ConditionTypeNot then
    foldr (fun (o : option ConditionNode) acc =>
      match o with None => None | Some child => validateCondition policy ruleName child +e acc end)
      no_errs (Children cond)
  else if String.eqb (cn_Type cond) ConditionTypeFunction then validateFunctionCondition policy cond ruleName
  else no_errs.

Definition semantic_Validate (policy : Policy) : Errs :=
  validateVariableReferences policy +e
  esum (fun rule => match Conditions rule with
                    | Some cond => validateCondition policy (r_Name rule) cond
                    | None => no_errs
                    end) (Rules policy).

(** ** Action validation *)

Definition va_err := err ErrorTypeValidation.
Definition va_sug := err_sug ErrorTypeValidation.

Definition detectConflictingActions (rule : Rule) : Errs :=
  let hasAllow := HasActionType rule ActionTypeAllow in
  let hasDeny := HasActionType rule ActionTypeDeny in
  va_err (hasAllow && hasDeny)
    ("Rule " +:+ Quote (r_Name rule) +:+ " has both 'allow' and 'deny' actions (conflicting)").

Definition action_label (ruleName ty : string) : string := "Rule " +:+ Quote ruleName +:+ " '" +:+ ty +:+ "' action".

(** A required parameter: an error with a hint, or the check [f] of its value. *)
Definition required (action : Action) (ruleName key hint : string) (f : ValueNode -> Errs) : Errs :=
  match GetParameter action key with
  | None =>
      va_sug true (action_label ruleName (a_Type action) +:+ " missing required parameter '" +:+ key +:+ "'") hint
  | Some v => f v
  end.

Definition optional (action : Action) (key : string) (f : ValueNode -> Errs) : Errs :=
  match GetParameter action key with None => no_errs | Some v => f v end.

(** [v.Type != ty && v.Type != ast.ValueTypeVariable] is reported as [message]. *)
Definition must_be (ty message : string) (v : ValueNode) : Errs :=
  va_err (negb (String.eqb (vn_Type v) ty) && negb (String.eqb (vn_Type v) ValueTypeVariable)) message.

(** [if v.Type == ast.ValueTypeString { s := v.Value.(string); ... }] *)
Definition if_string (v : ValueNode) (f : string -> Errs) : Errs :=
  if String.eqb (vn_Type v) ValueTypeString then
    match vn_Value v with VString s => f s | _ => None end
  else no_errs.

Definition one_of (label : string) (valid : list string) (hint : string) (v : ValueNode) : Errs :=
  if_string v (fun s => va_sug (negb (among valid s)) (label +:+ " " +:+ Quote s) hint).

Definition validateAllowAction (action : Action) (ruleName : string) : Errs :=
  esum (fun kv => va_err true ("Rule " +:+ Quote ruleName +:+ " 'allow' action has unexpected parameter " +:+ Quote kv.1))
    (range (Parameters action)).

Definition validateDenyAction (action : Action) (ruleName : string) : Errs :=
  required action ruleName "message" ("Add 'message: " +:+ dquoted "Reason for denial" +:+ "'")
    (must_be ValueTypeString ("Rule " +:+ Quote ruleName +:+ " 'deny' action 'message' must be a string")) +e
  optional action "code"
    (must_be ValueTypeString ("Rule " +:+ Quote ruleName +:+ " 'deny' action 'code' must be a string")).

Definition validateLogAction (action : Action) (ruleName : string) : Errs :=
  required action ruleName "message" ("Add 'message: " +:+ dquoted "Log message" +:+ "'") (fun _ => no_errs) +e
  optional action "level"
    (one_of ("Rule " +:+ Quote ruleName +:+ " 'log' action has invalid level") ["debug"; "info"; "warn"; "error"]
       "Valid levels: debug, info, warn, error").

Definition validateRedactAction (action : Action) (ruleName : string) : Errs :=
  required action ruleName "fields" ("Add 'fields: [" +:+ dquoted "field.path" +:+ "]'")
    (must_be ValueTypeArray ("Rule " +:+ Quote ruleName +:+ " 'redact' action 'fields' must be an array")) +e
  optional action "strategy"
    (one_of ("Rule " +:+ Quote ruleName +:+ " 'redact' action has invalid strategy") ["mask"; "remove"; "replace"]
       "Valid strategies: mask, remove, replace") +e
  optional action "strategy" (fun strategy => if_string strategy (fun s =>
    va_sug (String.eqb s "replace" && negb (HasParameter action "replacement"))
      ("Rule " +:+ Quote ruleName +:+ " 'redact' action with strategy 'replace' missing 'replacement'")
      ("Add 'replacement: " +:+ dquoted "[REDACTED]" +:+ "'"))).

Definition validateModifyAction (action : Action) (ruleName : string) : Errs :=
  required action ruleName "field" ("Add 'field: " +:+ dquoted "request.field_name" +:+ "'") (fun _ => no_errs) +e
  required action ruleName "value" ("Add 'value: " +:+ dquoted "new_value" +:+ "'") (fun _ => no_errs).

Definition validateRouteAction (action : Action) (ruleName : string) : Errs :=
  let hasProvider := HasParameter action "provider" in
  let hasModel := HasParameter action "model" in
  va_sug (negb hasProvider && negb hasModel)
    ("Rule " +:+ Quote ruleName +:+ " 'route' action must specify 'provider' or 'model'")
    ("Add 'provider: " +:+ dquoted "openai" +:+ "' or 'model: " +:+ dquoted "gpt-4" +:+ "'").

Definition validateAlertAction (action : Action) (ruleName : string) : Errs :=
  required action ruleName "webhook" ("Add 'webhook: " +:+ dquoted "https://example.com/webhook" +:+ "'")
    (fun _ => no_errs) +e
  optional action "severity"
    (one_of ("Rule " +:+ Quote ruleName +:+ " 'alert' action has invalid severity") ["low"; "medium"; "high"; "critical"]
       "Valid severities: low, medium, high, critical").

Definition validateRateLimitAction (action : Action) (ruleName : string) : Errs :=
  required action ruleName "key" ("Add 'key: " +:+ dquoted "user" +:+ "' or 'key: " +:+ dquoted "ip" +:+ "'")
    (fun _ => no_errs) +e
  required action ruleName "limit" "Add 'limit: 100'"
    (must_be ValueTypeNumber ("Rule " +:+ Quote ruleName +:+ " 'rate_limit' action 'limit' must be a number")) +e
  required action ruleName "window" "Add 'window: 3600' (time window in seconds)"
    (must_be ValueTypeNumber ("Rule " +:+ Quote ruleName +:+ " 'rate_limit' action 'window' must be a number")).

Definition validateBudgetAction (action : Action) (ruleName : string) : Errs :=
  required action ruleName "type" ("Add 'type: " +:+ dquoted "tokens" +:+ "' or 'type: " +:+ dquoted "cost" +:+ "'")
    (one_of ("Rule " +:+ Quote ruleName +:+ " 'budget' action has invalid type") ["tokens"; "cost"]
       "Valid types: tokens, cost") +e
  required action ruleName "limit" "Add 'limit: 10000'"
    (must_be ValueTypeNumber ("Rule " +:+ Quote ruleName +:+ " 'budget' action 'limit' must be a number")) +e
  optional action "window"
    (one_of ("Rule " +:+ Quote ruleName +:+ " 'budget' action has invalid window")
       ["hourly"; "daily"; "weekly"; "monthly"] "Valid windows: hourly, daily, weekly, monthly").

Definition validateAction (action : Action) (ruleName : string) : Errs :=
  let t := a_Type action in
  if String.eqb t ActionTypeAllow then validateAllowAction action ruleName
  else if String.eqb t ActionTypeDeny then validateDenyAction action ruleName
  else if String.eqb t ActionTypeLog then validateLogAction action ruleName
  else if String.eqb t ActionTypeRedact then validateRedactAction action ruleName
  else if String.eqb t ActionTypeModify then validateModifyAction action ruleName
  else if String.eqb t ActionTypeRoute then validateRouteAction action ruleName
  else if String.eqb t ActionTypeAlert then validateAlertAction action ruleName
  else if String.eqb t ActionTypeRateLimit then validateRateLimitAction action ruleName
  else if String.eqb t ActionTypeBudget then validateBudgetAction action ruleName
  else no_errs.

Definition validateRuleActions (rule : Rule) : Errs :=
  detectConflictingActions rule +e esum (fun action => validateAction action (r_Name rule)) (Actions rule).

Definition action_Validate (policy : Policy) : Errs := esum validateRuleActions (Rules policy).

(** ** The validator

    Each pass returns [v.errors.ToError()]; [None] inside the result is the nil
    error. *)

Definition ValidateStructural (policy : Policy) : option (option ErrorList) := el_ToError <$> structural_Validate policy.
Definition ValidateSemantic (policy : Policy) : option (option ErrorList) := el_ToError <$> semantic_Validate policy.
Definition ValidateActions (policy : Policy) : option (option ErrorList) := el_ToError <$> action_Validate policy.

(** [errors.Errors = append(errors.Errors, errList.Errors...)] for a non-nil error. *)
Definition append_pass (pass : Policy -> option (option ErrorList)) (policy : Policy) (errors : ErrorList)
    : option ErrorList :=
  e ← pass policy; Some (errors ++ default [] e)%list.

Definition unless_structural (pass : Policy -> option (option ErrorList)) (policy : Policy) (errors : ErrorList)
    : option ErrorList :=
  if negb (HasErrorType ErrorTypeStructural errors) then append_pass pass policy errors else Some errors.

Definition Validate (policy : Policy) : option (option ErrorList) :=
  errors ← append_pass ValidateStructural policy [];
  errors ← unless_structural ValidateSemantic policy errors;
  errors ← unless_structural ValidateActions policy errors;
  Some (el_ToError errors).
End validator.
