(* ===== verification/MplValid.v ===== *)
(** * What the policy validator decides ([pkg/mpl/validator])

    The search for circular variables decides a property of the reference graph;
    validation of a parsed policy never panics; what an accepted policy
    satisfies. *)

From Stdlib Require Import ZArith Lia Ascii.
From stdpp Require Import base option list strings gmap pretty fin_map_dom relations.
From S2P Require Import Prelude Float64 GoValue Ast ProviderTypes MplErrors MplBuilder MplDataModel MplValidator.
Local Open Scope Z_scope.
Local Open Scope go_scope.

(** ** Circular variables *)

Section cycles.
Context `{MapRange} (vars : gmap string VariableDef).

(** The variable that the value of a variable names. *)
Definition ref_of (x : string) : option string :=
  d ← vars !! x; v ← v_Value d; if String.eqb (vn_Type v) ValueTypeVariable then Some (VariableName v) else None.

Definition refers (x y : string) : Prop := ref_of x = Some y.

Definition undefined (x : string) : Prop := vars !! x = None.

(** No variable reaches itself, and no two variables name the same undefined one. *)
Record references_ok : Prop := {
  ok_acyclic x : ~ tc refers x x;
  ok_undefined x y u : refers x u -> refers y u -> undefined u -> x = y;
}.

(** The state of the search while the variables of [P] are on the stack; those
    of [visited ∖ P] are finished. *)
Record search (P : gset string) (s : CycleState) : Prop := {
  se_progress z : z ∈ cs_inProgress s <-> z ∈ P \/ (z ∈ cs_visited s /\ undefined z);
  se_path z : z ∈ P -> z ∈ cs_visited s /\ ~ undefined z;
  se_origin u : u ∈ cs_visited s -> undefined u -> exists z, z ∈ cs_visited s /\ refers z u;
  se_closed z y : cs_errors s = [] -> z ∈ cs_visited s -> z ∉ P -> refers z y -> y ∈ cs_visited s /\ y ∉ P;
  se_acyclic z : cs_errors s = [] -> z ∈ cs_visited s -> z ∉ P -> ~ tc refers z z;
  se_once z z' u : cs_errors s = [] -> z ∈ cs_visited s -> z ∉ P -> z' ∈ cs_visited s -> z' ∉ P ->
    refers z u -> refers z' u -> undefined u -> z = z';
  se_ok : references_ok -> cs_errors s = [];
}.

Lemma extract_ref x d :
  vars !! x = Some d -> extractVariableReferences (v_Value d) = option_list (ref_of x).
Proof using.
  intros Hd. unfold ref_of. rewrite Hd. simpl. destruct (v_Value d) as [v|]; [|done]. simpl. by destruct (String.eqb _ _).
Qed.

Lemma undefined_no_ref x y : undefined x -> ~ refers x y.
Proof using. unfold undefined, refers, ref_of. by intros ->. Qed.

(** A set closed under references keeps what it reaches. *)
Lemma tc_closed (F : string -> Prop) x y :
  (forall z w, F z -> refers z w -> F w) -> F x -> tc refers x y -> F y.
Proof using. intros HF Hx Ht. induction Ht; eauto. Qed.

(** The variable [x] finishes: its reference, if any, is finished. *)
Lemma search_finish P x s sub :
  search sub s -> sub = {[x]} ∪ P -> x ∉ P -> ~ undefined x -> x ∈ cs_visited s ->
  (forall y, refers x y -> cs_errors s = [] -> y ∈ cs_visited s /\ y ∉ sub) ->
  (forall y z, cs_errors s = [] -> refers x y -> undefined y -> z ∈ cs_visited s -> z ∉ sub -> ~ refers z y) ->
  search P (mkCycleState (cs_visited s) (cs_inProgress s ∖ {[x]}) (cs_errors s)).
Proof using.
  intros [Hpr Hpa Hor Hcl Hac Hon Hok] -> HxP Hdef Hvx Hr Hu.
  assert (Hsplit : forall z, z ∉ P -> z = x \/ z ∉ {[x]} ∪ P) by (intros z ?; destruct (decide (z = x)); set_solver).
  split; simpl.
  - intros z. rewrite elem_of_difference, Hpr, elem_of_union, elem_of_singleton.
    split; [intuition|]. intros [Hz|[Hz Hz']]; (split; [by auto|]); intros ->; done.
  - intros z Hz. apply Hpa. set_solver.
  - done.
  - intros z y He Hz HzP Hzy. destruct (Hsplit z HzP) as [->|Hn].
    + destruct (Hr y Hzy He). set_solver.
    + destruct (Hcl z y He Hz Hn Hzy). set_solver.
  - intros z He Hz HzP. destruct (Hsplit z HzP) as [->|Hn]; [|by apply Hac]. intros Ht.
    assert (Hx : exists y, refers x y /\ rtc refers y x) by (inversion Ht; subst; eauto using rtc, tc_rtc).
    destruct Hx as (y & Hxy & Hyx). destruct (Hr y Hxy He) as [Hy HyP].
    assert (Hin : x ∈ cs_visited s /\ x ∉ {[x]} ∪ P); [|set_solver].
    clear -Hcl He Hyx Hy HyP. induction Hyx as [|y w x Hyw _ IH]; [done|]. destruct (Hcl y w He Hy HyP Hyw). by apply IH.
  - intros z z' u He Hz HzP Hz' HzP' Hzu Hzu' Hund.
    destruct (Hsplit z HzP) as [->|Hn], (Hsplit z' HzP') as [->|Hn']; [done| | |by eauto].
    + by destruct (Hu u z' He Hzu Hund Hz' Hn').
    + by destruct (Hu u z He Hzu' Hund Hz Hn).
  - done.
Qed.

(** The variable [x] is entered. *)
Lemma search_enter P x s :
  search P s -> x ∉ cs_visited s -> ~ undefined x ->
  search ({[x]} ∪ P) (mkCycleState ({[x]} ∪ cs_visited s) ({[x]} ∪ cs_inProgress s) (cs_errors s)).
Proof using.
  intros [Hpr Hpa Hor Hcl Hac Hon Hok] Hx Hdef.
  assert (Hb : forall z, z ∈ {[x]} ∪ cs_visited s -> z ∉ {[x]} ∪ P -> z ∈ cs_visited s /\ z ∉ P) by set_solver.
  split; simpl.
  - intros z. rewrite !elem_of_union, Hpr, !elem_of_singleton. split; [intuition|].
    intros [?|[[->|?] ?]]; [intuition|done|intuition].
  - intros z [->%elem_of_singleton|Hz]%elem_of_union; [set_solver|]. destruct (Hpa z Hz). set_solver.
  - intros u [->%elem_of_singleton|Hu]%elem_of_union Hund; [done|]. destruct (Hor u Hu Hund) as (z & Hz & Hr). set_solver.
  - intros z y He Hz HzP Hzy. destruct (Hb z Hz HzP) as [Hz' HzP']. destruct (Hcl z y He Hz' HzP' Hzy). set_solver.
  - intros z He Hz HzP. destruct (Hb z Hz HzP). by apply Hac.
  - intros z z' u He Hz HzP Hz' HzP'. destruct (Hb z Hz HzP), (Hb z' Hz' HzP'). by apply Hon.
  - done.
Qed.

(** An undefined variable is entered and stays in progress. *)
Lemma search_undefined P x s :
  search P s -> x ∉ cs_visited s -> undefined x -> (exists z, z ∈ cs_visited s /\ refers z x) ->
  search P (mkCycleState ({[x]} ∪ cs_visited s) ({[x]} ∪ cs_inProgress s) (cs_errors s)).
Proof using.
  intros [Hpr Hpa Hor Hcl Hac Hon Hok] Hx Hund (w & Hw & Hwx).
  assert (Hb : forall z y, z ∈ {[x]} ∪ cs_visited s -> refers z y -> z ∈ cs_visited s).
  { intros z y [->%elem_of_singleton|?]%elem_of_union Hr; [|done]. by apply undefined_no_ref in Hr. }
  split; simpl.
  - intros z. rewrite !elem_of_union, Hpr, elem_of_singleton. split; [|intuition].
    intros [->|[?|[]]]; [right|left|right]; auto.
  - intros z Hz. destruct (Hpa z Hz). set_solver.
  - intros u [->%elem_of_singleton|Hu]%elem_of_union Hu'; [set_solver|]. destruct (Hor u Hu Hu'). set_solver.
  - intros z y He Hz HzP Hzy. destruct (Hcl z y He (Hb z y Hz Hzy) HzP Hzy). set_solver.
  - intros z He Hz HzP Ht. assert (Hy : exists y, refers z y) by (inversion Ht; eauto). destruct Hy as [y Hy].
    exact (Hac z He (Hb z y Hz Hy) HzP Ht).
  - intros z z' u He Hz HzP Hz' HzP' Hu Hu'. apply Hon; eauto.
  - done.
Qed.

Lemma check_spec fuel path x s P :
  (size (dom vars ∖ P) < fuel)%nat -> search P s -> x ∉ cs_visited s -> (forall z, z ∈ P -> tc refers z x) ->
  (undefined x -> exists z, z ∈ cs_visited s /\ refers z x) ->
  exists s', checkVariableCycle fuel vars path x s = Some s' /\ search P s' /\
    {[x]} ∪ cs_visited s ⊆ cs_visited s' /\ (undefined x -> cs_visited s' = {[x]} ∪ cs_visited s) /\
    (cs_errors s' = [] -> cs_errors s = []).
Proof using.
  revert path x s P. induction fuel as [|fuel IH]; intros path x s P Hf Hs Hx HP Hund; [lia|].
  cbn [checkVariableCycle]. destruct (vars !! x) as [d|] eqn:Hd.
  2: { eexists. split; [done|]. split; [by apply search_undefined; auto|]. done. }
  assert (Hdef : ~ undefined x) by (unfold undefined; congruence).
  assert (HxP : x ∉ P) by (intros Hin; by destruct (se_path P s Hs x Hin)).
  pose proof (search_enter P x s Hs Hx Hdef) as Hs1. rewrite (extract_ref x d Hd).
  set (s1 := mkCycleState _ _ _) in *.
  destruct (ref_of x) as [y|] eqn:Hy.
  2: { simpl. eexists. split; [done|]. split; [|done].
       apply (search_finish P x s1 _ Hs1); try done; [set_solver| |]; unfold refers; congruence. }
  assert (Hxx : x ∈ cs_visited s1) by set_solver.
  change (option_list (Some y)) with [y]. cbn [checkReferences]. case_decide as Hip; [|case_decide as Hv]; cbn [mbind option_bind checkReferences].
  - (* an error is reported *)
    eexists. split; [done|]. simpl. split; [|split; [done|split; [done|by destruct (cs_errors s)]]].
    assert (Hbad : ~ references_ok).
    { intros [Hac Hon]. apply (se_progress _ _ Hs1) in Hip. rewrite elem_of_union, elem_of_singleton in Hip.
      destruct Hip as [[->|Hin]|[Hin Huy]].
      - apply (Hac x). by constructor.
      - apply (Hac y). eapply tc_r; [by apply HP|done].
      - simpl in Hin. apply elem_of_union in Hin as [->%elem_of_singleton|Hin]; [done|].
        destruct (se_origin _ _ Hs y Hin Huy) as (z & Hz & Hzy). by rewrite (Hon x z y Hy Hzy Huy) in Hx. }
    assert (Hne : cs_errors s ++ [circular_error ((path ++ [x]) ++ [y])] <> []) by (by destruct (cs_errors s)).
    apply (search_finish P x (mkCycleState (cs_visited s1) (cs_inProgress s1) (cs_errors s ++ _)) ({[x]} ∪ P)); try done.
    destruct Hs1. split; simpl; try done.
  - (* the reference is already finished *)
    eexists. split; [done|]. simpl. split; [|done].
    assert (HyP : y ∉ {[x]} ∪ P) by (intros Hin; apply Hip, (se_progress _ _ Hs1); by left).
    apply (search_finish P x s1 _ Hs1); try done; intros y'; unfold refers; rewrite Hy.
    + by intros [= <-].
    + intros z _ [= <-] Huy. destruct Hip. apply (se_progress _ _ Hs1). by right.
  - destruct (IH (path ++ [x])%list y s1 ({[x]} ∪ P)) as (s2 & He & Hs2 & Hsub & Hu2 & Herr).
    + assert (Hlt : (size (dom vars ∖ ({[x]} ∪ P)) < size (dom vars ∖ P))%nat); [|lia].
      apply subset_size. assert (x ∈ dom vars) by (apply elem_of_dom; eauto). set_solver.
    + done.
    + done.
    + intros z [->%elem_of_singleton|Hz]%elem_of_union; [by constructor|]. eapply tc_r; [by apply HP|done].
    + intros _. exists x. done.
    + rewrite He. cbn [mbind option_bind]. eexists. split; [done|]. simpl.
      split; [|split; [set_solver|split; [done|exact Herr]]].
      apply (search_finish P x s2 _ Hs2); try done; [set_solver| |]; intros y'; unfold refers at 1; rewrite Hy.
      * intros [= <-] _. split; [set_solver|]. intros Hin. destruct (se_path _ _ Hs1 y Hin). done.
      * intros z Herr2 [= <-] Huy Hz HzP Hzy. rewrite (Hu2 Huy) in Hz.
        apply elem_of_union in Hz as [->%elem_of_singleton|Hz]; [by apply undefined_no_ref in Hzy|].
        destruct (se_closed _ _ Hs1 z y (Herr Herr2) Hz HzP Hzy). done.
Qed.

Lemma check_all_spec names s :
  (forall x, x ∈ names -> ~ undefined x) -> search ∅ s ->
  exists s', checkAllVariables vars names s = Some s' /\ search ∅ s' /\ cs_visited s ⊆ cs_visited s' /\
    forall x, x ∈ names -> x ∈ cs_visited s'.
Proof using.
  revert s. induction names as [|x names IH]; intros s Hn Hs; cbn [checkAllVariables].
  { exists s. split; [done|]. split; [done|]. set_solver. }
  case_decide as Hx.
  - destruct (IH s) as (s' & -> & Hs' & Hsub & Hall); [set_solver|done|]. exists s'. set_solver.
  - destruct (check_spec (S (size vars)) [] x s ∅) as (s1 & -> & Hs1 & Hsub1 & _ & _); try done.
    + rewrite difference_empty_L, size_dom. lia.
    + intros Hu. destruct (Hn x); set_solver.
    + cbn [mbind option_bind]. destruct (IH s1) as (s' & -> & Hs' & Hsub & Hall); [set_solver|done|]. exists s'. set_solver.
Qed.

Lemma search_start : search ∅ (mkCycleState ∅ ∅ []).
Proof using. split; simpl; set_solver. Qed.
End cycles.

Lemma circular_references `{MapRange} (p : Policy) :
  exists errs, validateVariableReferences p = Some errs /\ (errs = [] <-> references_ok (Variables p)).
Proof.
  unfold validateVariableReferences.
  destruct (check_all_spec (Variables p) (range (Variables p)).*1 (mkCycleState ∅ ∅ [])) as (s & -> & Hs & _ & Hall).
  { intros x Hx. apply list_elem_of_fmap in Hx as ([k d] & -> & Hk). apply elem_of_range in Hk. unfold undefined.
    simpl in *. congruence. }
  { apply search_start. }
  exists (cs_errors s). split; [done|]. split; [|apply Hs].
  assert (Hvis : forall x y, refers (Variables p) x y -> x ∈ cs_visited s).
  { intros x y Hr. apply Hall, list_elem_of_fmap. unfold refers, ref_of in Hr.
    destruct (Variables p !! x) as [d|] eqn:Hd; [|done]. exists (x, d). split; [done|]. by apply elem_of_range. }
  intros He. split.
  - intros x Ht. assert (Hy : exists y, refers (Variables p) x y) by (inversion Ht; eauto). destruct Hy as [y Hy].
    by apply (se_acyclic _ _ _ Hs x He (Hvis x y Hy)) in Ht.
  - intros x y u Hx Hy Hu. by apply (se_once _ _ _ Hs x y u He); eauto.
Qed.

(** C23: Circular variables are decided.  The search returns for every policy and
    every order in which the variables are visited; it reports nothing exactly
    when no variable refers to itself, directly or through others, and no two
    variables refer to the same undefined variable (such a pair is reported as
    circular although nothing is). *)
Theorem circular_variables_decided `{MapRange} (p : Policy) :
  exists errs, validateVariableReferences p = Some errs /\ (errs = [] <-> references_ok (Variables p)).
Proof. apply circular_references. Qed.

(** ** Errors of a pass *)

Create HintDb errs.

Lemma eapp_some a b : is_Some a -> is_Some b -> is_Some (a +e b).
Proof. intros [x ->] [y ->]. by eexists. Qed.

Lemma err_sug_some ty c m s : is_Some (err_sug ty c m s).
Proof. by eexists. Qed.

Lemma err_some ty c m : is_Some (err ty c m).
Proof. by eexists. Qed.

Lemma no_errs_some : is_Some no_errs.
Proof. by eexists. Qed.

Lemma esum_some {A} (f : A -> Errs) l : (forall a, a ∈ l -> is_Some (f a)) -> is_Some (esum f l).
Proof.
  induction l as [|a l IH]; intros Hf; simpl; [apply no_errs_some|].
  apply eapp_some; [apply Hf; set_solver|apply IH; set_solver].
Qed.

Lemma closest_some unknown names n best : is_Some (closest unknown names n best).
Proof.
  revert n best. induction names as [|name names IH]; intros n best; cbn [closest]; [by eexists|].
  rewrite levenshteinDistance_dist. cbn [mbind option_bind]. case_match; apply IH.
Qed.

Lemma SuggestFieldName_some unknown names : is_Some (SuggestFieldName unknown names).
Proof.
  unfold SuggestFieldName. destruct names as [|name names]; [by eexists|].
  destruct (closest_some unknown (name :: names) 1000 "") as [[n best] ->]. by eexists.
Qed.

Lemma SuggestActionType_some unknown names : is_Some (SuggestActionType unknown names).
Proof.
  unfold SuggestActionType. destruct names as [|name names]; [by eexists|].
  destruct (closest_some unknown (name :: names) 1000 "") as [[n best] ->]. by eexists.
Qed.

#[export] Hint Resolve eapp_some err_sug_some err_some no_errs_some : errs.

Lemma eapp_nil a b : a +e b = Some [] <-> a = Some [] /\ b = Some [].
Proof.
  unfold eapp. destruct a as [[|x a]|], b as [[|y b]|]; simpl; split; intros Hab; try done; by destruct Hab.
Qed.

Lemma err_sug_nil ty c m s : err_sug ty c m s = Some [] <-> c = false.
Proof. unfold err_sug. by destruct c. Qed.

Lemma err_nil ty c m : err ty c m = Some [] <-> c = false.
Proof. apply err_sug_nil. Qed.

Lemma esum_nil {A} (f : A -> Errs) l : esum f l = Some [] <-> forall a, a ∈ l -> f a = Some [].
Proof.
  induction l as [|a l IH]; simpl; [split; [set_solver|done]|]. rewrite eapp_nil, IH. set_solver.
Qed.

(** The loops over the children of a condition. *)
Lemma children_some (f : ConditionNode -> Errs) cs :
  Forall (fun c => is_Some (f c)) cs ->
  is_Some (foldr (fun (o : option ConditionNode) acc => match o with None => None | Some child => f child +e acc end)
    no_errs (Some <$> cs)).
Proof. induction 1; simpl; auto with errs. Qed.

Lemma children_nil (f : ConditionNode -> Errs) cs :
  foldr (fun (o : option ConditionNode) acc => match o with None => None | Some child => f child +e acc end)
    no_errs (Some <$> cs) = Some [] -> Forall (fun c => f c = Some []) cs.
Proof. induction cs as [|c cs IH]; simpl; [constructor|]. intros [? ?]%eapp_nil. constructor; auto. Qed.

(** ** Validation of a parsed policy does not panic *)

Section total.
Context `{MapRange} `{Fmt}.

Lemma validateConditionStructure_some ruleName c d :
  canonical c -> is_Some (validateConditionStructure ruleName d c).
Proof using.
  intros Hc. revert d. induction Hc as [field op v Hv|fn args Ha|ty children Ht _ IH] using canonical_nested_ind;
    intros d; cbn [validateConditionStructure cn_Type Children]; (case_match; [apply err_some|]).
  1-2: by simpl; auto with errs.
  assert (Hch : is_Some (foldr (fun (o : option ConditionNode) acc =>
      match o with None => None | Some child => validateConditionStructure ruleName (d + 1) child +e acc end)
      no_errs (Some <$> children))).
  { apply children_some. eapply Forall_impl; [exact IH|]. intros c Hc. apply Hc. }
  rewrite !elem_of_cons, elem_of_nil in Ht. destruct Ht as [->|[->|[->|[]]]]; apply eapp_some; try done; apply err_some.
Qed.

Lemma validateCondition_some policy ruleName c : canonical c -> is_Some (validateCondition policy ruleName c).
Proof using.
  induction 1 as [field op v Hv|fn args Ha|ty children Ht _ IH] using canonical_nested_ind.
  - unfold validateCondition. cbn [cn_Type]. rewrite String.eqb_refl. unfold validateSimpleCondition. cbn [Field].
    destruct (LookupField field); [|by destruct (SuggestFieldName_some field GetAllFieldPaths) as [? ->]; apply err_sug_some].
    apply eapp_some; [apply err_sug_some|]. cbn [cn_Value]. case_match; apply err_sug_some.
  - cbn. unfold validateFunctionCondition. cbn [Function]. destruct (supportedFunctions !! fn).
    + apply eapp_some; [apply err_some|]. apply esum_some. intros; apply err_sug_some.
    + destruct (SuggestFieldName_some fn (range supportedFunctions).*1) as [? ->]. apply err_sug_some.
  - apply children_some in IH. rewrite !elem_of_cons, elem_of_nil in Ht. by destruct Ht as [->|[->|[->|[]]]].
Qed.

Lemma validateActionStructures_some actions ruleName i : is_Some (validateActionStructures actions ruleName i).
Proof using.
  revert i. induction actions as [|a actions IH]; intros i; cbn [validateActionStructures]; [by eexists|].
  apply eapp_some; [|apply IH]. unfold validateActionStructure. apply eapp_some; [apply err_some|]. case_match; [|by eexists].
  destruct (SuggestActionType_some (a_Type a) validActionTypes) as [? ->]. apply err_sug_some.
Qed.

Lemma validateRules_some rules i seen : Forall rule_built rules -> is_Some (validateRules rules i seen).
Proof using.
  intros Hr. revert i seen. induction Hr as [|r rules [Hc _] _ IH]; intros i seen; cbn [validateRules]; [by eexists|].
  destruct (String.eqb (r_Name r) ""); (apply eapp_some; [|apply IH]); [apply err_sug_some|]. unfold validateRule.
  repeat apply eapp_some; try apply err_some; try apply err_sug_some; [|apply validateActionStructures_some].
  destruct (Conditions r); [by apply validateConditionStructure_some|by eexists].
Qed.

Lemma structural_some p : policy_built p -> is_Some (structural_Validate p).
Proof using.
  intros [Hr Hv]. unfold structural_Validate. apply eapp_some; [|apply eapp_some]; [| |by apply validateRules_some].
  - unfold validateMetadata. repeat apply eapp_some; try case_match; apply err_sug_some.
  - apply esum_some. intros [name d] Hin. apply elem_of_range in Hin. destruct (Hv name d Hin) as (_ & n & Hn & _).
    unfold validateVariable. cbn [fst snd]. rewrite Hn. apply eapp_some; apply err_some.
Qed.

Lemma semantic_some p : policy_built p -> is_Some (semantic_Validate p).
Proof using.
  intros [Hr _]. apply eapp_some.
  - destruct (circular_references p) as (errs & He & _). by exists errs.
  - apply esum_some. intros r Hin. rewrite Forall_forall in Hr. destruct (Hr r Hin) as [Hc _].
    destruct (Conditions r); [by apply validateCondition_some|by eexists].
Qed.

Lemma if_string_some v f : value_built v -> (forall s, is_Some (f s)) -> is_Some (if_string v f).
Proof using.
  unfold value_built, if_string. intros Hv Hf. destruct (String.eqb_spec (vn_Type v) ValueTypeString) as [Ht|]; [|by eexists].
  destruct (vn_Value v) eqn:E; simpl in Hv; try done; try (apply Hf);
    repeat case_match; try done; injection Hv as <-; simpl in *; discriminate.
Qed.

Lemma required_some action ruleName key hint f :
  action_built action -> (forall v, value_built v -> is_Some (f v)) -> is_Some (required action ruleName key hint f).
Proof using.
  intros [_ Ha] Hf. unfold required, GetParameter. destruct (Parameters action !! key) eqn:E; [|by eexists].
  apply Hf. by apply (Ha key).
Qed.

Lemma optional_some action key f :
  action_built action -> (forall v, value_built v -> is_Some (f v)) -> is_Some (optional action key f).
Proof using.
  intros [_ Ha] Hf. unfold optional, GetParameter. destruct (Parameters action !! key) eqn:E; [|by eexists].
  apply Hf. by apply (Ha key).
Qed.

Lemma one_of_some label valid hint v : value_built v -> is_Some (one_of label valid hint v).
Proof using. intros Hv. apply if_string_some; [done|]. intros s. apply err_sug_some. Qed.

Lemma validateAction_some action ruleName : action_built action -> is_Some (validateAction action ruleName).
Proof using.
  intros Ha. unfold validateAction. repeat case_match; try apply no_errs_some.
  1: apply esum_some; intros; apply err_some.
  all: repeat apply eapp_some; try apply err_sug_some.
  all: first [apply required_some|apply optional_some]; [done|]; intros v Hv;
    try apply no_errs_some; try apply err_some; try (by apply one_of_some).
  apply if_string_some; [done|]. intros; apply err_sug_some.
Qed.

Lemma actions_some p : policy_built p -> is_Some (action_Validate p).
Proof using.
  intros [Hr _]. apply esum_some. intros r Hin. rewrite Forall_forall in Hr. destruct (Hr r Hin) as [_ Ha].
  apply eapp_some; [apply err_some|]. apply esum_some. intros a Hina. rewrite Forall_forall in Ha.
  by apply validateAction_some, Ha.
Qed.

Lemma unless_structural_some pass p errors : is_Some (pass p) -> is_Some (unless_structural pass p errors).
Proof using. intros [e He]. unfold unless_structural, append_pass. case_match; [|by eexists]. rewrite He. by eexists. Qed.

Lemma Validate_some p : policy_built p -> is_Some (Validate p).
Proof using.
  intros Hp. unfold Validate, append_pass at 1, ValidateStructural.
  destruct (structural_some p Hp) as [e1 ->]. cbn [fmap option_fmap option_map mbind option_bind].
  destruct (unless_structural_some ValidateSemantic p ([] ++ default [] (el_ToError e1))%list) as [e2 ->].
  { unfold ValidateSemantic. destruct (semantic_some p Hp) as [? ->]. by eexists. }
  cbn [mbind option_bind]. destruct (unless_structural_some ValidateActions p e2) as [e3 ->]; [|by eexists].
  unfold ValidateActions. destruct (actions_some p Hp) as [? ->]. by eexists.
Qed.

Lemma ToError_nil errors : default [] (el_ToError errors) = errors.
Proof using. unfold el_ToError, HasErrors. by destruct errors. Qed.

Lemma ToError_None errors : el_ToError errors = None <-> errors = [].
Proof using. unfold el_ToError, HasErrors. by destruct errors. Qed.

Lemma unless_structural_nil pass p errors : unless_structural pass p errors = Some [] -> errors = [].
Proof using.
  unfold unless_structural, append_pass. case_match; [|by intros [= ->]].
  destruct (pass p); [|done]. by intros [= [-> _]%app_eq_nil].
Qed.

(** Appending the error of a pass appends its list. *)
Lemma append_pass_ToError f p errors :
  append_pass (fun q => el_ToError <$> f q) p errors = (e ← f p; Some (errors ++ e)%list).
Proof using. unfold append_pass. destruct (f p); [|done]. simpl. by rewrite ToError_nil. Qed.

Lemma unless_structural_first f p : unless_structural (fun q => el_ToError <$> f q) p [] = f p.
Proof using. unfold unless_structural. simpl. rewrite append_pass_ToError. by destruct (f p). Qed.

(** An accepted policy passes all three passes. *)
Lemma Validate_accepts p :
  Validate p = Some None <->
  structural_Validate p = Some [] /\ semantic_Validate p = Some [] /\ action_Validate p = Some [].
Proof using.
  unfold Validate. setoid_rewrite (append_pass_ToError structural_Validate).
  destruct (structural_Validate p) as [e1|]; cbn [mbind option_bind app]; [|by split; [|intros []]].
  destruct (decide (e1 = [])) as [->|Hne].
  - setoid_rewrite (unless_structural_first semantic_Validate).
    destruct (semantic_Validate p) as [e2|]; cbn [mbind option_bind app]; [|by split; [|intros (? & ? & ?)]].
    destruct (decide (e2 = [])) as [->|Hne].
    + setoid_rewrite (unless_structural_first action_Validate).
      destruct (action_Validate p) as [e3|]; cbn [mbind option_bind app]; [|by split; [|intros (? & ? & ?)]].
      split; [by intros [= ->%ToError_None]|by intros (_ & _ & [= ->])].
    + split; [|by intros (_ & [= ->] & _)]. destruct (unless_structural ValidateActions p e2) as [e|] eqn:E; [|done].
      intros [= ->%ToError_None]. by apply unless_structural_nil in E.
  - split; [|by intros ([= ->] & _)]. destruct (unless_structural ValidateSemantic p e1) as [e2|] eqn:E2; [|done].
    cbn [mbind option_bind]. destruct (unless_structural ValidateActions p e2) as [e|] eqn:E; [|done].
    intros [= ->%ToError_None]. by apply unless_structural_nil in E as ->; apply unless_structural_nil in E2.
Qed.
End total.
