(* ===== verification/MplSound.v ===== *)
(** * From the policy file to the engine ([pkg/mpl] with [pkg/policy/engine])

    What parsing and validation promise to the engine: which fields of the
    validator's data model the engine can read, which errors the evaluation of an
    accepted condition can still give, and which actions are accepted. *)

From Stdlib Require Import ZArith Lia Ascii.
From stdpp Require Import base option list strings gmap.
From S2P Require Import Prelude Float64 GoValue Ast PolicyContext PolicyFields PolicyMatcher ProviderTypes ConfigLoad MplErrors MplBuilder MplDataModel MplValidator MplValid.
Local Open Scope Z_scope.

(** ** Fields *)

(** The paths of the data model that the engine reads, with the value they give:
    none when the request, the response or an optional setting is missing. *)
Definition readers : list (list string * (EvaluationContext -> option GoValue)) :=
  [(["request"; "model"], fun c => r ← Request c; o ← OriginalRequest r; Some (VString (cr_Model o)));
   (["request"; "temperature"], fun c =>
      r ← Request c; o ← OriginalRequest r; t ← cr_Temperature o; Some (VFloat64 t));
   (["request"; "max_tokens"], fun c => r ← Request c; o ← OriginalRequest r; n ← cr_MaxTokens o; Some (vint n));
   (["request"; "stream"], fun c =>
      r ← Request c; Some (VBool (match OriginalRequest r with Some o => cr_Stream o | None => false end)));
   (["response"; "finish_reason"], fun c =>
      r ← Response c; Some (VString (match OriginalResponse r with Some o => cp_FinishReason o | None => "" end)))].

Definition readable : list (list string) := fst <$> readers.

Fixpoint same_path (l k : list string) : bool :=
  match l, k with
  | [], [] => true
  | x :: l, y :: k => String.eqb x y && same_path l k
  | _, _ => false
  end.

(** The value of a path, none for every path that is not in the list. *)
Definition field_value (parts : list string) (c : EvaluationContext) : option GoValue :=
  match List.find (fun x => same_path x.1 parts) readers with Some x => x.2 c | None => None end.

Definition value_of_type (ty : string) (v : GoValue) : Prop :=
  if String.eqb ty ValueTypeString then exists s, v = VString s
  else if String.eqb ty ValueTypeNumber then is_Some (convertToFloat64 v)
  else if String.eqb ty ValueTypeBoolean then exists b, v = VBool b
  else False.

(** The field a path leads to, in a request or a response. *)
Definition extract_parts (parts : list string) (c : EvaluationContext) : option GoValue :=
  match parts with
  | source :: ((_ :: _) as fieldName) =>
      if String.eqb source "request" then extractRequestField fieldName c
      else if String.eqb source "response" then extractResponseField fieldName c
      else if String.eqb source "metadata" then extractMetadataField fieldName c
      else None
  | _ => None
  end.

Definition sound_path (pf : list string * FieldInfo) : Prop :=
  forall c, extract_parts pf.1 c = field_value pf.1 c /\
    forall v, extract_parts pf.1 c = Some v -> value_of_type (fi_Type pf.2) v.

Lemma request_path_sound parts f :
  (parts, f) ∈ tree_paths requestFields -> sound_path ("request" :: parts, f).
Proof.
  intros Hin [id [r|] ? ? ? ? ? ? ? ? ? ? ? ?]; apply list_elem_of_In in Hin; cbn in Hin;
    destruct_or!; try done; injection Hin as <- <-; cbn; try done.
  - destruct (OriginalRequest r); (split; [done|]); [|done]. intros v [= <-]. by eexists.
  - destruct (OriginalRequest r) as [o|]; [|done]. simpl. destruct (cr_Temperature o); (split; [done|]); [|done].
    intros v [= <-]. by eexists.
  - destruct (OriginalRequest r) as [o|]; [|done]. simpl. destruct (cr_MaxTokens o); (split; [done|]); [|done].
    intros v [= <-]. by eexists.
  - split; [done|]. intros v [= <-]. by eexists.
Qed.

Lemma response_path_sound parts f :
  (parts, f) ∈ tree_paths responseFields -> sound_path ("response" :: parts, f).
Proof.
  intros Hin [id ? [r|] ? ? ? ? ? ? ? ? ? ? ?]; apply list_elem_of_In in Hin; cbn in Hin;
    destruct_or!; try done; injection Hin as <- <-; cbn; try done.
  split; [done|]. intros v [= <-]. by eexists.
Qed.

Lemma model_path_sound parts f : lookup_parts parts DataModel = Some f -> sound_path (parts, f).
Proof.
  destruct parts as [|source rest]; [done|]. cbn [lookup_parts DataModel fi_Children assoc].
  destruct (String.eqb_spec source "request") as [->|H1].
  { intros Hl. by apply request_path_sound, lookup_tree_paths. }
  destruct (String.eqb_spec source "response") as [->|H2].
  { intros Hl. by apply response_path_sound, lookup_tree_paths. }
  intros Hl c. unfold extract_parts. cbn [fst].
  destruct (String.eqb_spec source "processing") as [->|H3]; [by destruct rest|].
  destruct (String.eqb_spec source "context") as [->|H4]; [by destruct rest|done].
Qed.

(** A context in which every readable path has a value. *)
Definition full_context : EvaluationContext :=
  let original := mkChatCompletionRequest "gpt-4" VNil (Some fzero) (Some 100) None None true [] None None "" VNil VNil VNil None in
  let reply := mkCompletionResponse "c1" "gpt-4" "hi" "stop" VNil VNil 0 VNil in
  mkEvaluationContext "r1" (Some (mkEnrichedRequest "r1" (Some original) None None None None "" "" 0 0 0 0))
    (Some (mkEnrichedResponse "r1" (Some reply) None None None VNil fzero VNil VNil 0))
    [] ∅ [] [] [] None "" 0 None 0 false.

Lemma same_path_spec l k : same_path l k = true -> l = k.
Proof.
  revert k. induction l as [|x l IH]; intros [|y k]; simpl; try done.
  intros [->%String.eqb_eq Hk%IH]%andb_true_iff. by subst.
Qed.

Lemma readable_value parts c v : field_value parts c = Some v -> parts ∈ readable.
Proof.
  unfold field_value, readable. destruct (List.find _ readers) as [x|] eqn:Hf; [|done]. intros _.
  apply List.find_some in Hf as [Hin Hp%same_path_spec]. subst. apply list_elem_of_fmap. exists x.
  split; [done|by apply list_elem_of_In].
Qed.

Lemma readable_full parts : parts ∈ readable -> exists v, field_value parts full_context = Some v.
Proof. rewrite list_elem_of_In. cbn. intros Hin. destruct_or!; try done; subst; by eexists. Qed.

(** C38: of the fields that the validator accepts, the engine reads exactly the
    five of [readers], which the validator does accept: extraction gives the value
    that [field_value] names and nothing for every other field, in every context.
    A value that is read has the type that the data model declares. *)
Theorem accepted_fields_typed path f :
  LookupField path = Some f ->
  (forall c, extractField path c = field_value (split_dot path) c) /\
  (forall c v, extractField path c = Some v -> value_of_type (fi_Type f) v) /\
  (split_dot path ∈ readable <-> exists c v, extractField path c = Some v) /\
  Forall (fun parts => is_Some (lookup_parts parts DataModel)) readable.
Proof.
  intros Hl. pose proof (model_path_sound (split_dot path) f Hl) as Hs.
  assert (He : forall c, extractField path c = field_value (split_dot path) c) by apply Hs.
  split; [done|]. split; [intros c; apply (Hs c)|]. split.
  - split.
    + intros [v Hv]%readable_full. exists full_context, v. by rewrite He.
    + intros (c & v & Hv). rewrite He in Hv. by eapply readable_value.
  - repeat constructor; by eexists.
Qed.

(** ** Operators *)

(** The errors that the evaluation of an accepted condition can give; those of
    the last kind only when some value is a variable. *)
Definition foreseen (literal : bool) (e : CondError) : Prop :=
  match e with
  | ErrContext => True
  | FieldNotFoundError _ => True
  | ErrUnknownFunction fn => fn ∈ ["has_sensitive"; "len"; "lower"; "upper"; "contains"]
  | ErrOperator op (ErrInvalidRegexp _) => op = OperatorMatches
  | ErrOperator _ ErrExpectedNotNumber => literal = false
  | ErrOperator _ ErrNotSlice => literal = false
  | _ => False
  end.

Lemma foreseen_mono l l' e : (l' = true -> l = true) -> foreseen l e -> foreseen l' e.
Proof. destruct e as [| |op []| | |]; simpl; try done; destruct l, l'; intros Hl He; try done; by discriminate Hl. Qed.

Lemma built_array w : value_built w -> vn_Type w = ValueTypeArray -> exists ty l, vn_Value w = VSlice ty l.
Proof.
  unfold value_built. destruct (vn_Value w) eqn:E; simpl; intros Hv Ht; repeat case_match; try done;
    injection Hv as <-; simpl in *; try discriminate; eauto.
Qed.

Lemma built_number w : value_built w -> vn_Type w = ValueTypeNumber -> exists n, vn_Value w = VFloat64 n.
Proof.
  unfold value_built. destruct (vn_Value w) eqn:E; simpl; intros Hv Ht; repeat case_match; try done;
    injection Hv as <-; simpl in *; try discriminate; eauto.
Qed.

Lemma built_string w :
  value_built w -> vn_Type w = ValueTypeString \/ vn_Type w = ValueTypeVariable -> exists s, vn_Value w = VString s.
Proof.
  unfold value_built. destruct (vn_Value w) eqn:E; simpl; intros Hv Ht; repeat case_match; try done;
    injection Hv as <-; simpl in *; try (destruct Ht; discriminate); eauto.
Qed.

Lemma among_elem l s : among l s = true -> s ∈ l.
Proof.
  unfold among. intros Hex%existsb_exists. destruct Hex as (x & Hin & ->%String.eqb_eq). by apply list_elem_of_In.
Qed.

Ltac fits_by H := destruct H as [H|H]; [by left|right; by apply String.eqb_eq in H].

Section operators.
Context `{GoStd}.

Definition op_ok (op : string) (w : ValueNode) (r : result OpError bool) : Prop :=
  match r with Ok _ => True | Err e => foreseen (IsLiteral w) (ErrOperator op e) end.

(** A value that is a variable, or has the required type. *)
Definition fits (w : ValueNode) (ty : string) : Prop := vn_Type w = ValueTypeVariable \/ vn_Type w = ty.

Lemma variable_not_literal w : vn_Type w = ValueTypeVariable -> IsLiteral w = false.
Proof using. unfold IsLiteral. intros ->. reflexivity. Qed.

Lemma in_ok op w actual :
  value_built w -> fits w ValueTypeArray -> op_ok op w (evaluateIn actual (vn_Value w)).
Proof using.
  intros Hw [Hv|Ha].
  - destruct (built_string w Hw (or_intror Hv)) as [s ->]. simpl. by apply variable_not_literal.
  - destruct (built_array w Hw Ha) as (ty & l & ->). done.
Qed.

Lemma negate_ok op w r : op_ok op w r -> op_ok op w (negate r).
Proof using. by destruct r. Qed.

Lemma numeric_ok op w cmp actual :
  value_built w -> fits w ValueTypeNumber -> is_Some (convertToFloat64 actual) ->
  op_ok op w (evaluate_numeric cmp actual (vn_Value w)).
Proof using.
  intros Hw Hf [a Ha]. unfold evaluate_numeric, toNumeric. rewrite Ha. destruct Hf as [Hv|Hn].
  - destruct (built_string w Hw (or_intror Hv)) as [s ->]. simpl. by apply variable_not_literal.
  - destruct (built_number w Hw Hn) as [n ->]. done.
Qed.

Lemma matches_ok w s :
  value_built w -> fits w ValueTypeString -> op_ok OperatorMatches w (evaluateMatches (VString s) (vn_Value w)).
Proof using.
  intros Hw Hf. destruct (built_string w Hw) as [t ->]; [by destruct Hf; auto|]. unfold evaluateMatches. simpl.
  by destruct (regexp_Compile t).
Qed.

Lemma text_ok op w actual :
  op ∈ [OperatorContains; OperatorStartsWith; OperatorEndsWith; OperatorEqual; OperatorNotEqual] ->
  op_ok op w (evaluateOperator op actual (vn_Value w)).
Proof using.
  intros Hop%list_elem_of_In. cbn [In] in Hop.
  destruct_or!; try done; subst op; cbn -[toString]; try done;
    unfold evaluateContains, evaluateStartsWith, evaluateEndsWith, toString; by destruct actual, (vn_Value w).
Qed.

Lemma operator_ok ty op v w :
  value_of_type ty v -> isValidOperatorForType op ty = true -> value_built w ->
  vn_Type w = ValueTypeVariable \/ isCompatibleType (vn_Type w) ty op = true ->
  op_ok op w (evaluateOperator op v (vn_Value w)).
Proof using.
  unfold value_of_type, isValidOperatorForType. intros Hv Hop Hw Hc.
  destruct (String.eqb_spec ty ValueTypeString) as [->|_]; [|
  destruct (String.eqb_spec ty ValueTypeNumber) as [->|_]; [|
  destruct (String.eqb_spec ty ValueTypeBoolean) as [->|_]; [|done]]].
  all: apply among_elem, list_elem_of_In in Hop; cbn [In] in Hop.
  - destruct Hv as [s ->].
    destruct Hop as [<-|[<-|[<-|[<-|[<-|[<-|[<-|[<-|[]]]]]]]]]; try (apply text_ok; set_solver).
    + apply matches_ok; [done|]. fits_by Hc.
    + apply in_ok; [done|]. fits_by Hc.
    + apply (negate_ok OperatorNotIn), in_ok; [done|]. fits_by Hc.
  - assert (Hf : op <> OperatorIn -> op <> OperatorNotIn -> fits w ValueTypeNumber).
    { intros H1 H2. destruct Hc as [Hc|Hc]; [by left|right]. unfold isCompatibleType in Hc.
      apply String.eqb_neq in H1, H2. rewrite H1, H2 in Hc. cbn [orb] in Hc.
      destruct (String.eqb op OperatorContains); by apply String.eqb_eq in Hc. }
    destruct Hop as [<-|[<-|[<-|[<-|[<-|[<-|[<-|[<-|[]]]]]]]]]; try (apply text_ok; set_solver);
      try (apply numeric_ok; [done|by apply Hf|done]).
    + apply in_ok; [done|]. fits_by Hc.
    + apply (negate_ok OperatorNotIn), in_ok; [done|]. fits_by Hc.
  - destruct Hop as [<-|[<-|[]]]; apply text_ok; set_solver.
Qed.
End operators.

(** ** Conditions *)

(** No value of the tree is a variable. *)
Fixpoint literal (cond : ConditionNode) : bool :=
  match cn_Value cond with Some w => IsLiteral w | None => true end &&
  forallb (fun o : option ConditionNode => match o with Some child => literal child | None => true end) (Children cond).

Section conditions.
Context `{MapRange} `{Fmt} `{GoStd} `{TimeZones}.
Context (m : DefaultMatcher) (c : EvaluationContext) (env : Env) (policy : Policy) (name : string).

Definition outcome_ok (l : bool) (r : Matched) : Prop :=
  match r with MOk _ => True | MErr e => foreseen l e | MPanic => False end.

Definition node_ok (cond : ConditionNode) : Prop :=
  forall i, outcome_ok (literal cond) (fst (match_node m c cond env i)).

Lemma simple_ok field op w :
  let cond := mkConditionNode ConditionTypeSimple field op (Some w) "" [] [] in
  value_built w -> validateCondition policy name cond = Some [] -> node_ok cond.
Proof using.
  intros cond Hw Hs i. cbn -[matchSimple literal]. change (validateSimpleCondition policy cond name = Some []) in Hs.
  unfold validateSimpleCondition in Hs. cbn [cond Field Operator cn_Value] in Hs.
  destruct (LookupField field) as [f|] eqn:Hf.
  2: { by destruct (SuggestFieldName_some field GetAllFieldPaths) as [? Hx]; rewrite Hx in Hs. }
  apply eapp_nil in Hs as [Hop%err_sug_nil%negb_false_iff Hs].
  unfold matchSimple. cbn [cond Field Operator cn_Value].
  destruct (extractField field c) as [v|] eqn:He; [|by repeat case_match].
  destruct (model_path_sound (split_dot field) f Hf c) as [_ Ht]. specialize (Ht v He).
  assert (Hc : vn_Type w = ValueTypeVariable \/ isCompatibleType (vn_Type w) (fi_Type f) op = true).
  { destruct (String.eqb_spec (vn_Type w) ValueTypeVariable); [by left|right]. by apply err_nil, negb_false_iff in Hs. }
  pose proof (operator_ok _ _ _ _ Ht Hop Hw Hc) as Hok. unfold op_ok in Hok.
  destruct (evaluateOperator op v (vn_Value w)); [done|]. simpl. by rewrite andb_true_r.
Qed.

Lemma function_ok fn args :
  let cond := mkConditionNode ConditionTypeFunction "" "" None fn args [] in
  validateCondition policy name cond = Some [] -> node_ok cond.
Proof using.
  intros cond Hs i. cbn in Hs. cbn -[matchFunction]. unfold validateFunctionCondition in Hs. cbn [Function] in Hs.
  destruct (supportedFunctions !! fn) as [sig|] eqn:Hfn.
  2: { by destruct (SuggestFieldName_some fn (range supportedFunctions).*1) as [? Hx]; rewrite Hx in Hs. }
  unfold supportedFunctions in Hfn. rewrite assoc_list_to_map in Hfn. cbn [assoc] in Hfn. unfold matchFunction.
  destruct (String.eqb_spec fn "has_pii"); [done|]. destruct (String.eqb_spec fn "has_injection"); [done|].
  destruct (String.eqb_spec fn "in_business_hours") as [->|]; [done|]. simpl.
  repeat (match goal with Hx : (if String.eqb fn ?s then _ else _) = _ |- _ =>
    destruct (String.eqb_spec fn s) as [->|]; [set_solver|] end). done.
Qed.

Lemma all_ok l children i :
  Forall (fun o => forall j, outcome_ok l (fst (run_child m c o env j))) children ->
  outcome_ok l (fst (matchAll (run_child m c) children env i)).
Proof using.
  intros Hc. revert i. induction Hc as [|o children Ho _ IH]; intros i; [done|].
  cbn [matchAll]. unfold rbind, poll, rret. destruct (done env i); [done|].
  specialize (Ho (S i)). destruct (run_child m c o env (S i)) as [[[]|e|] j]; try done; apply IH.
Qed.

Lemma any_ok l children i :
  Forall (fun o => forall j, outcome_ok l (fst (run_child m c o env j))) children ->
  outcome_ok l (fst (matchAny (run_child m c) children env i)).
Proof using.
  intros Hc. revert i. induction Hc as [|o children Ho _ IH]; intros i; [done|].
  cbn [matchAny]. unfold rbind, poll, rret. destruct (done env i); [done|].
  specialize (Ho (S i)). destruct (run_child m c o env (S i)) as [[[]|e|] j]; try done; apply IH.
Qed.

Lemma literal_children ty children child :
  child ∈ children -> literal (mkConditionNode ty "" "" None "" [] (Some <$> children)) = true -> literal child = true.
Proof using.
  intros Hin. cbn [literal cn_Value Children andb]. intros Hl. rewrite forallb_forall in Hl.
  apply (Hl (Some child)), list_elem_of_In, list_elem_of_fmap. eauto.
Qed.

Lemma condition_ok cond d :
  canonical cond -> validateConditionStructure name d cond = Some [] -> validateCondition policy name cond = Some [] ->
  node_ok cond.
Proof using.
  intros Hc. revert d. induction Hc as [field op w Hw|fn args Ha|ty children Ht _ IH] using canonical_nested_ind;
    intros d Hst Hse; [by apply simple_ok|by apply function_ok|].
  assert (Hch : validateConditionStructure name d (mkConditionNode ty "" "" None "" [] (Some <$> children)) = Some [] ->
    Forall (fun c => validateConditionStructure name (d + 1) c = Some []) children /\
    (ty = ConditionTypeNot -> length children = 1%nat)).
  { cbn [validateConditionStructure cn_Type Children]. case_match; [done|].
    rewrite !elem_of_cons, elem_of_nil in Ht. destruct Ht as [->|[->|[->|[]]]]; cbn [String.eqb Ascii.eqb Bool.eqb orb];
      intros [Hn Hcs%children_nil]%eapp_nil; (split; [done|]); try done.
    intros _. apply err_nil, negb_false_iff, Z.eqb_eq in Hn. rewrite length_fmap in Hn. lia. }
  destruct (Hch Hst) as [Hst' Hnot]. clear Hch Hst.
  assert (Hse' : Forall (fun c => validateCondition policy name c = Some []) children).
  { rewrite !elem_of_cons, elem_of_nil in Ht. apply children_nil. by destruct Ht as [->|[->|[->|[]]]]. }
  set (l := literal (mkConditionNode ty "" "" None "" [] (Some <$> children))).
  assert (Hall : Forall (fun o => forall j, outcome_ok l (fst (run_child m c o env j))) (Some <$> children)).
  { apply Forall_fmap, Forall_forall. intros child Hin j. rewrite Forall_forall in IH, Hst', Hse'.
    specialize (IH child Hin _ (Hst' child Hin) (Hse' child Hin) j). cbn [compose run_child].
    destruct (fst (match_node m c child env j)); try done.
    by apply (foreseen_mono (literal child)); [apply (literal_children ty children child Hin)|]. }
  intros i. rewrite !elem_of_cons, elem_of_nil in Ht.
  destruct Ht as [->|[->|[->|[]]]]; cbn -[matchAll matchAny matchNot literal]; fold (run_child m c); fold l.
  - by apply all_ok.
  - by apply any_ok.
  - specialize (Hnot eq_refl). destruct children as [|child [|]]; try done. simpl in Hall |- *.
    apply Forall_cons in Hall as [Hall _]. unfold rbind, rret.
    specialize (Hall i). cbn [run_child] in Hall. destruct (match_node m c child env i) as [[] j]; done.
Qed.
End conditions.

(** ** Accepted policies *)

Section accepted.
Context `{MapRange} `{Fmt}.

Lemma validateActionStructures_nil actions ruleName i :
  validateActionStructures actions ruleName i = Some [] -> Forall (fun a => a_Type a ∈ validActionTypes) actions.
Proof using.
  revert i. induction actions as [|a actions IH]; intros i; cbn [validateActionStructures]; [done|].
  intros [Ha Hr]%eapp_nil. constructor; [|by eapply IH]. unfold validateActionStructure in Ha.
  apply eapp_nil in Ha as [_ Ha]. destruct (among validActionTypes (a_Type a)) eqn:E; [by apply among_elem|].
  cbn [negb] in Ha. by destruct (SuggestActionType_some (a_Type a) validActionTypes) as [? Hx]; rewrite Hx in Ha.
Qed.

(** What the structural pass shows of a rule. *)
Definition rule_accepted (r : Rule) : Prop :=
  r_Name r <> "" /\ Actions r <> [] /\ Forall (fun a => a_Type a ∈ validActionTypes) (Actions r) /\
  exists cond, Conditions r = Some cond /\ validateConditionStructure (r_Name r) 0 cond = Some [].

Lemma validateRules_nil rules i seen :
  validateRules rules i seen = Some [] ->
  Forall rule_accepted rules /\ NoDup (r_Name <$> rules) /\ forall r, r ∈ rules -> r_Name r ∉ seen.
Proof using.
  revert i seen. induction rules as [|r rules IH]; intros i seen; cbn [validateRules].
  { intros _. split; [done|]. split; [constructor|]. set_solver. }
  destruct (String.eqb_spec (r_Name r) "") as [|Hn]; [by intros [? _]%eapp_nil|].
  intros [Hr Hrest]%eapp_nil. destruct (IH _ _ Hrest) as (Hall & Hnd & Hseen). unfold validateRule in Hr.
  apply eapp_nil in Hr as [Hdup%err_nil%bool_decide_eq_false Hr]. apply eapp_nil in Hr as [Hcn%err_nil Hr].
  apply eapp_nil in Hr as [Ha%err_sug_nil Hr]. apply eapp_nil in Hr as [Hc Hacts].
  split; [|split].
  - constructor; [|done]. split; [done|]. split; [by intros E; rewrite E in Ha|].
    split; [by eapply validateActionStructures_nil|]. by destruct (Conditions r); [eauto|].
  - simpl. constructor; [|done]. intros (r' & Hn' & Hin)%list_elem_of_fmap. specialize (Hseen r' Hin). set_solver.
  - intros r' [->|Hin]%elem_of_cons; [done|]. specialize (Hseen r' Hin). set_solver.
Qed.
End accepted.

Lemma accepted_rule `{MapRange} `{Fmt} p r :
  Validate p = Some None -> r ∈ Rules p ->
  rule_accepted r /\ validateRuleActions r = Some [] /\
  (forall cond, Conditions r = Some cond -> validateCondition p (r_Name r) cond = Some []).
Proof.
  intros (Hst & Hse & Hac)%Validate_accepts Hin.
  apply eapp_nil in Hst as [_ Hst]. apply eapp_nil in Hst as [_ Hst]. apply validateRules_nil in Hst as [Hst _].
  rewrite Forall_forall in Hst. split; [by apply Hst|]. unfold action_Validate in Hac. rewrite esum_nil in Hac.
  split; [by apply Hac|]. intros cond Hc. apply eapp_nil in Hse as [_ Hse]. rewrite esum_nil in Hse.
  specialize (Hse r Hin). by rewrite Hc in Hse.
Qed.

Lemma budget_action_rejected `{MapRange} `{Fmt} a name :
  action_built a -> a_Type a = ActionTypeBudget -> validateAction a name <> Some [].
Proof.
  intros [Ht _] Ha. unfold validateAction. rewrite Ha. cbn [String.eqb Ascii.eqb Bool.eqb ActionTypeBudget
    ActionTypeAllow ActionTypeDeny ActionTypeLog ActionTypeRedact ActionTypeModify ActionTypeRoute ActionTypeAlert
    ActionTypeRateLimit]. intros [Hr _]%eapp_nil. unfold required, GetParameter in Hr. by rewrite Ht in Hr.
Qed.

(** Validation of a policy that was read from a file never panics, and no policy
    with a 'budget' action is accepted: the parameter 'type' that the action
    needs is the key that holds the action's own type. *)
Theorem parsed_policy_validates `{MapRange} `{Fmt} parseTime files parser path p :
  Parse parseTime files parser path = Some (Ok p) ->
  (exists result, Validate p = Some result) /\
  (forall r a, r ∈ Rules p -> a ∈ Actions r -> a_Type a = ActionTypeBudget -> Validate p <> Some None).
Proof.
  intros Hp%Parse_built. split; [by apply Validate_some|]. intros r a Hr Ha Hb Hv.
  destruct (accepted_rule p r Hv Hr) as (_ & Hact & _). apply eapp_nil in Hact as [_ Hact].
  rewrite esum_nil in Hact. specialize (Hact a Ha). destruct Hp as [Hrules _]. rewrite Forall_forall in Hrules.
  destruct (Hrules r Hr) as [_ Hacts]. rewrite Forall_forall in Hacts.
  by apply (budget_action_rejected a (r_Name r) (Hacts a Ha) Hb).
Qed.

(** C3: the engine runs accepted policies without surprises.  For a policy read from a
    file and accepted by the validator, the evaluation of the conditions of any of
    its rules, in any context and however it is interrupted, gives a truth value or
    one of these errors: the field is missing, the evaluation was cancelled, the
    pattern of a 'matches' condition does not compile, the function is one of the
    five that only the validator knows, or (only if a value is a variable) the
    variable's text is not a number or a list.  It never panics and never meets an
    unknown operator or condition type or a negation without exactly one part. *)
Theorem accepted_policy_evaluates `{MapRange} `{Fmt} `{GoStd} `{TimeZones} parseTime files parser path p r matcher c env i :
  Parse parseTime files parser path = Some (Ok p) -> Validate p = Some None -> r ∈ Rules p ->
  exists cond, Conditions r = Some cond /\
    outcome_ok (literal cond) (fst (Match matcher (Conditions r) c env i)).
Proof.
  intros Hp%Parse_built Hv Hr. destruct (accepted_rule p r Hv Hr) as ((_ & _ & _ & cond & Hc & Hst) & _ & Hse).
  exists cond. split; [done|]. rewrite Hc. cbn [Match]. destruct Hp as [Hrules _]. rewrite Forall_forall in Hrules.
  destruct (Hrules r Hr) as [Hcan _]. rewrite Hc in Hcan.
  exact (condition_ok matcher c env p (r_Name r) cond 0 Hcan Hst (Hse cond Hc) i).
Qed.

(** ** A policy file *)

Definition deny_large : yamlRule :=
  mkYamlRule "deny-large" "" None
    (VMap any_map [("all", VSlice any_slice [
       VMap any_map [("field", VString "request.max_tokens"); ("operator", VString ">"); ("value", VInt KInt 4000)];
       VMap any_map [("field", VString "request.model"); ("operator", VString "in");
         ("value", VSlice any_slice [VString "gpt-4"; VString "gpt-4o"])]])])
    [list_to_map [("type", VString "deny"); ("message", VString "too large")]] 0.

Definition one_policy (rule : yamlRule) : Files :=
  mkFiles (fun _ => Ok 100) (fun _ => Ok "document")
    (fun _ => Ok (mkYamlPolicy "1.0" "limits" "1.0.0" "" "" "" "" [] ∅ [rule] [] []))
    (Ok "/") (fun _ => Ok []).

Definition budget_rule : yamlRule :=
  mkYamlRule "spend" "" None (yr_Conditions deny_large)
    [list_to_map [("type", VString "budget"); ("limit", VInt KInt 10)]] 0.

Definition parse_one (rule : yamlRule) : Parsed :=
  Parse (H := some_range) (H0 := bare_fmt) (fun _ => None) (one_policy rule) NewParser "limits.yaml".

Definition parsed_one (rule : yamlRule) : Policy :=
  match parse_one rule with
  | Some (Ok p) => p
  | _ => mkPolicy "" "" "" "" "" 0 0 [] ∅ [] [] ""
  end.

Lemma accepted_fields_typed_witness :
  extractField "request.max_tokens" full_context = Some (vint 100) /\
  extractField "response.finish_reason" (request_context pii_request) = None /\
  split_dot "request.max_tokens" ∈ readable.
Proof.
  destruct (LookupField "request.max_tokens") as [f|] eqn:Hf; [|vm_compute in Hf; discriminate Hf].
  destruct (LookupField "response.finish_reason") as [g|] eqn:Hg; [|vm_compute in Hg; discriminate Hg].
  pose proof (accepted_fields_typed "request.max_tokens" f Hf) as (E & _ & R & _).
  pose proof (accepted_fields_typed "response.finish_reason" g Hg) as (E' & _).
  split; [rewrite E; reflexivity|]. split; [rewrite E'; reflexivity|].
  apply R. exists full_context, (vint 100). rewrite E. reflexivity.
Defined.

Lemma parsed_policy_validates_witness :
  (exists result, Validate (H := some_range) (H0 := bare_fmt) (parsed_one budget_rule) = Some result) /\
  Validate (H := some_range) (H0 := bare_fmt) (parsed_one budget_rule) <> Some None.
Proof.
  destruct (parsed_policy_validates (H := some_range) (H0 := bare_fmt) (fun _ => None) (one_policy budget_rule) NewParser
    "limits.yaml" (parsed_one budget_rule)) as [Hr Hb]; [vm_compute; reflexivity|].
  split; [exact Hr|]. eapply Hb; [left|left|reflexivity].
Defined.

Definition deny_rule : option Rule := Eval vm_compute in head (Rules (parsed_one deny_large)).

Lemma accepted_policy_evaluates_witness :
  exists r, deny_rule = Some r /\ r ∈ Rules (parsed_one deny_large) /\
    Validate (H := some_range) (H0 := bare_fmt) (parsed_one deny_large) = Some None /\
    exists cond, Conditions r = Some cond /\
      outcome_ok (literal cond) (fst (Match (H := plain_std) (H0 := no_zones) (NewDefaultMatcher None) (Conditions r)
        (request_context pii_request) (mkEnv (fun _ => 0) (fun _ => false)) 0%nat)).
Proof.
  assert (Hv : Validate (H := some_range) (H0 := bare_fmt) (parsed_one deny_large) = Some None)
    by (vm_compute; reflexivity).
  assert (Hr : exists r, deny_rule = Some r /\ Rules (parsed_one deny_large) = [r])
    by (eexists; split; [reflexivity|vm_compute; reflexivity]).
  destruct Hr as (r & Hd & Hr). exists r. split; [exact Hd|].
  assert (Hin : r ∈ Rules (parsed_one deny_large)) by (rewrite Hr; left). split; [exact Hin|]. split; [exact Hv|].
  refine (accepted_policy_evaluates (H := some_range) (H0 := bare_fmt) (H1 := plain_std) (H2 := no_zones)
    (fun _ => None) (one_policy deny_large) NewParser "limits.yaml" (parsed_one deny_large) r (NewDefaultMatcher None)
    (request_context pii_request) (mkEnv (fun _ => 0) (fun _ => false)) 0%nat _ Hv Hin).
  vm_compute; reflexivity.
Defined.
