(* ===== verification/ProviderHttp.v ===== *)
(** * The HTTP base of the provider clients ([pkg/providers/http_provider.go],
    [health.go])

    Requests with retries and backoff, the health record that works as a circuit
    breaker, and the background health checker.  The network, the clock and the
    context are read through [Net]: the [i]-th reading of an operation is taken at
    position [i] of its oracles.  [HState] carries the provider, the number of
    readings so far and the trace of what was sent and waited for.

    [DoRequest] makes at most [MaxRetries + 1] attempts; the recursion counts
    exactly those. *)

From Stdlib Require Import ZArith Lia Ascii.
From stdpp Require Import base option list strings gmap.
From S2P Require Import Prelude Float64 GoValue ProviderTypes.
Local Open Scope Z_scope.

(** ** Data *)

Record ProviderConfig := mkProviderConfig {
  pc_Name : string;
  pc_Type : string;
  pc_BaseURL : string;
  pc_APIKey : string;
  pc_Timeout : Duration;
  pc_MaxRetries : Z;
  pc_HealthCheckInterval : Duration;
  pc_MaxIdleConns : Z;
  pc_MaxIdleConnsPerHost : Z;
  pc_IdleConnTimeout : Duration;
}.

Record ProviderHealth := mkProviderHealth {
  ph_IsHealthy : bool;
  ph_LastCheck : Time;
  ph_LastError : option GoErr;
  ph_ConsecutiveFailures : Z;
  ph_LastSuccessfulRequest : Time;
  ph_TotalRequests : Z;
  ph_FailedRequests : Z;
}.

(** [hp_closed]: the channel [stopHealthCheck] is closed. *)
Record HTTPProvider := mkHTTPProvider {
  hp_config : ProviderConfig;
  hp_health : ProviderHealth;
  hp_closed : bool;
}.

(** A response: status, headers by canonical name, and what [io.ReadAll] of the
    body gives. *)
Record HttpResponse := mkHttpResponse {
  hr_StatusCode : Z;
  hr_Header : string -> string;
  hr_Body : string;
  hr_BodyErr : option string;
}.

Record HttpCall := mkHttpCall {
  hq_Method : string;
  hq_URL : string;
  hq_Body : option string;
  hq_Headers : gmap string string;
}.

(** [p.client.Do(req)] *)
Inductive Exchange :=
| NetFail (err : GoErr)
| Answer (resp : HttpResponse).

(** What the environment answers: the clock, [ctx.Err()], the [select] of a
    backoff (an error when the context ends first), the error of
    [http.NewRequestWithContext], the exchange with the server, and
    [http.ParseTime]. *)
Record Net := mkNet {
  net_now : nat -> Time;
  net_ctx : nat -> option GoErr;
  net_wait : nat -> Duration -> option GoErr;
  net_build : string -> string -> option string;
  net_do : nat -> HttpCall -> Exchange;
  net_ParseTime : string -> option Time;
}.

Inductive HEvent := Sent (q : HttpCall) (e : Exchange) | Waited (d : Duration).

Record HState := mkHState {
  hs_p : HTTPProvider;
  hs_tick : nat;
  hs_trace : list HEvent;
}.

Definition Http (A : Type) : Type := Net -> HState -> A * HState.
Definition hret {A} (a : A) : Http A := fun _ s => (a, s).
Definition hbind {A B} (m : Http A) (f : A -> Http B) : Http B := fun w s => let '(a, s) := m w s in f a w s.

Declare Scope http_scope.
Delimit Scope http_scope with http.
Notation "x <~ m ; f" := (hbind m (fun x => f)) (at level 20, m at level 100, f at level 200, right associativity) : http_scope.
Notation "m ;; f" := (hbind m (fun _ => f)) (at level 100, f at level 200, right associativity) : http_scope.
Local Open Scope http_scope.

(** One reading of the environment. *)
Definition reading {A} (f : Net -> nat -> A) : Http A :=
  fun w s => (f w (hs_tick s), mkHState (hs_p s) (S (hs_tick s)) (hs_trace s)).

Definition hnow : Http Time := reading net_now.
Definition ctx_err : Http (option GoErr) := reading net_ctx.

Definition emit (e : HEvent) : Http unit :=
  fun _ s => (tt, mkHState (hs_p s) (hs_tick s) (hs_trace s ++ [e])).

Definition exchange (q : HttpCall) : Http Exchange :=
  e <~ reading (fun w i => net_do w i q);
  emit (Sent q e) ;; hret e.

Definition wait_for (d : Duration) : Http (option GoErr) := emit (Waited d) ;; reading (fun w i => net_wait w i d).

Definition get_config : Http ProviderConfig := fun _ s => (hp_config (hs_p s), s).
Definition get_health : Http ProviderHealth := fun _ s => (hp_health (hs_p s), s).
Definition set_health (h : ProviderHealth) : Http unit :=
  fun _ s => (tt, mkHState (mkHTTPProvider (hp_config (hs_p s)) h (hp_closed (hs_p s))) (hs_tick s) (hs_trace s)).

(** ** Construction and health *)

(** The two readings of the clock are [now1] and [now2]. *)
Definition NewHTTPProvider (config : ProviderConfig) (now1 now2 : Time) : HTTPProvider :=
  mkHTTPProvider config (mkProviderHealth true now1 None 0 now2 0 0) false.

Definition unhealthy_after : Z := 3.

Definition updateHealth (success : bool) (err : option GoErr) : Http unit :=
  h <~ get_health;
  t <~ hnow;
  if success then
    t' <~ hnow;
    set_health (mkProviderHealth true t None 0 t' (ph_TotalRequests h) (ph_FailedRequests h))
  else
    let failures := add64 (ph_ConsecutiveFailures h) 1 in
    set_health (mkProviderHealth (if unhealthy_after <=? failures then false else ph_IsHealthy h) t err failures
                  (ph_LastSuccessfulRequest h) (ph_TotalRequests h) (ph_FailedRequests h)).

Definition recordRequest (success : bool) : Http unit :=
  h <~ get_health;
  set_health (mkProviderHealth (ph_IsHealthy h) (ph_LastCheck h) (ph_LastError h) (ph_ConsecutiveFailures h)
                (ph_LastSuccessfulRequest h) (add64 (ph_TotalRequests h) 1)
                (if negb success then add64 (ph_FailedRequests h) 1 else ph_FailedRequests h)).

(** ** Retry-After *)

Fixpoint skip_spaces (s : string) : string :=
  match s with
  | String " " s | String "009" s => skip_spaces s
  | _ => s
  end.

(** The digits at the front, in base ten; [None] without a digit. *)
Fixpoint leading_digits (s : string) (acc : option Z) : option Z :=
  match s with
  | String c s' =>
      let n := Z.of_N (N_of_ascii c) in
      if (48 <=? n) && (n <=? 57) then leading_digits s' (Some (10 * default 0 acc + (n - 48))) else acc
  | EmptyString => acc
  end.

(** [fmt.Sscanf(s, "%d", &n)]: blanks, a sign, digits; the rest is ignored. *)
Definition Sscanf_d (s : string) : option Z :=
  let '(neg, body) :=
    match skip_spaces s with
    | String "-" s => (true, s)
    | String "+" s => (false, s)
    | s => (false, s)
    end in
  n ← leading_digits body None;
  let v := if neg : bool then - n else n in
  if (min_int64 <=? v) && (v <=? max_int64) then Some v else None.

Definition parseRetryAfter (header : string) : Http Duration :=
  if String.eqb header "" then hret 0
  else match Sscanf_d header with
       | Some seconds => hret (mul64 seconds Second)
       | None =>
           fun w => match net_ParseTime w header with
                    | Some t => (n <~ hnow; hret (SubT t n)) w
                    | None => hret 0 w
                    end
       end.

(** ** Requests *)

(** [http.CanonicalHeaderKey] of a name of ASCII letters and hyphens. *)
Definition up (c : ascii) : ascii :=
  let n := N_of_ascii c in if (97 <=? n)%N && (n <=? 122)%N then ascii_of_N (n - 32) else c.
Definition down (c : ascii) : ascii :=
  let n := N_of_ascii c in if (65 <=? n)%N && (n <=? 90)%N then ascii_of_N (n + 32) else c.
Fixpoint canonical_key (upper : bool) (s : string) : string :=
  match s with
  | EmptyString => EmptyString
  | String c s => String (if upper then up c else down c) (canonical_key (Ascii.eqb c "-") s)
  end.
Definition CanonicalHeaderKey : string -> string := canonical_key true.

(** The headers of one attempt: [req.Header.Set] for each entry of the map. *)
Definition request_headers `{MapRange} (headers : gmap string string) (has_body : bool) : gmap string string :=
  let set := foldl (fun acc kv => <[CanonicalHeaderKey kv.1 := kv.2]> acc) (∅ : gmap string string) (range headers) in
  if String.eqb (default "" (set !! "Content-Type")) "" && has_body
  then <["Content-Type" := "application/json"]> set else set.

(** [time.Duration(math.Pow(2, float64(attempt-1))) * time.Second]; a power that
    does not fit converts to the least integer. *)
Definition retry_backoff (attempt : Z) : Duration :=
  mul64 (if attempt - 1 <=? 62 then 2 ^ (attempt - 1) else min_int64) Second.

(** [nil] response or error. *)
Definition Reply : Type := option HttpResponse * option GoErr.

(** What follows an exchange: the reply, or the error to remember before the next
    attempt. *)
Definition settle (config : ProviderConfig) (e : Exchange) : Http (Reply + GoErr) :=
  match e with
  | NetFail err =>
      recordRequest false ;;
      c <~ ctx_err;
      match c with
      | Some _ => hret (inl (None, Some (TimeoutErr (pc_Name config) (pc_Timeout config))))
      | None => hret (inr err)
      end
  | Answer resp =>
      let status := hr_StatusCode resp in
      if (200 <=? status) && (status <? 300) then
        recordRequest true ;; updateHealth true None ;; hret (inl (Some resp, None))
      else if (status =? 401) || (status =? 403) then
        recordRequest false ;; updateHealth false (Some (OtherError "authentication failed")) ;;
        hret (inl (None, Some (AuthError (pc_Name config) (hr_Body resp))))
      else if status =? 429 then
        recordRequest false ;;
        retryAfter <~ parseRetryAfter (hr_Header resp "Retry-After");
        hret (inl (None, Some (RateLimitError (pc_Name config) retryAfter (hr_Body resp))))
      else if status =? 400 then
        recordRequest false ;;
        hret (inl (None, Some (ProviderError (pc_Name config) status (hr_Body resp) None)))
      else
        recordRequest false ;;
        hret (inr (ProviderError (pc_Name config) status (hr_Body resp) None))
  end.

Section requests.
Context `{MapRange}.

(** The loop; [n] attempts are left. *)
Fixpoint attempts (n : nat) (attempt : Z) (lastErr : option GoErr) (method url : string) (body : option string)
    (headers : gmap string string) : Http Reply :=
  match n with
  | O => updateHealth false lastErr ;; hret (None, lastErr)
  | S n =>
      stopped <~ (if 0 <? attempt then wait_for (retry_backoff attempt) else hret None);
      match stopped with
      | Some err => hret (None, Some err)
      | None =>
          failed <~ (fun w s => (net_build w method url, s));
          match failed with
          | Some err => hret (None, Some (WrapError "failed to create request" (OtherError err)))
          | None =>
              config <~ get_config;
              e <~ exchange (mkHttpCall method url body (request_headers headers (bool_decide (is_Some body))));
              d <~ settle config e;
              match d with
              | inl reply => hret reply
              | inr err => attempts n (attempt + 1) (Some err) method url body headers
              end
          end
      end
  end.

Definition DoRequest (method url : string) (body : option string) (headers : gmap string string) : Http Reply :=
  config <~ get_config;
  attempts (Z.to_nat (pc_MaxRetries config + 1)) 0 None method url body headers.

(** [json.Marshal] of the request, [json.Unmarshal] into the response value: the
    codec of one pair of types; [respBody] is not nil in the callers.  The
    result is the decoded value ([None]: left as it was), an error, or a panic (a
    nil response that is read). *)
Definition DoJSONRequest {A} (method url : string) (reqBody : option (result string string))
    (decode : string -> result string A) (headers : gmap string string) : Http (option (result GoErr (option A))) :=
  config <~ get_config;
  match reqBody with
  | Some (Err err) => hret (Some (Err (WrapError "failed to marshal request" (OtherError err))))
  | _ =>
      let bodyBytes := match reqBody with Some (Ok b) => Some b | _ => None end in
      reply <~ DoRequest method url bodyBytes headers;
      match reply with
      | (_, Some err) => hret (Some (Err err))
      | (None, None) => hret None
      | (Some resp, None) =>
          match hr_BodyErr resp with
          | Some err =>
              hret (Some (Err (ParseError (pc_Name config) "" (Some (WrapError "failed to read response" (OtherError err))))))
          | None =>
              if 0 <? Z.of_nat (String.length (hr_Body resp)) then
                match decode (hr_Body resp) with
                | Ok a => hret (Some (Ok (Some a)))
                | Err err =>
                    hret (Some (Err (ParseError (pc_Name config) (hr_Body resp)
                      (Some (WrapError "failed to unmarshal response" (OtherError err))))))
                end
              else hret (Some (Ok None))
          end
      end
  end.

(** ** The health checker *)

Definition healthCheckImpl : Http Reply :=
  config <~ get_config;
  DoRequest "GET" (pc_BaseURL config) None
    (if negb (String.eqb (pc_APIKey config) "") then {[ "Authorization" := "Bearer " +:+ pc_APIKey config ]} else ∅).

(** [healthCheckImpl] closes the body of the response: with a nil response and a
    nil error it panics. *)
Definition HealthCheck : Http (option (option GoErr)) :=
  r <~ healthCheckImpl;
  match r with
  | (_, Some err) => hret (Some (Some err))
  | (None, None) => hret None
  | (Some _, None) => hret (Some None)
  end.

Definition performHealthCheck : Http (option unit) :=
  r <~ HealthCheck;
  match r with
  | None => hret None
  | Some (Some err) => updateHealth false (Some err) ;; hret (Some tt)
  | Some None => updateHealth true None ;; hret (Some tt)
  end.

Definition max_backoff : Duration := 5 * Minute.

(** [1 << uint(n)] on 64-bit integers *)
Definition shl1 (n : Z) : Z := if 64 <=? n then 0 else wrap64 (2 ^ n).

Definition calculateBackoff (consecutiveFailures : Z) (baseInterval : Duration) : Duration :=
  if consecutiveFailures <=? 0 then baseInterval
  else
    let multiplier := shl1 consecutiveFailures in
    let multiplier := if 10 <? multiplier then 10 else multiplier in
    let backoff := mul64 baseInterval multiplier in
    if max_backoff <? backoff then max_backoff else backoff.

Definition checker_interval (config : ProviderConfig) : Duration :=
  if pc_HealthCheckInterval config =? 0 then 30 * Second else pc_HealthCheckInterval config.

(** The background loop: waiting for the ticker (with its period), stopped, or
    ended by a panic ([Ticker.Reset] and [NewTicker] need a positive period). *)
Inductive Checker :=
| CRunning (period : Duration)
| CStopped
| CPanicked.

Definition with_period (d : Duration) : Checker := if 0 <? d then CRunning d else CPanicked.

Definition start_checker : Http Checker := config <~ get_config; hret (with_period (checker_interval config)).

(** One round of the loop, at a tick. *)
Definition checker_tick : Http Checker :=
  config <~ get_config;
  done <~ performHealthCheck;
  match done with
  | None => hret CPanicked
  | Some _ =>
      health <~ get_health;
      if negb (ph_IsHealthy health) then
        hret (with_period (calculateBackoff (ph_ConsecutiveFailures health) (checker_interval config)))
      else hret (with_period (checker_interval config))
  end.

Inductive Select := SDone | SStop | STick.

Definition checker_step (choice : Select) (c : Checker) : Http Checker :=
  match c with
  | CRunning _ => match choice with SDone | SStop => hret CStopped | STick => checker_tick end
  | _ => hret c
  end.

(** [Close]: a second call closes a closed channel and panics ([None]). *)
Definition hp_Close (p : HTTPProvider) : option HTTPProvider :=
  if hp_closed p then None else Some (mkHTTPProvider (hp_config p) (hp_health p) true).
End requests.

(** ** What a request does *)

(** [2^(a-1)] seconds in nanoseconds, as a 64-bit integer: exact for [a <= 34]. *)
Definition backoff_ns (a : Z) : Duration := wrap64 (2 ^ (a - 1) * 1000000000).

Lemma backoff_ns_exact a : 1 <= a <= 34 -> backoff_ns a = 2 ^ (a - 1) * Second.
Proof.
  intros Ha. unfold backoff_ns, Second. apply wrap64_id.
  assert (2 ^ (a - 1) <= 2 ^ 33) by (apply Z.pow_le_mono_r; lia).
  assert (0 < 2 ^ (a - 1)) by (apply Z.pow_pos_nonneg; lia). unfold64. lia.
Qed.

Lemma retry_backoff_ns a : 1 <= a -> retry_backoff a = backoff_ns a.
Proof.
  intros Ha. unfold retry_backoff, backoff_ns, mul64, Second. destruct (Z.leb_spec (a - 1) 62); [done|].
  replace (2 ^ (a - 1)) with (2 ^ (a - 64) * 2 ^ 63) by (rewrite <- Z.pow_add_r by lia; f_equal; lia).
  unfold wrap64, min_int64. f_equal.
  replace (- 2 ^ 63 * 1000000000 + 2 ^ 63) with (2 ^ 63 + (- 500000000) * 2 ^ 64) by lia.
  replace (2 ^ (a - 64) * 2 ^ 63 * 1000000000 + 2 ^ 63) with (2 ^ 63 + (2 ^ (a - 64) * 500000000) * 2 ^ 64) by lia.
  by rewrite !Z_mod_plus_full.
Qed.

(** The trace of exchanges from attempt number [a]: a wait before each one but
    the first of all. *)
Fixpoint attempt_trace (q : HttpCall) (a : Z) (es : list Exchange) : list HEvent :=
  match es with
  | [] => []
  | e :: es => ((if 0 <? a then [Waited (backoff_ns a)] else []) ++ Sent q e :: attempt_trace q (a + 1) es)%list
  end.

Definition accepted_status (status : Z) : Prop := 200 <= status < 300.

(** Exchanges after which the request is repeated. *)
Definition retryable (e : Exchange) : Prop :=
  match e with
  | NetFail _ => True
  | Answer r => ~ accepted_status (hr_StatusCode r) /\ hr_StatusCode r ∉ [400; 401; 403; 429]
  end.

Definition failure (config : ProviderConfig) (e : Exchange) : GoErr :=
  match e with
  | NetFail err => err
  | Answer r => ProviderError (pc_Name config) (hr_StatusCode r) (hr_Body r) None
  end.

(** What a request says about the provider. *)
Inductive Verdict := Worked | Broken | Unknown.

(** How a request of at most [n] attempts ends, after which exchanges. *)
Inductive ended (config : ProviderConfig) (n : nat) (es : list Exchange) : list Exchange -> Verdict -> Reply -> Prop :=
| end_ok resp : accepted_status (hr_StatusCode resp) ->
    ended config n es (es ++ [Answer resp]) Worked (Some resp, None)
| end_auth resp : hr_StatusCode resp ∈ [401; 403] ->
    ended config n es (es ++ [Answer resp]) Broken (None, Some (AuthError (pc_Name config) (hr_Body resp)))
| end_rate resp d : hr_StatusCode resp = 429 ->
    ended config n es (es ++ [Answer resp]) Unknown (None, Some (RateLimitError (pc_Name config) d (hr_Body resp)))
| end_request resp : hr_StatusCode resp = 400 ->
    ended config n es (es ++ [Answer resp]) Unknown (None, Some (ProviderError (pc_Name config) 400 (hr_Body resp) None))
| end_context err : (length es < n)%nat ->
    ended config n es (es ++ [NetFail err]) Unknown (None, Some (TimeoutErr (pc_Name config) (pc_Timeout config)))
| end_wait err : es <> [] -> (length es < n)%nat -> ended config n es es Unknown (None, Some err)
| end_build err : (length es < n)%nat ->
    ended config n es es Unknown (None, Some (WrapError "failed to create request" (OtherError err)))
| end_exhausted : length es = n -> ended config n es es Broken (None, failure config <$> last es).

(** [k] increments of a 64-bit counter. *)
Definition bump64 (k : nat) (n : Z) : Z := Nat.iter k (fun n => add64 n 1) n.

Definition worked (v : Verdict) : nat := match v with Worked => 1 | _ => 0 end.

(** The counters after [k] exchanges with a verdict. *)
Definition counted (h h' : ProviderHealth) (k : nat) (v : Verdict) : Prop :=
  ph_TotalRequests h' = bump64 k (ph_TotalRequests h) /\
  ph_FailedRequests h' = bump64 (k - worked v) (ph_FailedRequests h) /\
  match v with
  | Worked => ph_ConsecutiveFailures h' = 0 /\ ph_IsHealthy h' = true
  | Broken => ph_ConsecutiveFailures h' = add64 (ph_ConsecutiveFailures h) 1 /\
      ph_IsHealthy h' = (if 3 <=? add64 (ph_ConsecutiveFailures h) 1 then false else ph_IsHealthy h)
  | Unknown => ph_ConsecutiveFailures h' = ph_ConsecutiveFailures h /\ ph_IsHealthy h' = ph_IsHealthy h
  end.

Lemma bump64_bump64 k l n : bump64 k (bump64 l n) = bump64 (k + l) n.
Proof. unfold bump64. by rewrite Nat.iter_add. Qed.

Lemma bump64_wrap k n : wrap64 n = n -> bump64 k n = wrap64 (n + Z.of_nat k).
Proof.
  intros Hn. unfold bump64. induction k as [|k IH]; [cbn; by rewrite Z.add_0_r|].
  rewrite Nat.iter_succ, IH. unfold add64. rewrite wrap64_add_l. f_equal. lia.
Qed.

Lemma counted_trans h h' h'' k v : counted h h' k Unknown -> counted h' h'' 1 v -> counted h h'' (k + 1) v.
Proof.
  intros (Ht & Hf & Hu1 & Hu2) (Hh1 & Hh2 & Hh3). unfold counted. rewrite Hh1, Hh2, Ht, Hf, !bump64_bump64.
  split; [f_equal; lia|]. split; [f_equal; destruct v; cbn; lia|]. rewrite <- Hu1, <- Hu2. done.
Qed.

Lemma attempt_trace_snoc q a es e :
  attempt_trace q a (es ++ [e]) =
  (attempt_trace q a es ++ (if 0 <? a + Z.of_nat (length es) then [Waited (backoff_ns (a + Z.of_nat (length es)))] else [])
    ++ [Sent q e])%list.
Proof.
  revert a. induction es as [|x es IH]; intros a; simpl; [by rewrite Z.add_0_r|].
  rewrite IH. replace (a + 1 + Z.of_nat (length es)) with (a + Z.of_nat (S (length es))) by lia.
  by rewrite <- !(assoc_L (++)%list).
Qed.

(** The trace of a request, with the last wait when it was interrupted. *)
Definition traced (q : HttpCall) (es : list Exchange) (tr : list HEvent) : Prop :=
  tr = attempt_trace q 0 es \/
  (es <> [] /\ tr = (attempt_trace q 0 es ++ [Waited (backoff_ns (Z.of_nat (length es)))])%list).

Section spec.
Context `{MapRange} (method url : string) (body : option string) (headers : gmap string string).

Definition the_call : HttpCall :=
  mkHttpCall method url body (request_headers headers (bool_decide (is_Some body))).

(** The state after the exchanges [es] of a request that started in [s0]. *)
Record after (s0 s : HState) (es : list Exchange) (v : Verdict) : Prop := {
  af_config : hp_config (hs_p s) = hp_config (hs_p s0);
  af_closed : hp_closed (hs_p s) = hp_closed (hs_p s0);
  af_trace : exists tr, traced the_call es tr /\ hs_trace s = (hs_trace s0 ++ tr)%list;
  af_health : counted (hp_health (hs_p s0)) (hp_health (hs_p s)) (length es) v;
}.

(** Before an attempt: the wait, when it is not the first one. *)
Definition waits (es : list Exchange) : list HEvent :=
  if 0 <? Z.of_nat (length es) then [Waited (backoff_ns (Z.of_nat (length es)))] else [].

(** One more exchange, then a verdict. *)
Lemma after_snoc s0 s s' es e v :
  after s0 s es Unknown -> hs_trace s = (hs_trace s0 ++ attempt_trace the_call 0 es)%list ->
  hp_config (hs_p s') = hp_config (hs_p s) -> hp_closed (hs_p s') = hp_closed (hs_p s) ->
  hs_trace s' = ((hs_trace s ++ waits es) ++ [Sent the_call e])%list ->
  counted (hp_health (hs_p s)) (hp_health (hs_p s')) 1 v ->
  after s0 s' (es ++ [e]) v /\ hs_trace s' = (hs_trace s0 ++ attempt_trace the_call 0 (es ++ [e]))%list.
Proof using.
  intros [Hc Hcl _ Hk] Htr Hc' Hcl' Htr' Hk'.
  assert (Htr1 : hs_trace s' = (hs_trace s0 ++ attempt_trace the_call 0 (es ++ [e]))%list).
  { rewrite Htr', attempt_trace_snoc, Htr. unfold waits. rewrite Z.add_0_l. by rewrite <- !(assoc_L (++)%list). }
  split; [|done]. split; [by rewrite Hc'|by rewrite Hcl'| |].
  - eexists. split; [by left|done].
  - rewrite length_app. by eapply counted_trans.
Qed.

(** A wait that is followed by no exchange. *)
Lemma after_wait s0 s es tk :
  after s0 s es Unknown -> hs_trace s = (hs_trace s0 ++ attempt_trace the_call 0 es)%list ->
  after s0 (mkHState (hs_p s) tk (hs_trace s ++ waits es)%list) es Unknown.
Proof using.
  intros [Hc Hcl _ Hh] Htr. split; [done|done| |done]. simpl. rewrite Htr.
  exists (attempt_trace the_call 0 es ++ waits es)%list. split; [|by rewrite (assoc_L (++)%list)].
  unfold waits, traced. destruct es as [|e es]; [left; done|]. right. split; done.
Qed.

(** Only the number of readings changes. *)
Lemma parseRetryAfter_quiet header w s :
  exists d tk, parseRetryAfter header w s = (d, mkHState (hs_p s) tk (hs_trace s)).
Proof using.
  unfold parseRetryAfter. destruct (String.eqb header ""); [by eexists _, (hs_tick s); destruct s|].
  destruct (Sscanf_d header); [by eexists _, (hs_tick s); destruct s|].
  destruct (net_ParseTime w header); [by eexists _, (S (hs_tick s))|by eexists _, (hs_tick s); destruct s].
Qed.

Lemma settle_spec config e w s :
  exists d s' v, settle config e w s = (d, s') /\
    hp_config (hs_p s') = hp_config (hs_p s) /\ hp_closed (hs_p s') = hp_closed (hs_p s) /\
    hs_trace s' = hs_trace s /\ counted (hp_health (hs_p s)) (hp_health (hs_p s')) 1 v /\
    match d with
    | inl reply => forall n es, (length es < n)%nat -> ended config n es (es ++ [e]) v reply
    | inr err => v = Unknown /\ retryable e /\ err = failure config e
    end.
Proof using.
  destruct e as [err|resp]; cbn [settle].
  - unfold hbind, ctx_err, reading. cbn -[Z.add]. destruct (net_ctx w (hs_tick s)); eexists _, _, Unknown; (split; [reflexivity|]);
      (repeat split; simpl; try lia; try done); intros; by apply end_context.
  - destruct ((200 <=? hr_StatusCode resp) && (hr_StatusCode resp <? 300)) eqn:H2xx.
    { apply andb_true_iff in H2xx as [?%Z.leb_le ?%Z.ltb_lt]. eexists _, _, Worked. split; [reflexivity|].
      repeat split; simpl; try lia; try done. intros. by apply end_ok. }
    destruct ((hr_StatusCode resp =? 401) || (hr_StatusCode resp =? 403)) eqn:Hauth.
    { eexists _, _, Broken. split; [reflexivity|]. repeat split; simpl; try lia; try done.
      intros. apply end_auth. apply orb_true_iff in Hauth as [->%Z.eqb_eq| ->%Z.eqb_eq]; set_solver. }
    destruct (Z.eqb_spec (hr_StatusCode resp) 429) as [H429|H429].
    { unfold hbind. destruct (parseRetryAfter_quiet (hr_Header resp "Retry-After") w (recordRequest false w s).2)
        as (d & tk' & Hd). rewrite (surjective_pairing (recordRequest false w s)), Hd.
      eexists _, _, Unknown. split; [reflexivity|]. repeat split; simpl; try lia; try done. intros. by apply end_rate. }
    destruct (Z.eqb_spec (hr_StatusCode resp) 400) as [H400|H400].
    { eexists _, _, Unknown. split; [reflexivity|]. repeat split; simpl; try lia; try done.
      intros. rewrite H400. by apply end_request. }
    eexists _, _, Unknown. split; [reflexivity|]. split; [done|]. split; [done|]. split; [done|].
    split; [by repeat split|]. split; [done|]. split; [|done]. simpl. unfold accepted_status.
    apply orb_false_iff in Hauth as [?%Z.eqb_neq ?%Z.eqb_neq].
    apply andb_false_iff in H2xx. rewrite Z.leb_gt, Z.ltb_ge in H2xx. split; [lia|].
    rewrite !elem_of_cons, elem_of_nil. lia.
Qed.

Lemma attempts_spec n es w s0 s :
  after s0 s es Unknown -> (hs_trace s = hs_trace s0 ++ attempt_trace the_call 0 es)%list -> Forall retryable es ->
  exists r s' es0 es' v,
    attempts n (Z.of_nat (length es)) (failure (hp_config (hs_p s0)) <$> last es) method url body headers w s = (r, s') /\
    Forall retryable es0 /\ (length es' <= n + length es)%nat /\
    ended (hp_config (hs_p s0)) (n + length es) es0 es' v r /\ after s0 s' es' v.
Proof using.
  revert es s. induction n as [|n IH]; intros es s Haf Htr Hes.
  { cbn [attempts]. eexists _, _, es, es, Broken. split; [reflexivity|]. split; [done|]. split; [done|].
    split; [by apply end_exhausted|]. destruct Haf as [Hc Hcl _ (Ht & Hf & Hu1 & Hu2)].
    split; [exact Hc|exact Hcl| |].
    - exists (attempt_trace the_call 0 es). split; [by left|]. exact Htr.
    - unfold counted, worked in *. rewrite Nat.sub_0_r in *. cbn. by rewrite Ht, Hf, Hu1, Hu2. }
  assert (Hcfg : hp_config (hs_p s) = hp_config (hs_p s0)) by apply Haf.
  cbn [attempts]. unfold hbind at 1.
  destruct ((if 0 <? Z.of_nat (length es) then wait_for (retry_backoff (Z.of_nat (length es))) else hret None) w s)
    as [stopped s1] eqn:E1.
  assert (Hs1 : exists tk, s1 = mkHState (hs_p s) tk (hs_trace s ++ waits es)%list /\ (es = [] -> stopped = None)).
  { revert E1. unfold waits. destruct (Z.ltb_spec 0 (Z.of_nat (length es))).
    - rewrite retry_backoff_ns by lia. cbn. intros [= <- <-]. eexists. split; [reflexivity|]. intros ->. simpl in *. lia.
    - cbn. intros [= <- <-]. exists (hs_tick s). rewrite app_nil_r. by destruct s. }
  destruct Hs1 as (tk & -> & Hfirst). pose proof (after_wait s0 s es tk Haf Htr) as Hst.
  destruct stopped as [err|].
  { eexists _, _, es, es, Unknown. split; [reflexivity|]. split; [done|]. split; [lia|]. split; [|exact Hst].
    apply end_wait; [|lia]. intros ->. by specialize (Hfirst eq_refl). }
  unfold hbind at 1. destruct (net_build w method url) as [err|].
  { eexists _, _, es, es, Unknown. split; [reflexivity|]. split; [done|]. split; [lia|]. split; [apply end_build; lia|exact Hst]. }
  unfold hbind at 1, get_config at 1. cbn [hs_p]. unfold hbind at 1.
  set (e := net_do w tk the_call). set (s2 := mkHState (hs_p s) (S tk) ((hs_trace s ++ waits es) ++ [Sent the_call e])%list).
  change (exchange _ w _) with (e, s2). cbv beta iota. unfold hbind at 1.
  destruct (settle_spec (hp_config (hs_p s)) e w s2) as (d & s' & v & -> & Hc & Hcl & Ht & Hh & Hd).
  destruct (after_snoc s0 s s' es e v Haf Htr Hc Hcl Ht Hh) as [Haf' Htr'].
  destruct d as [reply|err].
  - eexists reply, s', es, (es ++ [e]), v. split; [done|]. split; [done|]. rewrite length_app. simpl. split; [lia|].
    rewrite <- Hcfg. split; [apply Hd; lia|done].
  - destruct Hd as (-> & He & ->). destruct (IH (es ++ [e]) s' Haf' Htr') as (r & s3 & es0 & es' & v & Hr & H1 & H2 & H3 & H4).
    { apply Forall_app. by split; [|constructor]. }
    rewrite last_snoc, length_app in Hr. simpl in Hr. rewrite Nat2Z.inj_add in Hr. rewrite Hcfg.
    rewrite length_app in H2, H3. simpl in H2, H3. replace (n + (length es + 1))%nat with (S n + length es)%nat in H2, H3 by lia.
    exists r, s3, es0, es', v. done.
Qed.
End spec.

Lemma request_any `{MapRange} method url body headers w s :
  let n := Z.to_nat (pc_MaxRetries (hp_config (hs_p s)) + 1) in
  exists r s' es0 es v,
    DoRequest method url body headers w s = (r, s') /\
    Forall retryable es0 /\ (length es <= n)%nat /\ ended (hp_config (hs_p s)) n es0 es v r /\
    after method url body headers s s' es v.
Proof.
  unfold DoRequest, hbind, get_config.
  destruct (attempts_spec method url body headers (Z.to_nat (pc_MaxRetries (hp_config (hs_p s)) + 1)) [] w s s)
    as (r & s' & es0 & es & v & Hr & H1 & H2 & H3 & H4).
  - split; [done|done| |by repeat split]. exists []. split; [by left|]. by rewrite app_nil_r.
  - simpl. by rewrite app_nil_r.
  - done.
  - rewrite Nat.add_0_r in *. by exists r, s', es0, es, v.
Qed.

Lemma request_retries_lemma `{MapRange} method url body headers w s :
  0 <= pc_MaxRetries (hp_config (hs_p s)) ->
  exists r s' es0 es v,
    DoRequest method url body headers w s = (r, s') /\
    Forall retryable es0 /\ Z.of_nat (length es) <= pc_MaxRetries (hp_config (hs_p s)) + 1 /\
    ended (hp_config (hs_p s)) (Z.to_nat (pc_MaxRetries (hp_config (hs_p s)) + 1)) es0 es v r /\
    after method url body headers s s' es v.
Proof.
  intros Hm. destruct (request_any method url body headers w s) as (r & s' & es0 & es & v & Hr & H1 & H2 & H3 & H4).
  exists r, s', es0, es, v. split; [exact Hr|]. split; [done|]. split; [lia|done].
Qed.


(** The reply alone. *)
Lemma request_outcome `{MapRange} method url body headers w s :
  0 <= pc_MaxRetries (hp_config (hs_p s)) ->
  exists r s', DoRequest method url body headers w s = (r, s') /\ hp_config (hs_p s') = hp_config (hs_p s) /\
    ((exists resp, r = (Some resp, None) /\ accepted_status (hr_StatusCode resp)) \/ exists err, r = (None, Some err)).
Proof.
  intros Hm. destruct (request_retries_lemma method url body headers w s Hm) as (r & s' & es0 & es & v & Hr & _ & _ & He & Ha).
  exists r, s'. split; [done|]. split; [apply Ha|].
  destruct He; eauto. right. destruct (last es0) as [e|] eqn:El; [by eexists|].
  apply last_None in El. subst. simpl in *. lia.
Qed.

Section json.
Context `{MapRange}.

(** A JSON request that succeeds decoded the body of a 2xx response. *)
Lemma json_outcome {A} method url (encoded : result string string) (decode : string -> result string A) headers w s :
  0 <= pc_MaxRetries (hp_config (hs_p s)) ->
  exists r s', DoJSONRequest method url (Some encoded) decode headers w s = (Some r, s') /\
    hp_config (hs_p s') = hp_config (hs_p s) /\
    match r with
    | Ok (Some a) => exists resp, accepted_status (hr_StatusCode resp) /\ decode (hr_Body resp) = Ok a
    | Ok None => exists resp, accepted_status (hr_StatusCode resp) /\ hr_Body resp = ""
    | Err _ => True
    end.
Proof using.
  intros Hm. unfold DoJSONRequest, hbind at 1, get_config at 1. destruct encoded as [b|err]; [|by eexists _, _].
  unfold hbind at 1. destruct (request_outcome method url (Some b) headers w s Hm) as (r & s' & -> & Hc & [(resp & -> & Ha)|(err & ->)]).
  2: { by eexists _, _. }
  destruct (hr_BodyErr resp); [by eexists _, _|]. destruct (Z.ltb_spec 0 (Z.of_nat (String.length (hr_Body resp)))).
  - destruct (decode (hr_Body resp)) eqn:Hd; eexists _, _; (split; [reflexivity|]); split; eauto.
  - eexists _, _. split; [reflexivity|]. split; [done|]. exists resp. split; [done|]. destruct (hr_Body resp); simpl in *; [done|lia].
Qed.
End json.

(** ** The circuit breaker *)

(** The exchanges in a trace, and those without a 2xx answer. *)
Definition exchanges_of (tr : list HEvent) : list Exchange :=
  omap (fun ev => match ev with Sent _ e => Some e | Waited _ => None end) tr.

Definition refused (e : Exchange) : bool :=
  match e with
  | NetFail _ => true
  | Answer r => negb ((200 <=? hr_StatusCode r) && (hr_StatusCode r <? 300))
  end.

Lemma traced_sent q es tr : traced q es tr -> exchanges_of tr = es.
Proof.
  assert (Ht : forall a, exchanges_of (attempt_trace q a es) = es).
  { unfold exchanges_of. induction es as [|e es IH]; intros a; cbn [attempt_trace]; [done|].
    rewrite omap_app. cbn. rewrite IH. by destruct (0 <? a). }
  intros [->|[_ ->]]; [apply Ht|]. unfold exchanges_of in *. by rewrite omap_app, Ht, app_nil_r.
Qed.

Lemma retryable_refused es : Forall retryable es -> List.filter refused es = es.
Proof.
  induction 1 as [|e es He _ IH]; cbn; [done|]. rewrite IH. destruct e as [err|resp]; cbn; [done|].
  destruct He as [Ha _]. unfold accepted_status in Ha.
  destruct (Z.leb_spec 200 (hr_StatusCode resp)), (Z.ltb_spec (hr_StatusCode resp) 300); cbn; try done. destruct Ha. lia.
Qed.

Lemma refused_status resp : accepted_status (hr_StatusCode resp) <-> refused (Answer resp) = false.
Proof.
  unfold accepted_status. cbn. rewrite negb_false_iff, andb_true_iff, Z.leb_le, Z.ltb_lt. done.
Qed.

Lemma ended_refused config n es0 es v r :
  Forall retryable es0 -> ended config n es0 es v r -> length (List.filter refused es) = (length es - worked v)%nat.
Proof.
  intros H0 He. assert (Hone : forall x, refused x = true -> length (List.filter refused (es0 ++ [x])) = (length (es0 ++ [x]) - 0)%nat).
  { intros x Hx. rewrite List.filter_app, !length_app, (retryable_refused es0 H0). cbn. rewrite Hx. cbn. lia. }
  assert (Hst : forall resp, hr_StatusCode resp ∈ [401; 403; 429; 400] -> refused (Answer resp) = true).
  { intros resp Hin. destruct (refused (Answer resp)) eqn:E; [done|]. apply refused_status in E.
    unfold accepted_status in E. rewrite !elem_of_cons, elem_of_nil in Hin. lia. }
  destruct He as [resp Ha|resp Ha|resp d Ha|resp Ha|err _|err _ _|err _|Hlen]; cbn [worked];
    try (by apply Hone; [done|]); try (by rewrite (retryable_refused es0 H0), Nat.sub_0_r).
  - apply refused_status in Ha. rewrite List.filter_app, !length_app, (retryable_refused es0 H0).
    cbn [List.filter]. rewrite Ha. cbn. lia.
  - apply Hone, Hst. set_solver.
  - apply Hone, Hst. rewrite Ha. set_solver.
  - apply Hone, Hst. rewrite Ha. set_solver.
  - by apply Hone.
Qed.

(** A request or a health check of a history: whether it is a check, its exchanges,
    what they say about the provider, its reply. *)
Record Op := mkOp { op_check : bool; op_exchanges : list Exchange; op_verdict : Verdict; op_reply : Reply }.

(** The checker reports the reply of its request once more. *)
Definition check_verdict (r : Reply) : Verdict :=
  match r with (_, Some _) => Broken | (Some _, None) => Worked | (None, None) => Unknown end.

Definition verdicts (o : Op) : list Verdict :=
  op_verdict o :: if op_check o then [check_verdict (op_reply o)] else [].

(** The failures since the last success. *)
Definition streak (vs : list Verdict) : Z :=
  foldl (fun n v => match v with Worked => 0 | Broken => n + 1 | Unknown => n end) 0 vs.

(** The exchanges, the verdict and the reply of an operation belong together. *)
Definition op_ok (config : ProviderConfig) (o : Op) : Prop :=
  exists es0, Forall retryable es0 /\
    ended config (Z.to_nat (pc_MaxRetries config + 1)) es0 (op_exchanges o) (op_verdict o) (op_reply o).

(** The health record against the history. *)
Record breaker_inv (config : ProviderConfig) (s : HState) (ops : list Op) : Prop := {
  bi_config : hp_config (hs_p s) = config;
  bi_closed : hp_closed (hs_p s) = false;
  bi_ops : Forall (op_ok config) ops;
  bi_sent : exchanges_of (hs_trace s) = concat (op_exchanges <$> ops);
  bi_total : ph_TotalRequests (hp_health (hs_p s)) = wrap64 (Z.of_nat (length (exchanges_of (hs_trace s))));
  bi_failed : ph_FailedRequests (hp_health (hs_p s)) = wrap64 (Z.of_nat (length (List.filter refused (exchanges_of (hs_trace s)))));
  bi_failures : ph_ConsecutiveFailures (hp_health (hs_p s)) = wrap64 (streak (ops ≫= verdicts));
  bi_healthy : ph_IsHealthy (hp_health (hs_p s)) = negb (3 <=? streak (ops ≫= verdicts));
}.

Lemma streak_snoc vs v :
  streak (vs ++ [v]) = match v with Worked => 0 | Broken => streak vs + 1 | Unknown => streak vs end.
Proof. unfold streak. by rewrite foldl_snoc. Qed.

Lemma streak_nonneg vs : 0 <= streak vs.
Proof. induction vs as [|v vs IH] using rev_ind; [done|]. rewrite streak_snoc. destruct v; lia. Qed.

(** One verdict more: the stored streak may wrap, the breaker does not notice. *)
Lemma verdict_step h h' k v vs :
  counted h h' k v -> ph_ConsecutiveFailures h = wrap64 (streak vs) -> ph_IsHealthy h = negb (3 <=? streak vs) ->
  ph_ConsecutiveFailures h' = wrap64 (streak (vs ++ [v])) /\ ph_IsHealthy h' = negb (3 <=? streak (vs ++ [v])).
Proof.
  intros (_ & _ & Hv) Hf Hh. rewrite streak_snoc. pose proof (streak_nonneg vs). destruct v.
  - destruct Hv as [-> ->]. done.
  - destruct Hv as [-> ->]. unfold add64. rewrite Hf, wrap64_add_l. split; [done|].
    destruct (Z.leb_spec 3 (wrap64 (streak vs + 1))) as [Hw|Hw]; rewrite ?Hh; destruct (Z.leb_spec 3 (streak vs + 1)) as [H1|H1]; cbn; try done.
    + rewrite wrap64_id in Hw by (unfold64; lia). lia.
    + destruct (Z.leb_spec 3 (streak vs)); cbn; [done|]. rewrite wrap64_id in Hw by (unfold64; lia). lia.
    + destruct (Z.leb_spec 3 (streak vs)); cbn; [lia|done].
  - destruct Hv as [-> ->]. done.
Qed.

(** A provider in use: requests and rounds of the background checker take turns; the
    replies are in the order they were given. *)
Inductive provider_run `{MapRange} (config : ProviderConfig) : HState -> Checker -> list (bool * Reply) -> Prop :=
| run_new now1 now2 :
    provider_run config (mkHState (NewHTTPProvider config now1 now2) 0 []) (with_period (checker_interval config)) []
| run_request s c rs w method url body headers :
    provider_run config s c rs ->
    provider_run config (DoRequest method url body headers w s).2 c (rs ++ [(false, (DoRequest method url body headers w s).1)])
| run_checker s c rs w choice :
    provider_run config s c rs ->
    provider_run config (checker_step choice c w s).2 (checker_step choice c w s).1
      (rs ++ match c, choice with CRunning _, STick => [(true, (healthCheckImpl w s).1)] | _, _ => [] end).

Section breaker.
Context `{MapRange}.
Variable config : ProviderConfig.

Lemma inv_request method url body headers w s ops :
  breaker_inv config s ops ->
  exists o, op_check o = false /\ op_reply o = (DoRequest method url body headers w s).1 /\
    breaker_inv config (DoRequest method url body headers w s).2 (ops ++ [o]).
Proof using.
  intros [Hc Hcl Hops Hs Ht Hf Hcf Hh].
  destruct (request_any method url body headers w s) as (r & s' & es0 & es & v & -> & Hes0 & _ & Hend & Haf).
  rewrite Hc in Hend. exists (mkOp false es v r). split_and!; [done..|]. cbn [snd].
  destruct Haf as [Hc' Hcl' (tr & Htr & Htr') Hcnt].
  assert (Hx : exchanges_of (hs_trace s') = (exchanges_of (hs_trace s) ++ es)%list).
  { rewrite Htr'. unfold exchanges_of. rewrite omap_app. f_equal. by apply traced_sent in Htr. }
  destruct (verdict_step _ _ _ _ _ Hcnt Hcf Hh) as [Hcf' Hh'].
  assert (Hvs : (ops ++ [mkOp false es v r]) ≫= verdicts = ((ops ≫= verdicts) ++ [v])%list)
    by (by rewrite bind_app; cbn).
  destruct Hcnt as (Ht' & Hf' & _). split.
  - congruence.
  - congruence.
  - apply Forall_app. split; [done|]. constructor; [|done]. by exists es0.
  - rewrite Hx, Hs, fmap_app, concat_app. cbn. by rewrite app_nil_r.
  - rewrite Ht', Ht, bump64_wrap by (apply wrap64_id, wrap64_range). rewrite wrap64_add_l, Hx, length_app. f_equal. lia.
  - rewrite Hf', Hf, bump64_wrap by (apply wrap64_id, wrap64_range).
    rewrite wrap64_add_l, Hx, List.filter_app, length_app, (ended_refused _ _ _ _ _ _ Hes0 Hend). f_equal. lia.
  - by rewrite Hvs.
  - by rewrite Hvs.
Qed.

Lemma inv_tick w s ops :
  breaker_inv config s ops ->
  exists o, op_check o = true /\ op_reply o = (healthCheckImpl w s).1 /\ breaker_inv config (checker_tick w s).2 (ops ++ [o]).
Proof using.
  intros Hinv. unfold checker_tick, performHealthCheck, HealthCheck, healthCheckImpl, hbind, get_config.
  set (headers := if negb (String.eqb (pc_APIKey (hp_config (hs_p s))) "") then _ else _).
  destruct (inv_request "GET" (pc_BaseURL (hp_config (hs_p s))) None headers w s ops Hinv) as (o & Hck & Hr & Hinv').
  destruct (DoRequest _ _ _ _ w s) as [r s1]. cbn [fst snd] in *. subst r.
  exists (mkOp true (op_exchanges o) (op_verdict o) (op_reply o)). split_and!; [done..|].
  destruct Hinv' as [Hc Hcl Hops Hs Ht Hf Hcf Hh]. rewrite fmap_app, concat_app in Hs.
  set (ops' := (ops ++ [mkOp true (op_exchanges o) (op_verdict o) (op_reply o)])%list).
  assert (Hops' : Forall (op_ok config) ops').
  { apply Forall_app in Hops as [H1 H2]. apply Forall_app. split; [done|]. inversion H2. by repeat constructor. }
  assert (Hold : (ops ++ [o]) ≫= verdicts = ((ops ≫= verdicts) ++ verdicts o)%list) by (by rewrite bind_app; cbn; rewrite app_nil_r).
  assert (Hvo : verdicts o = [op_verdict o]) by (unfold verdicts; by rewrite Hck).
  assert (Hgo : forall s', hp_config (hs_p s') = hp_config (hs_p s1) -> hp_closed (hs_p s') = hp_closed (hs_p s1) ->
    hs_trace s' = hs_trace s1 -> counted (hp_health (hs_p s1)) (hp_health (hs_p s')) 0 (check_verdict (op_reply o)) ->
    breaker_inv config s' ops').
  { intros s' Hc' Hcl' Htr Hcnt. rewrite Hold, Hvo in Hcf, Hh.
    destruct (verdict_step _ _ _ _ _ Hcnt Hcf Hh) as [Hcf' Hh']. destruct Hcnt as (Ht' & Hf' & _).
    assert (Hnew : ops' ≫= verdicts = (((ops ≫= verdicts) ++ [op_verdict o]) ++ [check_verdict (op_reply o)])%list)
      by (unfold ops'; rewrite bind_app; cbn; by rewrite <- app_assoc).
    unfold bump64 in Ht', Hf'. rewrite Nat.sub_0_l in Hf'. cbn in Ht', Hf'.
    split; rewrite ?Htr, ?Hnew; try congruence; try done.
    unfold ops'. rewrite Hs, fmap_app, concat_app. done. }
  destruct (op_reply o) as [[resp|] [err|]] eqn:Er; cbn in Hgo |- *; unfold hret; cbn.
  all: try match goal with |- context [(if ?b then fun _ _ => _ else _) _ _] => destruct b end.
  all: apply Hgo; try done; by repeat split.
Qed.

Lemma provider_run_inv s c rs :
  provider_run config s c rs ->
  exists ops, (fun o => (op_check o, op_reply o)) <$> ops = rs /\ breaker_inv config s ops.
Proof using.
  induction 1 as [now1 now2|s c rs w method url body headers _ (ops & <- & Hinv)|s c rs w choice _ (ops & <- & Hinv)].
  - exists []. split; [done|]. by split; try constructor.
  - destruct (inv_request method url body headers w s ops Hinv) as (o & Hck & Hr & Hinv').
    exists (ops ++ [o])%list. split; [|done]. rewrite fmap_app. cbn. by rewrite Hck, Hr.
  - destruct c as [period| |]; [destruct choice|..];
      try (exists ops; split; [cbn; by rewrite app_nil_r|done]).
    destruct (inv_tick w s ops Hinv) as (o & Hck & Hr & Hinv').
    exists (ops ++ [o])%list. split; [|done]. rewrite fmap_app. cbn. by rewrite Hck, Hr.
Qed.
End breaker.

(** ** Backoff of the checker *)

Lemma calculateBackoff_spec f base :
  0 < base -> 10 * base <= max_int64 ->
  (f <= 0 -> calculateBackoff f base = base) /\
  (1 <= f <= 62 -> calculateBackoff f base = Z.min (base * Z.min (2 ^ f) 10) max_backoff) /\
  (63 <= f -> calculateBackoff f base <= 0).
Proof.
  intros Hb Hm. unfold calculateBackoff, shl1. unfold max_int64 in Hm. split; [|split]; intros Hf.
  - by destruct (Z.leb_spec f 0); [|lia].
  - destruct (Z.leb_spec f 0); [lia|]. destruct (Z.leb_spec 64 f); [lia|].
    assert (Hp : 2 ^ f <= 2 ^ 62) by (apply Z.pow_le_mono_r; lia).
    assert (Hp0 : 0 < 2 ^ f) by (apply Z.pow_pos_nonneg; lia).
    rewrite (wrap64_id (2 ^ f)) by (unfold64; lia).
    assert (Hmul : (if 10 <? 2 ^ f then 10 else 2 ^ f) = Z.min (2 ^ f) 10) by (destruct (Z.ltb_spec 10 (2 ^ f)); lia).
    rewrite Hmul. set (k := Z.min (2 ^ f) 10) in *. assert (1 <= k <= 10) by lia.
    assert (Hbk : 0 < base * k <= 10 * base) by nia.
    unfold mul64. rewrite wrap64_id by (unfold64; lia). destruct (Z.ltb_spec max_backoff (base * k)); lia.
  - destruct (Z.leb_spec f 0); [lia|].
    assert (Hmul : (if 64 <=? f then 0 else wrap64 (2 ^ f)) = if 64 <=? f then 0 else min_int64).
    { destruct (Z.leb_spec 64 f); [done|]. by replace f with 63 by lia. }
    rewrite Hmul. clear Hmul. assert (Hz : mul64 base (if 64 <=? f then 0 else min_int64) <= 0).
    { unfold mul64. destruct (Z.leb_spec 64 f); [by rewrite Z.mul_0_r|]. unfold wrap64, min_int64.
      replace (base * - 2 ^ 63 + 2 ^ 63) with ((1 - base) * 2 ^ 63) by lia.
      change (2 ^ 64) with (2 * 2 ^ 63). rewrite Zmult_mod_distr_r.
      pose proof (Z.mod_pos_bound (1 - base) 2 ltac:(lia)). nia. }
    destruct (Z.leb_spec 64 f); [change (10 <? 0) with false|change (10 <? min_int64) with false]; cbv iota;
      (case_match; [|done]); apply Z.ltb_lt in H1; unfold max_backoff, Minute, Second in *; lia.
Qed.

(** ** An outage *)

(** The provider cannot be reached; nothing is cancelled. *)
Record outage (w : Net) : Prop := {
  out_do i q : exists err, net_do w i q = NetFail err;
  out_ctx i : net_ctx w i = None;
  out_wait i d : net_wait w i d = None;
  out_build method url : net_build w method url = None;
}.

Section outage.
Context `{MapRange} (w : Net) (Hout : outage w).

(** [f] failures in a row. *)
Definition failing (f : Z) (h : ProviderHealth) : Prop :=
  ph_ConsecutiveFailures h = f /\ ph_IsHealthy h = negb (unhealthy_after <=? f).

Lemma failing_more f h h' :
  failing f h -> 0 <= f < 2 ^ 32 -> ph_ConsecutiveFailures h' = add64 (ph_ConsecutiveFailures h) 1 ->
  ph_IsHealthy h' = (if unhealthy_after <=? add64 (ph_ConsecutiveFailures h) 1 then false else ph_IsHealthy h) ->
  failing (f + 1) h'.
Proof using.
  intros [Hf Hh] Hb Hf' Hh'. unfold failing. rewrite Hf', Hh', Hf, Hh. unfold add64. rewrite wrap64_id by (unfold64; lia).
  split; [done|]. destruct (Z.leb_spec unhealthy_after (f + 1)), (Z.leb_spec unhealthy_after f); try done. lia.
Qed.

Lemma attempts_outage n a lastErr method url body headers s f :
  failing f (hp_health (hs_p s)) -> 0 <= f < 2 ^ 32 ->
  exists err s', attempts n a lastErr method url body headers w s = ((None, err), s') /\
    (is_Some lastErr \/ n <> 0%nat -> is_Some err) /\ hp_config (hs_p s') = hp_config (hs_p s) /\
    failing (f + 1) (hp_health (hs_p s')).
Proof using Hout.
  revert a lastErr s. induction n as [|n IH]; intros a lastErr s Hs Hb; cbn [attempts].
  { eexists _, _. split; [reflexivity|]. split; [by intros [?|?]|]. split; [done|]. by eapply failing_more. }
  unfold hbind at 1.
  assert (Hw : exists s1, (if 0 <? a then wait_for (retry_backoff a) else hret None) w s = (None, s1) /\ hs_p s1 = hs_p s).
  { destruct (0 <? a); [|by eexists]. unfold wait_for, hbind, emit, reading. rewrite (out_wait w Hout). by eexists. }
  destruct Hw as (s1 & -> & Hs1). unfold hbind at 1. rewrite (out_build w Hout). unfold hbind at 1, get_config.
  unfold hbind at 1, exchange, hbind at 1, reading. edestruct (out_do w Hout) as [err ->]. cbn [emit hbind hret].
  unfold hbind at 1, settle, hbind at 1. cbn [recordRequest hbind get_health set_health hs_p hs_tick hs_trace].
  unfold hbind at 1, ctx_err, reading. rewrite (out_ctx w Hout). cbn [hret].
  edestruct IH as (err' & s' & -> & He & Hc & Hf); [|exact Hb|].
  { cbn. rewrite Hs1. exact Hs. }
  eexists err', s'. split; [reflexivity|]. split; [intros _; apply He; left; by eexists|].
  rewrite Hc. cbn. by rewrite Hs1.
Qed.

Lemma tick_outage s f :
  0 <= pc_MaxRetries (hp_config (hs_p s)) -> failing f (hp_health (hs_p s)) -> 0 <= f <= 62 ->
  exists s', checker_tick w s =
      (with_period (if unhealthy_after <=? f + 2 then calculateBackoff (f + 2) (checker_interval (hp_config (hs_p s)))
                    else checker_interval (hp_config (hs_p s))), s') /\
    failing (f + 2) (hp_health (hs_p s')) /\ hp_config (hs_p s') = hp_config (hs_p s).
Proof using Hout.
  intros Hm Hs Hb. unfold checker_tick. unfold hbind at 1, get_config at 1.
  assert (Hp : exists s1, performHealthCheck w s = (Some tt, s1) /\ failing (f + 2) (hp_health (hs_p s1)) /\
    hp_config (hs_p s1) = hp_config (hs_p s)).
  { unfold performHealthCheck, HealthCheck, healthCheckImpl, DoRequest, hbind, get_config.
    edestruct attempts_outage as (err & s1 & -> & He & Hc & Hf); [exact Hs|lia|]. destruct He as [err' ->]; [right; lia|].
    cbn. eexists. split; [reflexivity|]. split; [|exact Hc].
    replace (f + 2) with (f + 1 + 1) by lia. eapply failing_more; [exact Hf|lia|done..]. }
  destruct Hp as (s1 & Hp & Hs1 & Hc). exists s1. split; [|done]. unfold hbind. rewrite Hp. cbn.
  destruct Hs1 as [-> ->]. by destruct (unhealthy_after <=? f + 2).
Qed.
End outage.

(** [k] ticks of the checker. *)
Fixpoint ticks `{MapRange} (k : nat) (c : Checker) : Http Checker :=
  match k with
  | O => hret c
  | S k => c <~ checker_step STick c; ticks k c
  end.

Lemma ticks_panicked `{MapRange} k w s : (ticks k CPanicked w s).1 = CPanicked.
Proof. induction k; [done|]. simpl. unfold hbind, hret. done. Qed.

Lemma ticks_outage `{MapRange} w (Hout : outage w) k s period f :
  0 <= pc_MaxRetries (hp_config (hs_p s)) -> failing f (hp_health (hs_p s)) -> 0 <= f <= 62 ->
  0 < checker_interval (hp_config (hs_p s)) -> 10 * checker_interval (hp_config (hs_p s)) <= max_int64 ->
  (f + 2 * Z.of_nat k <= 62 -> exists p, (ticks k (CRunning period) w s).1 = CRunning p) /\
  (63 <= f + 2 * Z.of_nat k -> (ticks k (CRunning period) w s).1 = CPanicked).
Proof.
  revert s period f. induction k as [|k IH]; intros s period f Hm Hs Hf Hi Hi'.
  { split; [by eexists|lia]. }
  cbn [ticks checker_step]. unfold hbind.
  destruct (tick_outage w Hout s f Hm Hs Hf) as (s' & -> & Hs' & Hc').
  rewrite <- Hc' in Hi, Hi', Hm |- *. set (base := checker_interval (hp_config (hs_p s'))) in *.
  destruct (calculateBackoff_spec (f + 2) base Hi Hi') as (_ & Hb1 & Hb2).
  set (d := if unhealthy_after <=? f + 2 then calculateBackoff (f + 2) base else base).
  assert (Hd : f + 2 <= 62 -> 0 < d).
  { intros Hle. subst d. destruct (Z.leb_spec unhealthy_after (f + 2)); [|lia]. rewrite Hb1 by lia.
    assert (0 < 2 ^ (f + 2)) by (apply Z.pow_pos_nonneg; lia). unfold max_backoff, Minute, Second. nia. }
  assert (Hd2 : 63 <= f + 2 -> d <= 0).
  { intros Hge. subst d. destruct (Z.leb_spec unhealthy_after (f + 2)); [by apply Hb2|unfold unhealthy_after in *; lia]. }
  unfold with_period. destruct (Z.ltb_spec 0 d) as [Hpos|Hneg].
  - assert (f + 2 <= 62) by (destruct (decide (63 <= f + 2)) as [Hge|]; [apply Hd2 in Hge; lia|lia]).
    destruct (IH s' d (f + 2) Hm Hs' ltac:(lia) Hi Hi') as [IH1 IH2].
    split; [intros; apply IH1; lia|intros; apply IH2; lia].
  - split; [intros; exfalso; assert (0 < d) by (apply Hd; lia); lia|]. intros. apply ticks_panicked.
Qed.

(** A long outage ends the process.  A failed health check counts twice (once by
    the request it makes, once by the checker), and the power of two that
    stretches the interval leaves the 64-bit range at the 63rd failure: 31 checks
    in a row may fail, and the 32nd resets the ticker to a period that is not
    positive, which panics. *)
Theorem outage_panics `{MapRange} w s k :
  outage w -> 0 <= pc_MaxRetries (hp_config (hs_p s)) -> failing 0 (hp_health (hs_p s)) ->
  0 < checker_interval (hp_config (hs_p s)) -> 10 * checker_interval (hp_config (hs_p s)) <= max_int64 ->
  let c := (ticks k (with_period (checker_interval (hp_config (hs_p s)))) w s).1 in
  ((k <= 31)%nat -> exists period, c = CRunning period) /\ ((32 <= k)%nat -> c = CPanicked).
Proof.
  intros Hout Hm Hs Hi Hi' c. subst c. unfold with_period. destruct (Z.ltb_spec 0 (checker_interval (hp_config (hs_p s)))); [|lia].
  destruct (ticks_outage w Hout k s (checker_interval (hp_config (hs_p s))) 0 Hm Hs ltac:(lia) Hi Hi') as [H1 H2].
  split; intros; [apply H1; lia|apply H2; lia].
Qed.


(** C31: recovery.  Whatever happened before, as long as the checker is running the
    first tick at which the provider answers with a 2xx status makes it healthy
    again, clears the failures and returns the checker to its configured
    interval: a provider that comes back is used again after one check. *)
Theorem provider_recovers `{MapRange} config s period rs w resp :
  provider_run config s (CRunning period) rs -> 0 <= pc_MaxRetries config -> 0 < checker_interval config ->
  net_build w "GET" (pc_BaseURL config) = None ->
  (forall q, net_do w (hs_tick s) q = Answer resp) -> accepted_status (hr_StatusCode resp) ->
  let '(c, s') := checker_step STick (CRunning period) w s in
  c = CRunning (checker_interval config) /\ ph_IsHealthy (hp_health (hs_p s')) = true /\
  ph_ConsecutiveFailures (hp_health (hs_p s')) = 0.
Proof.
  intros Hr Hm Hi Hb Hd [H1 H2]. destruct (provider_run_inv config s _ rs Hr) as (ops & _ & [Hc _ _ _ _ _ _ _]).
  cbn [checker_step]. unfold checker_tick, performHealthCheck, HealthCheck, healthCheckImpl, DoRequest, hbind, get_config.
  rewrite Hc. destruct (Z.to_nat (pc_MaxRetries config + 1)) as [|n] eqn:En; [lia|]. cbn [attempts].
  unfold hbind at 1. change (0 <? 0) with false. unfold hret at 1. cbv beta iota zeta. unfold hbind at 1. rewrite Hb.
  unfold hbind at 1, get_config, hbind at 1, exchange, hbind at 1, reading. rewrite Hd. cbn [emit hbind hret]. rewrite Hc.
  unfold hbind at 1, settle. apply Z.leb_le in H1. apply Z.ltb_lt in H2. rewrite H1, H2. cbn.
  unfold with_period. destruct (Z.ltb_spec 0 (checker_interval config)); [done|lia].
Qed.

(** ** Examples *)

Definition ex_config : ProviderConfig := mkProviderConfig "openai" "openai" "https://api.openai.com/v1" "sk" Second 1 0 100 10 0.

Definition ex_state : HState := mkHState (NewHTTPProvider ex_config 1 1) 0 [].

(** No answer at all. *)
Definition down_net : Net :=
  mkNet (fun i => Z.of_nat i) (fun _ => None) (fun _ _ => None) (fun _ _ => None) (fun _ _ => NetFail (OtherError "refused"))
    (fun _ => None).

(** The first exchange is answered by 503, later ones by 200. *)
Definition flaky_net : Net :=
  mkNet (fun i => Z.of_nat i) (fun _ => None) (fun _ _ => None) (fun _ _ => None)
    (fun i _ => Answer (mkHttpResponse (if (i =? 0)%nat then 503 else 200) (fun _ => "") "body" None)) (fun _ => None).

Lemma down_outage : outage down_net.
Proof. split; try done. intros i q. by eexists. Qed.


(** A 503 is repeated after one second, and the 200 that follows is the reply. *)
Example retry_after_503 :
  let '(r, s) := DoRequest (H := some_range) "GET" "/" None ∅ flaky_net ex_state in
  (hr_StatusCode <$> r.1) = Some 200 /\ length (hs_trace s) = 3%nat /\ hs_trace s !! 1%nat = Some (Waited Second) /\
  ph_FailedRequests (hp_health (hs_p s)) = 1 /\ ph_TotalRequests (hp_health (hs_p s)) = 2.
Proof. vm_compute. repeat split. Qed.

(** The delay in a Retry-After header. *)
Example retry_after_examples :
  Sscanf_d "120" = Some 120 /\ Sscanf_d " -5" = Some (-5) /\ Sscanf_d "Wed, 21 Oct 2015" = None /\ Sscanf_d "3s" = Some 3.
Proof. vm_compute. repeat split. Qed.

Lemma outage_panics_witness :
  (ticks (H := some_range) 32 (with_period (checker_interval ex_config)) down_net ex_state).1 = CPanicked.
Proof.
  apply (outage_panics (H := some_range) down_net ex_state 32 down_outage); try (vm_compute; reflexivity || discriminate).
  - by split.
Defined.

(** One check fails, and a request after it: two exchanges each. *)
Definition ex_checked : Checker * HState :=
  checker_step (H := some_range) STick (with_period (checker_interval ex_config)) down_net ex_state.

Definition ex_down : HState := (DoRequest (H := some_range) "GET" "/" None ∅ down_net ex_checked.2).2.

Definition ex_replies : list (bool * Reply) :=
  [(true, (healthCheckImpl (H := some_range) down_net ex_state).1);
   (false, (DoRequest (H := some_range) "GET" "/" None ∅ down_net ex_checked.2).1)].

Lemma ex_run : provider_run (H := some_range) ex_config ex_down ex_checked.1 ex_replies.
Proof.
  apply (run_request (H := some_range) ex_config ex_checked.2 ex_checked.1 [_] down_net "GET" "/" None ∅).
  apply (run_checker (H := some_range) ex_config ex_state (CRunning (30 * Second)) [] down_net STick). apply (run_new (H := some_range) ex_config 1 1).
Qed.

(** The provider is unhealthy after them, and the four exchanges are counted. *)
Example ex_down_health :
  let h := hp_health (hs_p ex_down) in
  ph_IsHealthy h = false /\ ph_ConsecutiveFailures h = 3 /\ ph_TotalRequests h = 4 /\ ph_FailedRequests h = 4 /\
  ex_checked.1 = CRunning (30 * Second).
Proof. vm_compute. repeat split. Qed.


(** It comes back, and the next check notices. *)
Lemma provider_recovers_witness :
  let w := mkNet (fun i => Z.of_nat i) (fun _ => None) (fun _ _ => None) (fun _ _ => None)
    (fun _ _ => Answer (mkHttpResponse 200 (fun _ => "") "" None)) (fun _ => None) in
  let '(c, s') := checker_step (H := some_range) STick (CRunning (30 * Second)) w ex_down in
  c = CRunning (30 * Second) /\ ph_IsHealthy (hp_health (hs_p s')) = true /\
  ph_ConsecutiveFailures (hp_health (hs_p s')) = 0.
Proof.
  apply (provider_recovers (H := some_range) ex_config ex_down (30 * Second) ex_replies _
    (mkHttpResponse 200 (fun _ => "") "" None) ex_run);
    try reflexivity; try (vm_compute; split; discriminate || reflexivity); vm_compute; discriminate || reflexivity.
Defined.
