(* ===== verification/ProviderStream.v ===== *)
(** * Streams of completions (the loops shared by [pkg/providers/openai/client.go]
    and [pkg/providers/anthropic/client.go])

    The lines of a response body as [bufio.Scanner] yields them, and the goroutine
    that reads chunks and sends them to the consumer over a buffered channel.
    Goroutine and consumer take their steps in any order: a send waits while the
    buffer is full, the send of a chunk until the context ends, the send of an
    error for ever.  The context is an oracle that is consulted at each poll.
    [pump] is the run against a consumer that takes every chunk at once. *)

From Stdlib Require Import ZArith Lia Ascii.
From stdpp Require Import base option list strings relations.
From S2P Require Import Prelude Float64 GoValue ProviderTypes ProviderHttp.
Local Open Scope Z_scope.

(** [io.EOF] *)
Definition io_EOF : GoErr := OtherError "EOF".

(** ** Lines *)

(** The parts between line feeds; the last part is kept when it is not empty. *)
Fixpoint split_lines (l : list ascii) (cur : list ascii) : list (list ascii) :=
  match l with
  | [] => match cur with [] => [] | _ => [rev cur] end
  | c :: l => if Ascii.eqb c "010" then rev cur :: split_lines l [] else split_lines l (c :: cur)
  end.

(** A carriage return at the end of a line is dropped. *)
Definition drop_cr (l : list ascii) : list ascii :=
  match rev l with
  | c :: r => if Ascii.eqb c "013" then rev r else l
  | [] => l
  end.

(** A line must fit, with its line feed, in the scanner's buffer. *)
Definition max_token : Z := 65536.

Fixpoint scan_tokens (ls : list (list ascii)) (readErr : option string) : list string * option GoErr :=
  match ls with
  | [] => ([], OtherError <$> readErr)
  | l :: ls =>
      if max_token <=? Z.of_nat (length l) then ([], Some (OtherError "bufio.Scanner: token too long"))
      else let '(lines, err) := scan_tokens ls readErr in (String.string_of_list_ascii (drop_cr l) :: lines, err)
  end.

(** The lines of a body and the error of the scanner after them. *)
Definition scan_lines (resp : HttpResponse) : list string * option GoErr :=
  scan_tokens (split_lines (String.list_ascii_of_string (hr_Body resp)) []) (hr_BodyErr resp).

(** [strings.TrimPrefix] *)
Definition TrimPrefix (s p : string) : string :=
  if HasPrefix s p then String.substring (String.length p) (String.length s - String.length p) s else s.

(** ** The goroutine *)

(** [stream.Read]: a chunk, the end (a nil chunk), or an error. *)
Inductive ReadOut :=
| RChunk (c : StreamChunk)
| REnd
| RErr (e : GoErr).

Definition error_chunk (e : GoErr) : StreamChunk := mkStreamChunk "" "" "" "" [] None (Some e) 0.

(** [make(chan *providers.StreamChunk, 100)] *)
Definition stream_cap : nat := 100.

(** Where the goroutine is: before a read, at the [select] with a chunk, at the
    send of an error, or past the close of the channel. *)
Inductive Phase (R : Type) :=
| PReading (r : R) (k : nat)
| PSending (r : R) (c : StreamChunk) (k : nat)
| PFailing (e : GoErr)
| PClosed.
Arguments PReading {R}.
Arguments PSending {R}.
Arguments PFailing {R}.
Arguments PClosed {R}.

(** The goroutine, the buffer of the channel, and what the consumer received. *)
Record Stream (R : Type) := mkStream { s_phase : Phase R; s_chan : list StreamChunk; s_got : list StreamChunk }.
Arguments mkStream {R}.
Arguments s_phase {R}.
Arguments s_chan {R}.
Arguments s_got {R}.

(** What was sent, received or not. *)
Definition sent {R} (s : Stream R) : list StreamChunk := s_got s ++ s_chan s.

Definition started {R} (r : R) : Stream R := mkStream (PReading r 0) [] [].

(** Where the goroutine goes after a read. *)
Definition after_read {R} (out : ReadOut * R * nat) : Phase R :=
  let '(out, r, k) := out in
  match out with RErr e => PFailing e | REnd => PClosed | RChunk c => PSending r c k end.

Definition is_final (c : StreamChunk) : bool := negb (String.eqb (sc_FinishReason c) "").

(** Where it goes after a chunk was sent. *)
Definition after_send {R} (r : R) (c : StreamChunk) (k : nat) : Phase R :=
  if is_final c then PClosed else PReading r (S k).

Section pump.
Context {R : Type} (ctx : nat -> option GoErr) (read : R -> nat -> ReadOut * R * nat).

(** The steps of the goroutine.  When the buffer has room and the context has
    ended the [select] picks either case. *)
Inductive goroutine : Stream R -> Stream R -> Prop :=
| go_read r k ch got : goroutine (mkStream (PReading r k) ch got) (mkStream (after_read (read r k)) ch got)
| go_send r c k ch got :
    (length ch < stream_cap)%nat ->
    goroutine (mkStream (PSending r c k) ch got) (mkStream (after_send r c k) (ch ++ [c]) got)
| go_cancelled r c k ch got e :
    ctx k = Some e -> goroutine (mkStream (PSending r c k) ch got) (mkStream PClosed ch got)
| go_report e ch got :
    (length ch < stream_cap)%nat ->
    goroutine (mkStream (PFailing e) ch got) (mkStream PClosed (ch ++ [error_chunk e]) got).

(** Time passes at the [select]: the buffer is full and the context goes on. *)
Inductive waits : Stream R -> Stream R -> Prop :=
| go_wait r c k ch got :
    (stream_cap <= length ch)%nat -> ctx k = None ->
    waits (mkStream (PSending r c k) ch got) (mkStream (PSending r c (S k)) ch got).

Inductive receives : Stream R -> Stream R -> Prop :=
| consumer_receive ph c ch got : receives (mkStream ph (c :: ch) got) (mkStream ph ch (got ++ [c])).

(** A step that gets the stream on. *)
Definition advances (s s' : Stream R) : Prop := goroutine s s' \/ receives s s'.

Definition step (s s' : Stream R) : Prop := advances s s' \/ waits s s'.

(** What is sent to a consumer that receives every chunk at once; [None] is fuel
    that ran out. *)
Fixpoint pump (fuel : nat) (r : R) (k : nat) : option (list StreamChunk) :=
  match fuel with
  | O => None
  | S fuel =>
      let '(out, r, k) := read r k in
      match out with
      | RErr e => Some [error_chunk e]
      | REnd => Some []
      | RChunk chunk =>
          match ctx k with
          | Some _ => Some []
          | None =>
              if negb (String.eqb (sc_FinishReason chunk) "") then Some [chunk]
              else cons chunk <$> pump fuel r (S k)
          end
      end
  end.

(** It is one of the runs. *)
Lemma pump_runs fuel r k got l :
  pump fuel r k = Some l -> rtc step (mkStream (PReading r k) [] got) (mkStream PClosed [] (got ++ l)).
Proof using.
  assert (Hgo : forall s s', goroutine s s' -> step s s') by (intros s s' Hs; left; by left).
  assert (Hrecv : forall ph c got', rtc step (mkStream ph [c] got') (mkStream ph [] (got' ++ [c]))).
  { intros ph c got'. apply rtc_once. left. right. constructor. }
  assert (Hcap : (0 < stream_cap)%nat) by (unfold stream_cap; lia).
  revert r k got l. induction fuel as [|fuel IH]; intros r k got l; [done|]. cbn [pump].
  pose proof (go_read r k [] got) as H0. unfold after_read in H0. destruct (read r k) as [[out r'] k'].
  apply Hgo in H0. intros Hp. eapply rtc_l; [exact H0|]. clear H0. destruct out as [c| |e].
  - destruct (ctx k') as [e|] eqn:Hc.
    { injection Hp as <-. rewrite app_nil_r. apply rtc_once, Hgo. by apply go_cancelled with e. }
    eapply rtc_l; [apply Hgo, (go_send r' c k' [] got Hcap)|]. simpl. etrans; [apply Hrecv|].
    unfold after_send, is_final. destruct (negb _); [by injection Hp as <-; apply rtc_refl|].
    destruct (pump fuel r' (S k')) as [l'|] eqn:Hl; [|done]. injection Hp as <-.
    rewrite (cons_middle c got l'), (app_assoc got [c] l'). by apply IH.
  - injection Hp as <-. rewrite app_nil_r. apply rtc_refl.
  - injection Hp as <-. eapply rtc_l; [apply Hgo, (go_report e [] got Hcap)|]. simpl. apply Hrecv.
Qed.

(** The goroutine while nobody receives. *)
Definition alone (s : Stream R) : Stream R :=
  match s with
  | mkStream (PReading r k) ch got => mkStream (after_read (read r k)) ch got
  | mkStream (PSending r c k) ch got =>
      if (length ch <? stream_cap)%nat then mkStream (after_send r c k) (ch ++ [c]) got
      else match ctx k with
           | Some _ => mkStream PClosed ch got
           | None => mkStream (PSending r c (S k)) ch got
           end
  | mkStream (PFailing e) ch got =>
      if (length ch <? stream_cap)%nat then mkStream PClosed (ch ++ [error_chunk e]) got else s
  | _ => s
  end.

Lemma alone_steps n s : rtc step s (Nat.iter n alone s).
Proof using.
  induction n as [|n IH]; [apply rtc_refl|]. simpl. etrans; [exact IH|].
  destruct (Nat.iter n alone s) as [ph ch got]. destruct ph as [r k|r c k|e|]; simpl; [| | |apply rtc_refl].
  - apply rtc_once. left. left. constructor.
  - destruct (Nat.ltb_spec (length ch) stream_cap); [by apply rtc_once; left; left; constructor|].
    destruct (ctx k) as [e|] eqn:Hk; apply rtc_once; [left; left; by econstructor|right; by constructor].
  - destruct (Nat.ltb_spec (length ch) stream_cap); [by apply rtc_once; left; left; constructor|apply rtc_refl].
Qed.

(** Every read of a chunk makes progress. *)
Definition progress (measure : R -> nat) : Prop :=
  forall r k c r' k', read r k = (RChunk c, r', k') -> (measure r' < measure r)%nat /\ sc_Error c = None.

Lemma pump_total measure fuel r k :
  progress measure -> (measure r < fuel)%nat -> exists l, pump fuel r k = Some l.
Proof using.
  intros Hp. revert r k. induction fuel as [|fuel IH]; intros r k Hm; [lia|]. cbn [pump].
  destruct (read r k) as [[out r'] k'] eqn:Hr. destruct out as [c| |e]; [|by eexists|by eexists].
  destruct (ctx k'); [by eexists|]. destruct (negb _); [by eexists|].
  destruct (Hp _ _ _ _ _ Hr) as [Hlt _]. destruct (IH r' (S k')) as [l ->]; [lia|]. by eexists.
Qed.

(** The shape of what is sent: chunks without error or finish reason, then at
    most one chunk that has one of them. *)
Inductive well_ended : list StreamChunk -> Prop :=
| we_nil : well_ended []
| we_last c : well_ended [c]
| we_cons c l : sc_Error c = None -> sc_FinishReason c = "" -> well_ended l -> well_ended (c :: l).

Definition plain (c : StreamChunk) : Prop := sc_Error c = None /\ sc_FinishReason c = "".

Lemma plain_ends l : Forall plain l -> well_ended l.
Proof using. induction 1 as [|x l [He Hf] _ IH]; by constructor. Qed.

Lemma plain_last l c : Forall plain l -> well_ended (l ++ [c]).
Proof using. induction 1 as [|x l [He Hf] _ IH]; simpl; by constructor. Qed.

(** ** Every interleaving *)

Section runs.
Context (measure : R -> nat) (Hprog : progress measure).

Definition shape (s : Stream R) : Prop :=
  (length (s_chan s) <= stream_cap)%nat /\
  match s_phase s with
  | PReading _ _ | PFailing _ => Forall plain (sent s)
  | PSending _ c _ => Forall plain (sent s) /\ sc_Error c = None
  | PClosed => well_ended (sent s)
  end.

Lemma sent_send ph (ch got : list StreamChunk) c : sent (@mkStream R ph (ch ++ [c]) got) = sent (mkStream ph ch got) ++ [c].
Proof using. unfold sent. simpl. by rewrite app_assoc. Qed.

Lemma shape_step s s' : shape s -> step s s' -> shape s'.
Proof using Hprog.
  intros [Hl Hs] [[Hst|Hst]|Hst]; destruct Hst; unfold shape in *; cbn [s_phase s_chan] in *.
  - split; [done|]. unfold after_read. destruct (read r k) as [[[c| |e] r'] k'] eqn:Hr; [|by apply plain_ends|done].
    split; [done|]. by destruct (Hprog _ _ _ _ _ Hr).
  - rewrite length_app, sent_send. simpl. split; [lia|]. destruct Hs as [Hs He].
    unfold after_send, is_final. destruct (String.eqb_spec (sc_FinishReason c) ""); simpl; [|by apply plain_last].
    apply Forall_app. split; [done|]. by repeat constructor.
  - split; [done|]. by apply plain_ends, Hs.
  - rewrite length_app, sent_send. simpl. split; [lia|]. by apply plain_last.
  - simpl in Hl. split; [lia|]. assert (Hsent : sent (mkStream ph ch (got ++ [c])) = sent (mkStream ph (c :: ch) got)).
    { unfold sent. simpl. by rewrite <- app_assoc. }
    by rewrite Hsent.
  - done.
Qed.

(** Steps that remain at most, when the stream does not wait. *)
Definition potential (s : Stream R) : nat :=
  length (s_chan s) +
  match s_phase s with
  | PReading r _ => 4 * measure r + 3
  | PSending r _ _ => 4 * measure r + 5
  | PFailing _ => 2
  | PClosed => 0
  end.

Lemma advances_potential s s' : advances s s' -> (potential s' < potential s)%nat.
Proof using Hprog.
  intros [Hst|Hst]; destruct Hst; unfold potential; cbn [s_phase s_chan]; rewrite ?length_app; simpl length; try lia.
  - unfold after_read. destruct (read r k) as [[[c| |e] r'] k'] eqn:Hr; [|lia|lia].
    destruct (Hprog _ _ _ _ _ Hr). lia.
  - unfold after_send. destruct (is_final c); lia.
Qed.

Lemma waits_potential s s' : waits s s' -> potential s' = potential s.
Proof using. by destruct 1. Qed.

Lemma advances_bounded n s s' : nsteps advances n s s' -> (n <= potential s)%nat.
Proof using Hprog.
  induction 1 as [|n x y z Hxy _ IH]; [lia|]. pose proof (advances_potential x y Hxy). lia.
Qed.

(** The stream is over for goroutine and consumer. *)
Definition drained (s : Stream R) : Prop := s_phase s = PClosed /\ s_chan s = [].

Lemma advances_or_drained s : drained s \/ exists s', advances s s'.
Proof using.
  destruct s as [ph ch got]. destruct ch as [|c ch]; [|right; eexists; right; constructor].
  assert (Hcap : (length ([] : list StreamChunk) < stream_cap)%nat) by (unfold stream_cap; simpl; lia).
  destruct ph as [r k|r c k|e|]; [..|by left]; right; eexists; left.
  - apply go_read.
  - by apply go_send.
  - by apply go_report.
Qed.

Lemma drains s : exists s', rtc advances s s' /\ drained s'.
Proof using Hprog.
  remember (potential s) as n eqn:Hn. revert s Hn. induction (lt_wf n) as [n _ IH]. intros s ->.
  destruct (advances_or_drained s) as [Hd|[s1 Hs]]; [by exists s|].
  destruct (IH _ (advances_potential s s1 Hs) s1 eq_refl) as (s' & Hr & Hd).
  exists s'. split; [by eapply rtc_l|done].
Qed.

(** The goroutine can do nothing, not even wait for the context: it is over, or
    it has an error to report to a consumer that is not there. *)
Lemma goroutine_stuck s :
  shape s ->
  (forall s', ~ goroutine s s' /\ ~ waits s s') <->
  s_phase s = PClosed \/ exists e, s_phase s = PFailing e /\ length (s_chan s) = stream_cap.
Proof using.
  destruct s as [ph ch got]. intros [Hl _]. simpl in *. split.
  - intros Hno. destruct ph as [r k|r c k|e|]; [| | |by left].
    + destruct (Hno (mkStream (after_read (read r k)) ch got)) as [Hg _]. destruct Hg. constructor.
    + exfalso. destruct (decide (length ch < stream_cap)%nat) as [Hc|Hc].
      * destruct (Hno (mkStream (after_send r c k) (ch ++ [c]) got)) as [Hg _]. by destruct Hg; constructor.
      * destruct (ctx k) as [e|] eqn:Hk.
        -- destruct (Hno (mkStream PClosed ch got)) as [Hg _]. destruct Hg. by econstructor.
        -- destruct (Hno (mkStream (PSending r c (S k)) ch got)) as [_ Hw]. destruct Hw. constructor; [lia|done].
    + right. exists e. split; [done|]. destruct (decide (length ch < stream_cap)%nat) as [Hc|Hc]; [|lia].
      destruct (Hno (mkStream PClosed (ch ++ [error_chunk e]) got)) as [Hg _]. by destruct Hg; constructor.
  - intros [->|(e & -> & Hc)] s'; split; intros Hs; inversion Hs; subst; simpl in *; lia || done.
Qed.

(** ** Without a cancellation *)

Section quiet.
Context (Hquiet : forall k, ctx k = None) (Hblind : forall r k k', (read r k).1 = (read r k').1).

Lemma pump_blind fuel r k k' : pump fuel r k = pump fuel r k'.
Proof using Hquiet Hblind.
  revert r k k'. induction fuel as [|fuel IH]; intros r k k'; [done|]. cbn [pump].
  pose proof (Hblind r k k') as Hb. destruct (read r k) as [[out r1] k1], (read r k') as [[out' r1'] k1'].
  simpl in Hb. injection Hb as <- <-. destruct out; try done. rewrite !Hquiet.
  destruct (negb _); [done|]. by rewrite (IH r1 (S k1) (S k1')).
Qed.

(** What is sent and what is still to come make up what [pump] sends. *)
Definition on_course (total : list StreamChunk) (s : Stream R) : Prop :=
  match s_phase s with
  | PReading r k => exists fuel rest, pump fuel r k = Some rest /\ sent s ++ rest = total
  | PSending r c k =>
      if is_final c then sent s ++ [c] = total
      else exists fuel rest, pump fuel r k = Some rest /\ sent s ++ c :: rest = total
  | PFailing e => sent s ++ [error_chunk e] = total
  | PClosed => sent s = total
  end.

Lemma on_course_step total s s' : on_course total s -> step s s' -> on_course total s'.
Proof using Hquiet Hblind.
  intros Hc Hst. revert Hc.
  destruct Hst as [[[r k ch got|r c k ch got Hl|r c k ch got e He|e ch got Hl]|[ph c ch got]]|[r c k ch got Hl He]];
    unfold on_course; cbn [s_phase]; intros Hc.
  - destruct Hc as (fuel & rest & Hp & Ht). destruct fuel as [|fuel]; [done|]. cbn [pump] in Hp. unfold after_read.
    destruct (read r k) as [[[c| |e] r'] k']; [|by injection Hp as <-; rewrite app_nil_r in Ht|by injection Hp as <-].
    rewrite Hquiet in Hp. unfold is_final. destruct (negb _); [by injection Hp as <-|].
    destruct (pump fuel r' (S k')) as [rest'|] eqn:Hr; [|done]. injection Hp as <-.
    exists fuel, rest'. split; [|done]. by rewrite (pump_blind fuel r' k' (S k')).
  - rewrite !sent_send. unfold after_send. destruct (is_final c); [done|].
    destruct Hc as (fuel & rest & Hp & Ht). exists fuel, rest. split; [by rewrite (pump_blind fuel r (S k) k)|].
    by rewrite <- app_assoc.
  - by rewrite Hquiet in He.
  - by rewrite sent_send.
  - assert (Hsent : sent (mkStream ph ch (got ++ [c])) = sent (mkStream ph (c :: ch) got)).
    { unfold sent. simpl. by rewrite <- app_assoc. }
    by rewrite Hsent.
  - destruct (is_final c); [done|]. destruct Hc as (fuel & rest & Hp & Ht). exists fuel, rest.
    split; [by rewrite (pump_blind fuel r (S k) k)|done].
Qed.
End quiet.

(** What holds of a stream in every interleaving. *)
Lemma stream_correct r s :
  rtc step (started r) s ->
  shape s /\ (forall n s', nsteps advances n s s' -> (n <= potential s)%nat) /\
  (exists s', rtc advances s s' /\ drained s') /\
  ((forall s', ~ goroutine s s' /\ ~ waits s s') <->
   s_phase s = PClosed \/ exists e, s_phase s = PFailing e /\ length (s_chan s) = stream_cap).
Proof using Hprog.
  intros Hr. assert (Hs : shape s).
  { assert (H0 : shape (started r)) by (split; simpl; [lia|constructor]). revert H0.
    induction Hr as [|x y z Hxy _ IH]; [done|]. intros Hx. apply IH. by eapply shape_step. }
  split; [done|]. split; [by eauto using advances_bounded|]. split; [apply drains|by apply goroutine_stuck].
Qed.

Lemma shape_well_ended s : shape s -> well_ended (sent s).
Proof using. intros [_ Hs]. destruct (s_phase s); try (by apply plain_ends); [by apply plain_ends, Hs|done]. Qed.

Lemma stream_complete r s total fuel :
  (forall k, ctx k = None) -> (forall r k k', (read r k).1 = (read r k').1) ->
  pump fuel r 0 = Some total -> rtc step (started r) s ->
  (exists rest, sent s ++ rest = total) /\ (s_phase s = PClosed -> sent s = total).
Proof using.
  intros Hq Hb Hp Hr. assert (H0 : on_course total (started r)) by (by exists fuel, total).
  assert (Hs : on_course total s).
  { revert H0. induction Hr as [|x y z Hxy _ IH]; [done|]. intros Hx. apply IH. by eapply on_course_step. }
  unfold on_course in Hs. split; [|by intros E; rewrite E in Hs].
  destruct (s_phase s) as [? ?|? c ?|e|]; [destruct Hs as (_ & rest & _ & Hs); eauto| |eauto|exists []; by rewrite app_nil_r].
  destruct (is_final c); [eauto|]. destruct Hs as (_ & rest & _ & Hs). eauto.
Qed.
End runs.
End pump.

Lemma pump_ext {R} ctx ctx' (read read' : R -> nat -> ReadOut * R * nat) fuel r k :
  (forall k, ctx k = ctx' k) -> (forall r k, read r k = read' r k) -> pump ctx read fuel r k = pump ctx' read' fuel r k.
Proof.
  intros Hc Hr. revert r k. induction fuel as [|fuel IH]; intros r k; cbn [pump]; [done|].
  rewrite Hr. destruct (read' r k) as [[out r'] k']. rewrite Hc. destruct out; try done.
  repeat case_match; try done. by rewrite IH.
Qed.
