(* ===== verification/ProviderOpenAI.v ===== *)
(** * The OpenAI client ([pkg/providers/openai])

    The wire types, the translation of requests and responses ([transform.go]),
    the client ([client.go]) and its stream reader ([streaming.go]).  JSON
    encoding and decoding of the wire types are parameters. *)

From Stdlib Require Import ZArith Lia Ascii.
From stdpp Require Import base option list strings gmap.
From S2P Require Import Prelude Float64 GoValue ProviderTypes ProviderHttp ProviderStream.
Local Open Scope Z_scope.
Local Open Scope http_scope.

(** ** Wire types *)

Record OpenAIFunctionCall := mkOpenAIFunctionCall { ofc_Name : string; ofc_Arguments : string }.

Record OpenAIToolCall := mkOpenAIToolCall { otc_ID : string; otc_Type : string; otc_Function : OpenAIFunctionCall }.

Record OpenAIMessage := mkOpenAIMessage {
  om_Role : string;
  om_Content : string;
  om_Name : string;
  om_ToolCallID : string;
  om_ToolCalls : list OpenAIToolCall;
}.

Record OpenAIFunctionDefinition := mkOpenAIFunctionDefinition {
  ofd_Name : string;
  ofd_Description : string;
  ofd_Parameters : option (list (string * GoValue));
}.

Record OpenAITool := mkOpenAITool { ot_Type : string; ot_Function : OpenAIFunctionDefinition }.

Record OpenAIRequest := mkOpenAIRequest {
  oq_Model : string;
  oq_Messages : list OpenAIMessage;
  oq_Temperature : float64;
  oq_MaxTokens : Z;
  oq_TopP : float64;
  oq_Stream : bool;
  oq_Tools : list OpenAITool;
  oq_ToolChoice : GoValue;
  oq_Stop : list string;
  oq_PresencePenalty : float64;
  oq_FrequencyPenalty : float64;
  oq_User : string;
  oq_N : Z;
  oq_ResponseFormat : option (list (string * GoValue));
}.

Record OpenAIUsage := mkOpenAIUsage { ou_PromptTokens : Z; ou_CompletionTokens : Z; ou_TotalTokens : Z }.

Record OpenAIChoice := mkOpenAIChoice { och_Index : Z; och_Message : OpenAIMessage; och_FinishReason : string }.

Record OpenAIResponse := mkOpenAIResponse {
  or_ID : string;
  or_Object : string;
  or_Created : Z;
  or_Model : string;
  or_Choices : list OpenAIChoice;
  or_Usage : OpenAIUsage;
}.

Record OpenAIStreamDelta := mkOpenAIStreamDelta {
  od_Role : string;
  od_Content : string;
  od_ToolCalls : list OpenAIToolCall;
}.

Record OpenAIStreamChoice := mkOpenAIStreamChoice {
  osc_Index : Z;
  osc_Delta : OpenAIStreamDelta;
  osc_FinishReason : string;
}.

Record OpenAIStreamResponse := mkOpenAIStreamResponse {
  os_ID : string;
  os_Object : string;
  os_Created : Z;
  os_Model : string;
  os_Choices : list OpenAIStreamChoice;
  os_Usage : option OpenAIUsage;
}.

(** ** Translation *)

Definition FinishReasonStop : string := "stop".
Definition FinishReasonLength : string := "length".
Definition FinishReasonToolCalls : string := "tool_calls".
Definition FinishReasonContentFilter : string := "content_filter".

Definition normalizeFinishReason (reason : string) : string :=
  if String.eqb reason "stop" then FinishReasonStop
  else if String.eqb reason "length" then FinishReasonLength
  else if String.eqb reason "tool_calls" || String.eqb reason "function_call" then FinishReasonToolCalls
  else if String.eqb reason "content_filter" then FinishReasonContentFilter
  else reason.

Definition transformMessage (msg : PMessage) : OpenAIMessage :=
  mkOpenAIMessage (pm_Role msg) (pm_Content msg) (pm_Name msg) (pm_ToolCallID msg) [].

Definition transformTool (tool : Tool) : OpenAITool :=
  mkOpenAITool (tool_Type tool)
    (mkOpenAIFunctionDefinition (fd_Name (tool_Function tool)) (fd_Description (tool_Function tool))
       (fd_Parameters (tool_Function tool))).

Definition transformRequest (req : PRequest) : OpenAIRequest :=
  mkOpenAIRequest (pr_Model req) (transformMessage <$> pr_Messages req) (pr_Temperature req) (pr_MaxTokens req)
    (pr_TopP req) (pr_Stream req) (transformTool <$> pr_Tools req) (pr_ToolChoice req) (pr_Stop req)
    (pr_PresencePenalty req) (pr_FrequencyPenalty req) (pr_User req) 1 None.

Definition transformToolCall (tc : OpenAIToolCall) : ToolCall :=
  mkToolCall (otc_ID tc) (otc_Type tc) (mkFunctionCall (ofc_Name (otc_Function tc)) (ofc_Arguments (otc_Function tc))).

Definition transformUsage (u : OpenAIUsage) : PUsage := mkPUsage (ou_PromptTokens u) (ou_CompletionTokens u) (ou_TotalTokens u).

Definition transformResponse (resp : OpenAIResponse) : result string PResponse :=
  match or_Choices resp with
  | [] => Err "no choices in response"
  | choice :: _ =>
      Ok (mkPResponse (or_ID resp) (or_Model resp) (om_Content (och_Message choice))
            (normalizeFinishReason (och_FinishReason choice)) (transformUsage (or_Usage resp))
            (transformToolCall <$> om_ToolCalls (och_Message choice)) (or_Created resp) [])
  end.

Definition transformStreamChunk (chunk : OpenAIStreamResponse) : result string StreamChunk :=
  match os_Choices chunk with
  | [] => Err "no choices in stream chunk"
  | choice :: _ =>
      Ok (mkStreamChunk (os_ID chunk) (os_Model chunk) (od_Content (osc_Delta choice))
            (normalizeFinishReason (osc_FinishReason choice)) (transformToolCall <$> od_ToolCalls (osc_Delta choice))
            (transformUsage <$> os_Usage chunk) None (os_Created chunk))
  end.

(** ** The client *)

Definition or_string (s d : string) : string := if String.eqb s "" then d else s.
Definition or_default (n d : Z) : Z := if n =? 0 then d else n.

Definition NewProvider (config : ProviderConfig) : result GoErr ProviderConfig :=
  if String.eqb (pc_Name config) "" then Err (ConfigError "openai" "name" "provider name is required")
  else if String.eqb (pc_APIKey config) "" then
    Err (ConfigError (pc_Name config) "api_key" "API key is required for OpenAI")
  else Ok (mkProviderConfig (pc_Name config) (pc_Type config) (or_string (pc_BaseURL config) "https://api.openai.com/v1")
             (pc_APIKey config) (pc_Timeout config) (or_default (pc_MaxRetries config) 3) (pc_HealthCheckInterval config)
             (or_default (pc_MaxIdleConns config) 100) (or_default (pc_MaxIdleConnsPerHost config) 10)
             (pc_IdleConnTimeout config)).

(** A nil request is [None]. *)
Definition validateRequest (req : option PRequest) : option GoErr :=
  match req with
  | None => Some (PValidationError "request" "request cannot be nil")
  | Some req =>
      if String.eqb (pr_Model req) "" then Some (PValidationError "model" "model is required")
      else if Z.of_nat (length (pr_Messages req)) =? 0 then
        Some (PValidationError "messages" "at least one message is required")
      else None
  end.

(** JSON of the wire types. *)
Class OpenAICodec : Type := {
  encode_request : OpenAIRequest -> result string string;
  decode_response : string -> result string OpenAIResponse;
  decode_stream : string -> result string OpenAIStreamResponse;
}.

(** The zero value that an empty body leaves. *)
Definition zero_response : OpenAIResponse := mkOpenAIResponse "" "" 0 "" [] (mkOpenAIUsage 0 0 0).

Section client.
Context `{MapRange} `{OpenAICodec}.

Definition completions_url (config : ProviderConfig) : string := pc_BaseURL config +:+ "/chat/completions".

Definition base_headers (config : ProviderConfig) : gmap string string :=
  {[ "Authorization" := "Bearer " +:+ pc_APIKey config; "Content-Type" := "application/json" ]}.

(** [None] is a panic. *)
Definition SendCompletion (req : option PRequest) : Http (option (result GoErr PResponse)) :=
  match validateRequest req, req with
  | Some err, _ => hret (Some (Err err))
  | None, None => hret None
  | None, Some req =>
      config <~ get_config;
      r <~ DoJSONRequest "POST" (completions_url config) (Some (encode_request (transformRequest req)))
             decode_response (base_headers config);
      match r with
      | None => hret None
      | Some (Err err) => hret (Some (Err err))
      | Some (Ok resp) =>
          hret (Some (match transformResponse (default zero_response resp) with
                      | Ok resp => Ok resp
                      | Err err => Err (ParseError (pc_Name config) "" (Some (OtherError err)))
                      end))
      end
  end.

Section reader.
Context (name : string) (ctx : nat -> option GoErr) (scanErr : option GoErr).

(** [streamReader.Read] on the lines that are left. *)
Fixpoint Read (lines : list string) (k : nat) : ReadOut * list string * nat :=
  match lines with
  | [] =>
      (RErr (match ctx k with
             | Some err => err
             | None => match scanErr with
                       | Some err => StreamError name "failed to read stream" (Some err)
                       | None => io_EOF
                       end
             end), [], S k)
  | line :: rest =>
      match ctx k with
      | Some err => (RErr err, lines, S k)
      | None =>
          if String.eqb line "" then Read rest (S k)
          else if negb (HasPrefix line "data: ") then Read rest (S k)
          else
            let data := TrimPrefix line "data: " in
            if String.eqb data "[DONE]" then (RErr io_EOF, rest, S k)
            else match decode_stream data with
                 | Err err =>
                     (RErr (ParseError name data (Some (WrapError "failed to parse stream chunk" (OtherError err)))), rest, S k)
                 | Ok openaiChunk =>
                     match transformStreamChunk openaiChunk with
                     | Err err => (RErr (ParseError name "" (Some (OtherError err))), rest, S k)
                     | Ok chunk => (RChunk chunk, rest, S k)
                     end
                 end
      end
  end.
End reader.

Definition streaming (req : OpenAIRequest) : OpenAIRequest :=
  mkOpenAIRequest (oq_Model req) (oq_Messages req) (oq_Temperature req) (oq_MaxTokens req) (oq_TopP req) true
    (oq_Tools req) (oq_ToolChoice req) (oq_Stop req) (oq_PresencePenalty req) (oq_FrequencyPenalty req) (oq_User req)
    (oq_N req) (oq_ResponseFormat req).

(** [newStreamReader]: the response, an error, or a panic. *)
Definition newStreamReader (url : string) (req : OpenAIRequest) (headers : gmap string string)
    : Http (option (result GoErr HttpResponse)) :=
  match encode_request req with
  | Err err => hret (Some (Err (WrapError "failed to marshal request" (OtherError err))))
  | Ok bodyBytes =>
      reply <~ DoRequest "POST" url (Some bodyBytes) headers;
      match reply with
      | (_, Some err) => hret (Some (Err err))
      | (Some resp, None) => hret (Some (Ok resp))
      | (None, None) => hret None
      end
  end.

(** The stream that the goroutine starts with; its reads are [Read] with the
    error of the scanner. *)
Definition opened (resp : HttpResponse) : Stream (list string) := started (scan_lines resp).1.

Definition StreamCompletion (req : option PRequest) : Http (option (result GoErr (Stream (list string)))) :=
  match validateRequest req, req with
  | Some err, _ => hret (Some (Err err))
  | None, None => hret None
  | None, Some req =>
      config <~ get_config;
      r <~ newStreamReader (completions_url config) (streaming (transformRequest req))
             (<["Accept" := "text/event-stream"]> (base_headers config));
      match r with
      | None => hret None
      | Some (Err err) => hret (Some (Err err))
      | Some (Ok resp) => hret (Some (Ok (opened resp)))
      end
  end.

(** The chunks that a consumer gets which receives each at once. *)
Definition chunks_of (name : string) (ctx : nat -> option GoErr) (resp : HttpResponse) : option (list StreamChunk) :=
  let '(lines, scanErr) := scan_lines resp in
  pump ctx (Read name ctx scanErr) (S (length lines)) lines 0.
End client.

(** ** What the translation keeps *)

(** A request without the tool calls of its messages. *)
Definition forget_calls (req : PRequest) : PRequest :=
  mkPRequest (pr_Model req)
    ((fun m => mkPMessage (pm_Role m) (pm_Content m) (pm_Name m) [] (pm_ToolCallID m)) <$> pr_Messages req)
    (pr_Temperature req) (pr_MaxTokens req) (pr_TopP req) (pr_Stream req) (pr_Tools req) (pr_ToolChoice req) (pr_Stop req)
    (pr_PresencePenalty req) (pr_FrequencyPenalty req) (pr_User req).

(** Reading a wire request back. *)
Definition untransform (q : OpenAIRequest) : PRequest :=
  mkPRequest (oq_Model q)
    ((fun m => mkPMessage (om_Role m) (om_Content m) (om_Name m) [] (om_ToolCallID m)) <$> oq_Messages q)
    (oq_Temperature q) (oq_MaxTokens q) (oq_TopP q) (oq_Stream q)
    ((fun t => mkTool (ot_Type t) (mkFunctionDefinition (ofd_Name (ot_Function t)) (ofd_Description (ot_Function t))
       (ofd_Parameters (ot_Function t)))) <$> oq_Tools q)
    (oq_ToolChoice q) (oq_Stop q) (oq_PresencePenalty q) (oq_FrequencyPenalty q) (oq_User q).

Lemma untransform_transform req : untransform (transformRequest req) = forget_calls req.
Proof.
  unfold untransform, transformRequest, forget_calls. simpl. rewrite <- !list_fmap_compose. f_equal.
  transitivity (id <$> pr_Tools req); [|apply list_fmap_id]. apply list_fmap_ext. by intros _ [? [? ? ?]] _.
Qed.

(** What reaches OpenAI.  The wire request can be read back to everything of the
    neutral request except the tool calls that assistant messages made: two
    requests are sent alike exactly when they differ in those alone.  A tool result
    then answers a call that is missing from the conversation. *)
Theorem openai_request_forgets_calls r1 r2 :
  untransform (transformRequest r1) = forget_calls r1 /\
  (transformRequest r1 = transformRequest r2 <-> forget_calls r1 = forget_calls r2).
Proof.
  split; [apply untransform_transform|]. split.
  - intros E. by rewrite <- !untransform_transform, E.
  - assert (Hf : forall r, transformRequest (forget_calls r) = transformRequest r).
    { intros r. unfold transformRequest, forget_calls. simpl. by rewrite <- list_fmap_compose. }
    intros E. by rewrite <- (Hf r1), <- (Hf r2), E.
Qed.

(** ** Streams *)

Section stream.
Context `{OpenAICodec} (name : string) (scanErr : option GoErr).

(** The chunks of an uninterrupted stream. *)
Fixpoint expected (lines : list string) : list StreamChunk :=
  match lines with
  | [] => [error_chunk (match scanErr with Some err => StreamError name "failed to read stream" (Some err) | None => io_EOF end)]
  | line :: rest =>
      if String.eqb line "" || negb (HasPrefix line "data: ") then expected rest
      else
        let data := TrimPrefix line "data: " in
        if String.eqb data "[DONE]" then [error_chunk io_EOF]
        else match decode_stream data with
             | Err err => [error_chunk (ParseError name data (Some (WrapError "failed to parse stream chunk" (OtherError err))))]
             | Ok c =>
                 match transformStreamChunk c with
                 | Err err => [error_chunk (ParseError name "" (Some (OtherError err)))]
                 | Ok chunk =>
                     if negb (String.eqb (sc_FinishReason chunk) "") then [chunk] else chunk :: expected rest
                 end
             end
  end.

Lemma transformStreamChunk_error c chunk : transformStreamChunk c = Ok chunk -> sc_Error chunk = None.
Proof using. unfold transformStreamChunk. destruct (os_Choices c); [done|]. by intros [= <-]. Qed.

Lemma Read_progress ctx : progress (Read name ctx scanErr) length.
Proof using.
  intros lines. induction lines as [|line rest IH]; intros k c r' k'; cbn [Read]; [by destruct (ctx k)|].
  destruct (ctx k); [done|]. destruct (String.eqb line ""); [intros E; apply IH in E as [? ?]; simpl; split; [lia|done]|].
  destruct (negb _); [intros E; apply IH in E as [? ?]; simpl; split; [lia|done]|].
  destruct (String.eqb _ "[DONE]"); [done|]. destruct (decode_stream _) as [c'|]; [|done].
  destruct (transformStreamChunk c') as [chunk|] eqn:Ht; [|done]. intros [= <- <- _]. simpl. split; [lia|].
  by eapply transformStreamChunk_error.
Qed.

Lemma pump_expected fuel lines k :
  (length lines < fuel)%nat ->
  pump (fun _ => None) (Read name (fun _ => None) scanErr) fuel lines k = Some (expected lines).
Proof using.
  revert lines k. induction fuel as [|fuel IH]; intros lines k Hf; [lia|]. cbn [pump].
  assert (Hgo : forall lines k, (length lines < S fuel)%nat ->
    (let '(out, r, k) := Read name (fun _ => None) scanErr lines k in
     match out with
     | RErr e => Some [error_chunk e]
     | REnd => Some []
     | RChunk chunk =>
         if negb (String.eqb (sc_FinishReason chunk) "") then Some [chunk]
         else cons chunk <$> pump (fun _ => None) (Read name (fun _ => None) scanErr) fuel r (S k)
     end) = Some (expected lines)); [|by apply Hgo].
  clear lines k Hf. induction lines as [|line rest IHl]; intros k Hf; cbn [Read expected]; [done|]. simpl in Hf.
  destruct (String.eqb line ""); cbn [orb]; [apply IHl; lia|].
  destruct (negb (HasPrefix line "data: ")); [apply IHl; lia|].
  destruct (String.eqb _ "[DONE]"); [done|]. destruct (decode_stream _) as [c'|]; [|done].
  destruct (transformStreamChunk c') as [chunk|]; [|done]. destruct (negb _); [done|]. by rewrite IH by lia.
Qed.
End stream.

Lemma Read_blind `{OpenAICodec} name ctx scanErr lines k k' :
  (forall k, ctx k = None) -> (Read name ctx scanErr lines k).1 = (Read name ctx scanErr lines k').1.
Proof.
  intros Hc. revert k k'. induction lines as [|line lines IH]; intros k k'; cbn [Read]; rewrite !Hc; [done|].
  repeat case_match; done || apply IH.
Qed.

Lemma chunks_expected `{OpenAICodec} name ctx resp :
  (forall k, ctx k = None) ->
  chunks_of name ctx resp = Some (expected name (scan_lines resp).2 (scan_lines resp).1).
Proof.
  intros Hctx. unfold chunks_of. destruct (scan_lines resp) as [lines scanErr].
  rewrite (pump_ext ctx (fun _ => None) _ (Read name (fun _ => None) scanErr)); [cbn [fst snd]; by rewrite pump_expected by lia|done|].
  intros ls. induction ls as [|line ls IH]; intros k; cbn [Read]; rewrite Hctx; [done|]. repeat case_match; try done; apply IH.
Qed.

(** C36: streams, in every interleaving of the goroutine with its consumer.  At
    most 100 chunks wait in the channel, and at most the last chunk that is sent
    carries an error or a finish reason.  Whatever happened so far, a consumer that
    goes on receiving gets the stream to its end, where the channel is closed and
    empty, in a bounded number of steps.  The goroutine has no step at all exactly
    when it has closed the channel or when it has an error to report and the
    channel is full: that send does not watch the context, so without a consumer
    the goroutine never ends.  Without a cancellation what is sent is at any time
    the beginning of, and when the channel is closed all of, the chunks of the data
    lines in order, up to the first with a finish reason; a stream that ends before
    one, also by the end marker of the protocol, is reported as an error
    ([io.EOF]). *)
Theorem openai_stream `{OpenAICodec} name ctx resp s :
  let read := Read name ctx (scan_lines resp).2 in
  rtc (step ctx read) (opened resp) s ->
  (length (s_chan s) <= 100)%nat /\ well_ended (sent s) /\
  (exists s', rtc (advances ctx read) s s' /\ drained s') /\
  (forall n s', nsteps (advances ctx read) n s s' -> (n <= potential length s)%nat) /\
  ((forall s', ~ goroutine ctx read s s' /\ ~ waits ctx s s') <->
   s_phase s = PClosed \/ exists e, s_phase s = PFailing e /\ length (s_chan s) = 100%nat) /\
  ((forall k, ctx k = None) ->
   let all := expected name (scan_lines resp).2 (scan_lines resp).1 in
   (exists rest, sent s ++ rest = all) /\ (s_phase s = PClosed -> sent s = all)).
Proof.
  intros read Hr.
  destruct (stream_correct ctx read length (Read_progress name _ ctx) _ s Hr) as (Hs & Hb & Hd & Hst).
  split; [apply Hs|]. split; [by apply shape_well_ended|]. split; [done|]. split; [done|]. split; [done|].
  intros Hctx all. pose proof (chunks_expected name ctx resp Hctx) as Hp. unfold chunks_of in Hp. subst read.
  unfold opened in Hr. destruct (scan_lines resp) as [lines scanErr].
  eapply stream_complete; [done| |exact Hp|exact Hr]. intros. by apply Read_blind.
Qed.

(** ** Completions *)


(** A completion always returns.  It succeeds only for a request that passes
    validation, with the translation of the decoded body of a 2xx response; a body
    without choices, and an empty one, are parse errors. *)
Theorem openai_completion `{MapRange} `{OpenAICodec} req w s :
  0 <= pc_MaxRetries (hp_config (hs_p s)) ->
  exists r s', SendCompletion req w s = (Some r, s') /\
    match r with
    | Ok resp => validateRequest req = None /\
        exists http body, accepted_status (hr_StatusCode http) /\ decode_response (hr_Body http) = Ok body /\
          transformResponse body = Ok resp
    | Err _ => True
    end.
Proof.
  intros Hm. unfold SendCompletion. destruct (validateRequest req) as [err|] eqn:Hv; [by eexists _, _|].
  destruct req as [req|]; [|done]. unfold hbind at 1, get_config at 1. unfold hbind at 1.
  edestruct (json_outcome "POST" (completions_url (hp_config (hs_p s))) (encode_request (transformRequest req)) decode_response
    (base_headers (hp_config (hs_p s))) w s Hm) as (r & s' & -> & _ & Hr).
  destruct r as [[body|]|err]; [| |by eexists _, _].
  - destruct Hr as (http & Ha & Hd). simpl. destruct (transformResponse body) as [resp|] eqn:Ht; eexists _, _; (split; [reflexivity|]);
      [|done]. split; [done|]. by exists http, body.
  - by eexists _, _.
Qed.

(** ** Examples *)

Definition say (finish text : string) : OpenAIStreamResponse :=
  mkOpenAIStreamResponse "c1" "" 7 "gpt-4" [mkOpenAIStreamChoice 0 (mkOpenAIStreamDelta "" text []) finish] None.

(** Payloads that stand for themselves: the text, or "finish". *)
Definition toy_codec : OpenAICodec := {|
  encode_request _ := Ok "{}";
  decode_response b := Ok (mkOpenAIResponse "c1" "" 7 "gpt-4"
    [mkOpenAIChoice 0 (mkOpenAIMessage "assistant" b "" "" []) "stop"] (mkOpenAIUsage 1 1 2));
  decode_stream d := if String.eqb d "finish" then Ok (say "stop" "") else Ok (say "" d);
|}.

Lemma openai_completion_witness :
  let req := mkPRequest "gpt-4" [mkPMessage "user" "hi" "" [] ""] fzero 0 fzero false [] VNil [] fzero fzero "" in
  exists r s', SendCompletion (H := some_range) (H0 := toy_codec) (Some req) flaky_net ex_state = (Some r, s') /\
    (ps_Content <$> (match r with Ok resp => Some resp | Err _ => None end)) = Some "body".
Proof.
  intros req.
  destruct (openai_completion (H := some_range) (H0 := toy_codec) (Some req) flaky_net ex_state ltac:(vm_compute; discriminate))
    as (r & s' & E & _).
  exists r, s'. split; [exact E|].
  assert (E' : (SendCompletion (H := some_range) (H0 := toy_codec) (Some req) flaky_net ex_state).1 = Some r) by (rewrite E; reflexivity).
  vm_compute in E'. injection E' as <-. reflexivity.
Defined.

Definition nl : string := String "010" "".

(** The end marker without a finish reason is an error; with one it is not seen. *)
Example openai_streams :
  let body l := mkHttpResponse 200 (fun _ => "") (String.concat nl l) None in
  (map sc_Delta <$> chunks_of (H0 := toy_codec) "p" (fun _ => None) (body ["data: he"; ""; "data: llo"; "data: finish"; "data: [DONE]"]))
    = Some ["he"; "llo"; ""] /\
  (map sc_Error <$> chunks_of (H0 := toy_codec) "p" (fun _ => None) (body [": comment"; "data: he"; "data: [DONE]"]))
    = Some [None; Some io_EOF].
Proof. vm_compute. split; reflexivity. Qed.

(** A stream of 100 chunks without a finish reason, and nobody who receives: the
    buffer is full when the end of the stream is to be reported. *)
Definition long_body : HttpResponse := mkHttpResponse 200 (fun _ => "") (String.concat nl (replicate 100 "data: x")) None.

Definition abandoned : Stream (list string) :=
  Nat.iter 201 (alone (fun _ => None) (Read (H0 := toy_codec) "p" (fun _ => None) None)) (opened long_body).

Lemma openai_stream_witness :
  s_phase abandoned = PFailing io_EOF /\
  let read := Read (H0 := toy_codec) "p" (fun _ => None) None in
  (forall s', ~ goroutine (fun _ => None) read abandoned s' /\ ~ waits (fun _ => None) abandoned s') /\
  exists s', rtc (advances (fun _ => None) read) abandoned s' /\ drained s'.
Proof.
  split; [vm_compute; reflexivity|]. intros read.
  destruct (openai_stream (H := toy_codec) "p" (fun _ => None) long_body abandoned) as (_ & _ & D & _ & W & _).
  { apply alone_steps. }
  split; [|exact D]. apply W. right. exists io_EOF. split; vm_compute; reflexivity.
Defined.
