(* ===== verification/ProviderAnthropic.v ===== *)
(** * The Anthropic client ([pkg/providers/anthropic])

    The wire types, the translation with its check of alternating roles
    ([transform.go]), the client ([client.go]) and the reader of server-sent
    events ([streaming.go]).  JSON encoding and decoding of the plain wire types
    are parameters; the custom decoding of stream events is modelled. *)

From Stdlib Require Import ZArith Lia Ascii.
From stdpp Require Import base option list strings gmap pretty.
From S2P Require Import Prelude Float64 GoValue ProviderTypes ProviderHttp ProviderStream ProviderOpenAI.
Local Open Scope Z_scope.
Local Open Scope http_scope.

(** ** Wire types *)

(** The content is a string or a list of blocks; the code sends strings. *)
Record AnthropicMessage := mkAnthropicMessage { am_Role : string; am_Content : GoValue }.

Record ContentBlock := mkContentBlock {
  cb_Type : string;
  cb_Text : string;
  cb_ID : string;
  cb_Name : string;
  cb_Input : option (list (string * GoValue));
  cb_ToolUseID : string;
  cb_Content : string;
}.

Record AnthropicTool := mkAnthropicTool {
  at_Name : string;
  at_Description : string;
  at_InputSchema : option (list (string * GoValue));
}.

Record AnthropicRequest := mkAnthropicRequest {
  aq_Model : string;
  aq_Messages : list AnthropicMessage;
  aq_System : string;
  aq_MaxTokens : Z;
  aq_Temperature : float64;
  aq_TopP : float64;
  aq_Stream : bool;
  aq_Tools : list AnthropicTool;
  aq_StopSequences : list string;
}.

Record AnthropicUsage := mkAnthropicUsage { au_InputTokens : Z; au_OutputTokens : Z }.

Record AnthropicResponse := mkAnthropicResponse {
  ar_ID : string;
  ar_Type : string;
  ar_Role : string;
  ar_Content : list ContentBlock;
  ar_Model : string;
  ar_StopReason : string;
  ar_StopSequence : string;
  ar_Usage : AnthropicUsage;
}.

Record ContentBlockDelta := mkContentBlockDelta { cbd_Type : string; cbd_Text : string }.

Record MessageDelta := mkMessageDelta { md_StopReason : string; md_StopSequence : string }.

Record AnthropicStreamEvent := mkAnthropicStreamEvent {
  ae_Type : string;
  ae_Message : option AnthropicResponse;
  ae_Index : Z;
  ae_ContentBlock : option ContentBlock;
  ae_Delta : option ContentBlockDelta;
  ae_Delta2 : option MessageDelta;
  ae_Usage : option AnthropicUsage;
}.

Definition zero_event : AnthropicStreamEvent := mkAnthropicStreamEvent "" None 0 None None None None.

Definition with_type (e : AnthropicStreamEvent) (ty : string) : AnthropicStreamEvent :=
  mkAnthropicStreamEvent ty (ae_Message e) (ae_Index e) (ae_ContentBlock e) (ae_Delta e) (ae_Delta2 e) (ae_Usage e).
Definition with_delta (e : AnthropicStreamEvent) (d : ContentBlockDelta) : AnthropicStreamEvent :=
  mkAnthropicStreamEvent (ae_Type e) (ae_Message e) (ae_Index e) (ae_ContentBlock e) (Some d) (ae_Delta2 e) (ae_Usage e).
Definition with_delta2 (e : AnthropicStreamEvent) (d : MessageDelta) : AnthropicStreamEvent :=
  mkAnthropicStreamEvent (ae_Type e) (ae_Message e) (ae_Index e) (ae_ContentBlock e) (ae_Delta e) (Some d) (ae_Usage e).

(** JSON of the wire types: an event comes with its raw "delta" member, of which
    [Unmarshal] leaves the typed fields alone. *)
Class AnthropicCodec : Type := {
  encode_messages : AnthropicRequest -> result string string;
  decode_message : string -> result string AnthropicResponse;
  decode_event : string -> result string (AnthropicStreamEvent * string);
  decode_block_delta : string -> result string ContentBlockDelta;
  decode_message_delta : string -> result string MessageDelta;
  marshal_input : option (list (string * GoValue)) -> result string string;
}.

Definition UnmarshalJSON `{AnthropicCodec} (data : string) : result string AnthropicStreamEvent :=
  match decode_event data with
  | Err err => Err err
  | Ok (e, rawDelta) =>
      if 0 <? Z.of_nat (String.length rawDelta) then
        if String.eqb (ae_Type e) "content_block_delta" then
          match decode_block_delta rawDelta with Ok d => Ok (with_delta e d) | Err err => Err err end
        else if String.eqb (ae_Type e) "message_delta" then
          match decode_message_delta rawDelta with Ok d => Ok (with_delta2 e d) | Err err => Err err end
        else Ok e
      else Ok e
  end.

(** ** Requests *)

Definition RoleSystem : string := "system".
Definition RoleUser : string := "user".

(** The loop from index [i] on; [prev] is the role before it. *)
Fixpoint check_alternation (prev : string) (i : Z) (messages : list AnthropicMessage) : option GoErr :=
  match messages with
  | [] => None
  | m :: messages =>
      let curr := am_Role m in
      if String.eqb prev curr then
        Some (PValidationError "messages"
          ("messages must alternate between user and assistant (Anthropic requirement), found consecutive " +:+ curr +:+
           " messages at index " +:+ pretty i))
      else check_alternation curr (i + 1) messages
  end.

Definition validateMessageSequence (messages : list AnthropicMessage) : option GoErr :=
  match messages with
  | [] => None
  | m :: rest =>
      if negb (String.eqb (am_Role m) RoleUser) then
        Some (PValidationError "messages" "first message must be from user (Anthropic requirement)")
      else check_alternation (am_Role m) 1 rest
  end.

(** The loop that separates system messages: the last one, and the others. *)
Fixpoint split_system (messages : list PMessage) (systemMessage : string) (acc : list AnthropicMessage)
    : string * list AnthropicMessage :=
  match messages with
  | [] => (systemMessage, acc)
  | msg :: messages =>
      if String.eqb (pm_Role msg) RoleSystem then split_system messages (pm_Content msg) acc
      else split_system messages systemMessage (acc ++ [mkAnthropicMessage (pm_Role msg) (VString (pm_Content msg))])
  end.

Definition transformATool (tool : Tool) : AnthropicTool :=
  mkAnthropicTool (fd_Name (tool_Function tool)) (fd_Description (tool_Function tool)) (fd_Parameters (tool_Function tool)).

Definition default_max_tokens : Z := 4096.

Definition transformARequest (req : PRequest) : result GoErr AnthropicRequest :=
  let '(system, messages) := split_system (pr_Messages req) "" [] in
  match validateMessageSequence messages with
  | Some err => Err err
  | None =>
      Ok (mkAnthropicRequest (pr_Model req) messages system
            (if pr_MaxTokens req =? 0 then default_max_tokens else pr_MaxTokens req)
            (pr_Temperature req) (pr_TopP req) (pr_Stream req) (transformATool <$> pr_Tools req) (pr_Stop req))
  end.

(** ** Responses *)

Definition normalizeStopReason (reason : string) : string :=
  if String.eqb reason "end_turn" then FinishReasonStop
  else if String.eqb reason "max_tokens" then FinishReasonLength
  else if String.eqb reason "tool_use" then FinishReasonToolCalls
  else if String.eqb reason "stop_sequence" then FinishReasonStop
  else reason.

Fixpoint collect_blocks `{AnthropicCodec} (blocks : list ContentBlock) (content : string) (toolCalls : list ToolCall)
    : result string (string * list ToolCall) :=
  match blocks with
  | [] => Ok (content, toolCalls)
  | block :: blocks =>
      if String.eqb (cb_Type block) "text" then collect_blocks blocks (content +:+ cb_Text block) toolCalls
      else if String.eqb (cb_Type block) "tool_use" then
        match marshal_input (cb_Input block) with
        | Err err => Err ("failed to marshal tool input: " +:+ err)
        | Ok argsJSON =>
            collect_blocks blocks content
              (toolCalls ++ [mkToolCall (cb_ID block) "function" (mkFunctionCall (cb_Name block) argsJSON)])
        end
      else collect_blocks blocks content toolCalls
  end.

Definition usage_of (u : AnthropicUsage) : PUsage :=
  mkPUsage (au_InputTokens u) (au_OutputTokens u) (add64 (au_InputTokens u) (au_OutputTokens u)).

Definition transformAResponse `{AnthropicCodec} (resp : AnthropicResponse) : result string PResponse :=
  match collect_blocks (ar_Content resp) "" [] with
  | Err err => Err err
  | Ok (content, toolCalls) =>
      Ok (mkPResponse (ar_ID resp) (ar_Model resp) content (normalizeStopReason (ar_StopReason resp))
            (usage_of (ar_Usage resp)) toolCalls 0 [])
  end.

(** ** Stream events *)

Record streamState := mkStreamState { ss_id : string; ss_model : string }.

(** The chunk of an event, if it has one, and the new state. *)
Definition transformStreamEvent (event : AnthropicStreamEvent) (state : streamState)
    : result string (option StreamChunk) * streamState :=
  let ty := ae_Type event in
  if String.eqb ty "message_start" then
    (Ok None, match ae_Message event with Some m => mkStreamState (ar_ID m) (ar_Model m) | None => state end)
  else if String.eqb ty "content_block_start" then (Ok None, state)
  else if String.eqb ty "content_block_delta" then
    (match ae_Delta event with
     | Some d =>
         if negb (String.eqb (cbd_Text d) "")
         then Ok (Some (mkStreamChunk (ss_id state) (ss_model state) (cbd_Text d) "" [] None None 0))
         else Ok None
     | None => Ok None
     end, state)
  else if String.eqb ty "content_block_stop" then (Ok None, state)
  else if String.eqb ty "message_delta" then
    (Ok (Some (mkStreamChunk (ss_id state) (ss_model state) ""
       (match ae_Delta2 event with Some d => normalizeStopReason (md_StopReason d) | None => "" end) []
       (usage_of <$> ae_Usage event) None 0)), state)
  else if String.eqb ty "message_stop" then (Ok None, state)
  else if String.eqb ty "ping" then (Ok None, state)
  else (Err ("unknown stream event type: " +:+ ty), state).

Section reader.
Context `{AnthropicCodec} (name : string) (ctx : nat -> option GoErr) (scanErr : option GoErr).

(** The loop of [readEvent] over the lines: the event type, the data lines, the
    lines that are left, and whether the lines ran out. *)
Fixpoint read_fields (lines : list string) (eventType : string) (dataLines : list string)
    : string * list string * list string * bool :=
  match lines with
  | [] => (eventType, dataLines, [], true)
  | line :: rest =>
      if String.eqb line "" then
        if negb (String.eqb eventType "") || (0 <? Z.of_nat (length dataLines)) then (eventType, dataLines, rest, false)
        else read_fields rest eventType dataLines
      else if HasPrefix line "event: " then read_fields rest (TrimPrefix line "event: ") dataLines
      else if HasPrefix line "data: " then read_fields rest eventType (dataLines ++ [TrimPrefix line "data: "])
      else read_fields rest eventType dataLines
  end.

Definition newline : string := String "010" "".

(** Lines end with a line feed or with the body. *)
Definition readEvent (lines : list string) : result GoErr AnthropicStreamEvent * list string :=
  let '(eventType, dataLines, rest, ran_out) := read_fields lines "" [] in
  match (if ran_out then scanErr else None) with
  | Some err => (Err err, rest)
  | None =>
      if String.eqb eventType "" && (Z.of_nat (length dataLines) =? 0) then (Err io_EOF, rest)
      else
        let data := String.concat newline dataLines in
        match (if negb (String.eqb data "") then UnmarshalJSON data else Ok zero_event) with
        | Err err => (Err (ParseError name data (Some (WrapError "failed to parse stream event" (OtherError err)))), rest)
        | Ok event =>
            (Ok (if negb (String.eqb eventType "") && String.eqb (ae_Type event) "" then with_type event eventType else event), rest)
        end
  end.

Definition is_EOF (e : GoErr) : bool := match e with OtherError m => String.eqb m "EOF" | _ => false end.

(** [streamReader.Read]; the fuel bounds the events. *)
Fixpoint ReadEvents (fuel : nat) (lines : list string) (state : streamState) (k : nat)
    : ReadOut * (list string * streamState) * nat :=
  match fuel with
  | O => (RErr io_EOF, (lines, state), k)
  | S fuel =>
      match ctx k with
      | Some err => (RErr err, (lines, state), S k)
      | None =>
          match readEvent lines with
          | (Err err, rest) =>
              (RErr (if is_EOF err then io_EOF else StreamError name "failed to read stream" (Some err)), (rest, state), S k)
          | (Ok event, rest) =>
              match transformStreamEvent event state with
              | (Err err, state) => (RErr (ParseError name "" (Some (OtherError err))), (rest, state), S k)
              | (Ok None, state) => ReadEvents fuel rest state (S k)
              | (Ok (Some chunk), state) =>
                  if String.eqb (ae_Type event) "message_stop" then (RErr io_EOF, (rest, state), S k)
                  else (RChunk chunk, (rest, state), S k)
              end
          end
      end
  end.

Definition ARead (st : list string * streamState) (k : nat) : ReadOut * (list string * streamState) * nat :=
  ReadEvents (S (length st.1)) st.1 st.2 k.
End reader.

(** ** The client *)

Definition DefaultAnthropicVersion : string := "2023-06-01".

Definition NewAProvider (config : ProviderConfig) : result GoErr ProviderConfig :=
  if String.eqb (pc_Name config) "" then Err (ConfigError "anthropic" "name" "provider name is required")
  else if String.eqb (pc_APIKey config) "" then
    Err (ConfigError (pc_Name config) "api_key" "API key is required for Anthropic")
  else Ok (mkProviderConfig (pc_Name config) (pc_Type config) (or_string (pc_BaseURL config) "https://api.anthropic.com")
             (pc_APIKey config) (pc_Timeout config) (or_default (pc_MaxRetries config) 3) (pc_HealthCheckInterval config)
             (or_default (pc_MaxIdleConns config) 100) (or_default (pc_MaxIdleConnsPerHost config) 10)
             (pc_IdleConnTimeout config)).

Definition zero_aresponse : AnthropicResponse := mkAnthropicResponse "" "" "" [] "" "" "" (mkAnthropicUsage 0 0).

Section client.
Context `{MapRange} `{AnthropicCodec}.

Definition messages_url (config : ProviderConfig) : string := pc_BaseURL config +:+ "/v1/messages".

Definition anthropic_headers (config : ProviderConfig) : gmap string string :=
  {[ "x-api-key" := pc_APIKey config; "anthropic-version" := DefaultAnthropicVersion; "Content-Type" := "application/json" ]}.

(** The validation of a request is the same as that of the OpenAI client. *)
Definition ASendCompletion (req : option PRequest) : Http (option (result GoErr PResponse)) :=
  match validateRequest req, req with
  | Some err, _ => hret (Some (Err err))
  | None, None => hret None
  | None, Some req =>
      match transformARequest req with
      | Err err => hret (Some (Err err))
      | Ok anthropicReq =>
          config <~ get_config;
          r <~ DoJSONRequest "POST" (messages_url config) (Some (encode_messages anthropicReq)) decode_message
                 (anthropic_headers config);
          match r with
          | None => hret None
          | Some (Err err) => hret (Some (Err err))
          | Some (Ok resp) =>
              hret (Some (match transformAResponse (default zero_aresponse resp) with
                          | Ok resp => Ok resp
                          | Err err => Err (ParseError (pc_Name config) "" (Some (OtherError err)))
                          end))
          end
      end
  end.

Definition streaming_messages (r : AnthropicRequest) : AnthropicRequest :=
  mkAnthropicRequest (aq_Model r) (aq_Messages r) (aq_System r) (aq_MaxTokens r) (aq_Temperature r) (aq_TopP r) true
    (aq_Tools r) (aq_StopSequences r).

Definition newAStreamReader (url : string) (req : AnthropicRequest) (headers : gmap string string)
    : Http (option (result GoErr HttpResponse)) :=
  match encode_messages req with
  | Err err => hret (Some (Err (WrapError "failed to marshal request" (OtherError err))))
  | Ok bodyBytes =>
      reply <~ DoRequest "POST" url (Some bodyBytes) headers;
      match reply with
      | (_, Some err) => hret (Some (Err err))
      | (Some resp, None) => hret (Some (Ok resp))
      | (None, None) => hret None
      end
  end.

Definition aopened (resp : HttpResponse) : Stream (list string * streamState) :=
  started ((scan_lines resp).1, mkStreamState "" "").

Definition AStreamCompletion (req : option PRequest)
    : Http (option (result GoErr (Stream (list string * streamState)))) :=
  match validateRequest req, req with
  | Some err, _ => hret (Some (Err err))
  | None, None => hret None
  | None, Some req =>
      match transformARequest req with
      | Err err => hret (Some (Err err))
      | Ok anthropicReq =>
          config <~ get_config;
          r <~ newAStreamReader (messages_url config) (streaming_messages anthropicReq)
                 (<["Accept" := "text/event-stream"]> (anthropic_headers config));
          match r with
          | None => hret None
          | Some (Err err) => hret (Some (Err err))
          | Some (Ok resp) => hret (Some (Ok (aopened resp)))
          end
      end
  end.

(** The chunks that a consumer gets which receives each at once. *)
Definition achunks_of (name : string) (ctx : nat -> option GoErr) (resp : HttpResponse) : option (list StreamChunk) :=
  let '(lines, scanErr) := scan_lines resp in
  pump ctx (ARead name ctx scanErr) (S (length lines)) (lines, mkStreamState "" "") 0.
End client.

(** ** Requests: what is accepted and what is kept *)

(** Roles that start with the user and never repeat. *)
Fixpoint no_repeat (prev : string) (roles : list string) : Prop :=
  match roles with
  | [] => True
  | r :: roles => prev <> r /\ no_repeat r roles
  end.

Definition alternating (roles : list string) : Prop :=
  match roles with
  | [] => True
  | r :: roles => r = RoleUser /\ no_repeat r roles
  end.

Lemma check_alternation_spec prev i ms : check_alternation prev i ms = None <-> no_repeat prev (am_Role <$> ms).
Proof.
  revert prev i. induction ms as [|m ms IH]; intros prev i; simpl; [done|].
  destruct (String.eqb_spec prev (am_Role m)) as [E|Hn]; [by split; [|intros [? _]]|]. rewrite IH. tauto.
Qed.

Lemma validateMessageSequence_spec ms : validateMessageSequence ms = None <-> alternating (am_Role <$> ms).
Proof.
  destruct ms as [|m ms]; simpl; [done|]. destruct (String.eqb_spec (am_Role m) RoleUser) as [E|Hn]; simpl.
  - rewrite check_alternation_spec. by split; [|intros [_ ?]].
  - by split; [|intros [? _]].
Qed.

Definition from_system (m : PMessage) : Prop := pm_Role m = RoleSystem.

Lemma split_system_spec ms system acc :
  split_system ms system acc =
  (default system (pm_Content <$> last (filter from_system ms)),
   (acc ++ ((fun m => mkAnthropicMessage (pm_Role m) (VString (pm_Content m))) <$> filter (fun m => ~ from_system m) ms))%list).
Proof.
  revert system acc. induction ms as [|m ms IH]; intros system acc; simpl; [by rewrite app_nil_r|].
  rewrite !filter_cons, !IH. unfold from_system in *.
  destruct (String.eqb_spec (pm_Role m) RoleSystem) as [E|Hn]; repeat case_decide; try tauto; f_equal.
  - rewrite last_cons. by destruct (last _).
  - by rewrite <- (assoc_L (++)%list).
Qed.

(** What reaches Anthropic.  A request is accepted exactly when its non-system
    messages start with the user and no two in a row have the same role; these
    messages are then sent in order, with the last system message as the system
    prompt (earlier ones are dropped) and a positive token limit. *)
Theorem anthropic_request req :
  let others := filter (fun m => ~ from_system m) (pr_Messages req) in
  match transformARequest req with
  | Err _ => ~ alternating (pm_Role <$> others)
  | Ok q =>
      alternating (pm_Role <$> others) /\
      (fun m => (am_Role m, am_Content m)) <$> aq_Messages q = (fun m => (pm_Role m, VString (pm_Content m))) <$> others /\
      aq_System q = default "" (pm_Content <$> last (filter from_system (pr_Messages req))) /\
      (0 <= pr_MaxTokens req -> 0 < aq_MaxTokens q)
  end.
Proof.
  intros others. unfold transformARequest. rewrite split_system_spec. cbn [app].
  set (sent := (fun m => mkAnthropicMessage _ _) <$> filter _ _).
  assert (Hroles : am_Role <$> sent = pm_Role <$> others) by (subst sent; by rewrite <- list_fmap_compose).
  pose proof (validateMessageSequence_spec sent) as Hv. rewrite Hroles in Hv.
  destruct (validateMessageSequence sent).
  - rewrite <- Hv. done.
  - split; [by apply Hv|]. split; [subst sent; simpl; by rewrite <- list_fmap_compose|]. split; [done|].
    simpl. unfold default_max_tokens. destruct (Z.eqb_spec (pr_MaxTokens req) 0); lia.
Qed.

(** ** Streams *)

Section stream.
Context `{AnthropicCodec} (name : string) (scanErr : option GoErr).

Lemma read_fields_rest lines ty data t d rest out :
  read_fields lines ty data = (t, d, rest, out) -> (length rest <= length lines)%nat /\ (lines <> [] -> (length rest < length lines)%nat).
Proof using.
  revert ty data. induction lines as [|line lines IH]; intros ty data; cbn [read_fields].
  { intros [= _ _ <- _]. done. }
  repeat case_match; intros E; try (apply IH in E as [? _]; simpl; lia). injection E as _ _ <- _. simpl. lia.
Qed.

Lemma readEvent_rest lines e rest :
  readEvent name scanErr lines = (Ok e, rest) -> (length rest < length lines)%nat.
Proof using.
  unfold readEvent. destruct (read_fields lines "" []) as [[[t d] rest'] out] eqn:Hr.
  destruct lines as [|line lines].
  { injection Hr as <- <- <- <-. destruct scanErr; done. }
  apply read_fields_rest in Hr as [_ Hlt]. specialize (Hlt ltac:(done)).
  repeat case_match; intros Ee; try done; by injection Ee as _ <-.
Qed.

(** The events of the lines, and the error that ends them. *)
Fixpoint events_of (fuel : nat) (lines : list string) : list AnthropicStreamEvent * GoErr :=
  match fuel with
  | O => ([], io_EOF)
  | S fuel =>
      match readEvent name scanErr lines with
      | (Ok e, rest) => let '(es, err) := events_of fuel rest in (e :: es, err)
      | (Err err, _) => ([], if is_EOF err then io_EOF else StreamError name "failed to read stream" (Some err))
      end
  end.

Fixpoint chunks_of_events (es : list AnthropicStreamEvent) (final : GoErr) (state : streamState) : list StreamChunk :=
  match es with
  | [] => [error_chunk final]
  | e :: es =>
      match transformStreamEvent e state with
      | (Err err, _) => [error_chunk (ParseError name "" (Some (OtherError err)))]
      | (Ok None, state) => chunks_of_events es final state
      | (Ok (Some c), state) =>
          if negb (String.eqb (sc_FinishReason c) "") then [c] else c :: chunks_of_events es final state
      end
  end.

Lemma event_chunk e st c st' :
  transformStreamEvent e st = (Ok (Some c), st') -> sc_Error c = None /\ ae_Type e <> "message_stop".
Proof using.
  unfold transformStreamEvent. intros E. repeat case_match; simplify_eq; (split; [done|]); intros Hs; rewrite Hs in *; done.
Qed.

Lemma ReadEvents_chunk ctx fuel lines st k c lines' st' k' :
  ReadEvents name ctx scanErr fuel lines st k = (RChunk c, (lines', st'), k') ->
  (length lines' < length lines)%nat /\ sc_Error c = None.
Proof using.
  revert lines st k. induction fuel as [|fuel IH]; intros lines st k; cbn [ReadEvents]; [done|].
  destruct (ctx k); [done|]. destruct (readEvent name scanErr lines) as [[e|err] rest] eqn:Hr; [|done].
  apply readEvent_rest in Hr. destruct (transformStreamEvent e st) as [[[chunk|]|err] st1] eqn:Ht; [| |done].
  - case_match; [done|]. intros [= <- <- <- _]. split; [done|]. by apply event_chunk in Ht as [? _].
  - intros E. apply IH in E as [? ?]. split; [lia|done].
Qed.

Lemma ARead_progress ctx : progress (ARead name ctx scanErr) (fun st => length st.1).
Proof using. intros [lines st] k c [lines' st'] k' E. unfold ARead in E. by apply ReadEvents_chunk in E. Qed.

(** One read and what follows, in terms of the events. *)
Lemma ReadEvents_events fuel lines st k next :
  (length lines < fuel)%nat ->
  (forall lines' st' k' fuel', (length lines' < length lines)%nat -> (length lines' < fuel')%nat ->
     next lines' st' k' = Some (let '(es, final) := events_of fuel' lines' in chunks_of_events es final st')) ->
  (let '(out, (r, st), k) := ReadEvents name (fun _ => None) scanErr fuel lines st k in
   match out with
   | RErr e => Some [error_chunk e]
   | REnd => Some []
   | RChunk c => if negb (String.eqb (sc_FinishReason c) "") then Some [c] else cons c <$> next r st k
   end) = Some (let '(es, final) := events_of fuel lines in chunks_of_events es final st).
Proof using.
  revert lines st k. induction fuel as [|fuel IH]; intros lines st k Hf Hn; [lia|].
  cbn [ReadEvents events_of]. destruct (readEvent name scanErr lines) as [[e|err] rest] eqn:Hr; [|done].
  apply readEvent_rest in Hr. destruct (transformStreamEvent e st) as [[[c|]|err] st1] eqn:Ht.
  - destruct (event_chunk e st c st1 Ht) as [_ Hs]. apply String.eqb_neq in Hs. rewrite Hs.
    destruct (events_of fuel rest) as [es final] eqn:Ee. cbn [chunks_of_events]. rewrite Ht.
    destruct (negb _); [done|]. rewrite (Hn rest st1 (S k) fuel) by lia. by rewrite Ee.
  - specialize (IH rest st1 (S k) ltac:(lia)). rewrite IH.
    + destruct (events_of fuel rest) as [es final]. cbn [chunks_of_events]. by rewrite Ht.
    + intros. apply Hn; lia.
  - destruct (events_of fuel rest). cbn [chunks_of_events]. by rewrite Ht.
Qed.

Lemma events_of_fuel m1 m2 lines :
  (length lines < m1)%nat -> (length lines < m2)%nat -> events_of m1 lines = events_of m2 lines.
Proof using.
  revert m2 lines. induction m1 as [|m1 IH]; intros m2 lines H1 H2; [lia|]. destruct m2 as [|m2]; [lia|]. cbn [events_of].
  destruct (readEvent name scanErr lines) as [[e|err] rest] eqn:Hr; [|done]. apply readEvent_rest in Hr.
  by rewrite (IH m2 rest) by lia.
Qed.

Lemma pump_events fuel lines st k fuel' :
  (length lines < fuel)%nat -> (length lines < fuel')%nat ->
  pump (fun _ => None) (ARead name (fun _ => None) scanErr) fuel (lines, st) k =
  Some (let '(es, final) := events_of fuel' lines in chunks_of_events es final st).
Proof using.
  revert lines st k fuel'. induction fuel as [|fuel IH]; intros lines st k fuel' Hf Hf'; [lia|]. cbn [pump].
  rewrite (events_of_fuel fuel' (S (length lines))) by lia.
  rewrite <- (ReadEvents_events (S (length lines)) lines st k
    (fun l s k => pump (fun _ => None) (ARead name (fun _ => None) scanErr) fuel (l, s) (S k))); [|lia|].
  - unfold ARead at 1. cbn [fst snd].
    destruct (ReadEvents name (fun _ => None) scanErr (S (length lines)) lines st k) as [[out [r st']] k']. by destruct out.
  - intros lines' st' k' fuel2 Hl Hf2. apply IH; lia.
Qed.
End stream.

Lemma readEvent_ctx `{AnthropicCodec} name scanErr ctx fuel lines st k :
  (forall k, ctx k = None) ->
  ReadEvents name ctx scanErr fuel lines st k = ReadEvents name (fun _ => None) scanErr fuel lines st k.
Proof.
  intros Hc. revert lines st k. induction fuel as [|fuel IH]; intros lines st k; cbn [ReadEvents]; [done|].
  rewrite Hc. repeat case_match; done.
Qed.

Lemma ReadEvents_blind `{AnthropicCodec} name scanErr ctx fuel lines st k k' :
  (forall k, ctx k = None) ->
  (ReadEvents name ctx scanErr fuel lines st k).1 = (ReadEvents name ctx scanErr fuel lines st k').1.
Proof.
  intros Hc. revert lines st k k'. induction fuel as [|fuel IH]; intros lines st k k'; cbn [ReadEvents]; [done|].
  rewrite !Hc. repeat case_match; done || apply IH.
Qed.

Lemma achunks_events `{AnthropicCodec} name ctx resp :
  (forall k, ctx k = None) ->
  achunks_of name ctx resp =
    Some (let '(lines, scanErr) := scan_lines resp in
          let '(events, final) := events_of name scanErr (S (length lines)) lines in
          chunks_of_events name events final (mkStreamState "" "")).
Proof.
  intros Hctx. unfold achunks_of. destruct (scan_lines resp) as [lines scanErr].
  rewrite (pump_ext ctx (fun _ => None) _ (ARead name (fun _ => None) scanErr)); [|done|].
  - by rewrite (pump_events name scanErr _ _ _ _ (S (length lines))) by lia.
  - intros [ls st] k. by apply readEvent_ctx.
Qed.

(** Streams of events, in every interleaving of the goroutine with its consumer:
    at most the last chunk that is sent has an error or a finish reason, and a
    consumer that goes on receiving gets the stream to its end.  Without a
    cancellation the chunks are those of the events in order, up to the first with
    a stop reason; a stream that ends before one is reported as an error, also
    when it ends with the event "message_stop", which ends nothing. *)
Theorem anthropic_stream `{AnthropicCodec} name ctx resp s :
  let read := ARead name ctx (scan_lines resp).2 in
  rtc (step ctx read) (aopened resp) s ->
  well_ended (sent s) /\ (exists s', rtc (advances ctx read) s s' /\ drained s') /\
  ((forall k, ctx k = None) ->
   let '(lines, scanErr) := scan_lines resp in
   let '(events, final) := events_of name scanErr (S (length lines)) lines in
   let all := chunks_of_events name events final (mkStreamState "" "") in
   (exists rest, sent s ++ rest = all) /\ (s_phase s = PClosed -> sent s = all)).
Proof.
  intros read Hr.
  destruct (stream_correct ctx read (fun st => length st.1) (ARead_progress name _ ctx) _ s Hr) as (Hs & _ & Hd & _).
  split; [by apply shape_well_ended|]. split; [done|].
  intros Hctx. pose proof (achunks_events name ctx resp Hctx) as Hp. unfold achunks_of in Hp. subst read.
  unfold aopened in Hr. destruct (scan_lines resp) as [lines scanErr].
  destruct (events_of name scanErr (S (length lines)) lines) as [events final].
  eapply stream_complete; [done| |exact Hp|exact Hr]. intros [ls st] k k'. by apply ReadEvents_blind.
Qed.

(** A completion always returns; a success is the translation of the decoded body
    of a 2xx response (or of an empty one), for a request whose messages
    alternate. *)
Theorem anthropic_completion `{MapRange} `{AnthropicCodec} req w s :
  0 <= pc_MaxRetries (hp_config (hs_p s)) ->
  exists r s', ASendCompletion req w s = (Some r, s') /\
    match r with
    | Ok resp => exists q body http, req = Some q /\ is_Some (match transformARequest q with Ok x => Some x | Err _ => None end) /\
        accepted_status (hr_StatusCode http) /\
        (decode_message (hr_Body http) = Ok body \/ (hr_Body http = "" /\ body = zero_aresponse)) /\
        transformAResponse body = Ok resp
    | Err _ => True
    end.
Proof.
  intros Hm. unfold ASendCompletion. destruct (validateRequest req) as [err|] eqn:Hv; [by eexists _, _|].
  destruct req as [req|]; [|done]. destruct (transformARequest req) as [q|err] eqn:Hq; [|by eexists _, _].
  unfold hbind at 1, get_config at 1. unfold hbind at 1.
  edestruct (json_outcome "POST" (messages_url (hp_config (hs_p s))) (encode_messages q) decode_message
    (anthropic_headers (hp_config (hs_p s))) w s Hm) as (r & s' & -> & _ & Hr).
  destruct r as [body|err]; [|by eexists _, _].
  assert (Hh : exists http, accepted_status (hr_StatusCode http) /\ (decode_message (hr_Body http) = Ok (default zero_aresponse body)
    \/ (hr_Body http = "" /\ default zero_aresponse body = zero_aresponse))).
  { destruct body as [body|]; destruct Hr as (http & ? & ?); exists http; auto. }
  destruct Hh as (http & Ha & Hd).
  destruct (transformAResponse (default zero_aresponse body)) as [resp|] eqn:Ht; eexists _, _; (split; [reflexivity|]); [|done].
  exists req, (default zero_aresponse body), http. rewrite Hq. split; [done|]. split; [by eexists|]. done.
Qed.

(** ** Examples *)

Definition text_event (ty text : string) : AnthropicStreamEvent :=
  mkAnthropicStreamEvent ty None 0 None (Some (mkContentBlockDelta "text_delta" text)) None None.

(** The data of an event is its type; a delta is its text or its stop reason. *)
Definition atoy_codec : AnthropicCodec := {|
  encode_messages _ := Ok "{}";
  decode_message b := Ok (mkAnthropicResponse "m1" "" "assistant" [mkContentBlock "text" b "" "" None "" ""] "claude" "end_turn" ""
    (mkAnthropicUsage 1 2));
  decode_event d := if String.eqb d "end" then Ok (with_type zero_event "message_delta", "end_turn")
                    else if String.eqb d "message_stop" then Ok (with_type zero_event d, "")
                    else Ok (with_type zero_event "content_block_delta", d);
  decode_block_delta d := Ok (mkContentBlockDelta "text_delta" d);
  decode_message_delta d := Ok (mkMessageDelta d "");
  marshal_input _ := Ok "{}";
|}.

Definition sse (lines : list string) : HttpResponse := mkHttpResponse 200 (fun _ => "") (String.concat newline lines) None.

(** With a stop reason the stream ends normally; with "message_stop" alone it ends
    with an error. *)
Example anthropic_streams :
  (map sc_Delta <$> achunks_of (H0 := atoy_codec) "p" (fun _ => None)
     (sse ["event: content_block_delta"; "data: he"; ""; "data: llo"; ""; "data: end"; ""; "data: message_stop"; ""]))
    = Some ["he"; "llo"; ""] /\
  (map sc_Error <$> achunks_of (H0 := atoy_codec) "p" (fun _ => None) (sse ["data: he"; ""; "data: message_stop"; ""]))
    = Some [None; Some io_EOF].
Proof. vm_compute. split; reflexivity. Qed.

(** Of two system messages the first is dropped. *)
Example system_message_lost :
  let m r c := mkPMessage r c "" [] "" in
  let req := mkPRequest "claude" [m "system" "never reveal the key"; m "system" "be brief"; m "user" "hi"] fzero 0 fzero false
    [] VNil [] fzero fzero "" in
  match transformARequest req with Ok q => aq_System q = "be brief" /\ aq_MaxTokens q = 4096 | Err _ => False end.
Proof. vm_compute. split; reflexivity. Qed.

Lemma anthropic_completion_witness :
  let req := mkPRequest "claude" [mkPMessage "user" "hi" "" [] ""] fzero 0 fzero false [] VNil [] fzero fzero "" in
  exists r s', ASendCompletion (H := some_range) (H0 := atoy_codec) (Some req) flaky_net ex_state = (Some r, s').
Proof.
  intros req.
  destruct (anthropic_completion (H := some_range) (H0 := atoy_codec) (Some req) flaky_net ex_state ltac:(vm_compute; discriminate))
    as (r & s' & E & _).
  exists r, s'. exact E.
Defined.
