(* ===== verification/ProviderFactory.v ===== *)
(** * The provider factory and manager ([pkg/providerfactory], [pkg/providers/generic])

    The choice of a client by type, and the manager that owns the clients.  A
    client is identified by a number, so that closing one twice (which panics: it
    closes a closed channel) and forgetting one can be told apart.  Health is
    changed by the requests of clients at any time ([op_health]). *)

From Stdlib Require Import ZArith Lia.
From stdpp Require Import base option list strings gmap.
From S2P Require Import Prelude Float64 ProviderTypes ProviderHttp ProviderOpenAI ProviderAnthropic.
Local Open Scope Z_scope.

(** ** The factory *)

(** [generic.NewProvider]: an OpenAI client with other defaults. *)
Definition NewGenericProvider (config : ProviderConfig) : result GoErr ProviderConfig :=
  if String.eqb (pc_Name config) "" then Err (ConfigError "generic" "name" "provider name is required")
  else if String.eqb (pc_BaseURL config) "" then
    Err (ConfigError (pc_Name config) "base_url" "base URL is required for generic provider")
  else
    ProviderOpenAI.NewProvider
      (mkProviderConfig (pc_Name config) (pc_Type config) (pc_BaseURL config) (or_string (pc_APIKey config) "not-required")
         (pc_Timeout config) (or_default (pc_MaxRetries config) 1) (pc_HealthCheckInterval config)
         (or_default (pc_MaxIdleConns config) 10) (or_default (pc_MaxIdleConnsPerHost config) 5) (pc_IdleConnTimeout config)).

Definition inferProviderType (name : string) : string :=
  if String.eqb name "openai" then "openai"
  else if String.eqb name "anthropic" then "anthropic"
  else "generic".

(** A client: its number, the type that [GetType] returns, and its HTTP base. *)
Record Client := mkClient {
  cl_id : nat;
  cl_type : string;
  cl_http : HTTPProvider;
}.

Definition with_type (config : ProviderConfig) (ty : string) : ProviderConfig :=
  mkProviderConfig (pc_Name config) ty (pc_BaseURL config) (pc_APIKey config) (pc_Timeout config) (pc_MaxRetries config)
    (pc_HealthCheckInterval config) (pc_MaxIdleConns config) (pc_MaxIdleConnsPerHost config) (pc_IdleConnTimeout config).

Section factory.
Context `{Fmt}.

(** The configuration and type of the new client. *)
Definition NewProvider (config : ProviderConfig) : result GoErr (string * ProviderConfig) :=
  let providerType := if String.eqb (pc_Type config) "" then inferProviderType (pc_Name config) else pc_Type config in
  let config := with_type config providerType in
  let wrap r := match r with
    | Ok c => Ok (pc_Type c, c)
    | Err err => Err (WrapError ("failed to create provider " +:+ Quote (pc_Name config)) err)
    end in
  if String.eqb providerType "openai" then wrap (ProviderOpenAI.NewProvider config)
  else if String.eqb providerType "anthropic" then wrap (NewAProvider config)
  else if String.eqb providerType "generic" then wrap (NewGenericProvider config)
  else Err (ConfigError (pc_Name config) "type"
              ("unsupported provider type: " +:+ Quote providerType +:+ " (supported: openai, anthropic, generic)")).

(** Every client has a health checker, which is started; [now] is the clock. *)
Definition NewProviderWithHealthCheck (config : ProviderConfig) (id : nat) (now : Time) : result GoErr Client :=
  match NewProvider config with
  | Err err => Err err
  | Ok (ty, c) => Ok (mkClient id ty (NewHTTPProvider c now now))
  end.

(** ** The manager *)

(** The clients by name, whether the context of the health checkers is cancelled,
    the number of the next client, and the clients closed so far. *)
Record Manager := mkManager {
  m_providers : gmap string Client;
  m_cancelled : bool;
  m_next : nat;
  m_closed : list nat;
}.

Definition NewManager : Manager := mkManager ∅ false 0 [].

(** [provider.Close()]; [None] is the panic of a second call. *)
Definition close_client (c : Client) (m : Manager) : option Manager :=
  _ ← hp_Close (cl_http c);
  Some (mkManager (m_providers m) (m_cancelled m) (m_next m) (m_closed m ++ [cl_id c])).

Definition set_providers (ps : gmap string Client) (m : Manager) : Manager :=
  mkManager ps (m_cancelled m) (m_next m) (m_closed m).

(** The manager after the call and its error, if any. *)
Definition AddProvider (config : ProviderConfig) (now : Time) (m : Manager) : option (option GoErr * Manager) :=
  m ← match m_providers m !! pc_Name config with
      | Some existing =>
          m ← close_client existing m; Some (set_providers (delete (pc_Name config) (m_providers m)) m)
      | None => Some m
      end;
  Some (match NewProviderWithHealthCheck config (m_next m) now with
        | Err err => (Some (WrapError ("failed to add provider " +:+ Quote (pc_Name config)) err), m)
        | Ok provider =>
            (None, mkManager (<[pc_Name config := provider]> (m_providers m)) (m_cancelled m) (S (m_next m)) (m_closed m))
        end).

Definition not_found (name : string) : GoErr := OtherError ("provider " +:+ Quote name +:+ " not found").

Definition RemoveProvider (name : string) (m : Manager) : option (option GoErr * Manager) :=
  match m_providers m !! name with
  | None => Some (Some (not_found name), m)
  | Some provider =>
      m ← close_client provider m; Some (None, set_providers (delete name (m_providers m)) m)
  end.

Definition GetProvider (name : string) (m : Manager) : result GoErr Client :=
  match m_providers m !! name with Some p => Ok p | None => Err (not_found name) end.
End factory.

Section manager.
Context `{Fmt} `{MapRange}.

Definition client_healthy (c : Client) : bool := ph_IsHealthy (hp_health (cl_http c)).

(** Copies of the map. *)
Definition GetProviders (m : Manager) : gmap string Client :=
  foldl (fun acc kv => <[kv.1 := kv.2]> acc) ∅ (range (m_providers m)).

Definition GetProviderNames (m : Manager) : list string := (range (m_providers m)).*1.

Definition select_providers (p : Client -> bool) (m : Manager) : gmap string Client :=
  foldl (fun acc kv => if p kv.2 then <[kv.1 := kv.2]> acc else acc) ∅ (range (m_providers m)).

Definition GetHealthyProviders : Manager -> gmap string Client := select_providers client_healthy.
Definition GetUnhealthyProviders : Manager -> gmap string Client := select_providers (fun c => negb (client_healthy c)).

Definition ProviderCount (m : Manager) : Z := Z.of_nat (size (m_providers m)).

Definition HealthyProviderCount (m : Manager) : Z :=
  foldl (fun count kv => if client_healthy kv.2 then count + 1 else count) 0 (range (m_providers m)).

(** The loop of [LoadFromConfig]: the number of errors. *)
Fixpoint load_configs (configs : list ProviderConfig) (now : nat -> Time) (k : nat) (m : Manager)
    : option (Z * Manager) :=
  match configs with
  | [] => Some (0, m)
  | config :: configs =>
      '(err, m) ← AddProvider config (now k) m;
      '(n, m) ← load_configs configs now (S k) m;
      Some (match err with Some _ => n + 1 | None => n end, m)
  end.

(** The number of failed providers is in the error. *)
Definition LoadFromConfig (configs : list ProviderConfig) (now : nat -> Time) (m : Manager) : option (option Z * Manager) :=
  '(n, m) ← load_configs configs now 0 m; Some (if 0 <? n then Some n else None, m).

Fixpoint close_all (cs : list Client) (m : Manager) : option Manager :=
  match cs with
  | [] => Some m
  | c :: cs => m ← close_client c m; close_all cs m
  end.

(** [Close] of a client returns no error. *)
Definition Close (m : Manager) : option Manager :=
  let m := mkManager (m_providers m) true (m_next m) (m_closed m) in
  m ← close_all (range (m_providers m)).*2 m; Some (set_providers ∅ m).

Record HealthSummary := mkHealthSummary {
  hs_Total : Z;
  hs_Healthy : Z;
  hs_Unhealthy : Z;
  hs_Details : gmap string ProviderHealth;
}.

Definition GetHealthSummary (m : Manager) : HealthSummary :=
  let total := Z.of_nat (size (m_providers m)) in
  let healthy := HealthyProviderCount m in
  mkHealthSummary total healthy (total - healthy)
    (foldl (fun acc kv => <[kv.1 := hp_health (cl_http kv.2)]> acc) ∅ (range (m_providers m))).

(** ** Histories *)

Definition set_health_of (name : string) (h : ProviderHealth) (m : Manager) : Manager :=
  set_providers (alter (fun c => mkClient (cl_id c) (cl_type c)
    (mkHTTPProvider (hp_config (cl_http c)) h (hp_closed (cl_http c)))) name (m_providers m)) m.

Inductive op :=
| op_add (config : ProviderConfig) (now : Time)
| op_remove (name : string)
| op_load (configs : list ProviderConfig) (now : nat -> Time)
| op_close
| op_health (name : string) (h : ProviderHealth).

(** [None] is a panic. *)
Definition run_op (o : op) (m : Manager) : option Manager :=
  match o with
  | op_add config now => snd <$> AddProvider config now m
  | op_remove name => snd <$> RemoveProvider name m
  | op_load configs now => snd <$> LoadFromConfig configs now m
  | op_close => Close m
  | op_health name h => Some (set_health_of name h m)
  end.

Fixpoint run_ops (ops : list op) (m : Manager) : option Manager :=
  match ops with
  | [] => Some m
  | o :: ops => m ← run_op o m; run_ops ops m
  end.
End manager.

(** ** Ownership of clients *)

Lemma NewProvider_name `{Fmt} config ty c : NewProvider config = Ok (ty, c) -> pc_Name c = pc_Name config /\ pc_Name config <> "".
Proof.
  unfold NewProvider, NewGenericProvider, ProviderOpenAI.NewProvider, NewAProvider. simpl.
  intros E. repeat case_match; simplify_eq; simpl in *; simplify_eq; split; try done; by apply String.eqb_neq.
Qed.

(** Every client that was created is owned under its name and open, or closed
    exactly once. *)
Record owned (m : Manager) : Prop := {
  ow_open n c : m_providers m !! n = Some c ->
    hp_closed (cl_http c) = false /\ (cl_id c < m_next m)%nat /\ cl_id c ∉ m_closed m /\ pc_Name (hp_config (cl_http c)) = n;
  ow_inj n n' c c' : m_providers m !! n = Some c -> m_providers m !! n' = Some c' -> cl_id c = cl_id c' -> n = n';
  ow_closed : NoDup (m_closed m);
  ow_past i : i ∈ m_closed m -> (i < m_next m)%nat;
  ow_all i : (i < m_next m)%nat -> i ∈ m_closed m \/ exists n c, m_providers m !! n = Some c /\ cl_id c = i;
}.

Lemma owned_new : owned NewManager.
Proof. split; simpl; try done; try set_solver; [constructor|lia]. Qed.

(** An owned client is closed and forgotten. *)
Lemma owned_close m n c :
  owned m -> m_providers m !! n = Some c ->
  exists m', close_client c m = Some m' /\ m_providers m' = m_providers m /\ m_next m' = m_next m /\
    m_closed m' = (m_closed m ++ [cl_id c])%list /\ owned (set_providers (delete n (m_providers m')) m').
Proof.
  intros [Hop Hinj Hnd Hpast Hall] Hn. destruct (Hop n c Hn) as (Hcl & Hlt & Hnin & _).
  unfold close_client, hp_Close. rewrite Hcl. simpl. eexists. split; [reflexivity|]. simpl.
  split; [done|]. split; [done|]. split; [done|]. split; simpl.
  - intros n' c' [Hne Hn']%lookup_delete_Some. destruct (Hop n' c' Hn') as (H1 & H2 & H3 & H4).
    split; [done|]. split; [done|]. split; [|done]. rewrite elem_of_app, list_elem_of_singleton.
    intros [?|E]; [done|]. apply Hne. symmetry. by eapply Hinj.
  - intros n1 n2 c1 c2 [_ H1]%lookup_delete_Some [_ H2]%lookup_delete_Some. by apply Hinj.
  - apply NoDup_app. split; [done|]. split; [|apply NoDup_singleton]. intros i Hi ->%list_elem_of_singleton. done.
  - intros i [Hi| ->%list_elem_of_singleton]%elem_of_app; [by apply Hpast|done].
  - intros i Hi. rewrite elem_of_app, list_elem_of_singleton. destruct (Hall i Hi) as [?|(n' & c' & Hn' & <-)]; [by auto|].
    destruct (decide (n' = n)) as [->|Hne]; [rewrite Hn in Hn'; injection Hn' as <-; by auto|].
    right. exists n', c'. split; [|done]. by rewrite lookup_delete_ne.
Qed.

Lemma owned_insert m n c :
  owned m -> m_providers m !! n = None -> hp_closed (cl_http c) = false -> cl_id c = m_next m ->
  pc_Name (hp_config (cl_http c)) = n ->
  owned (mkManager (<[n := c]> (m_providers m)) (m_cancelled m) (S (m_next m)) (m_closed m)).
Proof.
  intros [Hop Hinj Hnd Hpast Hall] Hn Hcl Hid Hname.
  assert (Hfresh : m_next m ∉ m_closed m) by (intros Hi%Hpast; lia).
  split; simpl.
  - intros n' c' [[<- <-]|[_ Hn']]%lookup_insert_Some; [rewrite Hid; split; [done|]; split; [lia|done]|].
    destruct (Hop n' c' Hn') as (H1 & H2 & H3 & H4). split; [done|]. split; [lia|done].
  - intros n1 n2 c1 c2 [[<- <-]|[_ H1]]%lookup_insert_Some [[<- <-]|[_ H2]]%lookup_insert_Some E; try done.
    + destruct (Hop n2 c2 H2). lia.
    + destruct (Hop n1 c1 H1). lia.
    + by eapply Hinj.
  - done.
  - intros i Hi%Hpast. lia.
  - intros i Hi. destruct (decide (i = m_next m)) as [->|].
    + right. exists n, c. by rewrite lookup_insert_eq.
    + destruct (Hall i) as [?|(n' & c' & Hn' & <-)]; [lia|by auto|]. right. exists n', c'. split; [|done].
      rewrite lookup_insert_ne; [done|]. intros ->. congruence.
Qed.

Lemma owned_add `{Fmt} config now m :
  owned m -> exists err m', AddProvider config now m = Some (err, m') /\ owned m'.
Proof.
  intros Ho. unfold AddProvider.
  assert (Hm : exists m1, (match m_providers m !! pc_Name config with
      | Some existing => m ← close_client existing m; Some (set_providers (delete (pc_Name config) (m_providers m)) m)
      | None => Some m end) = Some m1 /\ owned m1 /\ m_providers m1 !! pc_Name config = None).
  { destruct (m_providers m !! pc_Name config) as [c|] eqn:Hc; [|by exists m].
    destruct (owned_close m _ c Ho Hc) as (m1 & -> & Hp & Hx & Hcl & Ho1). simpl. eexists. split; [reflexivity|].
    split; [exact Ho1|]. simpl. by rewrite lookup_delete_eq. }
  destruct Hm as (m1 & -> & Ho1 & Hn). cbn [mbind option_bind]. unfold NewProviderWithHealthCheck.
  destruct (NewProvider config) as [[ty c]|err] eqn:Hp; [|by eexists _, m1].
  eexists _, _. split; [reflexivity|]. apply owned_insert; try done. simpl. by apply NewProvider_name in Hp as [? _].
Qed.

Lemma owned_remove `{Fmt} name m : owned m -> exists err m', RemoveProvider name m = Some (err, m') /\ owned m'.
Proof.
  intros Ho. unfold RemoveProvider. destruct (m_providers m !! name) as [c|] eqn:Hc; [|by eexists _, m].
  destruct (owned_close m _ c Ho Hc) as (m1 & -> & Hp & _ & _ & Ho1). simpl. by eexists _, _.
Qed.

Section histories.
Context `{Fmt} `{MapRange}.

Lemma owned_load configs now k m : owned m -> exists n m', load_configs configs now k m = Some (n, m') /\ owned m'.
Proof using.
  revert k m. induction configs as [|config configs IH]; intros k m Ho; simpl; [by eexists _, m|].
  destruct (owned_add config (now k) m Ho) as (err & m1 & -> & Ho1). simpl.
  destruct (IH (S k) m1 Ho1) as (n & m2 & -> & Ho2). simpl. by eexists _, _.
Qed.

(** Closing all clients: the rest [cs] of the map is still to be closed. *)
Lemma close_all_spec cs m :
  NoDup (cl_id <$> cs) -> Forall (fun c => hp_closed (cl_http c) = false) cs ->
  exists m', close_all cs m = Some m' /\ m_providers m' = m_providers m /\ m_next m' = m_next m /\
    m_closed m' = (m_closed m ++ (cl_id <$> cs))%list /\ m_cancelled m' = m_cancelled m.
Proof using.
  revert m. induction cs as [|c cs IH]; intros m Hnd Hop; simpl.
  { exists m. by rewrite app_nil_r. }
  apply NoDup_cons in Hnd as [_ Hnd]. apply Forall_cons in Hop as [Hc Hop].
  unfold close_client, hp_Close. rewrite Hc. simpl. edestruct IH as (m' & -> & H1 & H2 & H3 & H4); [done|done|].
  exists m'. split; [done|]. split; [done|]. split; [done|]. split; [|done]. rewrite H3. simpl. by rewrite <- (assoc_L (++)%list).
Qed.

Lemma owned_Close m :
  owned m -> exists m', Close m = Some m' /\ owned m' /\ m_providers m' = ∅ /\ forall i, (i < m_next m')%nat -> i ∈ m_closed m'.
Proof using.
  intros [Hop Hinj Hnd Hpast Hall]. unfold Close. cbn [m_providers].
  assert (Hdistinct : NoDup (cl_id <$> (range (m_providers m)).*2)).
  { rewrite (range_perm (m_providers m)), <- list_fmap_compose. apply NoDup_fmap_2_strong; [|apply NoDup_map_to_list].
    intros [n c] [n' c'] Hn%elem_of_map_to_list Hn'%elem_of_map_to_list E. simpl in E.
    assert (n = n') as -> by (by eapply Hinj). by rewrite Hn in Hn'; injection Hn' as ->. }
  destruct (close_all_spec (range (m_providers m)).*2 (mkManager (m_providers m) true (m_next m) (m_closed m)))
    as (m' & -> & Hp & Hx & Hcl & _).
  - exact Hdistinct.
  - apply Forall_forall. intros c ([n c'] & -> & Hin)%list_elem_of_fmap. apply elem_of_range in Hin. by destruct (Hop n c' Hin).
  - cbn [mbind option_bind]. eexists. split; [reflexivity|].
    assert (Hids : forall i, i ∈ cl_id <$> (range (m_providers m)).*2 <-> exists n c, m_providers m !! n = Some c /\ cl_id c = i).
    { intros i. rewrite list_elem_of_fmap. split.
      - intros (c & -> & ([n c'] & -> & Hin)%list_elem_of_fmap). apply elem_of_range in Hin. by exists n, c'.
      - intros (n & c & Hn & <-). exists c. split; [done|]. apply list_elem_of_fmap. exists (n, c). split; [done|]. by apply elem_of_range. }
    assert (Hcov : forall i, (i < m_next m')%nat -> i ∈ m_closed m').
    { intros i Hi. rewrite Hx in Hi. rewrite Hcl. simpl. apply elem_of_app.
      destruct (Hall i Hi) as [?|Hex]; [by left|right]. by apply Hids. }
    split; [|split; [done|exact Hcov]]. split; simpl.
    + intros n c Hn. by rewrite lookup_empty in Hn.
    + intros n n' c c' Hn. by rewrite lookup_empty in Hn.
    + rewrite Hcl. simpl. apply NoDup_app. split; [done|]. split; [|exact Hdistinct].
      intros i Hi Hex%Hids. destruct Hex as (n & c & Hn & <-). by destruct (Hop n c Hn) as (_ & _ & ? & _).
    + rewrite Hcl, Hx. simpl. intros i [Hi|Hex%Hids]%elem_of_app; [by apply Hpast|].
      destruct Hex as (n & c & Hn & <-). by destruct (Hop n c Hn) as (_ & ? & _).
    + intros i Hi. left. by apply Hcov.
Qed.

Lemma owned_health name h m : owned m -> owned (set_health_of name h m).
Proof using.
  intros [Hop Hinj Hnd Hpast Hall].
  assert (Hl : forall n c, m_providers (set_health_of name h m) !! n = Some c ->
    exists c0, m_providers m !! n = Some c0 /\ cl_id c = cl_id c0 /\ hp_closed (cl_http c) = hp_closed (cl_http c0) /\
      hp_config (cl_http c) = hp_config (cl_http c0)).
  { intros n c Hn. simpl in Hn. rewrite lookup_alter_Some in Hn. destruct Hn as [(-> & c0 & Hc0 & ->)|(_ & Hn)]; eauto. }
  split; simpl.
  - intros n c (c0 & Hn & -> & -> & ->)%Hl. by apply Hop.
  - intros n n' c c' (c0 & Hn & -> & _)%Hl (c0' & Hn' & -> & _)%Hl. by apply Hinj.
  - done.
  - done.
  - intros i Hi. destruct (Hall i Hi) as [?|(n & c & Hn & <-)]; [by left|right].
    destruct (decide (n = name)) as [->|Hne].
    + eexists name, _. rewrite lookup_alter_eq, Hn. split; reflexivity.
    + exists n, c. by rewrite lookup_alter_ne.
Qed.

Lemma owned_op o m : owned m -> exists m', run_op o m = Some m' /\ owned m'.
Proof using.
  intros Ho. destruct o as [config now|name|configs now| |name h]; simpl.
  - destruct (owned_add config now m Ho) as (err & m' & -> & Ho'). by eexists.
  - destruct (owned_remove name m Ho) as (err & m' & -> & Ho'). by eexists.
  - unfold LoadFromConfig. destruct (owned_load configs now 0 m Ho) as (n & m' & -> & Ho'). simpl. by eexists.
  - destruct (owned_Close m Ho) as (m' & -> & Ho' & _). by eexists.
  - eexists. split; [reflexivity|]. by apply owned_health.
Qed.

Lemma owned_ops ops m : owned m -> exists m', run_ops ops m = Some m' /\ owned m'.
Proof using.
  revert m. induction ops as [|o ops IH]; intros m Ho; simpl; [by exists m|].
  destruct (owned_op o m Ho) as (m1 & -> & Ho1). simpl. by apply IH.
Qed.
End histories.

(** C22: the manager owns its clients.  In every history of additions, replacements,
    removals, bulk loads, health changes and closes nothing panics: no client is
    closed twice.  Every client created so far is either open and registered under
    its configured name or closed; after a final [Close] all of them are closed. *)
Theorem manager_owns_clients `{Fmt} `{MapRange} ops :
  (exists m, run_ops ops NewManager = Some m /\ owned m) /\
  exists m, run_ops (ops ++ [op_close]) NewManager = Some m /\ forall i, (i < m_next m)%nat -> i ∈ m_closed m.
Proof.
  split; [apply owned_ops, owned_new|]. destruct (owned_ops ops NewManager owned_new) as (m & Hm & Ho).
  assert (Happ : forall l m0, run_ops (l ++ [op_close]) m0 = m1 ← run_ops l m0; Close m1).
  { induction l as [|o l IH]; intros m0; simpl; [by destruct (Close m0)|]. destruct (run_op o m0); [|done]. simpl. apply IH. }
  rewrite Happ, Hm. simpl. destruct (owned_Close m Ho) as (m' & -> & _ & _ & Hall). eauto.
Qed.

(** ** Views of the manager *)

Section views.
Context `{MapRange}.

Lemma select_lookup (p : Client -> bool) (l : list (string * Client)) (acc : gmap string Client) n c :
  NoDup l.*1 -> (forall n, n ∈ l.*1 -> acc !! n = None) ->
  foldl (fun acc kv => if p kv.2 then <[kv.1 := kv.2]> acc else acc) acc l !! n = Some c <->
  acc !! n = Some c \/ ((n, c) ∈ l /\ p c = true).
Proof using.
  revert acc. induction l as [|[k v] l IH]; intros acc Hnd Hacc; simpl.
  { split; [by left|]. intros [?|[Hin _]]; [done|]. by apply not_elem_of_nil in Hin. }
  apply NoDup_cons in Hnd as [Hk Hnd]. rewrite IH; [|done|].
  - rewrite elem_of_cons. destruct (p v) eqn:Hp.
    + assert (Ha : acc !! k = None) by (apply Hacc; left). rewrite lookup_insert_Some. split.
      * intros [[[-> ->]|[_ ?]]|[? ?]]; [right; by split; [left|]|by left|right; by split; [right|]].
      * intros [Hn|[[[= -> ->]|?] ?]]; [left; right; split; [intros ->; congruence|done]|left; by left|by right].
    + split; [intros [?|[? ?]]; [by left|right; by split; [right|]]|].
      intros [?|[[[= -> ->]|?] ?]]; [by left|congruence|by right].
  - intros n' Hn'. destruct (p v); [rewrite lookup_insert_ne by set_solver|]; apply Hacc; by right.
Qed.

Lemma select_providers_spec (p : Client -> bool) m n c :
  select_providers p m !! n = Some c <-> m_providers m !! n = Some c /\ p c = true.
Proof using.
  unfold select_providers. rewrite select_lookup, lookup_empty, elem_of_range; [by split; [intros [?|?]|right]| |by intros; apply lookup_empty].
  rewrite (range_perm (m_providers m)). apply NoDup_fst_map_to_list.
Qed.

Lemma count_select (l : list (string * Client)) (z : Z) :
  foldl (fun count kv => if client_healthy kv.2 then count + 1 else count) z l =
  z + Z.of_nat (length (filter (fun kv : string * Client => client_healthy kv.2 = true) l)).
Proof using.
  revert z. induction l as [|[k v] l IH]; intros z; simpl; [lia|]. rewrite IH, filter_cons. simpl.
  destruct (client_healthy v); case_decide; simpl; try done; lia.
Qed.
End views.

(** The manager's views agree: every client is listed as healthy or as unhealthy,
    not as both, and the summary counts exactly these. *)
Theorem health_views_agree `{MapRange} m :
  m_providers m = GetHealthyProviders m ∪ GetUnhealthyProviders m /\
  GetHealthyProviders m ##ₘ GetUnhealthyProviders m /\
  hs_Total (GetHealthSummary m) = ProviderCount m /\
  hs_Healthy (GetHealthSummary m) = Z.of_nat (size (GetHealthyProviders m)) /\
  hs_Unhealthy (GetHealthSummary m) = Z.of_nat (size (GetUnhealthyProviders m)).
Proof.
  assert (Hd : GetHealthyProviders m ##ₘ GetUnhealthyProviders m).
  { apply map_disjoint_spec. intros n c c' [H1 H2]%select_providers_spec [H3 H4]%select_providers_spec.
    rewrite H1 in H3. injection H3 as <-. by rewrite H2 in H4. }
  assert (Hu : m_providers m = GetHealthyProviders m ∪ GetUnhealthyProviders m).
  { apply map_eq. intros n. apply option_eq. intros c. rewrite lookup_union_Some by done.
    unfold GetHealthyProviders, GetUnhealthyProviders. rewrite !select_providers_spec. destruct (client_healthy c); naive_solver. }
  assert (Hh : HealthyProviderCount m = Z.of_nat (size (GetHealthyProviders m))).
  { unfold HealthyProviderCount. rewrite count_select, Z.add_0_l. f_equal.
    rewrite (filter_Permutation _ _ _ (range_perm (m_providers m))).
    assert (E : GetHealthyProviders m = filter (fun kv => client_healthy kv.2 = true) (m_providers m)).
    { apply map_eq. intros n. apply option_eq. intros c. unfold GetHealthyProviders. by rewrite select_providers_spec, map_lookup_filter_Some. }
    rewrite E, map_filter_alt, map_size_list_to_map; [done|].
    eapply sublist_NoDup; [apply (NoDup_fst_map_to_list (m_providers m))|]. apply fmap_sublist, sublist_filter. }
  repeat split; try done. simpl. rewrite Hh. rewrite Hu at 1. rewrite map_size_disj_union by done. lia.
Qed.

(** ** A failed replacement *)

Definition valid_config : ProviderConfig := mkProviderConfig "openai" "" "" "sk" 0 0 0 0 0 0.
Definition bad_config : ProviderConfig := mkProviderConfig "openai" "mystery" "" "sk" 0 0 0 0 0 0.

(** A configuration that is refused takes the working client of that name with
    it: it is closed and removed before the new one is created. *)
Example refused_replacement_loses_client :
  exists m m' e, AddProvider (H := {| Quote s := s; DurationString _ := "" |}) valid_config 1 NewManager = Some (None, m) /\
    is_Some (m_providers m !! "openai") /\
    AddProvider (H := {| Quote s := s; DurationString _ := "" |}) bad_config 2 m = Some (Some e, m') /\
    m_providers m' !! "openai" = None /\ m_closed m' = [0%nat].
Proof. do 3 eexists. split; [reflexivity|]. split; [by eexists|]. split; [reflexivity|]. split; reflexivity. Qed.
