(* ===== verification/LimitSqlite.v ===== *)
(** * SQLite limit storage ([pkg/limits/storage/sqlite.go])

    The durable backend of the limits manager.  [database/sql] and the SQLite
    driver are a parameter ([SqlDriver]): they open a database, prepare and close
    statements, execute them with arguments and return rows.  Every call may fail.
    [SqlDriverLaws] is what the documentation of SQL says of the six fixed
    statement texts of this file: which rows of the table [limit_states] a
    statement writes, reads or removes, that a failed statement changes nothing
    and that a closed statement cannot be executed.  JSON encoding of the two
    structured columns is the parameter [LimitJson].

    The theorems relate the backend to a map from pairs of identifier and
    dimension to states ([spec_save] and its companions): every call either reports
    an error of the database and changes nothing or answers as the map does.  The
    read-write mutex makes each method one atomic step; the checkpoint goroutine
    moves the write-ahead log and does not touch the table. *)

From Stdlib Require Import ZArith Lia.
From stdpp Require Import base option list strings gmap pretty fin_maps.
From S2P Require Import Prelude Float64 EvidenceSqlite LimitStorage.
Local Open Scope Z_scope.
Local Open Scope go_scope.

(** ** The driver *)

(** [Exec] of a statement gives the result whose [RowsAffected] may itself fail;
    a query gives its rows and the error that ended the iteration, if any. *)
Class SqlDriver (DB Stmt : Type) : Type := {
  sql_Open : string -> result string DB;
  db_Exec : string -> DB -> option string * DB;
  db_Prepare : string -> DB -> result string Stmt * DB;
  db_Close : DB -> option string * DB;
  st_Exec : Stmt -> list SqlVal -> DB -> result string (result string Z) * DB;
  st_Query : Stmt -> list SqlVal -> DB -> result string (list (list SqlVal) * option string);
  st_Close : Stmt -> DB -> DB;
}.

Class LimitJson : Type := {
  marshal_rate : RateLimitState -> result string string;
  marshal_budget : BudgetState -> result string string;
  unmarshal_rate : string -> result string RateLimitState;
  unmarshal_budget : string -> result string BudgetState;
}.

(** ** The backend *)

Record SQLiteBackend (DB Stmt : Type) := mkSQLiteBackend {
  sb_db : DB;
  sb_dbPath : string;
  sb_snapshotInterval : Duration;
  sb_closed : bool;
  saveStmt : Stmt;
  loadStmt : Stmt;
  deleteStmt : Stmt;
  listStmt : Stmt;
  cleanupStmt : Stmt;
}.
Arguments mkSQLiteBackend {DB Stmt}.
Arguments sb_db {DB Stmt}.
Arguments sb_dbPath {DB Stmt}.
Arguments sb_snapshotInterval {DB Stmt}.
Arguments sb_closed {DB Stmt}.
Arguments saveStmt {DB Stmt}.
Arguments loadStmt {DB Stmt}.
Arguments deleteStmt {DB Stmt}.
Arguments listStmt {DB Stmt}.
Arguments cleanupStmt {DB Stmt}.

Record SQLiteBackendConfig := mkSQLiteBackendConfig {
  DBPath : string;
  SnapshotInterval : Duration;
  sb_BusyTimeout : Duration;
}.

Definition schema : string := "
	CREATE TABLE IF NOT EXISTS limit_states (
		identifier TEXT NOT NULL,
		dimension TEXT NOT NULL,
		rate_limit_state TEXT,
		budget_state TEXT,
		last_updated INTEGER NOT NULL,
		created_at INTEGER NOT NULL,
		PRIMARY KEY (dimension, identifier)
	);

	CREATE INDEX IF NOT EXISTS idx_last_updated ON limit_states(last_updated);
	CREATE INDEX IF NOT EXISTS idx_dimension ON limit_states(dimension);
	".

Definition save_sql : string := "
		INSERT INTO limit_states (identifier, dimension, rate_limit_state, budget_state, last_updated, created_at)
		VALUES (?, ?, ?, ?, ?, ?)
		ON CONFLICT (dimension, identifier) DO UPDATE SET
			rate_limit_state = excluded.rate_limit_state,
			budget_state = excluded.budget_state,
			last_updated = excluded.last_updated
	".

Definition load_sql : string := "
		SELECT identifier, dimension, rate_limit_state, budget_state, last_updated, created_at
		FROM limit_states
		WHERE identifier = ? AND dimension = ?
	".

Definition delete_sql : string := "
		DELETE FROM limit_states
		WHERE identifier = ? AND dimension = ?
	".

Definition list_sql : string := "
		SELECT identifier, dimension, rate_limit_state, budget_state, last_updated, created_at
		FROM limit_states
		WHERE dimension = ?
	".

Definition cleanup_sql : string := "
		DELETE FROM limit_states
		WHERE last_updated < ?
	".

Section backend.
Context {DB Stmt : Type} `{SqlDriver DB Stmt} `{LimitJson}.

Notation B := (SQLiteBackend DB Stmt).

Definition with_db (db : DB) (s : B) : B :=
  mkSQLiteBackend db (sb_dbPath s) (sb_snapshotInterval s) (sb_closed s)
    (saveStmt s) (loadStmt s) (deleteStmt s) (listStmt s) (cleanupStmt s).

(** [initSchema] *)
Definition initSchema (db : DB) : option string * DB := db_Exec schema db.

(** One preparation and the error that names it. *)
Definition prepare (what text : string) (db : DB) : result string Stmt * DB :=
  match db_Prepare text db with
  | (Ok st, db) => (Ok st, db)
  | (Err e, db) => (Err ("failed to prepare " +:+ what +:+ " statement: " +:+ e), db)
  end.

Definition prepareStatements (mk : Stmt -> Stmt -> Stmt -> Stmt -> Stmt -> DB -> B) (db : DB)
  : result string B * DB :=
  match prepare "save" save_sql db with
  | (Err e, db) => (Err e, db)
  | (Ok save, db) =>
  match prepare "load" load_sql db with
  | (Err e, db) => (Err e, db)
  | (Ok load, db) =>
  match prepare "delete" delete_sql db with
  | (Err e, db) => (Err e, db)
  | (Ok del, db) =>
  match prepare "list" list_sql db with
  | (Err e, db) => (Err e, db)
  | (Ok lst, db) =>
  match prepare "cleanup" cleanup_sql db with
  | (Err e, db) => (Err e, db)
  | (Ok cleanup, db) => (Ok (mk save load del lst cleanup db), db)
  end end end end end.

(** The backend or the error; on an error after the database was opened it is
    closed again. *)
Definition NewSQLiteBackendWithConfig (cfg : SQLiteBackendConfig) : result string B :=
  if String.eqb (DBPath cfg) "" then Err "db path cannot be empty"
  else
    let snapshot := if SnapshotInterval cfg =? 0 then 5 * Minute else SnapshotInterval cfg in
    let busy := if sb_BusyTimeout cfg =? 0 then 5 * Second else sb_BusyTimeout cfg in
    let dsn := DBPath cfg +:+ "?_journal_mode=WAL&_busy_timeout=" +:+ pretty (Milliseconds busy)
                 +:+ "&_synchronous=NORMAL" in
    match sql_Open dsn with
    | Err e => Err ("failed to open database: " +:+ e)
    | Ok db =>
        match initSchema db with
        | (Some e, _) => Err ("failed to initialize schema: " +:+ e)
        | (None, db) =>
            match prepareStatements (fun save load del lst cleanup db =>
                    mkSQLiteBackend db (DBPath cfg) snapshot false save load del lst cleanup) db with
            | (Err e, _) => Err ("failed to prepare statements: " +:+ e)
            | (Ok s, _) => Ok s
            end
        end
    end.

Definition NewSQLiteBackend (dbPath : string) : result string B :=
  NewSQLiteBackendWithConfig (mkSQLiteBackendConfig dbPath (5 * Minute) (5 * Second)).

(** [string(json)] of an optional part: the empty text when it is absent. *)
Definition encode_part {A} (marshal : A -> result string string) (what : string) (part : option A)
  : result string string :=
  match part with
  | None => Ok ""
  | Some a =>
      match marshal a with
      | Ok s => Ok s
      | Err e => Err ("failed to marshal " +:+ what +:+ " state: " +:+ e)
      end
  end.

Definition Save (now : Time) (state : option LimitState) (s : B) : option string * B :=
  match state with
  | None => (Some "state cannot be nil", s)
  | Some st =>
      if String.eqb (Identifier st) "" then (Some "identifier cannot be empty", s)
      else if String.eqb (Dimension st) "" then (Some "dimension cannot be empty", s)
      else
        match encode_part marshal_rate "rate limit" (RateLimit st) with
        | Err e => (Some e, s)
        | Ok rateLimitJSON =>
            match encode_part marshal_budget "budget" (Budget st) with
            | Err e => (Some e, s)
            | Ok budgetJSON =>
                let st := stamp now st in
                match st_Exec (saveStmt s)
                        [SText (Identifier st); SText (Dimension st); SText rateLimitJSON; SText budgetJSON;
                         SInt (Unix (LastUpdated st)); SInt (Unix (CreatedAt st))] (sb_db s) with
                | (Err e, db) => (Some ("failed to save state: " +:+ e), with_db db s)
                | (Ok _, db) => (None, with_db db s)
                end
            end
        end
  end.

Definition decode_part {A} (unmarshal : string -> result string A) (what text : string)
  : result string (option A) :=
  if String.eqb text "" then Ok None
  else
    match unmarshal text with
    | Ok a => Ok (Some a)
    | Err e => Err ("failed to unmarshal " +:+ what +:+ " state: " +:+ e)
    end.

(** [Scan] into four strings and two integers; NULL is no string. *)
Definition scanLimitRow (row : list SqlVal) : option (string * string * string * string * Z * Z) :=
  match row with
  | [SText identifier; SText dimension; SText rate; SText budget; SInt lastUpdated; SInt createdAt] =>
      Some (identifier, dimension, rate, budget, lastUpdated, createdAt)
  | _ => None
  end.

Definition scan_error : string := "sql: Scan error".

(** The state of a scanned row. *)
Definition state_of_row (row : string * string * string * string * Z * Z) : result string LimitState :=
  let '(identifier, dimension, rate, budget, lastUpdated, createdAt) := row in
  match decode_part unmarshal_rate "rate limit" rate with
  | Err e => Err e
  | Ok rl =>
      match decode_part unmarshal_budget "budget" budget with
      | Err e => Err e
      | Ok b => Ok (mkLimitState identifier dimension rl b (FromUnix lastUpdated) (FromUnix createdAt))
      end
  end.

(** [QueryRowContext(...).Scan]: the first row; [sql.ErrNoRows] without one. *)
Definition Load (identifier dimension : string) (s : B) : result string (option LimitState) :=
  if String.eqb identifier "" then Err "identifier cannot be empty"
  else if String.eqb dimension "" then Err "dimension cannot be empty"
  else
    match st_Query (loadStmt s) [SText identifier; SText dimension] (sb_db s) with
    | Err e => Err ("failed to load state: " +:+ e)
    | Ok ([], None) => Ok None
    | Ok ([], Some e) => Err ("failed to load state: " +:+ e)
    | Ok (row :: _, _) =>
        match scanLimitRow row with
        | None => Err ("failed to load state: " +:+ scan_error)
        | Some r =>
            match state_of_row r with
            | Err e => Err e
            | Ok st => Ok (Some st)
            end
        end
    end.

Definition Delete (identifier dimension : string) (s : B) : option string * B :=
  if String.eqb identifier "" then (Some "identifier cannot be empty", s)
  else if String.eqb dimension "" then (Some "dimension cannot be empty", s)
  else
    match st_Exec (deleteStmt s) [SText identifier; SText dimension] (sb_db s) with
    | (Err e, db) => (Some ("failed to delete state: " +:+ e), with_db db s)
    | (Ok _, db) => (None, with_db db s)
    end.

(** The loop over the rows. *)
Fixpoint scan_states (rows : list (list SqlVal)) (states : list LimitState) : result string (list LimitState) :=
  match rows with
  | [] => Ok states
  | row :: rows =>
      match scanLimitRow row with
      | None => Err ("failed to scan row: " +:+ scan_error)
      | Some r =>
          match state_of_row r with
          | Err e => Err e
          | Ok st => scan_states rows (states ++ [st])
          end
      end
  end.

Definition List (dimension : string) (s : B) : result string (list LimitState) :=
  if String.eqb dimension "" then Err "dimension cannot be empty"
  else
    match st_Query (listStmt s) [SText dimension] (sb_db s) with
    | Err e => Err ("failed to list states: " +:+ e)
    | Ok (rows, err) =>
        match scan_states rows [] with
        | Err e => Err e
        | Ok states =>
            match err with
            | Some e => Err ("error iterating rows: " +:+ e)
            | None => Ok states
            end
        end
    end.

Definition Cleanup (olderThan : Time) (s : B) : result string Z * B :=
  match st_Exec (cleanupStmt s) [SInt (Unix olderThan)] (sb_db s) with
  | (Err e, db) => (Err ("failed to cleanup: " +:+ e), with_db db s)
  | (Ok (Err e), db) => (Err ("failed to get rows affected: " +:+ e), with_db db s)
  | (Ok (Ok deleted), db) => (Ok deleted, with_db db s)
  end.

(** [closeOnce]: the statements, a last checkpoint, the database; later calls do
    nothing and report no error. *)
Definition Close (s : B) : option string * B :=
  if sb_closed s then (None, s)
  else
    let db := st_Close (saveStmt s) (sb_db s) in
    let db := st_Close (loadStmt s) db in
    let db := st_Close (deleteStmt s) db in
    let db := st_Close (listStmt s) db in
    let db := st_Close (cleanupStmt s) db in
    let '(_, db) := db_Exec "PRAGMA wal_checkpoint(TRUNCATE)" db in
    let '(e, db) := db_Close db in
    (e, mkSQLiteBackend db (sb_dbPath s) (sb_snapshotInterval s) true
          (saveStmt s) (loadStmt s) (deleteStmt s) (listStmt s) (cleanupStmt s)).

(** The checkpoint goroutine on what its [select] receives: a tick, or the closed
    channel ([false]). *)
Fixpoint checkpointLoop (events : list bool) (s : B) : B :=
  match events with
  | true :: events => checkpointLoop events (with_db (db_Exec "PRAGMA wal_checkpoint(PASSIVE)" (sb_db s)).2 s)
  | _ => s
  end.

(** The interface of the limits manager; the error of [Close] is not part of it. *)
#[export] Instance sqlite_backend : Backend B := {
  bk_Save := Save;
  bk_Load := Load;
  bk_Delete := Delete;
  bk_List := List;
  bk_Cleanup := Cleanup;
  bk_Close s := Some (Close s).2;
}.
End backend.

(** ** What the statements mean

    A row of [limit_states] without its key; the key is (dimension, identifier). *)
Record LimitRow := mkLimitRow {
  lr_rate : string;
  lr_budget : string;
  lr_last_updated : Z;
  lr_created_at : Z;
}.

Notation Table := (gmap (string * string) LimitRow).

Definition row_values (e : (string * string) * LimitRow) : list SqlVal :=
  [SText e.1.2; SText e.1.1; SText (lr_rate e.2); SText (lr_budget e.2);
   SInt (lr_last_updated e.2); SInt (lr_created_at e.2)].

(** The three statements that write: the table afterwards and the number of rows
    they affected.  The upsert leaves the creation time of a row it updates. *)
Definition exec_meaning (text : string) (args : list SqlVal) (t : Table) : option (Table * Z) :=
  if String.eqb text save_sql then
    match args with
    | [SText i; SText d; SText r; SText b; SInt lu; SInt ca] =>
        let created := match t !! (d, i) with Some old => lr_created_at old | None => ca end in
        Some (<[(d, i) := mkLimitRow r b lu created]> t, 1)
    | _ => None
    end
  else if String.eqb text delete_sql then
    match args with
    | [SText i; SText d] => Some (delete (d, i) t, if t !! (d, i) is Some _ then 1 else 0)
    | _ => None
    end
  else if String.eqb text cleanup_sql then
    match args with
    | [SInt c] =>
        let kept := filter (fun e => c <= lr_last_updated e.2) t in
        Some (kept, Z.of_nat (size t) - Z.of_nat (size kept))
    | _ => None
    end
  else None.

(** The two that read: the rows that they select. *)
Definition query_meaning (text : string) (args : list SqlVal) (t : Table) : option Table :=
  if String.eqb text load_sql then
    match args with [SText i; SText d] => Some (filter (fun e => e.1 = (d, i)) t) | _ => None end
  else if String.eqb text list_sql then
    match args with [SText d] => Some (filter (fun e => e.1.1 = d) t) | _ => None end
  else None.

(** The statements without arguments; none of them changes a row. *)
Definition maintenance : list string :=
  [schema; "PRAGMA wal_checkpoint(TRUNCATE)"; "PRAGMA wal_checkpoint(PASSIVE)"].

Class SqlDriverLaws (DB Stmt : Type) `{SqlDriver DB Stmt} : Type := {
  table : DB -> Table;
  open_text : DB -> Stmt -> option string;
  sl_maintenance text db :
    text ∈ maintenance ->
    table (db_Exec text db).2 = table db /\ open_text (db_Exec text db).2 = open_text db;
  sl_prepare text db st db' :
    db_Prepare text db = (Ok st, db') ->
    table db' = table db /\ open_text db' st = Some text /\
    forall st' t, open_text db st' = Some t -> open_text db' st' = Some t;
  sl_exec st args db text r db' :
    open_text db st = Some text -> st_Exec st args db = (r, db') ->
    open_text db' = open_text db /\
    match r with
    | Err _ => table db' = table db
    | Ok n => exists k, exec_meaning text args (table db) = Some (table db', k) /\ forall k', n = Ok k' -> k' = k
    end;
  sl_exec_closed st args db :
    open_text db st = None -> exists e, st_Exec st args db = (Err e, db);
  sl_query st args db text :
    open_text db st = Some text ->
    match st_Query st args db with
    | Err _ => True
    | Ok (rows, err) => exists t, query_meaning text args (table db) = Some t /\
        match err with
        | None => rows ≡ₚ row_values <$> map_to_list t
        | Some _ => rows ⊆+ row_values <$> map_to_list t
        end
    end;
  sl_query_closed st args db :
    open_text db st = None -> exists e, st_Query st args db = Err e;
  sl_close_stmt st db : table (st_Close st db) = table db;
  sl_close db st : table (db_Close db).2 = table db /\ open_text (db_Close db).2 st = None;
}.

Class LimitJsonLaws `{LimitJson} : Prop := {
  lj_rate r s : marshal_rate r = Ok s -> s <> "" /\ unmarshal_rate s = Ok r;
  lj_budget b s : marshal_budget b = Ok s -> s <> "" /\ unmarshal_budget s = Ok b;
}.

(** ** The specification: a map of states *)

Notation Store := (gmap (string * string) LimitState).

(** What is kept of a saved state: whole seconds, and the first creation time. *)
Definition as_kept (prev : option LimitState) (st : LimitState) : LimitState :=
  mkLimitState (Identifier st) (Dimension st) (RateLimit st) (Budget st)
    (Truncate (LastUpdated st) Second)
    (match prev with Some p => CreatedAt p | None => Truncate (CreatedAt st) Second end).

Definition spec_save (st : LimitState) (m : Store) : Store :=
  <[(Dimension st, Identifier st) := as_kept (m !! (Dimension st, Identifier st)) st]> m.

(** The entries of the cutoff's own second are kept. *)
Definition spec_cleanup (olderThan : Time) (m : Store) : Store :=
  filter (fun e => Truncate olderThan Second <= LastUpdated e.2) m.

Inductive Call :=
| CSave (now : Time) (st : option LimitState)
| CLoad (identifier dimension : string)
| CDelete (identifier dimension : string)
| CList (dimension : string)
| CCleanup (olderThan : Time)
| CCheckpoint
| CClose.

Inductive Answer :=
| ADone
| AState (st : option LimitState)
| AStates (l : list LimitState)
| ACount (n : Z)
| AError (e : string).

Definition done_or (e : option string) : Answer := match e with None => ADone | Some e => AError e end.
Definition answer {A} (f : A -> Answer) (r : result string A) : Answer :=
  match r with Ok a => f a | Err e => AError e end.

Section refinement.
Context {DB Stmt : Type} `{SqlDriver DB Stmt} `{!SqlDriverLaws DB Stmt} `{LimitJson} `{!LimitJsonLaws}.

Notation B := (SQLiteBackend DB Stmt).

Definition run_call (c : Call) (s : B) : Answer * B :=
  match c with
  | CSave now st => let '(e, s) := Save now st s in (done_or e, s)
  | CLoad i d => (answer AState (Load i d s), s)
  | CDelete i d => let '(e, s) := Delete i d s in (done_or e, s)
  | CList d => (answer AStates (List d s), s)
  | CCleanup t => let '(r, s) := Cleanup t s in (answer ACount r, s)
  | CCheckpoint => (ADone, checkpointLoop [true] s)
  | CClose => let '(e, s) := Close s in (done_or e, s)
  end.

(** A driver whose open statements always succeed. *)
Definition reliable : Prop := forall (st : Stmt) args (db : DB), open_text db st <> None ->
  (exists n, (st_Exec st args db).1 = Ok (Ok n)) /\ (exists rows, st_Query st args db = Ok (rows, None)).

Definition encodable (st : LimitState) : Prop :=
  (forall r, RateLimit st = Some r -> exists s, marshal_rate r = Ok s) /\
  (forall b, Budget st = Some b -> exists s, marshal_budget b = Ok s).

(** When a call is refused although the database works. *)
Definition refused (c : Call) : Prop :=
  match c with
  | CSave _ None => True
  | CSave _ (Some st) => valid_key (Identifier st) (Dimension st) = false \/ ~ encodable st
  | CLoad i d | CDelete i d => valid_key i d = false
  | CList d => d = ""
  | _ => False
  end.

(** One call of the specification; the flag says that the backend is closed. *)
Definition spec_step (c : Call) (a : Answer) (st st' : Store * bool) : Prop :=
  let '(m, closed) := st in
  match a with
  | AError _ => (closed = true \/ refused c \/ ~ reliable \/ c = CClose) /\
      (st'.1 = m \/ exists t, c = CCleanup t /\ st'.1 = spec_cleanup t m)
  | _ =>
    match c with
    | CSave now (Some x) => a = ADone /\ closed = false /\ ~ refused c /\ st'.1 = spec_save (stamp now x) m
    | CSave _ None => False
    | CLoad i d => a = AState (m !! (d, i)) /\ closed = false /\ ~ refused c /\ st'.1 = m
    | CDelete i d => a = ADone /\ closed = false /\ ~ refused c /\ st'.1 = delete (d, i) m
    | CList d => closed = false /\ ~ refused c /\ st'.1 = m /\
        exists l, a = AStates l /\ l ≡ₚ (map_to_list (filter (fun e => e.1.1 = d) m)).*2
    | CCleanup t => closed = false /\ st'.1 = spec_cleanup t m /\
        a = ACount (Z.of_nat (size m) - Z.of_nat (size st'.1))
    | CCheckpoint | CClose => a = ADone /\ st'.1 = m
    end
  end /\ st'.2 = match c with CClose => true | _ => closed end.

(** *** The representation *)

(** Every row is the encoding of the state under its key. *)
Definition encodes (t : Table) (m : Store) : Prop := forall d i,
  match t !! (d, i), m !! (d, i) with
  | Some r, Some st => state_of_row (i, d, lr_rate r, lr_budget r, lr_last_updated r, lr_created_at r) = Ok st
  | None, None => True
  | _, _ => False
  end.

Definition statements (s : B) : list (Stmt * string) :=
  [(saveStmt s, save_sql); (loadStmt s, load_sql); (deleteStmt s, delete_sql); (listStmt s, list_sql);
   (cleanupStmt s, cleanup_sql)].

Definition represents (s : B) (st : Store * bool) : Prop :=
  encodes (table (sb_db s)) st.1 /\ sb_closed s = st.2 /\
  Forall (fun p => open_text (sb_db s) p.1 = if st.2 then None else Some p.2) (statements s).

Lemma decode_encode {A} (marshal : A -> result string string) unmarshal what part text :
  (forall a t, marshal a = Ok t -> t <> "" /\ unmarshal t = Ok a) ->
  encode_part marshal what part = Ok text -> decode_part unmarshal what text = Ok part.
Proof.
  intros Hl. unfold encode_part, decode_part. destruct part as [a|]; [|by intros [= <-]].
  destruct (marshal a) as [t|e] eqn:E; [|done]. intros [= ->]. destruct (Hl _ _ E) as [Hne ->].
  by apply String.eqb_neq in Hne as ->.
Qed.

(** A successful statement, read from the laws. *)
Lemma exec_open st args db text r db' :
  open_text db st = Some text -> st_Exec st args db = (r, db') ->
  open_text db' = open_text db /\
  match r with
  | Err _ => ~ reliable /\ table db' = table db
  | Ok n => exists k, exec_meaning text args (table db) = Some (table db', k) /\
      match n with Ok k' => k' = k | Err _ => ~ reliable end
  end.
Proof.
  intros Ho He. pose proof (sl_exec _ _ _ _ _ _ Ho He) as [Hot Hr]. split; [done|].
  assert (Hrel : reliable -> exists n, r = Ok (Ok n)).
  { intros R. destruct (R st args db) as [[n Hn] _]; [congruence|]. rewrite He in Hn. eauto. }
  destruct r as [n|e].
  - destruct Hr as (k & Hm & Hk). exists k. split; [done|]. destruct n as [k'|e]; [eauto|].
    intros R. by destruct (Hrel R).
  - split; [|done]. intros R. by destruct (Hrel R).
Qed.

Lemma with_db_represents s db m m' b :
  represents s (m, b) -> open_text db = open_text (sb_db s) -> encodes (table db) m' -> represents (with_db db s) (m', b).
Proof. intros (_ & Hc & Hs) Ho He. split; [done|]. split; [done|]. simpl in *. by rewrite Ho. Qed.

Lemma encodes_insert t m d i r st :
  encodes t m -> state_of_row (i, d, lr_rate r, lr_budget r, lr_last_updated r, lr_created_at r) = Ok st ->
  encodes (<[(d, i) := r]> t) (<[(d, i) := st]> m).
Proof.
  intros He Hr d' i'. destruct (decide ((d, i) = (d', i'))) as [[= <- <-]|Hne].
  - by rewrite !lookup_insert_eq.
  - rewrite !lookup_insert_ne by done. apply He.
Qed.

Lemma encodes_delete t m k : encodes t m -> encodes (delete k t) (delete k m).
Proof.
  intros He d i. destruct (decide (k = (d, i))) as [->|Hne].
  - by rewrite !lookup_delete_eq.
  - rewrite !lookup_delete_ne by done. apply He.
Qed.

(** Filtering rows and states by conditions that agree. *)
Lemma encodes_filter t m (P : (string * string) * LimitRow -> Prop) (Q : (string * string) * LimitState -> Prop)
    `{!forall e, Decision (P e)} `{!forall e, Decision (Q e)} :
  encodes t m ->
  (forall d i r st, t !! (d, i) = Some r -> m !! (d, i) = Some st -> P ((d, i), r) <-> Q ((d, i), st)) ->
  encodes (filter P t) (filter Q m).
Proof.
  intros He Heq d i. rewrite !map_lookup_filter. specialize (He d i). specialize (Heq d i).
  destruct (t !! (d, i)) as [r|] eqn:Et, (m !! (d, i)) as [st|] eqn:Em; try done. simpl.
  specialize (Heq r st eq_refl eq_refl).
  destruct (decide (P ((d, i), r))) as [Hp|Hp], (decide (Q ((d, i), st))) as [Hq|Hq];
    rewrite ?option_guard_True, ?option_guard_False by done; simpl; try done; tauto.
Qed.

Lemma encodes_last t m d i r st :
  encodes t m -> t !! (d, i) = Some r -> m !! (d, i) = Some st ->
  LastUpdated st = FromUnix (lr_last_updated r) /\ CreatedAt st = FromUnix (lr_created_at r).
Proof.
  intros He Ht Hm. specialize (He d i). rewrite Ht, Hm in He. unfold state_of_row in He.
  destruct (decode_part unmarshal_rate _ _); [|done]. destruct (decode_part unmarshal_budget _ _); [|done].
  by injection He as <-.
Qed.

Lemma encodes_dom t m : encodes t m -> dom t = dom m.
Proof.
  intros He. apply set_eq. intros [d i]. rewrite !elem_of_dom. specialize (He d i).
  unfold is_Some. split; intros [x Hx]; rewrite Hx in He; [destruct (m !! (d, i))|destruct (t !! (d, i))]; naive_solver.
Qed.

Lemma encodes_size t m : encodes t m -> size t = size m.
Proof. intros He. by rewrite <- !size_dom, (encodes_dom t m). Qed.

Lemma encodes_cleanup t m c :
  encodes t m -> encodes (filter (fun e => Unix c <= lr_last_updated e.2) t) (spec_cleanup c m).
Proof.
  intros He. apply encodes_filter; [done|]. intros d i r st Hr Hst. simpl.
  destruct (encodes_last _ _ _ _ _ _ He Hr Hst) as [-> _]. rewrite <- FromUnix_Unix. unfold FromUnix, Second. lia.
Qed.

(** *** One call *)

Lemma stmt_open s m b p :
  represents s (m, b) -> p ∈ statements s -> open_text (sb_db s) p.1 = if b then None else Some p.2.
Proof. intros (_ & _ & Hs) Hp. rewrite Forall_forall in Hs. by apply Hs. Qed.

(** What a statement does to a represented backend. *)
Lemma exec_represents s m b p args r db :
  represents s (m, b) -> p ∈ statements s -> st_Exec p.1 args (sb_db s) = (r, db) ->
  match r with
  | Err _ => (b = true \/ ~ reliable) /\ represents (with_db db s) (m, b)
  | Ok n => b = false /\ exists k, exec_meaning p.2 args (table (sb_db s)) = Some (table db, k) /\
      match n with Ok k' => k' = k | Err _ => ~ reliable end /\
      forall m', encodes (table db) m' -> represents (with_db db s) (m', b)
  end.
Proof.
  intros Hr Hp He. pose proof (stmt_open _ _ _ _ Hr Hp) as Ho. destruct b.
  - destruct (sl_exec_closed _ args _ Ho) as [e Hx]. rewrite He in Hx. injection Hx as -> ->.
    split; [by left|]. eapply with_db_represents; [done|done|]. apply Hr.
  - destruct (exec_open _ _ _ _ _ _ Ho He) as [Hot Hm]. destruct r as [n|e].
    + split; [done|]. destruct Hm as (k & Hk & Hn). exists k. split; [done|]. split; [done|].
      intros m' Hm'. by eapply with_db_represents.
    + destruct Hm as [Hn Ht]. split; [by right|]. eapply with_db_represents; [done|done|]. rewrite Ht. apply Hr.
Qed.

Lemma encode_fails {A} (marshal : A -> result string string) what part e :
  encode_part marshal what part = Err e -> exists a e', part = Some a /\ marshal a = Err e'.
Proof.
  unfold encode_part. destruct part as [a|]; [|done]. destruct (marshal a) as [|e'] eqn:E; [done|]. eauto.
Qed.

Lemma encode_succeeds {A} (marshal : A -> result string string) what part t :
  encode_part marshal what part = Ok t -> forall a, part = Some a -> exists t', marshal a = Ok t'.
Proof. unfold encode_part. intros Ht a ->. destruct (marshal a) as [t'|]; [eauto|done]. Qed.

Lemma save_step now x s m b :
  represents s (m, b) ->
  exists st', spec_step (CSave now x) (run_call (CSave now x) s).1 (m, b) st' /\
    represents (run_call (CSave now x) s).2 st'.
Proof.
  intros Hr. destruct x as [x|]; [|exists (m, b); simpl; naive_solver]. cbn [run_call]. unfold Save.
  destruct (String.eqb (Identifier x) "") eqn:Ei.
  { exists (m, b). cbn. unfold valid_key. rewrite Ei. naive_solver. }
  destruct (String.eqb (Dimension x) "") eqn:Ed.
  { exists (m, b). cbn. unfold valid_key. rewrite Ei, Ed. naive_solver. }
  destruct (encode_part marshal_rate _ _) as [rate|e] eqn:Er.
  2: { exists (m, b). cbn. split; [|done]. split; [|done]. split; [|by left]. right. left. right.
       destruct (encode_fails _ _ _ _ Er) as (a & e' & Ha & He). intros [Hx _]. destruct (Hx a Ha). congruence. }
  destruct (encode_part marshal_budget _ _) as [budget|e] eqn:Eb.
  2: { exists (m, b). cbn. split; [|done]. split; [|done]. split; [|by left]. right. left. right.
       destruct (encode_fails _ _ _ _ Eb) as (a & e' & Ha & He). intros [_ Hx]. destruct (Hx a Ha). congruence. }
  destruct (st_Exec (saveStmt s) _ _) as [r db] eqn:Ex.
  pose proof (exec_represents s m b (saveStmt s, save_sql) _ _ _ Hr ltac:(by left) Ex) as Hm.
  destruct r as [n|e].
  2: { exists (m, b). cbn. destruct Hm as [Hb Hm]. split; [|done]. split; [|done]. split; [|by left]. tauto. }
  destruct Hm as (-> & k & Hk & _ & Hm). cbn in Hk. injection Hk as Hk _.
  exists (spec_save (stamp now x) m, false). cbn. split.
  - split; [|done]. repeat split; try done. intros [Hv|Hn].
    + unfold valid_key in Hv. by rewrite Ei, Ed in Hv.
    + apply Hn. split; [by eapply encode_succeeds|by eapply encode_succeeds].
  - apply Hm. rewrite <- Hk. apply encodes_insert; [apply Hr|]. cbn [state_of_row lr_rate lr_budget lr_last_updated lr_created_at].
    rewrite (decode_encode _ _ _ _ _ lj_rate Er), (decode_encode _ _ _ _ _ lj_budget Eb).
    unfold as_kept. cbn. f_equal. rewrite !FromUnix_Unix. f_equal.
    destruct Hr as (He & _). cbn in He. pose proof (He (Dimension x) (Identifier x)) as Hl.
    destruct (table (sb_db s) !! _) as [old|] eqn:Et, (m !! _) as [p|] eqn:Em; try done.
    + symmetry. by apply (encodes_last _ _ _ _ _ _ He Et Em).
    + by rewrite FromUnix_Unix.
Qed.

Lemma delete_step i d s m b :
  represents s (m, b) ->
  exists st', spec_step (CDelete i d) (run_call (CDelete i d) s).1 (m, b) st' /\
    represents (run_call (CDelete i d) s).2 st'.
Proof.
  intros Hr. cbn [run_call]. unfold Delete.
  destruct (String.eqb i "") eqn:Ei.
  { exists (m, b). cbn. unfold valid_key. rewrite Ei. naive_solver. }
  destruct (String.eqb d "") eqn:Ed.
  { exists (m, b). cbn. unfold valid_key. rewrite Ei, Ed. naive_solver. }
  destruct (st_Exec (deleteStmt s) _ _) as [r db] eqn:Ex.
  pose proof (exec_represents s m b (deleteStmt s, delete_sql) _ _ _ Hr ltac:(set_solver) Ex) as Hm.
  destruct r as [n|e].
  2: { exists (m, b). cbn. destruct Hm as [Hb Hm]. split; [|done]. split; [|done]. split; [|by left]. tauto. }
  destruct Hm as (-> & k & Hk & _ & Hm). cbn in Hk. injection Hk as Hk _.
  exists (delete (d, i) m, false). cbn. split.
  - unfold valid_key. rewrite Ei, Ed. naive_solver.
  - apply Hm. rewrite <- Hk. apply encodes_delete, Hr.
Qed.

Lemma cleanup_step_refines c s m b :
  represents s (m, b) ->
  exists st', spec_step (CCleanup c) (run_call (CCleanup c) s).1 (m, b) st' /\
    represents (run_call (CCleanup c) s).2 st'.
Proof.
  intros Hr. cbn [run_call]. unfold Cleanup.
  destruct (st_Exec (cleanupStmt s) _ _) as [r db] eqn:Ex.
  pose proof (exec_represents s m b (cleanupStmt s, cleanup_sql) _ _ _ Hr ltac:(set_solver) Ex) as Hm.
  destruct r as [n|e].
  2: { exists (m, b). cbn. destruct Hm as [Hb Hm]. split; [|done]. split; [|done]. split; [|by left]. tauto. }
  destruct Hm as (-> & k & Hk & Hn & Hm).
  assert (Hk' : filter (fun e => Unix c <= lr_last_updated e.2) (table (sb_db s)) = table db /\
    k = Z.of_nat (size (table (sb_db s))) - Z.of_nat (size (filter (fun e => Unix c <= lr_last_updated e.2) (table (sb_db s))))).
  { cbn in Hk. injection Hk as Hk1 Hk2. split; [exact Hk1|by rewrite <- Hk2]. }
  destruct Hk' as [Ht Hkz]. pose proof (encodes_cleanup _ _ c (proj1 Hr)) as Hc. cbn in Hc.
  exists (spec_cleanup c m, false).
  assert (Hrep : represents (with_db db s) (spec_cleanup c m, false)) by (apply Hm; by rewrite <- Ht).
  destruct n as [k'|e]; cbn; [|split; [|done]; split; [|done]; split; [tauto|right; eauto]].
  split; [|done]. split; [|done]. split; [done|]. split; [done|]. f_equal.
  rewrite Hn, Hkz, (encodes_size _ _ Hc), (encodes_size _ _ (proj1 Hr)). done.
Qed.

(** What a query returns from a represented backend. *)
Lemma query_represents s m b p args :
  represents s (m, b) -> p ∈ statements s ->
  match st_Query p.1 args (sb_db s) with
  | Err _ => b = true \/ ~ reliable
  | Ok (rows, err) => b = false /\ exists t, query_meaning p.2 args (table (sb_db s)) = Some t /\
      match err with
      | None => rows ≡ₚ row_values <$> map_to_list t
      | Some _ => ~ reliable /\ rows ⊆+ row_values <$> map_to_list t
      end
  end.
Proof.
  intros Hr Hp. pose proof (stmt_open _ _ _ _ Hr Hp) as Ho. destruct b.
  - destruct (sl_query_closed _ args _ Ho) as [e ->]. by left.
  - pose proof (sl_query _ args _ _ Ho) as Hq.
    assert (Hrel : reliable -> exists rows, st_Query p.1 args (sb_db s) = Ok (rows, None)).
    { intros R. apply (R p.1 args (sb_db s)). congruence. }
    destruct (st_Query p.1 args (sb_db s)) as [[rows err]|e].
    + split; [done|]. destruct Hq as (t & Ht & Hrows). exists t. split; [done|]. destruct err as [e|]; [|done].
      split; [|done]. intros R. by destruct (Hrel R).
    + right. intros R. by destruct (Hrel R).
Qed.

Lemma scan_row_values e :
  scanLimitRow (row_values e) =
  Some (e.1.2, e.1.1, lr_rate e.2, lr_budget e.2, lr_last_updated e.2, lr_created_at e.2).
Proof. done. Qed.

(** The rows of one key: at most one. *)
Lemma filter_key (t : Table) k :
  map_to_list (filter (fun e => e.1 = k) t) = match t !! k with Some r => [(k, r)] | None => [] end.
Proof.
  destruct (t !! k) as [r|] eqn:E.
  - replace (filter (fun e => e.1 = k) t) with ({[k := r]} : Table); [apply map_to_list_singleton|].
    symmetry. apply map_eq. intros k'. apply option_eq. intros r'.
    rewrite map_lookup_filter_Some, lookup_singleton_Some. simpl. naive_solver.
  - apply map_to_list_empty_iff, map_eq. intros k'. rewrite lookup_empty. apply map_lookup_filter_None.
    right. intros r' Hk' Heq. simpl in Heq. congruence.
Qed.

Lemma load_step i d s m b :
  represents s (m, b) ->
  exists st', spec_step (CLoad i d) (run_call (CLoad i d) s).1 (m, b) st' /\
    represents (run_call (CLoad i d) s).2 st'.
Proof.
  intros Hr. exists (m, b). split; [|done]. cbn [run_call fst]. unfold Load.
  destruct (String.eqb i "") eqn:Ei; [cbn; unfold valid_key; rewrite Ei; naive_solver|].
  destruct (String.eqb d "") eqn:Ed; [cbn; unfold valid_key; rewrite Ei, Ed; naive_solver|].
  pose proof (query_represents s m b (loadStmt s, load_sql) [SText i; SText d] Hr ltac:(set_solver)) as Hq.
  cbn [fst snd] in Hq. destruct (st_Query (loadStmt s) _ _) as [[rows err]|e].
  2: { cbn. split; [|done]. split; [tauto|by left]. }
  destruct Hq as (-> & t & Ht & Hrows). cbn in Ht. apply (inj Some) in Ht as <-.
  rewrite filter_key in Hrows. pose proof (proj1 Hr d i) as He. cbn [fst] in He.
  destruct (table (sb_db s) !! (d, i)) as [r|] eqn:Etbl, (m !! (d, i)) as [st|] eqn:Em; try done.
  - assert (Hc : rows = [row_values ((d, i), r)] \/ rows = [] /\ err <> None /\ ~ reliable).
    { destruct err as [e|].
      - destruct Hrows as [Hn Hsub]. simpl in Hsub.
        apply submseteq_cons_r in Hsub as [Hs|(l' & Hp & Hs)]; apply submseteq_nil_r in Hs as ->; [auto|].
        left. by apply Permutation_singleton_r in Hp.
      - left. by apply Permutation_singleton_r in Hrows. }
    destruct Hc as [->|(-> & Herr & Hn)].
    + rewrite scan_row_values. cbn [fst snd]. rewrite He.
      cbn. unfold valid_key. rewrite Ei, Ed, Em. naive_solver.
    + destruct err; [|done]. cbn. split; [|done]. split; [tauto|by left].
  - assert (rows = []) as ->.
    { destruct err; [destruct Hrows as [_ Hs]; by apply submseteq_nil_r in Hs|by apply Permutation_nil_r in Hrows]. }
    destruct err as [e|]; cbn.
    + split; [|done]. split; [tauto|by left].
    + unfold valid_key. rewrite Ei, Ed, Em. naive_solver.
Qed.

(** Scanning the rows of represented states gives these states. *)
Lemma scan_states_app rows l acc :
  Forall2 (fun row st => exists r, scanLimitRow row = Some r /\ state_of_row r = Ok st) rows l ->
  scan_states rows acc = Ok (acc ++ l).
Proof.
  intros Hf. revert acc. induction Hf as [|row st rows l (r & Hs & Hst) Hf IH]; intros acc; cbn [scan_states].
  - by rewrite app_nil_r.
  - rewrite Hs, Hst, IH. by rewrite <- app_assoc.
Qed.

(** The states of the rows of a represented table. *)
Definition row_state (m : Store) (e : (string * string) * LimitRow) : LimitState :=
  default (mkLimitState "" "" None None 0 0) (m !! e.1).

Lemma row_states_perm t m : encodes t m -> row_state m <$> map_to_list t ≡ₚ (map_to_list m).*2.
Proof.
  intros He. trans (((fun e => (e.1, row_state m e)) <$> map_to_list t).*2); [by rewrite <- list_fmap_compose|].
  apply Permutation_map. apply NoDup_Permutation.
  - apply (NoDup_fmap_1 fst). rewrite <- list_fmap_compose. apply NoDup_fst_map_to_list.
  - apply NoDup_map_to_list.
  - intros [[d i] st]. rewrite list_elem_of_fmap, elem_of_map_to_list. pose proof (He d i) as Hd. unfold row_state. split.
    + intros ([[d' i'] r] & [= -> -> ->] & Hr). apply elem_of_map_to_list in Hr. simpl in *. rewrite Hr in Hd.
      by destruct (m !! (d', i')).
    + intros Hst. rewrite Hst in Hd. destruct (t !! (d, i)) as [r|] eqn:Er; [|done].
      exists ((d, i), r). simpl. rewrite Hst. split; [done|]. by apply elem_of_map_to_list.
Qed.

Lemma rows_decode t m rows rest :
  encodes t m -> rows ++ rest ≡ₚ row_values <$> map_to_list t ->
  exists l, scan_states rows [] = Ok l /\ (rest = [] -> l ≡ₚ (map_to_list m).*2).
Proof.
  intros He Hp. apply Permutation_map_inv in Hp as (es & Hes & Hp).
  assert (Hrows : rows = row_values <$> take (length rows) es).
  { rewrite fmap_take. change (row_values <$> es) with (map row_values es). by rewrite <- Hes, take_app_length. }
  exists (row_state m <$> take (length rows) es). split.
  - rewrite Hrows at 1. rewrite (scan_states_app _ (row_state m <$> take (length rows) es)); [done|].
    apply Forall2_fmap_2, Forall_Forall2_diag, Forall_forall. intros [[d i] r] Hin%elem_of_take.
    assert (Hr : t !! (d, i) = Some r).
    { apply elem_of_map_to_list. rewrite Hp. destruct Hin as (n & Hn & _). by eapply list_elem_of_lookup_2. }
    eexists. split; [apply scan_row_values|]. specialize (He d i). rewrite Hr in He. unfold row_state. simpl.
    destruct (m !! (d, i)); [done|done].
  - intros ->. rewrite app_nil_r in Hes. rewrite Hes, length_map, take_ge by done. rewrite <- Hp. by apply row_states_perm.
Qed.

Lemma list_step d s m b :
  represents s (m, b) ->
  exists st', spec_step (CList d) (run_call (CList d) s).1 (m, b) st' /\
    represents (run_call (CList d) s).2 st'.
Proof.
  intros Hr. exists (m, b). split; [|done]. cbn [run_call fst]. unfold List.
  destruct (String.eqb_spec d "") as [->|Hd]; [cbn; naive_solver|].
  pose proof (query_represents s m b (listStmt s, list_sql) [SText d] Hr ltac:(set_solver)) as Hq.
  cbn [fst snd] in Hq. destruct (st_Query (listStmt s) _ _) as [[rows err]|e].
  2: { cbn. split; [|done]. split; [tauto|by left]. }
  destruct Hq as (-> & t & Ht & Hrows). cbn in Ht. apply (inj Some) in Ht as <-.
  assert (He : encodes (filter (fun e => e.1.1 = d) (table (sb_db s))) (filter (fun e => e.1.1 = d) m))
    by (apply encodes_filter; [apply Hr|done]).
  assert (Hx : exists rest, rows ++ rest ≡ₚ row_values <$> map_to_list (filter (fun e => e.1.1 = d) (table (sb_db s))) /\
    (err = None -> rest = [])).
  { destruct err as [e|].
    - destruct Hrows as [_ Hs]. apply submseteq_Permutation in Hs as [rest Hs]. exists rest. by split.
    - exists []. split; [by rewrite app_nil_r|done]. }
  destruct Hx as (rest & Hp & Hrest). destruct (rows_decode _ _ _ _ He Hp) as (l & -> & Hl).
  destruct err as [e|]; cbn.
  - split; [|done]. split; [tauto|by left].
  - split; [|done]. split; [done|]. split; [done|]. split; [done|]. exists l. split; [done|]. by apply Hl, Hrest.
Qed.

Lemma checkpoint_step s m b :
  represents s (m, b) -> represents (checkpointLoop [true] s) (m, b).
Proof.
  intros Hr. cbn. destruct (sl_maintenance "PRAGMA wal_checkpoint(PASSIVE)" (sb_db s)) as [Ht Ho]; [set_solver|].
  eapply with_db_represents; [done|done|]. rewrite Ht. apply Hr.
Qed.

Lemma close_step s m b :
  represents s (m, b) -> represents (run_call CClose s).2 (m, true).
Proof.
  intros Hr. cbn [run_call]. unfold Close. destruct (sb_closed s) eqn:Ec.
  { destruct Hr as (He & Hb & Hs). simpl in *. rewrite Ec in Hb. subst b. by split. }
  destruct (db_Exec _ _) as [e1 db1] eqn:E1. destruct (db_Close db1) as [e2 db2] eqn:E2. cbn.
  pose proof (sl_maintenance "PRAGMA wal_checkpoint(TRUNCATE)"
    (st_Close (cleanupStmt s) (st_Close (listStmt s) (st_Close (deleteStmt s) (st_Close (loadStmt s) (st_Close (saveStmt s) (sb_db s))))))) as [Ht _];
    [set_solver|]. rewrite E1 in Ht. cbn in Ht. rewrite !sl_close_stmt in Ht.
  assert (Hc : forall st, table db2 = table db1 /\ open_text db2 st = None).
  { intros st. pose proof (sl_close db1 st) as Hc. by rewrite E2 in Hc. }
  split; [|split; [done|]]; cbn.
  - rewrite (proj1 (Hc (saveStmt s))), Ht. apply Hr.
  - repeat constructor; cbn; apply Hc.
Qed.

Lemma call_refines c s st :
  represents s st -> exists st', spec_step c (run_call c s).1 st st' /\ represents (run_call c s).2 st'.
Proof.
  destruct st as [m b]. intros Hr. destruct c as [now x|i d|i d|d|t| |].
  - by apply save_step.
  - by apply load_step.
  - by apply delete_step.
  - by apply list_step.
  - by apply cleanup_step_refines.
  - exists (m, b). split; [done|]. by apply checkpoint_step.
  - exists (m, true). split; [|by eapply close_step]. cbn [run_call]. destruct (Close s) as [[e|] s']; cbn; [|done].
    split; [|done]. split; [auto|by left].
Qed.

(** *** Histories *)

Fixpoint run_calls (cs : list Call) (s : B) : list Answer * B :=
  match cs with
  | [] => ([], s)
  | c :: cs => let '(a, s) := run_call c s in let '(l, s) := run_calls cs s in (a :: l, s)
  end.

Inductive spec_run : list Call -> list Answer -> Store * bool -> Store * bool -> Prop :=
| spec_nil st : spec_run [] [] st st
| spec_cons c a cs l st st1 st2 : spec_step c a st st1 -> spec_run cs l st1 st2 -> spec_run (c :: cs) (a :: l) st st2.

Lemma run_calls_refine cs s st :
  represents s st ->
  exists st', spec_run cs (run_calls cs s).1 st st' /\ represents (run_calls cs s).2 st'.
Proof.
  revert s st. induction cs as [|c cs IH]; intros s st Hr; cbn [run_calls].
  - exists st. split; [constructor|done].
  - destruct (call_refines c s st Hr) as (st1 & Hs & Hr1). destruct (run_call c s) as [a s1]. cbn in *.
    destruct (IH s1 st1 Hr1) as (st2 & Hs2 & Hr2). destruct (run_calls cs s1) as [l s2]. cbn in *.
    exists st2. split; [by econstructor|done].
Qed.

(** A database that was just created. *)
Definition new_database : Prop := forall dsn db, sql_Open dsn = Ok db -> table db = ∅.

Lemma prepare_law what text db st db' :
  prepare what text db = (Ok st, db') ->
  table db' = table db /\ open_text db' st = Some text /\
  forall st' t, open_text db st' = Some t -> open_text db' st' = Some t.
Proof.
  unfold prepare. destruct (db_Prepare text db) as [[st0|e] db0] eqn:E; [|done]. intros [= -> ->]. by apply sl_prepare.
Qed.

Lemma new_represents cfg s :
  new_database -> NewSQLiteBackendWithConfig cfg = Ok s -> represents s (∅, false).
Proof.
  intros Hf. unfold NewSQLiteBackendWithConfig. destruct (String.eqb _ _); [done|].
  destruct (sql_Open _) as [db|e] eqn:Eo; [|done]. apply Hf in Eo.
  unfold initSchema. destruct (sl_maintenance schema db) as [Hm _]; [set_solver|].
  destruct (db_Exec schema db) as [[e|] db0]; [done|]. cbn in Hm. rewrite Eo in Hm. unfold prepareStatements.
  destruct (prepare _ save_sql _) as [[s1|] d1] eqn:E1; [|done]. apply prepare_law in E1 as (T1 & O1 & _).
  destruct (prepare _ load_sql _) as [[s2|] d2] eqn:E2; [|done]. apply prepare_law in E2 as (T2 & O2 & K2).
  destruct (prepare _ delete_sql _) as [[s3|] d3] eqn:E3; [|done]. apply prepare_law in E3 as (T3 & O3 & K3).
  destruct (prepare _ list_sql _) as [[s4|] d4] eqn:E4; [|done]. apply prepare_law in E4 as (T4 & O4 & K4).
  destruct (prepare _ cleanup_sql _) as [[s5|] d5] eqn:E5; [|done]. apply prepare_law in E5 as (T5 & O5 & K5).
  intros [= <-]. split; [|split; [done|]]; cbn.
  - rewrite T5, T4, T3, T2, T1, Hm. by intros d i; rewrite !lookup_empty.
  - repeat constructor; cbn; eauto.
Qed.

(** C7: the durable backend implements a map.  In every history of calls on a backend
    opened on a new database each answer is the map's answer, or an error that
    changes nothing and has a cause: the arguments, an unencodable state, the
    closed backend or the database (only [Cleanup] may also have removed the
    entries when the count is not available).  A saved state is read back with its
    times cut to whole seconds and its first creation time. *)
Theorem sqlite_refines_map cfg s cs :
  new_database -> NewSQLiteBackendWithConfig cfg = Ok s ->
  exists st, spec_run cs (run_calls cs s).1 (∅, false) st /\ represents (run_calls cs s).2 st.
Proof. intros Hf Hn. apply run_calls_refine. by eapply new_represents. Qed.

(** Cleanup never removes a state that is as new as the cutoff, and removes every
    state that is a second older. *)
Lemma cleanup_within_a_second (m : Store) olderThan k st t :
  m !! k = Some st -> LastUpdated st = Truncate t Second ->
  (olderThan <= t -> spec_cleanup olderThan m !! k = Some st) /\
  (t + Second <= olderThan -> spec_cleanup olderThan m !! k = None).
Proof.
  intros Hk Ht. unfold spec_cleanup. split; intros Hle.
  - apply map_lookup_filter_Some. split; [done|]. cbn [snd]. rewrite Ht. by apply Truncate_mono.
  - apply map_lookup_filter_None. right. intros st' Hst'. cbn [snd]. rewrite Hk in Hst'. injection Hst' as <-. rewrite Ht.
    pose proof (Truncate_le t Second eq_refl). pose proof (Truncate_gt olderThan Second eq_refl). lia.
Qed.
End refinement.

(** ** Examples: a database in memory *)

#[export] Instance float64_eq_dec : EqDecision SpecFloat.spec_float.
Proof. solve_decision. Defined.

#[export] Instance float64_countable : Countable SpecFloat.spec_float :=
  inj_countable'
    (fun f => match f with
              | SpecFloat.S754_zero s => inl (inl s) | SpecFloat.S754_infinity s => inl (inr s)
              | SpecFloat.S754_nan => inr (inl ()) | SpecFloat.S754_finite s m e => inr (inr (s, m, e))
              end)
    (fun c => match c with
              | inl (inl s) => SpecFloat.S754_zero s | inl (inr s) => SpecFloat.S754_infinity s
              | inr (inl _) => SpecFloat.S754_nan | inr (inr (s, m, e)) => SpecFloat.S754_finite s m e
              end)
    (fun f => match f with SpecFloat.S754_nan => eq_refl | _ => eq_refl end).

(** States as nested pairs. *)
Definition rate_tuple (r : RateLimitState) :=
  ((fun b => (tbs_Capacity b, tbs_Tokens b, tbs_RefillRate b, tbs_LastRefill b)) <$> rls_TokenBucket r,
   (fun w => (sws_Window w, (fun b => (wb_Timestamp b, wb_Value b)) <$> sws_Buckets w, sws_BucketSize w)) <$> rls_SlidingWindow r,
   rls_Concurrent r, rls_MaxConcurrent r).

Definition tuple_rate (t : option (Z * Z * Z * Z) * option (Z * list (Z * Z) * Z) * Z * Z) : RateLimitState :=
  let '(b, w, c, m) := t in
  mkRateLimitState ((fun '(c, t, r, l) => mkTokenBucketState c t r l) <$> b)
    ((fun '(w, l, s) => mkSlidingWindowState w ((fun '(t, v) => mkWindowBucket t v) <$> l) s) <$> w) c m.

Definition buckets_tuple (l : list BudgetBucket) := (fun b => (bb_Timestamp b, bb_Amount b)) <$> l.
Definition tuple_buckets (l : list (Z * SpecFloat.spec_float)) : list BudgetBucket :=
  (fun '(t, a) => mkBudgetBucket t a) <$> l.

Definition budget_tuple (b : BudgetState) :=
  (buckets_tuple (HourlyBuckets b), buckets_tuple (DailyBuckets b), buckets_tuple (MonthlyBuckets b), bs_TotalSpent b).
Definition tuple_budget (t : list (Z * SpecFloat.spec_float) * list (Z * SpecFloat.spec_float) * list (Z * SpecFloat.spec_float) * SpecFloat.spec_float)
  : BudgetState :=
  let '(h, d, m, s) := t in mkBudgetState (tuple_buckets h) (tuple_buckets d) (tuple_buckets m) s.

Lemma fmap_cancel {A B} (f : A -> B) (g : B -> A) (l : list A) : (forall a, g (f a) = a) -> g <$> (f <$> l) = l.
Proof. intros Hg. rewrite <- list_fmap_compose. induction l as [|a l IH]; [done|]. cbn in *. by rewrite Hg, IH. Qed.

Lemma tuple_rate_tuple r : tuple_rate (rate_tuple r) = r.
Proof.
  destruct r as [b w c m]. unfold tuple_rate, rate_tuple.
  cbn [rls_TokenBucket rls_SlidingWindow rls_Concurrent rls_MaxConcurrent]. f_equal.
  - by destruct b as [[c' t r l]|].
  - destruct w as [[w l sz]|]; [|done].
    transitivity (Some (mkSlidingWindowState w ((fun '(t, v) => mkWindowBucket t v) <$> ((fun b => (wb_Timestamp b, wb_Value b)) <$> l)) sz));
      [done|]. rewrite fmap_cancel; [done|]. by intros [].
Qed.

Lemma tuple_budget_tuple b : tuple_budget (budget_tuple b) = b.
Proof.
  destruct b as [h d m t]. unfold tuple_budget, budget_tuple, tuple_buckets, buckets_tuple. cbn.
  rewrite !fmap_cancel; try done; by intros [].
Qed.

Definition or_bad {A} (o : option A) : result string A := match o with Some a => Ok a | None => Err "invalid character" end.

#[local] Instance toy_limit_json : LimitJson := {|
  marshal_rate r := Ok (enc (rate_tuple r));
  marshal_budget b := Ok (enc (budget_tuple b));
  unmarshal_rate s := or_bad (tuple_rate <$> dec s);
  unmarshal_budget s := or_bad (tuple_budget <$> dec s);
|}.

#[local] Instance toy_limit_json_laws : LimitJsonLaws.
Proof.
  split; intros x s [= <-]; (split; [done|]); cbn [unmarshal_rate unmarshal_budget toy_limit_json]; rewrite dec_enc;
    unfold or_bad, fmap, option_fmap, option_map; by rewrite ?tuple_rate_tuple, ?tuple_budget_tuple.
Qed.

(** Statement handles are numbers; a closed database has no open statement. *)
Record ToyDB := mkToyDB { td_table : Table; td_stmts : gmap nat string }.

Definition toy_exec (st : nat) (args : list SqlVal) (db : ToyDB) : result string (result string Z) * ToyDB :=
  match td_stmts db !! st with
  | None => (Err "sql: statement is closed", db)
  | Some text =>
      match exec_meaning text args (td_table db) with
      | Some (t, n) => (Ok (Ok n), mkToyDB t (td_stmts db))
      | None => (Err "SQL logic error", db)
      end
  end.

Definition toy_query (st : nat) (args : list SqlVal) (db : ToyDB) : result string (list (list SqlVal) * option string) :=
  match td_stmts db !! st with
  | None => Err "sql: statement is closed"
  | Some text =>
      match query_meaning text args (td_table db) with
      | Some t => Ok (row_values <$> map_to_list t, None)
      | None => Err "SQL logic error"
      end
  end.

Definition toy_handle (db : ToyDB) : nat := fresh (dom (td_stmts db)).

#[local] Instance toy_driver : SqlDriver ToyDB nat := {|
  sql_Open _ := Ok (mkToyDB ∅ ∅);
  db_Exec _ db := (None, db);
  db_Prepare text db := (Ok (toy_handle db), mkToyDB (td_table db) (<[toy_handle db := text]> (td_stmts db)));
  db_Close db := (None, mkToyDB (td_table db) ∅);
  st_Exec := toy_exec;
  st_Query := toy_query;
  st_Close st db := mkToyDB (td_table db) (delete st (td_stmts db));
|}.

#[local] Instance toy_driver_laws : SqlDriverLaws ToyDB nat.
Proof.
  refine {| table := td_table; open_text db st := td_stmts db !! st |}; cbn [db_Exec db_Prepare db_Close st_Exec st_Query st_Close toy_driver].
  - done.
  - intros text db st db' [= <- <-]. cbn. split; [done|]. rewrite lookup_insert_eq. split; [done|].
    intros st' t Hst. rewrite lookup_insert_ne; [done|]. intros <-.
    apply (is_fresh (dom (td_stmts db))), elem_of_dom. by exists t.
  - intros st args db text r db' Ho. unfold toy_exec. rewrite Ho.
    destruct (exec_meaning text args (td_table db)) as [[t n]|]; intros [= <- <-]; cbn; [|done].
    split; [done|]. exists n. split; [done|]. by intros k' [= ->].
  - intros st args db Ho. unfold toy_exec. rewrite Ho. eauto.
  - intros st args db text Ho. unfold toy_query. rewrite Ho. destruct (query_meaning _ _ _) as [t|]; [|done]. eauto.
  - intros st args db Ho. unfold toy_query. rewrite Ho. eauto.
  - done.
  - intros db st. cbn. by rewrite lookup_empty.
Defined.

Definition toy_config : SQLiteBackendConfig := mkSQLiteBackendConfig "limits.db" 0 0.

Definition toy_state (t : Time) : LimitState :=
  mkLimitState "k" "api_key" (Some (mkRateLimitState None None 3 5)) None t 0.

(** Two saves, a read, a cleanup in the same second, one a second later. *)
Definition toy_calls : list Call :=
  [CSave (7 * Second + 5) (Some (toy_state 0)); CSave (9 * Second) (Some (toy_state (8 * Second + 9)));
   CLoad "k" "api_key"; CLoad "" "api_key"; CCleanup (8 * Second + 500); CCleanup (9 * Second); CList "api_key"; CClose;
   CLoad "k" "api_key"].

(** The second save keeps the creation time of the first; times are whole
    seconds; after [Close] every call fails. *)
Example toy_answers :
  match NewSQLiteBackendWithConfig toy_config with
  | Ok s => (run_calls toy_calls s).1
  | Err _ => []
  end =
  [ADone; ADone; AState (Some (mkLimitState "k" "api_key" (Some (mkRateLimitState None None 3 5)) None (8 * Second) (7 * Second)));
   AError "identifier cannot be empty"; ACount 0; ACount 1; AStates []; ADone;
   AError "failed to load state: sql: statement is closed"].
Proof. vm_compute. reflexivity. Qed.

Lemma sqlite_refines_map_witness :
  exists s st, NewSQLiteBackendWithConfig toy_config = Ok s /\ spec_run toy_calls (run_calls toy_calls s).1 (∅, false) st /\
    represents (run_calls toy_calls s).2 st.
Proof.
  destruct (NewSQLiteBackendWithConfig toy_config) as [s|e] eqn:E; [|by vm_compute in E].
  destruct (sqlite_refines_map toy_config s toy_calls) as (st & Hs & Hr); [by intros dsn db [= <-]|exact E|].
  exists s, st. split; [done|]. split; [exact Hs|exact Hr].
Defined.
