(* ===== verification/Secrets.v ===== *)
(** * Secrets ([pkg/security/secrets])

    The secret providers (environment, files, and the stubs for AWS, GCP and
    Vault), the cache and the manager that tries the providers in order.  What the
    operating system answers ([os.Getenv], [os.Stat], [os.ReadFile], ...) is the
    argument [World] of the calls that ask it, and may differ from call to call.
    The clock is read through [Timed].  Secret names are taken to be ASCII, for
    which [strings.ToUpper] and [strings.ToLower] are the functions used here.
    Errors are their texts; log lines are left out. *)

From Stdlib Require Import ZArith Lia Ascii.
From stdpp Require Import base option list strings gmap.
From S2P Require Import Prelude GoValue Paths ProviderTypes ProxyTypes ProviderStream ConfigLoad PolicyRegistry.
Local Open Scope Z_scope.
Local Open Scope go_scope.

(** ** The cache ([cache.go]) *)

Record CacheConfig := mkCacheConfig {
  cc_Enabled : bool;
  cc_TTL : Duration;
  cc_MaxSize : Z;
}.

Record cacheEntry := mkCacheEntry { ce_value : string; ce_expiresAt : Time }.

Record Cache := mkCache {
  ca_config : CacheConfig;
  ca_entries : gmap string cacheEntry;
}.

Definition NewCache (config : CacheConfig) : Cache := mkCache config ∅.

Definition set_entries (m : gmap string cacheEntry) (c : Cache) : Cache := mkCache (ca_config c) m.

(** The clock is read only for an entry that exists. *)
Definition Get (key : string) (c : Cache) : Timed (option string) :=
  if negb (cc_Enabled (ca_config c)) then tret None
  else
    match ca_entries c !! key with
    | None => tret None
    | Some entry =>
        let! t := now in
        if After t (ce_expiresAt entry) then tret None else tret (Some (ce_value entry))
    end.

(** The loop that looks for the oldest entry: its key and time so far. *)
Definition oldest_step (acc : option (string * Time)) (e : string * cacheEntry) : option (string * Time) :=
  match acc with
  | None => Some (e.1, ce_expiresAt e.2)
  | Some (_, oldestTime) =>
      if Before (ce_expiresAt e.2) oldestTime then Some (e.1, ce_expiresAt e.2) else acc
  end.

(** [oldestKey] is the empty string when there is no entry; an entry under the
    empty key is not removed. *)
Definition evict `{MapRange} (c : Cache) : Cache :=
  let oldestKey := match foldl oldest_step None (range (ca_entries c)) with Some (k, _) => k | None => "" end in
  if negb (String.eqb oldestKey "") then set_entries (delete oldestKey (ca_entries c)) c else c.

Definition Set_ `{MapRange} (key value : string) (c : Cache) : Timed Cache :=
  if negb (cc_Enabled (ca_config c)) then tret c
  else
    let c := if cc_MaxSize (ca_config c) <=? Z.of_nat (size (ca_entries c)) then evict c else c in
    let! t := now in
    tret (set_entries (<[key := mkCacheEntry value (AddD t (cc_TTL (ca_config c)))]> (ca_entries c)) c).

Definition Clear (c : Cache) : Cache := set_entries ∅ c.
Definition Delete (key : string) (c : Cache) : Cache := set_entries (delete key (ca_entries c)) c.
Definition Size (c : Cache) : Z := Z.of_nat (size (ca_entries c)).

(** ** The operating system *)

Record FileInfo := mkFileInfo { fi_IsRegular : bool; fi_Perm : Z }.

Record DirEntry := mkDirEntry { de_Name : string; de_IsDir : bool; de_Info : result string FileInfo }.

(** An error of [os.Stat] with the answer of [os.IsNotExist]. *)
Record World := mkWorld {
  sw_Getenv : string -> string;
  sw_Environ : list string;
  sw_Getwd : result string string;
  sw_Stat : string -> result (bool * string) FileInfo;
  sw_ReadFile : string -> result string string;
  sw_ReadDir : string -> result string (list DirEntry);
}.

(** ** Environment variables ([env.go]) *)

Record EnvProvider := mkEnvProvider { ep_Prefix : string }.

Definition NewEnvProvider (prefix : string) : EnvProvider := mkEnvProvider prefix.

(** [strings.ReplaceAll] of one character by another. *)
Fixpoint replace_char (a b : ascii) (s : string) : string :=
  match s with
  | EmptyString => EmptyString
  | String c s => String (if Ascii.eqb c a then b else c) (replace_char a b s)
  end.

Definition secretNameToEnvVar (name : string) (p : EnvProvider) : string :=
  ep_Prefix p +:+ ToUpper (replace_char "-" "_" name).

Definition envVarToSecretName (envVar : string) (p : EnvProvider) : string :=
  ToLower (replace_char "_" "-" (TrimPrefix envVar (ep_Prefix p))).

Definition env_GetSecret (w : World) (name : string) (p : EnvProvider) : result string string :=
  let envVar := secretNameToEnvVar name p in
  let value := sw_Getenv w envVar in
  if String.eqb value "" then
    Err ("secret not found in environment: " +:+ name +:+ " (env var: " +:+ envVar +:+ ")")
  else Ok value.

(** [strings.SplitN(s, "=", 2)] when it has two parts. *)
Fixpoint split_equals (s : string) : option (string * string) :=
  match s with
  | EmptyString => None
  | String c s =>
      if Ascii.eqb c "="%char then Some ("", s)
      else match split_equals s with Some (a, b) => Some (String c a, b) | None => None end
  end.

Fixpoint env_names (p : EnvProvider) (environ : list string) : list string :=
  match environ with
  | [] => []
  | env :: environ =>
      if negb (HasPrefix env (ep_Prefix p)) then env_names p environ
      else
        match split_equals env with
        | None => env_names p environ
        | Some (envVarName, _) => envVarToSecretName envVarName p :: env_names p environ
        end
  end.

Definition env_ListSecrets (w : World) (p : EnvProvider) : result string (list string) :=
  Ok (env_names p (sw_Environ w)).

(** ** Files ([file.go]) *)

Record FileProvider := mkFileProvider {
  fp_BasePath : string;
  fp_Watch : bool;
  fp_cache : gmap string string;
  fp_watching : bool;
  fp_stopped : bool;
}.

Definition set_cache (m : gmap string string) (p : FileProvider) : FileProvider :=
  mkFileProvider (fp_BasePath p) (fp_Watch p) m (fp_watching p) (fp_stopped p).

(** [isDir] is the answer of [os.Stat] on the base path; [newWatcher] and [add]
    are the results of the file watcher library. *)
Definition NewFileProvider (isDir : result string bool) (newWatcher add : option string)
    (basePath : string) (watch : bool) : result string FileProvider :=
  match isDir with
  | Err e => Err ("failed to stat base path: " +:+ e)
  | Ok false => Err ("base path is not a directory: " +:+ basePath)
  | Ok true =>
      if watch then
        match newWatcher with
        | Some e => Err ("failed to create file watcher: " +:+ e)
        | None =>
            match add with
            | Some e => Err ("failed to watch directory: " +:+ e)
            | None => Ok (mkFileProvider basePath watch ∅ true false)
            end
        end
      else Ok (mkFileProvider basePath watch ∅ false false)
  end.

(** [%o] of permission bits. *)
Definition octal_digit (n : Z) : string := String (ascii_of_nat (48 + Z.to_nat n)) EmptyString.
Definition octal (n : Z) : string :=
  (if 64 <=? n then octal_digit (n / 64) else "") +:+
  (if 8 <=? n then octal_digit (n / 8 mod 8) else "") +:+ octal_digit (n mod 8).

(** The check against directory traversal: the error, or the path to read. *)
Definition secret_path (w : World) (name : string) (p : FileProvider) : result string string :=
  let path := JoinPath [fp_BasePath p; name] in
  match Abs (sw_Getwd w) (fp_BasePath p) with
  | Err e => Err ("failed to resolve base path: " +:+ e)
  | Ok absBase =>
      match Abs (sw_Getwd w) path with
      | Err e => Err ("failed to resolve secret path: " +:+ e)
      | Ok absPath =>
          if negb (HasPrefix absPath (absBase +:+ "/")) && negb (String.eqb absPath absBase)
          then Err "invalid secret path: directory traversal detected"
          else Ok path
      end
  end.

(** The checks and the reading of the file. *)
Definition read_secret (w : World) (name : string) (p : FileProvider) : result string string :=
  match secret_path w name p with
  | Err e => Err e
  | Ok path =>
      match sw_Stat w path with
      | Err (true, _) => Err ("secret file not found: " +:+ name)
      | Err (false, e) => Err ("failed to stat secret file: " +:+ e)
      | Ok info =>
          if negb (fi_IsRegular info) then Err ("secret path is not a regular file: " +:+ name)
          else
            let mode := fi_Perm info in
            if negb (mode =? 384) && negb (mode =? 256) then
              Err ("insecure permissions on " +:+ path +:+ ": " +:+ octal mode +:+ " (expected 0600 or 0400)")
            else
              match sw_ReadFile w path with
              | Err e => Err ("failed to read secret file: " +:+ e)
              | Ok data => Ok (TrimSpace data)
              end
      end
  end.

Definition file_GetSecret (w : World) (name : string) (p : FileProvider) : result string string * FileProvider :=
  match fp_cache p !! name with
  | Some value => (Ok value, p)
  | None =>
      match read_secret w name p with
      | Err e => (Err e, p)
      | Ok value => (Ok value, set_cache (<[name := value]> (fp_cache p)) p)
      end
  end.

Fixpoint file_names (entries : list DirEntry) : list string :=
  match entries with
  | [] => []
  | entry :: entries =>
      if de_IsDir entry then file_names entries
      else
        match de_Info entry with
        | Err _ => file_names entries
        | Ok info => if negb (fi_IsRegular info) then file_names entries else de_Name entry :: file_names entries
        end
  end.

Definition file_ListSecrets (w : World) (p : FileProvider) : result string (list string) :=
  match sw_ReadDir w (fp_BasePath p) with
  | Err e => Err ("failed to read secrets directory: " +:+ e)
  | Ok entries => Ok (file_names entries)
  end.

Definition file_Supports (w : World) (name : string) (p : FileProvider) : bool :=
  match sw_Stat w (JoinPath [fp_BasePath p; name]) with
  | Err _ => false
  | Ok info => fi_IsRegular info
  end.

Definition file_Refresh (p : FileProvider) : FileProvider := set_cache ∅ p.

(** Closing the channel a second time panics. *)
Definition file_Close (p : FileProvider) : option FileProvider :=
  if fp_watching p then
    if fp_stopped p then None
    else Some (mkFileProvider (fp_BasePath p) (fp_Watch p) (fp_cache p) (fp_watching p) true)
  else Some p.

(** What the [select] of the watch loop receives. *)
Inductive WatchEvent :=
| WEvent (write create : bool)
| WError
| WClosed.

Fixpoint watchLoop (events : list WatchEvent) (p : FileProvider) : FileProvider :=
  match events with
  | [] | WClosed :: _ => p
  | WEvent write create :: events => watchLoop events (if write || create then file_Refresh p else p)
  | WError :: events => watchLoop events p
  end.

(** ** The stubs ([aws_kms.go], [gcp_kms.go], [vault.go]) *)

Record AWSKMSProvider := mkAWSKMSProvider { aws_Enabled : bool; aws_Region : string; aws_KeyID : string }.
Record GCPKMSProvider := mkGCPKMSProvider {
  gcp_Enabled : bool; gcp_Project : string; gcp_Location : string; gcp_KeyRing : string; gcp_Key : string }.
Record VaultProvider := mkVaultProvider {
  vault_Enabled : bool; vault_Address : string; vault_Token : string; vault_Path : string }.

(** Both methods of every stub fail, before and after the provider is enabled. *)
Definition stub {A} (enabled : bool) (what : string) : result string A :=
  if negb enabled then Err (what +:+ " provider not enabled (Phase 2 feature)")
  else Err (what +:+ " provider not implemented (Phase 2)").

Definition NewAWSKMSProvider (region keyID : string) (enabled : bool) : AWSKMSProvider := mkAWSKMSProvider enabled region keyID.
Definition aws_GetSecret (name : string) (p : AWSKMSProvider) : result string string := stub (aws_Enabled p) "AWS KMS".
Definition aws_ListSecrets (p : AWSKMSProvider) : result string (list string) := stub (aws_Enabled p) "AWS KMS".
Definition aws_Supports (name : string) (p : AWSKMSProvider) : bool := false.

Definition NewGCPKMSProvider (project location keyRing key : string) (enabled : bool) : GCPKMSProvider :=
  mkGCPKMSProvider enabled project location keyRing key.
Definition gcp_GetSecret (name : string) (p : GCPKMSProvider) : result string string := stub (gcp_Enabled p) "GCP KMS".
Definition gcp_ListSecrets (p : GCPKMSProvider) : result string (list string) := stub (gcp_Enabled p) "GCP KMS".
Definition gcp_Supports (name : string) (p : GCPKMSProvider) : bool := false.

Definition NewVaultProvider (address token path : string) (enabled : bool) : VaultProvider :=
  mkVaultProvider enabled address token path.
Definition vault_GetSecret (name : string) (p : VaultProvider) : result string string := stub (vault_Enabled p) "Vault".
Definition vault_ListSecrets (p : VaultProvider) : result string (list string) := stub (vault_Enabled p) "Vault".
Definition vault_Supports (name : string) (p : VaultProvider) : bool := false.

(** ** The provider interface ([provider.go]) *)

Inductive SecretProvider :=
| PEnv (p : EnvProvider)
| PFile (p : FileProvider)
| PAWS (p : AWSKMSProvider)
| PGCP (p : GCPKMSProvider)
| PVault (p : VaultProvider).

Definition provider_GetSecret (w : World) (name : string) (p : SecretProvider) : result string string * SecretProvider :=
  match p with
  | PEnv e => (env_GetSecret w name e, p)
  | PFile f => let '(r, f) := file_GetSecret w name f in (r, PFile f)
  | PAWS a => (aws_GetSecret name a, p)
  | PGCP g => (gcp_GetSecret name g, p)
  | PVault v => (vault_GetSecret name v, p)
  end.

Definition provider_ListSecrets (w : World) (p : SecretProvider) : result string (list string) :=
  match p with
  | PEnv e => env_ListSecrets w e
  | PFile f => file_ListSecrets w f
  | PAWS a => aws_ListSecrets a
  | PGCP g => gcp_ListSecrets g
  | PVault v => vault_ListSecrets v
  end.

Definition Supports (w : World) (name : string) (p : SecretProvider) : bool :=
  match p with
  | PEnv _ => true
  | PFile f => file_Supports w name f
  | PAWS a => aws_Supports name a
  | PGCP g => gcp_Supports name g
  | PVault v => vault_Supports name v
  end.

(** [Provider] *)
Definition provider_name (p : SecretProvider) : string :=
  match p with PEnv _ => "env" | PFile _ => "file" | PAWS _ => "aws_kms" | PGCP _ => "gcp_kms" | PVault _ => "vault" end.

(** Only the file provider is refreshable. *)
Definition provider_Refresh (p : SecretProvider) : SecretProvider :=
  match p with PFile f => PFile (file_Refresh f) | _ => p end.

(** ** The manager ([manager.go]) *)

Record Manager := mkManager { mg_providers : list SecretProvider; mg_cache : Cache }.

Definition NewManager (providers : list SecretProvider) (cacheConfig : CacheConfig) : Manager :=
  mkManager providers (NewCache cacheConfig).

Definition set_providers (ps : list SecretProvider) (m : Manager) : Manager := mkManager ps (mg_cache m).
Definition set_secret_cache (c : Cache) (m : Manager) : Manager := mkManager (mg_providers m) c.

Section manager.
Context `{MapRange} `{Fmt}.

(** The loop over the providers: the first value, or the last error if any
    provider failed; and the providers after it. *)
Fixpoint try_providers (w : World) (name : string) (ps : list SecretProvider) (lastErr : option string)
  : result (option string) string * list SecretProvider :=
  match ps with
  | [] => (Err lastErr, [])
  | p :: ps =>
      if negb (Supports w name p) then
        let '(r, ps) := try_providers w name ps lastErr in (r, p :: ps)
      else
        match provider_GetSecret w name p with
        | (Err e, p) => let '(r, ps) := try_providers w name ps (Some e) in (r, p :: ps)
        | (Ok value, p) => (Ok value, p :: ps)
        end
  end.

Definition secret_error (name : string) (lastErr : option string) : string :=
  match lastErr with
  | Some e => "failed to get secret " +:+ Quote name +:+ ": " +:+ e
  | None => "secret not found: " +:+ Quote name +:+ " (no provider supports this secret)"
  end.

(** The three parts of [GetSecret], between which other calls may run. *)
Definition fetch (w : World) (name : string) (m : Manager) : result string string * Manager :=
  match try_providers w name (mg_providers m) None with
  | (Ok value, ps) => (Ok value, set_providers ps m)
  | (Err lastErr, ps) => (Err (secret_error name lastErr), set_providers ps m)
  end.

Definition store (name value : string) (m : Manager) : Timed Manager :=
  let! c := Set_ name value (mg_cache m) in
  tret (set_secret_cache c m).

Definition GetSecret (w : World) (name : string) (m : Manager) : Timed (result string string * Manager) :=
  let! hit := Get name (mg_cache m) in
  match hit with
  | Some value => tret (Ok value, m)
  | None =>
      match fetch w name m with
      | (Err e, m) => tret (Err e, m)
      | (Ok value, m) =>
          let! m := store name value m in
          tret (Ok value, m)
      end
  end.

(** *** References in texts *)

(** [[^}]+] and the closing brace: the name and what follows. *)
Fixpoint until_brace (s : string) : option (string * string) :=
  match s with
  | EmptyString => None
  | String c s =>
      if Ascii.eqb c "}"%char then Some ("", s)
      else match until_brace s with Some (name, rest) => Some (String c name, rest) | None => None end
  end.

(** A match of [secretRefRegex] at the start of the text: the name in the group
    and the text behind the match. *)
Definition match_ref (s : string) : option (string * string) :=
  if HasPrefix s "${secret:" then
    match until_brace (TrimPrefix s "${secret:") with
    | Some (name, rest) => if String.eqb name "" then None else Some (name, rest)
    | None => None
    end
  else None.

(** The text of a match. *)
Definition ref_text (name : string) : string := "${secret:" +:+ name +:+ "}".

(** The text as characters and matches, from the left; a match is not searched
    again.  Every step consumes a character. *)
Inductive Piece := PLit (c : ascii) | PRef (name : string).

Fixpoint pieces (fuel : nat) (s : string) : list Piece :=
  match fuel, s with
  | O, _ | _, EmptyString => []
  | S fuel, String c rest =>
      match match_ref s with
      | Some (name, rest) => PRef name :: pieces fuel rest
      | None => PLit c :: pieces fuel rest
      end
  end.

Definition text_pieces (s : string) : list Piece := pieces (String.length s) s.

(** [ReplaceAllStringFunc] with the function that resolves a match. *)
Fixpoint replace_refs (w : World) (ps : list Piece) (errors : list string) (m : Manager)
  : Timed (string * list string * Manager) :=
  match ps with
  | [] => tret ("", errors, m)
  | PLit c :: ps =>
      let! (out, errors, m) := replace_refs w ps errors m in
      tret (String c out, errors, m)
  | PRef name :: ps =>
      let match_ := ref_text name in
      match match_ref match_ with
      | None =>
          let! (out, errors, m) := replace_refs w ps (errors ++ ["invalid secret reference: " +:+ match_]) m in
          tret (match_ +:+ out, errors, m)
      | Some (name, _) =>
          let! (r, m) := GetSecret w name m in
          match r with
          | Ok value =>
              let! (out, errors, m) := replace_refs w ps errors m in
              tret (value +:+ out, errors, m)
          | Err err =>
              let! (out, errors, m) :=
                replace_refs w ps (errors ++ ["failed to resolve secret " +:+ Quote name +:+ ": " +:+ err]) m in
              tret (match_ +:+ out, errors, m)
          end
      end
  end.

(** The output, and the error next to it. *)
Definition ResolveReferences (w : World) (input : string) (m : Manager) : Timed (string * option string * Manager) :=
  let! (output, errors, m) := replace_refs w (text_pieces input) [] m in
  match errors with
  | [] => tret (output, None, m)
  | _ => tret (output, Some ("failed to resolve secret references: " +:+ join_with "; " errors), m)
  end.

(** *** Refresh, listing, log names *)

Definition refresh_providers (m : Manager) : Manager := set_providers (provider_Refresh <$> mg_providers m) m.
Definition clear_cache (m : Manager) : Manager := set_secret_cache (Clear (mg_cache m)) m.

(** [Refresh] of the file provider, the only refreshable one, never fails. *)
Definition Refresh (m : Manager) : option string * Manager := (None, clear_cache (refresh_providers m)).

Fixpoint collect_names (w : World) (ps : list SecretProvider) (secretMap : gmap string bool) : gmap string bool :=
  match ps with
  | [] => secretMap
  | p :: ps =>
      match provider_ListSecrets w p with
      | Err _ => collect_names w ps secretMap
      | Ok secrets => collect_names w ps (foldl (fun acc s => <[s := true]> acc) secretMap secrets)
      end
  end.

Definition ListSecrets (w : World) (m : Manager) : result string (list string) :=
  Ok (range (collect_names w (mg_providers m) ∅)).*1.
End manager.

Definition redactSecretName (name : string) : string :=
  let n := String.length name in
  if (n <=? 4)%nat then "***"
  else String.substring 0 2 name +:+ "..." +:+ String.substring (n - 2) 2 name.

(** ** Concurrent calls

    The cache and every provider lock one operation at a time, so calls of
    [GetSecret] and [Refresh] overlap.  A call looks into the cache, asks one
    provider after the other and stores.  A file provider holds its lock to look for
    a remembered value and to remember one, and reads the file in between without
    it.  [Refresh] empties one provider after the other and then the cache.  A call
    is a number; the history gives the world or the clock at every step. *)

Inductive Flight :=
| Asking (name : string) (k : nat) (lastErr : option string)
| Reading (name : string) (k : nat) (lastErr : option string)
| Keeping (name : string) (k : nat) (value : string)
| Storing (name value : string).

Record SState := mkSState { ss_mgr : Manager; ss_flight : gmap nat Flight }.

Inductive Step :=
| SStart (i : nat) (name : string) (t : Time)
| SAsk (i : nat) (w : World)
| SRead (i : nat) (w : World)
| SKeep (i : nat)
| SStore (i : nat) (t : Time)
| SRefresh (k : nat)
| SClear
| SWatch (k : nat).

Definition set_provider (k : nat) (p : SecretProvider) (m : Manager) : Manager := set_providers (<[k := p]> (mg_providers m)) m.

(** The part of the loop of [GetSecret] for one provider, up to the point where the
    lock of a file provider is released. *)
Definition ask_provider (w : World) (name : string) (k : nat) (lastErr : option string) (p : SecretProvider) : Flight :=
  if negb (Supports w name p) then Asking name (S k) lastErr
  else
    match p with
    | PFile f => match fp_cache f !! name with Some value => Storing name value | None => Reading name k lastErr end
    | _ => match (provider_GetSecret w name p).1 with Ok value => Storing name value | Err e => Asking name (S k) (Some e) end
    end.

(** The step and the results that calls return in it; [None] when the call is not
    at this step. *)
Definition step `{MapRange} `{Fmt} (l : Step) (s : SState) : option (list (string * result string string) * SState) :=
  let m := ss_mgr s in
  match l with
  | SStart i name t =>
      match ss_flight s !! i with
      | Some _ => None
      | None =>
          match (Get name (mg_cache m) (fun _ => t) 0%nat).1 with
          | Some value => Some ([(name, Ok value)], s)
          | None => Some ([], mkSState m (<[i := Asking name 0 None]> (ss_flight s)))
          end
      end
  | SAsk i w =>
      match ss_flight s !! i with
      | Some (Asking name k lastErr) =>
          match mg_providers m !! k with
          | Some p => Some ([], mkSState m (<[i := ask_provider w name k lastErr p]> (ss_flight s)))
          | None => Some ([(name, Err (secret_error name lastErr))], mkSState m (delete i (ss_flight s)))
          end
      | _ => None
      end
  | SRead i w =>
      match ss_flight s !! i with
      | Some (Reading name k lastErr) =>
          match mg_providers m !! k with
          | Some (PFile f) =>
              Some ([], mkSState m (<[i := match read_secret w name f with
                                           | Ok value => Keeping name k value
                                           | Err e => Asking name (S k) (Some e)
                                           end]> (ss_flight s)))
          | _ => None
          end
      | _ => None
      end
  | SKeep i =>
      match ss_flight s !! i with
      | Some (Keeping name k value) =>
          match mg_providers m !! k with
          | Some (PFile f) =>
              Some ([], mkSState (set_provider k (PFile (set_cache (<[name := value]> (fp_cache f)) f)) m)
                          (<[i := Storing name value]> (ss_flight s)))
          | _ => None
          end
      | _ => None
      end
  | SStore i t =>
      match ss_flight s !! i with
      | Some (Storing name value) =>
          Some ([(name, Ok value)], mkSState (store name value m (fun _ => t) 0%nat).1 (delete i (ss_flight s)))
      | _ => None
      end
  | SRefresh k =>
      match mg_providers m !! k with
      | Some p => Some ([], mkSState (set_provider k (provider_Refresh p) m) (ss_flight s))
      | None => None
      end
  | SClear => Some ([], mkSState (clear_cache m) (ss_flight s))
  | SWatch k =>
      match mg_providers m !! k with
      | Some (PFile f) => Some ([], mkSState (set_provider k (PFile (watchLoop [WEvent true false] f)) m) (ss_flight s))
      | _ => None
      end
  end.

(** The loop of [Refresh] from provider [k] on; a gap is what other calls do after
    a provider has been refreshed. *)
Fixpoint refresh_loop (k : nat) (gaps : list (list Step)) : list Step :=
  match gaps with
  | [] => []
  | gap :: gaps => SRefresh k :: gap ++ refresh_loop (S k) gaps
  end.

Fixpoint run `{MapRange} `{Fmt} (ls : list Step) (s : SState) : option (list (string * result string string) * SState) :=
  match ls with
  | [] => Some ([], s)
  | l :: ls =>
      match step l s with
      | None => None
      | Some (out, s) =>
          match run ls s with
          | None => None
          | Some (outs, s) => Some (out ++ outs, s)
          end
      end
  end.

(** ** Paths of secret files *)

Lemma splitSlash_app_gen s p : splitSlash (s +:+ "/" +:+ p) = (splitSlash s ++ splitSlash p)%list.
Proof.
  induction s as [|c s IH]; [done|]. rewrite string_app_cons. cbn [splitSlash]. rewrite IH.
  destruct (Ascii.eqb c slash); [done|]. by destruct (splitSlash s) as [|w ws] eqn:E; [destruct s as [|d s]; cbn in E; [|destruct (Ascii.eqb d slash), (splitSlash s)]|].
Qed.

Lemma splitSlash_nonempty s : splitSlash s <> [].
Proof. destruct s as [|c s]; cbn; [done|]. destruct (Ascii.eqb c slash); [done|]. by destruct (splitSlash s). Qed.

(** The prefix test on cleaned absolute paths: the base has elements, and the
    target has more. *)
Lemma prefix_elements b t :
  Forall proper b -> Forall proper t ->
  HasPrefix ("/" +:+ joinSlash t) (("/" +:+ joinSlash b) +:+ "/") = true ->
  exists rest, b <> [] /\ rest <> [] /\ t = b ++ rest.
Proof.
  intros Hb Ht [r Hr]%HasPrefix_app.
  assert (Hp : forall l, Forall proper l -> Forall no_slash l) by (intros l Hl; eapply Forall_impl; [exact Hl|]; by intros x [? _]).
  assert (Hs : splitSlash (joinSlash t) = splitSlash (joinSlash b) ++ splitSlash r).
  { rewrite <- splitSlash_app_gen. f_equal. change ("/" +:+ joinSlash t) with (String slash (joinSlash t)) in Hr.
    change ((("/" +:+ joinSlash b) +:+ "/") +:+ r) with (String slash ((joinSlash b +:+ "/") +:+ r)) in Hr.
    injection Hr as Hr. rewrite Hr. clear. induction (joinSlash b) as [|c s IH]; [done|]. by rewrite !string_app_cons, IH. }
  pose proof (splitSlash_nonempty r) as Hr0.
  destruct t as [|x t]; [destruct b as [|y b]|].
  - cbn in Hs. by destruct (splitSlash r).
  - rewrite (splitSlash_join (y :: b)) in Hs by (done || by apply Hp). inversion Hb as [|? ? (_ & Hy & _)]; subst. cbn in Hs.
    by injection Hs as <- _.
  - rewrite (splitSlash_join (x :: t)) in Hs by (done || by apply Hp). destruct b as [|y b].
    + cbn in Hs. inversion Ht as [|? ? (_ & Hx & _)]; subst. by injection Hs as -> _.
    + rewrite (splitSlash_join (y :: b)) in Hs by (done || by apply Hp). by exists (splitSlash r).
Qed.

Lemma Clean_abs p : IsAbs p = true -> Clean p = "/" +:+ joinSlash (elements p).
Proof. intros Hp. unfold Clean. destruct p; [done|]. cbn [String.eqb]. by rewrite Hp. Qed.

Lemma Abs_clean getwd p q :
  match getwd with Ok wd => IsAbs wd = true | _ => True end -> Abs getwd p = Ok q ->
  IsAbs q = true /\ q = "/" +:+ joinSlash (elements q).
Proof.
  intros Hwd Hq. pose proof (Abs_rooted _ _ _ Hwd Hq) as Ha. split; [done|].
  unfold Abs in Hq. destruct (IsAbs p) eqn:Ep.
  - injection Hq as <-. rewrite elements_Clean by done. by apply Clean_abs.
  - destruct getwd as [wd|]; [|done]. injection Hq as <-. cbn [JoinPath] in *. destruct wd as [|c wd]; [done|].
    cbn [String.eqb] in *. rewrite elements_Clean by done. by apply Clean_abs.
Qed.

(** A path that passes the check lies in the base directory. *)
Lemma secret_path_inside w name p path :
  match sw_Getwd w with Ok wd => IsAbs wd = true | _ => True end ->
  secret_path w name p = Ok path ->
  exists base target rest, path = JoinPath [fp_BasePath p; name] /\
    Abs (sw_Getwd w) (fp_BasePath p) = Ok base /\ Abs (sw_Getwd w) path = Ok target /\
    elements target = elements base ++ rest.
Proof.
  intros Hwd. unfold secret_path. destruct (Abs (sw_Getwd w) (fp_BasePath p)) as [base|] eqn:Eb; [|done].
  destruct (Abs (sw_Getwd w) (JoinPath _)) as [target|] eqn:Et; [|done].
  destruct (HasPrefix target (base +:+ "/")) eqn:Ep; cbn [negb andb].
  - intros [= <-]. destruct (Abs_clean _ _ _ Hwd Eb) as [Hba Hbc], (Abs_clean _ _ _ Hwd Et) as [Hta Htc].
    rewrite Hbc, Htc in Ep. apply prefix_elements in Ep as (rest & _ & _ & He); [|by apply elements_proper..].
    by exists base, target, rest.
  - destruct (String.eqb_spec target base) as [->|]; [|done]. intros [= <-].
    exists base, base, []. by rewrite app_nil_r.
Qed.

(** C28: secret files.  A value that is not cached is the trimmed content of a regular
    file with permissions 0600 or 0400 whose path, once cleaned, lies in the base
    directory; it is then cached under its name, and no other answer changes the
    provider. *)
Theorem secret_files_confined w name p v p' :
  match sw_Getwd w with Ok wd => IsAbs wd = true | _ => True end ->
  fp_cache p !! name = None -> file_GetSecret w name p = (Ok v, p') ->
  exists path base target rest info data,
    secret_path w name p = Ok path /\
    Abs (sw_Getwd w) (fp_BasePath p) = Ok base /\ Abs (sw_Getwd w) path = Ok target /\
    elements target = elements base ++ rest /\
    sw_Stat w path = Ok info /\ fi_IsRegular info = true /\ (fi_Perm info = 384 \/ fi_Perm info = 256) /\
    sw_ReadFile w path = Ok data /\ v = TrimSpace data /\
    p' = set_cache (<[name := v]> (fp_cache p)) p.
Proof.
  intros Hwd Hc. unfold file_GetSecret, read_secret. rewrite Hc.
  destruct (secret_path w name p) as [path|] eqn:Ep; [|done].
  destruct (secret_path_inside _ _ _ _ Hwd Ep) as (base & target & rest & _ & Hb & Ht & He).
  destruct (sw_Stat w path) as [info|[[] e]] eqn:Es; [|done..].
  destruct (fi_IsRegular info) eqn:Er; [|done]. cbn [negb].
  destruct (Z.eqb_spec (fi_Perm info) 384), (Z.eqb_spec (fi_Perm info) 256); cbn [negb andb]; try done;
    (destruct (sw_ReadFile w path) as [data|] eqn:Ed; [|done]); intros [= <- <-];
    exists path, base, target, rest, info, data; repeat (split; [done || by auto|]); done.
Qed.

(** ** Where values come from *)

(** The value a provider without cached values would give in the world [w]. *)
Definition gives (w : World) (p : SecretProvider) (n v : string) : Prop :=
  (provider_GetSecret w n (provider_Refresh p)).1 = Ok v.

Definition supplies (ps : list SecretProvider) (w : World) (n v : string) : Prop :=
  exists p, p ∈ ps /\ gives w p n v.

(** The cached values of a file provider. *)
Definition remembers (p : SecretProvider) (n v : string) : Prop :=
  exists f, p = PFile f /\ fp_cache f !! n = Some v.

Lemma gives_file w f n v : gives w (PFile f) n v <-> read_secret w n f = Ok v.
Proof.
  unfold gives. cbn [provider_Refresh provider_GetSecret]. unfold file_GetSecret.
  cbn [file_Refresh set_cache fp_cache]. rewrite lookup_empty.
  change (read_secret w n (file_Refresh f)) with (read_secret w n f).
  by destruct (read_secret w n f).
Qed.

Lemma refresh_idemp p : provider_Refresh (provider_Refresh p) = provider_Refresh p.
Proof. by destruct p. Qed.

Lemma remembers_refreshed p n v : ~ remembers (provider_Refresh p) n v.
Proof.
  intros (f & Hp & Hv). destruct p; try discriminate Hp. injection Hp as <-. cbn in Hv. by rewrite lookup_empty in Hv.
Qed.

(** *** The invariant of concurrent calls

    The first [j] providers have been refreshed.  [K] holds of the values that they
    remember and that calls have read, [F] of those that calls are about to store,
    [G] of those in the cache. *)
Record origin (ps0 : list SecretProvider) (j : nat) (K F G : string -> string -> Prop) (s : SState) : Prop := {
  or_providers : provider_Refresh <$> mg_providers (ss_mgr s) = provider_Refresh <$> ps0;
  or_cache n e : ca_entries (mg_cache (ss_mgr s)) !! n = Some e -> G n (ce_value e);
  or_store i n v : ss_flight s !! i = Some (Storing n v) -> F n v;
  or_keep i n k v : ss_flight s !! i = Some (Keeping n k v) -> K n v;
  or_files k p n v : (k < j)%nat -> mg_providers (ss_mgr s) !! k = Some p -> remembers p n v -> K n v;
}.

Definition worlds (ls : list Step) : list World :=
  flat_map (fun l => match l with SAsk _ w | SRead _ w => [w] | _ => [] end) ls.

(** The values added by the worlds of a history. *)
Definition plus (ps : list SecretProvider) (F : string -> string -> Prop) (ws : list World) (n v : string) : Prop :=
  F n v \/ exists w, w ∈ ws /\ supplies ps w n v.

Lemma supplies_refresh ps ps' w n v :
  provider_Refresh <$> ps = provider_Refresh <$> ps' -> supplies ps w n v -> supplies ps' w n v.
Proof.
  intros He (p & Hp & Hg). assert (Hin : provider_Refresh p ∈ provider_Refresh <$> ps') by (rewrite <- He; by apply list_elem_of_fmap_2).
  apply list_elem_of_fmap in Hin as (q & Hq & Hin). exists q. split; [done|]. unfold gives in *. by rewrite <- Hq.
Qed.

Lemma Get_entry n c v ck i : (Get n c ck i).1 = Some v -> exists e, ca_entries c !! n = Some e /\ v = ce_value e.
Proof.
  unfold Get. destruct (negb _); [done|]. destruct (ca_entries c !! n) as [e|] eqn:E; [|done]. cbn.
  destruct (After _ _); [done|]. cbn. intros [= <-]. eauto.
Qed.

Lemma evict_entries `{MapRange} c : ca_config (evict c) = ca_config c /\ ca_entries (evict c) ⊆ ca_entries c.
Proof. unfold evict. destruct (negb _); split; try done. cbn. apply delete_subseteq. Qed.

Lemma Set_entry `{MapRange} key value c ck i k e :
  ca_entries (Set_ key value c ck i).1 !! k = Some e -> (k = key /\ ce_value e = value) \/ ca_entries c !! k = Some e.
Proof.
  unfold Set_. destruct (negb _); [by right|]. cbn. intros [[<- <-]|[_ He]]%lookup_insert_Some; [by left|]. right.
  destruct (_ <=? _); [|done]. by apply (lookup_weaken _ _ _ _ He), evict_entries.
Qed.

Lemma store_eq `{MapRange} n v m ck i : (store n v m ck i).1 = set_secret_cache (Set_ n v (mg_cache m) ck i).1 m.
Proof. unfold store, tbind. by destruct (Set_ _ _ _ _ _). Qed.

Lemma watch_refresh f : watchLoop [WEvent true false] f = file_Refresh f.
Proof. done. Qed.

Lemma run_app_Some `{MapRange} `{Fmt} ls ls' s outs s' :
  run (ls ++ ls') s = Some (outs, s') ->
  exists o1 s1 o2, run ls s = Some (o1, s1) /\ run ls' s1 = Some (o2, s') /\ outs = (o1 ++ o2)%list.
Proof.
  revert s outs. induction ls as [|l ls IH]; intros s outs; cbn [run app].
  { intros Hr. by exists [], s, outs. }
  destruct (step l s) as [[out s1]|]; [|done]. destruct (run (ls ++ ls') s1) as [[o2 s2]|] eqn:E; [|done].
  intros [= <- <-]. apply IH in E as (o1 & s3 & o3 & -> & Hr & ->). exists (out ++ o1)%list, s3, o3.
  by rewrite app_assoc.
Qed.

Lemma run_app_eq `{MapRange} `{Fmt} ls ls' s o1 s1 :
  run ls s = Some (o1, s1) -> run (ls ++ ls') s = match run ls' s1 with Some (o2, s2) => Some ((o1 ++ o2)%list, s2) | None => None end.
Proof.
  revert s o1. induction ls as [|l ls IH]; intros s o1; cbn [run app].
  { intros [= <- <-]. by destruct (run ls' s) as [[]|]. }
  destruct (step l s) as [[out s2]|]; [|done]. destruct (run ls s2) as [[o2 s3]|] eqn:E; [|done].
  intros [= <- <-]. rewrite (IH _ _ E). destruct (run ls' s3) as [[]|]; [|done]. by rewrite app_assoc.
Qed.

Lemma ask_provider_origin w n k last p :
  match ask_provider w n k last p with
  | Storing m v => m = n /\ (remembers p n v \/ gives w p n v)
  | Keeping _ _ _ => False
  | _ => True
  end.
Proof.
  unfold ask_provider. destruct (negb _); [done|].
  destruct p as [e|f|a|g|v0].
  2: { destruct (fp_cache f !! n) as [v|] eqn:Ec; [|done]. split; [done|]. left. by exists f. }
  all: unfold gives; cbn [provider_Refresh].
  all: match goal with |- context [provider_GetSecret ?w ?n ?q] => destruct (provider_GetSecret w n q).1; [|done] end; auto.
Qed.

(** *** A call that is not interrupted is [GetSecret] *)

Section uninterrupted.
Context `{MapRange} `{Fmt}.
Variables (i : nat) (w : World) (name : string).

(** The call [i] in the flight [f], with the providers [ps]. *)
Definition calling (ps : list SecretProvider) (c : Cache) (fl : gmap nat Flight) (f : Flight) : SState :=
  mkSState (mkManager ps c) (<[i := f]> fl).

Lemma calling_step l ls ps c fl f ps' f' r :
  step l (calling ps c fl f) = Some ([], calling ps' c (<[i := f]> fl) f') ->
  run ls (calling ps' c fl f') = Some r -> run (l :: ls) (calling ps c fl f) = Some r.
Proof using. unfold calling. cbn [run]. intros ->. rewrite insert_insert_eq. intros ->. by destruct r. Qed.

Lemma one_provider p r p' pre ps c fl last :
  Supports w name p = true -> provider_GetSecret w name p = (r, p') ->
  exists ls, (forall w', w' ∈ worlds ls -> w' = w) /\
    run ls (calling (pre ++ p :: ps) c fl (Asking name (length pre) last)) =
      Some ([], calling (pre ++ p' :: ps) c fl
                  (match r with Ok v => Storing name v | Err e => Asking name (S (length pre)) (Some e) end)).
Proof using.
  intros Hs Hg.
  assert (Hk : forall q : SecretProvider, (pre ++ q :: ps) !! length pre = Some q) by (intros q; by apply list_lookup_middle).
  assert (Hask : forall f, ask_provider w name (length pre) last p = f ->
    step (SAsk i w) (calling (pre ++ p :: ps) c fl (Asking name (length pre) last)) =
      Some ([], calling (pre ++ p :: ps) c (<[i := Asking name (length pre) last]> fl) f)).
  { intros f <-. cbn. by rewrite lookup_insert_eq, Hk. }
  unfold ask_provider in Hask. rewrite Hs in Hask. cbn [negb] in Hask. destruct p as [e|f|a|g|v0].
  2: { cbn [provider_GetSecret] in Hg. unfold file_GetSecret in Hg. destruct (fp_cache f !! name) as [v|] eqn:Ec.
    { injection Hg as <- <-. exists [SAsk i w]. split; [by intros w' ->%list_elem_of_singleton|].
      eapply calling_step; [by apply Hask|done]. }
    destruct (read_secret w name f) as [v|e] eqn:Er; injection Hg as <- <-.
    - exists [SAsk i w; SRead i w; SKeep i]. split; [cbn; set_solver|]. eapply calling_step; [by apply Hask|].
      eapply calling_step; [cbn; rewrite lookup_insert_eq, Hk, Er; reflexivity|].
      eapply calling_step; [cbn; rewrite lookup_insert_eq, Hk; unfold set_provider, set_providers; cbn;
        rewrite insert_app_r_alt by done; rewrite Nat.sub_diag; reflexivity|done].
    - exists [SAsk i w; SRead i w]. split; [cbn; set_solver|]. eapply calling_step; [by apply Hask|].
      eapply calling_step; [cbn; rewrite lookup_insert_eq, Hk, Er; reflexivity|done]. }
  all: cbn [provider_GetSecret] in Hg, Hask; injection Hg as <- <-; exists [SAsk i w];
    (split; [by intros w' ->%list_elem_of_singleton|]); eapply calling_step; [by apply Hask|done].
Qed.

Lemma asking_steps c fl ps : forall pre last r ps',
  try_providers w name ps last = (r, ps') ->
  exists ls, (forall w', w' ∈ worlds ls -> w' = w) /\
    run ls (calling (pre ++ ps) c fl (Asking name (length pre) last)) =
      match r with
      | Ok value => Some ([], calling (pre ++ ps') c fl (Storing name value))
      | Err e => Some ([(name, Err (secret_error name e))], mkSState (mkManager (pre ++ ps') c) (delete i fl))
      end.
Proof using.
  induction ps as [|p ps IH]; intros pre last r ps'; cbn [try_providers].
  { intros [= <- <-]. exists [SAsk i w]. split; [by intros w' ->%list_elem_of_singleton|]. cbn.
    rewrite lookup_insert_eq, (proj2 (lookup_ge_None _ _)) by (rewrite length_app; cbn; lia). by rewrite delete_insert_eq. }
  assert (Hnext : forall p' last' r ps', try_providers w name ps last' = (r, ps') ->
    exists ls, (forall w', w' ∈ worlds ls -> w' = w) /\
      run ls (calling (pre ++ p' :: ps) c fl (Asking name (S (length pre)) last')) =
      match r with
      | Ok value => Some ([], calling (pre ++ p' :: ps') c fl (Storing name value))
      | Err e => Some ([(name, Err (secret_error name e))], mkSState (mkManager (pre ++ p' :: ps') c) (delete i fl))
      end).
  { intros p' last' r0 ps0 Ht. destruct (IH (pre ++ [p'])%list last' r0 ps0 Ht) as (ls & Hw & Hr). exists ls. split; [done|].
    rewrite length_app, <- !app_assoc, Nat.add_comm in Hr. exact Hr. }
  destruct (Supports w name p) eqn:Es; cbn [negb].
  - destruct (provider_GetSecret w name p) as [r1 p1] eqn:Eg.
    destruct (one_provider p r1 p1 pre ps c fl last Es Eg) as (ls1 & Hw1 & Hr1). destruct r1 as [v|e].
    + intros [= <- <-]. by exists ls1.
    + destruct (try_providers w name ps (Some e)) as [r0 ps0] eqn:Et. intros [= <- <-].
      destruct (Hnext p1 _ _ _ Et) as (ls & Hw & Hr). exists (ls1 ++ ls)%list. split.
      * unfold worlds in *. rewrite flat_map_app. set_solver.
      * rewrite (run_app_eq _ _ _ _ _ Hr1), Hr. by destruct r0.
  - destruct (try_providers w name ps last) as [r0 ps0] eqn:Et. intros [= <- <-].
    destruct (Hnext p _ _ _ Et) as (ls & Hw & Hr). exists (SAsk i w :: ls). split; [cbn; set_solver|].
    assert (Hgo : step (SAsk i w) (calling (pre ++ p :: ps) c fl (Asking name (length pre) last)) =
      Some ([], calling (pre ++ p :: ps) c (<[i := Asking name (length pre) last]> fl) (Asking name (S (length pre)) last))).
    { cbn. rewrite lookup_insert_eq, list_lookup_middle by done. unfold ask_provider. by rewrite Es. }
    destruct r0; (eapply calling_step; [exact Hgo|exact Hr]).
Qed.

(** The steps of a call that runs alone, in the world [w], give the result and the
    manager of [GetSecret]. *)
Lemma uninterrupted_call m fl ck j r m' j' :
  fl !! i = None -> GetSecret w name m ck j = ((r, m'), j') ->
  exists ls, (forall w', w' ∈ worlds ls -> w' = w) /\ run ls (mkSState m fl) = Some ([(name, r)], mkSState m' fl).
Proof using.
  intros Hfl. unfold GetSecret, tbind.
  assert (Hget : forall hit j1, Get name (mg_cache m) ck j = (hit, j1) -> (Get name (mg_cache m) (fun _ => ck j) 0%nat).1 = hit).
  { unfold Get. destruct (negb _); [by intros ? ? [= <- _]|]. destruct (_ !! name); [|by intros ? ? [= <- _]].
    unfold tbind, now. intros hit j1. destruct (After _ _); by intros [= <- _]. }
  destruct (Get name (mg_cache m) ck j) as [hit j1] eqn:Eg. specialize (Hget _ _ eq_refl).
  destruct hit as [v|].
  { intros [= <- <- _]. exists [SStart i name (ck j)]. split; [by intros w' ?%elem_of_nil|]. cbn. by rewrite Hfl, Hget. }
  assert (Hstart : step (SStart i name (ck j)) (mkSState m fl) = Some ([], calling (mg_providers m) (mg_cache m) fl (Asking name 0 None))).
  { cbn. rewrite Hfl, Hget. by destruct m. }
  unfold fetch. destruct (try_providers w name (mg_providers m) None) as [r0 ps'] eqn:Et.
  destruct (asking_steps (mg_cache m) fl _ [] None r0 ps' Et) as (ls & Hw & Hr). cbn [app length] in Hr.
  destruct r0 as [v|e].
  - set (m1 := set_providers ps' m). destruct (store name v m1 ck j1) as [m2 j2] eqn:Est. intros [= <- <- _].
    assert (Hst : (store name v m1 (fun _ => ck j1) 0%nat).1 = m2).
    { revert Est. unfold store, tbind, Set_. destruct (negb _); [by intros [= <- _]|]. unfold tbind, now, tret. by intros [= <- _]. }
    exists (SStart i name (ck j) :: ls ++ [SStore i (ck j1)])%list. split.
    + unfold worlds in *. cbn [flat_map]. rewrite flat_map_app. set_solver.
    + cbn [run]. rewrite Hstart, (run_app_eq _ _ _ _ _ Hr). cbn. rewrite lookup_insert_eq.
      change (mkManager ps' (mg_cache m)) with m1. rewrite Hst, delete_insert_eq. by rewrite delete_id.
  - intros [= <- <- _]. exists (SStart i name (ck j) :: ls). split; [done|].
    cbn [run]. rewrite Hstart, Hr. by rewrite delete_id.
Qed.
End uninterrupted.

Section origins.
Context `{MapRange} `{Fmt}.
Variable ps0 : list SecretProvider.

Lemma supplies_gives K s j F G k p w n v :
  origin ps0 j K F G s -> mg_providers (ss_mgr s) !! k = Some p -> gives w p n v -> plus ps0 K [w] n v.
Proof using.
  intros Ho Hk Hg. right. exists w. split; [left|]. eapply supplies_refresh; [apply (or_providers _ _ _ _ _ _ Ho)|].
  exists p. split; [by eapply list_elem_of_lookup_2|done].
Qed.

Lemma refreshed_at (ps : list SecretProvider) (k : nat) p q :
  ps !! k = Some p -> provider_Refresh q = provider_Refresh p -> provider_Refresh <$> <[k := q]> ps = provider_Refresh <$> ps.
Proof using. intros Hk Hq. rewrite list_fmap_insert. apply list_insert_id. by rewrite list_lookup_fmap, Hk, Hq. Qed.

(** A provider is emptied, by a refresh or by the watch loop. *)
Lemma origin_refresh j K F G s k p :
  origin ps0 j K F G s -> mg_providers (ss_mgr s) !! k = Some p ->
  origin ps0 (if decide (k = j) then S j else j) K F G (mkSState (set_provider k (provider_Refresh p) (ss_mgr s)) (ss_flight s)).
Proof using.
  intros [Hp Hc Hs Hkp Hr] Hk. split; cbn [ss_mgr ss_flight set_provider set_providers mg_providers mg_cache]; try done.
  - rewrite <- Hp. eapply refreshed_at; [exact Hk|apply refresh_idemp].
  - intros k' q n v Hj [(_ & <- & _)|[Hne Hq]]%list_lookup_insert_Some Hm; [by apply remembers_refreshed in Hm|].
    eapply Hr; [|exact Hq|exact Hm]. case_decide; lia.
Qed.

Lemma step_origin j K F G l s out s' :
  (forall n v, K n v -> F n v) -> (forall n v, F n v -> G n v) -> (length ps0 <= j)%nat \/ (forall n v, F n v) ->
  origin ps0 j K F G s -> step l s = Some (out, s') ->
  origin ps0 j (plus ps0 K (worlds [l])) (plus ps0 F (worlds [l])) (plus ps0 G (worlds [l])) s' /\
  (forall n v, (n, Ok v) ∈ out -> G n v).
Proof using.
  intros HKF HFG Hj Ho. destruct Ho as [Hp Hc Hs Hkp Hr] eqn:HO. clear HO.
  assert (Hnil : forall n v, (n, Ok v) ∈ @nil (string * result string string) -> G n v) by (by intros n v ?%elem_of_nil).
  destruct l as [i name t|i w|i w|i|i t|k| |k]; cbn [step worlds flat_map].
  - destruct (ss_flight s !! i) eqn:Ei; [done|]. destruct (Get _ _ _ _).1 as [v|] eqn:Eg; intros [= <- <-].
    + split; [split; [done|..]; left; eauto|].
      apply Get_entry in Eg as (e & He & ->). intros n v [= -> ->]%list_elem_of_singleton. eauto.
    + split; [|done]. split; cbn; [done|left; eauto|..|left; eauto];
        (intros ? ? *; intros [[_ ?]|[_ ?]]%lookup_insert_Some; [done|left; eauto]).
  - destruct (ss_flight s !! i) as [[name k last| | |]|] eqn:Ei; [|done..]. destruct (mg_providers (ss_mgr s) !! k) as [p|] eqn:Ek; intros [= <- <-].
    + pose proof (ask_provider_origin w name k last p) as Ha. split; [|done]. split; cbn; [done|left; eauto|..|left; eauto].
      * intros i' n v [[_ E]|[_ ?]]%lookup_insert_Some; [|left; eauto]. rewrite E in Ha. destruct Ha as [-> [Hm|Hg]].
        -- left. destruct Hj as [Hj|?]; [|done]. apply HKF. eapply Hr; [|exact Ek|exact Hm].
           apply lookup_lt_Some in Ek. apply (f_equal length) in Hp. rewrite !length_fmap in Hp. lia.
        -- destruct (supplies_gives K s j F G k p w name v Ho Ek Hg); [left; auto|by right].
      * intros i' n k' v [[_ E]|[_ ?]]%lookup_insert_Some; [|left; eauto]. by rewrite E in Ha.
    + split; [|by intros n v [=]%list_elem_of_singleton]. split; cbn; [done|left; eauto|..|left; eauto];
        (intros ? ? *; intros [_ ?]%lookup_delete_Some; left; eauto).
  - destruct (ss_flight s !! i) as [[|name k last| |]|] eqn:Ei; [done| |done..].
    destruct (mg_providers (ss_mgr s) !! k) as [[|f| | |]|] eqn:Ek; try done. intros [= <- <-].
    split; [|done]. split; cbn; [done|left; eauto|..|left; eauto].
    + intros i' n v [[_ E]|[_ ?]]%lookup_insert_Some; [|left; eauto]. by destruct (read_secret w name f).
    + intros i' n k' v [[_ E]|[_ ?]]%lookup_insert_Some; [|left; eauto].
      destruct (read_secret w name f) as [v'|] eqn:Er; [|done]. injection E as <- <- <-.
      eapply supplies_gives; [exact Ho|exact Ek|by apply gives_file].
  - destruct (ss_flight s !! i) as [[| |name k value|]|] eqn:Ei; [done..| |done|done].
    destruct (mg_providers (ss_mgr s) !! k) as [[|f| | |]|] eqn:Ek; try done. intros [= <- <-].
    split; [|done]. split; cbn; [|left; eauto|..].
    + rewrite <- Hp. by eapply refreshed_at.
    + intros i' n v [[_ [= <- <-]]|[_ ?]]%lookup_insert_Some; left; eauto.
    + intros i' n k' v [[_ ?]|[_ ?]]%lookup_insert_Some; [done|left; eauto].
    + intros k' q n v Hk' [(-> & <- & _)|[Hne Hq]]%list_lookup_insert_Some Hm; [|left; eauto].
      destruct Hm as (f' & [= <-] & Hv). cbn in Hv. left.
      apply lookup_insert_Some in Hv as [[<- <-]|[_ Hv]]; [eauto|]. eapply Hr; [exact Hk'|exact Ek|by exists f].
  - destruct (ss_flight s !! i) as [[| | |name v]|] eqn:Ei; [done..| |done]. intros [= <- <-].
    pose proof (Hs _ _ _ Ei) as HF. rewrite store_eq. split.
    + split; cbn [ss_mgr ss_flight set_secret_cache mg_providers mg_cache]; [done| | | |left; eauto].
      * intros n e [[-> ->]|He]%Set_entry; left; eauto.
      * intros i' n u [_ Hi]%lookup_delete_Some. left. eauto.
      * intros i' n k u [_ Hi]%lookup_delete_Some. left. eauto.
    + intros n u [= -> ->]%list_elem_of_singleton. eauto.
  - destruct (mg_providers (ss_mgr s) !! k) as [p|] eqn:Ek; [|done]. intros [= <- <-]. split; [|done].
    destruct (origin_refresh j K F G s k p Ho Ek) as [H1 H2 H3 H4 H5]. split; [done|left; eauto..|].
    intros k' q n v Hk' Hq Hm. left. eapply H5; [|exact Hq|exact Hm]. case_decide; lia.
  - intros [= <- <-]. split; [|done]. split; cbn; [done| |left; eauto..].
    intros n e. by rewrite lookup_empty.
  - destruct (mg_providers (ss_mgr s) !! k) as [[|f| | |]|] eqn:Ek; try done. intros [= <- <-]. split; [|done].
    destruct (origin_refresh j K F G s k (PFile f) Ho Ek) as [H1 H2 H3 H4 H5]. split; [done|left; eauto..|].
    intros k' q n v Hk' Hq Hm. left. eapply H5; [|exact Hq|exact Hm]. case_decide; lia.
Qed.

Lemma origin_weaken j (K K' F F' G G' : string -> string -> Prop) s :
  (forall n v, K n v -> K' n v) -> (forall n v, F n v -> F' n v) -> (forall n v, G n v -> G' n v) ->
  origin ps0 j K F G s -> origin ps0 j K' F' G' s.
Proof using. intros HK HF HG [Hp Hc Hs Hk Hr]. split; eauto. Qed.

Lemma plus_app ps F ws ws' n v : plus ps (plus ps F ws) ws' n v <-> plus ps F (ws ++ ws') n v.
Proof using. unfold plus. setoid_rewrite elem_of_app. naive_solver. Qed.

Lemma plus_mono ps (F F' : string -> string -> Prop) ws n v : (F n v -> F' n v) -> plus ps F ws n v -> plus ps F' ws n v.
Proof using. unfold plus. naive_solver. Qed.

Lemma worlds_app ls ls' : worlds (ls ++ ls') = worlds ls ++ worlds ls'.
Proof using. unfold worlds. apply flat_map_app. Qed.

Lemma run_origin j ls : forall K F G s outs s',
  (forall n v, K n v -> F n v) -> (forall n v, F n v -> G n v) -> (length ps0 <= j)%nat \/ (forall n v, F n v) ->
  origin ps0 j K F G s -> run ls s = Some (outs, s') ->
  origin ps0 j (plus ps0 K (worlds ls)) (plus ps0 F (worlds ls)) (plus ps0 G (worlds ls)) s' /\
  (forall n v, (n, Ok v) ∈ outs -> plus ps0 G (worlds ls) n v).
Proof using.
  induction ls as [|l ls IH]; intros K F G s outs s' HKF HFG Hj Ho; cbn [run].
  { intros [= <- <-]. split; [|by intros n v Hn%elem_of_nil]. eapply origin_weaken; [..|done]; by left. }
  destruct (step l s) as [[out s1]|] eqn:Es; [|done]. destruct (run ls s1) as [[outs1 s2]|] eqn:Er; [|done].
  intros [= <- <-]. destruct (step_origin _ _ _ _ _ _ _ _ HKF HFG Hj Ho Es) as [Ho1 Hout].
  destruct (IH (plus ps0 K (worlds [l])) (plus ps0 F (worlds [l])) (plus ps0 G (worlds [l])) s1 outs1 s2) as [Ho2 Houts]; [..|exact Ho1|exact Er|].
  { intros n v. apply plus_mono. auto. }
  { intros n v. apply plus_mono. auto. }
  { destruct Hj as [Hj|Hj]; [by left|]. right. intros n v. by left. }
  change (l :: ls) with ([l] ++ ls)%list. rewrite worlds_app. split.
  - eapply origin_weaken; [..|exact Ho2]; intros n v; apply plus_app.
  - intros n v [Hn|Hn]%elem_of_app; [left; by apply Hout|]. by apply plus_app, Houts.
Qed.

(** During the loop of a refresh. *)
Lemma loop_origin gaps : forall j K s outs s',
  origin ps0 j K (fun _ _ => True) (fun _ _ => True) s -> run (refresh_loop j gaps) s = Some (outs, s') ->
  origin ps0 (j + length gaps) (plus ps0 K (worlds (refresh_loop j gaps))) (fun _ _ => True) (fun _ _ => True) s'.
Proof using.
  induction gaps as [|gap gaps IH]; intros j K s outs s' Ho; cbn [refresh_loop run length].
  { intros [= <- <-]. rewrite Nat.add_0_r. eapply origin_weaken; [..|exact Ho]; try done; by left. }
  cbn [step]. destruct (mg_providers (ss_mgr s) !! j) as [p|] eqn:Ej; [|done].
  destruct (run (gap ++ _) _) as [[o2 s2]|] eqn:Er; [|done]. intros [= <- <-].
  pose proof (origin_refresh j K _ _ s j p Ho Ej) as Ho1. rewrite decide_True in Ho1 by done.
  apply run_app_Some in Er as (o3 & s3 & o4 & Hg & Hl & _).
  destruct (run_origin (S j) gap K (fun _ _ => True) (fun _ _ => True) _ _ _ ltac:(done) ltac:(done) (or_intror (fun _ _ => I)) Ho1 Hg) as [Ho3 _].
  assert (Ho3' : origin ps0 (S j) (plus ps0 K (worlds gap)) (fun _ _ => True) (fun _ _ => True) s3) by (eapply origin_weaken; [..|exact Ho3]; done).
  specialize (IH _ _ _ _ _ Ho3' Hl). replace (j + S (length gaps))%nat with (S j + length gaps)%nat by lia.
  change (SRefresh j :: gap ++ refresh_loop (S j) gaps)%list with ([SRefresh j] ++ gap ++ refresh_loop (S j) gaps)%list.
  rewrite !worlds_app. cbn [worlds flat_map app]. eapply origin_weaken; [..|exact IH]; [|done..]. intros n v. apply plus_app.
Qed.
End origins.

(** C9: secrets after a rotation.  [Refresh] empties one provider after the other and
    then the cache, and whatever calls, other refreshes, clears and file events run
    in between.  When no call is under way as it starts and none at some moment
    between its last provider and the cache, every value that any call returns after
    the cache has been emptied is what one of the providers gives, without anything
    cached, in the environment and file system at a read that came after the
    refresh started. *)
Theorem refreshed_secrets_are_current `{MapRange} `{Fmt} s gaps o1 s1 during o2 s2 after o3 s3 n v :
  length gaps = length (mg_providers (ss_mgr s)) ->
  ss_flight s = ∅ -> run (refresh_loop 0 gaps) s = Some (o1, s1) ->
  ss_flight s1 = ∅ -> run during s1 = Some (o2, s2) ->
  run (SClear :: after) s2 = Some (o3, s3) -> (n, Ok v) ∈ o3 ->
  exists w, w ∈ worlds (refresh_loop 0 gaps ++ during ++ after) /\ supplies (mg_providers (ss_mgr s)) w n v.
Proof.
  intros Hlen Hfl Hl Hfl1 Hd Ha Hn. set (ps0 := mg_providers (ss_mgr s)) in *.
  assert (Ho0 : origin ps0 0 (fun _ _ => False) (fun _ _ => True) (fun _ _ => True) s).
  { split; try done; [|lia]. intros i m k u. by rewrite Hfl, lookup_empty. }
  pose proof (loop_origin ps0 gaps 0 _ _ _ _ Ho0 Hl) as Ho1. cbn [Nat.add] in Ho1. rewrite Hlen in Ho1.
  set (K1 := plus ps0 _ (worlds (refresh_loop 0 gaps))) in Ho1.
  assert (Ho1' : origin ps0 (length ps0) K1 K1 (fun _ _ => True) s1).
  { destruct Ho1 as [H1 H2 H3 H4 H5]. split; try done. intros i m u. by rewrite Hfl1, lookup_empty. }
  destruct (run_origin ps0 _ during K1 K1 (fun _ _ => True) _ _ _ ltac:(done) ltac:(done) (or_introl (le_n _)) Ho1' Hd) as [Ho2 _].
  set (K2 := plus ps0 K1 (worlds during)) in Ho2.
  cbn [run step] in Ha. destruct (run after _) as [[o4 s4]|] eqn:Er; [|done]. injection Ha as <- <-.
  assert (Ho2' : origin ps0 (length ps0) K2 K2 K2 (mkSState (clear_cache (ss_mgr s2)) (ss_flight s2))).
  { destruct Ho2 as [H1 H2 H3 H4 H5]. by split. }
  destruct (run_origin ps0 _ after K2 K2 K2 _ _ _ ltac:(done) ltac:(done) (or_introl (le_n _)) Ho2' Er) as [_ Hout].
  apply Hout in Hn. unfold K2, K1 in Hn. rewrite !plus_app, <- !worlds_app, <- ?app_assoc in Hn.
  destruct Hn as [[]|Hn]. exact Hn.
Qed.


(** ** The size of the cache *)

Lemma evict_removes `{MapRange} c :
  ca_entries c !! "" = None -> ca_entries c <> ∅ -> exists k, k ∈ dom (ca_entries c) /\ ca_entries (evict c) = delete k (ca_entries c).
Proof.
  intros H0 Hne. unfold evict. change oldest_step with (earliest_step ce_expiresAt).
  destruct (earliest_of ce_expiresAt (ca_entries c)) as [[He _]|(k & e & Hk & _ & ->)]; [done|].
  destruct (String.eqb_spec k "") as [->|_]; [congruence|]. exists k. split; [|done]. apply elem_of_dom. by exists e.
Qed.

(** Without an entry under the empty name the cache respects its maximum, and
    what it returns is not past its time to live. *)
Lemma cache_bounded `{MapRange} key value c ck i :
  key <> "" -> ca_entries c !! "" = None -> 1 <= cc_MaxSize (ca_config c) -> Size c <= cc_MaxSize (ca_config c) ->
  let c' := (Set_ key value c ck i).1 in
  Size c' <= cc_MaxSize (ca_config c) /\ ca_entries c' !! "" = None /\ ca_config c' = ca_config c.
Proof.
  intros Hk H0 Hm Hs. unfold Set_. destruct (negb _); [done|]. cbn.
  destruct (Z.leb_spec (cc_MaxSize (ca_config c)) (Z.of_nat (size (ca_entries c)))) as [Hfull|Hroom].
  - destruct (evict_removes c) as (k & Hin & He); [done|intros E; rewrite E, map_size_empty in Hfull; lia|].
    destruct (evict_entries c) as [Hcfg _]. split; [|split; [|done]].
    + unfold Size in *. cbn. rewrite He, map_size_insert. apply elem_of_dom in Hin.
      rewrite map_size_delete_Some by done. pose proof (map_size_ne_0_lookup_2 (ca_entries c) k Hin).
      destruct (_ !! key); unfold id; lia.
    + rewrite lookup_insert_ne by done. rewrite He. by apply lookup_delete_None; right.
  - split; [|split; [|done]].
    + unfold Size. cbn. rewrite map_size_insert. destruct (_ !! key); unfold id; lia.
    + by rewrite lookup_insert_ne by done.
Qed.

(** ** Resolving references *)

Definition piece_text (p : Piece) : string := match p with PLit c => String c "" | PRef name => ref_text name end.

Fixpoint concat_text (l : list string) : string := match l with [] => "" | s :: l => s +:+ concat_text l end.

Lemma until_brace_spec s name rest :
  until_brace s = Some (name, rest) ->
  s = name +:+ "}" +:+ rest /\ forall rest', until_brace (name +:+ "}" +:+ rest') = Some (name, rest').
Proof.
  revert name rest. induction s as [|c s IH]; intros name rest; cbn [until_brace]; [done|].
  destruct (Ascii.eqb_spec c "}"%char) as [->|Hc]; [by intros [= <- <-]|].
  destruct (until_brace s) as [[n r]|]; [|done]. intros [= <- <-]. destruct (IH n r eq_refl) as [-> Hu].
  split; [done|]. intros rest'. rewrite string_app_cons. cbn [until_brace]. rewrite Hu.
  by destruct (Ascii.eqb_spec c "}"%char).
Qed.

Lemma substring_all s : String.substring 0 (String.length s) s = s.
Proof. induction s as [|c s IH]; [done|]. cbn. by rewrite IH. Qed.

Lemma TrimPrefix_app p s : TrimPrefix (p +:+ s) p = s.
Proof.
  unfold TrimPrefix. destruct (HasPrefix (p +:+ s) p) eqn:E.
  2: { exfalso. apply not_true_iff_false in E. apply E, HasPrefix_app. by exists s. }
  clear E. induction p as [|c p IH]; [cbn; rewrite Nat.sub_0_r; apply substring_all|].
  rewrite string_app_cons. cbn [String.length Nat.sub String.substring]. exact IH.
Qed.

Lemma match_ref_spec s name rest :
  match_ref s = Some (name, rest) ->
  s = ref_text name +:+ rest /\ forall rest', match_ref (ref_text name +:+ rest') = Some (name, rest').
Proof.
  unfold match_ref. destruct (HasPrefix s "${secret:") eqn:E; [|done]. apply HasPrefix_app in E as [r ->].
  rewrite TrimPrefix_app. destruct (until_brace r) as [[n r']|] eqn:Eu; [|done].
  destruct (String.eqb_spec n "") as [|Hn]; [done|]. intros [= <- <-]. apply until_brace_spec in Eu as [-> Hu].
  assert (Ha : forall x, ref_text n +:+ x = "${secret:" +:+ (n +:+ "}" +:+ x)).
  { intros x. unfold ref_text. change (("${secret:" +:+ (n +:+ "}")) +:+ x) with ("${secret:" +:+ ((n +:+ "}") +:+ x)). f_equal.
    clear. induction n as [|c n IH]; [done|]. by rewrite !string_app_cons, IH. }
  split; [by rewrite Ha|]. intros rest'. rewrite Ha, TrimPrefix_app.
  replace (HasPrefix _ _) with true by (symmetry; apply HasPrefix_app; eauto). rewrite Hu.
  by destruct (String.eqb_spec n "").
Qed.

(** The pieces make up the text, and every reference among them is one that the
    expression matches. *)
Lemma pieces_spec fuel s :
  (String.length s <= fuel)%nat ->
  concat_text (piece_text <$> pieces fuel s) = s /\
  Forall (fun p => match p with PLit _ => True | PRef n => match_ref (ref_text n) = Some (n, "") end) (pieces fuel s).
Proof.
  revert s. induction fuel as [|fuel IH]; intros [|c s] Hle; cbn [pieces]; try (by split; [|constructor]); [cbn in Hle; lia|].
  destruct (match_ref (String c s)) as [[n rest]|] eqn:E.
  - apply match_ref_spec in E as [Hs Hm]. destruct (IH rest) as [IH1 IH2].
    { rewrite Hs, string_length_app in Hle. unfold ref_text in Hle. rewrite string_length_app in Hle. cbn in Hle. lia. }
    split; [cbn; by rewrite IH1, Hs|]. constructor; [|done]. rewrite <- (string_app_nil_r (ref_text n)). apply Hm.
  - destruct (IH s) as [IH1 IH2]; [cbn in Hle; lia|]. split; [cbn; by rewrite IH1|by constructor].
Qed.

Section resolve.
Context `{MapRange} `{Fmt}.

(** Everything that providers remember and the cache holds satisfies [F]. *)
Definition stocked (ps0 : list SecretProvider) (F : string -> string -> Prop) (m : Manager) : Prop :=
  origin ps0 (length (mg_providers m)) F F F (mkSState m ∅).

Lemma GetSecret_origin ps0 F w n m ck i r m' j :
  stocked ps0 F m -> GetSecret w n m ck i = ((r, m'), j) ->
  stocked ps0 (plus ps0 F [w]) m' /\ (forall v, r = Ok v -> plus ps0 F [w] n v).
Proof.
  intros Ho Hg. destruct (uninterrupted_call 0 w n m ∅ ck i r m' j (lookup_empty _) Hg) as (ls & Hw & Hr).
  assert (Hlen : forall s : SState, provider_Refresh <$> mg_providers (ss_mgr s) = provider_Refresh <$> ps0 ->
    length (mg_providers (ss_mgr s)) = length ps0).
  { intros s Hs. apply (f_equal length) in Hs. by rewrite !length_fmap in Hs. }
  assert (Hweak : forall k v, plus ps0 F (worlds ls) k v -> plus ps0 F [w] k v).
  { intros k v [Hf|(w' & Hin & Hs)]; [by left|]. right. exists w'. apply Hw in Hin as ->. split; [left|done]. }
  destruct (run_origin ps0 _ ls F F F _ _ _ ltac:(done) ltac:(done)
    (or_introl (Nat.eq_le_incl _ _ (eq_sym (Hlen (mkSState m ∅) (or_providers _ _ _ _ _ _ Ho))))) Ho Hr) as [Ho' Hout].
  split.
  - unfold stocked. replace (length (mg_providers m')) with (length (mg_providers m))
      by (transitivity (length ps0); [|symmetry]; [apply (Hlen (mkSState m ∅)), Ho|apply (Hlen (mkSState m' ∅)), Ho']).
    eapply origin_weaken; [exact Hweak..|exact Ho'].
  - intros v ->. apply Hweak, Hout. left.
Qed.

(** What each piece becomes. *)
Definition resolved (known : string -> string -> Prop) (failed : Prop) (p : Piece) (t : string) : Prop :=
  match p with
  | PLit c => t = String c ""
  | PRef n => known n t \/ (t = ref_text n /\ failed)
  end.

Lemma resolved_mono (K K' : string -> string -> Prop) (f f' : Prop) p t :
  (forall n v, K n v -> K' n v) -> (f -> f') -> resolved K f p t -> resolved K' f' p t.
Proof. destruct p; cbn; naive_solver. Qed.

Lemma replace_refs_spec ps0 w ps : forall F errors m ck i out errors' m' j,
  stocked ps0 F m ->
  Forall (fun p => match p with PLit _ => True | PRef n => match_ref (ref_text n) = Some (n, "") end) ps ->
  replace_refs w ps errors m ck i = ((out, errors', m'), j) ->
  (exists new, errors' = errors ++ new /\
    exists ts, out = concat_text ts /\ Forall2 (resolved (plus ps0 F [w]) (new <> [])) ps ts).
Proof.
  induction ps as [|p ps IH]; intros F errors m ck i out errors' m' j Ho Hps; cbn [replace_refs].
  { intros [= <- <- <- <-]. exists []. split; [by rewrite app_nil_r|]. exists []. by split; [|constructor]. }
  apply Forall_cons in Hps as [Hp Hps]. destruct p as [c|n]; unfold tbind.
  - destruct (replace_refs w ps errors m ck i) as [[[o e] m1] j1] eqn:E. intros [= <- <- <- <-].
    destruct (IH _ _ _ _ _ _ _ _ _ Ho Hps E) as (new & -> & ts & -> & Hts). exists new. split; [done|].
    exists (String c "" :: ts). split; [done|]. by constructor.
  - rewrite Hp. destruct (GetSecret w n m ck i) as [[r m1] i1] eqn:Eg.
    destruct (GetSecret_origin _ _ _ _ _ _ _ _ _ _ Ho Eg) as [Ho1 Hv].
    assert (Hidem : forall k v, plus ps0 (plus ps0 F [w]) [w] k v -> plus ps0 F [w] k v).
    { intros k v. unfold plus. naive_solver. }
    destruct r as [v|err].
    + destruct (replace_refs w ps errors m1 ck i1) as [[[o e] m2] j2] eqn:E. intros [= <- <- <- <-].
      destruct (IH _ _ _ _ _ _ _ _ _ Ho1 Hps E) as (new & -> & ts & -> & Hts). exists new. split; [done|].
      exists (v :: ts). split; [done|]. constructor; [left; by apply Hv|].
      eapply Forall2_impl; [exact Hts|]. intros p t. by apply resolved_mono.
    + destruct (replace_refs w ps _ m1 ck i1) as [[[o e] m2] j2] eqn:E. intros [= <- <- <- <-].
      destruct (IH _ _ _ _ _ _ _ _ _ Ho1 Hps E) as (new & -> & ts & -> & Hts).
      exists (("failed to resolve secret " +:+ Quote n +:+ ": " +:+ err) :: new). split; [by rewrite <- app_assoc|].
      exists (ref_text n :: ts). split; [done|]. constructor; [by right|].
      eapply Forall2_impl; [exact Hts|]. intros p t. by apply resolved_mono.
Qed.

(** A value the manager may give for a name: cached, remembered by a file
    provider, or supplied now. *)
Definition known (m : Manager) (w : World) (n v : string) : Prop :=
  (exists e, ca_entries (mg_cache m) !! n = Some e /\ v = ce_value e) \/
  (exists p, p ∈ mg_providers m /\ remembers p n v) \/ supplies (mg_providers m) w n v.

(** References in a text.  The text is cut into characters and references, left to
    right; the output has every character as it is and in place of each reference
    a value of that very name, which is not searched again, or the reference
    itself, and then an error is returned. *)
Theorem references_resolved w input m ck i :
  concat_text (piece_text <$> text_pieces input) = input /\
  let '((out, err, _), _) := ResolveReferences w input m ck i in
  exists ts, out = concat_text ts /\ Forall2 (resolved (known m w) (err <> None)) (text_pieces input) ts.
Proof.
  destruct (pieces_spec (String.length input) input) as [Htext Hrefs]; [lia|]. split; [exact Htext|].
  unfold ResolveReferences, tbind. destruct (replace_refs w (text_pieces input) [] m ck i) as [[[out errors] m'] j] eqn:E.
  set (F := fun n v => (exists e, ca_entries (mg_cache m) !! n = Some e /\ v = ce_value e) \/
                       (exists p, p ∈ mg_providers m /\ remembers p n v)).
  assert (Ho : stocked (mg_providers m) F m).
  { split; cbn; [done|left; eauto|..]; [intros k n v|intros k n k' v|]; [by rewrite lookup_empty..|].
    intros k p n v _ Hk Hr. right. exists p. split; [by eapply list_elem_of_lookup_2|done]. }
  destruct (replace_refs_spec _ _ _ _ _ _ _ _ _ _ _ _ Ho Hrefs E) as (new & Hnew & ts & -> & Hts). cbn in Hnew. subst errors.
  assert (Hk : forall n v, plus (mg_providers m) F [w] n v -> known m w n v).
  { intros n v [[Hc|Hr]|(w' & ->%list_elem_of_singleton & Hs)]; [by left|by right; left|by right; right]. }
  destruct new as [|e new]; exists ts; (split; [done|]); (eapply Forall2_impl; [exact Hts|]); intros p t;
    apply resolved_mono; done.
Qed.
End resolve.

(** ** Names of environment variables *)

(** A secret name that survives the translation to a variable and back: no
    underscore and no capital letter. *)
Fixpoint plain_name (s : string) : bool :=
  match s with
  | EmptyString => true
  | String c s =>
      let n := N_of_ascii c in
      negb (Ascii.eqb c "_"%char) && negb ((65 <=? n)%N && (n <=? 90)%N) && plain_name s
  end.

Lemma env_name_roundtrip name p : plain_name name = true -> envVarToSecretName (secretNameToEnvVar name p) p = name.
Proof.
  unfold envVarToSecretName, secretNameToEnvVar. rewrite TrimPrefix_app. clear p.
  induction name as [|c name IH]; [done|]. cbn [plain_name]. intros [Hc Hn]%andb_true_iff.
  cbn [replace_char ToUpper ToLower]. rewrite (IH Hn). f_equal.
  destruct c as [[] [] [] [] [] [] [] []]; vm_compute; vm_compute in Hc; congruence.
Qed.

(** Without the watcher a secret file is read once: the answer does not depend on
    the file system any more, however long ago it was read. *)
Lemma file_secret_is_kept w w' name p v p' :
  file_GetSecret w name p = (Ok v, p') -> file_GetSecret w' name p' = (Ok v, p').
Proof.
  unfold file_GetSecret. destruct (fp_cache p !! name) as [u|] eqn:Ec.
  - intros [= -> <-]. by rewrite Ec.
  - destruct (read_secret w name p) as [u|]; [|done]. intros [= -> <-]. cbn. by rewrite lookup_insert_eq.
Qed.

(** ** Examples *)

Definition ex_world (secret : string) : World :=
  mkWorld (fun _ => "") [] (Ok "/srv")
    (fun path => if String.eqb path "/run/secrets/key" then Ok (mkFileInfo true 384) else Err (true, "no such file"))
    (fun path => Ok secret) (fun _ => Ok []).

Definition ex_provider : FileProvider := mkFileProvider "/run/secrets" false ∅ false false.

Example traversal_rejected :
  (file_GetSecret (ex_world "s") "../../etc/passwd" ex_provider).1 = Err "invalid secret path: directory traversal detected" /\
  (file_GetSecret (ex_world " s ") "sub/../key" ex_provider).1 = Ok "s".
Proof. split; vm_compute; reflexivity. Qed.

Lemma secret_files_confined_witness :
  exists path info, sw_Stat (ex_world " s ") path = Ok info /\ fi_IsRegular info = true.
Proof.
  destruct (secret_files_confined (ex_world " s ") "key" ex_provider "s" (set_cache {["key" := "s"]} ex_provider))
    as (path & base & target & rest & info & data & _ & _ & _ & _ & Hs & Hr & _); [reflexivity|reflexivity|reflexivity|].
  exists path, info. split; [exact Hs|exact Hr].
Defined.

#[local] Instance ex_fmt : Fmt := {| Quote s := s; DurationString _ := "" |}.
#[local] Instance ex_range : MapRange := some_range.

Definition ex_manager : Manager := NewManager [PFile ex_provider] (mkCacheConfig true (10 * Second) 100).
Definition ex_sstate : SState := mkSState ex_manager ∅.

(** A secret is read, rotated, refreshed and read again; while the refresh is between
    the providers a call for another name fails. *)
Definition ex_call (i : nat) (w : World) (t : Time) : list Step :=
  [SStart i "key" t; SAsk i w; SRead i w; SKeep i; SStore i (t + 1)].

Definition ex_during : list Step := [SStart 7 "no" 3; SAsk 7 (ex_world "new"); SAsk 7 (ex_world "new")].

Definition ex_rotation_after : list Step := ex_call 0 (ex_world "new") 3 ++ [SStart 1 "key" 5].

Definition ex_loaded : SState := match run (ex_call 0 (ex_world "old") 1) ex_sstate with Some (_, s) => s | None => ex_sstate end.

Example rotation_runs :
  (fst <$> run (ex_call 0 (ex_world "old") 1) ex_sstate) = Some [("key", Ok "old")] /\
  (fst <$> run (refresh_loop 0 [ex_during] ++ SClear :: ex_rotation_after) ex_loaded) =
    Some [("no", Err (secret_error "no" None)); ("key", Ok "new"); ("key", Ok "new")].
Proof. split; vm_compute; reflexivity. Qed.

Lemma refreshed_secrets_are_current_witness :
  exists w, w ∈ worlds (refresh_loop 0 [ex_during] ++ [] ++ ex_rotation_after) /\
    supplies (mg_providers (ss_mgr ex_loaded)) w "key" "new".
Proof.
  destruct (run (refresh_loop 0 [ex_during]) ex_loaded) as [[o1 s1]|] eqn:E1; [|by vm_compute in E1].
  destruct (run (SClear :: ex_rotation_after) s1) as [[o3 s3]|] eqn:E3.
  - eapply (refreshed_secrets_are_current ex_loaded [ex_during] o1 s1 [] [] s1 ex_rotation_after o3 s3 "key" "new");
      [reflexivity|reflexivity|exact E1| |reflexivity|exact E3|];
      vm_compute in E1; injection E1 as <- <-; [reflexivity|]. vm_compute in E3. injection E3 as <- <-. left.
  - exfalso. vm_compute in E1. injection E1 as <- <-. vm_compute in E3. discriminate E3.
Defined.

(** A call that asked the provider before the rotation and stores after the
    refresh puts the old value back: later calls get it although the refresh is
    over.  It is enough that the call starts while the refresh is under way and the
    file provider has not been emptied yet. *)
Example refresh_race_restores_old_secret :
  (fst <$> run [SStart 0 "key" 1; SAsk 0 (ex_world "old"); SRead 0 (ex_world "old"); SKeep 0; SRefresh 0; SClear;
                SStore 0 2; SStart 1 "key" 3] ex_sstate) = Some [("key", Ok "old"); ("key", Ok "old")] /\
  (let env := PEnv (mkEnvProvider "NO_") in
   let s := mkSState (NewManager [env; PFile (set_cache {["key" := "old"]} ex_provider)] (mkCacheConfig true (10 * Second) 100)) ∅ in
   fst <$> run (refresh_loop 0 [[SStart 0 "key" 1; SAsk 0 (ex_world "new"); SAsk 0 (ex_world "new")]; []] ++
                [SClear; SStore 0 2; SStart 1 "key" 3]) s) = Some [("key", Ok "old"); ("key", Ok "old")].
Proof. split; vm_compute; reflexivity. Qed.

(** An entry under the empty name is never evicted, so the cache outgrows its
    maximum as long as it is the oldest. *)
Example empty_name_disables_eviction :
  let c0 := NewCache (mkCacheConfig true Second 1) in
  let c1 := (Set_ "" "x" c0 (fun _ => 0) 0%nat).1 in
  let c2 := (Set_ "a" "1" c1 (fun _ => 1) 0%nat).1 in
  let c3 := (Set_ "b" "2" c2 (fun _ => 2) 0%nat).1 in
  Size c3 = 3.
Proof. vm_compute. reflexivity. Qed.

Example resolve_example :
  let m := NewManager [PFile ex_provider] (mkCacheConfig true (10 * Second) 100) in
  (ResolveReferences (ex_world "s3") "k=${secret:key}; e=${secret:}; n=${secret:no}" m (fun _ => 1) 0%nat).1.1 =
  ("k=s3; e=${secret:}; n=${secret:no}",
   Some "failed to resolve secret references: failed to resolve secret no: secret not found: no (no provider supports this secret)").
Proof. vm_compute. reflexivity. Qed.
