(* ===== verification/Security.v ===== *)
(** * Authentication and TLS ([pkg/security/auth], [pkg/security/tls])

    The API key validator with its middleware, the certificate checks, the TLS
    configuration, client identities, and the reloader that replaces the server
    certificate while the server runs.  Parsing and verification of certificates
    ([crypto/x509]) and the formatting of dates are the parameters [X509] and
    [TimeFmt]; files and the clock are arguments of the calls that ask them.  The
    mutexes make every method one step. *)

From Stdlib Require Import ZArith Lia Ascii.
From stdpp Require Import base option list strings gmap pretty.
From S2P Require Import Prelude Float64 GoValue ProviderStream.
Local Open Scope Z_scope.
Local Open Scope go_scope.

(** ** API keys ([auth/types.go], [auth/apikey.go]) *)

Record APIKeyInfo := mkAPIKeyInfo {
  ak_Key : string;
  ak_UserID : string;
  ak_TeamID : string;
  ak_Enabled : bool;
  ak_RateLimit : string;
  ak_CreatedAt : Time;
}.

Record APIKeyValidator := mkAPIKeyValidator { av_keys : gmap string APIKeyInfo }.

(** The elements of the slice are pointers; a nil one panics. *)
Fixpoint add_keys (keys : list (option APIKeyInfo)) (m : gmap string APIKeyInfo) : option (gmap string APIKeyInfo) :=
  match keys with
  | [] => Some m
  | None :: _ => None
  | Some key :: keys => add_keys keys (<[ak_Key key := key]> m)
  end.

Definition NewAPIKeyValidator (keys : list (option APIKeyInfo)) : option APIKeyValidator :=
  mkAPIKeyValidator <$> add_keys keys ∅.

Definition Validate (key : string) (v : APIKeyValidator) : result string APIKeyInfo :=
  match av_keys v !! key with
  | None => Err "invalid API key"
  | Some info => if negb (ak_Enabled info) then Err "API key disabled" else Ok info
  end.

Definition List `{MapRange} (v : APIKeyValidator) : list APIKeyInfo := (range (av_keys v)).*2.

Definition Add (info : option APIKeyInfo) (v : APIKeyValidator) : option APIKeyValidator :=
  (fun i => mkAPIKeyValidator (<[ak_Key i := i]> (av_keys v))) <$> info.

Definition Remove (key : string) (v : APIKeyValidator) : APIKeyValidator := mkAPIKeyValidator (delete key (av_keys v)).

Definition Update (info : option APIKeyInfo) (v : APIKeyValidator) : option (option string * APIKeyValidator) :=
  match info with
  | None => None
  | Some i =>
      match av_keys v !! ak_Key i with
      | None => Some (Some "API key not found", v)
      | Some _ => Some (None, mkAPIKeyValidator (<[ak_Key i := i]> (av_keys v)))
      end
  end.

(** ** The middleware ([auth/middleware.go]) *)

Record APIKeySource := mkAPIKeySource { as_Type : string; as_Name : string; as_Scheme : string }.

(** [r.Header.Get] and [r.URL.Query().Get]. *)
Record AuthRequest := mkAuthRequest { ar_Header : string -> string; ar_Query : string -> string }.

Record APIKeyMiddleware := mkAPIKeyMiddleware { am_validator : APIKeyValidator; am_sources : list APIKeySource }.

Definition NewAPIKeyMiddleware (validator : APIKeyValidator) (sources : list APIKeySource) : APIKeyMiddleware :=
  mkAPIKeyMiddleware validator sources.

(** One iteration of the loop: the key it returns, if it returns. *)
Definition source_key (r : AuthRequest) (source : APIKeySource) : option string :=
  if String.eqb (as_Type source) "header" then
    let value := ar_Header r (as_Name source) in
    if negb (String.eqb value "") then
      if negb (String.eqb (as_Scheme source) "") then
        let prefix := as_Scheme source +:+ " " in
        if HasPrefix value prefix then Some (TrimPrefix value prefix) else None
      else Some value
    else None
  else if String.eqb (as_Type source) "query" then
    let value := ar_Query r (as_Name source) in
    if negb (String.eqb value "") then Some value else None
  else None.

Fixpoint extract_from (r : AuthRequest) (sources : list APIKeySource) : result string string :=
  match sources with
  | [] => Err "no API key found"
  | source :: sources =>
      match source_key r source with
      | Some key => Ok key
      | None => extract_from r sources
      end
  end.

Definition extractAPIKey (r : AuthRequest) (m : APIKeyMiddleware) : result string string := extract_from r (am_sources m).

(** The wrapped handler runs with the key's information in its context, or the
    request is answered. *)
Inductive Handled :=
| HNext (info : APIKeyInfo)
| HError (body : string) (status : Z).

Definition Handle (r : AuthRequest) (m : APIKeyMiddleware) : Handled :=
  match extractAPIKey r m with
  | Err _ => HError "Missing or invalid API key" 401
  | Ok apiKey =>
      match Validate apiKey (am_validator m) with
      | Err _ => HError "Invalid API key" 401
      | Ok keyInfo => HNext keyInfo
      end
  end.

(** [GetAPIKeyInfo] of the context that the middleware made. *)
Definition GetAPIKeyInfo (h : Handled) : option APIKeyInfo := match h with HNext info => Some info | _ => None end.

(** ** Certificates ([tls/certs.go]) *)

Record Subject := mkSubject { su_CommonName : string; su_OrganizationalUnit : list string; su_Organization : list string }.

(** The parts of [x509.Certificate] that the code looks at. *)
Record X509Cert := mkX509Cert {
  xc_Subject : Subject;
  xc_Issuer : Subject;
  xc_SerialNumber : Z;
  xc_NotBefore : Time;
  xc_NotAfter : Time;
  xc_DNSNames : list string;
  xc_IPAddresses : list string;
  xc_SignatureAlgorithm : string;
  xc_PublicKeyAlgorithm : string;
}.

Inductive KeyUsage := ServerAuth | ClientAuth.

(** [Pool] stands for [x509.CertPool]. *)
Class X509 (Pool : Type) : Type := {
  ParseCertificate : string -> result string X509Cert;
  Verify : X509Cert -> Pool -> KeyUsage -> option string;
  AppendCertsFromPEM : string -> option Pool;
  name_String : Subject -> string;
  hex : Z -> string;
}.

Class TimeFmt : Type := { RFC3339 : Time -> string; DateOnly : Time -> string }.

(** [tls.Certificate]: the chain, leaf first. *)
Record Certificate := mkCertificate { ct_Certificate : list string }.

Section tls.
Context {Pool : Type} `{X509 Pool} `{TimeFmt}.

Definition ValidateX509Certificate (now : Time) (cert : X509Cert) : option string :=
  if Before now (xc_NotBefore cert) then
    Some ("certificate is not yet valid (valid from " +:+ RFC3339 (xc_NotBefore cert) +:+ ")")
  else if After now (xc_NotAfter cert) then Some ("certificate expired on " +:+ RFC3339 (xc_NotAfter cert))
  else None.

Definition ValidateCertificate (now : Time) (cert : option Certificate) : option string :=
  match cert with
  | None => Some "certificate is nil"
  | Some cert =>
      match ct_Certificate cert with
      | [] => Some "certificate chain is empty"
      | leaf :: _ =>
          match ParseCertificate leaf with
          | Err e => Some ("failed to parse certificate: " +:+ e)
          | Ok x509Cert => ValidateX509Certificate now x509Cert
          end
      end
  end.

(** [Duration.Hours]. *)
Definition Hours (d : Duration) : float64 :=
  fadd (of_int (Z.quot d Hour)) (fdiv (of_int (Z.rem d Hour)) (of_int Hour)).

Definition CheckCertificateExpiration (now : Time) (cert : X509Cert) : Z * string :=
  let duration := SubT (xc_NotAfter cert) now in
  let daysUntilExpiry := to_int64 (fdiv (Hours duration) (of_int 24)) in
  (daysUntilExpiry,
   if daysUntilExpiry <? 30
   then "certificate expires in " +:+ pretty daysUntilExpiry +:+ " days (on " +:+ DateOnly (xc_NotAfter cert) +:+ ")"
   else "").

Definition ValidateCertificateChain (cert : X509Cert) (caPool : Pool) : option string :=
  match Verify cert caPool ServerAuth with
  | Some e => Some ("certificate chain validation failed: " +:+ e)
  | None => None
  end.

Record CertificateInfo := mkCertificateInfo {
  ci_Subject : string;
  ci_Issuer : string;
  ci_SerialNumber : string;
  ci_NotBefore : Time;
  ci_NotAfter : Time;
  ci_DNSNames : list string;
  ci_IPAddresses : list string;
  ci_SignatureAlgorithm : string;
  ci_PublicKeyAlgorithm : string;
}.

Definition ExtractCertificateInfo (cert : X509Cert) : CertificateInfo :=
  mkCertificateInfo (name_String (xc_Subject cert)) (name_String (xc_Issuer cert)) (hex (xc_SerialNumber cert))
    (xc_NotBefore cert) (xc_NotAfter cert) (xc_DNSNames cert) (xc_IPAddresses cert)
    (xc_SignatureAlgorithm cert) (xc_PublicKeyAlgorithm cert).

(** ** The configuration ([tls/config.go]) *)

Record MTLSConfig := mkMTLSConfig {
  mt_Enabled : bool;
  mt_ClientCAFile : string;
  mt_ClientAuthType : string;
  mt_VerifyClientCert : bool;
  mt_IdentitySource : string;
}.

Record Config := mkConfig {
  tc_Enabled : bool;
  tc_CertFile : string;
  tc_KeyFile : string;
  tc_MinVersion : string;
  tc_CipherSuites : list string;
  tc_ReloadInterval : string;
  tc_MTLS : MTLSConfig;
}.

Inductive ClientAuthType :=
| NoClientCert
| RequestClientCert
| RequireAnyClientCert
| VerifyClientCertIfGiven
| RequireAndVerifyClientCert.

(** The fields of [tls.Config] that are set. *)
Record TLSConfig := mkTLSConfig {
  tl_Certificates : list Certificate;
  tl_MinVersion : Z;
  tl_CipherSuites : option (list Z);
  tl_ClientCAs : option Pool;
  tl_ClientAuth : ClientAuthType;
}.

Definition VersionTLS12 : Z := 771.
Definition VersionTLS13 : Z := 772.

Definition parseTLSVersion (c : Config) : Z :=
  if String.eqb (tc_MinVersion c) "1.2" then VersionTLS12
  else if String.eqb (tc_MinVersion c) "1.3" || String.eqb (tc_MinVersion c) "" then VersionTLS13
  else VersionTLS13.

(** The constants of [crypto/tls]. *)
Definition cipherSuiteMap : gmap string Z := list_to_map [
  ("TLS_AES_128_GCM_SHA256", 4865);
  ("TLS_AES_256_GCM_SHA384", 4866);
  ("TLS_CHACHA20_POLY1305_SHA256", 4867);
  ("TLS_ECDHE_RSA_WITH_AES_128_GCM_SHA256", 49199);
  ("TLS_ECDHE_RSA_WITH_AES_256_GCM_SHA384", 49200);
  ("TLS_ECDHE_ECDSA_WITH_AES_128_GCM_SHA256", 49195);
  ("TLS_ECDHE_ECDSA_WITH_AES_256_GCM_SHA384", 49196);
  ("TLS_ECDHE_RSA_WITH_CHACHA20_POLY1305", 52392);
  ("TLS_ECDHE_ECDSA_WITH_CHACHA20_POLY1305", 52393)].

(** A nil slice ([None]) selects the defaults of the library; appending nothing to
    it leaves it nil. *)
Definition parseCipherSuites (c : Config) : option (list Z) :=
  match omap (fun suite => cipherSuiteMap !! suite) (tc_CipherSuites c) with
  | [] => None
  | suites => Some suites
  end.

Definition ParseReloadInterval (ParseDuration : string -> option Duration) (c : Config) : Duration :=
  if String.eqb (tc_ReloadInterval c) "" then 5 * Minute
  else default (5 * Minute) (ParseDuration (tc_ReloadInterval c)).

Definition parseClientAuthType (c : Config) : ClientAuthType :=
  let t := mt_ClientAuthType (tc_MTLS c) in
  if String.eqb t "require" then RequireAndVerifyClientCert
  else if String.eqb t "request" then RequestClientCert
  else if String.eqb t "verify_if_given" then VerifyClientCertIfGiven
  else RequireAndVerifyClientCert.

(** Files: modification time, contents, and the key pair of two files. *)
Record Files := mkFiles {
  fs_Stat : string -> result string Time;
  fs_ReadFile : string -> result string string;
  fs_LoadX509KeyPair : string -> string -> result string Certificate;
}.

Definition configureMTLS (fs : Files) (c : Config) (t : TLSConfig) : result string TLSConfig :=
  if String.eqb (mt_ClientCAFile (tc_MTLS c)) "" then Err "client_ca_file is required when mTLS is enabled"
  else
    match fs_ReadFile fs (mt_ClientCAFile (tc_MTLS c)) with
    | Err e => Err ("failed to read client CA: " +:+ e)
    | Ok caCert =>
        match AppendCertsFromPEM caCert with
        | None => Err "failed to parse client CA certificate"
        | Some pool =>
            Ok (mkTLSConfig (tl_Certificates t) (tl_MinVersion t) (tl_CipherSuites t) (Some pool) (parseClientAuthType c))
        end
    end.

(** A nil configuration is [None]. *)
Definition ToTLSConfig (fs : Files) (now : Time) (c : Config) : result string (option TLSConfig) :=
  if negb (tc_Enabled c) then Ok None
  else if String.eqb (tc_CertFile c) "" then Err "cert_file is required when TLS is enabled"
  else if String.eqb (tc_KeyFile c) "" then Err "key_file is required when TLS is enabled"
  else
    match fs_Stat fs (tc_CertFile c) with
    | Err e => Err ("certificate file not found: " +:+ tc_CertFile c +:+ ": " +:+ e)
    | Ok _ =>
        match fs_Stat fs (tc_KeyFile c) with
        | Err e => Err ("key file not found: " +:+ tc_KeyFile c +:+ ": " +:+ e)
        | Ok _ =>
            match fs_LoadX509KeyPair fs (tc_CertFile c) (tc_KeyFile c) with
            | Err e => Err ("failed to load certificate: " +:+ e)
            | Ok cert =>
                match ValidateCertificate now (Some cert) with
                | Some e => Err ("certificate validation failed: " +:+ e)
                | None =>
                    let t := mkTLSConfig [cert] (parseTLSVersion c) (parseCipherSuites c) None NoClientCert in
                    if mt_Enabled (tc_MTLS c) then
                      match configureMTLS fs c t with
                      | Err e => Err ("failed to configure mTLS: " +:+ e)
                      | Ok t => Ok (Some t)
                      end
                    else Ok (Some t)
                end
            end
        end
    end.

(** ** Client identities ([tls/mtls.go]) *)

Definition ExtractClientIdentity (cert : option X509Cert) (source : string) : string :=
  match cert with
  | None => ""
  | Some cert =>
      if String.eqb source "subject.CN" || String.eqb source "" then su_CommonName (xc_Subject cert)
      else if String.eqb source "subject.OU" then default "" (head (su_OrganizationalUnit (xc_Subject cert)))
      else if String.eqb source "subject.O" then default "" (head (su_Organization (xc_Subject cert)))
      else if String.eqb source "SAN" then default "" (head (xc_DNSNames cert))
      else ""
  end.

Record ClientCertInfo := mkClientCertInfo {
  cl_Identity : string;
  cl_Subject : string;
  cl_Issuer : string;
  cl_SerialNumber : string;
  cl_OrganizationalUnit : list string;
  cl_Organization : list string;
  cl_DNSNames : list string;
}.

Definition ExtractClientCertInfo (cert : option X509Cert) (identitySource : string) : option ClientCertInfo :=
  (fun c => mkClientCertInfo (ExtractClientIdentity (Some c) identitySource) (name_String (xc_Subject c))
              (name_String (xc_Issuer c)) (hex (xc_SerialNumber c)) (su_OrganizationalUnit (xc_Subject c))
              (su_Organization (xc_Subject c)) (xc_DNSNames c)) <$> cert.

(** The peer certificates of the connection; [None] without TLS. *)
Definition GetClientCertificate (peers : option (list X509Cert)) : option X509Cert := p ← peers; head p.

Definition GetClientIdentity (peers : option (list X509Cert)) (identitySource : string) : string :=
  match GetClientCertificate peers with
  | None => ""
  | Some cert => ExtractClientIdentity (Some cert) identitySource
  end.

Definition ValidateClientCertificate (now : Time) (cert : option X509Cert) (caPool : Pool) : option string :=
  match cert with
  | None => Some "client certificate is nil"
  | Some cert =>
      match Verify cert caPool ClientAuth with
      | Some e => Some ("client certificate validation failed: " +:+ e)
      | None => ValidateX509Certificate now cert
      end
  end.

(** ** The reloader ([tls/reload.go]) *)

Record CertificateReloader := mkCertificateReloader {
  cr_certFile : string;
  cr_keyFile : string;
  cr_interval : Duration;
  cr_cert : option Certificate;
  cr_certTime : Time;
  cr_keyTime : Time;
}.

Definition NewCertificateReloader (certFile keyFile : string) (interval : Duration) : CertificateReloader :=
  mkCertificateReloader certFile keyFile interval None zero_time zero_time.

Definition needsReload (fs : Files) (r : CertificateReloader) : bool :=
  match fs_Stat fs (cr_certFile r) with
  | Err _ => false
  | Ok certInfo =>
      match fs_Stat fs (cr_keyFile r) with
      | Err _ => false
      | Ok keyInfo => After certInfo (cr_certTime r) || After keyInfo (cr_keyTime r)
      end
  end.

Definition reload (fs : Files) (now : Time) (r : CertificateReloader) : option string * CertificateReloader :=
  match fs_Stat fs (cr_certFile r) with
  | Err e => (Some e, r)
  | Ok certInfo =>
      match fs_Stat fs (cr_keyFile r) with
      | Err e => (Some e, r)
      | Ok keyInfo =>
          match fs_LoadX509KeyPair fs (cr_certFile r) (cr_keyFile r) with
          | Err e => (Some e, r)
          | Ok cert =>
              match ValidateCertificate now (Some cert) with
              | Some e => (Some e, r)
              | None =>
                  (None, mkCertificateReloader (cr_certFile r) (cr_keyFile r) (cr_interval r) (Some cert) certInfo keyInfo)
              end
          end
      end
  end.

(** One tick of the loop; an error is logged. *)
Definition reload_tick (fs : Files) (now : Time) (r : CertificateReloader) : CertificateReloader :=
  if needsReload fs r then (reload fs now r).2 else r.

(** What the [select] of the loop receives: a tick with the files and the clock
    at that moment, or the end of the context ([None]). *)
Fixpoint reload_ticks (events : list (option (Files * Time))) (r : CertificateReloader) : CertificateReloader :=
  match events with
  | Some (fs, now) :: events => reload_ticks events (reload_tick fs now r)
  | _ => r
  end.

(** [NewTicker] panics for an interval that is not positive ([None]): the loop is a
    goroutine of its own, so that ends the process. *)
Definition reloadLoop (events : list (option (Files * Time))) (r : CertificateReloader) : option CertificateReloader :=
  if cr_interval r <=? 0 then None else Some (reload_ticks events r).

(** [Start] loads the certificate; the loop is started only then. *)
Definition Start (fs : Files) (now : Time) (r : CertificateReloader) : option string * CertificateReloader := reload fs now r.

Definition GetCertificate (r : CertificateReloader) : option Certificate := cr_cert r.
End tls.
Arguments TLSConfig : clear implicits.

(** ** API keys: who passes *)

Lemma extract_from_first r sources :
  extract_from r sources = match head (omap (source_key r) sources) with Some k => Ok k | None => Err "no API key found" end.
Proof. induction sources as [|s sources IH]; [done|]. cbn. by destruct (source_key r s). Qed.

(** The administration of the keys, and a request that arrives in between. *)
Inductive KeyOp :=
| KAdd (info : APIKeyInfo)
| KRemove (key : string)
| KUpdate (info : APIKeyInfo).

Definition run_key_op (o : KeyOp) (v : APIKeyValidator) : APIKeyValidator :=
  match o with
  | KAdd info => default v (Add (Some info) v)
  | KRemove key => Remove key v
  | KUpdate info => match Update (Some info) v with Some (_, v) => v | None => v end
  end.

(** What is known of a key after a history: the information last given for it. *)
Definition key_step (key : string) (o : KeyOp) (known : option APIKeyInfo) : option APIKeyInfo :=
  match o with
  | KAdd info => if String.eqb (ak_Key info) key then Some info else known
  | KRemove k => if String.eqb k key then None else known
  | KUpdate info => if String.eqb (ak_Key info) key then (if known is Some _ then Some info else None) else known
  end.

Lemma run_key_op_lookup o v key : av_keys (run_key_op o v) !! key = key_step key o (av_keys v !! key).
Proof.
  destruct o as [info|k|info]; cbn [run_key_op key_step].
  - cbn. destruct (String.eqb_spec (ak_Key info) key) as [<-|Hne]; [by rewrite lookup_insert_eq|by rewrite lookup_insert_ne].
  - cbn. destruct (String.eqb_spec k key) as [<-|Hne]; [by rewrite lookup_delete_eq|by rewrite lookup_delete_ne].
  - unfold Update. destruct (String.eqb_spec (ak_Key info) key) as [<-|Hne].
    + destruct (av_keys v !! ak_Key info) eqn:E; cbn; [by rewrite lookup_insert_eq|done].
    + destruct (av_keys v !! ak_Key info) eqn:E; cbn; [by rewrite lookup_insert_ne|done].
Qed.

Lemma run_keys_lookup ops v key :
  av_keys (foldl (fun v o => run_key_op o v) v ops) !! key = foldl (fun k o => key_step key o k) (av_keys v !! key) ops.
Proof. revert v. induction ops as [|o ops IH]; intros v; [done|]. cbn [foldl]. by rewrite IH, run_key_op_lookup. Qed.

(** Authentication.  After any administration of the keys a request reaches the
    handler exactly when the first source that yields a key yields one whose last
    addition or update has not been removed and is enabled, and the handler sees
    that information; every other request is answered 401. *)
Theorem only_enabled_keys_pass ops sources r :
  let v := foldl (fun v o => run_key_op o v) (mkAPIKeyValidator ∅) ops in
  let given := head (omap (source_key r) sources) in
  match Handle r (NewAPIKeyMiddleware v sources) with
  | HNext info => exists key, given = Some key /\ foldl (fun k o => key_step key o k) None ops = Some info /\ ak_Enabled info = true
  | HError _ status => status = 401 /\
      forall key info, given = Some key -> foldl (fun k o => key_step key o k) None ops = Some info -> ak_Enabled info = false
  end.
Proof.
  cbv zeta. unfold Handle, extractAPIKey. cbn [am_sources am_validator NewAPIKeyMiddleware]. rewrite extract_from_first.
  destruct (head _) as [key|]; [|by split]. unfold Validate. rewrite run_keys_lookup. cbn [av_keys]. rewrite lookup_empty.
  destruct (foldl _ None ops) as [info|] eqn:Ef; cbn; [destruct (ak_Enabled info) eqn:Ee; cbn|].
  - by exists key.
  - split; [done|]. by intros k i [= <-] [= <-]%(eq_trans (eq_sym Ef)).
  - split; [done|]. intros k i [= <-]. by rewrite Ef.
Qed.

(** ** Certificates in use *)

Section reloading.
Context {Pool : Type} `{X509 Pool} `{TimeFmt}.

Definition valid_at (t : Time) (cert : Certificate) : Prop :=
  exists leaf rest x, ct_Certificate cert = leaf :: rest /\ ParseCertificate leaf = Ok x /\ xc_NotBefore x <= t <= xc_NotAfter x.

Lemma ValidateCertificate_iff t cert : ValidateCertificate t (Some cert) = None <-> valid_at t cert.
Proof.
  unfold ValidateCertificate, valid_at, ValidateX509Certificate, Before, After. split.
  - destruct (ct_Certificate cert) as [|leaf rest]; [done|]. destruct (ParseCertificate leaf) as [x|] eqn:Ep; [|done].
    destruct (Z.ltb_spec t (xc_NotBefore x)); [done|]. destruct (Z.ltb_spec (xc_NotAfter x) t); [done|].
    intros _. exists leaf, rest, x. split; [done|]. split; [done|]. lia.
  - intros (leaf & rest & x & -> & -> & Hx). destruct (Z.ltb_spec t (xc_NotBefore x)); [lia|].
    destruct (Z.ltb_spec (xc_NotAfter x) t); [lia|done].
Qed.

(** A reload replaces all of the state or nothing. *)
Lemma reloader_cases fs t r :
  let '(e, r') := reload fs t r in
  match e with
  | Some _ => r' = r
  | None => exists cert ct kt, fs_Stat fs (cr_certFile r) = Ok ct /\ fs_Stat fs (cr_keyFile r) = Ok kt /\
      fs_LoadX509KeyPair fs (cr_certFile r) (cr_keyFile r) = Ok cert /\ valid_at t cert /\
      r' = mkCertificateReloader (cr_certFile r) (cr_keyFile r) (cr_interval r) (Some cert) ct kt
  end.
Proof.
  unfold reload. destruct (fs_Stat fs (cr_certFile r)) as [ct|] eqn:Ec; [|done].
  destruct (fs_Stat fs (cr_keyFile r)) as [kt|] eqn:Ek; [|done].
  destruct (fs_LoadX509KeyPair _ _ _) as [cert|] eqn:El; [|done].
  destruct (ValidateCertificate t (Some cert)) eqn:Ev; [done|]. apply ValidateCertificate_iff in Ev.
  exists cert, ct, kt. done.
Qed.

(** The certificate with the time and the files it was loaded from. *)
Definition loaded_from (r : CertificateReloader) (events : list (option (Files * Time))) : Prop :=
  exists cert fs t, cr_cert r = Some cert /\ Some (fs, t) ∈ events /\
    fs_LoadX509KeyPair fs (cr_certFile r) (cr_keyFile r) = Ok cert /\ valid_at t cert.

Lemma tick_loaded fs t r events :
  loaded_from r events ->
  cr_certFile (reload_tick fs t r) = cr_certFile r /\ cr_keyFile (reload_tick fs t r) = cr_keyFile r /\
  loaded_from (reload_tick fs t r) (events ++ [Some (fs, t)]).
Proof.
  intros Hl. assert (Hkeep : loaded_from r (events ++ [Some (fs, t)])).
  { destruct Hl as (cert & fs' & t' & H1 & H2 & H3 & H4). exists cert, fs', t'. split; [done|]. split; [set_solver|done]. }
  unfold reload_tick. destruct (needsReload fs r); [|done]. pose proof (reloader_cases fs t r) as Hc.
  destruct (reload fs t r) as [[e|] r']; [by subst r'|].
  destruct Hc as (cert & ct & kt & _ & _ & Hload & Hv & ->). cbn. split; [done|]. split; [done|].
  exists cert, fs, t. split; [done|]. split; [set_solver|done].
Qed.

(** C29: the certificate in service.  With a positive interval, once [Start] has
    succeeded there always is a
    certificate, and it is one that was loaded from the configured files at the
    start or at a tick and was within its validity at that moment: broken, missing
    or expired files never replace it.  At a tick at which a file is newer than
    the one in use and the pair loads and is valid, the pair is taken.  With an
    interval that is not positive, which [ParseReloadInterval] lets through, the loop
    that a successful [Start] begins panics. *)
Theorem served_certificate_valid certFile keyFile interval fs0 t0 r0 events :
  Start fs0 t0 (NewCertificateReloader certFile keyFile interval) = (None, r0) ->
  (interval <= 0 -> reloadLoop events r0 = None) /\
  (0 < interval -> exists r, reloadLoop events r0 = Some r /\
    loaded_from r (Some (fs0, t0) :: events) /\
    forall fs t cert ct kt, fs_Stat fs certFile = Ok ct -> fs_Stat fs keyFile = Ok kt ->
      fs_LoadX509KeyPair fs certFile keyFile = Ok cert -> valid_at t cert ->
      (cr_certTime r < ct \/ cr_keyTime r < kt) -> GetCertificate (reload_tick fs t r) = Some cert).
Proof.
  intros Hs. unfold Start in Hs. pose proof (reloader_cases fs0 t0 (NewCertificateReloader certFile keyFile interval)) as Hc.
  rewrite Hs in Hc. destruct Hc as (c0 & ct0 & kt0 & _ & _ & Hl0 & Hv0 & Hr0). cbn in Hl0, Hr0.
  assert (Hinv : forall events r seen, cr_certFile r = certFile -> cr_keyFile r = keyFile -> loaded_from r seen ->
    cr_certFile (reload_ticks events r) = certFile /\ cr_keyFile (reload_ticks events r) = keyFile /\
    loaded_from (reload_ticks events r) (seen ++ events)).
  { clear. induction events as [|[[fs t]|] events IH]; intros r seen Hcf Hkf Hl; cbn [reload_ticks].
    - by rewrite app_nil_r.
    - destruct (tick_loaded fs t r seen Hl) as (H1 & H2 & H3).
      rewrite cons_middle, app_assoc. apply IH; congruence.
    - split; [done|]. split; [done|]. destruct Hl as (cert & fs' & t' & H1 & H2 & H3 & H4). exists cert, fs', t'.
      split; [done|]. split; [set_solver|done]. }
  destruct (Hinv events r0 [Some (fs0, t0)]) as (Hcf & Hkf & Hl); [by rewrite Hr0..| |].
  { exists c0, fs0, t0. rewrite Hr0. split; [done|]. split; [left|done]. }
  assert (Hi : cr_interval r0 = interval) by (by rewrite Hr0). unfold reloadLoop. rewrite Hi.
  destruct (Z.leb_spec interval 0); (split; [intros; try done; lia|intros; try lia]).
  exists (reload_ticks events r0). split; [done|]. split; [done|]. intros fs t cert ct kt Hct Hkt Hload Hv Hnew.
  unfold reload_tick, needsReload, reload. rewrite Hcf, Hkf, Hct, Hkt, Hload.
  apply ValidateCertificate_iff in Hv as ->. unfold After.
  destruct (Z.ltb_spec (cr_certTime (reload_ticks events r0)) ct), (Z.ltb_spec (cr_keyTime (reload_ticks events r0)) kt); try done. lia.
Qed.
End reloading.

(** ** Client certificates

    What [crypto/tls] does with the certificate that a client presents, by the
    documentation of [ClientAuthType]: whether the handshake goes on and whether
    the certificate was verified against the pool. *)
Definition handshake (auth : ClientAuthType) (presented verifies : bool) : bool * bool :=
  match auth with
  | NoClientCert => (true, false)
  | RequestClientCert => (true, false)
  | RequireAnyClientCert => (presented, false)
  | VerifyClientCertIfGiven => if presented then (verifies, verifies) else (true, false)
  | RequireAndVerifyClientCert => (presented && verifies, presented && verifies)
  end.

(** With the type "request" a certificate is accepted unverified, whatever the
    setting that asks for verification says; with every other type a presented
    certificate that is accepted was verified. *)
Lemma client_cert_verification c verifies :
  (handshake (parseClientAuthType c) true verifies).1 = true ->
  (handshake (parseClientAuthType c) true verifies).2 = false <-> mt_ClientAuthType (tc_MTLS c) = "request".
Proof.
  unfold parseClientAuthType. destruct (String.eqb_spec (mt_ClientAuthType (tc_MTLS c)) "require") as [->|H1]; [by destruct verifies|].
  destruct (String.eqb_spec (mt_ClientAuthType (tc_MTLS c)) "request") as [->|H2]; [done|].
  destruct (String.eqb_spec (mt_ClientAuthType (tc_MTLS c)) "verify_if_given") as [->|H3]; destruct verifies; cbn; split; congruence.
Qed.

(** ** Examples *)

#[local] Instance ex_x509 : X509 unit := {|
  ParseCertificate s := if String.eqb s "leaf" then Ok (mkX509Cert (mkSubject "srv" [] []) (mkSubject "ca" [] []) 7 10 90 [] [] "" "") else Err "asn1";
  Verify _ _ _ := None;
  AppendCertsFromPEM _ := Some ();
  name_String s := su_CommonName s;
  hex _ := "7";
|}.
#[local] Instance ex_timefmt : TimeFmt := {| RFC3339 _ := "t"; DateOnly _ := "d" |}.

Definition ex_files (mtime : Time) (chain : list string) : Files :=
  mkFiles (fun _ => Ok mtime) (fun _ => Ok "") (fun _ _ => Ok (mkCertificate chain)).

Definition ex_started : CertificateReloader :=
  (Start (ex_files 5 ["leaf"]) 20 (NewCertificateReloader "c.pem" "k.pem" Minute)).2.

(** A broken pair and an expired one are left aside; a newer valid one is taken,
    but not one whose files are older. *)
Example reload_example :
  GetCertificate <$> reloadLoop [Some (ex_files 6 ["junk"], 30); Some (ex_files 7 ["leaf"; "ca"], 95)] ex_started = Some (Some (mkCertificate ["leaf"])) /\
  GetCertificate <$> reloadLoop [Some (ex_files 6 ["junk"], 30); Some (ex_files 7 ["leaf"; "ca"], 40)] ex_started = Some (Some (mkCertificate ["leaf"; "ca"])) /\
  GetCertificate <$> reloadLoop [Some (ex_files 4 ["leaf"; "ca"], 40)] ex_started = Some (Some (mkCertificate ["leaf"])).
Proof. repeat split. Qed.

Lemma served_certificate_valid_witness :
  exists r, reloadLoop [Some (ex_files 6 ["junk"], 30)] ex_started = Some r /\
    loaded_from r [Some (ex_files 5 ["leaf"], 20); Some (ex_files 6 ["junk"], 30)].
Proof.
  destruct (served_certificate_valid "c.pem" "k.pem" Minute (ex_files 5 ["leaf"]) 20 ex_started [Some (ex_files 6 ["junk"], 30)])
    as [_ Hok]; [reflexivity|].
  destruct (Hok ltac:(unfold Minute, Second; lia)) as (r & Hr & Hl & _). exists r. split; [exact Hr|exact Hl].
Defined.

(** An interval of zero in the configuration is taken as it is, and the server dies
    after its certificate was loaded. *)
Example zero_interval_panics :
  let c := mkConfig true "c.pem" "k.pem" "" [] "0s" (mkMTLSConfig false "" "" false "") in
  let interval := ParseReloadInterval (fun s => if String.eqb s "0s" then Some 0 else None) c in
  let '(e, r) := Start (ex_files 5 ["leaf"]) 20 (NewCertificateReloader "c.pem" "k.pem" interval) in
  interval = 0 /\ e = None /\ reloadLoop [] r = None.
Proof. repeat split. Qed.

(** A list of suites of which none is known selects the defaults of the library. *)
Example unknown_suites_give_defaults :
  let c := mkConfig true "c" "k" "" ["TLS_ECDHE_RSA_WITH_AES_128_GCM_SHA257"] "" (mkMTLSConfig false "" "" false "") in
  parseCipherSuites c = None /\ parseTLSVersion c = VersionTLS13.
Proof. split; reflexivity. Qed.

Example keys_example :
  let key e := mkAPIKeyInfo "k1" "u" "t" e "" 0 in
  let src := [mkAPIKeySource "header" "Authorization" "Bearer"; mkAPIKeySource "query" "api_key" ""] in
  let r := mkAuthRequest (fun h => if String.eqb h "Authorization" then "Basic x" else "") (fun _ => "k1") in
  Handle r (NewAPIKeyMiddleware (run_key_op (KAdd (key true)) (mkAPIKeyValidator ∅)) src) = HNext (key true) /\
  Handle r (NewAPIKeyMiddleware (run_key_op (KAdd (key false)) (mkAPIKeyValidator ∅)) src) = HError "Invalid API key" 401.
Proof. split; vm_compute; reflexivity. Qed.
