(* ===== verification/Server.v ===== *)
(** * The HTTP server ([pkg/server/server.go], [pkg/proxy/middleware],
    [pkg/proxy/handlers])

    The middleware chain around the handlers, the health handlers, the routes and
    the life cycle of the server.  A handler is what it does to its response writer:
    a list of operations, and whether it returns or panics.  The chain is a
    function on such runs.  The timeout middleware runs the handlers in a goroutine
    of its own; its schedule says how many operations that goroutine has performed
    when the deadline passes, and how the writes of the two interleave after that.  A panic in a goroutine without a [recover] of its
    own ends the process ([Crashed]), whatever other goroutines defer.  Request
    paths are cleaned, as [http.ServeMux] redirects others. *)

From Stdlib Require Import ZArith Lia.
From stdpp Require Import base option list strings gmap pretty.
From S2P Require Import Prelude GoValue ProviderTypes ProxyTypes ProxyHandlers PolicyRegistry ConfigTypes ProviderHttp.
Local Open Scope Z_scope.
Local Open Scope go_scope.

(** ** Response writers *)

Inductive Json :=
| JString (s : string)
| JInt (z : Z)
| JBool (b : bool)
| JNull
| JObject (fields : list (string * Json)).

(** A piece of a body. *)
Inductive Body :=
| BText (s : string)
| BJson (j : Json)
| BError (d : ErrorDetail)
| BEvent (e : Event).

Inductive WOp :=
| OpSet (k v : string)
| OpStatus (code : Z)
| OpWrite (b : Body)
| OpFlush.

(** The writer of [net/http]: the header map, what was sent of it with the status
    line, and the body.  Only the first status line counts. *)
Record Writer := mkWriter {
  wr_header : gmap string string;
  wr_sent : option (Z * gmap string string);
  wr_body : list Body;
}.

Definition new_writer : Writer := mkWriter ∅ None [].

Definition send (code : Z) (w : Writer) : Writer :=
  match wr_sent w with
  | Some _ => w
  | None => mkWriter (wr_header w) (Some (code, wr_header w)) (wr_body w)
  end.

Definition wop (w : Writer) (o : WOp) : Writer :=
  match o with
  | OpSet k v => mkWriter (<[k := v]> (wr_header w)) (wr_sent w) (wr_body w)
  | OpStatus code => send code w
  | OpWrite b => let w := send 200 w in mkWriter (wr_header w) (wr_sent w) (wr_body w ++ [b])
  | OpFlush => send 200 w
  end.

(** A handler that returns without a status has sent 200. *)
Definition write_all (ops : list WOp) : Writer := send 200 (foldl wop new_writer ops).

Definition status_of (ops : list WOp) : Z := match wr_sent (write_all ops) with Some (c, _) => c | None => 200 end.
Definition headers_of (ops : list WOp) : gmap string string :=
  match wr_sent (write_all ops) with Some (_, h) => h | None => ∅ end.

(** ** Requests and handlers *)

(** A request with the context values of [middleware/context.go]. *)
Record Request := mkRequest {
  rq_http : HttpRequest;
  rq_RequestID : option string;
  rq_StartTime : option Time;
}.

Definition GetRequestID (r : Request) : string := default "" (rq_RequestID r).
Definition GetStartTime (r : Request) : Time := default zero_time (rq_StartTime r).

Inductive Outcome := Returned | Panicked | Crashed.

(** What a handler does to its writer before it returns, what a goroutine it
    leaves behind does afterwards, how it ends, and the status it logs. *)
Record Run := mkRun {
  rn_ops : list WOp;
  rn_late : list WOp;
  rn_out : Outcome;
  rn_log : list (Z * Z * string);
}.

Definition Handler : Type := Request -> Run.

(** The handlers behind the timeout: their operations, and whether they panic
    after them. *)
Definition Program : Type := Request -> list WOp * bool.

(** ** Recovery ([middleware/recovery.go]) *)

Definition recovery_error : ErrorDetail := NewServerError "An internal error occurred. Please try again later.".

Definition RecoveryMiddleware (next : Handler) : Handler := fun r =>
  let run := next r in
  match rn_out run with
  | Panicked =>
      mkRun (rn_ops run ++ [OpSet "Content-Type" "application/json"; OpStatus 500; OpWrite (BError recovery_error)])
        (rn_late run) Returned (rn_log run)
  | _ => run
  end.

(** ** Timeouts ([middleware/timeout.go]) *)

(** How the goroutine of the handler and that of the middleware take turns after the
    context has ended: [true] lets the handler perform an operation. *)
Inductive Schedule :=
| HandlerFirst
| ContextFirst (k : nat) (exceeded : bool) (turns : list bool).

Definition timeout_error : ErrorDetail := NewGatewayTimeoutError "Request timeout: the request took too long to complete".

(** What the middleware writes after the deadline; when the context was cancelled
    for another reason, the client has gone away and it writes nothing. *)
Definition timeout_ops (exceeded : bool) : list WOp :=
  if exceeded then [OpSet "Content-Type" "application/json"; OpStatus 504; OpWrite (BError timeout_error)] else [].

(** The operations of both until the middleware returns, and those of the handler
    that are left then.  When the turns are over the middleware goes on alone. *)
Fixpoint race (turns : list bool) (mw ops : list WOp) : list WOp * list WOp :=
  match turns with
  | [] => (mw, ops)
  | true :: turns =>
      match ops with
      | [] => race turns mw []
      | o :: ops => let '(done, late) := race turns mw ops in (o :: done, late)
      end
  | false :: turns =>
      match mw with
      | [] => ([], ops)
      | o :: mw => let '(done, late) := race turns mw ops in (o :: done, late)
      end
  end.

(** [ContextFirst k e t]: the context ends, by its deadline or otherwise, when the
    goroutine has performed [k] operations.  The goroutine goes on, at first
    together with the middleware, and after that on its own.  Operations on the
    writer are atomic here; in the program nothing synchronises the two goroutines. *)
Definition TimeoutMiddleware (schedule : Schedule) (next : Program) : Handler := fun r =>
  let '(ops, panics) := next r in
  let end_ := if panics : bool then Crashed else Returned in
  match schedule with
  | HandlerFirst => mkRun ops [] end_ []
  | ContextFirst k exceeded turns =>
      let '(done, late) := race turns (timeout_ops exceeded) (drop k ops) in mkRun (take k ops ++ done) late end_ []
  end.

(** ** CORS ([middleware/cors.go]) *)

Definition DefaultCORSConfig : CORSConfig :=
  mkCORSConfig true ["*"] ["GET"; "POST"; "PUT"; "DELETE"; "OPTIONS"]
    ["Authorization"; "Content-Type"; "X-Request-ID"; "X-User-ID"] ["X-Request-ID"] 3600 false.

Definition isOriginAllowed (origin : string) (allowedOrigins : list string) : bool :=
  existsb (fun allowed => String.eqb allowed "*" || String.eqb allowed origin) allowedOrigins.

Definition contains (slice : list string) (item : string) : bool := existsb (fun s => String.eqb s item) slice.

Definition set_if (cond : bool) (k v : string) : list WOp := if cond then [OpSet k v] else [].
Definition nonempty (l : list string) : bool := match l with [] => false | _ => true end.

Definition origin_ops (config : CORSConfig) (origin : string) : list WOp :=
  if negb (String.eqb origin "") && isOriginAllowed origin (cors_AllowedOrigins config) then
    [OpSet "Access-Control-Allow-Origin" origin] ++
    set_if (cors_AllowCredentials config) "Access-Control-Allow-Credentials" "true" ++
    set_if (nonempty (cors_ExposedHeaders config)) "Access-Control-Expose-Headers"
      (join_with ", " (cors_ExposedHeaders config))
  else if contains (cors_AllowedOrigins config) "*" then [OpSet "Access-Control-Allow-Origin" "*"]
  else [].

Definition preflight_ops (config : CORSConfig) : list WOp :=
  set_if (nonempty (cors_AllowedMethods config)) "Access-Control-Allow-Methods" (join_with ", " (cors_AllowedMethods config)) ++
  set_if (nonempty (cors_AllowedHeaders config)) "Access-Control-Allow-Headers" (join_with ", " (cors_AllowedHeaders config)) ++
  set_if (0 <? cors_MaxAge config) "Access-Control-Max-Age" (pretty (cors_MaxAge config)) ++
  [OpStatus 204].

(** Operations before those of a run. *)
Definition before (ops : list WOp) (run : Run) : Run :=
  mkRun (ops ++ rn_ops run) (rn_late run) (rn_out run) (rn_log run).

Definition CORSMiddleware (config : CORSConfig) (next : Handler) : Handler := fun r =>
  if negb (cors_Enabled config) then next r
  else
    let origin := h_Header (rq_http r) "Origin" in
    let ops := origin_ops config origin in
    if String.eqb (h_Method (rq_http r)) "OPTIONS" then mkRun (ops ++ preflight_ops config) [] Returned []
    else before ops (next r).

(** ** Request ids ([middleware/requestid.go]) *)

(** [random]: the hex text of sixteen random bytes, or [None] when reading them
    fails. *)
Definition generateRequestID (random : option string) : string := default "fallback-request-id" random.

Definition RequestIDMiddleware (random : option string) (next : Handler) : Handler := fun r =>
  let given := h_Header (rq_http r) "X-Request-ID" in
  let requestID := if String.eqb given "" then generateRequestID random else given in
  before [OpSet "X-Request-ID" requestID] (next (mkRequest (rq_http r) (Some requestID) (rq_StartTime r))).

(** ** Logging ([middleware/logging.go]) *)

Record responseWriter := mkResponseWriter { lw_statusCode : Z; lw_written : bool; lw_ops : list WOp }.

Definition newResponseWriter : responseWriter := mkResponseWriter 200 false [].

Definition lw_WriteHeader (code : Z) (rw : responseWriter) : responseWriter :=
  if lw_written rw then rw else mkResponseWriter code true (lw_ops rw ++ [OpStatus code]).

(** The wrapper has no [Flush] method: the assertion to [http.Flusher] fails and
    [OpFlush] does not occur behind it. *)
Definition implements_Flusher : bool := false.

Definition lw_op (rw : responseWriter) (o : WOp) : responseWriter :=
  match o with
  | OpStatus code => lw_WriteHeader code rw
  | OpWrite b =>
      let rw := if negb (lw_written rw) then lw_WriteHeader 200 rw else rw in
      mkResponseWriter (lw_statusCode rw) (lw_written rw) (lw_ops rw ++ [o])
  | _ => mkResponseWriter (lw_statusCode rw) (lw_written rw) (lw_ops rw ++ [o])
  end.

Definition log_level (status : Z) : Z := if 500 <=? status then 8 else if 400 <=? status then 4 else 0.

(** The log entry has the level, the status and the request id of the context that
    the middleware itself was called with. *)
Definition LoggingMiddleware (now : Time) (next : Handler) : Handler := fun r =>
  let requestID := GetRequestID r in
  let run := next (mkRequest (rq_http r) (rq_RequestID r) (Some now)) in
  let rw := foldl lw_op newResponseWriter (rn_ops run) in
  mkRun (lw_ops rw) (rn_late run) (rn_out run)
    (match rn_out run with
     | Returned => [(log_level (lw_statusCode rw), lw_statusCode rw, requestID)]
     | _ => []
     end).

(** ** The handlers ([handlers/health.go], [handlers/websocket.go]) *)

(** [http.Error] *)
Definition http_Error (msg : string) (code : Z) : list WOp :=
  [OpSet "Content-Type" "text/plain; charset=utf-8"; OpSet "X-Content-Type-Options" "nosniff"; OpStatus code; OpWrite (BText msg)].

Definition write_json (code : Z) (j : Json) : list WOp :=
  [OpSet "Content-Type" "application/json"; OpStatus code; OpWrite (BJson j)].

Definition is_GET (r : Request) : bool := String.eqb (h_Method (rq_http r)) "GET".

(** A provider as the handlers see it. *)
Record ProviderView := mkProviderView { pv_impl : ProviderImpl; pv_health : ProviderHealth }.

Section handlers.
Context `{JsonRequest} `{Fmt} `{FmtValue} `{MapRange}.

Definition health_ServeHTTP (now : Time) (r : Request) : list WOp :=
  if negb (is_GET r) then http_Error "Method not allowed" 405
  else write_json 200 (JObject [("status", JString "ok"); ("timestamp", JInt (Unix now))]).

Definition ready_ServeHTTP (now : Time) (healthy : gmap string ProviderView) (r : Request) : list WOp :=
  if negb (is_GET r) then http_Error "Method not allowed" 405
  else
    let healthyCount := Z.of_nat (size healthy) in
    let isReady := 0 <? healthyCount in
    write_json (if isReady then 200 else 503)
      (JObject [("status", JString (if isReady then "ready" else "not_ready"));
                ("providers", JObject [("healthy", JInt healthyCount)]);
                ("timestamp", JInt (Unix now))]).

Definition provider_health (v : ProviderView) : Json :=
  let health := pv_health v in
  JObject [("healthy", JBool (ph_IsHealthy health)); ("last_check", JInt (Unix (ph_LastCheck health)));
           ("last_error", match ph_LastError health with Some e => JString (errorText e) | None => JNull end)].

Definition provider_health_ServeHTTP (healthy : gmap string ProviderView) (r : Request) : list WOp :=
  if negb (is_GET r) then http_Error "Method not allowed" 405
  else
    write_json 200 (JObject [("providers", JObject ((fun '(name, v) => (name, provider_health v)) <$> range healthy))]).

(** [PerformHealthCheck] with the health check of each provider. *)
Definition PerformHealthCheck (check : string -> option GoErr) (healthy : gmap string ProviderView) : gmap string (option GoErr) :=
  map_imap (fun name _ => Some (check name)) healthy.

Definition ws_ServeHTTP (r : Request) : list WOp :=
  [OpSet "Content-Type" "application/json"; OpStatus 501;
   OpWrite (BJson (JObject [("error", JObject [
     ("message", JString "WebSocket support is not implemented in this version"); ("type", JString "not_found");
     ("code", JString "not_implemented")])]))].

(** The events of the chat handler as operations on its writer. *)
Definition event_op (e : Event) : WOp :=
  match e with
  | EHeader k v => OpSet k v
  | EStatus c => OpStatus c
  | EFlush => OpFlush
  | e => OpWrite (BEvent e)
  end.

(** The connection: failing writes, departed clients and clock readings; and
    whether a provider call panics. *)
Record Env := mkEnv {
  en_now : Time;
  en_write_fails : nat -> bool;
  en_client_gone : nat -> bool;
  en_unix : nat -> Z;
  en_panics : bool;
  en_healthy : gmap string ProviderView;
}.

Definition chat_ServeHTTP (env : Env) (r : Request) : list WOp :=
  let conn := mkConn implements_Flusher (en_write_fails env) (en_client_gone env) (en_unix env) in
  event_op <$> handleChatRequest conn (GetRequestID r) (pv_impl <$> en_healthy env) (rq_http r).

(** The routes. *)
Definition mux (env : Env) : Program := fun r =>
  let path := h_Path (rq_http r) in
  if String.eqb path "/v1/chat/completions" then (chat_ServeHTTP env r, en_panics env)
  else if String.eqb path "/health" then (health_ServeHTTP (en_now env) r, false)
  else if String.eqb path "/ready" then (ready_ServeHTTP (en_now env) (en_healthy env) r, false)
  else if String.eqb path "/health/providers" then (provider_health_ServeHTTP (en_healthy env) r, false)
  else if String.eqb path "/v1/chat/completions/ws" then (ws_ServeHTTP r, false)
  else (http_Error "404 page not found" 404, false).

(** ** The server ([server/server.go]) *)

Definition convertCORSConfig (config : ProxyConfig) : CORSConfig :=
  let c := px_CORS config in
  mkCORSConfig (cors_Enabled c) (cors_AllowedOrigins c) (cors_AllowedMethods c) (cors_AllowedHeaders c)
    (cors_ExposedHeaders c) (cors_MaxAge c) (cors_AllowCredentials c).

(** The chain over any handler of the routes. *)
Definition chain (config : ProxyConfig) (schedule : Schedule) (random : option string) (now : Time) (routes : Program) : Handler :=
  let handler := TimeoutMiddleware schedule routes in
  let handler := CORSMiddleware (convertCORSConfig config) handler in
  let handler := RequestIDMiddleware random handler in
  let handler := LoggingMiddleware now handler in
  RecoveryMiddleware handler.

Definition setupRoutes (config : ProxyConfig) (schedule : Schedule) (random : option string) (env : Env) : Handler :=
  chain config schedule random (en_now env) (mux env).

(** [stat] answers whether a file does not exist. *)
Definition configureTLS (not_exist : string -> bool) (security : SecurityConfig) : result string (Z * list Z) :=
  let t := sy_TLS security in
  if String.eqb (tls_CertFile t) "" then Err "TLS cert file not specified"
  else if String.eqb (tls_KeyFile t) "" then Err "TLS key file not specified"
  else if not_exist (tls_CertFile t) then Err ("TLS cert file not found: " +:+ tls_CertFile t)
  else if not_exist (tls_KeyFile t) then Err ("TLS key file not found: " +:+ tls_KeyFile t)
  else Ok (772, [4865; 4866; 4867]).

(** *** Life cycle

    [sv_listening]: the HTTP server accepts connections.  [sv_once]: the function
    of [shutdownOnce] has run. *)
Record Server := mkServer {
  sv_config : ProxyConfig;
  sv_security : SecurityConfig;
  sv_created : bool;
  sv_listening : bool;
  sv_once : bool;
  sv_isRunning : bool;
}.

Definition NewServer (config : ProxyConfig) (security : SecurityConfig) : Server :=
  mkServer config security false false false false.

(** What [Start] does before it waits: the error with which it returns, or that
    it serves. *)
Definition Start (not_exist : string -> bool) (s : Server) : option string * Server :=
  if sv_isRunning s then (Some "server is already running", s)
  else
    let s := mkServer (sv_config s) (sv_security s) true false (sv_once s) true in
    let serve := mkServer (sv_config s) (sv_security s) true true (sv_once s) true in
    if tls_Enabled (sy_TLS (sv_security s)) then
      match configureTLS not_exist (sv_security s) with
      | Err e => (Some ("failed to configure TLS: " +:+ e), s)
      | Ok _ => (None, serve)
      end
    else (None, serve).

(** [http] is the error of the HTTP server's [Shutdown], which stops listening in
    any case. *)
Definition Shutdown (http : option string) (s : Server) : option string * Server :=
  if sv_once s then (None, s)
  else
    let s := mkServer (sv_config s) (sv_security s) (sv_created s) (sv_listening s) true (sv_isRunning s) in
    if negb (sv_isRunning s) then (None, s)
    else
      (if sv_created s then (fun e => "server shutdown error: " +:+ e) <$> http else None,
       mkServer (sv_config s) (sv_security s) (sv_created s) false true false).

(** [ListenAndServe] fails: [Start] returns its error and leaves the flag. *)
Definition serve_failed (s : Server) : Server :=
  mkServer (sv_config s) (sv_security s) (sv_created s) false (sv_once s) (sv_isRunning s).

Definition IsRunning (s : Server) : bool := sv_isRunning s.

Definition Health (healthy : gmap string ProviderView) (s : Server) : option string :=
  if negb (sv_isRunning s) then Some "server is not running"
  else if Z.of_nat (size healthy) =? 0 then Some "no healthy providers available"
  else None.
End handlers.

(** ** What reaches the client *)

(** The status that a list of operations sends, if it sends one. *)
Fixpoint first_status (ops : list WOp) : option Z :=
  match ops with
  | [] => None
  | OpSet _ _ :: ops => first_status ops
  | OpStatus c :: _ => Some c
  | (OpWrite _ | OpFlush) :: _ => Some 200
  end.

Lemma first_status_app a b : first_status (a ++ b) = match first_status a with Some c => Some c | None => first_status b end.
Proof. induction a as [|[] a IH]; cbn; done. Qed.

Lemma send_sent c h code w : wr_sent w = Some (c, h) -> send code w = w.
Proof. unfold send. by intros ->. Qed.

Lemma send_is_sent code w : is_Some (wr_sent (send code w)).
Proof. unfold send. destruct (wr_sent w) eqn:E; [rewrite E|]; by eexists. Qed.

Lemma wop_sent w o x : wr_sent w = Some x -> wr_sent (wop w o) = Some x.
Proof. destruct o, x; cbn; unfold send; by intros E; rewrite ?E. Qed.

Lemma wops_sent ops w x : wr_sent w = Some x -> wr_sent (foldl wop w ops) = Some x.
Proof. revert w. induction ops as [|o ops IH]; intros w Hw; [done|]. apply IH. by apply wop_sent. Qed.

Lemma wops_status ops w :
  wr_sent w = None -> fst <$> wr_sent (foldl wop w ops) = first_status ops.
Proof.
  revert w. induction ops as [|o ops IH]; intros w Hw; [cbn; by rewrite Hw|]. cbn [foldl first_status].
  destruct o; [by apply IH| | |];
    (erewrite wops_sent; [|cbn; unfold send; rewrite Hw; reflexivity]); done.
Qed.

Lemma status_of_first ops : status_of ops = default 200 (first_status ops).
Proof.
  unfold status_of, write_all. pose proof (wops_status ops new_writer eq_refl) as Hs.
  destruct (wr_sent (foldl wop new_writer ops)) as [[c h]|] eqn:E; rewrite <- Hs; cbn.
  - erewrite send_sent by done. by rewrite E.
  - unfold send. by rewrite E.
Qed.

(** A header that no operation sets again has its value when the status line is
    sent. *)
Definition sets (k : string) (o : WOp) : Prop := match o with OpSet k' _ => k' = k | _ => False end.

Definition holds (k : string) (v : option string) (w : Writer) : Prop :=
  wr_header w !! k = v /\ forall c h, wr_sent w = Some (c, h) -> h !! k = v.

Lemma send_holds k v c w : holds k v w -> holds k v (send c w).
Proof.
  unfold send. intros [Hh Hs]. destruct (wr_sent w) eqn:E; [split; [done|by rewrite E]|].
  split; [done|]. by intros c' h [= <- <-].
Qed.

Lemma wop_holds k v w o : ~ sets k o -> holds k v w -> holds k v (wop w o).
Proof.
  intros Hs Hw. destruct o as [k' v'|c|b|]; cbn [wop]; try by apply send_holds.
  destruct Hw as [Hh Hc]. split; [|done]. cbn in *. by rewrite lookup_insert_ne.
Qed.

Lemma wops_holds k v ops w : Forall (fun o => ~ sets k o) ops -> holds k v w -> holds k v (foldl wop w ops).
Proof.
  intros Hf. revert w. induction Hf as [|o ops Ho Hf IH]; intros w Hw; [done|]. apply IH. by apply wop_holds.
Qed.

Lemma headers_of_app k pre ops :
  first_status pre = None -> Forall (fun o => ~ sets k o) ops ->
  headers_of (pre ++ ops) !! k = wr_header (foldl wop new_writer pre) !! k.
Proof.
  intros Hp Ho. unfold headers_of, write_all. rewrite foldl_app.
  assert (Hw : holds k (wr_header (foldl wop new_writer pre) !! k) (foldl wop new_writer pre)).
  { split; [done|]. intros c h Hs. pose proof (wops_status pre new_writer eq_refl) as Hf. by rewrite Hs, Hp in Hf. }
  apply (wops_holds _ _ ops), (send_holds _ _ 200) in Hw; [|done]. destruct Hw as [_ Hw].
  destruct (wr_sent (send 200 _)) as [[c h]|] eqn:E; [by eapply Hw|].
  unfold send in E. by destruct (wr_sent (foldl wop (foldl wop new_writer pre) ops)) eqn:E'; rewrite ?E' in E.
Qed.

(** ** The wrapper of the logging middleware is transparent *)

Lemma lw_transparent ops rw w :
  (lw_written rw = true -> is_Some (wr_sent (foldl wop w (lw_ops rw)))) ->
  foldl wop w (lw_ops (foldl lw_op rw ops)) = foldl wop (foldl wop w (lw_ops rw)) ops.
Proof.
  revert rw. induction ops as [|o ops IH]; intros rw Hw; [done|]. cbn [foldl]. rewrite IH.
  - f_equal. destruct o as [k v|c|b|]; cbn [lw_op lw_ops]; rewrite ?foldl_app; try done.
    + unfold lw_WriteHeader. destruct (lw_written rw) eqn:E; cbn [lw_ops]; [|by rewrite foldl_app].
      destruct (Hw eq_refl) as [[c' h] Hs]. cbn. by erewrite send_sent.
    + unfold lw_WriteHeader. destruct (lw_written rw) eqn:E; cbn [negb lw_ops]; [done|].
      rewrite foldl_app. cbn. by destruct (wr_sent (foldl wop w (lw_ops rw))) as [[? ?]|] eqn:E'; unfold send; rewrite ?E'; cbn; rewrite ?E'.
  - destruct o as [k v|c|b|]; cbn [lw_op lw_ops lw_written]; rewrite ?foldl_app.
    + intros H. destruct (Hw H) as [x Hx]. exists x. cbn. done.
    + unfold lw_WriteHeader. destruct (lw_written rw) eqn:E; [by rewrite E|]. intros _. cbn. rewrite foldl_app. cbn.
      unfold send. destruct (wr_sent (foldl wop w (lw_ops rw))) eqn:E'; [by rewrite E'|]. by eexists.
    + intros _. apply send_is_sent.
    + intros _. apply send_is_sent.
Qed.

Lemma lw_write_all ops : write_all (lw_ops (foldl lw_op newResponseWriter ops)) = write_all ops.
Proof. unfold write_all. by rewrite lw_transparent. Qed.

(** The logged status is the one that was sent. *)
Lemma lw_status ops rw :
  OpFlush ∉ ops ->
  lw_statusCode (foldl lw_op rw ops) =
  if lw_written rw then lw_statusCode rw else default (lw_statusCode rw) (first_status ops).
Proof.
  revert rw. induction ops as [|o ops IH]; intros rw Hf; [by destruct (lw_written rw)|].
  apply not_elem_of_cons in Hf as [Ho Hf]. cbn [foldl]. rewrite IH by done.
  destruct o as [k v|c|b|]; cbn [lw_op lw_statusCode lw_written first_status]; [done| | |done]; unfold lw_WriteHeader;
    destruct (lw_written rw) eqn:E; cbn; rewrite ?E; done.
Qed.

Lemma set_if_no_status c k v : first_status (set_if c k v) = None.
Proof. by destruct c. Qed.

Lemma origin_ops_no_status config origin : first_status (origin_ops config origin) = None.
Proof.
  unfold origin_ops. destruct (_ && _); [|by destruct (contains _ _)].
  by rewrite !first_status_app, !set_if_no_status.
Qed.

(** ** The routes *)

(** An operation that leaves the headers of the middleware alone and does not
    flush. *)
Definition inner_op (o : WOp) : bool :=
  match o with
  | OpSet k _ => negb (String.eqb k "X-Request-ID") && negb (String.eqb k "Access-Control-Allow-Origin")
  | OpFlush => false
  | _ => true
  end.

Section routes.
Context `{JsonRequest} `{Fmt} `{FmtValue} `{MapRange}.

Lemma streamChunks_inner conn model id l n :
  c_flusher conn = false -> Forall (fun e => inner_op (event_op e) = true) (streamChunks conn model id n l).1.
Proof.
  intros Hc. revert n. induction l as [|c l IH]; intros n; cbn [streamChunks]; [done|].
  unfold flush. rewrite Hc. destruct (sc_Error c); [by repeat constructor|].
  destruct (c_write_fails conn n); [done|]. destruct (c_client_gone conn n); [by repeat constructor|].
  specialize (IH (S n)). destruct (streamChunks conn model id (S n) l) as [es d]. cbn. by constructor.
Qed.

Lemma error_reply_inner d : Forall (fun e => inner_op (event_op e) = true) (WriteErrorResponse d).
Proof. by repeat constructor. Qed.

Lemma chat_inner conn id healthy r :
  c_flusher conn = false -> Forall (fun e => inner_op (event_op e) = true) (handleChatRequest conn id healthy r).
Proof.
  intros Hc. unfold handleChatRequest. destruct (negb _); [apply error_reply_inner|].
  destruct (ParseChatCompletionRequest r) as [req|]; [|apply error_reply_inner].
  destruct (cq_Stream req).
  - unfold handleStreamRequest. destruct (selectProviderFromManager _ _) as [p|]; [|apply error_reply_inner].
    unfold flush. rewrite Hc.
    destruct (StreamCompletion p _) as [chunks|]; [|by repeat constructor].
    pose proof (streamChunks_inner conn (cq_Model req) ("chatcmpl-" +:+ id) chunks 0 Hc) as Hs.
    destruct (streamChunks _ _ _ _ _) as [es d]. rewrite !Forall_app. split; [by repeat constructor|].
    split; [done|]. destruct d; by repeat constructor.
  - destruct (selectProviderFromManager _ _) as [p|]; [|apply error_reply_inner].
    destruct (SendCompletion p _); [by repeat constructor|apply error_reply_inner].
Qed.

Lemma mux_inner env r : Forall (fun o => inner_op o = true) (mux env r).1.
Proof.
  unfold mux. repeat case_match; cbn [fst]; try (by repeat constructor).
  - unfold chat_ServeHTTP. apply Forall_fmap. by apply chat_inner.
  - unfold health_ServeHTTP. case_match; by repeat constructor.
  - unfold ready_ServeHTTP. case_match; by repeat constructor.
  - unfold provider_health_ServeHTTP. case_match; by repeat constructor.
Qed.

Lemma inner_ops ops :
  Forall (fun o => inner_op o = true) ops ->
  OpFlush ∉ ops /\ Forall (fun o => ~ sets "X-Request-ID" o) ops /\ Forall (fun o => ~ sets "Access-Control-Allow-Origin" o) ops.
Proof.
  intros Hf. split; [|split].
  - intros Hin. rewrite Forall_forall in Hf. by apply Hf in Hin.
  - eapply Forall_impl; [exact Hf|]. intros [k v| | |] Ho Hs; cbn in *; try done; by subst k.
  - eapply Forall_impl; [exact Hf|]. intros [k v| | |] Ho Hs; cbn in *; try done; by subst k.
Qed.
End routes.

(** ** The whole chain *)

Definition preflight (config : ProxyConfig) (r : Request) : bool :=
  cors_Enabled (px_CORS config) && String.eqb (h_Method (rq_http r)) "OPTIONS".

(** The id of a request: the client's, or a new one. *)
Definition request_id (random : option string) (r : Request) : string :=
  let given := h_Header (rq_http r) "X-Request-ID" in
  if String.eqb given "" then generateRequestID random else given.

(** The request that the routes see. *)
Definition inner_request (random : option string) (now : Time) (r : Request) : Request :=
  mkRequest (rq_http r) (Some (request_id random r)) (Some now).

(** The origin that a response allows. *)
Definition allowed_origin (config : ProxyConfig) (r : Request) : option string :=
  let c := px_CORS config in
  let origin := h_Header (rq_http r) "Origin" in
  if negb (cors_Enabled c) then None
  else if decide (origin <> "" /\ ("*" ∈ cors_AllowedOrigins c \/ origin ∈ cors_AllowedOrigins c)) then Some origin
  else if decide ("*" ∈ cors_AllowedOrigins c) then Some "*" else None.

(** The operations of the routes under a schedule. *)
Definition scheduled (schedule : Schedule) (ops : list WOp) : list WOp :=
  match schedule with
  | HandlerFirst => ops
  | ContextFirst k exceeded turns => take k ops ++ (race turns (timeout_ops exceeded) (drop k ops)).1
  end.

(** What the chain writes, seen through the wrapper. *)
Definition chain_ops (config : ProxyConfig) (schedule : Schedule) (random : option string) (now : Time) (routes : Program) (r : Request)
  : list WOp :=
  [OpSet "X-Request-ID" (request_id random r)] ++
  (if cors_Enabled (px_CORS config) then origin_ops (px_CORS config) (h_Header (rq_http r) "Origin") else []) ++
  (if preflight config r then preflight_ops (px_CORS config)
   else scheduled schedule (routes (inner_request random now r)).1).

Lemma convertCORSConfig_id config : convertCORSConfig config = px_CORS config.
Proof. unfold convertCORSConfig. by destruct (px_CORS config). Qed.

(** The chain in one equation. *)
Lemma chain_eq config schedule random now routes r :
  let run := chain config schedule random now routes r in
  let crashes := negb (preflight config r) && (routes (inner_request random now r)).2 in
  let rw := foldl lw_op newResponseWriter (chain_ops config schedule random now routes r) in
  rn_ops run = lw_ops rw /\ rn_out run = (if crashes then Crashed else Returned) /\
  rn_log run = (if crashes then [] else [(log_level (lw_statusCode rw), lw_statusCode rw, GetRequestID r)]).
Proof.
  unfold chain, RecoveryMiddleware, LoggingMiddleware, RequestIDMiddleware, CORSMiddleware, chain_ops, preflight.
  rewrite convertCORSConfig_id. cbn [rq_http rq_RequestID rq_StartTime].
  unfold inner_request, request_id. set (r' := mkRequest _ _ _).
  unfold TimeoutMiddleware, scheduled. destruct (routes r') as [ops panics]. cbn [fst snd].
  destruct (cors_Enabled (px_CORS config)); cbn [negb andb];
    [destruct (String.eqb (h_Method (rq_http r)) "OPTIONS")|]; cbn;
    (destruct schedule as [|k exceeded turns]; [|destruct (race turns (timeout_ops exceeded) (drop k ops)) eqn:Er; cbn; rewrite ?Er]);
    destruct panics; cbn; done.
Qed.

(** C37: panics.  A handler of the routes that panics ends the process: the recovery
    middleware, which answers 500 when a handler panics in its own goroutine,
    never gets to see the panic, because the timeout middleware runs the routes in
    a goroutine that nothing guards.  Only a preflight request, which does not
    reach the routes, is answered. *)
Theorem panics_kill_the_server config schedule random now routes r :
  (rn_out (chain config schedule random now routes r) = Crashed <->
     preflight config r = false /\ (routes (inner_request random now r)).2 = true) /\
  rn_out (chain config schedule random now routes r) <> Panicked /\
  (forall next ops, next r = mkRun ops [] Panicked [] -> first_status ops = None ->
     rn_out (RecoveryMiddleware next r) = Returned /\ status_of (rn_ops (RecoveryMiddleware next r)) = 500).
Proof.
  destruct (chain_eq config schedule random now routes r) as (_ & -> & _). split; [|split].
  - destruct (preflight config r), (routes (inner_request random now r)).2; cbn; naive_solver.
  - by destruct (negb _ && _).
  - intros next ops Hn Hs. unfold RecoveryMiddleware. rewrite Hn. cbn. split; [done|].
    by rewrite status_of_first, first_status_app, Hs.
Qed.

(** Every operation of a race is one of the two sides'. *)
Lemma race_Forall (P : WOp -> Prop) turns mw ops : Forall P mw -> Forall P ops -> Forall P (race turns mw ops).1.
Proof.
  revert mw ops. induction turns as [|[] turns IH]; intros mw ops Hm Ho; cbn [race]; [done| |].
  - destruct Ho as [|o ops Hx Ho]; [by apply IH|]. specialize (IH mw ops Hm Ho).
    destruct (race turns mw ops). by constructor.
  - destruct Hm as [|o mw Hx Hm]; [done|]. specialize (IH mw ops Hm Ho). destruct (race turns mw ops). by constructor.
Qed.

(** The operations of the handler before statement number [m] of the middleware. *)
Fixpoint turns_before (m : nat) (turns : list bool) : nat :=
  match turns with
  | [] => 0
  | true :: turns => S (turns_before m turns)
  | false :: turns => match m with O => 0 | S m => turns_before m turns end
  end.

Lemma race_first_status c mw turns ops :
  first_status (race turns (OpStatus c :: mw) ops).1 = Some (default c (first_status (take (turns_before 0 turns) ops))).
Proof.
  revert ops. induction turns as [|[] turns IH]; intros ops; cbn [race turns_before]; [done| |].
  - destruct ops as [|o ops]; [rewrite IH; by destruct (turns_before 0 turns)|]. specialize (IH ops).
    destruct (race turns _ ops). cbn in *. by destruct o.
  - by destruct (race turns mw ops).
Qed.

Lemma race_second_status k v c mw turns ops :
  first_status (race turns (OpSet k v :: OpStatus c :: mw) ops).1 =
    Some (default c (first_status (take (turns_before 1 turns) ops))).
Proof.
  revert ops. induction turns as [|[] turns IH]; intros ops; cbn [race turns_before]; [done| |].
  - destruct ops as [|o ops]; [rewrite IH; by destruct (turns_before 1 turns)|]. specialize (IH ops).
    destruct (race turns _ ops). cbn in *. by destruct o.
  - pose proof (race_first_status c mw turns ops) as Hr. by destruct (race turns _ ops).
Qed.

(** A middleware that writes nothing. *)
Lemma race_alone turns ops : (race turns [] ops).1 = take (turns_before 0 turns) ops.
Proof.
  revert ops. induction turns as [|[] turns IH]; intros ops; cbn [race turns_before]; [done| |done].
  destruct ops as [|o ops]; [rewrite IH; by destruct (turns_before 0 turns)|]. specialize (IH ops).
  destruct (race turns [] ops). cbn in *. by f_equal.
Qed.

Section server.
Context `{JsonRequest} `{Fmt} `{FmtValue} `{MapRange}.

Lemma scheduled_inner schedule ops :
  Forall (fun o => inner_op o = true) ops -> Forall (fun o => inner_op o = true) (scheduled schedule ops).
Proof.
  intros Hf. destruct schedule as [|k exceeded turns]; cbn; [done|].
  apply Forall_app. split; [by apply Forall_take|]. apply race_Forall; [|by apply Forall_drop].
  by destruct exceeded; repeat constructor.
Qed.

Lemma preflight_inner config : Forall (fun o => inner_op o = true) (preflight_ops config).
Proof. unfold preflight_ops, set_if. repeat case_match; by repeat constructor. Qed.

Lemma tail_inner config schedule random env r :
  Forall (fun o => inner_op o = true)
    (if preflight config r then preflight_ops (px_CORS config)
     else scheduled schedule (mux env (inner_request random (en_now env) r)).1).
Proof. destruct (preflight config r); [apply preflight_inner|]. apply scheduled_inner, mux_inner. Qed.

Lemma origin_ops_noflush config origin : OpFlush ∉ origin_ops config origin.
Proof. unfold origin_ops, set_if. repeat case_match; set_solver. Qed.

Lemma isOriginAllowed_iff origin l : isOriginAllowed origin l = true <-> "*" ∈ l \/ origin ∈ l.
Proof.
  unfold isOriginAllowed. rewrite existsb_exists. setoid_rewrite orb_true_iff. setoid_rewrite String.eqb_eq.
  setoid_rewrite <- list_elem_of_In. naive_solver.
Qed.

Lemma contains_iff l x : contains l x = true <-> x ∈ l.
Proof. unfold contains. rewrite existsb_exists. setoid_rewrite String.eqb_eq. setoid_rewrite <- list_elem_of_In. naive_solver. Qed.

(** The headers after the operations of the middleware. *)
Lemma middleware_headers config random r :
  let w := foldl wop new_writer ([OpSet "X-Request-ID" (request_id random r)] ++
    (if cors_Enabled (px_CORS config) then origin_ops (px_CORS config) (h_Header (rq_http r) "Origin") else [])) in
  wr_header w !! "X-Request-ID" = Some (request_id random r) /\
  wr_header w !! "Access-Control-Allow-Origin" = allowed_origin config r.
Proof.
  unfold allowed_origin. destruct (cors_Enabled (px_CORS config)); cbn [negb]; [|by split].
  unfold origin_ops. destruct (String.eqb_spec (h_Header (rq_http r) "Origin") "") as [He|He]; cbn [negb andb].
  - rewrite decide_False by naive_solver. destruct (contains _ _) eqn:Ec.
    + apply contains_iff in Ec. rewrite decide_True by done. by split.
    + rewrite decide_False by (rewrite <- contains_iff; congruence). by split.
  - destruct (isOriginAllowed _ _) eqn:Ea.
    + apply isOriginAllowed_iff in Ea. rewrite decide_True by done. unfold set_if.
      destruct (cors_AllowCredentials _), (nonempty _); by split.
    + rewrite decide_False by (rewrite <- isOriginAllowed_iff; naive_solver congruence).
      destruct (contains _ _) eqn:Ec.
      * apply contains_iff in Ec. rewrite decide_True by done. by split.
      * rewrite decide_False by (rewrite <- contains_iff; congruence). by split.
Qed.

(** The status of the answer: of the preflight, of the route, or of the timeout when
    the route has not sent one before the middleware does.  When the client has gone
    away it is what the route had sent by the time the middleware returns, or 200. *)
Definition answer_status (config : ProxyConfig) (schedule : Schedule) (route : list WOp) (r : Request) : Z :=
  if preflight config r then 204
  else
    match schedule with
    | HandlerFirst => status_of route
    | ContextFirst k true turns => default 504 (first_status (take (k + turns_before 1 turns) route))
    | ContextFirst k false turns => default 200 (first_status (take (k + turns_before 0 turns) route))
    end.

Lemma chain_status config schedule random now routes r :
  default 200 (first_status (chain_ops config schedule random now routes r)) =
  answer_status config schedule (routes (inner_request random now r)).1 r.
Proof.
  unfold chain_ops, answer_status. rewrite !first_status_app. cbn [first_status].
  replace (first_status (if cors_Enabled (px_CORS config) then _ else [])) with (@None Z)
    by (destruct (cors_Enabled (px_CORS config)); [by rewrite origin_ops_no_status|done]).
  destruct (preflight config r).
  - unfold preflight_ops. by rewrite !first_status_app, !set_if_no_status.
  - destruct schedule as [|k [] turns]; cbn [scheduled timeout_ops]; [by rewrite status_of_first| |];
      rewrite <- take_take_drop, !first_status_app.
    + rewrite race_second_status. by destruct (first_status (take k _)).
    + by rewrite race_alone.
Qed.

Lemma chain_noflush config schedule random env r :
  OpFlush ∉ chain_ops config schedule random (en_now env) (mux env) r.
Proof.
  unfold chain_ops. rewrite !not_elem_of_app. split; [set_solver|]. split.
  - destruct (cors_Enabled _); [apply origin_ops_noflush|set_solver].
  - by apply inner_ops, tail_inner.
Qed.

(** C21: every request is answered.  Unless a provider call panics, the chain returns
    for every schedule of the timeout and every interleaving of the handler, which
    goes on in its goroutine, with the writes of the timeout middleware.  The client
    gets one status: 204 for a preflight request, the status of the route, or 504
    when the deadline passes and the route has not sent one before the middleware
    does.  When the client has gone away instead, the middleware writes nothing and
    the status is what the route had sent by then, or 200.  The response carries the request id and allows
    exactly the configured origins; the log entry has that status, but the
    request id of the context outside, not the one the response carries. *)
Theorem request_answered config schedule random env r :
  en_panics env = false ->
  let run := setupRoutes config schedule random env r in
  let status := answer_status config schedule (mux env (inner_request random (en_now env) r)).1 r in
  rn_out run = Returned /\ status_of (rn_ops run) = status /\
  headers_of (rn_ops run) !! "X-Request-ID" = Some (request_id random r) /\
  headers_of (rn_ops run) !! "Access-Control-Allow-Origin" = allowed_origin config r /\
  rn_log run = [(log_level status, status, GetRequestID r)].
Proof.
  intros Hp. cbv zeta. unfold setupRoutes.
  destruct (chain_eq config schedule random (en_now env) (mux env) r) as (-> & -> & ->).
  assert (Hnp : (mux env (inner_request random (en_now env) r)).2 = false) by (unfold mux; repeat case_match; done).
  rewrite Hnp, andb_false_r, lw_status by apply chain_noflush. cbn [newResponseWriter lw_written lw_statusCode].
  rewrite chain_status. split; [done|]. unfold status_of, headers_of. rewrite lw_write_all.
  split; [|split; [|split; [|done]]].
  - rewrite <- chain_status with (random := random) (now := en_now env) (routes := mux env). apply status_of_first.
  - fold (headers_of (chain_ops config schedule random (en_now env) (mux env) r)). unfold chain_ops. rewrite app_assoc, headers_of_app.
    + apply middleware_headers.
    + rewrite first_status_app. cbn. destruct (cors_Enabled _); [apply origin_ops_no_status|done].
    + by apply inner_ops, tail_inner.
  - fold (headers_of (chain_ops config schedule random (en_now env) (mux env) r)). unfold chain_ops. rewrite app_assoc, headers_of_app.
    + apply middleware_headers.
    + rewrite first_status_app. cbn. destruct (cors_Enabled _); [apply origin_ops_no_status|done].
    + by apply inner_ops, tail_inner.
Qed.
End server.

(** ** The life cycle *)

Inductive ServerOp :=
| SvStart (not_exist : string -> bool)
| SvShutdown (http : option string)
| SvServeFailed.

Definition run_server_op (o : ServerOp) (s : Server) : Server :=
  match o with
  | SvStart ne => (Start ne s).2
  | SvShutdown e => (Shutdown e s).2
  | SvServeFailed => serve_failed s
  end.

(** A server that listens is marked as running.  A shutdown works once: after the
    first call, whether it found the server running or not, no call stops a server
    that is started later. *)
Lemma server_lifecycle ops config security :
  let s := foldl (fun s o => run_server_op o s) (NewServer config security) ops in
  (sv_listening s = true -> IsRunning s = true) /\
  (forall e, sv_once s = true -> Shutdown e s = (None, s)) /\
  (forall e, sv_once s = false -> sv_listening (Shutdown e s).2 = false).
Proof.
  cbv zeta. assert (Hinv : forall s, (sv_listening s = true -> sv_isRunning s = true) ->
    let s' := foldl (fun s o => run_server_op o s) s ops in sv_listening s' = true -> sv_isRunning s' = true).
  { induction ops as [|o ops IH]; intros s Hs; cbn [foldl]; [done|]. apply IH. destruct o as [ne|e|]; cbn [run_server_op].
    - unfold Start. destruct (sv_isRunning s) eqn:E; [done|]. repeat case_match; cbn; done.
    - unfold Shutdown. destruct (sv_once s); [done|]. cbn. destruct (sv_isRunning s) eqn:E; cbn; [done|].
      intros Hl. specialize (Hs Hl). congruence.
    - done. }
  specialize (Hinv (NewServer config security) ltac:(done)). set (s := foldl _ _ _) in *. cbv zeta in Hinv.
  split; [exact Hinv|]. split.
  - intros e Ho. unfold Shutdown. by rewrite Ho.
  - intros e Ho. unfold Shutdown. rewrite Ho. cbn. destruct (sv_isRunning s) eqn:E; cbn; [done|].
    destruct (sv_listening s) eqn:El; [specialize (Hinv eq_refl); congruence|done].
Qed.

(** ** Examples *)

#[local] Instance ex_server_fmt : Fmt := {| Quote s := s; DurationString _ := "" |}.
#[local] Instance ex_server_sprint : FmtValue := ex_sprint.
#[local] Instance ex_server_json : JsonRequest := ex_json_request.
#[local] Instance ex_server_range : MapRange := some_range.

Definition ex_server_config (credentials : bool) : ProxyConfig :=
  mkProxyConfig ":8080" 0 (60 * Second) 0 0 0 (mkCORSConfig true ["*"] ["GET"] [] [] 0 credentials).

Definition ex_env (panics : bool) : Env :=
  mkEnv 7 (fun _ => false) (fun _ => false) (fun _ => 0) panics {[ "openai" := mkProviderView ex_provider (mkProviderHealth true 0 None 0 0 0 0) ]}.

Definition ex_server_request (method path : string) : Request :=
  mkRequest (mkHttpRequest method path (fun h => if String.eqb h "Origin" then "https://evil.example" else "") "" "" (Ok "stream"))
    None None.

Lemma request_answered_witness :
  let run := setupRoutes (ex_server_config false) HandlerFirst (Some "id1") (ex_env false) (ex_server_request "GET" "/ready") in
  rn_out run = Returned /\ status_of (rn_ops run) = 200 /\ headers_of (rn_ops run) !! "X-Request-ID" = Some "id1" /\
  rn_log run = [(0, 200, "")].
Proof.
  destruct (request_answered (ex_server_config false) HandlerFirst (Some "id1") (ex_env false) (ex_server_request "GET" "/ready") eq_refl)
    as (Ho & Hs & Hi & _ & Hl).
  split; [exact Ho|]. split; [rewrite Hs; vm_compute; reflexivity|]. split; [rewrite Hi; vm_compute; reflexivity|].
  rewrite Hl. vm_compute. reflexivity.
Defined.

(** With the wildcard and credentials every site may read credentialed answers. *)
Example wildcard_reflects_origin :
  let run := setupRoutes (ex_server_config true) HandlerFirst (Some "id1") (ex_env false) (ex_server_request "GET" "/ready") in
  headers_of (rn_ops run) !! "Access-Control-Allow-Origin" = Some "https://evil.example" /\
  headers_of (rn_ops run) !! "Access-Control-Allow-Credentials" = Some "true".
Proof. split; vm_compute; reflexivity. Qed.

(** A deadline that passes after a route has sent its status appends the error to
    the body of that answer, and the route goes on writing afterwards. *)
Example timeout_corrupts_answer :
  let run := setupRoutes (ex_server_config false) (ContextFirst 3 true []) (Some "id1") (ex_env false) (ex_server_request "GET" "/health") in
  status_of (rn_ops run) = 200 /\ Z.of_nat (length (wr_body (write_all (rn_ops run)))) = 2 /\
  rn_late (setupRoutes (ex_server_config false) (ContextFirst 1 true []) (Some "id1") (ex_env false) (ex_server_request "GET" "/health")) =
    [OpStatus 200; OpWrite (BJson (JObject [("status", JString "ok"); ("timestamp", JInt (Unix 7))]))].
Proof. repeat split; vm_compute; reflexivity. Qed.

(** The route sends its status between the header and the status of the middleware:
    the client gets the status of the route with the body of the timeout first. *)
Example timeout_race :
  let run := setupRoutes (ex_server_config false) (ContextFirst 1 true [false; true; false; false; true]) (Some "id1") (ex_env false)
    (ex_server_request "GET" "/health") in
  status_of (rn_ops run) = 200 /\ rn_late run = [] /\
  wr_body (write_all (rn_ops run)) =
    [BError timeout_error; BJson (JObject [("status", JString "ok"); ("timestamp", JInt (Unix 7))])].
Proof. repeat split; vm_compute; reflexivity. Qed.

Definition ex_security : SecurityConfig :=
  mkSecurityConfig (mkTLSConfig true "" "" "" [] "" (mkMTLSConfig false "" "" false "")) (sy_Secrets (c_Security zero_config))
    (sy_Authentication (c_Security zero_config)).

(** After a failed start the server counts as running and cannot be started; a
    shutdown before the start makes every later one do nothing. *)
Example lifecycle_traps :
  (let s := NewServer (ex_server_config false) ex_security in
   let '(e1, s) := Start (fun _ => false) s in
   let '(e2, s) := Start (fun _ => false) s in
   (e1, e2, IsRunning s, sv_listening s)) =
    (Some "failed to configure TLS: TLS cert file not specified", Some "server is already running", true, false) /\
  (let s := NewServer (ex_server_config false) (c_Security zero_config) in
   let '(_, s) := Shutdown None s in
   let '(_, s) := Start (fun _ => false) s in
   let '(e, s) := Shutdown None s in
   (e, sv_listening s)) = (None, true).
Proof. split; vm_compute; reflexivity. Qed.
