(* ===== verification/EvidenceExport.v ===== *)
(** * Evidence export and the pruning schedule ([pkg/evidence/export],
    [pkg/evidence/retention/scheduler.go])

    The CSV and JSON exporters, plain and streaming, and the scheduler that runs
    the pruner.  An exporter is a sequence of calls on a writer; what the writer
    answers is an argument that sees the calls made so far.  JSON encoding of
    records, the rendering of times and of decimals are parameters.  The CSV writer
    of the standard library buffers: a write may succeed although the data never
    reaches the file, which only [Flush] followed by [Error] tells. *)

From Stdlib Require Import ZArith Lia.
From stdpp Require Import base option list strings gmap pretty.
From S2P Require Import Prelude Float64 ProviderTypes Evidence Retention EvidenceSqlite LimitsMiddleware PolicyRegistry.
Local Open Scope Z_scope.
Local Open Scope go_scope.

(** [t.Format(time.RFC3339)] and the [%.6f] verb; [%.2f] is [fixed2]. *)
Class RowFmt : Type := { format_RFC3339 : Time -> string; fixed6 : float64 -> string }.

(** ** CSV ([csv.go]) *)

Record CSVExporter := mkCSVExporter { IncludeHeader : bool }.

Definition NewCSVExporter (includeHeader : bool) : CSVExporter := mkCSVExporter includeHeader.

Definition getHeaderRow : list string := [
  "id"; "request_id";
  "request_time"; "policy_eval_time"; "provider_call_time"; "response_time"; "recorded_time";
  "request_hash"; "request_method"; "request_path"; "request_headers";
  "model"; "provider"; "messages"; "system_prompt"; "user_prompt"; "tools_used";
  "estimated_tokens"; "estimated_cost"; "risk_score"; "complexity_score"; "pii_detected"; "pii_types";
  "policy_decision"; "matched_rules"; "block_reason"; "policy_version";
  "response_hash"; "response_status";
  "response_content"; "finish_reason";
  "prompt_tokens"; "completion_tokens"; "total_tokens"; "actual_cost";
  "provider_latency_ms"; "provider_model";
  "user_id"; "api_key"; "ip_address";
  "error"; "error_type";
  "turn_number"; "context_usage"].

Section export.
Context `{Json} `{RowFmt} `{FixedFmt}.

Definition formatTime (t : Time) : string := if IsZero t then "" else format_RFC3339 t.

Definition format_bool (b : bool) : string := if b then "true" else "false".

Definition recordToRow (record : EvidenceRecord) : list string := [
  er_ID record;
  er_RequestID record;
  formatTime (er_RequestTime record);
  formatTime (er_PolicyEvalTime record);
  formatTime (er_ProviderCallTime record);
  formatTime (er_ResponseTime record);
  formatTime (er_RecordedTime record);
  er_RequestHash record;
  er_RequestMethod record;
  er_RequestPath record;
  marshal_map (er_RequestHeaders record);
  er_Model record;
  er_Provider record;
  pretty (er_Messages record);
  er_SystemPrompt record;
  er_UserPrompt record;
  marshal_strings (er_ToolsUsed record);
  pretty (er_EstimatedTokens record);
  fixed6 (er_EstimatedCost record);
  pretty (er_RiskScore record);
  pretty (er_ComplexityScore record);
  format_bool (er_PIIDetected record);
  marshal_strings (er_PIITypes record);
  er_PolicyDecision record;
  marshal_rules (er_MatchedRules record);
  er_BlockReason record;
  er_PolicyVersion record;
  er_ResponseHash record;
  pretty (er_ResponseStatus record);
  er_ResponseContent record;
  er_FinishReason record;
  pretty (er_PromptTokens record);
  pretty (er_CompletionTokens record);
  pretty (er_TotalTokens record);
  fixed6 (er_ActualCost record);
  pretty (Milliseconds (er_ProviderLatency record));
  er_ProviderModel record;
  er_UserID record;
  er_APIKey record;
  er_IPAddress record;
  er_Error record;
  er_ErrorType record;
  pretty (er_TurnNumber record);
  fixed2 (er_ContextUsage record)].

(** The calls on a [csv.Writer]; [cw_write] and [cw_error] are what [Write] and
    [Error] return after the calls so far. *)
Inductive CsvCall := CWrite (row : list string) | CFlush.

Record CsvWriter := mkCsvWriter {
  cw_write : list CsvCall -> option EvidenceErr;
  cw_error : list CsvCall -> option EvidenceErr;
}.

Definition header_calls (e : CSVExporter) : list CsvCall := if IncludeHeader e then [CWrite getHeaderRow] else [].

(** The header row, if any: the calls and the error. *)
Definition write_header (e : CSVExporter) (w : CsvWriter) : option EvidenceErr :=
  if IncludeHeader e then cw_write w [CWrite getHeaderRow] else None.

(** The loop over the records: the calls made and the error. *)
Fixpoint csv_rows (w : CsvWriter) (count : Z) (calls : list CsvCall) (records : list EvidenceRecord)
  : list CsvCall * option EvidenceErr :=
  match records with
  | [] => (calls, None)
  | record :: records =>
      let calls := calls ++ [CWrite (recordToRow record)] in
      match cw_write w calls with
      | Some err => (calls, Some (ExportError "csv" count err))
      | None => csv_rows w count calls records
      end
  end.

(** [Export]: the deferred flush comes last, and nobody asks for its error. *)
Definition csv_Export (records : list EvidenceRecord) (e : CSVExporter) (w : CsvWriter) : list CsvCall * option EvidenceErr :=
  let count := Z.of_nat (length records) in
  match write_header e w with
  | Some err => (header_calls e ++ [CFlush], Some (ExportError "csv" count err))
  | None =>
      let '(calls, err) := csv_rows w count (header_calls e) records in
      (calls ++ [CFlush], err)
  end.

(** What the [select] of a stream receives: a record, the closed channel, or the
    end of the context with its error. *)
Inductive StreamEvent :=
| SRecord (record : EvidenceRecord)
| SClosed
| SDone (err : EvidenceErr).

(** The loop of [ExportStream]; [None] when the events end before the loop does. *)
Fixpoint csv_stream (w : CsvWriter) (recordCount : Z) (calls : list CsvCall) (events : list StreamEvent)
  : option (list CsvCall * option EvidenceErr) :=
  match events with
  | [] => None
  | SDone err :: _ => Some (calls, Some err)
  | SClosed :: _ =>
      let calls := calls ++ [CFlush] in
      match cw_error w calls with
      | Some err => Some (calls, Some (ExportError "csv" recordCount err))
      | None => Some (calls, None)
      end
  | SRecord record :: events =>
      let calls := calls ++ [CWrite (recordToRow record)] in
      match cw_write w calls with
      | Some err => Some (calls, Some (ExportError "csv" recordCount err))
      | None =>
          let recordCount := recordCount + 1 in
          if recordCount mod 100 =? 0 then
            let calls := calls ++ [CFlush] in
            match cw_error w calls with
            | Some err => Some (calls, Some (ExportError "csv" recordCount err))
            | None => csv_stream w recordCount calls events
            end
          else csv_stream w recordCount calls events
      end
  end.

Definition csv_ExportStream (events : list StreamEvent) (e : CSVExporter) (w : CsvWriter)
  : option (list CsvCall * option EvidenceErr) :=
  match write_header e w with
  | Some err => Some (header_calls e ++ [CFlush], Some (ExportError "csv" 0 err))
  | None =>
      match csv_stream w 0 (header_calls e) events with
      | Some (calls, err) => Some (calls ++ [CFlush], err)
      | None => None
      end
  end.

(** The rows among the calls. *)
Definition rows_of (calls : list CsvCall) : list (list string) :=
  omap (fun c => match c with CWrite r => Some r | CFlush => None end) calls.
End export.

(** ** JSON ([json.go]) *)

Record JSONExporter := mkJSONExporter { Pretty : bool }.

Definition NewJSONExporter (pretty : bool) : JSONExporter := mkJSONExporter pretty.

(** [json.Marshal] and [json.MarshalIndent] with prefix and two spaces. *)
Class RecordJson : Type := {
  marshal_record : EvidenceRecord -> result EvidenceErr string;
  marshal_records : list EvidenceRecord -> result EvidenceErr string;
  indent_record : string -> EvidenceRecord -> result EvidenceErr string;
  indent_records : string -> list EvidenceRecord -> result EvidenceErr string;
}.

Section json.
Context `{RecordJson}.

(** The texts written so far decide what the next [w.Write] returns. *)
Definition Sink : Type := list string -> option EvidenceErr.

Definition json_Export (records : list EvidenceRecord) (e : JSONExporter) (w : Sink) : list string * option EvidenceErr :=
  match records with
  | [] => (["[]"], w ["[]"])
  | _ =>
      let count := Z.of_nat (length records) in
      let data :=
        match records with
        | [record] => if Pretty e then indent_record "" record else marshal_record record
        | _ => if Pretty e then indent_records "" records else marshal_records records
        end in
      match data with
      | Err err => ([], Some (ExportError "json" count err))
      | Ok data =>
          match w [data] with
          | Some err => ([data], Some (ExportError "json" count err))
          | None => ([data], None)
          end
      end
  end.

Definition serializeRecord (record : EvidenceRecord) (e : JSONExporter) : result EvidenceErr string :=
  if Pretty e then indent_record "  " record else marshal_record record.

(** Write the texts one by one until one fails. *)
Fixpoint write_texts (w : Sink) (out : list string) (texts : list string) : list string * option EvidenceErr :=
  match texts with
  | [] => (out, None)
  | t :: texts =>
      let out := out ++ [t] in
      match w out with
      | Some err => (out, Some err)
      | None => write_texts w out texts
      end
  end.

(** What precedes a record. *)
Definition separator (first : bool) (e : JSONExporter) : list string :=
  if first then [] else "," :: (if Pretty e then [newline] else []).

Fixpoint json_stream (w : Sink) (e : JSONExporter) (first : bool) (recordCount : Z) (out : list string) (events : list StreamEvent)
  : option (list string * option EvidenceErr) :=
  match events with
  | [] => None
  | SDone err :: _ => Some (out, Some err)
  | SClosed :: _ =>
      match write_texts w out ["]"] with
      | (out, Some err) => Some (out, Some (ExportError "json" recordCount err))
      | (out, None) => Some (out, None)
      end
  | SRecord record :: events =>
      match write_texts w out (separator first e) with
      | (out, Some err) => Some (out, Some (ExportError "json" recordCount err))
      | (out, None) =>
          match serializeRecord record e with
          | Err err => Some (out, Some (ExportError "json" recordCount err))
          | Ok data =>
              match write_texts w out [data] with
              | (out, Some err) => Some (out, Some (ExportError "json" recordCount err))
              | (out, None) => json_stream w e false (recordCount + 1) out events
              end
          end
      end
  end.

Definition json_ExportStream (events : list StreamEvent) (e : JSONExporter) (w : Sink)
  : option (list string * option EvidenceErr) :=
  match write_texts w [] ["["] with
  | (out, Some err) => Some (out, Some (ExportError "json" 0 err))
  | (out, None) => json_stream w e true 0 out events
  end.
End json.

(** ** What an export contains *)

(** The records that a stream receives before it ends. *)
Fixpoint received (events : list StreamEvent) : list EvidenceRecord :=
  match events with
  | SRecord r :: events => r :: received events
  | _ => []
  end.

Section csv_facts.
Context `{Json} `{RowFmt} `{FixedFmt}.

Lemma row_matches_header r : length (recordToRow r) = length getHeaderRow.
Proof. done. Qed.

Lemma rows_of_app a b : rows_of (a ++ b) = rows_of a ++ rows_of b.
Proof. apply omap_app. Qed.

Lemma csv_stream_rows w events : forall n calls calls' err,
  csv_stream w n calls events = Some (calls', err) ->
  (exists rows, rows `prefix_of` (recordToRow <$> received events) /\ rows_of calls' = rows_of calls ++ rows) /\
  (err = None -> rows_of calls' = rows_of calls ++ (recordToRow <$> received events) /\
     cw_error w calls' = None /\ exists c, calls' = c ++ [CFlush]).
Proof.
  induction events as [|[r| |e] events IH]; intros n calls calls' err; cbn [csv_stream received]; [done| | |].
  - destruct (cw_write w _) eqn:Ew.
    { intros [= <- <-]. split; [|done]. exists [recordToRow r]. rewrite rows_of_app. split; [|done]. by exists (recordToRow <$> received events). }
    assert (Hgo : forall n' calls0 calls' err, rows_of calls0 = rows_of calls ++ [recordToRow r] ->
      csv_stream w n' calls0 events = Some (calls', err) ->
      (exists rows, rows `prefix_of` (recordToRow r :: (recordToRow <$> received events)) /\ rows_of calls' = rows_of calls ++ rows) /\
      (err = None -> rows_of calls' = rows_of calls ++ (recordToRow r :: (recordToRow <$> received events)) /\
         cw_error w calls' = None /\ exists c, calls' = c ++ [CFlush])).
    { intros n' calls0 c' e' Hc0 [(rows & Hp & Hr) Hok]%IH. split.
      - exists (recordToRow r :: rows). split; [by apply prefix_cons|]. by rewrite Hr, Hc0, <- app_assoc.
      - intros He. destruct (Hok He) as (Hr' & Hrest). split; [by rewrite Hr', Hc0, <- app_assoc|done]. }
    destruct ((n + 1) mod 100 =? 0); [|apply Hgo; by rewrite rows_of_app].
    destruct (cw_error w _) eqn:Ee; [|apply Hgo; by rewrite !rows_of_app, app_nil_r].
    intros [= <- <-]. split; [|done]. exists [recordToRow r]. rewrite !rows_of_app, app_nil_r. split; [|done].
    by exists (recordToRow <$> received events).
  - destruct (cw_error w _) eqn:Ee; intros [= <- <-]; rewrite rows_of_app, app_nil_r.
    + split; [|done]. exists []. by rewrite app_nil_r.
    + split; [exists []; by rewrite app_nil_r|]. intros _. rewrite app_nil_r. split; [done|]. split; [done|]. by exists calls.
  - intros [= <- <-]. split; [|done]. exists []. split; [apply prefix_nil|by rewrite app_nil_r].
Qed.

(** CSV streams.  Whatever the writer answers, the rows that were handed to it are
    the header and then the rows of the first records received, in order, none
    twice and none left out in between.  The export reports success only when the
    channel was closed, every record has its row, and the writer had no error
    after the rows were flushed. *)
Theorem csv_stream_faithful events e w calls err :
  csv_ExportStream events e w = Some (calls, err) ->
  (exists rows, rows `prefix_of` (recordToRow <$> received events) /\
     rows_of calls = rows_of (header_calls e) ++ rows) /\
  (err = None ->
     rows_of calls = rows_of (header_calls e) ++ (recordToRow <$> received events) /\
     exists flushed, calls = flushed ++ [CFlush; CFlush] /\ cw_error w (flushed ++ [CFlush]) = None).
Proof.
  unfold csv_ExportStream. destruct (write_header e w) as [he|] eqn:Eh.
  - intros [= <- <-]. split; [|done]. exists []. split; [apply prefix_nil|].
    unfold header_calls. by destruct (IncludeHeader e).
  - destruct (csv_stream w 0 (header_calls e) events) as [[c0 err0]|] eqn:E; [|done]. intros [= <- <-].
    apply csv_stream_rows in E as [(rows & Hp & Hr) Hok]. split.
    + exists rows. split; [done|]. by rewrite rows_of_app, Hr, app_nil_r.
    + intros He. destruct (Hok He) as (Hr' & Hc & c & ->). rewrite rows_of_app, Hr', app_nil_r. split; [done|].
      exists c. split; [by rewrite <- app_assoc|done].
Qed.

(** The plain export does not look at the flush: it reports success whenever the
    buffered writes succeed. *)
Lemma csv_export_ignores_flush records e w :
  (forall calls, cw_write w calls = None) -> (csv_Export records e w).2 = None.
Proof.
  intros Hw. unfold csv_Export, write_header. destruct (IncludeHeader e); rewrite ?Hw;
    generalize (header_calls e); generalize (Z.of_nat (length records)).
  - induction records as [|r records IH]; intros n calls; cbn [csv_rows]; [done|]. rewrite Hw. apply IH.
  - induction records as [|r records IH]; intros n calls; cbn [csv_rows]; [done|]. rewrite Hw. apply IH.
Qed.
End csv_facts.

Section json_facts.
Context `{RecordJson}.

Fixpoint concat_texts (l : list string) : string := match l with [] => "" | s :: l => s +:+ concat_texts l end.

Lemma concat_texts_app a b : concat_texts (a ++ b) = concat_texts a +:+ concat_texts b.
Proof. induction a as [|x a IH]; [done|]. cbn. by rewrite IH, <- string_app_assoc. Qed.

Definition open_sink : Sink := fun _ => None.

Lemma write_texts_open out texts : write_texts open_sink out texts = (out ++ texts, None).
Proof. revert out. induction texts as [|t texts IH]; intros out; cbn; [by rewrite app_nil_r|]. by rewrite IH, <- app_assoc. Qed.

(** The elements of an array with their separators. *)
Fixpoint elements_text (sep : string) (first : bool) (l : list string) : string :=
  match l with
  | [] => ""
  | x :: l => (if first then "" else sep) +:+ x +:+ elements_text sep false l
  end.

Lemma json_stream_text e : forall records texts first n out,
  Forall2 (fun r t => serializeRecord r e = Ok t) records texts ->
  exists out', json_stream open_sink e first n out ((SRecord <$> records) ++ [SClosed]) = Some (out', None) /\
    concat_texts out' = concat_texts out +:+ elements_text ("," +:+ (if Pretty e then newline else "")) first texts +:+ "]".
Proof.
  intros records texts first n out Hf. revert first n out. induction Hf as [|r t records texts Hr Hf IH]; intros first n out.
  - cbn. exists (out ++ ["]"]). split; [done|]. by rewrite concat_texts_app.
  - cbn [fmap list_fmap app json_stream elements_text]. rewrite write_texts_open, Hr, write_texts_open.
    destruct (IH false (n + 1) ((out ++ separator first e) ++ [t])) as (out' & -> & Hc). exists out'. split; [done|].
    rewrite Hc, !concat_texts_app. cbn [concat_texts]. rewrite string_app_nil_r.
    assert (Hs : concat_texts (separator first e) = if first then "" else "," +:+ (if Pretty e then newline else "")).
    { unfold separator. destruct first; [done|]. cbn. destruct (Pretty e); [|done]. cbn. by rewrite ?string_app_nil_r. }
    rewrite Hs. rewrite <- !string_app_assoc. done.
Qed.

(** A JSON stream is one array.  When every record can be encoded and the writes
    succeed, the texts written make up the array of the records in order; without
    indentation it is what [Export] writes for the same records, provided
    [json.Marshal] of a slice is the array of its elements and there is not exactly
    one record, which [Export] writes as an object. *)
Theorem json_stream_is_array records texts :
  Forall2 (fun r t => marshal_record r = Ok t) records texts ->
  marshal_records records = Ok ("[" +:+ elements_text "," true texts +:+ "]") ->
  length records <> 1%nat ->
  exists out, json_ExportStream ((SRecord <$> records) ++ [SClosed]) (NewJSONExporter false) open_sink = Some (out, None) /\
    concat_texts out = "[" +:+ elements_text "," true texts +:+ "]" /\
    concat_texts (json_Export records (NewJSONExporter false) open_sink).1 = concat_texts out.
Proof.
  intros Hf Hm Hn. unfold json_ExportStream. rewrite write_texts_open.
  destruct (json_stream_text (NewJSONExporter false) records texts true 0 ["["] Hf) as (out & Ho & Hc).
  exists out. split; [exact Ho|]. cbn [Pretty NewJSONExporter concat_texts] in Hc. rewrite !string_app_nil_r in Hc.
  split; [exact Hc|]. rewrite Hc.
  destruct records as [|r [|r2 records]]; [|done|].
  - by apply Forall2_nil_inv_l in Hf as ->.
  - unfold json_Export. cbn [Pretty NewJSONExporter]. rewrite Hm. cbn [open_sink fst concat_texts]. by rewrite string_app_nil_r.
Qed.
End json_facts.

(** ** The schedule ([scheduler.go])

    The cron library keeps the jobs that were added and runs each of them when the
    schedule fires; stopping it does not remove them. *)
Record Scheduler := mkScheduler {
  sc_PruneSchedule : string;
  sc_jobs : nat;
  sc_running : bool;
}.

Definition NewScheduler (schedule : string) : Scheduler := mkScheduler schedule 0 false.

(** [parse] and [add] are the errors of the cron library. *)
Definition Start `{Fmt} (parse add : string -> option string) (s : Scheduler) : option string * Scheduler :=
  if String.eqb (sc_PruneSchedule s) "" then (None, s)
  else
    match parse (sc_PruneSchedule s) with
    | Some err => (Some ("invalid cron schedule " +:+ Quote (sc_PruneSchedule s) +:+ ": " +:+ err), s)
    | None =>
        match add (sc_PruneSchedule s) with
        | Some err => (Some ("failed to schedule pruning: " +:+ err), s)
        | None => (None, mkScheduler (sc_PruneSchedule s) (S (sc_jobs s)) true)
        end
    end.

Definition Stop (s : Scheduler) : Scheduler :=
  if sc_running s then mkScheduler (sc_PruneSchedule s) (sc_jobs s) false else s.

Definition IsRunning (s : Scheduler) : bool := sc_running s.

Definition NextRun (next : Time) (s : Scheduler) : option Time := match sc_jobs s with O => None | S _ => Some next end.

(** One firing: [runPruning] of every job, on whatever the pruner works on. *)
Definition fire {St : Type} (prune : St -> St) (s : Scheduler) (st : St) : St :=
  if sc_running s then Nat.iter (sc_jobs s) prune st else st.

(** A scheduler that was stopped and started again prunes twice at each firing,
    and once more for every further start. *)
Lemma restarts_multiply_pruning `{Fmt} {St : Type} (prune : St -> St) schedule k st :
  schedule <> "" ->
  let restart s := Stop (Start (fun _ => None) (fun _ => None) s).2 in
  fire prune (Start (fun _ => None) (fun _ => None) (Nat.iter k restart (NewScheduler schedule))).2 st = Nat.iter (S k) prune st.
Proof.
  intros Hs. cbv zeta.
  assert (Hk : forall k, Nat.iter k (fun s => Stop (Start (fun _ => None) (fun _ => None) s).2) (NewScheduler schedule) =
    mkScheduler schedule k false).
  { clear k. intros k. induction k as [|k IH]; [done|]. rewrite Nat.iter_succ, IH. unfold Start. cbn [sc_PruneSchedule].
    by destruct (String.eqb_spec schedule ""). }
  rewrite Hk. unfold Start, fire. cbn [sc_PruneSchedule]. by destruct (String.eqb_spec schedule "").
Qed.

(** ** Examples *)

Definition ex_row_fmt : RowFmt := {| format_RFC3339 _ := "t"; fixed6 _ := "0.000000" |}.
Definition ex_fixed_fmt : FixedFmt := {| fixed2 _ := "0.00" |}.

#[local] Instance CsvCall_eq_dec : EqDecision CsvCall.
Proof. solve_decision. Defined.

(** A writer whose buffer takes everything and whose file is full. *)
Definition full_disk : CsvWriter := mkCsvWriter (fun _ => None) (fun calls => if decide (CFlush ∈ calls) then Some (PlainError "no space left on device") else None).

(** The same failure is lost by the plain export and reported by the stream. *)
Example lost_write_error :
  let e := NewCSVExporter true in
  (csv_Export (H := some_json) (H0 := ex_row_fmt) (H1 := ex_fixed_fmt) [ex_full_record] e full_disk).2 = None /\
  (snd <$> csv_ExportStream (H := some_json) (H0 := ex_row_fmt) (H1 := ex_fixed_fmt) [SRecord ex_full_record; SClosed] e full_disk) =
    Some (Some (ExportError "csv" 1 (PlainError "no space left on device"))).
Proof. split; vm_compute; reflexivity. Qed.

Definition good_writer : CsvWriter := mkCsvWriter (fun _ => None) (fun _ => None).

Lemma csv_stream_faithful_witness :
  exists calls,
    csv_ExportStream (H := some_json) (H0 := ex_row_fmt) (H1 := ex_fixed_fmt) [SRecord ex_full_record; SClosed] (NewCSVExporter true) good_writer =
      Some (calls, None) /\ length (rows_of calls) = 2%nat.
Proof.
  destruct (csv_ExportStream (H := some_json) (H0 := ex_row_fmt) (H1 := ex_fixed_fmt) [SRecord ex_full_record; SClosed] (NewCSVExporter true) good_writer)
    as [[calls err]|] eqn:E; [|by vm_compute in E].
  destruct (csv_stream_faithful (H := some_json) (H0 := ex_row_fmt) (H1 := ex_fixed_fmt) _ _ _ _ _ E) as [_ Hok].
  assert (err = None) as -> by (vm_compute in E; by injection E).
  exists calls. split; [reflexivity|]. destruct (Hok eq_refl) as [-> _]. reflexivity.
Defined.

Definition ex_record_json : RecordJson := {|
  marshal_record r := Ok (er_ID r);
  marshal_records l := Ok ("[" +:+ elements_text "," true (er_ID <$> l) +:+ "]");
  indent_record p r := Ok (p +:+ er_ID r);
  indent_records p l := Ok (p +:+ join_with "," (er_ID <$> l));
|}.

Lemma json_stream_is_array_witness :
  exists out, json_ExportStream (H := ex_record_json) ((SRecord <$> [ex_full_record; ex_full_record]) ++ [SClosed]) (NewJSONExporter false) open_sink =
    Some (out, None) /\ concat_texts out = "[a,a]".
Proof.
  destruct (json_stream_is_array (H := ex_record_json) [ex_full_record; ex_full_record] ["a"; "a"]) as (out & Ho & Hc & _);
    [by repeat constructor|reflexivity|done|]. exists out. split; [exact Ho|]. rewrite Hc. reflexivity.
Defined.
