(* ===== verification/PolicyWatch.v ===== *)
(** * Hot reload of policies ([pkg/policy/manager/watcher.go], [Watch] and [Close]
    of [manager.go], [pkg/policy/engine/source])

    The file watcher with its debouncer, the manager's [Watch] and [Close], and
    the policy sources of the engine.  The watcher is a transition system: the
    goroutine of [Watch], the goroutine that calls [Stop], the goroutines of the
    debounce timers and the users who change files take atomic steps in any order
    ([Act], [step]).  A timer goes through the statements of its function one by
    one: it fires, reads the stop channel, fetches the callback under the mutex
    and runs it.

    The library [fsnotify] is a parameter: the bit of its [Chmod] operation, what
    adding a path answers, and the events it delivers.  That a change of policy
    files below a watched path comes with an event for a policy file is an
    assumption of the step [AChange]; [announces] says which events these are,
    without the filter of the watcher. *)

From Stdlib Require Import ZArith Lia Ascii.
From stdpp Require Import base option list strings gmap.
From S2P Require Import Prelude GoValue Ast PolicyPriority ProxyTypes Paths ProviderTypes PolicyRegistry PolicyLoader PolicyResolver GitSource PolicyManager.
Local Open Scope string_scope.
Local Open Scope list_scope.
Local Open Scope Z_scope.

(** ** [filepath.Base] and [filepath.Walk] *)

Definition BasePath (p : string) : string :=
  if String.eqb p "" then "."
  else match last (List.filter (fun w => negb (String.eqb w "")) (splitSlash p)) with
       | Some w => w
       | None => "/"
       end.

(** What a walk function answers besides its effects. *)
Inductive WalkErr := SkipDir | WalkError (e : PmErr).

Definition entry_isDir (e : WalkEntry) : bool := match e with WEntry _ d _ _ _ => d end.

Section walk.
Context {S : Type}.
(** Path, whether it is a directory, the error of reading it. *)
Variable fn : string -> bool -> option string -> S -> S * option WalkErr.

(** Directory names are read before the function is called on the directory. *)
Fixpoint walk (path : string) (e : WalkEntry) (s : S) : S * option WalkErr :=
  match e with
  | WEntry name isDir _ readErr children =>
      if negb isDir then fn path false None s
      else
        match fn path true readErr s, readErr with
        | (s, None), None =>
            (fix walkChildren (l : list WalkEntry) (s : S) : S * option WalkErr :=
               match l with
               | [] => (s, None)
               | c :: l =>
                   match walk (JoinPath [path; entry_name c]) c s with
                   | (s, None) => walkChildren l s
                   | (s, Some SkipDir) => if entry_isDir c then walkChildren l s else (s, Some SkipDir)
                   | (s, Some err) => (s, Some err)
                   end
               end) children s
        | (s, err1), _ => (s, err1)
        end
  end.

(** [root] is what [os.Lstat] and the reads below it answer. *)
Definition Walk (path : string) (root : result string WalkEntry) (s : S) : S * option PmErr :=
  let '(s, err) := match root with
                   | Err e => fn path false (Some e) s
                   | Ok e => walk path e s
                   end in
  (s, match err with Some (WalkError e) => Some e | _ => None end).
End walk.

(** ** The debouncer *)

(** A timer that was created, by the statement its function is at. *)
Inductive Timer (C : Type) :=
  | Armed (deadline : Time)
  | Started
  | Checked
  | Fetched (cb : C)
  | Finished.
Arguments Armed {C}.
Arguments Started {C}.
Arguments Checked {C}.
Arguments Fetched {C}.
Arguments Finished {C}.

Record Debouncer (C : Type) := mkDebouncer {
  db_interval : Duration;
  db_timer : option nat;
  db_callback : option C;
  db_stopped : bool;
}.
Arguments mkDebouncer {C}.
Arguments db_interval {C}.
Arguments db_timer {C}.
Arguments db_callback {C}.
Arguments db_stopped {C}.

Section debouncer.
Context {C : Type}.
Implicit Type (d : Debouncer C) (ts : list (Timer C)).

Definition NewDebouncer (interval : Duration) : Debouncer C := mkDebouncer interval None None false.

(** [Timer.Stop]: a function that has started is not stopped. *)
Definition stop_timer (t : option nat) ts : list (Timer C) :=
  match t with
  | Some i => match ts !! i with Some (Armed _) => <[i := Finished]> ts | _ => ts end
  | None => ts
  end.

Definition Trigger (now : Time) (cb : C) (w : Debouncer C * list (Timer C)) : Debouncer C * list (Timer C) :=
  let '(d, ts) := w in
  let ts := stop_timer (db_timer d) ts in
  (mkDebouncer (db_interval d) (Some (length ts)) (Some cb) (db_stopped d), ts ++ [Armed (now + db_interval d)]).

(** [None]: the timer is not at this statement. *)
Definition timer_fire (now : Time) (i : nat) ts : option (list (Timer C)) :=
  match ts !! i with
  | Some (Armed deadline) => if deadline <=? now then Some (<[i := Started]> ts) else None
  | _ => None
  end.

Definition timer_check (i : nat) d ts : option (list (Timer C)) :=
  match ts !! i with
  | Some Started => Some (<[i := if db_stopped d then Finished else Checked]> ts)
  | _ => None
  end.

Definition timer_fetch (i : nat) d ts : option (list (Timer C)) :=
  match ts !! i with
  | Some Checked => Some (<[i := match db_callback d with Some cb => Fetched cb | None => Finished end]> ts)
  | _ => None
  end.

Definition timer_run (i : nat) ts : option (C * list (Timer C)) :=
  match ts !! i with
  | Some (Fetched cb) => Some (cb, <[i := Finished]> ts)
  | _ => None
  end.

(** [Stop] closes the channel ([None]: it was closed, a panic) and then, under
    the mutex, stops the timer and forgets the callback. *)
Definition debounce_close d : option (Debouncer C) :=
  if db_stopped d then None else Some (mkDebouncer (db_interval d) (db_timer d) (db_callback d) true).

Definition debounce_clear (w : Debouncer C * list (Timer C)) : Debouncer C * list (Timer C) :=
  let '(d, ts) := w in
  (mkDebouncer (db_interval d) None None (db_stopped d), stop_timer (db_timer d) ts).
End debouncer.

(** ** The file watcher *)

Record FsEvent := mkFsEvent { ev_Name : string; ev_Op : Z }.

Record FileWatcherConfig := mkFileWatcherConfig {
  wc_Path : string;
  wc_DebounceInterval : Duration;
  wc_Extensions : list string;
  wc_FollowSymlinks : bool;
  wc_SkipHidden : bool;
}.

Definition DefaultFileWatcherConfig : FileWatcherConfig :=
  mkFileWatcherConfig "" (100 * 1000000) [".yaml"; ".yml"] true true.

Class FsNotify : Type := {
  fs_Chmod : Z;
  fs_Add : string -> option string;
  fs_Chmod_bit : fs_Chmod <> 0;
}.

(** The events that a change of a policy file brings: a file whose name ends in
    [.yaml] or [.yml], in any case, and does not begin with a dot, and an operation
    without the [Chmod] bit. *)
Definition policy_file (path : string) : bool :=
  let name := List.last (splitSlash path) "" in
  (HasSuffix (ToLower name) ".yaml" || HasSuffix (ToLower name) ".yml") && negb (HasPrefix name ".").

Definition announces `{FsNotify} (e : FsEvent) : bool := policy_file (ev_Name e) && (Z.land (ev_Op e) fs_Chmod =? 0).

(** The fields of [FileWatcher] besides its debouncer: the watched paths and
    whether the library's watcher is closed, [running], and which of [stopCh] and
    [doneCh] are closed. *)
Record FileWatcher := mkFileWatcher {
  fw_config : FileWatcherConfig;
  fw_watched : list string;
  fw_closed : bool;
  fw_running : bool;
  fw_stopCh : bool;
  fw_doneCh : bool;
}.

(** [created] is the error of creating the library's watcher. *)
Definition NewFileWatcher (config : option FileWatcherConfig) (created : option string) :
    result PmErr (FileWatcher * Debouncer FsEvent) :=
  let config := default DefaultFileWatcherConfig config in
  match created with
  | Some e => Err (Wrapped "failed to create fsnotify watcher" (Plain e))
  | None => Ok (mkFileWatcher config [] false false false false, NewDebouncer (wc_DebounceInterval config))
  end.

Section watcher.
Context `{FsNotify}.
Implicit Type (fw : FileWatcher).

Definition set_running (b : bool) fw : FileWatcher :=
  mkFileWatcher (fw_config fw) (fw_watched fw) (fw_closed fw) b (fw_stopCh fw) (fw_doneCh fw).
Definition set_watched (l : list string) fw : FileWatcher :=
  mkFileWatcher (fw_config fw) l (fw_closed fw) (fw_running fw) (fw_stopCh fw) (fw_doneCh fw).
Definition close_stopCh fw : option FileWatcher :=
  if fw_stopCh fw then None
  else Some (mkFileWatcher (fw_config fw) (fw_watched fw) (fw_closed fw) (fw_running fw) true (fw_doneCh fw)).
Definition close_doneCh fw : option FileWatcher :=
  if fw_doneCh fw then None
  else Some (mkFileWatcher (fw_config fw) (fw_watched fw) (fw_closed fw) (fw_running fw) (fw_stopCh fw) true).
Definition close_watcher fw : FileWatcher :=
  mkFileWatcher (fw_config fw) (fw_watched fw) true (fw_running fw) (fw_stopCh fw) (fw_doneCh fw).

Definition watchExtension (cfg : FileWatcherConfig) (ext : string) : bool :=
  existsb (fun validExt => String.eqb ext (ToLower validExt)) (wc_Extensions cfg).

Definition shouldProcessEvent (cfg : FileWatcherConfig) (event : FsEvent) : bool :=
  if Z.land (ev_Op event) fs_Chmod =? fs_Chmod then false
  else if negb (watchExtension cfg (ToLower (Ext (ev_Name event)))) then false
  else if wc_SkipHidden cfg && HasPrefix (BasePath (ev_Name event)) "." then false
  else true.

Definition add_watch (path : string) (watched : list string) : list string * option string :=
  match fs_Add path with Some e => (watched, Some e) | None => (watched ++ [path], None) end.

Definition addDirectoryFn (cfg : FileWatcherConfig) (dir path : string) (isDir : bool) (err : option string)
    (watched : list string) : list string * option WalkErr :=
  match err with
  | Some e => (watched, Some (WalkError (Plain e)))
  | None =>
      if wc_SkipHidden cfg && HasPrefix (BasePath path) "." && negb (String.eqb path dir) then
        (watched, if isDir then Some SkipDir else None)
      else if isDir then
        match add_watch path watched with
        | (watched, Some e) => (watched, Some (WalkError (Wrapped "failed to watch directory" (Plain e))))
        | (watched, None) => (watched, None)
        end
      else (watched, None)
  end.

Definition addDirectory (disk : Disk) (cfg : FileWatcherConfig) (dir : string) (watched : list string) :
    list string * option PmErr :=
  Walk (addDirectoryFn cfg dir) dir (d_walk disk dir) watched.

Definition isDirectory (disk : Disk) (path : string) : result PmErr bool :=
  match d_stat disk path with
  | Err e => Err (default (Plain "") (stat_cause e))
  | Ok info => Ok (fi_isDir info)
  end.

Definition addPath (disk : Disk) (path : string) fw : FileWatcher * option PmErr :=
  match isDirectory disk path with
  | Err e => (fw, Some e)
  | Ok true => let '(l, e) := addDirectory disk (fw_config fw) path (fw_watched fw) in (set_watched l fw, e)
  | Ok false => let '(l, e) := add_watch path (fw_watched fw) in (set_watched l fw, Plain <$> e)
  end.

(** The goroutine of [Watch]: before the call, in the loop, at the two deferred
    statements, returned. *)
Inductive WatchPc := WIdle | WLooping | WLeaving (err : option PmErr) | WClosing (err : option PmErr) | WReturned (err : option PmErr).

Definition Watch_begin (disk : Disk) fw : FileWatcher * WatchPc :=
  if fw_running fw then (fw, WReturned (Some (Plain "watcher already running")))
  else
    match addPath disk (wc_Path (fw_config fw)) (set_running true fw) with
    | (fw, Some e) => (fw, WLeaving (Some (Wrapped "failed to watch path" e)))
    | (fw, None) => (fw, WLooping)
    end.

(** The goroutine of [Stop]. *)
Inductive StopPc := SIdle | SSignal | SWait | SDebounceClose | SDebounceClear | SClose | SDone.

End watcher.

(** ** The transition system *)

(** What the callback of the watcher changes, and what it should achieve. *)
Class Reloads (D T M : Type) : Type := {
  reload : D -> T -> M -> M;
  rl_valid : M -> Prop;
  reflects : D -> M -> Prop;
  reload_valid : forall d t m, rl_valid m -> rl_valid (reload d t m);
  reload_reflects : forall d t m, rl_valid m -> reflects d (reload d t m);
}.

Record Sys (D M : Type) := mkSys {
  sy_now : Time;
  sy_disk : D;
  sy_events : list FsEvent;
  sy_fw : FileWatcher;
  sy_watch : WatchPc;
  sy_stop : StopPc;
  sy_deb : Debouncer FsEvent;
  sy_timers : list (Timer FsEvent);
  sy_cancelled : bool;
  sy_mgr : M;
  sy_reloads : list (Time * FsEvent);
}.
Arguments mkSys {D M}.
Arguments sy_now {D M}.
Arguments sy_disk {D M}.
Arguments sy_events {D M}.
Arguments sy_fw {D M}.
Arguments sy_watch {D M}.
Arguments sy_stop {D M}.
Arguments sy_deb {D M}.
Arguments sy_timers {D M}.
Arguments sy_cancelled {D M}.
Arguments sy_mgr {D M}.
Arguments sy_reloads {D M}.

(** The steps: time passes, files change, the library reports other events; the
    [Watch] goroutine takes an event, an error or a closed channel, sees the
    context or the stop channel, leaves; the timers; cancellation; one statement
    of [Stop]. *)
Inductive Act (D T : Type) :=
  | ATick (d : Z)
  | AChange (disk : D) (evs : list FsEvent)
  | ANoise (evs : list FsEvent)
  | AEvent
  | AError
  | AChanClosed (errors : bool)
  | ACtxDone
  | AStopSeen
  | ALeave
  | ACloseDone
  | AFire (i : nat)
  | ACheck (i : nat)
  | AFetch (i : nat)
  | ARun (i : nat) (t : T)
  | ACancel
  | AStop.
Arguments ATick {D T}.
Arguments AChange {D T}.
Arguments ANoise {D T}.
Arguments AEvent {D T}.
Arguments AError {D T}.
Arguments AChanClosed {D T}.
Arguments ACtxDone {D T}.
Arguments AStopSeen {D T}.
Arguments ALeave {D T}.
Arguments ACloseDone {D T}.
Arguments AFire {D T}.
Arguments ACheck {D T}.
Arguments AFetch {D T}.
Arguments ARun {D T}.
Arguments ACancel {D T}.
Arguments AStop {D T}.

Inductive Outcome (A : Type) := Disabled | Panics | Goes (a : A).
Arguments Disabled {A}.
Arguments Panics {A}.
Arguments Goes {A}.

Section system.
Context `{FsNotify} {D T M : Type} `{!Reloads D T M}.
Implicit Type (s : Sys D M).

Definition with_fw (fw : FileWatcher) s : Sys D M :=
  mkSys (sy_now s) (sy_disk s) (sy_events s) fw (sy_watch s) (sy_stop s) (sy_deb s) (sy_timers s)
    (sy_cancelled s) (sy_mgr s) (sy_reloads s).
Definition with_watch (pc : WatchPc) s : Sys D M :=
  mkSys (sy_now s) (sy_disk s) (sy_events s) (sy_fw s) pc (sy_stop s) (sy_deb s) (sy_timers s)
    (sy_cancelled s) (sy_mgr s) (sy_reloads s).
Definition with_stop (pc : StopPc) s : Sys D M :=
  mkSys (sy_now s) (sy_disk s) (sy_events s) (sy_fw s) (sy_watch s) pc (sy_deb s) (sy_timers s)
    (sy_cancelled s) (sy_mgr s) (sy_reloads s).
Definition with_events (evs : list FsEvent) s : Sys D M :=
  mkSys (sy_now s) (sy_disk s) evs (sy_fw s) (sy_watch s) (sy_stop s) (sy_deb s) (sy_timers s)
    (sy_cancelled s) (sy_mgr s) (sy_reloads s).
Definition with_timers (ts : list (Timer FsEvent)) s : Sys D M :=
  mkSys (sy_now s) (sy_disk s) (sy_events s) (sy_fw s) (sy_watch s) (sy_stop s) (sy_deb s) ts
    (sy_cancelled s) (sy_mgr s) (sy_reloads s).
Definition with_deb (w : Debouncer FsEvent * list (Timer FsEvent)) s : Sys D M :=
  mkSys (sy_now s) (sy_disk s) (sy_events s) (sy_fw s) (sy_watch s) (sy_stop s) (fst w) (snd w)
    (sy_cancelled s) (sy_mgr s) (sy_reloads s).

(** One pass of the loop on an event. *)
Definition take_event (event : FsEvent) (rest : list FsEvent) s : Sys D M :=
  let s := with_events rest s in
  if negb (shouldProcessEvent (fw_config (sy_fw s)) event) then s
  else with_deb (Trigger (sy_now s) event (sy_deb s, sy_timers s)) s.

Definition run_callback (t : T) (event : FsEvent) (ts : list (Timer FsEvent)) s : Sys D M :=
  mkSys (sy_now s) (sy_disk s) (sy_events s) (sy_fw s) (sy_watch s) (sy_stop s) (sy_deb s) ts
    (sy_cancelled s) (reload (sy_disk s) t (sy_mgr s)) (sy_reloads s ++ [(sy_now s, event)]).

Definition Stop_step s : Outcome (Sys D M) :=
  match sy_stop s with
  | SIdle => Goes (with_stop (if fw_running (sy_fw s) then SSignal else SDone) s)
  | SSignal => match close_stopCh (sy_fw s) with
               | Some fw => Goes (with_stop SWait (with_fw fw s))
               | None => Panics
               end
  | SWait => if fw_doneCh (sy_fw s) then Goes (with_stop SDebounceClose s) else Disabled
  | SDebounceClose => match debounce_close (sy_deb s) with
                      | Some d => Goes (with_stop SDebounceClear (with_deb (d, sy_timers s) s))
                      | None => Panics
                      end
  | SDebounceClear => Goes (with_stop SClose (with_deb (debounce_clear (sy_deb s, sy_timers s)) s))
  | SClose => Goes (with_stop SDone (with_fw (close_watcher (sy_fw s)) s))
  | SDone => Disabled
  end.

Definition in_loop s : bool := match sy_watch s with WLooping => true | _ => false end.

Definition when (b : bool) s : Outcome (Sys D M) := if b then Goes s else Disabled.
Definition timers_to (r : option (list (Timer FsEvent))) s : Outcome (Sys D M) :=
  match r with Some ts => Goes (with_timers ts s) | None => Disabled end.

Definition step (a : Act D T) s : Outcome (Sys D M) :=
  match a with
  | ATick d =>
      when (0 <=? d)
        (mkSys (sy_now s + d) (sy_disk s) (sy_events s) (sy_fw s) (sy_watch s) (sy_stop s) (sy_deb s)
           (sy_timers s) (sy_cancelled s) (sy_mgr s) (sy_reloads s))
  | AChange disk evs =>
      when (existsb announces evs)
        (mkSys (sy_now s) disk (sy_events s ++ evs) (sy_fw s) (sy_watch s) (sy_stop s) (sy_deb s)
           (sy_timers s) (sy_cancelled s) (sy_mgr s) (sy_reloads s))
  | ANoise evs => Goes (with_events (sy_events s ++ evs) s)
  | AEvent =>
      match sy_events s with
      | event :: rest => when (in_loop s) (take_event event rest s)
      | [] => Disabled
      end
  | AError => when (in_loop s) s
  | AChanClosed errors =>
      when (in_loop s && fw_closed (sy_fw s))
        (with_watch (WLeaving (Some (Plain (if errors then "watcher errors channel closed"
                                            else "watcher events channel closed")))) s)
  | ACtxDone => when (in_loop s && sy_cancelled s) (with_watch (WLeaving None) s)
  | AStopSeen => when (in_loop s && fw_stopCh (sy_fw s)) (with_watch (WLeaving None) s)
  | ALeave =>
      match sy_watch s with
      | WLeaving e => Goes (with_watch (WClosing e) (with_fw (set_running false (sy_fw s)) s))
      | _ => Disabled
      end
  | ACloseDone =>
      match sy_watch s with
      | WClosing e => match close_doneCh (sy_fw s) with
                      | Some fw => Goes (with_watch (WReturned e) (with_fw fw s))
                      | None => Panics
                      end
      | _ => Disabled
      end
  | AFire i => timers_to (timer_fire (sy_now s) i (sy_timers s)) s
  | ACheck i => timers_to (timer_check i (sy_deb s) (sy_timers s)) s
  | AFetch i => timers_to (timer_fetch i (sy_deb s) (sy_timers s)) s
  | ARun i t => match timer_run i (sy_timers s) with
                | Some (event, ts) => Goes (run_callback t event ts s)
                | None => Disabled
                end
  | ACancel =>
      Goes (mkSys (sy_now s) (sy_disk s) (sy_events s) (sy_fw s) (sy_watch s) (sy_stop s) (sy_deb s)
              (sy_timers s) true (sy_mgr s) (sy_reloads s))
  | AStop => Stop_step s
  end.

Fixpoint steps (acts : list (Act D T)) s : Outcome (Sys D M) :=
  match acts with
  | [] => Goes s
  | a :: acts => match step a s with Goes s => steps acts s | r => r end
  end.
End system.

(** ** [Watch] and [Close] of the manager *)

(** [watchCancel != nil] and whether the context is cancelled. *)
Record WatchState := mkWatchState { ws_started : bool; ws_cancelled : bool }.

Inductive WatchBegun :=
  | BegunErr (e : PmErr)
  | BegunGit (w : Watcher)
  | BegunFile (fw : FileWatcher) (d : Debouncer FsEvent).

Section manager_watch.
Context `{GoGit G}.

(** Up to the wait for the context. *)
Definition manager_Watch (mode filePath : string) (watchEnabled : bool) (git : option (Repository G * Watcher))
    (created : option string) (ws : WatchState) : WatchBegun * WatchState :=
  if ws_started ws then (BegunErr (Plain "watch already started"), ws)
  else
    let ws := mkWatchState true false in
    let file :=
      if negb watchEnabled then (BegunErr (Plain "policy watching is not enabled in configuration"), ws)
      else
        let c := DefaultFileWatcherConfig in
        let watchConfig := mkFileWatcherConfig filePath (wc_DebounceInterval c) (wc_Extensions c)
                             (wc_FollowSymlinks c) (wc_SkipHidden c) in
        match NewFileWatcher (Some watchConfig) created with
        | Err e => (BegunErr (Wrapped "failed to create file watcher" e), ws)
        | Ok (fw, d) => (BegunFile fw d, ws)
        end in
    match git with
    | Some (r, w) =>
        if String.eqb mode "git" then
          match Start r w with
          | (Some e, _) => (BegunErr (Wrapped "failed to start git watcher" e), ws)
          | (None, w) => (BegunGit w, ws)
          end
        else file
    | None => file
    end.

(** [Close]: the error of stopping the git watcher is only logged. *)
Definition manager_Close (git : option Watcher) (ws : WatchState) : option (WatchState * option Watcher) :=
  let ws := if ws_started ws then mkWatchState false true else ws in
  match git with
  | None => Some (ws, None)
  | Some w => match GitSource.Stop w with
              | None => None
              | Some (_, w) => Some (ws, Some w)
              end
  end.

(** The extensions the convergence of the watcher relies on. *)
Lemma manager_watch_extensions mode filePath enabled git created ws fw d ws' :
  manager_Watch mode filePath enabled git created ws = (BegunFile fw d, ws') ->
  wc_Extensions (fw_config fw) = [".yaml"; ".yml"] /\ wc_Path (fw_config fw) = filePath.
Proof. unfold manager_Watch, NewFileWatcher. repeat case_match; intros; by simplify_eq. Qed.
End manager_watch.

(** ** The policy sources of the engine *)

Section file_source.
Variable disk : Disk.
Variable ParseBytes : string -> string -> result string Policy.

Definition with_SourceFile (path : string) (p : Policy) : Policy :=
  mkPolicy (MPLVersion p) (p_Name p) (Version p) (p_Description p) (Author p) (Created p) (Updated p) (p_Tags p)
    (Variables p) (Rules p) (Includes p) path.

Definition source_loadFile (path : string) : result PmErr Policy :=
  match d_read disk path with
  | Err e => Err (Wrapped ("failed to read file " +:+ path) (Plain e))
  | Ok data =>
      match ParseBytes data path with
      | Err e => Err (Wrapped ("failed to parse policy file " +:+ path) (Plain e))
      | Ok policy => Ok (with_SourceFile path policy)
      end
  end.

Definition source_fn (path : string) (isDir : bool) (err : option string) (policies : list Policy) :
    list Policy * option WalkErr :=
  match err with
  | Some e => (policies, Some (WalkError (Plain e)))
  | None =>
      if isDir then (policies, None)
      else if negb (String.eqb (Ext path) ".yaml") && negb (String.eqb (Ext path) ".yml") then (policies, None)
      else match source_loadFile path with
           | Err _ => (policies, None)
           | Ok policy => (policies ++ [policy], None)
           end
  end.

Definition source_loadDirectory (path : string) : result PmErr (list Policy) :=
  match Walk source_fn path (d_walk disk path) [] with
  | (_, Some e) => Err (Wrapped ("failed to walk directory " +:+ path) e)
  | (policies, None) => Ok policies
  end.

Definition source_LoadPolicies (path : string) : result PmErr (list Policy) :=
  match d_stat disk path with
  | Err e => Err (Wrapped ("failed to stat path " +:+ path) (default (Plain "") (stat_cause e)))
  | Ok info =>
      if fi_isDir info then source_loadDirectory path
      else match source_loadFile path with
           | Err e => Err e
           | Ok policy => Ok [policy]
           end
  end.
End file_source.

(** [MemorySource]: [LoadPolicies] copies the slice, [SetPolicies] keeps the
    caller's. *)
Record MemorySource := mkMemorySource { ms_policies : list Policy }.
Definition NewMemorySource (policies : list Policy) : MemorySource := mkMemorySource policies.
Definition memory_LoadPolicies (s : MemorySource) : list Policy := ms_policies s.
Definition SetPolicies (policies : list Policy) (s : MemorySource) : MemorySource := mkMemorySource policies.

(** [Watch] of both sources: no event is ever sent; the channel is closed when
    the context is cancelled. *)
Definition source_Watch (cancelled : bool) : list FsEvent * bool := ([], cancelled).

(** ** Convergence *)

Section convergence.
Context `{FsNotify} {D T M : Type} `{!Reloads D T M}.
Implicit Type (s : Sys D M) (t : Timer FsEvent) (ts : list (Timer FsEvent)).

#[local] Arguments insert : simpl never.

Definition pending t : bool := match t with Finished => false | _ => true end.

(** The watcher runs and nobody has asked it to stop. *)
Definition watching s : Prop :=
  sy_watch s = WLooping /\ sy_stop s = SIdle /\ sy_cancelled s = false /\ fw_stopCh (sy_fw s) = false /\
  fw_closed (sy_fw s) = false /\ wc_Extensions (fw_config (sy_fw s)) = [".yaml"; ".yml"].

(** Right after [Watch] began, with the extensions that the manager configures and
    the files loaded. *)
Definition watch_started s : Prop :=
  watching s /\ sy_events s = [] /\ sy_timers s = [] /\ sy_reloads s = [] /\ db_stopped (sy_deb s) = false /\
  rl_valid (sy_mgr s) /\ reflects (sy_disk s) (sy_mgr s).

(** A run in which nobody stops the watcher. *)
Definition undisturbed (a : Act D T) : Prop := match a with ACancel | AStop => False | _ => True end.

(** Only the debouncer's own timer is armed, and whoever fetches the callback
    finds one. *)
Definition newest_armed (now : Time) (d : Debouncer FsEvent) ts : Prop :=
  (forall i deadline, ts !! i = Some (Armed deadline) -> db_timer d = Some i /\ deadline <= now + db_interval d) /\
  (ts <> [] -> is_Some (db_callback d)).

Definition settled s : Prop := sy_events s = [] /\ Forall (fun t => pending t = false) (sy_timers s).

Definition relevant s (evs : list FsEvent) : nat :=
  length (List.filter (shouldProcessEvent (fw_config (sy_fw s))) evs).

Definition count_pending ts : nat := length (List.filter pending ts).

#[local] Arguments count_pending : simpl never.

(** What is still to come: an event that passes the filter or a pending timer. *)
Definition news s : Prop := (0 < relevant s (sy_events s))%nat \/ (0 < count_pending (sy_timers s))%nat.

Definition watch_inv s : Prop :=
  watching s /\ db_stopped (sy_deb s) = false /\ rl_valid (sy_mgr s) /\
  newest_armed (sy_now s) (sy_deb s) (sy_timers s) /\
  (length (sy_reloads s) + count_pending (sy_timers s) <= length (sy_timers s))%nat /\
  (reflects (sy_disk s) (sy_mgr s) \/ news s).

(** The steps of the program itself, and the passing of time. *)
Definition internal (a : Act D T) : bool :=
  match a with AEvent | AFire _ | ACheck _ | AFetch _ | ARun _ _ => true | _ => false end.
Definition quiet (a : Act D T) : Prop := internal a = true \/ exists d, a = ATick d.

(** The steps an event or a timer can still cause. *)
Definition timer_weight t : nat :=
  match t with Armed _ => 4 | Started => 3 | Checked => 2 | Fetched _ => 1 | Finished => 0 end.
Definition weight s : nat := 5 * length (sy_events s) + sum_list_with timer_weight (sy_timers s).

(** *** Timers *)

Lemma weight_insert ts i t t' :
  ts !! i = Some t -> (sum_list_with timer_weight (<[i := t']> ts) + timer_weight t =
                       sum_list_with timer_weight ts + timer_weight t')%nat.
Proof.
  revert i. induction ts as [|x ts IH]; intros [|i] Hi; try done.
  - injection Hi as ->. change (<[0%nat := t']> (t :: ts)) with (t' :: ts). cbn. lia.
  - specialize (IH i Hi). change (<[S i := t']> (x :: ts)) with (x :: <[i := t']> ts). cbn [sum_list_with]. lia.
Qed.

Lemma pending_insert ts i t t' :
  ts !! i = Some t -> pending t = true -> (count_pending (<[i := t']> ts) + 1 =
                       count_pending ts + (if pending t' then 1 else 0))%nat.
Proof.
  unfold count_pending. revert i. induction ts as [|x ts IH]; intros [|i] Hi Ht; try done.
  - injection Hi as ->. change (<[0%nat := t']> (t :: ts)) with (t' :: ts). cbn. rewrite Ht. destruct (pending t'); cbn; lia.
  - specialize (IH i Hi Ht). change (<[S i := t']> (x :: ts)) with (x :: <[i := t']> ts).
    cbn [List.filter]. destruct (pending x); cbn [length]; lia.
Qed.

Lemma pending_app ts t : count_pending (ts ++ [t]) = (count_pending ts + if pending t then 1 else 0)%nat.
Proof. unfold count_pending. rewrite List.filter_app, length_app. cbn. by destruct (pending t). Qed.

Lemma stop_timer_length (o : option nat) ts : length (stop_timer o ts) = length ts.
Proof. destruct o as [i|]; unfold stop_timer; [|done]. destruct (ts !! i) as [[]|]; by rewrite ?length_insert. Qed.

Lemma stop_timer_weight (o : option nat) ts :
  (sum_list_with timer_weight (stop_timer o ts) <= sum_list_with timer_weight ts)%nat /\
  (count_pending (stop_timer o ts) <= count_pending ts)%nat.
Proof.
  destruct o as [i|]; unfold stop_timer; [|done]. destruct (ts !! i) as [[]|] eqn:E; try done.
  pose proof (weight_insert _ _ _ Finished E). pose proof (pending_insert _ _ _ Finished E eq_refl).
  cbn [pending timer_weight] in *. lia.
Qed.

(** Moving a timer on, not back to armed. *)
Lemma newest_moved now d ts i t' :
  newest_armed now d ts -> (forall x, t' <> Armed x) -> newest_armed now d (<[i := t']> ts).
Proof.
  intros [Ha Hc] Ht. split.
  - intros j dl Hj. destruct (decide (i = j)) as [->|Hne]; [|rewrite list_lookup_insert_ne in Hj; eauto].
    destruct (decide (j < length ts)%nat) as [Hl|Hl].
    + rewrite list_lookup_insert_eq in Hj by done. congruence.
    + rewrite list_insert_ge in Hj by lia. eauto.
  - intros Hne. apply Hc. intros ->. by destruct i.
Qed.

Lemma newest_trigger now cb d ts :
  newest_armed now d ts ->
  let w := Trigger now cb (d, ts) in newest_armed now (fst w) (snd w).
Proof.
  intros [Ha _]. cbn [Trigger fst snd]. split; [|by intros _; eexists]. cbn [db_timer db_interval]. intros i dl Hi. rewrite lookup_app in Hi.
  destruct (stop_timer (db_timer d) ts !! i) as [t|] eqn:E.
  - injection Hi as ->. exfalso. unfold stop_timer in E. destruct (db_timer d) as [j|] eqn:Ej.
    + destruct (ts !! j) as [[]|] eqn:Ets.
      1: { destruct (decide (j = i)) as [->|Hne].
           - rewrite list_lookup_insert_eq in E; [done|]. by eapply lookup_lt_Some.
           - rewrite list_lookup_insert_ne in E by done. destruct (Ha _ _ E). congruence. }
      all: destruct (Ha _ _ E); congruence.
    + by destruct (Ha _ _ E).
  - apply lookup_ge_None_1 in E. destruct (i - length (stop_timer (db_timer d) ts))%nat eqn:Ei; [|done].
    cbn in Hi. injection Hi as <-. split; [f_equal; lia|lia].
Qed.

(** *** One step *)

Lemma lastDot_lower w : ToLower (default "" (lastDot w)) = default "" (lastDot (ToLower w)).
Proof.
  assert (Hdot : forall c r, lastDot (ToLower (String c r)) =
    match lastDot (ToLower r) with Some e => Some e | None => if Ascii.eqb c "."%char then Some (ToLower (String c r)) else None end).
  { intros c r. cbn [ToLower lastDot]. by destruct c as [[] [] [] [] [] [] [] []]. }
  assert (Ho : lastDot (ToLower w) = ToLower <$> lastDot w).
  { induction w as [|c r IH]; [done|]. rewrite Hdot, IH. cbn [lastDot]. destruct (lastDot r); [done|]. by destruct (Ascii.eqb c "."%char). }
  rewrite Ho. by destruct (lastDot w).
Qed.

Lemma lastDot_suffix p u : lastDot p = Some p -> HasSuffix u p = true -> lastDot u = Some p.
Proof.
  intros Hp. induction u as [|c u IH]; cbn [HasSuffix]; intros [He|Hs]%orb_true_iff.
  - apply String.eqb_eq in He. by subst p.
  - done.
  - apply String.eqb_eq in He. by subst p.
  - cbn [lastDot]. by rewrite (IH Hs).
Qed.

(** What a change brings passes the filter. *)
Lemma announced_passes cfg e :
  wc_Extensions cfg = [".yaml"; ".yml"] -> announces e = true -> shouldProcessEvent cfg e = true.
Proof.
  intros Hext [[Hsuf Hhid]%andb_true_iff Hop]%andb_true_iff. unfold shouldProcessEvent.
  apply Z.eqb_eq in Hop. rewrite Hop. pose proof fs_Chmod_bit. destruct (Z.eqb_spec 0 fs_Chmod); [congruence|].
  set (name := List.last (splitSlash (ev_Name e)) "") in *.
  assert (Hx : watchExtension cfg (ToLower (Ext (ev_Name e))) = true).
  { unfold watchExtension, Ext. fold name. rewrite Hext, lastDot_lower.
    apply orb_true_iff in Hsuf as [Hs|Hs].
    - by rewrite (lastDot_suffix ".yaml" _ eq_refl Hs).
    - by rewrite (lastDot_suffix ".yml" _ eq_refl Hs). }
  rewrite Hx. cbn [negb].
  assert (Hb : BasePath (ev_Name e) = name).
  { unfold BasePath. destruct (String.eqb_spec (ev_Name e) "") as [E|_]; [subst name; by rewrite E in Hsuf|].
    destruct (exists_last (l := splitSlash (ev_Name e))) as (l & w & El).
    { destruct (ev_Name e) as [|c p]; [done|]. cbn. destruct (Ascii.eqb c _); [done|]. by destruct (splitSlash p). }
    subst name. rewrite El in *. rewrite List.last_last in *. rewrite List.filter_app. cbn [List.filter].
    destruct (String.eqb_spec w "") as [->|]; [done|]. cbn. by rewrite last_snoc. }
  rewrite Hb. destruct (HasPrefix name "."); [done|]. by rewrite andb_false_r.
Qed.

Lemma relevant_exists s evs :
  wc_Extensions (fw_config (sy_fw s)) = [".yaml"; ".yml"] -> existsb announces evs = true -> (0 < relevant s evs)%nat.
Proof.
  intros Hext (e & Hin & He)%existsb_exists. unfold relevant.
  assert (Hf : In e (List.filter (shouldProcessEvent (fw_config (sy_fw s))) evs))
    by (apply filter_In; split; [done|by apply announced_passes]).
  destruct (List.filter _ evs); [done|]. cbn. lia.
Qed.

(** The invariant after a timer moved on. *)
Lemma inv_timer s i t t' :
  watch_inv s -> sy_timers s !! i = Some t -> pending t = true -> pending t' = true -> (forall x, t' <> Armed x) ->
  watch_inv (with_timers (<[i := t']> (sy_timers s)) s).
Proof.
  intros (Hw & Hst & Hv & Hn & Hl & Hnews) Hi Ht Ht' Hna.
  pose proof (pending_insert _ _ _ t' Hi Ht) as Hp. rewrite Ht' in Hp.
  split_and!; [done..|by apply newest_moved| |].
  - cbn. rewrite length_insert. lia.
  - destruct Hnews as [|[|]]; [by left|right; by left|right; right]. cbn. lia.
Qed.

Lemma inv_event s event rest :
  watch_inv s -> sy_events s = event :: rest -> watch_inv (take_event event rest s).
Proof.
  intros (Hw & Hst & Hv & Hn & Hl & Hnews) Hev. unfold take_event. cbn.
  destruct (shouldProcessEvent _ event) eqn:Ep; cbn [negb].
  - split_and!; try done.
    + by apply newest_trigger.
    + cbn [sy_reloads sy_timers with_deb with_events Trigger fst snd sy_deb].
      rewrite length_app, pending_app, stop_timer_length. cbn [pending length].
      destruct (stop_timer_weight (db_timer (sy_deb s)) (sy_timers s)). lia.
    + right. right. cbn [sy_timers with_deb with_events Trigger fst snd sy_deb]. rewrite pending_app. cbn [pending]. lia.
  - split_and!; try done. destruct Hnews as [|[Hr|]]; [by left|right; left|right; by right].
    unfold relevant in *. rewrite Hev in Hr. cbn in *. by rewrite Ep in Hr.
Qed.

Lemma inv_step a s s' : watch_inv s -> undisturbed a -> step a s = Goes s' -> watch_inv s'.
Proof.
  intros Hinv Hu Hs. pose proof Hinv as ((Hpc & Hstop & Hcan & Hsc & Hcl & Hext) & Hst & Hv & Hn & Hl & Hnews).
  destruct a; cbn in Hs, Hu; try done; unfold when, in_loop, timers_to in Hs; rewrite ?Hpc, ?Hcan, ?Hsc, ?Hcl in Hs; cbn in Hs;
    try done.
  - destruct (0 <=? d) eqn:E; [|done]. injection Hs as <-. split_and!; try done. cbn.
    split; [|by apply Hn]. intros i dl Hi. destruct Hn as [Ha _]. destruct (Ha _ _ Hi). split; [done|lia].
  - destruct (existsb _ _) eqn:E; [|done]. injection Hs as <-. split_and!; try done. right. left. cbn.
    pose proof (relevant_exists s evs Hext E). unfold relevant in *. cbn. rewrite List.filter_app, length_app. lia.
  - injection Hs as <-. split_and!; try done. destruct Hnews as [|[|]]; [by left|right; left|right; by right].
    unfold relevant in *. cbn. rewrite List.filter_app, length_app. lia.
  - destruct (sy_events s) as [|event rest] eqn:E; [done|]. injection Hs as <-. by apply inv_event.
  - injection Hs as <-. done.
  - unfold timer_fire in Hs. destruct (sy_timers s !! i) as [[]|] eqn:E; try done.
    destruct (deadline <=? sy_now s); [|done]. injection Hs as <-. by eapply inv_timer.
  - unfold timer_check in Hs. destruct (sy_timers s !! i) as [[]|] eqn:E; try done. rewrite Hst in Hs. injection Hs as <-.
    by eapply inv_timer.
  - unfold timer_fetch in Hs. destruct (sy_timers s !! i) as [[]|] eqn:E; try done.
    destruct (proj2 Hn) as [cb Hcb]; [by intros Hnil; rewrite Hnil in E|]. rewrite Hcb in Hs. injection Hs as <-.
    by eapply inv_timer.
  - unfold timer_run in Hs. destruct (sy_timers s !! i) as [[]|] eqn:E; try done. injection Hs as <-.
    pose proof (pending_insert _ _ _ Finished E eq_refl) as Hp. cbn in Hp.
    split_and!; try done.
    + by apply reload_valid.
    + by apply newest_moved.
    + cbn. rewrite length_insert, length_app. cbn. lia.
    + left. by apply reload_reflects.
Qed.

Lemma inv_steps acts s s' : watch_inv s -> Forall undisturbed acts -> steps acts s = Goes s' -> watch_inv s'.
Proof.
  intros Hinv Hu. revert s Hinv. induction Hu as [|a acts Ha _ IH]; intros s Hinv Hs; cbn in Hs; [by injection Hs as <-|].
  destruct (step a s) as [| |s1] eqn:E; [done..|]. apply (IH s1); [by eapply inv_step|done].
Qed.

Lemma inv_started s : watch_started s -> watch_inv s.
Proof.
  intros (Hw & Hev & Hts & Hlog & Hst & Hv & Hr). split_and!; try done; [|by rewrite Hts, Hlog|by left].
  rewrite Hts. by split.
Qed.

(** *** Progress *)

Lemma weight_step a s s' :
  internal a = true -> step a s = Goes s' -> (weight s' < weight s)%nat /\ sy_disk s' = sy_disk s.
Proof.
  intros Hi Hs. unfold weight.
  destruct a; try done; cbn in Hs; unfold when, timers_to in Hs.
  - destruct (sy_events s) as [|event rest] eqn:E; [done|]. destruct (in_loop s); [|done]. injection Hs as <-.
    unfold take_event. cbn. destruct (shouldProcessEvent _ _); cbn; [|by split; [lia|]].
    rewrite sum_list_with_app. cbn. split; [|done].
    destruct (stop_timer_weight (db_timer (sy_deb s)) (sy_timers s)). cbn in *. lia.
  - unfold timer_fire in Hs. destruct (sy_timers s !! i) as [[]|] eqn:E; try done.
    destruct (deadline <=? sy_now s); [|done]. injection Hs as <-.
    pose proof (weight_insert _ _ _ Started E). cbn in *. split; [lia|done].
  - unfold timer_check in Hs. destruct (sy_timers s !! i) as [[]|] eqn:E; try done. injection Hs as <-.
    pose proof (weight_insert _ _ _ (if db_stopped (sy_deb s) then Finished else Checked) E) as Hw.
    destruct (db_stopped _); cbn in *; (split; [lia|done]).
  - unfold timer_fetch in Hs. destruct (sy_timers s !! i) as [[]|] eqn:E; try done. injection Hs as <-.
    pose proof (weight_insert _ _ _ (match db_callback (sy_deb s) with Some cb => Fetched cb | None => Finished end) E) as Hw.
    destruct (db_callback _); cbn in *; (split; [lia|done]).
  - unfold timer_run in Hs. destruct (sy_timers s !! i) as [[]|] eqn:E; try done. injection Hs as <-.
    pose proof (weight_insert _ _ _ Finished E). cbn in *. split; [lia|done].
Qed.

Definition tick (d : Z) s : Sys D M :=
  mkSys (sy_now s + d) (sy_disk s) (sy_events s) (sy_fw s) (sy_watch s) (sy_stop s) (sy_deb s)
    (sy_timers s) (sy_cancelled s) (sy_mgr s) (sy_reloads s).

Lemma quiet_steps acts s s' :
  Forall quiet acts -> steps acts s = Goes s' ->
  (length (List.filter internal acts) + weight s' <= weight s)%nat /\ sy_disk s' = sy_disk s.
Proof.
  intros Hq. revert s. induction Hq as [|a acts Ha _ IH]; intros s Hs; cbn [steps] in Hs; [injection Hs as <-; cbn; split; [lia|done]|].
  destruct (step a s) as [| |s1] eqn:E; [done..|]. destruct (IH s1 Hs) as [Hw Hd]. cbn [List.filter].
  destruct Ha as [Hi|[d ->]].
  - destruct (weight_step a s s1 Hi E). rewrite Hi. cbn [length]. split; [lia|congruence].
  - cbn in E. unfold when in E. destruct (0 <=? d); [|done]. injection E as <-. split; [exact Hw|exact Hd].
Qed.

Lemma quiet_undisturbed a : quiet a -> undisturbed a.
Proof. intros [Hi|[d ->]]; [by destruct a|done]. Qed.

(** Nothing more happens by itself, however long one waits. *)
Definition at_rest s : Prop := forall d a, 0 <= d -> internal a = true -> step a (tick d s) = Disabled.

Lemma unsettled s : ~ settled s -> sy_events s <> [] \/ exists i t, sy_timers s !! i = Some t /\ pending t = true.
Proof.
  intros Hns. destruct (sy_events s) as [|e l] eqn:E; [right|by left].
  destruct (decide (Forall (fun t => pending t = false) (sy_timers s))) as [Hf|Hf]; [by destruct Hns|].
  apply not_Forall_Exists in Hf; [|apply _].
  apply Exists_exists in Hf as (t & Hin & Ht). apply list_elem_of_lookup in Hin as [i Hi]. exists i, t. split; [done|].
  destruct (pending t) eqn:Ep; [done|]. by destruct Ht.
Qed.

Lemma progress s (t0 : T) :
  watch_inv s -> ~ settled s ->
  exists d a s', 0 <= d /\ internal a = true /\ step a (tick d s) = Goes s'.
Proof.
  intros ((Hpc & _) & _ & _ & [Ha _] & _) [Hev|(i & t & Hi & Ht)]%unsettled.
  - destruct (sy_events s) as [|event rest] eqn:E; [done|]. exists 0, AEvent. eexists. split_and!; [done..|].
    cbn. rewrite E. unfold when, in_loop. cbn. by rewrite Hpc.
  - destruct t as [dl| | |cb|]; [| | | |done].
    + destruct (Ha _ _ Hi) as [_ Hdl]. exists (Z.max 0 (dl - sy_now s)), (AFire i). eexists. split_and!; [lia|done|].
      cbn. unfold timer_fire. rewrite Hi. replace (dl <=? _) with true by lia. done.
    + exists 0, (ACheck i). eexists. split_and!; [done..|]. cbn. unfold timer_check. by rewrite Hi.
    + exists 0, (AFetch i). eexists. split_and!; [done..|]. cbn. unfold timer_fetch. by rewrite Hi.
    + exists 0, (ARun i t0). eexists. split_and!; [done..|]. cbn. unfold timer_run. by rewrite Hi.
Qed.

Lemma settled_dec s : settled s \/ ~ settled s.
Proof. unfold settled. destruct (sy_events s); [|right; by intros []]. destruct (decide (Forall (fun t => pending t = false) (sy_timers s))); [by left|right; by intros []]. Qed.

Lemma at_rest_settled s (t0 : T) : watch_inv s -> at_rest s -> settled s.
Proof.
  intros Hinv Hr. destruct (settled_dec s) as [|Hns]; [done|].
  destruct (progress s t0 Hinv Hns) as (d & a & s' & Hd & Hi & Hs). by rewrite (Hr d a Hd Hi) in Hs.
Qed.

Lemma settles s (t0 : T) :
  watch_inv s -> exists acts s', Forall quiet acts /\ steps acts s = Goes s' /\ settled s'.
Proof.
  remember (weight s) as n eqn:En. revert s En. induction (lt_wf n) as [n _ IH]; intros s -> Hinv.
  destruct (settled_dec s) as [Hset|Hns]; [by exists [], s|].
  destruct (progress s t0 Hinv Hns) as (d & a & s1 & Hd & Hi & Hs).
  assert (Htick : step (ATick d) s = Goes (tick d s)) by (cbn; unfold when; by replace (0 <=? d) with true by lia).
  destruct (weight_step a _ s1 Hi Hs) as [Hw _].
  assert (Hinv1 : watch_inv s1).
  { eapply (inv_step a); [|by apply quiet_undisturbed; left|done]. by eapply (inv_step (ATick d)). }
  destruct (IH (weight s1) ltac:(done) s1 eq_refl Hinv1) as (acts & s' & Hq & Hst & Hset).
  exists (ATick d :: a :: acts), s'. split_and!; [|cbn [steps]; by rewrite Htick, Hs|done].
  constructor; [right; by eexists|]. by constructor; [left|].
Qed.

Lemma settled_reflects s : watch_inv s -> settled s -> reflects (sy_disk s) (sy_mgr s).
Proof.
  intros (_ & _ & _ & _ & _ & [Hr|[Hn|Hn]]) [Hev Hts]; [done|rewrite Hev in Hn; cbn in Hn; lia|].
  exfalso. unfold count_pending in Hn. destruct (List.filter pending (sy_timers s)) as [|t l] eqn:E; [cbn in Hn; lia|].
  assert (Hin : In t (List.filter pending (sy_timers s))) by (rewrite E; by left).
  apply filter_In in Hin as [Hin Ht]. rewrite Forall_forall in Hts. apply list_elem_of_In in Hin.
  by rewrite (Hts t Hin) in Ht.
Qed.

(** *** How many reloads *)

Definition delivered (cfg : FileWatcherConfig) (a : Act D T) : nat :=
  match a with
  | AChange _ evs | ANoise evs => length (List.filter (shouldProcessEvent cfg) evs)
  | _ => 0
  end.

Lemma trigger_count a s s' :
  watch_inv s -> undisturbed a -> step a s = Goes s' ->
  fw_config (sy_fw s') = fw_config (sy_fw s) /\
  (length (sy_timers s') + relevant s' (sy_events s') =
   length (sy_timers s) + relevant s (sy_events s) + delivered (fw_config (sy_fw s)) a)%nat.
Proof.
  intros ((Hpc & _ & Hcan & Hsc & Hcl & Hext) & _) Hu Hs. unfold relevant.
  destruct a; cbn in Hs, Hu; try done; unfold when, in_loop, timers_to in Hs; rewrite ?Hpc, ?Hcan, ?Hsc, ?Hcl in Hs; cbn in Hs;
    try done; cbn [delivered].
  - destruct (0 <=? d); [|done]. injection Hs as <-. cbn. split; [done|lia].
  - destruct (existsb _ _); [|done]. injection Hs as <-. cbn. rewrite List.filter_app, length_app. split; [done|lia].
  - injection Hs as <-. cbn. rewrite List.filter_app, length_app. split; [done|lia].
  - destruct (sy_events s) as [|event rest]; [done|]. injection Hs as <-. unfold take_event. cbn.
    destruct (shouldProcessEvent _ event); cbn; rewrite ?length_app, ?stop_timer_length; cbn; (split; [done|lia]).
  - injection Hs as <-. split; [done|lia].
  - destruct (timer_fire _ _ _) as [ts|] eqn:E; [|done]. injection Hs as <-. cbn. unfold timer_fire in E.
    destruct (_ !! i) as [[]|]; try done. destruct (_ <=? _); [|done]. injection E as <-. rewrite length_insert. split; [done|lia].
  - destruct (timer_check _ _ _) as [ts|] eqn:E; [|done]. injection Hs as <-. cbn. unfold timer_check in E.
    destruct (_ !! i) as [[]|]; try done. injection E as <-. rewrite length_insert. split; [done|lia].
  - destruct (timer_fetch _ _ _) as [ts|] eqn:E; [|done]. injection Hs as <-. cbn. unfold timer_fetch in E.
    destruct (_ !! i) as [[]|]; try done. injection E as <-. rewrite length_insert. split; [done|lia].
  - destruct (timer_run _ _) as [[e ts]|] eqn:E; [|done]. injection Hs as <-. cbn. unfold timer_run in E.
    destruct (_ !! i) as [[]|]; try done. injection E as <- <-. rewrite length_insert. split; [done|lia].
Qed.

Lemma trigger_counts acts s s' :
  watch_inv s -> Forall undisturbed acts -> steps acts s = Goes s' ->
  (length (sy_timers s') <= length (sy_timers s) + relevant s (sy_events s) +
     sum_list_with (delivered (fw_config (sy_fw s))) acts)%nat.
Proof.
  intros Hinv Hu. revert s Hinv. induction Hu as [|a acts Ha _ IH]; intros s Hinv Hs; cbn [steps] in Hs.
  { injection Hs as <-. lia. }
  destruct (step a s) as [| |s1] eqn:E; [done..|]. destruct (trigger_count a s s1 Hinv Ha E) as [Hc Hn].
  pose proof (IH s1 ltac:(by eapply inv_step) Hs) as IH1. rewrite Hc in IH1. cbn [sum_list_with]. lia.
Qed.

(** While the watcher runs the manager follows the files: when no event and no
    timer is left, the manager reflects the files; every schedule without further
    changes takes a bounded number of steps, and where it cannot go on the manager
    reflects the files; such a schedule exists; and there are at most as many
    reloads as events that passed the filter. *)
Lemma manager_follows acts s0 s (t0 : T) :
  watch_started s0 -> Forall undisturbed acts -> steps acts s0 = Goes s ->
  (settled s -> reflects (sy_disk s) (sy_mgr s)) /\
  (forall acts' s', Forall quiet acts' -> steps acts' s = Goes s' ->
     (length (List.filter internal acts') <= weight s)%nat /\ (at_rest s' -> reflects (sy_disk s) (sy_mgr s'))) /\
  (exists acts' s', Forall quiet acts' /\ steps acts' s = Goes s' /\ settled s' /\ reflects (sy_disk s) (sy_mgr s')) /\
  (length (sy_reloads s) <= sum_list_with (delivered (fw_config (sy_fw s0))) acts)%nat.
Proof.
  intros H0 Hu Hs. pose proof (inv_started s0 H0) as Hinv0. pose proof (inv_steps acts s0 s Hinv0 Hu Hs) as Hinv.
  assert (Hq : forall acts' s', Forall quiet acts' -> steps acts' s = Goes s' -> watch_inv s').
  { intros acts' s' Hq'. apply inv_steps; [done|]. by eapply Forall_impl; [|apply quiet_undisturbed]. }
  split_and!.
  - by apply settled_reflects.
  - intros acts' s' Hq' Hs'. destruct (quiet_steps acts' s s' Hq' Hs') as [Hw Hd]. split; [lia|]. intros Hr.
    rewrite <- Hd. pose proof (Hq _ _ Hq' Hs'). apply settled_reflects; [done|]. by eapply at_rest_settled.
  - destruct (settles s t0 Hinv) as (acts' & s' & Hq' & Hs' & Hset). exists acts', s'. split_and!; [done..|].
    destruct (quiet_steps acts' s s' Hq' Hs') as [_ <-]. apply settled_reflects; [|done]. by eapply Hq.
  - pose proof (trigger_counts acts s0 s Hinv0 Hu Hs) as Hc. destruct Hinv as (_ & _ & _ & _ & Hl & _).
    destruct H0 as (_ & Hev & Hts & _). rewrite Hev, Hts in Hc. cbn in Hc. lia.
Qed.

(** The states of the files that a run goes through. *)
Definition files_seen (acts : list (Act D T)) s : list D :=
  sy_disk s :: omap (fun a => match a with AChange disk _ => Some disk | _ => None end) acts.

Lemma step_files a s s' : step a s = Goes s' -> sy_disk s' = sy_disk s \/ exists evs, a = AChange (sy_disk s') evs.
Proof.
  intros Hs. destruct a; cbn in Hs; unfold when, timers_to, Stop_step in Hs;
    unfold take_event in Hs; repeat case_match; simplify_eq; first [by left|right; by eexists].
Qed.

(** What only reloads can change. *)
Lemma steps_reload (P : M -> Prop) (seen : list D) acts s s' :
  (forall disk, disk ∈ files_seen acts s -> disk ∈ seen) ->
  (forall disk (tl : T) m, disk ∈ seen -> P m -> P (reload disk tl m)) ->
  P (sy_mgr s) -> steps acts s = Goes s' -> P (sy_mgr s').
Proof.
  revert s. induction acts as [|a acts IH]; intros s Hin HP Hm Hs; cbn [steps] in Hs; [by injection Hs as <-|].
  destruct (step a s) as [| |s1] eqn:E; [done..|]. apply (IH s1); [|done| |done].
  - intros disk [->|Hd]%elem_of_cons.
    + apply Hin. destruct (step_files a s s1 E) as [->|[evs ->]]; [left|]. cbn. right. left.
    + apply Hin. right. cbn. destruct a; try exact Hd. by right.
  - assert (Hd : sy_disk s ∈ seen) by (apply Hin; left).
    destruct a; cbn in E; unfold when, timers_to, Stop_step, take_event in E; repeat case_match; simplify_eq;
      first [exact Hm|by apply HP].
Qed.

End convergence.

(** ** The policy manager behind the watcher *)

Section policies.
Context `{MapRange} `{SortSlice} `{PolicyHash} `{Fmt}.
Variable config : PolicyCfg.
Variable loaderConfig : PolicyLoaderConfig.
Variable validatePolicy : Policy -> option PmErr.
Variable base : string.

(** The active policies are those of the files, when the files are acceptable as
    a whole; otherwise the manager reports why. *)
Definition policies_current (disk : Disk) (m : DefaultPolicyManager) : Prop :=
  match accepted config loaderConfig validatePolicy base None disk with
  | Some ps => reg_policies (mg_registry m) = policy_map ps /\ mg_lastLoadError m = None
  | None => is_Some (mg_lastLoadError m)
  end.

(** The callback that [Watch] of the manager hands to the watcher. *)
Definition reload_callback (disk : Disk) (t : LoadTimes) (m : DefaultPolicyManager) : DefaultPolicyManager :=
  match ReloadPolicies config loaderConfig validatePolicy base None disk t m with
  | Some (_, m) => m
  | None => m
  end.

Lemma reload_callback_spec disk t m :
  manager_ok m -> manager_ok (reload_callback disk t m) /\ policies_current disk (reload_callback disk t m) /\
    (accepted config loaderConfig validatePolicy base None disk = None ->
     reg_policies (mg_registry (reload_callback disk t m)) = reg_policies (mg_registry m)).
Proof.
  intros Hm. unfold reload_callback, policies_current.
  destruct (load_step_spec config loaderConfig validatePolicy (OpReload base None disk t) m Hm) as (e & m' & Hs & Hspec).
  pose proof (load_step_ok _ _ _ _ _ _ _ Hm Hs) as Hm'. cbn [load_step] in Hs. rewrite Hs. split; [done|].
  cbn [op_accepted] in Hspec. destruct (accepted _ _ _ _ _ _) as [ps|].
  - by destruct Hspec as (_ & ? & _ & ?).
  - by destruct Hspec as (He & Hreg & _ & ->).
Qed.

Definition manager_reloads : Reloads Disk LoadTimes DefaultPolicyManager := {|
  reload := reload_callback;
  rl_valid := manager_ok;
  reflects := policies_current;
  reload_valid d t m Hm := proj1 (reload_callback_spec d t m Hm);
  reload_reflects d t m Hm := proj1 (proj2 (reload_callback_spec d t m Hm));
|}.
End policies.

Section hot_reload.
Context `{FsNotify} `{MapRange} `{SortSlice} `{PolicyHash} `{Fmt}.
Variable config : PolicyCfg.
Variable loaderConfig : PolicyLoaderConfig.
Variable validatePolicy : Policy -> option PmErr.
Variable base : string.
#[local] Existing Instance manager_reloads.

(** The active policies of [m] are those of [m0], or all those of one state of the
    files that was acceptable as a whole. *)
Definition complete_load (seen : list Disk) (m0 m : DefaultPolicyManager) : Prop :=
  reg_policies (mg_registry m) = reg_policies (mg_registry m0) \/
  exists disk ps, disk ∈ seen /\ accepted config loaderConfig validatePolicy base None disk = Some ps /\
    reg_policies (mg_registry m) = policy_map ps.

Lemma reload_complete seen m0 disk t m :
  disk ∈ seen -> manager_ok m /\ complete_load seen m0 m ->
  manager_ok (reload_callback config loaderConfig validatePolicy base disk t m) /\
  complete_load seen m0 (reload_callback config loaderConfig validatePolicy base disk t m).
Proof using.
  intros Hd [Hm Hc]. destruct (reload_callback_spec config loaderConfig validatePolicy base disk t m Hm) as (Hm' & Hcur & Hno).
  split; [done|]. unfold policies_current in Hcur.
  destruct (accepted config loaderConfig validatePolicy base None disk) as [ps|] eqn:E.
  - right. exists disk, ps. by destruct Hcur.
  - unfold complete_load. by rewrite Hno.
Qed.

End hot_reload.

(** ** Shutdown *)

Section shutdown.
Context `{FsNotify} {D T M : Type} `{!Reloads D T M}.
Implicit Type (s : Sys D M).

Definition is_fetched (t : Timer FsEvent) : bool := match t with Fetched _ => true | _ => false end.
Definition count_fetched (ts : list (Timer FsEvent)) : nat := length (List.filter is_fetched ts).

#[local] Arguments insert : simpl never.
#[local] Arguments count_fetched : simpl never.

Lemma fetched_insert ts i t t' :
  ts !! i = Some t -> (count_fetched (<[i := t']> ts) + (if is_fetched t then 1 else 0) =
                       count_fetched ts + (if is_fetched t' then 1 else 0))%nat.
Proof.
  unfold count_fetched. revert i. induction ts as [|x ts IH]; intros [|i] Hi; try done.
  - injection Hi as ->. change (<[0%nat := t']> (t :: ts)) with (t' :: ts). cbn.
    destruct (is_fetched t), (is_fetched t'); cbn; lia.
  - specialize (IH i Hi). change (<[S i := t']> (x :: ts)) with (x :: <[i := t']> ts). cbn [List.filter].
    destruct (is_fetched x); cbn [length]; lia.
Qed.

(** After the whole of [Debouncer.Stop], with the loop gone. *)
Definition silenced s : Prop :=
  db_stopped (sy_deb s) = true /\ db_callback (sy_deb s) = None /\ in_loop s = false.

Lemma stop_timer_fetched (o : option nat) ts : count_fetched (stop_timer o ts) = count_fetched ts.
Proof.
  destruct o as [i|]; unfold stop_timer; [|done]. destruct (ts !! i) as [[]|] eqn:E; try done.
  pose proof (fetched_insert _ _ _ Finished E). cbn in *. lia.
Qed.

Lemma silenced_step a s s' :
  silenced s -> step a s = Goes s' ->
  silenced s' /\ (length (sy_reloads s') + count_fetched (sy_timers s') <=
                  length (sy_reloads s) + count_fetched (sy_timers s))%nat.
Proof.
  intros (Hst & Hcb & Hl) Hs. destruct a; cbn in Hs; unfold when, timers_to in Hs; rewrite ?Hl in Hs; cbn in Hs; try done.
  - destruct (0 <=? d); [|done]. by injection Hs as <-.
  - destruct (existsb _ _); [|done]. by injection Hs as <-.
  - by injection Hs as <-.
  - by destruct (sy_events s).
  - destruct (sy_watch s) eqn:E; try done. by injection Hs as <-.
  - destruct (sy_watch s) eqn:E; try done. destruct (close_doneCh _); [|done]. by injection Hs as <-.
  - unfold timer_fire in Hs. destruct (sy_timers s !! i) as [[]|] eqn:E; try done. destruct (_ <=? _); [|done].
    injection Hs as <-. pose proof (fetched_insert _ _ _ Started E). cbn in *. split; [done|lia].
  - unfold timer_check in Hs. destruct (sy_timers s !! i) as [[]|] eqn:E; try done. rewrite Hst in Hs.
    injection Hs as <-. pose proof (fetched_insert _ _ _ Finished E). cbn in *. split; [done|lia].
  - unfold timer_fetch in Hs. destruct (sy_timers s !! i) as [[]|] eqn:E; try done. rewrite Hcb in Hs.
    injection Hs as <-. pose proof (fetched_insert _ _ _ Finished E). cbn in *. split; [done|lia].
  - unfold timer_run in Hs. destruct (sy_timers s !! i) as [[]|] eqn:E; try done.
    injection Hs as <-. pose proof (fetched_insert _ _ _ Finished E). cbn in *. rewrite length_app. cbn. split; [done|lia].
  - by injection Hs as <-.
  - unfold Stop_step in Hs. destruct (sy_stop s); try done.
    + by injection Hs as <-.
    + destruct (close_stopCh _); [|done]. by injection Hs as <-.
    + destruct (fw_doneCh _); [|done]. by injection Hs as <-.
    + unfold debounce_close in Hs. by rewrite Hst in Hs.
    + injection Hs as <-. cbn. by rewrite stop_timer_fetched.
    + by injection Hs as <-.
Qed.

(** After a complete [Stop] no timer starts a reload any more: only those that
    had already fetched the callback can still run it. *)
Theorem stopped_debouncer_is_silent acts s s' :
  silenced s -> steps acts s = Goes s' ->
  (length (sy_reloads s') <= length (sy_reloads s) + count_fetched (sy_timers s))%nat.
Proof.
  revert s. induction acts as [|a acts IH]; intros s Hsil Hs; cbn [steps] in Hs; [injection Hs as <-; lia|].
  destruct (step a s) as [| |s1] eqn:E; [done..|]. destruct (silenced_step a s s1 Hsil E) as [Hs1 Hle].
  pose proof (IH s1 Hs1 Hs). lia.
Qed.
End shutdown.

(** ** The engine's file source *)

(** The files below a path in walk order, hidden ones included. *)
Fixpoint tree_files (path : string) (e : WalkEntry) : list string :=
  match e with
  | WEntry _ isDir _ _ children =>
      if isDir then
        (fix go (l : list WalkEntry) : list string :=
           match l with [] => [] | c :: l => tree_files (JoinPath [path; entry_name c]) c ++ go l end) children
      else [path]
  end.

Fixpoint tree_readable (e : WalkEntry) : bool :=
  match e with
  | WEntry _ isDir _ readErr children =>
      negb isDir || (match readErr with None => true | Some _ => false end && forallb tree_readable children)
  end.

(** What the source takes from a file: its policy, if the name and the contents
    allow. *)
Definition source_policy (disk : Disk) (ParseBytes : string -> string -> result string Policy) (path : string) : option Policy :=
  if String.eqb (Ext path) ".yaml" || String.eqb (Ext path) ".yml" then
    match source_loadFile disk ParseBytes path with Ok p => Some p | Err _ => None end
  else None.

Lemma source_fn_file disk ParseBytes path policies :
  source_fn disk ParseBytes path false None policies =
  (policies ++ match source_policy disk ParseBytes path with Some p => [p] | None => [] end, None).
Proof.
  unfold source_fn, source_policy. destruct (String.eqb (Ext path) ".yaml"), (String.eqb (Ext path) ".yml"); cbn;
    try (destruct (source_loadFile _ _ _); by rewrite ?app_nil_r); by rewrite app_nil_r.
Qed.

Lemma source_walk disk ParseBytes e : forall path policies,
  tree_readable e = true ->
  walk (source_fn disk ParseBytes) path e policies =
  (policies ++ omap (source_policy disk ParseBytes) (tree_files path e), None).
Proof.
  induction e as [name isDir isLink readErr children IH] using WalkEntry_nested_ind. intros path policies Hr.
  cbn [walk tree_files]. cbn in Hr. destruct isDir; cbn [negb orb] in *.
  - destruct readErr as [er|]; [done|]. cbn in Hr. cbn [source_fn].
    revert policies Hr. induction IH as [|c l Hc _ IHl]; intros policies Hr; cbn in Hr.
    + cbn. by rewrite app_nil_r.
    + apply andb_true_iff in Hr as [Hrc Hrl]. rewrite Hc by done. rewrite IHl by done.
      by rewrite omap_app, <- app_assoc.
  - rewrite source_fn_file. cbn. by destruct (source_policy _ _ _).
Qed.

(** The file source of the engine takes what it can read: on a readable directory
    tree it succeeds with the policies of exactly the files with the extension
    [.yaml] or [.yml] that parse, in walk order and with their path as source
    file; files that do not parse are dropped without an error (the loader of the
    manager rejects the directory instead). *)
Theorem source_takes_what_parses disk ParseBytes path info e :
  d_stat disk path = Ok info -> fi_isDir info = true -> d_walk disk path = Ok e -> tree_readable e = true ->
  source_LoadPolicies disk ParseBytes path = Ok (omap (source_policy disk ParseBytes) (tree_files path e)).
Proof.
  intros Hst Hd Hw Hr. unfold source_LoadPolicies, source_loadDirectory, Walk. rewrite Hst, Hd, Hw.
  by rewrite source_walk.
Qed.

(** ** Examples *)

#[local] Instance toy_notify : FsNotify := {| fs_Chmod := 16; fs_Add _ := None; fs_Chmod_bit := ltac:(discriminate) |}.

(** A directory with one policy file, whose policy has the given name. *)
Definition one_file (v : string) : Disk :=
  ex_disk {[ "/p/a.yaml" := ex_policy v "1" "/p/a.yaml" ]} ∅ (folder "p" [leaf "a.yaml"]).

Definition file_cfg : PolicyCfg := mkPolicyCfg "file" "/p" true false.
Definition toy_load := LoadPolicies (H := some_range) (H0 := merge_sort_slice) (H1 := ex_hash) (H2 := toy_fmt)
  file_cfg DefaultLoaderConfig all_valid "/p" None.
Definition loaded_manager : DefaultPolicyManager :=
  match toy_load (one_file "one") toy_times (NewManagerState 0) with Some (_, m) => m | None => NewManagerState 0 end.

Definition toy_reloads := manager_reloads (H := some_range) (H0 := merge_sort_slice) (H1 := ex_hash) (H2 := toy_fmt)
  file_cfg DefaultLoaderConfig all_valid "/p".

Definition new_watcher : FileWatcher :=
  mkFileWatcher (mkFileWatcherConfig "/p" (100 * 1000000) [".yaml"; ".yml"] true true) [] false false false false.

Definition watching_sys {D M : Type} (disk : D) (m : M) : Sys D M :=
  let '(fw, pc) := Watch_begin (one_file "one") new_watcher in
  mkSys 0 disk [] fw pc SIdle (NewDebouncer 100000000) [] false m [].

Definition write_event : FsEvent := mkFsEvent "/p/a.yaml" 2.

(** The files change twice in quick succession, which gives one reload. *)
Definition two_changes : list (Act Disk LoadTimes) :=
  [AChange (one_file "two") [write_event]; AEvent; ATick 1000; AChange (one_file "three") [write_event; mkFsEvent "/p/.tmp.yaml" 1];
   AEvent; AEvent; ATick 100000000; AFire 1; ACheck 1; AFetch 1; ARun 1 toy_times].


(** A manager that only remembers the files it loaded. *)
#[local] Instance string_reloads : Reloads string unit string.
Proof.
  refine {| reload d _ _ := d; rl_valid _ := True; reflects d m := d = m |}; done.
Defined.

Definition simple_sys : Sys string string := watching_sys "old" "old".

(** A cancelled context lets the [Watch] goroutine return before the manager
    calls [Stop], which then sees that nothing runs and returns at once: the
    debouncer is not stopped and the library's watcher not closed.  A pending
    timer still reloads the policies afterwards. *)
Example reload_after_shutdown :
  let shut := [AChange "new" [write_event]; AEvent; ACancel; ACtxDone; ALeave; ACloseDone; AStop] in
  match steps shut simple_sys with
  | Goes s => sy_watch s = WReturned None /\ sy_stop s = SDone /\ fw_closed (sy_fw s) = false /\ sy_mgr s = "old" /\
      match steps [ATick 100000000; AFire 0; ACheck 0; AFetch 0; ARun 0 tt] s with
      | Goes s' => sy_mgr s' = "new"
      | _ => False
      end
  | _ => False
  end.
Proof. vm_compute. repeat split. Qed.

(** The complete [Stop] is reached when the manager calls it while the loop still
    runs; then the pending timer does nothing. *)
Lemma stopped_debouncer_is_silent_witness :
  let stop := [AChange "new" [write_event]; AEvent; AStop; AStop; AStopSeen; ALeave; ACloseDone; AStop; AStop; AStop; AStop] in
  exists s, steps stop simple_sys = Goes s /\ sy_stop s = SDone /\
    forall acts s', steps acts s = Goes s' -> sy_reloads s' = [].
Proof.
  intros stop. destruct (steps stop simple_sys) as [| |s] eqn:E; [vm_compute in E; discriminate E..|].
  exists s. split; [reflexivity|].
  assert (Hs : sy_stop s = SDone /\ silenced s /\ (length (sy_reloads s) + count_fetched (sy_timers s) = 0)%nat).
  { assert (Hf : forall P : Sys string string -> Prop, match steps stop simple_sys with Goes x => P x | _ => True end -> P s)
      by (intros P HP; rewrite E in HP; exact HP).
    apply Hf. vm_compute. repeat split. }
  destruct Hs as (Hd & Hsil & Hz). split; [exact Hd|]. intros acts s' Hs.
  pose proof (stopped_debouncer_is_silent acts s s' Hsil Hs) as Hl.
  destruct (sy_reloads s'); [reflexivity|cbn in Hl; lia].
Defined.

(** The callback fetched by an old timer that fired just before a new event is
    the new event's: the reload follows the event at once, without the quiet
    period, and is repeated when the new timer fires. *)
Example quiet_period_missed :
  match steps [AChange "new" [write_event]; AEvent; ATick 100000000; AFire 0; ACheck 0;
               AChange "newer" [mkFsEvent "/p/b.yaml" 2]; AEvent; AFetch 0; ARun 0 tt] simple_sys with
  | Goes s => sy_reloads s = [(100000000, mkFsEvent "/p/b.yaml" 2)] /\ sy_now s = 100000000 /\
      sy_timers s !! 1%nat = Some (Armed 200000000)
  | _ => False
  end.
Proof. vm_compute. repeat split. Qed.

(** [Watch] cannot be called twice on one watcher: the second call closes the
    done channel again. *)
Example second_watch_panics :
  match steps [ACancel; ACtxDone; ALeave; ACloseDone] simple_sys with
  | Goes s =>
      let '(fw, pc) := Watch_begin (one_file "one") (sy_fw s) in
      pc = WLooping /\ steps [ACtxDone; ALeave; ACloseDone] (with_watch pc (with_fw fw s)) = Panics
  | _ => False
  end.
Proof. vm_compute. split; reflexivity. Qed.

(** A policy directory that is a symbolic link is a directory for [os.Stat] but a
    file for the walk: nothing is watched and the engine's source finds no
    policies, both without an error. *)
Example linked_directory_ignored :
  let disk := ex_disk {[ "/p/a.yaml" := ex_policy "a" "1" "/p/a.yaml" ]} ∅ (link "p") in
  isDirectory disk "/p" = Ok true /\
  (let '(fw, pc) := Watch_begin disk new_watcher in pc = WLooping /\ fw_watched fw = []) /\
  source_LoadPolicies disk (fun _ p => Ok (ex_policy "a" "1" p)) "/p" = Ok [].
Proof. vm_compute. repeat split. Qed.

(** An event that combines a write with a change of permissions is dropped. *)
Example combined_event_dropped :
  shouldProcessEvent (fw_config new_watcher) (mkFsEvent "/p/a.yaml" (2 + 16)) = false.
Proof. reflexivity. Qed.

(** A refused [Watch] keeps its context: the manager has to be closed before
    another attempt. *)
Example refused_watch_is_started :
  let '(b, ws) := manager_Watch (G := ToyGit) "file" "/p" false None None (mkWatchState false false) in
  b = BegunErr (Plain "policy watching is not enabled in configuration") /\
  fst (manager_Watch (G := ToyGit) "file" "/p" true None None ws) = BegunErr (Plain "watch already started").
Proof. split; reflexivity. Qed.

(** In git mode both [Close] and the return of [Watch] stop the git watcher: the
    one that comes second reports an error. *)
Example close_makes_watch_fail w :
  w_running w = true -> w_stopClosed w = false ->
  exists w', manager_Close (Some w) (mkWatchState true false) = Some (mkWatchState false true, Some w') /\
    GitSource.Stop w' = Some (Some (Plain "watcher not running"), w').
Proof. intros Hr Hs. unfold manager_Close, GitSource.Stop. rewrite Hr, Hs. cbn. eexists. split; reflexivity. Qed.

Lemma source_takes_what_parses_witness :
  source_LoadPolicies (one_file "x") (fun _ p => Ok (ex_policy "a" "1" p)) "/p" =
    Ok (omap (source_policy (one_file "x") (fun _ p => Ok (ex_policy "a" "1" p))) ["/p/a.yaml"]).
Proof.
  apply (source_takes_what_parses (one_file "x") (fun _ p => Ok (ex_policy "a" "1" p)) "/p" (mkFileInfo false true 0)
    (folder "p" [leaf "a.yaml"])); reflexivity.
Defined.
