(* ===== verification/EngineWatch.v ===== *)
(** * The watching goroutine of the policy engine ([startWatching], [ReloadPolicies]
    and [Close] of [pkg/policy/engine/engine.go])

    The engine is created with a goroutine that receives the events of its policy
    source and reloads; [Close] closes the stop channel and waits for it.  The
    goroutine, callers of [ReloadPolicies], the caller of [Close] and the source take
    atomic steps in any order ([EngineAct], [engine_step]).  A reload is two steps:
    the policies are read from the source without a lock, then installed under it.

    A source is a class ([PolicySource]): what it loads in a state of the world and
    whether its [Watch] fails.  The channel is the list of events that are sent and
    not yet received. *)

From Stdlib Require Import ZArith Lia.
From stdpp Require Import base option list strings.
From S2P Require Import Prelude GoValue Ast PolicyPriority PolicyMatcher PolicyWatch PolicyEngine.
Local Open Scope string_scope.

(** ** Events and sources *)

Definition PolicyEventCreated : string := "created".
Definition PolicyEventModified : string := "modified".
Definition PolicyEventDeleted : string := "deleted".

Record PolicyEvent := mkPolicyEvent { pe_Type : string; pe_Path : string; pe_Error : option string }.

Class PolicySource (W : Type) : Type := {
  src_LoadPolicies : W -> result string (list Policy);
  src_Watch : W -> option string;
}.

#[export] Instance memory_source : PolicySource MemorySource := {
  src_LoadPolicies s := Ok (memory_LoadPolicies s);
  src_Watch _ := None;
}.

(** ** The system *)

(** The goroutine: before [Watch], at the [select], between the two halves of a
    reload, and after its return. *)
Inductive LoopPc := LStarting | LSelecting | LLoaded (loaded : result string (list Policy)) | LReturned.

Inductive ClosePc := COpen | CWaiting | CDone.

Record EngineSys (W : Type) := mkEngineSys {
  en_world : W;
  en_engine : InterpreterEngine;
  en_loop : LoopPc;
  en_events : list PolicyEvent;
  en_eventsClosed : bool;
  en_calls : list (result string (list Policy));
  en_close : ClosePc;
}.
Arguments mkEngineSys {W} _ _ _ _ _ _ _.
Arguments en_world {W} _.
Arguments en_engine {W} _.
Arguments en_loop {W} _.
Arguments en_events {W} _.
Arguments en_eventsClosed {W} _.
Arguments en_calls {W} _.
Arguments en_close {W} _.

(** [EChange] changes what the source holds and sends an event, [ESilent] changes it
    without one; [ECallLoad] and [ECallInstall] are the halves of a reload by a
    caller. *)
Inductive EngineAct (W : Type) :=
| EChange (w : W) (event : PolicyEvent)
| ESilent (w : W)
| ECloseEvents
| EWatch
| EReceive
| EInstall
| ESeeClosed
| ESeeStop
| ECallLoad
| ECallInstall (i : nat)
| EClose
| ECloseReturns.
Arguments EChange {W} _ _.
Arguments ESilent {W} _.
Arguments ECloseEvents {W}.
Arguments EWatch {W}.
Arguments EReceive {W}.
Arguments EInstall {W}.
Arguments ESeeClosed {W}.
Arguments ESeeStop {W}.
Arguments ECallLoad {W}.
Arguments ECallInstall {W} _.
Arguments EClose {W}.
Arguments ECloseReturns {W}.

Section engine_system.
Context `{SortSlice} {W : Type} `{!PolicySource W}.
Implicit Types (s : EngineSys W) (a : EngineAct W).

Definition with_engine (e : InterpreterEngine) (pc : LoopPc) s : EngineSys W :=
  mkEngineSys (en_world s) e pc (en_events s) (en_eventsClosed s) (en_calls s) (en_close s).

Definition with_loop (pc : LoopPc) s : EngineSys W := with_engine (en_engine s) pc s.

(** A closed channel of events delivers what was sent before, then [ok = false]. *)
Definition engine_step a s : PolicyWatch.Outcome (EngineSys W) :=
  match a with
  | EChange w event =>
      if en_eventsClosed s then Panics
      else Goes (mkEngineSys w (en_engine s) (en_loop s) (en_events s ++ [event])%list false (en_calls s) (en_close s))
  | ESilent w =>
      Goes (mkEngineSys w (en_engine s) (en_loop s) (en_events s) (en_eventsClosed s) (en_calls s) (en_close s))
  | ECloseEvents =>
      if en_eventsClosed s then Panics
      else Goes (mkEngineSys (en_world s) (en_engine s) (en_loop s) (en_events s) true (en_calls s) (en_close s))
  | EWatch =>
      match en_loop s with
      | LStarting => Goes (with_loop (match src_Watch (en_world s) with Some _ => LReturned | None => LSelecting end) s)
      | _ => Disabled
      end
  | EReceive =>
      match en_loop s, en_events s with
      | LSelecting, _ :: rest =>
          Goes (mkEngineSys (en_world s) (en_engine s) (LLoaded (src_LoadPolicies (en_world s))) rest (en_eventsClosed s)
                  (en_calls s) (en_close s))
      | _, _ => Disabled
      end
  | EInstall =>
      match en_loop s with
      | LLoaded loaded => Goes (with_engine (handlePolicyEvent loaded (en_engine s)) LSelecting s)
      | _ => Disabled
      end
  | ESeeClosed =>
      match en_loop s, en_events s with
      | LSelecting, [] => if en_eventsClosed s then Goes (with_loop LReturned s) else Disabled
      | _, _ => Disabled
      end
  | ESeeStop =>
      match en_loop s with
      | LSelecting => if stopCh_closed (en_engine s) then Goes (with_loop LReturned s) else Disabled
      | _ => Disabled
      end
  | ECallLoad =>
      Goes (mkEngineSys (en_world s) (en_engine s) (en_loop s) (en_events s) (en_eventsClosed s)
              (en_calls s ++ [src_LoadPolicies (en_world s)])%list (en_close s))
  | ECallInstall i =>
      match en_calls s !! i with
      | Some loaded =>
          Goes (mkEngineSys (en_world s) (snd (ReloadPolicies loaded (en_engine s))) (en_loop s) (en_events s) (en_eventsClosed s)
                  (delete i (en_calls s)) (en_close s))
      | None => Disabled
      end
  | EClose =>
      match Close (en_engine s) with
      | None => Panics
      | Some e => Goes (mkEngineSys (en_world s) e (en_loop s) (en_events s) (en_eventsClosed s) (en_calls s) CWaiting)
      end
  | ECloseReturns =>
      match en_close s, en_loop s with
      | CWaiting, LReturned =>
          Goes (mkEngineSys (en_world s) (en_engine s) LReturned (en_events s) (en_eventsClosed s) (en_calls s) CDone)
      | _, _ => Disabled
      end
  end.

Fixpoint engine_steps (acts : list (EngineAct W)) s : PolicyWatch.Outcome (EngineSys W) :=
  match acts with
  | [] => Goes s
  | a :: acts => match engine_step a s with Goes s => engine_steps acts s | o => o end
  end.

(** A new engine: its policies are loaded and the goroutine is started. *)
Definition start_engine (cfg : option EngineConfig) (w : W) : result string (EngineSys W) :=
  match NewInterpreterEngine cfg (Some (src_LoadPolicies w)) with
  | Err e => Err e
  | Ok e => Ok (mkEngineSys w e LStarting [] false [] COpen)
  end.

(** ** The engine follows its source *)

(** If what the source holds can be loaded, the engine runs exactly that. *)
Definition current (w : W) (e : InterpreterEngine) : Prop :=
  fst (ReloadPolicies (src_LoadPolicies w) e) = None ->
  exists ps, src_LoadPolicies w = Ok ps /\ policies e = NormalizePolicyPriorities ps.

(** Every change is announced, nobody else reloads and nothing is closed. *)
Definition announced a : Prop :=
  match a with ESilent _ | ECloseEvents | ECallLoad | ECallInstall _ | EClose => False | _ => True end.

Definition goroutine a : Prop :=
  match a with EWatch | EReceive | EInstall | ESeeClosed | ESeeStop => True | _ => False end.

Definition follows s : Prop :=
  stopCh_closed (en_engine s) = false /\ en_eventsClosed s = false /\ en_calls s = [] /\ en_close s = COpen /\
  (en_events s = [] ->
   match en_loop s with
   | LStarting | LSelecting => current (en_world s) (en_engine s)
   | LLoaded loaded => loaded = src_LoadPolicies (en_world s)
   | LReturned => True
   end).

Lemma reload_current w e :
  current w (snd (ReloadPolicies (src_LoadPolicies w) e)) /\
  stopCh_closed (snd (ReloadPolicies (src_LoadPolicies w) e)) = stopCh_closed e.
Proof.
  destruct (reload_cases (src_LoadPolicies w) e) as [[err E]|(ps & El & E & _)]; rewrite E; cbn [fst snd].
  - split; [|done]. intros Hn. by rewrite E in Hn.
  - split; [|done]. intros _. by exists ps.
Qed.

Lemma follows_step a s s' : follows s -> announced a -> engine_step a s = Goes s' -> follows s'.
Proof.
  intros (Hst & Hc & Hn & Hcl & Hw) Ha Hs. destruct s as [w e pc evs closed calls cl]. cbn in *. subst closed calls cl.
  destruct a; cbn in Ha, Hs; try done.
  - injection Hs as <-. split_and!; try done. by destruct evs.
  - destruct pc; try done. injection Hs as <-. split_and!; try done. by destruct (src_Watch w).
  - destruct pc, evs; try done. injection Hs as <-. by split_and!.
  - destruct pc; try done. injection Hs as <-. cbn. unfold handlePolicyEvent.
    assert (K : stopCh_closed (snd (ReloadPolicies loaded e)) = false).
    { destruct (reload_cases loaded e) as [[err ->]|(ps & _ & -> & _)]; done. }
    split_and!; try done. cbn. intros He. rewrite (Hw He). apply reload_current.
  - destruct pc, evs; done.
  - destruct pc; try done. by rewrite Hst in Hs.
Qed.

Lemma follows_steps acts s s' :
  follows s -> Forall announced acts -> engine_steps acts s = Goes s' -> follows s'.
Proof.
  intros Hf Ha. revert s Hf. induction Ha as [|a acts Ha _ IH]; intros s Hf Hs; cbn in Hs; [by injection Hs as <-|].
  destruct (engine_step a s) as [| |s1] eqn:E; try done. eapply IH; [|exact Hs]. by eapply follows_step.
Qed.

Lemma follows_start cfg w s : start_engine cfg w = Ok s -> follows s.
Proof.
  unfold start_engine. destruct (NewInterpreterEngine _ _) as [e|] eqn:E; [|done]. intros [= <-].
  unfold NewInterpreterEngine in E. destruct (Validate _); [done|].
  set (e0 := mkEngine _ _ _ _) in E. pose proof (reload_current w e0) as [Hc Hs].
  destruct (ReloadPolicies (src_LoadPolicies w) e0) as [[err|] e1]; [done|]. injection E as <-.
  by split_and!.
Qed.

(** The work left for the goroutine. *)
Definition engine_work s : nat :=
  2 * length (en_events s) + match en_loop s with LStarting | LLoaded _ => 2 | LSelecting => 1 | LReturned => 0 end.

Lemma work_step a s s' : goroutine a -> engine_step a s = Goes s' -> (engine_work s' < engine_work s)%nat.
Proof.
  destruct s as [w e pc evs closed calls cl]. unfold engine_work.
  destruct a; cbn; try done; intros _; destruct pc, evs; try done; try (intros [= <-]; cbn; lia);
    try (destruct (src_Watch w); intros [= <-]; cbn; lia).
  all: destruct closed, (stopCh_closed e); try done; intros [= <-]; cbn; lia.
Qed.

Lemma goroutine_steps acts s s' :
  Forall goroutine acts -> engine_steps acts s = Goes s' -> (length acts + engine_work s' <= engine_work s)%nat.
Proof.
  intros Ha. revert s. induction Ha as [|a acts Ha _ IH]; intros s Hs; cbn in Hs; [injection Hs as <-; cbn [length]; lia|].
  destruct (engine_step a s) as [| |s1] eqn:E; try done. apply work_step in E; [|done]. apply IH in Hs. cbn [length]. lia.
Qed.

(** The goroutine has nothing to do. *)
Definition idle s : Prop := forall a, goroutine a -> engine_step a s = Disabled.

Lemma idle_cases s : idle s -> en_loop s = LReturned \/ (en_loop s = LSelecting /\ en_events s = []).
Proof.
  intros Hi. pose proof (Hi EWatch I) as H1. pose proof (Hi EReceive I) as H2. pose proof (Hi EInstall I) as H3.
  cbn in H1, H2, H3. destruct (en_loop s), (en_events s); try done; auto.
Qed.

(** Watching never fails for a source whose [Watch] succeeds. *)
Lemma stays_up acts s s' :
  (forall w, src_Watch w = None) -> follows s -> en_loop s <> LReturned -> Forall announced acts ->
  engine_steps acts s = Goes s' -> en_loop s' <> LReturned.
Proof.
  intros Hw Hf Hl Ha. revert s Hf Hl. induction Ha as [|a acts Ha _ IH]; intros s Hf Hl Hs; cbn in Hs; [by injection Hs as <-|].
  destruct (engine_step a s) as [| |s1] eqn:E; try done. eapply IH; [| |exact Hs]; [by eapply follows_step|].
  destruct Hf as (Hst & Hc & _ & Hcl & _). destruct a; try done; cbn in E; rewrite ?Hst, ?Hc, ?Hcl, ?Hw in E.
  all: destruct (en_loop s), (en_events s); try done; by injection E as <-.
Qed.

(** C16: a running engine follows its source.  Take any history in which
    every change of the source comes with an event and nobody else reloads or closes
    anything.  The goroutine then works at most [engine_work] steps before it is
    idle; when it is, no event is unread and the engine runs exactly the policies the
    source holds, or the engine refuses what the source holds (it cannot be loaded or
    exceeds the limits) and keeps what it had. *)
Theorem engine_follows_source cfg w acts s :
  (forall w, src_Watch w = None) ->
  (exists s0, start_engine cfg w = Ok s0 /\ Forall announced acts /\ engine_steps acts s0 = Goes s) ->
  (forall more s', Forall goroutine more -> engine_steps more s = Goes s' -> (length more <= engine_work s)%nat) /\
  (idle s -> en_events s = [] /\ current (en_world s) (en_engine s)).
Proof.
  intros Hw (s0 & H0 & Ha & Hs). split.
  - intros more s' Hm Hr. pose proof (goroutine_steps _ _ _ Hm Hr). lia.
  - intros Hi. pose proof (follows_start _ _ _ H0) as Hf. pose proof (follows_steps _ _ _ Hf Ha Hs) as (_ & _ & _ & _ & Hq).
    assert (Hl : en_loop s <> LReturned).
    { eapply stays_up; [exact Hw|exact Hf| |exact Ha|exact Hs]. unfold start_engine in H0.
      destruct (NewInterpreterEngine _ _); [|done]. by injection H0 as <-. }
    destruct (idle_cases s Hi) as [|[El Ee]]; [done|]. rewrite El in Hq. auto.
Qed.

(** ** Closing *)

Definition no_calls a : Prop := match a with ECallInstall _ => False | _ => True end.

Lemma returned_step a s s' :
  en_loop s = LReturned -> no_calls a -> engine_step a s = Goes s' ->
  en_loop s' = LReturned /\ policies (en_engine s') = policies (en_engine s).
Proof.
  intros Hl Hn Hs. destruct a; cbn in Hs; try done; rewrite ?Hl in Hs; try done.
  1,3: destruct (en_eventsClosed s); try done.
  all: try (by injection Hs as <-).
  - unfold Close in Hs. destruct (stopCh_closed _); [done|]. by injection Hs as <-.
  - destruct (en_close s); try done. by injection Hs as <-.
Qed.

Lemma returned_steps acts s s' :
  Forall no_calls acts -> en_loop s = LReturned -> engine_steps acts s = Goes s' ->
  policies (en_engine s') = policies (en_engine s).
Proof.
  intros Ha. revert s. induction Ha as [|a acts Ha _ IH]; intros s Hl Hs; cbn in Hs; [by injection Hs as <-|].
  destruct (engine_step a s) as [| |s1] eqn:E; try done. destruct (returned_step _ _ _ Hl Ha E) as [Hl1 <-]. auto.
Qed.

(** Closing always succeeds and is final.  From every state in which
    [Close] waits, at most two further steps of the goroutine let it return,
    whatever events are still unread; and once it has returned no event changes the
    policies any more. *)
Theorem close_is_final s :
  stopCh_closed (en_engine s) = true -> en_close s = CWaiting ->
  (exists acts s', Forall goroutine acts /\ (length acts <= 2)%nat /\ engine_steps (acts ++ [ECloseReturns]) s = Goes s' /\
     en_close s' = CDone) /\
  (forall s1 acts s2, engine_step ECloseReturns s = Goes s1 -> Forall no_calls acts -> engine_steps acts s1 = Goes s2 ->
     policies (en_engine s2) = policies (en_engine s)).
Proof.
  intros Hst Hc. split.
  - destruct s as [w e pc evs closed calls cl]. cbn in Hst, Hc. subst cl. destruct pc as [| |loaded|].
    + destruct (src_Watch w) eqn:Ew.
      * exists [EWatch]. eexists. split; [by repeat constructor|]. split; [cbn; lia|]. cbn. rewrite Ew. done.
      * exists [EWatch; ESeeStop]. eexists. split; [by repeat constructor|]. split; [cbn; lia|]. cbn. rewrite Ew. cbn.
        by rewrite Hst.
    + exists [ESeeStop]. eexists. split; [by repeat constructor|]. split; [cbn; lia|]. cbn. by rewrite Hst.
    + exists [EInstall; ESeeStop]. eexists. split; [by repeat constructor|]. split; [cbn; lia|]. cbn. unfold handlePolicyEvent.
      assert (K : stopCh_closed (snd (ReloadPolicies loaded e)) = true)
        by (destruct (reload_cases loaded e) as [[err ->]|(ps & _ & -> & _)]; done).
      by rewrite K.
    + exists []. eexists. split; [constructor|]. split; [cbn; lia|]. done.
  - intros s1 acts s2 H1 Ha Hs. cbn in H1. rewrite Hc in H1. destruct (en_loop s); try done. injection H1 as <-.
    by apply returned_steps in Hs.
Qed.
End engine_system.

(** ** A small source *)

Definition named (n : string) : Policy := plain_policy n [] [].

Definition running (ns : list string) : EngineSys MemorySource :=
  mkEngineSys (NewMemorySource (named <$> ns)) (mkEngine (named <$> ns) (NewDefaultMatcher (Some DefaultEngineConfig)) DefaultEngineConfig false)
    LStarting [] false [] COpen.

Definition modified : PolicyEvent := mkPolicyEvent PolicyEventModified "a.yaml" None.

Definition names_after (o : PolicyWatch.Outcome (EngineSys MemorySource)) : option (list string) :=
  match o with Goes s => Some (p_Name <$> policies (en_engine s)) | _ => None end.

Lemma engine_follows_source_witness :
  let S := merge_sort_slice in
  let acts := [EWatch; EChange (NewMemorySource [named "b"]) modified; EReceive; EInstall] in
  exists s, engine_steps acts (running ["a"]) = Goes s /\ policies (en_engine s) = [named "b"].
Proof.
  intros S acts. destruct (engine_steps acts (running ["a"])) as [| |s] eqn:E; [by vm_compute in E..|].
  exists s. split; [done|].
  assert (Hw : forall w : MemorySource, src_Watch w = None) by done.
  destruct (engine_follows_source None (NewMemorySource [named "a"]) acts s Hw) as [_ Hi].
  { exists (running ["a"]). split; [by vm_compute|]. split; [by repeat constructor|exact E]. }
  vm_compute in E. injection E as <-. destruct Hi as [_ Hc]; [by intros [] Ha|].
  destruct (Hc eq_refl) as (ps & Hps & ->). vm_compute in Hps. injection Hps as <-. by vm_compute.
Defined.

Lemma close_is_final_witness :
  let S := merge_sort_slice in
  exists s, engine_steps [EWatch; EChange (NewMemorySource [named "b"]) modified; EClose] (running ["a"]) = Goes s /\
  exists acts s', Forall goroutine acts /\ (length acts <= 2)%nat /\
    engine_steps (acts ++ [ECloseReturns]) s = Goes s' /\ en_close s' = CDone.
Proof. intros S. eexists. split; [by vm_compute|]. apply (close_is_final (H := S)); by vm_compute. Defined.

(** Two reloads at once: a caller that read the source before a change installs its
    policies after the goroutine has installed the new ones, and the old policies stay
    in force. *)
Example stale_reload_wins :
  let S := merge_sort_slice in
  names_after (engine_steps [EWatch; ECallLoad; EChange (NewMemorySource [named "b"]) modified; EReceive; EInstall; ECallInstall 0]
    (running ["a"])) = Some ["a"].
Proof. by vm_compute. Qed.

(** [source_Watch] sends no events: policies replaced with [SetPolicies] are not seen
    by the engine until someone reloads. *)
Example silent_source_is_not_followed :
  let S := merge_sort_slice in
  fst (source_Watch false) = [] /\
  names_after (engine_steps [EWatch; ESilent (SetPolicies [named "b"] (NewMemorySource [named "a"]))] (running ["a"])) = Some ["a"].
Proof. by vm_compute. Qed.

(** Closing an engine twice panics. *)
Example second_close_panics :
  let S := merge_sort_slice in
  engine_steps [EWatch; EClose; ESeeStop; ECloseReturns; EClose] (running ["a"]) = Panics.
Proof. by vm_compute. Qed.
