(* ===== verification/GitClone.v ===== *)
(** * Opening a policy repository ([pkg/policy/git/auth.go], [repository.go]) and
    what the manager serves from it

    Authentication, creation and cloning of the repository, its files and its
    history, and the events for the engine ([WatchForEngine] of
    [pkg/policy/manager/manager.go]).  The file system around the checkout and the
    clone operation of the git library are the parameter [GitHost]; it threads the
    state [W] of the machine, so that the order of removing, opening and cloning
    is visible. *)

From Stdlib Require Import ZArith Lia.
From stdpp Require Import base option list strings gmap pretty.
From S2P Require Import Prelude GoValue Ast ProxyTypes Paths PolicyRegistry PolicyLoader GitSource ConfigTypes PolicyManager PolicyWatch.
Local Open Scope string_scope.
Local Open Scope list_scope.
Local Open Scope Z_scope.

(** ** Authentication *)

Inductive AuthProvider := TokenAuth (token : string) | SSHAuth (keyPath passphrase : string) | NoAuth.

(** [transport.AuthMethod]; [None] stands for [nil]. *)
Inductive AuthMethod := BasicAuth (username password : string) | PublicKeys (user keyPath passphrase : string).

Definition auth_Type (a : AuthProvider) : string :=
  match a with TokenAuth _ => "token" | SSHAuth _ _ => "ssh" | NoAuth => "none" end.

Definition NewAuthProvider (cfg : option GitAuthConfig) : result PmErr AuthProvider :=
  match cfg with
  | None => Err (Plain "auth config cannot be nil")
  | Some cfg =>
      if String.eqb (ga_Type cfg) "token" then
        if String.eqb (ga_Token cfg) "" then Err (Plain "token auth requires non-empty token")
        else Ok (TokenAuth (ga_Token cfg))
      else if String.eqb (ga_Type cfg) "ssh" then
        if String.eqb (ga_SSHKeyPath cfg) "" then Err (Plain "ssh auth requires ssh_key_path")
        else Ok (SSHAuth (ga_SSHKeyPath cfg) (ga_SSHKeyPassphrase cfg))
      else if String.eqb (ga_Type cfg) "none" || String.eqb (ga_Type cfg) "" then Ok NoAuth
      else Err (Plain ("unknown auth type: " +:+ ga_Type cfg))
  end.

(** The machine: permissions of a file, loading of a key, the directory of the
    checkout, and the clone. *)
Record CloneOptions := mkCloneOptions {
  co_URL : string;
  co_ReferenceName : string;
  co_SingleBranch : bool;
  co_Depth : Z;
  co_Auth : option AuthMethod;
}.

Class GitHost (W G : Type) : Type := {
  gh_perm : string -> W -> result string Z;
  gh_octal : Z -> string;
  gh_loadKey : string -> string -> W -> option string;
  gh_TempDir : string;
  gh_RemoveAll : string -> W -> option string * W;
  gh_exists : string -> W -> bool;
  gh_MkdirAll : string -> W -> option string * W;
  gh_PlainOpen : string -> W -> result string G;
  gh_PlainClone : Duration -> string -> CloneOptions -> W -> result string G * W;
}.

Section host.
Context {W G : Type} `{!GitHost W G}.

Definition GetAuth (a : AuthProvider) (w : W) : result PmErr (option AuthMethod) :=
  match a with
  | TokenAuth token =>
      if String.eqb token "" then Err (Plain "token cannot be empty") else Ok (Some (BasicAuth "git" token))
  | SSHAuth keyPath passphrase =>
      if String.eqb keyPath "" then Err (Plain "ssh key path cannot be empty")
      else
        match gh_perm keyPath w with
        | Err e => Err (Wrapped "failed to access SSH key file" (Plain e))
        | Ok mode =>
            if negb (Z.land mode 63 =? 0) then
              Err (Plain ("SSH key file permissions too open (" +:+ gh_octal mode +:+ "), should be 0600"))
            else
              match gh_loadKey keyPath passphrase w with
              | Some e => Err (Wrapped "failed to load SSH key" (Plain e))
              | None => Ok (Some (PublicKeys "git" keyPath passphrase))
              end
        end
  | NoAuth => Ok None
  end.

(** ** The repository *)

(** The configuration and the authentication beside the fields of
    [GitSource.Repository]. *)
Record GitRepo := mkGitRepo {
  gr_config : GitPolicyConfig;
  gr_auth : AuthProvider;
  gr_rep : Repository G;
}.

Definition NewRepository (cfg : option GitPolicyConfig) : result PmErr GitRepo :=
  match cfg with
  | None => Err (Plain "config cannot be nil")
  | Some cfg =>
      if String.eqb (gt_Repository cfg) "" then Err (Plain "repository URL cannot be empty")
      else if String.eqb (gt_Branch cfg) "" then Err (Plain "branch cannot be empty")
      else
        match NewAuthProvider (Some (gt_Auth cfg)) with
        | Err e => Err (Wrapped "failed to create auth provider" e)
        | Ok auth =>
            let localPath :=
              if String.eqb (gc_LocalPath (gt_Clone cfg)) "" then JoinPath [gh_TempDir; "mercator-policies"]
              else gc_LocalPath (gt_Clone cfg) in
            Ok (mkGitRepo cfg auth (mkRepository None localPath (gt_Path cfg) "" 0 0))
        end
  end.

Definition with_repo (g : G) (r : GitRepo) : GitRepo := mkGitRepo (gr_config r) (gr_auth r) (with_git g (gr_rep r)).

(** [plumbing.NewBranchReferenceName] *)
Definition branchRef (branch : string) : string := "refs/heads/" +:+ branch.

Definition cloneOpts (r : GitRepo) (auth : option AuthMethod) : CloneOptions :=
  let cfg := gr_config r in
  let depth := gc_Depth (gt_Clone cfg) in
  mkCloneOptions (gt_Repository cfg) (branchRef (gt_Branch cfg)) (0 <? depth) depth auth.

Definition Clone (r : GitRepo) (w : W) : option PmErr * GitRepo * W :=
  let path := rp_localPath (gr_rep r) in
  let '(cleaned, w) :=
    if gc_CleanOnStart (gt_Clone (gr_config r)) then gh_RemoveAll path w else (None, w) in
  match cleaned with
  | Some e => (Some (Wrapped "failed to clean existing repository" (Plain e)), r, w)
  | None =>
      if gh_exists (JoinPath [path; ".git"]) w then
        match gh_PlainOpen path w with
        | Err e => (Some (Wrapped "failed to open existing repo" (Plain e)), r, w)
        | Ok g => (None, with_repo g r, w)
        end
      else
        match gh_MkdirAll path w with
        | (Some e, w) => (Some (Wrapped "failed to create repository directory" (Plain e)), r, w)
        | (None, w) =>
            match GetAuth (gr_auth r) w with
            | Err e => (Some (Wrapped "failed to get auth" e), r, w)
            | Ok auth =>
                match gh_PlainClone (gp_Timeout (gt_Poll (gr_config r))) path (cloneOpts r auth) w with
                | (Err e, w) => (Some (Wrapped "failed to clone repository" (Plain e)), r, w)
                | (Ok g, w) => (None, with_repo g r, w)
                end
            end
        end
  end.

(** ** Files and history *)

Definition policyExt (path : string) : bool :=
  let ext := Ext path in String.eqb ext ".mpl" || String.eqb ext ".yaml" || String.eqb ext ".yml".

(** The name of an entry is the base of its path. *)
Definition listFn (path : string) (isDir : bool) (err : option string) (files : list string) :
    list string * option WalkErr :=
  match err with
  | Some e => (files, Some (WalkError (Plain e)))
  | None =>
      if isDir then (files, None)
      else if HasPrefix (BasePath path) "." then (files, None)
      else (if policyExt path then files ++ [path] else files, None)
  end.

Definition ListPolicyFiles (disk : Disk) (r : GitRepo) : result PmErr (list string) :=
  let policyPath := GetPolicyPath (gr_rep r) in
  match d_stat disk policyPath with
  | Err e => Err (Wrapped "policy path does not exist" (default (Plain "") (stat_cause e)))
  | Ok _ =>
      match Walk listFn policyPath (d_walk disk policyPath) [] with
      | (_, Some e) => Err (Wrapped "failed to walk policy directory" e)
      | (files, None) => Ok files
      end
  end.

Record Commit := mkCommit { c_Hash : string; c_Author : string; c_Email : string; c_When : Time; c_Message : string }.

Record CommitInfo := mkCommitInfo {
  ci_SHA : string;
  ci_Author : string;
  ci_Email : string;
  ci_Timestamp : Time;
  ci_Message : string;
  ci_Branch : string;
  ci_Repository : string;
}.

Definition commitInfo (r : GitRepo) (c : Commit) : CommitInfo :=
  mkCommitInfo (c_Hash c) (c_Author c) (c_Email c) (c_When c) (c_Message c) (gt_Branch (gr_config r))
    (gt_Repository (gr_config r)).

Section history.
Context `{!GoGit G}.

(** The commit object of a hash, and the log from a hash with the error that
    ends its iteration, if any. *)
Variable commitObject : string -> G -> result string Commit.
Variable log : string -> G -> result string (list Commit * option string).

Definition GetCurrentCommit (r : GitRepo) : result PmErr CommitInfo :=
  match rp_repo (gr_rep r) with
  | None => Err (Plain "repository not initialized, call Clone() first")
  | Some g =>
      match gg_Head g with
      | Err e => Err (wrapped "failed to get HEAD" e)
      | Ok h =>
          match commitObject h g with
          | Err e => Err (wrapped "failed to get commit" e)
          | Ok c => Ok (commitInfo r c)
          end
      end
  end.

(** The callback of [ForEach] over the commits: the history so far, the counter
    and the error that ended the iteration. *)
Fixpoint eachCommit (r : GitRepo) (limit count : Z) (history : list CommitInfo) (commits : list Commit)
    (iterErr : option string) : list CommitInfo * option string :=
  match commits with
  | [] => (history, iterErr)
  | c :: commits =>
      if limit <=? count then (history, Some "limit reached")
      else eachCommit r limit (count + 1) (history ++ [commitInfo r c]) commits iterErr
  end.

Definition GetCommitHistory (limit : Z) (r : GitRepo) : result PmErr (list CommitInfo) :=
  match rp_repo (gr_rep r) with
  | None => Err (Plain "repository not initialized")
  | Some g =>
      match gg_Head g with
      | Err e => Err (wrapped "failed to get HEAD" e)
      | Ok h =>
          match log h g with
          | Err e => Err (wrapped "failed to get commit log" e)
          | Ok (commits, iterErr) =>
              match eachCommit r limit 0 [] commits iterErr with
              | (history, Some e) =>
                  if String.eqb e "limit reached" then Ok history else Err (wrapped "failed to iterate commits" e)
              | (history, None) => Ok history
              end
          end
      end
  end.

(** The branch of the configuration, which the caller shares, changes with the
    checkout. *)
Definition SwitchBranch (branch : string) (r : GitRepo) : option PmErr * GitRepo :=
  match rp_repo (gr_rep r) with
  | None => (Some (Plain "repository not initialized"), r)
  | Some g =>
      match gg_Worktree g with
      | Some e => (Some (wrapped "failed to get worktree" e), r)
      | None =>
          match gg_Checkout (branchRef branch) g with
          | (Some e, g) => (Some (wrapped ("failed to checkout branch " +:+ branch) e), with_repo g r)
          | (None, g) =>
              let c := gr_config r in
              (None, mkGitRepo (mkGitPolicyConfig (gt_Enabled c) (gt_Repository c) branch (gt_Path c) (gt_Auth c)
                                  (gt_Poll c) (gt_Clone c)) (gr_auth r) (with_git g (gr_rep r)))
          end
      end
  end.

(** [GetCurrentCommit] and [GetCommitHistory] of the manager. *)
Definition manager_CommitHistory (mode : string) (limit : Z) (repo : option GitRepo) : result PmErr (list CommitInfo) :=
  match repo with
  | Some r => if String.eqb mode "git" then GetCommitHistory limit r else Err (Plain "not in git mode")
  | None => Err (Plain "not in git mode")
  end.

Definition manager_CurrentCommit (mode : string) (repo : option GitRepo) : result PmErr CommitInfo :=
  match repo with
  | Some r => if String.eqb mode "git" then GetCurrentCommit r else Err (Plain "not in git mode")
  | None => Err (Plain "not in git mode")
  end.
End history.
End host.

(** ** Events for the engine *)

Inductive ReloadEventType := ReloadEventCreate | ReloadEventModify | ReloadEventDelete.
Inductive PolicyEventType := PolicyEventCreated | PolicyEventModified | PolicyEventDeleted | PolicyEventError.
Record PolicyEvent := mkPolicyEvent { pe_Type : PolicyEventType; pe_Path : string; pe_Error : option PmErr }.

Definition eventTypeString (t : ReloadEventType) : string :=
  match t with ReloadEventCreate => "create" | ReloadEventModify => "modify" | ReloadEventDelete => "delete" end.

Definition engineEvent (e : ReloadEventType * string) : PolicyEvent :=
  mkPolicyEvent (match fst e with
                 | ReloadEventCreate => PolicyEventCreated
                 | ReloadEventModify => PolicyEventModified
                 | ReloadEventDelete => PolicyEventDeleted
                 end) (snd e) None.

(** The goroutine of [WatchForEngine] once [Watch] has returned: [watched] is its
    result, [queue] what is in [watchEvents] (of which [taken] are taken before
    the cancelled context is seen). *)
Definition WatchForEngine (watched : option PmErr) (queue : list (ReloadEventType * string)) (taken : nat) : list PolicyEvent :=
  match watched with
  | Some e => [mkPolicyEvent PolicyEventError "" (Some e)]
  | None => engineEvent <$> take taken queue
  end.

(** ** Theorems *)

(** A private key is used only when nobody but its owner can access its file. *)
Theorem ssh_key_private `{GitHost W G} (keyPath passphrase : string) (w : W) (auth : option AuthMethod) :
  GetAuth (SSHAuth keyPath passphrase) w = Ok auth ->
  auth = Some (PublicKeys "git" keyPath passphrase) /\
  exists mode, gh_perm keyPath w = Ok mode /\ forall i, 0 <= i < 6 -> Z.testbit mode i = false.
Proof.
  cbn. destruct (String.eqb keyPath ""); [done|]. destruct (gh_perm keyPath w) as [mode|]; [|done].
  destruct (Z.land mode 63 =? 0) eqn:E; cbn; [|done]. destruct (gh_loadKey keyPath passphrase w); [done|].
  intros [= <-]. split; [done|]. exists mode. split; [done|]. intros i Hi. apply Z.eqb_eq in E.
  assert (Hb : Z.testbit (Z.land mode 63) i = false) by (by rewrite E, Z.bits_0).
  rewrite Z.land_spec in Hb. replace 63 with (Z.ones 6) in Hb by done. rewrite Z.ones_spec_low in Hb by lia.
  by rewrite andb_true_r in Hb.
Qed.

(** A repository is created exactly for a configuration with an address, a branch
    and complete credentials. *)
Theorem repository_created_iff `{GitHost W G} cfg :
  (exists r, NewRepository (G := G) (Some cfg) = Ok r) <->
  gt_Repository cfg <> "" /\ gt_Branch cfg <> "" /\
  ((ga_Type (gt_Auth cfg) = "token" /\ ga_Token (gt_Auth cfg) <> "") \/
   (ga_Type (gt_Auth cfg) = "ssh" /\ ga_SSHKeyPath (gt_Auth cfg) <> "") \/
   ga_Type (gt_Auth cfg) = "none" \/ ga_Type (gt_Auth cfg) = "").
Proof.
  unfold NewRepository, NewAuthProvider.
  destruct (String.eqb_spec (gt_Repository cfg) ""); [naive_solver|].
  destruct (String.eqb_spec (gt_Branch cfg) ""); [naive_solver|].
  destruct (String.eqb_spec (ga_Type (gt_Auth cfg)) "token") as [Ht|Ht].
  { rewrite Ht. destruct (String.eqb_spec (ga_Token (gt_Auth cfg)) ""); naive_solver. }
  destruct (String.eqb_spec (ga_Type (gt_Auth cfg)) "ssh") as [Hs|Hs].
  { rewrite Hs. destruct (String.eqb_spec (ga_SSHKeyPath (gt_Auth cfg)) ""); naive_solver. }
  destruct (String.eqb_spec (ga_Type (gt_Auth cfg)) "none"), (String.eqb_spec (ga_Type (gt_Auth cfg)) ""); cbn; naive_solver.
Qed.

Lemma eachCommit_prefix `{GitHost W G} (r : GitRepo (G := G)) limit commits iterErr : forall count history,
  count <= limit ->
  eachCommit r limit count history commits iterErr =
  (history ++ (commitInfo r <$> take (Z.to_nat (limit - count)) commits),
   if Z.of_nat (length commits) <=? limit - count then iterErr else Some "limit reached").
Proof.
  induction commits as [|c commits IH]; intros count history Hc; cbn [eachCommit].
  - change (Z.of_nat (length (@nil Commit))) with 0. replace (0 <=? limit - count) with true by lia.
    by rewrite take_nil, app_nil_r.
  - destruct (limit <=? count) eqn:E.
    + replace (Z.to_nat (limit - count)) with 0%nat by lia. cbn [take length]. rewrite app_nil_r, Nat2Z.inj_succ.
      destruct (Z.leb_spec (Z.succ (Z.of_nat (length commits))) (limit - count)); [lia|done].
    + rewrite IH by lia. replace (Z.to_nat (limit - count)) with (S (Z.to_nat (limit - (count + 1)))) by lia.
      cbn [take length]. rewrite <- app_assoc, Nat2Z.inj_succ. f_equal.
      destruct (Z.leb_spec (Z.of_nat (length commits)) (limit - (count + 1))),
        (Z.leb_spec (Z.succ (Z.of_nat (length commits))) (limit - count)); (done || lia).
Qed.

(** The history of at most [limit] commits is the start of the log, whether or
    not the log is longer; an error of the log matters only when the limit lies
    beyond the commits it could deliver. *)
Theorem history_is_prefix `{GitHost W G} `{!GoGit G} log limit (r : GitRepo (G := G)) g h commits iterErr :
  rp_repo (gr_rep r) = Some g -> gg_Head g = Ok h -> log h g = Ok (commits, iterErr) -> 0 <= limit ->
  (iterErr = None \/ limit < Z.of_nat (length commits)) ->
  GetCommitHistory log limit r = Ok (commitInfo r <$> take (Z.to_nat limit) commits).
Proof.
  intros Hr Hh Hl Hlim He. unfold GetCommitHistory. rewrite Hr, Hh, Hl, eachCommit_prefix by done.
  rewrite Z.sub_0_r. cbn [app]. destruct (Z.of_nat (length commits) <=? limit) eqn:E; [|done].
  destruct He as [->|]; [done|lia].
Qed.

(** Without [CleanOnStart] a directory that holds a [.git] entry is opened as it
    is: neither the configured address nor the branch nor the credentials are
    looked at. *)
Theorem existing_clone_not_checked `{GitHost W G} (r : GitRepo (G := G)) w g :
  gc_CleanOnStart (gt_Clone (gr_config r)) = false ->
  gh_exists (JoinPath [rp_localPath (gr_rep r); ".git"]) w = true ->
  gh_PlainOpen (rp_localPath (gr_rep r)) w = Ok g ->
  Clone r w = (None, with_repo g r, w).
Proof. intros Hc He Ho. unfold Clone. by rewrite Hc, He, Ho. Qed.

(** [Watch] returns only when the context is done, and nothing is ever sent on
    [watchEvents]: the engine receives at most the error of [Watch], and no event
    of a reload. *)
Theorem engine_never_notified watched taken :
  Forall (fun e => pe_Type e = PolicyEventError) (WatchForEngine watched [] taken).
Proof. destruct watched; cbn; [by repeat constructor|]. rewrite take_nil. constructor. Qed.

(** ** Examples *)

(** A machine whose files are the paths of a list. *)
#[export] Instance toy_host : GitHost (list string) ToyGit := {|
  gh_perm p w := if String.eqb p "/key" then Ok 384 else if String.eqb p "/open" then Ok 420 else Err p;
  gh_octal m := pretty m;
  gh_loadKey _ _ _ := None;
  gh_TempDir := "/tmp";
  gh_RemoveAll p w := (None, List.filter (fun q => negb (HasPrefix q p)) w);
  gh_exists p w := existsb (String.eqb p) w;
  gh_MkdirAll p w := (None, w ++ [p]);
  gh_PlainOpen p w := Ok (mkToyGit "old" "old" true);
  gh_PlainClone _ p _ w := (Ok (mkToyGit "new" "new" true), w ++ [JoinPath [p; ".git"]]);
|}.

Definition clone_cfg (clean : bool) (auth : GitAuthConfig) : GitPolicyConfig :=
  mkGitPolicyConfig true "https://example.com/p.git" "main" "policies" auth (mkGitPollConfig true 0 0) (mkGitCloneConfig 1 "/c" clean).

Definition cloned (clean : bool) (w : list string) : option (option PmErr * option string) :=
  match NewRepository (G := ToyGit) (Some (clone_cfg clean (mkGitAuthConfig "" "" "" ""))) with
  | Ok r => let '(e, r, _) := Clone r w in Some (e, tg_head <$> rp_repo (gr_rep r))
  | Err _ => None
  end.

Example clone_examples :
  cloned false [] = Some (None, Some "new") /\ cloned false ["/c/.git"] = Some (None, Some "old") /\
  cloned true ["/c/.git"] = Some (None, Some "new") /\
  GetAuth (SSHAuth "/open" "") [] = Err (Plain "SSH key file permissions too open (420), should be 0600").
Proof. vm_compute. repeat split. Qed.

Lemma ssh_key_private_witness :
  GetAuth (SSHAuth "/key" "x") [] = Ok (Some (PublicKeys "git" "/key" "x")) /\
  exists mode, gh_perm "/key" [] = Ok mode /\ forall i, 0 <= i < 6 -> Z.testbit mode i = false.
Proof.
  split; [reflexivity|]. exact (proj2 (ssh_key_private "/key" "x" [] _ eq_refl)).
Defined.
