(* ===== verification/TelemetryLog.v ===== *)
(** * Logging ([pkg/telemetry/logging])

    The redactor, the fields taken from a context, and the logger.  Regular
    expressions are those of [GoStd]; the patterns are kept in a map, whose
    iteration order is [MapRange]'s.  The structured logger of the standard library
    is the list of the calls it receives: level, fields attached with [With],
    message and arguments.  Keys are taken to be ASCII. *)

From Stdlib Require Import ZArith Lia Ascii.
From stdpp Require Import base option list strings gmap.
From S2P Require Import Prelude GoValue ProxyTypes ConfigTypes.
Local Open Scope string_scope.
Local Open Scope list_scope.
Local Open Scope Z_scope.

(** ** Strings *)

(** [strings.Split(s, sep)] for a separator of one character *)
Fixpoint split_on (sep : ascii) (s : string) : list string :=
  match s with
  | EmptyString => [EmptyString]
  | String c s =>
      if Ascii.eqb c sep then EmptyString :: split_on sep s
      else match split_on sep s with
           | [] => [String c EmptyString]
           | w :: ws => String c w :: ws
           end
  end.

(** [strings.ReplaceAll(s, c, "")] *)
Fixpoint remove_char (x : ascii) (s : string) : string :=
  match s with
  | EmptyString => ""
  | String c s => if Ascii.eqb c x then remove_char x s else String c (remove_char x s)
  end.

(** [len] of a string and [s[:n]], [s[n:]] within range *)
Definition len (s : string) : Z := Z.of_nat (String.length s).
Definition slice_to (n : nat) (s : string) : string := String.substring 0 n s.
Definition slice_from (n : nat) (s : string) : string := String.substring n (String.length s - n) s.

(** ** The redactor *)

Definition PatternAPIKey : string := "api_key".
Definition PatternEmail : string := "email".
Definition PatternSSN : string := "ssn".
Definition PatternCreditCard : string := "credit_card".
Definition PatternIPv4 : string := "ipv4".
Definition PatternIPv6 : string := "ipv6".
Definition PatternPhone : string := "phone".
Definition PatternPassword : string := "password".
Definition PatternBearerToken : string := "bearer_token".

(** Name, expression and replacement. *)
Definition default_patterns : list (string * (string * string)) := [
  (PatternAPIKey, ("(sk-[a-zA-Z0-9]+|api[-_]?key[-_:]\s*[a-zA-Z0-9]+)", "sk-***"));
  (PatternEmail, ("([a-zA-Z0-9._%+-]+@[a-zA-Z0-9.-]+\.[a-zA-Z]{2,})", "$1_redacted"));
  (PatternSSN, ("\b\d{3}[-\s]?\d{2}[-\s]?\d{4}\b", "***-**-****"));
  (PatternCreditCard, ("\b(?:\d[ -]*?){13,16}\b", "****-****-****-****"));
  (PatternIPv4, ("\b(?:\d{1,3}\.){3}\d{1,3}\b", "192.*.*.*"));
  (PatternIPv6, ("\b(?:[0-9a-fA-F]{1,4}:){7}[0-9a-fA-F]{1,4}\b", "****:****:****:****:****:****:****:****"));
  (PatternPhone, ("\b(?:\+?1[-.\s]?)?\(?\d{3}\)?[-.\s]?\d{3}[-.\s]?\d{4}\b", "***-***-****"));
  (PatternBearerToken, ("Bearer\s+[a-zA-Z0-9\-._~+/]+=*", "Bearer ***"));
  (PatternPassword, ("(password|passwd|pwd)[:=]\s*[^\s]+", "$1: ***"))
].

Section redactor.
Context `{GoStd} `{MapRange}.

Record redactPattern := mkPattern { rd_name : string; rd_regex : Regexp; rd_replacement : string }.

Record Redactor := mkRedactor { rd_patterns : gmap string redactPattern; rd_enabled : bool }.

(** [regexp.MustCompile] panics on an expression that does not compile. *)
Fixpoint add_patterns (l : list (string * (string * string))) (m : gmap string redactPattern) : option (gmap string redactPattern) :=
  match l with
  | [] => Some m
  | (name, (regex, replacement)) :: l =>
      match regexp_Compile regex with
      | Ok re => add_patterns l (<[name := mkPattern name re replacement]> m)
      | Err _ => None
      end
  end.

Definition addDefaultPatterns (r : Redactor) : option Redactor :=
  match add_patterns default_patterns (rd_patterns r) with
  | Some m => Some (mkRedactor m (rd_enabled r))
  | None => None
  end.

Definition add_custom (m : gmap string redactPattern) (p : RedactPattern) : gmap string redactPattern :=
  match regexp_Compile (rp_Pattern p) with
  | Err _ => m
  | Ok re => <[rp_Name p := mkPattern (rp_Name p) re (rp_Replacement p)]> m
  end.

Definition NewRedactor (customPatterns : list RedactPattern) : option Redactor :=
  match addDefaultPatterns (mkRedactor ∅ true) with
  | Some r => Some (mkRedactor (foldl add_custom (rd_patterns r) customPatterns) (rd_enabled r))
  | None => None
  end.

Definition RedactString (r : Redactor) (value : string) : string :=
  if negb (rd_enabled r) || String.eqb value "" then value
  else foldl (fun redacted '(_, p) => ReplaceAllString (rd_regex p) redacted (rd_replacement p)) value (range (rd_patterns r)).

Definition sensitiveKeys : list string :=
  ["password"; "passwd"; "pwd"; "secret"; "token"; "api_key"; "apikey"; "auth"; "authorization"; "ssn"; "social_security";
   "credit_card"; "creditcard"; "cc"; "private_key"; "privatekey"].

Definition isSensitiveKey (key : string) : bool := existsb (Contains (ToLower key)) sensitiveKeys.

Definition redactValue (value : GoValue) : GoValue :=
  match value with
  | VString v =>
      if String.eqb v "" then VString ""
      else if len v <=? 4 then VString "***"
      else VString (slice_to (Z.to_nat (Z.min 4 (len v))) v +:+ "***")
  | _ => VString "***"
  end.

(** One pass of the loop: the value at an odd position, by the key before it. *)
Definition redact_at (r : Redactor) (key value : GoValue) : GoValue :=
  let value := match key with
               | VString k => if isSensitiveKey k then redactValue value else value
               | _ => value
               end in
  match value with VString s => VString (RedactString r s) | _ => value end.

Fixpoint redact_pairs (r : Redactor) (args : list GoValue) : list GoValue :=
  match args with
  | key :: value :: rest => key :: redact_at r key value :: redact_pairs r rest
  | _ => args
  end.

Definition RedactArgs (r : Redactor) (args : list GoValue) : list GoValue :=
  if negb (rd_enabled r) then args else redact_pairs r args.
End redactor.

(** *** Single values *)

Definition RedactEmail (email : string) : string :=
  match split_on "@" email with
  | [username; domain] =>
      match username with
      | EmptyString => "***@" +:+ domain
      | String c _ => String c "" +:+ "***@" +:+ domain
      end
  | _ => email
  end.

Definition RedactAPIKey (apiKey : string) : string :=
  if len apiKey <=? 4 then "***" else slice_to 4 apiKey +:+ "***".

Definition RedactIPv4 (ip : string) : string :=
  match split_on "." ip with
  | [a; _; _; _] => a +:+ ".*.*.*"
  | _ => ip
  end.

Definition RedactCreditCard (cc : string) : string :=
  let cleaned := remove_char "-" (remove_char " " cc) in
  if (len cleaned <? 13) || (16 <? len cleaned) then cc
  else "****-****-****-" +:+ slice_from (String.length cleaned - 4) cleaned.

(** ** Context fields *)

(** The values stored under the keys of this package. *)
Definition LogCtx : Type := gmap string string.

Definition RequestIDKey : string := "request_id".
Definition APIKeyKey : string := "api_key".
Definition UserKey : string := "user".
Definition TeamKey : string := "team".
Definition ProviderKey : string := "provider".
Definition ModelKey : string := "model".
Definition SessionKey : string := "session".
Definition TraceIDKey : string := "trace_id".
Definition SpanIDKey : string := "span_id".

(** [WithRequestID], ..., [WithSpanID] and [GetRequestID], ..., [GetSpanID] for
    each key. *)
Definition ctx_with (key value : string) (ctx : LogCtx) : LogCtx := <[key := value]> ctx.
Definition ctx_get (key : string) (ctx : LogCtx) : string := default "" (ctx !! key).

Definition field_of (ctx : LogCtx) (key : string) : list GoValue :=
  let v := ctx_get key ctx in if String.eqb v "" then [] else [VString key; VString v].

Definition extractContextFields (ctx : LogCtx) : list GoValue :=
  field_of ctx RequestIDKey ++ field_of ctx APIKeyKey ++ field_of ctx UserKey ++ field_of ctx TeamKey ++
  field_of ctx ProviderKey ++ field_of ctx ModelKey ++ field_of ctx SessionKey ++ field_of ctx TraceIDKey ++
  field_of ctx SpanIDKey.

(** ** The logger *)

Definition LevelDebug : Z := -4.
Definition LevelInfo : Z := 0.
Definition LevelWarn : Z := 4.
Definition LevelError : Z := 8.

Definition parseLevel (levelStr : string) : result string Z :=
  let any := existsb (String.eqb levelStr) in
  if any ["debug"; "DEBUG"] then Ok LevelDebug
  else if any ["info"; "INFO"; ""] then Ok LevelInfo
  else if any ["warn"; "WARN"; "warning"; "WARNING"] then Ok LevelWarn
  else if any ["error"; "ERROR"] then Ok LevelError
  else Err ("unknown log level: " +:+ levelStr).

Inductive LogFormat := FormatJSON | FormatText | FormatConsole.

Definition parseFormat (formatStr : string) : result string LogFormat :=
  let any := existsb (String.eqb formatStr) in
  if any ["json"; "JSON"; ""] then Ok FormatJSON
  else if any ["text"; "TEXT"] then Ok FormatText
  else if any ["console"; "CONSOLE"] then Ok FormatConsole
  else Err ("unknown log format: " +:+ formatStr).

(** The buffer that a logger and those derived from it share: whether its stop
    channel is closed.  Nothing is ever put into its channel: [Write] writes
    through. *)
Record LogBuffer := mkLogBuffer { lb_maxSize : Z; lb_stopped : bool; lb_dropped : Z }.

Definition buffer_Stop (b : LogBuffer) : option LogBuffer :=
  if lb_stopped b then None else Some (mkLogBuffer (lb_maxSize b) true (lb_dropped b)).

Definition DroppedCount (b : LogBuffer) : Z := lb_dropped b.

(** A call of the structured logger. *)
Record LogCall := mkLogCall { lc_level : Z; lc_with : list GoValue; lc_msg : string; lc_args : list GoValue }.

Section logger.
Context `{GoStd} `{MapRange}.

Record Logger := mkLogger {
  l_with : list GoValue;
  l_redactor : option Redactor;
  l_level : Z;
  l_format : LogFormat;
  l_addSource : bool;
}.

Record LogConfig := mkLogConfig {
  cf_Level : string;
  cf_Format : string;
  cf_AddSource : bool;
  cf_RedactPII : bool;
  cf_BufferSize : Z;
  cf_RedactPatterns : list RedactPattern;
}.

(** [None]: a default pattern does not compile, which panics. *)
Definition NewLogger (cfg : LogConfig) : option (result string (Logger * LogBuffer)) :=
  match parseLevel (cf_Level cfg) with
  | Err e => Some (Err ("invalid log level: " +:+ e))
  | Ok level =>
      match parseFormat (cf_Format cfg) with
      | Err e => Some (Err ("invalid log format: " +:+ e))
      | Ok format =>
          let bufferSize := if cf_BufferSize cfg <=? 0 then 10000 else cf_BufferSize cfg in
          let done redactor :=
            Some (Ok (mkLogger [] redactor level format (cf_AddSource cfg), mkLogBuffer bufferSize false 0)) in
          if cf_RedactPII cfg then
            match NewRedactor (cf_RedactPatterns cfg) with
            | Some r => done (Some r)
            | None => None
            end
          else done None
      end
  end.

Definition redact_args (l : Logger) (args : list GoValue) : list GoValue :=
  match l_redactor l with Some r => RedactArgs r args | None => args end.

(** The calls a log statement makes. *)
Definition log (l : Logger) (level : Z) (msg : string) (args : list GoValue) : list LogCall :=
  if level <? l_level l then [] else [mkLogCall level (l_with l) msg (redact_args l args)].

Definition log_context (l : Logger) (ctx : LogCtx) (level : Z) (msg : string) (args : list GoValue) : list LogCall :=
  log l level msg (extractContextFields ctx ++ args).

Definition With (l : Logger) (args : list GoValue) : Logger :=
  mkLogger (l_with l ++ redact_args l args) (l_redactor l) (l_level l) (l_format l) (l_addSource l).

Definition WithContext (l : Logger) (ctx : LogCtx) : Logger :=
  match extractContextFields ctx with [] => l | args => With l args end.

(** [ContextLogger] *)
Record ContextLogger := mkContextLogger { cl_logger : Logger; cl_ctx : LogCtx }.
Definition NewContextLogger (l : Logger) (ctx : LogCtx) : ContextLogger := mkContextLogger (WithContext l ctx) ctx.
Definition cl_log (cl : ContextLogger) (level : Z) (msg : string) (args : list GoValue) : list LogCall :=
  log_context (cl_logger cl) (cl_ctx cl) level msg args.
Definition cl_With (cl : ContextLogger) (args : list GoValue) : ContextLogger :=
  mkContextLogger (With (cl_logger cl) args) (cl_ctx cl).

(** *** A program that logs *)

Inductive LogOp :=
  | LWith (args : list GoValue)
  | LWithContext (ctx : LogCtx)
  | LLog (level : Z) (msg : string) (args : list GoValue)
  | LLogContext (ctx : LogCtx) (level : Z) (msg : string) (args : list GoValue).

Fixpoint run_log (ops : list LogOp) (l : Logger) : list LogCall :=
  match ops with
  | [] => []
  | LWith args :: ops => run_log ops (With l args)
  | LWithContext ctx :: ops => run_log ops (WithContext l ctx)
  | LLog level msg args :: ops => log l level msg args ++ run_log ops l
  | LLogContext ctx level msg args :: ops => log_context l ctx level msg args ++ run_log ops l
  end.
End logger.

(** ** Secrets stay out of the log *)

(** Two values that must not be told apart: strings that are both empty, both
    short, or agree in their first four characters. *)
Definition short (s : string) : Prop := s <> "" /\ len s <= 4.

Definition hidden (v v' : GoValue) : Prop :=
  match v, v' with
  | VString s, VString s' => s = s' \/ (short s /\ short s') \/ (4 < len s /\ 4 < len s' /\ slice_to 4 s = slice_to 4 s')
  | VString s, _ | _, VString s => short s
  | _, _ => True
  end.

(** The words that name something secret. *)
Definition secret_words : list string :=
  ["password"; "passwd"; "pwd"; "secret"; "token"; "api_key"; "apikey"; "auth"; "authorization"; "ssn"; "social_security";
   "credit_card"; "creditcard"; "cc"; "private_key"; "privatekey"].

(** The letter [c] in capitals or not, for a letter [d] that is none. *)
Definition letter_of (c d : ascii) : Prop :=
  c = d \/ (65 <= nat_of_ascii c <= 90 /\ nat_of_ascii d = nat_of_ascii c + 32)%nat.

(** A key that contains such a word, in any case. *)
Definition names_secret (key : string) : Prop :=
  exists pre word post w, w ∈ secret_words /\ key = pre +:+ word +:+ post /\
    Forall2 letter_of (String.list_ascii_of_string word) (String.list_ascii_of_string w).

(** Arguments that differ only in values under sensitive keys. *)
Inductive same_public : list GoValue -> list GoValue -> Prop :=
  | sp_nil : same_public [] []
  | sp_key k : same_public [k] [k]
  | sp_equal k v l l' : same_public l l' -> same_public (k :: v :: l) (k :: v :: l')
  | sp_secret k v v' l l' :
      names_secret k -> hidden v v' -> same_public l l' -> same_public (VString k :: v :: l) (VString k :: v' :: l').

(** Contexts that differ only in the API key. *)
Definition same_ctx (c c' : LogCtx) : Prop :=
  (forall k, k <> APIKeyKey -> ctx_get k c = ctx_get k c') /\
  hidden (VString (ctx_get APIKeyKey c)) (VString (ctx_get APIKeyKey c')).

Inductive same_op : LogOp -> LogOp -> Prop :=
  | so_with a a' : same_public a a' -> same_op (LWith a) (LWith a')
  | so_ctx c c' : same_ctx c c' -> same_op (LWithContext c) (LWithContext c')
  | so_log level msg a a' : same_public a a' -> same_op (LLog level msg a) (LLog level msg a')
  | so_log_ctx c c' level msg a a' :
      same_ctx c c' -> same_public a a' -> same_op (LLogContext c level msg a) (LLogContext c' level msg a').

Lemma ToLower_app a b : ToLower (a +:+ b) = ToLower a +:+ ToLower b.
Proof. induction a as [|c a IH]; [done|]. rewrite string_app_cons. cbn [ToLower]. by rewrite IH. Qed.

Lemma Contains_middle pre w post : Contains (pre +:+ w +:+ post) w = true.
Proof.
  induction pre as [|c pre IH].
  - rewrite string_app_nil_l. unfold Contains. assert (Hp : HasPrefix (w +:+ post) w = true) by (apply HasPrefix_app; by exists post).
    destruct (w +:+ post); by rewrite Hp.
  - rewrite string_app_cons. cbn [Contains]. rewrite IH. apply orb_true_r.
Qed.

Lemma letter_lower c d : letter_of c d -> lower d = d -> lower c = d.
Proof.
  intros [->|[Hc Hd]]; [done|]. intros _. rewrite <- (ascii_nat_embedding d), Hd. revert Hc.
  destruct c as [[] [] [] [] [] [] [] []]; vm_compute; intros [H1 H2]; try reflexivity; lia.
Qed.

Lemma word_lower word w :
  Forall2 letter_of (String.list_ascii_of_string word) (String.list_ascii_of_string w) -> ToLower w = w -> ToLower word = w.
Proof.
  revert w. induction word as [|c word IH]; intros [|d w] Hw; inversion Hw as [|? ? ? ? Hc Hr]; subst; [done|]. cbn [ToLower].
  intros [= Hd Hl]. by rewrite (letter_lower c d Hc Hd), (IH w Hr Hl).
Qed.

(** The test of the redactor knows them all. *)
Lemma names_secret_sensitive key : names_secret key -> isSensitiveKey key = true.
Proof.
  intros (pre & word & post & w & Hin & -> & Hw). unfold isSensitiveKey. rewrite !ToLower_app.
  assert (Hlow : ToLower w = w).
  { revert Hin. clear. intros Hin. repeat (apply elem_of_cons in Hin as [->|Hin]; [reflexivity|]). by apply elem_of_nil in Hin. }
  rewrite (word_lower word w Hw Hlow). apply existsb_exists. exists w. split; [|apply Contains_middle].
  by apply list_elem_of_In.
Qed.

Section noninterference.
Context `{GoStd} `{MapRange}.

Lemma redact_short s : short s -> redactValue (VString s) = VString "***".
Proof.
  intros [Hne Hl]. cbn. destruct (String.eqb_spec s ""); [done|]. by replace (len s <=? 4) with true by lia.
Qed.

Lemma redactValue_hidden v v' : hidden v v' -> redactValue v = redactValue v'.
Proof.
  destruct v, v'; cbn [hidden]; try done; try (intros Hs; by rewrite redact_short).
  intros [->|[[Hs Hs']|(H1 & H2 & He)]]; [done|by rewrite !redact_short|].
  unfold redactValue. destruct (String.eqb_spec s "") as [->|]; [done|]. destruct (String.eqb_spec s0 "") as [->|]; [done|].
  replace (len s <=? 4) with false by lia. replace (len s0 <=? 4) with false by lia.
  rewrite !Z.min_l by lia. change (Z.to_nat 4) with 4%nat. by rewrite He.
Qed.

Lemma redact_pairs_same r a a' : same_public a a' -> redact_pairs r a = redact_pairs r a'.
Proof.
  induction 1 as [| |k v l l' _ IH|k v v' l l' Hk Hv _ IH]; cbn [redact_pairs]; [done..|by rewrite IH|].
  rewrite IH. unfold redact_at. by rewrite (names_secret_sensitive k Hk), (redactValue_hidden v v' Hv).
Qed.

Lemma same_public_app a a' b b' : same_public a a' -> Nat.Even (length a) -> same_public b b' -> same_public (a ++ b) (a' ++ b').
Proof.
  intros Ha. induction Ha as [|k|k v l l' _ IH|k v v' l l' Hk Hv _ IH]; intros He Hb.
  - done.
  - destruct He as [n Hn]. cbn in Hn. lia.
  - cbn. constructor. apply IH; [|done]. destruct He as [n Hn]. exists (n - 1)%nat. cbn in Hn. lia.
  - cbn. constructor; [done..|]. apply IH; [|done]. destruct He as [n Hn]. exists (n - 1)%nat. cbn in Hn. lia.
Qed.

Lemma field_even c k : Nat.Even (length (field_of c k)).
Proof. unfold field_of. destruct (String.eqb _ ""); [by exists 0%nat|by exists 1%nat]. Qed.

Lemma field_same c c' k : same_ctx c c' -> same_public (field_of c k) (field_of c' k).
Proof.
  intros [Heq Hk]. unfold field_of. destruct (decide (k = APIKeyKey)) as [->|Hne].
  - destruct (String.eqb_spec (ctx_get APIKeyKey c) "") as [E|E], (String.eqb_spec (ctx_get APIKeyKey c') "") as [E'|E'];
      try (by repeat constructor).
    + rewrite E in Hk. destruct Hk as [Hk|[[[Hk]]|[Hk _]]]; (done || congruence).
    + rewrite E' in Hk. destruct Hk as [Hk|[[_ [Hk _]]|(_ & Hk & _)]]; (done || congruence).
    + apply sp_secret; [|exact Hk|constructor]. exists "", "api_key", "", "api_key".
      split; [unfold secret_words; set_solver|]. split; [done|]. repeat (constructor; [by left|]). constructor.
  - rewrite (Heq k Hne). destruct (String.eqb _ ""); [constructor|]. by repeat constructor.
Qed.

Lemma extract_same c c' : same_ctx c c' -> same_public (extractContextFields c) (extractContextFields c').
Proof.
  intros Hc. unfold extractContextFields.
  repeat (apply same_public_app; [by apply field_same|apply field_even|]). by apply field_same.
Qed.

Lemma extract_even c : Nat.Even (length (extractContextFields c)).
Proof.
  unfold extractContextFields. rewrite !length_app.
  repeat (apply Nat.Even_Even_add; [apply field_even|]). apply field_even.
Qed.

Lemma redact_args_same l r a a' :
  l_redactor l = Some r -> rd_enabled r = true -> same_public a a' -> redact_args l a = redact_args l a'.
Proof. intros Hr He Hs. unfold redact_args, RedactArgs. rewrite Hr, He. by apply redact_pairs_same. Qed.

Lemma with_context_same l r c c' :
  l_redactor l = Some r -> rd_enabled r = true -> same_ctx c c' -> WithContext l c = WithContext l c'.
Proof.
  intros Hr He Hc. unfold WithContext, With. pose proof (extract_same c c' Hc) as Hs.
  pose proof (redact_args_same l r _ _ Hr He Hs) as Ha.
  revert Hs Ha. generalize (extractContextFields c) (extractContextFields c'). intros a a' Hs Ha.
  destruct Hs; [done|done|by rewrite Ha..].
Qed.

Lemma run_log_same ops ops' : Forall2 same_op ops ops' -> forall l r,
  l_redactor l = Some r -> rd_enabled r = true -> run_log ops l = run_log ops' l.
Proof.
  induction 1 as [|op op' ops ops' Hop _ IH]; intros l r Hr He; [done|].
  destruct Hop as [a a' Ha|c c' Hc|level msg a a' Ha|c c' level msg a a' Hc Ha]; cbn [run_log].
  - unfold With. rewrite (redact_args_same l r a a' Hr He Ha). by eapply IH.
  - rewrite (with_context_same l r c c' Hr He Hc). eapply IH; [|done].
    unfold WithContext. by destruct (extractContextFields c').
  - unfold log. rewrite (redact_args_same l r a a' Hr He Ha). f_equal. by eapply IH.
  - unfold log_context, log. rewrite (redact_args_same l r _ (extractContextFields c' ++ a') Hr He);
      [f_equal; by eapply IH|]. apply same_public_app; [by apply extract_same|apply extract_even|done].
Qed.

(** C17: secrets stay out of the log.  With the option [RedactPII], whatever a program
    logs and attaches to its logger, the calls that reach the underlying logger are
    the same when values under sensitive keys, and the API key of the context, are
    replaced by others that agree in their first four characters (or by other short
    ones).  A key is sensitive when it contains one of the words [secret_words], in
    any case.  Values under other keys and the message are not covered. *)
Theorem secrets_stay_out_of_logs cfg l b ops ops' :
  cf_RedactPII cfg = true -> NewLogger cfg = Some (Ok (l, b)) -> Forall2 same_op ops ops' ->
  run_log ops l = run_log ops' l.
Proof.
  intros Hpii Hnew Hops. unfold NewLogger in Hnew. rewrite Hpii in Hnew.
  destruct (parseLevel _); [|done]. destruct (parseFormat _); [|done].
  unfold NewRedactor, addDefaultPatterns in Hnew.
  destruct (add_patterns _ _) as [m|]; [|done]. injection Hnew as <- <-. by eapply run_log_same.
Qed.
End noninterference.


Lemma substring_whole s : String.substring 0 (String.length s) s = s.
Proof. induction s as [|c s IH]; [done|]. cbn. by rewrite IH. Qed.

Lemma slice_from_app a b : slice_from (String.length a) (a +:+ b) = b.
Proof.
  unfold slice_from. induction a as [|c a IH]; [rewrite string_app_nil_l, Nat.sub_0_r; apply substring_whole|].
  rewrite string_app_cons. cbn. exact IH.
Qed.

(** A card number of 13 to 16 digits, however it is grouped, is reduced to its last
    four. *)
Theorem card_shows_last_four cc digits last4 :
  remove_char "-" (remove_char " " cc) = digits +:+ last4 ->
  String.length last4 = 4%nat -> (9 <= String.length digits <= 12)%nat ->
  RedactCreditCard cc = "****-****-****-" +:+ last4.
Proof.
  intros Hc Hl Hd. unfold RedactCreditCard, len. rewrite Hc, string_length_app, Hl.
  destruct (Z.ltb_spec (Z.of_nat (String.length digits + 4)) 13), (Z.ltb_spec 16 (Z.of_nat (String.length digits + 4))); [lia..|].
  cbn [orb].
  replace (String.length digits + 4 - 4)%nat with (String.length digits) by lia. by rewrite slice_from_app.
Qed.

(** ** Examples *)

(** Expressions as plain words to be replaced by nothing. *)
Definition word_std : GoStd := {|
  Regexp := string;
  regexp_Compile s := if String.eqb s "(" then Err "missing closing )" else Ok s;
  MatchString re s := Contains s re;
  ReplaceAllString re s replacement := if String.eqb s re then replacement else s;
  FindAllCount _ _ := 0;
  fmt_Sprint _ := "";
  strconv_Quote s := s;
|}.

Definition some_cfg : LogConfig := mkLogConfig "info" "json" false true 0 [mkRedactPattern "name" "Alice" "***"; mkRedactPattern "bad" "(" ""].

Definition logged (ops : list LogOp) : list LogCall :=
  match NewLogger (H := word_std) some_cfg with
  | Some (Ok (l, _)) => run_log (H := word_std) (H0 := some_range) ops l
  | _ => []
  end.

Lemma ex_sensitive : names_secret "Password".
Proof.
  exists "", "Password", "", "password". split; [left|]. split; [done|].
  constructor; [right; vm_compute; lia|]. repeat (constructor; [by left|]). constructor.
Qed.

Lemma secrets_stay_out_of_logs_witness :
  logged [LWithContext {[ APIKeyKey := "sk-abc123" ]}; LLog LevelInfo "in" [VString "Password"; VString "hunter2"; VString "n"; VString "Alice"]] =
  logged [LWithContext {[ APIKeyKey := "sk-axyz999" ]}; LLog LevelInfo "in" [VString "Password"; VString "hunt-er-3"; VString "n"; VString "Alice"]] /\
  logged [LWithContext {[ APIKeyKey := "sk-abc123" ]}; LLog LevelInfo "in" [VString "Password"; VString "hunter2"; VString "n"; VString "Alice"]] =
  [mkLogCall 0 [VString "api_key"; VString "sk-a***"] "in" [VString "Password"; VString "hunt***"; VString "n"; VString "***"]].
Proof.
  split; [|vm_compute; reflexivity].
  unfold logged. destruct (NewLogger (H := word_std) some_cfg) as [[[l b]|e]|] eqn:E; [|reflexivity..].
  apply (secrets_stay_out_of_logs (H := word_std) (H0 := some_range) some_cfg l b); [reflexivity|exact E|].
  constructor; [|constructor; [|constructor]].
  - apply so_ctx. split.
    + intros k Hk. 
      assert (Hn : forall v, ({[ APIKeyKey := v ]} : gmap string string) !! k = None)
        by (intros v; apply lookup_singleton_ne; congruence).
      exact (eq_trans (f_equal (default "") (Hn _)) (eq_sym (f_equal (default "") (Hn _)))).
    + vm_compute. right. right. repeat split.
  - apply so_log. apply sp_secret; [exact ex_sensitive|vm_compute; right; right; repeat split|]. apply sp_equal. apply sp_nil.
Defined.

(** The test for sensitive keys looks for substrings, so that harmless keys lose
    their values: a number of tokens, a success flag, an account. *)
Example harmless_keys_redacted :
  Forall (fun k => isSensitiveKey k = true) ["tokens"; "success"; "account"; "author"; "access_count"] /\
  logged [LLog LevelInfo "done" [VString "tokens"; VInt KInt 1500; VString "success"; VBool true]] =
  [mkLogCall 0 [] "done" [VString "tokens"; VString "***"; VString "success"; VString "***"]].
Proof. split; [repeat constructor|vm_compute; reflexivity]. Qed.

(** The message itself is not redacted. *)
Example message_not_redacted :
  logged [LLog LevelInfo "Alice" []] = [mkLogCall 0 [] "Alice" []].
Proof. vm_compute. reflexivity. Qed.

(** A [ContextLogger] attaches the fields of its context to the logger and adds
    them again to every call. *)
Example context_fields_twice :
  match NewLogger (H := word_std) some_cfg with
  | Some (Ok (l, _)) =>
      cl_log (H := word_std) (H0 := some_range) (NewContextLogger (H := word_std) (H0 := some_range) l {[ RequestIDKey := "r1" ]}) LevelInfo "m" [] =
      [mkLogCall 0 [VString "request_id"; VString "r1"] "m" [VString "request_id"; VString "r1"]]
  | _ => False
  end.
Proof. vm_compute. reflexivity. Qed.

(** Loggers derived with [With] share the buffer: shutting down two of them
    panics. *)
Example second_shutdown_panics b b' : buffer_Stop b = Some b' -> buffer_Stop b' = None.
Proof. unfold buffer_Stop. destruct (lb_stopped b); [done|]. by intros [= <-]. Qed.

Lemma card_shows_last_four_witness : RedactCreditCard "4111 1111-11111234" = "****-****-****-1234".
Proof. apply (card_shows_last_four "4111 1111-11111234" "411111111111" "1234"); [reflexivity|reflexivity|cbn; lia]. Defined.
