(* ===== verification/TelemetryHealth.v ===== *)
(** * Health checks ([pkg/telemetry/health])

    The registry of component checks, the readiness check that runs them all
    concurrently with a timeout each, the probe handlers and the rate limiter in
    front of them.  What a check function does when it is called is the argument
    [probe]: its error and how long it takes, or that it never returns.  The
    goroutines of the checks store their results in the order [order]. *)

From Stdlib Require Import ZArith Lia.
From stdpp Require Import base option list strings gmap.
From S2P Require Import Prelude GoValue ProviderTypes ProxyTypes Server.
Local Open Scope string_scope.
Local Open Scope list_scope.
Local Open Scope Z_scope.

(** ** The checker *)

Record CheckResult := mkCheckResult { ck_Status : string; ck_Message : string; ck_Duration : Duration }.

Record HealthStatus := mkHealthStatus {
  hs_Status : string;
  hs_Checks : option (gmap string CheckResult);
  hs_Timestamp : Time;
}.

(** What a call of a check function does. *)
Record Probe := mkProbe { pb_err : option string; pb_takes : option Duration }.

Record Checker (F : Type) := mkChecker { hc_checks : gmap string F; hc_timeout : Duration }.
Arguments mkChecker {F}.
Arguments hc_checks {F}.
Arguments hc_timeout {F}.

Section checker.
Context {F : Type}.
Implicit Type (c : Checker F).

Definition NewChecker (checkTimeout : Duration) : Checker F :=
  mkChecker ∅ (if checkTimeout =? 0 then 5 * 1000000000 else checkTimeout).

Definition RegisterCheck (name : string) (check : F) c : Checker F := mkChecker (<[name := check]> (hc_checks c)) (hc_timeout c).
Definition UnregisterCheck (name : string) c : Checker F := mkChecker (delete name (hc_checks c)) (hc_timeout c).
Definition GetCheck (name : string) c : option F := hc_checks c !! name.
Definition ListChecks `{MapRange} c : list string := fst <$> range (hc_checks c).
Definition CheckCount c : Z := Z.of_nat (size (hc_checks c)).

Definition CheckLiveness (now : Time) : HealthStatus := mkHealthStatus "ok" None now.

(** The time a check has: the timeout, or what is left of the caller's context. *)
Definition check_limit (ctxLeft : option Duration) c : Duration :=
  Z.max 0 (match ctxLeft with Some d => Z.min d (hc_timeout c) | None => hc_timeout c end).

(** [tie] says which case [select] takes when the result arrives as the context
    expires. *)
Definition runCheck (limit : Duration) (tie : bool) (p : Probe) : CheckResult :=
  let timeout := mkCheckResult "unhealthy" "health check timeout" limit in
  match pb_takes p with
  | None => timeout
  | Some d =>
      if (d <? limit) || ((d =? limit) && tie) then
        match pb_err p with
        | Some e => mkCheckResult "unhealthy" e d
        | None => mkCheckResult "ok" "" d
        end
      else timeout
  end.

Section readiness.
Context `{MapRange}.
Variable probe : F -> Probe.
Variable tie : string -> bool.

Definition check_all (limit : Duration) (order : list (string * F)) : gmap string CheckResult :=
  foldl (fun results '(name, check) => <[name := runCheck limit (tie name) (probe check)]> results) ∅ order.

Definition overall (results : gmap string CheckResult) : string :=
  foldl (fun status '(_, r) => if String.eqb (ck_Status r) "unhealthy" then "degraded" else status) "ready" (range results).

Definition CheckReadiness (now : Time) (ctxLeft : option Duration) (order : list (string * F)) c : HealthStatus :=
  if CheckCount c =? 0 then mkHealthStatus "ready" (Some ∅) now
  else
    let results := check_all (check_limit ctxLeft c) order in
    mkHealthStatus (overall results) (Some results) now.
End readiness.
End checker.

(** ** The endpoints *)

Record VersionInfo := mkVersionInfo { vi_Version : string; vi_Commit : string; vi_BuildTime : string; vi_GoVersion : string }.

Section endpoints.
Context `{MapRange}.
Variable timeJSON : Time -> string.

(** [omitempty] leaves out an empty message and a zero duration; a duration is
    encoded as its number of nanoseconds. *)
Definition result_json (r : CheckResult) : Json :=
  JObject ([("status", JString (ck_Status r))] ++
    (if String.eqb (ck_Message r) "" then [] else [("message", JString (ck_Message r))]) ++
    (if ck_Duration r =? 0 then [] else [("duration_ms", JInt (ck_Duration r))])).

Definition status_json (s : HealthStatus) : Json :=
  JObject ([("status", JString (hs_Status s))] ++
    match hs_Checks s with
    | Some m => if (Z.of_nat (size m) =? 0) then [] else [("checks", JObject ((fun '(n, r) => (n, result_json r)) <$> range m))]
    | None => []
    end ++ [("timestamp", JString (timeJSON (hs_Timestamp s)))]).

Definition version_json (v : VersionInfo) : Json :=
  JObject [("version", JString (vi_Version v)); ("commit", JString (vi_Commit v)); ("build_time", JString (vi_BuildTime v));
           ("go_version", JString (vi_GoVersion v))].

Definition is_HEAD (r : Request) : bool := String.eqb (h_Method (rq_http r)) "HEAD".

(** The common course: only [GET] and [HEAD], no body for the latter. *)
Definition probe_reply (code : Z) (body : Json) (r : Request) : list WOp :=
  if negb (is_GET r) && negb (is_HEAD r) then http_Error "Method not allowed" 405
  else [OpSet "Content-Type" "application/json"; OpStatus code] ++ (if is_HEAD r then [] else [OpWrite (BJson body)]).

Definition LivenessHandler (now : Time) (r : Request) : list WOp :=
  probe_reply 200 (status_json (CheckLiveness now)) r.

Definition ReadinessHandler (status : HealthStatus) (r : Request) : list WOp :=
  let code := if String.eqb (hs_Status status) "degraded" || String.eqb (hs_Status status) "unhealthy" then 503 else 200 in
  probe_reply code (status_json status) r.

Definition VersionHandler (info : VersionInfo) (r : Request) : list WOp := probe_reply 200 (version_json info) r.

(** [HTTPMiddleware]: the paths it registers. *)
Definition health_routes (now : Time) (status : HealthStatus) (info : VersionInfo) : list (string * (Request -> list WOp)) :=
  [("/health", LivenessHandler now); ("/ready", ReadinessHandler status); ("/version", VersionHandler info)].
End endpoints.

(** ** Rate limiting *)

(** The buffered channel of tokens: its capacity and what is in it. *)
Record HealthLimiter := mkHealthLimiter { hl_cap : nat; hl_tokens : nat }.

Inductive Limited := Unlimited | TickerPanics | LimitedBy (l : HealthLimiter) (every : Duration).

(** [time.NewTicker] panics for an interval that is not positive. *)
Definition RateLimitedHandler (requestsPerSecond : Z) : Limited :=
  if requestsPerSecond <=? 0 then Unlimited
  else
    let every := Z.quot 1000000000 requestsPerSecond in
    if every <=? 0 then TickerPanics
    else LimitedBy (mkHealthLimiter (Z.to_nat requestsPerSecond) (Z.to_nat requestsPerSecond)) every.

Definition limiter_tick (l : HealthLimiter) : HealthLimiter :=
  if (hl_tokens l <? hl_cap l)%nat then mkHealthLimiter (hl_cap l) (S (hl_tokens l)) else l.

Definition limiter_request (handler : list WOp) (l : HealthLimiter) : list WOp * HealthLimiter :=
  match hl_tokens l with
  | O => (http_Error "Too many requests" 429, l)
  | S n => (handler, mkHealthLimiter (hl_cap l) n)
  end.

(** A history of ticks ([None]) and requests, with the number that was served. *)
Fixpoint limiter_run (ops : list (option (list WOp))) (l : HealthLimiter) : nat * HealthLimiter :=
  match ops with
  | [] => (0%nat, l)
  | None :: ops => limiter_run ops (limiter_tick l)
  | Some h :: ops =>
      let served := match hl_tokens l with O => 0%nat | S _ => 1%nat end in
      let '(n, l) := limiter_run ops (snd (limiter_request h l)) in
      ((served + n)%nat, l)
  end.

(** ** Theorems *)

Section exactness.
Context {F : Type} `{MapRange}.
Variable probe : F -> Probe.
Variable tie : string -> bool.
Implicit Type (c : Checker F).

Lemma check_all_lookup limit order name :
  NoDup order.*1 ->
  check_all probe tie limit order !! name =
  (fun check => runCheck limit (tie name) (probe check)) <$> (list_to_map order : gmap string F) !! name.
Proof.
  intros Hnd. unfold check_all.
  assert (Hgen : forall (m : gmap string CheckResult),
    foldl (fun results '(name, check) => <[name := runCheck limit (tie name) (probe check)]> results) m order !! name =
    match (list_to_map order : gmap string F) !! name with
    | Some check => Some (runCheck limit (tie name) (probe check))
    | None => m !! name
    end).
  { induction order as [|[n f] order IH]; intros m.
    { change (list_to_map [] : gmap string F) with (∅ : gmap string F). by rewrite lookup_empty. }
    cbn in Hnd. apply NoDup_cons in Hnd as [Hn Hnd].
    cbn [foldl]. rewrite (IH Hnd). cbn [list_to_map foldr]. destruct (decide (n = name)) as [->|Hne].
    - rewrite !lookup_insert_eq. rewrite (not_elem_of_list_to_map_1 order name Hn). done.
    - cbn. rewrite !lookup_insert_ne by done. done. }
  rewrite Hgen. destruct (list_to_map order !! name); [done|by rewrite lookup_empty].
Qed.

Lemma overall_spec results :
  (overall results = "ready" /\ forall n r, results !! n = Some r -> ck_Status r <> "unhealthy") \/
  (overall results = "degraded" /\ exists n r, results !! n = Some r /\ ck_Status r = "unhealthy").
Proof.
  unfold overall.
  assert (Hgen : forall l s, s = "ready" \/ s = "degraded" ->
    let st := foldl (fun status '(_, r) => if String.eqb (ck_Status r) "unhealthy" then "degraded" else status) s (l : list (string * CheckResult)) in
    (st = s /\ Forall (fun e => ck_Status e.2 <> "unhealthy") l) \/ (st = "degraded" /\ Exists (fun e => ck_Status e.2 = "unhealthy") l)).
  { induction l as [|[n r] l IH]; intros s Hs; [by left|]. cbn [foldl].
    destruct (String.eqb_spec (ck_Status r) "unhealthy") as [E|E].
    - right. destruct (IH "degraded" ltac:(by right)) as [[-> _]|[-> _]]; split; try done; by left.
    - destruct (IH s Hs) as [[-> Hf]|[-> He]]; [left|right]; split; try done; [by constructor|by right]. }
  destruct (Hgen (range results) "ready" ltac:(by left)) as [[-> Hf]|[-> He]]; [left|right]; (split; [done|]).
  - intros n r Hr. rewrite Forall_forall in Hf. apply (Hf (n, r)). rewrite range_perm. by apply elem_of_map_to_list.
  - apply Exists_exists in He as ([n r] & Hin & Hr). rewrite range_perm in Hin. apply elem_of_map_to_list in Hin. by exists n, r.
Qed.

(** The check called [name] returned without an error before its time was up. *)
Definition passes (limit : Duration) (name : string) (p : Probe) : Prop :=
  pb_err p = None /\ exists d, pb_takes p = Some d /\ (d < limit \/ (d = limit /\ tie name = true)).

Lemma runCheck_spec limit name p :
  let r := runCheck limit (tie name) p in
  (ck_Status r <> "unhealthy" <-> passes limit name p) /\ ck_Duration r <= limit.
Proof.
  unfold passes, runCheck. destruct (pb_takes p) as [d|]; cbn.
  - destruct (Z.ltb_spec d limit) as [Hd|Hd], (Z.eqb_spec d limit) as [He|He], (tie name) eqn:Et, (pb_err p) as [e|];
      cbn; (split; [split; [|intros (H1 & d' & [= <-] & H2)]|lia]); try done; try (naive_solver lia);
      try (intros _; split; [done|]; exists d; split; [done|]; lia).
  - split; [|lia]. split; [done|]. by intros (_ & d & ? & _).
Qed.

Lemma probe_reply_status code body r :
  is_GET r || is_HEAD r = true -> status_of (probe_reply code body r) = code.
Proof.
  intros Hm. unfold probe_reply. destruct (is_GET r), (is_HEAD r); cbn in Hm |- *; try done.
Qed.

(** The readiness probe is exact: whatever the order in which the checks finish,
    it reports one result per registered check, each within the time a check has;
    the status is ready if and only if every check returned without an error in
    time, and degraded otherwise; and the endpoint answers 200 or 503
    accordingly. *)
Theorem readiness_exact timeJSON now ctxLeft order c r :
  order ≡ₚ map_to_list (hc_checks c) -> is_GET r || is_HEAD r = true ->
  let s := CheckReadiness probe tie now ctxLeft order c in
  let limit := check_limit ctxLeft c in
  let ready := forall name f, hc_checks c !! name = Some f -> passes limit name (probe f) in
  ((hs_Status s = "ready" /\ ready /\ status_of (ReadinessHandler timeJSON s r) = 200) \/
   (hs_Status s = "degraded" /\ ~ ready /\ status_of (ReadinessHandler timeJSON s r) = 503)) /\
  exists results, hs_Checks s = Some results /\ dom results = dom (hc_checks c) /\
    forall name res, results !! name = Some res -> ck_Duration res <= limit.
Proof.
  intros Hp Hm. unfold CheckReadiness, CheckCount. destruct (Z.eqb_spec (Z.of_nat (size (hc_checks c))) 0) as [E|E].
  { assert (Hc : hc_checks c = ∅) by (apply map_size_empty_iff; lia). cbn. rewrite Hc. split.
    - left. split; [done|]. split; [by intros n f ?|]. unfold ReadinessHandler. cbn. by apply probe_reply_status.
    - exists ∅. split_and!; [done|by rewrite !dom_empty_L|by intros n res ?]. }
  assert (Hnd : NoDup order.*1) by (rewrite Hp; apply NoDup_fst_map_to_list).
  assert (Hl : forall name, check_all probe tie (check_limit ctxLeft c) order !! name =
    (fun check => runCheck (check_limit ctxLeft c) (tie name) (probe check)) <$> hc_checks c !! name).
  { intros name. rewrite check_all_lookup by done. f_equal.
    rewrite (list_to_map_proper order _ Hnd Hp). by rewrite list_to_map_to_list. }
  cbv zeta. cbn [hs_Status hs_Checks]. split.
  - destruct (overall_spec (check_all probe tie (check_limit ctxLeft c) order)) as [[Hs Hall]|[Hs (n & res & Hn & Hu)]];
      [left|right]; unfold ReadinessHandler; cbn [hs_Status]; rewrite Hs; (split; [done|]).
    + split; [|by apply probe_reply_status]. intros name f Hf. specialize (Hall name). rewrite Hl, Hf in Hall.
      apply (proj1 (runCheck_spec (check_limit ctxLeft c) name (probe f))). by apply Hall.
    + split; [|by apply probe_reply_status]. intros Hr. rewrite Hl in Hn. apply fmap_Some in Hn as (f & Hf & ->).
      by apply (proj1 (runCheck_spec (check_limit ctxLeft c) n (probe f))) in Hu; [|apply Hr].
  - eexists. split; [done|]. split.
    + apply set_eq. intros name. rewrite !elem_of_dom, Hl. by rewrite fmap_is_Some.
    + intros name res Hres. rewrite Hl in Hres. apply fmap_Some in Hres as (f & _ & ->). apply runCheck_spec.
Qed.
End exactness.

(** The limiter never serves more requests than its capacity and the ticks that
    have passed, and never refuses one while it holds a token. *)
Theorem health_limiter_bounds ops l n l' :
  (hl_tokens l <= hl_cap l)%nat -> limiter_run ops l = (n, l') ->
  (n + hl_tokens l' <= hl_tokens l + length (List.filter (fun o => match o with None => true | Some _ => false end) ops))%nat /\
  (hl_tokens l' <= hl_cap l')%nat /\ hl_cap l' = hl_cap l.
Proof.
  revert l n l'. induction ops as [|[h|] ops IH]; intros l n l' Hl Hr; cbn in Hr.
  - injection Hr as <- <-. cbn. lia.
  - destruct (limiter_run ops (snd (limiter_request h l))) as [n1 l1] eqn:E. injection Hr as <- <-.
    unfold limiter_request in E. destruct (hl_tokens l) as [|k] eqn:Ek; cbn in E; apply IH in E; cbn in *; lia.
  - apply IH in Hr; unfold limiter_tick in *; destruct (Nat.ltb_spec (hl_tokens l) (hl_cap l)); cbn in *; lia.
Qed.

(** ** Examples *)

Definition get_request : Request := mkRequest (mkHttpRequest "GET" "/ready" (fun _ => "") "" "" (Ok "")) None None.

(** Two checks, one of which never returns. *)
Definition toy_checker : Checker bool := RegisterCheck "db" false (RegisterCheck "config" true (NewChecker 0)).
Definition toy_probe (b : bool) : Probe := mkProbe None (if b then Some 1000 else None).

Definition toy_status : HealthStatus :=
  CheckReadiness (H := some_range) toy_probe (fun _ => true) 7 None [("config", true); ("db", false)] toy_checker.

Lemma readiness_exact_witness :
  hs_Status toy_status = "degraded" /\ status_of (ReadinessHandler (H := some_range) (fun _ => "") toy_status get_request) = 503.
Proof.
  destruct (proj1 (readiness_exact (H := some_range) toy_probe (fun _ => true) (fun _ => "") 7 None
    [("config", true); ("db", false)] toy_checker get_request ltac:(vm_compute; reflexivity) eq_refl))
    as [(Hs & _)|(Hs & _ & Hc)].
  - vm_compute in Hs. discriminate Hs.
  - split; [exact Hs|exact Hc].
Defined.

Lemma health_limiter_bounds_witness :
  let ops := [Some []; Some []; None; Some []; Some []] in
  (fst (limiter_run ops (mkHealthLimiter 1 1)) <= 2)%nat.
Proof.
  intros ops. destruct (limiter_run ops (mkHealthLimiter 1 1)) as [n l] eqn:E.
  pose proof (health_limiter_bounds ops (mkHealthLimiter 1 1) n l ltac:(cbn; lia) E) as (Hn & _). cbn in Hn |- *. lia.
Defined.

(** The field [duration_ms] of a result holds nanoseconds. *)
Example duration_is_in_nanoseconds :
  result_json (mkCheckResult "ok" "" (5 * 1000000)) = JObject [("status", JString "ok"); ("duration_ms", JInt 5000000)].
Proof. reflexivity. Qed.

(** A limit of more than a thousand million requests per second makes the
    interval of the ticker zero, which panics. *)
Example huge_rate_panics : RateLimitedHandler 1000000001 = TickerPanics.
Proof. reflexivity. Qed.
