(* ===== verification/TelemetryTrace.v ===== *)
(** * Tracing ([pkg/telemetry/tracing])

    Samplers, the [traceparent] header, span attributes and the tracer.  The
    OpenTelemetry library is a parameter: what creating an exporter or a resource
    answers, the span of a context, and the propagator; a span is the list of the
    calls it receives. *)

From Stdlib Require Import ZArith Lia Ascii.
From stdpp Require Import base option list strings gmap.
From S2P Require Import Prelude Float64 GoValue ProviderTypes ProxyTypes ConfigTypes ConfigValidate Server TelemetryLog.
Local Open Scope string_scope.
Local Open Scope list_scope.
Local Open Scope Z_scope.

(** ** Sampling *)

Definition SamplerAlways : string := "always".
Definition SamplerNever : string := "never".
Definition SamplerRatio : string := "ratio".

Inductive Sampler := AlwaysSample | NeverSample | TraceIDRatioBased (ratio : float64) | ParentBased (base : Sampler).

Definition bad_ratio (ratio : float64) : bool := flt ratio fzero || flt (of_int 1) ratio.

Section sampling.
Variable fmtFloat : float64 -> string.

Definition ratio_error (ratio : float64) : string := "sample ratio must be between 0.0 and 1.0, got " +:+ fmtFloat ratio.

Definition createSampler (strategy : string) (ratio : float64) : result string Sampler :=
  if String.eqb strategy SamplerAlways then Ok (ParentBased AlwaysSample)
  else if String.eqb strategy SamplerNever then Ok (ParentBased NeverSample)
  else if String.eqb strategy SamplerRatio then
    if bad_ratio ratio then Err (ratio_error ratio) else Ok (ParentBased (TraceIDRatioBased ratio))
  else Err ("unknown sampler strategy: " +:+ strategy +:+ " (valid: always, never, ratio)").

Record SamplingConfig := mkSamplingConfig { sc_Strategy : string; sc_Ratio : float64 }.

Definition ValidateSamplingConfig (cfg : SamplingConfig) : option string :=
  if negb (existsb (String.eqb (sc_Strategy cfg)) [SamplerAlways; SamplerNever; SamplerRatio]) then
    Some ("invalid sampling strategy: " +:+ sc_Strategy cfg +:+ " (valid: always, never, ratio)")
  else if String.eqb (sc_Strategy cfg) SamplerRatio && bad_ratio (sc_Ratio cfg) then Some (ratio_error (sc_Ratio cfg))
  else None.

(** ** The tracer *)

Inductive Tracer := NoopTracer (cfg : TracingConfig) | SdkTracer (cfg : TracingConfig) (sampler : Sampler).

(** The options of the OTLP exporter. *)
Record OtlpOptions := mkOtlpOptions { oo_endpoint : string; oo_insecure : bool; oo_timeout : option Duration }.

Variable newOtlp : OtlpOptions -> option string.
Variable newResource : string -> option string.

Definition createOTLPExporter (cfg : TracingConfig) : option string :=
  let timeout := ot_Timeout (tr_OTLP cfg) in
  match newOtlp (mkOtlpOptions (tr_Endpoint cfg) (ot_Insecure (tr_OTLP cfg)) (if 0 <? timeout then Some timeout else None)) with
  | Some e => Some ("failed to create OTLP exporter: " +:+ e)
  | None => None
  end.

Definition createExporter (cfg : TracingConfig) : option string :=
  if String.eqb (tr_Exporter cfg) "otlp" then createOTLPExporter cfg
  else if String.eqb (tr_Exporter cfg) "jaeger" then
    Some "Jaeger exporter not yet implemented - use OTLP exporter with Jaeger collector"
  else if String.eqb (tr_Exporter cfg) "zipkin" then
    Some "Zipkin exporter not yet implemented - use OTLP exporter with Zipkin collector"
  else Some ("unsupported exporter: " +:+ tr_Exporter cfg).

Definition NewTracer (cfg : option TracingConfig) : result string Tracer :=
  match cfg with
  | None => Err "tracing config is nil"
  | Some cfg =>
      if negb (tr_Enabled cfg) then Ok (NoopTracer cfg)
      else
        match createSampler (tr_Sampler cfg) (tr_SampleRatio cfg) with
        | Err e => Err ("failed to create sampler: " +:+ e)
        | Ok sampler =>
            match createExporter cfg with
            | Some e => Err ("failed to create exporter: " +:+ e)
            | None =>
                match newResource (tr_ServiceName cfg) with
                | Some e => Err ("failed to create resource: " +:+ e)
                | None => Ok (SdkTracer cfg sampler)
                end
            end
        end
  end.

(** [shutdown] is the answer of the provider. *)
Definition tracer_Shutdown (shutdown : option string) (t : Tracer) : option string :=
  match t with NoopTracer _ => None | SdkTracer _ _ => shutdown end.

Definition tracer_Enabled (t : Tracer) : bool := match t with NoopTracer _ => false | SdkTracer _ _ => true end.
End sampling.

(** The span context of a context. *)
Record SpanContext := mkSpanContext { sx_TraceID : string; sx_SpanID : string; sx_valid : bool; sx_sampled : bool }.

Definition TraceID (sc : SpanContext) : string := if negb (sx_valid sc) then "" else sx_TraceID sc.
Definition SpanID (sc : SpanContext) : string := if negb (sx_valid sc) then "" else sx_SpanID sc.
Definition IsSampled (sc : SpanContext) : bool := sx_sampled sc.

(** ** Propagation *)

(** A rune outside ASCII is no hexadecimal digit, nor are the bytes of one. *)
Definition hex_digit (c : ascii) : option Z :=
  let n := Z.of_nat (nat_of_ascii c) in
  if (48 <=? n) && (n <=? 57) then Some (n - 48)
  else if (97 <=? n) && (n <=? 102) then Some (n - 87)
  else if (65 <=? n) && (n <=? 70) then Some (n - 55)
  else None.

Fixpoint isHexString (s : string) : bool :=
  match s with
  | EmptyString => true
  | String c s => match hex_digit c with Some _ => isHexString s | None => false end
  end.

Definition zeros32 : string := "00000000000000000000000000000000".
Definition zeros16 : string := "0000000000000000".

Definition hex_field (n : Z) (s : string) : bool := (len s =? n) && isHexString s.

Definition ValidateTraceParent (traceparent : string) : bool :=
  match split_on "-" traceparent with
  | [version; traceID; parentID; flags] =>
      if negb (hex_field 2 version) then false
      else if negb (hex_field 32 traceID) then false
      else if negb (hex_field 16 parentID) then false
      else if negb (hex_field 2 flags) then false
      else if String.eqb traceID zeros32 then false
      else if String.eqb parentID zeros16 then false
      else true
  | _ => false
  end.

Definition ParseTraceParent (traceparent : string) : string * string * string * string * bool :=
  if negb (ValidateTraceParent traceparent) then ("", "", "", "", false)
  else match split_on "-" traceparent with
       | [version; traceID; parentID; flags] => (version, traceID, parentID, flags, true)
       | _ => ("", "", "", "", false)
       end.

(** [fmt.Sscanf(s, "%02x", &b)] on two hexadecimal digits *)
Definition scan_byte (s : string) : option Z :=
  match s with
  | String a (String b EmptyString) =>
      match hex_digit a, hex_digit b with Some x, Some y => Some (16 * x + y) | _, _ => None end
  | _ => None
  end.

Definition IsSampledFromTraceParent (traceparent : string) : bool :=
  let '(_, _, _, flags, valid) := ParseTraceParent traceparent in
  if negb valid then false
  else if negb (len flags =? 2) then false
  else match scan_byte flags with
       | None => false
       | Some flagsByte => Z.land flagsByte 1 =? 1
       end.

(** [get] is [http.Header.Get]. *)
Definition PropagationDebugInfo (get : string -> string) : gmap string string :=
  let traceparent := get "traceparent" in
  let info :=
    if String.eqb traceparent "" then {[ "traceparent" := "not present" ]}
    else
      let '(version, traceID, parentID, flags, valid) := ParseTraceParent traceparent in
      if valid then
        <["sampled" := if IsSampledFromTraceParent traceparent then "true" else "false"]>
        (<["flags" := flags]> (<["parent_id" := parentID]> (<["trace_id" := traceID]> (<["version" := version]>
        {[ "traceparent" := traceparent ]}))))
      else <["error" := "invalid traceparent format"]> {[ "traceparent" := traceparent ]} in
  let tracestate := get "tracestate" in
  <["tracestate" := if String.eqb tracestate "" then "not present" else tracestate]> info.

(** The middleware: [extract] is the propagator on the request's headers. *)
Definition tracing_middleware (extract : (string -> string) -> SpanContext) (next : Program) : Program := fun r =>
  let sc := extract (h_Header (rq_http r)) in
  let '(ops, panics) := next r in
  ((if sx_valid sc then [OpSet "X-Trace-ID" (sx_TraceID sc); OpSet "X-Span-ID" (sx_SpanID sc)] else []) ++ ops, panics).

(** ** Span attributes *)

Inductive AttrValue := AString (s : string) | AInt (z : Z) | AFloat (f : float64) | ABool (b : bool).
Definition KeyValue : Type := string * AttrValue.

Inductive SpanOp :=
  | SetAttributes (kvs : list KeyValue)
  | RecordError (e : string)
  | SpanStatus (error : bool) (description : string)
  | SpanEvent (name : string) (kvs : list KeyValue).

Definition AttrProvider : string := "mercator.provider".
Definition AttrModel : string := "mercator.model".
Definition AttrRequestID : string := "mercator.request_id".
Definition AttrAPIKey : string := "mercator.api_key".
Definition AttrUser : string := "mercator.user".
Definition AttrTeam : string := "mercator.team".
Definition AttrSession : string := "mercator.session".
Definition AttrTokensPrompt : string := "mercator.tokens.prompt".
Definition AttrTokensCompletion : string := "mercator.tokens.completion".
Definition AttrTokensTotal : string := "mercator.tokens.total".
Definition AttrCost : string := "mercator.cost.total".
Definition AttrCostCurrency : string := "mercator.cost.currency".
Definition AttrCostPerToken : string := "mercator.cost.per_token".
Definition AttrPolicyID : string := "mercator.policy.id".
Definition AttrPolicyRule : string := "mercator.policy.rule".
Definition AttrPolicyAction : string := "mercator.policy.action".
Definition AttrCacheHit : string := "mercator.cache.hit".
Definition AttrCacheName : string := "mercator.cache.name".
Definition AttrErrorType : string := "mercator.error.type".
Definition AttrErrorMessage : string := "error.message".
Definition AttrDuration : string := "mercator.duration_ms".
Definition AttrRetryCount : string := "mercator.retry_count".

Definition SetProviderAttributes (provider model : string) : list SpanOp :=
  [SetAttributes [(AttrProvider, AString provider); (AttrModel, AString model)]].

Definition redacted_key (apiKey : string) : string :=
  if 4 <? len apiKey then slice_to 4 apiKey +:+ "***" else apiKey.

Definition SetRequestAttributes (requestID apiKey user : string) : list SpanOp :=
  [SetAttributes ([(AttrRequestID, AString requestID)] ++
     (if String.eqb apiKey "" then [] else [(AttrAPIKey, AString (redacted_key apiKey))]) ++
     (if String.eqb user "" then [] else [(AttrUser, AString user)]))].

Definition token_attrs (promptTokens completionTokens : Z) : list KeyValue :=
  [(AttrTokensPrompt, AInt promptTokens); (AttrTokensCompletion, AInt completionTokens);
   (AttrTokensTotal, AInt (add64 promptTokens completionTokens))].

Definition SetTokenAttributes (promptTokens completionTokens : Z) : list SpanOp :=
  [SetAttributes (token_attrs promptTokens completionTokens)].

Definition SetCostAttributes (cost : float64) (currency : string) : list SpanOp :=
  [SetAttributes [(AttrCost, AFloat cost); (AttrCostCurrency, AString currency)]].

Definition SetCostWithTokens (promptTokens completionTokens : Z) (cost : float64) : list SpanOp :=
  SetTokenAttributes promptTokens completionTokens ++ SetCostAttributes cost "USD" ++
  let totalTokens := add64 promptTokens completionTokens in
  if 0 <? totalTokens then [SetAttributes [(AttrCostPerToken, AFloat (fdiv cost (of_int totalTokens)))]] else [].

Definition SetPolicyAttributes (policyID ruleID action : string) : list SpanOp :=
  [SetAttributes [(AttrPolicyID, AString policyID); (AttrPolicyRule, AString ruleID); (AttrPolicyAction, AString action)]].

Definition SetCacheAttributes (hit : bool) (cacheName : string) : list SpanOp :=
  [SetAttributes [(AttrCacheHit, ABool hit); (AttrCacheName, AString cacheName)]].

Definition SetErrorAttributes (err : option string) (errorType : string) : list SpanOp :=
  match err with
  | None => []
  | Some e =>
      [SetAttributes [("error", ABool true); (AttrErrorType, AString errorType); (AttrErrorMessage, AString e)];
       RecordError e; SpanStatus true e]
  end.

(** [SetError], [SetStatus] of [tracer.go] and [RecordException]. *)
Definition SetError (err : option string) : list SpanOp :=
  match err with
  | None => []
  | Some e => [SetAttributes [("error", ABool true); ("error.message", AString e)]; RecordError e]
  end.

Definition SetStatus (err : option string) : list SpanOp :=
  match err with Some e => [SpanStatus true e] | None => [SpanStatus false ""] end.

Definition RecordException (err : option string) : list SpanOp := match err with Some e => [RecordError e] | None => [] end.

Definition SetDurationAttribute (durationMs : Z) : list SpanOp := [SetAttributes [(AttrDuration, AInt durationMs)]].
Definition SetRetryAttribute (retryCount : Z) : list SpanOp := [SetAttributes [(AttrRetryCount, AInt retryCount)]].
Definition SetTeamAttribute (team : string) : list SpanOp :=
  if String.eqb team "" then [] else [SetAttributes [(AttrTeam, AString team)]].
Definition SetSessionAttribute (session : string) : list SpanOp :=
  if String.eqb session "" then [] else [SetAttributes [(AttrSession, AString session)]].

Definition AddEvent (name : string) (attrs : list KeyValue) : list SpanOp := [SpanEvent name attrs].
Definition AddEventWithTimestamp (name : string) (timestamp : Z) (attrs : list KeyValue) : list SpanOp := [SpanEvent name attrs].

(** *** The builder *)

Definition AttributeBuilder : Type := list KeyValue.
Definition NewAttributeBuilder : AttributeBuilder := [].

Definition WithProvider (provider model : string) (ab : AttributeBuilder) : AttributeBuilder :=
  ab ++ [(AttrProvider, AString provider); (AttrModel, AString model)].
Definition WithRequest (requestID user : string) (ab : AttributeBuilder) : AttributeBuilder :=
  ab ++ [(AttrRequestID, AString requestID)] ++ (if String.eqb user "" then [] else [(AttrUser, AString user)]).
Definition WithTokens (promptTokens completionTokens : Z) (ab : AttributeBuilder) : AttributeBuilder :=
  ab ++ token_attrs promptTokens completionTokens.
Definition WithCost (cost : float64) (ab : AttributeBuilder) : AttributeBuilder :=
  ab ++ [(AttrCost, AFloat cost); (AttrCostCurrency, AString "USD")].
Definition WithPolicy (policyID ruleID action : string) (ab : AttributeBuilder) : AttributeBuilder :=
  ab ++ [(AttrPolicyID, AString policyID); (AttrPolicyRule, AString ruleID); (AttrPolicyAction, AString action)].
Definition WithCache (hit : bool) (cacheName : string) (ab : AttributeBuilder) : AttributeBuilder :=
  ab ++ [(AttrCacheHit, ABool hit); (AttrCacheName, AString cacheName)].

(** [int] and [int64] are integers of the attribute; other integer types, like any
    other type, are formatted. *)
Definition WithCustom `{GoStd} (key : string) (value : GoValue) (ab : AttributeBuilder) : AttributeBuilder :=
  ab ++ [(key, match value with
               | VString s => AString s
               | VInt KInt z => AInt z
               | VInt KInt64 z => AInt z
               | VFloat64 f => AFloat f
               | VBool b => ABool b
               | v => AString (fmt_Sprint v)
               end)].

Definition Apply (ab : AttributeBuilder) : list SpanOp := [SetAttributes ab].

(** ** Theorems *)

Fixpoint has_char (x : ascii) (s : string) : bool :=
  match s with EmptyString => false | String c s => Ascii.eqb c x || has_char x s end.

Fixpoint join_on (sep : ascii) (l : list string) : string :=
  match l with
  | [] => ""
  | [w] => w
  | w :: l => w +:+ String sep (join_on sep l)
  end.

Lemma split_on_none sep s : has_char sep s = false -> split_on sep s = [s].
Proof.
  induction s as [|c s IH]; intros Hs; [done|]. cbn in Hs |- *. apply orb_false_iff in Hs as [-> Hs]. by rewrite (IH Hs).
Qed.

Lemma split_on_sep sep a b : has_char sep a = false -> split_on sep (a +:+ String sep b) = a :: split_on sep b.
Proof.
  induction a as [|c a IH]; intros Ha.
  - rewrite string_app_nil_l. cbn. by rewrite Ascii.eqb_refl.
  - cbn in Ha. apply orb_false_iff in Ha as [Hc Ha]. rewrite string_app_cons. cbn. by rewrite Hc, (IH Ha).
Qed.

Lemma split_on_cons sep s : exists w ws, split_on sep s = w :: ws.
Proof. destruct s as [|c s]; cbn; [eauto|]. destruct (Ascii.eqb c sep); [eauto|]. destruct (split_on sep s); eauto. Qed.

Lemma join_on_cons sep w x l : join_on sep (w :: x :: l) = w +:+ String sep (join_on sep (x :: l)).
Proof. done. Qed.

Lemma join_split sep s : join_on sep (split_on sep s) = s.
Proof.
  induction s as [|c s IH]; [done|]. cbn [split_on]. destruct (split_on_cons sep s) as (w & ws & E). rewrite E in IH |- *.
  destruct (Ascii.eqb_spec c sep) as [->|Hc].
  - by rewrite join_on_cons, string_app_nil_l, IH.
  - destruct ws as [|w1 ws]; [cbn in IH |- *; by rewrite IH|].
    rewrite join_on_cons in IH |- *. by rewrite string_app_cons, IH.
Qed.

Lemma hex_no_dash s : isHexString s = true -> has_char "-" s = false.
Proof.
  induction s as [|c s IH]; intros Hs; [done|]. cbn in Hs |- *. destruct (Ascii.eqb_spec c "-") as [->|]; [done|].
  destruct (hex_digit c); [by apply IH|done].
Qed.

(** The four fields of a [traceparent] header. *)
Definition trace_fields (version traceID parentID flags : string) : Prop :=
  hex_field 2 version = true /\ hex_field 32 traceID = true /\ hex_field 16 parentID = true /\ hex_field 2 flags = true /\
  traceID <> zeros32 /\ parentID <> zeros16.

Definition print_traceparent (version traceID parentID flags : string) : string :=
  join_on "-" [version; traceID; parentID; flags].

Lemma validate_fields tp v t p f :
  split_on "-" tp = [v; t; p; f] -> (ValidateTraceParent tp = true <-> trace_fields v t p f).
Proof.
  intros E. unfold ValidateTraceParent, trace_fields. rewrite E.
  destruct (hex_field 2 v), (hex_field 32 t), (hex_field 16 p), (hex_field 2 f); cbn; try (split; [done|by intros (? & ? & ? & ? & _)]).
  destruct (String.eqb_spec t zeros32), (String.eqb_spec p zeros16); naive_solver.
Qed.

Lemma parse_iff tp v t p f :
  ParseTraceParent tp = (v, t, p, f, true) <-> tp = print_traceparent v t p f /\ trace_fields v t p f.
Proof.
  unfold ParseTraceParent. split.
  - destruct (ValidateTraceParent tp) eqn:Ev; cbn [negb]; [|done].
    destruct (split_on "-" tp) as [|v' [|t' [|p' [|f' [|]]]]] eqn:E; try done. intros [= <- <- <- <-].
    split; [|by apply (validate_fields tp)]. unfold print_traceparent. by rewrite <- E, join_split.
  - intros [-> Hf].
    assert (E : split_on "-" (print_traceparent v t p f) = [v; t; p; f]).
    { destruct Hf as (Hv & Ht & Hp & Hff & _). unfold hex_field in *. apply andb_true_iff in Hv as [_ Hv], Ht as [_ Ht], Hp as [_ Hp], Hff as [_ Hff].
      unfold print_traceparent. cbn [join_on].
      rewrite !split_on_sep by (by apply hex_no_dash). by rewrite split_on_none by (by apply hex_no_dash). }
    rewrite (proj2 (validate_fields _ v t p f E) Hf). cbn [negb]. by rewrite E.
Qed.

(** C25: parsing inverts printing, both ways: a header is parsed into four fields
    exactly when it is their printed form and they are hexadecimal numbers of the
    prescribed lengths with a trace and a parent that are not zero. *)
Theorem traceparent_roundtrip tp v t p f :
  ParseTraceParent tp = (v, t, p, f, true) <-> tp = print_traceparent v t p f /\ trace_fields v t p f.
Proof. rewrite parse_iff. split; by intros [? ?]. Qed.

Lemma hex_digit_range c n : hex_digit c = Some n -> 0 <= n < 16.
Proof. unfold hex_digit. repeat case_match; intros [= <-]; lia. Qed.

Lemma scan_hex_field f : hex_field 2 f = true -> exists n, scan_byte f = Some n /\ 0 <= n < 256.
Proof.
  unfold hex_field, len. intros [Hl%Z.eqb_eq Hh]%andb_true_iff.
  destruct f as [|a [|b [|c f]]]; cbn [String.length] in Hl; [lia..| |lia].
  cbn in Hh |- *. destruct (hex_digit a) as [x|] eqn:Ex; [|done]. destruct (hex_digit b) as [y|] eqn:Ey; [|done].
  apply hex_digit_range in Ex, Ey. eexists. split; [done|]. lia.
Qed.

(** A trace counts as sampled exactly when its header is valid and the lowest bit
    of its flags is set. *)
Theorem sampled_iff_bit tp :
  IsSampledFromTraceParent tp = true <->
  exists v t p f n, tp = print_traceparent v t p f /\ trace_fields v t p f /\ scan_byte f = Some n /\ Z.testbit n 0 = true.
Proof.
  unfold IsSampledFromTraceParent. destruct (ParseTraceParent tp) as [[[[v t] p] f] valid] eqn:E. destruct valid; cbn [negb].
  - pose proof (proj1 (parse_iff tp v t p f) E) as [Htp Hf].
    pose proof Hf as (_ & _ & _ & Hff & _). pose proof Hff as Hff'. unfold hex_field in Hff'. apply andb_true_iff in Hff' as [Hlen _].
    rewrite Hlen. cbn [negb]. destruct (scan_hex_field f Hff) as (n & Hn & _). rewrite Hn.
    assert (Hb : (Z.land n 1 =? 1) = Z.testbit n 0).
    { change 1 with (Z.ones 1) at 1. rewrite Z.land_ones by lia. rewrite Z.bit0_odd. change (2 ^ 1) with 2.
      rewrite Zmod_odd. by destruct (Z.odd n). }
    rewrite Hb. split; [intros Hb1; by exists v, t, p, f, n|].
    intros (v' & t' & p' & f' & n' & Htp' & Hf' & Hn' & Hb'). 
    assert (E' : ParseTraceParent tp = (v', t', p', f', true)) by (by apply parse_iff).
    rewrite E in E'. injection E' as <- <- <- <-. by rewrite Hn in Hn'; injection Hn' as <-.
  - split; [done|]. intros (v' & t' & p' & f' & n' & Htp' & Hf' & _).
    assert (E' : ParseTraceParent tp = (v', t', p', f', true)) by (by apply parse_iff). congruence.
Qed.

(** The validation of a sampling configuration accepts exactly what the tracer
    can build a sampler from, and every sampler follows its parent. *)
Theorem sampling_config_exact fmtFloat cfg :
  (ValidateSamplingConfig fmtFloat cfg = None <-> exists s, createSampler fmtFloat (sc_Strategy cfg) (sc_Ratio cfg) = Ok s) /\
  forall s, createSampler fmtFloat (sc_Strategy cfg) (sc_Ratio cfg) = Ok s -> exists base, s = ParentBased base.
Proof.
  unfold ValidateSamplingConfig, createSampler. cbn [existsb].
  destruct (String.eqb_spec (sc_Strategy cfg) SamplerAlways) as [E|]; [rewrite E; cbn; naive_solver|].
  destruct (String.eqb_spec (sc_Strategy cfg) SamplerNever) as [E|]; [rewrite E; cbn; naive_solver|].
  destruct (String.eqb_spec (sc_Strategy cfg) SamplerRatio) as [E|]; cbn; [|naive_solver].
  destruct (bad_ratio _); naive_solver.
Qed.

(** ** Examples *)

Definition example_header : string := "00-4bf92f3577b34da6a3ce929d0e0e4736-00f067aa0ba902b7-01".

Example header_examples :
  IsSampledFromTraceParent example_header = true /\
  ParseTraceParent example_header = ("00", "4bf92f3577b34da6a3ce929d0e0e4736", "00f067aa0ba902b7", "01", true) /\
  ValidateTraceParent "00-00000000000000000000000000000000-00f067aa0ba902b7-01" = false.
Proof. vm_compute. repeat split. Qed.

(** Two headers that the specification of trace contexts forbids pass: the
    reserved version [ff] and upper-case digits. *)
Example forbidden_headers_pass :
  ValidateTraceParent "ff-4bf92f3577b34da6a3ce929d0e0e4736-00f067aa0ba902b7-01" = true /\
  ValidateTraceParent "00-4BF92F3577B34DA6A3CE929D0E0E4736-00f067aa0ba902b7-01" = true.
Proof. vm_compute. repeat split. Qed.

(** A short API key is written to the span in full, where the logger hides it. *)
Example short_key_on_span :
  SetRequestAttributes "r" "abcd" "" = [SetAttributes [(AttrRequestID, AString "r"); (AttrAPIKey, AString "abcd")]] /\
  RedactAPIKey "abcd" = "***".
Proof. vm_compute. repeat split. Qed.

(** A ratio that is not a number passes both tests and becomes the ratio of the
    sampler. *)
Example ratio_not_a_number :
  createSampler (fun _ => "") SamplerRatio SpecFloat.S754_nan = Ok (ParentBased (TraceIDRatioBased SpecFloat.S754_nan)).
Proof. reflexivity. Qed.

(** A telemetry section that passes the validation of the configuration can still
    keep the gateway from starting: the sampler and the exporter are not
    checked. *)
Example valid_section_no_tracer `{Fmt} :
  let t := mkTracingConfig true "always" fzero "jaeger" "localhost:4317" "" (mkOTLPConfig true 0) (mkJaegerConfig "" 0) in
  let c := mkTelemetryConfig (mkLoggingConfig "info" "json" false true 0 []) (mkMetricsConfig false "" 0 "" "" [] []) t
             (mkHealthConfig false "" "" "" 0 0) in
  validateTelemetry c = [] /\
  NewTracer (fun _ => "") (fun _ => None) (fun _ => None) (Some t) =
  Err "failed to create exporter: Jaeger exporter not yet implemented - use OTLP exporter with Jaeger collector".
Proof. vm_compute. repeat split. Qed.
