(* ===== verification/TelemetryMetrics.v ===== *)
(** * Metrics ([pkg/telemetry/metrics], [pkg/limits/metrics.go])

    The Prometheus client library is a parameter of the program: recording is the
    list of the updates the library receives ([MetricOp]: the metric, its label
    values and the change), and the registry is the set of metric names, which
    refuses to register a name twice ([MustRegister] panics).  The limiter that
    keeps the number of label sets bounded is the program's own. *)

From Stdlib Require Import ZArith Lia Ascii.
From stdpp Require Import base option list strings gmap.
From S2P Require Import Prelude Float64 GoValue ConfigTypes TelemetryTrace.
Local Open Scope string_scope.
Local Open Scope list_scope.
Local Open Scope Z_scope.

(** ** Updates and registration *)

Inductive MetricOp :=
  | Inc (metric : string) (labels : list string)
  | Add (metric : string) (labels : list string) (v : float64)
  | SetGauge (metric : string) (labels : list string) (v : float64)
  | Observe (metric : string) (labels : list string) (v : float64).

Definition series (o : MetricOp) : string * list string :=
  match o with Inc m l | Add m l _ | SetGauge m l _ | Observe m l _ => (m, l) end.

(** A metric with its label names. *)
Record MetricDesc := mkMetricDesc { md_name : string; md_labels : list string }.

(** [prometheus.BuildFQName] *)
Definition fqName (namespace subsystem name : string) : string :=
  if String.eqb name "" then ""
  else if negb (String.eqb namespace "") && negb (String.eqb subsystem "") then namespace +:+ "_" +:+ subsystem +:+ "_" +:+ name
  else if negb (String.eqb namespace "") then namespace +:+ "_" +:+ name
  else if negb (String.eqb subsystem "") then subsystem +:+ "_" +:+ name
  else name.

Definition Registry : Type := list MetricDesc.

(** [None] is the panic of a second registration. *)
Fixpoint MustRegister (ms : list MetricDesc) (r : Registry) : option Registry :=
  match ms with
  | [] => Some r
  | m :: ms => if existsb (fun d => String.eqb (md_name d) (md_name m)) r then None else MustRegister ms (r ++ [m])
  end.

Definition desc (cfg : MetricsConfig) (name : string) (labels : list string) : MetricDesc :=
  mkMetricDesc (fqName (mt_Namespace cfg) (mt_Subsystem cfg) name) labels.

(** ** The groups of metrics *)

Section groups.
Variable cfg : MetricsConfig.
Definition name_of (n : string) : string := fqName (mt_Namespace cfg) (mt_Subsystem cfg) n.

(** [time.Duration.Seconds]: whole seconds plus the fraction. *)
Definition Seconds (d : Duration) : float64 :=
  fadd (of_int (Z.quot d 1000000000)) (fdiv (of_int (Z.rem d 1000000000)) (of_int 1000000000)).

(** *** Requests ([request.go]) *)

Definition NewRequestMetrics : Registry -> option Registry :=
  MustRegister [desc cfg "requests_total" ["provider"; "model"; "status"];
                desc cfg "request_duration_seconds" ["provider"; "model"];
                desc cfg "request_tokens_total" ["provider"; "model"; "type"];
                desc cfg "request_size_bytes" ["provider"; "model"; "direction"]].

Definition request_RecordRequest (provider model status : string) (duration : Duration) (tokens : Z) : list MetricOp :=
  [Inc (name_of "requests_total") [provider; model; status];
   Observe (name_of "request_duration_seconds") [provider; model] (Seconds duration)] ++
  (if 0 <? tokens then [Add (name_of "request_tokens_total") [provider; model; "total"] (of_int tokens)] else []).

Definition RecordTokens (provider model : string) (promptTokens completionTokens : Z) : list MetricOp :=
  (if 0 <? promptTokens then [Add (name_of "request_tokens_total") [provider; model; "prompt"] (of_int promptTokens)] else []) ++
  (if 0 <? completionTokens then [Add (name_of "request_tokens_total") [provider; model; "completion"] (of_int completionTokens)] else []).

Definition RecordSize (provider model direction : string) (sizeBytes : Z) : list MetricOp :=
  if 0 <? sizeBytes then [Observe (name_of "request_size_bytes") [provider; model; direction] (of_int sizeBytes)] else [].

(** *** Providers ([provider.go]) *)

Definition NewProviderMetrics : Registry -> option Registry :=
  MustRegister [desc cfg "provider_health" ["provider"]; desc cfg "provider_latency_seconds" ["provider"; "model"];
                desc cfg "provider_errors_total" ["provider"; "error_type"];
                desc cfg "provider_requests_total" ["provider"; "model"]].

Definition UpdateHealth (provider : string) (healthy : bool) : list MetricOp :=
  [SetGauge (name_of "provider_health") [provider] (if healthy then of_int 1 else fzero)].
Definition RecordLatency (provider model : string) (latencySeconds : float64) : list MetricOp :=
  [Observe (name_of "provider_latency_seconds") [provider; model] latencySeconds].
Definition RecordProviderErr (provider errorType : string) : list MetricOp :=
  [Inc (name_of "provider_errors_total") [provider; errorType]].
Definition provider_RecordRequest (provider model : string) : list MetricOp :=
  [Inc (name_of "provider_requests_total") [provider; model]].

(** *** Policies ([policy.go]) *)

Definition NewPolicyMetrics : Registry -> option Registry :=
  MustRegister [desc cfg "policy_evaluations_total" ["rule_id"; "action"];
                desc cfg "policy_evaluation_duration_seconds" ["rule_id"]; desc cfg "policy_hits_total" ["rule_id"];
                desc cfg "policy_misses_total" ["rule_id"]].

Definition RecordEvaluation (ruleID action : string) (duration : Duration) : list MetricOp :=
  [Inc (name_of "policy_evaluations_total") [ruleID; action];
   Observe (name_of "policy_evaluation_duration_seconds") [ruleID] (Seconds duration)].
Definition policy_RecordHit (ruleID : string) : list MetricOp := [Inc (name_of "policy_hits_total") [ruleID]].
Definition policy_RecordMiss (ruleID : string) : list MetricOp := [Inc (name_of "policy_misses_total") [ruleID]].

(** *** Costs ([cost.go]) *)

Definition NewCostMetrics : Registry -> option Registry :=
  MustRegister [desc cfg "cost_total" ["provider"; "model"]; desc cfg "cost_per_request" ["provider"; "model"];
                desc cfg "cost_per_token" ["provider"; "model"]].

Definition RecordRequestCost (provider model : string) (costUSD : float64) : list MetricOp :=
  if fle costUSD fzero then []
  else [Add (name_of "cost_total") [provider; model] costUSD; Observe (name_of "cost_per_request") [provider; model] costUSD].
Definition UpdateCostPerToken (provider model : string) (costPerToken : float64) : list MetricOp :=
  [SetGauge (name_of "cost_per_token") [provider; model] costPerToken].

(** *** Caches ([cache.go]) *)

Definition NewCacheMetrics : Registry -> option Registry :=
  MustRegister [desc cfg "cache_hits_total" ["cache"]; desc cfg "cache_misses_total" ["cache"];
                desc cfg "cache_entries" ["cache"]; desc cfg "cache_evictions_total" ["cache"]].

Definition cache_RecordHit (cacheName : string) : list MetricOp := [Inc (name_of "cache_hits_total") [cacheName]].
Definition cache_RecordMiss (cacheName : string) : list MetricOp := [Inc (name_of "cache_misses_total") [cacheName]].
Definition UpdateSize (cacheName : string) (size : Z) : list MetricOp := [SetGauge (name_of "cache_entries") [cacheName] (of_int size)].
Definition RecordEviction (cacheName : string) : list MetricOp := [Inc (name_of "cache_evictions_total") [cacheName]].
End groups.

(** ** The cardinality limiter *)

Record CardinalityLimiter := mkCardinalityLimiter { maxCardinality : Z; current : gset string }.

Definition NewCardinalityLimiter (max : Z) : CardinalityLimiter := mkCardinalityLimiter max ∅.

Definition Count (cl : CardinalityLimiter) : Z := Z.of_nat (size (current cl)).

(** The section under the read lock, and the one under the write lock, which
    checks again: other calls may come between them. *)
Definition Allow_read (labelSet : string) (cl : CardinalityLimiter) : bool := bool_decide (labelSet ∈ current cl).

Definition Allow_write (labelSet : string) (cl : CardinalityLimiter) : bool * CardinalityLimiter :=
  if bool_decide (labelSet ∈ current cl) then (true, cl)
  else if maxCardinality cl <=? Count cl then (false, cl)
  else (true, mkCardinalityLimiter (maxCardinality cl) ({[labelSet]} ∪ current cl)).

Definition Allow (labelSet : string) (cl : CardinalityLimiter) : bool * CardinalityLimiter :=
  if Allow_read labelSet cl then (true, cl) else Allow_write labelSet cl.

(** ** The collector *)

Record Collector := mkCollector { mc_config : MetricsConfig; mc_registry : Registry; mc_limiter : CardinalityLimiter }.

Definition default_buckets (buckets defaults : list float64) : list float64 :=
  match buckets with [] => defaults | _ => buckets end.

Definition collector_config (cfg : MetricsConfig) : MetricsConfig :=
  mkMetricsConfig (mt_Enabled cfg) (mt_Path cfg) (mt_Port cfg)
    (if String.eqb (mt_Namespace cfg) "" then "mercator" else mt_Namespace cfg)
    (if String.eqb (mt_Subsystem cfg) "" then "jupiter" else mt_Subsystem cfg)
    (default_buckets (mt_RequestDurationBuckets cfg)
       [flit 1 10; flit 1 4; flit 1 2; of_int 1; of_int 2; of_int 5; of_int 10; of_int 30])
    (default_buckets (mt_TokenCountBuckets cfg)
       [of_int 100; of_int 500; of_int 1000; of_int 5000; of_int 10000; of_int 50000; of_int 100000]).

(** [registry] is [None] for a fresh one; the result is [None] when a metric is
    registered already. *)
Definition NewCollector (cfg : MetricsConfig) (registry : option Registry) : option Collector :=
  let cfg := collector_config cfg in
  r ← NewRequestMetrics cfg (default [] registry);
  r ← NewProviderMetrics cfg r;
  r ← NewPolicyMetrics cfg r;
  r ← NewCostMetrics cfg r;
  r ← NewCacheMetrics cfg r;
  Some (mkCollector cfg r (NewCardinalityLimiter 10000)).

Definition labelSet_of (provider model status : string) : string :=
  "request:" +:+ provider +:+ ":" +:+ model +:+ ":" +:+ status.

Definition RecordRequest (provider model status : string) (duration : Duration) (tokens : Z) (cost : float64) (c : Collector) :
    list MetricOp * Collector :=
  if negb (mt_Enabled (mc_config c)) then ([], c)
  else
    let '(ok, limiter) := Allow (labelSet_of provider model status) (mc_limiter c) in
    let model := if ok then model else "other" in
    (request_RecordRequest (mc_config c) provider model status duration tokens ++
     RecordRequestCost (mc_config c) provider model cost,
     mkCollector (mc_config c) (mc_registry c) limiter).

(** The other recording methods: nothing when metrics are disabled. *)
Definition if_enabled (c : Collector) (ops : list MetricOp) : list MetricOp := if negb (mt_Enabled (mc_config c)) then [] else ops.

Definition RecordProviderLatency (provider model : string) (latency : float64) (c : Collector) : list MetricOp :=
  if_enabled c (RecordLatency (mc_config c) provider model latency).
Definition UpdateProviderHealth (provider : string) (healthy : bool) (c : Collector) : list MetricOp :=
  if_enabled c (UpdateHealth (mc_config c) provider healthy).
Definition RecordProviderError (provider errorType : string) (c : Collector) : list MetricOp :=
  if_enabled c (RecordProviderErr (mc_config c) provider errorType).
Definition RecordPolicyEvaluation (ruleID action : string) (duration : Duration) (c : Collector) : list MetricOp :=
  if_enabled c (RecordEvaluation (mc_config c) ruleID action duration).
Definition RecordPolicyHit (ruleID : string) (c : Collector) : list MetricOp := if_enabled c (policy_RecordHit (mc_config c) ruleID).
Definition RecordPolicyMiss (ruleID : string) (c : Collector) : list MetricOp := if_enabled c (policy_RecordMiss (mc_config c) ruleID).
Definition RecordCacheHit (cacheName : string) (c : Collector) : list MetricOp := if_enabled c (cache_RecordHit (mc_config c) cacheName).
Definition RecordCacheMiss (cacheName : string) (c : Collector) : list MetricOp := if_enabled c (cache_RecordMiss (mc_config c) cacheName).
Definition UpdateCacheSize (cacheName : string) (size : Z) (c : Collector) : list MetricOp :=
  if_enabled c (UpdateSize (mc_config c) cacheName size).

(** ** Metrics of the limits ([pkg/limits/metrics.go]) *)

Definition limit_metric (n : string) : string := "mercator_limits_" +:+ n.

(** [promauto] registers with the default registry. *)
Definition NewLimitMetrics : Registry -> option Registry :=
  MustRegister [mkMetricDesc (limit_metric "rate_limit_checks_total") ["identifier"; "result"];
                mkMetricDesc (limit_metric "rate_limit_hits_total") ["identifier"; "limit_type"];
                mkMetricDesc (limit_metric "budget_checks_total") ["identifier"; "result"];
                mkMetricDesc (limit_metric "budget_hits_total") ["identifier"; "window"];
                mkMetricDesc (limit_metric "budget_usage_percentage") ["identifier"; "window"];
                mkMetricDesc (limit_metric "enforcement_actions_total") ["identifier"; "action"];
                mkMetricDesc (limit_metric "concurrent_requests") ["identifier"];
                mkMetricDesc (limit_metric "check_duration_seconds") ["operation"]].

Definition check_result (allowed : bool) : string := if allowed then "allowed" else "blocked".

Definition RecordRateLimitCheck (identifier : string) (allowed : bool) : list MetricOp :=
  [Inc (limit_metric "rate_limit_checks_total") [identifier; check_result allowed]].
Definition RecordRateLimitHit (identifier limitType : string) : list MetricOp :=
  [Inc (limit_metric "rate_limit_hits_total") [identifier; limitType]].
Definition RecordBudgetCheck (identifier : string) (allowed : bool) : list MetricOp :=
  [Inc (limit_metric "budget_checks_total") [identifier; check_result allowed]].
Definition RecordBudgetHit (identifier window : string) : list MetricOp :=
  [Inc (limit_metric "budget_hits_total") [identifier; window]].
Definition UpdateBudgetUsage (identifier window : string) (percentage : float64) : list MetricOp :=
  [SetGauge (limit_metric "budget_usage_percentage") [identifier; window] percentage].
Definition RecordEnforcementAction (identifier action : string) : list MetricOp :=
  [Inc (limit_metric "enforcement_actions_total") [identifier; action]].
Definition UpdateConcurrentRequests (identifier : string) (count : Z) : list MetricOp :=
  [SetGauge (limit_metric "concurrent_requests") [identifier] (of_int count)].
Definition RecordCheckDuration (operation : string) (duration : float64) : list MetricOp :=
  [Observe (limit_metric "check_duration_seconds") [operation] duration].

(** ** Theorems *)

(** Of the two sections of [Allow] only the second matters: a set that was in the
    map when it was read is still there. *)
Lemma allow_atomic labelSet cl : Allow labelSet cl = Allow_write labelSet cl.
Proof. unfold Allow, Allow_read, Allow_write. by case_bool_decide. Qed.

Lemma allow_write_mono labelSet cl :
  current cl ⊆ current (snd (Allow_write labelSet cl)) /\
  maxCardinality (snd (Allow_write labelSet cl)) = maxCardinality cl /\
  (Count cl <= maxCardinality cl -> Count (snd (Allow_write labelSet cl)) <= maxCardinality cl) /\
  (fst (Allow_write labelSet cl) = true -> labelSet ∈ current (snd (Allow_write labelSet cl))).
Proof.
  unfold Allow_write, Count. case_bool_decide as Hin; [by split_and!|].
  destruct (Z.leb_spec (maxCardinality cl) (Z.of_nat (size (current cl)))); cbn; split_and!; try done; [set_solver| |set_solver].
  intros _. rewrite size_union by set_solver. rewrite size_singleton. lia.
Qed.

(** The limiter is safe under every interleaving of its read and write sections:
    the map never outgrows the maximum, and it only grows. *)
Theorem limiter_bounded labels max :
  0 <= max ->
  let cl := foldl (fun cl l => snd (Allow_write l cl)) (NewCardinalityLimiter max) labels in
  Count cl <= max /\ (Count cl < max -> Forall (fun l => l ∈ current cl) labels).
Proof.
  intros Hmax.
  assert (Hgen : forall cl0, Count cl0 <= maxCardinality cl0 ->
    let cl := foldl (fun cl l => snd (Allow_write l cl)) cl0 labels in
    Count cl <= maxCardinality cl0 /\ maxCardinality cl = maxCardinality cl0 /\ current cl0 ⊆ current cl /\
    (Count cl < maxCardinality cl0 -> Forall (fun l => l ∈ current cl) labels)).
  { induction labels as [|l labels IH]; intros cl0 H0; [by split_and!|]. cbn [foldl].
    destruct (allow_write_mono l cl0) as (Hsub & Hm & Hc & Hin).
    destruct (IH (snd (Allow_write l cl0))) as (H1 & H2 & H3 & H4); [rewrite Hm; auto|]. rewrite Hm in *.
    split_and!; [done|done|set_solver|]. intros Hlt. constructor; [|by apply H4]. apply H3, Hin.
    unfold Allow_write. case_bool_decide; [done|]. destruct (Z.leb_spec (maxCardinality cl0) (Count cl0)) as [Hle|]; [|done].
    exfalso. assert (Hs : (size (current cl0) <= size (current (foldl (fun cl l => snd (Allow_write l cl)) (snd (Allow_write l cl0)) labels)))%nat)
      by (apply subseteq_size; set_solver). unfold Count in *. lia. }
  destruct (Hgen (NewCardinalityLimiter max)) as (H1 & _ & _ & H4).
  { unfold Count. cbn. rewrite size_empty. lia. }
  split; [exact H1|exact H4].
Qed.

Lemma sep_prefix_inj sep a b a' b' :
  has_char sep a = false -> has_char sep a' = false -> a +:+ String sep b = a' +:+ String sep b' -> a = a' /\ b = b'.
Proof.
  revert a'. induction a as [|c a IH]; intros [|c' a'] Ha Ha' He; rewrite ?string_app_nil_l, ?string_app_cons in He.
  - by injection He as <-.
  - injection He as <- _. cbn in Ha'. by rewrite Ascii.eqb_refl in Ha'.
  - injection He as -> _. cbn in Ha. by rewrite Ascii.eqb_refl in Ha.
  - injection He as -> He. cbn in Ha, Ha'. apply orb_false_iff in Ha as [_ Ha], Ha' as [_ Ha'].
    destruct (IH a' Ha Ha' He) as [-> ->]. done.
Qed.

Lemma has_char_app sep a b : has_char sep (a +:+ b) = has_char sep a || has_char sep b.
Proof. induction a as [|c a IH]; [done|]. rewrite string_app_cons. cbn. by rewrite IH, orb_assoc. Qed.

Lemma sep_suffix_inj sep a b a' b' :
  has_char sep b = false -> has_char sep b' = false -> a +:+ String sep b = a' +:+ String sep b' -> a = a' /\ b = b'.
Proof.
  revert a'. induction a as [|c a IH]; intros [|c' a'] Hb Hb' He; rewrite ?string_app_nil_l, ?string_app_cons in He.
  - by injection He as <-.
  - injection He as _ ->. rewrite has_char_app in Hb. cbn in Hb. by rewrite Ascii.eqb_refl, orb_true_r in Hb.
  - injection He as _ <-. rewrite has_char_app in Hb'. cbn in Hb'. by rewrite Ascii.eqb_refl, orb_true_r in Hb'.
  - injection He as -> He. by destruct (IH a' Hb Hb' He) as [-> ->].
Qed.

Definition colon : ascii := ":".

Lemma labelSet_inj p m s p' m' s' :
  has_char colon p = false -> has_char colon p' = false -> has_char colon s = false -> has_char colon s' = false ->
  labelSet_of p m s = labelSet_of p' m' s' -> p = p' /\ m = m' /\ s = s'.
Proof.
  intros Hp Hp' Hs Hs' He. unfold labelSet_of in He. cbn in He. injection He as He.
  apply (sep_prefix_inj colon p _ p') in He as [-> He]; [|done..].
  by apply (sep_suffix_inj colon m s m') in He as [-> ->].
Qed.

(** *** The series of a run *)

Record Req := mkReq { q_provider : string; q_model : string; q_status : string; q_duration : Duration; q_tokens : Z; q_cost : float64 }.

Fixpoint record_all (reqs : list Req) (c : Collector) : list MetricOp * Collector :=
  match reqs with
  | [] => ([], c)
  | q :: reqs =>
      let '(ops, c) := RecordRequest (q_provider q) (q_model q) (q_status q) (q_duration q) (q_tokens q) (q_cost q) c in
      let '(ops', c) := record_all reqs c in
      (ops ++ ops', c)
  end.

(** The label values of the counters that are incremented. *)
Definition counted (ops : list MetricOp) : list (list string) :=
  omap (fun o => match o with Inc _ l => Some l | _ => None end) ops.

Lemma counted_request cfg p m s d t cost :
  counted (request_RecordRequest cfg p m s d t ++ RecordRequestCost cfg p m cost) = [[p; m; s]].
Proof.
  unfold counted, request_RecordRequest, RecordRequestCost. by destruct (0 <? t), (fle cost fzero).
Qed.

(** Every series belongs to a request, with its model when the limiter has its
    label set and [other] otherwise. *)
Definition explained (cl : CardinalityLimiter) (reqs : list Req) (l : list string) : Prop :=
  exists q, q ∈ reqs /\
    ((l = [q_provider q; q_model q; q_status q] /\ labelSet_of (q_provider q) (q_model q) (q_status q) ∈ current cl) \/
     l = [q_provider q; "other"; q_status q]).

Lemma record_all_spec reqs c :
  mt_Enabled (mc_config c) = true -> Count (mc_limiter c) <= maxCardinality (mc_limiter c) ->
  let '(ops, c') := record_all reqs c in
  Count (mc_limiter c') <= maxCardinality (mc_limiter c) /\ current (mc_limiter c) ⊆ current (mc_limiter c') /\
  Forall (explained (mc_limiter c') reqs) (counted ops).
Proof.
  revert c. induction reqs as [|q reqs IH]; intros c He Hc; cbn [record_all]; [by split_and!|].
  unfold RecordRequest. rewrite He. cbn [negb]. rewrite allow_atomic.
  destruct (allow_write_mono (labelSet_of (q_provider q) (q_model q) (q_status q)) (mc_limiter c)) as (Hsub & Hm & Hcnt & Hin).
  destruct (Allow_write _ (mc_limiter c)) as [ok cl] eqn:Ea. cbn [fst snd] in *.
  specialize (IH (mkCollector (mc_config c) (mc_registry c) cl) He). cbn [mc_limiter] in IH.
  destruct (record_all reqs _) as [ops' c'] eqn:Er. destruct IH as (H1 & H2 & H3); [rewrite Hm; auto|]. rewrite Hm in H1.
  split_and!; [done|set_solver|]. unfold counted in *. rewrite omap_app. apply Forall_app. split.
  - pose proof (counted_request (mc_config c) (q_provider q) (if ok then q_model q else "other") (q_status q)
      (q_duration q) (q_tokens q) (q_cost q)) as Hcr. unfold counted in Hcr. rewrite Hcr. constructor; [|constructor].
    exists q. split; [by left|]. destruct ok; [left|by right]. split; [done|]. apply H2. by apply Hin.
  - eapply Forall_impl; [exact H3|]. intros l (q' & Hq & Hl). exists q'. split; [by right|done].
Qed.

(** Where a series is accounted for: in the limiter, or under its provider and
    status. *)
Definition account (cl : CardinalityLimiter) (l : list string) : string + string * string :=
  match l with
  | [p; m; s] => if bool_decide (labelSet_of p m s ∈ current cl) then inl (labelSet_of p m s) else inr (p, s)
  | _ => inr ("", "")
  end.

Definition plain_req (q : Req) : Prop := has_char colon (q_provider q) = false /\ has_char colon (q_status q) = false.

Lemma account_inj cl reqs l l' :
  Forall plain_req reqs -> explained cl reqs l -> explained cl reqs l' -> account cl l = account cl l' -> l = l'.
Proof.
  intros Hp (q & Hq & Hl) (q' & Hq' & Hl') He. rewrite Forall_forall in Hp.
  destruct (Hp q Hq) as [Hc1 Hc2], (Hp q' Hq') as [Hc3 Hc4].
  destruct Hl as [[-> Hin]| ->], Hl' as [[-> Hin']| ->]; cbn [account] in He.
  all: repeat case_bool_decide; try done.
  all: try (apply (inj inl), labelSet_inj in He as (? & ? & ?); [congruence|done..]).
  all: apply (inj inr) in He; by injection He as -> ->.
Qed.

(** C26: the number of request series stays bounded: whatever requests are
    recorded, the counter of requests has at most ten thousand label sets besides
    one of the model [other] per provider and status, as long as the names of
    providers and statuses have no colon. *)
Theorem request_series_bounded cfg registry c reqs :
  NewCollector cfg registry = Some c -> mt_Enabled cfg = true -> Forall plain_req reqs ->
  let ops := fst (record_all reqs c) in
  Z.of_nat (size (list_to_set (counted ops) : gset (list string))) <=
  10000 + Z.of_nat (size (list_to_set ((fun q => (q_provider q, q_status q)) <$> reqs) : gset (string * string))).
Proof.
  intros Hnew He Hp. cbv zeta.
  assert (Hc : mt_Enabled (mc_config c) = true /\ mc_limiter c = NewCardinalityLimiter 10000).
  { unfold NewCollector in Hnew. repeat (apply bind_Some in Hnew as (? & _ & Hnew)). injection Hnew as <-. by split. }
  destruct Hc as [Hen Hl].
  pose proof (record_all_spec reqs c Hen) as Hspec. rewrite Hl in Hspec.
  specialize (Hspec ltac:(unfold Count; cbn; rewrite size_empty; lia)).
  destruct (record_all reqs c) as [ops c']. destruct Hspec as (Hcnt & _ & Hex). cbn [fst].
  set (L := remove_dups (counted ops)). set (cl := mc_limiter c') in *.
  set (P := list_to_set ((fun q => (q_provider q, q_status q)) <$> reqs) : gset (string * string)).
  assert (HL : forall l, l ∈ L -> explained cl reqs l).
  { intros l Hin. rewrite Forall_forall in Hex. apply Hex. by apply elem_of_remove_dups. }
  assert (Hnd : NoDup (account cl <$> L)).
  { apply NoDup_fmap_2_strong; [|apply NoDup_remove_dups]. intros l l' H1 H2. by eapply account_inj; eauto. }
  assert (Hsub : account cl <$> L ⊆ (inl <$> elements (current cl)) ++ (inr <$> elements P)).
  { intros x (l & -> & Hin)%list_elem_of_fmap. apply elem_of_app. destruct (HL l Hin) as (q & Hq & Hc).
    assert (Hps : (q_provider q, q_status q) ∈ elements P).
    { apply elem_of_elements, elem_of_list_to_set, list_elem_of_fmap. by exists q. }
    destruct Hc as [[-> Hcur]| ->]; cbn [account]; case_bool_decide; try done;
      try (left; apply list_elem_of_fmap_2, elem_of_elements; done); right; by apply list_elem_of_fmap_2. }
  assert (Hlen : (length L <= size (current cl) + size P)%nat).
  { rewrite <- (length_fmap (account cl) L).
    transitivity (length ((inl <$> elements (current cl)) ++ (inr <$> elements P) : list (string + string * string))).
    - by apply submseteq_length, NoDup_submseteq.
    - by rewrite length_app, !length_fmap. }
  assert (Hset : (list_to_set (counted ops) : gset (list string)) = list_to_set L).
  { apply set_eq. intros l. rewrite !elem_of_list_to_set. symmetry. apply elem_of_remove_dups. }
  rewrite Hset, size_list_to_set by apply NoDup_remove_dups. unfold Count in Hcnt. change (maxCardinality (NewCardinalityLimiter 10000)) with 10000 in Hcnt. fold P. lia.
Qed.

(** ** Examples *)

Definition plain_metrics : MetricsConfig := mkMetricsConfig true "/metrics" 9090 "" "" [] [].

Definition fresh_collector : Collector :=
  match NewCollector plain_metrics None with Some c => c | None => mkCollector plain_metrics [] (NewCardinalityLimiter 0) end.

Lemma request_series_bounded_witness :
  Z.of_nat (size (list_to_set (counted (fst (record_all [mkReq "openai" "gpt-4" "success" 0 10 fzero] fresh_collector))) : gset (list string))) <= 10001.
Proof.
  etransitivity.
  - apply (request_series_bounded plain_metrics None fresh_collector [mkReq "openai" "gpt-4" "success" 0 10 fzero]).
    + vm_compute. reflexivity.
    + reflexivity.
    + repeat constructor.
  - vm_compute. discriminate.
Defined.

Lemma limiter_bounded_witness :
  Count (foldl (fun cl l => snd (Allow_write l cl)) (NewCardinalityLimiter 1) ["a"; "b"; "a"]) <= 1.
Proof. exact (proj1 (limiter_bounded ["a"; "b"; "a"] 1 ltac:(lia))). Defined.

(** Names with a colon share label sets: two series for one entry of the
    limiter. *)
Example colon_shares_label_set :
  labelSet_of "a" "b:c" "ok" = labelSet_of "a:b" "c" "ok".
Proof. reflexivity. Qed.

(** A second set of limit metrics, or a second collector on one registry,
    panics. *)
Example second_registration_panics :
  (r ← NewLimitMetrics []; NewLimitMetrics r) = None /\
  NewCollector plain_metrics (Some (mc_registry fresh_collector)) = None.
Proof. vm_compute. split; reflexivity. Qed.

(** A cost that is not a number passes the test for positive costs and is added
    to the total, which never recovers. *)
Example nan_cost_recorded :
  RecordRequestCost plain_metrics "p" "m" SpecFloat.S754_nan =
  [Add (name_of plain_metrics "cost_total") ["p"; "m"] SpecFloat.S754_nan;
   Observe (name_of plain_metrics "cost_per_request") ["p"; "m"] SpecFloat.S754_nan].
Proof. reflexivity. Qed.
