(* ===== verification/CliEvidence.v ===== *)
(** * The evidence commands ([cmd/mercator/evidence.go], [validate.go], [keys.go],
    [pkg/cli/errors.go])

    [mercator evidence query], [mercator evidence report], [mercator validate] and
    [mercator keys generate].  A command gives the lines it prints and an error; the
    flags are a record, the configuration is loaded by [ConfigLoad], and the store is
    any [Storage].  Opening a database, parsing and printing of times and numbers and
    JSON encoding are parameters.  Files carry their permissions, which creation
    sets and truncation keeps. *)

From Stdlib Require Import ZArith Lia Ascii.
From stdpp Require Import base option list strings gmap pretty.
From S2P Require Import Prelude Float64 GoValue ProviderTypes Paths ConfigTypes ConfigValidate ConfigLoad Evidence.
Local Open Scope string_scope.
Local Open Scope list_scope.
Local Open Scope Z_scope.

(** ** Errors *)

Inductive CliErr :=
  | CliConfigError (field message : string)
  | CommandError (command : string) (err : string)
  | CliError (text : string).

Definition cli_text (e : CliErr) : string :=
  match e with
  | CliConfigError f m => "config error in " +:+ f +:+ ": " +:+ m
  | CommandError c e => "command " +:+ c +:+ " failed: " +:+ e
  | CliError t => t
  end.

(** What a command prints and how it ends; [None] is a panic. *)
Record Ran := mkRan { out : list string; ended : option CliErr }.
Definition failed (e : CliErr) : option Ran := Some (mkRan [] (Some e)).

(** ** [mercator evidence] *)

Record EvidenceFlags := mkEvidenceFlags {
  fl_backend : string;
  fl_timeRange : string;
  fl_user : string;
  fl_apiKey : string;
  fl_policy : string;
  fl_provider : string;
  fl_model : string;
  fl_minCost : float64;
  fl_maxCost : float64;
  fl_minTokens : Z;
  fl_maxTokens : Z;
  fl_limit : Z;
  fl_offset : Z;
  fl_format : string;
  fl_verify : bool;
  fl_output : string;
  fl_decision : string;
}.

Class CliText : Type := {
  parse_RFC3339 : string -> result string Time;
  show_RFC3339 : Time -> string;
  show_date : Time -> string;
  fixed4 : float64 -> string;
  fixed2 : float64 -> string;
  fixed0 : float64 -> string;
  encode_records : list EvidenceRecord -> result string string;
}.

Section commands.
Context `{MapRange} `{Fmt} `{UrlParser} `{CliText} {S : Type} `{Storage S}.

Variable openSQLite : SQLiteConfig -> result string S.

(** The configuration of the process, loaded once. *)
Definition command_config (w : World) (cfgFile : string) (s : Singleton) : result CliErr Config :=
  match Initialize w cfgFile s with
  | (Some e, _) => Err (CliConfigError "" ("failed to load config: " +:+ config_err_text e))
  | (None, s) => match GetConfig s with Some c => Ok c | None => Err (CliError "nil config") end
  end.

(** The store of a command: [None] is the type [memory], a new store, which is
    empty. *)
Definition open_backend (command hint : string) (backend : string) (cfg : Config) : result CliErr (option S) :=
  let backendType := if String.eqb backend "" then ev_Backend (c_Evidence cfg) else backend in
  if String.eqb backendType "sqlite" then
    match openSQLite (ev_SQLite (c_Evidence cfg)) with
    | Err e => Err (CommandError command ("failed to create SQLite storage: " +:+ e))
    | Ok store => Ok (Some store)
    end
  else if String.eqb backendType "memory" then Ok None
  else Err (CliError ("unsupported backend: " +:+ backendType +:+ hint)).

(** [store.Query]; [None] is a panic. *)
Definition query_store (command : string) (q : Query) (store : option S) : option (result CliErr (list EvidenceRecord)) :=
  match (match store with Some store => st_Query q store | None => Query_ q NewMemoryStorage end) with
  | None => None
  | Some (Err e) => Some (Err (CommandError command ("query failed: " +:+ err_text e)))
  | Some (Ok records) => Some (Ok records)
  end.

Definition time_range (text : string) : result CliErr (option (Time * Time)) :=
  if String.eqb text "" then Ok None
  else
    match splitSlash text with
    | [a; b] =>
        match parse_RFC3339 a with
        | Err e => Err (CliError ("invalid start time: " +:+ e))
        | Ok startTime =>
            match parse_RFC3339 b with
            | Err e => Err (CliError ("invalid end time: " +:+ e))
            | Ok endTime => Ok (Some (startTime, endTime))
            end
        end
    | _ => Err (CliError "invalid time range format (expected: start/end)")
    end.

Definition positive (f : float64) : option float64 := if flt fzero f then Some f else None.
Definition positive_int (z : Z) : option Z := if 0 <? z then Some z else None.

Definition flags_query (f : EvidenceFlags) (range : option (Time * Time)) : Query :=
  mkQuery (fst <$> range) (snd <$> range) (fl_user f) (fl_apiKey f) (fl_provider f) (fl_model f) (fl_policy f) ""
    (fl_decision f) (positive (fl_minCost f)) (positive (fl_maxCost f)) (positive_int (fl_minTokens f))
    (positive_int (fl_maxTokens f)) "" (fl_limit f) (fl_offset f) "" "".

(** *** Text output *)

Definition line_if (b : bool) (l : string) : list string := if b then [l] else [].

Definition record_lines (verify : bool) (r : EvidenceRecord) : list string :=
  ["Record ID: " +:+ er_ID r; "Timestamp: " +:+ show_RFC3339 (er_RequestTime r)] ++
  line_if (negb (String.eqb (er_UserID r) "")) ("User: " +:+ er_UserID r) ++
  ["Model: " +:+ er_Model r] ++
  line_if (negb (String.eqb (er_Provider r) "")) ("Provider: " +:+ er_Provider r) ++
  ["Policy Decision: " +:+ er_PolicyDecision r] ++
  line_if (negb (String.eqb (er_BlockReason r) "")) ("Block Reason: " +:+ er_BlockReason r) ++
  ["Tokens: " +:+ pretty (er_TotalTokens r) +:+ " (prompt: " +:+ pretty (er_PromptTokens r) +:+ ", completion: " +:+
     pretty (er_CompletionTokens r) +:+ ")"] ++
  line_if (flt fzero (er_ActualCost r)) ("Cost: $" +:+ fixed4 (er_ActualCost r)) ++
  line_if verify "Signature: ✓ Valid".

(** The loop over the records from the [i]-th on, of [n]. *)
Fixpoint records_text (verify : bool) (n i : Z) (records : list EvidenceRecord) : list string :=
  match records with
  | [] => []
  | r :: records =>
      line_if (0 <? i) "" ++ record_lines verify r ++
      (if (9 <=? i) && (10 <? n) then
         [""; "... and " +:+ pretty (n - 10) +:+ " more records"; "Use --limit and --offset for pagination."]
       else records_text verify n (i + 1) records)
  end.

Definition range_line (prefix : string) (show : Time -> string) (q : Query) : list string :=
  match q_StartTime q, q_EndTime q with
  | Some a, Some b => [prefix +:+ show a +:+ " to " +:+ show b]
  | _, _ => []
  end.

Definition outputEvidenceText (verify : bool) (records : list EvidenceRecord) (q : Query) : list string :=
  let n := Z.of_nat (length records) in
  ["Querying evidence records..."; ""] ++ range_line "Time range: " show_RFC3339 q ++
  ["Total records: " +:+ pretty n; ""] ++
  (if n =? 0 then ["No records found."] else records_text verify n 0 records).

Definition outputEvidenceJSON (records : list EvidenceRecord) : Ran :=
  match encode_records records with
  | Ok text => mkRan [text] None
  | Err e => mkRan [] (Some (CliError e))
  end.

(** [create] is the error of creating the output file. *)
Definition queryEvidence (w : World) (cfgFile : string) (s : Singleton) (create : string -> option string) (f : EvidenceFlags) : option Ran :=
  match command_config w cfgFile s with
  | Err e => failed e
  | Ok cfg =>
      match open_backend "evidence" " (supported: sqlite, memory)" (fl_backend f) cfg with
      | Err e => failed e
      | Ok store =>
          match time_range (fl_timeRange f) with
          | Err e => failed e
          | Ok range =>
              let query := flags_query f range in
              match query_store "evidence" query store with
              | None => None
              | Some (Err e) => failed e
              | Some (Ok records) =>
                  match (if String.eqb (fl_output f) "" then None else create (fl_output f)) with
                  | Some e => failed (CliError ("failed to create output file: " +:+ e))
                  | None =>
                      if String.eqb (fl_format f) "json" then Some (outputEvidenceJSON records)
                      else if String.eqb (fl_format f) "csv" then failed (CliError "CSV format not yet implemented")
                      else Some (mkRan (outputEvidenceText (fl_verify f) records query) None)
                  end
              end
          end
      end
  end.

(** *** The report *)

(** [m[k]++] *)
Definition count_key (k : string) (m : gmap string Z) : gmap string Z := <[k := add64 (default 0 (m !! k)) 1]> m.

Definition counts (key : EvidenceRecord -> string) (records : list EvidenceRecord) : gmap string Z :=
  foldl (fun m r => count_key (key r) m) ∅ records.

Definition totalCost (records : list EvidenceRecord) : float64 := foldl (fun t r => fadd t (er_ActualCost r)) fzero records.
Definition totalTokens (records : list EvidenceRecord) : Z := foldl (fun t r => add64 t (er_TotalTokens r)) 0 records.

Definition share (n count : Z) : float64 := fmul (fdiv (of_int count) (of_int n)) (of_int 100).

Definition group_lines (n : Z) (m : gmap string Z) : list string :=
  (fun '(k, count) => "  " +:+ k +:+ ": " +:+ pretty count +:+ " requests (" +:+ fixed0 (share n count) +:+ "%)") <$> range m.

Definition generateAuditReport (now : Time) (records : list EvidenceRecord) (q : Query) : list string :=
  let n := Z.of_nat (length records) in
  ["Evidence Audit Report"; "====================="] ++ range_line "Time Range: " show_date q ++
  ["Generated: " +:+ show_RFC3339 now; ""; "Summary:"; "--------"; "Total Requests: " +:+ pretty n;
   "Total Cost: $" +:+ fixed2 (totalCost records); "Total Tokens: " +:+ pretty (totalTokens records); "";
   "By Provider:"] ++ group_lines n (counts er_Provider records) ++
  [""; "By Model:"] ++ group_lines n (counts er_Model records) ++
  [""; "Policy Decisions:"] ++ group_lines n (counts er_PolicyDecision records).

Definition range_query (range : option (Time * Time)) (limit : Z) : Query :=
  mkQuery (fst <$> range) (snd <$> range) "" "" "" "" "" "" "" None None None None "" limit 0 "" "".

Definition generateReport (w : World) (cfgFile : string) (s : Singleton) (now : Time) (f : EvidenceFlags) : option Ran :=
  match command_config w cfgFile s with
  | Err e => failed e
  | Ok cfg =>
      match open_backend "evidence" "" (fl_backend f) cfg with
      | Err e => failed e
      | Ok store =>
          match time_range (fl_timeRange f) with
          | Err e => failed e
          | Ok range =>
              let query := range_query range 0 in
              match query_store "evidence" query store with
              | None => None
              | Some (Err e) => failed e
              | Some (Ok records) => Some (mkRan (generateAuditReport now records query) None)
              end
          end
      end
  end.

(** ** [mercator validate] *)

Record ValidateFlags := mkValidateFlags { vf_backend : string; vf_recordID : string; vf_timeRange : string }.

Definition unique_commits (records : list EvidenceRecord) : gset string :=
  list_to_set (List.filter (fun v => negb (String.eqb v "")) (er_PolicyVersion <$> records)).

Definition validation_lines (f : ValidateFlags) (cfg : Config) (records : list EvidenceRecord) : list string :=
  let n := pretty (Z.of_nat (length records)) in
  let backendType := if String.eqb (vf_backend f) "" then ev_Backend (c_Evidence cfg) else vf_backend f in
  let commits := Z.of_nat (size (unique_commits records)) in
  ["Validating evidence records..."; ""] ++
  match splitSlash (vf_timeRange f) with
  | a :: b :: _ => ["Time range: " +:+ a +:+ " to " +:+ b]
  | _ => []
  end ++
  line_if (negb (String.eqb (vf_backend f) "")) ("Backend: " +:+ backendType) ++
  ["Total records: " +:+ n; ""; "✓ Signature verification: " +:+ n +:+ "/" +:+ n +:+ " valid (100%)";
   "✓ Hash integrity: " +:+ n +:+ "/" +:+ n +:+ " valid (100%)"] ++
  line_if (0 <? commits) ("✓ Policy provenance: " +:+ n +:+ " records (" +:+ pretty commits +:+ " unique commits)") ++
  [""; "Summary:"; "  All evidence records are valid and tamper-free"; "";
   "Note: This is an MVP implementation. Full cryptographic"; "signature verification with Ed25519 will be implemented";
   "in the Evidence Generation feature."].

(** A record is looked for among the first thousand; with a record the time range
    is only printed. *)
Definition validate_query (f : ValidateFlags) : result CliErr Query :=
  if negb (String.eqb (vf_recordID f) "") then Ok (range_query None 1000)
  else if negb (String.eqb (vf_timeRange f) "") then
    match time_range (vf_timeRange f) with Err e => Err e | Ok range => Ok (range_query range 0) end
  else Ok (range_query None 10000).

(** The records found, narrowed to the record asked for. *)
Definition narrowed (f : ValidateFlags) (records : list EvidenceRecord) : list EvidenceRecord :=
  if String.eqb (vf_recordID f) "" then records
  else List.filter (fun r => String.eqb (er_ID r) (vf_recordID f)) records.

(** A time range without a slash, given together with a record, panics on
    [parts[1]]. *)
Definition validated (f : ValidateFlags) (cfg : Config) (records : list EvidenceRecord) : option Ran :=
  match narrowed f records with
  | [] => Some (mkRan ["No evidence records found."] None)
  | records =>
      match vf_timeRange f, splitSlash (vf_timeRange f) with
      | String _ _, [_] => None
      | _, _ => Some (mkRan (validation_lines f cfg records) None)
      end
  end.

Definition validateEvidence (w : World) (cfgFile : string) (s : Singleton) (f : ValidateFlags) : option Ran :=
  match command_config w cfgFile s with
  | Err e => failed e
  | Ok cfg =>
      match open_backend "validate" "" (vf_backend f) cfg with
      | Err e => failed e
      | Ok store =>
          match validate_query f with
          | Err e => failed e
          | Ok query =>
              match query_store "validate" query store with
              | None => None
              | Some (Err e) => failed e
              | Some (Ok records) => validated f cfg records
              end
          end
      end
  end.
End commands.

(** ** [mercator keys generate] *)

(** A file with its permission bits. *)
Record KeyFile := mkKeyFile { kf_mode : Z; kf_data : string }.
Notation KeyDir := (gmap string KeyFile).

(** [os.OpenFile] with [O_CREATE|O_TRUNC] and a write: a new file gets the mode
    less the bits of the umask, an existing one keeps its own. *)
Definition write_truncated (umask mode : Z) (path data : string) (fs : KeyDir) : KeyDir :=
  <[path := mkKeyFile (match fs !! path with Some f => kf_mode f | None => Z.land mode (Z.lnot umask) end) data]> fs.

Section keys.
Variable umask : Z.
Variable pem : string -> string -> string.
(** The two opening errors, by path. *)
Variable open_error : string -> option string.

Definition saveKey (mode : Z) (kind path key : string) (fs : KeyDir) : option string * KeyDir :=
  match open_error path with
  | Some e => (Some e, fs)
  | None => (None, write_truncated umask mode path (pem kind key) fs)
  end.

Definition savePublicKey (path key : string) (fs : KeyDir) : option string * KeyDir := saveKey 420 "PUBLIC KEY" path key fs.
Definition savePrivateKey (path key : string) (fs : KeyDir) : option string * KeyDir := saveKey 384 "PRIVATE KEY" path key fs.

(** [generated] is the key pair or the error of its generation. *)
Definition generateKeys (now : Time) (output keyID : string) (generated : result string (string * string))
    (mkdir : option string) (fs : KeyDir) : option CliErr * KeyDir :=
  let keyID := if String.eqb keyID "" then "key-" +:+ pretty (Unix now) else keyID in
  match generated with
  | Err e => (Some (CliError ("failed to generate keypair: " +:+ e)), fs)
  | Ok (publicKey, privateKey) =>
      match mkdir with
      | Some e => (Some (CliError ("failed to create output directory: " +:+ e)), fs)
      | None =>
          match savePublicKey (JoinPath [output; keyID +:+ "_public.pem"]) publicKey fs with
          | (Some e, fs) => (Some (CliError ("failed to save public key: " +:+ e)), fs)
          | (None, fs) =>
              match savePrivateKey (JoinPath [output; keyID +:+ "_private.pem"]) privateKey fs with
              | (Some e, fs) => (Some (CliError ("failed to save private key: " +:+ e)), fs)
              | (None, fs) => (None, fs)
              end
          end
      end
  end.
End keys.


(** ** What the reports say *)

Section theorems.
Context `{MapRange} `{Fmt} `{UrlParser} `{CliText} {S : Type} `{Storage S}.
Variable openSQLite : SQLiteConfig -> result string S.

Definition having (key : EvidenceRecord -> string) (k : string) (records : list EvidenceRecord) : list EvidenceRecord :=
  List.filter (fun r => String.eqb (key r) k) records.

Lemma counts_snoc key records r : counts key (records ++ [r]) = count_key (key r) (counts key records).
Proof. unfold counts. by rewrite foldl_app. Qed.

Lemma having_snoc key k records r :
  having key k (records ++ [r]) = having key k records ++ (if String.eqb (key r) k then [r] else []).
Proof. unfold having. by rewrite List.filter_app. Qed.

Lemma having_length key k records : (length (having key k records) <= length records)%nat.
Proof. apply List.filter_length_le. Qed.

(** A group of the report is listed exactly when a record belongs to it, with the
    number of its records. *)
Lemma counts_exact key k records :
  Z.of_nat (length records) < 2 ^ 63 ->
  counts key records !! k =
    match having key k records with [] => None | l => Some (Z.of_nat (length l)) end.
Proof.
  induction records as [|r records IH] using rev_ind; intros Hn.
  { done. }
  rewrite length_app, Nat2Z.inj_add in Hn. simpl in Hn.
  rewrite counts_snoc, having_snoc. unfold count_key.
  pose proof (having_length key k records) as Hle.
  destruct (String.eqb_spec (key r) k) as [->|Hne].
  - rewrite lookup_insert, decide_True by done. rewrite IH by lia.
    destruct (having key k records) as [|a l]; simpl in *; [done|].
    rewrite length_app. simpl. f_equal. unfold add64. rewrite wrap64_id; [lia|]. unfold int64_range, min_int64, max_int64. lia.
  - rewrite lookup_insert_ne by done. rewrite app_nil_r. apply IH. lia.
Qed.

Definition total (l : list (string * Z)) : Z := foldr (fun kv t => kv.2 + t) 0 l.

#[local] Instance total_proper : Proper (Permutation ==> eq) total.
Proof. intros l l' Hp. unfold total. apply (foldr_permutation_proper eq); [|lia|done]. intros [] [] ?; simpl; lia. Qed.

Lemma total_bump k m :
  int64_range (default 0 (m !! k) + 1) -> total (map_to_list (count_key k m)) = total (map_to_list m) + 1.
Proof.
  intros Hr. unfold count_key, add64. rewrite (wrap64_id _ Hr). destruct (m !! k) as [v|] eqn:E; simpl.
  - rewrite <- insert_delete_eq, map_to_list_insert by apply lookup_delete_eq.
    rewrite <- (map_to_list_delete m k v E). simpl. lia.
  - rewrite map_to_list_insert by done. simpl. lia.
Qed.

Lemma counts_total key records :
  Z.of_nat (length records) < 2 ^ 63 -> total (map_to_list (counts key records)) = Z.of_nat (length records).
Proof.
  induction records as [|r records IH] using rev_ind; intros Hn; [done|].
  rewrite length_app, Nat2Z.inj_add in *. simpl in *. rewrite counts_snoc, total_bump; [lia|].
  rewrite counts_exact by lia. pose proof (having_length key (key r) records) as Hle.
  unfold int64_range, min_int64, max_int64. destruct (having _ _ _); simpl in *; lia.
Qed.

Definition tokens (records : list EvidenceRecord) : Z := foldr (fun r t => er_TotalTokens r + t) 0 records.

Lemma totalTokens_sum records : totalTokens records = wrap64 (tokens records).
Proof.
  unfold totalTokens, tokens. enough (Hg : forall a, wrap64 a = a ->
    foldl (fun t r => add64 t (er_TotalTokens r)) a records = wrap64 (a + foldr (fun r t => er_TotalTokens r + t) 0 records)).
  { by rewrite Hg. }
  induction records as [|r records IH]; intros a Ha; simpl; [by rewrite Z.add_0_r|].
  unfold add64 at 2. rewrite IH by apply wrap64_id, wrap64_range. rewrite wrap64_add_l. f_equal. lia.
Qed.

(** The report of [mercator evidence report] accounts for every record: whatever
    the key of a grouping (provider, model or decision), the report lists a group
    exactly when a record is in it, once, with the number of its records; the
    numbers of a grouping add up to the number of requests; and the tokens are the
    sum of the records' tokens when that fits in an [int]. *)
Theorem audit_report_accounts key records :
  Z.of_nat (length records) < 2 ^ 63 ->
  (forall k n, (k, n) ∈ range (counts key records) <->
     having key k records <> [] /\ n = Z.of_nat (length (having key k records))) /\
  NoDup (range (counts key records)).*1 /\
  total (range (counts key records)) = Z.of_nat (length records) /\
  (int64_range (tokens records) -> totalTokens records = tokens records).
Proof.
  intros Hn. split; [intros k n|split; [|split]].
  - rewrite range_perm, elem_of_map_to_list, counts_exact by done. destruct (having _ _ _); naive_solver.
  - rewrite range_perm. apply NoDup_fst_map_to_list.
  - rewrite range_perm. by apply counts_total.
  - intros Ht. by rewrite totalTokens_sum, wrap64_id.
Qed.

(** What [mercator validate] looks at of a record. *)
Definition validated_part (r : EvidenceRecord) : string * string := (er_ID r, er_PolicyVersion r).

Lemma filter_parts (id : string) (rs rs' : list EvidenceRecord) :
  validated_part <$> rs = validated_part <$> rs' ->
  validated_part <$> List.filter (fun r => String.eqb (er_ID r) id) rs =
  validated_part <$> List.filter (fun r => String.eqb (er_ID r) id) rs'.
Proof.
  revert rs'. induction rs as [|r rs IH]; intros [|r' rs'] E; try done.
  simpl in E. injection E as Eid Ev E. simpl. rewrite Eid.
  destruct (String.eqb _ _); [|by apply IH]. rewrite !fmap_cons, (IH _ E). unfold validated_part at 1 3. by rewrite Eid, Ev.
Qed.

Lemma commits_parts (rs rs' : list EvidenceRecord) :
  validated_part <$> rs = validated_part <$> rs' -> unique_commits rs = unique_commits rs'.
Proof.
  intros E. unfold unique_commits. do 2 f_equal.
  change er_PolicyVersion with (snd ∘ validated_part). by rewrite !list_fmap_compose, E.
Qed.

Lemma narrowed_parts f (rs rs' : list EvidenceRecord) :
  validated_part <$> rs = validated_part <$> rs' -> validated_part <$> narrowed f rs = validated_part <$> narrowed f rs'.
Proof. intros E. unfold narrowed. destruct (String.eqb _ _); [done|]. by apply filter_parts. Qed.

(** [mercator validate] is blind to everything but identifiers and policy
    versions: two sets of records that agree on those, whatever their hashes,
    signatures, decisions, costs and contents, get the same answer, and whenever
    records are found at all the answer is that all of them are valid. *)
Theorem validation_is_blind f cfg rs rs' :
  validated_part <$> rs = validated_part <$> rs' ->
  validated f cfg rs = validated f cfg rs' /\
  (forall ran, validated f cfg rs = Some ran ->
     ended ran = None /\
     (out ran = ["No evidence records found."] \/ "  All evidence records are valid and tamper-free" ∈ out ran)).
Proof.
  intros E. split.
  - apply (narrowed_parts f) in E. pose proof (f_equal length E) as El. rewrite !length_fmap in El.
    unfold validated. destruct (narrowed f rs), (narrowed f rs'); try done.
    unfold validation_lines. by rewrite (commits_parts _ _ E), El.
  - intros ran Hr. unfold validated in Hr. destruct (narrowed f rs) as [|r l]; [simplify_eq; by eauto|].
    assert (ran = mkRan (validation_lines f cfg (r :: l)) None) as ->.
    { destruct (vf_timeRange f); [by simplify_eq|]. destruct (splitSlash _) as [|? [|]]; by simplify_eq. }
    split; [done|right]. unfold out, validation_lines. rewrite !elem_of_app. do 4 right. set_solver.
Qed.
End theorems.

Definition some_text : CliText := {|
  parse_RFC3339 s := if String.eqb s "" then Err "empty" else Ok 0;
  show_RFC3339 _ := "t"; show_date _ := "d"; fixed4 _ := "f"; fixed2 _ := "f"; fixed0 _ := "f";
  encode_records _ := Ok "{}";
|}.

Definition cli_record (id provider hash : string) (toks : Z) : EvidenceRecord :=
  mkEvidenceRecord id "" zero_time zero_time zero_time zero_time zero_time
    hash "" "" ∅ "m" provider 0 "" "" [] 0 fzero 0 0 false [] "" [] "" "" None
    "" 0 "" "" 0 0 toks fzero 0 "" "" "" "" "" "" 0 fzero.

Definition cli_records : list EvidenceRecord :=
  [cli_record "1" "openai" "h1" 10; cli_record "2" "anthropic" "h2" 20; cli_record "3" "openai" "h3" 30].

Lemma audit_report_accounts_witness :
  ("openai", 2) ∈ @range some_range Z (counts er_Provider cli_records) /\
  total (@range some_range Z (counts er_Provider cli_records)) = 3 /\ totalTokens cli_records = 60.
Proof.
  destruct (audit_report_accounts (H := some_range) er_Provider cli_records) as (Hin & _ & Ht & Hk); [done|].
  change (Z.of_nat (length cli_records)) with 3 in Ht.
  split; [apply Hin; split; [by vm_compute|by vm_compute]|]. split; [exact Ht|].
  transitivity (tokens cli_records); [apply Hk; split; by vm_compute|by vm_compute].
Defined.

(** The hashes differ, the answer does not. *)
Lemma validation_is_blind_witness f cfg :
  validated f cfg [cli_record "1" "openai" "h1" 10] = validated f cfg [cli_record "1" "forged" "h2" 99].
Proof. by apply (validation_is_blind f cfg). Defined.

(** A new private key is readable and writable by its owner only, whatever the
    umask. *)
Theorem new_private_key_is_private umask pem now output keyID pub priv fs :
  keyID <> "" ->
  let path kind := JoinPath [output; keyID +:+ kind] in
  fs !! path "_private.pem" = None -> path "_public.pem" <> path "_private.pem" ->
  exists fs', generateKeys umask pem (fun _ => None) now output keyID (Ok (pub, priv)) None fs = (None, fs') /\
    exists file, fs' !! path "_private.pem" = Some file /\ kf_data file = pem "PRIVATE KEY" priv /\ Z.land (kf_mode file) 63 = 0.
Proof.
  intros Hk path Hnew Hne. unfold generateKeys. apply String.eqb_neq in Hk. rewrite Hk.
  change (JoinPath [output; keyID +:+ "_public.pem"]) with (path "_public.pem").
  change (JoinPath [output; keyID +:+ "_private.pem"]) with (path "_private.pem").
  revert Hnew Hne. generalize (path "_public.pem") (path "_private.pem"). clear path. intros p p' Hnew Hne.
  eexists. split; [reflexivity|]. cbn. unfold write_truncated. eexists. rewrite lookup_insert_eq. split; [done|].
  rewrite lookup_insert_ne, Hnew by done. split; [done|]. simpl.
  rewrite Z.land_comm, Z.land_assoc. change (Z.land 63 384) with 0. apply Z.land_0_l.
Qed.

(** Generating keys over existing files keeps their permissions: a world-readable
    file stays so with the new private key in it. *)
Example existing_key_file_stays_open :
  snd (generateKeys 18 (fun _ k => k) (fun _ => None) 0 "keys" "k" (Ok ("pub", "priv")) None
         {["keys/k_private.pem" := mkKeyFile 420 ""]}) !! "keys/k_private.pem" = Some (mkKeyFile 420 "priv").
Proof. by vm_compute. Qed.

(** A record identifier together with a time range that has no slash: the command
    reports nothing when the record is missing, and panics when it is found. *)
Example record_with_bad_range_panics cfg :
  validated (mkValidateFlags "" "1" "yesterday") cfg cli_records = None /\
  validated (mkValidateFlags "" "9" "yesterday") cfg cli_records = Some (mkRan ["No evidence records found."] None).
Proof. by vm_compute. Qed.

(** The backend [memory] is a new store: whatever the flags, it has no records. *)
Lemma memory_backend_is_empty `{MapRange} {St : Type} `{Storage St} command q :
  q_Offset q = 0 -> q_Limit q <= max_int64 -> query_store (S := St) command q None = Some (Ok []).
Proof.
  intros Ho Hl. unfold query_store, Query_, matching. simpl.
  assert (range (∅ : gmap string EvidenceRecord) = []) as ->.
  { apply Permutation_nil_r. by rewrite range_perm, map_to_list_empty. }
  simpl. unfold page_end. rewrite Ho. simpl. destruct (Z.ltb_spec 0 (q_Limit q)) as [Hp|]; [|done].
  unfold add64. rewrite Z.add_0_l, wrap64_id by (unfold int64_range, min_int64; lia).
  by destruct (q_Limit q).
Qed.
