(* ===== verification/CliLint.v ===== *)
(** * Linting policy files ([cmd/mercator/lint.go])

    [mercator lint] runs the parser of [MplBuilder] and the validator of
    [MplValidator] on the files named or found and reports their errors.  The source
    location of an error, [filepath.Glob] and JSON encoding are parameters. *)

From Stdlib Require Import ZArith Lia Ascii.
From stdpp Require Import base option list strings gmap pretty.
From S2P Require Import Prelude GoValue Ast ProviderTypes Paths ConfigLoad MplErrors MplBuilder MplDataModel MplValidator MplValid MplSound CliEvidence.
Local Open Scope string_scope.
Local Open Scope list_scope.
Local Open Scope Z_scope.

(** ** [mercator lint] *)

Record LintFlags := mkLintFlags { lf_file : string; lf_dir : string; lf_strict : bool; lf_format : string }.

Record ValidationError := mkValidationError {
  ve_Line : Z;
  ve_Column : Z;
  ve_Rule : string;
  ve_Message : string;
  ve_Severity : string;
  ve_Type : string;
}.

Record ValidationResult := mkValidationResult {
  vr_File : string;
  vr_Valid : bool;
  vr_Errors : list ValidationError;
  vr_Warnings : list ValidationError;
}.

Section lint.
Context `{MapRange} `{Fmt}.
Variable parseTime : string -> option Time.
Variable files : Files.
(** Line and column of an error; the text of an error that is none of the package. *)
Variable locate : MplError -> Z * Z.
Variable parse_text : ParseErr -> string.
Variable encode_results : list ValidationResult -> result string string.

Definition located (e : MplError) : ValidationError :=
  mkValidationError (fst (locate e)) (snd (locate e)) "" (me_Message e) "error" (me_Type e).

Definition parse_errors (e : ParseErr) : list ValidationError :=
  match e with
  | PList el => located <$> el
  | PErr e => [located e]
  | e => [mkValidationError 0 0 "" (parse_text e) "error" ""]
  end.

(** [None] is fuel that ran out or a panic of the validator. *)
Definition validatePolicyFile (strict : bool) (path : string) : option ValidationResult :=
  let p := if strict then WithStrictMode true NewParser else NewParser in
  r ← Parse parseTime files p path;
  match r with
  | Err e => Some (mkValidationResult path false (parse_errors e) [])
  | Ok policy =>
      r ← Validate policy;
      Some (match r with
            | None => mkValidationResult path true [] []
            | Some el => mkValidationResult path false (located <$> el) []
            end)
  end.

Definition location_text (e : ValidationError) : string :=
  if 0 <? ve_Line e then
    " (line " +:+ pretty (ve_Line e) +:+ (if 0 <? ve_Column e then ", col " +:+ pretty (ve_Column e) else "") +:+ ")"
  else "".

Definition error_line (e : ValidationError) : string :=
  "✗ Error: " +:+ ve_Message e +:+ location_text e +:+
  (if String.eqb (ve_Type e) "" then "" else " [" +:+ ve_Type e +:+ "]").

Definition warning_line (w : ValidationError) : string := "⚠  Warning: " +:+ ve_Message w +:+ location_text w.

Definition result_lines (r : ValidationResult) : list string :=
  ["Validating " +:+ vr_File r +:+ "..."] ++
  match vr_Errors r, vr_Warnings r with
  | [], [] => ["✓ Syntax valid"; "✓ All rules have valid conditions"]
  | _, _ => []
  end ++
  (error_line <$> vr_Errors r) ++ (warning_line <$> vr_Warnings r) ++ [""].

(** The two counters of the loop. *)
Definition count_results (f : ValidationResult -> list ValidationError) (results : list ValidationResult) : Z :=
  foldl (fun n r => foldl (fun n _ => n + 1) n (f r)) 0 results.

Definition outputText (results : list ValidationResult) (strict : bool) : Ran :=
  let totalErrors := count_results vr_Errors results in
  let totalWarnings := count_results vr_Warnings results in
  let lines := (results ≫= result_lines) ++
    ["Summary:"; "  " +:+ pretty totalErrors +:+ " error(s), " +:+ pretty totalWarnings +:+ " warning(s)"] in
  if strict && (0 <? totalWarnings) then
    mkRan (lines ++ ["  Strict mode enabled: treating warnings as errors"]) (Some (CommandError "lint" "validation failed"))
  else if 0 <? totalErrors then mkRan lines (Some (CommandError "lint" "validation failed"))
  else mkRan lines None.

Definition outputJSON (results : list ValidationResult) : Ran :=
  match encode_results results with
  | Ok text => mkRan [text] None
  | Err e => mkRan [] (Some (CliError e))
  end.

Definition lint_files (f : LintFlags) : result CliErr (list string) :=
  let named := if String.eqb (lf_file f) "" then [] else [lf_file f] in
  if String.eqb (lf_dir f) "" then Ok named
  else
    match glob files (JoinPath [lf_dir f; "*.yaml"]) with
    | Err e => Err (CliError ("failed to list policy files: " +:+ e))
    | Ok matches =>
        match glob files (JoinPath [lf_dir f; "*.yml"]) with
        | Err e => Err (CliError ("failed to list policy files: " +:+ e))
        | Ok yamlMatches => Ok (named ++ matches ++ yamlMatches)
        end
    end.

Definition lintPolicies (f : LintFlags) : option Ran :=
  if String.eqb (lf_file f) "" && String.eqb (lf_dir f) "" then
    failed (CliError "either --file or --dir must be specified")
  else
    match lint_files f with
    | Err e => failed e
    | Ok [] => failed (CliError "no policy files found")
    | Ok paths =>
        results ← mapM (validatePolicyFile (lf_strict f)) paths;
        Some (if String.eqb (lf_format f) "json" then outputJSON results else outputText results (lf_strict f))
    end.

(** *** What lint decides *)

(** A file whose contents parse to a policy that the validator accepts. *)
Definition lint_accepts (path : string) : Prop :=
  exists policy, Parse parseTime files NewParser path = Some (Ok policy) /\ Validate policy = Some None.

Lemma parse_strict strict path : 
  Parse parseTime files (if strict : bool then WithStrictMode true NewParser else NewParser) path = Parse parseTime files NewParser path.
Proof. by destruct strict. Qed.

Lemma located_ne el : HasErrors el = true -> located <$> el <> [].
Proof. by destruct el. Qed.

Lemma buildPolicy_errors path yp errs : buildPolicy parseTime path yp = Some (Err errs) -> HasErrors errs = true.
Proof.
  unfold buildPolicy. intros Hb.
  destruct (collect _ _ _ (range _)) as [[vs e1]|]; simplify_eq/=.
  destruct (collect _ _ _ (yp_Rules _)) as [[rs e2]|]; simplify_eq/=.
  destruct (collect _ _ _ (yp_Tests _)) as [[ts e3]|]; simplify_eq/=.
  destruct (HasErrors _) eqn:E; by simplify_eq.
Qed.

(** A failed parse or validation leaves at least one error. *)
Lemma parse_errors_ne path e : Parse parseTime files NewParser path = Some (Err e) -> parse_errors e <> [].
Proof.
  unfold Parse, build_document, io_error. intros Hp.
  destruct (file_size files path); [|by simplify_eq]. destruct (_ <? _); [by simplify_eq|].
  destruct (parseYAMLFile _ _); [|by simplify_eq].
  destruct (buildPolicy _ _ _) as [[[pol ts]|errs]|] eqn:Hb; simplify_eq/=. 
  by eapply located_ne, buildPolicy_errors.
Qed.

Lemma validate_errors_ne policy el : Validate policy = Some (Some el) -> HasErrors el = true.
Proof.
  unfold Validate. intros Hv.
  destruct (append_pass _ _ _) as [e1|]; simplify_eq/=.
  destruct (unless_structural ValidateSemantic _ _) as [e2|]; simplify_eq/=.
  destruct (unless_structural ValidateActions _ _) as [e3|]; simplify_eq/=.
  unfold el_ToError in *. destruct (HasErrors e3) eqn:E; by simplify_eq/=.
Qed.

(** Every file gets a result, which is free of errors exactly when the file is
    accepted; there are no warnings. *)
Lemma validatePolicyFile_spec strict path :
  exists r, validatePolicyFile strict path = Some r /\ vr_Warnings r = [] /\
    (vr_Errors r = [] <-> lint_accepts path) /\ (vr_Valid r = true <-> lint_accepts path).
Proof.
  unfold validatePolicyFile, lint_accepts. rewrite parse_strict.
  destruct (Parse_total parseTime files NewParser path) as [[policy|e] Hp]; rewrite Hp; simpl.
  - destruct (Validate_some policy (Parse_built _ _ _ _ _ Hp)) as [[el|] Hv]; rewrite Hv; simpl;
      eexists; (split; [done|]); (split; [done|]); simpl.
    + pose proof (located_ne _ (validate_errors_ne _ _ Hv)). naive_solver congruence.
    + naive_solver.
  - eexists. split; [done|]. split; [done|]. simpl. pose proof (parse_errors_ne _ _ Hp). naive_solver congruence.
Qed.

Lemma count_zero f results : count_results f results = 0 <-> Forall (fun r => f r = []) results.
Proof.
  unfold count_results.
  assert (Hin : forall l n, foldl (fun n (_ : ValidationError) => n + 1) n l = n + Z.of_nat (length l)).
  { induction l as [|x l IH]; intros n; simpl; [lia|]. rewrite IH. lia. }
  assert (Hg : forall n, 0 <= n -> foldl (fun n r => foldl (fun n _ => n + 1) n (f r)) n results = 0 <->
                         n = 0 /\ Forall (fun r => f r = []) results).
  { induction results as [|r results IH]; intros n Hn; simpl; [rewrite Forall_nil; naive_solver|].
    rewrite Hin, IH, Forall_cons by lia. destruct (f r); simpl; split; intros; destruct_and?; split_and?; try lia; try done. }
  rewrite Hg by lia. naive_solver.
Qed.

Lemma count_nonneg f results : 0 <= count_results f results.
Proof.
  unfold count_results. assert (Hg : forall n, 0 <= n -> 0 <= foldl (fun n r => foldl (fun n _ => n + 1) n (f r)) n results).
  { induction results as [|r results IH]; intros n Hn; simpl; [done|]. apply IH.
    assert (Hi : forall l m, 0 <= m -> 0 <= foldl (fun n (_ : ValidationError) => n + 1) m l).
    { induction l; intros m Hm; simpl; [done|]. apply IHl. lia. }
    by apply Hi. }
  by apply Hg.
Qed.

(** C27: what [mercator lint] decides.  Given files to look at it always ends with an
    output; in text format it succeeds exactly when every file parses to a policy
    that the validator accepts, strict or not. *)
Theorem lint_verdict f paths :
  lint_files f = Ok paths -> paths <> [] -> String.eqb (lf_format f) "json" = false ->
  exists ran, lintPolicies f = Some ran /\ (ended ran = None <-> Forall lint_accepts paths).
Proof.
  intros Hf Hne Hfmt. unfold lintPolicies.
  assert (String.eqb (lf_file f) "" && String.eqb (lf_dir f) "" = false) as ->.
  { unfold lint_files in Hf. destruct (String.eqb (lf_file f) "" ), (String.eqb (lf_dir f) ""); by simplify_eq/=. }
  rewrite Hf, Hfmt.
  assert (Hm : exists results, mapM (validatePolicyFile (lf_strict f)) paths = Some results /\
    Forall (fun r => vr_Warnings r = []) results /\ (Forall (fun r => vr_Errors r = []) results <-> Forall lint_accepts paths)).
  { clear Hf Hne. induction paths as [|p paths (rs & Hrs & Hw & He)]; simpl; [exists []; by rewrite !Forall_nil|].
    destruct (validatePolicyFile_spec (lf_strict f) p) as (r & Hr & Hrw & Hre & _). rewrite Hr, Hrs. simpl.
    eexists. split; [done|]. rewrite !Forall_cons. naive_solver. }
  destruct Hm as (results & -> & Hw & He). destruct paths as [|p0 ps]; [done|].
  eexists. split; [done|]. rewrite <- He. unfold outputText.
  rewrite (proj2 (count_zero vr_Warnings results) Hw). rewrite andb_false_r.
  pose proof (count_nonneg vr_Errors results) as Hc. rewrite <- count_zero.
  destruct (Z.ltb_spec 0 (count_results vr_Errors results)); simpl; [|intuition lia]. split; [done|lia].
Qed.
End lint.

(** ** Two files *)

Definition demo_lint (rule : yamlRule) (format : string) : option Ran :=
  lintPolicies (H := some_range) (H0 := bare_fmt) (fun _ => None) (one_policy rule) (fun _ => (0, 0)) (fun _ => "")
    (fun _ => Ok "[...]") (mkLintFlags "limits.yaml" "" false format).

Lemma lint_verdict_witness :
  exists ran, demo_lint deny_large "text" = Some ran /\ ended ran = None.
Proof.
  destruct (lint_verdict (H := some_range) (H0 := bare_fmt) (fun _ => None) (one_policy deny_large) (fun _ => (0, 0)) (fun _ => "")
    (fun _ => Ok "[...]") (mkLintFlags "limits.yaml" "" false "text") ["limits.yaml"]) as (ran & Hr & Hv); [done..|].
  exists ran. split; [exact Hr|]. apply Hv. repeat constructor.
  exists (parsed_one deny_large). split; vm_compute; reflexivity.
Defined.

(** A policy that does not validate fails the command in text format and leaves it
    successful in JSON format. *)
Example json_lint_succeeds :
  option_map ended (demo_lint budget_rule "text") = Some (Some (CommandError "lint" "validation failed")) /\
  option_map ended (demo_lint budget_rule "json") = Some None.
Proof. by vm_compute. Qed.

(** A file given twice, by name and by its directory, is reported twice. *)
Example file_reported_twice :
  lint_files (mkFiles (fun _ => Ok 1) (fun _ => Ok "") (fun _ => Err "") (Ok "/")
    (fun p => Ok (if String.eqb p "d/*.yaml" then ["d/a.yaml"] else []))) (mkLintFlags "d/a.yaml" "d" false "") =
  Ok ["d/a.yaml"; "d/a.yaml"].
Proof. by vm_compute. Qed.
