(* ===== verification/CliTest.v ===== *)
(** * Policy tests ([cmd/mercator/test.go])

    [mercator test] loads a test suite and the policies of a file or directory,
    evaluates the request of every test with the engine of [PolicyEngine] and
    compares action and reason with what the test expects.  The engine runs in the
    clock and context of its [Env]; reading and decoding the suite and the
    formatting of numbers are parameters. *)

From Stdlib Require Import ZArith Lia Ascii.
From stdpp Require Import base option list strings gmap pretty.
From S2P Require Import Prelude Float64 GoValue Ast ProviderTypes PolicyContext PolicyFields ProxyTypes ProcContent PolicyMatcher PolicyConfig PolicyPriority PolicyEngine CliEvidence.
Local Open Scope string_scope.
Local Open Scope list_scope.
Local Open Scope Z_scope.
Local Open Scope go_scope.

Record TestFlags := mkTestFlags { tf_policyFile : string; tf_testsFile : string; tf_dryRun : bool; tf_coverage : bool }.

Record TestRequest := mkTestRequest {
  tq_Model : string;
  tq_Messages : list Message;
  tq_MaxTokens : Z;
  tq_Temperature : float64;
}.

Record TestExpectation := mkTestExpectation { ex_Action : string; ex_Reason : string }.

Record TestCase := mkTestCase {
  t_Name : string;
  t_Request : TestRequest;
  t_Metadata : gmap string GoValue;
  t_Expect : TestExpectation;
}.

Record TestResult := mkTestResult {
  TestName : string;
  Passed : bool;
  ActualAction : string;
  ActualReason : string;
  t_Error : string;
  t_Duration : Duration;
}.

(** ** The request of a test *)

Definition test_chat (t : TestCase) : ChatRequest :=
  let q := t_Request t in
  mkChatRequest (tq_Model q) (tq_Messages q)
    (if flt fzero (tq_Temperature q) then Some (tq_Temperature q) else None)
    (if 0 <? tq_MaxTokens q then Some (tq_MaxTokens q) else None)
    None None false [] None None "" [] VNil None None.

Definition test_cost (t : TestCase) : float64 :=
  match t_Metadata t !! "estimated_cost" with Some (VFloat64 cost) => cost | _ => flit 1 100 end.

Definition test_enriched (t : TestCase) : EnrichedRequest :=
  let q := t_Request t in
  let n := Z.of_nat (length (tq_Messages q)) in
  mkEnrichedRequest "test-request" (Some (engine_request (test_chat t)))
    (Some (mkTokenEstimate 10 0 10 0 0 0 0 (tq_Model q) fzero))
    (Some (mkCostEstimate (flit 5 1000) (flit 5 1000) (test_cost t) (tq_Model q) "" "" "USD"))
    (Some (mkContentAnalysis (Some (mkPIIDetection false [] 0 (VSlice "[]content.PIILocation" [])))
       (vptr "*content.SensitiveContent" reflect_SensitiveContent (Some (mkSensitiveContent false [] "low" 0)))
       None (VPtr "*content.Sentiment" None) "" 0 0 fzero))
    (Some (mkConversationContext n n [] 0 fzero (1 <? n) 0))
    "gpt" "" 0 1 1 0.

(** ** Running the tests *)

Section tests.
Context `{GoStd} `{TimeZones} `{Fmt}.
Variable fixed1 : float64 -> string.

(** Action and reason as expected. *)
Definition as_expected (x : TestExpectation) (d : PolicyDecision) : bool :=
  String.eqb (d_Action d) (ex_Action x) && (String.eqb (ex_Reason x) "" || String.eqb (d_BlockReason d) (ex_Reason x)).

(** [None] is a panic of the engine. *)
Definition runTestCase (e : InterpreterEngine) (t : TestCase) : Run (option TestResult) :=
  let* start := rnow in
  let* r := EvaluateRequest e (Some (test_enriched t)) in
  match r with
  | RPanic => rret None
  | RError msg => let* d := since start in rret (Some (mkTestResult (t_Name t) false "" "" msg d))
  | RDecision d =>
      let* duration := since start in
      rret (Some (mkTestResult (t_Name t) (as_expected (t_Expect t) d) (d_Action d) (d_BlockReason d) "" duration))
  end.

Fixpoint run_suite (e : InterpreterEngine) (tests : list TestCase) : Run (option (list TestResult)) :=
  match tests with
  | [] => rret (Some [])
  | t :: tests =>
      let* r := runTestCase e t in
      match r with
      | None => rret None
      | Some r => let* rs := run_suite e tests in rret (cons r <$> rs)
      end
  end.

Definition actual_lines (t : TestCase) (r : TestResult) : list string :=
  if negb (String.eqb (t_Error r) "") then ["  Error: " +:+ t_Error r]
  else
    let reason (r : string) := if String.eqb r "" then "" else ", reason=" +:+ Quote r in
    ["  Expected: action=" +:+ ex_Action (t_Expect t) +:+ reason (ex_Reason (t_Expect t));
     "  Actual:   action=" +:+ ActualAction r +:+ reason (ActualReason r)].

Definition test_lines (tr : TestCase * TestResult) : list string :=
  let '(t, r) := tr in
  if Passed r then ["✓ " +:+ t_Name t +:+ " (" +:+ fixed1 (fmul (Seconds (t_Duration r)) (of_int 1000)) +:+ "ms)"]
  else ("✗ " +:+ t_Name t) :: actual_lines t r.

Definition passed (results : list TestResult) : Z := foldl (fun n r => if Passed r then n + 1 else n) 0 results.
Definition failures (results : list TestResult) : Z := foldl (fun n r => if Passed r then n else n + 1) 0 results.

Definition report (coverage : bool) (tests : list TestCase) (results : list TestResult) : Ran :=
  let lines := ["Running policy tests..."; ""] ++ (zip tests results ≫= test_lines) ++
    [""; "Summary:"; "  " +:+ pretty (Z.of_nat (length tests)) +:+ " tests run, " +:+ pretty (passed results) +:+ " passed, " +:+
       pretty (failures results) +:+ " failed"] ++
    line_if coverage "  Coverage report not yet implemented" in
  if 0 <? failures results then
    mkRan (lines ++ [""; "Failed tests:"] ++
             ((fun r => "  - " +:+ TestName r) <$> List.filter (fun r => negb (Passed r)) results))
      (Some (CommandError "test" "test failures"))
  else mkRan lines None.

Definition test_config : EngineConfig :=
  mkEngineConfig FailClosed ActionAllow (RuleTimeout DefaultEngineConfig) (PolicyTimeout DefaultEngineConfig) false
    (MaxPolicies DefaultEngineConfig) (MaxRulesPerPolicy DefaultEngineConfig) (BusinessHours DefaultEngineConfig).

Section command.
Context `{SortSlice}.
Variable readFile : string -> result string string.
Variable decode_suite : string -> result string (list TestCase).
(** The file source of the engine. *)
Variable load : string -> result string (list Policy).

Definition loadTestCases (path : string) : result string (list TestCase) :=
  match readFile path with
  | Err e => Err ("failed to read file: " +:+ e)
  | Ok data =>
      match decode_suite data with
      | Err e => Err ("failed to parse YAML: " +:+ e)
      | Ok suite => Ok suite
      end
  end.

Definition runTests (f : TestFlags) : Run (option Ran) :=
  if String.eqb (tf_testsFile f) "" && negb (tf_dryRun f) then
    rret (failed (CliError "either --tests or --dry-run must be specified"))
  else if tf_dryRun f then rret (failed (CliError "dry-run mode not yet implemented"))
  else
    match loadTestCases (tf_testsFile f) with
    | Err e => rret (failed (CommandError "test" ("failed to load test cases: " +:+ e)))
    | Ok [] => rret (failed (CliError ("no test cases found in " +:+ tf_testsFile f)))
    | Ok tests =>
        match NewInterpreterEngine (Some test_config) (Some (load (tf_policyFile f))) with
        | Err e => rret (failed (CommandError "test" ("failed to create policy engine: " +:+ e)))
        | Ok e =>
            let* rs := run_suite e tests in
            rret (report (tf_coverage f) tests <$> rs)
        end
    end.
End command.

(** ** What a passing suite shows *)

Lemma passed_failed results :
  passed results + failures results = Z.of_nat (length results) /\ 0 <= passed results /\ 0 <= failures results.
Proof.
  unfold passed, failures.
  assert (Hg : forall a b, 0 <= a -> 0 <= b ->
    let p := foldl (fun n r => if Passed r then n + 1 else n) a results in
    let q := foldl (fun n r => if Passed r then n else n + 1) b results in
    p + q = a + b + Z.of_nat (length results) /\ a <= p /\ b <= q).
  { induction results as [|r results IH]; intros a b Ha Hb; cbn -[Z.of_nat]; [lia|].
    rewrite Nat2Z.inj_succ. destruct (Passed r); [pose proof (IH (a + 1) b)|pose proof (IH a (b + 1))]; simpl in *; lia. }
  pose proof (Hg 0 0). simpl in *. lia.
Qed.

Lemma failures_zero results : failures results = 0 <-> Forall (fun r => Passed r = true) results.
Proof.
  unfold failures.
  assert (Hg : forall b, 0 <= b -> foldl (fun n r => if Passed r then n else n + 1) b results = 0 <->
    b = 0 /\ Forall (fun r => Passed r = true) results).
  { induction results as [|r results IH]; intros b Hb; simpl; [rewrite Forall_nil; naive_solver|].
    rewrite Forall_cons. destruct (Passed r); rewrite IH by lia; split; intros; destruct_and?; split_and?; (lia || done). }
  rewrite Hg by lia. naive_solver.
Qed.

(** The evaluations of a run, one after the other in the clock of the process: the
    test that starts at the [i]-th look at the clock is answered [r]. *)
Inductive answers (e : InterpreterEngine) (env : Env) : nat -> list TestCase -> list EvalResult -> nat -> Prop :=
| answers_nil i : answers e env i [] [] i
| answers_cons i j k t r tests rs :
    EvaluateRequest e (Some (test_enriched t)) env (S i) = (r, j) -> r <> RPanic ->
    answers e env (S j) tests rs k -> answers e env i (t :: tests) (r :: rs) k.

Definition expected (t : TestCase) (r : EvalResult) : Prop :=
  exists d, r = RDecision d /\ d_Action d = ex_Action (t_Expect t) /\
    (ex_Reason (t_Expect t) = "" \/ d_BlockReason d = ex_Reason (t_Expect t)).

Lemma as_expected_spec x d :
  as_expected x d = true <-> d_Action d = ex_Action x /\ (ex_Reason x = "" \/ d_BlockReason d = ex_Reason x).
Proof. unfold as_expected. by rewrite andb_true_iff, orb_true_iff, !String.eqb_eq. Qed.

Definition same_test (r : TestResult) (t : TestCase) (a : EvalResult) : Prop :=
  TestName r = t_Name t /\ (Passed r = true <-> expected t a).

Lemma run_suite_answers e env tests : forall i results j,
  run_suite e tests env i = (Some results, j) ->
  exists rs, answers e env i tests rs j /\ Forall3 same_test results tests rs.
Proof.
  induction tests as [|t tests IH]; intros i results j Hrun; simpl in Hrun.
  { unfold rret in Hrun. simplify_eq. exists []. split; constructor. }
  unfold rbind in Hrun at 1. unfold runTestCase, rbind, rnow, since, rret in Hrun.
  destruct (EvaluateRequest e (Some (test_enriched t)) env (S i)) as [r k] eqn:He.
  assert (Hr : r <> RPanic). { intros ->. done. }
  destruct r as [d|msg|]; [| |done]; cbn in Hrun;
    destruct (run_suite e tests env (S k)) as [[rs|] j'] eqn:Hs; simplify_eq/=;
    destruct (IH _ _ _ Hs) as (as' & Ha & Hf); eexists; (split; [by econstructor|]); constructor; try done;
    (split; [done|]); simpl.
  - rewrite as_expected_spec. unfold expected. naive_solver.
  - unfold expected. naive_solver.
Qed.

(** A run of [mercator test] that ends reports every test once.  It succeeds
    exactly when the engine answers every request, in the order of the suite, with
    a decision of the expected action, and of the expected reason where one is
    given; otherwise it lists exactly the names of the tests for which it does
    not.  The counts it prints add up. *)
Theorem suite_verdict e env i j coverage tests results :
  run_suite e tests env i = (Some results, j) ->
  exists rs, answers e env i tests rs j /\
    Forall3 same_test results tests rs /\
    (ended (report coverage tests results) = None <-> Forall2 expected tests rs) /\
    passed results + failures results = Z.of_nat (length tests).
Proof.
  intros Hrun. destruct (run_suite_answers _ _ _ _ _ _ Hrun) as (rs & Ha & Hf). exists rs. split; [done|]. split; [done|].
  pose proof (passed_failed results) as (Hsum & Hp & Hq).
  assert (Hl : length results = length tests) by (by eapply Forall3_length_lm). split; [|by rewrite Hsum, Hl].
  assert (He : ended (report coverage tests results) = None <-> failures results = 0).
  { unfold report. destruct (Z.ltb_spec 0 (failures results)); simpl; [split; [done|lia]|split; [lia|done]]. }
  rewrite He, failures_zero. clear -Hf. induction Hf as [|r t a rs' ts as' [_ Hp] _ IH]; [by rewrite Forall_nil|].
  rewrite Forall_cons, Forall2_cons, IH, Hp. done.
Qed.

(** The tests that are listed as failed. *)
Lemma failed_listed coverage tests results name :
  ended (report coverage tests results) <> None -> 
  name ∈ TestName <$> List.filter (fun r => negb (Passed r)) results -> ("  - " +:+ name) ∈ out (report coverage tests results).
Proof.
  unfold report. destruct (0 <? failures results); [|done]. cbn [out ended]. intros _ Hin.
  apply list_elem_of_fmap in Hin as (r & -> & Hr). apply elem_of_app. right. apply elem_of_app. right.
  apply list_elem_of_fmap. eauto.
Qed.

(** Of the metadata of a test only an [estimated_cost] written as a floating-point
    number counts. *)
Definition with_metadata (m : gmap string GoValue) (t : TestCase) : TestCase :=
  mkTestCase (t_Name t) (t_Request t) m (t_Expect t).

Theorem metadata_ignored e t m :
  (forall cost, m !! "estimated_cost" = Some (VFloat64 cost) <-> t_Metadata t !! "estimated_cost" = Some (VFloat64 cost)) ->
  runTestCase e (with_metadata m t) = runTestCase e t.
Proof.
  intros Hm. assert (Hc : test_cost (with_metadata m t) = test_cost t).
  { unfold test_cost, with_metadata; simpl.
    destruct (m !! "estimated_cost") as [[]|], (t_Metadata t !! "estimated_cost") as [[]|]; naive_solver. }
  unfold runTestCase, test_enriched. by rewrite Hc.
Qed.

(** No test has personal data or an injection in its request, whatever its
    messages say. *)
Theorem tests_have_no_findings t e start :
  let c := new_context e "test-request" (Some (test_enriched t)) None start in
  hasPII c = false /\ hasInjection c = false.
Proof. done. Qed.
End tests.

(** ** A small suite *)

Definition demo_test (name action : string) (meta : gmap string GoValue) : TestCase :=
  mkTestCase name (mkTestRequest "gpt-4" [mkMessage "user" (VString "my ssn is 123-45-6789") "" [] ""] 0 fzero) meta
    (mkTestExpectation action "").

Definition pii_engine : InterpreterEngine := demo_engine test_config (function_call "has_pii").
Definition model_engine : InterpreterEngine :=
  demo_engine test_config (simple "request.model" OperatorEqual (VString "gpt-4")).

Definition demo_suite : list TestCase := [demo_test "a" "block" ∅; demo_test "b" "allow" ∅].

Definition demo_run (e : InterpreterEngine) (tests : list TestCase) : option (list TestResult) :=
  fst (run_suite (H := plain_std) (H0 := no_zones) e tests demo_env 0%nat).

Lemma suite_verdict_witness :
  exists results j rs,
    run_suite (H := plain_std) (H0 := no_zones) model_engine demo_suite demo_env 0%nat = (Some results, j) /\
    answers (H := plain_std) (H0 := no_zones) model_engine demo_env 0%nat demo_suite rs j /\
    passed results = 1 /\ failures results = 1.
Proof.
  assert (E : exists results j, run_suite (H := plain_std) (H0 := no_zones) model_engine demo_suite demo_env 0%nat =
    (Some results, j) /\ passed results = 1 /\ failures results = 1) by (vm_compute; do 2 eexists; repeat split).
  destruct E as (results & j & E & Hp & Hf).
  destruct (suite_verdict (H := plain_std) (H0 := no_zones) (H1 := {| Quote s := s; DurationString _ := "" |})
    (fun _ => "") model_engine demo_env 0%nat j false demo_suite results E) as (rs & Ha & _).
  by exists results, j, rs.
Defined.

(** A test cannot reach a rule on personal data: the request of the suite contains
    a social security number, and the rule that blocks it never matches. *)
Example pii_rule_untestable :
  option_map (fmap Passed) (demo_run pii_engine demo_suite) = Some [false; true].
Proof. by vm_compute. Qed.

(** An estimated cost of [2] is an integer to the decoder, so it is ignored; [2.0]
    counts. *)
Example integer_cost_ignored :
  (test_cost (demo_test "c" "block" {["estimated_cost" := VInt KInt 2]}) = flit 1 100) /\
  (test_cost (demo_test "c" "block" {["estimated_cost" := VFloat64 (of_int 2)]}) = of_int 2).
Proof. by vm_compute. Qed.
