(* ===== verification/CliGit.v ===== *)
(** * Policies in a repository ([cmd/mercator/policy.go])

    [mercator policy version], [sync], [history] and [rollback]: each loads the
    configuration, creates a policy manager on a clone of the configured repository
    and calls one operation of it.  The repository is that of [GitClone] and
    [GitSource], the manager that of [PolicyManager].  A command gives what it
    prints and its error together with the repository and the manager it leaves;
    [None] is a panic. *)

From Stdlib Require Import ZArith Lia Ascii.
From stdpp Require Import base option list strings gmap pretty.
From S2P Require Import Prelude GoValue Ast PolicyPriority PolicyRegistry ProviderTypes Paths PolicyLoader PolicyResolver ConfigTypes ConfigValidate ConfigLoad GitSource PolicyManager GitClone CliEvidence.
Local Open Scope string_scope.
Local Open Scope list_scope.
Local Open Scope Z_scope.

Record PolicyFlags := mkPolicyFlags { pf_configFile : string; pf_limit : Z; pf_to : string; pf_format : string }.

(** [s[:8]] *)
Definition short (s : string) : option string :=
  if (8 <=? String.length s)%nat then Some (String.substring 0 8 s) else None.

Section commands.
Context `{MapRange} `{SortSlice} `{PolicyHash} `{Fmt} `{UrlParser} `{CliText}.
Context {W G : Type} `{!GitHost W G} `{!GoGit G}.
Variable commitObject : string -> G -> result string Commit.
Variable log : string -> G -> result string (list Commit * option string).
Variable validatePolicy : Policy -> option PmErr.
Variable encode_commit : CommitInfo -> result string string.
Variable encode_commits : list CommitInfo -> result string string.
(** The file system outside of the repository, and the clock of the loads. *)
Variable disk : Disk.
Variable times : LoadTimes.

Record Session := mkSession { ss_repo : GitRepo (G := G); ss_manager : DefaultPolicyManager }.

(** What a command leaves. *)
Record Done := mkDone { dn_ran : Ran; dn_session : option Session; dn_world : W }.

Definition stop (e : CliErr) (w : W) : option Done := Some (mkDone (mkRan [] (Some e)) None w).

Definition loadPolicyConfig (cw : World) (f : PolicyFlags) (s : Singleton) : result string PolicyConfig :=
  let configFile := if String.eqb (pf_configFile f) "" then "config.yaml" else pf_configFile f in
  match Initialize cw configFile s with
  | (Some e, _) => Err ("failed to initialize config: " +:+ config_err_text e)
  | (None, s) => match GetConfig s with Some c => Ok (c_Policy c) | None => Err "nil config" end
  end.

Definition manager_cfg (cfg : PolicyConfig) : PolicyCfg :=
  mkPolicyCfg (po_Mode cfg) (po_FilePath cfg) (pv_Enabled (po_Validation cfg)) (pv_Strict (po_Validation cfg)).

Definition git_mode (cfg : PolicyConfig) : bool := String.eqb (po_Mode cfg) "git" && gt_Enabled (po_Git cfg).

Definition session_base (cfg : PolicyConfig) : string := resolverBase (manager_cfg cfg) disk.

(** [NewPolicyManager] in git mode: the repository is cloned. *)
Definition new_session (cfg : PolicyConfig) (now : Time) (w : W) : result PmErr Session * W :=
  match NewRepository (Some (po_Git cfg)) with
  | Err e => (Err (Wrapped "failed to create git repository" e), w)
  | Ok r =>
      match Clone r w with
      | (Some e, _, w) => (Err (Wrapped "failed to clone repository" e), w)
      | (None, r, w) => (Ok (mkSession r (NewManagerState now)), w)
      end
  end.

Definition createPolicyManager (cfg : PolicyConfig) (now : Time) (w : W) : option (result PmErr Session * W) :=
  match new_session cfg now w with
  | (Err e, w) => Some (Err (Wrapped "failed to create policy manager" e), w)
  | (Ok s, w) =>
      let r := gr_rep (ss_repo s) in
      match LoadPolicies (manager_cfg cfg) DefaultLoaderConfig validatePolicy (session_base cfg) (Some (GetPolicyPath r))
              (repoDisk disk r) times (ss_manager s) with
      | None => None
      | Some (Some e, _) => Some (Err (Wrapped "failed to load policies" e), w)
      | Some (None, m) => Some (Ok (mkSession (ss_repo s) m), w)
      end
  end.

(** The first steps of every command. *)
Definition with_session (command : string) (cw : World) (f : PolicyFlags) (s : Singleton) (now : Time) (w : W)
    (k : PolicyConfig -> Session -> W -> option Done) : option Done :=
  match loadPolicyConfig cw f s with
  | Err e => stop (CliError ("failed to load config: " +:+ e)) w
  | Ok cfg =>
      if negb (git_mode cfg) then
        stop (CliError ("policy " +:+ command +:+ " command requires Git mode (set policy.mode: git)")) w
      else
        match createPolicyManager cfg now w with
        | None => None
        | Some (Err e, w) => stop (CliError ("failed to create policy manager: " +:+ pm_text e)) w
        | Some (Ok s, w) => k cfg s w
        end
  end.

Definition current_commit (cfg : PolicyConfig) (s : Session) : result PmErr CommitInfo :=
  manager_CurrentCommit commitObject (po_Mode cfg) (Some (ss_repo s)).

Definition commit_lines (c : CommitInfo) : list string :=
  ["Current Policy Version:"; "  Commit:     " +:+ ci_SHA c; "  Branch:     " +:+ ci_Branch c; "  Author:     " +:+ ci_Author c;
   "  Timestamp:  " +:+ show_RFC3339 (ci_Timestamp c); "  Repository: " +:+ ci_Repository c] ++
  line_if (negb (String.eqb (ci_Message c) "")) ("  Message:    " +:+ ci_Message c).

Definition encoded (r : result string string) : Ran :=
  match r with Ok text => mkRan [text] None | Err e => mkRan [] (Some (CliError e)) end.

Definition showPolicyVersion (cw : World) (f : PolicyFlags) (s : Singleton) (now : Time) (w : W) : option Done :=
  with_session "version" cw f s now w (fun cfg s w =>
    let ran :=
      match current_commit cfg s with
      | Err e => mkRan [] (Some (CliError ("failed to get current commit: " +:+ pm_text e)))
      | Ok c => if String.eqb (pf_format f) "json" then encoded (encode_commit c) else mkRan (commit_lines c) None
      end in
    Some (mkDone ran (Some s) w)).

(** The authentication of a pull, as an error. *)
Definition pull_auth (s : Session) (w : W) : option string :=
  match GetAuth (gr_auth (ss_repo s)) w with Err e => Some (pm_text e) | Ok _ => None end.

Definition set_repo (r : Repository G) (m : DefaultPolicyManager) (s : Session) : Session :=
  mkSession (mkGitRepo (gr_config (ss_repo s)) (gr_auth (ss_repo s)) r) m.

(** An operation of the manager in git mode. *)
Definition lifted (op : GitState -> option (option PmErr * GitState)) (s : Session) : option (option PmErr * Session) :=
  match op (Some (gr_rep (ss_repo s)), ss_manager s) with
  | None => None
  | Some (e, (Some r, m)) => Some (e, set_repo r m s)
  | Some (e, (None, m)) => Some (e, set_repo (gr_rep (ss_repo s)) m s)
  end.

(** What a command prints of the commit it has reached. *)
Definition reached (before : list string) (headline : string -> string) (what : string) (cfg : PolicyConfig) (s : Session)
    (w : W) : option Done :=
  match current_commit cfg s with
  | Err e => Some (mkDone (mkRan before (Some (CliError (what +:+ pm_text e)))) (Some s) w)
  | Ok c =>
      match short (ci_SHA c) with
      | None => None
      | Some sha =>
          Some (mkDone (mkRan (before ++ [headline sha; "  Author: " +:+ ci_Author c;
                                          "  Date:   " +:+ show_RFC3339 (ci_Timestamp c)]) None) (Some s) w)
      end
  end.

Definition syncPolicies (cw : World) (f : PolicyFlags) (s : Singleton) (now : Time) (w : W) : option Done :=
  with_session "sync" cw f s now w (fun cfg s w =>
    let before := ["Syncing with Git remote..."] in
    match lifted (ForceSync (manager_cfg cfg) DefaultLoaderConfig validatePolicy (session_base cfg) (pull_auth s w) disk times) s with
    | None => None
    | Some (Some e, s) => Some (mkDone (mkRan before (Some (CliError ("failed to sync: " +:+ pm_text e)))) (Some s) w)
    | Some (None, s) =>
        reached before (fun sha => "✓ Synced successfully to commit " +:+ sha) "failed to get current commit: " cfg s w
    end).

Definition message_text (m : string) : string :=
  if (60 <? String.length m)%nat then String.substring 0 60 m +:+ "..." else m.

(** The numbered commits; [None] is a hash of less than eight characters. *)
Fixpoint history_lines (i : Z) (commits : list CommitInfo) : option (list string) :=
  match commits with
  | [] => Some []
  | c :: commits =>
      sha ← short (ci_SHA c);
      rest ← history_lines (i + 1) commits;
      Some ([pretty (i + 1) +:+ ". " +:+ sha; "   Author:    " +:+ ci_Author c;
             "   Date:      " +:+ show_RFC3339 (ci_Timestamp c); "   Branch:    " +:+ ci_Branch c] ++
            line_if (negb (String.eqb (ci_Message c) "")) ("   Message:   " +:+ message_text (ci_Message c)) ++ [""] ++ rest)
  end.

Definition showPolicyHistory (cw : World) (f : PolicyFlags) (s : Singleton) (now : Time) (w : W) : option Done :=
  with_session "history" cw f s now w (fun cfg s w =>
    let fin ran := Some (mkDone ran (Some s) w) in
    match manager_CommitHistory log (po_Mode cfg) (pf_limit f) (Some (ss_repo s)) with
    | Err e => fin (mkRan [] (Some (CliError ("failed to get commit history: " +:+ pm_text e))))
    | Ok [] => fin (mkRan ["No commits found"] None)
    | Ok commits =>
        if String.eqb (pf_format f) "json" then fin (encoded (encode_commits commits))
        else
          lines ← history_lines 0 commits;
          fin (mkRan (["Policy Commit History (last " +:+ pretty (pf_limit f) +:+ " commits):"; ""] ++ lines) None)
    end).

Definition rollbackPolicies (cw : World) (f : PolicyFlags) (s : Singleton) (now : Time) (w : W) : option Done :=
  with_session "rollback" cw f s now w (fun cfg s w =>
    match current_commit cfg s with
    | Err e => Some (mkDone (mkRan [] (Some (CliError ("failed to get current commit: " +:+ pm_text e)))) (Some s) w)
    | Ok c =>
        sha ← short (ci_SHA c);
        let before := ["Current commit: " +:+ sha; "Rolling back to: " +:+ pf_to f] in
        match lifted (RollbackToCommit (manager_cfg cfg) DefaultLoaderConfig validatePolicy (session_base cfg) disk times (pf_to f)) s with
        | None => None
        | Some (Some e, s) => Some (mkDone (mkRan before (Some (CliError ("failed to rollback: " +:+ pm_text e)))) (Some s) w)
        | Some (None, s) =>
            reached before (fun sha => "✓ Successfully rolled back to commit " +:+ sha) "failed to get new commit: " cfg s w
        end
    end).
End commands.

(** ** What the commands leave *)

Section theorems.
Context `{MapRange} `{SortSlice} `{PolicyHash} `{Fmt} `{UrlParser} `{CliText}.
Context {W G : Type} `{!GitHost W G} `{GL : GoGitLaws G}.
Variable commitObject : string -> G -> result string Commit.
Variable log : string -> G -> result string (list Commit * option string).
Variable validatePolicy : Policy -> option PmErr.
Variable encode_commit : CommitInfo -> result string string.
Variable encode_commits : list CommitInfo -> result string string.
Variable disk : Disk.
Variable times : LoadTimes.

(** A new clone has a clean work tree. *)
Hypothesis cloned_clean : forall timeout path opts w g w',
  gh_PlainClone timeout path opts w = (Ok g, w') -> clean_tree commit_disk g.

(** So does every clone that is on the machine: nobody has changed, added or removed
    files in it. *)
Definition opens_clean (w : W) : Prop := forall path g, gh_PlainOpen path w = Ok g -> clean_tree commit_disk g.

Definition clones_clean (w : W) : Prop :=
  opens_clean w /\ forall path w', gh_RemoveAll path w = (None, w') -> opens_clean w'.

Lemma Clone_clean r r' w w' : clones_clean w -> Clone r w = (None, r', w') -> clean (gr_rep r').
Proof using cloned_clean.
  intros [Ho Hr]. unfold Clone.
  set (start := if gc_CleanOnStart (gt_Clone (gr_config r)) then gh_RemoveAll (rp_localPath (gr_rep r)) w else (None, w)).
  assert (Hopen : forall w1, start = (None, w1) -> opens_clean w1).
  { intros w1. unfold start. destruct (gc_CleanOnStart _); [apply Hr|by intros [= <-]]. }
  destruct start as [[e|] w1]; [done|]. specialize (Hopen w1 eq_refl). destruct (gh_exists _ w1).
  - destruct (gh_PlainOpen _ w1) as [g|] eqn:E; [|done]. intros [= <- _] g' [= <-]. by eapply Hopen.
  - destruct (gh_MkdirAll _ w1) as [[e|] w2]; [done|]. destruct (GetAuth _ w2); [|done].
    destruct (gh_PlainClone _ _ _ w2) as [[g|] w3] eqn:E; [|done]. intros [= <- _] g' [= <-]. by eapply cloned_clean.
Qed.

(** The active policies of a session are those of the commit checked out. *)
Definition session_in_sync (cfg : PolicyConfig) (s : Session) : Prop :=
  in_sync (manager_cfg cfg) DefaultLoaderConfig validatePolicy (session_base disk cfg) (gr_rep (ss_repo s)) (ss_manager s).

Lemma git_mode_mode cfg : git_mode cfg = true -> pc_Mode (manager_cfg cfg) = "git".
Proof. unfold git_mode. rewrite andb_true_iff, String.eqb_eq. by intros [? _]. Qed.

(** A manager that was created is in a consistent state, and in sync with its
    repository when that has a head. *)
Lemma create_spec cfg now w s w' :
  clones_clean w -> git_mode cfg = true -> createPolicyManager validatePolicy disk times cfg now w = Some (Ok s, w') ->
  manager_ok (ss_manager s) /\ clean (gr_rep (ss_repo s)) /\ (forall h, head_is (gr_rep (ss_repo s)) h -> session_in_sync cfg s).
Proof.
  intros Hw Hg Hc. unfold createPolicyManager, new_session in Hc.
  destruct (NewRepository _) as [r|]; [|done]. destruct (Clone r w) as [[[e|] r1] w1] eqn:Hcl; [done|].
  apply Clone_clean in Hcl; [|done].
  cbn [ss_repo ss_manager] in Hc.
  set (op := OpLoad (session_base disk cfg) (Some (GetPolicyPath (gr_rep r1))) (repoDisk disk (gr_rep r1)) times).
  destruct (load_step_spec (manager_cfg cfg) DefaultLoaderConfig validatePolicy op (NewManagerState now)) as (e & m & Hs & Hspec);
    [done|].
  pose proof (load_step_ok _ _ _ op _ _ _ (eq_refl : manager_ok (NewManagerState now)) Hs) as Hok.
  cbn [load_step op] in Hs. rewrite Hs in Hc. destruct e as [e|]; [done|]. simplify_eq/=. split; [done|]. split; [done|].
  intros h (g & Hr & Hh). cbn [op_accepted op] in Hspec. unfold repoDisk in Hspec. rewrite Hr, (Hcl g Hr h Hh) in Hspec.
  destruct (accepted _ _ _ _ _ _) as [ps|] eqn:Ha; [|by destruct Hspec as [[? ?] _]].
  exists h, ps. split_and!; [by exists g|done|by destruct Hspec as (_ & ? & _)].
Qed.

Lemma current_commit_head cfg s c :
  current_commit commitObject cfg s = Ok c -> exists h, head_is (gr_rep (ss_repo s)) h.
Proof.
  unfold current_commit, manager_CurrentCommit, GetCurrentCommit. destruct (String.eqb _ _); [|done].
  destruct (rp_repo _) as [g|] eqn:Hr; [|done]. destruct (gg_Head g) as [h|] eqn:Hh; [|done]. intros _. by exists h, g.
Qed.

Lemma history_head mode limit s cs :
  manager_CommitHistory log mode limit (Some (ss_repo s)) = Ok cs -> exists h, head_is (gr_rep (ss_repo s)) h.
Proof.
  unfold manager_CommitHistory, GetCommitHistory. destruct (String.eqb _ _); [|done].
  destruct (rp_repo _) as [g|] eqn:Hr; [|done]. destruct (gg_Head g) as [h|] eqn:Hh; [|done]. intros _. by exists h, g.
Qed.

Lemma with_session_inv command cw f s now w k d :
  with_session validatePolicy disk times command cw f s now w k = Some d -> ended (dn_ran d) = None ->
  exists cfg s' w', git_mode cfg = true /\ createPolicyManager validatePolicy disk times cfg now w = Some (Ok s', w') /\
    k cfg s' w' = Some d.
Proof.
  unfold with_session, stop. intros Hk He. destruct (loadPolicyConfig _ _ _) as [cfg|]; [|by simplify_eq/=].
  destruct (git_mode cfg) eqn:Hg; [|by simplify_eq/=]. cbn [negb] in Hk.
  destruct (createPolicyManager _ _ _ _ _ _) as [[[s'|e] w']|] eqn:Hc; [|by simplify_eq/=|done]. eauto 6.
Qed.

Lemma reached_inv before headline what cfg s (w : W) d :
  reached commitObject before headline what cfg s w = Some d -> ended (dn_ran d) = None ->
  dn_session d = Some s /\ exists h, head_is (gr_rep (ss_repo s)) h.
Proof.
  unfold reached. intros Hr He. destruct (current_commit _ _ _) as [c|] eqn:Hc; [|by simplify_eq/=].
  apply current_commit_head in Hc. destruct (short _); by simplify_eq/=.
Qed.

Lemma lifted_inv (op : GitState (G := G) -> option (option PmErr * GitState)) s e s2 :
  lifted op s = Some (e, s2) ->
  exists o, op (Some (gr_rep (ss_repo s)), ss_manager s) = Some (e, (o, ss_manager s2)) /\
    (forall r, o = Some r -> gr_rep (ss_repo s2) = r).
Proof.
  unfold lifted. destruct (op _) as [[e' [[r|] m]]|] eqn:Ho; intros Hl; simplify_eq/=; eexists; (split; [done|]); by intros ? [= <-].
Qed.

Lemma sync_needs_head cfg getAuth r m o m' :
  git_mode cfg = true ->
  ForceSync (manager_cfg cfg) DefaultLoaderConfig validatePolicy (session_base disk cfg) getAuth disk times (Some r, m) =
    Some (None, (o, m')) -> exists h, head_is r h.
Proof.
  intros Hg Hf. unfold ForceSync, notGit in Hf. rewrite (git_mode_mode _ Hg) in Hf. cbn [negb orb String.eqb] in Hf.
  destruct (Pull getAuth r) as [[res|er] r1] eqn:Hp; [|done].
  destruct (Pull_ok getAuth r res r1 Hp) as (g & g1 & Hr & _ & Hh & _). by exists (pr_FromSHA res), g.
Qed.

Lemma rollback_success cfg sha r m o m' :
  git_mode cfg = true -> manager_ok m -> clean r ->
  RollbackToCommit (manager_cfg cfg) DefaultLoaderConfig validatePolicy (session_base disk cfg) disk times sha (Some r, m) =
    Some (None, (o, m')) ->
  exists r', o = Some r' /\ head_is r' sha /\
    in_sync (manager_cfg cfg) DefaultLoaderConfig validatePolicy (session_base disk cfg) r' m'.
Proof.
  intros Hg Hm Hcl Hr. unfold RollbackToCommit, notGit in Hr. rewrite (git_mode_mode _ Hg) in Hr. cbn [negb orb String.eqb] in Hr.
  destruct (Rollback sha r) as [[e|] r1] eqn:Hrb; [done|]. pose proof (Rollback_head _ _ _ Hrb) as Hh.
  destruct (reloadFromGit_spec (manager_cfg cfg) DefaultLoaderConfig validatePolicy (session_base disk cfg) disk times r1 m sha Hm (Rollback_clean _ _ _ Hrb Hcl) Hh)
    as (e & m2 & Hrl & _ & Hspec).
  rewrite Hrl in Hr. destruct e as [e|]; simplify_eq/=. exists r1. split_and!; [done..|].
  destruct (offered _ _ _ _ r1 sha) as [ps|] eqn:Ho; [|by destruct Hspec as [[? ?] _]].
  exists sha, ps. by destruct Hspec.
Qed.

(** The four commands, by name. *)
Inductive PolicyCommand := CmdVersion | CmdSync | CmdHistory | CmdRollback.

Definition run_policy (c : PolicyCommand) :=
  match c with
  | CmdVersion => showPolicyVersion commitObject validatePolicy encode_commit disk times
  | CmdSync => syncPolicies commitObject validatePolicy disk times
  | CmdHistory => showPolicyHistory log validatePolicy encode_commits disk times
  | CmdRollback => rollbackPolicies commitObject validatePolicy disk times
  end.

(** Outside of git mode no command touches the repository: each reports an error
    and leaves the world as it was. *)
Theorem commands_need_git c cw f s now w cfg :
  loadPolicyConfig cw f s = Ok cfg -> git_mode cfg = false ->
  exists e, run_policy c cw f s now w = Some (mkDone (mkRan [] (Some (CliError e))) None w).
Proof.
  intros Hl Hg. destruct c; unfold run_policy, showPolicyVersion, syncPolicies, showPolicyHistory, rollbackPolicies, with_session;
    rewrite Hl, Hg; by eexists.
Qed.

(** C18: whatever command of [mercator policy] reports success, it leaves the manager in
    sync: the active policies are exactly the validated policies of the commit that
    is checked out; and after a rollback that commit is the one asked for.  A clone
    that is already on the machine is opened as it is, so nobody must have changed
    the files in it ([clones_clean]). *)
Theorem policy_commands_in_sync c cw f s now w d :
  clones_clean w -> run_policy c cw f s now w = Some d -> ended (dn_ran d) = None ->
  exists cfg s', dn_session d = Some s' /\ git_mode cfg = true /\ session_in_sync cfg s' /\
    (c = CmdRollback -> head_is (gr_rep (ss_repo s')) (pf_to f)).
Proof.
  intros Hcw Hrun He.
  destruct c; apply with_session_inv in Hrun as (cfg & s1 & w1 & Hg & Hc & Hk); try done;
    destruct (create_spec _ _ _ _ _ Hcw Hg Hc) as (Hok & Hcl & Hsync); exists cfg.
  - destruct (current_commit _ _ _) as [ci|] eqn:Hcc; simplify_eq/=. apply current_commit_head in Hcc as [h Hh].
    exists s1. split_and!; [done|done|by eapply Hsync|done].
  - destruct (lifted _ _) as [[[e|] s2]|] eqn:Hl; [by simplify_eq/=| |done].
    destruct (reached_inv _ _ _ _ _ _ _ Hk He) as [-> [h Hh]]. exists s2. split_and!; [done..| |done].
    apply lifted_inv in Hl as (o & Hf & Ho). destruct (sync_needs_head _ _ _ _ _ _ Hg Hf) as [h0 Hh0].
    destruct (ForceSync_spec (manager_cfg cfg) DefaultLoaderConfig validatePolicy (session_base disk cfg) (pull_auth s1 w1) disk times
      (gr_rep (ss_repo s1)) (ss_manager s1) (git_mode_mode _ Hg) Hok Hcl (Hsync _ Hh0)) as (e & r' & m' & Hf' & Hs & _).
    rewrite Hf in Hf'. simplify_eq. unfold session_in_sync. rewrite (Ho _ eq_refl). by apply Hs.
  - destruct (manager_CommitHistory _ _ _ _) as [cs|] eqn:Hch; [|by simplify_eq/=].
    assert (Hd : dn_session d = Some s1).
    { destruct cs as [|c0 cs]; [by simplify_eq/=|]. destruct (String.eqb _ _); [by simplify_eq/=|].
      destruct (history_lines _ _); by simplify_eq/=. }
    exists s1. split_and!; [done..| |done]. apply history_head in Hch as [h Hh]. eauto.
  - destruct (current_commit _ _ _) as [ci|]; [|by simplify_eq/=]. destruct (short _); [|done]. cbn in Hk.
    destruct (lifted _ _) as [[[e|] s2]|] eqn:Hl; [by simplify_eq/=| |done].
    destruct (reached_inv _ _ _ _ _ _ _ Hk He) as [-> _]. exists s2. apply lifted_inv in Hl as (o & Hr & Ho).
    destruct (rollback_success _ _ _ _ _ _ Hg Hok Hcl Hr) as (r' & -> & Hh & Hs). unfold session_in_sync.
    rewrite (Ho _ eq_refl). by split_and!.
Qed.
End theorems.

(** ** A rollback *)

Definition git_config : Config :=
  mkConfig zero_proxy openai_only
    (mkPolicyConfig "git" "" "" "" "" (mkGitPolicyConfig true "https://example.com/p.git" "main" "policy.yaml"
       (mkGitAuthConfig "" "" "" "") (mkGitPollConfig false 0 0) (mkGitCloneConfig 0 "/r" false)) false
       (mkPolicyValidationConfig true false))
    zero_evidence zero_processing zero_routing zero_limits zero_telemetry zero_security.

Definition loaded_config : Singleton := mkSingleton (Some git_config) true.

Definition demo_policy_command (c : PolicyCommand) (target : string) : option (Done (W := list string) (G := ToyGit)) :=
  run_policy (H := some_range) (H0 := merge_sort_slice) (H1 := ex_hash) (H2 := bare_fmt) (H3 := any_url) (H4 := some_text)
    (GitHost0 := toy_host) (fun h _ => Ok (mkCommit (h +:+ "-0123456789") "dev" "" 0 "")) (fun _ _ => Ok ([], None)) all_valid
    (fun _ => Ok "") (fun _ => Ok "") (toy_commit "bad") toy_times c (world_of git_config no_env)
    (mkPolicyFlags "" 10 target "text") loaded_config 0 [].

Lemma toy_clones_clean w : clones_clean (GL := toy_git_laws) w.
Proof. split; [intros path g|intros path w' _ p g]; intros [= <-] h [= <-]; reflexivity. Qed.

Lemma toy_cloned_clean timeout path opts (w : list string) (g : ToyGit) w' :
  gh_PlainClone timeout path opts w = (Ok g, w') -> clean_tree (commit_disk (GoGitLaws := toy_git_laws)) g.
Proof. intros [= <- _] h [= <-]. reflexivity. Qed.

Lemma policy_commands_in_sync_witness :
  exists d s', demo_policy_command CmdRollback "older" = Some d /\ dn_session d = Some s' /\
    head_is (gr_rep (ss_repo s')) "older".
Proof.
  assert (E : exists d, demo_policy_command CmdRollback "older" = Some d /\ ended (dn_ran d) = None)
    by (vm_compute; eexists; split; reflexivity).
  destruct E as (d & E & He).
  destruct (policy_commands_in_sync (GL := toy_git_laws) _ (fun _ _ => Ok ([], None)) _ (fun _ => Ok "") (fun _ => Ok "") _ _
    toy_cloned_clean CmdRollback _ _ _ _ _ d (toy_clones_clean _) E He) as (cfg & s' & Hs & _ & _ & Hh).
  exists d, s'. split_and!; [exact E|exact Hs|exact (Hh eq_refl)].
Defined.

(** A rollback to a commit whose policies are rejected reports an
    error and leaves the repository there. *)
Example rejected_rollback_stays :
  exists d s', demo_policy_command CmdRollback "bad" = Some d /\ ended (dn_ran d) <> None /\ dn_session d = Some s' /\
    tg_head <$> rp_repo (gr_rep (ss_repo s')) = Some "bad".
Proof. vm_compute. do 2 eexists. by split_and!. Qed.

