(* ===== verification/CliCerts.v ===== *)
(** * Certificates ([cmd/mercator/certs_generate.go], [certs_validate.go],
    [certs_info.go])

    [mercator certs generate], [validate] and [info] over the certificate functions
    of [Security] and the files with permissions of [CliEvidence].  Key generation,
    encoding and parsing of certificates and the formatting of times are parameters;
    times print through [CliText]. *)

From Stdlib Require Import ZArith Lia Ascii.
From stdpp Require Import base option list strings gmap pretty.
From S2P Require Import Prelude Float64 GoValue ProxyTypes Paths Security TelemetryLog CliEvidence.
Local Open Scope string_scope.
Local Open Scope list_scope.
Local Open Scope Z_scope.

(** ** [certs validate] *)

Record CertsValidateFlags := mkCertsValidateFlags { cv_certFile : string; cv_keyFile : string; cv_caFile : string }.

Section certs.
Context {Pool : Type} `{X509 Pool} `{TimeFmt}.
Variable fs : Files.
Variable pem_Decode : string -> option string.
(** [fmt] of a list of strings, [%v]. *)
Variable show_list : list string -> string.

Definition load_certificate (file : string) : result string string :=
  match fs_ReadFile fs file with
  | Err e => Err ("failed to read certificate: " +:+ e)
  | Ok data =>
      match pem_Decode data with
      | None => Err "failed to parse certificate PEM"
      | Some block => Ok block
      end
  end.

Definition validateChain (cert : X509Cert) (caFile : string) : option string :=
  match fs_ReadFile fs caFile with
  | Err e => Some ("failed to read CA certificate: " +:+ e)
  | Ok caPEM =>
      match AppendCertsFromPEM caPEM with
      | None => Some "failed to parse CA certificate"
      | Some caPool => ValidateCertificateChain cert caPool
      end
  end.

Definition detail_lines (cert : X509Cert) : list string :=
  [""; "Certificate Details:"; "  Subject: " +:+ su_CommonName (xc_Subject cert)] ++
  match su_Organization (xc_Subject cert) with o :: _ => ["  Organization: " +:+ o] | [] => [] end ++
  ["  Issuer: " +:+ su_CommonName (xc_Issuer cert); "  Serial: " +:+ hex (xc_SerialNumber cert);
   "  Valid From: " +:+ RFC3339 (xc_NotBefore cert); "  Valid Until: " +:+ RFC3339 (xc_NotAfter cert)] ++
  match xc_DNSNames cert with [] => [] | l => ["  SANs (DNS): " +:+ show_list l] end ++
  match xc_IPAddresses cert with [] => [] | l => ["  SANs (IP): " +:+ show_list l] end.

(** A check that is made when its flag is given: what it prints, and its error. *)
Definition optional_check (flag good bad : string) (check : option string) : list string * option string :=
  if String.eqb flag "" then ([], None)
  else match check with Some e => ([bad], Some e) | None => ([good], None) end.

(** [now] is read for the expiry, [now'] by [CheckCertificateExpiration]. *)
Definition validateCertificate (now now' : Time) (f : CertsValidateFlags) : Ran :=
  let first := ["Validating certificate: " +:+ cv_certFile f; ""] in
  match load_certificate (cv_certFile f) with
  | Err e => mkRan first (Some (CliError e))
  | Ok block =>
      match ParseCertificate block with
      | Err e => mkRan first (Some (CliError ("failed to parse certificate: " +:+ e)))
      | Ok cert =>
          let '(pairing, pairErr) := optional_check (cv_keyFile f) "✓ Certificate and key match" "✗ Certificate and key do NOT match"
            (match fs_LoadX509KeyPair fs (cv_certFile f) (cv_keyFile f) with Err e => Some e | Ok _ => None end) in
          match pairErr with
          | Some e => mkRan (first ++ pairing) (Some (CliError e))
          | None =>
              let '(chain, chainErr) := optional_check (cv_caFile f) "✓ Certificate chain valid" "✗ Certificate chain invalid"
                (validateChain cert (cv_caFile f)) in
              match chainErr with
              | Some e => mkRan (first ++ pairing ++ chain) (Some (CliError e))
              | None =>
                  if After now (xc_NotAfter cert) then
                    mkRan (first ++ pairing ++ chain ++ ["✗ Certificate EXPIRED on " +:+ DateOnly (xc_NotAfter cert)])
                      (Some (CliError "certificate expired"))
                  else
                    let '(days, warning) := CheckCertificateExpiration now' cert in
                    mkRan (first ++ pairing ++ chain ++
                           ["✓ Certificate not expired (valid until " +:+ DateOnly (xc_NotAfter cert) +:+ ")"] ++
                           line_if (negb (String.eqb warning "")) ("⚠  Certificate expires in " +:+ pretty days +:+ " days") ++
                           detail_lines cert) None
              end
          end
      end
  end.

(** A check that failed on one side and holds on the other. *)
Ltac refuted :=
  split; [done|]; intros (? & ? & ? & ? & Hkey & Hca & ?); simplify_eq; destruct Hkey as [?|[? ?]], Hca as [?|?]; congruence.

(** [certs validate] succeeds exactly when the file holds a certificate, the key
    and the authority given go with it, and its last day has not passed. *)
Theorem certs_validate_verdict now now' f :
  ended (validateCertificate now now' f) = None <->
  exists block cert, load_certificate (cv_certFile f) = Ok block /\ ParseCertificate block = Ok cert /\
    (cv_keyFile f = "" \/ exists pairing, fs_LoadX509KeyPair fs (cv_certFile f) (cv_keyFile f) = Ok pairing) /\
    (cv_caFile f = "" \/ validateChain cert (cv_caFile f) = None) /\
    After now (xc_NotAfter cert) = false.
Proof.
  unfold validateCertificate, optional_check.
  destruct (load_certificate _) as [block|e]; [|refuted].
  destruct (ParseCertificate block) as [cert|e] eqn:Hp; [|refuted].
  destruct (String.eqb_spec (cv_keyFile f) "") as [Hk|Hk];
    [|destruct (fs_LoadX509KeyPair _ _ _) as [pairing|e] eqn:Hl; [|refuted]];
  (destruct (String.eqb_spec (cv_caFile f) "") as [Hc|Hc];
    [|destruct (validateChain cert _) as [e|] eqn:Hv; [refuted|]]);
  (destruct (After now _) eqn:Ha; [refuted|]);
  destruct (CheckCertificateExpiration now' cert); simpl; (split; [intros _|done]); exists block, cert;
  split_and!; eauto.
Qed.
End certs.

(** A certificate that is not valid yet passes. *)
Definition tomorrow_cert : X509Cert :=
  mkX509Cert (mkSubject "a" [] []) (mkSubject "a" [] []) 1 (Hour * 24) (Hour * 48) [] [] "" "".

#[local] Instance one_cert : X509 unit := {|
  ParseCertificate _ := Ok tomorrow_cert;
  Verify _ _ _ := None;
  AppendCertsFromPEM _ := Some tt;
  name_String s := su_CommonName s;
  hex z := pretty z;
|}.

#[local] Instance plain_times : TimeFmt := {| RFC3339 t := pretty t; DateOnly t := pretty t |}.

Example future_certificate_validates :
  ended (validateCertificate (mkFiles (fun _ => Ok 0) (fun _ => Ok "pem") (fun _ _ => Err "")) Some (fun _ => "") 0 0
           (mkCertsValidateFlags "c" "" "")) = None /\
  ValidateX509Certificate 0 tomorrow_cert <> None.
Proof. by vm_compute. Qed.

(** ** [certs info] *)

Definition key_usage_names : list (Z * string) :=
  [(0, "Digital Signature"); (1, "Content Commitment"); (2, "Key Encipherment"); (3, "Data Encipherment");
   (4, "Key Agreement"); (5, "Certificate Sign"); (6, "CRL Sign"); (7, "Encipher Only"); (8, "Decipher Only")].

(** [usage&x509.KeyUsage... != 0], the constants being [1 << i]. *)
Definition getKeyUsages (usage : Z) : list string :=
  omap (fun '(i, name) => if Z.land usage (Z.shiftl 1 i) =? 0 then None else Some name) key_usage_names.

Definition ext_key_usage_names : list string :=
  ["Any"; "Server Authentication"; "Client Authentication"; "Code Signing"; "Email Protection"; "IPSEC End System";
   "IPSEC Tunnel"; "IPSEC User"; "Time Stamping"; "OCSP Signing"; "Microsoft Server Gated Crypto";
   "Netscape Server Gated Crypto"; "Microsoft Commercial Code Signing"; "Microsoft Kernel Code Signing"].

Definition getExtKeyUsage (usage : Z) : string :=
  match (if 0 <=? usage then ext_key_usage_names !! Z.to_nat usage else None) with
  | Some name => name
  | None => "Unknown (" +:+ pretty usage +:+ ")"
  end.

Definition getExtKeyUsages (usages : list Z) : list string := getExtKeyUsage <$> usages.

(** The parts of a certificate that only this command shows. *)
Record CertDetails := mkCertDetails {
  cd_cert : X509Cert;
  cd_Country : list string;
  cd_Province : list string;
  cd_Locality : list string;
  cd_IssuerCountry : list string;
  cd_KeyUsage : Z;
  cd_ExtKeyUsage : list Z;
  cd_Version : Z;
  cd_IsCA : bool;
}.

Definition first_line (prefix : string) (l : list string) : list string :=
  match l with x :: _ => [prefix +:+ x] | [] => [] end.

Definition titled (title : string) (lines : list string) : list string :=
  match lines with [] => [] | _ => "" :: title :: lines end.

(** [int(d.Hours() / 24)] *)
Definition days (d : Duration) : Z := to_int64 (fdiv (Hours d) (of_int 24)).

Section info.
Context {Pool : Type} `{X509 Pool} `{TimeFmt}.

Definition status_lines (now now' : Time) (c : X509Cert) : list string :=
  if After now (xc_NotAfter c) then ["  Status: ✗ EXPIRED on " +:+ DateOnly (xc_NotAfter c)]
  else
    let daysRemaining := days (SubT (xc_NotAfter c) now') in
    ["  Status: ✓ Valid (" +:+ pretty daysRemaining +:+ " days remaining)"] ++
    line_if (daysRemaining <? 30) ("  Warning: ⚠  Certificate expires in " +:+ pretty daysRemaining +:+ " days").

Definition printCertText (now now' : Time) (d : CertDetails) (file : string) : list string :=
  let c := cd_cert d in
  ["Certificate: " +:+ file; ""; "Subject:"; "  Common Name (CN): " +:+ su_CommonName (xc_Subject c)] ++
  first_line "  Organization (O): " (su_Organization (xc_Subject c)) ++
  first_line "  Organizational Unit (OU): " (su_OrganizationalUnit (xc_Subject c)) ++
  first_line "  Country (C): " (cd_Country d) ++ first_line "  State/Province (ST): " (cd_Province d) ++
  first_line "  Locality (L): " (cd_Locality d) ++
  [""; "Issuer:"; "  Common Name (CN): " +:+ su_CommonName (xc_Issuer c)] ++
  first_line "  Organization (O): " (su_Organization (xc_Issuer c)) ++ first_line "  Country (C): " (cd_IssuerCountry d) ++
  [""; "Validity:"; "  Not Before: " +:+ RFC3339 (xc_NotBefore c); "  Not After: " +:+ RFC3339 (xc_NotAfter c);
   "  Duration: " +:+ pretty (days (SubT (xc_NotAfter c) (xc_NotBefore c))) +:+ " days"] ++
  status_lines now now' c ++
  titled "Subject Alternative Names:" (((fun s => "  - DNS: " +:+ s) <$> xc_DNSNames c) ++ ((fun s => "  - IP: " +:+ s) <$> xc_IPAddresses c)) ++
  (if cd_KeyUsage d =? 0 then [] else ["" ; "Key Usage:"] ++ ((fun u => "  - " +:+ u) <$> getKeyUsages (cd_KeyUsage d))) ++
  titled "Extended Key Usage:" ((fun u => "  - " +:+ getExtKeyUsage u) <$> cd_ExtKeyUsage d) ++
  [""; "Algorithms:"; "  Signature Algorithm: " +:+ xc_SignatureAlgorithm c; "  Public Key Algorithm: " +:+ xc_PublicKeyAlgorithm c;
   ""; "Additional Information:"; "  Serial Number: " +:+ hex (xc_SerialNumber c); "  Version: " +:+ pretty (cd_Version d);
   "  Is CA: " +:+ (if cd_IsCA d then "true" else "false")].

Definition strings_value (l : list string) : GoValue := VSlice "[]string" (VString <$> l).
Definition object (fields : list (string * GoValue)) : GoValue := VMap "map[string]interface {}" fields.

Definition cert_json (now now' : Time) (d : CertDetails) : GoValue :=
  let c := cd_cert d in
  let info := ExtractCertificateInfo c in
  let name (s : Subject) := [("common_name", VString (su_CommonName s)); ("organization", strings_value (su_Organization s))] in
  object [
    ("subject", object (name (xc_Subject c) ++ [("organizational_unit", strings_value (su_OrganizationalUnit (xc_Subject c)));
       ("country", strings_value (cd_Country d)); ("province", strings_value (cd_Province d)); ("locality", strings_value (cd_Locality d))]));
    ("issuer", object (name (xc_Issuer c) ++ [("country", strings_value (cd_IssuerCountry d))]));
    ("validity", object [("not_before", VString (RFC3339 (xc_NotBefore c))); ("not_after", VString (RFC3339 (xc_NotAfter c)));
       ("duration_days", VInt KInt (days (SubT (xc_NotAfter c) (xc_NotBefore c))));
       ("days_remaining", VInt KInt (days (SubT (xc_NotAfter c) now))); ("is_expired", VBool (After now' (xc_NotAfter c)))]);
    ("sans", object [("dns", strings_value (ci_DNSNames info)); ("ip", strings_value (ci_IPAddresses info))]);
    ("key_usage", strings_value (getKeyUsages (cd_KeyUsage d))); ("ext_key_usage", strings_value (getExtKeyUsages (cd_ExtKeyUsage d)));
    ("signature_algorithm", VString (ci_SignatureAlgorithm info)); ("public_key_algorithm", VString (ci_PublicKeyAlgorithm info));
    ("serial_number", VString (ci_SerialNumber info)); ("version", VInt KInt (cd_Version d)); ("is_ca", VBool (cd_IsCA d))].

Definition displayCertInfo (fs : Files) (pem_Decode : string -> option string) (parse : string -> result string CertDetails)
    (encode : GoValue -> result string string) (now now' : Time) (certFile format : string) : Ran :=
  match load_certificate fs pem_Decode certFile with
  | Err e => mkRan [] (Some (CliError e))
  | Ok block =>
      match parse block with
      | Err e => mkRan [] (Some (CliError ("failed to parse certificate: " +:+ e)))
      | Ok d =>
          if String.eqb format "json" then
            match encode (cert_json now now' d) with Ok t => mkRan [t] None | Err e => mkRan [] (Some (CliError e)) end
          else mkRan (printCertText now now' d certFile) None
      end
  end.
End info.

Lemma land_bit usage i : 0 <= i -> (Z.land usage (Z.shiftl 1 i) =? 0) = negb (Z.testbit usage i).
Proof.
  intros Hi. destruct (Z.testbit usage i) eqn:E; simpl.
  - apply Z.eqb_neq. intros Hz. apply (f_equal (fun z => Z.testbit z i)) in Hz.
    rewrite Z.land_spec, E, Z.shiftl_spec, Z.sub_diag, Z.bits_0 in Hz by lia. done.
  - apply Z.eqb_eq, Z.bits_inj'. intros j Hj. rewrite Z.land_spec, Z.bits_0, Z.shiftl_spec by lia.
    destruct (Z.eq_dec j i) as [->|]; [by rewrite E|]. destruct (Z.lt_trichotomy j i) as [|[|]]; [|lia|].
    + rewrite (Z.testbit_neg_r _ (j - i)) by lia. apply andb_false_r.
    + rewrite (Z.bits_above_log2 1 (j - i)); [apply andb_false_r|lia|simpl; lia].
Qed.

Lemma usages_filter usage (l : list (Z * string)) :
  Forall (fun p => 0 <= p.1) l ->
  omap (fun '(i, name) => if Z.land usage (Z.shiftl 1 i) =? 0 then None else Some name) l =
  (snd <$> List.filter (fun p => Z.testbit usage p.1) l).
Proof.
  induction 1 as [|[i name] l Hi _ IH]; [done|]. cbn [omap list_omap List.filter fst] in *. rewrite land_bit by done.
  destruct (Z.testbit usage i); cbn [negb]; rewrite ?fmap_cons; by rewrite <- IH.
Qed.

(** The usages shown are exactly those whose bit is set, in the order of the bits. *)
Theorem key_usages_exact usage :
  getKeyUsages usage = (snd <$> List.filter (fun p => Z.testbit usage p.1) key_usage_names) /\
  (forall i name, (i, name) ∈ key_usage_names -> name ∈ getKeyUsages usage <-> Z.testbit usage i = true).
Proof.
  assert (Hg : getKeyUsages usage = (snd <$> List.filter (fun p => Z.testbit usage p.1) key_usage_names)).
  { apply usages_filter. repeat constructor; simpl; lia. }
  split; [done|]. intros i name Hin. rewrite Hg, list_elem_of_fmap. split.
  - intros ([j name'] & -> & Hf). apply list_elem_of_In, List.filter_In in Hf as [Hj Hb]. cbn [fst snd] in *.
    apply list_elem_of_In in Hj. enough (i = j) by congruence.
    assert (Hnd : NoDup key_usage_names.*2) by (vm_compute; apply (bool_decide_unpack _); by vm_compute).
    clear -Hnd Hin Hj. induction key_usage_names as [|[k n] l IH]; [by apply elem_of_nil in Hin|].
    rewrite fmap_cons, NoDup_cons in Hnd. destruct Hnd as [Hn Hnd]. simpl in Hn.
    apply elem_of_cons in Hin as [Hin|Hin], Hj as [Hj|Hj]; simplify_eq; try done; [..|by apply IH];
      exfalso; apply Hn; apply list_elem_of_fmap; eexists; by split; [|eassumption].
  - intros Hb. exists (i, name). split; [done|]. apply list_elem_of_In, List.filter_In. split; [by apply list_elem_of_In|done].
Qed.

(** ** [certs generate] *)

Record GenerateFlags := mkGenerateFlags { gf_hosts : string; gf_org : string; gf_validity : Z; gf_keySize : Z; gf_output : string }.

Record CertTemplate := mkCertTemplate {
  tp_Organization : list string;
  tp_CommonName : string;
  tp_NotBefore : Time;
  tp_NotAfter : Time;
  tp_KeyUsage : Z;
  tp_ExtKeyUsage : list Z;
  tp_DNSNames : list string;
  tp_IPAddresses : list string;
}.

Section generate.
Variable umask : Z.
Variable pem : string -> string -> string.
Variable open_error : string -> option string.
(** [net.ParseIP]: the address in its printed form. *)
Variable ParseIP : string -> option string.
(** [AddDate(0, 0, n)] *)
Variable add_days : Time -> Z -> Time.

Definition split_hosts (hosts : list string) : list string * list string :=
  foldl (fun '(dns, ips) host =>
    let host := TrimSpace host in
    match ParseIP host with Some ip => (dns, ips ++ [ip]) | None => (dns ++ [host], ips) end) ([], []) hosts.

Definition cert_template (now : Time) (f : GenerateFlags) : CertTemplate :=
  let hosts := split_on "," (gf_hosts f) in
  let '(dns, ips) := split_hosts hosts in
  mkCertTemplate [gf_org f] (default "" (head hosts)) now (add_days now (gf_validity f)) (Z.lor (Z.shiftl 1 2) (Z.shiftl 1 0))
    [1; 2] dns ips.

(** The key, the serial number and the certificate made from the template, or the
    error of the step that failed; [mkdir] is the error of creating the directory.
    The summary it prints is left out. *)
Definition generateCertificate (now : Time) (f : GenerateFlags) (key : result string string)
    (create : CertTemplate -> result string string) (mkdir : option string) (fs : KeyDir) : option CliErr * KeyDir :=
  if negb (gf_keySize f =? 2048) && negb (gf_keySize f =? 3072) && negb (gf_keySize f =? 4096) then
    (Some (CliError ("invalid key size: " +:+ pretty (gf_keySize f) +:+ " (must be 2048, 3072, or 4096)")), fs)
  else
    match key with
    | Err e => (Some (CliError e), fs)
    | Ok privateKey =>
        match create (cert_template now f) with
        | Err e => (Some (CliError ("failed to create certificate: " +:+ e)), fs)
        | Ok der =>
            match mkdir with
            | Some e => (Some (CliError ("failed to create output directory: " +:+ e)), fs)
            | None =>
                match saveKey umask pem open_error 438 "CERTIFICATE" (JoinPath [gf_output f; "cert.pem"]) der fs with
                | (Some e, fs) => (Some (CliError ("failed to create certificate file: " +:+ e)), fs)
                | (None, fs) =>
                    match saveKey umask pem open_error 384 "RSA PRIVATE KEY" (JoinPath [gf_output f; "key.pem"]) privateKey fs with
                    | (Some e, fs) => (Some (CliError ("failed to create key file: " +:+ e)), fs)
                    | (None, fs) => (None, fs)
                    end
                end
            end
        end
    end.

Lemma split_hosts_app hosts : forall dns ips,
  foldl (fun '(dns, ips) host =>
    let host := TrimSpace host in
    match ParseIP host with Some ip => (dns, ips ++ [ip]) | None => (dns ++ [host], ips) end) (dns, ips) hosts =
  (dns ++ List.filter (fun h => match ParseIP h with Some _ => false | None => true end) (TrimSpace <$> hosts),
   ips ++ omap ParseIP (TrimSpace <$> hosts)).
Proof.
  induction hosts as [|h hosts IH]; intros dns ips; [by rewrite !app_nil_r|]. cbn [foldl]. rewrite fmap_cons.
  cbn [List.filter omap list_omap].
  destruct (ParseIP (TrimSpace h)); rewrite IH; by rewrite <- app_assoc.
Qed.

(** Every host given is an alternative name of the certificate, as an address when
    it parses as one and as a DNS name otherwise; the certificate lasts for the
    days asked and its keys serve servers and clients. *)
Theorem generated_template now f :
  let t := cert_template now f in
  let hosts := TrimSpace <$> split_on "," (gf_hosts f) in
  tp_DNSNames t = List.filter (fun h => match ParseIP h with Some _ => false | None => true end) hosts /\
  tp_IPAddresses t = omap ParseIP hosts /\
  (length (tp_DNSNames t) + length (tp_IPAddresses t))%nat = length (split_on "," (gf_hosts f)) /\
  tp_NotAfter t = add_days now (gf_validity f) /\
  getKeyUsages (tp_KeyUsage t) = ["Digital Signature"; "Key Encipherment"] /\
  getExtKeyUsages (tp_ExtKeyUsage t) = ["Server Authentication"; "Client Authentication"].
Proof.
  unfold cert_template, split_hosts. rewrite split_hosts_app. cbn zeta. cbn [tp_DNSNames tp_IPAddresses tp_NotAfter tp_KeyUsage tp_ExtKeyUsage].
  rewrite !app_nil_l. split_and!; [done|done| |done|done|done].
  induction (split_on "," (gf_hosts f)) as [|h l IH]; [done|]. rewrite fmap_cons. cbn [List.filter omap list_omap].
  destruct (ParseIP (TrimSpace h)); cbn [length]; change (length (h :: l)) with (S (length l)); lia.
Qed.
End generate.

(** The common name is the first host as written: it keeps a space that the
    alternative name loses, and an empty list of hosts is the empty DNS name. *)
Example host_examples :
  let t hosts := cert_template (fun _ => None) (fun t _ => t) 0 (mkGenerateFlags hosts "o" 1 2048 "") in
  (tp_CommonName (t " a,b"), tp_DNSNames (t " a,b")) = (" a", ["a"; "b"]) /\ tp_DNSNames (t "") = [""].
Proof. by vm_compute. Qed.
