(* ===== verification/CliBench.v ===== *)
(** * The load test ([cmd/mercator/benchmark.go], [pkg/cli/progress.go])

    The plan of a load test (how many requests, at which interval), the progress
    bar, and the statistics of its latencies: the exchange sort of the source with
    its index expressions, the mean and the percentiles at floating-point indexes.
    [None] is a panic: an index out of range, a division by zero, a ticker without a
    positive interval, a negative count of repetitions.  The requests themselves are
    simulated by sleeping goroutines and are not modelled. *)

From Stdlib Require Import ZArith Lia Ascii.
From stdpp Require Import base option list strings gmap pretty.
From S2P Require Import Prelude Float64 CliEvidence.
Local Open Scope string_scope.
Local Open Scope list_scope.
Local Open Scope Z_scope.

(** ** Percentiles *)

(** The body of the two loops: [sorted[i] > sorted[j]] exchanges the elements. *)
Definition exchange_at (i : nat) (l : option (list Z)) (j : nat) : option (list Z) :=
  l ← l; x ← l !! i; y ← l !! j;
  Some (if y <? x then <[j := x]> (<[i := y]> l) else l).

Definition inner_loop (n : nat) (l : option (list Z)) (i : nat) : option (list Z) :=
  foldl (exchange_at i) l (seq (S i) (n - S i)).

Definition exchange_sort (l : list Z) : option (list Z) :=
  foldl (inner_loop (length l)) (Some l) (seq 0 (length l)).

Record Percentiles := mkPercentiles {
  pc_min : Duration; pc_mean : Duration; pc_median : Duration; pc_p95 : Duration; pc_p99 : Duration; pc_max : Duration;
}.

(** [int(float64(n) * p)] *)
Definition percentile_index (n : Z) (p : float64) : Z := to_int64 (fmul (of_int n) p).

Definition at_index (l : list Z) (i : Z) : option Z := if i <? 0 then None else l !! Z.to_nat i.

Definition calculatePercentiles (latencies : list Z) : option Percentiles :=
  match latencies with
  | [] => Some (mkPercentiles 0 0 0 0 0 0)
  | _ =>
      sorted ← exchange_sort latencies;
      let n := Z.of_nat (length sorted) in
      min ← at_index sorted 0;
      max ← at_index sorted (n - 1);
      let sum := foldl (fun s d => wrap64 (s + d)) 0 sorted in
      median ← at_index sorted (Z.quot n 2);
      p95 ← at_index sorted (percentile_index n (flit 95 100));
      p99 ← at_index sorted (percentile_index n (flit 99 100));
      Some (mkPercentiles min (Z.quot sum n) median p95 p99 max)
  end.

(** *** The sort *)

Definition settled (i : nat) (l : list Z) : Prop :=
  forall a b x y, (a < i)%nat -> (a < b)%nat -> l !! a = Some x -> l !! b = Some y -> x <= y.

Definition least (i j : nat) (l : list Z) : Prop :=
  forall b x y, (i < b < j)%nat -> l !! i = Some x -> l !! b = Some y -> x <= y.

Lemma exchange_step i j l :
  (i < j < length l)%nat -> settled i l -> least i j l ->
  exists l', exchange_at i (Some l) j = Some l' /\ l' ≡ₚ l /\ settled i l' /\ least i (S j) l'.
Proof.
  intros Hij Hs Hl.
  destruct (lookup_lt_is_Some_2 l i) as [x Hx]; [lia|]. destruct (lookup_lt_is_Some_2 l j) as [y Hy]; [lia|].
  unfold exchange_at. simpl. rewrite Hx. simpl. rewrite Hy. simpl.
  destruct (Z.ltb_spec y x) as [Hlt|Hge]; eexists; (split; [done|]).
  - assert (Hlook : forall k z, <[j:=x]> (<[i:=y]> l) !! k = Some z ->
      (k = i /\ z = y) \/ (k = j /\ z = x) \/ (k <> i /\ k <> j /\ l !! k = Some z)).
    { intros k z Hk. apply list_lookup_insert_Some in Hk as [(-> & -> & _)|[Hkj Hk]]; [by auto|].
      apply list_lookup_insert_Some in Hk as [(-> & -> & _)|[Hki Hk]]; [by auto|by auto 7]. }
    split_and!.
    + by apply Permutation_insert_swap.
    + intros a b u v Ha Hab Hu Hv. apply Hlook in Hu as [[]|[[]|(Hai & Haj & Hu)]]; [lia..|].
      apply Hlook in Hv as [[-> ->]|[[-> ->]|(_ & _ & Hv)]]; [apply (Hs a j)|apply (Hs a i)|apply (Hs a b)]; (lia || done).
    + intros b u v Hb Hu Hv. apply Hlook in Hu as [[_ ->]|[[]|(? & _)]]; [|lia|done].
      apply Hlook in Hv as [[]|[[-> ->]|(_ & Hbj & Hv)]]; [lia|lia|].
      pose proof (Hl b x v ltac:(lia) Hx Hv). lia.
  - split_and!; [done|done|]. intros b u v Hb Hu Hv. simplify_eq.
    destruct (decide (b = j)) as [->|]; [by simplify_eq|]. apply (Hl b x v); (lia || done).
Qed.

Lemma inner_from i k : forall j l,
  (i < j)%nat -> (j + k)%nat = length l -> settled i l -> least i j l ->
  exists l', foldl (exchange_at i) (Some l) (seq j k) = Some l' /\ l' ≡ₚ l /\ settled i l' /\ least i (length l) l'.
Proof.
  induction k as [|k IH]; intros j l Hij Hn Hs Hl.
  - exists l. replace (length l) with j by lia. by split_and!.
  - cbn [seq foldl]. destruct (exchange_step i j l) as (l1 & -> & Hp & Hs1 & Hl1); [lia|done..|].
    destruct (IH (S j) l1) as (l2 & Hf & Hp2 & Hs2 & Hl2); [lia|rewrite (Permutation_length Hp); lia|done..|].
    exists l2. rewrite (Permutation_length Hp) in Hl2. split_and!; [done|by rewrite Hp2|done|done].
Qed.

Lemma inner_loop_spec i l :
  (i < length l)%nat -> settled i l ->
  exists l', inner_loop (length l) (Some l) i = Some l' /\ l' ≡ₚ l /\ settled (S i) l'.
Proof.
  intros Hi Hs. destruct (inner_from i (length l - S i) (S i) l) as (l' & Hf & Hp & Hs' & Hl); [lia|lia|done| |].
  { intros b x y Hb. lia. }
  exists l'. split_and!; [done|done|]. intros a b x y Ha Hab Hx Hy.
  destruct (decide (a = i)) as [->|]; [|apply (Hs' a b); (lia || done)].
  apply (Hl b); [|done|done]. rewrite <- (Permutation_length Hp). apply lookup_lt_Some in Hy. lia.
Qed.

(** The exchange sort stays in range and sorts: the result is a permutation in
    which no element is greater than a later one. *)
Lemma exchange_sort_spec l :
  exists l', exchange_sort l = Some l' /\ l' ≡ₚ l /\ settled (length l) l'.
Proof.
  unfold exchange_sort.
  assert (Hg : forall k i l0, (i + k)%nat = length l -> l0 ≡ₚ l -> settled i l0 ->
    exists l', foldl (inner_loop (length l)) (Some l0) (seq i k) = Some l' /\ l' ≡ₚ l /\ settled (length l) l').
  { induction k as [|k IH]; intros i l0 Hn Hp Hs.
    - exists l0. replace (length l) with i by lia. by split_and!.
    - cbn [seq foldl]. rewrite <- (Permutation_length Hp).
      destruct (inner_loop_spec i l0) as (l1 & -> & Hp1 & Hs1); [rewrite (Permutation_length Hp); lia|done|].
      rewrite (Permutation_length Hp). apply IH; [lia|by rewrite Hp1|done]. }
  apply Hg; [done|done|]. intros a b x y Ha. lia.
Qed.

(** *** Ranks *)

Definition at_most (x : Z) (l : list Z) : list Z := List.filter (fun y => y <=? x) l.

Lemma at_most_perm x l l' : l ≡ₚ l' -> at_most x l ≡ₚ at_most x l'.
Proof. unfold at_most. induction 1; simpl; repeat case_match; eauto using perm_skip, perm_swap, Permutation_trans. Qed.

Lemma settled_cons x l : settled (S (length l)) (x :: l) <-> Forall (fun y => x <= y) l /\ settled (length l) l.
Proof.
  split.
  - intros Hs. split.
    + apply Forall_lookup. intros i y Hy. apply (Hs 0%nat (S i)); (lia || done).
    + intros a b u v Ha Hab Hu Hv. apply (Hs (S a) (S b)); (lia || done).
  - intros [Hf Hs] [|a] [|b] u v Ha Hab Hu Hv; simpl in *; try lia.
    + simplify_eq. rewrite Forall_lookup in Hf. by eapply Hf.
    + apply (Hs a b); (lia || done).
Qed.

Lemma sorted_rank l k x : settled (length l) l -> l !! k = Some x -> (S k <= length (at_most x l))%nat.
Proof.
  revert k. induction l as [|y l IH]; intros k Hs Hk; [done|]. apply settled_cons in Hs as [Hf Hs].
  unfold at_most. cbn [List.filter]. destruct k as [|k]; simpl in Hk.
  - simplify_eq. rewrite Z.leb_refl. simpl. lia.
  - rewrite (proj2 (Z.leb_le y x)); [|by apply (Forall_lookup_1 _ _ _ _ Hf Hk)]. simpl.
    pose proof (IH k Hs Hk). unfold at_most in *. lia.
Qed.

(** The indexes of the percentiles, for at most 3000 latencies. *)
Lemma percentile_indexes n :
  0 < n <= 3000 ->
  Z.quot n 2 <= percentile_index n (flit 95 100) /\
  percentile_index n (flit 95 100) <= percentile_index n (flit 99 100) < n /\
  94 * n <= 100 * (percentile_index n (flit 95 100) + 1) /\ 98 * n <= 100 * (percentile_index n (flit 99 100) + 1).
Proof.
  intros Hn.
  assert (Hc : (fun p q => forallb (fun i => let n := Z.of_nat i in let a := percentile_index n p in let b := percentile_index n q in
     (Z.quot n 2 <=? a) && (a <=? b) && (b <? n) && (94 * n <=? 100 * (a + 1)) && (98 * n <=? 100 * (b + 1))) (seq 1 3000))
     (flit 95 100) (flit 99 100) = true) by (vm_compute; reflexivity).
  cbv beta zeta in Hc.
  rewrite forallb_forall in Hc. specialize (Hc (Z.to_nat n)). rewrite Z2Nat.id in Hc by lia.
  rewrite !andb_true_iff, !Z.leb_le, Z.ltb_lt in Hc. destruct Hc as [[[[? ?] ?] ?] ?]; [apply in_seq; lia|]. lia.
Qed.

Lemma at_index_some (l : list Z) i : 0 <= i < Z.of_nat (length l) -> exists x, at_index l i = Some x /\ l !! Z.to_nat i = Some x.
Proof.
  intros Hi. unfold at_index. rewrite (proj2 (Z.ltb_ge i 0)) by lia.
  destruct (lookup_lt_is_Some_2 l (Z.to_nat i)) as [x Hx]; [lia|]. eauto.
Qed.

(** The statistics of a load test of at most 3000 requests: no index is out of
    range; every figure is one of the latencies, they are ordered, the least and
    the greatest are so; more than half of the latencies are at most the median, and
    at least 94 and 98 percent are at most the 95th and the 99th percentile. *)
Theorem percentiles_correct (latencies : list Z) :
  (0 < length latencies <= 3000)%nat ->
  exists p, calculatePercentiles latencies = Some p /\
    pc_min p <= pc_median p <= pc_p95 p /\ pc_p95 p <= pc_p99 p <= pc_max p /\
    (forall x, x ∈ latencies -> pc_min p <= x <= pc_max p) /\
    Forall (fun x => x ∈ latencies) [pc_min p; pc_median p; pc_p95 p; pc_p99 p; pc_max p] /\
    (length latencies < 2 * length (at_most (pc_median p) latencies))%nat /\
    (94 * length latencies <= 100 * length (at_most (pc_p95 p) latencies))%nat /\
    (98 * length latencies <= 100 * length (at_most (pc_p99 p) latencies))%nat.
Proof.
  intros Hn. unfold calculatePercentiles. destruct latencies as [|l0 ls]; [simpl in Hn; lia|].
  set (l := l0 :: ls) in *. destruct (exchange_sort_spec l) as (s & -> & Hp & Hs). cbn [mbind option_bind].
  pose proof (Permutation_length Hp) as Hlen. rewrite <- Hlen in Hs, Hn. set (n := Z.of_nat (length s)).
  destruct (percentile_indexes n) as (Hq & [Hpq Hlast] & H94 & H98); [unfold n; lia|].
  assert (0 <= Z.quot n 2 /\ n < 2 * (Z.quot n 2 + 1)) as [Hq0 Hhalf].
  { rewrite Z.quot_div_nonneg by (unfold n; lia). pose proof (Z.div_mod n 2 ltac:(lia)). pose proof (Z.mod_pos_bound n 2 ltac:(lia)).
    pose proof (Z.div_pos n 2). unfold n in *. lia. }
  destruct (at_index_some s 0) as (mi & -> & Hmi); [lia|].
  destruct (at_index_some s (n - 1)) as (ma & -> & Hma); [unfold n; lia|].
  destruct (at_index_some s (Z.quot n 2)) as (me & -> & Hme); [unfold n in *; lia|].
  destruct (at_index_some s (percentile_index n (flit 95 100))) as (p95 & -> & H95); [unfold n in *; lia|].
  destruct (at_index_some s (percentile_index n (flit 99 100))) as (p99 & -> & H99); [unfold n in *; lia|].
  eexists. split; [done|]. cbn [pc_min pc_median pc_p95 pc_p99 pc_max].
  assert (Hle : forall a b x y, 0 <= a <= b -> s !! Z.to_nat a = Some x -> s !! Z.to_nat b = Some y -> x <= y).
  { intros a b x y Hab Hx Hy. destruct (decide (Z.to_nat a = Z.to_nat b)) as [E|]; [rewrite E in Hx; simplify_eq; lia|].
    apply (Hs (Z.to_nat a) (Z.to_nat b) x y); [apply lookup_lt_Some in Hx; lia|lia|done|done]. }
  assert (Hin : forall k x, s !! k = Some x -> x ∈ l) by (intros k x Hx; rewrite <- Hp; by eapply list_elem_of_lookup_2).
  assert (Hrank : forall a x, 0 <= a -> s !! Z.to_nat a = Some x -> a + 1 <= Z.of_nat (length (at_most x l))).
  { intros a x Ha Hx. rewrite <- (Permutation_length (at_most_perm x _ _ Hp)). pose proof (sorted_rank s _ x Hs Hx). lia. }
  pose proof (Hrank _ _ Hq0 Hme). pose proof (Hrank _ _ (Z.le_trans _ _ _ Hq0 Hq) H95).
  pose proof (Hrank _ _ (Z.le_trans _ _ _ (Z.le_trans _ _ _ Hq0 Hq) Hpq) H99).
  split; [split; [apply (Hle 0 (Z.quot n 2))|apply (Hle (Z.quot n 2) (percentile_index n (flit 95 100)))]; (lia || done)|].
  split.
  { split; [apply (Hle (percentile_index n (flit 95 100)) (percentile_index n (flit 99 100)))
           |apply (Hle (percentile_index n (flit 99 100)) (n - 1))]; (lia || done). }
  split.
  { intros x Hx. rewrite <- Hp in Hx. apply list_elem_of_lookup in Hx as [k Hk]. rewrite <- (Nat2Z.id k) in Hk.
    pose proof (lookup_lt_Some _ _ _ Hk). split; [apply (Hle 0 (Z.of_nat k))|apply (Hle (Z.of_nat k) (n - 1))]; (unfold n; lia || done). }
  split; [rewrite !Forall_cons, Forall_nil; split_and!; (by eapply Hin) || done|]. unfold n in *. lia.
Qed.

Lemma percentiles_correct_witness :
  exists p, calculatePercentiles [30; 10; 20] = Some p /\ pc_min p <= pc_median p <= pc_p95 p.
Proof. destruct (percentiles_correct [30; 10; 20]) as (p & Hp & Hm & _); [simpl; lia|]. exists p. exact (conj Hp Hm). Defined.

(** ** The plan and the progress bar *)

(** The number of requests and the interval between them, with the arithmetic of
    the code: [None] is a division by zero, a ticker with an interval that is not
    positive, or a slice with a negative capacity. *)
Definition load_plan (duration : Duration) (rate : Z) : option (Z * Duration) :=
  let totalRequests := mul64 (to_int64 (Seconds duration)) rate in
  if totalRequests <? 0 then None
  else if rate =? 0 then None
  else
    let requestInterval := Z.quot Second rate in
    if requestInterval <=? 0 then None else Some (totalRequests, requestInterval).

Record SimpleProgress := mkSimpleProgress { pg_total : Z; pg_current : Z; pg_started : Time }.

(** The number of filled cells of 40. *)
Definition filled (p : SimpleProgress) : Z :=
  to_int64 (fdiv (fmul (of_int 40) (fmul (fdiv (of_int (pg_current p)) (of_int (pg_total p))) (of_int 100))) (of_int 100)).

(** The cells drawn, filled and empty; [strings.Repeat] panics for a negative
    count. *)
Definition render (p : SimpleProgress) : option (option (Z * Z)) :=
  if pg_total p =? 0 then Some None
  else if (filled p <? 0) || (40 - filled p <? 0) then None else Some (Some (filled p, 40 - filled p)).

Definition pg_Start (now : Time) (total : Z) (p : SimpleProgress) : SimpleProgress := mkSimpleProgress total 0 now.
Definition pg_Update (current : Z) (p : SimpleProgress) : SimpleProgress := mkSimpleProgress (pg_total p) current (pg_started p).
Definition pg_Finish (p : SimpleProgress) : SimpleProgress := mkSimpleProgress (pg_total p) (pg_total p) (pg_started p).

(** A load test can be started exactly when its rate is between one request and
    [10^9] requests per second and its length does not overflow the number of
    requests. *)
Theorem load_plan_iff duration rate :
  is_Some (load_plan duration rate) <-> 0 < rate <= Second /\ 0 <= mul64 (to_int64 (Seconds duration)) rate.
Proof.
  unfold load_plan. destruct (Z.ltb_spec (mul64 (to_int64 (Seconds duration)) rate) 0) as [Hneg|Hpos].
  { split; [by intros [? ?]|lia]. }
  destruct (Z.eqb_spec rate 0) as [->|Hr]; [split; [by intros [? ?]|lia]|].
  assert (Hq : 0 < Z.quot Second rate <-> 0 < rate <= Second).
  { destruct (Z.lt_ge_cases 0 rate) as [Hr0|Hr0].
    - rewrite Z.quot_div_nonneg by (unfold Second; lia). pose proof (Z.div_str_pos Second rate).
      destruct (Z.le_gt_cases rate Second); [lia|]. rewrite Z.div_small by (unfold Second in *; lia). lia.
    - assert (Z.quot Second rate <= 0); [|lia]. replace rate with (- (- rate)) by lia. rewrite Z.quot_opp_r by lia.
      pose proof (Z.quot_pos Second (- rate) ltac:(unfold Second; lia) ltac:(lia)). lia. }
  destruct (Z.leb_spec (Z.quot Second rate) 0); [split; [by intros [? ?]|lia]|]. split; [|by eauto]. intros _. lia.
Qed.

(** A bar that is told of more than its total panics. *)
Example progress_overrun_panics :
  render (pg_Update 6 (pg_Start 0 5 (mkSimpleProgress 0 0 0))) = None /\
  render (pg_Update 3 (pg_Start 0 5 (mkSimpleProgress 0 0 0))) = Some (Some (24, 16)).
Proof. by vm_compute. Qed.
