(* ===== verification/CliRun.v ===== *)
(** * The server process ([cmd/mercator/run.go])

    [mercator run]: the configuration with the overrides of the flags, the clients of
    the provider manager, the policy engine, the evidence store with its recorder
    and pruner, the HTTP server, and the end of the process.  The components are
    those of [ConfigLoad], [ProviderFactory], [PolicyEngine], [Evidence] and
    [Server]; opening the database and loading the policies are arguments.  [None]
    is a panic. *)

From Stdlib Require Import ZArith Lia Ascii.
From stdpp Require Import base option list strings gmap pretty.
From S2P Require Import Prelude Float64 GoValue Ast ProviderTypes ProviderHttp ProviderFactory PolicyContext PolicyMatcher PolicyPriority PolicyEngine Evidence Recorder ConfigTypes ConfigValidate ConfigLoad Server CliEvidence.
Local Open Scope string_scope.
Local Open Scope list_scope.
Local Open Scope Z_scope.

Record RunFlags := mkRunFlags { rf_listenAddress : string; rf_logLevel : string; rf_dryRun : bool }.

(** ** The configuration of the process *)

Definition override_listen (addr : string) (p : ProxyConfig) : ProxyConfig :=
  if String.eqb addr "" then p
  else mkProxyConfig addr (px_ReadTimeout p) (px_WriteTimeout p) (px_IdleTimeout p) (px_ShutdownTimeout p)
         (px_MaxHeaderBytes p) (px_CORS p).

Definition override_level (level : string) (t : TelemetryConfig) : TelemetryConfig :=
  if String.eqb level "" then t
  else
    let l := te_Logging t in
    mkTelemetryConfig (mkLoggingConfig level (lg_Format l) (lg_AddSource l) (lg_RedactPII l) (lg_BufferSize l) (lg_RedactPatterns l))
      (te_Metrics t) (te_Tracing t) (te_Health t).

(** The overrides change the global configuration, after it was validated. *)
Definition apply_flags (f : RunFlags) (c : Config) : Config :=
  mkConfig (override_listen (rf_listenAddress f) (c_Proxy c)) (c_Providers c) (c_Policy c) (c_Evidence c) (c_Processing c)
    (c_Routing c) (c_Limits c) (override_level (rf_logLevel f) (c_Telemetry c)) (c_Security c).

(** [slog.Level] *)
Definition log_level (level : string) : Z :=
  if String.eqb level "debug" then -4
  else if String.eqb level "info" then 0
  else if String.eqb level "warn" then 4
  else if String.eqb level "error" then 8
  else 0.

(** ** The parts of the process *)

(** The type of a provider is its name. *)
Definition client_config (name : string) (p : ConfigTypes.ProviderConfig) : ProviderHttp.ProviderConfig :=
  ProviderHttp.mkProviderConfig name name (pr_BaseURL p) (pr_APIKey p) (pr_Timeout p) (pr_MaxRetries p) 0 0 0 0.

Definition recorder_config (r : ConfigTypes.RecorderConfig) : Recorder.RecorderConfig :=
  Recorder.mkRecorderConfig true (re_AsyncBuffer r) (re_WriteTimeout r) (re_HashRequest r) (re_HashResponse r) (re_RedactAPIKeys r)
    (re_MaxFieldLength r).

Definition run_engine_config : EngineConfig :=
  mkEngineConfig FailOpen ActionAllow (RuleTimeout DefaultEngineConfig) (PolicyTimeout DefaultEngineConfig) true
    (MaxPolicies DefaultEngineConfig) (MaxRulesPerPolicy DefaultEngineConfig) (BusinessHours DefaultEngineConfig).

Section run.
Context `{MapRange} `{Fmt} `{UrlParser} `{SortSlice} {S : Type}.
Variable openSQLite : SQLiteConfig -> result string S.
(** The file source of the engine, by path. *)
Variable load : string -> result string (list Policy).
(** [Pruner.Start]: the error of its schedule. *)
Variable startPruner : RetentionConfig -> option string.
(** The clock, by the number of the provider that is created. *)
Variable now : nat -> Time.

Definition provider_configs (c : Config) : list ProviderHttp.ProviderConfig :=
  (fun '(name, p) => client_config name p) <$> range (c_Providers c).

(** The clients; errors are only logged. *)
Definition start_providers (c : Config) : option Manager :=
  match provider_configs c with
  | [] => Some NewManager
  | configs => '(_, m) ← LoadFromConfig configs now NewManager; Some m
  end.

(** The engine; [None] when policies are not in file mode or fail to load, which is
    only logged. *)
Definition start_engine (c : Config) : option InterpreterEngine :=
  if String.eqb (po_Mode (c_Policy c)) "file" && negb (String.eqb (po_FilePath (c_Policy c)) "") then
    match NewInterpreterEngine (Some run_engine_config) (Some (load (po_FilePath (c_Policy c)))) with
    | Ok e => Some e
    | Err _ => None
    end
  else None.

(** What records evidence: the store ([None] is the memory store), the
    configuration of the recorder, and whether the pruner runs. *)
Record EvidencePart := mkEvidencePart { ep_store : option S; ep_recorder : Recorder.RecorderConfig; ep_pruning : bool }.

Definition start_evidence (c : Config) : result CliErr (option EvidencePart) :=
  let ev := c_Evidence c in
  if negb (ev_Enabled ev) then Ok None
  else
    let store :=
      if String.eqb (ev_Backend ev) "sqlite" then
        match openSQLite (ev_SQLite ev) with
        | Err e => Err (CliError ("failed to create SQLite storage: " +:+ e))
        | Ok s => Ok (Some s)
        end
      else if String.eqb (ev_Backend ev) "memory" then Ok None
      else Err (CliError ("unsupported evidence backend: " +:+ ev_Backend ev)) in
    match store with
    | Err e => Err e
    | Ok s =>
        let scheduled := negb (String.eqb (rt_PruneSchedule (ev_Retention ev)) "") in
        Ok (Some (mkEvidencePart s (recorder_config (ev_Recorder ev))
                    (scheduled && match startPruner (ev_Retention ev) with None => true | Some _ => false end)))
    end.

Record System := mkSystem {
  sy_config : Config;
  sy_level : Z;
  sy_clients : Manager;
  sy_engine : option InterpreterEngine;
  sy_evidence : option EvidencePart;
  sy_server : Server;
}.

(** Where [runServer] gets before it waits: it has ended, or the system is up.  The
    server is given the configuration and the clients, not the engine or the
    recorder. *)
Inductive Boot := Ended (r : Ran) | Up (s : System).

Definition boot (w : World) (cfgFile : string) (s : Singleton) (f : RunFlags) : option Boot :=
  match command_config w cfgFile s with
  | Err e => Some (Ended (mkRan [] (Some e)))
  | Ok c =>
      let c := apply_flags f c in
      if rf_dryRun f then Some (Ended (mkRan ["✓ Configuration valid"] None))
      else
        clients ← start_providers c;
        let engine := start_engine c in
        match start_evidence c with
        | Err e => Some (Ended (mkRan [] (Some e)))
        | Ok evidence =>
            Some (Up (mkSystem c (log_level (lg_Level (te_Logging (c_Telemetry c)))) clients engine evidence
                        (NewServer (c_Proxy c) (c_Security c))))
        end
  end.

(** The lines printed on the way up. *)
Definition boot_lines (s : System) : list string :=
  ["✓ Providers initialized (" +:+ pretty (ProviderCount (sy_clients s)) +:+ " providers)"] ++
  match sy_engine s with
  | Some e => ["✓ Policy engine loaded (" +:+ pretty (Z.of_nat (length (GetPolicies e))) +:+ " policies)"]
  | None => []
  end ++
  match sy_evidence s with Some _ => ["✓ Evidence store initialized"] | None => [] end ++
  let addr := px_ListenAddress (c_Proxy (sy_config s)) in
  [""; "✓ Server listening on " +:+ addr; "✓ Health endpoint: http://" +:+ addr +:+ "/health";
   "✓ Ready endpoint: http://" +:+ addr +:+ "/ready"; ""; "Press Ctrl+C to stop"].

(** The wait: an error of the server, or a signal with the outcome of the HTTP
    server's shutdown. *)
Inductive RunEvent := ServerFailed (e : string) | Signalled (sig : string) (http : option string).

Definition finish (ev : RunEvent) (s : System) : option CliErr * Server :=
  match ev with
  | ServerFailed e => (Some (CommandError "run" ("server error: " +:+ e)), sy_server s)
  | Signalled _ http =>
      match Shutdown http (sy_server s) with
      | (Some e, srv) => (Some (CommandError "run" e), srv)
      | (None, srv) => (None, srv)
      end
  end.

(** ** What a started process has *)

Lemma client_config_name n p : pc_Name (client_config n p) = n.
Proof. done. Qed.

Lemma load_configs_names (l : list (string * ConfigTypes.ProviderConfig)) : forall k m,
  NoDup l.*1 -> (forall n, n ∈ l.*1 -> m_providers m !! n = None) ->
  exists e m', load_configs ((fun '(n, p) => client_config n p) <$> l) now k m = Some (e, m') /\
    forall n, is_Some (m_providers m' !! n) <->
      is_Some (m_providers m !! n) \/ exists p r, (n, p) ∈ l /\ NewProvider (client_config n p) = Ok r.
Proof.
  induction l as [|[n p] l IH]; intros k m Hnd Hfree.
  { eexists _, m. split; [done|]. intros n. split; [by left|]. intros [?|(? & ? & Hin & _)]; [done|]. by apply elem_of_nil in Hin. }
  rewrite fmap_cons in Hnd, Hfree. rewrite fmap_cons. apply NoDup_cons in Hnd as [Hn Hnd]. simpl in Hn.
  cbn [load_configs]. unfold AddProvider. rewrite client_config_name, (Hfree n) by (simpl; set_solver). cbn [mbind option_bind].
  unfold NewProviderWithHealthCheck. destruct (NewProvider (client_config n p)) as [[ty c]|err] eqn:Hp.
  - edestruct (IH (1 + k)%nat (mkManager (<[n := mkClient (m_next m) ty (NewHTTPProvider c (now k) (now k))]> (m_providers m))
      (m_cancelled m) (1 + m_next m) (m_closed m))) as (e & m' & Hl & Hspec); [done| |].
    { intros n' Hn'. simpl. rewrite lookup_insert_ne by (intros ->; done). apply Hfree. simpl. set_solver. }
    cbn [mbind option_bind]. cbn in Hl. cbn. rewrite Hl. cbn [mbind option_bind]. eexists _, m'. split; [done|]. intros n'. rewrite Hspec. simpl.
    setoid_rewrite elem_of_cons. destruct (decide (n' = n)) as [->|Hne].
    + rewrite lookup_insert_eq. split; [intros _|by left]. right. exists p, (ty, c). auto.
    + rewrite lookup_insert_ne by done. naive_solver.
  - destruct (IH (1 + k)%nat m) as (e & m' & Hl & Hspec); [done| |].
    { intros n' Hn'. apply Hfree. simpl. set_solver. }
    cbn [mbind option_bind]. cbn in Hl. cbn. rewrite Hl. cbn [mbind option_bind]. eexists _, m'. split; [done|]. intros n'. rewrite Hspec.
    setoid_rewrite elem_of_cons. split; [naive_solver|]. intros [?|(p' & r & [[= -> ->]|Hin] & Hr)]; [by left|congruence|].
    right. eauto.
Qed.

Lemma unsupported_type n p r :
  NewProvider (client_config n p) = Ok r -> n = "openai" \/ n = "anthropic" \/ n = "generic".
Proof.
  unfold NewProvider. cbn [pc_Type pc_Name client_config]. destruct (String.eqb_spec n "") as [->|]; [by simpl|].
  destruct (String.eqb_spec n "openai"), (String.eqb_spec n "anthropic"), (String.eqb_spec n "generic"); auto. done.
Qed.

Lemma start_providers_spec c :
  exists m, start_providers c = Some m /\ forall n, is_Some (m_providers m !! n) <->
    exists p r, c_Providers c !! n = Some p /\ NewProvider (client_config n p) = Ok r.
Proof.
  unfold start_providers, provider_configs, LoadFromConfig.
  destruct (load_configs_names (range (c_Providers c)) 0 NewManager) as (e & m' & Hl & Hspec).
  - rewrite range_perm. apply NoDup_fst_map_to_list.
  - intros n _. apply lookup_empty.
  - assert (Hs : forall n, is_Some (m_providers m' !! n) <->
      exists p r, c_Providers c !! n = Some p /\ NewProvider (client_config n p) = Ok r).
    { intros n. rewrite Hspec. setoid_rewrite range_perm. setoid_rewrite elem_of_map_to_list.
      split; [intros [[? Hx]|]; [by vm_compute in Hx|done]|by right]. }
    destruct (_ <$> range (c_Providers c)) as [|x xs] eqn:E; [|by rewrite Hl; eexists].
    simpl in Hl. injection Hl as _ <-. by exists NewManager.
Qed.

(** The providers of a started process are exactly the configured ones that the
    factory accepts under their own name as their type: a provider under any other
    name than [openai], [anthropic] and [generic] has no client, and nothing but a
    log entry says so. *)
Theorem started_providers c :
  exists m, start_providers c = Some m /\
    (forall n, is_Some (m_providers m !! n) <->
       exists p r, c_Providers c !! n = Some p /\ NewProvider (client_config n p) = Ok r) /\
    (forall n, is_Some (m_providers m !! n) -> n = "openai" \/ n = "anthropic" \/ n = "generic").
Proof.
  destruct (start_providers_spec c) as (m & Hst & Hspec). exists m. split_and!; [done|done|].
  intros n Hn. apply Hspec in Hn as (p & r & _ & Hr). by eapply unsupported_type.
Qed.

(** Policies that cannot be loaded do not keep the process from starting: it comes
    up as with no policies configured, without an engine. *)
Theorem bad_policies_tolerated w cfgFile s f c e :
  command_config w cfgFile s = Ok c -> rf_dryRun f = false -> load (po_FilePath (c_Policy c)) = Err e ->
  (exists ev, start_evidence (apply_flags f c) = Ok ev) ->
  exists sys, boot w cfgFile s f = Some (Up sys) /\ sy_engine sys = None.
Proof.
  intros Hc Hd Hl [ev Hev]. unfold boot. rewrite Hc, Hd.
  destruct (start_providers_spec (apply_flags f c)) as (m & -> & _). cbn [mbind option_bind]. rewrite Hev.
  eexists. split; [done|]. cbn [sy_engine]. unfold start_engine. cbn [c_Policy apply_flags]. rewrite Hl.
  by destruct (_ && _).
Qed.
End run.

(** ** A small process *)

Definition named (name : string) : Config :=
  mkConfig zero_proxy {[ name := ConfigTypes.mkProviderConfig "https://example.com/v1" "sk" 0 0 ]} zero_policy zero_evidence
    zero_processing zero_routing zero_limits zero_telemetry zero_security.

Definition started_count (name : string) : option Z :=
  ProviderCount <$> start_providers (H := some_range) (H0 := bare_fmt) (fun _ => 0) (named name).

(** The same endpoint under another name: no client. *)
Example renamed_provider_is_lost : started_count "openai" = Some 1 /\ started_count "my-openai" = Some 0.
Proof. by vm_compute. Qed.

Lemma bad_policies_tolerated_witness :
  exists sys,
    boot (H := some_range) (H0 := bare_fmt) (H1 := any_url) (H2 := merge_sort_slice) (S := unit) (fun _ => Ok tt)
      (fun _ => Err "no such file") (fun _ => None) (fun _ => 0) (world_of (named "openai") no_env) "config.yaml"
      (mkSingleton (Some (named "openai")) true) (mkRunFlags "not an address" "loud" false) = Some (Up sys) /\
    sy_engine sys = None.
Proof.
  apply (bad_policies_tolerated (H := some_range) (H0 := bare_fmt) (H1 := any_url) (H2 := merge_sort_slice) (S := unit)
    (fun _ => Ok tt) (fun _ => Err "no such file") (fun _ => None) (fun _ => 0) _ _ _ _ (named "openai") "no such file").
  - reflexivity.
  - reflexivity.
  - reflexivity.
  - eexists. reflexivity.
Defined.

(** A dry run reports a valid configuration whatever the flags override: the address
    and the level of the flags are not validated. *)
Example flags_not_validated :
  boot (H := some_range) (H0 := bare_fmt) (H1 := any_url) (H2 := merge_sort_slice) (S := unit) (fun _ => Ok tt)
    (fun _ => Err "") (fun _ => None) (fun _ => 0) (world_of (named "openai") no_env) "config.yaml"
    (mkSingleton (Some (named "openai")) true) (mkRunFlags "not an address" "loud" true) =
  Some (Ended (mkRan ["✓ Configuration valid"] None)).
Proof. by vm_compute. Qed.
