(* ===== verification/MplWalk.v ===== *)
(** * Walking and showing policies ([pkg/mpl/ast/visitor.go], [value.go],
    [location.go], [pkg/mpl/errors/error.go], [context.go], [pkg/mpl/mpl.go])

    The visitor over the nodes of a policy, the text of values, the text of errors
    with their location and the source lines around it, and the two-step functions
    of the package.  A visitor is six functions on a state of its own; [None] is a
    panic.  Reading the file of a location is an argument. *)

From Stdlib Require Import ZArith Lia Ascii.
From stdpp Require Import base option list strings gmap pretty.
From S2P Require Import Prelude Float64 GoValue Ast PolicyMatcher ProviderTypes MplErrors MplBuilder MplDataModel MplValidator.
Local Open Scope string_scope.
Local Open Scope list_scope.
Local Open Scope Z_scope.

(** ** The visitor *)

Section visitor.
Context `{MapRange} {E S : Type}.

Record Visitor := mkVisitor {
  VisitPolicy : Policy -> S -> option E * S;
  VisitRule : Rule -> S -> option E * S;
  VisitCondition : option ConditionNode -> S -> option E * S;
  VisitAction : Action -> S -> option E * S;
  VisitValue : option ValueNode -> S -> option E * S;
  VisitVariable : VariableDef -> S -> option E * S;
}.

(** The rest of a walk is skipped after an error. *)
Definition Walked : Type := S -> option (option E * S).
Definition visit (f : S -> option E * S) : Walked := fun s => Some (f s).
Definition andthen (a b : Walked) : Walked := fun s =>
  match a s with
  | None => None
  | Some (Some e, s) => Some (Some e, s)
  | Some (None, s) => b s
  end.
Definition walk_end : Walked := fun s => Some (None, s).
Definition each {A} (f : A -> Walked) (l : list A) : Walked := foldr (fun x w => andthen (f x) w) walk_end l.

Variable v : Visitor.

(** A nil child is visited and then dereferenced. *)
Fixpoint walkCondition (cond : ConditionNode) : Walked :=
  andthen (visit (VisitCondition v (Some cond)))
  (andthen (match cn_Value cond with Some x => visit (VisitValue v (Some x)) | None => walk_end end)
  (andthen (each (fun arg => visit (VisitValue v (Some arg))) (Args cond))
     (each (fun child => match child with
                         | Some child => walkCondition child
                         | None => andthen (visit (VisitCondition v None)) (fun _ => None)
                         end) (Children cond)))).

Definition walkAction (a : Action) : Walked :=
  andthen (visit (VisitAction v a)) (each (fun kv => visit (VisitValue v (Some kv.2))) (range (Parameters a))).

Definition walkRule (r : Rule) : Walked :=
  andthen (visit (VisitRule v r))
  (andthen (match Conditions r with Some c => walkCondition c | None => walk_end end) (each walkAction (Actions r))).

Definition walkVariable (x : VariableDef) : Walked :=
  andthen (visit (VisitVariable v x)) (visit (VisitValue v (v_Value x))).

Definition Walk (p : Policy) : Walked :=
  andthen (visit (VisitPolicy v p))
  (andthen (each (fun kv => walkVariable kv.2) (range (Variables p))) (each walkRule (Rules p))).

(** *** The nodes in order *)

Inductive Node :=
| NPolicy (p : Policy) | NRule (r : Rule) | NCondition (c : ConditionNode) | NAction (a : Action)
| NValue (x : option ValueNode) | NVariable (x : VariableDef).

Definition visit_node (n : Node) : S -> option E * S :=
  match n with
  | NPolicy p => VisitPolicy v p
  | NRule r => VisitRule v r
  | NCondition c => VisitCondition v (Some c)
  | NAction a => VisitAction v a
  | NValue x => VisitValue v x
  | NVariable x => VisitVariable v x
  end.

Fixpoint condition_nodes (cond : ConditionNode) : list Node :=
  [NCondition cond] ++ match cn_Value cond with Some x => [NValue (Some x)] | None => [] end ++
  ((fun a => NValue (Some a)) <$> Args cond) ++
  flat_map (fun child => match child with Some c => condition_nodes c | None => [] end) (Children cond).

Definition action_nodes (a : Action) : list Node := NAction a :: ((fun kv => NValue (Some kv.2)) <$> range (Parameters a)).

Definition rule_nodes (r : Rule) : list Node :=
  NRule r :: match Conditions r with Some c => condition_nodes c | None => [] end ++ flat_map action_nodes (Actions r).

Definition policy_nodes (p : Policy) : list Node :=
  NPolicy p :: flat_map (fun kv => [NVariable kv.2; NValue (v_Value kv.2)]) (range (Variables p)) ++ flat_map rule_nodes (Rules p).

(** No nil condition below a condition. *)
Fixpoint no_nil (cond : ConditionNode) : Prop :=
  foldr (fun child P => match child with Some c => no_nil c | None => False end /\ P) True (Children cond).

Definition walks (w : Walked) (nodes : list Node) : Prop :=
  forall s, w s = each (fun n => visit (visit_node n)) nodes s.

Lemma each_app {A} (f : A -> Walked) l1 l2 s : each f (l1 ++ l2) s = andthen (each f l1) (each f l2) s.
Proof.
  revert s. induction l1 as [|x l1 IH]; intros s; [done|]. unfold each, andthen in *. cbn [app foldr] in *.
  destruct (f x s) as [[[e|] s']|]; [done| |done]. apply IH.
Qed.

Lemma walks_andthen a b l1 l2 : walks a l1 -> walks b l2 -> walks (andthen a b) (l1 ++ l2).
Proof.
  intros Ha Hb s. rewrite each_app. unfold andthen. rewrite Ha. destruct (each _ l1 s) as [[[e|] s']|]; [done| |done]. apply Hb.
Qed.

Lemma walks_visit n : walks (visit (visit_node n)) [n].
Proof. intros s. unfold each, andthen, visit. simpl. by destruct (visit_node n s) as [[e|] s']. Qed.

Lemma walks_end : walks walk_end [].
Proof. done. Qed.

Lemma walks_each {A} (f : A -> Walked) (g : A -> list Node) l :
  Forall (fun x => walks (f x) (g x)) l -> walks (each f l) (flat_map g l).
Proof. induction 1 as [|x l Hx _ IH]; [apply walks_end|]. by apply walks_andthen. Qed.

Lemma walks_values {A} (h : A -> ValueNode) l :
  walks (each (fun x => visit (VisitValue v (Some (h x)))) l) ((fun x => NValue (Some (h x))) <$> l).
Proof.
  replace ((fun x => NValue (Some (h x))) <$> l) with (flat_map (fun x => [NValue (Some (h x))]) l).
  - apply walks_each. apply Forall_true. intros x. apply (walks_visit (NValue (Some (h x)))).
  - induction l as [|x l IH]; [done|]. rewrite fmap_cons. simpl. by rewrite IH.
Qed.

Lemma walks_condition c : no_nil c -> walks (walkCondition c) (condition_nodes c).
Proof.
  induction c as [c IH] using condition_ind. intros Hn. destruct c as [ty fd op val fn args children]. cbn [walkCondition condition_nodes].
  apply (walks_andthen _ _ [_]); [apply (walks_visit (NCondition _))|].
  apply walks_andthen; [destruct val; [apply (walks_visit (NValue _))|apply walks_end]|].
  apply walks_andthen; [apply (walks_values id)|]. cbn [Args Children].
  apply walks_each. cbn in Hn, IH. induction IH as [|ch children Hch _ IHc]; [constructor|]. cbn in Hn. destruct Hn as [Hc Hn].
  constructor; [|by apply IHc]. destruct ch as [ch|]; [|done]. by apply Hch.
Qed.

Lemma walks_action a : walks (walkAction a) (action_nodes a).
Proof. apply (walks_andthen _ _ [_]); [apply (walks_visit (NAction a))|apply (walks_values snd)]. Qed.

Lemma walks_rule r : (forall c, Conditions r = Some c -> no_nil c) -> walks (walkRule r) (rule_nodes r).
Proof.
  intros Hc. apply (walks_andthen _ _ [_]); [apply (walks_visit (NRule r))|].
  apply walks_andthen.
  - destruct (Conditions r) as [c|]; [by apply walks_condition, Hc|apply walks_end].
  - apply walks_each, Forall_true, walks_action.
Qed.

(** A walk visits exactly the nodes of the policy, parents before their children
    and in the order of the source (variables and parameters in the order of their
    maps), each with the method of its kind, and stops at the first error. *)
Theorem walk_visits_all p :
  (forall r c, r ∈ Rules p -> Conditions r = Some c -> no_nil c) -> walks (Walk p) (policy_nodes p).
Proof.
  intros Hn. apply (walks_andthen _ _ [_]); [apply (walks_visit (NPolicy p))|].
  apply walks_andthen; apply walks_each.
  - apply Forall_true. intros kv. apply (walks_andthen _ _ [_] [_]);
      [apply (walks_visit (NVariable _))|apply (walks_visit (NValue _))].
  - apply Forall_forall. intros r Hr. apply walks_rule. eauto.
Qed.
End visitor.
Arguments Visitor : clear implicits.
Arguments Node : clear implicits.

(** ** Values and locations *)

(** [v.Value.(string)] panics for every other value. *)
Definition value_String (x : ValueNode) : option string :=
  if String.eqb (vn_Type x) ValueTypeVariable then Some ("{{ variables." +:+ VariableName x +:+ " }}")
  else if String.eqb (vn_Type x) ValueTypeNull then Some "null"
  else match vn_Value x with VString s => Some s | _ => None end.

Record Location := mkLocation { lo_File : string; lo_Line : Z; lo_Column : Z }.

Definition location_String (l : Location) : string :=
  if String.eqb (lo_File l) "" then "<unknown>" else lo_File l +:+ ":" +:+ pretty (lo_Line l) +:+ ":" +:+ pretty (lo_Column l).

Definition IsValid (l : Location) : bool := negb (String.eqb (lo_File l) "") && (0 <? lo_Line l).

(** ** Errors with their context *)

Definition newline : string := String "010" EmptyString.
Definition spaces (n : Z) : string := String.concat "" (repeat " " (Z.to_nat n)).

(** [fmt.Sprintf("%*d", width, n)] *)
Definition padded (width n : Z) : string :=
  let t := pretty n in spaces (width - Z.of_nat (String.length t)) +:+ t.

(** The line [i] of the context, with the column below it for the line of the
    error. *)
Definition context_line (width errorLine column : Z) (i : Z) (text : string) : list string :=
  [(if i =? errorLine then "->" else "  ") +:+ " " +:+ padded width (i + 1) +:+ " | " +:+ text] ++
  (if (i =? errorLine) && (0 <? column)
   then ["  " +:+ spaces width +:+ " | " +:+ spaces (width + 3 + column) +:+ "^"] else []).

(** [lines] are those of the file; [None] when it cannot be read. *)
Definition ExtractContext (lines : option (list string)) (l : Location) (contextLines : Z) : string :=
  if negb (IsValid l) then ""
  else
    match lines with
    | None => ""
    | Some lines =>
        let errorLine := lo_Line l - 1 in
        let startLine := Z.max 0 (errorLine - contextLines) in
        let endLine := if Z.of_nat (length lines) <=? errorLine + contextLines then Z.of_nat (length lines) - 1 else errorLine + contextLines in
        let width := Z.of_nat (String.length (pretty (endLine + 1))) in
        String.concat "" ((fun t => t +:+ newline) <$>
          flat_map (fun i => context_line width errorLine (lo_Column l) i (default "" (lines !! Z.to_nat i)))
            (seqZ startLine (endLine - startLine + 1)))
    end.

Definition error_text (e : MplError) (l : Location) (context : string) : string :=
  "[" +:+ me_Type e +:+ "] " +:+ me_Message e +:+ newline +:+
  (if IsValid l then "  --> " +:+ location_String l +:+ newline else "") +:+
  (if String.eqb context "" then "" else "  |" +:+ newline +:+ context +:+ "  |" +:+ newline) +:+
  (if String.eqb (me_Suggestion e) "" then "" else "  = suggestion: " +:+ me_Suggestion e +:+ newline).

Fixpoint numbered (i : Z) (texts : list string) : string :=
  match texts with
  | [] => ""
  | t :: texts => "Error " +:+ pretty (i + 1) +:+ ":" +:+ newline +:+ t +:+ newline +:+ numbered (i + 1) texts
  end.

Definition list_text (texts : list string) : string :=
  match texts with
  | [] => ""
  | _ => "Found " +:+ pretty (Z.of_nat (length texts)) +:+ " error(s):" +:+ newline +:+ newline +:+ numbered 0 texts
  end.

(** The lines shown are lines of the file: no index of the loop is out of range,
    also for a location beyond the end of the file. *)
Theorem context_in_range (lines : list string) (l : Location) contextLines i :
  0 <= contextLines -> 0 < lo_Line l ->
  let errorLine := lo_Line l - 1 in
  let startLine := Z.max 0 (errorLine - contextLines) in
  let endLine := if Z.of_nat (length lines) <=? errorLine + contextLines then Z.of_nat (length lines) - 1 else errorLine + contextLines in
  i ∈ seqZ startLine (endLine - startLine + 1) -> is_Some (lines !! Z.to_nat i).
Proof.
  intros Hc Hl errorLine startLine endLine Hi. apply elem_of_seqZ in Hi. apply lookup_lt_is_Some_2.
  unfold endLine in Hi. destruct (Z.leb_spec (Z.of_nat (length lines)) (errorLine + contextLines)); lia.
Qed.

Lemma spaces_length n : String.length (spaces n) = Z.to_nat n.
Proof.
  unfold spaces. induction (Z.to_nat n) as [|k IH]; [done|]. cbn [repeat]. destruct k as [|k]; [done|].
  change (S (String.length (String.concat "" (repeat " " (S k)))) = S (S k)). by rewrite IH.
Qed.

(** The caret stands in the column [width + 3] to the right of the character it is
    meant to point at: the number and the bar are counted twice. *)
Theorem caret_misplaced width column (text : string) (n : Z) :
  0 < column -> Z.of_nat (String.length (pretty n)) <= width ->
  let before := "->" +:+ " " +:+ padded width n +:+ " | " in
  Z.of_nat (String.length ("  " +:+ spaces width +:+ " | " +:+ spaces (width + 3 + column))) =
  Z.of_nat (String.length before) + (column - 1) + (width + 3).
Proof.
  intros Hc Hw before. unfold before, padded. rewrite !string_length_app, !spaces_length.
  cbn [String.length]. lia.
Qed.

(** ** The package *)

Section package.
Context `{MapRange} `{Fmt}.
Variable parseTime : string -> option Time.
Variable files : Files.

Definition checked (r : Parsed) : option (result ParseErr Policy) :=
  r ← r;
  match r with
  | Err e => Some (Err e)
  | Ok policy =>
      verdict ← Validate policy;
      Some (match verdict with Some el => Err (PList el) | None => Ok policy end)
  end.

Definition ParseAndValidate (path : string) : option (result ParseErr Policy) := checked (Parse parseTime files NewParser path).

Definition ParseAndValidateBytes (data sourcePath : string) : option (result ParseErr Policy) :=
  checked (ParseBytes parseTime files NewParser data sourcePath).
End package.

(** The text of a number is a panic. *)
Example number_text_panics :
  value_String (mkValueNode ValueTypeNumber (VFloat64 (of_int 1)) "") = None /\
  value_String (mkValueNode ValueTypeString (VString "x") "") = Some "x".
Proof. by vm_compute. Qed.

(** The caret below the second column of the third line. *)
Example context_example :
  ExtractContext (Some ["a"; "b"; "cd"; "e"]) (mkLocation "p.yaml" 3 2) 1 =
  "   2 | b" +:+ newline +:+ "-> 3 | cd" +:+ newline +:+ "    |       ^" +:+ newline +:+ "   4 | e" +:+ newline.
Proof. by vm_compute. Qed.
